(* ===== verification/_CoqProject ===== *)
-Q . S2P
Prelude.v
Bitmap.v
Kmalloc.v
Pagepool.v
Vm.v
Sched.v
SchedSpec.v
Devices.v
DevicesSpec.v
Semaphore.v
Disk.v
DiskSpec.v
Heap.v
Libc.v
Bootargs.v
Tty.v
TtySpec.v
FsCodes.v
Tfs.v
TfsSpec.v
TfsDir.v
TfsInit.v
Tfstool.v
TfstoolSpec.v
Net.v
NetSpec.v
NetRun.v
NetSock.v
NetServe.v
NetThm.v
NetLoop.v
NetInit.v
Vfs.v
VfsSpec.v
VfsTfs.v
Process.v
ProcessSpec.v
Io.v
IoSpec.v
Elf.v
ElfSpec.v
UserMem.v
Fork.v
ForkSpec.v
Loader.v
LoaderSpec.v
UsrSem.v
Syscall.v
SyscallSpec.v
Xprintf.v
XprintfSpec.v
UserLib.v
UserHeap.v
UserHeapSpec.v
Metadev.v
Debug.v
Polltty.v
UserCalls.v
Boot.v
BootSpec.v
Startup.v
