(* ===== verification/Prelude.v ===== *)
(** * Buenos, the kernel and the heap exercise of the repository

    The repository holds Buenos, a small educational kernel for the simulated
    MIPS32 machine YAMS (src/buenos/), and a binary heap (src/heap/).  This
    development models the parts of both that carry the logic of the system
    and proves what makes them correct.

    ** The parts of the program and the files that model them

    - lib/bitmap.c is [Bitmap]: bit vectors in 32-bit words, and the search for
      a clear bit.  It serves the page pool and the allocation block of a disk.
    - kernel/kmalloc.c is [Kmalloc]: permanent memory that is handed out while
      the kernel starts.
    - vm/pagepool.c is [Pagepool]: the physical pages.  Its promise to the rest
      is the class [PageAlloc]; [Vm], [Process] and [Fork] are written against
      the class.
    - vm/vm.c, vm/pagetable.h and vm/tlb.c are [Vm]: page tables, and what the
      TLB exceptions make of them.
    - kernel/scheduler.c, kernel/thread.c and kernel/sleepq.c are [Sched]: the
      thread table with the ready list and the hash chains of sleeping threads
      threaded through it, and the current thread of each processor.
      [SchedSpec] has the theorems about runs of the whole.  The promise of the
      sleep queue to its clients is the class [SleepQueue].
    - kernel/semaphore.c is [Semaphore], over [SleepQueue].
    - lib/libc.c is [Libc]: strings and memory.
    - fs/tfs.c is [Tfs], the trivial filesystem on a disk given by the class
      [BlockDevice]; [TfsSpec] is about reading and writing, [TfsDir] about
      creating and removing files.
    - fs/vfs.c and fs/filesystems.c are [Vfs], the layer of mounted volumes and
      open files, over the class [Filesystems]; [VfsSpec] proves its theorems
      against the class and [VfsTfs] shows that [Tfs] implements the class.
      The return codes of fs/vfs.h are in [FsCodes].
    - proc/process.c is [Process] (the process table, starting, finishing,
      joining, growing the heap, the files of a process) with [ProcessSpec],
      and [Fork] (process_fork and its setup function) with [ForkSpec].
    - proc/io.c is [Io] with [IoSpec]: what a process does with its handles.
    - proc/usr_sem.c is [UsrSem]: semaphores with names for processes.
    - proc/elf.c is [Elf] with [ElfSpec]: reading the headers of an executable
      through the layer of open files.
    - process_start of proc/process.c is [Loader] with [LoaderSpec].  The
      kernel fills the image through the addresses of the process; [UserMem]
      is what a load or a store at such an address does, by way of the TLB
      handlers of [Vm], or directly at the addresses from 0x80000000 to
      0xbfffffff.
    - proc/syscall.c, proc/exception.c, kernel/exception.c and kernel/halt.c are
      [Syscall] with [SyscallSpec]: the state of the whole kernel as one record,
      and the system calls and exceptions of user programs on it.  Whether
      another processor is inside an interrupt handler, the global
      _is_in_interrupt, is an argument, [in_interrupt].
    - lib/xprintf.c is [Xprintf] with [XprintfSpec]: formatted output to a
      buffer or to the polling terminal.
    - drivers/tty.c is [Tty] with [TtySpec]: the terminal driver on the ports of
      its device, the class [TtyPort]; what the driver relies on is [TtyLaws].
    - drivers/disk.c and disksched.c are [Disk] with [DiskSpec]: the disk driver
      on the registers of the disk, the class [DiskPort], and the semaphores.
    - drivers/device.c, drivers.c and metadev.c and kernel/interrupt.c are
      [Devices] with [DevicesSpec]; drivers/bootargs.c is [Bootargs].  The
      functions of metadev.c that use a device, and kernel/panic.c, are
      [Metadev], on registers, the class [IoPorts].
    - drivers/polltty.c and kwrite and kread of lib/libc.c are [Polltty]; that
      time passes while a device is polled is the class [PollLaws].
    - The functions of tests/lib.c that make a system call are [UserCalls].
    - init of init/main.c is [Boot] with [BootSpec]: the static variables of all
      the components in one record, and their initialisers in turn.  The
      thread it starts is [Startup].  lib/debug.c is [Debug].
    - tfs_init of fs/tfs.c is [TfsInit].
    - tests/lib.c, the library of user programs, is [UserLib] (strings, input
      and output) and [UserHeap] with [UserHeapSpec] (malloc and free on the
      bytes of the process, over the class [Memlimit]).
    - util/tfstool.c is [Tfstool] with [TfstoolSpec]: the commands of the disk
      image tool on the files of the host.
    - net/: [Net] models socket.c, pop.c, network.c and protocols.c on the bytes
      of memory, over the page pool, the semaphores and the devices, which are
      the class [NetDevice]; what the code relies on in a device is [NetLaws].
      [NetSpec] has memory, the invariant and the steps; [NetRun] sending and the
      queue, [NetSock] the table of sockets, [NetServe] the service thread;
      [NetThm] the runs of all of them together, [NetLoop] a packet's way and
      [NetInit] start-up, over the class [ThreadLaws] (which threads have been
      made ready, and what they run), which the scheduler implements.
    - src/heap/sequential-heap.c is [Heap].

    ** How the code is modelled

    An operation is a function of the monad [K S] of this file: it takes the
    state [S] of its component and gives an outcome, [Ok] with a value and the
    new state, or one of the other outcomes of [res].  [Panic] is a failed
    KERNEL_ASSERT or a KERNEL_PANIC; [Block] is a P on a semaphore without
    value where the model has no other thread that could raise it; [Undef] is
    an access C gives no meaning to (out of an array, through a bad pointer);
    [NoFuel] is a loop that needs more turns than its fuel.  [wp m Q s] says
    that [m] ends in [Ok] and [Q] holds of the result, so every theorem of that
    form also says that the code neither panics nor runs out of fuel.

    Integers are of type [Z]; where the code computes in 32 bits the wrap-around
    is written out with [u32] and [s32].  Memory is bytes where the code looks
    at bytes (disk blocks, strings, buffers) and records where it uses structs.
    Pointers are addresses where the code computes with them or compares them
    (sleep queue resources, page tables, user semaphores), indices elsewhere.
    A component that is used by others appears in their state, and [zoom] runs
    its operations there.

    A section of code under a spin lock with interrupts off runs as one step.
    Where a thread waits in the middle of a function, the function is cut there
    into parts that other threads' steps may come between: P of a semaphore
    ([semaphore_P_locked], which [sem_step] interleaves with others),
    [vfs_deinit] ([deinit_begin], [deinit_resume]) and [process_join]
    ([join_turn]).

    ** What the theorems show

    - Scheduling: from start-up on, no sequence of thread and sleep-queue
      operations can panic the scheduler or break its lists; threads run in the
      order they became ready, and every ready thread runs after finitely many
      turns; a wake-up between going to sleep and switching away is not lost;
      waking is first in first out.
    - Semaphores: over all interleavings the value is the initial value plus
      the Vs minus the Ps, and waiters are served in order.
    - Memory: no physical page is handed out twice; areas of kmalloc do not
      overlap; a page table refines a finite map from pages to frames; the TLB
      handlers read that map.
    - Files: a write replaces exactly the bytes of its range on the disk and
      a read returns them; creating and removing files keep the directory and
      the allocation block in step; the positions of open files move as in a
      sequential file; unmounting waits for the operations that are running.
    - Processes: a parent gets the exit code of its child exactly once, whether
      it joins first or the child exits first; a fork copies the address space;
      handles give access to the process's own files only.
    - Programs: elf_parse_header accepts exactly the files its format describes
      and returns their segments; process_start gives a process the image that
      the file describes, on pages of its own, or stops the kernel when the
      page of the heap is already in use.
    - System calls: a call changes no registers but the caller's V0 and program
      counter, and no memory but the frames of the buffer of a read: frames the
      caller may write, unless its buffer is at addresses of the kernel, which
      are not tested; reading and writing an open file moves the bytes between
      the caller's buffer and the file.
    - Terminal: over all interleavings of writers, readers, interrupts and
      keys, no character is lost, doubled or reordered while the read buffer
      has room, and nobody sleeps beside a buffer he could use.
    - Disk: over all interleavings of callers and interrupts, requests are
      served in order, each exactly once, and a caller goes on only when its
      request is done.
    - Devices: every device a driver knows is found, with its handler
      registered; an interrupt calls the handlers that are asked for, and then
      the scheduler when it has to.  Boot arguments are found as given.
    - Mounting: tfs_init mounts exactly the disks with blocks of 512 bytes and
      the magic number, and gives back all it took when it fails.
    - Formatted output prints what a reference definition of the format says,
      within the size of the buffer, for formats without the digits 0 and 9 in
      widths (with a 9 the code hangs); what snprintf prints for a number atoi
      reads back.
    - User heap: over any sequence of calls, live blocks do not overlap, keep
      their contents and are apart from the free list; only a realloc whose copy
      would run behind the end of the memory fails.
    - Disk image tool: the images it makes are mounted by the kernel, a file it
      writes is read back by the kernel, and deleting gives the blocks back.
    - Network: over the interleavings of calls, service thread and receiving
      threads that keep the rules the theorem lists, ports are unique, no page
      is lost or used twice, and the kernel panics in two cases only (no page for
      a receiving thread; a packet too long when there is no interface); a packet
      to the loopback address reaches the receiver.  A call is one step, but for
      the places where it waits; the service thread makes its two steps, with the
      locks and without them, apart, and a receiving thread its three: it gets a
      page, a frame arrives, the frame is passed on.
    - Start-up: on a machine with enough memory init comes to the point where the
      first thread runs, and every component is then in the state its own
      theorems start from; that thread makes the program of the boot arguments a
      process and waits for its end.  The calls of the user library reach the kernel
      functions of the same name with the caller's values.
    - Heap: insertion refines the insertion of a shifted path in a functional
      tree and keeps heap order and the shape of a complete tree.

    ** Fuel

    [chain_fuel] of [Sched] is one more than the number of threads, which bounds
    every chain in the thread table; the fuel of [Heap] is one more than the
    number of allocated nodes, which bounds the depth of the tree.  The theorems
    about these functions end in [Ok], so the fuel is enough.  The
    loops that poll a terminal have as fuel the number of times its status is
    read; the theorems ask for more than the device needs to get ready.  All
    other loops have a bound in the code and run on it.

    ** Not modelled

    - thread_goto_userland, _tlb.S and the other assembler parts: they load and
      save registers.  Spin locks appear as the atomicity of what they guard.
    - What init and the start-up thread print.
    - drivers/timer.c: it sets one register of the processor.  For the filesystem
      a disk is the class [BlockDevice], for system calls the terminal is the
      class [Console].
    - The copying of the interrupt vectors, which are assembler.
    - Drivers of network devices: there are none in the sources.
    - tests/ but for lib.c: user programs.
    - src/heap/concurrent-heap.c is the text of the sequential heap. *)

From stdpp Require Export prelude gmap list numbers strings.

(** ** C arithmetic *)

#[export] Set Default Proof Using "Type".
#[export] Set Warnings "-clear-no-such-hyp".
Local Open Scope Z_scope.

(** Conversion to a 32-bit unsigned integer ([uint32_t]). *)
Definition u32 (z : Z) : Z := z mod 2 ^ 32.

(** Conversion to a 32-bit signed integer ([int]): two's complement. *)
Definition s32 (z : Z) : Z := (z + 2 ^ 31) mod 2 ^ 32 - 2 ^ 31.

(** Conversion to a 16-bit unsigned integer ([uint16_t]). *)
Definition u16 (z : Z) : Z := z mod 2 ^ 16.

(** A byte of memory read as a plain [char], which is signed on this target. *)
Definition schar (b : Z) : Z := if b <? 128 then b else b - 256.

(** The values of the integer types. *)
Definition is_u32 (z : Z) : Prop := 0 ≤ z < 2 ^ 32.
Definition is_s32 (z : Z) : Prop := - 2 ^ 31 ≤ z < 2 ^ 31.
Definition is_byte (z : Z) : Prop := 0 ≤ z < 256.

(** ** Outcomes of kernel code *)

(** A call ends in a value; stops the machine ([KERNEL_PANIC], or
    [KERNEL_ASSERT] of a false condition); waits on a semaphore that has no
    value left; has no defined meaning in C (an access outside an object);
    or, for a fuelled loop only, runs out of the fuel it was given. *)
Inductive res (A : Type) : Type :=
| Ok (a : A)
| Panic (msg : string)
| Block
| Undef
| NoFuel.
Arguments Ok {A} a.
Arguments Panic {A} msg.
Arguments Block {A}.
Arguments Undef {A}.
Arguments NoFuel {A}.

#[global] Instance res_ret : MRet res := λ A a, Ok a.
#[global] Instance res_bind : MBind res := λ A B f m,
  match m with
  | Ok a => f a
  | Panic e => Panic e
  | Block => Block
  | Undef => Undef
  | NoFuel => NoFuel
  end.

(** Code that works on a state [S]: the state is passed explicitly, and lost
    when the call does not return. *)
Definition K (S A : Type) : Type := S → res (A * S).

#[global] Instance K_ret {S} : MRet (K S) := λ A a s, Ok (a, s).
#[global] Instance K_bind {S} : MBind (K S) := λ A B f m s,
  match m s with
  | Ok (a, s') => f a s'
  | Panic e => Panic e
  | Block => Block
  | Undef => Undef
  | NoFuel => NoFuel
  end.

Section operations.
Context {S : Type}.

(** Read a part of the state. *)
Definition gets {A} (f : S → A) : K S A := λ s, Ok (f s, s).

(** Change the state. *)
Definition modify (f : S → S) : K S unit := λ s, Ok (tt, f s).

(** [KERNEL_PANIC(msg)]. *)
Definition panic {A} (msg : string) : K S A := λ _, Panic msg.

(** [KERNEL_ASSERT(condition)]. *)
Definition kassert (b : bool) : K S unit := λ s,
  if b then Ok (tt, s) else Panic "Assertion failed".

(** Code whose result does not depend on the state. *)
Definition pure {A} (r : res A) : K S A := λ s,
  match r with
  | Ok a => Ok (a, s)
  | Panic e => Panic e
  | Block => Block
  | Undef => Undef
  | NoFuel => NoFuel
  end.

(** Run code of a component on its part of a larger state. *)
Definition zoom {T A} (get : S → T) (put : T → S → S) (m : K T A) : K S A := λ s,
  match m (get s) with
  | Ok (a, t) => Ok (a, put t s)
  | Panic e => Panic e
  | Block => Block
  | Undef => Undef
  | NoFuel => NoFuel
  end.

(** [for (j = i; j < i + n; j++) body(j)], where [body] may leave the loop
    ([break], [return], [goto]) with a value. *)
Fixpoint for_ {R} (n : nat) (i : Z) (body : Z → K S (option R)) : K S (option R) :=
  match n with
  | O => mret None
  | Datatypes.S n' =>
      r ← body i;
      match r with
      | Some x => mret (Some x)
      | None => for_ n' (i + 1) body
      end
  end.

(** The same without an early exit. *)
Fixpoint for_each (n : nat) (i : Z) (body : Z → K S unit) : K S unit :=
  match n with
  | O => mret tt
  | Datatypes.S n' => body i;; for_each n' (i + 1) body
  end.

End operations.

(** ** Arrays *)

(** [a[i]] read and written; outside the array C gives no meaning. *)
Definition aget {A} (l : list A) (i : Z) : res A :=
  if i <? 0 then Undef
  else match l !! Z.to_nat i with Some x => Ok x | None => Undef end.

Definition aset {A} (l : list A) (i : Z) (x : A) : res (list A) :=
  if i <? 0 then Undef
  else if (Z.to_nat i <? length l)%nat then Ok (<[Z.to_nat i := x]> l) else Undef.

(** A [uint32_t] of four bytes, and its bytes; the machine is big-endian. *)
Definition be32 (b0 b1 b2 b3 : Z) : Z := b0 * 2 ^ 24 + b1 * 2 ^ 16 + b2 * 2 ^ 8 + b3.
Definition bytes32 (v : Z) : list Z :=
  [v / 2 ^ 24 mod 2 ^ 8; v / 2 ^ 16 mod 2 ^ 8; v / 2 ^ 8 mod 2 ^ 8; v mod 2 ^ 8].

(** The first index of [i .. i + n - 1] that satisfies [p]: a loop that
    searches a table without changing it. *)
Fixpoint find_idx (n : nat) (i : Z) (p : Z → bool) : option Z :=
  match n with
  | O => None
  | S n' => if p i then Some i else find_idx n' (i + 1) p
  end.

(** ** Lemmas on C integers *)

Lemma u32_small z : is_u32 z → u32 z = z.
Proof. intros ?. by apply Z.mod_small. Qed.

Lemma u32_range z : is_u32 (u32 z).
Proof. by apply Z.mod_pos_bound. Qed.

Lemma s32_small z : is_s32 z → s32 z = z.
Proof. unfold is_s32, s32. intros ?. rewrite Z.mod_small; lia. Qed.

Lemma s32_u32 v : is_s32 v → s32 (u32 v) = v.
Proof. intros Hv. rewrite <- (s32_small v) at 2 by done. unfold s32, u32. by rewrite Zplus_mod_idemp_l. Qed.

Lemma s32_range z : is_s32 (s32 z).
Proof.
  unfold is_s32, s32.
  pose proof (Z.mod_pos_bound (z + 2 ^ 31) (2 ^ 32) ltac:(lia)). lia.
Qed.

Lemma schar_zero b : is_byte b → schar b = 0 ↔ b = 0.
Proof. unfold is_byte, schar. intros ?. case (Z.ltb_spec b 128); lia. Qed.

Lemma schar_inj a b : is_byte a → is_byte b → schar a = schar b → a = b.
Proof.
  unfold is_byte, schar. intros ??.
  case (Z.ltb_spec a 128), (Z.ltb_spec b 128); lia.
Qed.

Lemma bytes32_be32 b0 b1 b2 b3 :
  is_byte b0 → is_byte b1 → is_byte b2 → is_byte b3 → bytes32 (be32 b0 b1 b2 b3) = [b0; b1; b2; b3].
Proof.
  unfold is_byte, bytes32, be32. intros. repeat f_equal.
  - symmetry. apply (Z.mod_unique_pos _ _ 0); [done |].
    rewrite Z.mul_0_r, Z.add_0_l. symmetry. apply (Z.div_unique_pos _ _ _ (b1 * 2 ^ 16 + b2 * 2 ^ 8 + b3)); lia.
  - symmetry. apply (Z.mod_unique_pos _ _ b0); [done |].
    symmetry. apply (Z.div_unique_pos _ _ _ (b2 * 2 ^ 8 + b3)); lia.
  - symmetry. apply (Z.mod_unique_pos _ _ (b0 * 2 ^ 8 + b1)); [done |].
    symmetry. apply (Z.div_unique_pos _ _ _ b3); lia.
  - symmetry. apply (Z.mod_unique_pos _ _ (b0 * 2 ^ 16 + b1 * 2 ^ 8 + b2)); lia.
Qed.

Lemma be32_bytes32 v :
  is_u32 v →
  be32 (v / 2 ^ 24 mod 2 ^ 8) (v / 2 ^ 16 mod 2 ^ 8) (v / 2 ^ 8 mod 2 ^ 8) (v mod 2 ^ 8) = v.
Proof.
  unfold is_u32, be32. intros ?.
  assert (H1 : v / 2 ^ 16 = v / 2 ^ 8 / 2 ^ 8) by (by rewrite Z.div_div).
  assert (H2 : v / 2 ^ 24 = v / 2 ^ 8 / 2 ^ 8 / 2 ^ 8) by (by rewrite !Z.div_div).
  pose proof (Z.div_mod v (2 ^ 8) ltac:(lia)). pose proof (Z.div_mod (v / 2 ^ 8) (2 ^ 8) ltac:(lia)).
  pose proof (Z.div_mod (v / 2 ^ 8 / 2 ^ 8) (2 ^ 8) ltac:(lia)).
  assert (v / 2 ^ 24 < 2 ^ 8) by (apply Z.div_lt_upper_bound; lia).
  rewrite (Z.mod_small (v / 2 ^ 24)) by (split; [apply Z.div_pos; lia | done]). rewrite H1, H2. lia.
Qed.

Lemma be32_u32 b0 b1 b2 b3 : is_byte b0 → is_byte b1 → is_byte b2 → is_byte b3 → is_u32 (be32 b0 b1 b2 b3).
Proof. unfold is_byte, is_u32, be32. lia. Qed.

(** ** Lemmas on arrays *)

Lemma aget_Ok {A} (l : list A) i x :
  aget l i = Ok x ↔ 0 ≤ i ∧ l !! Z.to_nat i = Some x.
Proof.
  unfold aget. case (Z.ltb_spec i 0); [intros; split; [done | lia] |].
  intros ?. destruct (l !! Z.to_nat i) as [y|]; split; try done.
  - intros [= ->]. done.
  - by intros [_ [= ->]].
  - by intros [_ ?].
Qed.

Lemma aget_total {A} (l : list A) i :
  0 ≤ i < Z.of_nat (length l) → ∃ x, aget l i = Ok x ∧ l !! Z.to_nat i = Some x.
Proof.
  intros ?. destruct (lookup_lt_is_Some_2 l (Z.to_nat i)) as [x Hx]; [lia |].
  exists x. split; [apply aget_Ok; split; [lia | done] | done].
Qed.

Lemma aset_Ok {A} (l : list A) i x :
  0 ≤ i < Z.of_nat (length l) → aset l i x = Ok (<[Z.to_nat i := x]> l).
Proof.
  intros ?. unfold aset. case (Z.ltb_spec i 0); [lia | intros _].
  case (Nat.ltb_spec (Z.to_nat i) (length l)); [done | lia].
Qed.

Lemma aset_inv {A} (l l' : list A) i x :
  aset l i x = Ok l' → 0 ≤ i < Z.of_nat (length l) ∧ l' = <[Z.to_nat i := x]> l.
Proof.
  unfold aset. case (Z.ltb_spec i 0); [done |].
  case (Nat.ltb_spec (Z.to_nat i) (length l)); [| done].
  intros ??. intros [= <-]. split; [lia | done].
Qed.

Lemma find_idx_Some n i p j :
  find_idx n i p = Some j ↔
  i ≤ j < i + Z.of_nat n ∧ p j = true ∧ (∀ k, i ≤ k < j → p k = false).
Proof.
  revert i. induction n as [|n IH]; intros i; simpl; [split; [done | lia] |].
  destruct (p i) eqn:Hp.
  - split.
    + intros [= <-]. split; [lia |]. split; [done | lia].
    + intros (Hr & Hj & Hk). destruct (decide (i = j)) as [->|]; [done |].
      rewrite Hk in Hp; [done | lia].
  - rewrite IH. split.
    + intros (Hr & Hj & Hk). split; [lia |]. split; [done |].
      intros k ?. destruct (decide (k = i)) as [->|]; [done | apply Hk; lia].
    + intros (Hr & Hj & Hk). assert (i ≠ j) by congruence.
      split; [lia |]. split; [done |]. intros k ?. apply Hk. lia.
Qed.

Lemma find_idx_None n i p :
  find_idx n i p = None ↔ ∀ k, i ≤ k < i + Z.of_nat n → p k = false.
Proof.
  revert i. induction n as [|n IH]; intros i; simpl; [split; [lia | done] |].
  destruct (p i) eqn:Hp.
  - split; [done |]. intros H. rewrite H in Hp; [done | lia].
  - rewrite IH. split; intros H k ?.
    + destruct (decide (k = i)) as [->|]; [done | apply H; lia].
    + apply H. lia.
Qed.

Lemma find_idx_ext n i p q :
  (∀ k, i ≤ k < i + Z.of_nat n → p k = q k) → find_idx n i p = find_idx n i q.
Proof.
  revert i. induction n as [|n IH]; intros i H; simpl; [done |].
  rewrite H by lia. rewrite IH; [done |]. intros k ?. apply H. lia.
Qed.

(** A statement on a range of indices, checked by evaluation. *)
Lemma range_check (P : Z → bool) n :
  forallb P (seqZ 0 n) = true → ∀ q, 0 ≤ q < n → P q = true.
Proof.
  intros H q ?. rewrite forallb_forall in H. apply H, list_elem_of_In, elem_of_seqZ. lia.
Qed.

(** ** Total correctness: [wp m Q s] holds when [m], run in [s], returns, and
    the value and the state it returns satisfy [Q]. *)

Definition wp {S A} (m : K S A) (Q : A → S → Prop) (s : S) : Prop :=
  match m s with Ok (a, s') => Q a s' | _ => False end.

(** The call returns. *)
Definition is_Ok {A} (r : res A) : Prop := ∃ a, r = Ok a.

(** Partial form, for what holds of every call that does return. *)
Definition wlp {S A} (m : K S A) (Q : A → S → Prop) (s : S) : Prop :=
  match m s with Ok (a, s') => Q a s' | _ => True end.

Section wp_rules.
Context {S : Type}.
Implicit Types s : S.

Lemma wp_iff {A} (m : K S A) Q s : wp m Q s ↔ ∃ a s', m s = Ok (a, s') ∧ Q a s'.
Proof.
  unfold wp. split.
  - destruct (m s) as [[a s']| | | |]; try done. intros. by exists a, s'.
  - intros (a & s' & -> & ?). done.
Qed.

Lemma wlp_iff {A} (m : K S A) Q s : wlp m Q s ↔ ∀ a s', m s = Ok (a, s') → Q a s'.
Proof.
  unfold wlp. split.
  - intros H a s' Hm. by rewrite Hm in H.
  - destruct (m s) as [[a s']| | | |]; try done. intros H. by apply H.
Qed.

Lemma wp_is_Ok {A} (m : K S A) Q s : wp m Q s → is_Ok (m s).
Proof. intros (a & s' & H & _)%wp_iff. by exists (a, s'). Qed.

Lemma wp_mono {A} (m : K S A) (P Q : A → S → Prop) s :
  wp m P s → (∀ a s', P a s' → Q a s') → wp m Q s.
Proof. unfold wp. destruct (m s) as [[]| | | |]; auto. Qed.

Lemma wlp_mono {A} (m : K S A) (P Q : A → S → Prop) s :
  wlp m P s → (∀ a s', P a s' → Q a s') → wlp m Q s.
Proof. unfold wlp. destruct (m s) as [[]| | | |]; auto. Qed.

Lemma wp_ret {A} (a : A) (Q : A → S → Prop) s : Q a s → wp (mret a) Q s.
Proof. done. Qed.

Lemma wp_bind {A B} (m : K S A) (f : A → K S B) Q s :
  wp m (λ a s', wp (f a) Q s') s → wp (m ≫= f) Q s.
Proof. unfold wp, mbind, K_bind. destruct (m s) as [[]| | | |]; done. Qed.

Lemma wp_bind_inv {A B} (m : K S A) (f : A → K S B) Q s :
  wp (m ≫= f) Q s → wp m (λ a s', wp (f a) Q s') s.
Proof. unfold wp, mbind, K_bind. destruct (m s) as [[]| | | |]; done. Qed.

Lemma wlp_bind {A B} (m : K S A) (f : A → K S B) Q s :
  wlp m (λ a s', wlp (f a) Q s') s → wlp (m ≫= f) Q s.
Proof. unfold wlp, mbind, K_bind. destruct (m s) as [[]| | | |]; done. Qed.

Lemma wp_gets {A} (f : S → A) (Q : A → S → Prop) s : Q (f s) s → wp (gets f) Q s.
Proof. done. Qed.

Lemma wp_modify f (Q : unit → S → Prop) s : Q tt (f s) → wp (modify f) Q s.
Proof. done. Qed.

Lemma wp_kassert b (Q : unit → S → Prop) s : b = true → Q tt s → wp (kassert b) Q s.
Proof. by intros ->. Qed.

Lemma wp_pure {A} (r : res A) a (Q : A → S → Prop) s :
  r = Ok a → Q a s → wp (pure r) Q s.
Proof. by intros ->. Qed.

Lemma wp_zoom {T A} get (put : T → S → S) (m : K T A) (Q : A → S → Prop) s :
  wp m (λ a t, Q a (put t s)) (get s) → wp (zoom get put m) Q s.
Proof. unfold wp, zoom. destruct (m (get s)) as [[]| | | |]; done. Qed.

Lemma wlp_zoom {T A} get (put : T → S → S) (m : K T A) (Q : A → S → Prop) s :
  wlp m (λ a t, Q a (put t s)) (get s) → wlp (zoom get put m) Q s.
Proof. unfold wlp, zoom. destruct (m (get s)) as [[]| | | |]; done. Qed.

(** The loop rules: [Inv j s] holds when the loop tests index [j]. *)
Lemma wp_for {R} (Inv : Z → S → Prop) n i (body : Z → K S (option R)) Q s :
  Inv i s →
  (∀ j s, i ≤ j < i + Z.of_nat n → Inv j s →
    wp (body j) (λ r s', match r with Some x => Q (Some x) s' | None => Inv (j + 1) s' end) s) →
  (∀ s, Inv (i + Z.of_nat n) s → Q None s) →
  wp (for_ n i body) Q s.
Proof.
  revert i s. induction n as [|n IH]; intros i s Hi Hb Hq; simpl.
  { apply wp_ret, Hq. by rewrite Z.add_0_r. }
  apply wp_bind. eapply wp_mono; [apply Hb; [lia | done] |].
  intros [x|] s' H; [by apply wp_ret |].
  apply IH; [done | intros j s1 ? Hj; apply Hb; [lia | done] |].
  intros s1 H1. apply Hq. by replace (i + Z.of_nat (Datatypes.S n)) with (i + 1 + Z.of_nat n) by lia.
Qed.

Lemma wp_for_each (Inv : Z → S → Prop) n i (body : Z → K S unit) (Q : unit → S → Prop) s :
  Inv i s →
  (∀ j s, i ≤ j < i + Z.of_nat n → Inv j s → wp (body j) (λ _ s', Inv (j + 1) s') s) →
  (∀ s, Inv (i + Z.of_nat n) s → Q tt s) →
  wp (for_each n i body) Q s.
Proof.
  revert i s. induction n as [|n IH]; intros i s Hi Hb Hq; simpl.
  { apply wp_ret, Hq. by rewrite Z.add_0_r. }
  apply wp_bind. eapply wp_mono; [apply Hb; [lia | done] |].
  intros [] s' H.
  apply IH; [done | intros j s1 ? Hj; apply Hb; [lia | done] |].
  intros s1 H1. apply Hq. by replace (i + Z.of_nat (Datatypes.S n)) with (i + 1 + Z.of_nat n) by lia.
Qed.

(** A loop that comes to an iteration with undefined behaviour. *)
Lemma for_each_Undef (Inv : Z → S → Prop) n i k (body : Z → K S unit) s :
  Inv i s → i ≤ k < i + Z.of_nat n →
  (∀ j s, i ≤ j < k → Inv j s → wp (body j) (λ _ s', Inv (j + 1) s') s) →
  (∀ s, Inv k s → body k s = Undef) → for_each n i body s = Undef.
Proof.
  revert i s. induction n as [|n IH]; intros i s Hi Hk Hb Hu; [lia |]. cbn [for_each]. unfold mbind, K_bind.
  destruct (decide (i = k)) as [->|Hne]; [by rewrite (Hu s Hi) |].
  destruct (proj1 (wp_iff _ _ _) (Hb i s ltac:(lia) Hi)) as ([] & s' & -> & Hi').
  apply IH; [done | lia | intros j s1 ?; apply Hb; lia | done].
Qed.

(** A loop that replaces each row of a table. *)
Lemma wp_for_rows {A} (table : S → list A) (set : list A → S → S) (f : A → A) (ok : A → Prop) (body : Z → K S unit) s (Q : unit → S → Prop) :
  (∀ s, set (table s) s = s) → (∀ l s, table (set l s) = l) → (∀ l l' s, set l (set l' s) = set l s) →
  Forall ok (table s) →
  (∀ i x s Q, 0 ≤ i → table s !! Z.to_nat i = Some x → ok x → Q tt (set (<[Z.to_nat i := f x]> (table s)) s) → wp (body i) Q s) →
  Q tt (set (f <$> table s) s) → wp (for_each (length (table s)) 0 body) Q s.
Proof.
  intros Hid Hget Hset Hok Hb HQ.
  apply (wp_for_each (λ i s', s' = set ((f <$> take (Z.to_nat i) (table s)) ++ drop (Z.to_nat i) (table s)) s)).
  - symmetry. apply Hid.
  - intros i s1 Hi ->. destruct (lookup_lt_is_Some_2 (table s) (Z.to_nat i)) as [x Hx]; [lia |].
    eapply Hb; [lia | | by eapply Forall_lookup_1 |].
    + rewrite Hget, lookup_app_r; rewrite length_fmap, length_take_le by lia; [| lia]. by rewrite Nat.sub_diag, lookup_drop, Nat.add_0_r.
    + rewrite Hset, Hget. f_equal. rewrite insert_app_r_alt; rewrite length_fmap, length_take_le by lia; [| lia].
      rewrite Nat.sub_diag, (drop_S _ _ _ Hx). cbn. replace (Z.to_nat (i + 1)) with (Datatypes.S (Z.to_nat i)) by lia.
      rewrite (take_S_r _ _ _ Hx), fmap_app. by rewrite <- app_assoc.
  - intros s1 ->. rewrite take_ge, drop_ge, app_nil_r by lia. done.
Qed.

(** A search that changes nothing is [find_idx]. *)
Lemma for_find {R} n i (p : Z → bool) (f : Z → R) (body : Z → K S (option R)) s :
  (∀ j, i ≤ j < i + Z.of_nat n → body j s = Ok (if p j then Some (f j) else None, s)) →
  for_ n i body s = Ok (f <$> find_idx n i p, s).
Proof.
  revert i. induction n as [|n IH]; intros i H; simpl; [done |].
  unfold mbind, K_bind. rewrite H by lia. destruct (p i); [done |].
  apply IH. intros j ?. apply H. lia.
Qed.

(** Symbolic execution by rewriting. *)
Lemma bind_Ok {A B} (m : K S A) (f : A → K S B) s a s' :
  m s = Ok (a, s') → (m ≫= f) s = f a s'.
Proof. unfold mbind, K_bind. by intros ->. Qed.

(** A call that panics after another has returned. *)
Lemma bind_Panic {A B} (m : K S A) (f : A → K S B) s msg :
  wp m (λ a s', f a s' = Panic msg) s → (m ≫= f) s = Panic msg.
Proof. intros (a & s' & He & Hf)%wp_iff. by rewrite (bind_Ok m f s a s' He). Qed.

Lemma bind_wp_Panic {A B} (m : K S A) (f : A → K S B) (Q : A → S → Prop) s :
  wp m Q s → (∀ a s', Q a s' → ∃ msg, f a s' = Panic msg) → ∃ msg, (m ≫= f) s = Panic msg.
Proof. intros (a & s' & E & HQ)%wp_iff Hf. destruct (Hf _ _ HQ) as [msg Em]. exists msg. by rewrite (bind_Ok _ _ _ _ _ E). Qed.

Lemma bind_gets {A B} (g : S → A) (f : A → K S B) s : (gets g ≫= f) s = f (g s) s.
Proof. done. Qed.

Lemma bind_kassert {B} b (f : unit → K S B) s : b = true → (kassert b ≫= f) s = f tt s.
Proof. by intros ->. Qed.

(** The iterations that do nothing can be skipped. *)
Lemma for_skip {R} n i k (body : Z → K S (option R)) s :
  (k ≤ n)%nat → (∀ j, i ≤ j < i + Z.of_nat k → body j s = Ok (None, s)) →
  for_ n i body s = for_ (n - k) (i + Z.of_nat k) body s.
Proof.
  revert n i. induction k as [|k IH]; intros n i Hk H.
  { by rewrite Nat.sub_0_r, Z.add_0_r. }
  destruct n as [|n]; [lia |]. simpl. unfold mbind, K_bind. rewrite H by lia.
  rewrite IH; [f_equal; lia | lia | intros j ?; apply H; lia].
Qed.

End wp_rules.

(** ** Automation *)

Create HintDb buenos.
#[export] Hint Resolve u32_range s32_range : buenos.
Create Rewrite HintDb cint.
#[export] Hint Rewrite u32_small s32_small using (unfold is_u32, is_s32; lia) : cint.

(** Turn boolean tests of the code into propositions. *)
Ltac bool_prop :=
  repeat match goal with
  | H : (_ <? _) = true |- _ => apply Z.ltb_lt in H
  | H : (_ <? _) = false |- _ => apply Z.ltb_ge in H
  | H : (_ <=? _) = true |- _ => apply Z.leb_le in H
  | H : (_ <=? _) = false |- _ => apply Z.leb_gt in H
  | H : (_ =? _) = true |- _ => apply Z.eqb_eq in H
  | H : (_ =? _) = false |- _ => apply Z.eqb_neq in H
  | H : (_ && _) = true |- _ => apply andb_true_iff in H as [? ?]
  | H : (_ || _) = false |- _ => apply orb_false_iff in H as [? ?]
  | H : negb _ = true |- _ => apply negb_true_iff in H
  | H : negb _ = false |- _ => apply negb_false_iff in H
  end.

(** Split the test the goal branches on. *)
Ltac case_test :=
  match goal with
  | |- context [if ?b then _ else _] => let H := fresh "Htest" in destruct b eqn:H; bool_prop
  end.

(** One step of symbolic execution of monadic code under [wp]. *)
Ltac wp_step :=
  cbv beta; lazymatch goal with
  | |- wp (mbind _ _) _ _ => apply wp_bind
  | |- wp (mret _) _ _ => apply wp_ret
  | |- wp (gets _) _ _ => apply wp_gets
  | |- wp (modify _) _ _ => apply wp_modify
  | |- wp (zoom _ _ _) _ _ => apply wp_zoom
  | |- wp (kassert _) _ _ => apply wp_kassert
  end; cbv beta.
Ltac wp_steps := repeat wp_step.
