(* ===== verification/Bitmap.v ===== *)
(** * Bitmaps (src/buenos/lib/bitmap.c)

    A bitmap is an array of [uint32_t] words.  The operations are translated
    over the array ([bitmap_t *] as a list of words); [bit] reads the bitmap
    as the function from positions to booleans the comments of the C file
    speak about, and the theorems give each operation in terms of it. *)

From S2P Require Import Prelude.
Local Open Scope Z_scope.

(** ** Operations *)

Definition bitmap_t : Type := list Z.

Definition bitmap_sizeof (num_bits : Z) : Z :=
  s32 (Z.quot (s32 (num_bits + 31)) 32 * 4).

Definition bitmap_init (size : Z) : K bitmap_t unit :=
  kassert (0 <=? size);;
  for_each (Z.to_nat (Z.quot (s32 (size + 31)) 32)) 0 (λ i,
    b ← gets id;
    b' ← pure (aset b i 0);
    modify (λ _, b')).

Definition bitmap_get (pos : Z) : K bitmap_t Z :=
  kassert (0 <=? pos);;
  let i := Z.quot pos 32 in
  let j := Z.rem pos 32 in
  b ← gets id;
  w ← pure (aget b i);
  mret (Z.land (Z.shiftr w j) 1).

Definition bitmap_set (pos value : Z) : K bitmap_t unit :=
  kassert (0 <=? pos);;
  let i := Z.quot pos 32 in
  let j := Z.rem pos 32 in
  b ← gets id;
  if value =? 0 then
    w ← pure (aget b i);
    b' ← pure (aset b i (Z.land w (u32 (Z.lnot (Z.shiftl 1 j)))));
    modify (λ _, b')
  else if value =? 1 then
    w ← pure (aget b i);
    b' ← pure (aset b i (Z.lor w (u32 (Z.shiftl 1 j))));
    modify (λ _, b')
  else panic "bit value other than 0 or 1".

(** The inner loop of [bitmap_findnset]: the bits of word [i]. *)
Definition findnset_word (l i : Z) : K bitmap_t (option Z) :=
  let basepos := s32 (i * 32) in
  for_ 32 0 (λ j,
    v ← bitmap_get (basepos + j);
    if v =? 0 then
      if l <=? basepos + j then mret (Some (-1))
      else bitmap_set (basepos + j) 1;; mret (Some (basepos + j))
    else mret None).

Definition bitmap_findnset (l : Z) : K bitmap_t Z :=
  kassert (0 <=? l);;
  r ← for_ (Z.to_nat (Z.quot (bitmap_sizeof l) 4)) 0 (λ i,
        b ← gets id;
        w ← pure (aget b i);
        if negb (w =? 0xffffffff) then findnset_word l i else mret None);
  mret (default (-1) r).

(** ** The bits of a bitmap *)

(** A bitmap of [n] words, each of 32 bits. *)
Definition bitmap_wf (n : nat) (b : list Z) : Prop :=
  length b = n ∧ Forall is_u32 b.

Definition bit (b : list Z) (p : Z) : bool :=
  Z.testbit (default 0 (b !! Z.to_nat (p / 32))) (p mod 32).

(** Room for [l] bits, the number the C code computes without overflow. *)
Definition bitmap_holds (l : Z) (b : list Z) : Prop :=
  0 ≤ l < 2 ^ 31 - 31 ∧ bitmap_wf (length b) b ∧ l ≤ 32 * Z.of_nat (length b).

(** ** Lemmas *)

Lemma bitmap_sizeof_spec n :
  0 ≤ n < 2 ^ 31 - 31 → bitmap_sizeof n = (n + 31) / 32 * 4.
Proof.
  intros ?. unfold bitmap_sizeof. rewrite (s32_small (n + 31)) by (unfold is_s32; lia).
  rewrite Z.quot_div_nonneg by lia.
  pose proof (Z.div_le_mono (n + 31) (2 ^ 31) 32).
  rewrite s32_small; [done |]. unfold is_s32.
  pose proof (Z.div_pos (n + 31) 32). change (2 ^ 31 / 32) with (2 ^ 26) in *. lia.
Qed.

Lemma land_1_testbit w j : 0 ≤ j → Z.land (Z.shiftr w j) 1 = Z.b2z (Z.testbit w j).
Proof.
  intros ?. change 1 with (Z.ones 1). rewrite Z.land_ones by lia.
  rewrite Z.testbit_spec' by lia. rewrite Z.shiftr_div_pow2 by lia. done.
Qed.

Lemma testbit_set w j k :
  is_u32 w → 0 ≤ j < 32 → 0 ≤ k →
  Z.testbit (Z.lor w (u32 (Z.shiftl 1 j))) k = (Z.testbit w k || (k =? j)).
Proof.
  intros ???. rewrite Z.lor_spec. f_equal. unfold u32.
  rewrite Z.shiftl_1_l, Z.mod_small.
  - rewrite Z.pow2_bits_eqb by lia. lia.
  - split; [lia |]. apply Z.pow_lt_mono_r; lia.
Qed.

Lemma testbit_above w k : is_u32 w → 32 ≤ k → Z.testbit w k = false.
Proof.
  intros [? ?] ?. destruct (decide (w = 0)) as [->|]; [apply Z.bits_0 |].
  apply Z.bits_above_log2; [lia |].
  apply Z.log2_lt_pow2 in H0; lia.
Qed.

Lemma testbit_clear w j k :
  is_u32 w → 0 ≤ j < 32 → 0 ≤ k →
  Z.testbit (Z.land w (u32 (Z.lnot (Z.shiftl 1 j)))) k = (Z.testbit w k && negb (k =? j)).
Proof.
  intros Hw ? Hk. rewrite Z.land_spec.
  destruct (decide (32 ≤ k)); [by rewrite testbit_above |].
  f_equal. unfold u32. rewrite Z.mod_pow2_bits_low by lia.
  rewrite Z.lnot_spec, Z.shiftl_1_l, Z.pow2_bits_eqb by lia. f_equal. lia.
Qed.

Lemma u32_lor a b : is_u32 a → is_u32 b → is_u32 (Z.lor a b).
Proof.
  unfold is_u32. intros ??. split; [apply Z.lor_nonneg; lia |].
  destruct (decide (Z.lor a b = 0)) as [->|]; [lia |].
  assert (0 ≤ Z.lor a b) by (apply Z.lor_nonneg; lia).
  apply Z.log2_lt_pow2; [lia |]. rewrite Z.log2_lor by lia.
  apply Z.max_lub_lt.
  - destruct (decide (a = 0)) as [->|]; [done | apply Z.log2_lt_pow2; lia].
  - destruct (decide (b = 0)) as [->|]; [done | apply Z.log2_lt_pow2; lia].
Qed.

Lemma u32_land a b : is_u32 a → is_u32 b → is_u32 (Z.land a b).
Proof.
  unfold is_u32. intros ??. assert (0 ≤ Z.land a b) by (apply Z.land_nonneg; lia).
  split; [done |]. destruct (decide (Z.land a b = 0)) as [->|]; [lia |].
  apply Z.log2_lt_pow2; [lia |].
  eapply Z.le_lt_trans; [apply Z.log2_land; lia |].
  apply Z.min_lt_iff. left.
  destruct (decide (a = 0)) as [->|]; [done | apply Z.log2_lt_pow2; lia].
Qed.
#[export] Hint Resolve u32_lor u32_land : buenos.

Lemma word_ok n b i w : bitmap_wf n b → b !! i = Some w → is_u32 w.
Proof. intros [_ Hb] ?. by eapply Forall_lookup_1. Qed.

Lemma pos_split p : 0 ≤ p → Z.quot p 32 = p / 32 ∧ Z.rem p 32 = p mod 32 ∧ 0 ≤ p mod 32 < 32.
Proof.
  intros ?. split; [by apply Z.quot_div_nonneg |].
  split; [by apply Z.rem_mod_nonneg |]. by apply Z.mod_pos_bound.
Qed.

Lemma word_index p (b : list Z) :
  0 ≤ p < 32 * Z.of_nat (length b) → 0 ≤ p / 32 < Z.of_nat (length b).
Proof.
  intros ?. split; [apply Z.div_pos; lia | apply Z.div_lt_upper_bound; lia].
Qed.

Lemma bitmap_get_spec b p :
  0 ≤ p < 32 * Z.of_nat (length b) →
  bitmap_get p b = Ok (Z.b2z (bit b p), b).
Proof.
  intros Hp. destruct (pos_split p) as (Hq & Hr & Hm); [lia |].
  destruct (aget_total b (p / 32)) as (w & Hw & Hl); [by apply word_index |].
  unfold bitmap_get, mbind, K_bind, kassert, gets, pure, mret, K_ret. simpl.
  rewrite (proj2 (Z.leb_le 0 p)) by lia. rewrite Hq, Hw, Hr.
  unfold bit. rewrite Hl, land_1_testbit by lia. done.
Qed.

(** The new word that [bitmap_set] stores, and what it does to every bit. *)
Lemma bit_insert n b p q w' :
  bitmap_wf n b → 0 ≤ p < 32 * Z.of_nat n → 0 ≤ q →
  bit (<[Z.to_nat (p / 32) := w']> b) q =
    if q / 32 =? p / 32 then Z.testbit w' (q mod 32) else bit b q.
Proof.
  intros [Hl _] Hp Hq. unfold bit.
  assert (0 ≤ p / 32 < Z.of_nat (length b)) by (apply word_index; lia).
  assert (0 ≤ q / 32) by (apply Z.div_pos; lia).
  destruct (Z.eqb_spec (q / 32) (p / 32)) as [->|].
  - rewrite list_lookup_insert_eq by lia. done.
  - rewrite list_lookup_insert_ne by lia. done.
Qed.

Lemma bitmap_wf_insert n b i w :
  bitmap_wf n b → is_u32 w → bitmap_wf n (<[i := w]> b).
Proof. intros [? ?] ?. split; [by rewrite length_insert | by apply Forall_insert]. Qed.

Lemma same_bit p q : 0 ≤ p → 0 ≤ q →
  q / 32 = p / 32 → (q mod 32 =? p mod 32) = (q =? p).
Proof.
  intros. destruct (Z.eqb_spec q p) as [->|]; [apply Z.eqb_refl |].
  apply Z.eqb_neq. intros Hm. pose proof (Z.div_mod p 32). pose proof (Z.div_mod q 32). lia.
Qed.

Lemma bitmap_set_spec n b p v :
  bitmap_wf n b → 0 ≤ p < 32 * Z.of_nat n →
  ∃ b', bitmap_set p (Z.b2z v) b = Ok (tt, b') ∧ bitmap_wf n b' ∧
    ∀ q, 0 ≤ q → bit b' q = if q =? p then v else bit b q.
Proof.
  intros Hwf Hp. pose proof (proj1 Hwf) as Hl.
  destruct (pos_split p) as (Hq & Hr & Hm); [lia |].
  assert (Hi : 0 ≤ p / 32 < Z.of_nat (length b)) by (apply word_index; lia).
  destruct (aget_total b (p / 32)) as (w & Hw & Hlw); [done |].
  pose proof (word_ok _ _ _ _ Hwf Hlw) as Hwu.
  unfold bitmap_set, mbind, K_bind, kassert, gets, pure, mret, K_ret, modify, id.
  rewrite (proj2 (Z.leb_le 0 p)) by lia. cbv beta iota. rewrite Hq, Hr.
  destruct v; cbv [Z.b2z]; simpl (_ =? _); cbv beta iota; rewrite Hw; cbv beta iota;
    rewrite aset_Ok by done; eexists; (split; [reflexivity |]);
    (split; [apply bitmap_wf_insert; auto with buenos |]); intros q ?;
    rewrite (bit_insert n) by done; unfold bit; destruct (Z.eqb_spec (q / 32) (p / 32)) as [He|He];
    pose proof (Z.mod_pos_bound q 32 ltac:(lia)).
  - rewrite testbit_set, same_bit by (done || lia). rewrite He, Hlw. simpl.
    destruct (q =? p); [apply orb_true_r | apply orb_false_r].
  - destruct (Z.eqb_spec q p) as [->|]; [done | done].
  - rewrite testbit_clear, same_bit by (done || lia). rewrite He, Hlw. simpl.
    destruct (q =? p); [apply andb_false_r | apply andb_true_r].
  - destruct (Z.eqb_spec q p) as [->|]; [done | done].
Qed.

(** A word is full exactly when all its bits are set. *)
Lemma word_full w : is_u32 w → (∀ k, 0 ≤ k < 32 → Z.testbit w k = true) → w = 0xffffffff.
Proof.
  intros Hw Hk. apply Z.bits_inj'. intros k ?.
  change 0xffffffff with (Z.ones 32). destruct (decide (k < 32)).
  - rewrite Hk, Z.ones_spec_low by lia. done.
  - rewrite testbit_above, Z.ones_spec_high by (done || lia). done.
Qed.

Lemma bit_in_word (b : list Z) i j :
  0 ≤ i → 0 ≤ j < 32 → bit b (i * 32 + j) = Z.testbit (default 0 (b !! Z.to_nat i)) j.
Proof.
  intros ??. unfold bit.
  replace ((i * 32 + j) / 32) with i by (apply (Z.div_unique_pos _ _ _ j); lia).
  replace ((i * 32 + j) mod 32) with j by (apply (Z.mod_unique_pos _ _ i); lia). done.
Qed.

Lemma full_bits b i j :
  b !! Z.to_nat i = Some 0xffffffff → 0 ≤ i → 0 ≤ j < 32 → bit b (i * 32 + j) = true.
Proof.
  intros Hw ??. rewrite bit_in_word, Hw by lia. simpl.
  change 0xffffffff with (Z.ones 32). by rewrite Z.ones_spec_low.
Qed.

(** What [bitmap_findnset] does, with the search written as a plain scan of
    the bits [0 .. l - 1] from the first one. *)
Definition findnset_post (l : Z) (b : list Z) (r : Z) (b' : list Z) : Prop :=
  match find_idx (Z.to_nat l) 0 (λ p, negb (bit b p)) with
  | Some p => r = p ∧ bitmap_wf (length b) b' ∧
              ∀ q, 0 ≤ q → bit b' q = if q =? p then true else bit b q
  | None => r = -1 ∧ b' = b
  end.

(** All the bits before [p] are set. *)
Definition set_below (b : list Z) (p : Z) : Prop := ∀ q, 0 ≤ q < p → bit b q = true.

Lemma set_below_S b p : set_below b p → bit b p = true → set_below b (p + 1).
Proof.
  intros Hb Hp q ?. destruct (decide (q = p)) as [->|]; [done | apply Hb; lia].
Qed.

Lemma findnset_post_hit l b p b' :
  0 ≤ p < l → set_below b p → bit b p = false →
  bitmap_wf (length b) b' → (∀ q, 0 ≤ q → bit b' q = if q =? p then true else bit b q) →
  findnset_post l b p b'.
Proof.
  intros Hp Hb Hz Hwf Hq. unfold findnset_post.
  rewrite (proj2 (find_idx_Some _ _ _ p)); [done |].
  split; [lia |]. split; [by rewrite Hz |]. intros k ?. rewrite Hb; [done | lia].
Qed.

Lemma findnset_post_miss l b p :
  0 ≤ l ≤ p → set_below b p → findnset_post l b (-1) b.
Proof.
  intros ? Hb. unfold findnset_post. rewrite (proj2 (find_idx_None _ _ _)); [done |].
  intros k ?. rewrite Hb; [done | lia].
Qed.

Lemma findnset_word_spec l b i w :
  bitmap_holds l b → 0 ≤ i < (l + 31) / 32 → b !! Z.to_nat i = Some w → w ≠ 0xffffffff →
  set_below b (32 * i) →
  wp (findnset_word l i) (λ r b', match r with Some r => findnset_post l b r b' | None => False end) b.
Proof.
  intros (Hl & Hwf & Hroom) Hi Hw Hne Hb.
  assert (Hw32 : is_u32 w) by (by eapply word_ok).
  assert (Hmax : (l + 31) / 32 < 2 ^ 26) by (apply Z.div_lt_upper_bound; lia).
  assert (Hlen : i < Z.of_nat (length b)) by (apply lookup_lt_Some in Hw; lia).
  unfold findnset_word. rewrite (s32_small (i * 32)) by (unfold is_s32; lia).
  apply (wp_for (λ j s, s = b ∧ set_below b (i * 32 + j))).
  - split; [done |]. intros q ?. apply Hb. lia.
  - intros j s ? [-> Hj]. wp_step. unfold wp at 1. rewrite bitmap_get_spec by lia.
    destruct (bit b (i * 32 + j)) eqn:Hbit; simpl.
    { wp_step. split; [done |]. rewrite Z.add_assoc. by apply set_below_S. }
    case_test; [wp_step; apply (findnset_post_miss _ _ (i * 32 + j)); [lia | done] |].
    wp_step. destruct (bitmap_set_spec (length b) b (i * 32 + j) true) as (b' & Hs & ? & ?);
      [done | lia |].
    unfold wp at 1. change (Z.b2z true) with 1 in Hs. rewrite Hs. wp_step.
    apply findnset_post_hit; try done. lia.
  - intros s [-> Hall]. apply Hne, word_full; [done |]. intros k ?.
    specialize (Hall (i * 32 + k)). rewrite bit_in_word, Hw in Hall by lia. apply Hall. lia.
Qed.

Lemma bitmap_findnset_wp l b :
  bitmap_holds l b → wp (bitmap_findnset l) (findnset_post l b) b.
Proof.
  intros Hh. pose proof Hh as (Hl & Hwf & Hroom). unfold bitmap_findnset.
  wp_step. wp_step; [apply Z.leb_le; lia |]. wp_step.
  rewrite bitmap_sizeof_spec by lia.
  pose proof (Z.div_pos (l + 31) 32). pose proof (Z.mul_div_le (l + 31) 32 ltac:(lia)).
  pose proof (Z.mul_succ_div_gt (l + 31) 32 ltac:(lia)).
  rewrite Z.quot_mul by lia.
  apply (wp_for (λ i s, s = b ∧ set_below b (32 * i))).
  - split; [done |]. intros q ?. lia.
  - intros i s ? [-> Hi]. wp_steps. unfold id.
    destruct (aget_total b i) as (w & Hw & Hlw); [lia |].
    eapply wp_pure; [done |]. case_test.
    + eapply wp_mono; [eapply findnset_word_spec; try done; lia |]. by intros [r|] s'.
    + wp_step. split; [done |]. subst w. intros q ?. destruct (decide (q < 32 * i)); [apply Hi; lia |].
      replace q with (i * 32 + (q - 32 * i)) by lia. apply full_bits; [done | lia | lia].
  - intros s [-> Hall]. wp_step. simpl.
    apply (findnset_post_miss _ _ (32 * (0 + Z.of_nat (Z.to_nat ((l + 31) / 32))))); [lia | done].
Qed.

(** [bitmap_findnset], which skips full words and then scans the bits of
    a word that is not full, is the plain search: it returns the first
    position below [l] whose bit is clear and sets exactly that bit, or
    returns -1 and changes nothing when the bits [0 .. l-1] are all set. *)
Theorem bitmap_findnset_is_scan l b :
  bitmap_holds l b →
  ∃ r b', bitmap_findnset l b = Ok (r, b') ∧ findnset_post l b r b'.
Proof. intros ?. apply wp_iff. by apply bitmap_findnset_wp. Qed.

Lemma bitmap_findnset_is_scan_witness :
  bitmap_holds 40 [0xffffffff; 0x5] ∧
  ∃ r b', bitmap_findnset 40 [0xffffffff; 0x5] = Ok (r, b') ∧
          findnset_post 40 [0xffffffff; 0x5] r b' ∧ r = 33.
Proof.
  assert (H : bitmap_holds 40 [0xffffffff; 0x5]).
  { repeat split; try (simpl; lia). repeat constructor; simpl; lia. }
  split; [exact H |].
  destruct (bitmap_findnset_is_scan 40 [0xffffffff; 0x5] H) as (r & b' & He & Hp).
  exists r, b'. split; [exact He |]. split; [exact Hp |].
  vm_compute in He. by injection He.
Defined.

Lemma bitmap_init_wp n b size :
  length b = n → 0 ≤ size < 2 ^ 31 - 31 → size ≤ 32 * Z.of_nat n →
  wp (bitmap_init size) (λ _ (b' : list Z), length b' = n ∧
    ∀ i, 0 ≤ i < Z.of_nat n →
      b' !! Z.to_nat i = if i <? (size + 31) / 32 then Some 0 else b !! Z.to_nat i) b.
Proof.
  intros Hn Hs Hroom. unfold bitmap_init. wp_step. wp_step; [apply Z.leb_le; lia |].
  rewrite s32_small, Z.quot_div_nonneg by (unfold is_s32; lia).
  pose proof (Z.div_pos (size + 31) 32).
  pose proof (Z.mul_div_le (size + 31) 32 ltac:(lia)).
  apply (wp_for_each (λ k (b' : list Z), length b' = n ∧ ∀ i, 0 ≤ i < Z.of_nat n →
    b' !! Z.to_nat i = if i <? k then Some 0 else b !! Z.to_nat i)).
  - split; [done |]. intros i ?. by rewrite (proj2 (Z.ltb_ge i 0)) by lia.
  - intros k s ? [Hl Hk]. wp_steps. eapply wp_pure; [apply aset_Ok; unfold id; lia |].
    wp_step. unfold id. split; [by rewrite length_insert |]. intros i ?.
    destruct (decide (i = k)) as [->|].
    + rewrite list_lookup_insert_eq by lia. by rewrite (proj2 (Z.ltb_lt k (k + 1))) by lia.
    + rewrite list_lookup_insert_ne, Hk by lia.
      destruct (Z.ltb_spec i k), (Z.ltb_spec i (k + 1)); done || lia.
  - intros s [Hl Hk]. split; [done |]. intros i ?. rewrite Hk by lia. by rewrite Z2Nat.id by lia.
Qed.

Lemma bit_zero m q : bit (replicate m 0) q = false.
Proof.
  unfold bit. destruct (replicate m 0 !! _) as [w|] eqn:Hw; [| apply Z.bits_0].
  apply lookup_replicate in Hw as [-> _]. apply Z.bits_0.
Qed.

(** A bitmap of just the size that is needed ends up with every bit clear. *)
Lemma bitmap_init_zero b size :
  length b = Z.to_nat ((size + 31) / 32) → 0 ≤ size < 2 ^ 31 - 31 →
  wp (bitmap_init size) (λ _ b', bitmap_wf (length b) b' ∧ ∀ q, bit b' q = false) b.
Proof.
  intros Hl Hs. pose proof (Z.div_pos (size + 31) 32).
  pose proof (Z.mul_succ_div_gt (size + 31) 32 ltac:(lia)).
  eapply wp_mono; [apply (bitmap_init_wp (length b)); [done | done | lia] |].
  intros _ b' [Hl' Hz]. assert (b' = replicate (length b) 0) as ->.
  { apply list_eq_same_length with (n := length b); [apply length_replicate | done |].
    intros i x y Hi Hx Hy. apply lookup_replicate in Hy as [-> _].
    specialize (Hz (Z.of_nat i) ltac:(lia)). rewrite Nat2Z.id, Hx in Hz.
    rewrite (proj2 (Z.ltb_lt _ _)) in Hz by lia. by injection Hz. }
  split; [| intros q; apply bit_zero]. split; [apply length_replicate |].
  by apply Forall_replicate.
Qed.

(** after
    [bitmap_set(b, p, v)] the bit [p] reads back as [v] while every other bit
    reads as before. *)
Theorem bitmap_set_get n b p q v :
  bitmap_wf n b → 0 ≤ p < 32 * Z.of_nat n → 0 ≤ q < 32 * Z.of_nat n →
  ∃ b', bitmap_set p (Z.b2z v) b = Ok (tt, b') ∧ bitmap_wf n b' ∧
    bitmap_get q b' = Ok (if q =? p then Z.b2z v else Z.b2z (bit b q), b').
Proof.
  intros Hwf Hp Hq. destruct (bitmap_set_spec n b p v) as (b' & Hs & Hwf' & Hb); [done.. |].
  exists b'. split; [done |]. split; [done |].
  rewrite bitmap_get_spec by (rewrite (proj1 Hwf'); lia). rewrite Hb by lia.
  by destruct (q =? p).
Qed.

Lemma bitmap_set_get_witness :
  bitmap_wf 2 [0; 0x80000000] ∧
  ∃ b', bitmap_set 63 (Z.b2z false) [0; 0x80000000] = Ok (tt, b') ∧ bitmap_wf 2 b' ∧
        bitmap_get 63 b' = Ok (0, b').
Proof.
  assert (H : bitmap_wf 2 [0; 0x80000000]).
  { split; [reflexivity |]. repeat constructor; simpl; lia. }
  split; [exact H |].
  apply (bitmap_set_get 2 [0; 0x80000000] 63 63 false H); simpl; lia.
Defined.
