(* ===== verification/Kmalloc.v ===== *)
(** * Permanent kernel memory (src/buenos/kernel/kmalloc.c)

    The state is the two static variables of the file.  The hardware (the
    YAMS device descriptors and the port of the MemInfo device) and the
    symbol the linker puts after the kernel image are parameters. *)

From S2P Require Import Prelude Bitmap.
Local Open Scope Z_scope.

(** ** State and constants *)

(** The fields of [io_descriptor_t] the kernel reads. *)
Record io_descriptor := mk_io_descriptor {
  io_type : Z;
  io_area_base : Z;
  io_area_len : Z;
  io_irq : Z;
}.

Record kmalloc_state := mk_kmalloc {
  free_area_start : Z;
  memory_end : Z;
}.

Definition PAGE_SIZE : Z := 4096.
Definition PAGE_SIZE_MASK : Z := 0xfffff000.
Definition YAMS_MAX_DEVICES : nat := 128.

(** ** Operations *)

Section kmalloc.
(** The descriptors at [IO_DESCRIPTOR_AREA], the value read from an I/O
    address, and [&KERNEL_ENDS_HERE]. *)
Context (io_desc : list io_descriptor) (io_read : Z → Z) (kernel_ends_here : Z).

Definition kmalloc_get_numpages : K kmalloc_state Z :=
  r ← for_ YAMS_MAX_DEVICES 0 (λ i,
        d ← pure (aget io_desc i);
        if io_type d =? 0x101 then mret (Some (io_read (io_area_base d))) else mret None);
  let num_pages := default 0 r in
  if num_pages =? 0 then panic "No MemInfo device found."
  else mret (s32 num_pages).

Definition kmalloc_get_reserved_pages : K kmalloc_state Z :=
  f ← gets free_area_start;
  let used := u32 (f - 0x80000000) in
  let num_res_pages := used / PAGE_SIZE in
  mret (if negb (used mod PAGE_SIZE =? 0) then num_res_pages + 1 else num_res_pages).

Definition kmalloc_disable : K kmalloc_state unit :=
  modify (λ s, mk_kmalloc 0xffffffff (memory_end s)).

(** [if (x & 0x03) { x += 4; x &= 0xfffffffc; }] *)
Definition word_align (x : Z) : Z :=
  if negb (Z.land x 3 =? 0) then Z.land (u32 (x + 4)) 0xfffffffc else x.

Definition kmalloc_init : K kmalloc_state unit :=
  modify (λ s, mk_kmalloc (free_area_start s) 0);;
  n ← kmalloc_get_numpages;
  let system_memory_size := u32 (s32 (n * PAGE_SIZE)) in
  modify (λ _, mk_kmalloc (word_align kernel_ends_here) (u32 (0x80000000 + system_memory_size))).

Definition kmalloc (bytes : Z) : K kmalloc_state Z :=
  s ← gets id;
  if free_area_start s =? 0xffffffff
  then panic "Attempting to use kmalloc after vm init"
  else if free_area_start s =? 0
  then panic "Attempting to use kmalloc before initialization"
  else if bytes <? 0
  then panic "Attempting to kmalloc negative amount of bytes"
  else if memory_end s <? u32 (free_area_start s + bytes)
  then panic "Out of memory"
  else
    modify (λ s, mk_kmalloc (word_align (u32 (free_area_start s + bytes))) (memory_end s));;
    mret (free_area_start s).

End kmalloc.

(** ** Lemmas *)

(** Clearing the two low bits rounds down to a word boundary. *)
Lemma land_fffffffc y : is_u32 y → Z.land y 0xfffffffc = y / 4 * 4.
Proof.
  intros Hy. change 0xfffffffc with (Z.shiftl (Z.ones 30) 2).
  replace (y / 4 * 4) with (Z.shiftl (Z.shiftr y 2) 2)
    by (rewrite Z.shiftl_mul_pow2, Z.shiftr_div_pow2 by lia; done).
  apply Z.bits_inj'. intros k ?. rewrite Z.land_spec, !Z.shiftl_spec by lia.
  destruct (decide (k < 2)).
  { rewrite (Z.testbit_neg_r _ (k - 2)), (Z.testbit_neg_r (Z.shiftr y 2)) by lia. apply andb_false_r. }
  rewrite Z.shiftr_spec by lia. replace (k - 2 + 2) with k by lia.
  destruct (decide (k < 32)).
  - rewrite Z.ones_spec_low by lia. apply andb_true_r.
  - rewrite Z.ones_spec_high, testbit_above by (done || lia). done.
Qed.

(** Rounding up to a word boundary, as long as it does not pass 2^32. *)
Lemma word_align_spec x :
  0 ≤ x < 2 ^ 32 - 4 →
  word_align x = (x + 3) / 4 * 4 ∧ x ≤ word_align x < x + 4 ∧ word_align x mod 4 = 0.
Proof.
  intros Hx. assert (He : word_align x = (x + 3) / 4 * 4).
  { unfold word_align. change 3 with (Z.ones 2) at 1.
    rewrite Z.land_ones by lia. change (2 ^ 2) with 4.
    pose proof (Z.div_mod x 4 ltac:(lia)). pose proof (Z.mod_pos_bound x 4 ltac:(lia)).
    destruct (Z.eqb_spec (x mod 4) 0); simpl.
    - replace ((x + 3) / 4) with (x / 4); [lia |]. apply (Z.div_unique_pos _ _ _ 3); lia.
    - rewrite u32_small, land_fffffffc by (unfold is_u32; lia). f_equal.
      transitivity (x / 4 + 1); [symmetry; apply (Z.div_unique_pos _ _ _ (x mod 4)); lia |].
      apply (Z.div_unique_pos _ _ _ (x mod 4 - 1)); lia. }
  rewrite He. pose proof (Z.div_mod (x + 3) 4 ltac:(lia)).
  pose proof (Z.mod_pos_bound (x + 3) 4 ltac:(lia)).
  split; [done |]. split; [lia |]. by rewrite Z.mod_mul.
Qed.

(** ** Theorems *)

(** The allocator between [kmalloc_init] and [kmalloc_disable]: the free area
    starts at a word boundary inside the memory, which ends clear of the top
    of the address space. *)
Definition kmalloc_wf (s : kmalloc_state) : Prop :=
  0x80000000 ≤ free_area_start s ∧ free_area_start s mod 4 = 0 ∧
  memory_end s < 2 ^ 32 - 4 ∧ free_area_start s ≤ memory_end s + 3.

Lemma kmalloc_ok s bytes :
  kmalloc_wf s → 0 ≤ bytes → free_area_start s + bytes ≤ memory_end s →
  kmalloc bytes s = Ok (free_area_start s,
    mk_kmalloc ((free_area_start s + bytes + 3) / 4 * 4) (memory_end s)).
Proof.
  intros (? & ? & ? & ?) ??. unfold kmalloc, gets, id, mbind, K_bind, modify, mret, K_ret.
  rewrite u32_small by (unfold is_u32; lia).
  repeat case_test; try lia.
  rewrite u32_small by (unfold is_u32; lia).
  do 4 f_equal. apply word_align_spec. lia.
Qed.

Lemma kmalloc_step s bytes :
  kmalloc_wf s → 0 ≤ bytes → free_area_start s + bytes ≤ memory_end s →
  wp (kmalloc bytes) (λ r s', kmalloc_wf s' ∧ memory_end s' = memory_end s ∧
    r = free_area_start s ∧ r mod 4 = 0 ∧ r + bytes ≤ free_area_start s' < r + bytes + 4) s.
Proof.
  intros Hwf ??. unfold wp. rewrite kmalloc_ok by done.
  destruct Hwf as (H1 & H2 & H3 & H4).
  destruct (word_align_spec (free_area_start s + bytes)) as (He & Hb & Hm); [lia |].
  rewrite He in *. unfold kmalloc_wf. simpl. repeat split; (done || lia).
Qed.

(** A sequence of requests, and the areas it is answered with: each one is
    word-aligned, starts at or after the end of the one before and the last
    one ends at or before [hi]. *)
Fixpoint kmalloc_all (sizes : list Z) : K kmalloc_state (list (Z * Z)) :=
  match sizes with
  | [] => mret []
  | n :: sizes => p ← kmalloc n; ps ← kmalloc_all sizes; mret ((p, n) :: ps)
  end.

Fixpoint areas_within (lo hi : Z) (areas : list (Z * Z)) : Prop :=
  match areas with
  | [] => lo ≤ hi
  | (p, n) :: areas => lo ≤ p ∧ p mod 4 = 0 ∧ areas_within (p + n) hi areas
  end.

(** The most a list of requests can use, alignment included. *)
Fixpoint requested (sizes : list Z) : Z :=
  match sizes with [] => 0 | n :: sizes => n + 3 + requested sizes end.

Lemma requested_nonneg sizes : Forall (λ n, 0 ≤ n) sizes → 0 ≤ requested sizes.
Proof. induction 1; simpl; lia. Qed.

(** as long as the requests fit, a sequence of [kmalloc] calls returns
    word-aligned areas of the requested sizes that do not overlap and lie
    between the old and the new start of the free area and inside the
    memory, and the allocator keeps its invariant. *)
Theorem kmalloc_areas_disjoint sizes s :
  kmalloc_wf s → Forall (λ n, 0 ≤ n) sizes →
  free_area_start s + requested sizes ≤ memory_end s →
  wp (kmalloc_all sizes) (λ areas s', areas.*2 = sizes ∧
    areas_within (free_area_start s) (free_area_start s') areas ∧
    free_area_start s' ≤ memory_end s ∧ kmalloc_wf s') s.
Proof.
  intros Hwf Hs. revert s Hwf. induction Hs as [|n sizes Hn Hs IH]; simpl; intros s Hwf Hfit.
  { wp_step. simpl. split_and!; (done || lia). }
  pose proof (requested_nonneg sizes Hs). wp_step.
  eapply wp_mono; [apply kmalloc_step; (done || lia) |].
  intros p s1 (Hwf1 & Hm1 & -> & Hp & Hr). wp_step.
  eapply wp_mono; [apply (IH s1); (done || lia) |].
  intros areas s2 (Ha & Hw & Hend & Hwf2). wp_step. simpl. rewrite Hm1 in *.
  split_and!; try (done || lia); [by f_equal |].
  clear -Hw Hr. destruct areas as [|[q m] areas]; simpl in *; [lia |].
  destruct Hw as (? & ? & ?). repeat split; (done || lia).
Qed.

Lemma kmalloc_areas_disjoint_witness :
  wp (kmalloc_all [10; 4; 0; 7]) (λ areas s', areas.*2 = [10; 4; 0; 7] ∧
    areas_within 0x80020000 (free_area_start s') areas ∧
    free_area_start s' ≤ 0x80100000 ∧ kmalloc_wf s') (mk_kmalloc 0x80020000 0x80100000).
Proof.
  apply (kmalloc_areas_disjoint [10; 4; 0; 7] (mk_kmalloc 0x80020000 0x80100000)).
  - repeat split; simpl; lia.
  - repeat constructor; lia.
  - simpl. lia.
Defined.

(** the test for the end of the memory is done in 32 bits: a request that
    carries the sum past 2^32 is accepted however little memory there is, and
    leaves the free area starting below the kernel segment. *)
Theorem kmalloc_wraps s bytes :
  kmalloc_wf s → 0 ≤ bytes < 2 ^ 31 → 2 ^ 32 ≤ free_area_start s + bytes →
  wp (kmalloc bytes) (λ r s', r = free_area_start s ∧ memory_end s < r + bytes ∧
    free_area_start s' < 0x80000000) s.
Proof.
  intros (H1 & H2 & H3 & H4) Hb Hw. unfold kmalloc. wp_step. wp_step. unfold id.
  assert (Hu : u32 (free_area_start s + bytes) = free_area_start s + bytes - 2 ^ 32).
  { unfold u32. symmetry. apply (Z.mod_unique_pos _ _ 1); lia. }
  rewrite Hu. repeat case_test; try lia.
  wp_steps. simpl. rewrite Hu.
  destruct (word_align_spec (free_area_start s + bytes - 2 ^ 32)) as (? & ? & ?); [lia |].
  pose proof (Z.div_mod (free_area_start s) 4 ltac:(lia)).
  split_and!; lia.
Qed.

Lemma kmalloc_wraps_witness :
  wp (kmalloc 0x7fff0000) (λ r s', r = 0x80020000 ∧ 0x80100000 < r + 0x7fff0000 ∧
    free_area_start s' < 0x80000000) (mk_kmalloc 0x80020000 0x80100000).
Proof.
  apply (kmalloc_wraps (mk_kmalloc 0x80020000 0x80100000) 0x7fff0000).
  - repeat split; simpl; lia.
  - lia.
  - simpl. lia.
Defined.
