(* ===== verification/Pagepool.v ===== *)
(** * The pool of physical pages (src/buenos/vm/pagepool.c)

    The state is the static variables of the file; the spinlock and the
    interrupt mask make each operation one atomic step, so they carry no
    state here.  The bitmap refines a finite set of free page numbers.  The
    class [PageAlloc] is what the pool promises to the rest of the kernel:
    the page tables, the processes and the filesystem allocate through it. *)

From S2P Require Import Prelude Bitmap Kmalloc.
Local Open Scope Z_scope.

(** ** State and operations *)

Record pagepool := mk_pool {
  pagepool_free_pages : bitmap_t;
  pagepool_num_pages : Z;
  pagepool_num_free_pages : Z;
  pagepool_static_end : Z;
}.

Definition set_free_pages (b : bitmap_t) (s : pagepool) : pagepool :=
  mk_pool b (pagepool_num_pages s) (pagepool_num_free_pages s) (pagepool_static_end s).
Definition set_num_free (n : Z) (s : pagepool) : pagepool :=
  mk_pool (pagepool_free_pages s) (pagepool_num_pages s) n (pagepool_static_end s).

(** A bitmap operation on [pagepool_free_pages]. *)
Definition on_bitmap {A} (m : K bitmap_t A) : K pagepool A :=
  zoom pagepool_free_pages set_free_pages m.

Section init.
(** The hardware, as in [Kmalloc], and what the memory returned by [kmalloc]
    holds before it is written. *)
Context (io_desc : list io_descriptor) (io_read : Z → Z) (garbage : nat → bitmap_t).

Definition pagepool_init : K (kmalloc_state * pagepool) unit :=
  let kstate {A} (m : K kmalloc_state A) : K (kmalloc_state * pagepool) A :=
    zoom fst (λ k s, (k, snd s)) m in
  let pstate {A} (m : K pagepool A) : K (kmalloc_state * pagepool) A :=
    zoom snd (λ p s, (fst s, p)) m in
  n ← kstate (kmalloc_get_numpages io_desc io_read);
  kstate (kmalloc (bitmap_sizeof n));;
  pstate (modify (λ s, mk_pool (garbage (Z.to_nat (bitmap_sizeof n / 4))) n
                         (pagepool_num_free_pages s) (pagepool_static_end s)));;
  pstate (on_bitmap (bitmap_init n));;
  num_res_pages ← kstate kmalloc_get_reserved_pages;
  pstate (modify (λ s, mk_pool (pagepool_free_pages s) n (n - num_res_pages) num_res_pages));;
  pstate (for_each (Z.to_nat num_res_pages) 0 (λ i, on_bitmap (bitmap_set i 1))).

End init.

Definition pagepool_get_phys_page : K pagepool Z :=
  s ← gets id;
  i ← (if 0 <? pagepool_num_free_pages s then
         i ← on_bitmap (bitmap_findnset (pagepool_num_pages s));
         modify (λ s, set_num_free (pagepool_num_free_pages s - 1) s);;
         s' ← gets id;
         kassert ((0 <=? i) && (0 <=? pagepool_num_free_pages s'));;
         mret i
       else mret 0);
  mret (u32 (i * PAGE_SIZE)).

Definition pagepool_free_phys_page (phys_addr : Z) : K pagepool unit :=
  let i := phys_addr / PAGE_SIZE in
  s ← gets id;
  kassert (pagepool_static_end s <=? i);;
  v ← on_bitmap (bitmap_get i);
  kassert (v =? 1);;
  on_bitmap (bitmap_set i 0);;
  modify (λ s, set_num_free (pagepool_num_free_pages s + 1) s).

(** [ADDR_PHYS_TO_KERNEL] and [ADDR_KERNEL_TO_PHYS] of vm/pagepool.h. *)
Definition ADDR_PHYS_TO_KERNEL (addr : Z) : Z := Z.lor addr 0x80000000.
Definition ADDR_KERNEL_TO_PHYS (addr : Z) : Z := Z.land addr 0x7fffffff.

(** ** The set of free pages *)

Definition free_set (n : Z) (b : list Z) : gset Z :=
  list_to_set (filter (λ p, bit b p = false) (seqZ 0 n)).

Definition pool_free (s : pagepool) : gset Z :=
  free_set (pagepool_num_pages s) (pagepool_free_pages s).

(** The counters of the pool agree with its bitmap, and the statically
    reserved pages (page 0 among them) are never free. *)
Definition pool_inv (s : pagepool) : Prop :=
  bitmap_holds (pagepool_num_pages s) (pagepool_free_pages s) ∧
  pagepool_num_pages s ≤ 2 ^ 19 ∧
  1 ≤ pagepool_static_end s ≤ pagepool_num_pages s ∧
  (∀ p, 0 ≤ p < pagepool_static_end s → bit (pagepool_free_pages s) p = true) ∧
  pagepool_num_free_pages s = Z.of_nat (size (pool_free s)).

(** ** What the pool promises to its clients *)

Class PageAlloc (P : Type) := {
  get_phys_page : K P Z;
  free_phys_page : Z → K P unit;
  alloc_inv : P → Prop;
  (** the pages that can be handed out and given back, and those of them
      that are free *)
  managed : P → Z → Prop;
  free_pages : P → gset Z;
  free_pages_managed s p :
    alloc_inv s → p ∈ free_pages s → managed s p;
  managed_range s p :
    alloc_inv s → managed s p → 0 < p < 2 ^ 19;
  get_phys_page_spec s :
    alloc_inv s →
    wp get_phys_page (λ a s', alloc_inv s' ∧ (∀ p, managed s' p ↔ managed s p) ∧
      ((a = 0 ∧ free_pages s = ∅ ∧ s' = s) ∨
       (∃ p, a = p * PAGE_SIZE ∧ p ∈ free_pages s ∧ free_pages s' = free_pages s ∖ {[p]}))) s;
  free_phys_page_spec s p :
    alloc_inv s → managed s p → p ∉ free_pages s →
    wp (free_phys_page (p * PAGE_SIZE)) (λ _ s', alloc_inv s' ∧
      (∀ q, managed s' q ↔ managed s q) ∧ free_pages s' = {[p]} ∪ free_pages s) s;
}.

(** ** Lemmas *)

Lemma elem_of_free_set n b p : p ∈ free_set n b ↔ 0 ≤ p < n ∧ bit b p = false.
Proof.
  unfold free_set. rewrite elem_of_list_to_set, list_elem_of_filter, elem_of_seqZ. naive_solver lia.
Qed.

Lemma elem_of_pool_free s p :
  p ∈ pool_free s ↔ 0 ≤ p < pagepool_num_pages s ∧ bit (pagepool_free_pages s) p = false.
Proof. apply elem_of_free_set. Qed.

Lemma free_set_take n b b' p :
  p ∈ free_set n b → (∀ q, 0 ≤ q → bit b' q = if q =? p then true else bit b q) →
  free_set n b' = free_set n b ∖ {[p]}.
Proof.
  intros Hp Hb. apply set_eq. intros q.
  rewrite elem_of_difference, elem_of_singleton, !elem_of_free_set.
  split; [intros [Hq Hf] | intros [[Hq Hf] Hne]]; rewrite Hb in * by lia;
    destruct (Z.eqb_spec q p); naive_solver.
Qed.

Lemma free_set_give n b b' p :
  0 ≤ p < n → bit b p = true → (∀ q, 0 ≤ q → bit b' q = if q =? p then false else bit b q) →
  free_set n b' = {[p]} ∪ free_set n b ∧ p ∉ free_set n b.
Proof.
  intros Hp Ht Hb. split.
  - apply set_eq. intros q. rewrite elem_of_union, elem_of_singleton, !elem_of_free_set.
    split; [intros [Hq Hf] | intros [->|[Hq Hf]]].
    + rewrite Hb in Hf by lia. destruct (Z.eqb_spec q p); naive_solver.
    + split; [lia |]. by rewrite Hb, Z.eqb_refl by lia.
    + split; [lia |]. rewrite Hb by lia. by destruct (q =? p).
  - rewrite elem_of_free_set. intros [_ ?]. congruence.
Qed.

Lemma size_take (F : gset Z) p : p ∈ F → Z.of_nat (size (F ∖ {[p]})) = Z.of_nat (size F) - 1.
Proof.
  intros Hp. rewrite size_difference by set_solver. rewrite size_singleton.
  assert (0 < size F)%nat; [| lia].
  rewrite <- Nat.neq_0_lt_0. intros H0. apply size_empty_inv in H0. set_solver.
Qed.

Lemma size_give (F : gset Z) p : p ∉ F → Z.of_nat (size ({[p]} ∪ F)) = Z.of_nat (size F) + 1.
Proof. intros Hp. rewrite size_union by set_solver. rewrite size_singleton. lia. Qed.

(** The scan of [bitmap_findnset] finds the least free page. *)
Lemma findnset_post_free n b r b' :
  findnset_post n b r b' →
  (r = -1 ∧ b' = b ∧ free_set n b = ∅) ∨
  (r ∈ free_set n b ∧ (∀ q, q ∈ free_set n b → r ≤ q) ∧ bitmap_wf (length b) b' ∧
   ∀ q, 0 ≤ q → bit b' q = if q =? r then true else bit b q).
Proof.
  unfold findnset_post. destruct (find_idx _ _ _) as [p|] eqn:Hf.
  - apply find_idx_Some in Hf as (Hr & Hp & Hmin). intros (-> & Hwf & Hb). right.
    apply negb_true_iff in Hp. rewrite elem_of_free_set.
    split_and!; try (done || lia). intros q [Hq Hz]%elem_of_free_set.
    destruct (decide (p ≤ q)); [done |].
    rewrite (proj1 (negb_false_iff _) (Hmin q ltac:(lia))) in Hz. done.
  - intros [-> ->]. left. split_and!; try done. apply set_eq. intros q.
    rewrite elem_of_free_set. split; [intros [Hq Hz] | set_solver].
    rewrite find_idx_None in Hf. specialize (Hf q ltac:(lia)). by rewrite Hz in Hf.
Qed.

Lemma bitmap_holds_len l b b' :
  bitmap_holds l b → bitmap_wf (length b) b' → bitmap_holds l b'.
Proof. intros (? & ? & ?) [Hl ?]. unfold bitmap_holds. by rewrite Hl. Qed.

Lemma pool_get_wp s :
  pool_inv s →
  wp pagepool_get_phys_page (λ a s', pool_inv s' ∧
    ((a = 0 ∧ pool_free s = ∅ ∧ s' = s) ∨
     (∃ p, a = p * PAGE_SIZE ∧ pagepool_static_end s ≤ p < pagepool_num_pages s ∧
           p ∈ pool_free s ∧ (∀ q, q ∈ pool_free s → p ≤ q) ∧
           pool_free s' = pool_free s ∖ {[p]} ∧
           pagepool_num_pages s' = pagepool_num_pages s ∧
           pagepool_static_end s' = pagepool_static_end s))) s.
Proof.
  intros Hi. pose proof Hi as (Hh & Hmax & Hst & Hres & Hnum). unfold pagepool_get_phys_page.
  wp_step. wp_step. wp_step. unfold id. case_test.
  - wp_step. unfold on_bitmap. wp_step. eapply wp_mono; [by apply bitmap_findnset_wp |].
    intros r b' Hp. destruct (findnset_post_free _ _ _ _ Hp) as [(_ & _ & He)|(Hr & Hmin & Hwf & Hb)].
    { unfold pool_free in Hnum. rewrite He, size_empty in Hnum. lia. }
    pose proof Hr as [Hrn Hrz]%elem_of_free_set.
    assert (Hrs : pagepool_static_end s ≤ r).
    { destruct (decide (r < pagepool_static_end s)); [| lia]. rewrite Hres in Hrz; [done | lia]. }
    wp_steps; [apply andb_true_iff; split; apply Z.leb_le; simpl; lia |]. wp_steps.
    rewrite u32_small by (unfold is_u32, PAGE_SIZE; lia).
    assert (Hfree : free_set (pagepool_num_pages s) b' = pool_free s ∖ {[r]}) by (by apply free_set_take).
    split.
    + unfold pool_inv, pool_free. simpl. rewrite Hfree, size_take by done.
      split_and!; try (done || lia); [by eapply bitmap_holds_len |].
      intros p ?. rewrite Hb by lia. case_match; [done | apply Hres; lia].
    + right. exists r. split_and!; try done; lia.
  - wp_steps. rewrite u32_small by (unfold is_u32, PAGE_SIZE; lia). split; [done |]. left.
    split_and!; [lia | | done]. apply leibniz_equiv, size_empty_inv. lia.
Qed.

Lemma pool_free_wp s p off :
  pool_inv s → 0 ≤ off < PAGE_SIZE → pagepool_static_end s ≤ p < pagepool_num_pages s →
  p ∉ pool_free s →
  wp (pagepool_free_phys_page (p * PAGE_SIZE + off)) (λ _ s', pool_inv s' ∧
    pool_free s' = {[p]} ∪ pool_free s ∧
    pagepool_num_pages s' = pagepool_num_pages s ∧
    pagepool_static_end s' = pagepool_static_end s) s.
Proof.
  intros (Hh & Hmax & Hst & Hres & Hnum) Hoff Hp Hnf. pose proof Hh as (Hl & Hwf & Hroom).
  unfold PAGE_SIZE in *. unfold pagepool_free_phys_page, PAGE_SIZE.
  replace ((p * 4096 + off) / 4096) with p by (apply (Z.div_unique_pos _ _ _ off); lia).
  assert (Hbit : bit (pagepool_free_pages s) p = true).
  { rewrite elem_of_pool_free in Hnf. destruct (bit _ p) eqn:E; [done |]. exfalso. apply Hnf. split; [lia | done]. }
  destruct (bitmap_set_spec (length (pagepool_free_pages s)) _ p false Hwf) as (b' & Hs & Hwf' & Hb); [lia |].
  wp_step. wp_step. wp_step. wp_step; [apply Z.leb_le; unfold id; lia |].
  wp_step. unfold on_bitmap at 1. wp_step. unfold wp at 1. rewrite bitmap_get_spec, Hbit by lia.
  wp_step. wp_step; [done |]. wp_step. unfold on_bitmap. wp_step. simpl.
  change (Z.b2z false) with 0 in Hs. unfold wp at 1. rewrite Hs. wp_step. simpl.
  destruct (free_set_give (pagepool_num_pages s) (pagepool_free_pages s) b' p) as [Hf Hn]; [lia | done | done |].
  split_and!; try done. unfold pool_inv, pool_free. simpl. rewrite Hf, size_give by done.
  split_and!; try (done || lia); [by eapply bitmap_holds_len | | unfold pool_free in *; lia].
  intros q ?. rewrite Hb by lia. destruct (Z.eqb_spec q p); [lia | apply Hres; lia].
Qed.

Definition pool_managed (s : pagepool) (p : Z) : Prop :=
  pagepool_static_end s ≤ p < pagepool_num_pages s.

#[export] Program Instance pool_alloc : PageAlloc pagepool := {|
  get_phys_page := pagepool_get_phys_page;
  free_phys_page := pagepool_free_phys_page;
  alloc_inv := pool_inv;
  managed := pool_managed;
  free_pages := pool_free;
|}.
Next Obligation.
  intros s p (_ & _ & _ & Hres & _) [Hp Hz]%elem_of_pool_free. unfold pool_managed.
  destruct (decide (p < pagepool_static_end s)); [| lia]. rewrite Hres in Hz; [done | lia].
Qed.
Next Obligation. intros s p (_ & ? & ? & _) ?. unfold pool_managed in *. lia. Qed.
Next Obligation.
  intros s Hs. eapply wp_mono; [by apply pool_get_wp |]. unfold pool_managed.
  intros a s' [? [(? & ? & ->)|(p & -> & ? & ? & ? & ? & -> & ->)]]; split_and!; try done;
    [by left | right; by exists p].
Qed.
Next Obligation.
  intros s p Hs ? ?. rewrite <- (Z.add_0_r (p * PAGE_SIZE)).
  eapply wp_mono; [apply (pool_free_wp s p 0); (done || unfold PAGE_SIZE; lia) |].
  intros _ s' (? & ? & Hn & He). unfold pool_managed. rewrite Hn, He. done.
Qed.

(** ** Initialisation *)

Lemma reserved_pages_spec k :
  0x80000000 ≤ free_area_start k < 2 ^ 32 →
  kmalloc_get_reserved_pages k =
    Ok ((free_area_start k - 0x80000000 + PAGE_SIZE - 1) / PAGE_SIZE, k).
Proof.
  intros ?. unfold kmalloc_get_reserved_pages, gets, mbind, K_bind, mret, K_ret, PAGE_SIZE.
  rewrite u32_small by (unfold is_u32; lia).
  set (u := free_area_start k - 0x80000000).
  pose proof (Z.div_mod u 4096 ltac:(lia)). pose proof (Z.mod_pos_bound u 4096 ltac:(lia)).
  do 2 f_equal. destruct (Z.eqb_spec (u mod 4096) 0); simpl.
  - apply (Z.div_unique_pos _ _ _ 4095); lia.
  - apply (Z.div_unique_pos _ _ _ (u mod 4096 - 1)); lia.
Qed.

(** Setting the first [r] bits of a bitmap. *)
Lemma reserve_wp n r b0 s :
  bitmap_wf n b0 → 0 ≤ r ≤ 32 * Z.of_nat n → pagepool_free_pages s = b0 →
  wp (for_each (Z.to_nat r) 0 (λ i, on_bitmap (bitmap_set i 1)))
     (λ _ s', ∃ b', s' = set_free_pages b' s ∧ bitmap_wf n b' ∧
        ∀ q, 0 ≤ q → bit b' q = (q <? r) || bit b0 q) s.
Proof.
  intros Hwf Hr <-.
  apply (wp_for_each (λ i s', ∃ b', s' = set_free_pages b' s ∧ bitmap_wf n b' ∧
    ∀ q, 0 ≤ q → bit b' q = (q <? i) || bit (pagepool_free_pages s) q)).
  - exists (pagepool_free_pages s). split; [by destruct s |]. split; [done |].
    intros q ?. by rewrite (proj2 (Z.ltb_ge q 0)) by lia.
  - intros i s' Hi (b & -> & Hb & Hq).
    destruct (bitmap_set_spec n b i true Hb) as (b' & Hs & Hwf' & Hb'); [lia |].
    unfold on_bitmap. wp_step. unfold wp. simpl. change (Z.b2z true) with 1 in Hs. rewrite Hs.
    exists b'. split; [done |]. split; [done |]. intros q ?. rewrite Hb', Hq by lia.
    destruct (Z.eqb_spec q i), (Z.ltb_spec q i), (Z.ltb_spec q (i + 1)); done || lia.
  - intros s' (b & -> & Hb & Hq). exists b. split; [done |]. split; [done |].
    intros q ?. rewrite Hq by done. by rewrite Z2Nat.id by lia.
Qed.

Lemma free_set_upper n r b :
  0 ≤ r ≤ n → (∀ q, 0 ≤ q < n → bit b q = (q <? r)) →
  free_set n b = list_to_set (seqZ r (n - r)) ∧ Z.of_nat (size (free_set n b)) = n - r.
Proof.
  intros Hr Hb. assert (He : free_set n b = list_to_set (seqZ r (n - r))).
  { apply set_eq. intros q. rewrite elem_of_free_set, elem_of_list_to_set, elem_of_seqZ.
    split; [intros [Hq Hz]; rewrite Hb in Hz by lia; bool_prop; lia |].
    intros Hq. split; [lia |]. rewrite Hb by lia. apply Z.ltb_ge. lia. }
  split; [done |]. rewrite He, size_list_to_set by apply NoDup_seqZ. rewrite length_seqZ. lia.
Qed.

(** ** Runs of the pool *)

(** A run: pages are taken, and pages that were taken are given back.  The
    set holds the pages that are out. *)
Inductive pool_step : pagepool * gset Z → pagepool * gset Z → Prop :=
| step_get s o a s' :
    pagepool_get_phys_page s = Ok (a, s') →
    pool_step (s, o) (s', if a =? 0 then o else {[a / PAGE_SIZE]} ∪ o)
| step_free s o p s' :
    p ∈ o →
    pagepool_free_phys_page (p * PAGE_SIZE) s = Ok (tt, s') →
    pool_step (s, o) (s', o ∖ {[p]}).

(** The pages that are out are managed and not free, and no page is lost. *)
Definition run_inv (s0 : pagepool) (c : pagepool * gset Z) : Prop :=
  pool_inv c.1 ∧ (∀ p, p ∈ c.2 → pool_managed c.1 p ∧ p ∉ pool_free c.1) ∧
  pool_free c.1 ∪ c.2 = pool_free s0.

Lemma page_of_addr p : p * PAGE_SIZE / PAGE_SIZE = p.
Proof. by apply Z.div_mul. Qed.

Lemma run_inv_step s0 c c' : run_inv s0 c → pool_step c c' → run_inv s0 c'.
Proof.
  intros (Hi & Ho & Hall) Hstep. destruct Hstep as [s o a s' Hg|s o p s' Hp Hf]; simpl in *.
  - pose proof (pool_get_wp s Hi) as Hw. unfold wp in Hw. rewrite Hg in Hw.
    destruct Hw as [Hi' [(-> & He & ->)|(p & -> & Hr & Hin & _ & Hfr & Hn & Hst)]]; [done |].
    pose proof Hi as (_ & _ & Hs1 & _).
    rewrite (proj2 (Z.eqb_neq _ 0)) by (unfold PAGE_SIZE; lia). rewrite page_of_addr.
    unfold run_inv; simpl. rewrite Hfr. split_and!; [done | |].
    + unfold pool_managed in *. rewrite Hn, Hst. intros q [->%elem_of_singleton|Hq]%elem_of_union; [set_solver by lia |].
      destruct (Ho q Hq). split; [done | set_solver].
    + rewrite <- Hall. apply set_eq. intros q. destruct (decide (q = p)); set_solver.
  - destruct (Ho p Hp) as [Hm Hnf].
    pose proof (pool_free_wp s p 0 Hi ltac:(unfold PAGE_SIZE; lia) Hm Hnf) as Hw.
    unfold wp in Hw. rewrite Z.add_0_r, Hf in Hw. destruct Hw as (Hi' & Hfr & Hn & Hst).
    unfold run_inv; simpl. rewrite Hfr. split_and!; [done | |].
    + unfold pool_managed in *. rewrite Hn, Hst. intros q [Hq Hne]%elem_of_difference.
      destruct (Ho q Hq). split; [done | set_solver].
    + rewrite <- Hall. apply set_eq. intros q. destruct (decide (q = p)); set_solver.
Qed.

Lemma run_inv_reach s0 c : pool_inv s0 → rtc pool_step (s0, ∅) c → run_inv s0 c.
Proof.
  intros Hi Hr. assert (H0 : run_inv s0 (s0, ∅)) by (split_and!; [done | set_solver..]).
  remember (s0, ∅) as c0. clear Heqc0. induction Hr as [|c0 c1 c Hs _ IH]; [done |].
  apply IH. by eapply run_inv_step.
Qed.

(** ** Theorems *)

(** [pagepool_init], run after [kmalloc_init] on a machine with [n] pages
    and room for the bitmap, returns and leaves a pool that satisfies the
    invariant; the free pages are exactly those that hold no byte below the
    start of the free area, so none overlaps the kernel or the bitmap. *)
Theorem pagepool_init_ok io_desc io_read garbage k s n :
  kmalloc_get_numpages io_desc io_read k = Ok (n, k) →
  (∀ m, bitmap_wf m (garbage m)) →
  kmalloc_wf k → 0x80000000 < free_area_start k →
  0 < n ≤ 2 ^ 19 → memory_end k = 0x80000000 + n * PAGE_SIZE →
  free_area_start k + bitmap_sizeof n ≤ memory_end k - 3 →
  wp (pagepool_init io_desc io_read garbage) (λ _ '(k', s'), pool_inv s' ∧
    pagepool_num_pages s' = n ∧ free_area_start k + bitmap_sizeof n ≤ free_area_start k' ∧
    ∀ p, 0 ≤ p → p ∈ pool_free s' ↔ p < n ∧ free_area_start k' ≤ 0x80000000 + p * PAGE_SIZE) (k, s).
Proof.
  intros Hnum Hg Hk Hk0 Hn Hend Hroom. unfold pagepool_init. wp_step. wp_step. unfold wp at 1. simpl.
  rewrite Hnum. wp_step. wp_step. simpl.
  assert (Hsz : bitmap_sizeof n = (n + 31) / 32 * 4) by (apply bitmap_sizeof_spec; lia).
  pose proof (Z.div_pos (n + 31) 32). pose proof (Z.mul_succ_div_gt (n + 31) 32 ltac:(lia)).
  eapply wp_mono; [apply kmalloc_step; [done | lia | lia] |].
  intros _ k1 (Hwf1 & Hm1 & -> & Hal & Hk1). wp_step. wp_step. wp_step. wp_step. wp_step. simpl.
  unfold on_bitmap at 1. wp_step. simpl. rewrite Hsz, Z.div_mul by lia.
  set (m := Z.to_nat ((n + 31) / 32)). destruct (Hg m) as [Hgl Hgu].
  eapply wp_mono; [apply bitmap_init_zero; [done | lia] |].
  rewrite Hgl. intros _ b1 [Hb1 Hz]. wp_step. wp_step. unfold wp at 1. cbn [fst snd].
  rewrite reserved_pages_spec by (destruct Hwf1 as (? & ? & ? & ?); lia).
  set (r := (free_area_start k1 - 0x80000000 + PAGE_SIZE - 1) / PAGE_SIZE).
  assert (Hr : PAGE_SIZE * r - (PAGE_SIZE - 1) ≤ free_area_start k1 - 0x80000000 ≤ PAGE_SIZE * r).
  { pose proof (Z.mul_div_le (free_area_start k1 - 0x80000000 + PAGE_SIZE - 1) PAGE_SIZE ltac:(done)).
    pose proof (Z.mul_succ_div_gt (free_area_start k1 - 0x80000000 + PAGE_SIZE - 1) PAGE_SIZE ltac:(done)).
    unfold r. lia. }
  unfold PAGE_SIZE in Hr, Hend. wp_step. wp_step. wp_step. simpl. wp_step. simpl.
  eapply wp_mono; [apply (reserve_wp m r b1); [done | lia | done] |].
  intros _ s' (b' & -> & Hb' & Hq). simpl.
  destruct (free_set_upper n r b') as [Hfs Hsize]; [lia | intros q ?; rewrite Hq, Hz, orb_false_r by lia; done |].
  split_and!; [| done | lia |].
  - unfold pool_inv, pool_free. simpl. rewrite Hsize. split_and!; try (done || lia).
    + unfold bitmap_holds. rewrite (proj1 Hb'). split_and!; (done || lia).
    + intros p ?. rewrite Hq by lia. apply orb_true_iff. left. apply Z.ltb_lt. lia.
  - intros p ?. unfold pool_free. simpl. rewrite Hfs, elem_of_list_to_set, elem_of_seqZ.
    unfold PAGE_SIZE. lia.
Qed.

Lemma pagepool_init_ok_witness :
  wp (pagepool_init [mk_io_descriptor 0x101 0xb0008000 4 0] (λ _, 64) (λ m, replicate m 0xdeadbeef))
     (λ _ '(k', s'), pool_inv s' ∧ pagepool_num_pages s' = 64 ∧
        0x80020000 + bitmap_sizeof 64 ≤ free_area_start k' ∧
        ∀ p, 0 ≤ p → p ∈ pool_free s' ↔ p < 64 ∧ free_area_start k' ≤ 0x80000000 + p * PAGE_SIZE)
     (mk_kmalloc 0x80020000 0x80040000, mk_pool [] 0 0 0).
Proof.
  apply (pagepool_init_ok _ _ _ (mk_kmalloc 0x80020000 0x80040000) _ 64).
  - reflexivity.
  - intros m. split; [apply length_replicate | apply Forall_replicate; unfold is_u32; lia].
  - repeat split; simpl; lia.
  - simpl. lia.
  - lia.
  - reflexivity.
  - vm_compute. discriminate.
Defined.

(** C18: no page is ever handed out twice, and none is lost.  In every run that
    starts from a pool that satisfies its invariant, the pages that are out
    and the free ones are together the pages that were free at the start, a
    page that is out is not free, a page that is out can always be given back
    without tripping an assertion, and the next request gets a page that is
    not out, or 0 exactly when no page is left. *)
Theorem pagepool_runs_safe s0 s o :
  pool_inv s0 → rtc pool_step (s0, ∅) (s, o) →
  pool_free s ∪ o = pool_free s0 ∧ pool_free s ## o ∧
  (∀ p, p ∈ o → is_Ok (pagepool_free_phys_page (p * PAGE_SIZE) s)) ∧
  wp pagepool_get_phys_page (λ a _, if a =? 0 then pool_free s = ∅
    else a mod PAGE_SIZE = 0 ∧ a / PAGE_SIZE ∈ pool_free s0 ∧ a / PAGE_SIZE ∉ o) s.
Proof.
  intros Hi Hr. destruct (run_inv_reach s0 (s, o) Hi Hr) as (His & Ho & Hall). simpl in *.
  split_and!; [done | intros p Hp Hpo; by destruct (Ho p Hpo) | |].
  - intros p Hp. destruct (Ho p Hp) as [Hm Hnf].
    pose proof (pool_free_wp s p 0 His ltac:(unfold PAGE_SIZE; lia) Hm Hnf) as Hw.
    rewrite Z.add_0_r in Hw. by eapply wp_is_Ok.
  - eapply wp_mono; [by apply pool_get_wp |].
    intros a s' [_ [(-> & He & _)|(p & -> & Hrg & Hin & _)]]; [done |].
    pose proof His as (_ & _ & Hs1 & _).
    rewrite (proj2 (Z.eqb_neq _ 0)) by (unfold PAGE_SIZE; lia). rewrite page_of_addr.
    split_and!; [by apply Z.mod_mul | set_solver |]. intros Hpo. by destruct (Ho p Hpo).
Qed.

(** A pool of 34 pages, the first two reserved, as [pagepool_init] leaves it. *)
Definition example_pool : pagepool := mk_pool [3; 0] 34 32 2.

Lemma example_pool_inv : pool_inv example_pool.
Proof.
  assert (Hb : ∀ q, 0 ≤ q < 34 → bit [3; 0] q = (q <? 2)).
  { intros q Hq. apply eqb_prop.
    by apply (range_check (λ q, Bool.eqb (bit [3; 0] q) (q <? 2)) 34). }
  unfold pool_inv, pool_free, example_pool; simpl.
  destruct (free_set_upper 34 2 [3; 0]) as [_ Hs]; [lia | done |].
  split_and!; try (done || lia).
  - split_and!; simpl; try lia. split; [done |]. repeat constructor; lia.
  - intros p ?. rewrite Hb by lia. apply Z.ltb_lt. lia.
Qed.

Lemma pagepool_runs_safe_witness :
  ∃ s o, rtc pool_step (example_pool, ∅) (s, o) ∧ o = {[2; 3]} ∧
    pool_free s ∪ o = pool_free example_pool ∧ pool_free s ## o ∧
    (∀ p, p ∈ o → is_Ok (pagepool_free_phys_page (p * PAGE_SIZE) s)) ∧
    wp pagepool_get_phys_page (λ a _, if a =? 0 then pool_free s = ∅
      else a mod PAGE_SIZE = 0 ∧ a / PAGE_SIZE ∈ pool_free example_pool ∧ a / PAGE_SIZE ∉ o) s.
Proof.
  exists (mk_pool [15; 0] 34 30 2), ({[3]} ∪ ({[2]} ∪ ∅)).
  assert (Hr : rtc pool_step (example_pool, ∅) (mk_pool [15; 0] 34 30 2, {[3]} ∪ ({[2]} ∪ ∅))).
  { eapply rtc_l; [apply (step_get _ _ (2 * PAGE_SIZE) (mk_pool [7; 0] 34 31 2)); reflexivity |].
    eapply rtc_l; [apply (step_get _ _ (3 * PAGE_SIZE) (mk_pool [15; 0] 34 30 2)); reflexivity |].
    apply rtc_refl. }
  split; [exact Hr |]. split; [set_solver |].
  exact (pagepool_runs_safe _ _ _ example_pool_inv Hr).
Defined.
