(* ===== verification/Vm.v ===== *)
(** * Page tables and TLB misses (src/buenos/vm/vm.c, vm/tlb.c)

    A page table is an array of TLB entry pairs, filled from the front.  It
    refines a partial map from virtual page numbers to a physical page and a
    write permission.  Tables live on pages of the pool, through the
    interface [PageAlloc].  The processor's TLB is modelled by the entry the
    miss handler hands to [_tlb_write_random], and by what an entry translates. *)

From S2P Require Import Prelude Bitmap Kmalloc Pagepool.
Local Open Scope Z_scope.

(** ** Data *)

Definition PAGETABLE_ENTRIES : Z := 340.

(** [tlb_entry_t] of vm/tlb.h; the dummy and cache fields are never used. *)
Record tlb_entry := mk_tlb {
  VPN2 : Z; tlb_ASID : Z;
  PFN0 : Z; D0 : Z; V0 : Z; G0 : Z;
  PFN1 : Z; D1 : Z; V1 : Z; G1 : Z;
}.

(** [pagetable_t] of vm/pagetable.h. *)
Record pagetable := mk_pt { pt_ASID : Z; valid_count : Z; entries : list tlb_entry }.

Definition ADDR_IS_ON_ODD_PAGE (addr : Z) : bool := negb (Z.land addr 0x1000 =? 0).
Definition ADDR_IS_ON_EVEN_PAGE (addr : Z) : bool := Z.land addr 0x1000 =? 0.

(** Assignments to the bit fields; a value too wide for its field loses its
    upper bits. *)
Definition set_VPN2 (v asid : Z) (e : tlb_entry) : tlb_entry :=
  mk_tlb (v mod 2 ^ 19) (asid mod 2 ^ 8) (PFN0 e) (D0 e) (V0 e) (G0 e) (PFN1 e) (D1 e) (V1 e) (G1 e).
Definition set_even (pfn d v g : Z) (e : tlb_entry) : tlb_entry :=
  mk_tlb (VPN2 e) (tlb_ASID e) (pfn mod 2 ^ 20) d v g (PFN1 e) (D1 e) (V1 e) (G1 e).
Definition set_odd (pfn d v g : Z) (e : tlb_entry) : tlb_entry :=
  mk_tlb (VPN2 e) (tlb_ASID e) (PFN0 e) (D0 e) (V0 e) (G0 e) (pfn mod 2 ^ 20) d v g.
Definition set_V0 (v : Z) (e : tlb_entry) : tlb_entry :=
  mk_tlb (VPN2 e) (tlb_ASID e) (PFN0 e) (D0 e) v (G0 e) (PFN1 e) (D1 e) (V1 e) (G1 e).
Definition set_V1 (v : Z) (e : tlb_entry) : tlb_entry :=
  mk_tlb (VPN2 e) (tlb_ASID e) (PFN0 e) (D0 e) (V0 e) (G0 e) (PFN1 e) (D1 e) v (G1 e).
Definition set_D0 (d : Z) (e : tlb_entry) : tlb_entry :=
  mk_tlb (VPN2 e) (tlb_ASID e) (PFN0 e) d (V0 e) (G0 e) (PFN1 e) (D1 e) (V1 e) (G1 e).
Definition set_D1 (d : Z) (e : tlb_entry) : tlb_entry :=
  mk_tlb (VPN2 e) (tlb_ASID e) (PFN0 e) (D0 e) (V0 e) (G0 e) (PFN1 e) d (V1 e) (G1 e).

(** [pagetable->entries[i]] read and written. *)
Definition get_entry (i : Z) : K pagetable tlb_entry :=
  t ← gets id; pure (aget (entries t) i).
Definition put_entry (i : Z) (e : tlb_entry) : K pagetable unit :=
  t ← gets id;
  es ← pure (aset (entries t) i e);
  modify (λ t, mk_pt (pt_ASID t) (valid_count t) es).

(** ** Operations on a page table *)

Definition vm_map (physaddr vaddr dirty : Z) : K pagetable unit :=
  kassert ((dirty =? 0) || (dirty =? 1));;
  t ← gets id;
  found ← for_ (Z.to_nat (valid_count t)) 0 (λ i,
    e ← get_entry i;
    if VPN2 e =? Z.shiftr vaddr 13 then
      if ADDR_IS_ON_EVEN_PAGE vaddr then
        if V0 e =? 1 then panic "Tried to re-map same virtual page"
        else put_entry i (set_even (Z.shiftr physaddr 12) dirty 1 0 e);; mret (Some tt)
      else
        if V1 e =? 1 then panic "Tried to re-map same virtual page"
        else put_entry i (set_odd (Z.shiftr physaddr 12) dirty 1 0 e);; mret (Some tt)
    else mret None);
  match found with
  | Some _ => mret tt
  | None =>
      if PAGETABLE_ENTRIES <=? valid_count t then
        panic "Thread run out of pagetable mapping entries."
      else
        let n := valid_count t in
        e ← get_entry n;
        put_entry n (set_VPN2 (Z.shiftr vaddr 13) (pt_ASID t) e);;
        e ← get_entry n;
        (if ADDR_IS_ON_EVEN_PAGE vaddr then
           put_entry n (set_V1 0 (set_even (Z.shiftr physaddr 12) dirty 1 0 e))
         else
           put_entry n (set_V0 0 (set_odd (Z.shiftr physaddr 12) dirty 1 0 e)));;
        modify (λ t, mk_pt (pt_ASID t) (u32 (valid_count t + 1)) (entries t))
  end.

(** Not implemented in the source: it does nothing. *)
Definition vm_unmap (vaddr : Z) : K pagetable unit := mret tt.

Definition vm_set_dirty (vaddr dirty : Z) : K pagetable unit :=
  kassert ((dirty =? 0) || (dirty =? 1));;
  t ← gets id;
  found ← for_ (Z.to_nat (valid_count t)) 0 (λ i,
    e ← get_entry i;
    if VPN2 e =? Z.shiftr vaddr 13 then
      if ADDR_IS_ON_EVEN_PAGE vaddr then
        if V0 e =? 0 then panic "Tried to set dirty bit of an unmapped entry"
        else put_entry i (set_D0 dirty e);; mret (Some tt)
      else
        if V1 e =? 0 then panic "Tried to set dirty bit of an unmapped entry"
        else put_entry i (set_D1 dirty e);; mret (Some tt)
    else mret None);
  match found with
  | Some _ => mret tt
  | None => panic "Tried to set dirty bit of an unmapped entry"
  end.

(** ** Allocation of page tables *)

Section tables.
Context {P : Type} `{PageAlloc P}.
(** What a page holds, read as page table entries, before it is written. *)
Context (garbage : Z → list tlb_entry).

(** The pool, and the page tables by their address. *)
Definition tables : Type := (P * gmap Z pagetable)%type.
Definition on_pool {A} (m : K P A) : K tables A := zoom fst (λ p s, (p, snd s)) m.

(** Returns the table's address, 0 for [NULL]. *)
Definition vm_create_pagetable (asid : Z) : K tables Z :=
  addr ← on_pool get_phys_page;
  if addr =? 0 then mret 0
  else
    let table := ADDR_PHYS_TO_KERNEL addr in
    modify (λ s, (fst s, <[table := mk_pt asid 0 (garbage table)]> (snd s)));;
    mret table.

Definition vm_destroy_pagetable (table : Z) : K tables unit :=
  on_pool (free_phys_page (ADDR_KERNEL_TO_PHYS table));;
  modify (λ s, (fst s, delete table (snd s))).

End tables.

Definition vm_init io_desc io_read garbage : K (kmalloc_state * pagepool) unit :=
  pagepool_init io_desc io_read garbage;;
  zoom fst (λ k s, (k, snd s)) kmalloc_disable.

(** ** TLB miss handling *)

(** [tlb_exception_state_t], as [_tlb_get_exception_state] fills it in. *)
Record tlb_exception_state := mk_tes { badvaddr : Z; badvpn2 : Z; tes_asid : Z }.

(** How an exception handler ends when it does not panic: the thread resumes,
    after [_tlb_write_random] of an entry, or the process is finished with a
    return value ([process_finish] does not return). *)
Inductive tlb_outcome :=
| Resume (written : tlb_entry)
| Finish (retval : Z).

Definition tlb_error (is_userland : bool) (msg : string) : res tlb_outcome :=
  if is_userland then Ok (Finish 255) else Panic msg.

Definition tlb_modified_exception (is_userland : bool) : res tlb_outcome :=
  tlb_error is_userland "TLB modified exception.".

Definition tlb_entry_is_valid (entry : tlb_entry) (vaddr : Z) : bool :=
  if ADDR_IS_ON_ODD_PAGE vaddr then negb (V1 entry =? 0) else negb (V0 entry =? 0).

(** The scan over [ptable->entries]. *)
Fixpoint tlb_scan (is_userland : bool) (tes : tlb_exception_state) (es : list tlb_entry)
    (n : nat) (i : Z) : res tlb_outcome :=
  match n with
  | O => Panic "Page not found in pagetable."
  | S n' =>
      entry ← aget es i;
      if VPN2 entry =? badvpn2 tes then
        if tlb_entry_is_valid entry (badvaddr tes) then Ok (Resume entry)
        else tlb_error is_userland "Found an invalid TLB entry while handling a TLB miss exception."
      else tlb_scan is_userland tes es n' (i + 1)
  end.

Definition tlb_access_exception (is_userland : bool) (tes : tlb_exception_state)
    (ptable : option pagetable) : res tlb_outcome :=
  match ptable with
  | None => tlb_error is_userland "No pagetable associated with current thread."
  | Some t => tlb_scan is_userland tes (entries t) (Z.to_nat (valid_count t)) 0
  end.

Definition tlb_load_exception := tlb_access_exception.
Definition tlb_store_exception := tlb_access_exception.

(** The state the hardware reports for a miss at [vaddr]. *)
Definition miss_at (vaddr asid : Z) : tlb_exception_state :=
  mk_tes vaddr (Z.shiftr vaddr 13) asid.

(** ** The map a page table stands for *)

(** The frame and the write permission of a page in an entry pair. *)
Definition half (e : tlb_entry) (odd : bool) : option (Z * Z) :=
  if odd then if V1 e =? 1 then Some (PFN1 e, D1 e) else None
  else if V0 e =? 1 then Some (PFN0 e, D0 e) else None.

(** The entries in use. *)
Definition used (t : pagetable) : list tlb_entry := take (Z.to_nat (valid_count t)) (entries t).

Fixpoint lookup_pair (es : list tlb_entry) (vpn2 : Z) : option tlb_entry :=
  match es with
  | [] => None
  | e :: es' => if VPN2 e =? vpn2 then Some e else lookup_pair es' vpn2
  end.

(** Virtual page [vpn] ↦ (physical page, dirty bit). *)
Definition pt_lookup (t : pagetable) (vpn : Z) : option (Z * Z) :=
  match lookup_pair (used t) (vpn / 2) with
  | Some e => half e (Z.odd vpn)
  | None => None
  end.

(** What the hardware makes of an entry: the physical address of [vaddr] for
    the process [asid], and whether it may be written. *)
Definition translate (e : tlb_entry) (asid vaddr : Z) : option (Z * bool) :=
  if (VPN2 e =? vaddr / 8192) &&
     ((tlb_ASID e =? asid) || ((G0 e =? 1) && (G1 e =? 1))) then
    '(pfn, d) ← half e (Z.odd (vaddr / 4096));
    Some (pfn * PAGE_SIZE + vaddr mod PAGE_SIZE, d =? 1)
  else None.

Definition is_bit (z : Z) : Prop := z = 0 ∨ z = 1.

(** An entry in use maps at least one page, has the table's address space
    and is not global. *)
Definition entry_wf (asid : Z) (e : tlb_entry) : Prop :=
  0 ≤ VPN2 e < 2 ^ 19 ∧ tlb_ASID e = asid mod 2 ^ 8 ∧ (G0 e = 0 ∨ G1 e = 0) ∧
  is_bit (V0 e) ∧ is_bit (V1 e) ∧ (V0 e = 1 ∨ V1 e = 1).

Definition pt_wf (t : pagetable) : Prop :=
  length (entries t) = Z.to_nat PAGETABLE_ENTRIES ∧
  0 ≤ valid_count t ≤ PAGETABLE_ENTRIES ∧
  Forall (entry_wf (pt_ASID t)) (used t) ∧
  NoDup (VPN2 <$> used t).

(** ** Lemmas *)

Lemma odd_page a : ADDR_IS_ON_ODD_PAGE a = Z.odd (a / 4096).
Proof.
  unfold ADDR_IS_ON_ODD_PAGE. change 0x1000 with (2 ^ 12). change 4096 with (2 ^ 12).
  rewrite <- Z.shiftr_div_pow2, <- Z.bit0_odd, Z.shiftr_spec by lia.
  change (0 + 12) with 12. destruct (Z.testbit a 12) eqn:Hb.
  - apply negb_true_iff, Z.eqb_neq. intros Hz.
    assert (Ht : Z.testbit (Z.land a (2 ^ 12)) 12 = true)
      by (rewrite Z.land_spec, Hb, Z.pow2_bits_true by lia; done).
    by rewrite Hz, Z.bits_0 in Ht.
  - apply negb_false_iff, Z.eqb_eq, Z.bits_inj. intros k.
    rewrite Z.land_spec, Z.bits_0. destruct (decide (k = 12)) as [->|]; [by rewrite Hb |].
    destruct (decide (k < 0)); [by rewrite Z.testbit_neg_r by lia |].
    by rewrite Z.pow2_bits_false, andb_false_r by lia.
Qed.

Lemma even_page a : ADDR_IS_ON_EVEN_PAGE a = negb (Z.odd (a / 4096)).
Proof.
  rewrite <- odd_page. unfold ADDR_IS_ON_EVEN_PAGE, ADDR_IS_ON_ODD_PAGE. by rewrite negb_involutive.
Qed.

Lemma vpn2_shift a : Z.shiftr a 13 = a / 4096 / 2.
Proof. rewrite Z.shiftr_div_pow2, Z.div_div by lia. done. Qed.

Lemma same_page v w : v / 2 = w / 2 → Z.odd v = Z.odd w → v = w.
Proof.
  intros ? Ho. pose proof (Z.div_mod v 2). pose proof (Z.div_mod w 2).
  rewrite !Zmod_odd, Ho in *. lia.
Qed.

Lemma lookup_pair_Some es v e :
  lookup_pair es v = Some e →
  ∃ k, es !! k = Some e ∧ VPN2 e = v ∧
    ∀ j e', (j < k)%nat → es !! j = Some e' → VPN2 e' ≠ v.
Proof.
  induction es as [|e0 es IH]; simpl; [done |]. case_test.
  - intros [= ->]. exists 0%nat. split_and!; [done | done | lia].
  - intros (k & Hk & Hv & Hj)%IH. exists (S k). split_and!; [done | done |].
    intros [|j] e' ?; simpl; [by intros [= <-] | apply Hj; lia].
Qed.

Lemma lookup_pair_None es v e : lookup_pair es v = None → e ∈ es → VPN2 e ≠ v.
Proof.
  induction es as [|e0 es IH]; simpl; [by intros _ ?%not_elem_of_nil |]. case_test; [done |].
  intros Hn [->|He]%elem_of_cons; auto.
Qed.

Lemma lookup_pair_insert es k e e' w :
  es !! k = Some e → VPN2 e' = VPN2 e →
  (∀ j e1, (j < k)%nat → es !! j = Some e1 → VPN2 e1 ≠ VPN2 e) →
  lookup_pair (<[k := e']> es) w = if w =? VPN2 e then Some e' else lookup_pair es w.
Proof.
  revert k. induction es as [|e0 es IH]; intros [|k] Hk Hv Hj; simpl in *; try done.
  - injection Hk as ->. rewrite Hv, (Z.eqb_sym w). by destruct (VPN2 e =? w).
  - rewrite (IH k); [| done | done | intros j e1 ?; apply (Hj (S j)); lia].
    destruct (Z.eqb_spec w (VPN2 e)) as [Hw|]; [| done].
    rewrite Hw, (proj2 (Z.eqb_neq _ _)); [done |]. by apply (Hj 0%nat); [lia |].
Qed.

Lemma lookup_pair_snoc es e w :
  lookup_pair (es ++ [e]) w =
  match lookup_pair es w with
  | Some e' => Some e'
  | None => if VPN2 e =? w then Some e else None
  end.
Proof. induction es as [|e0 es IH]; simpl; [done |]. by destruct (VPN2 e0 =? w). Qed.

Lemma used_lookup t k e :
  used t !! k = Some e ↔ entries t !! k = Some e ∧ (k < Z.to_nat (valid_count t))%nat.
Proof. unfold used. rewrite lookup_take_Some. done. Qed.

(** The loops of [vm_map] and [vm_set_dirty] stop at the pair's entry, *)
Lemma scan_found t v e n {R} (body : Z → K pagetable (option R)) :
  n = Z.to_nat (valid_count t) →
  (∀ i e', aget (entries t) i = Ok e' → VPN2 e' ≠ v → body i t = Ok (None, t)) →
  lookup_pair (used t) v = Some e →
  ∃ k, used t !! k = Some e ∧ VPN2 e = v ∧
    (∀ j e1, (j < k)%nat → used t !! j = Some e1 → VPN2 e1 ≠ VPN2 e) ∧
    for_ n 0 body t = for_ (S (n - S k)) (Z.of_nat k) body t.
Proof.
  intros -> Hb (k & Hk & Hv & Hj)%lookup_pair_Some. exists k. rewrite Hv.
  split_and!; [done | done | done |]. apply used_lookup in Hk as Hk'. destruct Hk' as [Hk' Hlt].
  rewrite (for_skip _ 0 k); [f_equal; lia | lia |]. intros j Hj'.
  destruct (lookup_lt_is_Some_2 (entries t) (Z.to_nat j)) as [e' He'].
  { apply lookup_lt_Some in Hk'. lia. }
  eapply Hb; [by apply aget_Ok; split; [lia | done] |].
  apply (Hj (Z.to_nat j)); [lia |]. apply used_lookup. split; [done | lia].
Qed.

(** or run to the end when there is none. *)
Lemma scan_none t v n {R} (body : Z → K pagetable (option R)) :
  n = Z.to_nat (valid_count t) → (n ≤ length (entries t))%nat →
  (∀ i e', aget (entries t) i = Ok e' → VPN2 e' ≠ v → body i t = Ok (None, t)) →
  lookup_pair (used t) v = None →
  for_ n 0 body t = Ok (None, t).
Proof.
  intros -> Hl Hb Hn. rewrite (for_skip _ 0 (Z.to_nat (valid_count t)));
    [by rewrite Nat.sub_diag | done |].
  intros j Hj'. destruct (lookup_lt_is_Some_2 (entries t) (Z.to_nat j)) as [e' He']; [lia |].
  eapply Hb; [by apply aget_Ok; split; [lia | done] |].
  eapply lookup_pair_None; [done |]. apply list_elem_of_lookup. exists (Z.to_nat j).
  apply used_lookup. split; [done | lia].
Qed.

Lemma get_entry_Ok t k e : entries t !! k = Some e → get_entry (Z.of_nat k) t = Ok (e, t).
Proof.
  intros Hk. unfold get_entry, mbind, K_bind, gets, pure, aget, id.
  rewrite (proj2 (Z.ltb_ge _ _)), Nat2Z.id, Hk by lia. done.
Qed.

Definition set_entry (k : nat) (e : tlb_entry) (t : pagetable) : pagetable :=
  mk_pt (pt_ASID t) (valid_count t) (<[k := e]> (entries t)).

Lemma put_entry_Ok t k e :
  (k < length (entries t))%nat → put_entry (Z.of_nat k) e t = Ok (tt, set_entry k e t).
Proof.
  intros Hk. unfold put_entry, mbind, K_bind, gets, pure, modify, id.
  rewrite aset_Ok, Nat2Z.id by lia. done.
Qed.

Lemma used_set t k e :
  (k < Z.to_nat (valid_count t))%nat → used (set_entry k e t) = <[k := e]> (used t).
Proof. intros ?. unfold used, set_entry; simpl. by rewrite take_insert_lt. Qed.

Lemma NoDup_VPN2_first t k e :
  pt_wf t → used t !! k = Some e →
  ∀ j e1, (j < k)%nat → used t !! j = Some e1 → VPN2 e1 ≠ VPN2 e.
Proof.
  intros (_ & _ & _ & Hnd) Hk j e1 Hj He1 Heq.
  assert (j = k); [| lia]. eapply NoDup_lookup; [exact Hnd | |].
  - by rewrite list_lookup_fmap, He1.
  - rewrite list_lookup_fmap, Hk. simpl. by rewrite Heq.
Qed.

(** Changing the pages of a pair that is in use. *)
Lemma pt_update t k e e' :
  pt_wf t → used t !! k = Some e → VPN2 e' = VPN2 e → entry_wf (pt_ASID t) e' →
  pt_wf (set_entry k e' t) ∧
  ∀ w, pt_lookup (set_entry k e' t) w =
       if w / 2 =? VPN2 e then half e' (Z.odd w) else pt_lookup t w.
Proof.
  intros Hwf Hk Hv He'. pose proof (NoDup_VPN2_first t k e Hwf Hk) as Hfirst.
  destruct Hwf as (Hl & Hc & Hall & Hnd). apply used_lookup in Hk as Hk'. destruct Hk' as [_ Hlt].
  split.
  - unfold pt_wf. rewrite used_set by done. simpl. rewrite length_insert.
    split_and!; [done | lia | lia | by apply Forall_insert |].
    rewrite list_fmap_insert, Hv, list_insert_id; [done |]. by rewrite list_lookup_fmap, Hk.
  - intros w. unfold pt_lookup. rewrite used_set, (lookup_pair_insert _ k e) by done.
    by case_test.
Qed.

(** Taking a new pair into use. *)
Definition add_entry (e : tlb_entry) (t : pagetable) : pagetable :=
  mk_pt (pt_ASID t) (valid_count t + 1) (<[Z.to_nat (valid_count t) := e]> (entries t)).

Lemma used_add t e : pt_wf t → valid_count t < PAGETABLE_ENTRIES → used (add_entry e t) = used t ++ [e].
Proof.
  unfold PAGETABLE_ENTRIES. intros (Hl & Hc & _) Hlt. unfold used, add_entry; simpl.
  rewrite Z2Nat.inj_add, Nat.add_1_r by lia.
  erewrite take_S_r by (apply list_lookup_insert_eq; rewrite Hl; unfold PAGETABLE_ENTRIES; lia).
  by rewrite take_insert_ge by lia.
Qed.

Lemma pt_append t e :
  pt_wf t → valid_count t < PAGETABLE_ENTRIES → entry_wf (pt_ASID t) e →
  lookup_pair (used t) (VPN2 e) = None →
  pt_wf (add_entry e t) ∧
  ∀ w, pt_lookup (add_entry e t) w =
       if w / 2 =? VPN2 e then half e (Z.odd w) else pt_lookup t w.
Proof.
  intros Hwf Hlt He Hn. pose proof (used_add t e Hwf Hlt) as Hu.
  destruct Hwf as (Hl & Hc & Hall & Hnd). split.
  - unfold pt_wf. rewrite Hu. simpl. rewrite length_insert. split_and!; [done | lia | lia | |].
    + apply Forall_app. by split; [| apply Forall_singleton].
    + rewrite fmap_app. apply NoDup_app. split_and!; [done | | apply NoDup_singleton].
      intros v (e1 & -> & He1)%list_elem_of_fmap Hv%list_elem_of_singleton.
      by eapply lookup_pair_None.
  - intros w. unfold pt_lookup. rewrite Hu, lookup_pair_snoc, (Z.eqb_sym (VPN2 e)).
    destruct (Z.eqb_spec (w / 2) (VPN2 e)) as [->|]; [by rewrite Hn |]. by destruct (lookup_pair (used t) (w / 2)).
Qed.

(** What mapping one page of a pair leaves of the pair. *)
Definition map_half (e : tlb_entry) (odd : bool) (pfn d : Z) : tlb_entry :=
  if odd then set_odd pfn d 1 0 e else set_even pfn d 1 0 e.

Lemma half_map e odd pfn d o :
  0 ≤ pfn < 2 ^ 20 →
  half (map_half e odd pfn d) o = if Bool.eqb o odd then Some (pfn, d) else half e o.
Proof. intros ?. destruct odd, o; simpl; rewrite ?Z.mod_small by done; done. Qed.

Lemma entry_wf_map asid e odd pfn d : entry_wf asid e → entry_wf asid (map_half e odd pfn d).
Proof. unfold entry_wf, is_bit. intros (? & ? & ? & ? & ? & ?). destruct odd; simpl; split_and!; auto; lia. Qed.

Lemma eqb_page w v : (w / 2 =? v / 2) && Bool.eqb (Z.odd w) (Z.odd v) = (w =? v).
Proof.
  destruct (Z.eqb_spec w v) as [->|Hne]; [by rewrite Z.eqb_refl, eqb_reflx |].
  apply andb_false_iff. destruct (Z.eqb_spec (w / 2) (v / 2)); [right | by left].
  apply eqb_false_iff. intros ?. by apply Hne, same_page.
Qed.

Lemma pt_lookup_half t v e o :
  lookup_pair (used t) (v / 2) = Some e → o = Z.odd v → pt_lookup t v = half e o.
Proof. intros He ->. unfold pt_lookup. by rewrite He. Qed.

(** [vm_map] on each of its branches. *)
Lemma bit_test d : is_bit d → (d =? 0) || (d =? 1) = true.
Proof. by intros [-> | ->]. Qed.

Lemma vm_map_pair t p v d e :
  pt_wf t → is_bit d → lookup_pair (used t) (v / 4096 / 2) = Some e →
  ∃ k, used t !! k = Some e ∧
    vm_map p v d t =
      if half e (Z.odd (v / 4096)) is Some _ then Panic "Tried to re-map same virtual page"
      else Ok (tt, set_entry k (map_half e (Z.odd (v / 4096)) (Z.shiftr p 12) d) t).
Proof.
  intros Hwf Hd He. unfold vm_map.
  rewrite bind_kassert, bind_gets, even_page, vpn2_shift by (by apply bit_test). unfold id.
  match goal with |- context [for_ _ _ ?b] => set (body := b) end.
  destruct (scan_found t (v / 4096 / 2) e _ body eq_refl) as (k & Hk & Hv & _ & Hfor); [| done |].
  { intros i e' Hi Hne. unfold body, get_entry, mbind, K_bind, gets, pure, id. rewrite Hi.
    by rewrite (proj2 (Z.eqb_neq _ _) Hne). }
  exists k. split; [done |]. apply used_lookup in Hk as [Hk Hlt].
  assert (k < length (entries t))%nat by (by eapply lookup_lt_Some).
  unfold mbind at 1, K_bind at 1. rewrite Hfor. cbn [for_]. unfold body, mbind, K_bind.
  rewrite (get_entry_Ok t k e Hk), Hv, Z.eqb_refl. unfold half, map_half.
  destruct (Z.odd (v / 4096)); simpl;
    match goal with |- context [if ?b then Some _ else None] => destruct b end; try done;
    by rewrite put_entry_Ok.
Qed.

Lemma vm_map_new t p v d :
  pt_wf t → is_u32 v → is_bit d → lookup_pair (used t) (v / 4096 / 2) = None →
  if PAGETABLE_ENTRIES <=? valid_count t
  then vm_map p v d t = Panic "Thread run out of pagetable mapping entries."
  else ∃ e, VPN2 e = v / 4096 / 2 ∧ tlb_ASID e = pt_ASID t mod 2 ^ 8 ∧ V0 e = 0 ∧ V1 e = 0 ∧
      vm_map p v d t = Ok (tt, add_entry (map_half e (Z.odd (v / 4096)) (Z.shiftr p 12) d) t).
Proof.
  intros Hwf Hv32 Hd Hn. unfold vm_map.
  rewrite bind_kassert, bind_gets, even_page, vpn2_shift by (by apply bit_test). unfold id.
  destruct Hwf as (Hl & Hc & _).
  erewrite bind_Ok; [| apply (scan_none t (v / 4096 / 2)); [done | lia | | done]].
  2: { intros i e' Hi Hne. unfold get_entry, mbind, K_bind, gets, pure, id. rewrite Hi.
       by rewrite (proj2 (Z.eqb_neq _ _) Hne). }
  unfold PAGETABLE_ENTRIES in *. case_test; [done |].
  destruct (lookup_lt_is_Some_2 (entries t) (Z.to_nat (valid_count t))) as [e0 He0]; [lia |].
  set (e1 := set_VPN2 (v / 4096 / 2) (pt_ASID t) e0).
  exists (set_V0 0 (set_V1 0 e1)). split_and!; [| done.. |].
  { unfold is_u32 in Hv32. apply Z.mod_small. rewrite Z.div_div by lia. split; [apply Z.div_pos; lia |].
    apply Z.div_lt_upper_bound; lia. }
  remember (Z.to_nat (valid_count t)) as n eqn:En.
  assert (Hvn : valid_count t = Z.of_nat n) by lia. rewrite Hvn.
  unfold mbind, K_bind. rewrite (get_entry_Ok t n e0 He0), put_entry_Ok by lia.
  rewrite (get_entry_Ok _ n e1) by (simpl; apply list_lookup_insert_eq; lia).
  unfold add_entry, map_half. rewrite <- En.
  destruct (Z.odd (v / 4096)); simpl; rewrite put_entry_Ok by (simpl; rewrite length_insert; lia);
    unfold modify, set_entry; simpl; rewrite u32_small, list_insert_insert_eq by (unfold is_u32; lia); done.
Qed.

Lemma pfn_range p : is_u32 p → 0 ≤ p / 4096 < 2 ^ 20.
Proof. unfold is_u32. intros ?. split; [apply Z.div_pos; lia | apply Z.div_lt_upper_bound; lia]. Qed.

(** The page can be mapped: it is not mapped yet, and its pair has an entry or
    there is room for one. *)
Definition can_map (t : pagetable) (vpn : Z) : Prop :=
  pt_lookup t vpn = None ∧
  (is_Some (lookup_pair (used t) (vpn / 2)) ∨ valid_count t < PAGETABLE_ENTRIES).

(** A page whose pair has an entry takes no new one. *)
Lemma vm_map_count_wp t p v d :
  pt_wf t → is_u32 p → is_u32 v → is_bit d → can_map t (v / 4096) →
  wp (vm_map p v d) (λ _ t', pt_wf t' ∧ pt_ASID t' = pt_ASID t ∧
    valid_count t' = valid_count t + (if lookup_pair (used t) (v / 4096 / 2) is Some _ then 0 else 1) ∧
    ∀ w, pt_lookup t' w = if w =? v / 4096 then Some (p / 4096, d) else pt_lookup t w) t.
Proof.
  intros Hwf Hp Hv Hd [Hnone Hroom]. pose proof (pfn_range p Hp).
  assert (Hsh : Z.shiftr p 12 = p / 4096) by (by rewrite Z.shiftr_div_pow2).
  destruct (lookup_pair (used t) (v / 4096 / 2)) as [e|] eqn:He.
  - pose proof (vm_map_pair t p v d e Hwf Hd He) as Hm.
    destruct Hm as (k & Hk & Hm). rewrite <- (pt_lookup_half t _ e _ He eq_refl), Hnone in Hm.
    unfold wp. rewrite Hm, Hsh. pose proof Hwf as (_ & _ & Hall & _).
    destruct (pt_update t k e (map_half e (Z.odd (v / 4096)) (p / 4096) d) Hwf Hk) as [Hwf' Hlk].
    { by destruct (Z.odd _). }
    { apply entry_wf_map. by eapply Forall_lookup_1. }
    split_and!; [done | done | simpl; lia |]. intros w.
    apply lookup_pair_Some in He as He'. destruct He' as (_ & _ & Hve & _).
    rewrite Hlk, half_map, Hve, <- (eqb_page w (v / 4096)) by done.
    destruct (Z.eqb_spec (w / 2) (v / 4096 / 2)) as [Hw|]; [| done]. rewrite andb_true_l. destruct (Bool.eqb _ _); [done |].
    rewrite <- Hw in He. by rewrite (pt_lookup_half _ _ _ _ He eq_refl).
  - destruct Hroom as [[? ?]|Hroom]; [done |].
    pose proof (vm_map_new t p v d Hwf Hv Hd He) as Hm.
    rewrite (proj2 (Z.leb_gt _ _)) in Hm by done. destruct Hm as (e & Hve & Hae & H0 & H1 & Hm).
    unfold wp. rewrite Hm, Hsh.
    set (e' := map_half e (Z.odd (v / 4096)) (p / 4096) d).
    assert (Hve' : VPN2 e' = v / 4096 / 2) by (unfold e'; by destruct (Z.odd _)).
    destruct (pt_append t e' Hwf Hroom) as [Hwf' Hlk]; [| by rewrite Hve' |].
    { unfold entry_wf, is_bit. rewrite Hve'. unfold is_u32 in Hv. split_and!;
        [apply Z.div_pos; [apply Z.div_pos; lia | lia] | rewrite Z.div_div by lia; apply Z.div_lt_upper_bound; lia | ..].
      all: unfold e', map_half; destruct (Z.odd _); simpl; auto. }
    split_and!; [done | done | simpl; lia |]. intros w.
    rewrite Hlk, Hve', <- (eqb_page w (v / 4096)). destruct (Z.eqb_spec (w / 2) (v / 4096 / 2)) as [Hw|]; [| done].
    rewrite andb_true_l. unfold e'. rewrite half_map by done. destruct (Bool.eqb _ _); [done |].
    unfold pt_lookup. rewrite Hw, He. unfold half. rewrite H0, H1. by destruct (Z.odd w).
Qed.

Lemma vm_map_wp t p v d :
  pt_wf t → is_u32 p → is_u32 v → is_bit d → can_map t (v / 4096) →
  wp (vm_map p v d) (λ _ t', pt_wf t' ∧ pt_ASID t' = pt_ASID t ∧
    valid_count t' ≤ valid_count t + 1 ∧
    ∀ w, pt_lookup t' w = if w =? v / 4096 then Some (p / 4096, d) else pt_lookup t w) t.
Proof.
  intros. eapply wp_mono; [by apply vm_map_count_wp |]. intros [] t' (? & ? & Hc & ?). split_and!; [done | done | | done].
  rewrite Hc. destruct (lookup_pair _ _); lia.
Qed.

Lemma vm_set_dirty_pair t v d e :
  pt_wf t → is_bit d → lookup_pair (used t) (v / 4096 / 2) = Some e →
  ∃ k, used t !! k = Some e ∧
    vm_set_dirty v d t =
      if half e (Z.odd (v / 4096)) is Some _
      then Ok (tt, set_entry k (if Z.odd (v / 4096) then set_D1 d e else set_D0 d e) t)
      else Panic "Tried to set dirty bit of an unmapped entry".
Proof.
  intros Hwf Hd He. unfold vm_set_dirty.
  rewrite bind_kassert, bind_gets, even_page, vpn2_shift by (by apply bit_test). unfold id.
  match goal with |- context [for_ _ _ ?b] => set (body := b) end.
  destruct (scan_found t (v / 4096 / 2) e _ body eq_refl) as (k & Hk & Hv & _ & Hfor); [| done |].
  { intros i e' Hi Hne. unfold body, get_entry, mbind, K_bind, gets, pure, id. rewrite Hi.
    by rewrite (proj2 (Z.eqb_neq _ _) Hne). }
  exists k. split; [done |]. pose proof Hwf as (_ & _ & Hall & _).
  destruct (Forall_lookup_1 _ _ _ _ Hall Hk) as (_ & _ & _ & H0 & H1 & _).
  apply used_lookup in Hk as [Hk Hlt].
  assert (k < length (entries t))%nat by (by eapply lookup_lt_Some).
  unfold mbind at 1, K_bind at 1. rewrite Hfor. cbn [for_]. unfold body, mbind, K_bind.
  rewrite (get_entry_Ok t k e Hk), Hv, Z.eqb_refl. unfold half.
  destruct (Z.odd (v / 4096)); simpl; [destruct H1 as [-> | ->] | destruct H0 as [-> | ->]];
    simpl; rewrite ?put_entry_Ok by done; done.
Qed.

(** Pages mapped one after the other, as process creation does. *)
Fixpoint map_pages (l : list (Z * Z)) (dirty : Z) : K pagetable unit :=
  match l with
  | [] => mret tt
  | (vaddr, physaddr) :: l' => vm_map physaddr vaddr dirty;; map_pages l' dirty
  end.

Lemma map_pages_wp t l d :
  pt_wf t → is_bit d → Forall (λ x, is_u32 x.1 ∧ is_u32 x.2) l →
  NoDup ((λ x, x.1 / 4096) <$> l) → (∀ x, x ∈ l → pt_lookup t (x.1 / 4096) = None) →
  valid_count t + Z.of_nat (length l) ≤ PAGETABLE_ENTRIES →
  wp (map_pages l d) (λ _ t', pt_wf t' ∧ pt_ASID t' = pt_ASID t ∧
    (∀ x, x ∈ l → pt_lookup t' (x.1 / 4096) = Some (x.2 / 4096, d)) ∧
    ∀ w, w ∉ ((λ x, x.1 / 4096) <$> l) → pt_lookup t' w = pt_lookup t w) t.
Proof.
  revert t. induction l as [|[v p] l IH]; intros t Hwf Hd Hu Hnd Hnew Hroom; simpl.
  { apply wp_ret. split_and!; try done. by intros x ?%not_elem_of_nil. }
  apply Forall_cons in Hu as [[Hv Hp] Hu]. simpl in *. apply NoDup_cons in Hnd as [Hni Hnd].
  apply wp_bind. eapply wp_mono; [apply vm_map_wp; try done |].
  { split; [apply (Hnew (v, p)); left | right]; lia. }
  intros _ t1 (Hwf1 & Ha1 & Hc1 & Hlk1). eapply wp_mono; [apply IH; try done |].
  - intros x Hx. rewrite Hlk1. destruct (Z.eqb_spec (x.1 / 4096) (v / 4096)) as [He|].
    + exfalso. apply Hni. apply list_elem_of_fmap. by exists x.
    + apply Hnew. by right.
  - lia.
  - intros _ t2 (Hwf2 & Ha2 & Hin & Hout). split_and!; [done | congruence | |].
    + intros x [->|Hx]%elem_of_cons; [| by apply Hin]. simpl.
      by rewrite Hout, Hlk1, Z.eqb_refl.
    + intros w [Hw Hw']%not_elem_of_cons. rewrite Hout, Hlk1 by done.
      by rewrite (proj2 (Z.eqb_neq _ _)).
Qed.

Lemma tlb_scan_spec ul tes es n i :
  0 ≤ i → (Z.to_nat i + n ≤ length es)%nat →
  tlb_scan ul tes es n i =
  match lookup_pair (take n (drop (Z.to_nat i) es)) (badvpn2 tes) with
  | Some e => if tlb_entry_is_valid e (badvaddr tes) then Ok (Resume e)
      else tlb_error ul "Found an invalid TLB entry while handling a TLB miss exception."
  | None => Panic "Page not found in pagetable."
  end.
Proof.
  revert i. induction n as [|n IH]; intros i Hi Hn; [done |].
  destruct (lookup_lt_is_Some_2 es (Z.to_nat i)) as [e He]; [lia |].
  rewrite (drop_S _ e) by done. simpl. unfold mbind, res_bind.
  rewrite (proj2 (aget_Ok es i e) (conj Hi He)). case_test; [done |].
  rewrite IH by lia. by rewrite Z2Nat.inj_add, Nat.add_1_r by lia.
Qed.

Lemma is_valid_half asid e v :
  entry_wf asid e →
  tlb_entry_is_valid e v = if half e (Z.odd (v / 4096)) is Some _ then true else false.
Proof.
  intros (_ & _ & _ & H0 & H1 & _). unfold tlb_entry_is_valid, half. rewrite odd_page.
  destruct (Z.odd _); [destruct H1 as [-> | ->] | destruct H0 as [-> | ->]]; done.
Qed.

Lemma land_bit31 a : 0 ≤ a < 2 ^ 31 → Z.land a 0x80000000 = 0.
Proof.
  intros ?. change 0x80000000 with (2 ^ 31). apply Z.bits_inj'. intros k ?.
  rewrite Z.land_spec, Z.bits_0, Z.pow2_bits_eqb by lia. destruct (Z.eqb_spec 31 k) as [<-|].
  - rewrite Z.testbit_odd, Z.shiftr_div_pow2, Z.div_small by lia. done.
  - apply andb_false_r.
Qed.

Lemma phys_kernel_addr a :
  0 ≤ a < 2 ^ 31 →
  ADDR_PHYS_TO_KERNEL a = 0x80000000 + a ∧ ADDR_KERNEL_TO_PHYS (0x80000000 + a) = a.
Proof.
  intros ?. unfold ADDR_PHYS_TO_KERNEL, ADDR_KERNEL_TO_PHYS. split.
  - pose proof (Z.add_lor_land a 0x80000000). rewrite land_bit31 in * by done. lia.
  - change 0x7fffffff with (Z.ones 31). rewrite Z.land_ones by lia.
    rewrite <- (Z.mod_small a (2 ^ 31)) at 2 by done.
    rewrite Z.add_mod by lia. rewrite (Z.mod_small a) by done. by apply Z.mod_small.
Qed.

Lemma empty_pt_wf asid es : length es = Z.to_nat PAGETABLE_ENTRIES → pt_wf (mk_pt asid 0 es).
Proof. intros Hl. split_and!; simpl; try done. constructor. Qed.

(** ** Page tables and the pool *)

Section tables_inv.
Context {P : Type} `{PageAlloc P}.

(** Every table is well formed and sits on a page of its own that is taken. *)
Definition tables_inv (s : @tables P) : Prop :=
  alloc_inv (fst s) ∧
  ∀ a t, snd s !! a = Some t → pt_wf t ∧
    ∃ p, a = 0x80000000 + p * PAGE_SIZE ∧ managed (fst s) p ∧ p ∉ free_pages (fst s).

Lemma vm_create_free_wp (garbage : Z → list tlb_entry) s asid :
  (∀ a, length (garbage a) = Z.to_nat PAGETABLE_ENTRIES) → tables_inv s →
  wp (vm_create_pagetable garbage asid) (λ a s', tables_inv s' ∧
    if a =? 0 then free_pages (fst s) = ∅ ∧ s' = s
    else snd s !! a = None ∧ (∃ t, snd s' = <[a := t]> (snd s) ∧ pt_ASID t = asid ∧ valid_count t = 0) ∧
         ∃ q, q ∈ free_pages (fst s) ∧ free_pages (fst s') = free_pages (fst s) ∖ {[q]}) s.
Proof.
  intros Hg [Hi Ht]. destruct s as [p ts]. simpl in *. unfold vm_create_pagetable, on_pool.
  do 2 wp_step. simpl. eapply wp_mono; [by apply get_phys_page_spec |].
  intros a p' (Hi' & Hm & [(-> & He & ->)|(q & -> & Hq & Hf)]); simpl.
  { by apply wp_ret. }
  pose proof (managed_range p q Hi (free_pages_managed p q Hi Hq)) as Hr.
  rewrite (proj2 (Z.eqb_neq _ _)) by (unfold PAGE_SIZE; lia). do 2 wp_step. apply wp_ret. simpl.
  rewrite (proj1 (phys_kernel_addr (q * PAGE_SIZE) ltac:(unfold PAGE_SIZE; lia))).
  rewrite (proj2 (Z.eqb_neq _ _)) by (unfold PAGE_SIZE; lia).
  assert (Hfresh : ts !! (0x80000000 + q * PAGE_SIZE) = None).
  { destruct (ts !! _) as [t|] eqn:E; [| done].
    destruct (Ht _ _ E) as (_ & p0 & Heq & _ & Hnf). unfold PAGE_SIZE in Heq.
    assert (p0 = q) as -> by lia. done. }
  split_and!; [split; [done |] | done | | by exists q]; simpl.
  - intros a t [[<- <-]|[Hne Ha]]%lookup_insert_Some.
    + split; [| exists q; split_and!; [done | by apply Hm, free_pages_managed | set_solver]].
      by apply empty_pt_wf.
    + destruct (Ht _ _ Ha) as (? & p0 & ? & ? & ?). split; [done |]. exists p0.
      split_and!; [done | by apply Hm | set_solver].
  - by eexists.
Qed.

Lemma vm_create_wp (garbage : Z → list tlb_entry) s asid :
  (∀ a, length (garbage a) = Z.to_nat PAGETABLE_ENTRIES) → tables_inv s →
  wp (vm_create_pagetable garbage asid) (λ a s', tables_inv s' ∧
    if a =? 0 then free_pages (fst s) = ∅ ∧ s' = s
    else snd s !! a = None ∧ ∃ t, snd s' = <[a := t]> (snd s) ∧ pt_ASID t = asid ∧
           valid_count t = 0) s.
Proof.
  intros Hg Hs. eapply wp_mono; [by apply vm_create_free_wp |]. intros a s' [Ht Hr]. split; [done |].
  destruct (a =? 0); [done |]. by destruct Hr as (? & ? & _).
Qed.

Lemma vm_destroy_wp s a t :
  tables_inv s → snd s !! a = Some t →
  wp (vm_destroy_pagetable a) (λ _ s', tables_inv s' ∧ snd s' = delete a (snd s) ∧
    free_pages (fst s') = {[(a - 0x80000000) / PAGE_SIZE]} ∪ free_pages (fst s)) s.
Proof.
  intros [Hi Ht] Ha. destruct s as [p ts]. simpl in *.
  destruct (Ht a t Ha) as (_ & q & -> & Hq & Hnf). pose proof (managed_range p q Hi Hq).
  unfold vm_destroy_pagetable, on_pool. do 2 wp_step. simpl.
  rewrite (proj2 (phys_kernel_addr (q * PAGE_SIZE) ltac:(unfold PAGE_SIZE; lia))).
  eapply wp_mono; [by apply free_phys_page_spec |]. intros _ p' (Hi' & Hm & Hf). wp_step. simpl.
  rewrite Z.add_simpl_l, Z.div_mul by done. split_and!; [split; [done |]; simpl | done | done].
  intros a' t' [Hne Ha']%lookup_delete_Some. destruct (Ht _ _ Ha') as (? & p0 & ? & ? & ?).
  split; [done |]. exists p0. split_and!; [done | by apply Hm |]. rewrite Hf.
  assert (p0 ≠ q) by congruence. set_solver.
Qed.

End tables_inv.

(** ** Theorems *)

(** C20: [vm_map] refines insertion into the map the table stands for.  A page
    that is already mapped stops the kernel, as does a page that would need a
    new entry in a full table; in every other case the page, and no other
    page, now maps to the given frame with the given permission. *)
Theorem vm_map_refines t physaddr vaddr dirty :
  pt_wf t → is_u32 physaddr → is_u32 vaddr → is_bit dirty →
  match pt_lookup t (vaddr / 4096) with
  | Some _ => vm_map physaddr vaddr dirty t = Panic "Tried to re-map same virtual page"
  | None =>
      if (PAGETABLE_ENTRIES <=? valid_count t) &&
         (if lookup_pair (used t) (vaddr / 4096 / 2) is Some _ then false else true)
      then vm_map physaddr vaddr dirty t = Panic "Thread run out of pagetable mapping entries."
      else wp (vm_map physaddr vaddr dirty) (λ _ t', pt_wf t' ∧ pt_ASID t' = pt_ASID t ∧
             ∀ w, pt_lookup t' w =
                  if w =? vaddr / 4096 then Some (physaddr / 4096, dirty) else pt_lookup t w) t
  end.
Proof.
  intros Hwf Hp Hv Hd. destruct (pt_lookup t (vaddr / 4096)) as [x|] eqn:Hl.
  - unfold pt_lookup in Hl. destruct (lookup_pair _ _) as [e|] eqn:He; [| done].
    destruct (vm_map_pair t physaddr vaddr dirty e Hwf Hd He) as (k & _ & ->). by rewrite Hl.
  - destruct (_ && _) eqn:Hfull.
    + bool_prop. destruct (lookup_pair _ _) eqn:He; [done |].
      pose proof (vm_map_new t physaddr vaddr dirty Hwf Hv Hd He) as Hm.
      by rewrite (proj2 (Z.leb_le _ _)) in Hm by done.
    + eapply wp_mono; [apply vm_map_wp; try done; split; [done |] |].
      * apply andb_false_iff in Hfull as [?|?]; bool_prop; [by right |].
        left. by destruct (lookup_pair _ _); [eexists |].
      * intros _ t' (? & ? & _ & ?). done.
Qed.

(** An unwritten entry, as memory may hold it. *)
Definition some_entry : tlb_entry := mk_tlb 7 99 5 1 1 1 5 1 1 1.
Definition fresh_pt (asid : Z) : pagetable := mk_pt asid 0 (replicate 340 some_entry).

Lemma vm_map_refines_witness :
  pt_lookup (fresh_pt 3) 5 = None ∧
  wp (vm_map 0x6000 0x5000 1) (λ _ t', pt_wf t' ∧ pt_ASID t' = 3 ∧
    ∀ w, pt_lookup t' w = if w =? 5 then Some (6, 1) else pt_lookup (fresh_pt 3) w) (fresh_pt 3).
Proof.
  split; [reflexivity |].
  apply (vm_map_refines (fresh_pt 3) 0x6000 0x5000 1);
    [by apply empty_pt_wf | unfold is_u32; lia | unfold is_u32; lia | by right].
Defined.

(** a fresh table has room for any 340 pages: mapping a list of at most
    340 distinct pages one after the other returns, and afterwards exactly
    those pages are mapped, each to its own frame. *)
Theorem map_pages_fresh asid es l dirty :
  length es = Z.to_nat PAGETABLE_ENTRIES → is_bit dirty →
  Forall (λ x, is_u32 x.1 ∧ is_u32 x.2) l → NoDup ((λ x, x.1 / 4096) <$> l) →
  Z.of_nat (length l) ≤ PAGETABLE_ENTRIES →
  wp (map_pages l dirty) (λ _ t',
    (∀ v p, (v, p) ∈ l → pt_lookup t' (v / 4096) = Some (p / 4096, dirty)) ∧
    (∀ w, w ∉ ((λ x, x.1 / 4096) <$> l) → pt_lookup t' w = None)) (mk_pt asid 0 es).
Proof.
  intros Hl Hd Hu Hnd Hn. eapply wp_mono; [apply map_pages_wp; try done |].
  - by apply empty_pt_wf.
  - intros _ t' (_ & _ & Hin & Hout). split; [intros v p Hvp; by apply (Hin (v, p)) |].
    intros w Hw. by rewrite Hout.
Qed.

Lemma map_pages_fresh_witness :
  wp (map_pages [(0x7fffe000, 0x5000); (0x1000, 0x9000); (0x7ffff000, 0x6000)] 1) (λ _ t',
    (∀ v p, (v, p) ∈ [(0x7fffe000, 0x5000); (0x1000, 0x9000); (0x7ffff000, 0x6000)] →
       pt_lookup t' (v / 4096) = Some (p / 4096, 1)) ∧
    (∀ w, w ∉ ((λ x, x.1 / 4096) <$> [(0x7fffe000, 0x5000); (0x1000, 0x9000); (0x7ffff000, 0x6000)]) →
       pt_lookup t' w = None)) (fresh_pt 3).
Proof.
  apply (map_pages_fresh 3 (replicate 340 some_entry)
           [(0x7fffe000, 0x5000); (0x1000, 0x9000); (0x7ffff000, 0x6000)] 1).
  - reflexivity.
  - by right.
  - unfold is_u32. repeat constructor; simpl; lia.
  - apply (bool_decide_unpack _). vm_compute. exact I.
  - vm_compute. discriminate.
Defined.

Lemma vm_set_dirty_wp t vaddr dirty pfn d :
  pt_wf t → is_bit dirty → pt_lookup t (vaddr / 4096) = Some (pfn, d) →
  wp (vm_set_dirty vaddr dirty) (λ _ t', pt_wf t' ∧ pt_ASID t' = pt_ASID t ∧
    ∀ w, pt_lookup t' w = if w =? vaddr / 4096 then Some (pfn, dirty) else pt_lookup t w) t.
Proof.
  intros Hwf Hd Hl. unfold pt_lookup in Hl. destruct (lookup_pair (used t) (vaddr / 4096 / 2)) as [e|] eqn:He; [| done].
  destruct (vm_set_dirty_pair t vaddr dirty e Hwf Hd He) as (k & Hk & Hm). rewrite Hl in Hm.
  unfold wp. rewrite Hm. pose proof Hwf as (_ & _ & Hall & _).
  edestruct (pt_update t k e) as [Hwf' Hlk]; [done | done | | | split_and!; [exact Hwf' | done |]].
  - by destruct (Z.odd _).
  - destruct (Forall_lookup_1 _ _ _ _ Hall Hk) as (? & ? & ? & ? & ? & ?).
    destruct (Z.odd _); done.
  - intros w. apply lookup_pair_Some in He as He'. destruct He' as (_ & _ & Hve & _).
    rewrite Hlk, Hve, <- (eqb_page w (vaddr / 4096)).
    destruct (Z.eqb_spec (w / 2) (vaddr / 4096 / 2)) as [Hw|]; [| done]. rewrite andb_true_l.
    rewrite <- Hw in He. rewrite (pt_lookup_half _ _ _ _ He eq_refl).
    destruct (Z.odd w), (Z.odd (vaddr / 4096)); simpl in *; try done; case_match; by simplify_eq.
Qed.

(** [vm_set_dirty] changes the permission of the given page and nothing
    else, and stops the kernel when the page is not mapped. *)
Theorem vm_set_dirty_refines t vaddr dirty :
  pt_wf t → is_bit dirty →
  match pt_lookup t (vaddr / 4096) with
  | None => vm_set_dirty vaddr dirty t = Panic "Tried to set dirty bit of an unmapped entry"
  | Some (pfn, _) =>
      wp (vm_set_dirty vaddr dirty) (λ _ t', pt_wf t' ∧ pt_ASID t' = pt_ASID t ∧
        ∀ w, pt_lookup t' w = if w =? vaddr / 4096 then Some (pfn, dirty) else pt_lookup t w) t
  end.
Proof.
  intros Hwf Hd. destruct (pt_lookup t (vaddr / 4096)) as [[pfn d]|] eqn:Hl; [by eapply vm_set_dirty_wp |].
  unfold pt_lookup in Hl. destruct (lookup_pair (used t) (vaddr / 4096 / 2)) as [e|] eqn:He.
  - destruct (vm_set_dirty_pair t vaddr dirty e Hwf Hd He) as (k & _ & Hm). by rewrite Hl in Hm.
  - unfold vm_set_dirty.
    rewrite bind_kassert, bind_gets, vpn2_shift by (by apply bit_test). unfold id.
    destruct Hwf as (Hlen & Hc & _).
    erewrite bind_Ok; [| apply (scan_none t (vaddr / 4096 / 2)); [done | lia | | done]]; [done |].
    intros i e' Hi Hne. unfold get_entry, mbind, K_bind, gets, pure, id. rewrite Hi.
    by rewrite (proj2 (Z.eqb_neq _ _) Hne).
Qed.

(** A table with the pages 5 and 8 mapped. *)
Definition example_pt : pagetable :=
  mk_pt 3 2 (mk_tlb 2 3 5 1 0 1 6 1 1 0 :: mk_tlb 4 3 9 0 1 0 5 1 0 1 :: replicate 338 some_entry).

Lemma example_pt_wf : pt_wf example_pt.
Proof.
  split_and!; try done.
  - repeat (apply Forall_cons; split); [.. | apply Forall_nil_2]; (split_and!; simpl; try done; unfold is_bit; auto).
  - apply (bool_decide_unpack _). vm_compute. exact I.
Qed.

Lemma vm_set_dirty_refines_witness :
  pt_lookup example_pt 5 = Some (6, 1) ∧
  wp (vm_set_dirty 0x5abc 0) (λ _ t', pt_wf t' ∧ pt_ASID t' = 3 ∧
    ∀ w, pt_lookup t' w = if w =? 5 then Some (6, 0) else pt_lookup example_pt w) example_pt.
Proof.
  split; [reflexivity |].
  apply (vm_set_dirty_refines example_pt 0x5abc 0); [apply example_pt_wf | by left].
Defined.

(** A miss on a mapped page. *)
Lemma tlb_access_mapped is_userland t vaddr asid pfn d :
  pt_wf t → pt_lookup t (vaddr / 4096) = Some (pfn, d) →
  ∃ e, tlb_access_exception is_userland (miss_at vaddr asid) (Some t) = Ok (Resume e) ∧ e ∈ used t ∧
    translate e (pt_ASID t mod 2 ^ 8) vaddr = Some (pfn * PAGE_SIZE + vaddr mod PAGE_SIZE, d =? 1) ∧
    (∀ a, a ≠ pt_ASID t mod 2 ^ 8 → translate e a vaddr = None).
Proof.
  intros Hwf. pose proof Hwf as (Hl & Hc & Hall & _).
  unfold tlb_access_exception. rewrite tlb_scan_spec by lia. rewrite drop_0. fold (used t).
  unfold miss_at; cbn [badvpn2 badvaddr]. rewrite vpn2_shift. unfold pt_lookup.
  destruct (lookup_pair (used t) (vaddr / 4096 / 2)) as [e|] eqn:He; [| done].
  apply lookup_pair_Some in He as (k & Hk & Hv & _).
  pose proof (Forall_lookup_1 _ _ _ _ Hall Hk) as Hew. rewrite (is_valid_half _ _ _ Hew).
  destruct Hew as (_ & Ha & Hg & _). intros Hh. rewrite Hh.
  exists e. unfold translate. rewrite Hh, Hv, Ha. rewrite (Z.div_div _ 4096 2), !Z.eqb_refl by lia.
  split_and!; [done | by eapply list_elem_of_lookup_2 | done |].
  intros a Hne. rewrite (proj2 (Z.eqb_neq (pt_ASID t mod 2 ^ 8) a)) by congruence.
  by destruct Hg as [-> | ->]; rewrite ?andb_false_r.
Qed.

(** C38: the TLB miss handler loads exactly what the page table says.  For a
    mapped page it writes an entry that translates the faulting address, in
    the table's address space, to the frame the table holds, writable iff the
    page is; for the unmapped page of a pair in use it finishes the user
    process with status 255 (a kernel thread panics).  For an address whose
    pair has no entry at all the kernel panics, for user processes too. *)
Theorem tlb_access_exception_spec is_userland t vaddr asid :
  pt_wf t →
  let r := tlb_access_exception is_userland (miss_at vaddr asid) (Some t) in
  match pt_lookup t (vaddr / 4096) with
  | Some (pfn, d) => ∃ e, r = Ok (Resume e) ∧ e ∈ used t ∧
      translate e (pt_ASID t mod 2 ^ 8) vaddr = Some (pfn * PAGE_SIZE + vaddr mod PAGE_SIZE, d =? 1) ∧
      (∀ a, a ≠ pt_ASID t mod 2 ^ 8 → translate e a vaddr = None)
  | None =>
      if lookup_pair (used t) (vaddr / 4096 / 2) is Some _
      then if is_userland then r = Ok (Finish 255)
           else r = Panic "Found an invalid TLB entry while handling a TLB miss exception."
      else r = Panic "Page not found in pagetable."
  end.
Proof.
  intros Hwf r. pose proof Hwf as (Hl & Hc & Hall & _).
  destruct (pt_lookup t (vaddr / 4096)) as [[pfn d]|] eqn:Hlk; [by apply tlb_access_mapped |].
  unfold r, tlb_access_exception. rewrite tlb_scan_spec by lia. rewrite drop_0. fold (used t).
  unfold miss_at; cbn [badvpn2 badvaddr]. rewrite vpn2_shift. unfold pt_lookup in Hlk.
  destruct (lookup_pair (used t) (vaddr / 4096 / 2)) as [e|] eqn:He; [| done].
  apply lookup_pair_Some in He as (k & Hk & _). rewrite (is_valid_half _ _ _ (Forall_lookup_1 _ _ _ _ Hall Hk)), Hlk.
  by destruct is_userland.
Qed.

Lemma tlb_access_exception_spec_witness :
  (∃ e, tlb_access_exception true (miss_at 0x5abc 3) (Some example_pt) = Ok (Resume e) ∧
     e ∈ used example_pt ∧ translate e 3 0x5abc = Some (0x6abc, true) ∧
     (∀ a, a ≠ 3 → translate e a 0x5abc = None)) ∧
  tlb_access_exception true (miss_at 0 3) (Some example_pt) = Panic "Page not found in pagetable.".
Proof.
  split.
  - apply (tlb_access_exception_spec true example_pt 0x5abc 3 example_pt_wf).
  - apply (tlb_access_exception_spec true example_pt 0 3 example_pt_wf).
Defined.

(** page tables never share a page.  Creating a table either returns NULL,
    when no page is free, and changes nothing, or gives an empty table at an
    address where there was none; and destroying it again returns exactly
    its page to the allocator.  This holds over any page allocator that keeps
    the promises of [PageAlloc]. *)
Theorem vm_create_destroy {P} `{PageAlloc P} (garbage : Z → list tlb_entry) (s : @tables P) asid :
  (∀ a, length (garbage a) = Z.to_nat PAGETABLE_ENTRIES) → tables_inv s →
  wp (vm_create_pagetable garbage asid) (λ a s', tables_inv s' ∧
    if a =? 0 then free_pages (fst s) = ∅ ∧ s' = s
    else snd s !! a = None ∧
         (∃ t, snd s' !! a = Some t ∧ pt_ASID t = asid ∧ ∀ w, pt_lookup t w = None) ∧
         wp (vm_destroy_pagetable a) (λ _ s'', tables_inv s'' ∧ snd s'' = snd s ∧
           free_pages (fst s'') = {[(a - 0x80000000) / PAGE_SIZE]} ∪ free_pages (fst s')) s') s.
Proof.
  intros Hg Hs. eapply wp_mono; [by apply vm_create_wp |].
  intros a s' [Hs' Ha]. split; [done |]. case_test; [done |].
  destruct Ha as (Hn & t & Ht & Has & Hc). assert (Hlk : snd s' !! a = Some t) by (by rewrite Ht, lookup_insert_eq).
  split_and!; [done | |].
  - exists t. split_and!; [done | done |]. intros w. unfold pt_lookup, used. by rewrite Hc.
  - eapply wp_mono; [by apply (vm_destroy_wp s' a t) |]. intros _ s'' (? & Hd & ?).
    split_and!; [done | | done]. by rewrite Hd, Ht, delete_insert_id.
Qed.

Lemma vm_create_destroy_witness :
  let g := λ _ : Z, replicate 340 some_entry in
  let s : @tables pagepool := (example_pool, ∅) in
  wp (vm_create_pagetable g 3) (λ a s', tables_inv s' ∧
    if a =? 0 then free_pages (fst s) = ∅ ∧ s' = s
    else snd s !! a = None ∧
         (∃ t, snd s' !! a = Some t ∧ pt_ASID t = 3 ∧ ∀ w, pt_lookup t w = None) ∧
         wp (vm_destroy_pagetable a) (λ _ s'', tables_inv s'' ∧ snd s'' = snd s ∧
           free_pages (fst s'') = {[(a - 0x80000000) / PAGE_SIZE]} ∪ free_pages (fst s')) s') s.
Proof.
  intros g s. apply (vm_create_destroy g s 3).
  - reflexivity.
  - split; [apply example_pool_inv |]. intros a t Ha. simpl in Ha. by rewrite lookup_empty in Ha.
Defined.
