(* ===== verification/Sched.v ===== *)
(** * Threads, the scheduler and the sleep queue
    (src/buenos/kernel/thread.c, scheduler.c, sleepq.c)

    The three files share the thread table.  The ready queue and the 127
    buckets of the sleep queue are linked lists threaded through the field
    [next] of the table.  The spinlocks [thread_table_slock] and
    [sleepq_slock], taken with interrupts disabled, make each operation one
    atomic step; the processor that runs it is the argument [cpu].  The model
    keeps the links as the code does; [rep] relates them to lists, and the
    theorems show that they behave as first-in first-out queues. *)

From S2P Require Import Prelude.
Local Open Scope Z_scope.

(** ** Data *)

Definition CONFIG_MAX_THREADS : Z := 32.
Definition CONFIG_MAX_CPUS : Z := 4.
Definition CONFIG_THREAD_STACKSIZE : Z := 4096.
Definition IDLE_THREAD_TID : Z := 0.
Definition SLEEPQ_HASHTABLE_SIZE : Z := 127.
Definition SIZEOF_CONTEXT : Z := 136.
Definition INTERRUPT_MASK_ALL : Z := 0xff00.
Definition INTERRUPT_MASK_MASTER : Z := 1.

Inductive thread_state := THREAD_FREE | THREAD_RUNNING | THREAD_READY
  | THREAD_SLEEPING | THREAD_NONREADY | THREAD_DYING.

#[export] Instance thread_state_eq_dec : EqDecision thread_state.
Proof. solve_decision. Defined.

(** The part of [context_t] that the thread library sets; the other registers
    are zeroed. *)
Record context := mk_ctx {
  ctx_a0 : Z; ctx_sp : Z; ctx_ra : Z; ctx_pc : Z; ctx_status : Z; ctx_prev : Z
}.

(** [thread_table_t]; [th_ctx] is what [context] points to. *)
Record thread := mk_thread {
  th_context : Z; th_ctx : context; user_context : Z;
  state : thread_state; sleeps_on : Z; th_pagetable : Z; process_id : Z; next : Z
}.

Record sched := mk_sched {
  thread_table : list thread;
  next_tid : Z;
  ready_head : Z;
  ready_tail : Z;
  scheduler_current_thread : list Z;
  sleepq_hashtable : list Z;
}.

Definition set_state (x : thread_state) (t : thread) : thread :=
  mk_thread (th_context t) (th_ctx t) (user_context t) x (sleeps_on t) (th_pagetable t) (process_id t) (next t).
Definition set_sleeps_on (r : Z) (t : thread) : thread :=
  mk_thread (th_context t) (th_ctx t) (user_context t) (state t) r (th_pagetable t) (process_id t) (next t).
Definition set_next (n : Z) (t : thread) : thread :=
  mk_thread (th_context t) (th_ctx t) (user_context t) (state t) (sleeps_on t) (th_pagetable t) (process_id t) n.

Definition set_table (tt : list thread) (s : sched) : sched :=
  mk_sched tt (next_tid s) (ready_head s) (ready_tail s) (scheduler_current_thread s) (sleepq_hashtable s).
Definition set_next_tid (n : Z) (s : sched) : sched :=
  mk_sched (thread_table s) n (ready_head s) (ready_tail s) (scheduler_current_thread s) (sleepq_hashtable s).
Definition set_head (h : Z) (s : sched) : sched :=
  mk_sched (thread_table s) (next_tid s) h (ready_tail s) (scheduler_current_thread s) (sleepq_hashtable s).
Definition set_tail (t : Z) (s : sched) : sched :=
  mk_sched (thread_table s) (next_tid s) (ready_head s) t (scheduler_current_thread s) (sleepq_hashtable s).
Definition set_current (c : list Z) (s : sched) : sched :=
  mk_sched (thread_table s) (next_tid s) (ready_head s) (ready_tail s) c (sleepq_hashtable s).
Definition set_hashtable (h : list Z) (s : sched) : sched :=
  mk_sched (thread_table s) (next_tid s) (ready_head s) (ready_tail s) (scheduler_current_thread s) h.

(** Reads and writes of [thread_table[t]], [sleepq_hashtable[h]] and
    [scheduler_current_thread[cpu]]. *)
Definition get_thread (t : Z) : K sched thread :=
  s ← gets id; pure (aget (thread_table s) t).
Definition set_thread (t : Z) (f : thread → thread) : K sched unit :=
  th ← get_thread t; s ← gets id;
  l ← pure (aset (thread_table s) t (f th)); modify (set_table l).
Definition get_bucket (h : Z) : K sched Z :=
  s ← gets id; pure (aget (sleepq_hashtable s) h).
Definition set_bucket (h t : Z) : K sched unit :=
  s ← gets id; l ← pure (aset (sleepq_hashtable s) h t); modify (set_hashtable l).
Definition get_current (cpu : Z) : K sched Z :=
  s ← gets id; pure (aget (scheduler_current_thread s) cpu).
Definition put_current (cpu t : Z) : K sched unit :=
  s ← gets id; l ← pure (aset (scheduler_current_thread s) cpu t); modify (set_current l).

(** ** kernel/scheduler.c *)

Definition scheduler_init : K sched unit :=
  for_each (Z.to_nat CONFIG_MAX_CPUS) 0 (λ i, put_current i 0).

Definition scheduler_add_to_ready_list (t : Z) : K sched unit :=
  kassert (negb (t =? IDLE_THREAD_TID));;
  kassert ((0 <=? t) && (t <? CONFIG_MAX_THREADS));;
  tail ← gets ready_tail;
  if tail <? 0 then
    modify (set_head t);;
    modify (set_tail t);;
    set_thread t (set_next (-1))
  else
    set_thread tail (set_next t);;
    set_thread t (set_next (-1));;
    modify (set_tail t).

Definition scheduler_remove_first_ready : K sched Z :=
  t ← gets ready_head;
  kassert (negb (t =? IDLE_THREAD_TID));;
  (if 0 <=? t then
     th ← get_thread t;
     kassert (bool_decide (state th = THREAD_READY));;
     tail ← gets ready_tail;
     (if tail =? t then modify (set_tail (-1)) else mret tt);;
     h ← gets ready_head;
     th ← get_thread h;
     modify (set_head (next th))
   else mret tt);;
  mret (if t <? 0 then IDLE_THREAD_TID else t).

Definition scheduler_add_ready (t : Z) : K sched unit :=
  scheduler_add_to_ready_list t;;
  set_thread t (set_state THREAD_READY).

Definition scheduler_schedule (this_cpu : Z) : K sched unit :=
  cur ← get_current this_cpu;
  current_thread ← get_thread cur;
  (if bool_decide (state current_thread = THREAD_DYING) then
     set_thread cur (set_state THREAD_FREE)
   else if negb (sleeps_on current_thread =? 0) then
     set_thread cur (set_state THREAD_SLEEPING)
   else
     (if negb (cur =? IDLE_THREAD_TID) then scheduler_add_to_ready_list cur else mret tt);;
     set_thread cur (set_state THREAD_READY));;
  t ← scheduler_remove_first_ready;
  set_thread t (set_state THREAD_RUNNING);;
  put_current this_cpu t.

(** ** kernel/thread.c *)

Section thread.
(** Addresses the linker provides: the stack areas, the idle loop and
    [thread_finish]. *)
Context (thread_stack_areas idle_loop finish_addr : Z).

Definition context_addr (tid : Z) : Z :=
  thread_stack_areas + CONFIG_THREAD_STACKSIZE * tid + CONFIG_THREAD_STACKSIZE - SIZEOF_CONTEXT.

Definition thread_table_init : K sched unit :=
  for_each (Z.to_nat CONFIG_MAX_THREADS) 0 (λ i,
    set_thread i (λ th, mk_thread (context_addr i) (th_ctx th) 0 THREAD_FREE 0 0 (-1) (-1)));;
  set_thread IDLE_THREAD_TID (λ th,
    mk_thread (th_context th)
      (mk_ctx (ctx_a0 (th_ctx th))
              (thread_stack_areas + CONFIG_THREAD_STACKSIZE - 4 - SIZEOF_CONTEXT)
              (ctx_ra (th_ctx th)) idle_loop
              (Z.lor INTERRUPT_MASK_ALL INTERRUPT_MASK_MASTER) (th_context th))
      (user_context th) THREAD_READY (sleeps_on th) (th_pagetable th) (process_id th) (next th)).

Definition thread_create (func arg : Z) : K sched Z :=
  nt ← gets next_tid;
  found ← for_ (Z.to_nat CONFIG_MAX_THREADS) 0 (λ i,
    let t := Z.rem (i + nt) CONFIG_MAX_THREADS in
    if t =? IDLE_THREAD_TID then mret None
    else
      th ← get_thread t;
      mret (if bool_decide (state th = THREAD_FREE) then Some t else None));
  match found with
  | None => mret (-1)
  | Some tid =>
      modify (set_next_tid (Z.rem (tid + 1) CONFIG_MAX_THREADS));;
      set_thread tid (set_state THREAD_NONREADY);;
      set_thread tid (λ th,
        mk_thread (context_addr tid)
          (mk_ctx arg
             (thread_stack_areas + CONFIG_THREAD_STACKSIZE * tid + CONFIG_THREAD_STACKSIZE
                - 4 - SIZEOF_CONTEXT - 4)
             finish_addr func
             (Z.lor INTERRUPT_MASK_ALL INTERRUPT_MASK_MASTER) (context_addr tid))
          0 (state th) 0 0 (-1) (-1));;
      mret tid
  end.

End thread.

Definition thread_run (t : Z) : K sched unit := scheduler_add_ready t.

(** The software interrupt enters [interrupt_handle], which calls the scheduler. *)
Definition thread_switch (cpu : Z) : K sched unit := scheduler_schedule cpu.

Definition thread_get_current_thread (cpu : Z) : K sched Z := get_current cpu.

Definition thread_get_thread_entry_by_pid (pid : Z) (s : sched) : res (option Z) :=
  r ← for_ (Z.to_nat CONFIG_MAX_THREADS) 0 (λ i,
        th ← get_thread i;
        mret (if process_id th =? pid then Some i else None)) s;
  mret (fst r).

(** Outside an interrupt handler the software interrupt switches to another
    thread, and the code behind it runs only if this thread is still the
    current one. *)
Definition thread_finish (cpu : Z) (in_interrupt : bool) : K sched unit :=
  my_tid ← thread_get_current_thread cpu;
  th ← get_thread my_tid;
  kassert (th_pagetable th =? 0);;
  set_thread my_tid (set_state THREAD_DYING);;
  if in_interrupt then mret tt
  else
    scheduler_schedule cpu;;
    cur ← get_current cpu;
    if cur =? my_tid then panic "thread_finish(): thread was not destroyed" else mret tt.

(** ** kernel/sleepq.c *)

Definition SLEEPQ_HASH (res : Z) : Z := res mod SLEEPQ_HASHTABLE_SIZE.

Definition sleepq_init : K sched unit :=
  for_each (Z.to_nat SLEEPQ_HASHTABLE_SIZE) 0 (λ i, set_bucket i (-1)).

(** The fuel of the loops that follow [next]: a chain has no cycle, so it is
    shorter than the thread table. *)
Definition chain_fuel : nat := 33.

(** [while (thread_table[prev].next > 0) prev = thread_table[prev].next] *)
Fixpoint chain_end (fuel : nat) (prev : Z) : K sched Z :=
  match fuel with
  | O => pure NoFuel
  | S fuel' =>
      th ← get_thread prev;
      if 0 <? next th then chain_end fuel' (next th) else mret prev
  end.

Definition sleepq_add (cpu intr_state resource : Z) : K sched unit :=
  kassert ((Z.land intr_state INTERRUPT_MASK_ALL =? 0) ||
           negb (negb (Z.land intr_state INTERRUPT_MASK_MASTER =? 0)));;
  let hash := SLEEPQ_HASH resource in
  my_tid ← thread_get_current_thread cpu;
  set_thread my_tid (set_next (-1));;
  set_thread my_tid (set_sleeps_on resource);;
  kassert (negb (my_tid =? IDLE_THREAD_TID));;
  first ← get_bucket hash;
  if first <=? 0 then set_bucket hash my_tid
  else
    prev ← chain_end chain_fuel first;
    set_thread prev (set_next my_tid).

(** [while (first > 0 && thread_table[first].sleeps_on != resource)
       { prev = first; first = thread_table[first].next; }] *)
Fixpoint find_waiter (fuel : nat) (resource prev first : Z) : K sched (Z * Z) :=
  match fuel with
  | O => pure NoFuel
  | S fuel' =>
      if 0 <? first then
        th ← get_thread first;
        if negb (sleeps_on th =? resource) then find_waiter fuel' resource first (next th)
        else mret (prev, first)
      else mret (prev, first)
  end.

(** Take [first], which follows [prev], out of its chain: returns its successor. *)
Definition unlink (hash prev first : Z) : K sched Z :=
  th ← get_thread first;
  (if prev <=? 0 then set_bucket hash (next th) else set_thread prev (set_next (next th)));;
  mret (next th).

(** Clear [sleeps_on] and make the thread ready if it already sleeps. *)
Definition wake_thread (first : Z) : K sched unit :=
  set_thread first (set_sleeps_on 0);;
  set_thread first (set_next (-1));;
  th ← get_thread first;
  if bool_decide (state th = THREAD_SLEEPING) then
    set_thread first (set_state THREAD_READY);;
    scheduler_add_to_ready_list first
  else mret tt.

Definition sleepq_wake (resource : Z) : K sched unit :=
  let hash := SLEEPQ_HASH resource in
  first ← get_bucket hash;
  '(prev, first) ← find_waiter chain_fuel resource (-1) first;
  if 0 <? first then
    unlink hash prev first;;
    wake_thread first
  else mret tt.

Fixpoint wake_all_loop (fuel : nat) (resource hash prev first : Z) : K sched unit :=
  match fuel with
  | O => pure NoFuel
  | S fuel' =>
      if 0 <? first then
        '(prev, first) ← find_waiter chain_fuel resource prev first;
        first ← (if 0 <? first then
                   succ ← unlink hash prev first;
                   wake_thread first;;
                   mret succ
                 else mret first);
        wake_all_loop fuel' resource hash prev first
      else mret tt
  end.

Definition sleepq_wake_all (resource : Z) : K sched unit :=
  let hash := SLEEPQ_HASH resource in
  first ← get_bucket hash;
  wake_all_loop chain_fuel resource hash (-1) first.

(** ** The links as lists *)

Definition thread0 : thread := mk_thread 0 (mk_ctx 0 0 0 0 0 0) 0 THREAD_FREE 0 0 0 0.

Definition th (s : sched) (t : Z) : thread := nth (Z.to_nat t) (thread_table s) thread0.
Definition nxt (s : sched) (t : Z) : Z := next (th s t).
Definition bucket_head (s : sched) (h : Z) : Z := nth (Z.to_nat h) (sleepq_hashtable s) (-1).

Definition slot (t : Z) : Prop := 0 ≤ t < 32.
(** The threads other than the idle thread. *)
Definition tid (t : Z) : Prop := 0 < t < 32.
Definition hash_index (h : Z) : Prop := 0 ≤ h < 127.

(** The threads met by following [nx] from [h]. *)
Fixpoint walk (fuel : nat) (nx : Z → Z) (h : Z) : list Z :=
  match fuel with
  | O => []
  | S fuel' => if 0 <? h then h :: walk fuel' nx (nx h) else []
  end.

Definition ready_list (s : sched) : list Z := walk 32 (nxt s) (ready_head s).
Definition bucket (s : sched) (h : Z) : list Z := walk 32 (nxt s) (bucket_head s h).

(** The threads that wait for [r], the one to be woken first at the front. *)
Definition waiters (s : sched) (r : Z) : list Z :=
  filter (λ t, sleeps_on (th s t) = r) (bucket s (SLEEPQ_HASH r)).

Fixpoint chain (nx : Z → Z) (h : Z) (l : list Z) : Prop :=
  match l with
  | [] => h = -1
  | t :: l' => h = t ∧ chain nx (nx t) l'
  end.

(** The links form queues: [r] is the ready queue and [b h] the chain of
    bucket [h]; no thread is in two of them, or twice in one. *)
Record queues (s : sched) (r : list Z) (b : Z → list Z) : Prop := {
  q_len : length (thread_table s) = 32%nat;
  q_cur_len : length (scheduler_current_thread s) = 4%nat;
  q_ht_len : length (sleepq_hashtable s) = 127%nat;
  q_ready : chain (nxt s) (ready_head s) r;
  q_tail : ready_tail s = default (-1) (last r);
  q_bucket h : hash_index h → chain (nxt s) (bucket_head s h) (b h);
  q_ready_nodup : NoDup r;
  q_bucket_nodup h : hash_index h → NoDup (b h);
  q_ready_tid t : t ∈ r → tid t;
  q_bucket_tid h t : hash_index h → t ∈ b h → tid t;
  q_ready_bucket h t : hash_index h → t ∈ r → t ∈ b h → False;
  q_bucket_bucket h h' t : hash_index h → hash_index h' → t ∈ b h → t ∈ b h' → h = h';
}.

(** The state of a thread says which queue it is in; [st] and [so] are the
    fields [state] and [sleeps_on], [cur] the threads on the processors. *)
Record states (st : Z → thread_state) (so : Z → Z) (cur : list Z)
    (r : list Z) (b : Z → list Z) : Prop := {
  (** the ready queue holds the threads in state READY, *)
  st_ready t : t ∈ r ↔ tid t ∧ st t = THREAD_READY;
  (** the buckets those that wait for something, *)
  st_bucket h t : hash_index h → t ∈ b h ↔ tid t ∧ so t ≠ 0 ∧ h = SLEEPQ_HASH (so t);
  (** which are asleep or about to be, *)
  st_waiting t : tid t → so t ≠ 0 → st t = THREAD_SLEEPING ∨ st t = THREAD_RUNNING;
  st_sleeping t : tid t → st t = THREAD_SLEEPING → so t ≠ 0;
  (** and the threads on the processors are those that run. *)
  st_running t : tid t → st t = THREAD_RUNNING ∨ st t = THREAD_DYING ↔ t ∈ cur;
  st_cur_slot t : t ∈ cur → slot t;
  st_cur_once i j t : cur !! i = Some t → cur !! j = Some t → tid t → i = j;
  st_idle : so 0 = 0 ∧ (st 0 = THREAD_READY ∨ st 0 = THREAD_RUNNING);
}.

Definition st_of (s : sched) (t : Z) : thread_state := state (th s t).
Definition so_of (s : sched) (t : Z) : Z := sleeps_on (th s t).

Record rep (s : sched) (r : list Z) (b : Z → list Z) : Prop := {
  rep_queues : queues s r b;
  rep_states : states (st_of s) (so_of s) (scheduler_current_thread s) r b;
  rep_next_tid : slot (next_tid s);
}.

Definition sched_inv (s : sched) : Prop := rep s (ready_list s) (bucket s).

(** ** Lemmas on chains *)

Lemma chain_ext nx nx' h l :
  (∀ t, t ∈ l → nx' t = nx t) → chain nx h l → chain nx' h l.
Proof.
  revert h. induction l as [|t l IH]; intros h H; simpl; [done |].
  intros [-> Hc]. split; [done |]. rewrite H by left. apply IH; [| done].
  intros u ?. apply H. by right.
Qed.

Lemma chain_walk nx h l fuel :
  chain nx h l → Forall tid l → (length l < fuel)%nat → walk fuel nx h = l.
Proof.
  revert h fuel. induction l as [|t l IH]; intros h [|fuel]; simpl; try lia.
  - intros -> _ _. done.
  - intros [-> Hc] [Ht Hl]%Forall_cons Hf. unfold tid in Ht.
    rewrite (proj2 (Z.ltb_lt 0 t)) by lia. f_equal. apply IH; [done | done | lia].
Qed.

Lemma chain_head nx h l : chain nx h l → h = default (-1) (head l).
Proof. destruct l; simpl; [done | by intros [-> _]]. Qed.

(** Following the chain from [h] one passes the threads of [l1] before [t]. *)
Lemma chain_mid nx h l1 t l2 :
  chain nx h (l1 ++ t :: l2) →
  chain nx (nx t) l2 ∧ h = default t (head l1) ∧ (∀ p, last l1 = Some p → nx p = t).
Proof.
  revert h. induction l1 as [|u l1 IH]; intros h; simpl.
  - intros [-> Hc]. split_and!; done.
  - intros [-> Hc]. destruct (IH _ Hc) as (H1 & H2 & H3). split_and!; [done | done |].
    intros p. destruct l1 as [|v l1]; simpl in *; [by intros [= ->] | apply H3].
Qed.

Lemma chain_app_change nx nx' h h' l1 l2 l2' p :
  last l1 = Some p → NoDup l1 → chain nx h (l1 ++ l2) →
  (∀ t, t ∈ l1 → t ≠ p → nx' t = nx t) → nx' p = h' → chain nx' h' l2' →
  chain nx' h (l1 ++ l2').
Proof.
  revert h. induction l1 as [|u l1 IH]; intros h Hp Hnd Hc Heq Hnp Hc'; [done |].
  apply NoDup_cons in Hnd as [Hu Hnd]. destruct Hc as [-> Hc]. simpl. split; [done |].
  destruct l1 as [|v l1].
  - simpl in *. injection Hp as ->. by rewrite Hnp.
  - assert (Hin : p ∈ v :: l1) by (apply last_Some_elem_of; exact Hp).
    rewrite Heq; [| by left | intros ->; done].
    apply IH; try done. intros t ? ?. apply Heq; [by right | done].
Qed.

(** Append [t] behind the last thread. *)
Lemma chain_snoc nx nx' h l t :
  chain nx h l → NoDup l → t ∉ l →
  (∀ u, u ∈ l → Some u ≠ last l → nx' u = nx u) →
  (∀ p, last l = Some p → nx' p = t) → nx' t = -1 →
  chain nx' (default t (head l)) (l ++ [t]).
Proof.
  intros Hc Hnd Ht Heq Hp Hnt. destruct (last l) as [p|] eqn:El.
  - assert (default t (head l) = h) as -> by (destruct l; [done | by destruct Hc]).
    eapply (chain_app_change nx nx' h t l [] [t] p); try done.
    + by rewrite app_nil_r.
    + intros u ? ?. apply Heq; [done | congruence].
    + by apply Hp.
  - apply last_None in El as ->. done.
Qed.

(** Take [t] out. *)
Lemma chain_remove nx nx' h l1 t l2 :
  chain nx h (l1 ++ t :: l2) → NoDup (l1 ++ t :: l2) →
  (∀ u, u ∈ l1 ++ l2 → Some u ≠ last l1 → nx' u = nx u) →
  (∀ p, last l1 = Some p → nx' p = nx t) →
  chain nx' (if l1 is [] then nx t else h) (l1 ++ l2).
Proof.
  intros Hc Hnd Heq Hp. destruct (chain_mid _ _ _ _ _ Hc) as (Hc2 & _ & _).
  apply NoDup_app in Hnd as (Hnd1 & Hd & Hnd2). apply NoDup_cons in Hnd2 as [Ht Hnd2].
  assert (Hc2' : chain nx' (nx t) l2).
  { eapply chain_ext; [| done]. intros u Hu. apply Heq; [apply elem_of_app; by right |].
    intros Hl. symmetry in Hl. apply last_Some_elem_of in Hl. apply (Hd u Hl). by right. }
  destruct l1 as [|a l1]; [done |]. destruct (last (a :: l1)) as [p|] eqn:El; [| by apply last_None in El].
  eapply (chain_app_change nx nx' h (nx t) (a :: l1) (t :: l2) l2 p); try done.
  - intros u ? ?. apply Heq; [apply elem_of_app; by left | congruence].
  - by apply Hp.
Qed.

Lemma tid_length l : Forall tid l → NoDup l → (length l < 32)%nat.
Proof.
  intros Hl Hnd. apply Nat.lt_succ_r.
  replace 31%nat with (length (seqZ 1 31)) by done.
  apply submseteq_length, NoDup_submseteq; [done |].
  intros t Ht. apply elem_of_seqZ. rewrite Forall_forall in Hl. specialize (Hl t Ht). unfold tid in Hl. lia.
Qed.

(** ** Reads and writes of the tables *)

Definition upd (t : Z) (f : thread → thread) (s : sched) : sched :=
  set_table (<[Z.to_nat t := f (th s t)]> (thread_table s)) s.

Lemma get_thread_Ok s t :
  length (thread_table s) = 32%nat → slot t → get_thread t s = Ok (th s t, s).
Proof.
  unfold slot. intros Hl Ht. unfold get_thread. rewrite bind_gets. unfold pure, id.
  destruct (aget_total (thread_table s) t) as (x & -> & Hx); [lia |].
  unfold th. by rewrite (nth_lookup_Some _ _ thread0 _ Hx).
Qed.

Lemma set_thread_Ok s t f :
  length (thread_table s) = 32%nat → slot t → set_thread t f s = Ok (tt, upd t f s).
Proof.
  intros Hl Ht. unfold set_thread. rewrite (bind_Ok _ _ _ _ _ (get_thread_Ok s t Hl Ht)).
  rewrite bind_gets. unfold mbind, K_bind, pure, id.
  rewrite aset_Ok by (unfold slot in Ht; lia). done.
Qed.

Lemma wp_get_thread s t (Q : thread → sched → Prop) :
  length (thread_table s) = 32%nat → slot t → Q (th s t) s → wp (get_thread t) Q s.
Proof. intros ???. unfold wp. by rewrite get_thread_Ok. Qed.

Lemma wp_set_thread s t f (Q : unit → sched → Prop) :
  length (thread_table s) = 32%nat → slot t → Q tt (upd t f s) → wp (set_thread t f) Q s.
Proof. intros ???. unfold wp. by rewrite set_thread_Ok. Qed.

Lemma wp_get_bucket s h (Q : Z → sched → Prop) :
  length (sleepq_hashtable s) = 127%nat → hash_index h → Q (bucket_head s h) s →
  wp (get_bucket h) Q s.
Proof.
  unfold hash_index. intros Hl Hh HQ. unfold get_bucket, wp. rewrite bind_gets. unfold pure, id.
  destruct (aget_total (sleepq_hashtable s) h) as (x & -> & Hx); [lia |].
  unfold bucket_head in HQ. by rewrite (nth_lookup_Some _ _ _ _ Hx) in HQ.
Qed.

Lemma wp_set_bucket s h t (Q : unit → sched → Prop) :
  length (sleepq_hashtable s) = 127%nat → hash_index h →
  Q tt (set_hashtable (<[Z.to_nat h := t]> (sleepq_hashtable s)) s) → wp (set_bucket h t) Q s.
Proof.
  unfold hash_index. intros Hl Hh HQ. unfold set_bucket, wp. rewrite bind_gets.
  unfold mbind, K_bind, pure, id. by rewrite aset_Ok by lia.
Qed.

Lemma wp_get_current s cpu (Q : Z → sched → Prop) :
  length (scheduler_current_thread s) = 4%nat → 0 ≤ cpu < 4 →
  (∀ t, scheduler_current_thread s !! Z.to_nat cpu = Some t → Q t s) →
  wp (get_current cpu) Q s.
Proof.
  intros Hl Hc HQ. unfold get_current, wp. rewrite bind_gets. unfold pure, id.
  destruct (aget_total (scheduler_current_thread s) cpu) as (x & -> & Hx); [lia |]. by apply HQ.
Qed.

Lemma wp_put_current s cpu t (Q : unit → sched → Prop) :
  length (scheduler_current_thread s) = 4%nat → 0 ≤ cpu < 4 →
  Q tt (set_current (<[Z.to_nat cpu := t]> (scheduler_current_thread s)) s) →
  wp (put_current cpu t) Q s.
Proof.
  intros Hl Hc HQ. unfold put_current, wp. rewrite bind_gets.
  unfold mbind, K_bind, pure, id. by rewrite aset_Ok by lia.
Qed.

Lemma th_upd s t f u :
  length (thread_table s) = 32%nat → slot t → 0 ≤ u →
  th (upd t f s) u = if u =? t then f (th s t) else th s u.
Proof.
  unfold slot. intros Hl Ht Hu. unfold th at 1, upd. simpl.
  destruct (Z.eqb_spec u t) as [->|Hne].
  - apply nth_lookup_Some, list_lookup_insert_eq. lia.
  - unfold th. rewrite !nth_lookup, list_lookup_insert_ne by lia. done.
Qed.

Lemma upd_len t f s : length (thread_table (upd t f s)) = length (thread_table s).
Proof. unfold upd. simpl. apply length_insert. Qed.

Lemma bucket_head_set s h h' t :
  length (sleepq_hashtable s) = 127%nat → hash_index h → hash_index h' →
  bucket_head (set_hashtable (<[Z.to_nat h := t]> (sleepq_hashtable s)) s) h' =
  if h' =? h then t else bucket_head s h'.
Proof.
  unfold hash_index. intros Hl Hh Hh'. unfold bucket_head. simpl.
  destruct (Z.eqb_spec h' h) as [->|Hne].
  - apply nth_lookup_Some, list_lookup_insert_eq. lia.
  - rewrite !nth_lookup, list_lookup_insert_ne by lia. done.
Qed.

Lemma tid_slot t : tid t → slot t.
Proof. unfold tid, slot. lia. Qed.
Lemma slot_nonneg t : slot t → 0 ≤ t.
Proof. unfold slot. lia. Qed.
Lemma hash_in_range r : hash_index (SLEEPQ_HASH r).
Proof. by apply Z.mod_pos_bound. Qed.
#[export] Hint Resolve tid_slot slot_nonneg hash_in_range : buenos.

(** Everything but the links and the two queue ends is as before. *)
Record same (s s' : sched) : Prop := {
  same_th u : slot u → set_next 0 (th s' u) = set_next 0 (th s u);
  same_cur : scheduler_current_thread s' = scheduler_current_thread s;
  same_next_tid : next_tid s' = next_tid s;
}.

Lemma same_state s s' u : same s s' → slot u → state (th s' u) = state (th s u).
Proof. intros H Hu. by apply (f_equal state (same_th _ _ H u Hu)). Qed.
Lemma same_sleeps s s' u : same s s' → slot u → sleeps_on (th s' u) = sleeps_on (th s u).
Proof. intros H Hu. by apply (f_equal sleeps_on (same_th _ _ H u Hu)). Qed.

Lemma same_trans s1 s2 s3 : same s1 s2 → same s2 s3 → same s1 s3.
Proof.
  intros H1 H2. constructor.
  - intros u Hu. by rewrite (same_th _ _ H2 u Hu), (same_th _ _ H1 u Hu).
  - by rewrite (same_cur _ _ H2), (same_cur _ _ H1).
  - by rewrite (same_next_tid _ _ H2), (same_next_tid _ _ H1).
Qed.

Lemma same_upd_next s t n : length (thread_table s) = 32%nat → slot t → same s (upd t (set_next n) s).
Proof.
  intros Hl Ht. constructor; [| done | done]. intros u Hu.
  rewrite th_upd by auto with buenos. by case_test; [subst |].
Qed.

Lemma nxt_upd s t f u :
  length (thread_table s) = 32%nat → slot t → 0 ≤ u →
  nxt (upd t f s) u = if u =? t then next (f (th s t)) else nxt s u.
Proof. intros ???. unfold nxt. rewrite th_upd by done. by case_test. Qed.

Lemma nxt_set_tail s t u : nxt (set_tail t s) u = nxt s u.
Proof. done. Qed.

(** Queues depend on the links only. *)
Lemma queues_ext s s' r b :
  queues s r b →
  length (thread_table s') = 32%nat → length (scheduler_current_thread s') = 4%nat →
  sleepq_hashtable s' = sleepq_hashtable s → ready_head s' = ready_head s →
  ready_tail s' = ready_tail s →
  (∀ u, u ∈ r ∨ (∃ h, hash_index h ∧ u ∈ b h) → nxt s' u = nxt s u) →
  queues s' r b.
Proof.
  intros [] Hl Hcl Hht Hh Ht Hn. constructor; try done.
  - by rewrite Hht.
  - rewrite Hh. eapply chain_ext; [| done]. intros u ?. apply Hn. by left.
  - by rewrite Ht.
  - intros h ?. unfold bucket_head. rewrite Hht. eapply chain_ext; [| by eauto].
    intros u ?. apply Hn. right. eauto.
Qed.

(** Changes of the other fields keep the queues, *)
Lemma queues_upd s r b t f :
  queues s r b → slot t → (∀ x, next (f x) = next x) → queues (upd t f s) r b.
Proof.
  intros Hq Ht Hf. apply (queues_ext s); try done; try apply Hq.
  - rewrite upd_len. apply Hq.
  - intros u [Hu|(h & Hh & Hu)]; rewrite nxt_upd; try apply Hq; try done;
      try (by case_test; [subst; rewrite Hf |]).
    + by apply slot_nonneg, tid_slot, (q_ready_tid _ _ _ Hq).
    + by eapply slot_nonneg, tid_slot, (q_bucket_tid _ _ _ Hq).
Qed.

(** and so does the link of a thread that is in none. *)
Lemma queues_upd_out s r b t f :
  queues s r b → slot t → t ∉ r → (∀ h, hash_index h → t ∉ b h) → queues (upd t f s) r b.
Proof.
  intros Hq Ht Hr Hb. apply (queues_ext s); try done; try apply Hq.
  - rewrite upd_len. apply Hq.
  - intros u Hu. rewrite nxt_upd; try apply Hq; try done.
    + case_test; [| done]. subst. destruct Hu as [?|(h & ? & ?)]; [done | by destruct (Hb h)].
    + destruct Hu as [Hu|(h & Hh & Hu)];
        [by apply slot_nonneg, tid_slot, (q_ready_tid _ _ _ Hq) |
         by eapply slot_nonneg, tid_slot, (q_bucket_tid _ _ _ Hq)].
Qed.

Lemma tail_empty s r b : queues s r b → (ready_tail s <? 0) = true → r = [].
Proof.
  intros Hq Ht. rewrite (q_tail _ _ _ Hq) in Ht. destruct (last r) as [p|] eqn:El.
  - simpl in Ht. bool_prop. apply last_Some_elem_of in El.
    pose proof (q_ready_tid _ _ _ Hq p El) as Hp. unfold tid in Hp. lia.
  - by apply last_None.
Qed.

Lemma queues_snoc s s' r b t :
  queues s r b → tid t → t ∉ r → (∀ h, hash_index h → t ∉ b h) →
  length (thread_table s') = 32%nat → scheduler_current_thread s' = scheduler_current_thread s →
  sleepq_hashtable s' = sleepq_hashtable s →
  ready_head s' = default t (head r) → ready_tail s' = t →
  (∀ u, tid u → nxt s' u = if u =? t then -1 else if bool_decide (last r = Some u) then t else nxt s u) →
  queues s' (r ++ [t]) b.
Proof.
  intros [] Ht Hr Hb Hl Hcl Hht Hh Htl Hn. constructor; try done; try congruence.
  - rewrite Hh. eapply chain_snoc; try done.
    + intros u Hu Hlast. rewrite Hn by auto. rewrite (proj2 (Z.eqb_neq _ _)) by congruence.
      by rewrite bool_decide_eq_false_2 by congruence.
    + intros p Hp. assert (p ∈ r) by (by apply last_Some_elem_of).
      rewrite Hn by auto. rewrite (proj2 (Z.eqb_neq _ _)) by congruence. by rewrite bool_decide_eq_true_2.
    + by rewrite Hn, Z.eqb_refl.
  - by rewrite last_snoc.
  - intros h Hx. unfold bucket_head. rewrite Hht. eapply chain_ext; [| by apply q_bucket0].
    intros u Hu. rewrite Hn by eauto. rewrite (proj2 (Z.eqb_neq _ _)) by (intros ->; by eapply Hb).
    rewrite bool_decide_eq_false_2; [done |]. intros Hlast%last_Some_elem_of. eauto.
  - apply NoDup_app. split_and!; [done | | apply NoDup_singleton].
    intros u Hu ->%list_elem_of_singleton. done.
  - intros u [Hu| ->%list_elem_of_singleton]%elem_of_app; auto.
  - intros h u Hx [Hu| ->%list_elem_of_singleton]%elem_of_app ?; [eauto | by eapply Hb].
Qed.

Lemma add_to_ready_wp s r b t :
  queues s r b → tid t → t ∉ r → (∀ h, hash_index h → t ∉ b h) →
  wp (scheduler_add_to_ready_list t) (λ _ s', queues s' (r ++ [t]) b ∧ same s s') s.
Proof.
  intros Hq Ht Hr Hb. pose proof (q_len _ _ _ Hq) as Hl. unfold scheduler_add_to_ready_list.
  unfold tid in Ht. wp_step. wp_step; [apply negb_true_iff, Z.eqb_neq; unfold IDLE_THREAD_TID; lia |].
  wp_step. wp_step; [apply andb_true_iff; split; [apply Z.leb_le | apply Z.ltb_lt]; unfold CONFIG_MAX_THREADS; lia |].
  do 2 wp_step. destruct (ready_tail s <? 0) eqn:Etl.
  - pose proof (tail_empty _ _ _ Hq Etl) as ->. do 4 wp_step.
    apply wp_set_thread; [done | unfold slot; lia |]. split.
    + apply (queues_snoc s); try done; [rewrite upd_len; done |].
      intros u Hu. by rewrite nxt_upd by (done || unfold slot, tid in *; lia).
    + eapply same_trans; [| apply same_upd_next; [done | unfold slot; lia]]. done.
  - rewrite (q_tail _ _ _ Hq) in *. destruct (last r) as [p|] eqn:El; [| done]. simpl.
    assert (Hp : tid p) by (by apply (q_ready_tid _ _ _ Hq), last_Some_elem_of).
    assert (p ≠ t) by (intros ->; by apply Hr, last_Some_elem_of).
    wp_step. apply wp_set_thread; [done | auto with buenos |]. wp_step.
    apply wp_set_thread; [by rewrite upd_len | unfold slot; lia |]. wp_step. split.
    + apply (queues_snoc s); try done.
      * simpl. by rewrite !length_insert.
      * simpl. rewrite (chain_head _ _ _ (q_ready _ _ _ Hq)). by destruct r.
      * intros u Hu. rewrite nxt_set_tail, !nxt_upd by (rewrite ?upd_len; unfold slot, tid in *; done || lia).
        case_test; [done |]. rewrite El. destruct (Z.eqb_spec u p) as [->|].
        -- by rewrite bool_decide_eq_true_2.
        -- by rewrite bool_decide_eq_false_2 by congruence.
    + eapply same_trans; [apply (same_upd_next s p t); [done | auto with buenos] |].
      eapply same_trans; [apply (same_upd_next _ t (-1)); [by rewrite upd_len | unfold slot; lia] |].
      done.
Qed.

Lemma remove_first_wp s r b :
  queues s r b → (∀ t, head r = Some t → state (th s t) = THREAD_READY) →
  wp scheduler_remove_first_ready
    (λ t s', t = default 0 (head r) ∧ queues s' (tail r) b ∧ same s s') s.
Proof.
  intros Hq Hst. pose proof (q_len _ _ _ Hq) as Hl. pose proof (q_ready _ _ _ Hq) as Hc.
  unfold scheduler_remove_first_ready. do 2 wp_step. destruct r as [|t r].
  - simpl in Hc. rewrite Hc. wp_step. wp_step; [done |].
    change (0 <=? -1) with false. do 3 wp_step. done.
  - destruct Hc as [Hhd Hc]. rewrite Hhd. pose proof (q_ready_tid _ _ _ Hq t ltac:(left)) as Ht. unfold tid in Ht.
    wp_step. wp_step; [apply negb_true_iff, Z.eqb_neq; unfold IDLE_THREAD_TID; lia |].
    rewrite (proj2 (Z.leb_le 0 t)) by lia. do 2 wp_step.
    apply wp_get_thread; [done | unfold slot; lia |]. wp_step.
    wp_step; [by apply bool_decide_eq_true_2, Hst |]. do 2 wp_step.
    set (s1 := if ready_tail s =? t then set_tail (-1) s else s).
    wp_step. apply (wp_mono _ (λ _ s', s' = s1)).
    { unfold s1. by case_test; wp_step. }
    intros _ ? ->. assert (Hh1 : ready_head s1 = t) by (unfold s1; by case_test).
    assert (Hs1 : same s s1) by (unfold s1; by case_test).
    assert (Hth : ∀ u, th s1 u = th s u) by (unfold s1; by case_test).
    do 2 wp_step. rewrite Hh1. wp_step. apply wp_get_thread; [unfold s1; by case_test | unfold slot; lia |].
    do 2 wp_step. rewrite (proj2 (Z.ltb_ge t 0)) by lia. split; [done |].
    rewrite Hth. split; [| by eapply same_trans].
    pose proof (q_ready_nodup _ _ _ Hq) as [Hnt Hnd]%NoDup_cons.
    assert (Hnx : ∀ h, nxt (set_head h s1) = nxt s) by (intros h; unfold s1; by case_test).
    assert (Hcr : scheduler_current_thread s1 = scheduler_current_thread s) by apply Hs1.
    assert (Hht : sleepq_hashtable s1 = sleepq_hashtable s) by (unfold s1; by case_test).
    pose proof (q_tail _ _ _ Hq) as Htl. destruct Hq. constructor; simpl; rewrite ?Hnx, ?Hcr, ?Hht; try done.
    + unfold s1. by case_test.
    + unfold s1. rewrite Htl in *. destruct (last (t :: r)) as [p|] eqn:El; [simpl in *|by apply last_None in El].
      destruct (Z.eqb_spec p t) as [->|Hne]; simpl.
      * destruct r as [|u r]; [done |]. exfalso. apply Hnt, last_Some_elem_of. exact El.
      * rewrite Htl. destruct r as [|u r]; [by injection El as -> |]. change (last (t :: u :: r)) with (last (u :: r)) in El.
        by rewrite El.
    + intros h Hx. unfold bucket_head; simpl. rewrite Hht. by apply q_bucket0.
    + intros u ?. apply q_ready_tid0. by right.
    + intros h u ? ? ?. eapply q_ready_bucket0; [done | by right | done].
Qed.

(** ** The sleep queue's loops *)

Lemma chain_end_wp s r b h l1 p :
  queues s r b → hash_index h → b h = l1 ++ [p] →
  ∀ l2 l0, l1 ++ [p] = l0 ++ l2 → l2 ≠ [] →
  ∀ fuel, (length l2 < fuel)%nat →
  wp (chain_end fuel (default 0 (head l2))) (λ t s', t = p ∧ s' = s) s.
Proof.
  intros Hq Hh Hb l2. pose proof (q_len _ _ _ Hq) as Hl.
  induction l2 as [|u l2 IH]; intros l0 Hsplit Hne [|fuel] Hf; simpl in *; try lia; [done |].
  assert (Hin : u ∈ b h) by (rewrite Hb, Hsplit; set_solver).
  pose proof (q_bucket_tid _ _ _ Hq h u Hh Hin) as Hu.
  wp_step. apply wp_get_thread; [done | by apply tid_slot |]. fold (nxt s u).
  pose proof (q_bucket _ _ _ Hq h Hh) as Hc. rewrite Hb, Hsplit in Hc.
  apply chain_mid in Hc as (Hc & _ & _). rewrite (chain_head _ _ _ Hc).
  destruct l2 as [|v l2]; simpl.
  - wp_step. split; [| done]. apply (f_equal last) in Hsplit. rewrite !last_snoc in Hsplit. by injection Hsplit.
  - assert (Hv : tid v).
    { apply (q_bucket_tid _ _ _ Hq h v Hh). rewrite Hb, Hsplit. set_solver. }
    unfold tid in Hv. rewrite (proj2 (Z.ltb_lt 0 v)) by lia.
    apply (IH (l0 ++ [u])); [by rewrite <- app_assoc | done | lia].
Qed.

(** The first thread of [l] that waits for [x], and those before it. *)
Fixpoint split_waiter (s : sched) (x : Z) (l : list Z) : list Z * list Z :=
  match l with
  | [] => ([], [])
  | t :: l' =>
      if sleeps_on (th s t) =? x then ([], l)
      else let '(l1, l2) := split_waiter s x l' in (t :: l1, l2)
  end.

Lemma split_waiter_app s x l l1 l2 : split_waiter s x l = (l1, l2) → l = l1 ++ l2.
Proof.
  revert l1 l2. induction l as [|t l IH]; simpl; intros l1 l2; [by intros [= <- <-] |].
  case_test; [by intros [= <- <-] |]. destruct (split_waiter s x l) as [a c].
  intros [= <- <-]. simpl. f_equal. by apply IH.
Qed.

Lemma split_waiter_filter s x l l1 l2 :
  split_waiter s x l = (l1, l2) →
  filter (λ t, so_of s t = x) l1 = [] ∧ (∀ t, head l2 = Some t → so_of s t = x).
Proof.
  revert l1 l2. induction l as [|t l IH]; simpl; intros l1 l2; [by intros [= <- <-] |].
  case_test; [intros [= <- <-]; split; [done | by intros ? [= <-]] |].
  destruct (split_waiter s x l) as [a c]. intros [= <- <-]. destruct (IH a c eq_refl) as [H1 H2].
  split; [| done]. by rewrite filter_cons_False.
Qed.

Lemma find_waiter_wp s r b h x :
  queues s r b → hash_index h →
  ∀ l l0 prev, b h = l0 ++ l → prev = default (-1) (last l0) →
  ∀ fuel, (length l < fuel)%nat →
  wp (find_waiter fuel x prev (default (-1) (head l)))
    (λ '(p, t) s', s' = s ∧ ∃ l1 l2, split_waiter s x l = (l1, l2) ∧
       p = default (-1) (last (l0 ++ l1)) ∧ t = default (-1) (head l2)) s.
Proof.
  intros Hq Hh l. pose proof (q_len _ _ _ Hq) as Hl.
  induction l as [|u l IH]; intros l0 prev Hb -> [|fuel] Hf; cbn [length] in *; try lia.
  { simpl. wp_step. split; [done |]. exists [], []. by rewrite app_nil_r. }
  assert (Hin : u ∈ b h) by (rewrite Hb; set_solver).
  pose proof (q_bucket_tid _ _ _ Hq h u Hh Hin) as Hu. unfold tid in Hu.
  change (default (-1) (head (u :: l))) with u. cbn [find_waiter]. rewrite (proj2 (Z.ltb_lt 0 u)) by lia. wp_step.
  apply wp_get_thread; [done | unfold slot; lia |]. cbn [split_waiter].
  destruct (sleeps_on (th s u) =? x); cbn [negb].
  - wp_step. split; [done |]. exists [], (u :: l). by rewrite app_nil_r.
  - fold (nxt s u). pose proof (q_bucket _ _ _ Hq h Hh) as Hc. rewrite Hb in Hc.
    apply chain_mid in Hc as (Hc & _ & _). rewrite (chain_head _ _ _ Hc).
    eapply wp_mono; [apply (IH (l0 ++ [u])) |].
    + by rewrite <- app_assoc.
    + by rewrite last_snoc.
    + lia.
    + intros [p t] s' (-> & l1 & l2 & Hs & -> & ->). split; [done |]. rewrite Hs.
      exists (u :: l1), l2. by rewrite <- app_assoc.
Qed.

(** ** Changes of one bucket *)

Definition setb (b : Z → list Z) (h : Z) (l : list Z) : Z → list Z :=
  λ h', if h' =? h then l else b h'.

Lemma queues_bucket s s' r b h l :
  queues s r b → hash_index h →
  length (thread_table s') = 32%nat → length (sleepq_hashtable s') = 127%nat →
  scheduler_current_thread s' = scheduler_current_thread s →
  ready_head s' = ready_head s → ready_tail s' = ready_tail s →
  (∀ h', hash_index h' → h' ≠ h → bucket_head s' h' = bucket_head s h') →
  chain (nxt s') (bucket_head s' h) l → NoDup l →
  (∀ t, t ∈ l → tid t ∧ (t ∉ r) ∧ (∀ h', hash_index h' → h' ≠ h → t ∉ b h')) →
  (∀ u, u ∈ r ∨ (∃ h', hash_index h' ∧ h' ≠ h ∧ u ∈ b h') → nxt s' u = nxt s u) →
  queues s' r (setb b h l).
Proof.
  intros [] Hh Hl Hht Hcr Hhd Htl Hoth Hc Hnd Hmem Hn. constructor; try done; try congruence.
  - rewrite Hhd. eapply chain_ext; [| done]. auto.
  - intros h' ?. unfold setb. case_test; [by subst |]. rewrite Hoth by done.
    eapply chain_ext; [| by auto]. eauto 6.
  - intros h' ?. unfold setb. case_test; [done | auto].
  - intros h' t ?. unfold setb. case_test; [by intros [? _]%Hmem | eauto].
  - intros h' t ? Hr. unfold setb. case_test; [intros ?%Hmem; naive_solver | eauto].
  - intros h1 h2 t H1 H2. unfold setb.
    destruct (Z.eqb_spec h1 h) as [->|], (Z.eqb_spec h2 h) as [->|]; try done; [| | eauto].
    + intros (_ & _ & Hx)%Hmem Hy. by destruct (Hx h2 H2).
    + intros Hy (_ & _ & Hx)%Hmem. by destruct (Hx h1 H1).
Qed.

Lemma unlink_wp s r b h l1 t l2 :
  queues s r b → hash_index h → b h = l1 ++ t :: l2 →
  wp (unlink h (default (-1) (last l1)) t)
    (λ n s', n = default (-1) (head l2) ∧ queues s' r (setb b h (l1 ++ l2)) ∧ same s s') s.
Proof.
  intros Hq Hh Hb. pose proof (q_len _ _ _ Hq) as Hl. pose proof (q_ht_len _ _ _ Hq) as Hht.
  assert (Hmem : ∀ u, u ∈ b h → tid u ∧ (u ∉ r) ∧ (∀ h', hash_index h' → h' ≠ h → u ∉ b h')).
  { intros u Hu. split_and!; [by eapply q_bucket_tid | intros ?; by eapply q_ready_bucket |].
    intros h' ? ? ?. by destruct (q_bucket_bucket _ _ _ Hq h h' u). }
  pose proof (q_bucket _ _ _ Hq h Hh) as Hc. pose proof (q_bucket_nodup _ _ _ Hq h Hh) as Hnd.
  rewrite Hb in Hc, Hnd. destruct (chain_mid _ _ _ _ _ Hc) as (Hc2 & _ & _).
  destruct (Hmem t) as (Ht & _); [rewrite Hb; set_solver |].
  assert (Hnd' : NoDup (l1 ++ l2)).
  { eapply sublist_NoDup; [exact Hnd |]. apply sublist_app; [done |]. by constructor. }
  assert (Hmem' : ∀ u, u ∈ l1 ++ l2 → tid u ∧ (u ∉ r) ∧ (∀ h', hash_index h' → h' ≠ h → u ∉ b h')).
  { intros u Hu. apply Hmem. rewrite Hb. set_solver. }
  unfold unlink. wp_step. apply wp_get_thread; [done | by apply tid_slot |]. fold (nxt s t).
  wp_step. destruct (last l1) as [p|] eqn:El; cbn [default from_option id].
  - assert (Hin : p ∈ l1) by (by apply last_Some_elem_of).
    destruct (Hmem p) as (Hp & Hpr & Hpb); [rewrite Hb; set_solver |]. unfold tid in Hp.
    rewrite (proj2 (Z.leb_gt p 0)) by lia. apply wp_set_thread; [done | unfold slot; lia |]. wp_step.
    split; [by apply (chain_head (nxt s)) | split; [| apply same_upd_next; [done | unfold slot; lia]]].
    assert (Hnx : ∀ u, 0 ≤ u → nxt (upd p (set_next (nxt s t)) s) u = if u =? p then nxt s t else nxt s u)
      by (intros u ?; by rewrite nxt_upd by (done || unfold slot; lia)).
    apply (queues_bucket s); try done; [by rewrite upd_len | |].
    + destruct l1 as [|a l1]; [done |].
      apply (chain_remove (nxt s) _ (bucket_head s h) (a :: l1) t l2); try done.
      * intros u Hu Hne. destruct (Hmem' u Hu) as (Hut & _). unfold tid in Hut.
        rewrite Hnx by lia. by rewrite (proj2 (Z.eqb_neq _ _)) by congruence.
      * intros p' Hp'. rewrite El in Hp'. injection Hp' as <-. rewrite Hnx by lia. by rewrite Z.eqb_refl.
    + intros u Hu. assert (0 ≤ u ∧ u ≠ p) as [? ?].
      { destruct Hu as [Hu|(h' & ? & ? & Hu)].
        - pose proof (q_ready_tid _ _ _ Hq u Hu) as Hx. unfold tid in Hx. split; [lia | congruence].
        - pose proof (q_bucket_tid _ _ _ Hq h' u ltac:(done) Hu) as Hx. unfold tid in Hx.
          split; [lia |]. intros ->. by eapply Hpb. }
      rewrite Hnx by done. by rewrite (proj2 (Z.eqb_neq _ _)).
  - apply last_None in El as ->. apply wp_set_bucket; [done | done |]. wp_step.
    split; [by apply (chain_head (nxt s)) | split; [| done]].
    apply (queues_bucket s); try done.
    + simpl. by rewrite length_insert.
    + intros h' ? ?. rewrite bucket_head_set by done. by rewrite (proj2 (Z.eqb_neq _ _)).
    + rewrite bucket_head_set, Z.eqb_refl by done. exact Hc2.
Qed.

(** Append a thread whose link is already cleared. *)
Definition bucket_append (h t : Z) : K sched unit :=
  first ← get_bucket h;
  if first <=? 0 then set_bucket h t
  else prev ← chain_end chain_fuel first; set_thread prev (set_next t).

Lemma bucket_append_wp s r b h t :
  queues s r b → hash_index h → tid t → t ∉ r → (∀ h', hash_index h' → t ∉ b h') → nxt s t = -1 →
  wp (bucket_append h t) (λ _ s', queues s' r (setb b h (b h ++ [t])) ∧ same s s') s.
Proof.
  intros Hq Hh Ht Htr Htb Hnt. pose proof (q_len _ _ _ Hq) as Hl. pose proof (q_ht_len _ _ _ Hq) as Hht.
  assert (Hmem : ∀ u, u ∈ b h ++ [t] → tid u ∧ (u ∉ r) ∧ (∀ h', hash_index h' → h' ≠ h → u ∉ b h')).
  { intros u [Hu| ->%list_elem_of_singleton]%elem_of_app; [| by auto].
    split_and!; [by eapply q_bucket_tid | intros ?; by eapply q_ready_bucket |].
    intros h' ? ? ?. by destruct (q_bucket_bucket _ _ _ Hq h h' u). }
  pose proof (q_bucket _ _ _ Hq h Hh) as Hc. pose proof (q_bucket_nodup _ _ _ Hq h Hh) as Hnd.
  assert (Hnd' : NoDup (b h ++ [t])).
  { apply NoDup_app. split_and!; [done | | apply NoDup_singleton].
    intros u Hu ->%list_elem_of_singleton. by eapply Htb. }
  unfold bucket_append. wp_step. apply wp_get_bucket; [done | done |].
  destruct (last (b h)) as [p|] eqn:El.
  - apply last_Some in El as [l Eb]. assert (Hpb : p ∈ b h) by (rewrite Eb; set_solver).
    destruct (Hmem p) as (Hp & Hpr & Hpo); [set_solver |].
    assert (p ≠ t) by (intros ->; by eapply Htb).
    destruct (b h) as [|a l'] eqn:Ebh; [by destruct l |]. destruct Hc as [Hc0 Hc].
    destruct (Hmem a) as (Ha & _); [set_solver |]. unfold tid in Ha.
    rewrite Hc0, (proj2 (Z.leb_gt a 0)) by lia. wp_step.
    eapply wp_mono; [apply (chain_end_wp s r b h l p Hq Hh ltac:(congruence) (a :: l') []) |].
    { by rewrite <- Eb. }
    { done. }
    { unfold chain_fuel. apply Nat.lt_trans with 32%nat; [| lia]. apply tid_length; [| done].
      apply Forall_forall. intros u Hu. apply Hmem. set_solver. }
    intros q s' [-> ->]. apply wp_set_thread; [done | by apply tid_slot |].
    split; [| apply same_upd_next; [done | by apply tid_slot]].
    assert (Hnx : ∀ u, 0 ≤ u → nxt (upd p (set_next t) s) u = if u =? p then t else nxt s u)
      by (intros u ?; by rewrite nxt_upd by (done || by apply tid_slot)).
    apply (queues_bucket s); try done; [by rewrite upd_len | |].
    + change (bucket_head (upd p (set_next t) s) h) with (bucket_head s h). rewrite Hc0.
      apply (chain_snoc (nxt s) _ (bucket_head s h) (a :: l') t); [split; done | done | | | |].
      * intros Hx. eapply (Htb h Hh). by rewrite Ebh.
      * intros u Hu Hlast. destruct (Hmem u) as (Hut & _); [set_solver |]. unfold tid in Hut.
        rewrite Hnx by lia. rewrite (proj2 (Z.eqb_neq _ _)); [done |]. intros ->.
        rewrite Eb, last_snoc in Hlast. done.
      * rewrite Eb, last_snoc. intros ? [= <-]. unfold tid in Hp. rewrite Hnx by lia. by rewrite Z.eqb_refl.
      * unfold tid in Ht. rewrite Hnx by lia. by rewrite (proj2 (Z.eqb_neq _ _)) by congruence.
    + intros u Hu. assert (0 ≤ u ∧ u ≠ p) as [? ?].
      { destruct Hu as [Hu|(h' & ? & ? & Hu)].
        - pose proof (q_ready_tid _ _ _ Hq u Hu) as Hx. unfold tid in Hx. split; [lia | congruence].
        - pose proof (q_bucket_tid _ _ _ Hq h' u ltac:(done) Hu) as Hx. unfold tid in Hx.
          split; [lia |]. intros ->. by eapply Hpo. }
      rewrite Hnx by done. by rewrite (proj2 (Z.eqb_neq _ _)).
  - apply last_None in El. rewrite El in *. simpl in Hc. rewrite Hc. simpl.
    apply wp_set_bucket; [done | done |]. split; [| done].
    apply (queues_bucket s); try done.
    + simpl. by rewrite length_insert.
    + intros h' ? ?. rewrite bucket_head_set by done. by rewrite (proj2 (Z.eqb_neq _ _)).
    + rewrite bucket_head_set, Z.eqb_refl by done. split; [done |]. exact Hnt.
Qed.

(** ** The states of the threads under each operation *)

Definition fu {A} (f : Z → A) (t : Z) (x : A) : Z → A := λ u, if u =? t then x else f u.

Lemma fu_eq {A} (f : Z → A) t x : fu f t x t = x.
Proof. unfold fu. by rewrite Z.eqb_refl. Qed.
Lemma fu_ne {A} (f : Z → A) t x u : u ≠ t → fu f t x u = f u.
Proof. intros ?. unfold fu. by rewrite (proj2 (Z.eqb_neq _ _)). Qed.

Section states.
Context (st : Z → thread_state) (so : Z → Z) (cur r : list Z) (b : Z → list Z).
Context (H : states st so cur r b).

Lemma states_ext st' so' :
  (∀ u, slot u → st' u = st u) → (∀ u, slot u → so' u = so u) → states st' so' cur r b.
Proof using H.
  intros Hst Hso. destruct H. constructor; try done.
  - intros t. rewrite st_ready0. split; intros [? ?]; rewrite ?Hst in * by auto with buenos; auto with buenos.
  - intros h t Hh. rewrite st_bucket0 by done.
    split; intros (? & ? & ?); rewrite ?Hso in * by auto with buenos; auto.
  - intros t ?. rewrite Hst, Hso by auto with buenos. auto.
  - intros t ?. rewrite Hst, Hso by auto with buenos. auto.
  - intros t ?. rewrite Hst by auto with buenos. auto.
  - rewrite Hst, Hso by (unfold slot; lia). done.
Qed.

(** Case analysis on whether the thread is the one that changed. *)
Ltac by_thread t u :=
  destruct (decide (t = u)) as [->|?]; rewrite ?fu_eq, ?(fu_ne _ u _ t) by done.

(** The state of a thread outside the queues changes. *)
Lemma states_set t x y :
  tid t → st t ≠ THREAD_READY → so t = 0 → y = THREAD_FREE ∨ y = THREAD_NONREADY ∨ y = THREAD_DYING →
  (y = THREAD_DYING ↔ t ∈ cur) → x = 0 → states (fu st t y) (fu so t x) cur r b.
Proof using H.
  intros Ht Hr Hs Hy Hc ->. destruct H. constructor; try done.
  - intros u. by_thread u t; [| done]. rewrite st_ready0. naive_solver.
  - intros h u Hh. by_thread u t; [| auto]. rewrite st_bucket0 by done. naive_solver.
  - intros u Hu. by_thread u t; [done | auto].
  - intros u Hu. by_thread u t; [naive_solver | auto].
  - intros u Hu. by_thread u t; [| auto]. rewrite <- Hc. naive_solver.
  - unfold tid in Ht. rewrite !fu_ne by lia. done.
Qed.

Lemma states_run t :
  tid t → st t = THREAD_NONREADY → states (fu st t THREAD_READY) so cur (r ++ [t]) b.
Proof using H.
  intros Ht Hn. destruct H. constructor; try done.
  - intros u. rewrite elem_of_app, list_elem_of_singleton, st_ready0. by_thread u t; naive_solver.
  - intros u Hu. by_thread u t; [| auto]. intros Hx. destruct (st_waiting0 t Ht Hx); congruence.
  - intros u Hu. by_thread u t; [done | auto].
  - intros u Hu. by_thread u t; [| auto]. rewrite <- st_running0 by done. split; intros [?|?]; congruence.
  - unfold tid in Ht. rewrite !fu_ne by lia. done.
Qed.

Lemma states_add t x :
  tid t → so t = 0 → st t = THREAD_RUNNING → x ≠ 0 →
  states st (fu so t x) cur r (setb b (SLEEPQ_HASH x) (b (SLEEPQ_HASH x) ++ [t])).
Proof using H.
  intros Ht Hs Hr Hx. destruct H. constructor; try done.
  - intros h u Hh. unfold setb. pose proof (hash_in_range x).
    destruct (Z.eqb_spec h (SLEEPQ_HASH x)) as [->|Hne].
    + rewrite elem_of_app, list_elem_of_singleton, st_bucket0 by done. by_thread u t; naive_solver.
    + rewrite st_bucket0 by done. by_thread u t; naive_solver.
  - intros u Hu. by_thread u t; [auto | auto].
  - intros u Hu. by_thread u t; [done | auto].
  - unfold tid in Ht. rewrite !fu_ne by lia. done.
Qed.

Lemma states_wake t l1 l2 :
  b (SLEEPQ_HASH (so t)) = l1 ++ t :: l2 → NoDup (l1 ++ t :: l2) →
  states (if bool_decide (st t = THREAD_SLEEPING) then fu st t THREAD_READY else st) (fu so t 0) cur
    (if bool_decide (st t = THREAD_SLEEPING) then r ++ [t] else r)
    (setb b (SLEEPQ_HASH (so t)) (l1 ++ l2)).
Proof using H.
  intros Hb Hnd. pose proof (hash_in_range (so t)) as Hh. destruct H.
  destruct (proj1 (st_bucket0 _ t Hh)) as (Ht & Hso & _); [rewrite Hb; set_solver |].
  assert (Hmem : ∀ u, u ∈ l1 ++ l2 ↔ u ∈ b (SLEEPQ_HASH (so t)) ∧ u ≠ t).
  { intros u. rewrite Hb. apply NoDup_app in Hnd as (_ & Hd & [Hn _]%NoDup_cons).
    specialize (Hd t). set_solver. }
  constructor; try done.
  - intros u. case_bool_decide; [| done].
    rewrite elem_of_app, list_elem_of_singleton, st_ready0. by_thread u t; [by split; auto | tauto].
  - intros h u Hx. unfold setb. destruct (Z.eqb_spec h (SLEEPQ_HASH (so t))) as [->|Hne].
    + rewrite Hmem, st_bucket0 by done. by_thread u t; [| tauto]. split; intros ?; tauto.
    + rewrite st_bucket0 by done. by_thread u t; [| done]. split; intros ?; tauto.
  - intros u Hu. by_thread u t; [done |]. case_bool_decide; rewrite ?fu_ne by done; auto.
  - intros u Hu. case_bool_decide; by_thread u t; auto; done.
  - intros u Hu. case_bool_decide; [| auto]. by_thread u t; [| auto].
    rewrite <- st_running0 by done. split; intros [?|?]; congruence.
  - unfold tid in Ht. case_bool_decide; rewrite !fu_ne by lia; done.
Qed.

(** The current thread [c] of a processor leaves it, *)
Definition leave (c : Z) : Z → thread_state :=
  fu st c (if bool_decide (st c = THREAD_DYING) then THREAD_FREE
           else if so c =? 0 then THREAD_READY else THREAD_SLEEPING).

Definition leave_ready (c : Z) : list Z :=
  if bool_decide (st c = THREAD_DYING) || negb (so c =? 0) || (c =? 0) then r else r ++ [c].

Lemma leave_iff c u :
  c ∈ cur → u ∈ leave_ready c ↔ tid u ∧ leave c u = THREAD_READY.
Proof using H.
  intros Hc. destruct H. pose proof (st_cur_slot0 c Hc) as Hs. unfold leave_ready, leave.
  destruct (decide (u = c)) as [->|Hne].
  - rewrite fu_eq. assert (Hcr : c ∉ r).
    { rewrite st_ready0. intros [Ht Hx]. destruct (proj2 (st_running0 c Ht) Hc); congruence. }
    case_bool_decide; simpl; [naive_solver |].
    destruct (Z.eqb_spec (so c) 0); simpl; [| naive_solver].
    destruct (Z.eqb_spec c 0) as [->|]; [split; [done | by intros [[? ?] _]] |].
    split; [intros _; split; [| done]; unfold tid, slot in *; lia | intros _; set_solver].
  - rewrite fu_ne by done. destruct (_ || _); [apply st_ready0 |].
    rewrite elem_of_app, list_elem_of_singleton, st_ready0. tauto.
Qed.

Lemma leave_nodup c : c ∈ cur → NoDup r → NoDup (leave_ready c).
Proof using H.
  intros Hc Hnd. unfold leave_ready. destruct (_ || _) eqn:E; [done |].
  apply NoDup_app. split_and!; [done | | apply NoDup_singleton].
  intros u Hu ->%list_elem_of_singleton. destruct H.
  apply st_ready0 in Hu as [Ht Hx]. destruct (proj2 (st_running0 c Ht) Hc); congruence.
Qed.

Lemma leave_ne c u : u ≠ c → leave c u = st u.
Proof using Type. intros ?. by apply fu_ne. Qed.

Lemma leave_not_running c : leave c c ≠ THREAD_RUNNING ∧ leave c c ≠ THREAD_DYING.
Proof using Type. unfold leave. rewrite fu_eq. case_bool_decide; [done |]. by destruct (_ =? _). Qed.

(** and the next thread takes its place. *)
Lemma states_schedule cpu c t :
  cur !! cpu = Some c → NoDup r → t = default 0 (head (leave_ready c)) →
  states (fu (leave c) t THREAD_RUNNING) so (<[cpu := t]> cur) (tail (leave_ready c)) b.
Proof using H.
  intros Hcpu Hnd Et. assert (Hc : c ∈ cur) by (by eapply list_elem_of_lookup_2).
  pose proof (leave_iff c) as Hin. pose proof (leave_nodup c Hc Hnd) as Hnd1.
  pose proof (leave_not_running c) as [Hnr Hndy]. pose proof (leave_ne c) as Hle.
  assert (Htc : tid t → t ∈ leave_ready c ∧ leave c t = THREAD_READY).
  { intros Ht. destruct (leave_ready c) as [|x l] eqn:El; simpl in Et; subst; [by destruct Ht |].
    split; [by left |]. apply Hin; [done | by left]. }
  assert (Htl : ∀ u, u ∈ tail (leave_ready c) ↔ u ∈ leave_ready c ∧ u ≠ t).
  { intros u. destruct (leave_ready c) as [|x l]; simpl in *; [set_solver |]. subst.
    apply NoDup_cons in Hnd1 as [? _]. set_solver. }
  assert (Ht0 : ¬ tid t → t = 0).
  { intros Hn. destruct (leave_ready c) as [|x l] eqn:El; simpl in Et; subst; [done |].
    destruct Hn. apply Hin; [done | by left]. }
  destruct H.
  assert (Hother : ∀ u j, tid u → cur !! j = Some u → j ≠ cpu → u ≠ c).
  { intros u j Hu Hj Hne ->. by apply Hne, (st_cur_once0 _ _ c). }
  assert (Htcur : ∀ j, tid t → cur !! j = Some t → j ≠ cpu → False).
  { intros j Ht Hj Hne. destruct (Htc Ht) as [_ Hr]. rewrite Hle in Hr by eauto.
    assert (Htin : t ∈ cur) by (by eapply list_elem_of_lookup_2).
    destruct (proj2 (st_running0 t Ht) Htin); congruence. }
  assert (Hcl : (cpu < length cur)%nat) by (by eapply lookup_lt_Some).
  constructor; try done.
  - intros u. rewrite Htl, Hin by done. by_thread u t; [| tauto].
    split; [tauto | by intros [_ ?]].
  - intros u Hu Hso. by_thread u t; [by right |]. destruct (decide (u = c)) as [->|]; [| by rewrite Hle; auto].
    left. unfold leave. rewrite fu_eq, (proj2 (Z.eqb_neq _ _)) by done.
    destruct (st_waiting0 c Hu Hso) as [-> | ->]; done.
  - intros u Hu. by_thread u t; [done |]. destruct (decide (u = c)) as [->|]; [| rewrite Hle by done; auto].
    unfold leave. rewrite fu_eq. case_bool_decide; [done |]. destruct (Z.eqb_spec (so c) 0); done.
  - intros u Hu. by_thread u t.
    + split; [intros _; apply list_elem_of_lookup; exists cpu; by apply list_lookup_insert_eq | by left].
    + split.
      * intros Hx. assert (u ≠ c) as Huc by (intros ->; destruct Hx; done). rewrite Hle in Hx by done.
        apply st_running0 in Hx; [| done]. apply list_elem_of_lookup in Hx as [j Hj].
        apply list_elem_of_lookup. exists j. rewrite list_lookup_insert_ne; [done |]. congruence.
      * intros [j Hj]%list_elem_of_lookup. apply list_lookup_insert_Some in Hj as [(_ & <- & _)|[Hne Hj]]; [done |].
        rewrite Hle by eauto. apply st_running0; [done |]. by eapply list_elem_of_lookup_2.
  - intros u [j Hj]%list_elem_of_lookup.
    apply list_lookup_insert_Some in Hj as [(_ & <- & _)|[Hne Hj]].
    + destruct (decide (tid t)); [auto with buenos |]. rewrite Ht0 by done. unfold slot. lia.
    + eapply st_cur_slot0, list_elem_of_lookup_2, Hj.
  - intros i j u Hi Hj Hu.
    apply list_lookup_insert_Some in Hi as [(<- & <- & _)|[Hni Hi]],
      Hj as [(<- & Hju & _)|[Hnj Hj]]; try done.
    + exfalso. by apply (Htcur j).
    + subst u. exfalso. by apply (Htcur i).
    + by eapply st_cur_once0.
  - destruct st_idle0 as [Hso0 Hst0]. split; [done |]. by_thread 0 t; [by right |].
    destruct (decide (0 = c)) as [<-|]; [| by rewrite Hle]. left. unfold leave. rewrite fu_eq, Hso0.
    rewrite bool_decide_eq_false_2 by (destruct Hst0 as [-> | ->]; done). done.
Qed.

End states.

(** ** The invariant under each operation *)

(** What a state shows of its threads. *)
Record looks (s : sched) (st : Z → thread_state) (so : Z → Z) (cur : list Z) : Prop := {
  lk_st u : slot u → st_of s u = st u;
  lk_so u : slot u → so_of s u = so u;
  lk_cur : scheduler_current_thread s = cur;
}.

Lemma rep_intro s r b st so cur :
  queues s r b → looks s st so cur → states st so cur r b → slot (next_tid s) → rep s r b.
Proof.
  intros Hq [H1 H2 H3] Hs Hn. constructor; [done | | done]. rewrite H3. by eapply states_ext.
Qed.

Lemma looks_same s s' st so cur : looks s st so cur → same s s' → looks s' st so cur.
Proof.
  intros [] H. constructor.
  - intros u Hu. unfold st_of. rewrite (same_state _ _ _ H) by done. by apply lk_st0.
  - intros u Hu. unfold so_of. rewrite (same_sleeps _ _ _ H) by done. by apply lk_so0.
  - by rewrite (same_cur _ _ H).
Qed.

Lemma looks_refl s : looks s (st_of s) (so_of s) (scheduler_current_thread s).
Proof. done. Qed.

Lemma looks_state s st so cur t x :
  length (thread_table s) = 32%nat → slot t → looks s st so cur →
  looks (upd t (set_state x) s) (fu st t x) so cur.
Proof.
  intros Hl Ht []. constructor; [| | done]; intros u Hu; unfold st_of, so_of, fu;
    rewrite th_upd by auto with buenos; case_test; subst; try done; by (apply lk_st0 || apply lk_so0).
Qed.

Lemma looks_sleeps s st so cur t x :
  length (thread_table s) = 32%nat → slot t → looks s st so cur →
  looks (upd t (set_sleeps_on x) s) st (fu so t x) cur.
Proof.
  intros Hl Ht []. constructor; [| | done]; intros u Hu; unfold st_of, so_of, fu;
    rewrite th_upd by auto with buenos; case_test; subst; try done; by (apply lk_st0 || apply lk_so0).
Qed.

Lemma looks_current s st so cur l : looks s st so cur → looks (set_current l s) st so l.
Proof. intros []. done. Qed.

Lemma rep_ready_state s r b t : rep s r b → head r = Some t → st_of s t = THREAD_READY.
Proof.
  intros [_ Hs _] Ht. destruct r as [|x r]; [done |]. injection Ht as ->.
  apply (st_ready _ _ _ _ _ Hs). by left.
Qed.

(** A thread that does not wait is in no bucket, one that is not ready not in
    the ready queue. *)
Lemma not_waiting s r b t : rep s r b → so_of s t = 0 → ∀ h, hash_index h → t ∉ b h.
Proof. intros [_ Hs _] H0 h Hh Hin. by apply (st_bucket _ _ _ _ _ Hs) in Hin as (_ & ? & _). Qed.
Lemma not_ready s r b t : rep s r b → st_of s t ≠ THREAD_READY → t ∉ r.
Proof. intros [_ Hs _] H0 Hin. by apply (st_ready _ _ _ _ _ Hs) in Hin as [_ ?]. Qed.

(** The post-condition shared by the operations. *)
Definition becomes (r : list Z) (b : Z → list Z)
    (st : Z → thread_state) (so : Z → Z) (cur : list Z) (s' : sched) : Prop :=
  rep s' r b ∧ looks s' st so cur.

Lemma add_ready_wp s r b t :
  rep s r b → tid t → st_of s t = THREAD_NONREADY →
  wp (scheduler_add_ready t) (λ _, becomes (r ++ [t]) b
    (fu (st_of s) t THREAD_READY) (so_of s) (scheduler_current_thread s)) s.
Proof.
  intros Hrep Ht Hst. pose proof Hrep as [Hq Hs Hn]. unfold scheduler_add_ready. wp_step.
  eapply wp_mono.
  { apply add_to_ready_wp; [done | done | |].
    - eapply not_ready; [done | congruence].
    - eapply not_waiting; [done |]. destruct (decide (so_of s t = 0)) as [|Hx]; [done |].
      destruct (st_waiting _ _ _ _ _ Hs t Ht Hx); congruence. }
  intros _ s1 [Hq1 Hs1]. apply wp_set_thread; [apply Hq1 | by apply tid_slot |].
  assert (Hlk : looks (upd t (set_state THREAD_READY) s1) (fu (st_of s) t THREAD_READY) (so_of s)
                  (scheduler_current_thread s)).
  { apply looks_state; [apply Hq1 | by apply tid_slot |]. eapply looks_same; [apply looks_refl | done]. }
  split; [| done]. eapply rep_intro; [apply queues_upd; auto with buenos | done | by apply states_run |].
  simpl. by rewrite (same_next_tid _ _ Hs1).
Qed.

Lemma schedule_wp s r b cpu :
  rep s r b → 0 ≤ cpu < 4 →
  wp (scheduler_schedule cpu) (λ _ s', ∃ c t,
    scheduler_current_thread s !! Z.to_nat cpu = Some c ∧
    t = default 0 (head (leave_ready (st_of s) (so_of s) r c)) ∧
    becomes (tail (leave_ready (st_of s) (so_of s) r c)) b
      (fu (leave (st_of s) (so_of s) c) t THREAD_RUNNING) (so_of s)
      (<[Z.to_nat cpu := t]> (scheduler_current_thread s)) s') s.
Proof.
  intros Hrep Hcpu. pose proof Hrep as [Hq Hs Hn]. pose proof (q_len _ _ _ Hq) as Hl.
  unfold scheduler_schedule. wp_step. apply wp_get_current; [apply Hq | done |]. intros c Hc.
  assert (Hcin : c ∈ scheduler_current_thread s) by (by eapply list_elem_of_lookup_2).
  pose proof (st_cur_slot _ _ _ _ _ Hs c Hcin) as Hsl.
  wp_step. apply wp_get_thread; [done | done |]. wp_step.
  apply (wp_mono _ (λ _ s1, queues s1 (leave_ready (st_of s) (so_of s) r c) b ∧
    looks s1 (leave (st_of s) (so_of s) c) (so_of s) (scheduler_current_thread s) ∧
    slot (next_tid s1))).
  { unfold leave_ready, leave. change (state (th s c)) with (st_of s c).
    change (sleeps_on (th s c)) with (so_of s c). case_bool_decide as Hdy; simpl.
    { apply wp_set_thread; [done | done |]. split_and!; [by apply queues_upd | by apply looks_state | done]. }
    destruct (Z.eqb_spec (so_of s c) 0) as [Hso|Hso]; simpl.
    2: { apply wp_set_thread; [done | done |]. split_and!; [by apply queues_upd | by apply looks_state | done]. }
    unfold IDLE_THREAD_TID. destruct (Z.eqb_spec c 0) as [->|Hc0]; simpl; wp_step.
    { wp_step. apply wp_set_thread; [done | done |]. split_and!; [by apply queues_upd | by apply looks_state | done]. }
    assert (Ht : tid c) by (unfold tid, slot in *; lia).
    eapply wp_mono; [apply add_to_ready_wp; [exact Hq | done | |] |].
    - eapply not_ready; [done |]. destruct (proj2 (st_running _ _ _ _ _ Hs c Ht) Hcin); congruence.
    - by eapply not_waiting.
    - intros _ s1 [Hq1 Hs1]. apply wp_set_thread; [apply Hq1 | done |].
      split_and!; [by apply queues_upd | | simpl; by rewrite (same_next_tid _ _ Hs1)].
      apply looks_state; [apply Hq1 | done |]. eapply looks_same; [apply looks_refl | done]. }
  intros _ s1 (Hq1 & Hlk1 & Hn1). wp_step.
  eapply wp_mono; [apply remove_first_wp; [exact Hq1 |] |].
  { intros t Ht. change (st_of s1 t = THREAD_READY).
    assert (Hin : t ∈ leave_ready (st_of s) (so_of s) r c).
    { destruct (leave_ready _ _ _ _); [done |]. injection Ht as ->. by left. }
    apply (leave_iff _ _ _ _ _ Hs) in Hin as [Htt ?]; [| done].
    by rewrite (lk_st _ _ _ _ Hlk1) by auto with buenos. }
  intros t s2 (Et & Hq2 & Hs2).
  assert (Hts : slot t).
  { rewrite Et. destruct (leave_ready _ _ _ _) as [|x l] eqn:El; simpl; [unfold slot; lia |].
    apply tid_slot, (q_ready_tid _ _ _ Hq1). by left. }
  wp_step. apply wp_set_thread; [apply Hq2 | done |]. apply wp_put_current.
  { simpl. rewrite (same_cur _ _ Hs2), (lk_cur _ _ _ _ Hlk1). apply Hq. }
  { done. }
  exists c, t. split_and!; [done | done |].
  assert (Hcr : scheduler_current_thread s2 = scheduler_current_thread s)
    by (by rewrite (same_cur _ _ Hs2), (lk_cur _ _ _ _ Hlk1)).
  simpl. rewrite Hcr.
  assert (Hlk : looks (set_current (<[Z.to_nat cpu := t]> (scheduler_current_thread s))
                         (upd t (set_state THREAD_RUNNING) s2))
     (fu (leave (st_of s) (so_of s) c) t THREAD_RUNNING) (so_of s)
     (<[Z.to_nat cpu := t]> (scheduler_current_thread s))).
  { eapply looks_current, looks_state; [apply Hq2 | done |]. eapply looks_same; [exact Hlk1 | done]. }
  split; [| done]. eapply rep_intro; [| done | |].
  - apply (queues_ext (upd t (set_state THREAD_RUNNING) s2)); try done; [by apply queues_upd | |].
    + simpl. rewrite length_insert. apply Hq2.
    + simpl. rewrite length_insert. apply Hq.
  - by apply states_schedule; [| | apply Hq |].
  - simpl. by rewrite (same_next_tid _ _ Hs2).
Qed.

Lemma sleepq_add_wp s r b cpu intr x t :
  rep s r b → 0 ≤ cpu < 4 → Z.land intr INTERRUPT_MASK_ALL = 0 → x ≠ 0 →
  scheduler_current_thread s !! Z.to_nat cpu = Some t → tid t →
  so_of s t = 0 → st_of s t = THREAD_RUNNING →
  wp (sleepq_add cpu intr x) (λ _,
    becomes r (setb b (SLEEPQ_HASH x) (b (SLEEPQ_HASH x) ++ [t]))
      (st_of s) (fu (so_of s) t x) (scheduler_current_thread s)) s.
Proof.
  intros Hrep Hcpu Hintr Hx Hc Ht Hso Hst. pose proof Hrep as [Hq Hs Hn].
  pose proof (q_len _ _ _ Hq) as Hl. pose proof (hash_in_range x) as Hh.
  assert (Hr : t ∉ r) by (eapply not_ready; [done | congruence]).
  pose proof (not_waiting _ _ _ _ Hrep Hso) as Hb.
  unfold sleepq_add. wp_step. wp_step; [by rewrite Hintr |]. wp_step.
  apply wp_get_current; [apply Hq | done |]. intros c Hc'. assert (c = t) as -> by congruence.
  wp_step. apply wp_set_thread; [done | by apply tid_slot |].
  wp_step. apply wp_set_thread; [by rewrite upd_len | by apply tid_slot |].
  set (s1 := upd t (set_sleeps_on x) (upd t (set_next (-1)) s)).
  assert (Hq1 : queues s1 r b) by (apply queues_upd; [by apply queues_upd_out; auto with buenos | by apply tid_slot | done]).
  assert (Hlk1 : looks s1 (st_of s) (fu (so_of s) t x) (scheduler_current_thread s)).
  { apply looks_sleeps; [by rewrite upd_len | by apply tid_slot |].
    eapply looks_same; [apply looks_refl | by apply same_upd_next; [| apply tid_slot]]. }
  wp_step. wp_step; [apply negb_true_iff, Z.eqb_neq; unfold tid in Ht; unfold IDLE_THREAD_TID; lia |].
  eapply (wp_mono (bucket_append (SLEEPQ_HASH x) t)).
  { apply bucket_append_wp; try done. unfold s1. unfold tid in Ht.
    rewrite !nxt_upd by (rewrite ?upd_len; unfold slot; done || lia). rewrite Z.eqb_refl. simpl.
    rewrite th_upd by (unfold slot; done || lia). by rewrite Z.eqb_refl. }
  intros _ s2 [Hq2 Hs2]. assert (Hlk2 : looks s2 (st_of s) (fu (so_of s) t x) (scheduler_current_thread s))
    by (by eapply looks_same).
  split; [| done]. eapply rep_intro; [done | done | | by rewrite (same_next_tid _ _ Hs2)].
  by apply states_add.
Qed.

(** The effect of waking [t]. *)
Definition wake_st (s : sched) (t : Z) : Z → thread_state :=
  if bool_decide (st_of s t = THREAD_SLEEPING) then fu (st_of s) t THREAD_READY else st_of s.
Definition wake_ready (s : sched) (r : list Z) (t : Z) : list Z :=
  if bool_decide (st_of s t = THREAD_SLEEPING) then r ++ [t] else r.

(** Unlinking the thread [t] of a bucket and waking it. *)
Lemma wake_one_wp s r b x l1 t l2 :
  rep s r b → so_of s t = x → b (SLEEPQ_HASH x) = l1 ++ t :: l2 →
  wp (n ← unlink (SLEEPQ_HASH x) (default (-1) (last l1)) t; wake_thread t;; mret n)
    (λ n s', n = default (-1) (head l2) ∧
      becomes (wake_ready s r t) (setb b (SLEEPQ_HASH x) (l1 ++ l2))
        (wake_st s t) (fu (so_of s) t 0) (scheduler_current_thread s) s') s.
Proof.
  intros Hrep Hx Hb. pose proof Hrep as [Hq Hs Hn]. pose proof (hash_in_range x) as Hh.
  pose proof (q_bucket_nodup _ _ _ Hq _ Hh) as Hnd. rewrite Hb in Hnd.
  destruct (proj1 (st_bucket _ _ _ _ _ Hs _ t Hh)) as (Ht & Hso & _); [rewrite Hb; set_solver |].
  assert (Hst : st_of s t ≠ THREAD_READY) by (destruct (st_waiting _ _ _ _ _ Hs t Ht Hso); congruence).
  wp_step. eapply wp_mono; [by apply unlink_wp |]. intros n s1 (-> & Hq1 & Hs1).
  assert (Hout : ∀ h, hash_index h → t ∉ setb b (SLEEPQ_HASH x) (l1 ++ l2) h).
  { intros h Hh'. unfold setb. destruct (Z.eqb_spec h (SLEEPQ_HASH x)) as [->|Hne].
    - apply NoDup_app in Hnd as (_ & Hd & [? _]%NoDup_cons). specialize (Hd t). set_solver.
    - intros Hin. apply Hne, (q_bucket_bucket _ _ _ Hq h _ t); try done. rewrite Hb. set_solver. }
  assert (Hr : t ∉ r) by (by eapply not_ready).
  assert (Hlk1 : looks s1 (st_of s) (so_of s) (scheduler_current_thread s)) by (eapply looks_same; [apply looks_refl | done]).
  wp_step. unfold wake_thread. wp_step. apply wp_set_thread; [apply Hq1 | by apply tid_slot |].
  wp_step. apply wp_set_thread; [rewrite upd_len; apply Hq1 | by apply tid_slot |].
  set (s2 := upd t (set_next (-1)) (upd t (set_sleeps_on 0) s1)).
  assert (Hq2 : queues s2 r (setb b (SLEEPQ_HASH x) (l1 ++ l2))).
  { apply queues_upd_out; auto with buenos. apply queues_upd; auto with buenos. }
  assert (Hlk2 : looks s2 (st_of s) (fu (so_of s) t 0) (scheduler_current_thread s)).
  { eapply looks_same; [| apply same_upd_next; [rewrite upd_len; apply Hq1 | by apply tid_slot]].
    apply looks_sleeps; [apply Hq1 | by apply tid_slot | done]. }
  assert (Hn2 : slot (next_tid s2)) by (simpl; by rewrite (same_next_tid _ _ Hs1)).
  pose proof (states_wake _ _ _ _ _ Hs t l1 l2) as Hw. rewrite Hx in Hw. specialize (Hw Hb Hnd).
  wp_step. apply wp_get_thread; [apply Hq2 | by apply tid_slot |].
  fold (st_of s2 t). rewrite (lk_st _ _ _ _ Hlk2) by (by apply tid_slot).
  unfold wake_ready, wake_st. case_bool_decide as Hsl.
  - wp_step. apply wp_set_thread; [apply Hq2 | by apply tid_slot |].
    eapply wp_mono; [apply add_to_ready_wp; [apply queues_upd; [exact Hq2 | by apply tid_slot | done] | done | done | done] |].
    intros _ s3 [Hq3 Hs3]. wp_step. split; [done |].
    assert (Hlk3 : looks s3 (fu (st_of s) t THREAD_READY) (fu (so_of s) t 0) (scheduler_current_thread s)).
    { eapply looks_same; [| exact Hs3]. apply looks_state; [apply Hq2 | by apply tid_slot | done]. }
    split; [| done]. eapply rep_intro; [done | done | exact Hw |]. by rewrite (same_next_tid _ _ Hs3).
  - wp_step. wp_step. split; [done |]. split; [| done]. by eapply rep_intro.
Qed.

Lemma rep_b_ext s r b b' : (∀ h, hash_index h → b' h = b h) → rep s r b → rep s r b'.
Proof.
  intros Hb [[] [] ?]. constructor; [| | done]; constructor; try done.
  - intros h ?. rewrite Hb by done. auto.
  - intros h ?. rewrite Hb by done. auto.
  - intros h t ?. rewrite Hb by done. eauto.
  - intros h t ?. rewrite Hb by done. eauto.
  - intros h h' t ? ?. rewrite !Hb by done. eauto.
  - intros h t ?. rewrite Hb by done. auto.
Qed.

(** The lists of the invariant are those the links spell. *)
Lemma rep_lists s r b :
  rep s r b → ready_list s = r ∧ ∀ h, hash_index h → bucket s h = b h.
Proof.
  intros [Hq _ _]. split.
  - eapply chain_walk; [apply Hq | |]; [apply Forall_forall, Hq |].
    apply tid_length; [apply Forall_forall, Hq | apply Hq].
  - intros h Hh. assert (Forall tid (b h)) by (apply Forall_forall; intros t; by apply (q_bucket_tid _ _ _ Hq)).
    eapply chain_walk; [by apply Hq | done |]. apply tid_length; [done | by apply Hq].
Qed.

Lemma rep_inv s r b : rep s r b → sched_inv s.
Proof.
  intros H. destruct (rep_lists _ _ _ H) as [Hr Hb]. unfold sched_inv. rewrite Hr.
  by eapply rep_b_ext.
Qed.

Lemma rep_waiters s r b x : rep s r b → waiters s x = filter (λ t, so_of s t = x) (b (SLEEPQ_HASH x)).
Proof. intros [_ H]%rep_lists. unfold waiters. by rewrite H by apply hash_in_range. Qed.

Lemma bucket_short s r b h l0 l : rep s r b → hash_index h → b h = l0 ++ l → (length l < 32)%nat.
Proof.
  intros [Hq _ _] Hh Hb. assert (length (b h) < 32)%nat.
  { apply tid_length; [| by apply Hq]. apply Forall_forall. intros t. by apply (q_bucket_tid _ _ _ Hq). }
  rewrite Hb, length_app in *. lia.
Qed.

Lemma wp_drop_result {S A B} (m : K S A) (k : K S B) (Q : A → S → Prop) s :
  wp (n ← m; k;; mret n) Q s → wp (m;; k) (λ _ s', ∃ n, Q n s') s.
Proof.
  unfold wp, mbind, K_bind. destruct (m s) as [[n s1]| | | |]; try done.
  destruct (k s1) as [[? s2]| | | |]; try done. intros ?. by exists n.
Qed.

Lemma sleepq_wake_wp s r b x :
  rep s r b →
  wp (sleepq_wake x) (λ _ s', ∃ l1 l2, split_waiter s x (b (SLEEPQ_HASH x)) = (l1, l2) ∧
    match l2 with
    | [] => s' = s
    | t :: l2' => becomes (wake_ready s r t) (setb b (SLEEPQ_HASH x) (l1 ++ l2'))
        (wake_st s t) (fu (so_of s) t 0) (scheduler_current_thread s) s'
    end) s.
Proof.
  intros Hrep. pose proof Hrep as [Hq _ _]. pose proof (hash_in_range x) as Hh. unfold sleepq_wake.
  wp_step. apply wp_get_bucket; [apply Hq | done |].
  rewrite (chain_head _ _ _ (q_bucket _ _ _ Hq _ Hh)). wp_step.
  eapply wp_mono.
  { apply (find_waiter_wp s r b (SLEEPQ_HASH x) x Hq Hh _ []); [done | done |].
    pose proof (bucket_short s r b _ [] _ Hrep Hh eq_refl). unfold chain_fuel. lia. }
  intros [p t] s' (-> & l1 & l2 & Hsp & -> & ->). pose proof (split_waiter_app _ _ _ _ _ Hsp) as Hb.
  destruct l2 as [|t l2]; simpl.
  { wp_step. by exists l1, []. }
  destruct (split_waiter_filter _ _ _ _ _ Hsp) as [_ Hso].
  assert (Ht : tid t) by (apply (q_bucket_tid _ _ _ Hq _ t Hh); rewrite Hb; set_solver).
  unfold tid in Ht. rewrite (proj2 (Z.ltb_lt 0 t)) by lia.
  eapply wp_mono; [apply wp_drop_result, (wake_one_wp s r b x l1 t l2); [done | by apply Hso | done] |].
  intros _ s' (n & _ & Hbec). exists l1, (t :: l2). done.
Qed.

(** The effect of waking every thread that waits for [x]. *)
Definition all_st (s : sched) (x : Z) : Z → thread_state := λ u,
  if (so_of s u =? x) && bool_decide (st_of s u = THREAD_SLEEPING) then THREAD_READY else st_of s u.
Definition all_so (s : sched) (x : Z) : Z → Z := λ u, if so_of s u =? x then 0 else so_of s u.

Lemma filter_ext_in {A} (P Q : A → Prop) `{!∀ x, Decision (P x), !∀ x, Decision (Q x)} (l : list A) :
  (∀ x, x ∈ l → P x ↔ Q x) → filter P l = filter Q l.
Proof.
  induction l as [|a l IH]; intros Hpq; [done |]. rewrite !filter_cons.
  rewrite IH by (intros; apply Hpq; by right). specialize (Hpq a ltac:(left)).
  repeat case_decide; tauto.
Qed.

Lemma filter_none {A} (P : A → Prop) `{!∀ x, Decision (P x)} (l : list A) :
  (∀ x, x ∈ l → ¬ P x) → filter P l = [].
Proof.
  induction l as [|a l IH]; intros Hp; [done |]. rewrite filter_cons_False by (apply Hp; left).
  apply IH. intros. apply Hp. by right.
Qed.

Lemma filter_all {A} (P : A → Prop) `{!∀ x, Decision (P x)} (l : list A) :
  (∀ x, x ∈ l → P x) → filter P l = l.
Proof.
  induction l as [|a l IH]; intros Hp; [done |]. rewrite filter_cons_True by (apply Hp; left).
  f_equal. apply IH. intros. apply Hp. by right.
Qed.

Lemma wake_none s r b x l0 l :
  rep s r b → x ≠ 0 → b (SLEEPQ_HASH x) = l0 ++ l → (∀ u, u ∈ l0 ++ l → so_of s u ≠ x) →
  becomes (r ++ filter (λ t, so_of s t = x ∧ st_of s t = THREAD_SLEEPING) l)
    (setb b (SLEEPQ_HASH x) (l0 ++ filter (λ t, so_of s t ≠ x) l))
    (all_st s x) (all_so s x) (scheduler_current_thread s) s.
Proof.
  intros Hrep Hx0 Hb Hnone. pose proof Hrep as [Hq Hs _]. pose proof (hash_in_range x) as Hh.
  assert (Hwait : ∀ u, slot u → so_of s u ≠ x).
  { intros u Hu Hux. assert (u ≠ 0) by (intros ->; destruct (st_idle _ _ _ _ _ Hs); congruence).
    apply (Hnone u); [| done]. rewrite <- Hb. apply (st_bucket _ _ _ _ _ Hs); [done |].
    rewrite Hux. split_and!; [unfold tid, slot in *; lia | done | done]. }
  assert (Hl : ∀ u, u ∈ l → so_of s u ≠ x) by set_solver.
  rewrite filter_none, app_nil_r, filter_all by naive_solver. split.
  - eapply rep_b_ext; [| done]. intros h _. unfold setb. case_test; [by subst | done].
  - constructor; [| | done]; intros u Hu; unfold all_st, all_so;
      rewrite (proj2 (Z.eqb_neq _ _)) by auto; done.
Qed.

(** One thread woken, then all the others. *)
Lemma wake_step s s1 s2 r b x l0 l1 t l2 :
  rep s r b → so_of s t = x → NoDup (l1 ++ t :: l2) → x ≠ 0 →
  (∀ u, u ∈ l1 ++ t :: l2 → slot u) → (∀ u, u ∈ l1 → so_of s u ≠ x) →
  looks s1 (wake_st s t) (fu (so_of s) t 0) (scheduler_current_thread s) →
  becomes (wake_ready s r t ++ filter (λ u, so_of s1 u = x ∧ st_of s1 u = THREAD_SLEEPING) l2)
    (setb (setb b (SLEEPQ_HASH x) ((l0 ++ l1) ++ l2)) (SLEEPQ_HASH x)
       ((l0 ++ l1) ++ filter (λ u, so_of s1 u ≠ x) l2))
    (all_st s1 x) (all_so s1 x) (scheduler_current_thread s1) s2 →
  becomes (r ++ filter (λ u, so_of s u = x ∧ st_of s u = THREAD_SLEEPING) (l1 ++ t :: l2))
    (setb b (SLEEPQ_HASH x) (l0 ++ filter (λ u, so_of s u ≠ x) (l1 ++ t :: l2)))
    (all_st s x) (all_so s x) (scheduler_current_thread s) s2.
Proof.
  intros Hrep Ht Hnd Hx0 Hsl Hl1 [Hst Hso Hcur] [Hrep2 [Hst2 Hso2 Hcur2]].
  apply NoDup_app in Hnd as (_ & _ & [Htl2 _]%NoDup_cons).
  assert (Hs1 : ∀ u, u ∈ l2 → so_of s1 u = so_of s u ∧ st_of s1 u = st_of s u).
  { intros u Hu. assert (u ≠ t) by congruence. assert (slot u) by set_solver.
    rewrite Hst, Hso by done. unfold wake_st. rewrite fu_ne by done. split; [done |].
    case_bool_decide; [by apply fu_ne | done]. }
  split.
  - rewrite filter_app, (filter_none _ l1), app_nil_l by naive_solver.
    rewrite (filter_ext_in (λ u, so_of s1 u = x ∧ st_of s1 u = THREAD_SLEEPING)
               (λ u, so_of s u = x ∧ st_of s u = THREAD_SLEEPING) l2) in Hrep2
      by (intros u Hu; destruct (Hs1 u Hu) as [-> ->]; done).
    replace (r ++ filter _ (t :: l2)) with
      (wake_ready s r t ++ filter (λ u, so_of s u = x ∧ st_of s u = THREAD_SLEEPING) l2).
    2: { unfold wake_ready. case_bool_decide.
         - rewrite filter_cons_True by done. by rewrite <- app_assoc.
         - rewrite filter_cons_False by naive_solver. done. }
    eapply rep_b_ext; [| exact Hrep2]. intros h _. unfold setb. case_test; [| done].
    rewrite filter_app, (filter_all _ l1) by done. rewrite filter_cons_False by naive_solver.
    rewrite app_assoc. f_equal. apply filter_ext_in. intros u Hu. by destruct (Hs1 u Hu) as [-> _].
  - constructor; [| | congruence]; intros u Hu.
    + rewrite Hst2 by done. unfold all_st. rewrite Hst, Hso by done. unfold wake_st.
      destruct (decide (u = t)) as [->|Hne].
      * rewrite fu_eq, (proj2 (Z.eqb_neq 0 x)), (proj2 (Z.eqb_eq _ _) Ht) by congruence. simpl.
        by case_bool_decide; [rewrite fu_eq |].
      * rewrite fu_ne by done. destruct (bool_decide (st_of s t = THREAD_SLEEPING)); by rewrite ?fu_ne by done.
    + rewrite Hso2 by done. unfold all_so. rewrite Hso by done.
      destruct (decide (u = t)) as [->|Hne]; [| by rewrite fu_ne].
      rewrite fu_eq, (proj2 (Z.eqb_neq 0 x)), (proj2 (Z.eqb_eq _ _) Ht) by congruence. done.
Qed.

Lemma wake_all_loop_wp x : x ≠ 0 → ∀ fuel s r b l0 l,
  rep s r b → b (SLEEPQ_HASH x) = l0 ++ l → (∀ u, u ∈ l0 → so_of s u ≠ x) →
  (length l < fuel)%nat →
  wp (wake_all_loop fuel x (SLEEPQ_HASH x) (default (-1) (last l0)) (default (-1) (head l)))
    (λ _, becomes (r ++ filter (λ t, so_of s t = x ∧ st_of s t = THREAD_SLEEPING) l)
      (setb b (SLEEPQ_HASH x) (l0 ++ filter (λ t, so_of s t ≠ x) l))
      (all_st s x) (all_so s x) (scheduler_current_thread s)) s.
Proof.
  intros Hx0. induction fuel as [|fuel IH]; intros s r b l0 l Hrep Hb Hl0 Hf; [lia |].
  pose proof Hrep as [Hq Hs _]. pose proof (hash_in_range x) as Hh.
  pose proof (bucket_short _ _ _ _ _ _ Hrep Hh Hb) as Hshort.
  destruct (decide (l = [])) as [->|Hne].
  { simpl. wp_step. apply wake_none; [done | done | done |]. by rewrite app_nil_r. }
  assert (Htid : ∀ u, u ∈ l → tid u).
  { intros u Hu. apply (q_bucket_tid _ _ _ Hq _ u Hh). rewrite Hb. set_solver. }
  assert (Hpos : (0 <? default (-1) (head l)) = true).
  { destruct l as [|a l]; [done |]. simpl. specialize (Htid a ltac:(left)). unfold tid in Htid. apply Z.ltb_lt. lia. }
  cbn [wake_all_loop]. rewrite Hpos. wp_step.
  eapply wp_mono; [apply (find_waiter_wp s r b _ x Hq Hh l l0); [done | done | unfold chain_fuel; lia] |].
  intros [p t] s' (-> & l1 & l2 & Hsp & -> & ->). destruct (split_waiter_filter _ _ _ _ _ Hsp) as [Hf1 Hso].
  apply split_waiter_app in Hsp as ->.
  assert (Hl1 : ∀ u, u ∈ l1 → so_of s u ≠ x).
  { intros u Hu Heq. assert (u ∈ filter (λ t, so_of s t = x) l1) as Hin by (by apply list_elem_of_filter).
    rewrite Hf1 in Hin. by apply elem_of_nil in Hin. }
  destruct l2 as [|t l2]; simpl.
  { wp_step. destruct fuel as [|fuel]; [destruct l1; simpl in *; [done | lia] |]. wp_step.
    rewrite app_nil_r in *. apply wake_none; [done | done | done |]. set_solver. }
  specialize (Htid t ltac:(set_solver)) as Ht. unfold tid in Ht.
  rewrite (proj2 (Z.ltb_lt 0 t)) by lia. wp_step.
  eapply wp_mono; [apply (wake_one_wp s r b x (l0 ++ l1) t l2); [done | by apply Hso | by rewrite <- app_assoc] |].
  intros n s1 (-> & Hrep1 & Hlk1). rewrite length_app in *. simpl in *.
  assert (Hnd : NoDup (l1 ++ t :: l2)).
  { pose proof (q_bucket_nodup _ _ _ Hq _ Hh) as Hnd. rewrite Hb in Hnd. by apply NoDup_app in Hnd as (_ & _ & ?). }
  eapply wp_mono; [apply (IH s1 _ _ (l0 ++ l1) l2 Hrep1) |].
  - unfold setb. by rewrite Z.eqb_refl.
  - intros u Hu. assert (u ∈ b (SLEEPQ_HASH x)) as Hin by (rewrite Hb; set_solver).
    rewrite (lk_so _ _ _ _ Hlk1) by (by eapply tid_slot, (q_bucket_tid _ _ _ Hq)).
    destruct (decide (u = t)) as [->|]; [by rewrite fu_eq |]. rewrite fu_ne by done. set_solver.
  - lia.
  - intros [] s2 Hbec. eapply wake_step; [exact Hrep | by apply Hso | exact Hnd | done | | exact Hl1 | exact Hlk1 | exact Hbec].
    intros u Hu. by apply tid_slot, Htid.
Qed.

Lemma sleepq_wake_all_wp s r b x :
  rep s r b → x ≠ 0 →
  wp (sleepq_wake_all x)
    (λ _, becomes (r ++ filter (λ t, so_of s t = x ∧ st_of s t = THREAD_SLEEPING) (b (SLEEPQ_HASH x)))
      (setb b (SLEEPQ_HASH x) (filter (λ t, so_of s t ≠ x) (b (SLEEPQ_HASH x))))
      (all_st s x) (all_so s x) (scheduler_current_thread s)) s.
Proof.
  intros Hrep Hx. pose proof Hrep as [Hq _ _]. pose proof (hash_in_range x) as Hh.
  unfold sleepq_wake_all. wp_step. apply wp_get_bucket; [apply Hq | done |].
  rewrite (chain_head _ _ _ (q_bucket _ _ _ Hq _ Hh)).
  apply (wake_all_loop_wp x Hx _ s r b []); [done | done | set_solver |].
  pose proof (bucket_short s r b _ [] _ Hrep Hh eq_refl). unfold chain_fuel. lia.
Qed.

Section thread_lemmas.
Context (stacks idle_loop finish_addr : Z).

Lemma rem_slot i n : 0 ≤ i < 32 → slot n → slot (Z.rem (i + n) 32).
Proof. unfold slot. intros. apply Z.rem_bound_pos; lia. Qed.

(** Every slot is met when scanning from [n] around the table. *)
Lemma rem_onto n t : slot n → slot t → ∃ i, 0 ≤ i < 32 ∧ Z.rem (i + n) 32 = t.
Proof.
  unfold slot. intros Hn Ht. exists ((t - n) mod 32). pose proof (Z.mod_pos_bound (t - n) 32 ltac:(lia)).
  split; [lia |]. rewrite Z.rem_mod_nonneg by lia.
  rewrite <- (Z.mod_small t 32) at 2 by lia. rewrite Zplus_mod_idemp_l. f_equal. lia.
Qed.

Lemma thread_create_wp s r b func arg :
  rep s r b →
  wp (thread_create stacks finish_addr func arg) (λ t s',
    (t = -1 ∧ s' = s ∧ ∀ u, tid u → st_of s u ≠ THREAD_FREE) ∨
    (tid t ∧ st_of s t = THREAD_FREE ∧
     becomes r b (fu (st_of s) t THREAD_NONREADY) (fu (so_of s) t 0) (scheduler_current_thread s) s' ∧
     ctx_pc (th_ctx (th s' t)) = func ∧ ctx_a0 (th_ctx (th s' t)) = arg ∧
     ctx_ra (th_ctx (th s' t)) = finish_addr ∧ th_pagetable (th s' t) = 0 ∧
     ∀ u, slot u → u ≠ t → th s' u = th s u)) s.
Proof.
  intros Hrep. pose proof Hrep as [Hq Hs Hn]. pose proof (q_len _ _ _ Hq) as Hl.
  unfold thread_create. do 3 wp_step. unfold wp at 1.
  rewrite (for_find _ _ (λ i, negb (Z.rem (i + next_tid s) 32 =? 0) &&
    bool_decide (st_of s (Z.rem (i + next_tid s) 32) = THREAD_FREE)) (λ i, Z.rem (i + next_tid s) 32)).
  2: { intros j Hj. unfold CONFIG_MAX_THREADS, IDLE_THREAD_TID in *. destruct (_ =? 0) eqn:E; [done |].
       rewrite (bind_Ok _ _ _ _ _ (get_thread_Ok s _ Hl (rem_slot j _ ltac:(lia) Hn))). done. }
  destruct (find_idx _ _ _) as [i|] eqn:Ef; simpl.
  - apply find_idx_Some in Ef as (Hi & [Hne Hfree]%andb_true_iff & _).
    apply bool_decide_eq_true_1 in Hfree. apply negb_true_iff, Z.eqb_neq in Hne.
    pose proof (rem_slot i _ ltac:(unfold CONFIG_MAX_THREADS in Hi; lia) Hn) as Hts.
    set (t := Z.rem (i + next_tid s) 32) in *. assert (Ht : tid t) by (unfold tid, slot in *; lia).
    assert (Hso : so_of s t = 0).
    { destruct (decide (so_of s t = 0)) as [|Hx]; [done |].
      destruct (st_waiting _ _ _ _ _ Hs t Ht Hx); congruence. }
    assert (Hr : t ∉ r) by (eapply not_ready; [done | congruence]).
    pose proof (not_waiting _ _ _ _ Hrep Hso) as Hb.
    do 2 wp_step. wp_step. apply wp_set_thread; [done | done |]. wp_step.
    apply wp_set_thread; [by rewrite upd_len | done |]. wp_step. right.
    set (s1 := set_next_tid (Z.rem (t + 1) CONFIG_MAX_THREADS) s).
    set (s2 := upd t _ (upd t (set_state THREAD_NONREADY) s1)).
    assert (Hth : ∀ u, slot u → th s2 u = if u =? t then
      mk_thread (context_addr stacks t)
        (mk_ctx arg (stacks + CONFIG_THREAD_STACKSIZE * t + CONFIG_THREAD_STACKSIZE - 4 - SIZEOF_CONTEXT - 4)
           finish_addr func (Z.lor INTERRUPT_MASK_ALL INTERRUPT_MASK_MASTER) (context_addr stacks t))
        0 THREAD_NONREADY 0 0 (-1) (-1) else th s u).
    { intros u Hu. unfold s2. rewrite !th_upd by (rewrite ?upd_len; auto with buenos).
      rewrite Z.eqb_refl. by destruct (u =? t). }
    assert (Hlk : looks s2 (fu (st_of s) t THREAD_NONREADY) (fu (so_of s) t 0) (scheduler_current_thread s)).
    { constructor; [| | done]; intros u Hu; unfold st_of, so_of, fu; rewrite Hth by done; by case_test. }
    split_and!; [done | done | | by rewrite Hth, Z.eqb_refl by done .. |].
    2: { intros u Hu Hut. by rewrite Hth, (proj2 (Z.eqb_neq _ _) Hut) by done. }
    split; [| done]. eapply rep_intro; [| done | |].
    + apply queues_upd_out; try done. apply queues_upd; [| done | done]. apply (queues_ext s); try done. apply Hq.
    + apply states_set; try done; [congruence | auto |]. split; [done |]. intros Hin.
      destruct (proj2 (st_running _ _ _ _ _ Hs t Ht) Hin); congruence.
    + simpl. unfold slot, tid, CONFIG_MAX_THREADS in *. apply Z.rem_bound_pos; lia.
  - wp_step. left. split_and!; [done | done |]. intros u Hu Hfr. rewrite find_idx_None in Ef.
    destruct (rem_onto (next_tid s) u Hn ltac:(by apply tid_slot)) as (i & Hi & Hiu).
    specialize (Ef i ltac:(unfold CONFIG_MAX_THREADS; lia)). simpl in Ef. rewrite Hiu in Ef.
    unfold tid in Hu. rewrite (proj2 (Z.eqb_neq u 0)), (bool_decide_eq_true_2 _ Hfr) in Ef by lia. done.
Qed.

End thread_lemmas.

Lemma thread_finish_wp s r b cpu t intr :
  rep s r b → 0 ≤ cpu < 4 → scheduler_current_thread s !! Z.to_nat cpu = Some t → tid t →
  so_of s t = 0 → th_pagetable (th s t) = 0 →
  wp (thread_finish cpu intr) (λ _ s', ∃ r', rep s' r' b ∧ (∀ u, slot u → so_of s' u = so_of s u) ∧
    (if intr then st_of s' t = THREAD_DYING ∧ r' = r
     else st_of s' t = THREAD_FREE ∧ r' = tail r ∧
          scheduler_current_thread s' = <[Z.to_nat cpu := default 0 (head r)]> (scheduler_current_thread s))) s.
Proof.
  intros Hrep Hcpu Hc Ht Hso Hpt. pose proof Hrep as [Hq Hs Hn]. pose proof (q_len _ _ _ Hq) as Hl.
  assert (Hin : t ∈ scheduler_current_thread s) by (by eapply list_elem_of_lookup_2).
  assert (Hst : st_of s t ≠ THREAD_READY) by (destruct (proj2 (st_running _ _ _ _ _ Hs t Ht) Hin); congruence).
  unfold thread_finish. wp_step. apply wp_get_current; [apply Hq | done |].
  intros c Hc'. assert (c = t) as -> by congruence.
  wp_step. apply wp_get_thread; [done | by apply tid_slot |]. wp_step. wp_step; [by apply Z.eqb_eq |].
  wp_step. apply wp_set_thread; [done | by apply tid_slot |].
  set (s1 := upd t (set_state THREAD_DYING) s).
  assert (Hlk : looks s1 (fu (st_of s) t THREAD_DYING) (so_of s) (scheduler_current_thread s))
    by (apply looks_state; auto using looks_refl with buenos).
  assert (Hrep1 : rep s1 r b).
  { eapply rep_intro; [apply queues_upd; auto with buenos | exact Hlk | | done].
    eapply states_ext; [apply (states_set _ _ _ _ _ Hs t 0 THREAD_DYING); try done; auto | done |].
    intros u _. unfold fu. by case_test; subst. }
  assert (Hdy : st_of s1 t = THREAD_DYING) by (rewrite (lk_st _ _ _ _ Hlk), fu_eq by auto with buenos; done).
  destruct intr; wp_step; [exists r; split; [done |]; split; [apply (lk_so _ _ _ _ Hlk) | done] |].
  eapply wp_mono; [by apply (schedule_wp s1 r b cpu) |].
  intros [] s2 (c & x & Hc2 & Hx & Hrep2 & Hlk2). rewrite (lk_cur _ _ _ _ Hlk) in *.
  assert (c = t) as -> by congruence.
  unfold leave_ready in Hx, Hrep2. rewrite (bool_decide_eq_true_2 _ Hdy) in Hx, Hrep2. cbn [orb] in *.
  assert (Hxt : x ≠ t).
  { intros ->. destruct r as [|y r]; simpl in Hx; [unfold tid in Ht; lia |]. subst y.
    apply (not_ready _ _ _ t Hrep Hst). by left. }
  wp_step. apply wp_get_current; [apply Hrep2 | done |]. intros c Hcx. rewrite (lk_cur _ _ _ _ Hlk2) in Hcx.
  assert (Hcl : (Z.to_nat cpu < length (scheduler_current_thread s))%nat) by (by eapply lookup_lt_Some).
  rewrite list_lookup_insert_eq in Hcx by done. injection Hcx as <-.
  rewrite (proj2 (Z.eqb_neq _ _)) by done. wp_step. exists (tail r). split_and!; [done | | | done |].
  - intros u Hu. rewrite (lk_so _ _ _ _ Hlk2) by done. by apply (lk_so _ _ _ _ Hlk).
  - rewrite (lk_st _ _ _ _ Hlk2), fu_ne by auto with buenos. unfold leave. rewrite fu_eq.
    by rewrite (bool_decide_eq_true_2 _ Hdy).
  - by rewrite (lk_cur _ _ _ _ Hlk2), Hx.
Qed.

(** ** Queues of waiters under the operations *)

Lemma becomes_waiters r b st so cur s' x :
  becomes r b st so cur s' → x ≠ 0 → waiters s' x = filter (λ t, so t = x) (b (SLEEPQ_HASH x)).
Proof.
  intros [Hrep Hlk] Hx. rewrite (rep_waiters s' r b x Hrep). apply filter_ext_in.
  intros t Ht. rewrite (lk_so _ _ _ _ Hlk); [done |]. destruct Hrep as [Hq _ _].
  eapply tid_slot, (q_bucket_tid _ _ _ Hq _ t (hash_in_range x) Ht).
Qed.

Lemma add_waiters s r b t x y s' :
  rep s r b → so_of s t = 0 → x ≠ 0 → y ≠ 0 →
  becomes r (setb b (SLEEPQ_HASH x) (b (SLEEPQ_HASH x) ++ [t]))
    (st_of s) (fu (so_of s) t x) (scheduler_current_thread s) s' →
  waiters s' y = if y =? x then waiters s y ++ [t] else waiters s y.
Proof.
  intros Hrep Hso Hx Hy Hbec. rewrite (becomes_waiters _ _ _ _ _ _ _ Hbec) by done.
  rewrite (rep_waiters s r b y Hrep).
  pose proof (not_waiting _ _ _ _ Hrep Hso) as Hout.
  assert (Hold : ∀ z, filter (λ u, fu (so_of s) t x u = z) (b (SLEEPQ_HASH y)) =
                      filter (λ u, so_of s u = z) (b (SLEEPQ_HASH y))).
  { intros z. apply filter_ext_in. intros u Hu. rewrite fu_ne; [done |]. intros ->.
    by apply (Hout (SLEEPQ_HASH y) (hash_in_range y)). }
  unfold setb. destruct (Z.eqb_spec y x) as [->|Hne].
  - rewrite Z.eqb_refl, filter_app, Hold, filter_cons_True by (by rewrite fu_eq). done.
  - case_test; [| by apply Hold]. rewrite <- Htest, filter_app, Hold, filter_cons_False; [by rewrite app_nil_r |].
    rewrite fu_eq. congruence.
Qed.

Lemma wake_waiters s r b l1 t l2 x y s' st cur r' :
  rep s r b → split_waiter s x (b (SLEEPQ_HASH x)) = (l1, t :: l2) → y ≠ 0 →
  becomes r' (setb b (SLEEPQ_HASH x) (l1 ++ l2)) st (fu (so_of s) t 0) cur s' →
  (∃ ws, waiters s x = t :: ws) ∧
  waiters s' y = if y =? x then tail (waiters s y) else waiters s y.
Proof.
  intros Hrep Hsp Hy Hbec. destruct (split_waiter_filter _ _ _ _ _ Hsp) as [Hf1 Hso].
  specialize (Hso t eq_refl). pose proof (split_waiter_app _ _ _ _ _ Hsp) as Hb.
  pose proof Hrep as [Hq _ _]. pose proof (q_bucket_nodup _ _ _ Hq _ (hash_in_range x)) as Hnd.
  rewrite Hb in Hnd. apply NoDup_app in Hnd as (_ & Hd & [Hn _]%NoDup_cons).
  assert (Hw : waiters s x = t :: filter (λ u, so_of s u = x) l2).
  { rewrite (rep_waiters s r b x Hrep), Hb, filter_app, Hf1.
    by rewrite filter_cons_True. }
  split; [by eexists |]. rewrite (becomes_waiters _ _ _ _ _ _ _ Hbec) by done.
  assert (Hold : ∀ l : list Z, t ∉ l → filter (λ u, fu (so_of s) t 0 u = y) l = filter (λ u, so_of s u = y) l).
  { intros l Hl. apply filter_ext_in. intros u Hu. rewrite fu_ne; [done |]. by intros ->. }
  assert (Ht1 : t ∉ l1) by (intros ?; apply (Hd t); [done | left]).
  unfold setb. destruct (Z.eqb_spec y x) as [->|Hne].
  - rewrite Z.eqb_refl, Hw, Hold by set_solver. by rewrite filter_app, Hf1.
  - rewrite (rep_waiters s r b y Hrep). case_test.
    + rewrite Hold by set_solver. rewrite Htest, Hb, !filter_app, filter_cons_False; [done |].
      congruence.
    + apply Hold. intros Hin. apply Htest, (q_bucket_bucket _ _ _ Hq _ _ t); auto with buenos.
      rewrite Hb. set_solver.
Qed.

Lemma no_waiter s r b x l1 :
  rep s r b → split_waiter s x (b (SLEEPQ_HASH x)) = (l1, []) → waiters s x = [].
Proof.
  intros Hrep Hsp. destruct (split_waiter_filter _ _ _ _ _ Hsp) as [Hf1 _].
  rewrite (rep_waiters s r b x Hrep), (split_waiter_app _ _ _ _ _ Hsp), app_nil_r. exact Hf1.
Qed.

(** The two operations as a client sees them. *)
Lemma sleepq_add_queue s cpu intr x t :
  sched_inv s → 0 ≤ cpu < 4 → Z.land intr INTERRUPT_MASK_ALL = 0 → x ≠ 0 →
  scheduler_current_thread s !! Z.to_nat cpu = Some t → tid t →
  so_of s t = 0 → st_of s t = THREAD_RUNNING →
  wp (sleepq_add cpu intr x) (λ _ s', sched_inv s' ∧
    (∀ y, y ≠ 0 → waiters s' y = if y =? x then waiters s y ++ [t] else waiters s y) ∧
    ready_list s' = ready_list s ∧
    looks s' (st_of s) (fu (so_of s) t x) (scheduler_current_thread s)) s.
Proof.
  intros Hinv ? ? ? ? ? ? ?. eapply wp_mono; [by apply (sleepq_add_wp s _ _ cpu intr x t Hinv) |].
  intros [] s' Hbec. split_and!.
  - eapply rep_inv, Hbec.
  - intros y Hy. by eapply add_waiters.
  - by eapply rep_lists, Hbec.
  - apply Hbec.
Qed.

Lemma sleepq_wake_queue s x :
  sched_inv s → x ≠ 0 →
  wp (sleepq_wake x) (λ _ s', sched_inv s' ∧
    (∀ y, y ≠ 0 → waiters s' y = if y =? x then tail (waiters s y) else waiters s y) ∧
    match waiters s x with
    | [] => s' = s
    | t :: _ => ready_list s' = wake_ready s (ready_list s) t ∧
        looks s' (wake_st s t) (fu (so_of s) t 0) (scheduler_current_thread s)
    end) s.
Proof.
  intros Hinv Hx. eapply wp_mono; [by apply (sleepq_wake_wp s _ _ x Hinv) |].
  intros [] s' (l1 & [|t l2] & Hsp & Hbec).
  - subst s'. pose proof (no_waiter _ _ _ _ _ Hinv Hsp) as Hno. rewrite Hno.
    split_and!; [done | | done]. intros y Hy. destruct (Z.eqb_spec y x) as [->|]; [by rewrite Hno | done].
  - destruct (wake_waiters _ _ _ _ _ _ _ x _ _ _ _ Hinv Hsp Hx Hbec) as [(ws & Hw) _].
    rewrite Hw. split_and!; [eapply rep_inv, Hbec | | by eapply rep_lists, Hbec | apply Hbec].
    intros y Hy. by eapply wake_waiters.
Qed.

Lemma sleepq_wake_all_queue s x :
  sched_inv s → x ≠ 0 →
  wp (sleepq_wake_all x) (λ _ s', sched_inv s' ∧ waiters s' x = [] ∧
    (∀ y, y ≠ 0 → y ≠ x → waiters s' y = waiters s y) ∧
    ready_list s' = ready_list s ++ filter (λ t, st_of s t = THREAD_SLEEPING) (waiters s x) ∧
    looks s' (all_st s x) (all_so s x) (scheduler_current_thread s)) s.
Proof.
  intros Hi Hx. eapply wp_mono; [by apply (sleepq_wake_all_wp s _ _ x Hi) |].
  intros [] s' Hbec. split_and!; [eapply rep_inv, Hbec | | | | apply Hbec].
  - rewrite (becomes_waiters _ _ _ _ _ _ _ Hbec) by done. unfold setb. rewrite Z.eqb_refl.
    apply filter_none. intros u [Hu _]%list_elem_of_filter. unfold all_so.
    rewrite (proj2 (Z.eqb_neq _ _)) by done. done.
  - intros y Hy Hne. rewrite (becomes_waiters _ _ _ _ _ _ _ Hbec) by done.
    rewrite (rep_waiters s _ _ y Hi).
    assert (Hso : ∀ u, all_so s x u = y ↔ so_of s u = y).
    { intros u. unfold all_so. case_test; [| done]. split; congruence. }
    unfold setb. case_test; [rewrite <- Htest, list_filter_filter |]; apply filter_ext_in;
      intros u _; rewrite Hso; naive_solver congruence.
  - rewrite (proj1 (rep_lists _ _ _ (proj1 Hbec))). f_equal.
    rewrite (rep_waiters s _ _ x Hi), list_filter_filter. apply filter_ext_in. tauto.
Qed.

Lemma schedule_queue s cpu :
  sched_inv s → 0 ≤ cpu < 4 →
  wp (scheduler_schedule cpu) (λ _ s', sched_inv s' ∧ (∀ y, y ≠ 0 → waiters s' y = waiters s y)) s.
Proof.
  intros Hi Hc. eapply wp_mono; [by apply (schedule_wp s _ _ cpu Hi) |].
  intros [] s' (c & t & _ & _ & Hbec). split; [eapply rep_inv, Hbec |]. intros y Hy.
  rewrite (becomes_waiters _ _ _ _ _ _ _ Hbec) by done. by rewrite (rep_waiters s _ _ y Hi).
Qed.
