(* ===== verification/SchedSpec.v ===== *)
(** * The scheduler's contract: first-in first-out queues, no lost wake-up,
    and progress of ready threads

    The start-up sequence of src/buenos/init/main.c establishes the invariant
    of [Sched]; every operation, called as the kernel calls it, returns and
    preserves it, on any interleaving of the processors. *)

From S2P Require Import Prelude Sched.
Local Open Scope Z_scope.

(** ** Start-up *)

(** The part of [init] (init/main.c) that concerns threads. *)
Definition init_threads (stacks idle_loop finish_addr startup_thread : Z) : K sched unit :=
  thread_table_init stacks idle_loop;;
  sleepq_init;;
  scheduler_init;;
  startup ← thread_create stacks finish_addr startup_thread 0;
  thread_run startup.

(** The tables before start-up: of the right size, with any contents but the
    static initialisers of the ready queue and of [next_tid]. *)
Definition bss (s : sched) : Prop :=
  length (thread_table s) = 32%nat ∧ length (scheduler_current_thread s) = 4%nat ∧
  length (sleepq_hashtable s) = 127%nat ∧ ready_head s = -1 ∧ ready_tail s = -1 ∧ next_tid s = 0.

Lemma bss_upd t f s : bss s → bss (upd t f s).
Proof. unfold bss. by rewrite upd_len. Qed.

Lemma table_init_wp stacks idle s :
  bss s →
  wp (thread_table_init stacks idle) (λ _ s', bss s' ∧
    (∀ u, slot u → st_of s' u = (if u =? 0 then THREAD_READY else THREAD_FREE) ∧ so_of s' u = 0) ∧
    scheduler_current_thread s' = scheduler_current_thread s ∧
    sleepq_hashtable s' = sleepq_hashtable s) s.
Proof.
  intros Hb. unfold thread_table_init. wp_step.
  apply (wp_for_each (λ i s', bss s' ∧
    (∀ u, slot u → u < i → st_of s' u = THREAD_FREE ∧ so_of s' u = 0) ∧
    scheduler_current_thread s' = scheduler_current_thread s ∧
    sleepq_hashtable s' = sleepq_hashtable s)).
  - split; [done |]. split; [| done]. unfold slot. lia.
  - intros i s1 Hi (Hb1 & Hth & Hc & Hh). unfold CONFIG_MAX_THREADS in Hi. pose proof Hb1 as (Hl & ? & ? & ? & ? & ?).
    apply wp_set_thread; [done | unfold slot; lia |]. split; [by apply bss_upd |]. split; [| done].
    intros u Hu Hlt. unfold st_of, so_of. rewrite th_upd by (unfold slot in *; done || lia).
    case_test; [done |]. apply Hth; [done | lia].
  - intros s1 (Hb1 & Hth & Hc & Hh). pose proof Hb1 as (Hl & ? & ? & ? & ? & ?).
    apply wp_set_thread; [done | unfold slot, IDLE_THREAD_TID; lia |].
    split; [by apply bss_upd |]. split; [| done]. intros u Hu. unfold st_of, so_of.
    rewrite th_upd by (unfold slot, IDLE_THREAD_TID in *; done || lia). unfold IDLE_THREAD_TID.
    destruct (Hth 0) as [_ Hz]; [unfold slot; lia | done |].
    case_test; [done |]. apply Hth; [done |]. unfold slot, CONFIG_MAX_THREADS in *. simpl. lia.
Qed.

Lemma sleepq_init_wp s :
  length (sleepq_hashtable s) = 127%nat →
  wp sleepq_init (λ _ s', ∃ l, s' = set_hashtable l s ∧ length l = 127%nat ∧
    ∀ h, hash_index h → nth (Z.to_nat h) l (-1) = -1) s.
Proof.
  intros Hl. apply (wp_for_each (λ i s', ∃ l, s' = set_hashtable l s ∧ length l = 127%nat ∧
    ∀ h, hash_index h → h < i → nth (Z.to_nat h) l (-1) = -1)).
  - exists (sleepq_hashtable s). split_and!; [by destruct s | done |]. unfold hash_index. lia.
  - intros i s1 Hi (l & -> & Hll & Hn). unfold SLEEPQ_HASHTABLE_SIZE in Hi.
    apply wp_set_bucket; [done | unfold hash_index; lia |]. simpl.
    exists (<[Z.to_nat i := -1]> l). split_and!; [done | by rewrite length_insert |].
    intros h Hh Hlt. unfold hash_index in *. destruct (decide (h = i)) as [->|].
    + apply nth_lookup_Some, list_lookup_insert_eq. lia.
    + rewrite nth_lookup, list_lookup_insert_ne, <- nth_lookup by lia. apply Hn; lia.
  - intros s1 (l & -> & Hll & Hn). exists l. split_and!; [done | done |].
    intros h Hh. apply Hn; [done |]. unfold hash_index, SLEEPQ_HASHTABLE_SIZE in *. lia.
Qed.

Lemma scheduler_init_wp s :
  length (scheduler_current_thread s) = 4%nat →
  wp scheduler_init (λ _ s', s' = set_current [0; 0; 0; 0] s) s.
Proof.
  intros Hl. apply (wp_for_each (λ i s', ∃ l, s' = set_current l s ∧ length l = 4%nat ∧
    ∀ k, (Z.of_nat k < i) → l !! k = Some 0)).
  - exists (scheduler_current_thread s). split_and!; [by destruct s | done |]. lia.
  - intros i s1 Hi (l & -> & Hll & Hn). unfold CONFIG_MAX_CPUS in Hi.
    apply wp_put_current; [done | lia |]. exists (<[Z.to_nat i := 0]> l).
    split_and!; [done | by rewrite length_insert |]. intros k Hk.
    destruct (decide (k = Z.to_nat i)) as [->|]; [apply list_lookup_insert_eq; lia |].
    rewrite list_lookup_insert_ne by done. apply Hn. lia.
  - intros s1 (l & -> & Hll & Hn). f_equal.
    apply (list_eq_same_length _ _ 4); [done | done |]. intros i x y Hi Hx Hy. rewrite Hn in Hx by (unfold CONFIG_MAX_CPUS; lia).
    injection Hx as <-. do 4 (destruct i as [|i]; [by injection Hy |]). lia.
Qed.

(** No thread but the idle thread, which every processor runs. *)
Lemma init_rep s :
  bss s → (∀ u, slot u → st_of s u = (if u =? 0 then THREAD_READY else THREAD_FREE) ∧ so_of s u = 0) →
  (∀ h, hash_index h → bucket_head s h = -1) → scheduler_current_thread s = [0; 0; 0; 0] →
  rep s [] (λ _, []).
Proof.
  intros (Hl & Hcl & Hht & Hh & Ht & Hn) Hth Hb Hc.
  assert (Hnil : ∀ t : Z, t ∉ []) by apply not_elem_of_nil.
  assert (Hfree : ∀ t, tid t → st_of s t = THREAD_FREE ∧ so_of s t = 0).
  { intros t Ht0. destruct (Hth t) as [-> ->]; [by apply tid_slot |].
    unfold tid in Ht0. by rewrite (proj2 (Z.eqb_neq t 0)) by lia. }
  constructor.
  - constructor; try done; try (by intros; edestruct Hnil; eauto); try (intros; apply NoDup_nil_2).
  - rewrite Hc. constructor.
    + intros t. split; [by intros ?%Hnil |]. intros [Ht0 Hr]. destruct (Hfree t Ht0). congruence.
    + intros h t _. split; [by intros ?%Hnil |]. intros (Ht0 & Hr & _). by destruct (Hfree t Ht0).
    + intros t Ht0 Hr. by destruct (Hfree t Ht0).
    + intros t Ht0 Hr. destruct (Hfree t Ht0). congruence.
    + intros t Ht0. destruct (Hfree t Ht0) as [-> _]. split; [by intros [?|?] |].
      unfold tid in Ht0. rewrite !elem_of_cons. intros Hin. assert (t ∉ []) by apply Hnil. exfalso. naive_solver lia.
    + intros t. rewrite !elem_of_cons. intros Hin. unfold slot. destruct Hin as [->|[->|[->|[->|?%Hnil]]]]; done || lia.
    + intros i j t Hi _ Ht0. exfalso. unfold tid in Ht0.
      do 4 (destruct i as [|i]; [injection Hi as <-; lia |]). done.
    + destruct (Hth 0) as [-> ->]; [unfold slot; lia |]. split; [done | by left].
  - rewrite Hn. unfold slot. lia.
Qed.

Lemma init_threads_wp stacks idle fin start s :
  bss s →
  wp (init_threads stacks idle fin start) (λ _ s', ∃ t, tid t ∧ rep s' [t] (λ _, [])) s.
Proof.
  intros Hb. unfold init_threads. wp_step. eapply wp_mono; [by apply table_init_wp |].
  intros [] s1 (Hb1 & Hth & _ & _). wp_step. eapply wp_mono; [apply sleepq_init_wp; apply Hb1 |].
  intros [] s2 (l & -> & Hll & Hl). wp_step.
  eapply wp_mono; [apply scheduler_init_wp; apply Hb1 |]. intros [] s3 ->.
  set (s3 := set_current _ _). assert (Hrep : rep s3 [] (λ _, [])).
  { apply init_rep; try done. destruct Hb1 as (? & ? & ? & ? & ? & ?). by split_and!. }
  wp_step. eapply wp_mono; [by apply thread_create_wp |].
  intros t s4 [(-> & -> & Hno)|(Ht & _ & [Hrep4 Hlk4] & _)].
  { exfalso. apply (Hno 1); [unfold tid; lia |]. by destruct (Hth 1) as [Hf _]; [unfold slot; lia |]. }
  eapply wp_mono; [apply (add_ready_wp _ _ _ t Hrep4 Ht) |].
  { rewrite (lk_st _ _ _ _ Hlk4), fu_eq by (by apply tid_slot). done. }
  intros [] s5 [Hrep5 _]. by exists t.
Qed.

(** ** Interleavings *)

(** The operations other code calls.  [OSchedule] is a timer tick, a voluntary
    switch, or a device interrupt of an idle processor. *)
Inductive op :=
| OCreate (func arg : Z)
| ORun (t : Z)
| OSchedule (cpu : Z)
| OSleep (cpu resource : Z)
| OWake (resource : Z)
| OWakeAll (resource : Z)
| OFinish (cpu : Z) (in_interrupt : bool).

Section interleavings.
Context (stacks finish_addr : Z).

Definition run_op (o : op) : K sched unit :=
  match o with
  | OCreate func arg => thread_create stacks finish_addr func arg;; mret tt
  | ORun t => thread_run t
  | OSchedule cpu => scheduler_schedule cpu
  | OSleep cpu resource => sleepq_add cpu 0 resource
  | OWake resource => sleepq_wake resource
  | OWakeAll resource => sleepq_wake_all resource
  | OFinish cpu in_interrupt => thread_finish cpu in_interrupt
  end.

(** Thread [t] runs on [cpu] and is not about to sleep. *)
Definition active (s : sched) (cpu t : Z) : Prop :=
  0 ≤ cpu < 4 ∧ scheduler_current_thread s !! Z.to_nat cpu = Some t ∧ tid t ∧ so_of s t = 0.

(** When an operation may be called: [thread_run] on a thread that was created
    and not started, [sleepq_add] and [thread_finish] by a thread that runs
    (the former not when it is dying, the latter without a page table). *)
Definition op_pre (s : sched) (o : op) : Prop :=
  match o with
  | OCreate _ _ => True
  | ORun t => tid t ∧ st_of s t = THREAD_NONREADY
  | OSchedule cpu => 0 ≤ cpu < 4
  | OSleep cpu resource => resource ≠ 0 ∧ ∃ t, active s cpu t ∧ st_of s t = THREAD_RUNNING
  | OWake resource => resource ≠ 0
  | OWakeAll resource => resource ≠ 0
  | OFinish cpu _ => ∃ t, active s cpu t ∧ th_pagetable (th s t) = 0
  end.

Inductive sexec : sched → list op → sched → Prop :=
| exec_nil s : sexec s [] s
| exec_cons s o s1 l s' :
    op_pre s o → run_op o s = Ok (tt, s1) → sexec s1 l s' → sexec s (o :: l) s'.

(** Whether the operation takes a thread from the ready queue. *)
Definition dispatches (o : op) : bool :=
  match o with OSchedule _ => true | OFinish _ false => true | _ => false end.

(** Every operation only appends to the ready queue, and a dispatch takes its
    first thread to a processor. *)
Definition queue_effect (s : sched) (o : op) (s' : sched) : Prop :=
  ∃ extra,
    if dispatches o
    then ready_list s' = tail (ready_list s ++ extra) ∧
         (∀ t, head (ready_list s ++ extra) = Some t → t ∈ scheduler_current_thread s')
    else ready_list s' = ready_list s ++ extra.

Lemma run_op_wp s o :
  sched_inv s → op_pre s o → wp (run_op o) (λ _ s', sched_inv s' ∧ queue_effect s o s') s.
Proof.
  intros Hinv Hpre. unfold queue_effect. destruct o as [func arg|t|cpu|cpu x|x|x|cpu intr]; cbn [run_op dispatches op_pre] in *.
  - wp_step. eapply wp_mono; [by apply thread_create_wp |].
    intros t s' [(_ & -> & _)|(_ & _ & Hbec & _)]; wp_step.
    + split; [done |]. exists []. by rewrite app_nil_r.
    + split; [eapply rep_inv, Hbec |]. exists []. rewrite app_nil_r. eapply rep_lists, Hbec.
  - destruct Hpre as [Ht Hst]. eapply wp_mono; [by apply (add_ready_wp s _ _ t Hinv) |].
    intros [] s' Hbec. split; [eapply rep_inv, Hbec |]. exists [t]. eapply rep_lists, Hbec.
  - eapply wp_mono; [by apply (schedule_wp s _ _ cpu Hinv) |].
    intros [] s' (c & t & Hc & Et & [Hrep Hlk]). split; [by eapply rep_inv |].
    unfold leave_ready in *.
    assert (Hlen : (Z.to_nat cpu < length (scheduler_current_thread s))%nat) by (by eapply lookup_lt_Some).
    assert (Hcur : ∀ u, t = u → u ∈ scheduler_current_thread s').
    { intros u <-. rewrite (lk_cur _ _ _ _ Hlk). apply list_elem_of_lookup. exists (Z.to_nat cpu).
      by apply list_lookup_insert_eq. }
    destruct (_ || _).
    + exists []. rewrite app_nil_r. split; [by eapply rep_lists |].
      intros u Hu. apply Hcur. by rewrite Et, Hu.
    + exists [c]. split; [by eapply rep_lists |]. intros u Hu. apply Hcur. by rewrite Et, Hu.
  - destruct Hpre as (Hx & t & (? & ? & ? & ?) & ?).
    eapply wp_mono; [by apply (sleepq_add_queue s cpu 0 x t) |].
    intros [] s' (Hi & _ & Hr & _). split; [done |]. exists []. by rewrite app_nil_r.
  - eapply wp_mono; [by apply (sleepq_wake_queue s x) |]. intros [] s' (Hi & _ & Hw). split; [done |].
    destruct (waiters s x) as [|t ws]; [subst; exists []; by rewrite app_nil_r |].
    destruct Hw as [-> _]. unfold wake_ready. case_bool_decide; [by exists [t] |].
    exists []. by rewrite app_nil_r.
  - eapply wp_mono; [by apply (sleepq_wake_all_wp s _ _ x Hinv) |]. intros [] s' Hbec.
    split; [eapply rep_inv, Hbec |]. eexists. eapply rep_lists, Hbec.
  - destruct Hpre as (t & (Hcpu & Hc & Ht & Hso) & Hpt).
    eapply wp_mono; [by apply (thread_finish_wp s _ _ cpu t intr Hinv) |].
    intros [] s' (r' & Hrep & _ & Hpost). split; [by eapply rep_inv |]. exists [].
    rewrite app_nil_r. destruct intr.
    + destruct Hpost as [_ ->]. by eapply rep_lists.
    + destruct Hpost as (_ & -> & Hcur). split; [by eapply rep_lists |].
      intros u Hu. rewrite Hcur, Hu. apply list_elem_of_lookup. exists (Z.to_nat cpu).
      apply list_lookup_insert_eq. by eapply lookup_lt_Some.
Qed.

Lemma sexec_inv s l s' : sched_inv s → sexec s l s' → sched_inv s'.
Proof.
  intros Hi He. induction He as [|s o s1 l s' Hpre Hrun _ IH]; [done |]. apply IH.
  pose proof (run_op_wp s o Hi Hpre) as Hw. unfold wp in Hw. rewrite Hrun in Hw. apply Hw.
Qed.

(** ** Theorems *)

(** C1: nothing the kernel does with threads can go wrong.  After the start-up
    sequence, on every interleaving of thread creation, scheduling on the four
    processors, sleeping, waking and finishing, the thread table satisfies its
    invariant (in particular no thread is in two queues, and every READY
    thread is in the ready queue), and every operation that may be called
    returns: no assertion fails, no table is indexed out of range and no walk
    along the links runs forever. *)
Theorem sched_safe idle startup s0 s1 l s :
  bss s0 → init_threads stacks idle finish_addr startup s0 = Ok (tt, s1) → sexec s1 l s →
  sched_inv s ∧ ∀ o, op_pre s o → is_Ok (run_op o s).
Proof.
  intros Hb Hinit Hex. pose proof (init_threads_wp stacks idle finish_addr startup s0 Hb) as Hw.
  unfold wp in Hw. rewrite Hinit in Hw. destruct Hw as (t & _ & Hrep).
  assert (Hi : sched_inv s) by (eapply sexec_inv; [by eapply rep_inv | done]).
  split; [done |]. intros o Hpre. by eapply wp_is_Ok, run_op_wp.
Qed.

(** C21: the scheduler starves no ready thread.  A thread at position [k] of
    the ready queue is on a processor at some point of every run with more
    than [k] dispatches, whatever else happens in between. *)
Theorem ready_thread_runs s l s' k t :
  sched_inv s → sexec s l s' → ready_list s !! k = Some t →
  (k < length (filter (λ o, dispatches o = true) l))%nat →
  ∃ l1 l2 sm, l = l1 ++ l2 ∧ sexec s l1 sm ∧ sexec sm l2 s' ∧ t ∈ scheduler_current_thread sm.
Proof.
  intros Hi Hex. revert k Hi. induction Hex as [s|s o s1 l s' Hpre Hrun Hex IH]; intros k Hi Hk Hn;
    [simpl in Hn; lia |].
  pose proof (run_op_wp s o Hi Hpre) as Hw. unfold wp in Hw. rewrite Hrun in Hw.
  destruct Hw as [Hi1 (extra & Heff)].
  assert (Hk' : (ready_list s ++ extra) !! k = Some t) by (by apply lookup_app_l_Some).
  assert (Hnext : ∀ k', ready_list s1 !! k' = Some t →
    (k' < length (filter (λ o, dispatches o = true) l))%nat →
    ∃ l1 l2 sm, o :: l = l1 ++ l2 ∧ sexec s l1 sm ∧ sexec sm l2 s' ∧ t ∈ scheduler_current_thread sm).
  { intros k' H1 H2. destruct (IH k' Hi1 H1 H2) as (l1 & l2 & sm & -> & Hm & ? & ?).
    exists (o :: l1), l2, sm. split_and!; [done | by eapply exec_cons | done | done]. }
  rewrite filter_cons in Hn. destruct (dispatches o); simpl in Hn.
  - destruct Heff as [Hr Hcur]. destruct (ready_list s ++ extra) as [|a q]; [done |]. destruct k as [|k].
    + injection Hk' as ->. exists [o], l, s1. split_and!; [done | | done | by apply Hcur].
      eapply exec_cons; [done | done | constructor].
    + apply (Hnext k); [by rewrite Hr | lia].
  - apply (Hnext k); [by rewrite Heff | done].
Qed.

End interleavings.

(** ** The sleep queue as a client sees it *)

(** the sleep queue is a first-in first-out queue per resource, although
    resources share the buckets of the hash table.  [sleepq_wake] removes
    the thread that has waited longest for the resource, leaves the queues of
    all other resources alone, and puts the thread at the end of the ready
    queue iff it already sleeps; with no waiter it changes nothing. *)
Theorem sleepq_wake_fifo s x :
  sched_inv s → x ≠ 0 →
  wp (sleepq_wake x) (λ _ s', sched_inv s' ∧
    (∀ y, y ≠ 0 → y ≠ x → waiters s' y = waiters s y) ∧
    match waiters s x with
    | [] => s' = s
    | t :: ws => waiters s' x = ws ∧
        (if bool_decide (st_of s t = THREAD_SLEEPING)
         then st_of s' t = THREAD_READY ∧ ready_list s' = ready_list s ++ [t]
         else st_of s' t = st_of s t ∧ ready_list s' = ready_list s) ∧
        ∀ u, slot u → u ≠ t → st_of s' u = st_of s u
    end) s.
Proof.
  intros Hi Hx. eapply wp_mono; [by apply sleepq_wake_queue |].
  intros [] s' (Hi' & Hw & Hpost). split_and!; [done | |].
  { intros y Hy Hne. by rewrite Hw, (proj2 (Z.eqb_neq _ _)). }
  pose proof (Hw x Hx) as Hwx. rewrite Z.eqb_refl in Hwx.
  destruct (waiters s x) as [|t ws] eqn:Ews; [done |]. destruct Hpost as [Hr Hlk].
  assert (Ht : slot t).
  { assert (Hin : t ∈ waiters s x) by (rewrite Ews; left).
    apply list_elem_of_filter in Hin as [_ Hin]. destruct Hi as [Hq _ _].
    by eapply tid_slot, (q_bucket_tid _ _ _ Hq _ t (hash_in_range x)). }
  split_and!; [done | |].
  - rewrite Hr, (lk_st _ _ _ _ Hlk) by done. unfold wake_ready, wake_st.
    case_bool_decide; [by rewrite fu_eq | done].
  - intros u Hu Hne. rewrite (lk_st _ _ _ _ Hlk) by done. unfold wake_st.
    case_bool_decide; [by apply fu_ne | done].
Qed.

(** [sleepq_wake_all] leaves no thread waiting for the resource and none
    of the others touched; the sleeping ones join the ready queue in the order
    in which they have been waiting. *)
Theorem sleepq_wake_all_spec s x :
  sched_inv s → x ≠ 0 →
  wp (sleepq_wake_all x) (λ _ s', sched_inv s' ∧ waiters s' x = [] ∧
    (∀ y, y ≠ 0 → y ≠ x → waiters s' y = waiters s y) ∧
    ready_list s' = ready_list s ++ filter (λ t, st_of s t = THREAD_SLEEPING) (waiters s x)) s.
Proof.
  intros Hi Hx. eapply wp_mono; [by apply sleepq_wake_all_queue |]. intros [] s' (? & ? & ? & ? & _). by split_and!.
Qed.

(** *** Every wake-up reaches the thread that has waited longest *)

(** The thread waits for nothing, and is in the ready queue or runs. *)
Definition woken (s : sched) (t : Z) : Prop :=
  so_of s t = 0 ∧ (t ∈ ready_list s ∨ t ∈ scheduler_current_thread s ∧ st_of s t = THREAD_RUNNING).

Lemma waiting_thread s x t :
  sched_inv s → t ∈ waiters s x →
  tid t ∧ so_of s t = x ∧ (x ≠ 0 → st_of s t = THREAD_SLEEPING ∨ st_of s t = THREAD_RUNNING).
Proof.
  intros [Hq Hs _] [E Hin]%list_elem_of_filter. pose proof (q_bucket_tid _ _ _ Hq _ t (hash_in_range x) Hin) as Ht.
  split; [done |]. split; [done |]. intros Hx. apply (st_waiting _ _ _ _ _ Hs); [done |]. unfold so_of. congruence.
Qed.

(** A thread in a state it is woken to is where it should be. *)
Lemma woken_intro s t :
  sched_inv s → tid t → so_of s t = 0 → st_of s t = THREAD_READY ∨ st_of s t = THREAD_RUNNING → woken s t.
Proof.
  intros [_ Hs _] Ht Hso [Hst|Hst]; (split; [done |]); [left; by apply (st_ready _ _ _ _ _ Hs) | right].
  split; [| done]. apply (st_running _ _ _ _ _ Hs); [done | by left].
Qed.

(** A thread that was woken while it ran is not put to sleep when it gives up
    its processor: it stays ready, or runs on. *)
Lemma woken_switch s t cpu :
  sched_inv s → tid t → 0 ≤ cpu < 4 → woken s t → st_of s t = THREAD_RUNNING → scheduler_current_thread s !! Z.to_nat cpu = Some t →
  wp (thread_switch cpu) (λ _ s', sched_inv s' ∧ so_of s' t = 0 ∧
    (t ∈ ready_list s' ∨ scheduler_current_thread s' !! Z.to_nat cpu = Some t)) s.
Proof.
  intros Hi Ht Hcpu [Hso _] Hst Hc. eapply wp_mono; [by apply (schedule_wp s _ _ cpu Hi) |].
  intros [] s' (c & u & Hcc & Eu & Hbec). assert (c = t) as -> by congruence.
  split; [eapply rep_inv, Hbec |]. split; [by rewrite (lk_so _ _ _ _ (proj2 Hbec)) by (by apply tid_slot) |].
  unfold leave_ready in Hbec, Eu. rewrite Hst, Hso in Hbec, Eu. unfold tid in Ht.
  rewrite (proj2 (Z.eqb_neq t 0)) in Hbec, Eu by lia. simpl in Hbec, Eu.
  destruct Hbec as [Hrep Hlk]. rewrite (proj1 (rep_lists _ _ _ Hrep)), (lk_cur _ _ _ _ Hlk).
  destruct (ready_list s) as [|a q]; simpl in *.
  - right. subst u. apply list_lookup_insert_eq. by eapply lookup_lt_Some.
  - left. set_solver.
Qed.

(** The wake-ups of a resource. *)
Definition is_wake (x : Z) (o : op) : bool := match o with OWake y => y =? x | _ => false end.
Definition is_wake_all (x : Z) (o : op) : bool := match o with OWakeAll y => y =? x | _ => false end.

(** What an operation does to a thread at place [k] of a queue. *)
Definition queue_step (x : Z) (k : nat) (t : Z) (o : op) (s' : sched) : Prop :=
  if is_wake_all x o then woken s' t
  else if is_wake x o then match k with O => woken s' t | S k => waiters s' x !! k = Some t end
  else waiters s' x !! k = Some t.

Section wakeups.
Context (stacks finish_addr : Z).
Abbreviation run_op := (run_op stacks finish_addr).
Abbreviation sexec := (sexec stacks finish_addr).

Lemma waiters_same s s' r x :
  sched_inv s → rep s' r (bucket s) → (∀ u, slot u → so_of s' u = so_of s u) → waiters s' x = waiters s x.
Proof.
  intros Hi Hrep Hso. rewrite (rep_waiters _ _ _ x Hrep), (rep_waiters _ _ _ x Hi).
  apply filter_ext_in. intros u Hu. rewrite Hso; [done |]. apply tid_slot.
  by eapply (q_bucket_tid _ _ _ (rep_queues _ _ _ Hi) _ u (hash_in_range x)).
Qed.

Lemma wake_queue_step s x y k t :
  sched_inv s → y ≠ 0 → x ≠ 0 → waiters s x !! k = Some t → wp (sleepq_wake y) (λ _ s', queue_step x k t (OWake y) s') s.
Proof.
  intros Hi Hy Hx Hk. eapply wp_mono; [by apply sleepq_wake_queue |]. intros [] s' (Hi' & Hw & Hpost).
  unfold queue_step. cbn [is_wake_all is_wake]. rewrite (Hw x Hx), (Z.eqb_sym x y).
  destruct (Z.eqb_spec y x) as [->|]; [| done]. destruct (waiters s x) as [|u ws] eqn:Ew; [done |].
  destruct k as [|k]; [| done]. injection Hk as ->. destruct Hpost as [_ Hlk].
  destruct (waiting_thread s x t Hi) as (Ht & _ & Hst); [rewrite Ew; left |]. pose proof (tid_slot _ Ht) as Hsl.
  apply woken_intro; [done | done | by rewrite (lk_so _ _ _ _ Hlk), fu_eq |].
  rewrite (lk_st _ _ _ _ Hlk) by done. unfold wake_st. destruct (Hst Hx) as [E|E]; rewrite E; simpl; [left; by rewrite fu_eq | by right].
Qed.

Lemma wake_all_step s x y k t :
  sched_inv s → y ≠ 0 → x ≠ 0 → waiters s x !! k = Some t → wp (sleepq_wake_all y) (λ _ s', queue_step x k t (OWakeAll y) s') s.
Proof.
  intros Hi Hy Hx Hk. eapply wp_mono; [by apply sleepq_wake_all_queue |]. intros [] s' (Hi' & _ & Hw & _ & Hlk).
  unfold queue_step. cbn [is_wake_all is_wake]. destruct (Z.eqb_spec y x) as [->|]; [| by rewrite Hw].
  destruct (waiting_thread s x t Hi) as (Ht & Hso & Hst); [by eapply list_elem_of_lookup_2 |]. pose proof (tid_slot _ Ht) as Hsl.
  apply woken_intro; [done | done | |].
  - rewrite (lk_so _ _ _ _ Hlk) by done. unfold all_so. by rewrite Hso, Z.eqb_refl.
  - rewrite (lk_st _ _ _ _ Hlk) by done. unfold all_st. rewrite Hso, Z.eqb_refl.
    destruct (Hst Hx) as [->| ->]; simpl; [by left | by right].
Qed.

Lemma queue_step_wp s o x k t :
  sched_inv s → op_pre s o → x ≠ 0 → waiters s x !! k = Some t → wp (run_op o) (λ _ s', queue_step x k t o s') s.
Proof.
  intros Hi Hpre Hx Hk. destruct o as [func arg|u|cpu|cpu y|y|y|cpu intr]; cbn [run_op op_pre] in *.
  - wp_step. eapply wp_mono; [by apply (thread_create_wp stacks finish_addr s _ _ func arg Hi) |].
    intros u s' [(_ & -> & _)|(Hu & Hst & [Hrep Hlk] & _)]; wp_step; unfold queue_step; cbn [is_wake_all is_wake]; [done |].
    rewrite (waiters_same s s' _ x Hi Hrep); [done |]. intros v Hv. rewrite (lk_so _ _ _ _ Hlk) by done. unfold fu.
    destruct (Z.eqb_spec v u) as [->|]; [| done]. destruct (decide (so_of s u = 0)) as [|Hne]; [done |].
    destruct (st_waiting _ _ _ _ _ (rep_states _ _ _ Hi) u Hu Hne); congruence.
  - destruct Hpre as [Hu Hst]. eapply wp_mono; [by apply (add_ready_wp s _ _ u Hi) |]. intros [] s' [Hrep Hlk]. unfold queue_step; cbn [is_wake_all is_wake].
    rewrite (waiters_same s s' _ x Hi Hrep); [done |]. intros v Hv. by rewrite (lk_so _ _ _ _ Hlk).
  - eapply wp_mono; [by apply (schedule_wp s _ _ cpu Hi) |]. intros [] s' (c & u & _ & _ & [Hrep Hlk]). unfold queue_step; cbn [is_wake_all is_wake].
    rewrite (waiters_same s s' _ x Hi Hrep); [done |]. intros v Hv. by rewrite (lk_so _ _ _ _ Hlk).
  - destruct Hpre as (Hy & u & (? & ? & ? & ?) & ?). eapply wp_mono; [by apply (sleepq_add_queue s cpu 0 y u) |].
    intros [] s' (_ & Hw & _). unfold queue_step; cbn [is_wake_all is_wake]. rewrite (Hw x Hx). case_match; [by apply lookup_app_l_Some | done].
  - by apply wake_queue_step.
  - by apply wake_all_step.
  - destruct Hpre as (u & (Hcpu & Hc & Hu & Hso) & Hpt). eapply wp_mono; [by apply (thread_finish_wp s _ _ cpu u intr Hi) |].
    intros [] s' (r' & Hrep & Hso' & _). unfold queue_step; cbn [is_wake_all is_wake]. by rewrite (waiters_same s s' _ x Hi Hrep).
Qed.

Lemma enough_wakeups s x k t l s' :
  sched_inv s → x ≠ 0 → sexec s l s' → waiters s x !! k = Some t →
  existsb (is_wake_all x) l = true ∨ (k < length (filter (λ o, is_wake x o = true) l))%nat →
  ∃ l1 l2 sm, l = l1 ++ l2 ∧ sexec s l1 sm ∧ sexec sm l2 s' ∧ sched_inv sm ∧ woken sm t.
Proof.
  intros Hi Hx Hex. revert k Hi. induction Hex as [s|s o s1 l s' Hpre Hrun Hex IH]; intros k Hi Hk Hn;
    [simpl in Hn; destruct Hn; [done | lia] |].
  pose proof (run_op_wp stacks finish_addr s o Hi Hpre) as Hw1. pose proof (queue_step_wp s o x k t Hi Hpre Hx Hk) as Hw2.
  unfold wp in Hw1, Hw2. rewrite Hrun in Hw1, Hw2. destruct Hw1 as [Hi1 _].
  assert (Hone : woken s1 t → ∃ l1 l2 sm, o :: l = l1 ++ l2 ∧ sexec s l1 sm ∧ sexec sm l2 s' ∧ sched_inv sm ∧ woken sm t).
  { intros Hwk. exists [o], l, s1. split_and!; [done | by eapply exec_cons; [| | constructor] | done | done | done]. }
  assert (Hnext : ∀ k', waiters s1 x !! k' = Some t →
    existsb (is_wake_all x) l = true ∨ (k' < length (filter (λ o, is_wake x o = true) l))%nat →
    ∃ l1 l2 sm, o :: l = l1 ++ l2 ∧ sexec s l1 sm ∧ sexec sm l2 s' ∧ sched_inv sm ∧ woken sm t).
  { intros k' H1 H2. destruct (IH k' Hi1 H1 H2) as (l1 & l2 & sm & -> & Hm & ? & ? & ?).
    exists (o :: l1), l2, sm. split_and!; [done | by eapply exec_cons | done | done | done]. }
  unfold queue_step in Hw2. cbn [existsb] in Hn. rewrite filter_cons in Hn. destruct (is_wake_all x o); [by apply Hone |].
  simpl orb in Hn. destruct (is_wake x o); [destruct k as [|k]; [by apply Hone |] |].
  - rewrite decide_True in Hn by done. apply (Hnext k); [done |]. destruct Hn as [?|Hn]; [by left | right; simpl in Hn; lia].
  - rewrite decide_False in Hn by done. by apply (Hnext k).
Qed.
End wakeups.

(** C37: no wake-up is lost.  A thread queues itself for a resource, behind
    the threads that already wait; then, in any order, any operations of the
    kernel run on all processors, those included that take the thread's
    processor away from it.  If among them is a [sleepq_wake_all] of the
    resource, or are more calls of [sleepq_wake] than there were threads before
    it, then at some point it no longer waits, and is in the ready queue or has
    not stopped running; and in the latter case, if it gives up its processor
    then, as it was about to, it is not put to sleep but stays ready or runs
    on. *)
Theorem no_lost_wakeup stacks finish_addr s cpu x t s1 l s2 :
  sched_inv s → x ≠ 0 → active s cpu t → st_of s t = THREAD_RUNNING →
  sleepq_add cpu 0 x s = Ok (tt, s1) → sexec stacks finish_addr s1 l s2 →
  existsb (is_wake_all x) l = true ∨ (length (waiters s x) < length (filter (λ o, is_wake x o = true) l))%nat →
  ∃ l1 l2 sm, l = l1 ++ l2 ∧ sexec stacks finish_addr s1 l1 sm ∧ sexec stacks finish_addr sm l2 s2 ∧
    sched_inv sm ∧ so_of sm t = 0 ∧ (t ∉ waiters sm x) ∧
    (t ∈ ready_list sm ∨ (∃ c, 0 ≤ c < 4 ∧ scheduler_current_thread sm !! Z.to_nat c = Some t ∧
       wp (thread_switch c) (λ _ s', sched_inv s' ∧ so_of s' t = 0 ∧
         (t ∈ ready_list s' ∨ scheduler_current_thread s' !! Z.to_nat c = Some t)) sm)).
Proof.
  intros Hi Hx (Hcpu & Hc & Ht & Hso) Hst Hadd Hex Hn.
  pose proof (sleepq_add_queue s cpu 0 x t Hi Hcpu eq_refl Hx Hc Ht Hso Hst) as Hw. unfold wp in Hw. rewrite Hadd in Hw.
  destruct Hw as (Hi1 & Hw & _). specialize (Hw x Hx). rewrite Z.eqb_refl in Hw.
  destruct (enough_wakeups stacks finish_addr s1 x (length (waiters s x)) t l s2 Hi1 Hx Hex) as (l1 & l2 & sm & El & Hl1 & Hl2 & Hm & Hwk).
  { rewrite Hw, lookup_app_r, Nat.sub_diag by lia. done. } { done. }
  exists l1, l2, sm. pose proof Hwk as [Hso0 Hwhere]. split_and!; try done.
  { intros Hin. destruct (waiting_thread sm x t Hm Hin) as (_ & ? & _). congruence. }
  destruct Hwhere as [?|[[c Hcc]%list_elem_of_lookup Hrun]]; [by left | right].
  assert (Hlt : (c < 4)%nat) by (apply lookup_lt_Some in Hcc; by rewrite (q_cur_len _ _ _ (rep_queues _ _ _ Hm)) in Hcc).
  exists (Z.of_nat c). rewrite Nat2Z.id. split; [lia |]. split; [done |].
  pose proof (woken_switch sm t (Z.of_nat c) Hm Ht ltac:(lia) Hwk Hrun) as Hsw. rewrite Nat2Z.id in Hsw. by apply Hsw.
Qed.

(** the scheduler is round robin.  The thread that leaves the processor is
    freed when it is dying, put to sleep when it waits, and otherwise goes to
    the end of the ready queue (the idle thread does not); then the head of
    the queue runs, or the idle thread when the queue is empty. *)
Theorem schedule_round_robin s cpu c :
  sched_inv s → 0 ≤ cpu < 4 → scheduler_current_thread s !! Z.to_nat cpu = Some c →
  wp (scheduler_schedule cpu) (λ _ s', sched_inv s' ∧
    let q := if bool_decide (st_of s c = THREAD_DYING) || negb (so_of s c =? 0) || (c =? 0)
             then ready_list s else ready_list s ++ [c] in
    let t := default IDLE_THREAD_TID (head q) in
    ready_list s' = tail q ∧
    scheduler_current_thread s' = <[Z.to_nat cpu := t]> (scheduler_current_thread s) ∧
    st_of s' t = THREAD_RUNNING ∧
    (c ≠ t → st_of s' c = if bool_decide (st_of s c = THREAD_DYING) then THREAD_FREE
                          else if so_of s c =? 0 then THREAD_READY else THREAD_SLEEPING) ∧
    (∀ u, slot u → u ≠ c → u ≠ t → st_of s' u = st_of s u) ∧
    (∀ x, x ≠ 0 → waiters s' x = waiters s x)) s.
Proof.
  intros Hi Hcpu Hc. eapply wp_mono; [by apply (schedule_wp s _ _ cpu Hi) |].
  intros [] s' (c' & t & Hc' & Et & Hbec). assert (c' = c) as -> by congruence.
  split; [eapply rep_inv, Hbec |]. intros q t'. fold (leave_ready (st_of s) (so_of s) (ready_list s) c) in q.
  assert (t' = t) as -> by (subst t; done). pose proof Hbec as [Hrep Hlk].
  pose proof Hi as [_ Hs _]. pose proof Hrep as [_ Hs' _].
  assert (Hcs : slot c) by (eapply (st_cur_slot _ _ _ _ _ Hs), list_elem_of_lookup_2, Hc).
  assert (Hts : slot t).
  { apply (st_cur_slot _ _ _ _ _ Hs'). rewrite (lk_cur _ _ _ _ Hlk). apply list_elem_of_lookup.
    exists (Z.to_nat cpu). apply list_lookup_insert_eq. by eapply lookup_lt_Some. }
  split_and!; [by eapply rep_lists | apply Hlk | | | |].
  - by rewrite (lk_st _ _ _ _ Hlk), fu_eq.
  - intros Hne. rewrite (lk_st _ _ _ _ Hlk), fu_ne by done. unfold leave. by rewrite fu_eq.
  - intros u Hu Huc Hut. rewrite (lk_st _ _ _ _ Hlk), fu_ne by done. by apply leave_ne.
  - intros x Hx. rewrite (becomes_waiters _ _ _ _ _ _ _ Hbec) by done. by rewrite <- (rep_waiters s _ _ x Hi).
Qed.

(** ** Witnesses *)

Definition example_bss : sched :=
  mk_sched (replicate 32 thread0) 0 (-1) (-1) (replicate 4 7) (replicate 127 9).

Lemma example_bss_ok : bss example_bss.
Proof. by split_and!. Qed.

(** The machine after start-up, and with three more threads started, thread 1
    running on processor 0, thread 2 on processor 1, asleep on 0x80012300. *)
Definition after (m : K sched unit) (s : sched) : sched :=
  match m s with Ok (_, s') => s' | _ => s end.

Definition example_boot : sched := after (init_threads 0x80020000 0x80001000 0x80001100 0x80001200) example_bss.

Definition example_ops : list op :=
  [OCreate 1 2; ORun 2; OCreate 3 4; ORun 3; OSchedule 0; OSchedule 1; OSleep 1 0x80012300;
   OSchedule 1; OSchedule 0].

Definition example_state : sched :=
  foldl (λ s o, after (run_op 0x80020000 0x80001100 o) s) example_boot example_ops.

Lemma after_wp m Q s : wp m Q s → Q tt (after m s).
Proof. unfold wp, after. destruct (m s) as [[[] s']| | | |]; done. Qed.

Lemma example_boot_inv : sched_inv example_boot.
Proof.
  destruct (after_wp _ _ _ (init_threads_wp 0x80020000 0x80001000 0x80001100 0x80001200
    example_bss example_bss_ok)) as (t & _ & Hrep).
  exact (rep_inv _ _ _ Hrep).
Qed.

(** Decide the conditions of a concrete run by evaluation. *)
Ltac example_pre :=
  vm_compute; repeat split; try discriminate; try lia;
  try (eexists; repeat split; try reflexivity; discriminate).

Lemma example_exec : sexec 0x80020000 0x80001100 example_boot example_ops example_state.
Proof.
  repeat (eapply exec_cons; [example_pre | vm_compute; reflexivity |]). vm_compute. apply exec_nil.
Qed.

Lemma example_state_inv : sched_inv example_state.
Proof. eapply sexec_inv; [apply example_boot_inv | apply example_exec]. Qed.

Lemma sched_safe_witness :
  sched_inv example_state ∧
  ∀ o, op_pre example_state o → is_Ok (run_op 0x80020000 0x80001100 o example_state).
Proof.
  apply (sched_safe 0x80020000 0x80001100 0x80001000 0x80001200 example_bss example_boot example_ops).
  - exact example_bss_ok.
  - vm_compute. reflexivity.
  - exact example_exec.
Defined.

Lemma ready_thread_runs_witness :
  ready_list example_boot = [1] ∧
  ∃ l1 l2 sm, example_ops = l1 ++ l2 ∧ sexec 0x80020000 0x80001100 example_boot l1 sm ∧
    sexec 0x80020000 0x80001100 sm l2 example_state ∧ 1 ∈ scheduler_current_thread sm.
Proof.
  split; [vm_compute; reflexivity |].
  apply (ready_thread_runs 0x80020000 0x80001100 _ _ _ 0%nat 1 example_boot_inv example_exec).
  - vm_compute. reflexivity.
  - vm_compute. lia.
Defined.

Lemma sleepq_wake_fifo_witness :
  waiters example_state 0x80012300 = [2] ∧
  wp (sleepq_wake 0x80012300) (λ _ s', sched_inv s' ∧
    (∀ y, y ≠ 0 → y ≠ 0x80012300 → waiters s' y = waiters example_state y) ∧
    match waiters example_state 0x80012300 with
    | [] => s' = example_state
    | t :: ws => waiters s' 0x80012300 = ws ∧
        (if bool_decide (st_of example_state t = THREAD_SLEEPING)
         then st_of s' t = THREAD_READY ∧ ready_list s' = ready_list example_state ++ [t]
         else st_of s' t = st_of example_state t ∧ ready_list s' = ready_list example_state) ∧
        ∀ u, slot u → u ≠ t → st_of s' u = st_of example_state u
    end) example_state.
Proof.
  split; [vm_compute; reflexivity |].
  apply (sleepq_wake_fifo example_state 0x80012300 example_state_inv). discriminate.
Defined.

Lemma sleepq_wake_all_spec_witness :
  wp (sleepq_wake_all 0x80012300) (λ _ s', sched_inv s' ∧ waiters s' 0x80012300 = [] ∧
    (∀ y, y ≠ 0 → y ≠ 0x80012300 → waiters s' y = waiters example_state y) ∧
    ready_list s' = ready_list example_state ++
      filter (λ t, st_of example_state t = THREAD_SLEEPING) (waiters example_state 0x80012300)) example_state.
Proof. apply (sleepq_wake_all_spec example_state 0x80012300 example_state_inv). discriminate. Defined.

(** A thread that is queued for the resource for which thread 2 already sleeps
    needs two wake-ups; in between another processor is scheduled. *)
Definition wake_ops : list op := [OWake 0x80012300; OSchedule 1; OWake 0x80012300; OSchedule 0].
Definition example_queued : sched := after (sleepq_add 0 0 0x80012300) example_state.
Definition example_wakes : sched := foldl (λ s o, after (run_op 0x80020000 0x80001100 o) s) example_queued wake_ops.

Lemma no_lost_wakeup_witness :
  length (waiters example_state 0x80012300) = 1%nat ∧
  ∃ l1 l2 sm, wake_ops = l1 ++ l2 ∧ sexec 0x80020000 0x80001100 example_queued l1 sm ∧ sexec 0x80020000 0x80001100 sm l2 example_wakes ∧
    sched_inv sm ∧ so_of sm 1 = 0 ∧ (1 ∉ waiters sm 0x80012300) ∧
    (1 ∈ ready_list sm ∨ (∃ c, 0 ≤ c < 4 ∧ scheduler_current_thread sm !! Z.to_nat c = Some 1 ∧
       wp (thread_switch c) (λ _ s', sched_inv s' ∧ so_of s' 1 = 0 ∧
         (1 ∈ ready_list s' ∨ scheduler_current_thread s' !! Z.to_nat c = Some 1)) sm)).
Proof.
  split; [vm_compute; reflexivity |].
  apply (no_lost_wakeup 0x80020000 0x80001100 example_state 0 0x80012300 1 example_queued wake_ops example_wakes example_state_inv).
  - discriminate.
  - vm_compute. repeat split; discriminate.
  - vm_compute. reflexivity.
  - vm_compute. reflexivity.
  - repeat (eapply exec_cons; [example_pre | vm_compute; reflexivity |]). vm_compute. apply exec_nil.
  - right. vm_compute. lia.
Defined.

Lemma schedule_round_robin_witness :
  wp (scheduler_schedule 0) (λ _ s', sched_inv s' ∧
    let q := if bool_decide (st_of example_state 1 = THREAD_DYING) || negb (so_of example_state 1 =? 0) || (1 =? 0)
             then ready_list example_state else ready_list example_state ++ [1] in
    let t := default IDLE_THREAD_TID (head q) in
    ready_list s' = tail q ∧
    scheduler_current_thread s' = <[0%nat := t]> (scheduler_current_thread example_state) ∧
    st_of s' t = THREAD_RUNNING ∧
    (1 ≠ t → st_of s' 1 = if bool_decide (st_of example_state 1 = THREAD_DYING) then THREAD_FREE
                          else if so_of example_state 1 =? 0 then THREAD_READY else THREAD_SLEEPING) ∧
    (∀ u, slot u → u ≠ 1 → u ≠ t → st_of s' u = st_of example_state u) ∧
    (∀ x, x ≠ 0 → waiters s' x = waiters example_state x)) example_state.
Proof.
  apply (schedule_round_robin example_state 0 1 example_state_inv).
  - lia.
  - vm_compute. reflexivity.
Defined.
