(* ===== verification/Devices.v ===== *)
(** * Devices and interrupts (src/buenos/drivers/device.c, drivers.c, metadev.c
    and src/buenos/kernel/interrupt.c)

    At start-up the kernel looks at the descriptors the machine provides, finds
    a driver for each and calls its init function, which makes a [device_t] and
    registers an interrupt handler.  An interrupt calls every handler whose mask
    meets the cause.  Of the init functions of the drivers this file has what
    they do to the kernel's tables; the devices themselves are [Tty] and
    [Disk]. *)

From S2P Require Import Prelude Kmalloc Sched SchedSpec.
Local Open Scope Z_scope.

Definition CONFIG_MAX_DEVICES : Z := 128.
Definition YAMS_TYPECODE_TTY : Z := 0x201.
Definition YAMS_TYPECODE_RTC : Z := 0x102.
Definition YAMS_TYPECODE_DISK : Z := 0x301.
Definition YAMS_TYPECODE_MEMINFO : Z := 0x101.
Definition YAMS_TYPECODE_SHUTDOWN : Z := 0x103.
Definition YAMS_TYPECODE_CPUSTATUS : Z := 0xc00.
Definition YAMS_TYPECODE_CPUMASK : Z := 0xffffff00.
Definition INTERRUPT_CAUSE_SOFTWARE_0 : Z := Z.shiftl 1 8.
Definition INTERRUPT_CAUSE_HARDWARE_5 : Z := Z.shiftl 1 15.
Definition SIZEOF_DEVICE : Z := 20.
Definition SIZEOF_GCD : Z := 12.
Definition SIZEOF_TTY : Z := 4116.
Definition SIZEOF_SPINLOCK : Z := 4.
Definition SIZEOF_GBD : Z := 20.
Definition SIZEOF_DISK : Z := 12.

(** ** State *)

(** The interrupt handlers of the drivers. *)
Inductive handler := tty_interrupt | disk_interrupt | cpustatus_interrupt.

(** [interrupt_entry_t]; a device is its address, 0 for the null pointer. *)
Record interrupt_entry := mk_ientry { ie_device : Z; ie_irq : Z; ie_handler : option handler }.

(** [device_t]: its address and the fields other code looks at. *)
Record device := mk_device { dev_addr : Z; dev_io_address : Z; dev_type : Z }.

(** The static variables: of interrupt.c, of device.c, of the init functions,
    and the kernel's memory. *)
Record machine := mk_machine {
  interrupt_stacks : list Z;
  interrupt_handlers : list interrupt_entry;
  is_in_interrupt : bool;
  device_table : list (option device);
  number_of_devices : Z;
  tty_inits : Z;
  rtc_done : bool; meminfo_done : bool; shutdown_done : bool;
  m_kmalloc : kmalloc_state;
}.

Definition set_handlers (v : list interrupt_entry) (s : machine) : machine :=
  mk_machine (interrupt_stacks s) v (is_in_interrupt s) (device_table s) (number_of_devices s) (tty_inits s)
    (rtc_done s) (meminfo_done s) (shutdown_done s) (m_kmalloc s).
Definition set_stacks (v : list Z) (s : machine) : machine :=
  mk_machine v (interrupt_handlers s) (is_in_interrupt s) (device_table s) (number_of_devices s) (tty_inits s)
    (rtc_done s) (meminfo_done s) (shutdown_done s) (m_kmalloc s).
Definition set_in_interrupt (v : bool) (s : machine) : machine :=
  mk_machine (interrupt_stacks s) (interrupt_handlers s) v (device_table s) (number_of_devices s) (tty_inits s)
    (rtc_done s) (meminfo_done s) (shutdown_done s) (m_kmalloc s).
Definition set_devices (v : list (option device)) (n : Z) (s : machine) : machine :=
  mk_machine (interrupt_stacks s) (interrupt_handlers s) (is_in_interrupt s) v n (tty_inits s)
    (rtc_done s) (meminfo_done s) (shutdown_done s) (m_kmalloc s).
Definition set_ttys (v : Z) (s : machine) : machine :=
  mk_machine (interrupt_stacks s) (interrupt_handlers s) (is_in_interrupt s) (device_table s) (number_of_devices s) v
    (rtc_done s) (meminfo_done s) (shutdown_done s) (m_kmalloc s).
Definition set_once (r m d : bool) (s : machine) : machine :=
  mk_machine (interrupt_stacks s) (interrupt_handlers s) (is_in_interrupt s) (device_table s) (number_of_devices s) (tty_inits s)
    r m d (m_kmalloc s).
Definition set_memory (v : kmalloc_state) (s : machine) : machine :=
  mk_machine (interrupt_stacks s) (interrupt_handlers s) (is_in_interrupt s) (device_table s) (number_of_devices s) (tty_inits s)
    (rtc_done s) (meminfo_done s) (shutdown_done s) v.
Definition alloc (bytes : Z) : K machine Z := zoom m_kmalloc set_memory (kmalloc bytes).

(** ** Interrupt handlers *)

(** The loop of [interrupt_register] that looks for a free entry from [i] on;
    the entry is read before [i] is tested. *)
Fixpoint free_entry (fuel : nat) (table : list interrupt_entry) (i : Z) : res Z :=
  match fuel with
  | O => NoFuel
  | S fuel' =>
      e ← aget table i;
      if negb (ie_device e =? 0) && (i <? CONFIG_MAX_DEVICES) then free_entry fuel' table (i + 1) else Ok i
  end.

Definition interrupt_register (irq : Z) (h : handler) (dev : Z) : K machine unit :=
  if negb (Z.land irq (Z.lxor INTERRUPT_MASK_ALL 0xffffffff) =? 0) then panic "interrupt_register"
  else
    s ← gets id;
    i ← pure (free_entry (S (length (interrupt_handlers s))) (interrupt_handlers s) 0);
    if CONFIG_MAX_DEVICES <=? i then panic "Interrupt handler table is full"
    else
      l ← pure (aset (interrupt_handlers s) i (mk_ientry dev irq (Some h)));
      modify (set_handlers l).

(** The loops of [interrupt_init] that allocate the stacks, from processor [i]
    on, and empty the table. *)
Fixpoint alloc_stacks (k : nat) (i : Z) : K machine unit :=
  match k with
  | O => mret tt
  | S k' =>
      ret ← alloc PAGE_SIZE;
      if ret =? 0 then panic "Unable to allocate interrupt stacks"
      else
        s ← gets id;
        l ← pure (aset (interrupt_stacks s) i (ret + PAGE_SIZE - 4));
        modify (set_stacks l);;
        alloc_stacks k' (i + 1)
  end.
Definition clear_handlers : K machine unit :=
  modify (λ s, set_handlers (map (λ _, mk_ientry 0 0 None) (interrupt_handlers s)) s).

(** The code of the three vectors, which is assembler, is not copied. *)
Definition interrupt_init (num_cpus : Z) : K machine unit :=
  if (num_cpus <? 1) || (CONFIG_MAX_CPUS <? num_cpus) then panic "Too few or many CPUs found"
  else alloc_stacks (Z.to_nat num_cpus) 0;; clear_handlers.

(** ** Init functions *)

(** [1 << (desc->irq + 10)] *)
Definition irq_mask (d : io_descriptor) : Z := u32 (Z.shiftl 1 (u32 (io_irq d + 10))).

Definition tty_device_init (d : io_descriptor) : K machine (option device) :=
  dev ← alloc SIZEOF_DEVICE;
  _ ← alloc SIZEOF_GCD;
  _ ← alloc SIZEOF_TTY;
  n ← gets tty_inits;
  (if n =? 0 then mret tt else _ ← alloc SIZEOF_SPINLOCK; mret tt);;
  modify (λ s, set_ttys (tty_inits s + 1) s);;
  interrupt_register (irq_mask d) tty_interrupt dev;;
  mret (Some (mk_device dev (io_area_base d) (io_type d))).

Definition disk_device_init (d : io_descriptor) : K machine (option device) :=
  dev ← alloc SIZEOF_DEVICE;
  _ ← alloc SIZEOF_GBD;
  _ ← alloc SIZEOF_DISK;
  interrupt_register (irq_mask d) disk_interrupt dev;;
  mret (Some (mk_device dev (io_area_base d) (io_type d))).

Definition cpustatus_init (d : io_descriptor) : K machine (option device) :=
  dev ← alloc SIZEOF_DEVICE;
  _ ← alloc SIZEOF_SPINLOCK;
  interrupt_register (irq_mask d) cpustatus_interrupt dev;;
  mret (Some (mk_device dev (io_area_base d) (io_type d))).

(** The addresses of [system_rtc], [system_meminfo] and [system_shutdown]. *)
Section devices.
Context (system_rtc system_meminfo system_shutdown : Z).

Definition rtc_init (d : io_descriptor) : K machine (option device) :=
  done ← gets rtc_done;
  if done : bool then panic "Hardware failure: multiple RTC devices"
  else modify (λ s, set_once true (meminfo_done s) (shutdown_done s) s);;
    mret (Some (mk_device system_rtc (io_area_base d) (io_type d))).
Definition meminfo_init (d : io_descriptor) : K machine (option device) :=
  done ← gets meminfo_done;
  if done : bool then panic "Hardware failure: multiple MEMINFO devices"
  else modify (λ s, set_once (rtc_done s) true (shutdown_done s) s);;
    mret (Some (mk_device system_meminfo (io_area_base d) (io_type d))).
Definition shutdown_init (d : io_descriptor) : K machine (option device) :=
  done ← gets shutdown_done;
  if done : bool then panic "Hardware failure: multiple SHUTDOWN devices"
  else modify (λ s, set_once (rtc_done s) (meminfo_done s) true s);;
    mret (Some (mk_device system_shutdown (io_area_base d) (io_type d))).

(** [drivers_available] of drivers.c, without the names and the last entry. *)
Definition drivers_available : list (Z * (io_descriptor → K machine (option device))) :=
  [ (YAMS_TYPECODE_TTY, tty_device_init);
    (YAMS_TYPECODE_RTC, rtc_init);
    (YAMS_TYPECODE_MEMINFO, meminfo_init);
    (YAMS_TYPECODE_SHUTDOWN, shutdown_init);
    (YAMS_TYPECODE_CPUSTATUS, cpustatus_init);
    (YAMS_TYPECODE_DISK, disk_device_init) ].

(** ** device.c *)

Definition find_driver (typecode : Z) : option (io_descriptor → K machine (option device)) :=
  let typecode := if Z.land typecode YAMS_TYPECODE_CPUMASK =? YAMS_TYPECODE_CPUSTATUS
                  then YAMS_TYPECODE_CPUSTATUS else typecode in
  option_map snd (List.find (λ p, fst p =? typecode) drivers_available).

(** The loop of [device_init] over the descriptors. *)
Fixpoint init_loop (descs : list io_descriptor) : K machine unit :=
  match descs with
  | [] => mret tt
  | d :: descs' =>
      if io_type d =? 0 then init_loop descs'
      else
        match find_driver (io_type d) with
        | None => init_loop descs'
        | Some init =>
            dev ← init d;
            s ← gets id;
            l ← pure (aset (device_table s) (number_of_devices s) dev);
            modify (set_devices l (number_of_devices s));;
            match dev with
            | None => init_loop descs'
            | Some _ =>
                modify (set_devices l (number_of_devices s + 1));;
                if CONFIG_MAX_DEVICES <=? number_of_devices s + 1 then mret tt else init_loop descs'
            end
        end
  end.

Definition device_init (descs : list io_descriptor) : K machine unit := init_loop (take YAMS_MAX_DEVICES descs).

(** The loop of [device_get] from entry [i] on, [n] turns. *)
Fixpoint get_device (k : nat) (table : list (option device)) (i typecode n : Z) : res (option device) :=
  match k with
  | O => Ok None
  | S k' =>
      e ← aget table i;
      match e with
      | None => Undef
      | Some d =>
          if dev_type d =? typecode then
            if n =? 0 then Ok (Some d) else get_device k' table (i + 1) typecode (n - 1)
          else get_device k' table (i + 1) typecode n
      end
  end.

Definition device_get (typecode n : Z) : K machine (option device) :=
  s ← gets id; pure (get_device (Z.to_nat (number_of_devices s)) (device_table s) 0 typecode n).

Definition cpustatus_count (descs : list io_descriptor) : Z :=
  Z.of_nat (length (filter (λ d, Z.land (io_type d) 0xFFFFFF00 = YAMS_TYPECODE_CPUSTATUS) (take 128 descs))).

End devices.

(** ** Interrupts *)

Section interrupts.
(** The handlers work on the drivers' state [W] and on the scheduler. *)
Context {W : Type} (run_handler : handler → Z → K (W * sched) unit).

(** The tables, the state the handlers work on, the address space identifier of
    the TLB, and the processor's Cause register with its pending software
    interrupts. *)
Record istate := mk_istate { i_machine : machine; i_world : W * sched; tlb_asid : Z; cp0_cause : Z }.

Definition on_machine {A} (m : K machine A) : K istate A :=
  zoom i_machine (λ x s, mk_istate x (i_world s) (tlb_asid s) (cp0_cause s)) m.
Definition on_world {A} (m : K (W * sched) A) : K istate A :=
  zoom i_world (λ x s, mk_istate (i_machine s) x (tlb_asid s) (cp0_cause s)) m.
Definition on_schedule {A} (m : K sched A) : K istate A :=
  on_world (zoom snd (λ q w, (fst w, q)) m).

(** The loop over the handlers from entry [i] on, [k] turns. *)
Fixpoint handler_loop (k : nat) (i cause : Z) : K istate unit :=
  match k with
  | O => mret tt
  | S k' =>
      s ← gets i_machine;
      e ← pure (aget (interrupt_handlers s) i);
      if ie_device e =? 0 then mret tt
      else
        (if negb (Z.land cause (ie_irq e) =? 0) then
           match ie_handler e with
           | Some h => on_world (run_handler h (ie_device e))
           | None => pure Undef
           end
         else mret tt);;
        handler_loop k' (i + 1) cause
  end.

(** [_interrupt_clear_sw0]: software interrupt 0 is no longer pending. *)
Definition interrupt_clear_sw0 : K istate unit :=
  modify (λ s, mk_istate (i_machine s) (i_world s) (tlb_asid s) (Z.land (cp0_cause s) 0xfffffeff)).

Definition interrupt_handle (this_cpu cause : Z) : K istate unit :=
  (if negb (Z.land cause INTERRUPT_CAUSE_SOFTWARE_0 =? 0) then interrupt_clear_sw0 else mret tt);;
  if negb (Z.land cause 0x0000007c =? 0) then panic "Exception in interrupt_handle"
  else
    on_machine (modify (set_in_interrupt true));;
    handler_loop (Z.to_nat CONFIG_MAX_DEVICES) 0 cause;;
    on_machine (modify (set_in_interrupt false));;
    cur ← on_schedule (get_current this_cpu);
    if negb (Z.land cause (Z.lor INTERRUPT_CAUSE_SOFTWARE_0 INTERRUPT_CAUSE_HARDWARE_5) =? 0) || (cur =? IDLE_THREAD_TID) then
      on_schedule (scheduler_schedule this_cpu);;
      t ← on_schedule (thread_get_current_thread this_cpu);
      modify (λ s, mk_istate (i_machine s) (i_world s) t (cp0_cause s))
    else mret tt.

End interrupts.
