(* ===== verification/DevicesSpec.v ===== *)
(** * Devices and interrupts: every device is found and its interrupts reach it

    The tables after [device_init] are those the list of descriptors determines,
    and [interrupt_handle] calls the handlers the cause asks for, in the order of
    registration, before it calls the scheduler. *)

From S2P Require Import Prelude Kmalloc Sched SchedSpec Devices.
Local Open Scope Z_scope.

Definition no_entry : interrupt_entry := mk_ientry 0 0 None.

(** ** Registering a handler *)

Lemma free_entry_Ok regs n :
  Forall (λ e, ie_device e ≠ 0) regs → (length regs + n = 128)%nat → (0 < n)%nat →
  free_entry 129 (regs ++ replicate n no_entry) 0 = Ok (Z.of_nat (length regs)).
Proof.
  intros Hr Hn Hpos.
  assert (Hgen : ∀ l r fuel, regs = l ++ r → (length r < fuel)%nat →
    free_entry fuel (regs ++ replicate n no_entry) (Z.of_nat (length l)) = Ok (Z.of_nat (length regs))).
  { intros l r. revert l. induction r as [|e r IH]; intros l fuel E Hf; (destruct fuel as [|fuel]; [lia |]); cbn [free_entry].
    - rewrite app_nil_r in E. subst l. destruct n as [|n]; [lia |]. cbn [replicate].
      rewrite (proj2 (aget_Ok _ _ no_entry)).
      2: { split; [lia |]. by rewrite Nat2Z.id, lookup_app_r, Nat.sub_diag by lia. }
      done.
    - rewrite (proj2 (aget_Ok _ _ e)).
      2: { split; [lia |]. rewrite Nat2Z.id, E, <- app_assoc. by rewrite lookup_app_r, Nat.sub_diag by lia. }
      assert (He : ie_device e ≠ 0). { apply (proj1 (Forall_forall _ _) Hr). rewrite E. set_solver. }
      assert (Hlt : Z.of_nat (length l) < 128). { apply (f_equal length) in E. rewrite length_app in E. cbn in E. lia. }
      cbn [mbind res_bind]. rewrite (proj2 (Z.eqb_neq _ _) He), (proj2 (Z.ltb_lt _ _)) by (unfold CONFIG_MAX_DEVICES; lia).
      cbn [negb andb]. specialize (IH (l ++ [e]) fuel). rewrite <- app_assoc in IH. cbn in IH, Hf.
      specialize (IH E ltac:(lia)). rewrite length_app in IH. cbn in IH.
      by replace (Z.of_nat (length l) + 1) with (Z.of_nat (length l + 1)) by lia. }
  apply (Hgen [] regs); [done | lia].
Qed.

Lemma register_wp s regs n irq h dev (P : unit → machine → Prop) :
  interrupt_handlers s = regs ++ replicate n no_entry → Forall (λ e, ie_device e ≠ 0) regs →
  (length regs + n = 128)%nat → (0 < n)%nat →
  Z.land irq (Z.lxor INTERRUPT_MASK_ALL 0xffffffff) = 0 →
  P tt (set_handlers ((regs ++ [mk_ientry dev irq (Some h)]) ++ replicate (pred n) no_entry) s) →
  wp (interrupt_register irq h dev) P s.
Proof.
  intros Et Hr Hn Hpos Hirq HP. unfold interrupt_register. rewrite Hirq. cbn [Z.eqb negb]. wp_steps. unfold id.
  assert (Hlen : length (interrupt_handlers s) = 128%nat) by (rewrite Et, length_app, length_replicate; lia).
  rewrite Hlen. eapply wp_pure; [rewrite Et; by apply free_entry_Ok |].
  rewrite (proj2 (Z.leb_gt _ _)) by (unfold CONFIG_MAX_DEVICES; lia). wp_step.
  eapply wp_pure; [apply aset_Ok; rewrite Hlen; lia |]. wp_step. rewrite Nat2Z.id, Et.
  destruct n as [|n]; [lia |]. cbn [replicate pred] in *.
  rewrite insert_app_r_alt, Nat.sub_diag by lia. cbn. by rewrite <- app_assoc in HP.
Qed.

(** The mask of an irq line of the machine. *)
Lemma irq_mask_ok d : 0 ≤ io_irq d ≤ 5 → Z.land (irq_mask d) (Z.lxor INTERRUPT_MASK_ALL 0xffffffff) = 0.
Proof.
  intros Hi. unfold irq_mask. assert (Hc : io_irq d ∈ [0; 1; 2; 3; 4; 5]) by set_solver by lia.
  repeat (apply elem_of_cons in Hc as [->|Hc]; [done |]). set_solver.
Qed.

(** ** The tables *)

(** The handler of a device, by its type. *)
Definition handler_of (d : io_descriptor) : option handler :=
  if Z.land (io_type d) YAMS_TYPECODE_CPUMASK =? YAMS_TYPECODE_CPUSTATUS then Some cpustatus_interrupt
  else if io_type d =? YAMS_TYPECODE_TTY then Some tty_interrupt
  else if io_type d =? YAMS_TYPECODE_DISK then Some disk_interrupt
  else None.
Definition known (d : io_descriptor) : Prop :=
  handler_of d ≠ None ∨ io_type d ∈ [YAMS_TYPECODE_RTC; YAMS_TYPECODE_MEMINFO; YAMS_TYPECODE_SHUTDOWN].
#[export] Instance known_dec d : Decision (known d).
Proof. unfold known. apply _. Defined.

Definition device_for (d : io_descriptor) (v : device) : Prop :=
  dev_type v = io_type d ∧ dev_io_address v = io_area_base d ∧ (handler_of d ≠ None → dev_addr v ≠ 0).

(** The entries of the devices that have a handler. *)
Definition entries (l : list (io_descriptor * device)) : list interrupt_entry :=
  flat_map (λ p, match handler_of (fst p) with
                 | Some h => [mk_ientry (dev_addr (snd p)) (irq_mask (fst p)) (Some h)]
                 | None => []
                 end) l.

(** Whether a device of a type has been set up. *)
Definition seen (t : Z) (l : list (io_descriptor * device)) : bool := existsb (λ p, io_type (fst p) =? t) l.

(** The state when the devices of [l] have been set up. *)
Record tables (l : list (io_descriptor * device)) (s : machine) : Prop := {
  tb_devices : ∃ rest, device_table s = map (λ p, Some (snd p)) l ++ rest ∧ (length l + length rest = 128)%nat;
  tb_number : number_of_devices s = Z.of_nat (length l);
  tb_handlers : interrupt_handlers s = entries l ++ replicate (128 - length (entries l)) no_entry;
  tb_for : Forall (λ p, device_for (fst p) (snd p)) l;
  tb_rtc : rtc_done s = seen YAMS_TYPECODE_RTC l;
  tb_meminfo : meminfo_done s = seen YAMS_TYPECODE_MEMINFO l;
  tb_shutdown : shutdown_done s = seen YAMS_TYPECODE_SHUTDOWN l;
  tb_memory : kmalloc_wf (m_kmalloc s);
}.

Lemma entries_length l : (length (entries l) ≤ length l)%nat.
Proof.
  induction l as [|p l IH]; [done |]. unfold entries in *. cbn [flat_map]. rewrite length_app.
  destruct (handler_of (fst p)); cbn [length]; lia.
Qed.

Lemma entries_used l : Forall (λ p, device_for (fst p) (snd p)) l → Forall (λ e, ie_device e ≠ 0) (entries l).
Proof.
  induction 1 as [|p l (_ & _ & Ha) _ IH]; [constructor |]. cbn.
  destruct (handler_of (fst p)); [constructor; [by apply Ha | done] | done].
Qed.

Lemma entries_snoc l p : entries (l ++ [p]) = entries l ++ entries [p].
Proof. unfold entries. by rewrite flat_map_app. Qed.

Lemma seen_snoc t l p : seen t (l ++ [p]) = seen t l || (io_type (fst p) =? t).
Proof. unfold seen. rewrite existsb_app. cbn. by rewrite orb_false_r. Qed.

(** ** Init functions *)

Lemma kalloc_wp s n (P : Z → machine → Prop) :
  kmalloc_wf (m_kmalloc s) → 0 ≤ n → free_area_start (m_kmalloc s) + n ≤ memory_end (m_kmalloc s) →
  (∀ a k, a ≠ 0 → kmalloc_wf k → memory_end k = memory_end (m_kmalloc s) →
    free_area_start (m_kmalloc s) ≤ free_area_start k ≤ free_area_start (m_kmalloc s) + n + 3 → P a (set_memory k s)) →
  wp (alloc n) P s.
Proof.
  intros Hk Hn Hroom HP. apply wp_zoom. unfold wp. rewrite kmalloc_ok by done. pose proof Hk as (? & ? & ? & ?).
  pose proof (Z.div_mod (free_area_start (m_kmalloc s) + n + 3) 4).
  pose proof (Z.mod_pos_bound (free_area_start (m_kmalloc s) + n + 3) 4).
  apply HP; [lia | | done | cbn; lia]. split_and!; cbn; [lia | apply Z.mod_mul; lia | lia | lia].
Qed.

Section devices.
Context (system_rtc system_meminfo system_shutdown : Z).
Abbreviation drivers := (drivers_available system_rtc system_meminfo system_shutdown).
Abbreviation driver_for := (find_driver system_rtc system_meminfo system_shutdown).

(** What an init function does to the tables. *)
Record inited (d : io_descriptor) (l : list (io_descriptor * device)) (s : machine) (v : device) (s' : machine) : Prop := {
  in_for : device_for d v;
  in_devices : device_table s' = device_table s;
  in_number : number_of_devices s' = number_of_devices s;
  in_stacks : interrupt_stacks s' = interrupt_stacks s;
  in_handlers : interrupt_handlers s' = entries (l ++ [(d, v)]) ++ replicate (128 - length (entries (l ++ [(d, v)]))) no_entry;
  in_rtc : rtc_done s' = seen YAMS_TYPECODE_RTC (l ++ [(d, v)]);
  in_meminfo : meminfo_done s' = seen YAMS_TYPECODE_MEMINFO (l ++ [(d, v)]);
  in_shutdown : shutdown_done s' = seen YAMS_TYPECODE_SHUTDOWN (l ++ [(d, v)]);
  in_memory : kmalloc_wf (m_kmalloc s');
  in_room : memory_end (m_kmalloc s') = memory_end (m_kmalloc s) ∧
    free_area_start (m_kmalloc s) ≤ free_area_start (m_kmalloc s') ≤ free_area_start (m_kmalloc s) + 4200;
}.

Definition driver_ok (d : io_descriptor) (init : io_descriptor → K machine (option device)) : Prop := ∀ l s,
  tables l s → (length l < 128)%nat → (handler_of d ≠ None → 0 ≤ io_irq d ≤ 5) →
  (io_type d ∈ [YAMS_TYPECODE_RTC; YAMS_TYPECODE_MEMINFO; YAMS_TYPECODE_SHUTDOWN] → seen (io_type d) l = false) →
  free_area_start (m_kmalloc s) + 4200 ≤ memory_end (m_kmalloc s) →
  wp (init d) (λ r s', ∃ v, r = Some v ∧ inited d l s v s') s.

(** Registering the handler at the end of an init function. *)
Lemma register_device_wp d h l s k addr ttys :
  tables l s → (length l < 128)%nat → handler_of d = Some h → 0 ≤ io_irq d ≤ 5 → addr ≠ 0 →
  kmalloc_wf k → memory_end k = memory_end (m_kmalloc s) → free_area_start (m_kmalloc s) ≤ free_area_start k ≤ free_area_start (m_kmalloc s) + 4200 →
  (∀ t, t ∈ [YAMS_TYPECODE_RTC; YAMS_TYPECODE_MEMINFO; YAMS_TYPECODE_SHUTDOWN] → io_type d ≠ t) →
  wp (interrupt_register (irq_mask d) h addr;; mret (Some (mk_device addr (io_area_base d) (io_type d))))
    (λ r s', ∃ v, r = Some v ∧ inited d l s v s') (set_memory k (set_ttys ttys s)).
Proof.
  intros T Hl Hh Hirq Ha Hk Hke Hkf Hty. pose proof (entries_length l) as Hel.
  set (v := mk_device addr (io_area_base d) (io_type d)).
  assert (Ee : entries (l ++ [(d, v)]) = entries l ++ [mk_ientry addr (irq_mask d) (Some h)]).
  { rewrite entries_snoc. f_equal. unfold entries. cbn. by rewrite Hh. }
  assert (Hs : ∀ t b, t ∈ [YAMS_TYPECODE_RTC; YAMS_TYPECODE_MEMINFO; YAMS_TYPECODE_SHUTDOWN] →
    b = seen t l → b = seen t (l ++ [(d, v)])).
  { intros t b Ht ->. rewrite seen_snoc. cbn. by rewrite (proj2 (Z.eqb_neq _ _)), orb_false_r by (by apply Hty). }
  wp_step. eapply (register_wp _ (entries l)); [apply (tb_handlers _ _ T) | apply entries_used, T | lia | lia |
    by apply irq_mask_ok |].
  wp_step. exists v. split; [done |]. split; cbn; try done; try (apply Hs; [set_solver | apply T]).
  - rewrite Ee, length_app. cbn. do 2 f_equal. lia.
Qed.

(** Types of devices that have a handler are not those that have none. *)
Lemma handler_type d h t :
  handler_of d = Some h → t ∈ [YAMS_TYPECODE_RTC; YAMS_TYPECODE_MEMINFO; YAMS_TYPECODE_SHUTDOWN] → io_type d ≠ t.
Proof.
  unfold handler_of. intros Hh Ht E. rewrite E in Hh.
  repeat (apply elem_of_cons in Ht as [->|Ht]; [vm_compute in Hh; discriminate |]). set_solver.
Qed.

Ltac sizes :=
  unfold SIZEOF_DEVICE, SIZEOF_GCD, SIZEOF_TTY, SIZEOF_SPINLOCK, SIZEOF_GBD, SIZEOF_DISK in *;
  cbn [m_kmalloc set_memory set_ttys] in *.
(** One [kmalloc] of an init function. *)
Ltac alloc_step k :=
  wp_step; apply kalloc_wp; [done | done | sizes; lia |];
  let a := fresh "a" in let Ha := fresh "Ha" in let Hk := fresh "Hk" in let He := fresh "He" in let Hf := fresh "Hf" in
  intros a k Ha Hk He Hf; sizes.

Lemma cpustatus_ok d : handler_of d = Some cpustatus_interrupt → driver_ok d cpustatus_init.
Proof.
  intros Hh l s T Hl Hirq _ Hroom. pose proof (tb_memory _ _ T) as Hm. unfold cpustatus_init.
  alloc_step k1. alloc_step k2.
  eapply (register_device_wp d _ l s k2 a (tty_inits s)); try done; [apply Hirq; congruence | lia | lia |].
  intros t Ht. by eapply handler_type.
Qed.

Lemma disk_ok d : handler_of d = Some disk_interrupt → driver_ok d disk_device_init.
Proof.
  intros Hh l s T Hl Hirq _ Hroom. pose proof (tb_memory _ _ T) as Hm. unfold disk_device_init.
  alloc_step k1. alloc_step k2. alloc_step k3.
  eapply (register_device_wp d _ l s k3 a (tty_inits s)); try done; [apply Hirq; congruence | lia | lia |].
  intros t Ht. by eapply handler_type.
Qed.

Lemma tty_ok d : handler_of d = Some tty_interrupt → driver_ok d tty_device_init.
Proof.
  intros Hh l s T Hl Hirq _ Hroom. pose proof (tb_memory _ _ T) as Hm. unfold tty_device_init.
  alloc_step k1. alloc_step k2. alloc_step k3. wp_steps.
  destruct (tty_inits _ =? 0).
  - do 3 wp_step. eapply (register_device_wp d _ l s k3 a (tty_inits s + 1)); try done; [apply Hirq; congruence | lia | lia |].
    intros t Ht. by eapply handler_type.
  - alloc_step k4. do 3 wp_step.
    eapply (register_device_wp d _ l s k4 a (tty_inits s + 1)); try done; [apply Hirq; congruence | lia | lia |].
    intros t Ht. by eapply handler_type.
Qed.

(** The devices of which there is one. *)
Lemma once_inited d l s v r m h :
  tables l s → handler_of d = None → dev_type v = io_type d → dev_io_address v = io_area_base d →
  r = seen YAMS_TYPECODE_RTC (l ++ [(d, v)]) → m = seen YAMS_TYPECODE_MEMINFO (l ++ [(d, v)]) →
  h = seen YAMS_TYPECODE_SHUTDOWN (l ++ [(d, v)]) →
  inited d l s v (set_once r m h s).
Proof.
  intros T Hh Ht Hio Hr Hm Hs. split; cbn; try done.
  - rewrite entries_snoc. unfold entries at 2 4. cbn. rewrite Hh. cbn. rewrite app_nil_r. apply T.
  - apply T.
  - lia.
Qed.

Lemma once_ok d init : handler_of d = None →
  (io_type d = YAMS_TYPECODE_RTC ∧ init = rtc_init system_rtc) ∨
  (io_type d = YAMS_TYPECODE_MEMINFO ∧ init = meminfo_init system_meminfo) ∨
  (io_type d = YAMS_TYPECODE_SHUTDOWN ∧ init = shutdown_init system_shutdown) → driver_ok d init.
Proof.
  intros Hh Hcase l s T Hl _ Hone _.
  destruct Hcase as [[Ht ->]|[[Ht ->]|[Ht ->]]]; rewrite Ht in Hone; specialize (Hone ltac:(set_solver));
    [unfold rtc_init | unfold meminfo_init | unfold shutdown_init]; wp_steps;
    [rewrite (tb_rtc _ _ T) | rewrite (tb_meminfo _ _ T) | rewrite (tb_shutdown _ _ T)]; rewrite Hone; wp_steps;
    (eexists; split; [done |]); (apply once_inited; [done.. | | |]); rewrite seen_snoc; cbn [fst]; rewrite Ht, ?Hone; cbn;
    rewrite ?orb_false_r, ?orb_true_r; by (done || apply T).
Qed.

Lemma driver_known d : known d → ∃ init, driver_for (io_type d) = Some init ∧ driver_ok d init.
Proof.
  intros Hkn. destruct (handler_of d) as [h|] eqn:Hh.
  - pose proof Hh as Hh'. unfold handler_of in Hh'. unfold find_driver.
    destruct (Z.land (io_type d) YAMS_TYPECODE_CPUMASK =? YAMS_TYPECODE_CPUSTATUS) eqn:Hcpu.
    + injection Hh' as <-. eexists. split; [reflexivity | by apply cpustatus_ok].
    + destruct (Z.eqb_spec (io_type d) YAMS_TYPECODE_TTY) as [E|_].
      { injection Hh' as <-. rewrite E. eexists. split; [reflexivity | by apply tty_ok]. }
      destruct (Z.eqb_spec (io_type d) YAMS_TYPECODE_DISK) as [E|_]; [| done].
      injection Hh' as <-. rewrite E. eexists. split; [reflexivity | by apply disk_ok].
  - destruct Hkn as [?|Hin]; [done |].
    repeat (apply elem_of_cons in Hin as [E|Hin]; [rewrite E; eexists; split; [reflexivity | apply once_ok; tauto] |]).
    set_solver.
Qed.

Lemma driver_unknown d : ¬ known d → io_type d = 0 ∨ driver_for (io_type d) = None.
Proof.
  intros Hn. right. assert (Hh : handler_of d = None). { destruct (handler_of d) eqn:E; [| done]. destruct Hn. left. congruence. }
  unfold handler_of in Hh. unfold find_driver.
  destruct (Z.land (io_type d) YAMS_TYPECODE_CPUMASK =? YAMS_TYPECODE_CPUSTATUS) eqn:Hcpu; [done |].
  unfold drivers_available. cbn [List.find fst].
  rewrite !(Z.eqb_sym _ (io_type d)).
  destruct (Z.eqb_spec (io_type d) YAMS_TYPECODE_TTY); [done |].
  destruct (Z.eqb_spec (io_type d) YAMS_TYPECODE_RTC); [destruct Hn; right; set_solver |].
  destruct (Z.eqb_spec (io_type d) YAMS_TYPECODE_MEMINFO); [destruct Hn; right; set_solver |].
  destruct (Z.eqb_spec (io_type d) YAMS_TYPECODE_SHUTDOWN); [destruct Hn; right; set_solver |].
  destruct (Z.eqb_spec (io_type d) YAMS_TYPECODE_CPUSTATUS) as [E|]; [by rewrite E in Hcpu |].
  by destruct (Z.eqb_spec (io_type d) YAMS_TYPECODE_DISK).
Qed.

(** ** [device_init] *)

Definition singles : list Z := [YAMS_TYPECODE_RTC; YAMS_TYPECODE_MEMINFO; YAMS_TYPECODE_SHUTDOWN].

(** A machine the kernel can run on: at most one clock, memory information and
    shutdown device; interrupt lines 0 to 5. *)
Definition machine_ok (descs : list io_descriptor) : Prop :=
  Forall (λ d, handler_of d ≠ None → 0 ≤ io_irq d ≤ 5) descs ∧
  ∀ t, t ∈ singles → (length (filter (λ d, io_type d = t) descs) ≤ 1)%nat.

Lemma seen_filter t l : seen t l = true → (1 ≤ length (filter (λ d, io_type d = t) (map fst l)))%nat.
Proof.
  unfold seen. intros (p & Hp & E)%existsb_exists. apply Z.eqb_eq in E.
  assert (Hin : fst p ∈ filter (λ d, io_type d = t) (map fst l)).
  { apply list_elem_of_filter. split; [done |]. apply list_elem_of_In, in_map, Hp. }
  destruct (filter _ _); [set_solver | cbn; lia].
Qed.

Lemma tables_snoc d v l s s' dt :
  tables l s → inited d l s v s' → (length l < 128)%nat → aset (device_table s') (number_of_devices s') (Some v) = Ok dt →
  tables (l ++ [(d, v)]) (set_devices dt (number_of_devices s' + 1) s').
Proof.
  intros T I Hl Ed. destruct (tb_devices _ _ T) as (rest & Er & Hrest). destruct rest as [|x rest]; [cbn in Hrest; lia |].
  split; cbn [device_table number_of_devices interrupt_handlers rtc_done meminfo_done shutdown_done m_kmalloc set_devices];
    try apply I.
  - exists rest. rewrite (in_devices _ _ _ _ _ I), (in_number _ _ _ _ _ I), (tb_number _ _ T), Er in Ed.
    rewrite aset_Ok in Ed by (rewrite length_app, length_map; cbn; lia). injection Ed as <-.
    rewrite Nat2Z.id, insert_app_r_alt, length_map, Nat.sub_diag by (by rewrite length_map).
    rewrite map_app, <- app_assoc, length_app. cbn in *. split; [done | lia].
  - rewrite (in_number _ _ _ _ _ I), (tb_number _ _ T), length_app. cbn. lia.
  - apply Forall_app. split; [apply T |]. constructor; [apply I | constructor].
Qed.

Lemma init_loop_wp descs : ∀ l s,
  tables l s → (length l + length descs ≤ 128)%nat → machine_ok (map fst l ++ descs) →
  free_area_start (m_kmalloc s) + 4200 * Z.of_nat (length descs) ≤ memory_end (m_kmalloc s) →
  wp (init_loop system_rtc system_meminfo system_shutdown descs) (λ _ s', ∃ l', tables (l ++ l') s' ∧
    interrupt_stacks s' = interrupt_stacks s ∧ map fst l' = filter known descs ∧ memory_end (m_kmalloc s') = memory_end (m_kmalloc s) ∧
    free_area_start (m_kmalloc s) ≤ free_area_start (m_kmalloc s') ≤ free_area_start (m_kmalloc s) + 4200 * Z.of_nat (length descs)) s.
Proof.
  induction descs as [|d descs IH]; intros l s T Hlen Hok Hroom; cbn [init_loop].
  { wp_step. exists []. rewrite app_nil_r. split_and!; try done; cbn; lia. }
  assert (Hskip : ¬ known d → wp (init_loop system_rtc system_meminfo system_shutdown descs) (λ _ s', ∃ l',
    tables (l ++ l') s' ∧ interrupt_stacks s' = interrupt_stacks s ∧ map fst l' = filter known (d :: descs) ∧ memory_end (m_kmalloc s') = memory_end (m_kmalloc s) ∧
    free_area_start (m_kmalloc s) ≤ free_area_start (m_kmalloc s') ≤ free_area_start (m_kmalloc s) + 4200 * Z.of_nat (length (d :: descs))) s).
  { intros Hn. rewrite filter_cons_False by done. eapply wp_mono; [apply (IH l s); [done | cbn in Hlen; lia | | cbn in Hroom; lia] |].
    2: { intros [] s' (l' & ? & ? & ? & ? & ?). exists l'. split_and!; try done; cbn; lia. }
    destruct Hok as [H1 H2]. split.
    - apply Forall_app in H1 as [? [_ ?]%Forall_cons]. by apply Forall_app.
    - intros t Ht. specialize (H2 t Ht). rewrite filter_app, length_app in *. rewrite filter_cons in H2.
      case_decide; cbn in H2; lia. }
  destruct (decide (known d)) as [Hkn|Hn].
  2: { destruct (driver_unknown d Hn) as [-> | ->]; [by apply Hskip |]. destruct (io_type d =? 0); by apply Hskip. }
  assert (Hnz : io_type d ≠ 0).
  { intros E. unfold known, handler_of in Hkn. rewrite E in Hkn. cbn in Hkn. destruct Hkn as [Hkn|Hkn]; [done | set_solver by lia]. }
  rewrite (proj2 (Z.eqb_neq _ _) Hnz). destruct (driver_known d Hkn) as (init & -> & Hdrv). wp_step.
  eapply wp_mono; [apply (Hdrv l s T) |].
  - cbn in Hlen. lia.
  - destruct Hok as [H1 _]. by apply Forall_app in H1 as [_ [? _]%Forall_cons].
  - intros Hin. destruct (seen (io_type d) l) eqn:Hs; [| done]. apply seen_filter in Hs.
    destruct Hok as [_ H2]. specialize (H2 _ Hin). rewrite filter_app, length_app, filter_cons_True in H2 by done. cbn in H2. lia.
  - cbn in Hroom. lia.
  - intros r s1 (v & -> & I). wp_steps. unfold id.
    destruct (aset (device_table s1) (number_of_devices s1) (Some v)) as [dt| | | |] eqn:Ed.
    2-5: exfalso; rewrite aset_Ok in Ed; [done |]; rewrite (in_devices _ _ _ _ _ I), (in_number _ _ _ _ _ I), (tb_number _ _ T);
      destruct (tb_devices _ _ T) as (rest & -> & ?); rewrite length_app, length_map; cbn in Hlen; lia.
    eapply wp_pure; [done |]. wp_steps. cbn [number_of_devices set_devices].
    pose proof (tables_snoc d v l s s1 dt T I ltac:(cbn in Hlen; lia) Ed) as T'.
    rewrite filter_cons_True by done. destruct (in_room _ _ _ _ _ I) as [Hme Hfa].
    assert (Hend : (length descs = 0)%nat ∨ number_of_devices s1 + 1 < 128).
    { rewrite (in_number _ _ _ _ _ I), (tb_number _ _ T). cbn in Hlen. lia. }
    case_test.
    + wp_step. exists [(d, v)]. split; [done |]. split; [apply I |]. destruct descs; [| unfold CONFIG_MAX_DEVICES in *; cbn in Hend; lia].
      split; [done |]. cbn. split; [done | lia].
    + eapply wp_mono; [apply (IH (l ++ [(d, v)])); [done | rewrite length_app; cbn in *; lia | | cbn in *; lia] |].
      { rewrite map_app. cbn. by rewrite <- app_assoc. }
      intros [] s2 (l' & T2 & Es & E2 & Hm2 & Hf2). exists ((d, v) :: l'). rewrite <- app_assoc in T2. split; [done |].
      split; [rewrite Es; apply I |]. cbn in *. split; [by rewrite E2 |]. split; [congruence | lia].
Qed.

(** ** [device_get] *)

Lemma get_device_Ok l : ∀ p rest t n,
  0 ≤ n →
  get_device (length l) (p ++ map (λ q, Some (snd q)) l ++ rest) (Z.of_nat (length p)) t n =
  Ok (filter (λ v, dev_type v = t) (map (@snd io_descriptor device) l) !! Z.to_nat n).
Proof.
  induction l as [|[d v] l IH]; intros p rest t n Hn; [done |]. cbn [length get_device map snd app].
  rewrite (proj2 (aget_Ok _ _ (Some v))).
  2: { split; [lia |]. by rewrite Nat2Z.id, lookup_app_r, Nat.sub_diag by lia. }
  cbn [mbind res_bind]. rewrite filter_cons.
  assert (Hnext : ∀ n, 0 ≤ n → get_device (length l) (p ++ Some v :: map (λ q, Some (snd q)) l ++ rest) (Z.of_nat (length p) + 1) t n =
    Ok (filter (λ v, dev_type v = t) (map snd l) !! Z.to_nat n)).
  { intros n' Hn'. specialize (IH (p ++ [Some v]) rest t n' Hn'). rewrite <- app_assoc, length_app in IH. cbn in IH.
    by replace (Z.of_nat (length p) + 1) with (Z.of_nat (length p + 1)) by lia. }
  destruct (Z.eqb_spec (dev_type v) t) as [E|E].
  - rewrite decide_True by done. destruct (Z.eqb_spec n 0) as [->|]; [done |].
    rewrite Hnext by lia. f_equal. by replace (Z.to_nat n) with (S (Z.to_nat (n - 1))) by lia.
  - rewrite decide_False by done. by apply Hnext.
Qed.

(** Devices of a type are those of the descriptors of the type. *)
Lemma filter_devices l t n :
  Forall (λ p, device_for (fst p) (snd p)) l →
  match filter (λ d, io_type d = t) (map fst l) !! n with
  | Some d => ∃ v, filter (λ v, dev_type v = t) (map (@snd io_descriptor device) l) !! n = Some v ∧ device_for d v
  | None => filter (λ v, dev_type v = t) (map (@snd io_descriptor device) l) !! n = None
  end.
Proof.
  intros Hl. revert n. induction Hl as [|[d v] l [Ht Hrest] _ IH]; intros n; [done |]. cbn [map fst snd] in *.
  rewrite !filter_cons. rewrite Ht. case_decide; [| apply IH]. destruct n as [|n]; [| apply IH]. cbn. by exists v.
Qed.

(** The tables as they are when the kernel starts. *)
Definition tables_unset (s : machine) : Prop :=
  length (device_table s) = 128%nat ∧ number_of_devices s = 0 ∧ length (interrupt_handlers s) = 128%nat ∧
  rtc_done s = false ∧ meminfo_done s = false ∧ shutdown_done s = false ∧ kmalloc_wf (m_kmalloc s) ∧
  length (interrupt_stacks s) = Z.to_nat CONFIG_MAX_CPUS.

Lemma tables_nil s : tables_unset s → interrupt_handlers s = replicate 128 no_entry → tables [] s.
Proof.
  intros (Hd & Hn & _ & Hr & Hm & Hs & Hk & _) Hh. split; try done. by exists (device_table s).
Qed.

(** Stacks of different processors have no byte in common; each is a page of
    the kernel's memory from [lo] on. *)
Definition stacks_ok (lo hi : Z) (l : list Z) : Prop :=
  Forall (λ a, lo ≤ a - 4092 ∧ a + 4 ≤ hi) l ∧
  ∀ i j a b, l !! i = Some a → l !! j = Some b → (i < j)%nat → a + 4 ≤ b - 4092.

Lemma stacks_snoc lo hi hi' l a :
  stacks_ok lo hi l → hi ≤ hi' → lo ≤ hi → hi ≤ a - 4092 → a + 4 ≤ hi' → stacks_ok lo hi' (l ++ [a]).
Proof.
  intros [Hin Hap] Hh Hlo Ha Ha'. split.
  - apply Forall_app. split; [| by constructor; [lia |]]. eapply Forall_impl; [exact Hin |]. cbn. lia.
  - intros i j x y Hx Hy Hij. pose proof (lookup_lt_Some _ _ _ Hy) as Hj. rewrite length_app in Hj. cbn in Hj.
    rewrite lookup_app_l in Hx by lia. destruct (decide (j < length l)%nat).
    + rewrite lookup_app_l in Hy by done. eauto.
    + rewrite lookup_app_r in Hy by lia. replace (j - length l)%nat with 0%nat in Hy by lia. injection Hy as <-.
      pose proof (proj1 (Forall_lookup _ _) Hin _ _ Hx). cbn in *. lia.
Qed.

Lemma alloc_stacks_wp lo k : ∀ i s,
  tables_unset s → i + Z.of_nat k ≤ CONFIG_MAX_CPUS → 0 ≤ i → lo ≤ free_area_start (m_kmalloc s) →
  stacks_ok lo (free_area_start (m_kmalloc s)) (take (Z.to_nat i) (interrupt_stacks s)) →
  free_area_start (m_kmalloc s) + 4100 * Z.of_nat k ≤ memory_end (m_kmalloc s) →
  wp (alloc_stacks k i) (λ _ s', tables_unset s' ∧ memory_end (m_kmalloc s') = memory_end (m_kmalloc s) ∧
    free_area_start (m_kmalloc s) ≤ free_area_start (m_kmalloc s') ≤ free_area_start (m_kmalloc s) + 4100 * Z.of_nat k ∧
    stacks_ok lo (free_area_start (m_kmalloc s')) (take (Z.to_nat i + k) (interrupt_stacks s'))) s.
Proof.
  induction k as [|k IH]; intros i s U Hik Hi Hlo Hst Hroom; cbn [alloc_stacks].
  { wp_step. rewrite Nat.add_0_r. split; [done |]. split; [done |]. split; [lia | done]. }
  pose proof U as (Hd & Hn & Hh & Hr & Hm & Hs & Hk & Hl).
  wp_step. apply wp_zoom. eapply wp_mono; [apply kmalloc_step; [done | done | unfold PAGE_SIZE; lia] |].
  intros ret m (Hm' & He & -> & _ & Hend). unfold PAGE_SIZE in *. pose proof Hk as (? & _).
  rewrite (proj2 (Z.eqb_neq _ _)) by lia. wp_steps. unfold id. cbn [interrupt_stacks set_memory].
  eapply wp_pure; [apply aset_Ok; rewrite Hl; unfold CONFIG_MAX_CPUS in *; lia |]. wp_step. wp_step.
  assert (Hlen : (Z.to_nat i < length (interrupt_stacks s))%nat) by (rewrite Hl; unfold CONFIG_MAX_CPUS in *; lia).
  eapply wp_mono; [apply IH |].
  - repeat split; cbn; try done; try apply Hm'. by rewrite length_insert.
  - lia.
  - lia.
  - cbn. lia.
  - cbn [interrupt_stacks set_stacks set_memory m_kmalloc]. rewrite Z2Nat.inj_add, Nat.add_1_r by lia.
    rewrite (take_S_r _ _ (free_area_start (m_kmalloc s) + 4096 - 4)) by (by apply list_lookup_insert_eq).
    rewrite take_insert_ge by done. eapply stacks_snoc; [exact Hst | lia..].
  - cbn. lia.
  - cbn. intros [] s' (U' & E' & Hf & Hst'). split; [done |]. split; [lia |]. split; [lia |].
    replace (Z.to_nat i + S k)%nat with (Z.to_nat (i + 1) + k)%nat by lia. done.
Qed.

Lemma interrupt_init_wp cpus s :
  tables_unset s → 1 ≤ cpus ≤ CONFIG_MAX_CPUS →
  free_area_start (m_kmalloc s) + 4100 * cpus ≤ memory_end (m_kmalloc s) →
  wp (interrupt_init cpus) (λ _ s', tables [] s' ∧ memory_end (m_kmalloc s') = memory_end (m_kmalloc s) ∧
    free_area_start (m_kmalloc s) ≤ free_area_start (m_kmalloc s') ≤ free_area_start (m_kmalloc s) + 4100 * cpus ∧
    stacks_ok (free_area_start (m_kmalloc s)) (free_area_start (m_kmalloc s')) (take (Z.to_nat cpus) (interrupt_stacks s'))) s.
Proof.
  intros U Hc Hroom. unfold interrupt_init.
  rewrite (proj2 (Z.ltb_ge _ _)), (proj2 (Z.ltb_ge _ _)) by lia. cbn [orb]. wp_step. eapply wp_mono.
  { apply (alloc_stacks_wp (free_area_start (m_kmalloc s)) (Z.to_nat cpus) 0 s U); [lia | lia | lia | | lia].
    split; [constructor | done]. }
  intros [] s' (U' & He & Hf & Hst). unfold clear_handlers. wp_step. split; [| split; [done | split; [cbn; lia | done]]].
  pose proof U' as (? & ? & Hh & ?). apply tables_nil; [repeat split; try apply U'; cbn; by rewrite length_map |].
  cbn [interrupt_handlers set_handlers]. rewrite <- Hh. generalize (interrupt_handlers s'). intros l.
  by induction l as [|x l IHl]; cbn; f_equal.
Qed.

(** C16: every device is found.  On a machine with 1 to 4 processors, at most
    128 descriptors, one clock, memory information and shutdown device at most,
    interrupt lines 0 to 5 and enough memory, [interrupt_init] followed by
    [device_init] returns with a stack of its own for each processor, with one
    [device_t] for each descriptor a driver knows, in the order of the
    descriptors, and with the handler of each device that has one registered
    for its line; and [device_get(type, n)] gives the n-th device of the type,
    or the null pointer when there are fewer. *)
Theorem devices_found s cpus descs typecode n :
  tables_unset s → 1 ≤ cpus ≤ CONFIG_MAX_CPUS → (length descs ≤ 128)%nat → machine_ok descs → 0 ≤ n →
  free_area_start (m_kmalloc s) + 4100 * cpus + 4200 * Z.of_nat (length descs) ≤ memory_end (m_kmalloc s) →
  wp (interrupt_init cpus;; device_init system_rtc system_meminfo system_shutdown descs) (λ _ s', ∃ l hi,
    stacks_ok (free_area_start (m_kmalloc s)) hi (take (Z.to_nat cpus) (interrupt_stacks s')) ∧
    map fst l = filter known descs ∧ tables l s' ∧
    wp (device_get typecode n) (λ r s'', s'' = s' ∧
      match filter (λ d, io_type d = typecode) (filter known descs) !! Z.to_nat n with
      | Some d => ∃ v, r = Some v ∧ device_for d v
      | None => r = None
      end) s') s.
Proof.
  intros He Hcpu Hlen Hok Hn Hroom. wp_step. eapply wp_mono; [by apply interrupt_init_wp; [| | lia] |].
  intros [] s1 (T1 & Hend & Hfree & Hst). unfold device_init. rewrite take_ge by (unfold YAMS_MAX_DEVICES; lia).
  eapply wp_mono; [apply (init_loop_wp descs [] s1 T1); [done | done | lia] |]. intros [] s' (l & T & Est & E & _). cbn [app] in T.
  exists l, (free_area_start (m_kmalloc s1)). rewrite Est. split; [done |]. split; [done |]. split; [done |]. unfold device_get. wp_steps. unfold id.
  destruct (tb_devices _ _ T) as (rest & Ed & _). eapply wp_pure.
  { rewrite (tb_number _ _ T), Nat2Z.id, Ed. by apply (get_device_Ok l [] rest). }
  split; [done |]. rewrite <- E. pose proof (filter_devices l typecode (Z.to_nat n) (tb_for _ _ T)) as Hf.
  destruct (filter _ (map fst l) !! _); [| done]. destruct Hf as (v & -> & Hv). by exists v.
Qed.
End devices.

(** ** Interrupts *)

Section interrupts.
Context {W : Type} (run_handler : handler → Z → K (W * sched) unit).

(** The handlers an interrupt asks for, one after the other. *)
Fixpoint call_all (l : list interrupt_entry) : K (W * sched) unit :=
  match l with
  | [] => mret tt
  | e :: l' => (match ie_handler e with Some h => run_handler h (ie_device e) | None => pure Undef end);; call_all l'
  end.

Definition asks (cause : Z) (e : interrupt_entry) : Prop := Z.land cause (ie_irq e) ≠ 0.
#[export] Instance asks_dec cause e : Decision (asks cause e).
Proof. unfold asks. apply _. Defined.

Definition on_w {A} (m : K (W * sched) A) : K ((W * sched) * Z) A := zoom fst (λ w s, (w, snd s)) m.
Definition on_q {A} (m : K sched A) : K ((W * sched) * Z) A := on_w (zoom snd (λ q w, (fst w, q)) m).

(** The reference: the handlers asked for, in order; then the scheduler, when
    the timer or a thread wants it or the processor is idle. *)
Definition interrupt_spec (regs : list interrupt_entry) (this_cpu cause : Z) : K ((W * sched) * Z) unit :=
  on_w (call_all (filter (asks cause) regs));;
  cur ← on_q (get_current this_cpu);
  if bool_decide (Z.testbit cause 8 ∨ Z.testbit cause 15 ∨ cur = IDLE_THREAD_TID) then
    on_q (scheduler_schedule this_cpu);;
    t ← on_q (get_current this_cpu);
    modify (λ s, (fst s, t))
  else mret tt.

(** The outcome of the reference as one of the kernel with tables [m] and
    [reg] in the Cause register. *)
Definition lift_outcome (m : machine) (reg : Z) (r : res (unit * ((W * sched) * Z))) : res (unit * @istate W) :=
  match r with
  | Ok (_, (w, a)) => Ok (tt, mk_istate m w a reg)
  | Panic e => Panic e | Block => Block | Undef => Undef | NoFuel => NoFuel
  end.

Lemma handler_loop_eq cause m asid reg regs n :
  Forall (λ e, ie_device e ≠ 0) regs → interrupt_handlers m = regs ++ replicate n no_entry →
  ∀ r l w, regs = l ++ r →
  handler_loop run_handler (length r + n) (Z.of_nat (length l)) cause (mk_istate m w asid reg) =
  lift_outcome m reg (on_w (call_all (filter (asks cause) r)) (w, asid)).
Proof.
  intros Hu Hm. induction r as [|e r IH]; intros l w E.
  - rewrite app_nil_r in E. subst l. cbn [length Nat.add]. destruct n as [|n]; [done |]. cbn [handler_loop].
    rewrite bind_gets. cbn [i_machine]. rewrite Hm. unfold mbind, K_bind, pure.
    rewrite (proj2 (aget_Ok _ _ no_entry)); [done |].
    split; [lia |]. cbn [replicate]. by rewrite Nat2Z.id, lookup_app_r, Nat.sub_diag by lia.
  - cbn [length Nat.add handler_loop]. rewrite bind_gets. cbn [i_machine]. rewrite Hm. unfold mbind at 1, K_bind at 1, pure.
    rewrite (proj2 (aget_Ok _ _ e)).
    2: { split; [lia |]. rewrite Nat2Z.id, E, <- app_assoc. cbn. by rewrite lookup_app_r, Nat.sub_diag by lia. }
    assert (He : ie_device e ≠ 0). { apply (proj1 (Forall_forall _ _) Hu). rewrite E. set_solver. }
    rewrite (proj2 (Z.eqb_neq _ _) He).
    assert (Hnext : ∀ w, handler_loop run_handler (length r + n) (Z.of_nat (length l) + 1) cause (mk_istate m w asid reg) =
      lift_outcome m reg (on_w (call_all (filter (asks cause) r)) (w, asid))).
    { intros w'. specialize (IH (l ++ [e]) w'). rewrite <- app_assoc, length_app in IH. cbn in IH.
      replace (Z.of_nat (length l) + 1) with (Z.of_nat (length l + 1)) by lia. by apply IH. }
    rewrite filter_cons. unfold asks at 1. destruct (Z.eqb_spec (Z.land cause (ie_irq e)) 0) as [E0|E0]; cbn [negb].
    + rewrite decide_False by (intros Hx; by apply Hx). apply Hnext.
    + rewrite decide_True by done. cbn [call_all]. unfold on_w, zoom. cbn [fst snd]. unfold mbind, K_bind.
      destruct (ie_handler e) as [h|]; [| done]. unfold on_world, zoom. cbn [i_world].
      destruct (run_handler h (ie_device e) w) as [[[] w']| | | |]; [| done..]. apply Hnext.
Qed.

Lemma three_tests (a b : bool) (x y : Z) : a || b || (x =? y) = bool_decide (a ∨ b ∨ x = y).
Proof.
  symmetry. destruct a, b, (Z.eqb_spec x y); cbn [orb];
    first [apply bool_decide_eq_true_2; cbn; tauto | apply bool_decide_eq_false_2; cbn; tauto].
Qed.

(** The two lines after which the scheduler runs. *)
Lemma wants_schedule cause :
  (Z.land cause (Z.lor INTERRUPT_CAUSE_SOFTWARE_0 INTERRUPT_CAUSE_HARDWARE_5) =? 0) =
  negb (Z.testbit cause 8 || Z.testbit cause 15).
Proof.
  assert (Hbit : ∀ k, Z.testbit (Z.lor INTERRUPT_CAUSE_SOFTWARE_0 INTERRUPT_CAUSE_HARDWARE_5) k = (k =? 8) || (k =? 15)).
  { intros k. change (Z.testbit (Z.lor (2 ^ 8) (2 ^ 15)) k = (k =? 8) || (k =? 15)).
    rewrite Z.lor_spec, !Z.pow2_bits_eqb by lia. by rewrite (Z.eqb_sym 8), (Z.eqb_sym 15). }
  destruct (Z.testbit cause 8 || Z.testbit cause 15) eqn:Ht; cbn [negb].
  - apply Z.eqb_neq. intros E.
    assert (H8 : ∀ k, Z.testbit cause k && ((k =? 8) || (k =? 15)) = false)
      by (intros k; rewrite <- Hbit, <- Z.land_spec, E; apply Z.bits_0).
    pose proof (H8 8) as Ha. pose proof (H8 15) as Hb. cbn [Z.eqb orb] in Ha, Hb. rewrite !andb_true_r in Ha, Hb. by rewrite Ha, Hb in Ht.
  - apply Z.eqb_eq. apply Z.bits_inj'. intros k Hk. rewrite Z.land_spec, Hbit, Z.bits_0.
    apply orb_false_iff in Ht as [Ha Hb]. destruct (Z.eqb_spec k 8) as [->|]; [by rewrite Ha |].
    destruct (Z.eqb_spec k 15) as [->|]; [by rewrite Hb | apply andb_false_r].
Qed.

(** The Cause register after an interrupt with [cause]: bit 8 is cleared if it
    was one of the reasons. *)
Definition acknowledged (cause reg : Z) : Z := if Z.testbit cause 8 then Z.land reg 0xfffffeff else reg.

Lemma wants_clear cause : (Z.land cause INTERRUPT_CAUSE_SOFTWARE_0 =? 0) = negb (Z.testbit cause 8).
Proof.
  change INTERRUPT_CAUSE_SOFTWARE_0 with (2 ^ 8). destruct (Z.testbit cause 8) eqn:Ht; cbn [negb].
  - apply Z.eqb_neq. intros E. assert (Hb : Z.testbit (Z.land cause (2 ^ 8)) 8 = true)
      by (by rewrite Z.land_spec, Ht, Z.pow2_bits_true by lia). by rewrite E, Z.bits_0 in Hb.
  - apply Z.eqb_eq. apply Z.bits_inj'. intros k Hk. rewrite Z.land_spec, Z.bits_0, Z.pow2_bits_eqb by lia.
    destruct (Z.eqb_spec 8 k) as [<-|]; [by rewrite Ht | apply andb_false_r].
Qed.

(** C8: an interrupt reaches the drivers it is for.  For a cause without an
    exception code, [interrupt_handle] is the reference: it calls the handlers
    of exactly the devices whose line is up, in the order they were found, and
    then runs the scheduler if the timer (hardware line 5) or a thread
    (software line 0) asked for it or the processor is idle; the TLB then has
    the address space of the thread that runs.  A request on software line 0 is
    taken back in the Cause register, so that it does not come again, and every
    other request stays pending. *)
Theorem interrupt_dispatch l m w asid reg this_cpu cause :
  tables l m → (length l ≤ 128)%nat → Z.land cause 0x7c = 0 →
  interrupt_handle run_handler this_cpu cause (mk_istate m w asid reg) =
  lift_outcome (set_in_interrupt false m) (acknowledged cause reg) (interrupt_spec (entries l) this_cpu cause (w, asid)).
Proof.
  intros T Hl Hc. unfold interrupt_handle. rewrite Hc, wants_clear, negb_involutive. cbn [Z.eqb negb].
  set (m1 := set_in_interrupt true m). pose proof (entries_length l) as Hel.
  pose proof (handler_loop_eq cause m1 asid (acknowledged cause reg) (entries l) (128 - length (entries l)) (entries_used l (tb_for _ _ T))
    (tb_handlers _ _ T) (entries l) [] w eq_refl) as Hloop.
  replace (length (entries l) + (128 - length (entries l)))%nat with (Z.to_nat CONFIG_MAX_DEVICES) in Hloop
    by (change (Z.to_nat CONFIG_MAX_DEVICES) with 128%nat; lia).
  change (Z.of_nat (length [])) with 0 in Hloop.
  unfold interrupt_spec. unfold mbind at 1, K_bind at 1.
  assert (Hclear : (if Z.testbit cause 8 then interrupt_clear_sw0 else mret tt) (mk_istate m w asid reg) =
    Ok (tt, mk_istate m w asid (acknowledged cause reg))) by (unfold acknowledged; by destruct (Z.testbit cause 8)).
  rewrite Hclear. unfold mbind, K_bind, on_machine, zoom, modify. cbn [i_machine i_world tlb_asid cp0_cause].
  fold m1. rewrite Hloop. destruct (on_w (call_all (filter (asks cause) (entries l))) (w, asid)) as [[[] [[w' q] a]]| | | |]; [| done..].
  cbn [lift_outcome i_machine i_world tlb_asid cp0_cause]. unfold on_schedule, on_q, on_world, on_w, zoom. cbn [fst snd i_world].
  destruct (get_current this_cpu q) as [[cur q1]| | | |]; [| done..]. cbn [i_machine i_world tlb_asid cp0_cause fst snd].
  assert (Htest : negb (Z.land cause (Z.lor INTERRUPT_CAUSE_SOFTWARE_0 INTERRUPT_CAUSE_HARDWARE_5) =? 0) || (cur =? IDLE_THREAD_TID) =
    bool_decide (Z.testbit cause 8 ∨ Z.testbit cause 15 ∨ cur = IDLE_THREAD_TID)).
  { rewrite wants_schedule, negb_involutive. apply three_tests. }
  rewrite Htest. case_bool_decide; [| done]. cbv beta. cbn [i_machine i_world tlb_asid cp0_cause fst snd].
  destruct (scheduler_schedule this_cpu q1) as [[[] q2]| | | |]; [| done..]. cbn [i_machine i_world tlb_asid cp0_cause fst snd].
  unfold thread_get_current_thread. by destruct (get_current this_cpu q2) as [[t q3]| | | |].
Qed.
End interrupts.

(** ** A machine *)

Definition example_descs : list io_descriptor :=
  [mk_io_descriptor 0x101 0xb0000100 4 0xffffffff; mk_io_descriptor 0xc00 0xb0000110 8 5; mk_io_descriptor 0x999 0xb0000120 8 5;
   mk_io_descriptor 0x201 0xb0000130 12 3; mk_io_descriptor 0 0 0 0; mk_io_descriptor 0x301 0xb0000140 20 2;
   mk_io_descriptor 0x301 0xb0000160 20 2].
Definition example_machine : machine :=
  mk_machine [0; 0; 0; 0] (replicate 128 no_entry) false (replicate 128 None) 0 0 false false false (mk_kmalloc 0x80010000 0x80100000).

Lemma example_descs_ok : machine_ok example_descs.
Proof.
  split.
  { apply Forall_forall. intros d Hd.
    repeat (apply elem_of_cons in Hd as [->|Hd]; [intros Hh; vm_compute in Hh |- *; first [congruence | split; discriminate] |]).
    set_solver. }
  intros t Ht.
  repeat (apply elem_of_cons in Ht as [->|Ht]; [vm_compute; lia |]). set_solver.
Qed.

Lemma example_machine_unset : tables_unset example_machine.
Proof. repeat split; try reflexivity; vm_compute; discriminate. Qed.

(** The second disk is found. *)
Lemma devices_found_witness :
  wp (interrupt_init 1;; device_init 0x80000100 0x80000120 0x80000140 example_descs) (λ _ s',
    wp (device_get 0x301 1) (λ r _, ∃ v, r = Some v ∧ dev_io_address v = 0xb0000160) s') example_machine.
Proof.
  eapply wp_mono; [apply (devices_found 0x80000100 0x80000120 0x80000140 example_machine 1 example_descs 0x301 1) |].
  - apply example_machine_unset.
  - done.
  - cbn. lia.
  - apply example_descs_ok.
  - lia.
  - vm_compute. discriminate.
  - intros [] s' (l & hi & _ & _ & _ & Hget). eapply wp_mono; [exact Hget |]. intros r s'' [_ Hr].
    change (filter _ (filter _ example_descs) !! _) with (Some (mk_io_descriptor 0x301 0xb0000160 20 2)) in Hr.
    destruct Hr as (v & -> & _ & Hv & _). by exists v.
Defined.

(** The disks' line is up while thread 1 runs: both disks are asked. *)
Definition example_tables : machine :=
  match device_init 0x80000100 0x80000120 0x80000140 example_descs example_machine with Ok (_, s) => s | _ => example_machine end.
Definition example_devices : list (io_descriptor * device) :=
  [(mk_io_descriptor 0x101 0xb0000100 4 0xffffffff, mk_device 0x80000120 0xb0000100 0x101);
   (mk_io_descriptor 0xc00 0xb0000110 8 5, mk_device 0x80010000 0xb0000110 0xc00);
   (mk_io_descriptor 0x201 0xb0000130 12 3, mk_device 0x80010018 0xb0000130 0x201);
   (mk_io_descriptor 0x301 0xb0000140 20 2, mk_device 0x8001104c 0xb0000140 0x301);
   (mk_io_descriptor 0x301 0xb0000160 20 2, mk_device 0x80011080 0xb0000160 0x301)].

Lemma example_tables_ok : tables example_devices example_tables.
Proof.
  split.
  - exists (replicate 123 None). split; [vm_compute; reflexivity | done].
  - vm_compute. reflexivity.
  - vm_compute. reflexivity.
  - apply Forall_forall. intros p Hp. rewrite list_elem_of_In in Hp.
    repeat (destruct Hp as [<-|Hp]; [split; [reflexivity |]; split; [reflexivity | discriminate] |]). destruct Hp.
  - vm_compute. reflexivity.
  - vm_compute. reflexivity.
  - vm_compute. reflexivity.
  - vm_compute. repeat split; discriminate.
Qed.

(** Handlers that note the device they are called with. *)
Definition note_handler (h : handler) (dev : Z) : K (list Z * sched) unit := modify (λ w, (fst w ++ [dev], snd w)).

Lemma interrupt_dispatch_witness :
  interrupt_handle note_handler 0 0x1000 (mk_istate example_tables ([], example_state) 1 0x1000) =
  Ok (tt, mk_istate example_tables ([0x8001104c; 0x80011080], example_state) 1 0x1000).
Proof.
  rewrite (interrupt_dispatch note_handler example_devices example_tables ([], example_state) 1 0x1000 0 0x1000 example_tables_ok).
  - vm_compute. reflexivity.
  - cbn. lia.
  - reflexivity.
Defined.
