(* ===== verification/Semaphore.v ===== *)
(** * Semaphores (src/buenos/kernel/semaphore.c)

    A semaphore is a counter; a thread that finds it negative after
    decrementing it sleeps on the semaphore's address.  The file is a client
    of the sleep queue: the class [SleepQueue] states what it needs, the
    scheduler discharges it.  Each of the critical sections (under the
    spinlocks [semaphore_table_slock] and [sem->slock]) is one atomic step. *)

From S2P Require Import Prelude Sched SchedSpec.
Local Open Scope Z_scope.

(** ** What a semaphore needs of the sleep queue *)

Class SleepQueue (Q : Type) := {
  sq_add : Z → Z → K Q unit;
  sq_wake : Z → K Q unit;
  sq_switch : Z → K Q unit;
  sq_current : Z → K Q Z;
  sq_inv : Q → Prop;
  (** the threads that wait for a resource, first come first *)
  sq_waiters : Q → Z → list Z;
  (** the thread on a processor that may go to sleep *)
  sq_caller : Q → Z → Z → Prop;
  sq_cpu_ok cpu q t : sq_caller q cpu t → 0 ≤ cpu < CONFIG_MAX_CPUS;
  sq_add_spec q cpu t x :
    sq_inv q → sq_caller q cpu t → x ≠ 0 →
    wp (sq_add cpu x) (λ _ q', sq_inv q' ∧
      ∀ y, y ≠ 0 → sq_waiters q' y = if y =? x then sq_waiters q y ++ [t] else sq_waiters q y) q;
  sq_wake_spec q x :
    sq_inv q → x ≠ 0 →
    wp (sq_wake x) (λ _ q', sq_inv q' ∧
      ∀ y, y ≠ 0 → sq_waiters q' y = if y =? x then tail (sq_waiters q y) else sq_waiters q y) q;
  sq_switch_spec q cpu :
    sq_inv q → 0 ≤ cpu < CONFIG_MAX_CPUS →
    wp (sq_switch cpu) (λ _ q', sq_inv q' ∧ ∀ y, y ≠ 0 → sq_waiters q' y = sq_waiters q y) q;
  sq_current_spec q cpu :
    sq_inv q → 0 ≤ cpu < CONFIG_MAX_CPUS → wp (sq_current cpu) (λ t q', q' = q ∧ 0 ≤ t) q;
}.

#[export] Program Instance sched_queue : SleepQueue sched := {|
  sq_add cpu x := sleepq_add cpu 0 x;
  sq_wake := sleepq_wake;
  sq_switch := thread_switch;
  sq_current := thread_get_current_thread;
  sq_inv := sched_inv;
  sq_waiters := waiters;
  sq_caller s cpu t := active s cpu t ∧ st_of s t = THREAD_RUNNING;
|}.
Next Obligation. intros cpu s t [(? & _) _]. done. Qed.
Next Obligation.
  intros s cpu t x Hi [(? & ? & ? & ?) ?] Hx.
  eapply wp_mono; [by apply (sleepq_add_queue s cpu 0 x t) |]. intros [] s' (? & ? & _). done.
Qed.
Next Obligation.
  intros s x Hi Hx. eapply wp_mono; [by apply sleepq_wake_queue |]. intros [] s' (? & ? & _). done.
Qed.
Next Obligation.
  intros s cpu Hi Hc. by apply schedule_queue.
Qed.
Next Obligation.
  intros s cpu Hi Hc. pose proof Hi as [Hq Hs _]. apply wp_get_current; [apply Hq | done |].
  intros t Ht. split; [done |]. eapply slot_nonneg, (st_cur_slot _ _ _ _ _ Hs), list_elem_of_lookup_2, Ht.
Qed.

(** ** Semaphores *)

Definition CONFIG_MAX_SEMAPHORES : Z := 128.
Definition SIZEOF_SEMAPHORE : Z := 12.

(** [semaphore_t], less its spinlock. *)
Record semaphore := mk_sem { value : Z; creator : Z }.

Section semaphore.
Context {Q : Type} `{SleepQueue Q}.
(** The address of [semaphore_table]. *)
Context (table_addr : Z).

Record sems := mk_sems { semaphore_table : list semaphore; sem_next : Z; sq : Q }.

Definition sem_addr (i : Z) : Z := table_addr + SIZEOF_SEMAPHORE * i.

Definition set_sem_table (l : list semaphore) (s : sems) : sems := mk_sems l (sem_next s) (sq s).
Definition get_sem (i : Z) : K sems semaphore :=
  s ← gets id; pure (aget (semaphore_table s) i).
Definition put_sem (i : Z) (x : semaphore) : K sems unit :=
  s ← gets id; l ← pure (aset (semaphore_table s) i x); modify (set_sem_table l).
Definition on_queue {A} (m : K Q A) : K sems A :=
  zoom sq (λ q s, mk_sems (semaphore_table s) (sem_next s) q) m.

Definition semaphore_init : K sems unit :=
  for_each (Z.to_nat CONFIG_MAX_SEMAPHORES) 0 (λ i,
    x ← get_sem i; put_sem i (mk_sem (value x) (-1))).

(** The index of the semaphore, [None] for [NULL]. *)
Definition semaphore_create (cpu v : Z) : K sems (option Z) :=
  kassert (0 <=? v);;
  found ← for_ (Z.to_nat CONFIG_MAX_SEMAPHORES) 0 (λ _,
    sem_id ← gets sem_next;
    modify (λ s, mk_sems (semaphore_table s) (Z.rem (sem_next s + 1) CONFIG_MAX_SEMAPHORES) (sq s));;
    x ← get_sem sem_id;
    if creator x =? -1 then
      me ← on_queue (sq_current cpu);
      put_sem sem_id (mk_sem (value x) me);;
      mret (Some sem_id)
    else mret None);
  match found with
  | None => mret None
  | Some sem_id =>
      x ← get_sem sem_id;
      put_sem sem_id (mk_sem v (creator x));;
      mret (Some sem_id)
  end.

Definition semaphore_destroy (i : Z) : K sems unit :=
  x ← get_sem i; put_sem i (mk_sem (value x) (-1)).

(** The critical section of [semaphore_P]; the result says whether the thread
    has queued itself and must switch. *)
Definition semaphore_P_locked (cpu i : Z) : K sems bool :=
  x ← get_sem i;
  put_sem i (mk_sem (s32 (value x - 1)) (creator x));;
  x ← get_sem i;
  if value x <? 0 then
    on_queue (sq_add cpu (sem_addr i));; mret true
  else mret false.

Definition semaphore_P (cpu i : Z) : K sems unit :=
  sleep ← semaphore_P_locked cpu i;
  if sleep : bool then on_queue (sq_switch cpu) else mret tt.

Definition semaphore_V (i : Z) : K sems unit :=
  x ← get_sem i;
  put_sem i (mk_sem (s32 (value x + 1)) (creator x));;
  x ← get_sem i;
  if value x <=? 0 then on_queue (sq_wake (sem_addr i)) else mret tt.

(** ** Invariant *)

(** The table is in kernel memory. *)
Context (table_addr_pos : 0 < table_addr).

Definition sem_waiters (s : sems) (i : Z) : list Z := sq_waiters (sq s) (sem_addr i).

(** A semaphore in use has as many waiters as its value is below zero; one
    that is not in use has none. *)
Definition sem_ok (s : sems) (i : Z) (x : semaphore) : Prop :=
  if creator x =? -1 then sem_waiters s i = []
  else is_s32 (value x) ∧ Z.of_nat (length (sem_waiters s i)) = Z.max 0 (- value x).

Definition sem_inv (s : sems) : Prop :=
  sq_inv (sq s) ∧ length (semaphore_table s) = 128%nat ∧ 0 ≤ sem_next s < 128 ∧
  ∀ i x, 0 ≤ i → semaphore_table s !! Z.to_nat i = Some x → sem_ok s i x.

(** The semaphore [i] exists and is [x]. *)
Definition sem_is (s : sems) (i : Z) (x : semaphore) : Prop :=
  0 ≤ i ∧ semaphore_table s !! Z.to_nat i = Some x ∧ creator x ≠ -1.

Lemma get_sem_wp s i x (P : semaphore → sems → Prop) :
  0 ≤ i → semaphore_table s !! Z.to_nat i = Some x → P x s → wp (get_sem i) P s.
Proof.
  intros Hi Hx HP. unfold get_sem, wp. rewrite bind_gets. unfold pure, id.
  by rewrite (proj2 (aget_Ok _ _ _) (conj Hi Hx)).
Qed.

Lemma put_sem_wp s i y (P : unit → sems → Prop) :
  0 ≤ i < Z.of_nat (length (semaphore_table s)) →
  P tt (set_sem_table (<[Z.to_nat i := y]> (semaphore_table s)) s) → wp (put_sem i y) P s.
Proof.
  intros Hi HP. unfold put_sem, wp. rewrite bind_gets. unfold mbind, K_bind, pure, id.
  by rewrite aset_Ok.
Qed.

Lemma sem_addr_nz i : 0 ≤ i → sem_addr i ≠ 0.
Proof using table_addr_pos. unfold sem_addr, SIZEOF_SEMAPHORE. lia. Qed.

Lemma sem_addr_inj i j : sem_addr i = sem_addr j → i = j.
Proof using Type. unfold sem_addr, SIZEOF_SEMAPHORE. lia. Qed.

Lemma sem_index s i x :
  length (semaphore_table s) = 128%nat → 0 ≤ i → semaphore_table s !! Z.to_nat i = Some x →
  0 ≤ i < Z.of_nat (length (semaphore_table s)).
Proof using Type. intros Hl Hi Hx%lookup_lt_Some. lia. Qed.

(** Changing one semaphore and its queue keeps the invariant of the others. *)
Lemma sem_inv_update s i x y q :
  sem_inv s → 0 ≤ i → semaphore_table s !! Z.to_nat i = Some x → sq_inv q →
  (∀ j, 0 ≤ j → j ≠ i → sq_waiters q (sem_addr j) = sem_waiters s j) →
  sem_ok (mk_sems (<[Z.to_nat i := y]> (semaphore_table s)) (sem_next s) q) i y →
  sem_inv (mk_sems (<[Z.to_nat i := y]> (semaphore_table s)) (sem_next s) q).
Proof using Type.
  intros (Hq & Hl & Hn & Hall) Hi Hx Hq' Hw Hy. split_and!; simpl; try (done || lia).
  { by rewrite length_insert. }
  intros j z Hj Hz. destruct (decide (j = i)) as [->|Hne].
  - rewrite list_lookup_insert_eq in Hz by (apply lookup_lt_Some in Hx; done). by injection Hz as <-.
  - rewrite list_lookup_insert_ne in Hz by lia. specialize (Hall j z Hj Hz).
    unfold sem_ok, sem_waiters in *. simpl. by rewrite Hw.
Qed.

Lemma P_locked_wp s cpu i x t :
  sem_inv s → sem_is s i x → sq_caller (sq s) cpu t → - 2 ^ 31 < value x →
  wp (semaphore_P_locked cpu i) (λ b s', sem_inv s' ∧ b = (value x <=? 0) ∧
    sem_is s' i (mk_sem (value x - 1) (creator x)) ∧
    sem_waiters s' i = (if value x <=? 0 then sem_waiters s i ++ [t] else sem_waiters s i) ∧
    ∀ j, 0 ≤ j → j ≠ i → sem_waiters s' j = sem_waiters s j ∧
      semaphore_table s' !! Z.to_nat j = semaphore_table s !! Z.to_nat j) s.
Proof using table_addr_pos.
  intros Hinv (Hi & Hx & Hc) Hcall Hmin. pose proof Hinv as (Hq & Hl & Hn & Hall).
  pose proof (sem_index _ _ _ Hl Hi Hx) as Hir. pose proof (Hall i x Hi Hx) as Hok.
  unfold sem_ok in Hok. rewrite (proj2 (Z.eqb_neq _ _) Hc) in Hok. destruct Hok as [Hv Hlen].
  unfold is_s32 in Hv. unfold semaphore_P_locked. wp_step. eapply get_sem_wp; [done | done |].
  wp_step. apply put_sem_wp; [done |]. rewrite s32_small by (unfold is_s32; lia).
  set (y := mk_sem (value x - 1) (creator x)). wp_step. eapply get_sem_wp; [done | |].
  { simpl. apply list_lookup_insert_eq. lia. }
  assert (Hy : sem_is (set_sem_table (<[Z.to_nat i := y]> (semaphore_table s)) s) i y).
  { split_and!; [done | simpl; apply list_lookup_insert_eq; lia | done]. }
  destruct (Z.leb_spec (value x) 0) as [Hle|Hgt]; simpl.
  - rewrite (proj2 (Z.ltb_lt _ _)) by lia. wp_step. unfold on_queue. wp_step. simpl.
    eapply wp_mono; [apply (sq_add_spec _ _ t); [done | done | by apply sem_addr_nz] |].
    intros [] q' [Hq' Hw]. wp_step.
    assert (Hwi : sq_waiters q' (sem_addr i) = sem_waiters s i ++ [t])
      by (rewrite Hw, Z.eqb_refl by (by apply sem_addr_nz); done).
    assert (Hwj : ∀ j, 0 ≤ j → j ≠ i → sq_waiters q' (sem_addr j) = sem_waiters s j).
    { intros j Hj Hne. rewrite Hw, (proj2 (Z.eqb_neq _ _)); [done | by intros ?%sem_addr_inj | by apply sem_addr_nz]. }
    split_and!; [| done | done | done |].
    + eapply sem_inv_update; try done. unfold sem_ok. simpl. rewrite (proj2 (Z.eqb_neq _ _) Hc).
      unfold sem_waiters. simpl. rewrite Hwi, length_app. simpl. unfold is_s32. lia.
    + intros j Hj Hne. split; [by apply Hwj |]. simpl. by rewrite list_lookup_insert_ne by lia.
  - rewrite (proj2 (Z.ltb_ge _ _)) by lia. wp_step. split_and!; [| done | done | done |].
    + apply (sem_inv_update s i x y (sq s)); try done. unfold sem_ok. simpl. rewrite (proj2 (Z.eqb_neq _ _) Hc).
      unfold sem_waiters in *. simpl. unfold is_s32. lia.
    + intros j Hj Hne. split; [done |]. simpl. by rewrite list_lookup_insert_ne by lia.
Qed.

Lemma V_wp s i x :
  sem_inv s → sem_is s i x → value x < 2 ^ 31 - 1 →
  wp (semaphore_V i) (λ _ s', sem_inv s' ∧ sem_is s' i (mk_sem (value x + 1) (creator x)) ∧
    sem_waiters s' i = tail (sem_waiters s i) ∧
    ∀ j, 0 ≤ j → j ≠ i → sem_waiters s' j = sem_waiters s j ∧
      semaphore_table s' !! Z.to_nat j = semaphore_table s !! Z.to_nat j) s.
Proof using table_addr_pos.
  intros Hinv (Hi & Hx & Hc) Hmax. pose proof Hinv as (Hq & Hl & Hn & Hall).
  pose proof (sem_index _ _ _ Hl Hi Hx) as Hir. pose proof (Hall i x Hi Hx) as Hok.
  unfold sem_ok in Hok. rewrite (proj2 (Z.eqb_neq _ _) Hc) in Hok. destruct Hok as [Hv Hlen].
  unfold is_s32 in Hv. unfold semaphore_V. wp_step. eapply get_sem_wp; [done | done |].
  wp_step. apply put_sem_wp; [done |]. rewrite s32_small by (unfold is_s32; lia).
  set (y := mk_sem (value x + 1) (creator x)). wp_step. eapply get_sem_wp; [done | |].
  { simpl. apply list_lookup_insert_eq. lia. }
  assert (Hy : sem_is (set_sem_table (<[Z.to_nat i := y]> (semaphore_table s)) s) i y).
  { split_and!; [done | simpl; apply list_lookup_insert_eq; lia | done]. }
  simpl. destruct (Z.leb_spec (value x + 1) 0) as [Hle|Hgt].
  - unfold on_queue. wp_step. simpl.
    eapply wp_mono; [apply sq_wake_spec; [done | by apply sem_addr_nz] |].
    intros [] q' [Hq' Hw].
    assert (Hwi : sq_waiters q' (sem_addr i) = tail (sem_waiters s i))
      by (rewrite Hw, Z.eqb_refl by (by apply sem_addr_nz); done).
    assert (Hwj : ∀ j, 0 ≤ j → j ≠ i → sq_waiters q' (sem_addr j) = sem_waiters s j).
    { intros j Hj Hne. rewrite Hw, (proj2 (Z.eqb_neq _ _)); [done | by intros ?%sem_addr_inj | by apply sem_addr_nz]. }
    split_and!; [| done | done |].
    + eapply sem_inv_update; try done. unfold sem_ok. simpl. rewrite (proj2 (Z.eqb_neq _ _) Hc).
      unfold sem_waiters in *. simpl. rewrite Hwi, length_tl. unfold is_s32. lia.
    + intros j Hj Hne. split; [by apply Hwj |]. simpl. by rewrite list_lookup_insert_ne by lia.
  - wp_step. assert (Hnil : sem_waiters s i = []).
    { apply nil_length_inv. lia. }
    split_and!; [| done | by unfold sem_waiters in *; simpl; rewrite Hnil |].
    + apply (sem_inv_update s i x y (sq s)); try done. unfold sem_ok. simpl. rewrite (proj2 (Z.eqb_neq _ _) Hc).
      unfold sem_waiters in *. simpl. unfold is_s32. lia.
    + intros j Hj Hne. split; [done |]. simpl. by rewrite list_lookup_insert_ne by lia.
Qed.

Lemma create_wp s cpu v :
  sem_inv s → 0 ≤ v < 2 ^ 31 → 0 ≤ cpu < CONFIG_MAX_CPUS →
  wp (semaphore_create cpu v) (λ r s', sem_inv s' ∧ sq s' = sq s ∧
    match r with
    | None => semaphore_table s' = semaphore_table s ∧
        ∀ i x, 0 ≤ i → semaphore_table s !! Z.to_nat i = Some x → creator x ≠ -1
    | Some i => (∃ x, semaphore_table s !! Z.to_nat i = Some x ∧ creator x = -1) ∧
        (∃ c, sem_is s' i (mk_sem v c)) ∧
        ∀ j, 0 ≤ j → j ≠ i → semaphore_table s' !! Z.to_nat j = semaphore_table s !! Z.to_nat j
    end) s.
Proof using Type.
  intros Hinv Hv Hcpu. pose proof Hinv as (Hq & Hl & Hn & Hall). unfold semaphore_create, CONFIG_MAX_SEMAPHORES.
  wp_step. wp_step; [apply Z.leb_le; lia |]. wp_step.
  set (slot_at k := (sem_next s + k) mod 128).
  assert (Hslot : ∀ k, 0 ≤ slot_at k < 128) by (intros k; by apply Z.mod_pos_bound).
  apply (wp_for (λ j s1, s1 = mk_sems (semaphore_table s) (slot_at j) (sq s) ∧
    ∀ k x, 0 ≤ k < j → semaphore_table s !! Z.to_nat (slot_at k) = Some x → creator x ≠ -1)).
  - split; [| lia]. unfold slot_at. rewrite Z.add_0_r, Z.mod_small by lia. by destruct s.
  - intros j s1 Hj [-> Hk]. do 4 wp_step. simpl.
    destruct (lookup_lt_is_Some_2 (semaphore_table s) (Z.to_nat (slot_at j))) as [x Hx].
    { specialize (Hslot j). lia. }
    assert (Hnext : Z.rem (slot_at j + 1) 128 = slot_at (j + 1)).
    { specialize (Hslot j). rewrite Z.rem_mod_nonneg by lia. unfold slot_at.
      rewrite Zplus_mod_idemp_l. f_equal. lia. }
    rewrite Hnext. wp_step. eapply get_sem_wp; [apply Hslot | exact Hx |].
    destruct (Z.eqb_spec (creator x) (-1)) as [Hfree|Hused].
    + wp_step. unfold on_queue. wp_step. simpl.
      eapply wp_mono; [by apply sq_current_spec |]. intros me q' [-> Hme]. wp_step.
      specialize (Hslot j). apply put_sem_wp; [simpl; lia |]. wp_step. wp_step.
      eapply get_sem_wp; [lia | simpl; apply list_lookup_insert_eq; lia |]. wp_step.
      apply put_sem_wp; [simpl; rewrite length_insert; lia |]. wp_step. simpl.
      rewrite list_insert_insert_eq. split_and!; [| done | by exists x | |].
      * apply (sem_inv_update (mk_sems (semaphore_table s) (slot_at (j + 1)) (sq s)) (slot_at j) x); try done; try lia.
        { split_and!; try done; simpl; unfold slot_at; apply Z.mod_pos_bound; lia. }
        unfold sem_ok. simpl. rewrite (proj2 (Z.eqb_neq _ _)) by lia.
        specialize (Hall (slot_at j) x ltac:(lia) Hx). unfold sem_ok in Hall. rewrite Hfree in Hall. simpl in Hall.
        unfold sem_waiters in *. simpl. rewrite Hall. simpl. unfold is_s32. lia.
      * exists me. split_and!; [lia | simpl; apply list_lookup_insert_eq; lia | simpl; lia].
      * intros i Hi Hne. simpl. by rewrite list_lookup_insert_ne by lia.
    + wp_step. split; [done |]. intros k y Hk' Hy. destruct (decide (k = j)) as [->|]; [congruence |].
      apply (Hk k y); [lia | done].
  - intros s1 [-> Hk]. wp_step. split_and!; [| done | done |].
    + split_and!; try done; simpl; unfold slot_at; apply Z.mod_pos_bound; lia.
    + intros i x Hi Hx. apply (Hk ((i - sem_next s) mod 128)).
      * pose proof (Z.mod_pos_bound (i - sem_next s) 128). lia.
      * unfold slot_at. rewrite Zplus_mod_idemp_r. replace (sem_next s + (i - sem_next s)) with i by lia.
        rewrite Z.mod_small; [done |]. apply lookup_lt_Some in Hx. lia.
Qed.

Lemma destroy_free_wp s i x :
  sem_inv s → sem_is s i x → 0 ≤ value x →
  wp (semaphore_destroy i) (λ _ s', sem_inv s' ∧ sq s' = sq s ∧
    semaphore_table s' !! Z.to_nat i = Some (mk_sem (value x) (-1)) ∧
    ∀ j, 0 ≤ j → j ≠ i → semaphore_table s' !! Z.to_nat j = semaphore_table s !! Z.to_nat j) s.
Proof using Type.
  intros Hinv (Hi & Hx & Hc) Hv. pose proof Hinv as (Hq & Hl & Hn & Hall).
  pose proof (Hall i x Hi Hx) as Hok. unfold sem_ok in Hok. rewrite (proj2 (Z.eqb_neq _ _) Hc) in Hok.
  unfold semaphore_destroy. wp_step. eapply get_sem_wp; [done | done |].
  apply put_sem_wp; [by eapply sem_index |]. split_and!; [| done | |].
  - apply (sem_inv_update s i x _ (sq s)); try done. unfold sem_ok. simpl.
    apply nil_length_inv. unfold sem_waiters in *. simpl. lia.
  - simpl. apply list_lookup_insert_eq. by eapply lookup_lt_Some.
  - intros j Hj Hne. simpl. by rewrite list_lookup_insert_ne by lia.
Qed.

Lemma destroy_wp s i x :
  sem_inv s → sem_is s i x → 0 ≤ value x →
  wp (semaphore_destroy i) (λ _ s', sem_inv s' ∧ sq s' = sq s ∧
    ∀ j, 0 ≤ j → j ≠ i → semaphore_table s' !! Z.to_nat j = semaphore_table s !! Z.to_nat j) s.
Proof using Type.
  intros Hinv Hx Hv. eapply wp_mono; [by apply destroy_free_wp |]. intros [] s' (? & ? & _ & ?). done.
Qed.

(** ** Runs *)

Inductive sem_op :=
| SP (cpu i : Z)
| SV (i : Z)
| SSwitch (cpu : Z)
| SCreate (cpu v : Z)
| SDestroy (i : Z)
| SOther.

(** A step of any processor.  [SSwitch] is the second half of a blocking
    [semaphore_P], or any other switch; [SOther] is what other code does with
    the sleep queue, on resources that are not semaphores. *)
Inductive sem_step : sems → sem_op → sems → Prop :=
| step_P s cpu i x t b s' :
    sem_is s i x → sq_caller (sq s) cpu t → - 2 ^ 31 < value x →
    semaphore_P_locked cpu i s = Ok (b, s') → sem_step s (SP cpu i) s'
| step_V s i x s' :
    sem_is s i x → value x < 2 ^ 31 - 1 →
    semaphore_V i s = Ok (tt, s') → sem_step s (SV i) s'
| step_switch s cpu s' :
    0 ≤ cpu < CONFIG_MAX_CPUS → on_queue (sq_switch cpu) s = Ok (tt, s') → sem_step s (SSwitch cpu) s'
| step_create s cpu v r s' :
    0 ≤ v < 2 ^ 31 → 0 ≤ cpu < CONFIG_MAX_CPUS →
    semaphore_create cpu v s = Ok (r, s') → sem_step s (SCreate cpu v) s'
| step_destroy s i x s' :
    sem_is s i x → 0 ≤ value x →
    semaphore_destroy i s = Ok (tt, s') → sem_step s (SDestroy i) s'
| step_other s q :
    sq_inv q → (∀ i, 0 ≤ i → sq_waiters q (sem_addr i) = sem_waiters s i) →
    sem_step s SOther (mk_sems (semaphore_table s) (sem_next s) q).

Inductive sem_steps : sems → list sem_op → sems → Prop :=
| steps_nil s : sem_steps s [] s
| steps_cons s o s1 l s' : sem_step s o s1 → sem_steps s1 l s' → sem_steps s (o :: l) s'.

(** By how much a step changes the value of semaphore [i]. *)
Definition delta (i : Z) (o : sem_op) : Z :=
  match o with
  | SP _ j => if j =? i then -1 else 0
  | SV j => if j =? i then 1 else 0
  | _ => 0
  end.
Definition deltas (i : Z) (l : list sem_op) : Z := foldr (λ o z, delta i o + z) 0 l.

Lemma sem_inv_queue s q :
  sem_inv s → sq_inv q → (∀ i, 0 ≤ i → sq_waiters q (sem_addr i) = sem_waiters s i) →
  sem_inv (mk_sems (semaphore_table s) (sem_next s) q).
Proof using Type.
  intros (_ & Hl & Hn & Hall) Hq Hw. split_and!; simpl; try (done || lia).
  intros i x Hi Hx. specialize (Hall i x Hi Hx). unfold sem_ok, sem_waiters in *. simpl. by rewrite Hw.
Qed.

Lemma sem_step_spec s o s' :
  sem_inv s → sem_step s o s' →
  sem_inv s' ∧
  ∀ i x, sem_is s i x → o ≠ SDestroy i → ∃ c, sem_is s' i (mk_sem (value x + delta i o) c).
Proof using table_addr_pos.
  intros Hinv Hstep.
  assert (Hkeep : ∀ s2 i x, sem_is s i x → semaphore_table s2 !! Z.to_nat i = semaphore_table s !! Z.to_nat i →
    ∃ c, sem_is s2 i (mk_sem (value x + 0) c)).
  { intros s2 i [v c] (? & Hx & ?) Heq. exists c. simpl. rewrite Z.add_0_r. split_and!; [done | by rewrite Heq | done]. }
  destruct Hstep as [s cpu i x t b s' Hx Hc Hm Hr|s i x s' Hx Hm Hr|s cpu s' Hc Hr|s cpu v r s' Hv Hc Hr|s i x s' Hx Hv Hr|s q Hq Hw].
  - pose proof (P_locked_wp s cpu i x t Hinv Hx Hc Hm) as Hw. unfold wp in Hw. rewrite Hr in Hw.
    destruct Hw as (Hi' & _ & Hx' & _ & Hoth). split; [done |]. intros j y Hy _. simpl.
    destruct (Z.eqb_spec i j) as [<-|Hne].
    + exists (creator x). assert (y = x) as -> by (destruct Hx as (_ & ? & _), Hy as (_ & ? & _); congruence). done.
    + apply Hkeep; [done |]. apply Hoth; [apply Hy | done].
  - pose proof (V_wp s i x Hinv Hx Hm) as Hw. unfold wp in Hw. rewrite Hr in Hw.
    destruct Hw as (Hi' & Hx' & _ & Hoth). split; [done |]. intros j y Hy _. simpl.
    destruct (Z.eqb_spec i j) as [<-|Hne].
    + exists (creator x). assert (y = x) as -> by (destruct Hx as (_ & ? & _), Hy as (_ & ? & _); congruence). done.
    + apply Hkeep; [done |]. apply Hoth; [apply Hy | done].
  - pose proof Hinv as (Hq & _). pose proof (sq_switch_spec (sq s) cpu Hq Hc) as Hw.
    unfold on_queue, zoom in Hr. unfold wp in Hw. destruct (sq_switch cpu (sq s)) as [[[] q]| | | |]; try done.
    injection Hr as <-. destruct Hw as [Hq' Hw]. split; [| by intros; apply Hkeep].
    apply sem_inv_queue; [done | done |]. intros i Hi. apply Hw. by apply sem_addr_nz.
  - pose proof (create_wp s cpu v Hinv Hv Hc) as Hw. unfold wp in Hw. rewrite Hr in Hw.
    destruct Hw as (Hi' & _ & Hpost). split; [done |]. intros j y Hy _. simpl. apply Hkeep; [done |].
    destruct r as [i|]; [| by destruct Hpost as [-> _]]. destruct Hpost as ((z & Hz & Hfree) & _ & Hoth).
    apply Hoth; [apply Hy |]. intros ->. destruct Hy as (_ & Hy & Hu). congruence.
  - pose proof (destroy_wp s i x Hinv Hx Hv) as Hw. unfold wp in Hw. rewrite Hr in Hw.
    destruct Hw as (Hi' & _ & Hoth). split; [done |]. intros j y Hy Hne. simpl. apply Hkeep; [done |].
    apply Hoth; [apply Hy | congruence].
  - split; [by apply sem_inv_queue |]. intros j y Hy _. by apply Hkeep.
Qed.

(** C19: a semaphore counts.  In every run of the processors in which it is not
    destroyed, a semaphore created with value [v] has the value [v] less one
    for every P begun and plus one for every V, and exactly as many threads
    wait on it as P operations exceed what is available: no thread waits while
    a unit is available, and no more than [v] plus the number of V operations
    ever get through.  This holds over any sleep queue that keeps the promises
    of [SleepQueue]. *)
Theorem semaphore_counts s i x l s' :
  sem_inv s → sem_is s i x → sem_steps s l s' → SDestroy i ∉ l →
  sem_inv s' ∧ (∃ c, sem_is s' i (mk_sem (value x + deltas i l) c)) ∧
  Z.of_nat (length (sem_waiters s' i)) = Z.max 0 (- (value x + deltas i l)).
Proof using table_addr_pos.
  intros Hinv Hx Hsteps Hnd.
  assert (H1 : sem_inv s' ∧ ∃ c, sem_is s' i (mk_sem (value x + deltas i l) c)).
  { revert x Hx. induction Hsteps as [s|s o s1 l s' Hs _ IH]; intros x Hx.
    - split; [done |]. exists (creator x). simpl. rewrite Z.add_0_r. by destruct x.
    - apply not_elem_of_cons in Hnd as [Hno Hnd].
      destruct (sem_step_spec s o s1 Hinv Hs) as [Hinv1 Hkeep].
      destruct (Hkeep i x Hx ltac:(congruence)) as [c Hx1].
      destruct (IH Hinv1 Hnd _ Hx1) as [? [c' Hx']]. split; [done |]. exists c'. simpl in *.
      by rewrite Z.add_assoc. }
  destruct H1 as [Hinv' [c Hx']]. split_and!; [done | by exists c |].
  destruct Hx' as (Hi & Hx' & Hc). pose proof Hinv' as (_ & _ & _ & Hall).
  specialize (Hall i _ Hi Hx'). unfold sem_ok in Hall. simpl in Hall, Hc.
  rewrite (proj2 (Z.eqb_neq _ _) Hc) in Hall. apply Hall.
Qed.

(** [semaphore_create] hands out a semaphore nobody uses, with the given
    value and no waiters, and leaves all others alone; it returns NULL only
    when all 128 are in use. *)
Theorem semaphore_create_fresh s cpu v :
  sem_inv s → 0 ≤ v < 2 ^ 31 → 0 ≤ cpu < CONFIG_MAX_CPUS →
  wp (semaphore_create cpu v) (λ r s', sem_inv s' ∧
    match r with
    | None => ∀ i, 0 ≤ i < 128 → ∃ x, sem_is s i x
    | Some i => (∀ x, ¬ sem_is s i x) ∧ (∃ c, sem_is s' i (mk_sem v c)) ∧ sem_waiters s' i = [] ∧
        ∀ j x, j ≠ i → sem_is s' j x ↔ sem_is s j x
    end) s.
Proof using Type.
  intros Hinv Hv Hc. pose proof Hinv as (_ & Hl & _).
  eapply wp_mono; [by apply create_wp |]. intros [i|] s' (Hinv' & Hq & Hpost); (split; [done |]).
  - destruct Hpost as ((x & Hx & Hfree) & (c & Hc') & Hoth). split_and!.
    + intros y (_ & Hy & Hu). congruence.
    + by exists c.
    + destruct Hc' as (Hi & Hx' & Hu). pose proof Hinv' as (_ & _ & _ & Hall).
      specialize (Hall i _ Hi Hx'). unfold sem_ok in Hall. simpl in Hall, Hu.
      rewrite (proj2 (Z.eqb_neq _ _) Hu) in Hall. apply nil_length_inv. lia.
    + intros j y Hne. unfold sem_is. split; intros (? & Hy & ?); (split_and!; [done | | done]);
        [rewrite <- Hoth | rewrite Hoth]; done.
  - destruct Hpost as [_ Hfull]. intros i Hi.
    destruct (lookup_lt_is_Some_2 (semaphore_table s) (Z.to_nat i)) as [x Hx]; [lia |].
    exists x. split_and!; [lia | done |]. eapply (Hfull i); [lia | done].
Qed.

(** waiters are served in the order in which they came.  A P that finds no
    unit queues its caller last and reports that it must switch; a V hands
    its unit to the thread that has waited longest. *)
Theorem semaphore_order s i x cpu t :
  sem_inv s → sem_is s i x → sq_caller (sq s) cpu t → - 2 ^ 31 < value x < 2 ^ 31 - 1 →
  wp (semaphore_P_locked cpu i) (λ b s', sem_inv s' ∧ b = (value x <=? 0) ∧
    sem_waiters s' i = if value x <=? 0 then sem_waiters s i ++ [t] else sem_waiters s i) s ∧
  wp (semaphore_V i) (λ _ s', sem_inv s' ∧ sem_waiters s' i = tail (sem_waiters s i)) s.
Proof using table_addr_pos.
  intros Hinv Hx Hc Hv. split.
  - eapply wp_mono; [apply (P_locked_wp s cpu i x t); done || lia |]. intros b s' (? & ? & _ & ? & _). done.
  - eapply wp_mono; [apply (V_wp s i x); done || lia |]. intros [] s' (? & _ & ? & _). done.
Qed.

End semaphore.

(** ** Witnesses *)

Definition example_sems : @sems sched :=
  mk_sems (mk_sem 0 1 :: replicate 127 (mk_sem 5 (-1))) 0 example_state.

Lemma example_sems_inv : sem_inv 0x80100000 example_sems.
Proof.
  assert (Hno : ∀ i, 0 ≤ i < 128 → sem_waiters 0x80100000 example_sems i = []).
  { intros i Hi. apply nil_length_inv, Nat.eqb_eq.
    apply (range_check (λ i, length (sem_waiters 0x80100000 example_sems i) =? 0)%nat 128); [| done].
    vm_compute. reflexivity. }
  split_and!; [apply example_state_inv | done | done | done |].
  intros i x Hi Hx. unfold sem_ok. rewrite Hno by (apply lookup_lt_Some in Hx; simpl in Hx; lia).
  case_test; [done |].
  assert (x = mk_sem 0 1 ∨ x = mk_sem 5 (-1)) as [-> | ->]; [| by split | done].
  apply list_elem_of_lookup_2, elem_of_cons in Hx as [->|Hx]; [by left | right].
  by apply elem_of_replicate in Hx as [-> _].
Qed.

Lemma example_sem_0 : sem_is example_sems 0 (mk_sem 0 1).
Proof. by split_and!. Qed.

Lemma example_sem_caller : sq_caller (sq example_sems) 0 1.
Proof. vm_compute. repeat split; discriminate. Qed.

Lemma semaphore_counts_witness :
  ∃ s', sem_steps 0x80100000 example_sems [SP 0 0; SSwitch 0; SV 0] s' ∧ sem_inv 0x80100000 s' ∧
  (∃ c, sem_is s' 0 (mk_sem (0 + 0) c)) ∧
  Z.of_nat (length (sem_waiters 0x80100000 s' 0)) = Z.max 0 (- (0 + 0)).
Proof.
  eassert (Hrun : sem_steps 0x80100000 example_sems [SP 0 0; SSwitch 0; SV 0] _).
  { eapply steps_cons; [eapply step_P; [exact example_sem_0 | exact example_sem_caller | done | vm_compute; reflexivity] |].
    eapply steps_cons; [eapply step_switch; [done | vm_compute; reflexivity] |].
    eapply steps_cons; [eapply (step_V _ _ _ (mk_sem (-1) 1)); [by split_and! | done | vm_compute; reflexivity] |].
    apply steps_nil. }
  eexists. split; [exact Hrun |].
  apply (semaphore_counts 0x80100000 ltac:(lia) _ 0 (mk_sem 0 1) _ _ example_sems_inv example_sem_0 Hrun).
  rewrite !not_elem_of_cons. repeat split; try discriminate. apply not_elem_of_nil.
Defined.

Lemma semaphore_create_fresh_witness :
  wp (semaphore_create 0 3) (λ r s', sem_inv 0x80100000 s' ∧
    match r with
    | None => ∀ i, 0 ≤ i < 128 → ∃ x, sem_is example_sems i x
    | Some i => (∀ x, ¬ sem_is example_sems i x) ∧ (∃ c, sem_is s' i (mk_sem 3 c)) ∧
        sem_waiters 0x80100000 s' i = [] ∧ ∀ j x, j ≠ i → sem_is s' j x ↔ sem_is example_sems j x
    end) example_sems.
Proof. apply (semaphore_create_fresh 0x80100000 _ 0 3 example_sems_inv); done || lia. Defined.

Lemma semaphore_order_witness :
  wp (semaphore_P_locked 0x80100000 0 0) (λ b s', sem_inv 0x80100000 s' ∧ b = (0 <=? 0) ∧
    sem_waiters 0x80100000 s' 0 = if 0 <=? 0 then sem_waiters 0x80100000 example_sems 0 ++ [1]
                                  else sem_waiters 0x80100000 example_sems 0) example_sems ∧
  wp (semaphore_V 0x80100000 0) (λ _ s', sem_inv 0x80100000 s' ∧
    sem_waiters 0x80100000 s' 0 = tail (sem_waiters 0x80100000 example_sems 0)) example_sems.
Proof.
  apply (semaphore_order 0x80100000 ltac:(lia) _ 0 (mk_sem 0 1) 0 1 example_sems_inv example_sem_0 example_sem_caller).
  done.
Defined.
