(* ===== verification/Disk.v ===== *)
(** * The disk driver (src/buenos/drivers/disk.c, disksched.c)

    Requests are structures of the callers, threaded into a queue through their
    [next] pointers; the driver holds the head of the queue and the request the
    disk works on.  The state has a store of requests, keyed by address, and the
    registers of the disk are the class [DiskPort].  [disk_submit_request] is
    cut where the caller waits on the semaphore of the request: [submit_start],
    then [semaphore_P], then [submit_end].  Each section under the spin lock of
    the device is one step. *)

From stdpp Require Import gmap.
From S2P Require Import Prelude Sched SchedSpec Semaphore.
Local Open Scope Z_scope.

Definition DISK_COMMAND_READ : Z := 0x1.
Definition DISK_COMMAND_WRITE : Z := 0x2.
Definition DISK_COMMAND_RIRQ : Z := 0x3.
Definition DISK_COMMAND_WIRQ : Z := 0x4.
Definition DISK_COMMAND_BLOCKS : Z := 0x5.
Definition DISK_COMMAND_BLOCKSIZE : Z := 0x6.
Definition DISK_STATUS_RBUSY (status : Z) : Z := Z.land status 0x00000001.
Definition DISK_STATUS_WBUSY (status : Z) : Z := Z.land status 0x00000002.
Definition DISK_STATUS_RIRQ (status : Z) : Z := Z.land status 0x00000004.
Definition DISK_STATUS_WIRQ (status : Z) : Z := Z.land status 0x00000008.
Definition DISK_STATUS_ERRORS (status : Z) : Z := Z.land status 0xf8000000.

(** [gbd_operation_t] *)
Definition GBD_OPERATION_READ : Z := 0.
Definition GBD_OPERATION_WRITE : Z := 1.

(** [gbd_request_t], less the unused field [internal]; [sem] is the index of a
    semaphore. *)
Record gbd_request := mk_req {
  r_block : Z; r_buf : Z; r_sem : option Z; r_operation : Z; r_next : Z; r_return : Z;
}.

Definition set_rsem (v : option Z) (r : gbd_request) : gbd_request :=
  mk_req (r_block r) (r_buf r) v (r_operation r) (r_next r) (r_return r).
Definition set_operation (v : Z) (r : gbd_request) : gbd_request :=
  mk_req (r_block r) (r_buf r) (r_sem r) v (r_next r) (r_return r).
Definition set_rnext (v : Z) (r : gbd_request) : gbd_request :=
  mk_req (r_block r) (r_buf r) (r_sem r) (r_operation r) v (r_return r).
Definition set_return (v : Z) (r : gbd_request) : gbd_request :=
  mk_req (r_block r) (r_buf r) (r_sem r) (r_operation r) (r_next r) v.

(** The registers: [disk_io_area_t]. *)
Class DiskPort (H : Type) := {
  dk_status : K H Z;
  dk_command : Z → K H unit;
  dk_data : K H Z;
  dk_tsector : Z → K H unit;
  dk_dmaaddr : Z → K H unit;
}.

Section disk.
Context {H : Type} `{DiskPort H} {Q : Type} `{SleepQueue Q}.
(** The address of the table of semaphores. *)
Context (table_addr : Z).

(** The store of requests, [disk_real_device_t] less its lock, the registers
    and the semaphores. *)
Record dstate := mk_dstate {
  requests : gmap Z gbd_request;
  request_queue : Z;
  request_served : Z;
  d_port : H;
  d_sems : @sems Q;
}.

Definition set_requests (v : gmap Z gbd_request) (s : dstate) : dstate :=
  mk_dstate v (request_queue s) (request_served s) (d_port s) (d_sems s).
Definition set_queue (v : Z) (s : dstate) : dstate :=
  mk_dstate (requests s) v (request_served s) (d_port s) (d_sems s).
Definition set_served (v : Z) (s : dstate) : dstate :=
  mk_dstate (requests s) (request_queue s) v (d_port s) (d_sems s).
Definition on_dport {A} (m : K H A) : K dstate A :=
  zoom d_port (λ p s, mk_dstate (requests s) (request_queue s) (request_served s) p (d_sems s)) m.
Definition on_dsems {A} (m : K (@sems Q) A) : K dstate A :=
  zoom d_sems (λ x s, mk_dstate (requests s) (request_queue s) (request_served s) (d_port s) x) m.

(** Access through a pointer to a request. *)
Definition get_req (a : Z) : K dstate gbd_request := λ s,
  match requests s !! a with Some r => Ok (r, s) | None => Undef end.
Definition set_req (a : Z) (f : gbd_request → gbd_request) : K dstate unit := λ s,
  match requests s !! a with Some r => Ok (tt, set_requests (<[a := f r]> (requests s)) s) | None => Undef end.

(** *** disksched.c *)

(** The loop that looks for the last request from [q] on. *)
Fixpoint last_request (fuel : nat) (q : Z) : K dstate Z :=
  match fuel with
  | O => pure NoFuel
  | S fuel' => r ← get_req q; if r_next r =? 0 then mret q else last_request fuel' (r_next r)
  end.

Definition disksched_schedule (request : Z) : K dstate unit :=
  q ← gets request_queue;
  if negb (q =? 0) then
    fuel ← gets (λ s, size (requests s));
    q ← last_request fuel q;
    set_req q (set_rnext request)
  else modify (set_queue request).

(** *** disk.c *)

(** The part of [disk_init] that sets up the queue. *)
Definition disk_init (s : dstate) : dstate := set_served 0 (set_queue 0 s).

Definition disk_next_request : K dstate unit :=
  st ← on_dport dk_status;
  kassert ((DISK_STATUS_RBUSY st =? 0) && (DISK_STATUS_WBUSY st =? 0));;
  served ← gets request_served;
  kassert (served =? 0);;
  req ← gets request_queue;
  if req =? 0 then mret tt
  else
    r ← get_req req;
    modify (set_queue (r_next r));;
    set_req req (set_rnext 0);;
    modify (set_served req);;
    on_dport (dk_tsector (r_block r));;
    on_dport (dk_dmaaddr (r_buf r));;
    (if r_operation r =? GBD_OPERATION_READ then on_dport (dk_command DISK_COMMAND_READ)
     else if r_operation r =? GBD_OPERATION_WRITE then on_dport (dk_command DISK_COMMAND_WRITE)
     else panic "disk_next_request: Unknown gbd operation.");;
    st ← on_dport dk_status;
    if negb (DISK_STATUS_ERRORS st =? 0) then panic "disk error occured" else mret tt.

Definition disk_interrupt_handle : K dstate unit :=
  st ← on_dport dk_status;
  if (DISK_STATUS_RIRQ st =? 0) && (DISK_STATUS_WIRQ st =? 0) then mret tt
  else
    on_dport (dk_command DISK_COMMAND_WIRQ);;
    on_dport (dk_command DISK_COMMAND_RIRQ);;
    served ← gets request_served;
    kassert (negb (served =? 0));;
    set_req served (set_return 0);;
    r ← get_req served;
    (match r_sem r with
     | Some k => on_dsems (semaphore_V table_addr k)
     | None => pure Undef
     end);;
    modify (set_served 0);;
    disk_next_request.

(** [disk_submit_request] up to the wait: [None] when no semaphore is free and
    the call returns 0; else whether the request is synchronous. *)
Definition submit_start (cpu request : Z) : K dstate (option bool) :=
  set_req request (λ r, set_return (-1) (set_rnext 0 r));;
  r ← get_req request;
  let sem_null := match r_sem r with None => true | Some _ => false end in
  ok ← (if sem_null then
          sem ← on_dsems (semaphore_create cpu 0);
          set_req request (set_rsem sem);;
          mret (match sem with None => false | Some _ => true end)
        else mret true);
  if negb ok then mret None
  else
    disksched_schedule request;;
    served ← gets request_served;
    (if served =? 0 then disk_next_request else mret tt);;
    mret (Some sem_null).

(** [semaphore_P(request->sem)]; the result says whether the caller sleeps and
    must switch. *)
Definition submit_wait (cpu request : Z) : K dstate bool :=
  r ← get_req request;
  match r_sem r with
  | Some k => on_dsems (semaphore_P_locked table_addr cpu k)
  | None => pure Undef
  end.

(** What follows the wait of a synchronous request. *)
Definition submit_end (request : Z) : K dstate Z :=
  r ← get_req request;
  (match r_sem r with
   | Some k => on_dsems (semaphore_destroy k)
   | None => pure Undef
   end);;
  set_req request (set_rsem None);;
  r ← get_req request;
  mret (if r_return r =? 0 then 1 else 0).

(** [disk_read_block] and [disk_write_block] up to the wait. *)
Definition disk_read_block (cpu request : Z) : K dstate (option bool) :=
  set_req request (set_operation GBD_OPERATION_READ);; submit_start cpu request.
Definition disk_write_block (cpu request : Z) : K dstate (option bool) :=
  set_req request (set_operation GBD_OPERATION_WRITE);; submit_start cpu request.

Definition disk_block_size : K dstate Z := on_dport (dk_command DISK_COMMAND_BLOCKSIZE);; on_dport dk_data.
Definition disk_total_blocks : K dstate Z := on_dport (dk_command DISK_COMMAND_BLOCKS);; on_dport dk_data.

End disk.
