(* ===== verification/DiskSpec.v ===== *)
(** * The disk driver: every request is served once, in order

    What the driver relies on is stated as the laws [DiskLaws] of the disk: the
    operation it works on, those it has finished, and the interrupts it has
    raised.  [dreach] are the states reached by any interleaving of callers,
    the disk, its interrupts and other code that uses semaphores; [disk_inv]
    holds in all of them. *)

From stdpp Require Import gmap.
From S2P Require Import Prelude Sched SchedSpec Semaphore Disk.
Local Open Scope Z_scope.

(** A command, a sector and an address. *)
Definition job : Type := Z * Z * Z.

Class DiskLaws (H : Type) `{DiskPort H} := {
  working : H → option job;
  finished : H → list job;
  (** the interrupt that a command acknowledges has been raised *)
  raised : H → Z → bool;
  at_sector : H → Z;
  at_addr : H → Z;
  (** the disk has the sector and can reach the address *)
  accepts : Z → Z → Prop;
  disk_status_law p :
    wp dk_status (λ st p', p' = p ∧
      ((DISK_STATUS_RBUSY st =? 0) && (DISK_STATUS_WBUSY st =? 0) = bool_decide (working p = None)) ∧
      ((DISK_STATUS_RIRQ st =? 0) && (DISK_STATUS_WIRQ st =? 0) =
        negb (raised p DISK_COMMAND_RIRQ || raised p DISK_COMMAND_WIRQ))) p;
  disk_sector_law p v :
    wp (dk_tsector v) (λ _ p', at_sector p' = v ∧ at_addr p' = at_addr p ∧
      working p' = working p ∧ finished p' = finished p ∧ ∀ c, raised p' c = raised p c) p;
  disk_addr_law p v :
    wp (dk_dmaaddr v) (λ _ p', at_sector p' = at_sector p ∧ at_addr p' = v ∧
      working p' = working p ∧ finished p' = finished p ∧ ∀ c, raised p' c = raised p c) p;
  disk_start_law p c :
    c = DISK_COMMAND_READ ∨ c = DISK_COMMAND_WRITE → working p = None → accepts (at_sector p) (at_addr p) →
    wp (dk_command c) (λ _ p', working p' = Some (c, at_sector p, at_addr p) ∧ finished p' = finished p ∧
      (∀ c, raised p' c = raised p c) ∧ wp dk_status (λ st _, DISK_STATUS_ERRORS st = 0) p') p;
  disk_ack_law p c :
    c = DISK_COMMAND_RIRQ ∨ c = DISK_COMMAND_WIRQ →
    wp (dk_command c) (λ _ p', working p' = working p ∧ finished p' = finished p ∧
      raised p' c = false ∧ ∀ c', c' ≠ c → raised p' c' = raised p c') p;
}.

Definition req0 : gbd_request := mk_req 0 0 None 0 0 0.

(** A list of requests linked through [next]. *)
Fixpoint linked (m : gmap Z gbd_request) (a : Z) (l : list Z) : Prop :=
  match l with
  | [] => a = 0
  | x :: l' => a = x ∧ x ≠ 0 ∧ ∃ r, m !! x = Some r ∧ linked m (r_next r) l'
  end.

(** A request without its link. *)
Definition core (m : gmap Z gbd_request) (a : Z) : option gbd_request := set_rnext 0 <$> m !! a.

Definition job_of (r : gbd_request) : job :=
  (if r_operation r =? GBD_OPERATION_READ then DISK_COMMAND_READ else DISK_COMMAND_WRITE, r_block r, r_buf r).
Definition jobs (m : gmap Z gbd_request) (l : list Z) : list job := map (λ a, job_of (default req0 (core m a))) l.

Lemma core_Some m a r : m !! a = Some r → core m a = Some (set_rnext 0 r).
Proof. intros E. unfold core. by rewrite E. Qed.

Lemma core_inv m a r : core m a = Some r → ∃ n, m !! a = Some (set_rnext n r) ∧ r_next r = 0.
Proof.
  unfold core. destruct (m !! a) as [q|] eqn:E; [| done]. intros [= <-]. exists (r_next q). split; [by destruct q | done].
Qed.

Lemma core_next m a n r : m !! a = Some r → ∀ b, core (<[a := set_rnext n r]> m) b = core m b.
Proof.
  intros E b. unfold core. destruct (decide (b = a)) as [->|]; [| by rewrite lookup_insert_ne].
  rewrite lookup_insert_eq, E. done.
Qed.

Lemma jobs_ext m m' l : (∀ a, core m' a = core m a) → jobs m' l = jobs m l.
Proof. intros E. unfold jobs. apply map_ext. intros a. by rewrite E. Qed.

Lemma jobs_insert m a r l : a ∉ l → jobs (<[a := r]> m) l = jobs m l.
Proof.
  intros Hn. unfold jobs. apply map_ext_in. intros b Hb%list_elem_of_In. unfold core. rewrite lookup_insert_ne; [done | set_solver].
Qed.

Lemma linked_insert m a l x r : x ∉ l → linked m a l → linked (<[x := r]> m) a l.
Proof.
  revert a. induction l as [|y l IH]; intros a Hx; [done |]. cbn. intros (-> & Hy & q & Hq & Hl).
  split; [done |]. split; [done |]. exists q. rewrite lookup_insert_ne by set_solver. split; [done |]. apply IH; set_solver.
Qed.

Lemma linked_core m a l x : linked m a l → x ∈ l → is_Some (core m x) ∧ x ≠ 0.
Proof.
  revert a. induction l as [|y l IH]; intros a; [set_solver |]. cbn. intros (-> & Hy & q & Hq & Hl) [->|Hx]%elem_of_cons.
  - split; [| done]. rewrite (core_Some _ _ _ Hq). by eexists.
  - by eapply IH.
Qed.

(** Hanging a request on the last one. *)
Lemma linked_snoc m a l z x rz rx :
  linked m a (l ++ [z]) → NoDup (l ++ [z]) → m !! z = Some rz → r_next rz = 0 →
  x ∉ l ++ [z] → x ≠ 0 → m !! x = Some rx → r_next rx = 0 →
  linked (<[z := set_rnext x rz]> m) a ((l ++ [z]) ++ [x]).
Proof.
  intros Hl Hnd Hz Hn Hx Hx0 Hmx Hnx. revert a Hl Hnd Hx. induction l as [|y l IH]; intros a Hl Hnd Hx; cbn in *.
  - destruct Hl as (-> & Hz0 & _). split; [done |]. split; [done |]. exists (set_rnext x rz).
    rewrite lookup_insert_eq. split; [done |]. cbn. split; [done |]. split; [done |]. exists rx.
    rewrite lookup_insert_ne by set_solver. done.
  - destruct Hl as (-> & Hy & q & Hq & Hl). apply NoDup_cons in Hnd as [Hny Hnd]. split; [done |]. split; [done |].
    exists q. rewrite lookup_insert_ne by set_solver. split; [done |]. apply IH; [done | done | set_solver].
Qed.

Lemma linked_last m a l : linked m a l → l ≠ [] → ∃ l' z r, l = l' ++ [z] ∧ m !! z = Some r ∧ r_next r = 0.
Proof.
  revert a. induction l as [|y l IH]; intros a; [done |]. cbn. intros (-> & Hy & q & Hq & Hl) _.
  destruct l as [|y' l]; [exists [], y, q; done |].
  destruct (IH _ Hl) as (l' & z & r & E & Hz & Hr); [done |]. exists (y :: l'), z, r. by rewrite E.
Qed.

Lemma linked_size m a l : linked m a l → NoDup l → (length l ≤ size m)%nat.
Proof.
  intros Hl Hnd. rewrite <- (size_dom m). rewrite <- (size_list_to_set (C := gset Z)) by done.
  apply subseteq_size. intros x Hx%elem_of_list_to_set. destruct (linked_core _ _ _ _ Hl Hx) as [[r Hr] _].
  apply elem_of_dom. apply core_inv in Hr as (n & -> & _). by eexists.
Qed.

Section disk.
Context {H : Type} `{DiskLaws H} {Q : Type} `{SleepQueue Q}.
Context (table_addr : Z).
Implicit Types (s : @dstate H Q).

(** ** The operations *)

Lemma get_req_wp s a r (P : gbd_request → dstate → Prop) : requests s !! a = Some r → P r s → wp (get_req a) P s.
Proof. intros E HP. unfold wp, get_req. by rewrite E. Qed.

Lemma set_req_wp s a r f (P : unit → dstate → Prop) :
  requests s !! a = Some r → P tt (set_requests (<[a := f r]> (requests s)) s) → wp (set_req a f) P s.
Proof. intros E HP. unfold wp, set_req. by rewrite E. Qed.

Lemma dstatus_wp s (P : Z → dstate → Prop) :
  (∀ st, ((DISK_STATUS_RBUSY st =? 0) && (DISK_STATUS_WBUSY st =? 0) = bool_decide (working (d_port s) = None)) →
    ((DISK_STATUS_RIRQ st =? 0) && (DISK_STATUS_WIRQ st =? 0) =
      negb (raised (d_port s) DISK_COMMAND_RIRQ || raised (d_port s) DISK_COMMAND_WIRQ)) → P st s) →
  wp (on_dport dk_status) P s.
Proof.
  intros HP. apply wp_zoom. eapply wp_mono; [apply disk_status_law |]. intros st p (-> & ? & ?).
  destruct s. by apply HP.
Qed.

Lemma last_request_wp fuel s a l l' z r :
  linked (requests s) a l → l = l' ++ [z] → requests s !! z = Some r → r_next r = 0 → NoDup l → (length l ≤ fuel)%nat →
  wp (last_request fuel a) (λ x s', x = z ∧ s' = s) s.
Proof.
  revert a l l'. induction fuel as [|fuel IH]; intros a l l' Hl -> Hz Hr Hnd Hf.
  { rewrite length_app in Hf. cbn in Hf. lia. }
  cbn [last_request]. wp_step. destruct l' as [|y l']; cbn in Hl.
  - destruct Hl as (-> & _ & q & Hq & _). eapply get_req_wp; [exact Hq |].
    assert (q = r) as -> by congruence. rewrite Hr. cbn [Z.eqb]. by wp_step.
  - destruct Hl as (-> & Hy & q & Hq & Hl). eapply get_req_wp; [exact Hq |].
    apply NoDup_cons in Hnd as [Hny Hnd].
    assert (Hnz : r_next q ≠ 0).
    { destruct l' as [|y' l']; cbn in Hl; destruct Hl as (-> & ? & _); done. }
    rewrite (proj2 (Z.eqb_neq _ _) Hnz). eapply IH; [exact Hl | done | done | done | done |]. cbn in Hf. lia.
Qed.

(** The scheduler hangs the request on the queue and changes nothing else. *)
Lemma disksched_wp s qs x rx (P : unit → dstate → Prop) :
  linked (requests s) (request_queue s) qs → NoDup qs → x ∉ qs → x ≠ 0 →
  requests s !! x = Some rx → r_next rx = 0 →
  (∀ m q, linked m q (qs ++ [x]) → (∀ a, core m a = core (requests s) a) →
    P tt (mk_dstate m q (request_served s) (d_port s) (d_sems s))) →
  wp (disksched_schedule x) P s.
Proof.
  intros Hl Hnd Hx Hx0 Hrx Hn HP. unfold disksched_schedule. wp_steps.
  destruct (decide (qs = [])) as [->|Hne].
  - cbn in Hl. rewrite Hl. cbn [Z.eqb negb]. wp_step. apply HP; [| done]. cbn. split; [done |]. split; [done |]. by exists rx.
  - destruct (linked_last _ _ _ Hl Hne) as (l & z & r & -> & Hz & Hr).
    assert (Hq : request_queue s ≠ 0).
    { destruct l; cbn in Hl; destruct Hl as (-> & ? & _); done. }
    rewrite (proj2 (Z.eqb_neq _ _) Hq). cbn [negb]. wp_steps.
    eapply wp_mono; [eapply last_request_wp; [exact Hl | done | exact Hz | done | done | by eapply linked_size] |].
    intros ? ? [-> ->]. eapply set_req_wp; [exact Hz |]. apply HP; [by eapply linked_snoc | by apply core_next].
Qed.

(** No interrupt is raised; and the disk does nothing. *)
Definition quiet (p : H) : Prop := raised p DISK_COMMAND_RIRQ || raised p DISK_COMMAND_WIRQ = false.
Definition idle (p : H) : Prop := working p = None ∧ quiet p.
Definition valid_req (r : gbd_request) : Prop :=
  (r_operation r = GBD_OPERATION_READ ∨ r_operation r = GBD_OPERATION_WRITE) ∧ accepts (r_block r) (r_buf r).

(** The command of a request is started. *)
Lemma start_io_wp s r :
  valid_req r → idle (d_port s) →
  wp (on_dport (dk_tsector (r_block r));;
      on_dport (dk_dmaaddr (r_buf r));;
      (if r_operation r =? GBD_OPERATION_READ then on_dport (dk_command DISK_COMMAND_READ)
       else if r_operation r =? GBD_OPERATION_WRITE then on_dport (dk_command DISK_COMMAND_WRITE)
       else panic "disk_next_request: Unknown gbd operation.");;
      st ← on_dport dk_status;
      if negb (DISK_STATUS_ERRORS st =? 0) then panic "disk error occured" else mret tt)
    (λ _ s', ∃ p, s' = mk_dstate (requests s) (request_queue s) (request_served s) p (d_sems s) ∧
      working p = Some (job_of r) ∧ finished p = finished (d_port s) ∧ quiet p) s.
Proof.
  intros [Hop Hacc] [Hw Hr]. wp_step. apply wp_zoom. eapply wp_mono; [apply disk_sector_law |].
  intros [] p1 (S1 & _ & W1 & F1 & R1). wp_step. apply wp_zoom. eapply wp_mono; [apply disk_addr_law |].
  cbn [d_port]. intros [] p2 (S2 & A2 & W2 & F2 & R2).
  assert (Hcmd : ∀ c, c = DISK_COMMAND_READ ∨ c = DISK_COMMAND_WRITE →
    wp (dk_command c) (λ _ p, working p = Some (c, r_block r, r_buf r) ∧ finished p = finished (d_port s) ∧
      quiet p ∧ wp dk_status (λ st _, DISK_STATUS_ERRORS st = 0) p) p2).
  { intros c Hc. eapply wp_mono; [apply disk_start_law; [done | congruence | by rewrite S2, S1, A2] |].
    intros [] p (Wp & Fp & Rp & He). rewrite S2, S1, A2 in Wp. split; [done |]. split; [congruence |].
    split; [| done]. unfold quiet. by rewrite !Rp, !R2, !R1. }
  assert (Hend : ∀ p, wp dk_status (λ st _, DISK_STATUS_ERRORS st = 0) p → ∀ P : unit → dstate → Prop,
    P tt (mk_dstate (requests s) (request_queue s) (request_served s) p (d_sems s)) →
    wp (st ← on_dport dk_status;
        if negb (DISK_STATUS_ERRORS st =? 0) then panic "disk error occured" else mret tt) P
      (mk_dstate (requests s) (request_queue s) (request_served s) p (d_sems s))).
  { intros p He P HP. wp_step. apply wp_zoom. cbn [d_port]. pose proof (disk_status_law p) as Hst.
    apply wp_iff in Hst as (st & p' & Est & -> & _). apply wp_iff. exists st, p. split; [done |].
    unfold wp in He. rewrite Est in He. rewrite He. cbn [Z.eqb negb]. by wp_step. }
  wp_step. unfold job_of. destruct Hop as [Ho|Ho]; rewrite Ho; cbn [Z.eqb GBD_OPERATION_READ GBD_OPERATION_WRITE];
    apply wp_zoom; (eapply wp_mono; [apply Hcmd; tauto |]); intros [] p (Wp & Fp & Rp & He); apply Hend; try done; by exists p.
Qed.

(** The next request of the queue, if there is one, is put to work. *)
Lemma next_wp s qs :
  linked (requests s) (request_queue s) qs → NoDup qs → request_served s = 0 → idle (d_port s) →
  (∀ a r, a ∈ qs → core (requests s) a = Some r → valid_req r) →
  wp disk_next_request (λ _ s', d_sems s' = d_sems s ∧ (∀ a, core (requests s') a = core (requests s) a) ∧
    finished (d_port s') = finished (d_port s) ∧ quiet (d_port s') ∧
    linked (requests s') (request_queue s') (tail qs) ∧ request_served s' = default 0 (head qs) ∧
    option_list (working (d_port s')) = jobs (requests s) (option_list (head qs))) s.
Proof.
  intros Hl Hnd Hs Hidle Hval. unfold disk_next_request. wp_step. apply dstatus_wp. intros st Hst _.
  rewrite bool_decide_true in Hst by apply Hidle. wp_step. wp_step; [done |]. wp_steps; [by rewrite Hs |]. wp_steps.
  destruct qs as [|x qs]; cbn in Hl.
  - rewrite Hl. cbn [Z.eqb]. wp_step. destruct Hidle as [Hw Hr]. rewrite Hw. done.
  - destruct Hl as (-> & Hx & r & Hr & Hl). rewrite (proj2 (Z.eqb_neq _ _) Hx). wp_step.
    eapply get_req_wp; [exact Hr |]. wp_steps. eapply set_req_wp; [exact Hr |]. wp_step. wp_step.
    set (s1 := set_served x _).
    assert (Hv : valid_req r).
    { apply (Hval x (set_rnext 0 r)); [set_solver | by apply core_Some]. }
    eapply wp_mono; [apply (start_io_wp s1 r); [exact Hv | exact Hidle] |]. intros [] s' (p & -> & Wp & Fp & Rp).
    cbn [d_sems requests d_port request_queue request_served s1 set_served set_requests set_queue head tail default option_list].
    split; [done |]. split; [by apply core_next |]. split; [done |]. split; [done |]. split; [| split; [done |]].
    + apply NoDup_cons in Hnd as [Hnx _]. by apply linked_insert.
    + change (jobs (requests s) _) with [job_of (default req0 (core (requests s) x))].
      rewrite Wp, (core_Some _ _ _ Hr). done.
Qed.

(** ** The invariant *)

(** The requests the disk has not finished. *)
Definition pending s (qs : list Z) : list Z := (if request_served s =? 0 then [] else [request_served s]) ++ qs.

(** [sub]: the operations in the order they were submitted; [act]: the requests
    whose callers have not returned, with their semaphores and whether the
    caller has come to [semaphore_P]; [qs]: the queue. *)
Record owned s (qs : list Z) (a k : Z) (b : bool) : Prop := {
  ow_req : ∃ r, core (requests s) a = Some r ∧ r_sem r = Some k ∧ valid_req r ∧
    r_return r = (if bool_decide (a ∈ pending s qs) then -1 else 0);
  ow_sem : ∃ c, sem_is (d_sems s) k (mk_sem ((if b then -1 else 0) + (if bool_decide (a ∈ pending s qs) then 0 else 1)) c);
}.

Record disk_inv (sub : list job) (act : gmap Z (Z * bool)) (qs : list Z) s : Prop := {
  di_sems : sem_inv table_addr (d_sems s);
  di_chain : linked (requests s) (request_queue s) qs;
  di_nodup : NoDup (pending s qs);
  di_active a : a ∈ pending s qs → is_Some (act !! a);
  di_owned a k b : act !! a = Some (k, b) → owned s qs a k b;
  di_inj a a' k b b' : act !! a = Some (k, b) → act !! a' = Some (k, b') → a = a';
  (** the disk works on the request served, or has raised its interrupt *)
  di_served :
    if request_served s =? 0 then qs = [] ∧ idle (d_port s)
    else (working (d_port s) = Some (job_of (default req0 (core (requests s) (request_served s)))) ∧
            quiet (d_port s)) ∨
         (working (d_port s) = None ∧
            ¬ quiet (d_port s));
  di_order : sub = finished (d_port s) ++ option_list (working (d_port s)) ++ jobs (requests s) qs;
}.

Lemma owned_frame s qs s' qs' a k b :
  owned s qs a k b → core (requests s') a = core (requests s) a →
  (0 ≤ k → semaphore_table (d_sems s') !! Z.to_nat k = semaphore_table (d_sems s) !! Z.to_nat k) →
  (a ∈ pending s' qs' ↔ a ∈ pending s qs) → owned s' qs' a k b.
Proof.
  intros [Hr (c & Hk & Ht & Hc)] Ec Es Hp. rewrite <- Ec, <- (bool_decide_ext _ _ Hp) in Hr.
  rewrite <- (bool_decide_ext _ _ Hp) in Ht, Hc. split; [exact Hr |]. exists c. split; [done |]. by rewrite Es.
Qed.

Lemma pending_in s qs a : a ∈ pending s qs ↔ (a = request_served s ∧ a ≠ 0) ∨ a ∈ qs.
Proof. unfold pending. destruct (Z.eqb_spec (request_served s) 0); set_solver. Qed.

(** When the next request is taken from the queue, those pending are those that
    were in the queue. *)
Lemma pending_next s s' qs :
  linked (requests s) (request_queue s) qs → request_served s' = default 0 (head qs) → pending s' (tail qs) = qs.
Proof.
  intros Hl E. unfold pending. rewrite E. destruct qs as [|x qs]; [done |]. cbn in *.
  destruct Hl as (_ & Hx & _). by rewrite (proj2 (Z.eqb_neq _ _) Hx).
Qed.

(** The disk works on the request taken from the queue. *)
Lemma served_next s s' qs :
  linked (requests s) (request_queue s) qs → (∀ a, core (requests s') a = core (requests s) a) →
  request_served s' = default 0 (head qs) → quiet (d_port s') →
  option_list (working (d_port s')) = jobs (requests s) (option_list (head qs)) →
  if request_served s' =? 0 then tail qs = [] ∧ idle (d_port s')
  else (working (d_port s') = Some (job_of (default req0 (core (requests s') (request_served s')))) ∧ quiet (d_port s')) ∨
       (working (d_port s') = None ∧ ¬ quiet (d_port s')).
Proof.
  intros Hl Ec Esv Hq Ew. rewrite Esv. destruct qs as [|x qs]; [change (default 0 _) with 0 | change (default 0 _) with x].
  - cbn [Z.eqb]. split; [done |]. split; [| done]. by destruct (working (d_port s')).
  - cbn in Hl. destruct Hl as (_ & Hx & _). rewrite (proj2 (Z.eqb_neq _ _) Hx). left. split; [| done].
    rewrite Ec. change (jobs _ _) with [job_of (default req0 (core (requests s) x))] in Ew.
    destruct (working (d_port s')); [by injection Ew as -> | done].
Qed.

Lemma ack_wp s :
  wp (on_dport (dk_command DISK_COMMAND_WIRQ);; on_dport (dk_command DISK_COMMAND_RIRQ)) (λ _ s', ∃ p,
    s' = mk_dstate (requests s) (request_queue s) (request_served s) p (d_sems s) ∧
    working p = working (d_port s) ∧ finished p = finished (d_port s) ∧ quiet p) s.
Proof.
  wp_step. apply wp_zoom. eapply wp_mono; [apply disk_ack_law; tauto |]. intros [] p1 (W1 & F1 & R1 & _).
  apply wp_zoom. eapply wp_mono; [apply disk_ack_law; tauto |]. cbn [d_port]. intros [] p2 (W2 & F2 & R2 & O2).
  exists p2. split; [done |]. split; [congruence |]. split; [congruence |]. unfold quiet. rewrite R2, O2, R1; done.
Qed.

Hypothesis table_addr_pos : 0 < table_addr.

(** The request served is done: its caller is woken.  The interrupts have been
    acknowledged, so the port is [p]. *)
Lemma served_done_wp sub act qs s p k b r :
  disk_inv sub act qs s → request_served s ≠ 0 → act !! request_served s = Some (k, b) →
  requests s !! request_served s = Some r → r_sem r = Some k → working (d_port s) = None →
  working p = None → finished p = finished (d_port s) → quiet p →
  wp (set_req (request_served s) (set_return 0);;
      r ← get_req (request_served s);
      (match r_sem r with
       | Some k => on_dsems (semaphore_V table_addr k)
       | None => pure Undef
       end);;
      modify (set_served 0);;
      disk_next_request) (λ _ s', ∃ qs', disk_inv sub act qs' s' ∧ request_served s ∉ pending s' qs')
    (mk_dstate (requests s) (request_queue s) (request_served s) p (d_sems s)).
Proof using table_addr_pos.
  intros I Hs Ha Hr Hk Hw Hwp Hfp Hq. set (a := request_served s) in *.
  destruct (di_owned _ _ _ _ I _ _ _ Ha) as [(r' & Er' & Ek' & Hv & Hret) (c & Hsem)].
  assert (Hin : a ∈ pending s qs) by (apply pending_in; left; done).
  rewrite bool_decide_true in Hret, Hsem by done. rewrite Z.add_0_r in Hsem.
  assert (Hnq : a ∉ qs).
  { pose proof (di_nodup _ _ _ _ I) as Hnd. unfold pending in Hnd. fold a in Hnd.
    rewrite (proj2 (Z.eqb_neq _ _) Hs) in Hnd. apply NoDup_cons in Hnd as [? _]. done. }
  assert (Hndq : NoDup qs).
  { pose proof (di_nodup _ _ _ _ I) as Hnd. unfold pending in Hnd. by apply NoDup_app in Hnd as (_ & _ & ?). }
  wp_step. eapply set_req_wp; [exact Hr |]. wp_step. eapply get_req_wp; [apply lookup_insert_eq |].
  change (r_sem (set_return 0 r)) with (r_sem r). rewrite Hk. wp_step. apply wp_zoom. cbn [d_sems set_requests].
  eapply wp_mono; [apply (V_wp table_addr table_addr_pos _ k _ (di_sems _ _ _ _ I) Hsem); cbn; destruct b; lia |].
  intros [] x (Hx & Hxk & _ & Hoth). wp_step. wp_step. set (s2 := set_served 0 _).
  assert (Hl2 : linked (requests s2) (request_queue s2) qs) by (apply linked_insert; [done | apply I]).
  eapply wp_mono; [apply (next_wp s2 qs Hl2 Hndq); [done | by split |] |].
  { intros a' r2 Hin2 E2. assert (a' ≠ a) by set_solver. cbn in E2. unfold core in E2.
    rewrite lookup_insert_ne in E2 by done.
    destruct (di_active _ _ _ _ I a') as [[k' b'] Hact]; [apply pending_in; tauto |].
    destruct (di_owned _ _ _ _ I _ _ _ Hact) as [(r3 & E3 & _ & Hv3 & _) _]. unfold core in E3. by simplify_eq. }
  intros [] s' (Es & Ec & Ef & Hq' & Hl' & Esv & Ew). exists (tail qs).
  pose proof (pending_next s2 s' qs Hl2 Esv) as Ep.
  split; [| by rewrite Ep]. split.
  - by rewrite Es.
  - done.
  - by rewrite Ep.
  - rewrite Ep. intros a' Ha'. apply (di_active _ _ _ _ I), pending_in. tauto.
  - intros a' k' b' Ha'. destruct (decide (a' = a)) as [->|Hne].
    + assert (k' = k ∧ b' = b) as [-> ->] by (split; congruence). split.
      * exists (set_return 0 r'). rewrite Ec, Ep, bool_decide_false by done. cbn. unfold core. rewrite lookup_insert_eq.
        apply core_inv in Er' as (n & Er' & En). assert (r = set_rnext n r') as -> by congruence.
        split; [by destruct r'; cbn in *; subst |]. done.
      * exists c. rewrite Ep, bool_decide_false by done. rewrite Es. exact Hxk.
    + eapply owned_frame; [by apply I | | |].
      * rewrite Ec. cbn. unfold core. by rewrite lookup_insert_ne.
      * intros Hk0. rewrite Es. cbn. apply (Hoth k'); [done |]. intros ->.
        apply Hne. by eapply (di_inj _ _ _ _ I).
      * rewrite Ep, pending_in. fold a. tauto.
  - apply I.
  - eapply served_next; [exact Hl2 | done | done | done | by rewrite Ew].
  - rewrite (di_order _ _ _ _ I), Hw, Ef, <- Hfp. f_equal. rewrite Ew, <- (jobs_insert _ a (set_return 0 r) qs) by done.
    rewrite (jobs_ext _ _ (tail qs) Ec). by destruct qs.
Qed.

Lemma interrupt_disk_wp sub act qs s :
  disk_inv sub act qs s →
  wp (disk_interrupt_handle table_addr) (λ _ s', ∃ qs', disk_inv sub act qs' s' ∧
    (¬ quiet (d_port s) → request_served s ≠ 0 ∧ request_served s ∉ pending s' qs')) s.
Proof using table_addr_pos.
  intros I. unfold disk_interrupt_handle. wp_step. apply dstatus_wp. intros st _ Hst. rewrite Hst.
  destruct (raised (d_port s) DISK_COMMAND_RIRQ || raised (d_port s) DISK_COMMAND_WIRQ) eqn:Hr; cbn [negb].
  2: { wp_step. exists qs. split; [done |]. intros Hn. by destruct Hn. }
  assert (Hnq : ¬ quiet (d_port s)) by (unfold quiet; congruence).
  pose proof (di_served _ _ _ _ I) as Hsv. destruct (Z.eqb_spec (request_served s) 0) as [|Hs].
  { by destruct Hsv as [_ [_ ?]]. }
  destruct Hsv as [[_ ?]|[Hw _]]; [done |].
  destruct (di_active _ _ _ _ I (request_served s)) as [[k b] Ha]; [apply pending_in; tauto |].
  destruct (di_owned _ _ _ _ I _ _ _ Ha) as [(r & Er & Ek & Hv & Hret) _].
  apply core_inv in Er as (n & Er & En).
  pose proof (ack_wp s) as Hack. apply wp_bind_inv in Hack. wp_step. eapply wp_mono; [exact Hack |].
  intros [] s1 H1'. wp_step. eapply wp_mono; [exact H1' |]. intros [] s2 (p & -> & Wp & Fp & Qp).
  wp_step. wp_step. wp_step. wp_step; [apply negb_true_iff; by apply Z.eqb_neq |].
  eapply wp_mono; [apply (served_done_wp sub act qs s p k b (set_rnext n r)); done || congruence |].
  intros [] s' (qs' & I' & Hout). exists qs'. done.
Qed.

(** *** Submitting a request *)

Lemma inv_nodup sub act qs s : disk_inv sub act qs s → NoDup qs.
Proof using Type. intros I. pose proof (di_nodup _ _ _ _ I) as Hnd. by apply NoDup_app in Hnd as (_ & _ & ?). Qed.

(** A request is added to those pending. *)
Lemma enqueue_inv sub sub' act qs qs' s s' a k r :
  disk_inv sub act qs s → act !! a = None → (∀ a' k' b', act !! a' = Some (k', b') → k' ≠ k) →
  r_sem r = Some k → valid_req r → r_return r = -1 → r_next r = 0 →
  sem_inv table_addr (d_sems s') → (∃ c, sem_is (d_sems s') k (mk_sem 0 c)) →
  (∀ j, 0 ≤ j → j ≠ k → semaphore_table (d_sems s') !! Z.to_nat j = semaphore_table (d_sems s) !! Z.to_nat j) →
  linked (requests s') (request_queue s') qs' →
  (∀ b, core (requests s') b = core (<[a := r]> (requests s)) b) →
  pending s' qs' = pending s qs ++ [a] →
  (if request_served s' =? 0 then qs' = [] ∧ idle (d_port s')
   else (working (d_port s') = Some (job_of (default req0 (core (requests s') (request_served s')))) ∧ quiet (d_port s')) ∨
        (working (d_port s') = None ∧ ¬ quiet (d_port s'))) →
  sub' = finished (d_port s') ++ option_list (working (d_port s')) ++ jobs (requests s') qs' →
  disk_inv sub' (<[a := (k, false)]> act) qs' s'.
Proof using table_addr_pos.
  intros I Ha Hk Hrk Hv Hret Hnx Hx Hsem Hoth Hl Ec Hp Hserved Hord.
  assert (Hna : a ∉ pending s qs) by (intros Hin; destruct (di_active _ _ _ _ I a Hin); congruence).
  assert (Hca : core (requests s') a = Some r).
  { rewrite Ec. unfold core. rewrite lookup_insert_eq. cbn. f_equal. destruct r; cbn in *; by subst. }
  assert (Hcb : ∀ b, b ≠ a → core (requests s') b = core (requests s) b).
  { intros b Hb. rewrite Ec. unfold core. by rewrite lookup_insert_ne. }
  split; [done | done | | | | | done | done].
  - rewrite Hp. apply NoDup_app. split; [apply I |]. split; [set_solver | apply NoDup_singleton].
  - rewrite Hp. intros a' [Hin|Hin%list_elem_of_singleton]%elem_of_app; [| subst; rewrite lookup_insert_eq; by eexists].
    rewrite lookup_insert_ne by set_solver. by apply (di_active _ _ _ _ I).
  - intros a' k' b'. rewrite lookup_insert. case_decide as Hd; [subst a'; intros [= <- <-] | intros Ha'].
    + split; rewrite Hp, bool_decide_true by set_solver; [by exists r | done].
    + eapply owned_frame; [by apply I | by apply Hcb | intros ?; apply Hoth; [done | by eapply Hk] |].
      rewrite Hp. set_solver.
  - intros a1 a2 k' b1 b2. rewrite !lookup_insert. case_decide; case_decide; subst; try done.
    + intros [= <- <-] E. by apply Hk in E.
    + intros E [= <- <-]. by apply Hk in E.
    + apply I.
Qed.

(** The request [a] of a caller that is about to submit it. *)
Definition fresh_req s (act : gmap Z (Z * bool)) (a : Z) (r : gbd_request) : Prop :=
  act !! a = None ∧ a ≠ 0 ∧ requests s !! a = Some r ∧ r_sem r = None ∧ valid_req r.

(** The part of [submit_start] under the lock of the device. *)
Lemma submit_locked_wp sub act qs s a k r x :
  disk_inv sub act qs s → act !! a = None → a ≠ 0 → is_Some (requests s !! a) →
  (∀ a' k' b', act !! a' = Some (k', b') → k' ≠ k) →
  r_sem r = Some k → valid_req r → r_return r = -1 → r_next r = 0 →
  sem_inv table_addr x → (∃ c, sem_is x k (mk_sem 0 c)) →
  (∀ j, 0 ≤ j → j ≠ k → semaphore_table x !! Z.to_nat j = semaphore_table (d_sems s) !! Z.to_nat j) →
  wp (disksched_schedule a;; served ← gets request_served;
      (if served =? 0 then disk_next_request else mret tt);; mret (Some true))
    (λ b s', b = Some true ∧ ∃ qs', disk_inv (sub ++ [job_of r]) (<[a := (k, false)]> act) qs' s')
    (mk_dstate (<[a := r]> (requests s)) (request_queue s) (request_served s) (d_port s) x).
Proof using table_addr_pos.
  intros I Ha Ha0 Hst Hk Hrk Hv Hret Hnx Hx Hsem Hoth.
  assert (Hna : a ∉ pending s qs) by (intros Hin; destruct (di_active _ _ _ _ I a Hin); congruence).
  assert (Hnq : a ∉ qs) by (intros ?; apply Hna, pending_in; tauto).
  pose proof (inv_nodup _ _ _ _ I) as Hnd.
  assert (Hjobs : ∀ m, (∀ b, core m b = core (<[a := r]> (requests s)) b) →
    jobs m (qs ++ [a]) = jobs (requests s) qs ++ [job_of r]).
  { intros m Em. rewrite (jobs_ext _ _ _ Em). unfold jobs. rewrite map_app. f_equal; [by apply jobs_insert |].
    cbn [map]. unfold core. by rewrite lookup_insert_eq. }
  wp_step. eapply disksched_wp; [apply linked_insert; [done | apply I] | done | done | done | apply lookup_insert_eq | done |].
  intros m q Hl Ec. wp_steps. cbn [request_served requests] in *.
  pose proof (di_served _ _ _ _ I) as Hsv. destruct (Z.eqb_spec (request_served s) 0) as [Hs|Hs].
  - destruct Hsv as [-> [Hw Hq]]. cbn [app] in *.
    eapply wp_mono; [apply (next_wp (mk_dstate m q (request_served s) (d_port s) x) [a] Hl); [apply NoDup_singleton | done | done |] |].
    { intros a' r' Hin%list_elem_of_singleton. subst a'. cbn [requests]. rewrite Ec. unfold core. rewrite lookup_insert_eq.
      by intros [= <-]. }
    intros [] s' (Es & Ec' & Ef & Hq' & Hl' & Esv & Ew). wp_step. split; [done |]. exists [].
    cbn [d_sems requests d_port head default option_list tail] in *.
    change (request_served s' = a) in Esv.
    assert (Ew' : option_list (working (d_port s')) = [job_of r]) by (rewrite Ew; exact (Hjobs m Ec)).
    eapply (enqueue_inv sub _ act [] [] s s' a k r); try done; rewrite ?Es; try done.
    + intros b. by rewrite Ec', Ec.
    + unfold pending. by rewrite Esv, Hs, (proj2 (Z.eqb_neq _ _) Ha0).
    + rewrite Esv, (proj2 (Z.eqb_neq _ _) Ha0). left. split; [| done]. rewrite Ec', Ec. unfold core.
      rewrite lookup_insert_eq. destruct (working (d_port s')); [by injection Ew' as -> | done].
    + rewrite Ew', (di_order _ _ _ _ I), Hw, Ef. by rewrite !app_nil_r.
  - wp_steps. split; [done |]. exists (qs ++ [a]).
    eapply (enqueue_inv sub _ act qs (qs ++ [a]) s _ a k r); try done; cbn [request_served d_port requests].
    + unfold pending. cbn. by rewrite app_assoc.
    + rewrite (proj2 (Z.eqb_neq _ _) Hs). destruct Hsv as [[Hw Hq]|Hsv]; [left | by right]. split; [| done].
      rewrite Hw, Ec. unfold core. rewrite lookup_insert_ne; [done |].
      intros E. apply Hna, pending_in. rewrite <- E. tauto.
    + by rewrite (Hjobs m Ec), (di_order _ _ _ _ I), <- !app_assoc.
Qed.

(** A change outside the driver: the requests it does not know, and semaphores
    it does not use. *)
Lemma inv_outside sub act qs s m x :
  disk_inv sub act qs s → (∀ a, is_Some (act !! a) → m !! a = requests s !! a) → sem_inv table_addr x →
  (∀ a k b, act !! a = Some (k, b) → 0 ≤ k →
    semaphore_table x !! Z.to_nat k = semaphore_table (d_sems s) !! Z.to_nat k) →
  disk_inv sub act qs (mk_dstate m (request_queue s) (request_served s) (d_port s) x).
Proof using table_addr_pos.
  intros I Hm Hx Hoth. set (s' := mk_dstate _ _ _ _ _).
  assert (Hc : ∀ a, a ∈ pending s qs → m !! a = requests s !! a) by (intros a Ha; by apply Hm, (di_active _ _ _ _ I)).
  assert (Hq : ∀ a, a ∈ qs → m !! a = requests s !! a) by (intros a Ha; apply Hc, pending_in; tauto).
  split; [done | | apply I | apply I | | apply I | |]; cbn [s' requests request_queue request_served d_port].
  - pose proof (di_chain _ _ _ _ I) as Hl. clear -Hl Hq. revert Hl. generalize (request_queue s).
    induction qs as [|y qs IH]; intros q; cbn; [done |]. intros (-> & Hy & r & Hr & Hl).
    split; [done |]. split; [done |]. exists r. rewrite Hq by set_solver. split; [done |]. apply IH; [| done].
    intros a Ha. apply Hq. set_solver.
  - intros a k b Ha. eapply owned_frame; [by apply I | | by eapply Hoth | done].
    cbn. unfold core. rewrite Hm; [done | by eexists].
  - pose proof (di_served _ _ _ _ I) as Hsv. destruct (Z.eqb_spec (request_served s) 0) as [|Hs]; [done |].
    unfold core. rewrite Hc; [done | apply pending_in; tauto].
  - rewrite (di_order _ _ _ _ I). do 2 f_equal. unfold jobs. apply map_ext_in. intros a Ha%list_elem_of_In.
    unfold core. by rewrite Hq.
Qed.

Lemma submit_start_wp sub act qs s cpu a r :
  disk_inv sub act qs s → fresh_req s act a r → 0 ≤ cpu < CONFIG_MAX_CPUS →
  wp (submit_start cpu a) (λ res s',
    match res with
    | None => disk_inv sub act qs s' ∧
        ∀ i x, 0 ≤ i → semaphore_table (d_sems s) !! Z.to_nat i = Some x → creator x ≠ -1
    | Some b => b = true ∧ ∃ k qs', disk_inv (sub ++ [job_of r]) (<[a := (k, false)]> act) qs' s'
    end) s.
Proof using table_addr_pos.
  intros I (Ha & Ha0 & Hr & Hsem & Hv) Hcpu. unfold submit_start. wp_step. eapply set_req_wp; [exact Hr |].
  wp_step. eapply get_req_wp; [apply lookup_insert_eq |]. change (r_sem (set_return _ _)) with (r_sem r). rewrite Hsem.
  wp_step. wp_step. apply wp_zoom. cbn [d_sems set_requests].
  eapply wp_mono; [apply (create_wp table_addr); [apply I | lia | done] |]. intros sem x (Hx & Eq & Hcr).
  wp_step. eapply set_req_wp; [apply lookup_insert_eq |]. wp_step.
  unfold set_requests. cbn [requests request_queue request_served d_port d_sems]. rewrite insert_insert_eq.
  destruct sem as [k|]; cbn [negb].
  - destruct Hcr as ((y & Hy & Hfree) & Hnew & Hoth).
    eapply wp_mono; [eapply (submit_locked_wp sub act qs s a k (set_rsem (Some k) (set_return (-1) (set_rnext 0 r)))) |].
    all: try done; try by eexists.
    { intros a' k' b' Ha' ->. destruct (di_owned _ _ _ _ I _ _ _ Ha') as [_ (c & _ & E & Hc)].
      rewrite Hy in E. by injection E as ->. }
    intros b s' [-> [qs' I']]. split; [done |]. by exists k, qs'.
  - wp_step. destruct Hcr as [Et Hall]. split; [| done].
    apply (inv_outside _ _ _ s _ x I); [| done |].
    + intros a' [v Hv']. rewrite lookup_insert_ne; [done |]. congruence.
    + intros. by rewrite Et.
Qed.

(** The caller waits: it sleeps exactly when its request is not done. *)
Lemma submit_wait_wp sub act qs s cpu t a k :
  disk_inv sub act qs s → act !! a = Some (k, false) → sq_caller (sq (d_sems s)) cpu t →
  wp (submit_wait table_addr cpu a) (λ b s', b = bool_decide (a ∈ pending s qs) ∧
    disk_inv sub (<[a := (k, true)]> act) qs s') s.
Proof using table_addr_pos.
  intros I Ha Hcall. destruct (di_owned _ _ _ _ I _ _ _ Ha) as [(r & Er & Ek & Hv & Hret) (c & Hsem)].
  pose proof Er as Er'. apply core_inv in Er as (n & Er & _). unfold submit_wait. wp_step. eapply get_req_wp; [exact Er |].
  change (r_sem (set_rnext n r)) with (r_sem r). rewrite Ek. apply wp_zoom.
  eapply wp_mono; [apply (P_locked_wp table_addr table_addr_pos _ _ _ _ t (di_sems _ _ _ _ I) Hsem Hcall);
    cbn; case_bool_decide; lia |].
  intros b x (Hx & -> & Hsem' & _ & Hoth). cbn [value creator] in *. split; [by case_bool_decide |].
  set (s' := mk_dstate _ _ _ _ _).
  assert (Io : ∀ a' k' b', <[a:=(k, true)]> act !! a' = Some (k', b') → owned s' qs a' k' b').
  { intros a' k' b'. rewrite lookup_insert. destruct (decide (a = a')) as [Hd|Hd]; [subst a'; intros [= <- <-] | intros Ha'].
    - split; [by exists r |]. exists c. replace (_ + _) with ((if bool_decide (a ∈ pending s' qs) then 0 else 1) - 1) by lia.
      exact Hsem'.
    - eapply owned_frame; [by apply I | done | | done]. intros Hk'. apply (Hoth k'); [done |].
      intros ->. apply Hd. by eapply (di_inj _ _ _ _ I). }
  destruct I as [Is Ic In Ia _ Ii Isv Iord]. split; try done.
  - intros a' Hin. rewrite lookup_insert. destruct (decide (a = a')); [by eexists | by apply Ia].
  - intros a1 a2 k' b1 b2. rewrite !lookup_insert. destruct (decide (a = a1)), (decide (a = a2)); subst; try done;
      intros E1 E2; simplify_eq; by eapply Ii.
Qed.

(** The caller goes on when nobody waits on its semaphore any more: its request
    is done, and the call returns 1. *)
Lemma submit_end_wp sub act qs s a k :
  disk_inv sub act qs s → act !! a = Some (k, true) → sem_waiters table_addr (d_sems s) k = [] →
  wp (submit_end a) (λ v s', v = 1 ∧ disk_inv sub (delete a act) qs s') s.
Proof using table_addr_pos.
  intros I Ha Hw. destruct (di_owned _ _ _ _ I _ _ _ Ha) as [(r & Er & Ek & Hv & Hret) (c & Hsem)].
  pose proof Hsem as (Hk0 & Ht & Hc). destruct (di_sems _ _ _ _ I) as (_ & _ & _ & Hall).
  specialize (Hall _ _ Hk0 Ht). unfold sem_ok in Hall. cbn [creator value] in Hall, Hc.
  rewrite (proj2 (Z.eqb_neq _ _) Hc), Hw in Hall. destruct Hall as [_ Hlen].
  assert (Hnp : a ∉ pending s qs) by (intros Hin; rewrite bool_decide_true in Hlen by done; cbn in Hlen; lia).
  rewrite bool_decide_false in Hret, Hsem by done.
  apply core_inv in Er as (n & Er & _). unfold submit_end. wp_step. eapply get_req_wp; [exact Er |].
  change (r_sem (set_rnext n r)) with (r_sem r). rewrite Ek. wp_step. apply wp_zoom.
  eapply wp_mono; [apply (destroy_wp table_addr _ _ _ (di_sems _ _ _ _ I) Hsem); cbn; lia |].
  intros [] x (Hx & _ & Hoth). wp_step. eapply set_req_wp; [exact Er |]. wp_step.
  eapply get_req_wp; [apply lookup_insert_eq |]. wp_step.
  change (r_return (set_rsem None (set_rnext n r))) with (r_return r). rewrite Hret. split; [done |].
  assert (Id : disk_inv sub (delete a act) qs s).
  { destruct I as [Is Ic In Ia Io Ii Isv Iord]. split; try done.
    - intros a' Hin. rewrite lookup_delete_ne; [by apply Ia |]. by intros ->.
    - intros a' k' b' [_ Ha']%lookup_delete_Some. by apply Io.
    - intros a1 a2 k' b1 b2 [_ H1']%lookup_delete_Some [_ H2']%lookup_delete_Some. by eapply Ii. }
  apply (inv_outside _ _ _ s _ x Id); [| done |].
  - intros a' [v Hv']. apply lookup_delete_Some in Hv' as [Hne _]. by rewrite lookup_insert_ne.
  - intros a' k' b' [Hne Ha']%lookup_delete_Some Hk'. apply Hoth; [done |]. intros ->. apply Hne. by eapply (di_inj _ _ _ _ I).
Qed.

(** ** Any interleaving *)

Definition submit (w : bool) (cpu a : Z) : K dstate (option bool) :=
  if w then disk_write_block cpu a else disk_read_block cpu a.
Definition job_for (w : bool) (r : gbd_request) : job :=
  (if w then DISK_COMMAND_WRITE else DISK_COMMAND_READ, r_block r, r_buf r).

Lemma submit_wp sub act qs s w cpu a r :
  disk_inv sub act qs s → act !! a = None → a ≠ 0 → requests s !! a = Some r → r_sem r = None →
  accepts (r_block r) (r_buf r) → 0 ≤ cpu < CONFIG_MAX_CPUS →
  wp (submit w cpu a) (λ res s',
    match res with
    | None => disk_inv sub act qs s' ∧
        ∀ i x, 0 ≤ i → semaphore_table (d_sems s) !! Z.to_nat i = Some x → creator x ≠ -1
    | Some b => b = true ∧ ∃ k qs', disk_inv (sub ++ [job_for w r]) (<[a := (k, false)]> act) qs' s'
    end) s.
Proof using table_addr_pos.
  intros I Ha Ha0 Hr Hs Hacc Hcpu.
  assert (Hop : ∀ o, o = GBD_OPERATION_READ ∨ o = GBD_OPERATION_WRITE →
    wp (set_req a (set_operation o);; submit_start cpu a) (λ res s',
      match res with
      | None => disk_inv sub act qs s' ∧
          ∀ i x, 0 ≤ i → semaphore_table (d_sems s) !! Z.to_nat i = Some x → creator x ≠ -1
      | Some b => b = true ∧ ∃ k qs', disk_inv (sub ++ [job_of (set_operation o r)]) (<[a := (k, false)]> act) qs' s'
      end) s).
  { intros o Ho. wp_step. eapply set_req_wp; [exact Hr |].
    apply (submit_start_wp sub act qs (set_requests (<[a := set_operation o r]> (requests s)) s) cpu a (set_operation o r));
      [| split; [done |]; split; [done |]; split; [apply lookup_insert_eq |]; by split | done].
    destruct s as [m q sv p x]. apply (inv_outside _ _ _ _ (<[a:=_]> m) x I); [| apply I | done].
    intros a' [v Hv]. rewrite lookup_insert_ne; [done |]. intros ->. congruence. }
  destruct w; apply Hop; tauto.
Qed.

Inductive dreach : list job → gmap Z (Z * bool) → @dstate H Q → Prop :=
  | dr_init s : sem_inv table_addr (d_sems s) → idle (d_port s) → finished (d_port s) = [] → dreach [] ∅ (disk_init s)
  (** a caller submits a synchronous request *)
  | dr_submit sub act s w cpu a r r' k s' :
      dreach sub act s → act !! a = None → a ≠ 0 → requests s !! a = Some r → r_sem r = None →
      accepts (r_block r) (r_buf r) → 0 ≤ cpu < CONFIG_MAX_CPUS →
      submit w cpu a s = Ok (Some true, s') → requests s' !! a = Some r' → r_sem r' = Some k →
      dreach (sub ++ [job_for w r]) (<[a := (k, false)]> act) s'
  | dr_submit_fails sub act s w cpu a r s' :
      dreach sub act s → act !! a = None → a ≠ 0 → requests s !! a = Some r → r_sem r = None →
      accepts (r_block r) (r_buf r) → 0 ≤ cpu < CONFIG_MAX_CPUS →
      submit w cpu a s = Ok (None, s') → dreach sub act s'
  | dr_wait sub act s cpu t a k b s' :
      dreach sub act s → act !! a = Some (k, false) → sq_caller (sq (d_sems s)) cpu t →
      submit_wait table_addr cpu a s = Ok (b, s') → dreach sub (<[a := (k, true)]> act) s'
  (** a caller that does not sleep, or has been woken, goes on *)
  | dr_end sub act s a k v s' :
      dreach sub act s → act !! a = Some (k, true) → sem_waiters table_addr (d_sems s) k = [] →
      submit_end a s = Ok (v, s') → dreach sub (delete a act) s'
  | dr_interrupt sub act s s' :
      dreach sub act s → disk_interrupt_handle table_addr s = Ok (tt, s') → dreach sub act s'
  (** the disk finishes what it works on *)
  | dr_device sub act s p x :
      dreach sub act s → working (d_port s) = Some x → working p = None →
      finished p = finished (d_port s) ++ [x] → ¬ quiet p →
      dreach sub act (mk_dstate (requests s) (request_queue s) (request_served s) p (d_sems s))
  (** other code: requests the driver does not have, semaphores of others *)
  | dr_other sub act s m x :
      dreach sub act s → (∀ a, is_Some (act !! a) → m !! a = requests s !! a) → sem_inv table_addr x →
      (∀ a k b, act !! a = Some (k, b) → 0 ≤ k →
        semaphore_table x !! Z.to_nat k = semaphore_table (d_sems s) !! Z.to_nat k) →
      dreach sub act (mk_dstate m (request_queue s) (request_served s) (d_port s) x).

Lemma dreach_inv sub act s : dreach sub act s → ∃ qs, disk_inv sub act qs s.
Proof using table_addr_pos.
  induction 1 as [s Hs Hi Hf | sub act s w cpu a r r' k s' _ [qs I] Ha Ha0 Hr Hn Hacc Hcpu E Er' Ek
    | sub act s w cpu a r s' _ [qs I] Ha Ha0 Hr Hn Hacc Hcpu E | sub act s cpu t a k b s' _ [qs I] Ha Hc E
    | sub act s a k v s' _ [qs I] Ha Hw E | sub act s s' _ [qs I] E
    | sub act s p x _ [qs I] Hw Hwp Hf Hq | sub act s m x _ [qs I] Hm Hx Ht].
  - exists []. split; try done; [apply NoDup_nil_2 | set_solver |]. cbn. by rewrite Hf, (proj1 Hi).
  - pose proof (submit_wp _ _ _ _ w cpu a r I Ha Ha0 Hr Hn Hacc Hcpu) as Hw. unfold wp in Hw. rewrite E in Hw.
    destruct Hw as (_ & k' & qs' & I'). exists qs'. destruct (di_owned _ _ _ _ I' a k' false) as [(r2 & Er2 & Ek2 & _) _].
    { apply lookup_insert_eq. }
    apply core_inv in Er2 as (n & Er2 & _). assert (k' = k) as ->; [| done].
    rewrite Er' in Er2. injection Er2 as ->. cbn in Ek. congruence.
  - pose proof (submit_wp _ _ _ _ w cpu a r I Ha Ha0 Hr Hn Hacc Hcpu) as Hw. unfold wp in Hw. rewrite E in Hw. exists qs. apply Hw.
  - pose proof (submit_wait_wp _ _ _ _ cpu t a k I Ha Hc) as Hw. unfold wp in Hw. rewrite E in Hw. exists qs. apply Hw.
  - pose proof (submit_end_wp _ _ _ _ a k I Ha Hw) as Hv. unfold wp in Hv. rewrite E in Hv. exists qs. apply Hv.
  - pose proof (interrupt_disk_wp _ _ _ _ I) as Hw. unfold wp in Hw. rewrite E in Hw.
    destruct Hw as (qs' & I' & _). by exists qs'.
  - exists qs. destruct I as [Is Ic In Ia Io Ii Isv Iord].
    split; [done | done | done | done | | done | |]; cbn [request_served d_port requests].
    + intros a k b Ha. eapply owned_frame; [by apply Io | done..].
    + destruct (request_served s =? 0); [destruct Isv as [_ [? _]]; congruence |]. by right.
    + rewrite Iord, Hf, Hwp, Hw, <- app_assoc. done.
  - exists qs. by apply inv_outside.
Qed.

End disk.

(** ** A disk *)

Record drive := mk_drive { dv_work : option job; dv_done : list job; dv_rirq : bool; dv_wirq : bool; dv_sector : Z; dv_addr : Z }.

Definition drive_status (p : drive) : Z :=
  match dv_work p with None => 0 | Some (c, _, _) => if c =? DISK_COMMAND_READ then 1 else 2 end +
  (if dv_rirq p then 4 else 0) + (if dv_wirq p then 8 else 0).

Definition drive_command (c : Z) (p : drive) : drive :=
  if c =? DISK_COMMAND_RIRQ then mk_drive (dv_work p) (dv_done p) false (dv_wirq p) (dv_sector p) (dv_addr p)
  else if c =? DISK_COMMAND_WIRQ then mk_drive (dv_work p) (dv_done p) (dv_rirq p) false (dv_sector p) (dv_addr p)
  else if (c =? DISK_COMMAND_READ) || (c =? DISK_COMMAND_WRITE) then
    mk_drive (Some (c, dv_sector p, dv_addr p)) (dv_done p) (dv_rirq p) (dv_wirq p) (dv_sector p) (dv_addr p)
  else p.

#[export] Instance drive_port : DiskPort drive := {|
  dk_status := gets drive_status;
  dk_command c := modify (drive_command c);
  dk_data := mret 512;
  dk_tsector v := modify (λ p, mk_drive (dv_work p) (dv_done p) (dv_rirq p) (dv_wirq p) v (dv_addr p));
  dk_dmaaddr v := modify (λ p, mk_drive (dv_work p) (dv_done p) (dv_rirq p) (dv_wirq p) (dv_sector p) v);
|}.

#[export] Program Instance drive_laws : DiskLaws drive := {|
  working := dv_work; finished := dv_done;
  raised p c := if c =? DISK_COMMAND_RIRQ then dv_rirq p else if c =? DISK_COMMAND_WIRQ then dv_wirq p else false;
  at_sector := dv_sector; at_addr := dv_addr;
  accepts sector _ := 0 ≤ sector < 8;
|}.
Next Obligation.
  intros [[[[c sec] ad]|] l r w x y]; apply wp_gets; split; try done; unfold drive_status; cbn [dv_work dv_rirq dv_wirq].
  - destruct (c =? DISK_COMMAND_READ), r, w; done.
  - destruct r, w; done.
Qed.
Next Obligation. intros p v. by apply wp_modify. Qed.
Next Obligation. intros p v. by apply wp_modify. Qed.
Next Obligation. 
  intros [wk l r w x y] c [-> | ->] E _; apply wp_modify; (split; [done |]; split; [done |]; split; [done |]);
    apply wp_gets; by destruct r, w.
Qed.
Next Obligation.
  intros [wk l r w x y] c [-> | ->]; apply wp_modify; cbn; split_and!; try done; intros c' Hc'; by repeat case_test.
Qed.

Definition example_drive : @dstate drive sched :=
  mk_dstate {[0x100 := mk_req 3 0x9000 None 7 7 7; 0x200 := mk_req 5 0xa000 None 7 7 7]} 9 9
    (mk_drive None [] false false 0 0) example_sems.

(** The state after a call that returns. *)
Definition after_call {S A} (m : K S A) (s : S) : S := match m s with Ok (_, s') => s' | _ => s end.

(** A write and a read are submitted; the first caller waits. *)
Definition example_write : @dstate drive sched := after_call (submit true 0 0x100) (disk_init example_drive).
Definition example_read : @dstate drive sched := after_call (submit false 0 0x200) example_write.
Definition example_busy : @dstate drive sched := after_call (submit_wait 0x80100000 0 0x100) example_read.

Definition example_callers : gmap Z (Z * bool) := <[0x100 := (1, true)]> (<[0x200 := (2, false)]> (<[0x100 := (1, false)]> ∅)).

Ltac by_run := vm_compute; reflexivity.

Lemma example_write_reach :
  dreach 0x80100000 ([] ++ [job_for true (mk_req 3 0x9000 None 7 7 7)]) (<[0x100 := (1, false)]> ∅) example_write.
Proof.
  refine (dr_submit 0x80100000 [] ∅ (disk_init example_drive) true 0 0x100 (mk_req 3 0x9000 None 7 7 7)
    (mk_req 3 0x9000 (Some 1) 1 0 (-1)) 1 example_write _ _ _ _ _ _ _ _ _ _).
  - exact (dr_init 0x80100000 example_drive example_sems_inv (conj eq_refl eq_refl) eq_refl).
  - by_run.
  - discriminate.
  - by_run.
  - by_run.
  - vm_compute. split; [discriminate | reflexivity].
  - vm_compute. split; [discriminate | reflexivity].
  - by_run.
  - by_run.
  - by_run.
Qed.

Lemma example_read_reach :
  dreach 0x80100000 (([] ++ [job_for true (mk_req 3 0x9000 None 7 7 7)]) ++ [job_for false (mk_req 5 0xa000 None 7 7 7)])
    (<[0x200 := (2, false)]> (<[0x100 := (1, false)]> ∅)) example_read.
Proof.
  refine (dr_submit 0x80100000 _ _ example_write false 0 0x200 (mk_req 5 0xa000 None 7 7 7)
    (mk_req 5 0xa000 (Some 2) 0 0 (-1)) 2 example_read example_write_reach _ _ _ _ _ _ _ _ _).
  - by_run.
  - discriminate.
  - by_run.
  - by_run.
  - vm_compute. split; [discriminate | reflexivity].
  - vm_compute. split; [discriminate | reflexivity].
  - by_run.
  - by_run.
  - by_run.
Qed.

Lemma example_busy_reach :
  dreach 0x80100000 [(DISK_COMMAND_WRITE, 3, 0x9000); (DISK_COMMAND_READ, 5, 0xa000)] example_callers example_busy.
Proof.
  refine (dr_wait 0x80100000 _ _ example_read 0 1 0x100 1 true example_busy example_read_reach _ _ _).
  - by_run.
  - vm_compute. repeat split; discriminate.
  - by_run.
Qed.

