(* ===== verification/Heap.v ===== *)
(** * The pointer-based heap (src/heap/sequential-heap.c)

    The nodes live in a store from addresses to nodes; address 0 is NULL.
    [malloc] is the C library's: its result, NULL or the address of a block
    that is not in use, is an argument of [heap_insert].  The routines rotate
    a path of the tree in place; [linked] relates the store to a tree whose
    labels are the nodes (address and value), and the functions [shift] and
    [insert_at] say what the loops compute on such trees.
    src/heap/concurrent-heap.c has the same code. *)

From S2P Require Import Prelude.
Local Open Scope Z_scope.

(** ** Data *)

(** [node_t] *)
Record node := mk_node { left_child : Z; right_child : Z; node_value : Z }.

(** The store and the [heap_t] object. *)
Record heap := mk_heap {
  mem : gmap Z node;
  n_nodes : Z;
  root : Z;
  less : Z → Z → bool;
}.

Definition ENOMEM : Z := 12.
Definition u64 (z : Z) : Z := z mod 2 ^ 64.

Definition set_mem (m : gmap Z node) (h : heap) : heap := mk_heap m (n_nodes h) (root h) (less h).
Definition set_root (r : Z) (h : heap) : heap := mk_heap (mem h) (n_nodes h) r (less h).
Definition set_n_nodes (n : Z) (h : heap) : heap := mk_heap (mem h) n (root h) (less h).

(** Access through a pointer: only to a node that is allocated. *)
Definition load (p : Z) : K heap node :=
  h ← gets id; pure (match mem h !! p with Some n => Ok n | None => Undef end).
Definition store (p : Z) (f : node → node) : K heap unit :=
  n ← load p; modify (λ h, set_mem (<[p := f n]> (mem h)) h).
Definition free (p : Z) : K heap unit :=
  load p;; modify (λ h, set_mem (delete p (mem h)) h).

Definition set_left (c : Z) (n : node) : node := mk_node c (right_child n) (node_value n).
Definition set_right (c : Z) (n : node) : node := mk_node (left_child n) c (node_value n).

(** ** The code *)

Fixpoint node_free (fuel : nat) (p : Z) : K heap unit :=
  match fuel with
  | O => pure NoFuel
  | S fuel' =>
      if p =? 0 then mret tt
      else
        n ← load p; node_free fuel' (left_child n);;
        n ← load p; node_free fuel' (right_child n);;
        free p
  end.

Definition get_child (current indicator : Z) : K heap Z :=
  n ← load current;
  mret (if 0 <? indicator then right_child n else left_child n).

Definition set_child (parent indicator new_child : Z) : K heap unit :=
  store parent (if 0 <? indicator then set_right new_child else set_left new_child).

Fixpoint merge_on_path (fuel : nat) (outsider edge path mask : Z) : K heap Z :=
  match fuel with
  | O => pure NoFuel
  | S fuel' =>
      if outsider =? 0 then
        store edge (set_left 0);;
        store edge (set_right 0);;
        mret 0
      else
        let mask := Z.shiftr mask 1 in
        if 0 <? Z.land path mask then
          o ← load outsider;
          store edge (set_left (left_child o));;
          store edge (set_right outsider);;
          o ← load outsider;
          merge_on_path fuel' (right_child o) outsider path mask
        else
          o ← load outsider;
          store edge (set_right (right_child o));;
          store edge (set_left outsider);;
          o ← load outsider;
          merge_on_path fuel' (left_child o) outsider path mask
  end.

(** The search loop of [insert_on_path]: from [parent], [current] and [mask]
    to their values when the loop ends. *)
Fixpoint find_place (fuel : nat) (value parent current path mask : Z) : K heap (Z * Z * Z) :=
  match fuel with
  | O => pure NoFuel
  | S fuel' =>
      if current =? 0 then mret (parent, current, mask)
      else
        c ← load current;
        h ← gets id;
        if less h value (node_value c) then
          let mask := Z.shiftr mask 1 in
          child ← get_child current (Z.land path mask);
          find_place fuel' value current child path mask
        else mret (parent, current, mask)
  end.

(** Enough for every loop: no path is longer than there are nodes. *)
Definition fuel_of (h : heap) : nat := S (size (mem h)).

(** [1 << ilogb(path)]: a shift of the [int] 1. *)
Definition top_mask (path : Z) : res Z :=
  if Z.log2 path <? 31 then Ok (Z.shiftl 1 (Z.log2 path)) else Undef.

Definition insert_on_path (p : Z) : K heap Z :=
  h ← gets id;
  let path := n_nodes h in
  mask ← pure (top_mask path);
  n ← load p;
  '(parent, current, mask) ← find_place (fuel_of h) (node_value n) 0 (root h) path mask;
  (if parent =? 0 then modify (set_root p) else set_child parent (Z.land path mask) p);;
  merge_on_path (fuel_of h) current p path mask.

Definition heap_init (lt : Z → Z → bool) : K heap Z :=
  modify (λ h, mk_heap (mem h) 0 0 lt);; mret 0.

Definition heap_clear : K heap Z :=
  h ← gets id;
  node_free (fuel_of h) (root h);;
  modify (set_root 0);;
  modify (set_n_nodes 0);;
  mret 0.

(** [p] is what [malloc] returned; [garbage] what the new block holds. *)
Definition heap_insert (p : Z) (garbage : node) (value : Z) : K heap Z :=
  if p =? 0 then mret ENOMEM
  else
    modify (λ h, set_mem (<[p := garbage]> (mem h)) h);;
    store p (λ n, mk_node (left_child n) (right_child n) value);;
    modify (λ h, set_n_nodes (u64 (n_nodes h + 1)) h);;
    insert_on_path p.

(** The checks of the unit test at the end of the file. *)
Fixpoint cardinality (fuel : nat) (p : Z) (h : heap) : res Z :=
  match fuel with
  | O => NoFuel
  | S fuel' =>
      if p =? 0 then Ok 0
      else
        '(n, _) ← load p h;
        i ← cardinality fuel' (left_child n) h;
        j ← cardinality fuel' (right_child n) h;
        Ok (i + j + 1)
  end.

(** [child != NULL && less(node->value, child->value)] *)
Definition violates (v child : Z) (h : heap) : res bool :=
  if child =? 0 then Ok false
  else '(c, _) ← load child h; Ok (less h v (node_value c)).

Fixpoint subheap_is_valid (fuel : nat) (p : Z) (h : heap) : res bool :=
  match fuel with
  | O => NoFuel
  | S fuel' =>
      if p =? 0 then Ok true
      else
        '(n, _) ← load p h;
        bad ← violates (node_value n) (left_child n) h;
        if bad : bool then Ok false
        else
          bad ← violates (node_value n) (right_child n) h;
          if bad : bool then Ok false
          else
            l ← subheap_is_valid fuel' (left_child n) h;
            if l : bool then subheap_is_valid fuel' (right_child n) h else Ok false
  end.

Definition heap_is_valid (h : heap) : res bool :=
  card ← cardinality (fuel_of h) (root h) h;
  subheap_is_valid (fuel_of h) (root h) h.

(** ** Trees *)

(** A tree of nodes: address and value. *)
Inductive tree := Leaf | Node (l : tree) (x : Z * Z) (r : tree).

Definition ptr (t : tree) : Z := match t with Leaf => 0 | Node _ x _ => x.1 end.

Fixpoint labels (t : tree) : list (Z * Z) :=
  match t with Leaf => [] | Node l x r => x :: labels l ++ labels r end.
Definition addrs (t : tree) : list Z := fst <$> labels t.
Definition values (t : tree) : list Z := snd <$> labels t.

(** The store holds the nodes of [t] linked as in [t]. *)
Fixpoint linked (m : gmap Z node) (t : tree) : Prop :=
  match t with
  | Leaf => True
  | Node l x r => x.1 ≠ 0 ∧ m !! x.1 = Some (mk_node (ptr l) (ptr r) x.2) ∧ linked m l ∧ linked m r
  end.

(** What [merge_on_path] computes: [x] takes the root's place and the nodes on
    the path move down. *)
Fixpoint shift (path k : Z) (x : Z * Z) (t : tree) : tree :=
  match t with
  | Leaf => Node Leaf x Leaf
  | Node l y r =>
      if Z.testbit path (k - 1) then Node l x (shift path (k - 1) y r)
      else Node (shift path (k - 1) y l) x r
  end.

Fixpoint insert_at (lt : Z → Z → bool) (path k : Z) (x : Z * Z) (t : tree) : tree :=
  match t with
  | Leaf => Node Leaf x Leaf
  | Node l y r =>
      if lt x.2 y.2 then
        if Z.testbit path (k - 1) then Node l y (insert_at lt path (k - 1) x r)
        else Node (insert_at lt path (k - 1) x l) y r
      else shift path k x t
  end.

(** ** Lemmas on the store *)

Lemma wp_load h p n (Q : node → heap → Prop) : mem h !! p = Some n → Q n h → wp (load p) Q h.
Proof. intros Hn HQ. unfold load, wp. rewrite bind_gets. unfold pure, id. by rewrite Hn. Qed.

Lemma wp_store h p n f (Q : unit → heap → Prop) :
  mem h !! p = Some n → Q tt (set_mem (<[p := f n]> (mem h)) h) → wp (store p f) Q h.
Proof. intros Hn HQ. unfold store. wp_step. eapply wp_load; [done |]. by wp_step. Qed.

Lemma linked_ext m m' t :
  (∀ p, p ∈ addrs t → m' !! p = m !! p) → linked m t → linked m' t.
Proof.
  induction t as [|l IHl x r IHr]; intros H; simpl; [done |]. intros (Hx & Hm & Hl & Hr).
  unfold addrs in *. simpl in H. rewrite fmap_app in H.
  split_and!; [done | by rewrite H by left | apply IHl | apply IHr]; try done; intros p Hp; apply H; set_solver.
Qed.

Lemma linked_ptr m t : linked m t → ptr t = 0 ↔ t = Leaf.
Proof. destruct t; simpl; [done |]. intros (Hx & _). by split. Qed.

Lemma shift_labels path k x t : labels (shift path k x t) ≡ₚ x :: labels t.
Proof.
  revert k x. induction t as [|l IHl y r IHr]; intros k x; simpl; [done |].
  destruct (Z.testbit _ _); simpl; rewrite ?IHl, ?IHr; [| done].
  constructor. by rewrite <- Permutation_middle.
Qed.

Lemma insert_labels lt path k x t : labels (insert_at lt path k x t) ≡ₚ x :: labels t.
Proof.
  revert k. induction t as [|l IHl y r IHr]; intros k; [done |]. cbn [insert_at].
  destruct (lt x.2 y.2); [| apply shift_labels].
  destruct (Z.testbit _ _); simpl; rewrite ?IHl, ?IHr.
  - rewrite <- Permutation_middle. by rewrite Permutation_swap.
  - by rewrite Permutation_swap.
Qed.

Lemma shift_ptr path k x t : ptr (shift path k x t) = x.1.
Proof. destruct t; simpl; [done | by destruct (Z.testbit _ _)]. Qed.

(** The mask of level [k]. *)
Definition msk (k : Z) : Z := if k <? 0 then 0 else 2 ^ k.

Lemma msk_shift k : Z.shiftr (msk k) 1 = msk (k - 1).
Proof.
  unfold msk. destruct (Z.ltb_spec k 0), (Z.ltb_spec (k - 1) 0); try lia; try done.
  - assert (k = 0) as -> by lia. done.
  - rewrite Z.shiftr_div_pow2 by lia. change (2 ^ 1) with (2 ^ 1). rewrite <- Z.pow_sub_r by lia. done.
Qed.

Lemma msk_test path k : 0 ≤ path → (0 <? Z.land path (msk k)) = Z.testbit path k.
Proof.
  intros Hp. unfold msk. destruct (Z.ltb_spec k 0).
  - rewrite Z.land_0_r, Z.testbit_neg_r by done. done.
  - destruct (Z.testbit path k) eqn:Hb.
    + apply Z.ltb_lt. assert (Z.land path (2 ^ k) ≠ 0).
      { intros Hz. assert (Ht : Z.testbit (Z.land path (2 ^ k)) k = true)
          by (rewrite Z.land_spec, Hb, Z.pow2_bits_true by lia; done).
        by rewrite Hz, Z.bits_0 in Ht. }
      assert (0 ≤ Z.land path (2 ^ k)) by (apply Z.land_nonneg; by left). lia.
    + apply Z.ltb_ge. assert (Z.land path (2 ^ k) = 0) as ->; [| done].
      apply Z.bits_inj'. intros j ?. rewrite Z.land_spec, Z.bits_0, Z.pow2_bits_eqb by lia.
      destruct (Z.eqb_spec k j) as [<-|]; [by rewrite Hb | apply andb_false_r].
Qed.

Lemma addrs_node l x r : addrs (Node l x r) = x.1 :: addrs l ++ addrs r.
Proof. unfold addrs. simpl. by rewrite fmap_app. Qed.

Lemma shift_addrs path k x t : addrs (shift path k x t) ≡ₚ x.1 :: addrs t.
Proof. unfold addrs. by rewrite shift_labels. Qed.

Lemma insert_addrs lt path k x t : addrs (insert_at lt path k x t) ≡ₚ x.1 :: addrs t.
Proof. unfold addrs. by rewrite insert_labels. Qed.

(** What the routines leave of the store outside the nodes they own. *)
Definition only (ps : list Z) (h h' : heap) : Prop :=
  h' = mk_heap (mem h') (n_nodes h) (root h') (less h) ∧
  ∀ p, p ∉ ps → mem h' !! p = mem h !! p.

Lemma only_step ps qs h h1 h' :
  only ps h1 h' → h1 = set_mem (mem h1) h → (∀ p, p ∉ qs → mem h1 !! p = mem h !! p) →
  (∀ p, p ∈ ps → p ∈ qs) → only qs h h'.
Proof.
  intros [He Hp] Hh1 Hm Hsub. split; [by rewrite He, Hh1 |].
  intros p Hq. rewrite Hp by (intros ?; by apply Hq, Hsub). by apply Hm.
Qed.

Lemma merge_wp path : 0 ≤ path → ∀ t k x n fuel h,
  linked (mem h) t → mem h !! x.1 = Some n → node_value n = x.2 → x.1 ≠ 0 →
  NoDup (x.1 :: addrs t) → (length (labels t) < fuel)%nat →
  wp (merge_on_path fuel (ptr t) x.1 path (msk k)) (λ r h',
    r = 0 ∧ root h' = root h ∧ only (x.1 :: addrs t) h h' ∧ linked (mem h') (shift path k x t)) h.
Proof.
  intros Hpath. induction t as [|l IHl y r IHr]; intros k x n [|fuel] h Hlk Hn Hv Hx0 Hnd Hf;
    cbn [labels length] in Hf; try lia.
  - simpl. wp_step. eapply wp_store; [done |]. wp_step.
    eapply wp_store; [apply lookup_insert_eq |]. wp_step. simpl.
    split; [done |]. split; [done |]. split; [split; [done |] | by rewrite lookup_insert_eq, <- Hv].
    intros p Hp. simpl. rewrite !lookup_insert_ne by set_solver. done.
  - cbn [merge_on_path]. cbn [ptr]. destruct Hlk as (Hy0 & Hy & Hl & Hr).
    rewrite (proj2 (Z.eqb_neq _ _) Hy0), msk_shift, msk_test by done.
    rewrite addrs_node in *. apply NoDup_cons in Hnd as [Hxn Hnd]. apply NoDup_cons in Hnd as [Hyn Hnd].
    apply NoDup_app in Hnd as (Hndl & Hlr & Hndr). rewrite length_app in Hf.
    assert (x.1 ≠ y.1) by set_solver. cbn [shift].
    destruct (Z.testbit path (k - 1)); wp_step;
      (eapply wp_load; [done |]); wp_step; (eapply wp_store; [done |]); wp_step;
      (eapply wp_store; [apply lookup_insert_eq |]); wp_step; simpl;
      (eapply wp_load; [simpl; rewrite !lookup_insert_ne by done; exact Hy |]);
      rewrite insert_insert_eq;
      set (h1 := set_mem _ _);
      assert (Hm1 : ∀ p, p ≠ x.1 → mem h1 !! p = mem h !! p)
        by (intros p ?; unfold h1; simpl; by rewrite lookup_insert_ne by done).
    + eapply wp_mono; [apply (IHr (k - 1) y (mk_node (ptr l) (ptr r) y.2)) |]; simpl; try done; try lia.
      * eapply linked_ext; [| done]. intros p ?. apply Hm1. set_solver.
      * by rewrite Hm1 by done.
      * apply NoDup_cons. split; [set_solver | done].
      * intros ? h' (-> & Hroot & Honly & Hlk). pose proof Honly as [_ Hout].
        split; [done |]. split; [done |]. split.
        { eapply (only_step _ _ h h1); [done | by destruct h | intros p ?; apply Hm1; set_solver | set_solver]. }
        split_and!; [done | | | done].
        -- rewrite Hout, shift_ptr by set_solver. unfold h1. simpl. by rewrite lookup_insert_eq, <- Hv.
        -- eapply linked_ext; [| exact Hl]. intros p ?. rewrite Hout by set_solver. apply Hm1. set_solver.
    + eapply wp_mono; [apply (IHl (k - 1) y (mk_node (ptr l) (ptr r) y.2)) |]; simpl; try done; try lia.
      * eapply linked_ext; [| done]. intros p ?. apply Hm1. set_solver.
      * by rewrite Hm1 by done.
      * apply NoDup_cons. split; [set_solver | done].
      * intros ? h' (-> & Hroot & Honly & Hlk). pose proof Honly as [_ Hout].
        split; [done |]. split; [done |]. split.
        { eapply (only_step _ _ h h1); [done | by destruct h | intros p ?; apply Hm1; set_solver | set_solver]. }
        split_and!; [done | | done |].
        -- rewrite Hout, shift_ptr by set_solver. unfold h1. simpl. by rewrite lookup_insert_eq, <- Hv.
        -- eapply linked_ext; [| exact Hr]. intros p ?. rewrite Hout by set_solver. apply Hm1. set_solver.
Qed.

(** The link to a subtree of level [k]: the root, or a child of [parent] on
    the path. *)
Definition child_of (b : bool) (n : node) : Z := if b then right_child n else left_child n.
Definition set_child_of (b : bool) (c : Z) (n : node) : node := if b then set_right c n else set_left c n.

Definition hangs (h : heap) (path k parent c : Z) : Prop :=
  if parent =? 0 then root h = c
  else ∃ n, mem h !! parent = Some n ∧ child_of (Z.testbit path k) n = c.

(** [parent] is as before, but for the link to the subtree. *)
Definition relinked (h h' : heap) (path k parent c : Z) : Prop :=
  if parent =? 0 then root h' = c
  else root h' = root h ∧
       ∃ n, mem h !! parent = Some n ∧ mem h' !! parent = Some (set_child_of (Z.testbit path k) c n).

Lemma child_of_set b n : set_child_of b (child_of b n) n = n.
Proof. by destruct b, n. Qed.

(** The end of [insert_on_path], once the place is found. *)
Definition put_in_place (fuel : nat) (p path : Z) (r : Z * Z * Z) : K heap Z :=
  let '(parent, current, mask) := r in
  (if parent =? 0 then modify (set_root p) else set_child parent (Z.land path mask) p);;
  merge_on_path fuel current p path mask.

Lemma put_in_place_wp path t k x n fuel h parent :
  0 ≤ path → linked (mem h) t → mem h !! x.1 = Some n → node_value n = x.2 → x.1 ≠ 0 →
  NoDup (x.1 :: addrs t) → (length (labels t) < fuel)%nat →
  parent ∉ x.1 :: addrs t → hangs h path k parent (ptr t) →
  wp (put_in_place fuel x.1 path (parent, ptr t, msk k)) (λ r h',
    r = 0 ∧ relinked h h' path k parent x.1 ∧ only (parent :: x.1 :: addrs t) h h' ∧
    linked (mem h') (shift path k x t)) h.
Proof.
  intros Hpath Hlk Hn Hv Hx0 Hnd Hf Hpar Hh. unfold put_in_place, hangs, relinked in *. wp_step.
  destruct (Z.eqb_spec parent 0) as [->|Hp0].
  - wp_step. eapply wp_mono; [by apply (merge_wp path Hpath t k x n) |].
    intros r h' (-> & Hr & [He Hout] & Hl). split; [done |]. split; [done |]. split; [| done].
    split; [done |]. intros p Hp. apply Hout. set_solver.
  - destruct Hh as (pn & Hpn & Hc). unfold set_child. rewrite msk_test by done.
    eapply wp_store; [done |]. fold (set_child_of (Z.testbit path k) x.1 pn).
    set (h1 := set_mem _ _).
    assert (Hm1 : ∀ p, p ≠ parent → mem h1 !! p = mem h !! p)
      by (intros p ?; unfold h1; simpl; by rewrite lookup_insert_ne by done).
    eapply wp_mono; [apply (merge_wp path Hpath t k x n) |]; try done.
    + eapply linked_ext; [| done]. intros p ?. apply Hm1. set_solver.
    + rewrite Hm1 by set_solver. done.
    + intros r h' (-> & Hr & Honly & Hl). pose proof Honly as [_ Hout].
      split; [done |]. split; [split; [done |] |].
      * exists pn. split; [done |]. rewrite Hout by done. unfold h1. simpl. rewrite lookup_insert_eq.
        by destruct (Z.testbit path k).
      * split; [| done]. eapply (only_step _ _ h h1); [done | by destruct h | | set_solver].
        intros p Hp. apply Hm1. set_solver.
Qed.

Lemma find_place_wp path x n pfuel : 0 ≤ path → ∀ t k fuel h parent,
  linked (mem h) t → mem h !! x.1 = Some n → node_value n = x.2 → x.1 ≠ 0 →
  NoDup (x.1 :: addrs t) → (length (labels t) < fuel)%nat → (length (labels t) < pfuel)%nat →
  parent ∉ x.1 :: addrs t → hangs h path k parent (ptr t) →
  wp (find_place fuel x.2 parent (ptr t) path (msk k)) (λ r h1,
    wp (put_in_place pfuel x.1 path r) (λ v h',
      v = 0 ∧ relinked h h' path k parent (ptr (insert_at (less h) path k x t)) ∧
      only (parent :: x.1 :: addrs t) h h' ∧
      linked (mem h') (insert_at (less h) path k x t)) h1) h.
Proof.
  intros Hpath. induction t as [|l IHl y r IHr]; intros k [|fuel] h parent Hlk Hn Hv Hx0 Hnd Hf Hpf Hpar Hh;
    cbn [labels length] in Hf, Hpf; try lia.
  { simpl. wp_step. eapply wp_mono; [by apply (put_in_place_wp path Leaf k x n) |]. done. }
  assert (Hstop : less h x.2 y.2 = false →
    wp (put_in_place pfuel x.1 path (parent, ptr (Node l y r), msk k)) (λ v h',
      v = 0 ∧ relinked h h' path k parent (ptr (insert_at (less h) path k x (Node l y r))) ∧
      only (parent :: x.1 :: addrs (Node l y r)) h h' ∧
      linked (mem h') (insert_at (less h) path k x (Node l y r))) h).
  { intros Hlt. eapply wp_mono; [by apply (put_in_place_wp path (Node l y r) k x n) |].
    cbn [insert_at]. rewrite Hlt, shift_ptr. done. }
  cbn [find_place]. cbn [ptr] in *. destruct Hlk as (Hy0 & Hy & Hl & Hr).
  rewrite (proj2 (Z.eqb_neq _ _) Hy0). wp_step. eapply wp_load; [done |]. do 2 wp_step. cbn [node_value].
  unfold id. destruct (less h x.2 y.2) eqn:Hlt; [| wp_step; by apply Hstop].
  clear Hstop. cbn [insert_at]. rewrite Hlt. wp_step. unfold get_child. wp_step. eapply wp_load; [done |]. wp_step.
  rewrite msk_shift, msk_test by done. cbn [left_child right_child].
  rewrite addrs_node in *. apply NoDup_cons in Hnd as [Hxn Hnd]. apply NoDup_cons in Hnd as [Hyn Hnd].
  apply NoDup_app in Hnd as (Hndl & Hlr & Hndr). rewrite length_app in Hf, Hpf.
  assert (x.1 ≠ y.1) by set_solver.
  assert (Hrel : ∀ h', root h' = root h → mem h' !! parent = mem h !! parent →
                 relinked h h' path k parent y.1).
  { intros h' Hroot Hmp. unfold relinked, hangs in *. destruct (Z.eqb_spec parent 0); [congruence |].
    destruct Hh as (pn & Hpn & Hc). split; [done |]. exists pn. rewrite <- Hc, child_of_set, Hmp. done. }
  destruct (Z.testbit path (k - 1)) eqn:Hb.
  - eapply wp_mono; [apply (IHr (k - 1) fuel h y.1); try done; try lia |].
    + apply NoDup_cons. split; [set_solver | done].
    + set_solver.
    + unfold hangs. rewrite (proj2 (Z.eqb_neq _ _) Hy0), Hb. by eexists.
    + intros res h1. intros Hw. eapply wp_mono; [exact Hw |].
      intros v h' (-> & Hre & [He Hout] & Hlk'). unfold relinked in Hre.
      rewrite (proj2 (Z.eqb_neq _ _) Hy0), Hb in Hre. destruct Hre as (Hroot & yn & Hyn' & Hy').
      rewrite Hy in Hyn'. injection Hyn' as <-.
      split; [done |]. split; [apply Hrel; [done |]; apply Hout; set_solver |].
      split; [split; [done | intros p Hp; apply Hout; set_solver] |].
      split_and!; [done | done | | done]. eapply linked_ext; [| exact Hl]. intros p ?. apply Hout. set_solver.
  - eapply wp_mono; [apply (IHl (k - 1) fuel h y.1); try done; try lia |].
    + apply NoDup_cons. split; [set_solver | done].
    + set_solver.
    + unfold hangs. rewrite (proj2 (Z.eqb_neq _ _) Hy0), Hb. by eexists.
    + intros res h1. intros Hw. eapply wp_mono; [exact Hw |].
      intros v h' (-> & Hre & [He Hout] & Hlk'). unfold relinked in Hre.
      rewrite (proj2 (Z.eqb_neq _ _) Hy0), Hb in Hre. destruct Hre as (Hroot & yn & Hyn' & Hy').
      rewrite Hy in Hyn'. injection Hyn' as <-.
      split; [done |]. split; [apply Hrel; [done |]; apply Hout; set_solver |].
      split; [split; [done | intros p Hp; apply Hout; set_solver] |].
      split_and!; [done | done | done |]. eapply linked_ext; [| exact Hr]. intros p ?. apply Hout. set_solver.
Qed.

(** ** Shape: the nodes fill the positions 1, 2, ..., n *)

(** Whether there is a node at the end of a path of turns (true = right). *)
Fixpoint has (t : tree) (bs : list bool) : bool :=
  match t, bs with
  | Leaf, _ => false
  | Node _ _ _, [] => true
  | Node l _ r, b :: bs' => has (if b then r else l) bs'
  end.

(** The number of the position, counted level by level from 1. *)
Definition pos (bs : list bool) : Z := foldl (λ a b, 2 * a + Z.b2z b) 1 bs.

Definition complete (t : tree) : Prop :=
  ∀ bs, has t bs = true ↔ pos bs ≤ Z.of_nat (length (labels t)).

(** The turns the code takes until it falls out of the tree. *)
Fixpoint walk (t : tree) (path k : Z) : list bool :=
  match t with
  | Leaf => []
  | Node l _ r => let b := Z.testbit path (k - 1) in b :: walk (if b then r else l) path (k - 1)
  end.

(** The [k] lowest bits of [path], the highest first. *)
Fixpoint bits (path : Z) (k : nat) : list bool :=
  match k with O => [] | S k' => Z.testbit path (Z.of_nat k') :: bits path k' end.

Lemma has_leaf bs : has Leaf bs = false.
Proof. by destruct bs. Qed.

Lemma has_new_leaf x bs : has (Node Leaf x Leaf) bs = bool_decide (bs = []).
Proof. destruct bs as [|b bs]; simpl; [done |]. destruct b; by rewrite has_leaf. Qed.

Lemma has_node_cons l x r b bs : has (Node l x r) (b :: bs) = has (if b then r else l) bs.
Proof. done. Qed.

Lemma cons_decide (b c : bool) (bs w : list bool) :
  bool_decide (b :: bs = c :: w) = Bool.eqb b c && bool_decide (bs = w).
Proof.
  destruct (Bool.eqb b c) eqn:E.
  - apply eqb_prop in E as ->. apply bool_decide_ext. naive_solver.
  - apply bool_decide_eq_false_2. intros [= -> _]. by rewrite eqb_reflx in E.
Qed.

Lemma has_shift path k x t bs :
  has (shift path k x t) bs = has t bs || bool_decide (bs = walk t path k).
Proof.
  revert k x bs. induction t as [|l IHl y r IHr]; intros k x bs.
  { cbn [shift walk]. rewrite has_new_leaf, has_leaf. by apply bool_decide_ext. }
  destruct bs as [|b bs]; [cbn [shift]; by destruct (Z.testbit _ _) |].
  cbn [shift walk]. rewrite cons_decide, has_node_cons.
  destruct (Z.testbit path (k - 1)), b; rewrite has_node_cons, ?IHl, ?IHr; simpl; by rewrite ?orb_false_r.
Qed.

Lemma has_insert lt path k x t bs :
  has (insert_at lt path k x t) bs = has t bs || bool_decide (bs = walk t path k).
Proof.
  revert k bs. induction t as [|l IHl y r IHr]; intros k bs.
  { cbn [insert_at walk]. rewrite has_new_leaf, has_leaf. by apply bool_decide_ext. }
  cbn [insert_at]. destruct (lt x.2 y.2); [| apply has_shift].
  destruct bs as [|b bs]; [by destruct (Z.testbit _ _) |].
  cbn [walk]. rewrite cons_decide, has_node_cons.
  destruct (Z.testbit path (k - 1)), b; rewrite has_node_cons, ?IHl, ?IHr; simpl; by rewrite ?orb_false_r.
Qed.

Lemma pos_acc a bs : foldl (λ a b, 2 * a + Z.b2z b) a bs = a * 2 ^ Z.of_nat (length bs) + (pos bs - 2 ^ Z.of_nat (length bs)).
Proof.
  unfold pos. revert a. induction bs as [|b bs IH] using rev_ind; intros a; [simpl; lia |].
  rewrite !foldl_snoc, length_app, IH. simpl. rewrite (IH 1).
  replace (Z.of_nat (length bs + 1)) with (Z.of_nat (length bs) + 1) by lia.
  rewrite Z.pow_add_r by lia. lia.
Qed.

Lemma pos_pos bs : 1 ≤ pos bs.
Proof.
  induction bs as [|b bs IH] using rev_ind; [done |]. unfold pos in *. rewrite foldl_snoc.
  destruct b; simpl; lia.
Qed.

Lemma pos_snoc bs b : pos (bs ++ [b]) = 2 * pos bs + Z.b2z b.
Proof. unfold pos. by rewrite foldl_snoc. Qed.

Lemma pos_inj bs bs' : pos bs = pos bs' → bs = bs'.
Proof.
  revert bs'. induction bs as [|b bs IH] using rev_ind; intros bs' He.
  - destruct bs' as [|b' bs'] using rev_ind; [done |]. rewrite pos_snoc in He.
    pose proof (pos_pos bs'). unfold pos in He at 1. simpl in He. destruct b'; simpl in He; lia.
  - destruct bs' as [|b' bs' _] using rev_ind.
    + rewrite pos_snoc in He. pose proof (pos_pos bs). unfold pos in He at 2. simpl in He. destruct b; simpl in He; lia.
    + rewrite !pos_snoc in He. destruct b, b'; simpl in He; try lia; f_equal; apply IH; lia.
Qed.

Lemma bits_length path k : length (bits path k) = k.
Proof. induction k; simpl; congruence. Qed.

Lemma pos_bits path k : 0 ≤ path → pos (bits path k) = 2 ^ Z.of_nat k + path mod 2 ^ Z.of_nat k.
Proof.
  intros Hp. induction k as [|k IH]; [simpl; by rewrite Z.mod_1_r |]. cbn [bits].
  unfold pos. cbn [foldl]. rewrite pos_acc, bits_length, IH.
  rewrite Nat2Z.inj_succ, Z.pow_succ_r by lia. set (m := 2 ^ Z.of_nat k).
  assert (0 < m) by (apply Z.pow_pos_nonneg; lia).
  assert (Hb : path mod (2 * m) = Z.b2z (Z.testbit path (Z.of_nat k)) * m + path mod m).
  { rewrite Z.testbit_spec' by lia. fold m. rewrite (Z.mul_comm 2 m), Z.rem_mul_r by lia. lia. }
  rewrite Hb. lia.
Qed.

Lemma walk_bits path t k :
  has t (bits path k) = false → (∀ j, (j < k)%nat → has t (take j (bits path k)) = true) →
  walk t path (Z.of_nat k) = bits path k.
Proof.
  revert t. induction k as [|k IH]; intros t Hend Hpre.
  { by destruct t. }
  pose proof (Hpre 0%nat ltac:(lia)) as H0. destruct t as [|l x r]; [by rewrite has_leaf in H0 |].
  cbn [walk bits]. replace (Z.of_nat (S k) - 1) with (Z.of_nat k) by lia. f_equal.
  apply IH; [exact Hend |]. intros j Hj. by apply (Hpre (S j)); lia.
Qed.

Lemma pos_take bs j : (j < length bs)%nat → pos (take j bs) < pos bs.
Proof.
  induction bs as [|b bs IH] using rev_ind; intros Hj; [simpl in Hj; lia |].
  rewrite length_app in Hj. simpl in Hj. rewrite pos_snoc. pose proof (pos_pos bs).
  destruct (decide (j = length bs)) as [->|].
  - rewrite take_app_length. destruct b; simpl; lia.
  - rewrite take_app_le by lia. assert (pos (take j bs) < pos bs) by (apply IH; lia). destruct b; simpl; lia.
Qed.

(** The path of the new node number [n] ends at position [n]. *)
Lemma walk_new t n :
  complete t → n = Z.of_nat (length (labels t)) + 1 → pos (walk t n (Z.log2 n)) = n.
Proof.
  intros Hc Hn. assert (0 < n) by lia.
  assert (Hlog : Z.log2 n = Z.of_nat (Z.to_nat (Z.log2 n))) by (pose proof (Z.log2_nonneg n); lia).
  assert (Hpos : pos (bits n (Z.to_nat (Z.log2 n))) = n).
  { rewrite pos_bits, <- Hlog by lia. pose proof (Z.log2_spec n ltac:(lia)) as [Hlo Hhi].
    rewrite Z.pow_succ_r in Hhi by apply Z.log2_nonneg.
    rewrite (Z.mod_eq n (2 ^ Z.log2 n)) by lia.
    replace (n / 2 ^ Z.log2 n) with 1; [lia |]. apply (Z.div_unique_pos _ _ _ (n - 2 ^ Z.log2 n)); lia. }
  rewrite Hlog, walk_bits; [done | |].
  - destruct (has _ _) eqn:E; [| done]. apply Hc in E. lia.
  - intros j Hj. apply Hc. rewrite <- bits_length with (path := n) in Hj. apply pos_take in Hj. lia.
Qed.

Lemma insert_complete lt x t n :
  complete t → n = Z.of_nat (length (labels t)) + 1 → complete (insert_at lt n (Z.log2 n) x t).
Proof.
  intros Hc Hn bs. pose proof (walk_new t n Hc Hn) as Hw.
  assert (Hlen : length (labels (insert_at lt n (Z.log2 n) x t)) = S (length (labels t)))
    by (by rewrite insert_labels).
  rewrite has_insert, orb_true_iff, (Hc bs), bool_decide_eq_true, Hlen. split; [intros [?| ->]; lia |]. intros Hle. destruct (decide (pos bs = n)) as [He|]; [| left; lia].
  right. apply pos_inj. congruence.
Qed.

(** ** Order *)

Definition below (lt : Z → Z → bool) (v : Z) (t : tree) : Prop :=
  match t with Leaf => True | Node _ y _ => lt v y.2 = false end.

Fixpoint ordered (lt : Z → Z → bool) (t : tree) : Prop :=
  match t with
  | Leaf => True
  | Node l x r => below lt x.2 l ∧ below lt x.2 r ∧ ordered lt l ∧ ordered lt r
  end.

(** What the comparison must be for the heap to make sense: a strict weak
    order. *)
Definition weak_order (lt : Z → Z → bool) : Prop :=
  (∀ a b, lt a b = true → lt b a = false) ∧
  (∀ a b c, lt a b = false → lt b c = false → lt a c = false).

Section order.
Context (lt : Z → Z → bool) (Hlt : weak_order lt).

Lemma below_trans a b t : lt a b = false → below lt b t → below lt a t.
Proof using Hlt. destruct t; simpl; [done |]. intros ? ?. by eapply (proj2 Hlt). Qed.

Lemma shift_ordered path k x t : ordered lt t → below lt x.2 t → ordered lt (shift path k x t).
Proof using Hlt.
  revert k x. induction t as [|l IHl y r IHr]; intros k x; [done |].
  intros (Hbl & Hbr & Hol & Hor) Hxy. simpl in Hxy. cbn [shift].
  assert (Hs : ∀ t', below lt x.2 (shift path (k - 1) y t')).
  { intros t'. destruct t'; simpl; [done |]. by destruct (Z.testbit _ _). }
  destruct (Z.testbit _ _); simpl; split_and!; auto; by eapply below_trans.
Qed.

Lemma insert_ordered path k x t :
  ordered lt t →
  ordered lt (insert_at lt path k x t) ∧
  ∀ v, below lt v t → lt v x.2 = false → below lt v (insert_at lt path k x t).
Proof using Hlt.
  revert k. induction t as [|l IHl y r IHr]; intros k; [done |].
  intros (Hbl & Hbr & Hol & Hor). cbn [insert_at]. destruct (lt x.2 y.2) eqn:Hxy.
  - pose proof (proj1 Hlt _ _ Hxy) as Hyx. destruct (Z.testbit _ _).
    + destruct (IHr (k - 1) Hor) as [Ho Hb]. simpl. split_and!; auto.
    + destruct (IHl (k - 1) Hol) as [Ho Hb]. simpl. split_and!; auto.
  - split; [by apply shift_ordered |]. intros v _ Hv. simpl. by destruct (Z.testbit _ _).
Qed.

(** The root is a maximum. *)
Lemma ordered_max t v : ordered lt t → below lt v t → ∀ y, y ∈ values t → lt v y = false.
Proof using Hlt.
  revert v. induction t as [|l IHl x r IHr]; intros v; unfold values; simpl.
  { by intros _ _ y ?%elem_of_nil. }
  intros (Hbl & Hbr & Hol & Hor) Hv y. rewrite elem_of_cons, fmap_app, elem_of_app.
  intros [-> | [Hy|Hy]]; [done | |].
  - apply (IHl v Hol); [by eapply below_trans | done].
  - apply (IHr v Hor); [by eapply below_trans | done].
Qed.

End order.

(** ** The heap *)

(** [h] holds the tree [t] of [n_nodes] nodes; the rest of the store belongs to
    others. *)
Record heap_rep (h : heap) (t : tree) : Prop := {
  hr_linked : linked (mem h) t;
  hr_nodup : NoDup (addrs t);
  hr_root : root h = ptr t;
  hr_size : n_nodes h = Z.of_nat (length (labels t));
  hr_complete : complete t;
}.

Lemma linked_dom m t p : linked m t → p ∈ addrs t → is_Some (m !! p).
Proof.
  induction t as [|l IHl x r IHr]; [by intros _ ?%elem_of_nil |].
  intros (_ & Hx & Hl & Hr). rewrite addrs_node, elem_of_cons, elem_of_app.
  intros [-> | [?|?]]; auto.
Qed.

Lemma enough_fuel m t : linked m t → NoDup (addrs t) → (length (labels t) ≤ size m)%nat.
Proof.
  intros Hlk Hnd. replace (length (labels t)) with (length (addrs t)) by (unfold addrs; by rewrite length_fmap).
  rewrite <- size_dom. rewrite <- (size_list_to_set (C := gset Z) (addrs t)) by done.
  apply subseteq_size. intros p Hp%elem_of_list_to_set. apply elem_of_dom. by eapply linked_dom.
Qed.

Lemma linked_nonzero m t : linked m t → 0 ∉ addrs t.
Proof.
  induction t as [|l IHl x r IHr]; [intros _; apply not_elem_of_nil |].
  intros (? & _ & Hl & Hr). rewrite addrs_node. specialize (IHl Hl). specialize (IHr Hr). set_solver.
Qed.

Lemma top_mask_Ok n : 0 < n < 2 ^ 31 → top_mask n = Ok (msk (Z.log2 n)).
Proof.
  intros Hn. pose proof (Z.log2_nonneg n). assert (Z.log2 n < 31) by (apply Z.log2_lt_pow2; lia).
  unfold top_mask, msk. rewrite (proj2 (Z.ltb_lt _ _)), (proj2 (Z.ltb_ge _ _)) by done.
  rewrite Z.shiftl_mul_pow2 by done. by rewrite Z.mul_1_l.
Qed.

Lemma insert_on_path_wp h t x n :
  linked (mem h) t → NoDup (x.1 :: addrs t) → root h = ptr t → 0 < n_nodes h < 2 ^ 31 →
  x.1 ≠ 0 → mem h !! x.1 = Some n → node_value n = x.2 →
  let t' := insert_at (less h) (n_nodes h) (Z.log2 (n_nodes h)) x t in
  wp (insert_on_path x.1) (λ r h', r = 0 ∧ root h' = ptr t' ∧
    only (0 :: x.1 :: addrs t) h h' ∧ linked (mem h') t') h.
Proof.
  intros Hlk Hnd Hroot Hn Hx0 Hx Hv t'. pose proof Hnd as [_ Hnd']%NoDup_cons.
  pose proof (enough_fuel _ _ Hlk Hnd') as Hfuel. assert (Hf : (length (labels t) < fuel_of h)%nat) by (unfold fuel_of; lia).
  unfold insert_on_path. do 3 wp_step. unfold id. eapply wp_pure; [by apply top_mask_Ok |].
  wp_step. eapply wp_load; [done |]. wp_step. rewrite Hv, Hroot.
  eapply wp_mono; [apply (find_place_wp (n_nodes h) x n (fuel_of h)); try done; try lia |].
  - pose proof (linked_nonzero _ _ Hlk). set_solver.
  - intros [[parent current] mask] h1 Hw. eapply wp_mono; [exact Hw |].
    intros r h' (-> & Hre & Ho & Hlk'). done.
Qed.

Lemma insert_wp h t p g v :
  heap_rep h t → p ≠ 0 → mem h !! p = None → n_nodes h < 2 ^ 31 - 1 →
  wp (heap_insert p g v) (λ r h', r = 0 ∧ less h' = less h ∧
    heap_rep h' (insert_at (less h) (n_nodes h + 1) (Z.log2 (n_nodes h + 1)) (p, v) t) ∧
    ∀ q, q ≠ 0 → q ∉ p :: addrs t → mem h' !! q = mem h !! q) h.
Proof.
  intros [Hlk Hnd Hroot Hn Hc] Hp Hfresh Hmax. unfold heap_insert.
  rewrite (proj2 (Z.eqb_neq _ _) Hp). do 3 wp_step. eapply wp_store; [apply lookup_insert_eq |].
  do 2 wp_step. set (h1 := set_n_nodes _ _).
  assert (Hpa : p ∉ addrs t) by (intros Hin; destruct (linked_dom _ _ _ Hlk Hin); congruence).
  assert (Hm1 : ∀ q, q ≠ p → mem h1 !! q = mem h !! q).
  { intros q Hq. unfold h1. simpl. by rewrite !lookup_insert_ne by done. }
  assert (En : n_nodes h1 = n_nodes h + 1) by (apply Z.mod_small; simpl; lia).
  eapply wp_mono; [apply (insert_on_path_wp h1 t (p, v) (mk_node (left_child g) (right_child g) v)) |]; try done.
  - eapply linked_ext; [| done]. intros q Hq. apply Hm1. congruence.
  - by apply NoDup_cons.
  - rewrite En. lia.
  - unfold h1. simpl. by rewrite lookup_insert_eq.
  - intros r h' (-> & Hroot' & [He Hout] & Hlk'). cbn [fst snd] in *.
    change (less h1) with (less h) in *. rewrite En in *.
    split_and!; [done | by rewrite He | |].
    + constructor; [done | | done | | by apply insert_complete; [| lia]].
      * rewrite insert_addrs. by apply NoDup_cons.
      * rewrite He. cbn [n_nodes]. rewrite insert_labels. cbn [length]. lia.
    + intros q Hq0 Hq. rewrite Hout by set_solver. apply Hm1. set_solver.
Qed.

(** ** Freeing *)

Lemma node_free_wp t : ∀ fuel h,
  linked (mem h) t → NoDup (addrs t) → (length (labels t) < fuel)%nat →
  wp (node_free fuel (ptr t)) (λ _ h', h' = set_mem (mem h') h ∧
    ∀ p, mem h' !! p = if bool_decide (p ∈ addrs t) then None else mem h !! p) h.
Proof.
  induction t as [|l IHl x r IHr]; intros [|fuel] h Hlk Hnd Hf; cbn [labels length] in Hf; try lia.
  { apply wp_ret. split; [by destruct h |]. intros p. by rewrite bool_decide_eq_false_2 by apply not_elem_of_nil. }
  cbn [node_free ptr]. destruct Hlk as (Hx0 & Hx & Hl & Hr). rewrite (proj2 (Z.eqb_neq _ _) Hx0).
  rewrite addrs_node in *. rewrite length_app in Hf. apply NoDup_cons in Hnd as [Hxn Hnd].
  apply NoDup_app in Hnd as (Hndl & Hlr & Hndr).
  wp_step. eapply wp_load; [done |]. wp_step. cbn [left_child].
  eapply wp_mono; [apply (IHl fuel h); [done | done | lia] |]. intros [] h1 [He1 Hm1].
  assert (Hx1 : mem h1 !! x.1 = Some (mk_node (ptr l) (ptr r) x.2)).
  { rewrite Hm1, bool_decide_eq_false_2 by set_solver. done. }
  wp_step. eapply wp_load; [done |]. wp_step. cbn [right_child].
  eapply wp_mono; [apply (IHr fuel h1); [| done | lia] |].
  { eapply linked_ext; [| done]. intros p Hp. rewrite Hm1, bool_decide_eq_false_2; [done |]. set_solver. }
  intros [] h2 [He2 Hm2].
  assert (Hx2 : mem h2 !! x.1 = Some (mk_node (ptr l) (ptr r) x.2)).
  { rewrite Hm2, bool_decide_eq_false_2 by set_solver. done. }
  unfold free. wp_step. eapply wp_load; [done |]. wp_step. split; [by rewrite He2, He1 |].
  intros p. simpl. destruct (decide (p = x.1)) as [->|Hne].
  - rewrite lookup_delete_eq, bool_decide_eq_true_2; [done | left].
  - rewrite lookup_delete_ne, Hm2, Hm1 by done. repeat case_bool_decide; try done; set_solver.
Qed.

(** ** The checks of the unit test *)

Lemma load_Ok h p n : mem h !! p = Some n → load p h = Ok (n, h).
Proof. intros Hn. unfold load. rewrite bind_gets. unfold pure, id. by rewrite Hn. Qed.

Lemma cardinality_Ok h t : ∀ fuel,
  linked (mem h) t → (length (labels t) < fuel)%nat →
  cardinality fuel (ptr t) h = Ok (Z.of_nat (length (labels t))).
Proof.
  induction t as [|l IHl x r IHr]; intros [|fuel] Hlk Hf; cbn [labels length] in *; try lia; [done |].
  destruct Hlk as (Hx0 & Hx & Hl & Hr). rewrite length_app in *. cbn [cardinality ptr].
  rewrite (proj2 (Z.eqb_neq _ _) Hx0), (load_Ok _ _ _ Hx). simpl.
  unfold mbind, res_bind. rewrite IHl, IHr by (done || lia). f_equal. lia.
Qed.

Lemma violates_Ok h v t : linked (mem h) t → below (less h) v t → violates v (ptr t) h = Ok false.
Proof.
  unfold violates. destruct t as [|l x r]; [done |]. intros (Hx0 & Hx & _) Hb. cbn [ptr].
  rewrite (proj2 (Z.eqb_neq _ _) Hx0), (load_Ok _ _ _ Hx). simpl in *. by rewrite Hb.
Qed.

Lemma valid_Ok h t : ∀ fuel,
  linked (mem h) t → (length (labels t) < fuel)%nat → ordered (less h) t →
  subheap_is_valid fuel (ptr t) h = Ok true.
Proof.
  induction t as [|l IHl x r IHr]; intros [|fuel] Hlk Hf Ho; cbn [labels length] in *; try lia; [done |].
  destruct Hlk as (Hx0 & Hx & Hl & Hr), Ho as (Hbl & Hbr & Hol & Hor). rewrite length_app in *.
  cbn [subheap_is_valid ptr]. rewrite (proj2 (Z.eqb_neq _ _) Hx0), (load_Ok _ _ _ Hx). simpl.
  unfold mbind, res_bind. rewrite !violates_Ok by done. rewrite IHl by (done || lia). apply IHr; (done || lia).
Qed.

(** ** Sequences of insertions *)

(** Each value with the block [malloc] provides for it. *)
Fixpoint insert_all (l : list (Z * node * Z)) : K heap unit :=
  match l with
  | [] => mret tt
  | (p, garbage, v) :: l' => heap_insert p garbage v;; insert_all l'
  end.

Lemma insert_values lt path k x t : values (insert_at lt path k x t) ≡ₚ x.2 :: values t.
Proof. unfold values. by rewrite insert_labels. Qed.

Lemma insert_all_wp l : ∀ h t,
  heap_rep h t → weak_order (less h) → ordered (less h) t →
  NoDup ((λ x, x.1.1) <$> l) → (∀ x, x ∈ l → x.1.1 ≠ 0 ∧ mem h !! x.1.1 = None) →
  n_nodes h + Z.of_nat (length l) < 2 ^ 31 →
  wp (insert_all l) (λ _ h', less h' = less h ∧ ∃ t', heap_rep h' t' ∧ ordered (less h) t' ∧
    values t' ≡ₚ (snd <$> l) ++ values t) h.
Proof.
  induction l as [|[[p g] v] l IH]; intros h t Hrep Hw Ho Hnd Hfresh Hmax; simpl in *.
  { apply wp_ret. split; [done |]. by exists t. }
  apply NoDup_cons in Hnd as [Hp Hnd]. destruct (Hfresh (p, g, v) ltac:(left)) as [Hp0 Hpn]. simpl in *.
  apply wp_bind. eapply wp_mono; [apply (insert_wp h t); try done; lia |].
  intros r h1 (_ & Hless & Hrep1 & Hout). eapply wp_mono; [eapply (IH h1); try done |].
  - by rewrite Hless.
  - rewrite Hless. apply insert_ordered; done.
  - intros x Hx. destruct (Hfresh x ltac:(by right)) as [? Hxn]. split; [done |].
    rewrite Hout; [done | done |]. apply not_elem_of_cons. split.
    + intros Heq. apply Hp. rewrite <- Heq. by apply (list_elem_of_fmap_2 (λ x, x.1.1)).
    + intros Hin. destruct Hrep as [Hlk _ _ _ _]. destruct (linked_dom _ _ _ Hlk Hin). congruence.
  - destruct Hrep1 as [_ _ _ Hn1 _]. destruct Hrep as [_ _ _ Hn _]. rewrite Hn1, insert_labels. cbn [length]. lia.
  - intros [] h' (Hless' & t' & Hrep' & Ho' & Hv'). rewrite Hless in *. split; [done |].
    exists t'. split_and!; [done | done |]. rewrite Hv', insert_values. simpl. by rewrite Permutation_middle.
Qed.

(** ** Theorems *)

(** C23: [heap_insert] refines insertion into a tree.  On a heap that holds a
    complete tree of [n] nodes it returns 0 and leaves the complete tree of
    [n + 1] nodes that [insert_at] describes, with exactly the old nodes and
    the new one, in their old blocks, and no other memory is touched; with
    ENOMEM from [malloc] nothing changes. *)
Theorem heap_insert_refines h t p garbage v :
  heap_rep h t → mem h !! p = None → n_nodes h < 2 ^ 31 - 1 →
  wp (heap_insert p garbage v) (λ r h',
    if p =? 0 then r = ENOMEM ∧ h' = h
    else r = 0 ∧
      let t' := insert_at (less h) (n_nodes h + 1) (Z.log2 (n_nodes h + 1)) (p, v) t in
      heap_rep h' t' ∧ labels t' ≡ₚ (p, v) :: labels t ∧
      ∀ q, q ≠ 0 → q ∉ p :: addrs t → mem h' !! q = mem h !! q) h.
Proof.
  intros Hrep Hfresh Hmax. destruct (Z.eqb_spec p 0) as [->|Hp].
  - by apply wp_ret.
  - eapply wp_mono; [by apply insert_wp |]. intros r h' (-> & _ & Hrep' & Hout).
    split; [done |]. cbv zeta. split_and!; [done | apply insert_labels | done].
Qed.

(** C22: whatever is inserted, the result is a heap.  Starting from [heap_init]
    with any strict weak order, after inserting fewer than 2^31 values, each
    in a fresh block, every call has returned, the heap holds exactly those
    values, the unit test's [heap_is_valid] accepts it, its [cardinality] is
    the number of insertions, and no value is greater than the root's. *)
Theorem heap_inserts_valid lt l h :
  weak_order lt → NoDup ((λ x, x.1.1) <$> l) →
  (∀ x, x ∈ l → x.1.1 ≠ 0 ∧ mem h !! x.1.1 = None) → Z.of_nat (length l) < 2 ^ 31 →
  wp (heap_init lt;; insert_all l) (λ _ h', ∃ t, heap_rep h' t ∧ values t ≡ₚ (snd <$> l) ∧
    heap_is_valid h' = Ok true ∧
    cardinality (fuel_of h') (root h') h' = Ok (Z.of_nat (length l)) ∧
    ∀ m v, mem h' !! root h' = Some m → v ∈ (snd <$> l) → lt (node_value m) v = false) h.
Proof.
  intros Hw Hnd Hfresh Hmax. unfold heap_init. do 4 wp_step.
  eapply wp_mono; [apply (insert_all_wp l _ Leaf); try done |].
  - constructor; try done; [apply NoDup_nil_2 |]. intros bs. rewrite has_leaf. pose proof (pos_pos bs).
    split; [done | simpl; lia].
  - intros [] h' (Hless & t & Hrep & Ho & Hv). cbn [less] in *. rewrite app_nil_r in Hv.
    pose proof Hrep as [Hlk Hndt Hroot Hn _]. pose proof (enough_fuel _ _ Hlk Hndt) as Hfuel.
    assert (Hf : (length (labels t) < fuel_of h')%nat) by (unfold fuel_of; lia).
    assert (Hlen : length (labels t) = length l).
    { apply Permutation_length in Hv.
      unfold values in Hv. by rewrite !length_fmap in Hv. }
    exists t. split_and!; [done | done | | |].
    + unfold heap_is_valid. rewrite Hroot, cardinality_Ok by done.
      unfold mbind, res_bind. apply valid_Ok; [done | done |].
      by rewrite Hless.
    + rewrite Hroot, cardinality_Ok by done. by rewrite Hlen.
    + intros m v Hm Hin. rewrite Hroot in Hm. destruct t as [|tl x tr].
      * rewrite <- Hv in Hin. by apply elem_of_nil in Hin.
      * destruct Hlk as (_ & Hx & _). simpl in Hm. rewrite Hx in Hm. injection Hm as <-. simpl.
        assert (Hirr : lt x.2 x.2 = false) by (destruct (lt x.2 x.2) eqn:E; [by rewrite (proj1 Hw _ _ E) in E | done]).
        eapply (ordered_max lt Hw _ x.2 Ho); [exact Hirr |]. by rewrite Hv.
Qed.

(** [heap_clear] frees every node of the heap exactly once and nothing
    else, and leaves the empty heap. *)
Theorem heap_clear_frees h t :
  heap_rep h t →
  wp heap_clear (λ r h', r = 0 ∧ heap_rep h' Leaf ∧
    ∀ p, mem h' !! p = if bool_decide (p ∈ addrs t) then None else mem h !! p) h.
Proof.
  intros [Hlk Hnd Hroot Hn _]. pose proof (enough_fuel _ _ Hlk Hnd) as Hfuel.
  unfold heap_clear. do 2 wp_step. wp_step. unfold id. rewrite Hroot.
  eapply wp_mono; [apply (node_free_wp t); [done | done | unfold fuel_of; lia] |].
  intros [] h' [He Hm]. do 4 wp_step. wp_step. split_and!; [done | | done].
  constructor; try done; [apply NoDup_nil_2 |]. intros bs. rewrite has_leaf. pose proof (pos_pos bs).
  split; [done | simpl; lia].
Qed.

(** ** Witnesses: the comparison and a part of the data of the unit test *)

Definition some_node : node := mk_node 1 2 3.

(** A heap of 3 nodes, with the tree it holds; block 400 belongs to others. *)
Definition example_heap : heap :=
  mk_heap {[ 100 := mk_node 200 300 9; 200 := mk_node 0 0 4; 300 := mk_node 0 0 7; 400 := some_node ]}
    3 100 Z.ltb.
Definition example_tree : tree :=
  Node (Node Leaf (200, 4) Leaf) (100, 9) (Node Leaf (300, 7) Leaf).

Lemma example_heap_rep : heap_rep example_heap example_tree.
Proof.
  constructor; try done.
  - apply (bool_decide_unpack _). vm_compute. exact I.
  - intros bs. destruct bs as [|b bs]; [done |]. destruct bs as [|c bs].
    + destruct b; vm_compute; split; done.
    + split; [by destruct b, c; destruct bs |]. simpl. unfold pos. cbn [foldl]. rewrite pos_acc.
      pose proof (pos_pos bs). intros Hle. exfalso.
      assert (0 < 2 ^ Z.of_nat (length bs)) by (apply Z.pow_pos_nonneg; lia).
      destruct b, c; cbn [Z.b2z] in Hle; lia.
Qed.

Lemma heap_insert_refines_witness :
  wp (heap_insert 500 some_node 8) (λ r h',
    if 500 =? 0 then r = ENOMEM ∧ h' = example_heap
    else r = 0 ∧
      let t' := insert_at Z.ltb 4 (Z.log2 4) (500, 8) example_tree in
      heap_rep h' t' ∧ labels t' ≡ₚ (500, 8) :: labels example_tree ∧
      ∀ q, q ≠ 0 → q ∉ 500 :: addrs example_tree → mem h' !! q = mem example_heap !! q) example_heap.
Proof.
  apply (heap_insert_refines example_heap example_tree 500 some_node 8 example_heap_rep).
  - reflexivity.
  - reflexivity.
Defined.

Lemma ltb_weak_order : weak_order Z.ltb.
Proof.
  split.
  - intros a b ?%Z.ltb_lt. apply Z.ltb_ge. lia.
  - intros a b c ?%Z.ltb_ge ?%Z.ltb_ge. apply Z.ltb_ge. lia.
Qed.

Definition example_input : list (Z * node * Z) :=
  [(100, some_node, 5); (200, some_node, 12); (300, some_node, 5); (400, some_node, 30); (500, some_node, -1)].

Lemma heap_inserts_valid_witness :
  wp (heap_init Z.ltb;; insert_all example_input) (λ _ h', ∃ t, heap_rep h' t ∧
    values t ≡ₚ (snd <$> example_input) ∧ heap_is_valid h' = Ok true ∧
    cardinality (fuel_of h') (root h') h' = Ok (Z.of_nat (length example_input)) ∧
    ∀ m v, mem h' !! root h' = Some m → v ∈ (snd <$> example_input) → Z.ltb (node_value m) v = false)
    (mk_heap ∅ 77 1234 (λ _ _, true)).
Proof.
  apply (heap_inserts_valid Z.ltb example_input _ ltb_weak_order).
  - apply (bool_decide_unpack _). vm_compute. exact I.
  - intros x Hx. split; [| reflexivity].
    unfold example_input in Hx. rewrite !elem_of_cons, elem_of_nil in Hx. destruct Hx as [-> | [-> | [-> | [-> | [-> | []]]]]]; discriminate.
  - reflexivity.
Defined.

Lemma heap_clear_frees_witness :
  wp heap_clear (λ r h', r = 0 ∧ heap_rep h' Leaf ∧
    ∀ p, mem h' !! p = if bool_decide (p ∈ addrs example_tree) then None else mem example_heap !! p) example_heap.
Proof. apply (heap_clear_frees example_heap example_tree example_heap_rep). Defined.
