(* ===== verification/Libc.v ===== *)
(** * String and memory routines (src/buenos/lib/libc.c)

    A pointer into memory is the list of bytes from there to the end of the
    object; a byte is a number from 0 to 255 and is read as a signed [char].
    Running off the object is [Undef]. *)

From S2P Require Import Prelude.
Local Open Scope Z_scope.

Abbreviation bytes := (list Z).

(** ** The routines *)

Fixpoint stringcmp (str1 str2 : bytes) : res Z :=
  match str1, str2 with
  | c1 :: rest1, c2 :: rest2 =>
      if (schar c1 =? 0) && (schar c2 =? 0) then Ok 0
      else if (schar c1 =? 0) || (schar c2 =? 0) || negb (schar c1 =? schar c2)
      then Ok (schar c1 - schar c2)
      else stringcmp rest1 rest2
  | _, _ => Undef
  end.

(** [while(i < buflen) { *target = '\0'; i++; }]: [target] does not move. *)
Fixpoint pad_loop (n : nat) (target : bytes) (at_ : Z) : res bytes :=
  match n with
  | O => Ok target
  | S n' => target ← aset target at_ 0; pad_loop n' target at_
  end.

(** The loop of [stringcopy], [n] iterations before the end; source and target
    pointers are both [i] bytes into their objects. *)
Fixpoint stringcopy_loop (n : nat) (i buflen : Z) (target source : bytes) : res bytes :=
  match n with
  | O => aset target i 0
  | S n' =>
      c ← aget source i;
      target ← aset target i c;
      if c =? 0 then pad_loop (Z.to_nat (buflen - (i + 1))) target i
      else stringcopy_loop n' (i + 1) buflen target source
  end.

Definition stringcopy (target source : bytes) (buflen : Z) : res bytes :=
  stringcopy_loop (Z.to_nat (buflen - 1)) 0 buflen target source.

(** [for(i = from; i < from + n; i++) t[i] = s[i]] *)
Fixpoint byte_loop (n : nat) (i : Z) (target source : bytes) : res bytes :=
  match n with
  | O => Ok target
  | S n' => c ← aget source i; target ← aset target i c; byte_loop n' (i + 1) target source
  end.

(** The word loop: [*tgt = *src] moves four bytes. *)
Fixpoint word_loop (n : nat) (i : Z) (target source : bytes) : res bytes :=
  match n with
  | O => Ok target
  | S n' =>
      c0 ← aget source i; c1 ← aget source (i + 1);
      c2 ← aget source (i + 2); c3 ← aget source (i + 3);
      target ← aset target i c0; target ← aset target (i + 1) c1;
      target ← aset target (i + 2) c2; target ← aset target (i + 3) c3;
      word_loop n' (i + 4) target source
  end.

(** [taddr] and [saddr] are the addresses of the two buffers, which do not
    overlap. *)
Definition memcopy (taddr saddr buflen : Z) (target source : bytes) : res bytes :=
  if negb (taddr mod 4 =? 0) || negb (saddr mod 4 =? 0) then
    byte_loop (Z.to_nat buflen) 0 target source
  else
    target ← word_loop (Z.to_nat (Z.quot buflen 4)) 0 target source;
    byte_loop (Z.to_nat (Z.rem buflen 4)) (4 * Z.quot buflen 4) target source.

Fixpoint memoryset_loop (n : nat) (i value : Z) (target : bytes) : res bytes :=
  match n with
  | O => Ok target
  | S n' => target ← aset target i value; memoryset_loop n' (i + 1) value target
  end.
Definition memoryset (target : bytes) (value size : Z) : res bytes :=
  memoryset_loop (Z.to_nat size) 0 value target.

Fixpoint strlen (str : bytes) : res Z :=
  match str with
  | [] => Undef
  | c :: rest => if c =? 0 then Ok 0 else l ← strlen rest; Ok (l + 1)
  end.

Definition is_space (c : Z) : bool :=
  (c =? 32) || (c =? 9) || (c =? 13) || (c =? 10).

Fixpoint skip_spaces (s : bytes) : res bytes :=
  match s with
  | [] => Undef
  | c :: rest => if negb (c =? 0) && is_space c then skip_spaces rest else Ok s
  end.

(** [int] arithmetic that overflows has no meaning. *)
Definition int_op (z : Z) : res Z :=
  if (- 2 ^ 31 <=? z) && (z <? 2 ^ 31) then Ok z else Undef.

Fixpoint atoi_digits (s : bytes) (sign value : Z) : res Z :=
  match s with
  | [] => Undef
  | c :: rest =>
      if (48 <=? schar c) && (schar c <=? 57) then
        v ← int_op (10 * value);
        v ← int_op (v + sign * (schar c - 48));
        atoi_digits rest sign v
      else Ok value
  end.

Definition atoi (s : bytes) : res Z :=
  s ← skip_spaces s;
  match s with
  | [] => Undef
  | c :: rest =>
      if c =? 0 then Ok 0
      else if c =? 45 then atoi_digits rest (-1) 0
      else if c =? 43 then atoi_digits rest 1 0
      else atoi_digits s 1 0
  end.

(** ** Strings *)

(** The string a pointer points to: the bytes before the first null. *)
Fixpoint cstr (l : bytes) : option bytes :=
  match l with
  | [] => None
  | c :: l' => if c =? 0 then Some []
               else match cstr l' with Some s => Some (c :: s) | None => None end
  end.

Definition is_bytes (l : bytes) : Prop := Forall is_byte l.

Lemma cstr_Some l a : cstr l = Some a ↔ (∃ rest, l = a ++ 0 :: rest) ∧ 0 ∉ a.
Proof.
  revert a. induction l as [|c l IH]; intros a; simpl.
  - split; [done |]. intros [[rest H] _]. by destruct a.
  - destruct (Z.eqb_spec c 0) as [->|Hc].
    + split.
      * intros [= <-]. split; [by exists l | apply not_elem_of_nil].
      * intros [[rest H] Ha]. destruct a as [|x a]; [done |]. injection H as <- _. set_solver.
    + split.
      * destruct (cstr l) as [b|]; [| done]. intros [= <-]. destruct (proj1 (IH b) eq_refl) as [[rest ->] Hb].
        split; [by exists rest | set_solver].
      * intros [[rest H] Ha]. destruct a as [|x a]; [by injection H |]. injection H as <- H.
        assert (cstr l = Some a) as ->; [| done]. apply IH. split; [by exists rest | set_solver].
Qed.

Lemma cstr_is_bytes l a : is_bytes l → cstr l = Some a → is_bytes a.
Proof. intros Hl [[rest ->] _]%cstr_Some. by apply Forall_app in Hl as [? _]. Qed.

(** Equality of strings is what the file systems use [stringcmp] for. *)
Lemma stringcmp_eq l1 l2 a b :
  is_bytes l1 → is_bytes l2 → cstr l1 = Some a → cstr l2 = Some b →
  ∃ z, stringcmp l1 l2 = Ok z ∧ (z = 0 ↔ a = b).
Proof.
  revert l2 a b. induction l1 as [|c1 l1 IH]; intros [|c2 l2] a b H1 H2; simpl; try done.
  apply Forall_cons in H1 as [Hc1 H1], H2 as [Hc2 H2]. intros Ha Hb.
  pose proof (schar_zero c1 Hc1) as Z1. pose proof (schar_zero c2 Hc2) as Z2.
  destruct (Z.eqb_spec c1 0) as [->|N1], (Z.eqb_spec c2 0) as [->|N2]; simplify_eq.
  - simpl. by exists 0.
  - simpl. destruct (Z.eqb_spec (schar c2) 0); [tauto |]. eexists. split; [done |].
    destruct (cstr l2); simplify_eq. split; [lia | done].
  - destruct (Z.eqb_spec (schar c1) 0); [tauto |]. simpl. eexists. split; [done |].
    destruct (cstr l1); simplify_eq. split; [cbn; lia | done].
  - destruct (Z.eqb_spec (schar c1) 0), (Z.eqb_spec (schar c2) 0); try tauto. simpl.
    destruct (cstr l1) as [a'|] eqn:Ha', (cstr l2) as [b'|] eqn:Hb'; simplify_eq.
    destruct (Z.eqb_spec (schar c1) (schar c2)) as [He|He]; simpl.
    + apply schar_inj in He as ->; [| done | done]. destruct (IH l2 a' b') as (z & -> & Hz); try done.
      exists z. split; [done |]. rewrite Hz. naive_solver.
    + eexists. split; [done |]. split; [lia |]. intros [= -> _]. lia.
Qed.

Lemma strlen_Ok l a : cstr l = Some a → strlen l = Ok (Z.of_nat (length a)).
Proof.
  revert a. induction l as [|c l IH]; intros a; simpl; [done |].
  case_test; [by intros [= <-] |]. destruct (cstr l) as [b|]; [| done]. intros [= <-].
  rewrite (IH b) by done. simpl. f_equal. lia.
Qed.

(** ** Buffers *)

(** [t] with the bytes from position [k] on replaced by [l]. *)
Definition splice {A} (k : nat) (l t : list A) : list A := take k t ++ l ++ drop (k + length l) t.

Lemma splice_length {A} k (l t : list A) : (k + length l ≤ length t)%nat → length (splice k l t) = length t.
Proof. intros ?. unfold splice. rewrite !length_app, length_take, length_drop. lia. Qed.

Lemma splice_lookup {A} k (l t : list A) j :
  (k + length l ≤ length t)%nat →
  splice k l t !! j =
  if decide (k ≤ j < k + length l)%nat then l !! (j - k)%nat else t !! j.
Proof.
  intros Hl. unfold splice. destruct (decide (j < k)%nat).
  - rewrite lookup_app_l by (rewrite length_take; lia). rewrite lookup_take_lt by lia.
    by rewrite decide_False by lia.
  - rewrite lookup_app_r by (rewrite length_take; lia). rewrite length_take, Nat.min_l by lia.
    case_decide; [by rewrite lookup_app_l by lia |].
    rewrite lookup_app_r by lia. rewrite lookup_drop. f_equal. lia.
Qed.

Lemma splice_nil {A} k (t : list A) : splice k [] t = t.
Proof. unfold splice. simpl. by rewrite Nat.add_0_r, take_drop. Qed.

Lemma splice_cons {A} k (x : A) l t :
  (k + S (length l) ≤ length t)%nat → splice (S k) l (<[k := x]> t) = splice k (x :: l) t.
Proof.
  intros Hl. apply list_eq. intros j.
  rewrite !splice_lookup by (rewrite ?length_insert; simpl; lia). simpl.
  destruct (decide (j = k)) as [->|].
  - rewrite decide_False, decide_True by lia. rewrite Nat.sub_diag. simpl. rewrite list_lookup_insert_eq by lia. done.
  - rewrite list_lookup_insert_ne by done. repeat case_decide; try lia; try done.
    replace (j - k)%nat with (S (j - S k)) by lia. done.
Qed.

Lemma splice_splice {A} k (l1 l2 t : list A) :
  (k + length l1 + length l2 ≤ length t)%nat →
  splice (k + length l1) l2 (splice k l1 t) = splice k (l1 ++ l2) t.
Proof.
  intros Hl. apply list_eq. intros j.
  rewrite !splice_lookup by (rewrite ?splice_length, ?length_app; lia). rewrite length_app.
  destruct (decide (k ≤ j < k + length l1)%nat).
  - rewrite decide_False, decide_True by lia. by rewrite lookup_app_l by lia.
  - repeat case_decide; try lia; try done. rewrite lookup_app_r by lia. f_equal. lia.
Qed.

Lemma aget_nat {A} (l : list A) k x : l !! k = Some x → aget l (Z.of_nat k) = Ok x.
Proof. intros H. apply aget_Ok. split; [lia | by rewrite Nat2Z.id]. Qed.
Lemma aset_nat {A} (l : list A) k x : (k < length l)%nat → aset l (Z.of_nat k) x = Ok (<[k := x]> l).
Proof. intros H. rewrite aset_Ok by lia. by rewrite Nat2Z.id. Qed.

Lemma take_drop_cons {A} (s : list A) n k x :
  s !! k = Some x → take (S n) (drop k s) = x :: take n (drop (S k) s).
Proof. intros Hx. by rewrite (drop_S _ _ _ Hx). Qed.

Lemma byte_loop_Ok n k t s :
  (k + n ≤ length t)%nat → (k + n ≤ length s)%nat →
  byte_loop n (Z.of_nat k) t s = Ok (splice k (take n (drop k s)) t).
Proof.
  revert k t. induction n as [|n IH]; intros k t Ht Hs; [by rewrite take_0, splice_nil |].
  destruct (lookup_lt_is_Some_2 s k) as [c Hc]; [lia |]. cbn [byte_loop].
  rewrite (aget_nat _ _ _ Hc). unfold mbind, res_bind. rewrite aset_nat by lia.
  replace (Z.of_nat k + 1) with (Z.of_nat (S k)) by lia. rewrite IH by (rewrite ?length_insert; lia).
  rewrite (take_drop_cons _ _ _ _ Hc), splice_cons; [done |]. rewrite length_take, length_drop. lia.
Qed.

Lemma word_loop_Ok n k t s :
  (k + 4 * n ≤ length t)%nat → (k + 4 * n ≤ length s)%nat →
  word_loop n (Z.of_nat k) t s = Ok (splice k (take (4 * n) (drop k s)) t).
Proof.
  revert k t. induction n as [|n IH]; intros k t Ht Hs; [by rewrite Nat.mul_0_r, take_0, splice_nil |].
  destruct (lookup_lt_is_Some_2 s k) as [c0 H0]; [lia |].
  destruct (lookup_lt_is_Some_2 s (S k)) as [c1 H1]; [lia |].
  destruct (lookup_lt_is_Some_2 s (S (S k))) as [c2 H2]; [lia |].
  destruct (lookup_lt_is_Some_2 s (S (S (S k)))) as [c3 H3]; [lia |]. cbn [word_loop].
  replace (Z.of_nat k + 1) with (Z.of_nat (S k)) by lia.
  replace (Z.of_nat k + 2) with (Z.of_nat (S (S k))) by lia.
  replace (Z.of_nat k + 3) with (Z.of_nat (S (S (S k)))) by lia.
  replace (Z.of_nat k + 4) with (Z.of_nat (4 + k)) by lia.
  rewrite (aget_nat _ _ _ H0), (aget_nat _ _ _ H1), (aget_nat _ _ _ H2), (aget_nat _ _ _ H3).
  unfold mbind, res_bind. rewrite aset_nat by lia. rewrite aset_nat by (rewrite length_insert; lia).
  rewrite aset_nat by (rewrite !length_insert; lia). rewrite aset_nat by (rewrite !length_insert; lia).
  rewrite IH by (rewrite ?length_insert; lia). replace (4 * S n)%nat with (S (S (S (S (4 * n))))) by lia.
  rewrite (take_drop_cons _ _ _ _ H0), (take_drop_cons _ _ _ _ H1), (take_drop_cons _ _ _ _ H2), (take_drop_cons _ _ _ _ H3).
  f_equal. change (4 + k)%nat with (S (S (S (S k)))). set (l := take (4 * n) _).
  assert (Hl : length l = (4 * n)%nat) by (unfold l; rewrite length_take, length_drop; lia).
  rewrite !splice_cons; [done | rewrite ?length_insert; simpl; lia ..].
Qed.

(** The two loops of [memcopy] copy the same bytes. *)
Lemma memcopy_Ok taddr saddr n t s :
  (n ≤ length t)%nat → (n ≤ length s)%nat →
  memcopy taddr saddr (Z.of_nat n) t s = Ok (splice 0 (take n s) t).
Proof.
  intros Ht Hs. unfold memcopy. destruct (negb _ || negb _).
  - rewrite Nat2Z.id. change 0 with (Z.of_nat 0). rewrite byte_loop_Ok by lia. by rewrite drop_0.
  - assert (Hq : Z.quot (Z.of_nat n) 4 = Z.of_nat (n / 4)) by (rewrite Z.quot_div_nonneg, Nat2Z.inj_div by lia; done).
    assert (Hr : Z.rem (Z.of_nat n) 4 = Z.of_nat (n mod 4)) by (rewrite Z.rem_mod_nonneg, Nat2Z.inj_mod by lia; done).
    rewrite Hq, Hr, !Nat2Z.id. pose proof (Nat.div_mod_eq n 4) as Hdm. set (q := (n / 4)%nat) in *. set (r := (n mod 4)%nat) in *.
    change 0 with (Z.of_nat 0) at 1. rewrite word_loop_Ok by lia. unfold mbind, res_bind. rewrite drop_0.
    replace (4 * Z.of_nat q) with (Z.of_nat (4 * q)) by lia.
    assert (Hl : length (take (4 * q) s) = (4 * q)%nat) by (rewrite length_take; lia).
    rewrite byte_loop_Ok by (rewrite ?splice_length; lia). f_equal.
    rewrite <- Hl at 1. change (length (take (4 * q) s)) with (0 + length (take (4 * q) s))%nat at 1.
    rewrite splice_splice by (rewrite Hl, length_take, length_drop; lia). f_equal.
    rewrite take_take_drop. f_equal. lia.
Qed.

Lemma memoryset_Ok n k v t :
  (k + n ≤ length t)%nat → memoryset_loop n (Z.of_nat k) v t = Ok (splice k (replicate n v) t).
Proof.
  revert k t. induction n as [|n IH]; intros k t Ht; [simpl; by rewrite splice_nil |]. cbn [memoryset_loop replicate].
  rewrite aset_nat by lia. unfold mbind, res_bind. replace (Z.of_nat k + 1) with (Z.of_nat (S k)) by lia.
  rewrite IH by (rewrite length_insert; lia). f_equal. apply splice_cons. rewrite length_replicate. lia.
Qed.

(** ** [stringcopy] *)

Lemma pad_loop_Ok n k t : t !! k = Some 0 → pad_loop n t (Z.of_nat k) = Ok t.
Proof.
  revert t. induction n as [|n IH]; intros t Hk; [done |]. cbn [pad_loop].
  rewrite aset_nat by (by eapply lookup_lt_Some). unfold mbind, res_bind.
  rewrite list_insert_id by done. by apply IH.
Qed.

Lemma stringcopy_loop_Ok n k buflen t s a :
  cstr (drop k s) = Some a → (k + n < length t)%nat →
  stringcopy_loop n (Z.of_nat k) buflen t s = Ok (splice k (take n a ++ [0]) t).
Proof.
  revert k t a. induction n as [|n IH]; intros k t a Ha Ht; cbn [stringcopy_loop].
  - rewrite aset_nat by lia. f_equal. simpl. rewrite <- splice_cons, splice_nil by (simpl; lia). done.
  - destruct (drop k s) as [|c rest] eqn:Ed; [done |].
    assert (Hc : s !! k = Some c) by (rewrite <- (Nat.add_0_r k), <- lookup_drop, Ed; done).
    rewrite (aget_nat _ _ _ Hc). unfold mbind, res_bind. rewrite aset_nat by lia. simpl in Ha.
    destruct (Z.eqb_spec c 0) as [->|Hne].
    + injection Ha as <-. rewrite pad_loop_Ok by (apply list_lookup_insert_eq; lia).
      f_equal. simpl. rewrite <- splice_cons, splice_nil by (simpl; lia). done.
    + destruct (cstr rest) as [b|] eqn:Eb; [| done]. injection Ha as <-.
      replace (Z.of_nat k + 1) with (Z.of_nat (S k)) by lia.
      assert (Hrest : drop (S k) s = rest) by (rewrite (drop_S _ _ _ Hc) in Ed; by injection Ed).
      rewrite (IH (S k) _ b) by (rewrite ?Hrest, ?length_insert; done || lia).
      f_equal. simpl. apply splice_cons. rewrite length_app, length_take. simpl. lia.
Qed.

Lemma stringcopy_Ok t s a n :
  cstr s = Some a → 1 ≤ n ≤ Z.of_nat (length t) →
  stringcopy t s n = Ok (splice 0 (take (Z.to_nat (n - 1)) a ++ [0]) t).
Proof.
  intros Ha Hn. unfold stringcopy. change 0 with (Z.of_nat 0) at 1.
  apply stringcopy_loop_Ok; [by rewrite drop_0 | lia].
Qed.

(** ** [atoi] *)

(** The number a list of decimal digits stands for. *)
Definition decimal (ds : list Z) : Z := foldl (λ v d, 10 * v + d) 0 ds.

Lemma foldl_decimal_ge v ds : 0 ≤ v → Forall (λ d, 0 ≤ d ≤ 9) ds → v ≤ foldl (λ v d, 10 * v + d) v ds.
Proof.
  revert v. induction ds as [|d ds IH]; intros v Hv Hds; simpl; [lia |].
  apply Forall_cons in Hds as [Hd Hds]. specialize (IH (10 * v + d) ltac:(lia) Hds). lia.
Qed.

Lemma int_op_Ok z : is_s32 z → int_op z = Ok z.
Proof. intros [? ?]. unfold int_op. by rewrite (proj2 (Z.leb_le _ _)), (proj2 (Z.ltb_lt _ _)). Qed.

Lemma atoi_digits_Ok ds c rest sign v :
  (sign = 1 ∨ sign = -1) → 0 ≤ v → Forall (λ d, 0 ≤ d ≤ 9) ds → is_byte c → ¬ (48 ≤ c ≤ 57) →
  is_s32 (sign * foldl (λ v d, 10 * v + d) v ds) →
  atoi_digits ((Z.add 48 <$> ds) ++ c :: rest) sign (sign * v) =
  Ok (sign * foldl (λ v d, 10 * v + d) v ds).
Proof.
  intros Hs. revert v. induction ds as [|d ds IH]; intros v Hv Hds Hc Hn Hr; simpl.
  - assert (schar c < 48 ∨ 57 < schar c).
    { unfold is_byte, schar in *. destruct (Z.ltb_spec c 128); lia. }
    destruct (Z.leb_spec 48 (schar c)), (Z.leb_spec (schar c) 57); try done; lia.
  - apply Forall_cons in Hds as [Hd Hds].
    pose proof (foldl_decimal_ge (10 * v + d) ds ltac:(lia) Hds) as Hge. simpl in Hr.
    unfold schar. rewrite (proj2 (Z.ltb_lt (48 + d) 128)) by lia.
    rewrite (proj2 (Z.leb_le 48 (48 + d))), (proj2 (Z.leb_le (48 + d) 57)) by lia. simpl.
    unfold is_s32 in *. rewrite int_op_Ok by (unfold is_s32; destruct Hs as [-> | ->]; lia).
    unfold mbind, res_bind.
    replace (10 * (sign * v) + sign * (48 + d - 48)) with (sign * (10 * v + d)) by lia.
    rewrite int_op_Ok by (unfold is_s32; destruct Hs as [-> | ->]; lia).
    apply IH; try done. lia.
Qed.

Lemma skip_spaces_Ok ws s c rest :
  Forall (λ w, is_space w = true) ws → s = c :: rest → is_space c = false →
  skip_spaces (ws ++ s) = Ok s.
Proof.
  intros Hws -> Hc. induction Hws as [|w ws Hw _ IH]; simpl.
  - by rewrite Hc, andb_false_r.
  - destruct (Z.eqb_spec w 0) as [->|]; [done |]. by rewrite Hw.
Qed.

(** ** Theorems *)

(** [memcopy] copies exactly the first [n] bytes, whether it goes byte by
    byte or, when both buffers are aligned, by words: the two ways agree. *)
Theorem memcopy_copies taddr saddr n target source :
  (n ≤ length target)%nat → (n ≤ length source)%nat →
  memcopy taddr saddr (Z.of_nat n) target source = Ok (take n source ++ drop n target).
Proof.
  intros Ht Hs. rewrite memcopy_Ok by done. unfold splice. simpl. by rewrite length_take, Nat.min_l.
Qed.

Lemma memcopy_copies_witness :
  memcopy 0x1000 0x2000 6 [9; 9; 9; 9; 9; 9; 9; 9] [1; 2; 3; 4; 5; 6; 7] = Ok [1; 2; 3; 4; 5; 6; 9; 9] ∧
  memcopy 0x1001 0x2000 6 [9; 9; 9; 9; 9; 9; 9; 9] [1; 2; 3; 4; 5; 6; 7] = Ok [1; 2; 3; 4; 5; 6; 9; 9].
Proof.
  split.
  - apply (memcopy_copies 0x1000 0x2000 6 [9; 9; 9; 9; 9; 9; 9; 9] [1; 2; 3; 4; 5; 6; 7]); simpl; lia.
  - apply (memcopy_copies 0x1001 0x2000 6 [9; 9; 9; 9; 9; 9; 9; 9] [1; 2; 3; 4; 5; 6; 7]); simpl; lia.
Defined.

(** [stringcopy] writes at most [buflen] bytes and leaves a terminated
    string, the source cut off at [buflen - 1] characters.  The bytes behind
    the terminator keep their old contents: unlike the comment says, the rest
    of the buffer is not padded with nulls. *)
Theorem stringcopy_cuts target source a buflen :
  cstr source = Some a → 1 ≤ buflen ≤ Z.of_nat (length target) →
  ∃ t', stringcopy target source buflen = Ok t' ∧ length t' = length target ∧
    cstr t' = Some (take (Z.to_nat (buflen - 1)) a) ∧
    ∀ j, (length (take (Z.to_nat (buflen - 1)) a) < j)%nat → t' !! j = target !! j.
Proof.
  intros Ha Hn. eexists. split; [by apply stringcopy_Ok |].
  set (b := take (Z.to_nat (buflen - 1)) a).
  assert (Hb : (length b < length target)%nat) by (unfold b; rewrite length_take; lia).
  split_and!.
  - apply splice_length. rewrite length_app. simpl. lia.
  - apply cstr_Some. split.
    + unfold splice. simpl. exists (drop (length (b ++ [0])) target). by rewrite <- app_assoc.
    + apply cstr_Some in Ha as [_ Ha]. intros Hin. apply Ha. eapply elem_of_take in Hin as (i & Hi & _).
      by eapply list_elem_of_lookup_2.
  - intros j Hj. rewrite splice_lookup by (rewrite length_app; simpl; lia). rewrite length_app. simpl.
    by rewrite decide_False by lia.
Qed.

Lemma stringcopy_cuts_witness :
  ∃ t', stringcopy [7; 7; 7; 7; 7; 7] [104; 105; 0; 5] 5 = Ok t' ∧ length t' = 6%nat ∧
    cstr t' = Some [104; 105] ∧
    ∀ j, (2 < j)%nat → t' !! j = [7; 7; 7; 7; 7; 7] !! j.
Proof. apply (stringcopy_cuts [7; 7; 7; 7; 7; 7] [104; 105; 0; 5] [104; 105] 5); [reflexivity | simpl; lia]. Defined.

(** [atoi] reads white space, an optional sign and decimal digits up to the
    first other character, and returns the number they stand for, when it
    fits an [int]. *)
Theorem atoi_decimal ws sgn ds c rest :
  Forall (λ w, is_space w = true) ws → (sgn = [] ∨ sgn = [43] ∨ sgn = [45]) →
  Forall (λ d, 0 ≤ d ≤ 9) ds → ds ≠ [] → is_byte c → ¬ (48 ≤ c ≤ 57) →
  let v := if decide (sgn = [45]) then - decimal ds else decimal ds in
  is_s32 v → atoi (ws ++ sgn ++ (Z.add 48 <$> ds) ++ c :: rest) = Ok v.
Proof.
  intros Hws Hsgn Hds Hne Hc Hn v Hv. destruct ds as [|d ds]; [done |].
  pose proof Hds as [Hd _]%Forall_cons. unfold atoi.
  assert (Hsp : ∀ x y, x = 43 ∨ x = 45 ∨ 48 ≤ x ≤ 57 →
    skip_spaces (ws ++ x :: y) = Ok (x :: y)).
  { intros x y Hx. eapply skip_spaces_Ok; [done | done |].
    apply not_true_iff_false. unfold is_space. rewrite !orb_true_iff, !Z.eqb_eq. lia. }
  assert (Hpos : is_s32 (decimal (d :: ds)) → atoi_digits ((Z.add 48 <$> (d :: ds)) ++ c :: rest) 1 0 = Ok (decimal (d :: ds))).
  { intros Hr. pose proof (atoi_digits_Ok (d :: ds) c rest 1 0 ltac:(auto) ltac:(lia) Hds Hc Hn) as H.
    rewrite !Z.mul_1_l in H. by apply H. }
  assert (Hneg : is_s32 (- decimal (d :: ds)) → atoi_digits ((Z.add 48 <$> (d :: ds)) ++ c :: rest) (-1) 0 = Ok (- decimal (d :: ds))).
  { intros Hr. pose proof (atoi_digits_Ok (d :: ds) c rest (-1) 0 ltac:(auto) ltac:(lia) Hds Hc Hn) as H.
    rewrite Z.mul_0_r in H. replace (- decimal (d :: ds)) with (-1 * decimal (d :: ds)) in * by lia. by apply H. }
  destruct Hsgn as [-> | [-> | ->]]; unfold v in *; rewrite ?decide_True, ?decide_False in * by done.
  - simpl. rewrite (Hsp (48 + d)) by lia. unfold mbind, res_bind.
    rewrite (proj2 (Z.eqb_neq (48 + d) 0)), (proj2 (Z.eqb_neq (48 + d) 45)), (proj2 (Z.eqb_neq (48 + d) 43)) by lia.
    by apply Hpos.
  - simpl. rewrite (Hsp 43) by lia. simpl. by apply Hpos.
  - simpl. rewrite (Hsp 45) by lia. simpl. by apply Hneg.
Qed.

Lemma atoi_decimal_witness : atoi [32; 9; 45; 49; 50; 51; 97; 0] = Ok (-123).
Proof.
  apply (atoi_decimal [32; 9] [45] [1; 2; 3] 97 [0]).
  - repeat constructor.
  - auto.
  - repeat constructor; lia.
  - discriminate.
  - unfold is_byte. lia.
  - lia.
  - vm_compute. split; [discriminate | reflexivity].
Defined.
