(* ===== verification/Bootargs.v ===== *)
(** * Boot arguments (src/buenos/drivers/bootargs.c)

    The kernel is started with a line "key1=value1 key2=value2".  The line is
    copied, cut into strings in place, and the keys and values become pointers
    into the copy: offsets in [value_area] here, with [VEmpty] for the literal
    empty string. *)

From S2P Require Import Prelude Libc Kmalloc.
Local Open Scope Z_scope.

Definition CONFIG_BOOTARGS_MAX : Z := 32.

Inductive string_ptr := VEmpty | VAt (o : Z).
(** [struct bootargs_t]; a key is an offset, [None] the null pointer. *)
Record bootarg := mk_bootarg { ba_key : option Z; ba_value : string_ptr }.

Record bootargs := mk_bootargs { bootargs_values : list bootarg; value_area : bytes; ba_kmalloc : kmalloc_state }.

Fixpoint bmemcopy (n : nat) (i : Z) (target source : bytes) : res bytes :=
  match n with
  | O => Ok target
  | S n' => c ← aget source i; target ← aset target i c; bmemcopy n' (i + 1) target source
  end.

(** The inner loop: the end of a value.  The results are the new [o] and
    [last]. *)
Fixpoint value_loop (fuel : nat) (area : bytes) (vs : list bootarg) (i o last l : Z) :
    res (bytes * list bootarg * Z * Z) :=
  match fuel with
  | O => NoFuel
  | S fuel' =>
      if o <=? l then
        c ← aget area o;
        if (c =? 32) || (c =? 0) then
          e ← aget vs i;
          vs ← aset vs i (mk_bootarg (ba_key e) (VAt last));
          area ← aset area o 0;
          Ok (area, vs, o + 1, o + 1)
        else value_loop fuel' area vs i (o + 1) last l
      else Ok (area, vs, o, last)
  end.

(** The outer loop. *)
Fixpoint parse_loop (fuel : nat) (area : bytes) (vs : list bootarg) (i o last l : Z) : res (bytes * list bootarg) :=
  match fuel with
  | O => NoFuel
  | S fuel' =>
      if o <=? l then
        c ← aget area o;
        if (c =? 32) || (c =? 0) || (c =? 61) then
          vs ← aset vs i (mk_bootarg (Some last) VEmpty);
          let last := o + 1 in
          if c =? 61 then
            area ← aset area o 0;
            r ← value_loop fuel' area vs i (o + 1) last l;
            match r with (area, vs, o, last) => parse_loop fuel' area vs (i + 1) o last l end
          else
            area ← aset area o 0;
            parse_loop fuel' area vs (i + 1) (o + 1) last l
        else parse_loop fuel' area vs i (o + 1) last l
      else Ok (area, vs)
  end.

Definition set_kmalloc (k : kmalloc_state) (s : bootargs) : bootargs := mk_bootargs (bootargs_values s) (value_area s) k.

(** [bootarg_area] is the memory at [BOOT_ARGUMENT_AREA]; [junk n] is what [n]
    bytes of fresh memory hold. *)
Definition bootargs_init (bootarg_area : bytes) (junk : Z → bytes) : K bootargs unit :=
  modify (λ s, mk_bootargs (map (λ e, mk_bootarg None (ba_value e)) (bootargs_values s)) (value_area s) (ba_kmalloc s));;
  l ← pure (strlen bootarg_area);
  zoom ba_kmalloc set_kmalloc (kmalloc (l + 1));;
  area ← pure (bmemcopy (Z.to_nat (l + 1)) 0 (junk (l + 1)) bootarg_area);
  vs ← gets bootargs_values;
  r ← pure (parse_loop (S (S (Z.to_nat l))) area vs 0 0 0 l);
  modify (λ s, mk_bootargs (snd r) (fst r) (ba_kmalloc s)).

(** Whether the string at [k] is [key]: the loop that compares them. *)
Fixpoint key_matches (k key : bytes) : res bool :=
  match k, key with
  | a :: k', b :: key' =>
      if a =? b then if b =? 0 then Ok true else key_matches k' key' else Ok false
  | _, _ => Undef
  end.

Fixpoint get_loop (vs : list bootarg) (area key : bytes) : res (option string_ptr) :=
  match vs with
  | [] => Ok None
  | e :: vs' =>
      match ba_key e with
      | None => Ok None
      | Some k =>
          m ← key_matches (drop (Z.to_nat k) area) key;
          if m : bool then Ok (Some (ba_value e)) else get_loop vs' area key
      end
  end.

(** [None] is a null pointer. *)
Definition bootargs_get (key : bytes) : K bootargs (option string_ptr) :=
  s ← gets id; pure (get_loop (bootargs_values s) (value_area s) key).

(** ** What a line of arguments means *)

Definition arg : Type := bytes * option bytes.

Definition key_char (c : Z) : Prop := c ≠ 0 ∧ c ≠ 32 ∧ c ≠ 61.
Definition value_char (c : Z) : Prop := c ≠ 0 ∧ c ≠ 32.
Definition arg_ok (a : arg) : Prop :=
  Forall key_char (fst a) ∧ match snd a with None => True | Some v => Forall value_char v end.

(** The text of an argument, and of a line of arguments. *)
Definition arg_text (a : arg) : bytes := match snd a with None => fst a | Some v => fst a ++ 61 :: v end.
Fixpoint line_text (l : list arg) : bytes :=
  match l with
  | [] => []
  | [a] => arg_text a
  | a :: l' => arg_text a ++ 32 :: line_text l'
  end.

(** The first argument with a key. *)
Definition arg_value (l : list arg) (key : bytes) : option bytes :=
  option_map (λ a, default [] (snd a)) (List.find (λ a, bool_decide (fst a = key)) l).

(** The strings the line is cut into, and the pointers to them. *)
Definition arg_area (a : arg) : bytes := match snd a with None => fst a ++ [0] | Some v => fst a ++ 0 :: v ++ [0] end.
Definition arg_entry (off : Z) (a : arg) : bootarg :=
  mk_bootarg (Some off) (match snd a with None => VEmpty | Some _ => VAt (off + Z.of_nat (length (fst a)) + 1) end).
Fixpoint arg_entries (off : Z) (l : list arg) : list bootarg :=
  match l with
  | [] => []
  | a :: l' => arg_entry off a :: arg_entries (off + Z.of_nat (length (arg_area a))) l'
  end.

Lemma arg_area_length a : length (arg_area a) = S (length (arg_text a)).
Proof. destruct a as [k [v|]]; unfold arg_area, arg_text; cbn; rewrite ?length_app; cbn; rewrite ?length_app; cbn; lia. Qed.

(** ** The parser *)

Lemma aget_mid {A} (p : list A) c q o : o = Z.of_nat (length p) → aget (p ++ c :: q) o = Ok c.
Proof. intros ->. apply aget_nat. by rewrite lookup_app_r, Nat.sub_diag by lia. Qed.

Lemma aset_mid {A} (p : list A) c q x o : o = Z.of_nat (length p) → aset (p ++ c :: q) o x = Ok (p ++ x :: q).
Proof.
  intros ->. rewrite aset_nat by (rewrite length_app; cbn; lia). f_equal. rewrite insert_app_r_alt, Nat.sub_diag by lia. done.
Qed.

(** The characters of a key and of a value are passed over. *)
Lemma skip_key k : Forall key_char k → ∀ fuel p q vs i o last l,
  o = Z.of_nat (length p) → o + Z.of_nat (length k) ≤ l →
  parse_loop (length k + fuel) (p ++ k ++ q) vs i o last l =
  parse_loop fuel (p ++ k ++ q) vs i (o + Z.of_nat (length k)) last l.
Proof.
  induction 1 as [|c k (H0 & H32 & H61) _ IH]; intros fuel p q vs i o last l Ho Hl; [cbn; f_equal; lia |].
  cbn [length Nat.add app parse_loop] in *. rewrite (proj2 (Z.leb_le _ _)) by lia.
  rewrite (aget_mid p c (k ++ q)) by done. cbn.
  rewrite (proj2 (Z.eqb_neq _ _) H0), (proj2 (Z.eqb_neq _ _) H32), (proj2 (Z.eqb_neq _ _) H61). cbn.
  pose proof (IH fuel (p ++ [c]) q vs i (o + 1) last l) as E. rewrite <- app_assoc in E. cbn in E.
  rewrite E by (rewrite ?length_app; cbn; lia). f_equal. lia.
Qed.

Lemma skip_value v : Forall value_char v → ∀ fuel p q vs i o last l,
  o = Z.of_nat (length p) → o + Z.of_nat (length v) ≤ l →
  value_loop (length v + fuel) (p ++ v ++ q) vs i o last l =
  value_loop fuel (p ++ v ++ q) vs i (o + Z.of_nat (length v)) last l.
Proof.
  induction 1 as [|c v (H0 & H32) _ IH]; intros fuel p q vs i o last l Ho Hl; [cbn; f_equal; lia |].
  cbn [length Nat.add app value_loop] in *. rewrite (proj2 (Z.leb_le _ _)) by lia.
  rewrite (aget_mid p c (v ++ q)) by done. cbn.
  rewrite (proj2 (Z.eqb_neq _ _) H0), (proj2 (Z.eqb_neq _ _) H32). cbn.
  pose proof (IH fuel (p ++ [c]) q vs i (o + 1) last l) as E. rewrite <- app_assoc in E. cbn in E.
  rewrite E by (rewrite ?length_app; cbn; lia). f_equal. lia.
Qed.

Lemma parse_arg a fuel p q sep vs i o l :
  arg_ok a → sep = 32 ∨ sep = 0 → o = Z.of_nat (length p) → o + Z.of_nat (length (arg_text a)) ≤ l →
  0 ≤ i < Z.of_nat (length vs) → (length (arg_text a) + 1 < fuel)%nat →
  ∃ fuel2, (fuel ≤ fuel2 + length (arg_area a))%nat ∧
    parse_loop fuel (p ++ arg_text a ++ sep :: q) vs i o o l =
    parse_loop fuel2 (p ++ arg_area a ++ q) (<[Z.to_nat i := arg_entry o a]> vs) (i + 1)
      (o + Z.of_nat (length (arg_area a))) (o + Z.of_nat (length (arg_area a))) l.
Proof.
  destruct a as [k v]. intros [Hk Hv] Hsep Ho Hl Hi Hf. rewrite arg_area_length. cbn [fst snd] in *.
  set (n := length k). assert (Hn : (n ≤ length (arg_text (k, v)))%nat).
  { unfold arg_text, n. destruct v; cbn; rewrite ?length_app; lia. }
  destruct (Nat.le_exists_sub (n + 1) fuel) as (f & -> & _); [lia |].
  replace (f + (n + 1))%nat with (n + S f)%nat in * by lia. unfold arg_text in *. destruct v as [v|]; cbn [snd fst] in *.
  - (* key=value *)
    rewrite <- app_assoc. cbn [app]. rewrite length_app in *. cbn [length] in *.
    rewrite (skip_key k Hk (S f) p (61 :: v ++ sep :: q)) by (done || lia).
    cbn [parse_loop]. rewrite (proj2 (Z.leb_le _ _)) by lia. rewrite app_assoc.
    rewrite (aget_mid (p ++ k) 61) by (rewrite length_app; lia). cbn. rewrite (aset_Ok vs i) by done. cbn.
    rewrite (aset_mid (p ++ k) 61) by (rewrite length_app; lia). cbn.
    pose proof (skip_value v Hv (f - length v) (p ++ k ++ [0]) (sep :: q) (<[Z.to_nat i:=mk_bootarg (Some o) VEmpty]> vs) i
      (o + Z.of_nat n + 1) (o + Z.of_nat n + 1) l) as Es.
    rewrite <- !app_assoc in Es. cbn [app] in Es. rewrite <- app_assoc.
    replace (length v + (f - length v))%nat with f in Es by lia.
    fold n. rewrite Es; [| rewrite !length_app; cbn; lia | lia].
    destruct (f - length v)%nat as [|f'] eqn:Ef; [lia |]. cbn [value_loop].
    rewrite (proj2 (Z.leb_le _ _)) by lia.
    replace (p ++ k ++ 0 :: v ++ sep :: q) with ((p ++ k ++ 0 :: v) ++ sep :: q) by (rewrite <- !app_assoc; done).
    assert (Hlen : o + Z.of_nat n + 1 + Z.of_nat (length v) = Z.of_nat (length (p ++ k ++ 0 :: v))).
    { rewrite !length_app. cbn. lia. }
    rewrite (aget_mid _ sep) by done. cbn. assert (((sep =? 32) || (sep =? 0)) = true) as -> by (by destruct Hsep as [-> | ->]).
    rewrite (proj2 (aget_Ok _ i (mk_bootarg (Some o) VEmpty))).
    2: { split; [lia |]. apply list_lookup_insert_eq. lia. }
    cbn. rewrite (aset_Ok (<[_ := _]> vs) i) by (rewrite length_insert; lia). cbn. rewrite list_insert_insert_eq.
    rewrite (aset_mid _ sep) by done. cbn. exists f. split; [lia |].
    unfold arg_area, arg_entry. cbn [fst snd]. rewrite <- !app_assoc. cbn [app]. rewrite <- !app_assoc. cbn [app]. f_equal; lia.
  - rewrite (skip_key k Hk (S f) p (sep :: q)) by (done || lia).
    cbn [parse_loop]. rewrite (proj2 (Z.leb_le _ _)) by lia. rewrite app_assoc.
    rewrite (aget_mid (p ++ k) sep) by (rewrite length_app; lia). cbn.
    assert (((sep =? 32) || (sep =? 0) || (sep =? 61)) = true) as -> by (by destruct Hsep as [-> | ->]).
    rewrite (aset_Ok vs i) by done. cbn. assert ((sep =? 61) = false) as -> by (by destruct Hsep as [-> | ->]).
    rewrite (aset_mid (p ++ k) sep) by (rewrite length_app; lia). cbn. exists f. split; [lia |].
    unfold arg_area, arg_entry. cbn [fst snd]. rewrite <- !app_assoc. cbn [app]. f_equal; lia.
Qed.

(** The whole line. *)
Lemma parse_line args : ∀ fuel p vs i o l,
  Forall arg_ok args → args ≠ [] → o = Z.of_nat (length p) → l = o + Z.of_nat (length (line_text args)) →
  0 ≤ i → i + Z.of_nat (length args) ≤ Z.of_nat (length vs) → (length (line_text args) + 1 < fuel)%nat →
  parse_loop fuel (p ++ line_text args ++ [0]) vs i o o l =
  Ok (p ++ flat_map arg_area args, splice (Z.to_nat i) (arg_entries o args) vs).
Proof.
  induction args as [|a args IH]; [done |]. intros fuel p vs i o l [Ha Hargs]%Forall_cons _ Ho Hl Hi Hn Hf.
  destruct args as [|a' args].
  - cbn [line_text] in *. destruct (parse_arg a fuel p [] 0 vs i o l) as (f2 & Hf2 & ->);
      [done | by right | done | lia | cbn in Hn; lia | lia |].
    rewrite arg_area_length in *. destruct f2 as [|f2]; [lia |]. cbn [parse_loop]. rewrite (proj2 (Z.leb_gt _ _)) by lia.
    cbn [flat_map arg_entries]. do 2 f_equal. rewrite <- splice_cons, splice_nil; [done | cbn in *; lia].
  - change (line_text (a :: a' :: args)) with (arg_text a ++ 32 :: line_text (a' :: args)) in *.
    rewrite length_app in *. cbn [length] in Hl, Hf, Hn.
    rewrite <- (app_assoc (arg_text a)). cbn [app].
    destruct (parse_arg a fuel p (line_text (a' :: args) ++ [0]) 32 vs i o l) as (f2 & Hf2 & ->);
      [done | by left | done | lia | lia | lia |].
    rewrite arg_area_length in *. rewrite app_assoc. rewrite IH; [| done | done | | | lia | | ].
    + cbn [flat_map]. rewrite <- !app_assoc. do 2 f_equal. cbn [arg_entries]. rewrite arg_area_length.
      rewrite <- (splice_cons (Z.to_nat i) (arg_entry o a)).
      * rewrite !arg_area_length. by replace (Z.to_nat (i + 1)) with (S (Z.to_nat i)) by lia.
      * assert (Hlen : ∀ l o', length (arg_entries o' l) = length l) by (clear; induction l; intros; cbn; by f_equal).
        cbn [length]. rewrite Hlen. lia.
    + rewrite length_app, arg_area_length. lia.
    + lia.
    + rewrite length_insert. cbn [length] in *. lia.
    + lia.
Qed.

(** ** Looking a key up *)

Lemma key_matches_cstr l a key b :
  cstr l = Some a → cstr key = Some b → key_matches l key = Ok (bool_decide (a = b)).
Proof.
  revert l b key. induction a as [|c a IH]; intros l b key Hl Hk.
  - destruct l as [|x l]; [done |]. cbn in Hl. destruct (Z.eqb_spec x 0) as [->|]; [| by destruct (cstr l)].
    destruct key as [|y key]; [done |]. cbn [key_matches]. cbn in Hk.
    destruct (Z.eqb_spec y 0) as [->|Hy]; [injection Hk as <-; done |].
    rewrite (proj2 (Z.eqb_neq 0 y)) by done. destruct (cstr key); [| done]. by injection Hk as <-.
  - destruct l as [|x l]; [done |]. cbn in Hl. destruct (Z.eqb_spec x 0) as [->|Hx]; [done |].
    destruct (cstr l) as [a'|] eqn:El; [| done]. injection Hl as -> ->.
    destruct key as [|y key]; [done |]. cbn [key_matches]. cbn in Hk.
    destruct (Z.eqb_spec y 0) as [->|Hy].
    + injection Hk as <-. rewrite (proj2 (Z.eqb_neq _ _)) by done. by rewrite bool_decide_false.
    + destruct (cstr key) as [b'|] eqn:Ek; [| done]. injection Hk as <-.
      destruct (Z.eqb_spec c y) as [->|Hne]; [| rewrite bool_decide_false; congruence].
      rewrite (IH l b' key El Ek). f_equal. apply bool_decide_ext. split; congruence.
Qed.

Lemma cstr_cut k q : 0 ∉ k → cstr (k ++ 0 :: q) = Some k.
Proof. intros Hk. apply cstr_Some. split; [by exists q | done]. Qed.

Lemma key_no0 a : arg_ok a → 0 ∉ fst a.
Proof. intros [Hk _] Hin. eapply Forall_forall in Hk as (? & _); done. Qed.

(** The string a pointer stands for. *)
Definition ptr_string (area : bytes) (p : string_ptr) : option bytes :=
  match p with VEmpty => Some [] | VAt o => cstr (drop (Z.to_nat o) area) end.

Lemma entry_strings a p q :
  arg_ok a →
  cstr (drop (length p) (p ++ arg_area a ++ q)) = Some (fst a) ∧
  ptr_string (p ++ arg_area a ++ q) (ba_value (arg_entry (Z.of_nat (length p)) a)) = Some (default [] (snd a)).
Proof.
  intros Ha. pose proof (key_no0 a Ha) as H0. rewrite drop_app_length. destruct a as [k [v|]]; unfold arg_area; cbn [fst snd] in *.
  - rewrite <- app_assoc. cbn [app]. split; [by apply cstr_cut |]. cbn.
    replace (Z.to_nat (Z.of_nat (length p) + Z.of_nat (length k) + 1)) with (length (p ++ k ++ [0]))
      by (rewrite !length_app; cbn; lia).
    replace (p ++ k ++ 0 :: (v ++ [0]) ++ q) with ((p ++ k ++ [0]) ++ v ++ 0 :: q) by (rewrite <- !app_assoc; done).
    rewrite drop_app_length. apply cstr_cut. destruct Ha as [_ Hv]. intros Hin. eapply Forall_forall in Hv as (? & _); done.
  - rewrite <- app_assoc. split; [by apply cstr_cut | done].
Qed.

Lemma get_loop_args args : ∀ p key b rest,
  Forall arg_ok args → cstr key = Some b → match rest with [] => True | e :: _ => ba_key e = None end →
  ∃ r, get_loop (arg_entries (Z.of_nat (length p)) args ++ rest) (p ++ flat_map arg_area args) key = Ok r ∧
    match r with None => arg_value args b = None | Some s => ptr_string (p ++ flat_map arg_area args) s = arg_value args b ∧ is_Some (arg_value args b) end.
Proof.
  induction args as [|a args IH]; intros p key b rest Hok Hb Hrest.
  - exists None. cbn. split; [| done]. destruct rest as [|e rest]; [done |]. cbn. by rewrite Hrest.
  - apply Forall_cons in Hok as [Ha Hok]. cbn [arg_entries app flat_map get_loop].
    destruct (entry_strings a p (flat_map arg_area args) Ha) as [Hkey Hval].
    change (ba_key (arg_entry _ a)) with (Some (Z.of_nat (length p))). cbv iota. rewrite Nat2Z.id.
    rewrite (key_matches_cstr _ _ _ _ Hkey Hb). cbn [mbind res_bind].
    unfold arg_value in *. cbn [List.find]. case_bool_decide as Heq.
    + eexists. split; [done |]. cbn. split; [exact Hval | by eexists].
    + destruct (IH (p ++ arg_area a) key b rest Hok Hb Hrest) as (r & Er & Hr).
      rewrite <- app_assoc in Er, Hr. rewrite length_app in Er.
      replace (Z.of_nat (length p + length (arg_area a))) with (Z.of_nat (length p) + Z.of_nat (length (arg_area a))) in Er by lia.
      by exists r.
Qed.

Lemma bmemcopy_Ok n k t s :
  (k + n ≤ length s)%nat → (k + n ≤ length t)%nat →
  bmemcopy n (Z.of_nat k) t s = Ok (splice k (take n (drop k s)) t).
Proof.
  intros Hs Ht. assert (∀ n i t s, bmemcopy n i t s = byte_loop n i t s) as ->; [| by apply byte_loop_Ok].
  clear. induction n as [|n IH]; intros i t s; [done |]. cbn. destruct (aget s i) as [c| | | |]; cbn; [| done..].
  destruct (aset t i c); cbn; [apply IH | done..].
Qed.

(** The table and the copy of the line once the arguments have been read. *)
Definition args_read (args : list arg) (s : bootargs) : Prop :=
  value_area s = flat_map arg_area args ∧
  ∃ tail, bootargs_values s = arg_entries 0 args ++ tail ∧ match tail with [] => True | e :: _ => ba_key e = None end.

Lemma bootargs_init_wp s boot args junk :
  Forall arg_ok args → args ≠ [] → (length args ≤ 32)%nat → cstr boot = Some (line_text args) →
  length (bootargs_values s) = 32%nat → kmalloc_wf (ba_kmalloc s) →
  free_area_start (ba_kmalloc s) + Z.of_nat (length (line_text args)) + 1 ≤ memory_end (ba_kmalloc s) →
  (∀ n, 0 ≤ n → Z.of_nat (length (junk n)) = n) →
  wp (bootargs_init boot junk) (λ _ s', args_read args s' ∧ kmalloc_wf (ba_kmalloc s') ∧ memory_end (ba_kmalloc s') = memory_end (ba_kmalloc s) ∧
    free_area_start (ba_kmalloc s) ≤ free_area_start (ba_kmalloc s') ≤ free_area_start (ba_kmalloc s) + Z.of_nat (length (line_text args)) + 4) s.
Proof.
  intros Hok Hne Hn Hboot Hvs Hkm Hroom Hjunk. set (line := line_text args) in *.
  pose proof Hboot as Hb. apply cstr_Some in Hb as [[rest Eb] _]. pose proof (Hjunk (Z.of_nat (length line) + 1)) as Hj.
  unfold bootargs_init. wp_step. wp_step. wp_step. eapply wp_pure; [by apply strlen_Ok |]. wp_step.
  apply wp_zoom. cbn [ba_kmalloc]. eapply wp_mono; [apply kmalloc_step; [done | lia | lia] |]. intros start k (Hk & Hend & -> & _ & Hf). wp_step.
  eapply wp_pure.
  { apply (bmemcopy_Ok _ 0); [rewrite Eb, length_app; cbn; lia | lia]. }
  assert (Earea : splice 0 (take (Z.to_nat (Z.of_nat (length line) + 1)) (drop 0 boot)) (junk (Z.of_nat (length line) + 1))
    = line ++ [0]).
  { replace (Z.to_nat (Z.of_nat (length line) + 1)) with (length (line ++ [0])) by (rewrite length_app; cbn; lia).
    rewrite drop_0, Eb. replace (line ++ 0 :: rest) with ((line ++ [0]) ++ rest) by (by rewrite <- app_assoc).
    rewrite take_app_length. unfold splice. rewrite take_0, drop_ge, app_nil_r; [done |].
    rewrite length_app. cbn. lia. }
  rewrite Earea. wp_steps. set (vs := map _ _).
  assert (Hlv : length vs = 32%nat) by (unfold vs; by rewrite length_map).
  eapply wp_pure.
  { apply (parse_line args _ [] vs 0 0); [done | done | done | fold line; lia | lia | lia | fold line; lia]. }
  wp_steps. unfold id. cbn [fst snd bootargs_values value_area app ba_kmalloc set_kmalloc]. split; [| split; [done | split; [done | lia]]].
  assert (Hlen : ∀ l o, length (arg_entries o l) = length l) by (clear; induction l; intros; cbn; by f_equal).
  split; [done |]. exists (drop (length args) vs). split; [unfold splice; cbn [Z.to_nat take app]; by rewrite Hlen |].
  destruct (drop (length args) vs) as [|e tl] eqn:Et; [done |]. assert (He : e ∈ vs).
  { rewrite <- (take_drop (length args) vs), Et. set_solver. }
  unfold vs in He. apply list_elem_of_In, in_map_iff in He as (e' & <- & _). done.
Qed.

Lemma bootargs_get_wp s args key b :
  Forall arg_ok args → cstr key = Some b → args_read args s →
  wp (bootargs_get key) (λ r s', s' = s ∧
    match r with
    | None => arg_value args b = None
    | Some p => is_Some (arg_value args b) ∧ ptr_string (value_area s) p = arg_value args b
    end) s.
Proof.
  intros Hok Hkey (Ea & tail & Ev & Htail). unfold bootargs_get. wp_steps. unfold id.
  destruct (get_loop_args args [] key b tail Hok Hkey Htail) as (r & Er & Hr). cbn [app] in Er, Hr.
  eapply wp_pure; [rewrite Ea, Ev; exact Er |]. split; [done |]. rewrite Ea. destruct r; [split; apply Hr | done].
Qed.

(** C17: boot arguments round trip.  For a line of at most 32 arguments "key" or
    "key=value", separated by single spaces, [bootargs_init] cuts the line
    within the memory it takes, and [bootargs_get] then finds for any key the
    value of the first argument with this key: the empty string when it has
    none, the null pointer when there is no such argument. *)
Theorem bootargs_roundtrip s boot args junk key b :
  Forall arg_ok args → args ≠ [] → (length args ≤ 32)%nat → cstr boot = Some (line_text args) → cstr key = Some b →
  length (bootargs_values s) = 32%nat → kmalloc_wf (ba_kmalloc s) →
  free_area_start (ba_kmalloc s) + Z.of_nat (length (line_text args)) + 1 ≤ memory_end (ba_kmalloc s) →
  (∀ n, 0 ≤ n → Z.of_nat (length (junk n)) = n) →
  wp (bootargs_init boot junk;; bootargs_get key) (λ r s',
    match r with
    | None => arg_value args b = None
    | Some p => is_Some (arg_value args b) ∧ ptr_string (value_area s') p = arg_value args b
    end) s.
Proof.
  intros Hok Hne Hn Hboot Hkey Hvs Hkm Hroom Hjunk. wp_step. eapply wp_mono; [by apply (bootargs_init_wp s boot args junk) |].
  intros [] s' [Hread _]. eapply wp_mono; [by apply (bootargs_get_wp s' args key b) |]. by intros r s'' [-> Hr].
Qed.

Lemma bootargs_roundtrip_witness :
  wp (bootargs_init [105; 61; 120; 32; 100; 32; 105; 61; 0; 7] (λ n, replicate (Z.to_nat n) 3);; bootargs_get [105; 0])
    (λ r s', ∃ p, r = Some p ∧ ptr_string (value_area s') p = Some [120])
    (mk_bootargs (replicate 32 (mk_bootarg (Some 5) VEmpty)) [] (mk_kmalloc 0x80000000 0x80001000)).
Proof.
  pose (args := [([105], Some [120]); ([100], None); ([105], Some [])] : list arg).
  eapply wp_mono; [apply (bootargs_roundtrip _ _ args _ _ [105]) |].
  - repeat constructor; cbn; try lia; done.
  - done.
  - cbn. lia.
  - done.
  - done.
  - done.
  - vm_compute. repeat split; discriminate.
  - vm_compute. discriminate.
  - intros n Hn. rewrite length_replicate. lia.
  - cbn. intros [p|] s' Hr; [| done]. exists p. split; [done |]. apply Hr.
Defined.
