(* ===== verification/Tty.v ===== *)
(** * The terminal driver (src/buenos/drivers/tty.c)

    The driver has two ring buffers.  A writer fills the buffer when it is
    empty and waits otherwise; the interrupt handler moves characters between
    the buffers and the data port and wakes waiting threads.  The device is the
    class [TtyPort]: its registers are read and written one access at a time.
    [tty_write] and [tty_read] are cut where a thread goes to sleep: one call of
    [tty_write_turn] or [tty_read_turn] is what a thread does from the time it
    gets the lock until it sleeps or is done.  A [char] is its byte; the data
    port is 32 bits wide. *)

From S2P Require Import Prelude Sched Libc.
Local Open Scope Z_scope.

Definition TTY_STATUS_RAVAIL (status : Z) : Z := Z.land status 0x00000001.
Definition TTY_STATUS_WBUSY (status : Z) : Z := Z.shiftr (Z.land status 0x00000002) 1.
Definition TTY_STATUS_RIRQ (status : Z) : Z := Z.shiftr (Z.land status 0x00000004) 2.
Definition TTY_STATUS_WIRQ (status : Z) : Z := Z.shiftr (Z.land status 0x00000008) 3.
Definition TTY_STATUS_ERROR (status : Z) : Z := Z.shiftr (Z.land status 0x80000000) 31.
Definition TTY_COMMAND_RIRQ : Z := 0x01.
Definition TTY_COMMAND_WIRQ : Z := 0x02.
Definition TTY_COMMAND_WIRQE : Z := 0x03.
Definition TTY_COMMAND_WIRQD : Z := 0x04.
Definition TTY_BUF_SIZE : Z := 2048.

(** The ports of the device. *)
Class TtyPort (H : Type) := {
  port_status : K H Z;
  port_command : Z → K H unit;
  put_data : Z → K H unit;
  get_data : K H Z;
}.

Record tty_real_device := mk_tty {
  read_buf : bytes; read_head : Z; read_count : Z;
  write_buf : bytes; write_head : Z; write_count : Z;
}.

Section tty.
Context {H : Type} `{TtyPort H}.
(** The addresses of the two buffers, on which threads sleep. *)
Context (read_addr write_addr : Z).

Record tstate := mk_tstate { t_dev : tty_real_device; t_port : H; t_sched : sched }.

Definition on_dev {A} (m : K tty_real_device A) : K tstate A := zoom t_dev (λ d s, mk_tstate d (t_port s) (t_sched s)) m.
Definition on_port {A} (m : K H A) : K tstate A := zoom t_port (λ p s, mk_tstate (t_dev s) p (t_sched s)) m.
Definition on_threads {A} (m : K sched A) : K tstate A := zoom t_sched (λ q s, mk_tstate (t_dev s) (t_port s) q) m.

(** The part of [tty_init] that sets up the buffers, whose memory holds [rb]
    and [wb]. *)
Definition tty_init (rb wb : bytes) : tty_real_device := mk_tty rb 0 0 wb 0 0.

(** [iobase->data = write_buf[write_head]], and the head moves on. *)
Definition send_first : K tstate unit :=
  d ← on_dev (gets id);
  c ← pure (aget (write_buf d) (write_head d));
  on_port (put_data (u32 (schar c)));;
  on_dev (modify (λ d, mk_tty (read_buf d) (read_head d) (read_count d) (write_buf d)
    (Z.rem (write_head d + 1) TTY_BUF_SIZE) (write_count d - 1))).

(** The loop that empties the write buffer; [fuel] bounds its turns. *)
Fixpoint send_loop (fuel : nat) : K tstate unit :=
  match fuel with
  | O => pure NoFuel
  | S fuel' =>
      st ← on_port port_status;
      d ← on_dev (gets id);
      if (TTY_STATUS_WBUSY st =? 0) && (0 <? write_count d) then
        on_port (port_command TTY_COMMAND_WIRQ);;
        send_first;;
        send_loop fuel'
      else mret tt
  end.

(** The loop that takes characters from the device. *)
Fixpoint receive_loop (fuel : nat) : K tstate unit :=
  match fuel with
  | O => pure NoFuel
  | S fuel' =>
      st ← on_port port_status;
      if TTY_STATUS_RAVAIL st =? 0 then mret tt
      else
        data ← on_port get_data;
        d ← on_dev (gets id);
        if TTY_BUF_SIZE <? read_count d then receive_loop fuel'
        else
          let index := Z.rem (read_head d + read_count d) TTY_BUF_SIZE in
          b ← pure (aset (read_buf d) index (Z.land data 0xff));
          on_dev (modify (λ d, mk_tty b (read_head d) (read_count d + 1) (write_buf d) (write_head d) (write_count d)));;
          receive_loop fuel'
  end.

Definition tty_interrupt_handle (fuel : nat) : K tstate unit :=
  st ← on_port port_status;
  (if negb (TTY_STATUS_WIRQ st =? 0) then
     on_port (port_command TTY_COMMAND_WIRQD);;
     on_port (port_command TTY_COMMAND_WIRQ);;
     send_loop fuel;;
     on_port (port_command TTY_COMMAND_WIRQE);;
     d ← on_dev (gets id);
     if write_count d =? 0 then on_threads (sleepq_wake_all write_addr) else mret tt
   else mret tt);;
  st ← on_port port_status;
  if negb (TTY_STATUS_RIRQ st =? 0) then
    on_port (port_command TTY_COMMAND_RIRQ);;
    st ← on_port port_status;
    (if negb (TTY_STATUS_ERROR st =? 0) then panic "Could not issue RIRQ to TTY." else mret tt);;
    receive_loop fuel;;
    on_threads (sleepq_wake_all read_addr)
  else mret tt.

(** The loop that fills the write buffer from character [i] of [buf] on; the
    result is the new [i]. *)
Fixpoint fill_write (fuel : nat) (buf : bytes) (i len : Z) : K tty_real_device Z :=
  match fuel with
  | O => pure NoFuel
  | S fuel' =>
      d ← gets id;
      if (write_count d <? TTY_BUF_SIZE) && (i <? len) then
        let index := Z.rem (write_head d + write_count d) TTY_BUF_SIZE in
        c ← pure (aget buf i);
        b ← pure (aset (write_buf d) index c);
        modify (λ d, mk_tty (read_buf d) (read_head d) (read_count d) b (write_head d) (write_count d + 1));;
        fill_write fuel' buf (i + 1) len
      else mret i
  end.

(** [tty_write] from character [i] on: [true] when all is written, else the
    thread sleeps. *)
Fixpoint tty_write_turn (fuel : nat) (cpu : Z) (buf : bytes) (i len : Z) : K tstate (bool * Z) :=
  match fuel with
  | O => pure NoFuel
  | S fuel' =>
      if negb (i <? len) then mret (true, i)
      else
        d ← on_dev (gets id);
        if 0 <? write_count d then
          on_threads (sleepq_add cpu 0 write_addr);;
          on_threads (thread_switch cpu);;
          mret (false, i)
        else
          i ← on_dev (fill_write (S (Z.to_nat TTY_BUF_SIZE)) buf i len);
          st ← on_port port_status;
          (if TTY_STATUS_WBUSY st =? 0 then send_first else mret tt);;
          tty_write_turn fuel' cpu buf i len
  end.

(** The loop that takes characters from the read buffer; the result is the
    number of characters and the buffer of the caller. *)
Fixpoint take_read (fuel : nat) (buf : bytes) (i len : Z) : K tty_real_device (bytes * Z) :=
  match fuel with
  | O => pure NoFuel
  | S fuel' =>
      d ← gets id;
      if (0 <? read_count d) && (i <? len) then
        c ← pure (aget (read_buf d) (read_head d));
        buf ← pure (aset buf i c);
        modify (λ d, mk_tty (read_buf d) (Z.rem (read_head d + 1) TTY_BUF_SIZE) (read_count d - 1)
          (write_buf d) (write_head d) (write_count d));;
        take_read fuel' buf (i + 1) len
      else mret (buf, i)
  end.

(** [tty_read]: [None] when the thread sleeps. *)
Definition tty_read_turn (cpu : Z) (buf : bytes) (len : Z) : K tstate (option (bytes * Z)) :=
  d ← on_dev (gets id);
  if read_count d =? 0 then
    on_threads (sleepq_add cpu 0 read_addr);;
    on_threads (thread_switch cpu);;
    mret None
  else
    r ← on_dev (take_read (S (Z.to_nat (read_count d))) buf 0 len);
    mret (Some r).

End tty.
