(* ===== verification/TtySpec.v ===== *)
(** * The terminal driver: no character is lost, doubled or reordered

    What the driver relies on is stated as the laws [TtyLaws] of the device: the
    characters shown so far, the characters that have arrived and whether the
    device is busy, and how one access to a port changes them.  [treach] are
    the states reached by any interleaving of writers, readers, interrupts,
    arriving characters and other uses of the scheduler; the invariant
    [tty_inv] holds in all of them. *)

From S2P Require Import Prelude Sched SchedSpec Libc Tty.
Local Open Scope Z_scope.

(** ** Ring buffers *)

Abbreviation slot_of h k := (Z.to_nat ((h + k) mod 2048)).

Definition ring (buf : list Z) (h n : Z) : list Z := map (λ k, nth (slot_of h k) buf 0) (seqZ 0 n).

Lemma ring_length buf h n : length (ring buf h n) = Z.to_nat n.
Proof. unfold ring. by rewrite length_map, length_seqZ. Qed.

Lemma ring_nil buf h : ring buf h 0 = [].
Proof. done. Qed.

Lemma slot_lt h k : (slot_of h k < 2048)%nat.
Proof. pose proof (Z.mod_pos_bound (h + k) 2048). lia. Qed.

Lemma slot_inj h k k' : 0 ≤ k < 2048 → 0 ≤ k' < 2048 → slot_of h k = slot_of h k' → k = k'.
Proof.
  intros ?? E. pose proof (Z.mod_pos_bound (h + k) 2048). pose proof (Z.mod_pos_bound (h + k') 2048).
  assert (E' : (h + k) mod 2048 = (h + k') mod 2048) by lia.
  pose proof (Z.div_mod (h + k) 2048). pose proof (Z.div_mod (h + k') 2048). nia.
Qed.

(** Storing behind the last character appends it. *)
Lemma ring_push buf h n c :
  length buf = 2048%nat → 0 ≤ n < 2048 → ring (<[slot_of h n := c]> buf) h (n + 1) = ring buf h n ++ [c].
Proof.
  intros Hl Hn. unfold ring. rewrite seqZ_app, map_app by lia. f_equal.
  - apply map_ext_in. intros k [? ?]%list_elem_of_In%elem_of_seqZ.
    rewrite !nth_lookup, list_lookup_insert_ne; [done |].
    intros E%slot_inj; lia.
  - cbn [map]. rewrite (seqZ_cons _ 1) by lia. cbn [map]. rewrite Z.add_0_l, nth_lookup, list_lookup_insert_eq; [done |].
    rewrite Hl. apply slot_lt.
Qed.

(** The character at the head is the first one. *)
Lemma ring_pop buf h n :
  length buf = 2048%nat → 0 ≤ h → 0 < n →
  ∃ c, buf !! slot_of h 0 = Some c ∧ ring buf h n = c :: ring buf (Z.rem (h + 1) 2048) (n - 1).
Proof.
  intros Hl Hh Hn. destruct (lookup_lt_is_Some_2 buf (slot_of h 0)) as [c Hc]; [rewrite Hl; apply slot_lt |].
  exists c. split; [done |]. unfold ring. rewrite seqZ_cons by lia. cbn [map].
  rewrite nth_lookup, Hc. f_equal.
  rewrite <- (Z.add_0_r (Z.succ 0)), <- fmap_add_seqZ, map_map.
  replace (Z.pred n) with (n - 1) by lia. apply map_ext. intros k. f_equal. f_equal.
  rewrite Z.rem_mod_nonneg by lia. rewrite Zplus_mod_idemp_l. f_equal. lia.
Qed.

(** One character more than the buffer holds takes the place of the first. *)
Lemma ring_overrun buf h c :
  length buf = 2048%nat → 0 ≤ h < 2048 →
  ring (<[Z.to_nat h := c]> buf) h (2048 + 1) = c :: tail (ring buf h 2048) ++ [c].
Proof.
  intros Hl Hh. unfold ring. rewrite (seqZ_app 0 2048), map_app by lia.
  assert (E0 : slot_of h 0 = Z.to_nat h) by (by rewrite Z.add_0_r, Z.mod_small).
  rewrite (seqZ_cons 0 2048), (seqZ_cons (0 + 2048) 1) by lia. cbn [map tail app].
  rewrite E0, nth_lookup, list_lookup_insert_eq by lia. cbn [default]. f_equal. f_equal.
  - apply map_ext_in. intros k [? ?]%list_elem_of_In%elem_of_seqZ.
    rewrite !nth_lookup, list_lookup_insert_ne; [done |]. rewrite <- E0. intros E%slot_inj; lia.
  - change (seqZ (Z.succ (0 + 2048)) (Z.pred 1)) with (@nil Z). cbn [map].
    assert (slot_of h (0 + 2048) = Z.to_nat h) as ->.
    { rewrite <- (Z.mul_1_l 2048) at 1. rewrite Z.add_0_l, Z.mod_add by lia. by rewrite Z.mod_small. }
    by rewrite nth_lookup, list_lookup_insert_eq by lia.
Qed.

Record ring_ok (buf : list Z) (h n : Z) : Prop := {
  ro_len : length buf = 2048%nat;
  ro_bytes : is_bytes buf;
  ro_head : 0 ≤ h < 2048;
  ro_count : 0 ≤ n ≤ 2048;
}.

Lemma ring_ok_push buf h n c :
  ring_ok buf h n → n < 2048 → is_byte c →
  aset buf (Z.rem (h + n) TTY_BUF_SIZE) c = Ok (<[slot_of h n := c]> buf) ∧
  ring_ok (<[slot_of h n := c]> buf) h (n + 1) ∧
  ring (<[slot_of h n := c]> buf) h (n + 1) = ring buf h n ++ [c].
Proof.
  intros [Hl Hb Hh Hn] Hlt Hc. unfold TTY_BUF_SIZE. rewrite Z.rem_mod_nonneg by lia. split; [| split].
  - apply aset_Ok. rewrite Hl. pose proof (Z.mod_pos_bound (h + n) 2048). lia.
  - split; [by rewrite length_insert | by apply Forall_insert | lia | lia].
  - apply ring_push; [done | lia].
Qed.

Lemma ring_ok_pop buf h n :
  ring_ok buf h n → 0 < n →
  ∃ c, aget buf h = Ok c ∧ is_byte c ∧ ring buf h n = c :: ring buf (Z.rem (h + 1) TTY_BUF_SIZE) (n - 1) ∧
    ring_ok buf (Z.rem (h + 1) TTY_BUF_SIZE) (n - 1).
Proof.
  intros [Hl Hb Hh Hn] Hlt. destruct (ring_pop buf h n Hl) as (c & Hc & E); [lia | done |].
  exists c. rewrite Z.add_0_r, Z.mod_small in Hc by lia. split; [| split; [| split; [done |]]].
  - apply aget_Ok. split; [lia | done].
  - eapply Forall_lookup_1; [exact Hb | exact Hc].
  - split; [done | done | | lia]. unfold TTY_BUF_SIZE. rewrite Z.rem_mod_nonneg by lia. apply Z.mod_pos_bound. lia.
Qed.

(** ** The device *)

Class TtyLaws (H : Type) `{TtyPort H} := {
  (** the characters shown, those that have arrived and were not read, and
      whether the device is busy showing a character *)
  sent : H → list Z;
  arrived : H → list Z;
  busy : H → bool;
  status_law p :
    wp port_status (λ st p', p' = p ∧
      (TTY_STATUS_WBUSY st = 0 ↔ busy p = false) ∧
      (TTY_STATUS_RAVAIL st = 0 ↔ arrived p = [])) p;
  (** a command of the driver is accepted: the error bit stays clear *)
  command_law p c :
    c ∈ [TTY_COMMAND_RIRQ; TTY_COMMAND_WIRQ; TTY_COMMAND_WIRQE; TTY_COMMAND_WIRQD] →
    wp (port_command c) (λ _ p', sent p' = sent p ∧ arrived p' = arrived p ∧ busy p' = busy p ∧
      wp port_status (λ st _, TTY_STATUS_ERROR st = 0) p') p;
  put_law p v :
    busy p = false → wp (put_data v) (λ _ p', sent p' = sent p ++ [v mod 256] ∧ arrived p' = arrived p) p;
  get_law p c r :
    arrived p = c :: r →
    wp get_data (λ v p', v mod 256 = c ∧ arrived p' = r ∧ sent p' = sent p) p;
}.

Lemma char_port c : is_byte c → u32 (schar c) mod 256 = c.
Proof.
  unfold is_byte, u32, schar. intros ?. rewrite Z.mod_mod_divide by (by exists (2 ^ 24)).
  case_test; [by apply Z.mod_small |]. rewrite <- (Z.mod_add _ 1), Z.mod_small by lia. lia.
Qed.
Lemma land_mod v : Z.land v 0xff = v mod 256.
Proof. exact (Z.land_ones v 8 ltac:(lia)). Qed.

Section tty.
Context {H : Type} `{TtyLaws H} (read_addr write_addr : Z).
Implicit Types (s : @tstate H).

Abbreviation wring s := (ring (write_buf (t_dev s)) (write_head (t_dev s)) (write_count (t_dev s))).
Abbreviation rring s := (ring (read_buf (t_dev s)) (read_head (t_dev s)) (read_count (t_dev s))).
Abbreviation wring_ok s := (ring_ok (write_buf (t_dev s)) (write_head (t_dev s)) (write_count (t_dev s))).
Abbreviation rring_ok s := (ring_ok (read_buf (t_dev s)) (read_head (t_dev s)) (read_count (t_dev s))).

(** Output: what was accepted is what was shown and what is in the buffer. *)
Definition output s : list Z := sent (t_port s) ++ wring s.
(** Input not yet given to a reader. *)
Definition unread s : list Z := rring s ++ arrived (t_port s).

(** The driver has worked on one side only. *)
Record out_step s s' : Prop := {
  os_ok : wring_ok s';
  os_out : output s' = output s;
  os_le : write_count (t_dev s') ≤ write_count (t_dev s);
  os_rbuf : read_buf (t_dev s') = read_buf (t_dev s);
  os_rhead : read_head (t_dev s') = read_head (t_dev s);
  os_rcount : read_count (t_dev s') = read_count (t_dev s);
  os_arr : arrived (t_port s') = arrived (t_port s);
  os_sched : t_sched s' = t_sched s;
}.
Record in_step s s' : Prop := {
  is_ok : rring_ok s';
  is_in : unread s' = unread s;
  is_wbuf : write_buf (t_dev s') = write_buf (t_dev s);
  is_whead : write_head (t_dev s') = write_head (t_dev s);
  is_wcount : write_count (t_dev s') = write_count (t_dev s);
  is_sent : sent (t_port s') = sent (t_port s);
  is_sched : t_sched s' = t_sched s;
}.

Lemma out_step_trans s1 s2 s3 : out_step s1 s2 → out_step s2 s3 → out_step s1 s3.
Proof. intros [] []. split; congruence || lia || done. Qed.
Lemma in_step_trans s1 s2 s3 : in_step s1 s2 → in_step s2 s3 → in_step s1 s3.
Proof. intros [] []. split; congruence || done. Qed.

(** ** The loops *)

Lemma status_wp s (Q : Z → tstate → Prop) :
  (∀ st, (TTY_STATUS_WBUSY st = 0 ↔ busy (t_port s) = false) →
    (TTY_STATUS_RAVAIL st = 0 ↔ arrived (t_port s) = []) → Q st s) →
  wp (on_port port_status) Q s.
Proof.
  intros HQ. apply wp_zoom. eapply wp_mono; [apply status_law |]. intros st p (-> & Hw & Hr).
  destruct s. by apply HQ.
Qed.

Lemma command_wp s c :
  c ∈ [TTY_COMMAND_RIRQ; TTY_COMMAND_WIRQ; TTY_COMMAND_WIRQE; TTY_COMMAND_WIRQD] →
  wp (on_port (port_command c)) (λ _ s', t_dev s' = t_dev s ∧ t_sched s' = t_sched s ∧
    sent (t_port s') = sent (t_port s) ∧ arrived (t_port s') = arrived (t_port s) ∧
    busy (t_port s') = busy (t_port s) ∧
    wp (on_port port_status) (λ st s'', s'' = s' ∧ TTY_STATUS_ERROR st = 0) s') s.
Proof.
  intros Hc. apply wp_zoom. eapply wp_mono; [by apply command_law |].
  intros [] p (E1 & E2 & E3 & Herr). cbn. split_and!; try done. apply wp_zoom.
  unfold wp in *. pose proof (status_law p) as Hst. unfold wp in Hst. cbn.
  destruct (port_status p) as [[st p']| | | |]; try done. destruct Hst as (-> & _). done.
Qed.

Lemma out_command s c :
  wring_ok s → c ∈ [TTY_COMMAND_RIRQ; TTY_COMMAND_WIRQ; TTY_COMMAND_WIRQE; TTY_COMMAND_WIRQD] →
  wp (on_port (port_command c)) (λ _ s', out_step s s' ∧ write_count (t_dev s') = write_count (t_dev s) ∧
    busy (t_port s') = busy (t_port s)) s.
Proof.
  intros Hok Hc. eapply wp_mono; [by apply command_wp |].
  intros [] s' (Ed & Es & E1 & E2 & E3 & _). split; [| by rewrite Ed, E3].
  split; unfold output; rewrite ?Ed, ?E1, ?E2; done.
Qed.

Lemma send_first_wp s :
  wring_ok s → 0 < write_count (t_dev s) → busy (t_port s) = false →
  wp send_first (λ _ s', out_step s s' ∧ write_count (t_dev s') = write_count (t_dev s) - 1) s.
Proof.
  intros Hok Hn Hb. destruct (ring_ok_pop _ _ _ Hok Hn) as (c & Hc & Hby & Er & Hok').
  unfold send_first, on_dev, on_port. wp_steps. eapply wp_pure; [exact Hc |]. wp_steps.
  eapply wp_mono; [by apply put_law |]. intros [] p (E1 & E2). wp_steps. unfold id. cbn.
  rewrite char_port in E1 by done.
  split; [split; cbn; try done; [| lia] | done].
  unfold output. cbn. rewrite E1, Er, <- app_assoc. done.
Qed.

Lemma send_loop_wp fuel s :
  wring_ok s → (Z.to_nat (write_count (t_dev s)) < fuel)%nat →
  wp (send_loop fuel) (λ _ s', out_step s s' ∧
    (busy (t_port s) = false → 0 < write_count (t_dev s) → write_count (t_dev s') < write_count (t_dev s))) s.
Proof.
  revert s. induction fuel as [|fuel IH]; intros s Hok Hf; [lia |]. cbn [send_loop].
  wp_step. apply status_wp. intros st Hw _. wp_step. apply wp_zoom. wp_step. unfold id. destruct s as [d p q]. cbn in *.
  destruct ((TTY_STATUS_WBUSY st =? 0) && (0 <? write_count d)) eqn:Ht.
  - bool_prop. wp_step. eapply wp_mono; [apply out_command; [done | set_solver] |].
    intros [] s1 (O1 & Ec1 & Eb1). wp_step. eapply wp_mono.
    { apply send_first_wp; [apply O1 | cbn in Ec1; lia | rewrite Eb1; by apply Hw]. }
    intros [] s2 [O2 Ec2]. eapply wp_mono; [apply IH; [apply O2 | cbn in *; lia] |].
    intros [] s3 [O3 _]. pose proof (out_step_trans _ _ _ (out_step_trans _ _ _ O1 O2) O3) as O.
    split; [done |]. intros _ _. pose proof (os_le _ _ O3). cbn in *. lia.
  - wp_step. split; [split; cbn; done || lia |]. intros Hb Hpos. exfalso.
    apply andb_false_iff in Ht as [Ht|Ht]; bool_prop; [by apply Ht, Hw | lia].
Qed.

Lemma receive_loop_wp fuel s :
  rring_ok s → read_count (t_dev s) + Z.of_nat (length (arrived (t_port s))) ≤ 2048 →
  (length (arrived (t_port s)) < fuel)%nat →
  wp (receive_loop fuel) (λ _ s', in_step s s' ∧ arrived (t_port s') = []) s.
Proof.
  revert s. induction fuel as [|fuel IH]; intros s Hok Hn Hf; [lia |]. cbn [receive_loop].
  wp_step. apply status_wp. intros st _ Hr. destruct (TTY_STATUS_RAVAIL st =? 0) eqn:Ht; bool_prop.
  { wp_step. split; [by split | by apply Hr]. }
  destruct (arrived (t_port s)) as [|c r] eqn:Ea; [by destruct Ht; apply Hr |].
  unfold on_port, on_dev. wp_steps. eapply wp_mono; [by apply get_law |]. intros v p (Ev & Ea' & Es'). wp_steps.
  unfold id. destruct s as [d q sc]. cbn in *.
  destruct (TTY_BUF_SIZE <? read_count d) eqn:Hbig; bool_prop; [unfold TTY_BUF_SIZE in *; lia |].
  rewrite land_mod, Ev. destruct (ring_ok_push _ _ _ c Hok) as (E1 & Hok' & Er).
  { lia. } { rewrite <- Ev. unfold is_byte. apply Z.mod_pos_bound. lia. }
  wp_step. eapply wp_pure; [exact E1 |]. wp_steps. cbn.
  eapply wp_mono; [apply IH; cbn; [done | rewrite Ea'; lia | rewrite Ea'; lia] |].
  intros [] s' [I E]. split; [| done]. eapply in_step_trans; [| exact I]. split; cbn; try done.
  unfold unread. cbn. rewrite Er, Ea, Ea', <- app_assoc. done.
Qed.

(** C40: input that overruns the read buffer: the test for room lets one
    character too many through.  When 2048 characters wait and one more
    arrives, it takes the place of the oldest one, which is lost, and is
    counted, so that readers get it twice. *)
Theorem tty_overrun fuel s c :
  rring_ok s → read_count (t_dev s) = 2048 → arrived (t_port s) = [c] → (1 < fuel)%nat →
  wp (receive_loop fuel) (λ _ s', read_count (t_dev s') = 2049 ∧ arrived (t_port s') = [] ∧
    rring s' = c :: tail (rring s) ++ [c]) s.
Proof.
  intros Hok Hn Ea Hf. destruct fuel as [|[|fuel]]; [lia.. |]. cbn [receive_loop].
  wp_step. apply status_wp. intros st _ Hr. destruct (TTY_STATUS_RAVAIL st =? 0) eqn:Ht; bool_prop.
  { exfalso. apply Hr in Ht. congruence. }
  wp_step. apply wp_zoom. eapply wp_mono; [by apply get_law |]. intros v p (Ev & Ea' & Es').
  wp_step. apply wp_zoom. wp_steps. unfold id. cbn [t_dev t_port t_sched]. rewrite Hn.
  change (TTY_BUF_SIZE <? 2048) with false. cbv match.
  rewrite land_mod, Ev. destruct Hok as [Hl Hb Hh _].
  assert (Ei : Z.rem (read_head (t_dev s) + 2048) TTY_BUF_SIZE = read_head (t_dev s)).
  { unfold TTY_BUF_SIZE. rewrite Z.rem_mod_nonneg by lia. rewrite <- (Z.mul_1_l 2048) at 1.
    rewrite Z.mod_add by lia. apply Z.mod_small. lia. }
  wp_step. eapply wp_pure; [rewrite Ei; apply aset_Ok; lia |]. wp_step. apply wp_zoom. wp_step.
  wp_step. apply status_wp. intros st' _ Hr'. cbn [t_dev t_port t_sched] in *.
  rewrite (proj2 (Z.eqb_eq _ _)) by (by apply Hr'). wp_step. cbn [t_dev t_port read_count read_buf read_head].
  split; [lia |]. split; [done |]. rewrite Hn. by apply ring_overrun.
Qed.

Lemma fill_write_wp fuel buf i len d :
  ring_ok (write_buf d) (write_head d) (write_count d) → is_bytes buf → 0 ≤ i ≤ len → len ≤ Z.of_nat (length buf) →
  2048 - write_count d < Z.of_nat fuel →
  wp (fill_write fuel buf i len) (λ i' d', ∃ b',
    d' = mk_tty (read_buf d) (read_head d) (read_count d) b' (write_head d) (write_count d + (i' - i)) ∧
    ring_ok b' (write_head d) (write_count d + (i' - i)) ∧
    i' = i + Z.min (2048 - write_count d) (len - i) ∧
    ring b' (write_head d) (write_count d + (i' - i)) =
      ring (write_buf d) (write_head d) (write_count d) ++ take (Z.to_nat (i' - i)) (drop (Z.to_nat i) buf)) d.
Proof.
  revert i d. induction fuel as [|fuel IH]; intros i d Hok Hb Hi Hlen Hf.
  { pose proof (ro_count _ _ _ Hok). lia. }
  pose proof (ro_count _ _ _ Hok). cbn [fill_write]. wp_steps. unfold id, TTY_BUF_SIZE at 1.
  destruct ((write_count d <? 2048) && (i <? len)) eqn:Ht.
  - bool_prop. destruct (aget_total buf i) as (c & Hc & Hl); [lia |].
    destruct (ring_ok_push _ _ _ c Hok) as (E1 & Hok' & Er); [lia | by eapply Forall_lookup_1 |].
    wp_step. eapply wp_pure; [exact Hc |]. wp_step. eapply wp_pure; [exact E1 |]. wp_steps.
    eapply wp_mono; [apply IH; cbn; done || lia |]. cbn. intros i' d' (b' & -> & Hok2 & Ei & Er2). exists b'.
    replace (write_count d + 1 + (i' - (i + 1))) with (write_count d + (i' - i)) in * by lia.
    split; [done | split; [done | split; [lia |]]]. rewrite Er2, Er, <- app_assoc. f_equal.
    rewrite (drop_S _ _ _ Hl). replace (Z.to_nat (i' - i)) with (S (Z.to_nat (i' - (i + 1)))) by lia.
    cbn. do 3 f_equal. lia.
  - wp_step. exists (write_buf d). replace (write_count d + (i - i)) with (write_count d) by lia.
    split; [by destruct d | split; [done | split]].
    + apply andb_false_iff in Ht as [Ht|Ht]; bool_prop; lia.
    + rewrite Z.sub_diag. cbn. by rewrite app_nil_r.
Qed.

Lemma take_read_wp fuel buf i len d :
  ring_ok (read_buf d) (read_head d) (read_count d) → 0 ≤ i ≤ len → len ≤ Z.of_nat (length buf) →
  read_count d < Z.of_nat fuel →
  wp (take_read fuel buf i len) (λ r d', ∃ got h n,
    d' = mk_tty (read_buf d) h n (write_buf d) (write_head d) (write_count d) ∧
    r = (splice (Z.to_nat i) got buf, i + Z.of_nat (length got)) ∧
    Z.of_nat (length got) = Z.min (read_count d) (len - i) ∧
    n = read_count d - Z.of_nat (length got) ∧ ring_ok (read_buf d) h n ∧
    ring (read_buf d) (read_head d) (read_count d) = got ++ ring (read_buf d) h n) d.
Proof.
  revert i buf d. induction fuel as [|fuel IH]; intros i buf d Hok Hi Hlen Hf.
  { pose proof (ro_count _ _ _ Hok). lia. }
  pose proof (ro_count _ _ _ Hok). cbn [take_read]. wp_steps. unfold id.
  destruct ((0 <? read_count d) && (i <? len)) eqn:Ht.
  - bool_prop. destruct (ring_ok_pop _ _ _ Hok) as (c & Hc & Hby & Er & Hok'); [lia |].
    wp_step. eapply wp_pure; [exact Hc |]. wp_step. eapply wp_pure; [apply aset_Ok; lia |]. wp_steps.
    eapply wp_mono; [apply IH; cbn; try done; rewrite ?length_insert; lia |]. cbn.
    intros r d' (got & h & n & -> & -> & Hg & -> & Hok2 & Er2).
    exists (c :: got), h, (read_count d - 1 - Z.of_nat (length got)). cbn [length].
    split; [done | split; [| split; [lia | split; [lia | split; [done |]]]]].
    + f_equal; [| lia]. replace (Z.to_nat (i + 1)) with (S (Z.to_nat i)) by lia. apply splice_cons. lia.
    + rewrite Er. cbn. by rewrite Er2.
  - wp_step. exists [], (read_head d), (read_count d). rewrite splice_nil. cbn.
    split; [by destruct d | split; [by f_equal; lia | split; [| by rewrite Z.sub_0_r]]].
    apply andb_false_iff in Ht as [Ht|Ht]; bool_prop; lia.
Qed.

(** ** The invariant *)

(** [acc]: the characters writers have put in; [inp]: the characters that have
    arrived at the device; [del]: those given to readers.  No writer sleeps
    while the write buffer is empty, no reader while there are characters. *)
Record tty_inv (acc inp del : list Z) s : Prop := {
  ti_w : wring_ok s;
  ti_r : rring_ok s;
  ti_acc : acc = output s;
  ti_inp : inp = del ++ unread s;
  ti_room : Z.of_nat (length (unread s)) ≤ 2048;
  ti_sched : sched_inv (t_sched s);
  ti_writers : waiters (t_sched s) write_addr ≠ [] → 0 < write_count (t_dev s);
  ti_readers : waiters (t_sched s) read_addr ≠ [] → read_count (t_dev s) = 0;
}.

Lemma wake_all_wp s x :
  sched_inv (t_sched s) → x ≠ 0 →
  wp (on_threads (sleepq_wake_all x)) (λ _ s', t_dev s' = t_dev s ∧ t_port s' = t_port s ∧ sched_inv (t_sched s') ∧
    waiters (t_sched s') x = [] ∧ (∀ y, y ≠ 0 → y ≠ x → waiters (t_sched s') y = waiters (t_sched s) y)) s.
Proof.
  intros Hi Hx. apply wp_zoom. eapply wp_mono; [by apply sleepq_wake_all_queue |].
  intros [] q (? & ? & ? & _). done.
Qed.

Lemma sleep_wp {A} (a : A) s cpu t x :
  sched_inv (t_sched s) → active (t_sched s) cpu t → st_of (t_sched s) t = THREAD_RUNNING → x ≠ 0 →
  wp (on_threads (sleepq_add cpu 0 x);; on_threads (thread_switch cpu);; mret a) (λ b s', b = a ∧
    t_dev s' = t_dev s ∧ t_port s' = t_port s ∧ sched_inv (t_sched s') ∧
    (∀ y, y ≠ 0 → waiters (t_sched s') y =
      if y =? x then waiters (t_sched s) y ++ [t] else waiters (t_sched s) y)) s.
Proof.
  intros Hi (Hcpu & Hc & Ht & Hso) Hst Hx. wp_step. apply wp_zoom.
  eapply wp_mono; [by apply (sleepq_add_queue _ cpu 0 x t) |]. intros [] q (Hi' & Hw & _).
  wp_step. apply wp_zoom. eapply wp_mono; [by apply (schedule_queue q cpu) |]. intros [] q' (Hi2 & Hw2). wp_step.
  split; [done |]. split; [done |]. split; [done |]. split; [done |]. intros y Hy. cbn [t_sched]. by rewrite Hw2, Hw.
Qed.

Lemma unread_room s : rring_ok s → Z.of_nat (length (unread s)) =
  read_count (t_dev s) + Z.of_nat (length (arrived (t_port s))).
Proof. intros [_ _ _ ?]. unfold unread. rewrite length_app, ring_length. lia. Qed.

Lemma inv_out acc inp del s s' : tty_inv acc inp del s → out_step s s' →
  (waiters (t_sched s) write_addr ≠ [] → 0 < write_count (t_dev s')) → tty_inv acc inp del s'.
Proof.
  intros [] [] Hw. assert (unread s' = unread s) as Eu by (unfold unread; congruence).
  split; rewrite ?Eu, ?os_sched0, ?os_rbuf0, ?os_rhead0, ?os_rcount0; done || congruence.
Qed.

Lemma inv_in acc inp del s s' : tty_inv acc inp del s → in_step s s' →
  (waiters (t_sched s) read_addr ≠ [] → read_count (t_dev s') = 0) → tty_inv acc inp del s'.
Proof.
  intros [] [] Hr. assert (output s' = output s) as Eo by (unfold output; congruence).
  split; rewrite ?Eo, ?is_in0, ?is_sched0, ?is_wbuf0, ?is_whead0, ?is_wcount0; done || congruence.
Qed.

Lemma inv_sched acc inp del s s' :
  tty_inv acc inp del s → t_dev s' = t_dev s → t_port s' = t_port s → sched_inv (t_sched s') →
  (waiters (t_sched s') write_addr ≠ [] → 0 < write_count (t_dev s)) →
  (waiters (t_sched s') read_addr ≠ [] → read_count (t_dev s) = 0) → tty_inv acc inp del s'.
Proof.
  intros [] Ed Ep Hi Hw Hr. split; unfold output, unread in *; by rewrite ?Ed, ?Ep.
Qed.

Hypothesis addrs : read_addr ≠ 0 ∧ write_addr ≠ 0 ∧ read_addr ≠ write_addr.

Lemma handle_write_wp fuel acc inp del s :
  tty_inv acc inp del s → (2048 < fuel)%nat →
  wp (on_port (port_command TTY_COMMAND_WIRQD);; on_port (port_command TTY_COMMAND_WIRQ);;
     send_loop fuel;; on_port (port_command TTY_COMMAND_WIRQE);;
     d ← on_dev (gets id);
     if write_count d =? 0 then on_threads (sleepq_wake_all write_addr) else mret tt)
    (λ _ s', tty_inv acc inp del s' ∧
      (busy (t_port s) = false → 0 < write_count (t_dev s) → write_count (t_dev s') < write_count (t_dev s))) s.
Proof using addrs.
  intros I Hf. destruct addrs as (Hra & Hwa & Hne).
  wp_step. eapply wp_mono; [apply out_command; [apply I | set_solver] |]. intros [] s1 (O1 & C1 & B1).
  wp_step. eapply wp_mono; [apply out_command; [apply O1 | set_solver] |]. intros [] s2 (O2 & C2 & B2).
  wp_step. eapply wp_mono; [apply send_loop_wp; [apply O2 | pose proof (ro_count _ _ _ (os_ok _ _ O2)); lia] |].
  intros [] s3 (O3 & P3).
  wp_step. eapply wp_mono; [apply out_command; [apply O3 | set_solver] |]. intros [] s4 (O4 & C4 & _).
  pose proof (out_step_trans _ _ _ (out_step_trans _ _ _ O1 O2) (out_step_trans _ _ _ O3 O4)) as O.
  assert (HP : busy (t_port s) = false → 0 < write_count (t_dev s) → write_count (t_dev s4) < write_count (t_dev s)).
  { rewrite <- B1, <- B2, <- C1, <- C2, C4. done. }
  wp_step. apply wp_zoom. wp_step. unfold id. destruct s4 as [d4 p4 q4]. cbn.
  destruct (write_count d4 =? 0) eqn:Ht; bool_prop.
  - eapply wp_mono; [apply wake_all_wp; [rewrite (os_sched _ _ O); apply I | done] |].
    cbn [t_dev t_port t_sched]. intros [] s5 (Ed & Ep & Hi & Hw & Hoth). split; [| by rewrite Ed].
    destruct I as [Iw Ir Iacc Iinp Iroom Is Iww Irw], O as [Ok Oo Ole Orb Orh Orc Oa Os]. cbn [t_dev t_port t_sched] in *.
    split; unfold output, unread in *; rewrite ?Ed, ?Ep; cbn [t_dev t_port t_sched] in *; rewrite ?Orb, ?Orh, ?Orc, ?Oa; try done.
    + congruence.
    + rewrite Hoth, Os by done. done.
  - wp_step. split; [| done]. eapply inv_out; [exact I | exact O |].
    intros _. pose proof (ro_count _ _ _ (os_ok _ _ O)). cbn in *. lia.
Qed.

Lemma handle_read_wp fuel acc inp del s :
  tty_inv acc inp del s → (2048 < fuel)%nat →
  wp (on_port (port_command TTY_COMMAND_RIRQ);;
    st ← on_port port_status;
    (if negb (TTY_STATUS_ERROR st =? 0) then panic "Could not issue RIRQ to TTY." else mret tt);;
    receive_loop fuel;;
    on_threads (sleepq_wake_all read_addr))
    (λ _ s', tty_inv acc inp del s' ∧ write_count (t_dev s') = write_count (t_dev s)) s.
Proof using addrs.
  intros I Hf. destruct addrs as (Hra & Hwa & Hne).
  wp_step. eapply wp_mono; [apply command_wp; set_solver |]. intros [] s1 (Ed & Es & E1 & E2 & _ & Herr).
  wp_step. eapply wp_mono; [exact Herr |]. intros st s1' [-> ->]. cbn. wp_steps.
  assert (I1 : tty_inv acc inp del s1).
  { destruct I. split; unfold output, unread in *; by rewrite ?Ed, ?Es, ?E1, ?E2. }
  pose proof (unread_room _ (ti_r _ _ _ _ I1)) as Hroom. pose proof (ti_room _ _ _ _ I1).
  pose proof (ro_count _ _ _ (ti_r _ _ _ _ I1)).
  eapply wp_mono; [apply receive_loop_wp; [apply I1 | lia | lia] |]. intros [] s2 (N & Ea).
  eapply wp_mono; [apply wake_all_wp; [rewrite (is_sched _ _ N); apply I1 | done] |].
  intros [] s3 (Ed3 & Ep3 & Hi3 & Hw3 & Hoth).
  split; [| by rewrite Ed3, (is_wcount _ _ N), Ed].
  destruct I1 as [Iw Ir Iacc Iinp Iroom Is Iww Irw], N as [Nok Nin Nb Nh Nc Ns Nsc].
  split; unfold output, unread in *; rewrite ?Ed3, ?Ep3, ?Nin, ?Nb, ?Nh, ?Nc, ?Ns; try done.
  by rewrite Hoth, Nsc.
Qed.

Definition wirq s : Prop := wp port_status (λ st _, TTY_STATUS_WIRQ st ≠ 0) (t_port s).

Lemma interrupt_wp fuel acc inp del s :
  tty_inv acc inp del s → (2048 < fuel)%nat →
  wp (tty_interrupt_handle read_addr write_addr fuel) (λ _ s', tty_inv acc inp del s' ∧
    (wirq s → busy (t_port s) = false → 0 < write_count (t_dev s) →
     write_count (t_dev s') < write_count (t_dev s))) s.
Proof using addrs.
  intros I Hf. unfold tty_interrupt_handle. wp_step. apply wp_zoom.
  pose proof (status_law (t_port s)) as Hst. unfold wirq. apply wp_iff in Hst as (st & p & Est & -> & _).
  apply wp_iff. exists st, (t_port s). split; [done |].
  replace (mk_tstate (t_dev s) (t_port s) (t_sched s)) with s by (by destruct s).
  wp_step. apply wp_mono with (λ _ s', tty_inv acc inp del s' ∧ (wirq s → busy (t_port s) = false →
    0 < write_count (t_dev s) → write_count (t_dev s') < write_count (t_dev s))).
  - unfold wirq, wp at 2. rewrite Est. destruct (negb (TTY_STATUS_WIRQ st =? 0)) eqn:Ht; bool_prop.
    + eapply wp_mono; [by apply handle_write_wp |]. intros [] s' [? ?]. tauto.
    + wp_step. done.
  - intros [] s1 [I1 P1]. wp_step. apply status_wp. intros st' _ _. case_test.
    + eapply wp_mono; [by apply handle_read_wp |]. intros [] s2 [I2 E2]. split; [done |]. by rewrite E2.
    + wp_step. done.
Qed.

(** ** Writers and readers *)

Definition slice (buf : list Z) (i i' : Z) : list Z := take (Z.to_nat (i' - i)) (drop (Z.to_nat i) buf).

Lemma slice_same buf i : slice buf i i = [].
Proof. unfold slice. by rewrite Z.sub_diag. Qed.

(** One filling of the empty write buffer. *)
Lemma write_round_wp acc inp del s buf i len :
  tty_inv acc inp del s → write_count (t_dev s) = 0 → is_bytes buf → 0 ≤ i < len → len ≤ Z.of_nat (length buf) →
  wp (i ← on_dev (fill_write (S (Z.to_nat TTY_BUF_SIZE)) buf i len);
      st ← on_port port_status;
      (if TTY_STATUS_WBUSY st =? 0 then send_first else mret tt);;
      mret i)
    (λ i' s', tty_inv (acc ++ slice buf i i') inp del s' ∧ i < i' ≤ len ∧
      t_sched s' = t_sched s ∧ (i' < len → 0 < write_count (t_dev s'))) s.
Proof using addrs.
  intros I H0c Hb Hi Hlen. wp_step. apply wp_zoom. eapply wp_mono.
  { apply (fill_write_wp _ buf i len); [apply I | done | lia | done | unfold TTY_BUF_SIZE; lia]. }
  intros i' d' (b' & -> & Hok & Ei & Er). rewrite H0c in *. rewrite ring_nil, app_nil_l in Er.
  rewrite Z.sub_0_r, Z.add_0_l in *.
  set (s1 := mk_tstate _ _ _).
  assert (I1 : tty_inv (acc ++ slice buf i i') inp del s1).
  { destruct I as [Iw Ir Iacc Iinp Iroom Is Iww Irw]. split; unfold output, unread in *; cbn [s1 t_dev t_port t_sched
      read_buf read_head read_count write_buf write_head write_count]; try done.
    - rewrite Iacc, H0c, ring_nil, app_nil_r, Er. done.
    - lia. }
  wp_step. apply status_wp. intros st Hw _. wp_step.
  destruct (TTY_STATUS_WBUSY st =? 0) eqn:Ht; bool_prop.
  - eapply wp_mono; [apply send_first_wp; [apply I1 | cbn; lia | by apply Hw] |].
    intros [] s2 [O Ec]. wp_step. split; [| split; [lia | split; [apply O |]]].
    + eapply inv_out; [done | exact O |]. intros Hn. exfalso. apply Hn. cbn [s1 t_sched].
      destruct (waiters (t_sched s) write_addr) eqn:E; [done |].
      pose proof (ti_writers _ _ _ _ I) as Hq. rewrite E, H0c in Hq. specialize (Hq ltac:(done)). lia.
    + cbn in Ec. lia.
  - wp_steps. split; [done |]. split; [lia | split; [done |]]. cbn. lia.
Qed.

(** A thread that runs and may go to sleep. *)
Definition runs s (cpu t : Z) : Prop := active (t_sched s) cpu t ∧ st_of (t_sched s) t = THREAD_RUNNING.

Lemma write_sleep_wp acc inp del s cpu t (i : Z) :
  tty_inv acc inp del s → runs s cpu t → 0 < write_count (t_dev s) →
  wp (on_threads (sleepq_add cpu 0 write_addr);; on_threads (thread_switch cpu);; mret (false, i)) (λ r s',
    r = (false, i) ∧ tty_inv acc inp del s' ∧ t ∈ waiters (t_sched s') write_addr) s.
Proof using addrs.
  intros I [Ha Hst] Hc. destruct addrs as (Hra & Hwa & Hne).
  eapply wp_mono; [by apply (sleep_wp (false, i) s cpu t); [apply I | ..] |].
  intros r s' (-> & Ed & Ep & Hi & Hw). split; [done |]. split.
  - eapply inv_sched; [exact I | done .. | ]. rewrite Hw by done. rewrite (proj2 (Z.eqb_neq _ _)) by done. apply I.
  - rewrite Hw, Z.eqb_refl by done. set_solver.
Qed.

Lemma write_turn_wp fuel acc inp del s cpu t buf i len :
  tty_inv acc inp del s → runs s cpu t → is_bytes buf → 0 ≤ i ≤ len → len ≤ Z.of_nat (length buf) →
  wp (tty_write_turn write_addr (S (S fuel)) cpu buf i len) (λ r s',
    tty_inv (acc ++ slice buf i r.2) inp del s' ∧ i ≤ r.2 ≤ len ∧
    if r.1 : bool then r.2 = len else t ∈ waiters (t_sched s') write_addr) s.
Proof using addrs.
  intros I Hr Hb Hi Hlen. cbn [tty_write_turn].
  destruct (negb (i <? len)) eqn:Hend; bool_prop.
  { wp_step. cbn [fst snd]. rewrite slice_same, app_nil_r. split; [done | lia]. }
  wp_step. apply wp_zoom. wp_step. unfold id.
  replace (mk_tstate (t_dev s) (t_port s) (t_sched s)) with s by (by destruct s).
  destruct (0 <? write_count (t_dev s)) eqn:Hpos; bool_prop.
  - eapply wp_mono; [by apply (write_sleep_wp acc inp del s cpu t) |]. intros r s2 (-> & I2 & Hin). cbn [fst snd].
    rewrite slice_same, app_nil_r. split; [done | split; [lia | done]].
  - assert (H0c : write_count (t_dev s) = 0) by (pose proof (ro_count _ _ _ (ti_w _ _ _ _ I)); lia).
    pose proof (write_round_wp _ _ _ s buf i len I H0c Hb ltac:(lia) Hlen) as Hround.
    apply wp_bind_inv in Hround. wp_step. eapply wp_mono; [exact Hround |]. intros i' s1 H1'.
    apply wp_bind_inv in H1'. wp_step. eapply wp_mono; [exact H1' |]. intros st s2 H2'.
    apply wp_bind_inv in H2'. wp_step. eapply wp_mono; [exact H2' |]. intros [] s3 H3'.
    unfold wp at 1 in H3'. cbn in H3'. destruct H3' as (I3 & Hi' & Es & Hc3).
    destruct (negb (i' <? len)) eqn:Hend'; bool_prop.
    { wp_step. cbn [fst snd]. split; [done | lia]. }
    wp_step. apply wp_zoom. wp_step. unfold id.
    replace (mk_tstate (t_dev s3) (t_port s3) (t_sched s3)) with s3 by (by destruct s3).
    rewrite (proj2 (Z.ltb_lt 0 _)) by (by apply Hc3).
    eapply wp_mono; [apply (write_sleep_wp (acc ++ slice buf i i') inp del s3 cpu t); [exact I3 | unfold runs; by rewrite Es | by apply Hc3] |].
    intros r s4 (-> & I4 & Hin). cbn [fst snd].
    split; [done | split; [lia | done]].
Qed.

Lemma read_turn_wp acc inp del s cpu t buf len :
  tty_inv acc inp del s → runs s cpu t → 0 ≤ len ≤ Z.of_nat (length buf) →
  wp (tty_read_turn read_addr cpu buf len) (λ r s',
    match r with
    | Some (b, n) => ∃ got, tty_inv acc inp (del ++ got) s' ∧ b = splice 0 got buf ∧
        n = Z.of_nat (length got) ∧ n = Z.min (read_count (t_dev s)) len ∧ 0 < read_count (t_dev s)
    | None => tty_inv acc inp del s' ∧ t ∈ waiters (t_sched s') read_addr
    end) s.
Proof using addrs.
  intros I [Ha Hst] Hlen. destruct addrs as (Hra & Hwa & Hne). unfold tty_read_turn.
  wp_step. apply wp_zoom. wp_step. unfold id.
  replace (mk_tstate (t_dev s) (t_port s) (t_sched s)) with s by (by destruct s).
  pose proof (ro_count _ _ _ (ti_r _ _ _ _ I)) as Hrc.
  destruct (read_count (t_dev s) =? 0) eqn:Ht; bool_prop.
  - eapply wp_mono; [by apply (sleep_wp None s cpu t); [apply I | ..] |].
    intros r s' (-> & Ed & Ep & Hi & Hw). split.
    + eapply inv_sched; [exact I | done | done | done | | done]. rewrite Hw by done. rewrite (proj2 (Z.eqb_neq _ _)) by done. apply I.
    + rewrite Hw, Z.eqb_refl by done. set_solver.
  - wp_step. apply wp_zoom. eapply wp_mono; [apply take_read_wp; [apply I | lia | lia | lia] |].
    intros r d' (got & h & n & -> & -> & Hg & -> & Hok & Er). wp_step. rewrite Z.sub_0_r, Z.add_0_l in *.
    exists got. split; [| split; [done | split; [done | split; lia]]].
    destruct I as [Iw Ir Iacc Iinp Iroom Is Iww Irw]. split; unfold output, unread in *; cbn [t_dev t_port t_sched
      read_buf read_head read_count write_buf write_head write_count]; try done.
    + by rewrite Iinp, Er, <- !app_assoc.
    + rewrite Er, <- app_assoc, length_app in Iroom. lia.
    + intros Hn%Irw. lia.
Qed.

(** ** Any interleaving *)

Inductive treach : list Z → list Z → list Z → @tstate H → Prop :=
  | tr_init rb wb p q :
      length rb = 2048%nat → length wb = 2048%nat → is_bytes rb → is_bytes wb → sent p = [] → arrived p = [] →
      sched_inv q → waiters q write_addr = [] → waiters q read_addr = [] →
      treach [] [] [] (mk_tstate (tty_init rb wb) p q)
  (** a thread begins a write or goes on with it after it was woken *)
  | tr_write acc inp del s fuel cpu t buf i len fin i' s' :
      treach acc inp del s → runs s cpu t → is_bytes buf → 0 ≤ i ≤ len → len ≤ Z.of_nat (length buf) →
      tty_write_turn write_addr (S (S fuel)) cpu buf i len s = Ok ((fin, i'), s') →
      treach (acc ++ slice buf i i') inp del s'
  | tr_read acc inp del s cpu t buf len b n s' :
      treach acc inp del s → runs s cpu t → 0 ≤ len ≤ Z.of_nat (length buf) →
      tty_read_turn read_addr cpu buf len s = Ok (Some (b, n), s') →
      treach acc inp (del ++ take (Z.to_nat n) b) s'
  | tr_read_sleep acc inp del s cpu t buf len s' :
      treach acc inp del s → runs s cpu t → 0 ≤ len ≤ Z.of_nat (length buf) →
      tty_read_turn read_addr cpu buf len s = Ok (None, s') → treach acc inp del s'
  | tr_interrupt acc inp del s fuel s' :
      treach acc inp del s → (2048 < fuel)%nat →
      tty_interrupt_handle read_addr write_addr fuel s = Ok (tt, s') → treach acc inp del s'
  (** characters arrive, or the device becomes ready; the keyboard is never
      more than a buffer ahead of the readers *)
  | tr_device acc inp del s p new :
      treach acc inp del s → sent p = sent (t_port s) → arrived p = arrived (t_port s) ++ new →
      Z.of_nat (length (unread s) + length new) ≤ 2048 →
      treach acc (inp ++ new) del (mk_tstate (t_dev s) p (t_sched s))
  (** other code of the kernel uses the scheduler *)
  | tr_kernel acc inp del s q :
      treach acc inp del s → sched_inv q →
      waiters q write_addr = waiters (t_sched s) write_addr → waiters q read_addr = waiters (t_sched s) read_addr →
      treach acc inp del (mk_tstate (t_dev s) (t_port s) q).

Lemma init_inv rb wb p q :
  length rb = 2048%nat → length wb = 2048%nat → is_bytes rb → is_bytes wb → sent p = [] → arrived p = [] →
  sched_inv q → waiters q write_addr = [] → waiters q read_addr = [] →
  tty_inv [] [] [] (mk_tstate (tty_init rb wb) p q).
Proof.
  intros ???? Es Ea Hq Ew Er. split; unfold output, unread; cbn [t_dev t_port t_sched tty_init
    read_buf read_head read_count write_buf write_head write_count]; rewrite ?ring_nil, ?Es, ?Ea, ?Ew, ?Er; try done.
Qed.

Lemma treach_inv acc inp del s : treach acc inp del s → tty_inv acc inp del s.
Proof using addrs.
  induction 1 as [rb wb p q | acc inp del s fuel cpu t buf i len fin i' s' _ I Hr Hb Hi Hlen E
    | acc inp del s cpu t buf len b n s' _ I Hr Hlen E | acc inp del s cpu t buf len s' _ I Hr Hlen E
    | acc inp del s fuel s' _ I Hf E | acc inp del s p new _ I Es Ea Hroom | acc inp del s q _ I Hq Ew Er].
  - by apply init_inv.
  - pose proof (write_turn_wp fuel _ _ _ s cpu t buf i len I Hr Hb Hi Hlen) as Hw.
    unfold wp in Hw. rewrite E in Hw. apply Hw.
  - pose proof (read_turn_wp _ _ _ s cpu t buf len I Hr Hlen) as Hw. unfold wp in Hw. rewrite E in Hw.
    destruct Hw as (got & I' & -> & -> & Hmin & _). rewrite Nat2Z.id.
    change (splice 0 got buf) with (got ++ drop (length got) buf). by rewrite take_app_length.
  - pose proof (read_turn_wp _ _ _ s cpu t buf len I Hr Hlen) as Hw. unfold wp in Hw. rewrite E in Hw. apply Hw.
  - pose proof (interrupt_wp fuel _ _ _ s I Hf) as Hw. unfold wp in Hw. rewrite E in Hw. apply Hw.
  - destruct I as [Iw Ir Iacc Iinp Iroom Is Iww Irw]. split; unfold output, unread in *; cbn [t_dev t_port t_sched];
      rewrite ?Es, ?Ea; try done.
    + by rewrite Iinp, <- !app_assoc.
    + rewrite app_assoc, length_app. done.
  - eapply inv_sched; [exact I | done | done | done | |]; cbn [t_sched]; rewrite ?Ew, ?Er; apply I.
Qed.

(** C25: the terminal neither loses, doubles nor reorders characters, as long as
    the keyboard is never ahead of the readers by more than the 2048 characters
    of the read buffer; what happens with one more is [tty_overrun].  In every
    state the driver can reach so, what has been shown, followed by what is in
    the write buffer, is what the writers put in, in order; what readers got,
    followed by what is in the read buffer and in the device, is what arrived;
    no writer sleeps beside an empty buffer and no reader beside a filled one;
    the interrupt handler returns, and when the device raised the write
    interrupt and is ready it takes at least one character from the buffer. *)
Theorem tty_fifo acc inp del s :
  treach acc inp del s →
  sent (t_port s) ++ wring s = acc ∧
  del ++ rring s ++ arrived (t_port s) = inp ∧
  (waiters (t_sched s) write_addr ≠ [] → 0 < write_count (t_dev s)) ∧
  (waiters (t_sched s) read_addr ≠ [] → read_count (t_dev s) = 0) ∧
  ∀ fuel, (2048 < fuel)%nat →
    wp (tty_interrupt_handle read_addr write_addr fuel) (λ _ s', treach acc inp del s' ∧
      (wirq s → busy (t_port s) = false → 0 < write_count (t_dev s) →
       write_count (t_dev s') < write_count (t_dev s))) s.
Proof using addrs.
  intros R. pose proof (treach_inv _ _ _ _ R) as I. split; [symmetry; apply I |].
  split; [symmetry; apply I |]. split; [apply I |]. split; [apply I |]. intros fuel Hf.
  pose proof (interrupt_wp fuel _ _ _ s I Hf) as Hw. apply wp_iff in Hw as ([] & s' & E & _ & Hp).
  apply wp_iff. exists tt, s'. split; [done |]. split; [by eapply tr_interrupt | done].
Qed.


End tty.

(** ** A device *)

(** A terminal that shows a character at a time and raises an interrupt when it
    is done with it. *)
Record screen := mk_screen { shown : list Z; keys : list Z; showing : bool; done_irq : bool }.

Definition screen_status (p : screen) : Z :=
  (if bool_decide (keys p = []) then 0 else 5) + (if showing p then 2 else 0) + (if done_irq p then 8 else 0).

#[export] Instance screen_port : TtyPort screen := {|
  port_status := gets screen_status;
  port_command c := modify (λ p, if c =? TTY_COMMAND_WIRQ then mk_screen (shown p) (keys p) (showing p) false else p);
  put_data v := modify (λ p, if showing p then p else mk_screen (shown p ++ [v mod 256]) (keys p) true (done_irq p));
  get_data := c ← gets (λ p, default 0 (head (keys p)));
    modify (λ p, mk_screen (shown p) (tail (keys p)) (showing p) (done_irq p));; mret (c mod 256);
|}.

(** Keys are bytes. *)
Definition screen_arrived (p : screen) : list Z := map (λ c, c mod 256) (keys p).

#[export] Program Instance screen_laws : TtyLaws screen := {|
  sent := shown; arrived := screen_arrived; busy := showing;
|}.
Next Obligation.
  intros [sh ks b d]. apply wp_gets. unfold screen_status, screen_arrived. cbn.
  destruct ks, b, d; cbn; split_and!; done.
Qed.
Next Obligation.
  intros [sh ks b d] c _. apply wp_modify. cbn. destruct (c =? TTY_COMMAND_WIRQ); cbn;
    (split; [done |]; split; [done |]; split; [done |]); unfold wp, screen_status; cbn; destruct ks, b, d; done.
Qed.
Next Obligation. intros [sh ks b d] v E. cbn in E. subst. by apply wp_modify. Qed.
Next Obligation.
  intros [sh ks b d] c r E. unfold screen_arrived in *. cbn in E. destruct ks as [|k ks]; [done |].
  injection E as <- <-. apply wp_bind, wp_gets, wp_bind, wp_modify, wp_ret. cbn. by rewrite Z.mod_mod.
Qed.

Definition example_tty : @tstate screen :=
  mk_tstate (tty_init (replicate 2048 0) (replicate 2048 0)) (mk_screen [] [] false false) example_state.

(** Thread 1 writes three characters, of which one is on its way. *)
Definition example_written : @tstate screen :=
  match tty_write_turn 0x80055000 2 0 [104; 105; 200] 0 3 example_tty with Ok (_, s) => s | _ => example_tty end.

Lemma example_written_reach : treach 0x80054000 0x80055000 [104; 105; 200] [] [] example_written.
Proof.
  apply (tr_write _ _ [] [] [] example_tty 0 0 1 [104; 105; 200] 0 3 true 3).
  - apply tr_init; [by vm_compute | by vm_compute | by apply Forall_replicate | by apply Forall_replicate | reflexivity
      | reflexivity | apply example_state_inv | by vm_compute | by vm_compute].
  - split; [vm_compute; repeat split; discriminate | by vm_compute].
  - repeat constructor; done.
  - lia.
  - done.
  - vm_compute. reflexivity.
Qed.

Lemma tty_fifo_witness :
  treach 0x80054000 0x80055000 [104; 105; 200] [] [] example_written ∧ sent (t_port example_written) = [104] ∧
  sent (t_port example_written) ++ ring (write_buf (t_dev example_written)) (write_head (t_dev example_written))
    (write_count (t_dev example_written)) = [104; 105; 200].
Proof.
  split; [apply example_written_reach |]. split; [by vm_compute |].
  assert (Ha : 0x80054000 ≠ 0 ∧ 0x80055000 ≠ 0 ∧ 0x80054000 ≠ 0x80055000) by lia.
  exact (proj1 (tty_fifo 0x80054000 0x80055000 Ha [104; 105; 200] [] [] example_written example_written_reach)).
Defined.

(** The read buffer is full and a key is pressed. *)
Definition example_full : @tstate screen :=
  mk_tstate (mk_tty (replicate 2048 7) 5 2048 (replicate 2048 0) 0 0) (mk_screen [] [9] false false) example_state.

Lemma tty_overrun_witness :
  wp (receive_loop 2) (λ _ s', read_count (t_dev s') = 2049 ∧ arrived (t_port s') = [] ∧
    ring (read_buf (t_dev s')) (read_head (t_dev s')) (read_count (t_dev s')) =
      9 :: tail (ring (read_buf (t_dev example_full)) (read_head (t_dev example_full)) (read_count (t_dev example_full))) ++ [9])
    example_full.
Proof.
  apply (tty_overrun 2 example_full 9); [| done | done | lia].
  split; [done | by apply Forall_replicate | cbn; lia | cbn; lia].
Defined.
