(* ===== verification/FsCodes.v ===== *)
(** * Return codes of the filesystem functions (src/buenos/fs/vfs.h) *)

From S2P Require Import Prelude.
Local Open Scope Z_scope.

Definition VFS_OK : Z := 0.
Definition VFS_NOT_SUPPORTED : Z := -1.
Definition VFS_ERROR : Z := -2.
Definition VFS_INVALID_PARAMS : Z := -3.
Definition VFS_NOT_OPEN : Z := -4.
Definition VFS_NOT_FOUND : Z := -5.
Definition VFS_NO_SUCH_FS : Z := -6.
Definition VFS_LIMIT : Z := -7.
Definition VFS_IN_USE : Z := -8.
Definition VFS_UNUSABLE : Z := -9.
Definition VFS_NOT_OPEN_IN_PROCESS : Z := -10.

(** Longest name of a file or a mountpoint, with its terminator. *)
Definition VFS_NAME_LENGTH : Z := 16.
