(* ===== verification/Tfs.v ===== *)
(** * The trivial filesystem (src/buenos/fs/tfs.c)

    The filesystem is a client of a block device (drivers/gbd.h): the class
    [BlockDevice] states what it needs.  A block is a list of 512 bytes; the
    processor is big-endian, so the integers in inodes, in the directory and
    in the allocation bitmap are read most significant byte first.  The state
    is the [tfs_t] structure, with its lock and its three block buffers, and
    the device.  The lock is the value of its semaphore: taking it when it is
    0 blocks. *)

From S2P Require Import Prelude Bitmap Libc FsCodes.
Local Open Scope Z_scope.

Definition TFS_BLOCK_SIZE : Z := 512.
Definition TFS_MAGIC : Z := 3745.
Definition TFS_ALLOCATION_BLOCK : Z := 1.
Definition TFS_DIRECTORY_BLOCK : Z := 2.
Definition TFS_VOLUMENAME_MAX : Z := 16.
Definition TFS_FILENAME_MAX : Z := 16.
Definition TFS_BLOCKS_MAX : Z := 127.
Definition TFS_MAX_FILES : Z := 25.
Definition SIZEOF_DIRENTRY : Z := 20.

(** ** What the filesystem needs of a disk *)

Class BlockDevice (D : Type) := {
  bd_block_size : D → Z;
  bd_total_blocks : D → Z;
  (** [read_block]: the data, or [None] when it reports an error *)
  bd_read : Z → K D (option bytes);
  (** [write_block]: whether it succeeded *)
  bd_write : Z → bytes → K D bool;
  bd_inv : D → Prop;
  (** what a block holds *)
  bd_block : D → Z → bytes;
  (** no operation reports an error from now on *)
  bd_reliable : D → Prop;
  bd_block_ok d b :
    bd_inv d → 0 ≤ b < bd_total_blocks d →
    Z.of_nat (length (bd_block d b)) = bd_block_size d ∧ is_bytes (bd_block d b);
  bd_read_spec d b :
    bd_inv d → 0 ≤ b < bd_total_blocks d →
    wp (bd_read b) (λ r d', bd_inv d' ∧ bd_total_blocks d' = bd_total_blocks d ∧
      bd_block_size d' = bd_block_size d ∧ (∀ c, bd_block d' c = bd_block d c) ∧
      (r = None ∨ r = Some (bd_block d b)) ∧
      (bd_reliable d → bd_reliable d' ∧ r ≠ None)) d;
  bd_write_spec d b data :
    bd_inv d → 0 ≤ b < bd_total_blocks d →
    Z.of_nat (length data) = bd_block_size d → is_bytes data →
    wp (bd_write b data) (λ ok d', bd_inv d' ∧ bd_total_blocks d' = bd_total_blocks d ∧
      bd_block_size d' = bd_block_size d ∧
      (∀ c, bd_block d' c = if ok && (c =? b) then data else bd_block d c) ∧
      (bd_reliable d → bd_reliable d' ∧ ok = true)) d;
}.

(** ** Integers in blocks *)

(** A [uint32_t] at byte [i] of a buffer. *)
Definition get32 (l : bytes) (i : Z) : res Z :=
  b0 ← aget l i; b1 ← aget l (i + 1); b2 ← aget l (i + 2); b3 ← aget l (i + 3);
  Ok (be32 b0 b1 b2 b3).
Definition put32 (l : bytes) (i v : Z) : res bytes :=
  match bytes32 v with
  | [b0; b1; b2; b3] =>
      l ← aset l i b0; l ← aset l (i + 1) b1; l ← aset l (i + 2) b2; aset l (i + 3) b3
  | _ => Undef
  end.

(** A block read as an array of words, and back. *)
Fixpoint to_words (l : bytes) : list Z :=
  match l with
  | b0 :: b1 :: b2 :: b3 :: l' => be32 b0 b1 b2 b3 :: to_words l'
  | _ => []
  end.
Definition of_words (ws : list Z) : bytes := flat_map bytes32 ws.

(** ** State *)

(** [tfs_t] *)
Record tfs := mk_tfs {
  totalblocks : Z;
  lock : Z;
  buffer_inode : bytes;
  buffer_bat : bytes;
  buffer_md : bytes;
}.

Definition set_lock (v : Z) (t : tfs) : tfs :=
  mk_tfs (totalblocks t) v (buffer_inode t) (buffer_bat t) (buffer_md t).
Definition set_inode (b : bytes) (t : tfs) : tfs :=
  mk_tfs (totalblocks t) (lock t) b (buffer_bat t) (buffer_md t).
Definition set_bat (b : bytes) (t : tfs) : tfs :=
  mk_tfs (totalblocks t) (lock t) (buffer_inode t) b (buffer_md t).
Definition set_md (b : bytes) (t : tfs) : tfs :=
  mk_tfs (totalblocks t) (lock t) (buffer_inode t) (buffer_bat t) b.

Section tfs.
Context {D : Type} `{BlockDevice D}.

Definition tstate : Type := (tfs * D)%type.

Definition modt (f : tfs → tfs) : K tstate unit := modify (λ s, (f (fst s), snd s)).

(** [semaphore_P(tfs->lock)] and [semaphore_V(tfs->lock)] *)
Definition P : K tstate unit := λ s,
  if 0 <? lock (fst s) then Ok (tt, (set_lock (lock (fst s) - 1) (fst s), snd s)) else Block.
Definition V : K tstate unit := modt (λ t, set_lock (lock t + 1) t).

(** Release the lock and return. *)
Definition unlock (r : Z) : K tstate Z := V;; mret r.

(** [disk->read_block] into a buffer; [disk->write_block]. *)
Definition read_into (set : bytes → tfs → tfs) (b : Z) : K tstate bool :=
  r ← zoom snd (λ d s, (fst s, d)) (bd_read b);
  match r with
  | None => mret false
  | Some data => modt (set data);; mret true
  end.
Definition write_from (get : tfs → bytes) (b : Z) : K tstate bool :=
  t ← gets fst; zoom snd (λ d s, (fst s, d)) (bd_write b (get t)).

(** A bitmap operation on [buffer_bat]. *)
Definition on_bat {A} (m : K bitmap_t A) : K tstate A :=
  zoom (λ s, to_words (buffer_bat (fst s))) (λ ws s, (set_bat (of_words ws) (fst s), snd s)) m.

(** [buffer_md[i].inode] and the string [buffer_md[i].name]. *)
Definition md_inode (md : bytes) (i : Z) : res Z := get32 md (SIZEOF_DIRENTRY * i).
Definition md_name (md : bytes) (i : Z) : bytes := drop (Z.to_nat (SIZEOF_DIRENTRY * i + 4)) md.
(** [buffer_inode->filesize] and [buffer_inode->block[i]]. *)
Definition ino_filesize (ino : bytes) : res Z := get32 ino 0.
Definition ino_block (ino : bytes) (i : Z) : res Z := get32 ino (4 + 4 * i).

(** ** Operations *)

(** The first entry whose name is [filename]. *)
Fixpoint find_name (n : nat) (i : Z) (md filename : bytes) : res (option Z) :=
  match n with
  | O => Ok None
  | S n' =>
      c ← stringcmp (md_name md i) filename;
      if c =? 0 then Ok (Some i) else find_name n' (i + 1) md filename
  end.

Definition tfs_open (filename : bytes) : K tstate Z :=
  P;;
  ok ← read_into set_md TFS_DIRECTORY_BLOCK;
  if negb ok then unlock VFS_ERROR
  else
    t ← gets fst;
    found ← pure (find_name (Z.to_nat TFS_MAX_FILES) 0 (buffer_md t) filename);
    match found with
    | Some i => V;; inode ← pure (md_inode (buffer_md t) i); mret (s32 inode)
    | None => unlock VFS_NOT_FOUND
    end.

Definition tfs_close (fileid : Z) : K tstate Z := mret VFS_OK.

Definition tfs_unmount (free_page : K tstate unit) : K tstate Z :=
  P;; free_page;; mret VFS_OK.

(** The directory loop of [tfs_create]: [None] when the name exists, else the
    last free entry met so far, or -1. *)
Fixpoint scan_create (n : nat) (i index : Z) (md filename : bytes) : res (option Z) :=
  match n with
  | O => Ok (Some index)
  | S n' =>
      c ← stringcmp (md_name md i) filename;
      if c =? 0 then Ok None
      else
        ino ← md_inode md i;
        scan_create n' (i + 1) (if ino =? 0 then i else index) md filename
  end.

(** [buffer_inode->block[i] = v] for a computed [v]. *)
Definition put_ino_block (i v : Z) : K tstate unit :=
  t ← gets fst;
  b ← pure (put32 (buffer_inode t) (4 + 4 * i) (u32 v));
  modt (set_inode b).

(** The rest of [tfs_create], once the blocks are allocated: the three system
    blocks are written, then the zeroed file blocks. *)
Definition create_write (index numblocks : Z) : K tstate Z :=
  ok ← write_from buffer_bat TFS_ALLOCATION_BLOCK;
  if negb ok then unlock VFS_ERROR
  else
    ok ← write_from buffer_md TFS_DIRECTORY_BLOCK;
    if negb ok then unlock VFS_ERROR
    else
      t ← gets fst;
      inode ← pure (md_inode (buffer_md t) index);
      ok ← write_from buffer_inode inode;
      if negb ok then unlock VFS_ERROR
      else
        t ← gets fst;
        zero ← pure (memoryset (buffer_bat t) 0 TFS_BLOCK_SIZE);
        modt (set_bat zero);;
        failed ← for_ (Z.to_nat numblocks) 0 (λ i,
          t ← gets fst;
          b ← pure (ino_block (buffer_inode t) i);
          ok ← write_from buffer_bat b;
          mret (if negb ok then Some tt else None));
        match failed with
        | Some _ => unlock VFS_ERROR
        | None => unlock VFS_OK
        end.

Definition tfs_create (filename : bytes) (size : Z) : K tstate Z :=
  let numblocks := u32 (Z.quot (size + TFS_BLOCK_SIZE - 1) TFS_BLOCK_SIZE) in
  P;;
  if TFS_BLOCKS_MAX <? numblocks then unlock VFS_ERROR
  else
    ok ← read_into set_md TFS_DIRECTORY_BLOCK;
    if negb ok then unlock VFS_ERROR
    else
      t ← gets fst;
      scan ← pure (scan_create (Z.to_nat TFS_MAX_FILES) 0 (-1) (buffer_md t) filename);
      match scan with
      | None => unlock VFS_ERROR
      | Some index =>
          if index =? -1 then unlock VFS_ERROR
          else
            let at_ := SIZEOF_DIRENTRY * index + 4 in
            name ← pure (stringcopy (md_name (buffer_md t) index) filename TFS_FILENAME_MAX);
            modt (set_md (take (Z.to_nat at_) (buffer_md t) ++ name));;
            ok ← read_into set_bat TFS_ALLOCATION_BLOCK;
            if negb ok then unlock VFS_ERROR
            else
              t ← gets fst;
              inode ← on_bat (bitmap_findnset (totalblocks t));
              t ← gets fst;
              md ← pure (put32 (buffer_md t) (SIZEOF_DIRENTRY * index) (u32 inode));
              modt (set_md md);;
              if inode =? -1 then unlock VFS_ERROR
              else
                t ← gets fst;
                ino ← pure (put32 (buffer_inode t) 0 (u32 size));
                modt (set_inode ino);;
                full ← for_ (Z.to_nat numblocks) 0 (λ i,
                  t ← gets fst;
                  b ← on_bat (bitmap_findnset (totalblocks t));
                  put_ino_block i b;;
                  mret (if b =? -1 then Some tt else None));
                match full with
                | Some _ => unlock VFS_ERROR
                | None =>
                    for_each (Z.to_nat (TFS_BLOCKS_MAX - numblocks)) numblocks
                      (λ i, put_ino_block i 0);;
                    create_write index numblocks
                end
      end.

(** The loop that frees the blocks of an inode: [block[i]] is read before [i]
    is compared with the number of blocks. *)
Fixpoint free_blocks (n : nat) (i : Z) : K tstate unit :=
  t ← gets fst;
  b ← pure (ino_block (buffer_inode t) i);
  if negb (b =? 0) then
    match n with
    | O => mret tt
    | S n' => on_bat (bitmap_set b 0);; free_blocks n' (i + 1)
    end
  else mret tt.

Definition tfs_remove (filename : bytes) : K tstate Z :=
  P;;
  ok ← read_into set_md TFS_DIRECTORY_BLOCK;
  if negb ok then unlock VFS_ERROR
  else
    t ← gets fst;
    found ← pure (find_name (Z.to_nat TFS_MAX_FILES) 0 (buffer_md t) filename);
    match found with
    | None => unlock VFS_NOT_FOUND
    | Some index =>
        ok ← read_into set_bat TFS_ALLOCATION_BLOCK;
        if negb ok then unlock VFS_ERROR
        else
          t ← gets fst;
          inode ← pure (md_inode (buffer_md t) index);
          ok ← read_into set_inode inode;
          if negb ok then unlock VFS_ERROR
          else
            on_bat (bitmap_set inode 0);;
            free_blocks (Z.to_nat TFS_BLOCKS_MAX) 0;;
            t ← gets fst;
            md ← pure (put32 (buffer_md t) (SIZEOF_DIRENTRY * index) 0);
            md ← pure (aset md (SIZEOF_DIRENTRY * index + 4) 0);
            modt (set_md md);;
            ok ← write_from buffer_bat TFS_ALLOCATION_BLOCK;
            if negb ok then unlock VFS_ERROR
            else
              ok ← write_from buffer_md TFS_DIRECTORY_BLOCK;
              if negb ok then unlock VFS_ERROR else unlock VFS_OK
    end.

Definition tfs_getfree : K tstate Z :=
  P;;
  ok ← read_into set_bat TFS_ALLOCATION_BLOCK;
  if negb ok then unlock VFS_ERROR
  else
    t ← gets fst;
    allocated ← pure (foldl (λ a i, a ← a; '(b, _) ← bitmap_get i (to_words (buffer_bat t)); Ok (a + b))
                        (Ok 0) (seqZ 0 (totalblocks t)));
    unlock (s32 ((totalblocks t - allocated) * TFS_BLOCK_SIZE)).

(** *** Reading and writing *)

(** The address of [buffer_bat], and a copy between positions of two buffers. *)
Context (bat_addr : Z).

Definition memcopy_at (n taddr toff : Z) (target : bytes) (saddr soff : Z) (source : bytes) : res bytes :=
  r ← memcopy (taddr + toff) (saddr + soff) n (drop (Z.to_nat toff) target) (drop (Z.to_nat soff) source);
  Ok (take (Z.to_nat toff) target ++ r).

(** The loop over the blocks after the first, [n] of them: [read] bytes are in
    [buffer] already. *)
Fixpoint read_loop (n : nat) (b1 b2 bufsize read baddr : Z) (buffer : bytes) : K tstate (Z * bytes) :=
  match n with
  | O => mret (read, buffer)
  | S n' =>
      t ← gets fst;
      b ← pure (ino_block (buffer_inode t) b1);
      ok ← read_into set_bat b;
      if negb ok then mret (VFS_ERROR, buffer)
      else
        t ← gets fst;
        if b1 =? b2 then
          buffer ← pure (memcopy_at (bufsize - read) baddr read buffer bat_addr 0 (buffer_bat t));
          read_loop n' (b1 + 1) b2 bufsize (read + (bufsize - read)) baddr buffer
        else
          buffer ← pure (memcopy_at TFS_BLOCK_SIZE baddr read buffer bat_addr 0 (buffer_bat t));
          read_loop n' (b1 + 1) b2 bufsize (read + TFS_BLOCK_SIZE) baddr buffer
  end.

(** Returns the result and the caller's buffer, which is at address [baddr]. *)
Definition tfs_read (fileid baddr : Z) (buffer : bytes) (bufsize offset : Z) : K tstate (Z * bytes) :=
  P;;
  t ← gets fst;
  if (fileid <? 2) || (s32 (totalblocks t) <? fileid) then V;; mret (VFS_ERROR, buffer)
  else
    ok ← read_into set_inode fileid;
    if negb ok then V;; mret (VFS_ERROR, buffer)
    else
      t ← gets fst;
      filesize ← pure (ino_filesize (buffer_inode t));
      if (offset <? 0) || (s32 filesize <? offset) then V;; mret (VFS_ERROR, buffer)
      else
        let bufsize := Z.min bufsize (s32 filesize - offset) in
        if bufsize =? 0 then V;; mret (0, buffer)
        else
          let b1 := Z.quot offset TFS_BLOCK_SIZE in
          let b2 := Z.quot (offset + bufsize - 1) TFS_BLOCK_SIZE in
          b ← pure (ino_block (buffer_inode t) b1);
          ok ← read_into set_bat b;
          if negb ok then V;; mret (VFS_ERROR, buffer)
          else
            t ← gets fst;
            let read := Z.min (TFS_BLOCK_SIZE - Z.rem offset TFS_BLOCK_SIZE) bufsize in
            buffer ← pure (memcopy_at read baddr 0 buffer bat_addr (Z.rem offset TFS_BLOCK_SIZE) (buffer_bat t));
            r ← read_loop (Z.to_nat (b2 - b1)) (b1 + 1) b2 bufsize read baddr buffer;
            V;; mret r.

Fixpoint write_loop (n : nat) (b1 b2 datasize written baddr : Z) (buffer : bytes) : K tstate (option Z) :=
  match n with
  | O => mret (Some written)
  | S n' =>
      t ← gets fst;
      b ← pure (ino_block (buffer_inode t) b1);
      ok ← (if (b1 =? b2) && (datasize - written <? TFS_BLOCK_SIZE) then read_into set_bat b else mret true);
      if negb ok then mret None
      else
        t ← gets fst;
        let count := if b1 =? b2 then datasize - written else TFS_BLOCK_SIZE in
        bat ← pure (memcopy_at count bat_addr 0 (buffer_bat t) baddr written buffer);
        modt (set_bat bat);;
        ok ← write_from buffer_bat b;
        if negb ok then mret None
        else write_loop n' (b1 + 1) b2 datasize
               (if b1 =? b2 then datasize else written + TFS_BLOCK_SIZE) baddr buffer
  end.

Definition tfs_write (fileid baddr : Z) (buffer : bytes) (datasize offset : Z) : K tstate Z :=
  P;;
  t ← gets fst;
  if (fileid <? 2) || (s32 (totalblocks t) <? fileid) then unlock VFS_ERROR
  else
    ok ← read_into set_inode fileid;
    if negb ok then unlock VFS_ERROR
    else
      t ← gets fst;
      filesize ← pure (ino_filesize (buffer_inode t));
      if (offset <? 0) || (s32 filesize <? offset) then unlock VFS_ERROR
      else
        let datasize := Z.min datasize (s32 filesize - offset) in
        if datasize =? 0 then unlock 0
        else
          let b1 := Z.quot offset TFS_BLOCK_SIZE in
          let b2 := Z.quot (offset + datasize - 1) TFS_BLOCK_SIZE in
          let written := Z.min (TFS_BLOCK_SIZE - Z.rem offset TFS_BLOCK_SIZE) datasize in
          b ← pure (ino_block (buffer_inode t) b1);
          ok ← (if written <? TFS_BLOCK_SIZE then read_into set_bat b else mret true);
          if negb ok then unlock VFS_ERROR
          else
            t ← gets fst;
            bat ← pure (memcopy_at written bat_addr (Z.rem offset TFS_BLOCK_SIZE) (buffer_bat t) baddr 0 buffer);
            modt (set_bat bat);;
            ok ← write_from buffer_bat b;
            if negb ok then unlock VFS_ERROR
            else
              r ← write_loop (Z.to_nat (b2 - b1)) (b1 + 1) b2 datasize written baddr buffer;
              match r with
              | None => unlock VFS_ERROR
              | Some written => unlock written
              end.

End tfs.
