(* ===== verification/TfsSpec.v ===== *)
(** * What the trivial filesystem promises: files are byte sequences

    Proofs about [Tfs], over any disk that keeps the promises of
    [BlockDevice]: reading returns a slice of the file's bytes, writing
    replaces one and touches no block of another file, and every operation
    releases the lock. *)

From S2P Require Import Prelude Bitmap Libc FsCodes Tfs.
Local Open Scope Z_scope.

Section tfs_spec.
Context {D : Type} `{BlockDevice D}.
Context (bat_addr : Z).

(** ** The device and the buffers *)

(** Nothing on the disk has changed. *)
Record dsame (d d' : D) : Prop := {
  ds_inv : bd_inv d';
  ds_total : bd_total_blocks d' = bd_total_blocks d;
  ds_size : bd_block_size d' = bd_block_size d;
  ds_block c : bd_block d' c = bd_block d c;
  ds_reliable : bd_reliable d → bd_reliable d';
}.

(** Only the blocks in [bs] may have changed. *)
Record donly (bs : list Z) (d d' : D) : Prop := {
  do_inv : bd_inv d';
  do_total : bd_total_blocks d' = bd_total_blocks d;
  do_size : bd_block_size d' = bd_block_size d;
  do_block c : c ∉ bs → bd_block d' c = bd_block d c;
  do_reliable : bd_reliable d → bd_reliable d';
}.

Lemma dsame_refl d : bd_inv d → dsame d d.
Proof. by constructor. Qed.

Lemma dsame_trans d1 d2 d3 : dsame d1 d2 → dsame d2 d3 → dsame d1 d3.
Proof. intros [] []. constructor; try congruence; auto. Qed.

Lemma donly_same bs d1 d2 d3 : dsame d1 d2 → donly bs d2 d3 → donly bs d1 d3.
Proof. intros [] []. constructor; try congruence; auto. intros c Hc. rewrite do_block0 by done. done. Qed.

Lemma donly_trans bs d1 d2 d3 : donly bs d1 d2 → donly bs d2 d3 → donly bs d1 d3.
Proof. intros [] []. constructor; try congruence; auto. intros c Hc. rewrite do_block1 by done. auto. Qed.

Lemma dsame_only bs d d' : dsame d d' → donly bs d d'.
Proof. intros []. by constructor. Qed.

(** A device of the right block size, and the number of blocks in use. *)
Definition dev_ok (t : tfs) (d : D) : Prop :=
  bd_inv d ∧ bd_block_size d = 512 ∧ 3 ≤ totalblocks t ≤ 4096 ∧ totalblocks t ≤ bd_total_blocks d.

Lemma dev_ok_same t d d' : dev_ok t d → dsame d d' → dev_ok t d'.
Proof. intros (? & Hs & ? & Ht) []. split_and!; try done; [congruence | lia..]. Qed.

Lemma block_ok t d b : dev_ok t d → 0 ≤ b < totalblocks t → length (bd_block d b) = 512%nat ∧ is_bytes (bd_block d b).
Proof.
  intros (Hi & Hs & _ & Ht) Hb. destruct (bd_block_ok d b) as [Hl ?]; [done | lia |]. split; [lia | done].
Qed.

Lemma P_wp t d (Q : unit → @tstate D → Prop) : lock t = 1 → Q tt (set_lock 0 t, d) → wp P Q (t, d).
Proof. intros Hl HQ. unfold wp, P. simpl. by rewrite Hl. Qed.

Lemma read_into_wp set b t d (Q : bool → @tstate D → Prop) :
  dev_ok t d → 0 ≤ b < totalblocks t →
  (∀ d', dsame d d' → Q true (set (bd_block d b) t, d')) →
  (∀ d', dsame d d' → ¬ bd_reliable d → Q false (t, d')) →
  wp (read_into set b) Q (t, d).
Proof.
  intros (Hi & _ & _ & Ht) Hb Hok Hno. unfold read_into. do 2 wp_step. simpl.
  eapply wp_mono; [apply bd_read_spec; [done | lia] |].
  intros r d' (Hi' & Ht' & Hs' & Hblk & Hr & Hrel). cbn [fst snd].
  assert (Hsame : dsame d d') by (constructor; try done; by intros [? _]%Hrel).
  destruct Hr as [-> | ->].
  - wp_step. apply Hno; [done |]. by intros [_ ?]%Hrel.
  - unfold modt. do 2 wp_step. wp_step. simpl. by apply Hok.
Qed.

Lemma write_from_wp get b t d (Q : bool → @tstate D → Prop) :
  dev_ok t d → 0 ≤ b < totalblocks t → length (get t) = 512%nat → is_bytes (get t) →
  (∀ d', donly [b] d d' → bd_block d' b = get t → Q true (t, d')) →
  (∀ d', dsame d d' → ¬ bd_reliable d → Q false (t, d')) →
  wp (write_from get b) Q (t, d).
Proof.
  intros (Hi & Hs & _ & Ht) Hb Hl Hby Hok Hno. unfold write_from. do 3 wp_step. simpl.
  eapply wp_mono; [apply bd_write_spec; [done | lia | lia | done] |].
  intros ok d' (Hi' & Ht' & Hs' & Hblk & Hrel). simpl. destruct ok; simpl in *.
  - apply Hok.
    + constructor; try done; [| by intros [? _]%Hrel]. intros c Hc. rewrite Hblk.
      by rewrite (proj2 (Z.eqb_neq _ _)) by set_solver.
    + by rewrite Hblk, Z.eqb_refl.
  - apply Hno; [| by intros [_ ?]%Hrel]. constructor; try done. by intros [? _]%Hrel.
Qed.

Lemma unlock_wp r t d (Q : Z → @tstate D → Prop) :
  Q r (set_lock (lock t + 1) t, d) → wp (unlock r) Q (t, d).
Proof. intros HQ. unfold unlock, V, modt. by do 2 wp_step. Qed.

(** ** Files *)

(** The inode in block [fileid] describes a file of [n] bytes in [blks]. *)
Record is_file (t : tfs) (d : D) (fileid n : Z) (blks : list Z) : Prop := {
  if_id : 3 ≤ fileid < totalblocks t;
  if_size : ino_filesize (bd_block d fileid) = Ok n;
  if_max : 0 ≤ n ≤ 512 * TFS_BLOCKS_MAX;
  if_len : 512 * (Z.of_nat (length blks) - 1) < n ≤ 512 * Z.of_nat (length blks);
  if_block i b : blks !! i = Some b → ino_block (bd_block d fileid) (Z.of_nat i) = Ok b;
  if_range b : b ∈ blks → 3 ≤ b < totalblocks t;
  if_nodup : NoDup (fileid :: blks);
}.

(** The bytes of its blocks, and of the file. *)
Definition whole (d : D) (blks : list Z) : bytes := concat (bd_block d <$> blks).
Definition contents (d : D) (n : Z) (blks : list Z) : bytes := take (Z.to_nat n) (whole d blks).

Lemma concat_length (bs : list bytes) : Forall (λ b, length b = 512%nat) bs → length (concat bs) = (512 * length bs)%nat.
Proof. induction 1 as [|b bs Hb _ IH]; simpl; [done |]. rewrite length_app, Hb, IH. lia. Qed.

Lemma concat_split (bs : list bytes) i b :
  Forall (λ b, length b = 512%nat) bs → bs !! i = Some b →
  concat bs = concat (take i bs) ++ b ++ concat (drop (S i) bs) ∧
  length (concat (take i bs)) = (512 * i)%nat.
Proof.
  intros Hall Hi. split.
  - rewrite <- (take_drop_middle bs i b Hi) at 1. rewrite concat_app. done.
  - rewrite concat_length by (by apply Forall_take). rewrite length_take. apply lookup_lt_Some in Hi. lia.
Qed.

Lemma concat_drop (bs : list bytes) i b :
  Forall (λ b, length b = 512%nat) bs → bs !! i = Some b →
  drop (512 * i) (concat bs) = b ++ drop (512 * S i) (concat bs).
Proof.
  intros Hall Hi. destruct (concat_split bs i b Hall Hi) as [He Hl].
  assert (Hb : length b = 512%nat) by (by eapply (Forall_lookup_1 _ _ _ _ Hall)).
  rewrite He at 1. rewrite drop_app_length' by done. f_equal.
  rewrite He, app_assoc. rewrite drop_app_length'; [done |]. rewrite length_app, Hl, Hb. lia.
Qed.

Lemma whole_blocks t d blks :
  dev_ok t d → (∀ b, b ∈ blks → 3 ≤ b < totalblocks t) →
  Forall (λ b, length b = 512%nat) (bd_block d <$> blks).
Proof.
  intros Hd Hr. apply Forall_fmap, Forall_forall. intros b Hb. apply (block_ok t d b Hd). specialize (Hr b Hb). lia.
Qed.

Lemma memcopy_at_Ok n taddr toff target saddr soff source :
  (toff + n ≤ length target)%nat → (soff + n ≤ length source)%nat →
  memcopy_at (Z.of_nat n) taddr (Z.of_nat toff) target saddr (Z.of_nat soff) source =
  Ok (splice toff (take n (drop soff source)) target).
Proof.
  intros Ht Hs. unfold memcopy_at. rewrite !Nat2Z.id.
  rewrite memcopy_Ok by (rewrite length_drop; lia). unfold mbind, res_bind. f_equal.
  unfold splice. simpl. by rewrite drop_drop.
Qed.

(** ** Reading *)

Lemma take_block (bs : list bytes) o i b m :
  Forall (λ b, length b = 512%nat) bs → bs !! i = Some b → (o ≤ 512 * i)%nat → (m ≤ 512)%nat →
  take (512 * i - o + m) (drop o (concat bs)) = take (512 * i - o) (drop o (concat bs)) ++ take m b.
Proof.
  intros Hall Hi Ho Hm. assert (Hb : length b = 512%nat) by (by eapply (Forall_lookup_1 _ _ _ _ Hall)).
  rewrite <- take_take_drop. f_equal. rewrite drop_drop. replace (o + (512 * i - o))%nat with (512 * i)%nat by lia.
  rewrite (concat_drop _ _ _ Hall Hi). by rewrite take_app_le by lia.
Qed.

Lemma read_loop_wp fileid n blks o m baddr buf0 :
  (1 ≤ m ≤ length buf0)%nat → Z.of_nat (o + m) ≤ n →
  ∀ k i t d,
  dev_ok t d → is_file t d fileid n blks → buffer_inode t = bd_block d fileid →
  let b2 := Z.of_nat ((o + m - 1) / 512) in
  Z.of_nat i + Z.of_nat k = b2 + 1 → (o < 512 * i)%nat →
  let read := if decide (Z.of_nat i ≤ b2) then (512 * i - o)%nat else m in
  wp (read_loop bat_addr k (Z.of_nat i) b2 (Z.of_nat m) (Z.of_nat read) baddr
        (splice 0 (take read (drop o (whole d blks))) buf0))
    (λ r '(t', d'), totalblocks t' = totalblocks t ∧ lock t' = lock t ∧
      (length (buffer_bat t) = 512%nat → length (buffer_bat t') = 512%nat) ∧ dsame d d' ∧
      ((r.1 = VFS_ERROR ∧ ¬ bd_reliable d) ∨
       r = (Z.of_nat m, splice 0 (take m (drop o (whole d blks))) buf0))) (t, d).
Proof.
  intros Hm Hom. induction k as [|k IH]; intros i t d Hd Hf Hino b2 Hk Hi read.
  - unfold read. rewrite decide_False by lia. cbn [read_loop]. wp_step.
    split_and!; [done | done | done | apply dsame_refl, Hd | by right].
  - assert (Hib : Z.of_nat i ≤ b2) by lia. unfold read. rewrite decide_True by done.
    assert (Hb2 : Z.to_nat b2 = ((o + m - 1) / 512)%nat) by (unfold b2; lia).
    pose proof (Nat.Div0.mul_div_le (o + m - 1) 512) as Hdiv.
    pose proof (Nat.mul_succ_div_gt (o + m - 1) 512 ltac:(lia)) as Hdiv'. rewrite <- Hb2 in Hdiv, Hdiv'.
    pose proof (if_len _ _ _ _ _ Hf) as Hlen.
    destruct (lookup_lt_is_Some_2 blks i) as [b Hb]; [lia |].
    pose proof (if_range _ _ _ _ _ Hf b (list_elem_of_lookup_2 _ _ _ Hb)) as Hbr.
    pose proof (whole_blocks t d blks Hd (if_range _ _ _ _ _ Hf)) as Hall.
    assert (Hbi : (bd_block d <$> blks) !! i = Some (bd_block d b)) by (by rewrite list_lookup_fmap, Hb).
    assert (Hbl : length (bd_block d b) = 512%nat) by (by eapply (Forall_lookup_1 _ _ _ _ Hall)).
    assert (Hwl : length (whole d blks) = (512 * length blks)%nat)
      by (unfold whole; by rewrite concat_length, length_fmap by done).
    assert (Hpl : length (take (512 * i - o) (drop o (whole d blks))) = (512 * i - o)%nat)
      by (rewrite length_take, length_drop; lia).
    cbn [read_loop]. do 3 wp_step. cbn [fst]. rewrite Hino.
    eapply wp_pure; [by apply (if_block _ _ _ _ _ Hf) |]. wp_step.
    apply read_into_wp; [done | lia | | intros d' Hs Hr; simpl; wp_step;
      split_and!; [done | done | done | done | by left]].
    intros d1 Hs1. cbn [negb]. do 2 wp_step. cbn [fst].
    (* one block's worth of bytes joins the buffer *)
    assert (Hcopy : ∀ c, (c ≤ 512)%nat → (512 * i - o + c ≤ m)%nat →
      memcopy_at (Z.of_nat c) baddr (Z.of_nat (512 * i - o))
        (splice 0 (take (512 * i - o) (drop o (whole d blks))) buf0) bat_addr 0 (bd_block d b) =
      Ok (splice 0 (take (512 * i - o + c) (drop o (whole d blks))) buf0)).
    { intros c Hc Hcm. change 0 with (Z.of_nat 0) at 1.
      rewrite memcopy_at_Ok by (rewrite ?splice_length, ?Hpl; lia). rewrite drop_0.
      unfold whole. rewrite (take_block _ o i _ c Hall Hbi) by lia. fold (whole d blks). f_equal.
      rewrite <- Hpl at 1. change (length (take (512 * i - o) (drop o (whole d blks))))
        with (0 + length (take (512 * i - o) (drop o (whole d blks))))%nat at 1.
      apply splice_splice. rewrite Hpl, length_take. lia. }
    set (t1 := set_bat (bd_block d b) t).
    assert (Hd1 : dev_ok t1 d1) by (eapply (dev_ok_same t1); [exact Hd | done]).
    assert (Hw1 : whole d1 blks = whole d blks).
    { unfold whole. f_equal. apply list_fmap_ext. intros ? ? _. apply (ds_block _ _ Hs1). }
    assert (Hf1 : is_file t1 d1 fileid n blks).
    { destruct Hf. constructor; try done; rewrite (ds_block _ _ Hs1); done. }
    assert (Hino1 : buffer_inode t1 = bd_block d1 fileid) by (by rewrite (ds_block _ _ Hs1)).
    pose proof (IH (S i) t1 d1 Hd1 Hf1 Hino1 ltac:(fold b2; lia) ltac:(lia)) as IHi.
    cbv zeta in IHi. rewrite Hw1 in IHi. fold b2 in IHi. replace (Z.of_nat (S i)) with (Z.of_nat i + 1) in IHi by lia.
    destruct (Z.eqb_spec (Z.of_nat i) b2) as [Heq|Hne]; wp_step.
    + replace (Z.of_nat m - Z.of_nat (512 * i - o)) with (Z.of_nat (m - (512 * i - o))) by lia.
      eapply wp_pure; [apply Hcopy; lia |]. rewrite decide_False in IHi by lia.
      replace (512 * i - o + (m - (512 * i - o)))%nat with m by lia.
      replace (Z.of_nat (512 * i - o) + Z.of_nat (m - (512 * i - o))) with (Z.of_nat m) by lia.
      eapply wp_mono; [exact IHi |]. intros r [t2 d2] (? & ? & Hb2' & Hs2 & Hr). split_and!; try done; [by intros _; apply Hb2' | |].
      * by eapply dsame_trans.
      * destruct Hr as [[? Hn]| ->]; [left; split; [done |]; intros Hrel; by apply Hn, (ds_reliable _ _ Hs1) | by right].
    + eapply wp_pure; [apply (Hcopy 512%nat); lia |]. rewrite decide_True in IHi by lia.
      replace (512 * S i - o)%nat with (512 * i - o + 512)%nat in IHi by lia.
      replace (Z.of_nat (512 * i - o) + TFS_BLOCK_SIZE) with (Z.of_nat (512 * i - o + 512)) by (unfold TFS_BLOCK_SIZE; lia).
      eapply wp_mono; [exact IHi |]. intros r [t2 d2] (? & ? & Hb2' & Hs2 & Hr). split_and!; try done; [by intros _; apply Hb2' | |].
      * by eapply dsame_trans.
      * destruct Hr as [[? Hn]| ->]; [left; split; [done |]; intros Hrel; by apply Hn, (ds_reliable _ _ Hs1) | by right].
Qed.

Lemma contents_slice d n blks o m :
  (Z.of_nat (o + m) ≤ n) → take m (drop o (contents d n blks)) = take m (drop o (whole d blks)).
Proof.
  intros Hn. unfold contents. rewrite skipn_firstn_comm, take_take. f_equal. lia.
Qed.

Lemma is_file_same t d d' fileid n blks :
  is_file t d fileid n blks → dsame d d' → is_file t d' fileid n blks.
Proof. intros [] Hs. constructor; try done; rewrite (ds_block _ _ Hs); done. Qed.

Lemma whole_same d d' blks : dsame d d' → whole d' blks = whole d blks.
Proof. intros Hs. unfold whole. f_equal. apply list_fmap_ext. intros ? ? _. apply (ds_block _ _ Hs). Qed.

Lemma tfs_read_wp t d fileid n blks baddr buf bufsize offset :
  dev_ok t d → lock t = 1 → is_file t d fileid n blks → 0 ≤ bufsize ≤ Z.of_nat (length buf) →
  wp (tfs_read bat_addr fileid baddr buf bufsize offset) (λ r '(t', d'),
    lock t' = 1 ∧ totalblocks t' = totalblocks t ∧
    (length (buffer_bat t) = 512%nat → length (buffer_bat t') = 512%nat) ∧ dsame d d' ∧
    if (offset <? 0) || (n <? offset) then r = (VFS_ERROR, buf)
    else (r.1 = VFS_ERROR ∧ ¬ bd_reliable d) ∨
         let m := Z.min bufsize (n - offset) in
         r = (m, splice 0 (take (Z.to_nat m) (drop (Z.to_nat offset) (contents d n blks))) buf)) (t, d).
Proof.
  intros Hd Hlock Hf Hbuf. pose proof (if_id _ _ _ _ _ Hf) as Hid. pose proof (if_max _ _ _ _ _ Hf) as Hmax.
  unfold TFS_BLOCKS_MAX in Hmax. pose proof Hd as (_ & _ & Htot & _).
  unfold tfs_read. wp_step. apply P_wp; [done |]. do 2 wp_step. cbn [fst].
  rewrite s32_small by (unfold is_s32; simpl; lia). cbn [totalblocks set_lock].
  rewrite (proj2 (Z.ltb_ge fileid 2)), (proj2 (Z.ltb_ge (totalblocks t) fileid)) by lia. cbn [orb].
  set (t0 := set_lock 0 t). assert (Hd0 : dev_ok t0 d) by done.
  assert (Hend : ∀ (r : Z * bytes) t1 d1 (Q : Z * bytes → @tstate D → Prop),
    Q r (set_lock (lock t1 + 1) t1, d1) → wp (V;; mret r) Q (t1, d1)).
  { intros r t1 d1 Q HQ. unfold V, modt. by do 3 wp_step. }
  wp_step. apply read_into_wp; [done | simpl; lia | |].
  2: { intros d1 Hs1 Hr. cbn [negb]. apply Hend. split_and!; [done | done | done | done |]. case_test; [done | by left]. }
  intros d1 Hs1. cbn [negb]. do 3 wp_step. cbn [fst buffer_inode set_inode].
  eapply wp_pure; [by apply (if_size _ _ _ _ _ Hf) |]. cbv beta. rewrite s32_small by (unfold is_s32; lia).
  destruct (_ || _) eqn:Hoff; [apply Hend; by split_and! |]. apply orb_false_iff in Hoff as [H1 H2]. bool_prop.
  destruct (Z.eqb_spec (Z.min bufsize (n - offset)) 0) as [Hz|Hz].
  { apply Hend. split_and!; [done | done | done | done |]. right. cbv zeta. rewrite Hz. change (Z.to_nat 0) with 0%nat. by rewrite take_0, splice_nil. }
  set (m := Z.to_nat (Z.min bufsize (n - offset))). set (o := Z.to_nat offset).
  assert (Em : Z.min bufsize (n - offset) = Z.of_nat m) by lia. assert (Eo : offset = Z.of_nat o) by lia.
  rewrite Em, Eo. unfold TFS_BLOCK_SIZE.
  rewrite !Z.quot_div_nonneg, Z.rem_mod_nonneg by lia.
  replace (Z.of_nat o / 512) with (Z.of_nat (o / 512)) by (rewrite Nat2Z.inj_div; done).
  replace ((Z.of_nat o + Z.of_nat m - 1) / 512) with (Z.of_nat ((o + m - 1) / 512))
    by (rewrite Nat2Z.inj_div; f_equal; lia).
  replace (Z.of_nat o mod 512) with (Z.of_nat (o mod 512)) by (rewrite Nat2Z.inj_mod; done).
  pose proof (Nat.div_mod_eq o 512) as Hdm. pose proof (Nat.mod_upper_bound o 512 ltac:(lia)) as Hmod.
  set (i := (o / 512)%nat) in *. set (j := (o mod 512)%nat) in *. pose proof (if_len _ _ _ _ _ Hf) as Hlen.
  destruct (lookup_lt_is_Some_2 blks i) as [b Hb]; [lia |].
  pose proof (if_range _ _ _ _ _ Hf b (list_elem_of_lookup_2 _ _ _ Hb)) as Hbr.
  wp_step. eapply wp_pure; [by apply (if_block _ _ _ _ _ Hf) |]. wp_step.
  set (t1 := set_inode (bd_block d fileid) t0). assert (Hd1 : dev_ok t1 d1) by (by eapply (dev_ok_same t1 d)).
  apply read_into_wp; [done | simpl; lia | |].
  2: { intros d2 Hs2 Hr. cbn [negb]. apply Hend. split_and!; [done | done | done | by eapply dsame_trans |]. left.
       split; [done |]. intros Hrel. by apply Hr, (ds_reliable _ _ Hs1). }
  intros d2 Hs2. cbn [negb]. do 3 wp_step. cbn [fst buffer_bat set_bat]. rewrite (ds_block _ _ Hs1).
  assert (Hall : Forall (λ b, length b = 512%nat) (bd_block d <$> blks))
    by (eapply whole_blocks; [exact Hd | apply (if_range _ _ _ _ _ Hf)]).
  assert (Hbl : length (bd_block d b) = 512%nat) by (apply (block_ok t d b Hd); lia).
  assert (Hfirst : ∀ c, (j + c ≤ 512)%nat → take c (drop j (bd_block d b)) = take c (drop o (whole d blks))).
  { intros c Hc. rewrite Hdm, <- drop_drop. unfold whole.
    rewrite (concat_drop _ i (bd_block d b) Hall) by (by rewrite list_lookup_fmap, Hb).
    rewrite drop_app_le by lia. by rewrite take_app_le by (rewrite length_drop; lia). }
  set (rd := Nat.min (512 - j) m). replace (Z.min (512 - Z.of_nat j) (Z.of_nat m)) with (Z.of_nat rd) by lia.
  change 0 with (Z.of_nat 0) at 1. eapply wp_pure; [apply memcopy_at_Ok; lia |]. cbv beta.
  rewrite Hfirst by lia. set (t2 := set_bat (bd_block d b) t1).
  assert (Hs : dsame d d2) by (by eapply dsame_trans).
  assert (Hd2 : dev_ok t2 d2) by (by eapply (dev_ok_same t2 d)).
  assert (Hf2 : is_file t2 d2 fileid n blks) by (eapply (is_file_same t2); [| exact Hs]; destruct Hf; by constructor).
  pose proof (read_loop_wp fileid n blks o m baddr buf ltac:(lia) ltac:(lia)
    ((o + m - 1) / 512 - i) (S i) t2 d2 Hd2 Hf2 (eq_sym (ds_block _ _ Hs fileid))) as Hloop.
  assert (Hib : (i ≤ (o + m - 1) / 512)%nat) by (apply Nat.Div0.div_le_mono; lia).
  specialize (Hloop ltac:(lia) ltac:(lia)). cbv zeta in Hloop.
  replace (Z.to_nat (Z.of_nat ((o + m - 1) / 512) - Z.of_nat i)) with ((o + m - 1) / 512 - i)%nat by lia.
  replace (Z.of_nat i + 1) with (Z.of_nat (S i)) by lia. rewrite (whole_same _ _ _ Hs) in Hloop.
  assert (Hrd : (if decide (Z.of_nat (S i) ≤ Z.of_nat ((o + m - 1) / 512)) then (512 * S i - o)%nat else m) = rd).
  { pose proof (Nat.Div0.mul_div_le (o + m - 1) 512) as Hdiv.
    pose proof (Nat.mul_succ_div_gt (o + m - 1) 512 ltac:(lia)) as Hdiv'. case_decide; lia. }
  rewrite Hrd in Hloop. wp_step. eapply wp_mono; [exact Hloop |].
  intros r [t3 d3] (Htot3 & Hl3 & Hbat3 & Hs3 & Hr). apply Hend. split_and!.
  - simpl. by rewrite Hl3.
  - simpl. by rewrite Htot3.
  - intros _. by apply Hbat3.
  - by eapply dsame_trans.
  - destruct Hr as [[? Hn]| ->].
    + left. split; [done |]. intros Hrel. by apply Hn, (ds_reliable _ _ Hs).
    + right. cbv zeta. by rewrite contents_slice by lia.
Qed.

(** ** Writing *)

Lemma donly_sub bs bs' d d' : donly bs d d' → bs ⊆ bs' → donly bs' d d'.
Proof. intros [] Hsub. constructor; try done. intros c Hc. apply do_block0. set_solver. Qed.

Lemma dev_ok_only bs t d d' : dev_ok t d → donly bs d d' → dev_ok t d'.
Proof. intros (? & Hs & ? & Ht) []. split_and!; try done; [congruence | lia..]. Qed.

Lemma is_file_only t d d' fileid n blks bs :
  is_file t d fileid n blks → donly bs d d' → fileid ∉ bs → is_file t d' fileid n blks.
Proof. intros [] Hs Hn. constructor; try done; rewrite (do_block _ _ _ Hs) by done; done. Qed.

Lemma splice_full {A} (l t : list A) : length l = length t → splice 0 l t = l.
Proof. intros Hl. unfold splice. simpl. by rewrite Hl, drop_all, app_nil_r. Qed.

Lemma splice_app_middle {A} (a b c : list A) j l :
  (j + length l ≤ length b)%nat → splice (length a + j) l (a ++ b ++ c) = a ++ splice j l b ++ c.
Proof.
  intros Hl. unfold splice. rewrite take_app_add, take_app_le by lia. rewrite <- !app_assoc. do 3 f_equal.
  rewrite <- Nat.add_assoc. rewrite drop_app_add, drop_app_le by lia. done.
Qed.

(** Changing one block of a file splices its bytes. *)
Lemma whole_splice d d' blks i b j l :
  Forall (λ b, length b = 512%nat) (bd_block d <$> blks) → NoDup blks → blks !! i = Some b →
  donly [b] d d' → bd_block d' b = splice j l (bd_block d b) → (j + length l ≤ 512)%nat →
  whole d' blks = splice (512 * i + j) l (whole d blks).
Proof.
  intros Hall Hnd Hi Ho Hb Hj. set (bs := bd_block d <$> blks).
  assert (Hbs : bs !! i = Some (bd_block d b)) by (unfold bs; by rewrite list_lookup_fmap, Hi).
  assert (Hl : length (bd_block d b) = 512%nat) by (by eapply (Forall_lookup_1 _ _ _ _ Hall)).
  assert (Hnew : bd_block d' <$> blks = <[i := splice j l (bd_block d b)]> bs).
  { apply list_eq. intros k. unfold bs. rewrite list_lookup_fmap. destruct (decide (k = i)) as [->|Hk].
    - rewrite list_lookup_insert_eq by (by eapply lookup_lt_Some). by rewrite Hi, <- Hb.
    - rewrite list_lookup_insert_ne, list_lookup_fmap by done. destruct (blks !! k) as [c|] eqn:Hc; [| done].
      simpl. f_equal. apply (do_block _ _ _ Ho). intros ->%list_elem_of_singleton.
      by eapply Hk, NoDup_lookup. }
  unfold whole. rewrite Hnew. fold bs. destruct (concat_split bs i _ Hall Hbs) as [He Hlen]. rewrite He, <- Hlen.
  rewrite splice_app_middle by lia. rewrite insert_take_drop by (by eapply lookup_lt_Some).
  by rewrite concat_app.
Qed.

(** A block is read before it is written, unless all of it is replaced. *)
Lemma read_unless_wp (partial : bool) (c : nat) b t d (Q : bool → @tstate D → Prop) :
  dev_ok t d → 0 ≤ b < totalblocks t → length (buffer_bat t) = 512%nat → (partial = false → c = 512%nat) →
  (∀ t' d', t' = set_bat (buffer_bat t') t → dsame d d' → length (buffer_bat t') = 512%nat →
     (c = 512%nat ∨ buffer_bat t' = bd_block d' b) → Q true (t', d')) →
  (∀ d', dsame d d' → ¬ bd_reliable d → Q false (t, d')) →
  wp (if partial then read_into set_bat b else mret true) Q (t, d).
Proof.
  intros Hd Hb Hbat Hc Hok Hno. destruct partial.
  - apply read_into_wp; [done | done | | done]. intros d' Hs. apply Hok; [done | done | by apply (block_ok t d b Hd) |].
    right. symmetry. apply (ds_block _ _ Hs).
  - wp_step. apply Hok; [by destruct t | apply dsame_refl, Hd | done | left; auto].
Qed.

(** The step both parts of [tfs_write] take: the [c] bytes of [data] from
    [p] go to byte [j] of the file's block [i], over the bytes in [buffer_bat],
    which are those of the block unless all of it is replaced. *)
Lemma write_block_wp fileid n blks t d i b j c p baddr data (Q : bool → @tstate D → Prop) :
  dev_ok t d → is_file t d fileid n blks → blks !! i = Some b →
  length (buffer_bat t) = 512%nat → (c = 512%nat ∨ buffer_bat t = bd_block d b) →
  (j + c ≤ 512)%nat → (p + c ≤ length data)%nat → is_bytes data →
  (∀ t' d', t' = set_bat (buffer_bat t') t → length (buffer_bat t') = 512%nat → donly blks d d' →
     whole d' blks = splice (512 * i + j) (take c (drop p data)) (whole d blks) → Q true (t', d')) →
  (∀ t' d', t' = set_bat (buffer_bat t') t → length (buffer_bat t') = 512%nat → donly blks d d' → ¬ bd_reliable d →
     Q false (t', d')) →
  wp (bat ← pure (memcopy_at (Z.of_nat c) bat_addr (Z.of_nat j) (buffer_bat t) baddr (Z.of_nat p) data);
      modt (set_bat bat);; write_from buffer_bat b) Q (t, d).
Proof.
  intros Hd Hf Hb Hbat Hcase Hj Hp Hby Hok Hno.
  pose proof (list_elem_of_lookup_2 _ _ _ Hb) as Hbin. pose proof (if_range _ _ _ _ _ Hf b Hbin) as Hbr.
  destruct (block_ok t d b Hd) as [Hbl Hbb]; [lia |].
  assert (Hcl : length (take c (drop p data)) = c) by (rewrite length_take, length_drop; lia).
  set (nb := splice j (take c (drop p data)) (bd_block d b)).
  assert (Hnb : splice j (take c (drop p data)) (buffer_bat t) = nb).
  { destruct Hcase as [-> | ->]; [| done]. unfold nb. assert (j = 0%nat) as -> by lia.
    by rewrite !splice_full by congruence. }
  wp_step. eapply wp_pure; [apply memcopy_at_Ok; lia |]. rewrite Hnb. unfold modt. do 2 wp_step. cbn [fst snd].
  assert (length nb = 512%nat) by (unfold nb; rewrite splice_length; lia).
  apply write_from_wp; [done | simpl; lia | done | ..].
  - cbn [buffer_bat set_bat]. unfold nb, splice, is_bytes.
    repeat (apply Forall_app; split); auto using Forall_take, Forall_drop.
  - intros d' Ho Hblk. apply Hok; [done | done | eapply donly_sub; [done | set_solver] |].
    eapply whole_splice; [by eapply whole_blocks, if_range | | done | exact Ho | exact Hblk | lia].
    by apply (NoDup_cons_1_2 fileid), (if_nodup _ _ _ _ _ Hf).
  - intros d' Hs Hr. apply Hno; [done | done | by apply dsame_only | done].
Qed.

(** The same block step in the middle of a function. *)
Lemma wp_bind3 {A B C S} (m : K S A) (f : A → K S unit) (g : K S B) (h : B → K S C) Q s :
  wp (a ← m; f a;; g) (λ b s', wp (h b) Q s') s → wp (a ← m; f a;; b ← g; h b) Q s.
Proof.
  unfold wp, mbind, K_bind. destruct (m s) as [[a s1]| | | |]; try done.
  destruct (f a s1) as [[[] s2]| | | |]; try done. by destruct (g s2) as [[b s3]| | | |].
Qed.

Lemma write_loop_wp fileid n blks o m baddr data W0 :
  (1 ≤ m ≤ length data)%nat → Z.of_nat (o + m) ≤ n → is_bytes data → length W0 = (512 * length blks)%nat →
  ∀ k i t d,
  dev_ok t d → is_file t d fileid n blks → buffer_inode t = bd_block d fileid → length (buffer_bat t) = 512%nat →
  let b2 := Z.of_nat ((o + m - 1) / 512) in
  Z.of_nat i + Z.of_nat k = b2 + 1 → (o < 512 * i)%nat →
  let written := if decide (Z.of_nat i ≤ b2) then (512 * i - o)%nat else m in
  whole d blks = splice o (take written data) W0 →
  wp (write_loop bat_addr k (Z.of_nat i) b2 (Z.of_nat m) (Z.of_nat written) baddr data)
    (λ r '(t', d'), totalblocks t' = totalblocks t ∧ lock t' = lock t ∧ length (buffer_bat t') = 512%nat ∧ donly blks d d' ∧
      ((r = None ∧ ¬ bd_reliable d) ∨
       r = Some (Z.of_nat m) ∧ whole d' blks = splice o (take m data) W0)) (t, d).
Proof.
  intros Hm Hom Hby HW. induction k as [|k IH]; intros i t d Hd Hf Hino Hbat b2 Hk Hi written Hw.
  - unfold written in *. rewrite decide_False in * by lia. cbn [write_loop]. wp_step.
    split_and!; [done | done | done | apply dsame_only, dsame_refl, Hd | by right].
  - assert (Hib : Z.of_nat i ≤ b2) by lia. unfold written in *. rewrite decide_True in * by done.
    assert (Hb2 : Z.to_nat b2 = ((o + m - 1) / 512)%nat) by (unfold b2; lia).
    pose proof (Nat.Div0.mul_div_le (o + m - 1) 512) as Hdiv.
    pose proof (Nat.mul_succ_div_gt (o + m - 1) 512 ltac:(lia)) as Hdiv'. rewrite <- Hb2 in Hdiv, Hdiv'.
    pose proof (if_len _ _ _ _ _ Hf) as Hlen.
    destruct (lookup_lt_is_Some_2 blks i) as [b Hb]; [lia |].
    pose proof (if_range _ _ _ _ _ Hf b (list_elem_of_lookup_2 _ _ _ Hb)) as Hbr.
    set (c := if Z.of_nat i =? b2 then (m - (512 * i - o))%nat else 512%nat).
    assert (Hc : (if Z.of_nat i =? b2 then Z.of_nat m - Z.of_nat (512 * i - o) else TFS_BLOCK_SIZE) = Z.of_nat c)
      by (unfold c; destruct (Z.eqb_spec (Z.of_nat i) b2); unfold TFS_BLOCK_SIZE; lia).
    assert (Hc512 : (c ≤ 512)%nat) by (unfold c; destruct (Z.eqb_spec (Z.of_nat i) b2); lia).
    assert (Hcm : (512 * i - o + c ≤ m)%nat) by (unfold c; destruct (Z.eqb_spec (Z.of_nat i) b2); lia).
    cbn [write_loop]. do 3 wp_step. cbn [fst]. rewrite Hino.
    eapply wp_pure; [by apply (if_block _ _ _ _ _ Hf) |]. wp_step.
    (* what follows once the block's bytes are in the buffer *)
    assert (Hstep : ∀ t1 d1, t1 = set_bat (buffer_bat t1) t → dsame d d1 → length (buffer_bat t1) = 512%nat →
      (c = 512%nat ∨ buffer_bat t1 = bd_block d1 b) →
      wp (bat ← pure (memcopy_at (Z.of_nat c) bat_addr 0 (buffer_bat t1) baddr (Z.of_nat (512 * i - o)) data);
          modt (set_bat bat);; ok ← write_from buffer_bat b;
          if negb ok then mret None
          else write_loop bat_addr k (Z.of_nat i + 1) b2 (Z.of_nat m)
                 (if Z.of_nat i =? b2 then Z.of_nat m else Z.of_nat (512 * i - o) + TFS_BLOCK_SIZE) baddr data)
        (λ r '(t', d'), totalblocks t' = totalblocks t ∧ lock t' = lock t ∧ length (buffer_bat t') = 512%nat ∧ donly blks d d' ∧
          ((r = None ∧ ¬ bd_reliable d) ∨
           r = Some (Z.of_nat m) ∧ whole d' blks = splice o (take m data) W0)) (t1, d1)).
    { intros t1 d1 Ht1 Hs1 Hbat1 Hcase. apply wp_bind3. change 0 with (Z.of_nat 0).
      assert (Hd1 : dev_ok t1 d1) by (rewrite Ht1; by eapply (dev_ok_same _ d)).
      assert (Hf1 : is_file t1 d1 fileid n blks)
        by (rewrite Ht1; eapply is_file_same; [| exact Hs1]; destruct Hf; by constructor).
      eapply (write_block_wp fileid n blks); try done; [lia | |].
      2: { intros t2 d2 Ht2 Hbat2 Ho2 Hr. cbn [negb]. wp_step. rewrite Ht2, Ht1. split_and!; [done | done | done | |].
           - by eapply donly_same.
           - left. split; [done |]. intros Hrel. by apply Hr, (ds_reliable _ _ Hs1). }
      intros t2 d2 Ht2 Hbat2 Ho2 Hw2. cbn [negb].
      assert (Hfid : fileid ∉ blks) by (apply (NoDup_cons_1_1 fileid), (if_nodup _ _ _ _ _ Hf)).
      assert (Ho : donly blks d d2) by (by eapply donly_same).
      assert (Hw2' : whole d2 blks = splice o (take (512 * i - o + c) data) W0).
      { rewrite Hw2, (whole_same _ _ _ Hs1), Hw.
        assert (Hl1 : length (take (512 * i - o) data) = (512 * i - o)%nat) by (rewrite length_take; lia).
        replace (512 * i + 0)%nat with (o + length (take (512 * i - o) data))%nat by lia.
        rewrite splice_splice by (rewrite Hl1, length_take, length_drop; lia). by rewrite take_take_drop. }
      assert (Hnext : (if decide (Z.of_nat (S i) ≤ b2) then (512 * S i - o)%nat else m) = (512 * i - o + c)%nat).
      { unfold c. destruct (Z.eqb_spec (Z.of_nat i) b2); case_decide; lia. }
      assert (Hnext' : (if Z.of_nat i =? b2 then Z.of_nat m else Z.of_nat (512 * i - o) + TFS_BLOCK_SIZE) =
        Z.of_nat (512 * i - o + c)) by (unfold c, TFS_BLOCK_SIZE; destruct (Z.eqb_spec (Z.of_nat i) b2); lia).
      rewrite Hnext'. pose proof (IH (S i) t2 d2) as IHi. cbv zeta in IHi. fold b2 in IHi. rewrite Hnext in IHi.
      replace (Z.of_nat (S i)) with (Z.of_nat i + 1) in IHi by lia.
      eapply wp_mono; [apply IHi |].
      - rewrite Ht2. by eapply (dev_ok_only blks _ d1).
      - rewrite Ht2. eapply is_file_only; [| exact Ho2 | done]. destruct Hf1; by constructor.
      - rewrite Ht2, Ht1. simpl. rewrite Hino. symmetry. by apply (do_block _ _ _ Ho).
      - done.
      - lia.
      - lia.
      - done.
      - intros r [t3 d3] (Htot & Hlock & Hbat3 & Ho3 & Hr). rewrite Ht2, Ht1 in Htot, Hlock. simpl in Htot, Hlock.
        split_and!; [done | done | done | by eapply donly_trans |].
        destruct Hr as [[-> Hr]| Hr]; [left; split; [done |] | by right].
        intros Hrel. by apply Hr, (do_reliable _ _ _ Ho). }
    apply (read_unless_wp _ c); [done | lia | done | | |].
    + revert Hc. unfold c, TFS_BLOCK_SIZE. destruct (Z.of_nat i =? b2); [| done]. cbn [andb]. intros ??. bool_prop. lia.
    + intros t1 d1 Ht1 Hs1 Hbat1 Hcase. cbn [negb]. do 2 wp_step. cbn [fst]. rewrite Hc. by apply Hstep.
    + intros d1 Hs1 Hr. cbn [negb]. wp_step. split_and!; [done | done | done | by apply dsame_only | by left].
Qed.

Lemma take_splice {A} n k (l t : list A) :
  (k + length l ≤ n)%nat → (k + length l ≤ length t)%nat → take n (splice k l t) = splice k l (take n t).
Proof.
  intros Hn Ht. unfold splice. rewrite take_take, Nat.min_l by lia.
  rewrite take_app_ge by (rewrite length_take; lia). rewrite length_take, Nat.min_l by lia. f_equal.
  rewrite take_app_ge by lia. f_equal. rewrite skipn_firstn_comm. f_equal. lia.
Qed.

(** What [tfs_write] leaves, when it may write [m] bytes from byte [o]. *)
Definition wrote (t : tfs) (d : D) (n : Z) (blks : list Z) (o m : nat) (data : bytes) (r : Z) (s : @tstate D) : Prop :=
  lock (fst s) = 1 ∧ totalblocks (fst s) = totalblocks t ∧ length (buffer_bat (fst s)) = 512%nat ∧ donly blks d (snd s) ∧
  ((r = VFS_ERROR ∧ ¬ bd_reliable d) ∨
   r = Z.of_nat m ∧ contents (snd s) n blks = splice o (take m data) (contents d n blks)).

Lemma wrote_same t t' d d' n blks o m data r s :
  totalblocks t' = totalblocks t → dsame d d' → wrote t' d' n blks o m data r s → wrote t d n blks o m data r s.
Proof.
  intros Ht Hs (? & ? & ? & ? & Hr). split_and!; [done | congruence | done | by eapply donly_same |].
  unfold contents in *. rewrite (whole_same _ _ _ Hs) in Hr.
  destruct Hr as [[? Hr]|?]; [left; split; [done |]; intros ?; by apply Hr, (ds_reliable _ _ Hs) | by right].
Qed.

(** The first block of the written range, then the loop. *)
Lemma write_rest_wp fileid n blks o m baddr data i j b t d :
  let c := Nat.min (512 - j) m in
  dev_ok t d → is_file t d fileid n blks → buffer_inode t = bd_block d fileid → lock t = 0 →
  length (buffer_bat t) = 512%nat → (c = 512%nat ∨ buffer_bat t = bd_block d b) →
  (1 ≤ m ≤ length data)%nat → Z.of_nat (o + m) ≤ n → is_bytes data →
  o = (512 * i + j)%nat → (j < 512)%nat → blks !! i = Some b →
  wp (bat ← pure (memcopy_at (Z.of_nat c) bat_addr (Z.of_nat j) (buffer_bat t) baddr 0 data);
      modt (set_bat bat);; ok ← write_from buffer_bat b;
      if negb ok then unlock VFS_ERROR
      else
        r ← write_loop bat_addr ((o + m - 1) / 512 - i) (Z.of_nat (S i))
              (Z.of_nat ((o + m - 1) / 512)) (Z.of_nat m) (Z.of_nat c) baddr data;
        match r with None => unlock VFS_ERROR | Some written => unlock written end)
    (wrote t d n blks o m data) (t, d).
Proof.
  intros c Hd Hf Hino Hlock Hbat Hcase Hm Hn Hby Hdm Hj Hb. apply wp_bind3. change 0 with (Z.of_nat 0).
  pose proof (whole_blocks t d blks Hd (if_range _ _ _ _ _ Hf)) as Hall. pose proof (if_len _ _ _ _ _ Hf) as Hlen.
  assert (HW : length (whole d blks) = (512 * length blks)%nat)
    by (unfold whole; by rewrite concat_length, length_fmap by done).
  assert (Hfid : fileid ∉ blks) by (apply (NoDup_cons_1_1 fileid), (if_nodup _ _ _ _ _ Hf)).
  eapply (write_block_wp fileid n blks); try done; [lia | lia | |].
  2: { intros t1 d1 Ht1 Hbat1 Ho1 Hr. cbn [negb]. apply unlock_wp. rewrite Ht1. split_and!; [simpl; lia | done | done | done | by left]. }
  intros t1 d1 Ht1 Hbat1 Ho1 Hw1. cbn [negb]. wp_step.
  assert (Hib : (i ≤ (o + m - 1) / 512)%nat)
    by (replace i with (o / 512)%nat by (rewrite Hdm, Nat.mul_comm, Nat.div_add_l, Nat.div_small by lia; lia);
        apply Nat.Div0.div_le_mono; lia).
  assert (Hnext : (if decide (Z.of_nat (S i) ≤ Z.of_nat ((o + m - 1) / 512)) then (512 * S i - o)%nat else m) = c).
  { pose proof (Nat.Div0.mul_div_le (o + m - 1) 512) as Hdiv.
    pose proof (Nat.mul_succ_div_gt (o + m - 1) 512 ltac:(lia)) as Hdiv'. case_decide; lia. }
  pose proof (write_loop_wp fileid n blks o m baddr data (whole d blks) Hm Hn Hby HW
    ((o + m - 1) / 512 - i) (S i) t1 d1) as Hloop. cbv zeta in Hloop. rewrite Hnext in Hloop.
  eapply wp_mono; [apply Hloop; clear Hloop |].
  - rewrite Ht1. by eapply (dev_ok_only blks _ d).
  - rewrite Ht1. eapply is_file_only; [| exact Ho1 | done]. destruct Hf; by constructor.
  - rewrite Ht1. simpl. rewrite Hino. symmetry. by apply (do_block _ _ _ Ho1).
  - done.
  - lia.
  - lia.
  - by rewrite Hw1, <- Hdm, drop_0.
  - intros r [t2 d2] (Htot & Hl2 & Hbat2 & Ho2 & Hr). rewrite Ht1 in Htot, Hl2. simpl in Htot, Hl2.
    assert (Ho : donly blks d d2) by (by eapply donly_trans).
    destruct Hr as [[-> Hr]|[-> Hr]]; apply unlock_wp; (split_and!; [simpl; lia | done | done | done |]).
    + left. split; [done |]. intros Hrel. by apply Hr, (do_reliable _ _ _ Ho1).
    + right. split; [done |]. simpl. unfold contents. rewrite Hr. apply take_splice; rewrite length_take; lia.
Qed.

Lemma tfs_write_wp t d fileid n blks baddr data datasize offset :
  dev_ok t d → lock t = 1 → is_file t d fileid n blks → length (buffer_bat t) = 512%nat →
  0 ≤ datasize ≤ Z.of_nat (length data) → is_bytes data →
  wp (tfs_write bat_addr fileid baddr data datasize offset) (λ r '(t', d'),
    lock t' = 1 ∧ totalblocks t' = totalblocks t ∧ length (buffer_bat t') = 512%nat ∧ donly blks d d' ∧
    if (offset <? 0) || (n <? offset) then r = VFS_ERROR ∧ dsame d d'
    else (r = VFS_ERROR ∧ ¬ bd_reliable d) ∨
         let m := Z.min datasize (n - offset) in
         r = m ∧ contents d' n blks = splice (Z.to_nat offset) (take (Z.to_nat m) data) (contents d n blks)) (t, d).
Proof.
  intros Hd Hlock Hf Hbat Hds Hby. pose proof (if_id _ _ _ _ _ Hf) as Hid. pose proof (if_max _ _ _ _ _ Hf) as Hmax.
  unfold TFS_BLOCKS_MAX in Hmax. pose proof Hd as (_ & _ & Htot & _).
  unfold tfs_write. wp_step. apply P_wp; [done |]. do 2 wp_step. cbn [fst].
  rewrite s32_small by (unfold is_s32; simpl; lia). cbn [totalblocks set_lock].
  rewrite (proj2 (Z.ltb_ge fileid 2)), (proj2 (Z.ltb_ge (totalblocks t) fileid)) by lia. cbn [orb].
  set (t0 := set_lock 0 t). assert (Hd0 : dev_ok t0 d) by done.
  wp_step. apply read_into_wp; [done | simpl; lia | |].
  2: { intros d1 Hs1 Hr. cbn [negb]. apply unlock_wp. split_and!; [done | done | done | by apply dsame_only |].
       case_test; [done | by left]. }
  intros d1 Hs1. cbn [negb]. do 3 wp_step. cbn [fst buffer_inode set_inode].
  eapply wp_pure; [by apply (if_size _ _ _ _ _ Hf) |]. cbv beta. rewrite s32_small by (unfold is_s32; lia).
  destruct (_ || _) eqn:Hoff; [apply unlock_wp; split_and!; [done | done | done | by apply dsame_only | done | done] |].
  apply orb_false_iff in Hoff as [H1 H2]. bool_prop.
  destruct (Z.eqb_spec (Z.min datasize (n - offset)) 0) as [Hz|Hz].
  { apply unlock_wp. split_and!; [done | done | done | by apply dsame_only |]. right. cbv zeta. split; [done |].
    rewrite Hz. change (Z.to_nat 0) with 0%nat. rewrite take_0, splice_nil. unfold contents. by rewrite (whole_same _ _ _ Hs1). }
  set (m := Z.to_nat (Z.min datasize (n - offset))). set (o := Z.to_nat offset).
  assert (Em : Z.min datasize (n - offset) = Z.of_nat m) by lia. assert (Eo : offset = Z.of_nat o) by lia.
  rewrite Em, Eo. unfold TFS_BLOCK_SIZE. rewrite !Z.quot_div_nonneg, Z.rem_mod_nonneg by lia.
  replace (Z.of_nat o / 512) with (Z.of_nat (o / 512)) by (rewrite Nat2Z.inj_div; done).
  replace ((Z.of_nat o + Z.of_nat m - 1) / 512) with (Z.of_nat ((o + m - 1) / 512))
    by (rewrite Nat2Z.inj_div; f_equal; lia).
  replace (Z.of_nat o mod 512) with (Z.of_nat (o mod 512)) by (rewrite Nat2Z.inj_mod; done).
  pose proof (Nat.div_mod_eq o 512) as Hdm. pose proof (Nat.mod_upper_bound o 512 ltac:(lia)) as Hmod.
  set (i := (o / 512)%nat) in *. set (j := (o mod 512)%nat) in *. pose proof (if_len _ _ _ _ _ Hf) as Hlen.
  destruct (lookup_lt_is_Some_2 blks i) as [b Hb]; [lia |].
  pose proof (if_range _ _ _ _ _ Hf b (list_elem_of_lookup_2 _ _ _ Hb)) as Hbr.
  set (c := Nat.min (512 - j) m). replace (Z.min (512 - Z.of_nat j) (Z.of_nat m)) with (Z.of_nat c) by lia.
  wp_step. eapply wp_pure; [by apply (if_block _ _ _ _ _ Hf) |]. wp_step.
  set (t1 := set_inode (bd_block d fileid) t0).
  pose proof (write_rest_wp fileid n blks o m baddr data i j b) as Hrest. cbv zeta in Hrest. fold c in Hrest.
  replace (Z.to_nat (Z.of_nat ((o + m - 1) / 512) - Z.of_nat i)) with ((o + m - 1) / 512 - i)%nat by lia.
  replace (Z.of_nat i + 1) with (Z.of_nat (S i)) by lia.
  assert (Hd1 : dev_ok t1 d1) by (by eapply (dev_ok_same t1 d)).
  apply (read_unless_wp _ c); [done | simpl; lia | done | | |].
  - intros Hfull. bool_prop. lia.
  - intros t2 d2 Ht2 Hs2 Hbat2 Hcase. cbn [negb]. do 2 wp_step. cbn [fst].
    assert (Hs : dsame d d2) by (by eapply dsame_trans).
    assert (Hw : ∀ r s, wrote t2 d2 n blks o m data r s → wrote t d n blks o m data r s)
      by (intros r s; apply wrote_same; [by rewrite Ht2 | done]).
    eapply wp_mono; [apply Hrest; try done | intros r [t3 d3] Hr; exact (Hw r (t3, d3) Hr)].
    + rewrite Ht2. by eapply (dev_ok_same _ d).
    + rewrite Ht2. eapply (is_file_same _ d); [destruct Hf; by constructor | done].
    + rewrite Ht2. symmetry; apply (ds_block _ _ Hs).
    + by rewrite Ht2.
    + lia.
    + lia.
  - intros d2 Hs2 Hr. cbn [negb]. apply unlock_wp. split_and!; [done | done | done | |].
    + apply dsame_only. by eapply dsame_trans.
    + left. split; [done |]. intros Hrel. by apply Hr, (ds_reliable _ _ Hs1).
Qed.

Lemma splice_slice {A} k (l t : list A) :
  (k + length l ≤ length t)%nat → take (length l) (drop k (splice k l t)) = l.
Proof.
  intros Hl. unfold splice. rewrite drop_app_length' by (rewrite length_take; lia). by rewrite take_app_length.
Qed.

Lemma contents_length t d fileid n blks :
  dev_ok t d → is_file t d fileid n blks → length (contents d n blks) = Z.to_nat n.
Proof.
  intros Hd Hf. pose proof (if_len _ _ _ _ _ Hf). unfold contents, whole.
  rewrite length_take, concat_length, length_fmap by (eapply whole_blocks; [exact Hd | apply (if_range _ _ _ _ _ Hf)]). lia.
Qed.

Lemma contents_only bs d d' n blks :
  donly bs d d' → (∀ b, b ∈ blks → b ∉ bs) → contents d' n blks = contents d n blks.
Proof.
  intros Ho Hdis. unfold contents, whole. f_equal. f_equal. apply list_fmap_ext. intros i b Hb.
  apply (do_block _ _ _ Ho), Hdis. by eapply list_elem_of_lookup_2.
Qed.

(** C30: [tfs_read] of a file returns, releases the filesystem's lock and
    changes nothing on the disk.  An offset before the start or after the end
    of the file is an error; otherwise, unless the disk reports an error, it
    returns the number [m] of bytes that the buffer has room for and the file
    has after [offset], and the buffer holds the file's bytes from [offset] in
    its first [m] places and what it held before in the others. *)
Theorem tfs_read_slice t d fileid n blks baddr buf bufsize offset :
  dev_ok t d → lock t = 1 → is_file t d fileid n blks → 0 ≤ bufsize ≤ Z.of_nat (length buf) →
  ∃ r buf' t' d', tfs_read bat_addr fileid baddr buf bufsize offset (t, d) = Ok ((r, buf'), (t', d')) ∧
    lock t' = 1 ∧ dsame d d' ∧
    let m := Z.min bufsize (n - offset) in
    if decide (0 ≤ offset ≤ n)
    then (r = VFS_ERROR ∧ ¬ bd_reliable d) ∨
         r = m ∧ buf' = take (Z.to_nat m) (drop (Z.to_nat offset) (contents d n blks)) ++ drop (Z.to_nat m) buf
    else r = VFS_ERROR ∧ buf' = buf.
Proof.
  intros Hd Hlock Hf Hbuf.
  pose proof (tfs_read_wp t d fileid n blks baddr buf bufsize offset Hd Hlock Hf Hbuf) as Hwp.
  apply wp_iff in Hwp as ([r buf'] & [t' d'] & He & Hl & Ht & _ & Hs & Hr).
  exists r, buf', t', d'. split_and!; [done | done | done |]. cbv zeta. case_decide as Ho.
  - rewrite (proj2 (Z.ltb_ge offset 0)), (proj2 (Z.ltb_ge n offset)) in Hr by lia. cbn [orb] in Hr.
    destruct Hr as [?|Hr]; [by left | right]. cbv zeta in Hr. injection Hr as -> ->. split; [done |].
    unfold splice. rewrite take_0, app_nil_l. f_equal. f_equal. rewrite Nat.add_0_l, length_take, length_drop.
    rewrite (contents_length t d fileid) by done. lia.
  - assert (Hbad : (offset <? 0) || (n <? offset) = true).
    { destruct (Z.ltb_spec offset 0); [done |]. apply Z.ltb_lt. lia. }
    rewrite Hbad in Hr. by injection Hr as -> ->.
Qed.

(** C2: [tfs_write] to a file returns and releases the lock.  Whatever the disk
    reports, every other file whose blocks are not this file's keeps its
    inode and its bytes.  With an offset outside the file nothing is written;
    otherwise, unless the disk reports an error, the bytes of the file from
    [offset] on are replaced by those of the data that fit before its end, and
    their number is returned. *)
Theorem tfs_write_splice t d fileid n blks baddr data datasize offset :
  dev_ok t d → lock t = 1 → is_file t d fileid n blks → length (buffer_bat t) = 512%nat →
  0 ≤ datasize ≤ Z.of_nat (length data) → is_bytes data →
  ∃ r t' d', tfs_write bat_addr fileid baddr data datasize offset (t, d) = Ok (r, (t', d')) ∧
    lock t' = 1 ∧ is_file t' d' fileid n blks ∧
    (∀ fid n' blks', is_file t d fid n' blks' → (∀ b, b ∈ fid :: blks' → b ∉ blks) →
       is_file t' d' fid n' blks' ∧ contents d' n' blks' = contents d n' blks') ∧
    let m := Z.min datasize (n - offset) in
    if decide (0 ≤ offset ≤ n)
    then (r = VFS_ERROR ∧ ¬ bd_reliable d) ∨
         r = m ∧ contents d' n blks = splice (Z.to_nat offset) (take (Z.to_nat m) data) (contents d n blks)
    else r = VFS_ERROR ∧ contents d' n blks = contents d n blks.
Proof.
  intros Hd Hlock Hf Hbat Hds Hby.
  pose proof (tfs_write_wp t d fileid n blks baddr data datasize offset Hd Hlock Hf Hbat Hds Hby) as Hwp.
  apply wp_iff in Hwp as (r & [t' d'] & He & Hl & Ht & _ & Ho & Hr).
  assert (Hkeep : ∀ fid n' blks', is_file t d fid n' blks' → fid ∉ blks → is_file t' d' fid n' blks').
  { intros fid n' blks' Hf' Hn. eapply is_file_only; [| exact Ho | done]. destruct Hf'. by constructor; rewrite ?Ht. }
  exists r, t', d'. split_and!; [done | done | | |].
  - apply Hkeep; [done |]. apply (NoDup_cons_1_1 fileid), (if_nodup _ _ _ _ _ Hf).
  - intros fid n' blks' Hf' Hdis. split; [apply Hkeep; [done | apply Hdis; set_solver] |].
    eapply contents_only; [exact Ho |]. intros b Hb. apply Hdis. set_solver.
  - cbv zeta. case_decide as Hin.
    + by rewrite (proj2 (Z.ltb_ge offset 0)), (proj2 (Z.ltb_ge n offset)) in Hr by lia.
    + assert (Hbad : (offset <? 0) || (n <? offset) = true).
      { destruct (Z.ltb_spec offset 0); [done |]. apply Z.ltb_lt. lia. }
      rewrite Hbad in Hr. destruct Hr as [-> Hs]. split; [done |]. unfold contents. by rewrite (whole_same _ _ _ Hs).
Qed.

(** On a disk that reports no error, reading what was just written gives it
    back: after [tfs_write] of [datasize] bytes at an offset inside the file,
    [tfs_read] of as many bytes at that offset returns the same count and
    the same bytes. *)
Theorem tfs_write_read t d fileid n blks baddr data datasize offset baddr' buf :
  dev_ok t d → lock t = 1 → is_file t d fileid n blks → length (buffer_bat t) = 512%nat → bd_reliable d →
  0 ≤ datasize ≤ Z.of_nat (length data) → is_bytes data → 0 ≤ offset ≤ n → datasize = Z.of_nat (length buf) →
  ∃ m t1 d1 t2 d2, m = Z.min datasize (n - offset) ∧
    tfs_write bat_addr fileid baddr data datasize offset (t, d) = Ok (m, (t1, d1)) ∧
    tfs_read bat_addr fileid baddr' buf datasize offset (t1, d1) =
      Ok ((m, take (Z.to_nat m) data ++ drop (Z.to_nat m) buf), (t2, d2)).
Proof.
  intros Hd Hlock Hf Hbat Hrel Hds Hby Hoff Hbuf.
  pose proof (tfs_write_wp t d fileid n blks baddr data datasize offset Hd Hlock Hf Hbat Hds Hby) as Hwp.
  apply wp_iff in Hwp as (r & [t1 d1] & He & Hl1 & Ht1 & _ & Ho1 & Hr).
  rewrite (proj2 (Z.ltb_ge offset 0)), (proj2 (Z.ltb_ge n offset)) in Hr by lia. cbn [orb] in Hr.
  destruct Hr as [[_ ?]|[-> Hc]]; [done |]. set (m := Z.min datasize (n - offset)) in *.
  assert (Hd1 : dev_ok t1 d1).
  { eapply (dev_ok_only blks t1 d); [| done]. destruct Hd as (?&?&?&?). split_and!; rewrite ?Ht1; done || lia. }
  assert (Hf1 : is_file t1 d1 fileid n blks).
  { eapply is_file_only; [| exact Ho1 | apply (NoDup_cons_1_1 fileid), (if_nodup _ _ _ _ _ Hf)].
    destruct Hf. by constructor; rewrite ?Ht1. }
  pose proof (tfs_read_wp t1 d1 fileid n blks baddr' buf datasize offset Hd1 Hl1 Hf1 ltac:(lia)) as Hwp.
  apply wp_iff in Hwp as (r & [t2 d2] & He2 & _ & _ & _ & _ & Hr2).
  rewrite (proj2 (Z.ltb_ge offset 0)), (proj2 (Z.ltb_ge n offset)) in Hr2 by lia. cbn [orb] in Hr2.
  destruct Hr2 as [[_ Hno]|Hr2]; [by destruct Hno; apply (do_reliable _ _ _ Ho1) |]. cbv zeta in Hr2. fold m in Hr2.
  exists m, t1, d1, t2, d2. split_and!; [done | done |]. rewrite He2, Hr2. do 2 f_equal. f_equal.
  assert (Hlm : length (take (Z.to_nat m) data) = Z.to_nat m) by (rewrite length_take; lia).
  pose proof (contents_length t d fileid n blks Hd Hf) as Hlen.
  rewrite Hc. rewrite <- Hlm at 1. rewrite splice_slice by lia. unfold splice. simpl. by rewrite Hlm.
Qed.

End tfs_spec.

(** ** A disk in memory *)

Record ramdisk := { rd_blocks : list bytes }.

Definition ram_block (d : ramdisk) (b : Z) : bytes :=
  if b <? 0 then [] else default [] (rd_blocks d !! Z.to_nat b).
Definition ram_read (b : Z) : K ramdisk (option bytes) := λ d,
  Ok (if (0 <=? b) && (b <? Z.of_nat (length (rd_blocks d))) then Some (ram_block d b) else None, d).
Definition ram_write (b : Z) (data : bytes) : K ramdisk bool := λ d,
  if (0 <=? b) && (b <? Z.of_nat (length (rd_blocks d)))
  then Ok (true, {| rd_blocks := <[Z.to_nat b := data]> (rd_blocks d) |}) else Ok (false, d).
Definition ram_ok (d : ramdisk) : Prop :=
  Forall (λ b, length b = 512%nat ∧ is_bytes b) (rd_blocks d).

#[global] Program Instance ram_disk : BlockDevice ramdisk := {|
  bd_block_size _ := 512;
  bd_total_blocks d := Z.of_nat (length (rd_blocks d));
  bd_read := ram_read;
  bd_write := ram_write;
  bd_inv := ram_ok;
  bd_block := ram_block;
  bd_reliable _ := True;
|}.
Next Obligation.
  intros d b Hd Hb. unfold ram_block. rewrite (proj2 (Z.ltb_ge b 0)) by lia.
  destruct (lookup_lt_is_Some_2 (rd_blocks d) (Z.to_nat b)) as [x Hx]; [lia |]. rewrite Hx. simpl.
  destruct (Forall_lookup_1 _ _ _ _ Hd Hx) as [Hl ?]. split; [lia | done].
Qed.
Next Obligation.
  intros d b Hd Hb. unfold wp, ram_read. rewrite (proj2 (Z.leb_le 0 b)), (proj2 (Z.ltb_lt b _)) by lia.
  split_and!; try done. by right.
Qed.
Next Obligation.
  intros d b data Hd Hb Hl Hby. unfold wp, ram_write.
  rewrite (proj2 (Z.leb_le 0 b)), (proj2 (Z.ltb_lt b _)) by lia. cbn [andb].
  split_and!; try done; [apply Forall_insert; [done | split; [lia | done]] | simpl; by rewrite length_insert |].
  intros c. unfold ram_block. cbn [rd_blocks]. destruct (Z.eqb_spec c b) as [->|Hne].
  - rewrite (proj2 (Z.ltb_ge b 0)) by lia. by rewrite list_lookup_insert_eq by lia.
  - destruct (Z.ltb_spec c 0); [done |]. by rewrite list_lookup_insert_ne by lia.
Qed.

(** ** An example: a volume of eight blocks with one file of 600 bytes *)

Definition pad (l : bytes) : bytes := l ++ replicate (512 - length l) 0.
Definition example_disk : ramdisk := {| rd_blocks :=
  [ pad []; pad [0; 0; 0; 0x3f]; pad [0; 0; 0; 3; 97];
    pad [0; 0; 2; 88; 0; 0; 0; 4; 0; 0; 0; 5];
    replicate 512 1; replicate 512 2; pad []; pad [] ] |}.
Definition example_tfs : tfs := mk_tfs 8 1 (pad []) (pad []) (pad []).

Lemma example_dev : dev_ok example_tfs example_disk.
Proof.
  split_and!; try (simpl; lia). apply Forall_forall. intros b Hb.
  assert (Hc : bool_decide (length b = 512%nat ∧ is_bytes b) = true); [| by apply bool_decide_eq_true in Hc].
  revert b Hb. apply Forall_forall. repeat (apply Forall_cons; split); [vm_compute; reflexivity .. | constructor].
Qed.

Lemma example_file : is_file example_tfs example_disk 3 600 [4; 5].
Proof.
  constructor; [simpl; lia | reflexivity | unfold TFS_BLOCKS_MAX; lia | simpl; lia | | |].
  - intros [|[|i]] b; simpl; intros [= <-]; reflexivity.
  - intros b Hb. simpl. set_solver by lia.
  - repeat (apply NoDup_cons; split); [set_solver .. | constructor].
Qed.

Lemma tfs_read_slice_witness :
  ∃ r buf' t' d',
    tfs_read 0x8000 3 0x9000 (replicate 20 9) 20 500 (example_tfs, example_disk) = Ok ((r, buf'), (t', d')) ∧
    ((r = VFS_ERROR ∧ ¬ bd_reliable example_disk) ∨
     r = 20 ∧ buf' = take 20 (drop 500 (contents example_disk 600 [4; 5])) ++ drop 20 (replicate 20 9)).
Proof.
  destruct (tfs_read_slice 0x8000 example_tfs example_disk 3 600 [4; 5] 0x9000 (replicate 20 9) 20 500)
    as (r & buf' & t' & d' & He & _ & _ & Hr);
    [exact example_dev | reflexivity | exact example_file | rewrite length_replicate; lia |].
  exists r, buf', t', d'. split; [exact He |]. cbv zeta in Hr. rewrite decide_True in Hr by lia. exact Hr.
Defined.

Lemma tfs_write_splice_witness :
  ∃ r t' d',
    tfs_write 0x8000 3 0x9000 [7; 8; 9] 3 511 (example_tfs, example_disk) = Ok (r, (t', d')) ∧
    ((r = VFS_ERROR ∧ ¬ bd_reliable example_disk) ∨
     r = 3 ∧ contents d' 600 [4; 5] = splice 511 [7; 8; 9] (contents example_disk 600 [4; 5])).
Proof.
  destruct (tfs_write_splice 0x8000 example_tfs example_disk 3 600 [4; 5] 0x9000 [7; 8; 9] 3 511)
    as (r & t' & d' & He & _ & _ & _ & Hr);
    [exact example_dev | reflexivity | exact example_file | reflexivity | simpl; lia | repeat constructor; lia |].
  exists r, t', d'. split; [exact He |]. cbv zeta in Hr. rewrite decide_True in Hr by lia. exact Hr.
Defined.

Lemma tfs_write_read_witness :
  ∃ m t1 d1 t2 d2,
    tfs_write 0x8000 3 0x9000 [7; 8; 9] 3 511 (example_tfs, example_disk) = Ok (m, (t1, d1)) ∧
    tfs_read 0x8000 3 0xa001 [0; 0; 0] 3 511 (t1, d1) = Ok ((m, [7; 8; 9]), (t2, d2)).
Proof.
  destruct (tfs_write_read 0x8000 example_tfs example_disk 3 600 [4; 5] 0x9000 [7; 8; 9] 3 511 0xa001 [0; 0; 0])
    as (m & t1 & d1 & t2 & d2 & Hm & Hw & Hr);
    [exact example_dev | reflexivity | exact example_file | reflexivity | exact I | simpl; lia | repeat constructor; lia | lia
    | reflexivity |].
  exists m, t1, d1, t2, d2. split; [exact Hw |]. rewrite Hm in *. exact Hr.
Defined.
