(* ===== verification/TfsDir.v ===== *)
(** * The directory and the allocation bitmap of the trivial filesystem

    Proofs about [tfs_open], [tfs_create] and [tfs_remove] of [Tfs]: a created
    file is found by its name, is of the size asked for, is full of zeros and
    lies in blocks that were free; a removed file is not found and its blocks
    are free again; files that are in the bitmap are never touched. *)

From S2P Require Import Prelude Bitmap Libc FsCodes Tfs TfsSpec.
Local Open Scope Z_scope.

(** ** Integers in blocks *)

Lemma bytes32_bytes v : is_bytes (bytes32 v).
Proof. unfold bytes32. repeat constructor; apply Z.mod_pos_bound; lia. Qed.

Lemma get32_Ok l i :
  (i + 4 ≤ length l)%nat →
  ∃ b0 b1 b2 b3, take 4 (drop i l) = [b0; b1; b2; b3] ∧ get32 l (Z.of_nat i) = Ok (be32 b0 b1 b2 b3).
Proof.
  intros Hl.
  destruct (lookup_lt_is_Some_2 l i) as [b0 H0]; [lia |].
  destruct (lookup_lt_is_Some_2 l (S i)) as [b1 H1]; [lia |].
  destruct (lookup_lt_is_Some_2 l (S (S i))) as [b2 H2]; [lia |].
  destruct (lookup_lt_is_Some_2 l (S (S (S i)))) as [b3 H3]; [lia |].
  exists b0, b1, b2, b3. split.
  - rewrite (take_drop_cons _ _ _ _ H0), (take_drop_cons _ _ _ _ H1), (take_drop_cons _ _ _ _ H2),
      (take_drop_cons _ _ _ _ H3). by rewrite take_0.
  - unfold get32. rewrite (aget_nat _ _ _ H0).
    replace (Z.of_nat i + 1) with (Z.of_nat (S i)) by lia. rewrite (aget_nat _ _ _ H1).
    replace (Z.of_nat i + 2) with (Z.of_nat (S (S i))) by lia. rewrite (aget_nat _ _ _ H2).
    replace (Z.of_nat i + 3) with (Z.of_nat (S (S (S i)))) by lia. by rewrite (aget_nat _ _ _ H3).
Qed.

(** What is read depends on the four bytes only. *)
Lemma get32_ext l l' i :
  (i + 4 ≤ length l)%nat → (i + 4 ≤ length l')%nat → take 4 (drop i l') = take 4 (drop i l) →
  get32 l' (Z.of_nat i) = get32 l (Z.of_nat i).
Proof.
  intros Hl Hl' He. destruct (get32_Ok l i Hl) as (b0 & b1 & b2 & b3 & H1 & ->).
  destruct (get32_Ok l' i Hl') as (c0 & c1 & c2 & c3 & H2 & ->). rewrite He, H1 in H2. by injection H2 as -> -> -> ->.
Qed.

Lemma put32_Ok l i v : (i + 4 ≤ length l)%nat → put32 l (Z.of_nat i) v = Ok (splice i (bytes32 v) l).
Proof.
  intros Hl. unfold put32, bytes32.
  replace (Z.of_nat i + 1) with (Z.of_nat (S i)) by lia. replace (Z.of_nat i + 2) with (Z.of_nat (S (S i))) by lia.
  replace (Z.of_nat i + 3) with (Z.of_nat (S (S (S i)))) by lia. unfold mbind, res_bind.
  rewrite !aset_nat by (rewrite ?length_insert; lia). f_equal.
  rewrite <- !splice_cons by (rewrite ?length_insert; simpl; lia). by rewrite splice_nil.
Qed.

Lemma slice_splice_other {A} k n j (l t : list A) :
  (k + length l ≤ length t)%nat → (j + n ≤ k ∨ k + length l ≤ j)%nat →
  take n (drop j (splice k l t)) = take n (drop j t).
Proof.
  intros Hl Hd. apply list_eq. intros p. destruct (decide (p < n)%nat).
  - rewrite !lookup_take_lt, !lookup_drop, splice_lookup by lia. by rewrite decide_False by lia.
  - by rewrite !lookup_take_ge by lia.
Qed.

Lemma get32_splice l i v : (i + 4 ≤ length l)%nat → is_u32 v → get32 (splice i (bytes32 v) l) (Z.of_nat i) = Ok v.
Proof.
  intros Hl Hv. destruct (get32_Ok (splice i (bytes32 v) l) i) as (b0 & b1 & b2 & b3 & H1 & ->).
  { rewrite splice_length; [done | done]. }
  change 4%nat with (length (bytes32 v)) in H1. rewrite splice_slice in H1 by done. unfold bytes32 in H1.
  injection H1 as <- <- <- <-. by rewrite be32_bytes32.
Qed.

Lemma is_bytes_splice k l t : is_bytes l → is_bytes t → is_bytes (splice k l t).
Proof. intros. unfold splice, is_bytes. repeat (apply Forall_app; split); auto using Forall_take, Forall_drop. Qed.

(** ** A block as an array of words *)

Lemma of_to_words l n : length l = (4 * n)%nat → is_bytes l → of_words (to_words l) = l.
Proof.
  revert l. induction n as [|n IH]; intros l Hl Hb; [by destruct l |].
  destruct l as [|b0 [|b1 [|b2 [|b3 l]]]]; simpl in Hl; try lia.
  apply Forall_cons in Hb as [H0 Hb]. apply Forall_cons in Hb as [H1 Hb].
  apply Forall_cons in Hb as [H2 Hb]. apply Forall_cons in Hb as [H3 Hb]. cbn [to_words].
  unfold of_words. cbn [flat_map]. rewrite bytes32_be32 by done. simpl. do 4 f_equal. apply IH; [lia | done].
Qed.

Lemma to_of_words ws : Forall is_u32 ws → to_words (of_words ws) = ws.
Proof.
  induction 1 as [|w ws Hw _ IH]; [done |]. unfold of_words. cbn [flat_map]. unfold bytes32 at 1. simpl app.
  cbn [to_words]. rewrite be32_bytes32 by done. f_equal. apply IH.
Qed.

Lemma of_words_length ws : length (of_words ws) = (4 * length ws)%nat.
Proof. induction ws as [|w ws IH]; [done |]. unfold of_words in *. cbn [flat_map]. rewrite length_app, IH. simpl. lia. Qed.

Lemma of_words_bytes ws : is_bytes (of_words ws).
Proof.
  induction ws as [|w ws IH]; [constructor |]. unfold of_words. cbn [flat_map].
  apply Forall_app. split; [apply bytes32_bytes | apply IH].
Qed.

Lemma to_words_wf l n : length l = (4 * n)%nat → is_bytes l → bitmap_wf n (to_words l).
Proof.
  revert l. induction n as [|n IH]; intros l Hl Hb; [by destruct l |].
  destruct l as [|b0 [|b1 [|b2 [|b3 l]]]]; simpl in Hl; try lia.
  apply Forall_cons in Hb as [H0 Hb]. apply Forall_cons in Hb as [H1 Hb].
  apply Forall_cons in Hb as [H2 Hb]. apply Forall_cons in Hb as [H3 Hb].
  destruct (IH l) as [Hn Hu]; [lia | done |]. cbn [to_words]. split; [simpl; lia |].
  apply Forall_cons. split; [by apply be32_u32 | done].
Qed.

(** ** The directory *)

(** The name in a directory entry: a string inside its sixteen bytes. *)
Definition dname (md : bytes) (i : Z) : option bytes := cstr (take 16 (md_name md i)).

(** A directory block: every entry's name is terminated. *)
Record dir_ok (md : bytes) : Prop := {
  dir_len : length md = 512%nat;
  dir_bytes : is_bytes md;
  dir_name i : 0 ≤ i < TFS_MAX_FILES → is_Some (dname md i);
}.

Lemma cstr_take n l a : cstr (take n l) = Some a → cstr l = Some a.
Proof.
  intros [[rest H] Ha]%cstr_Some. apply cstr_Some. split; [| done]. exists (rest ++ drop n l).
  rewrite <- (take_drop n l) at 1. rewrite H. by rewrite <- app_assoc.
Qed.

Lemma dname_cmp md i filename a :
  dir_ok md → is_bytes filename → cstr filename = Some a → 0 ≤ i < TFS_MAX_FILES →
  ∃ z, stringcmp (md_name md i) filename = Ok z ∧ (z =? 0) = bool_decide (dname md i = Some a).
Proof.
  intros Hd Hf Ha Hi. destruct (dir_name _ Hd i Hi) as [s Hs].
  destruct (stringcmp_eq (md_name md i) filename s a) as (z & Hz & Hiff);
    [by apply Forall_drop, dir_bytes | done | by eapply cstr_take | done |].
  exists z. split; [done |]. rewrite Hs. destruct (Z.eqb_spec z 0) as [E|E].
  - symmetry. apply bool_decide_true. by rewrite (proj1 Hiff E).
  - symmetry. apply bool_decide_false. intros [= Hsa]. by apply E, Hiff.
Qed.

(** The search for a name is a search for the first entry that has it. *)
Lemma find_name_Ok md filename a :
  dir_ok md → is_bytes filename → cstr filename = Some a →
  find_name (Z.to_nat TFS_MAX_FILES) 0 md filename =
  Ok (find_idx (Z.to_nat TFS_MAX_FILES) 0 (λ i, bool_decide (dname md i = Some a))).
Proof.
  intros Hd Hf Ha.
  assert (Hgen : ∀ n i, 0 ≤ i → i + Z.of_nat n ≤ TFS_MAX_FILES →
    find_name n i md filename = Ok (find_idx n i (λ i, bool_decide (dname md i = Some a)))).
  { induction n as [|n IH]; intros i H0 Hn; [done |]. cbn [find_name find_idx].
    destruct (dname_cmp md i filename a) as (z & -> & Hz); [done | done | done | lia |].
    unfold mbind, res_bind. rewrite Hz. case_bool_decide; [done |]. apply IH; lia. }
  apply Hgen; unfold TFS_MAX_FILES; lia.
Qed.

Lemma md_inode_total md i : dir_ok md → 0 ≤ i < TFS_MAX_FILES → ∃ v, md_inode md i = Ok v.
Proof.
  unfold TFS_MAX_FILES, md_inode, SIZEOF_DIRENTRY. intros Hd Hi.
  replace (20 * i) with (Z.of_nat (Z.to_nat (20 * i))) by lia.
  destruct (get32_Ok md (Z.to_nat (20 * i))) as (? & ? & ? & ? & _ & ?); [rewrite (dir_len _ Hd); lia |]. eauto.
Qed.

Lemma scan_create_Ok md filename a :
  dir_ok md → is_bytes filename → cstr filename = Some a →
  ∃ r, scan_create (Z.to_nat TFS_MAX_FILES) 0 (-1) md filename = Ok r ∧
    match r with
    | None => ∃ i, 0 ≤ i < TFS_MAX_FILES ∧ dname md i = Some a
    | Some k => (∀ i, 0 ≤ i < TFS_MAX_FILES → dname md i ≠ Some a) ∧
        (k = -1 ∨ 0 ≤ k < TFS_MAX_FILES ∧ md_inode md k = Ok 0)
    end.
Proof.
  intros Hd Hf Ha.
  assert (Hgen : ∀ n i k, 0 ≤ i → i + Z.of_nat n = TFS_MAX_FILES →
    (∀ j, 0 ≤ j < i → dname md j ≠ Some a) → (k = -1 ∨ 0 ≤ k < TFS_MAX_FILES ∧ md_inode md k = Ok 0) →
    ∃ r, scan_create n i k md filename = Ok r ∧
    match r with
    | None => ∃ i, 0 ≤ i < TFS_MAX_FILES ∧ dname md i = Some a
    | Some k => (∀ i, 0 ≤ i < TFS_MAX_FILES → dname md i ≠ Some a) ∧
        (k = -1 ∨ 0 ≤ k < TFS_MAX_FILES ∧ md_inode md k = Ok 0)
    end).
  { induction n as [|n IH]; intros i k H0 Hn Hb Hk; cbn [scan_create].
    { eexists. split; [done |]. split; [| done]. intros j Hj. apply Hb. lia. }
    destruct (dname_cmp md i filename a) as (z & -> & Hz); [done | done | done | lia |].
    unfold mbind, res_bind. rewrite Hz. case_bool_decide as Hi; [eexists; split; [done |]; exists i; split; [lia | done] |].
    destruct (md_inode_total md i Hd) as [v Hv]; [lia |]. rewrite Hv. apply IH; [lia | lia | |].
    - intros j Hj. destruct (decide (j = i)) as [->|]; [done | apply Hb; lia].
    - destruct (Z.eqb_spec v 0) as [->|]; [| done]. right. split; [lia | done]. }
  apply Hgen; unfold TFS_MAX_FILES; [lia | lia | lia | by left].
Qed.

(** Changing one entry: its inode number, then its name. *)
Lemma dname_splice md i k l j :
  length md = 512%nat → 0 ≤ i < TFS_MAX_FILES → (k + length l ≤ 512)%nat →
  (20 * i + 20 ≤ Z.of_nat k ∨ Z.of_nat k + Z.of_nat (length l) ≤ 20 * i + 4) → j = i →
  dname (splice k l md) j = dname md j.
Proof.
  intros Hl Hi Hk Hd ->. unfold dname, md_name, SIZEOF_DIRENTRY. f_equal. unfold TFS_MAX_FILES in Hi.
  apply slice_splice_other; lia.
Qed.

Lemma md_inode_splice md i k l :
  length md = 512%nat → 0 ≤ i < TFS_MAX_FILES → (k + length l ≤ 512)%nat →
  (20 * i + 4 ≤ Z.of_nat k ∨ Z.of_nat k + Z.of_nat (length l) ≤ 20 * i) →
  md_inode (splice k l md) i = md_inode md i.
Proof.
  intros Hl Hi Hk Hd. unfold md_inode, SIZEOF_DIRENTRY, TFS_MAX_FILES in *.
  replace (20 * i) with (Z.of_nat (Z.to_nat (20 * i))) by lia.
  apply get32_ext; [lia | rewrite splice_length; lia |]. apply slice_splice_other; lia.
Qed.

(** The directory after a new name and inode number in entry [k]. *)
Definition write_entry (k : Z) (a : bytes) (fid : Z) (md : bytes) : bytes :=
  splice (Z.to_nat (20 * k)) (bytes32 fid) (splice (Z.to_nat (20 * k + 4)) (a ++ [0]) md).

Lemma write_entry_ok md k a fid :
  dir_ok md → 0 ≤ k < TFS_MAX_FILES → is_bytes a → 0 ∉ a → (length a < 16)%nat → is_u32 fid →
  dir_ok (write_entry k a fid md) ∧ dname (write_entry k a fid md) k = Some a ∧
  md_inode (write_entry k a fid md) k = Ok fid ∧
  ∀ i, 0 ≤ i < TFS_MAX_FILES → i ≠ k →
    dname (write_entry k a fid md) i = dname md i ∧ md_inode (write_entry k a fid md) i = md_inode md i.
Proof.
  intros Hd Hk Hb Ha Hl Hf. pose proof (dir_len _ Hd) as Hlen. unfold TFS_MAX_FILES in Hk.
  assert (Hla : length (a ++ [0]) = S (length a)) by (rewrite length_app; simpl; lia).
  set (md1 := splice (Z.to_nat (20 * k + 4)) (a ++ [0]) md).
  assert (Hl1 : length md1 = 512%nat) by (unfold md1; rewrite splice_length; lia).
  assert (Hother : ∀ i, 0 ≤ i < TFS_MAX_FILES → i ≠ k →
    dname (write_entry k a fid md) i = dname md i ∧ md_inode (write_entry k a fid md) i = md_inode md i).
  { intros i Hi Hne. unfold TFS_MAX_FILES in Hi. unfold write_entry. fold md1. split.
    - erewrite (dname_splice md1 i); [| done | done | simpl; lia | simpl; lia | done].
      unfold md1. erewrite (dname_splice md i); [done | done | done | lia | lia | done].
    - rewrite md_inode_splice by (done || simpl; lia). unfold md1. by rewrite md_inode_splice by (done || lia). }
  assert (Hname : dname (write_entry k a fid md) k = Some a).
  { unfold write_entry. fold md1. erewrite (dname_splice md1 k); [| done | done | simpl; lia | simpl; lia | done].
    unfold dname, md_name, SIZEOF_DIRENTRY. apply cstr_Some. split; [| done]. unfold md1, splice.
    rewrite drop_app_length' by (rewrite length_take; lia). rewrite take_app_ge by lia. rewrite <- app_assoc. eauto. }
  split_and!; [| done | | done].
  - constructor.
    + unfold write_entry. fold md1. rewrite splice_length; [done | simpl; lia].
    + apply is_bytes_splice; [apply bytes32_bytes |]. apply is_bytes_splice; [| apply (dir_bytes _ Hd)].
      apply Forall_app. split; [done |]. by repeat constructor.
    + intros i Hi. destruct (decide (i = k)) as [->|Hne]; [by rewrite Hname |].
      rewrite (proj1 (Hother i Hi Hne)). by apply (dir_name _ Hd).
  - unfold write_entry. fold md1. unfold md_inode, SIZEOF_DIRENTRY.
    replace (20 * k) with (Z.of_nat (Z.to_nat (20 * k))) at 2 by lia. apply get32_splice; [lia | done].
Qed.

(** ** Inodes *)

Lemma ino_block_splice ino i k v :
  length ino = 512%nat → 0 ≤ i < 127 → 0 ≤ k < 127 → is_u32 v →
  ino_block (splice (Z.to_nat (4 + 4 * i)) (bytes32 v) ino) k = if k =? i then Ok v else ino_block ino k.
Proof.
  intros Hl Hi Hk Hv. unfold ino_block. destruct (Z.eqb_spec k i) as [->|Hne].
  - replace (4 + 4 * i) with (Z.of_nat (Z.to_nat (4 + 4 * i))) at 2 by lia. apply get32_splice; [lia | done].
  - replace (4 + 4 * k) with (Z.of_nat (Z.to_nat (4 + 4 * k))) by lia.
    apply get32_ext; [lia | rewrite splice_length; simpl; lia |]. apply slice_splice_other; simpl; lia.
Qed.

Lemma ino_filesize_splice ino i v :
  length ino = 512%nat → 0 ≤ i < 127 → ino_filesize (splice (Z.to_nat (4 + 4 * i)) (bytes32 v) ino) = ino_filesize ino.
Proof.
  intros Hl Hi. unfold ino_filesize. change 0 with (Z.of_nat 0).
  apply get32_ext; [lia | rewrite splice_length; simpl; lia |]. apply slice_splice_other; simpl; lia.
Qed.

(** An inode block for a file of [n] bytes in the blocks [blks]; the entries
    after those up to the [m]-th are 0. *)
Record inode_ok (ino : bytes) (n : Z) (blks : list Z) (m : Z) : Prop := {
  io_len : length ino = 512%nat;
  io_bytes : is_bytes ino;
  io_size : ino_filesize ino = Ok n;
  io_block i b : blks !! i = Some b → ino_block ino (Z.of_nat i) = Ok b;
  io_zero i : Z.of_nat (length blks) ≤ i < m → ino_block ino i = Ok 0;
}.

Lemma inode_ok_put ino n blks b :
  inode_ok ino n blks 0 → (length blks < 127)%nat → is_u32 b →
  inode_ok (splice (Z.to_nat (4 + 4 * Z.of_nat (length blks))) (bytes32 b) ino) n (blks ++ [b]) 0.
Proof.
  intros [Hl Hb Hs Hk Hz] Hlen Hu. constructor.
  - rewrite splice_length; simpl; lia.
  - apply is_bytes_splice; [apply bytes32_bytes | done].
  - by rewrite ino_filesize_splice by lia.
  - intros i c [Hi|[Hi Hc]]%lookup_app_Some.
    + apply lookup_lt_Some in Hi as Hlt. rewrite ino_block_splice by (done || lia).
      rewrite (proj2 (Z.eqb_neq _ _)) by lia. by apply Hk.
    + apply list_lookup_singleton_Some in Hc as [Hi0 ->]. assert (i = length blks) as -> by lia.
      rewrite ino_block_splice by (done || lia). by rewrite Z.eqb_refl.
  - intros i. rewrite length_app. simpl. lia.
Qed.

Lemma inode_ok_zero ino n blks m :
  inode_ok ino n blks m → Z.of_nat (length blks) ≤ m < 127 →
  inode_ok (splice (Z.to_nat (4 + 4 * m)) (bytes32 0) ino) n blks (m + 1).
Proof.
  intros [Hl Hb Hs Hk Hz] Hm. constructor.
  - rewrite splice_length; simpl; lia.
  - apply is_bytes_splice; [apply bytes32_bytes | done].
  - by rewrite ino_filesize_splice by lia.
  - intros i c Hi. apply lookup_lt_Some in Hi as Hlt. rewrite ino_block_splice by (done || lia).
    rewrite (proj2 (Z.eqb_neq _ _)) by lia. by apply Hk.
  - intros i Hi. rewrite ino_block_splice by (done || lia).
    destruct (Z.eqb_spec i m) as [->|]; [done |]. apply Hz. lia.
Qed.

(** ** The allocation bitmap *)

Definition marked (bat : bytes) (q : Z) : bool := bit (to_words bat) q.

Record bat_ok (bat : bytes) : Prop := {
  bat_len : length bat = 512%nat;
  bat_bytes : is_bytes bat;
}.

Lemma bat_wf bat : bat_ok bat → bitmap_wf 128 (to_words bat).
Proof. intros [Hl Hb]. by apply to_words_wf. Qed.

Lemma bat_of_words ws : bitmap_wf 128 ws → bat_ok (of_words ws) ∧ ∀ q, marked (of_words ws) q = bit ws q.
Proof.
  intros [Hl Hu]. split; [constructor; [by rewrite of_words_length, Hl | apply of_words_bytes] |].
  intros q. unfold marked. by rewrite to_of_words.
Qed.

Section tfs_dir.
Context {D : Type} `{BlockDevice D}.

Lemma on_bat_findnset_wp t d (Q : Z → @tstate D → Prop) :
  dev_ok t d → bat_ok (buffer_bat t) →
  (∀ p bat, 0 ≤ p < totalblocks t → marked (buffer_bat t) p = false → bat_ok bat →
     (∀ q, 0 ≤ q → marked bat q = (q =? p) || marked (buffer_bat t) q) → Q p (set_bat bat t, d)) →
  Q (-1) (t, d) →
  wp (on_bat (bitmap_findnset (totalblocks t))) Q (t, d).
Proof.
  intros (_ & _ & Ht & _) Hb Hhit Hmiss. unfold on_bat. wp_step. cbn [fst].
  pose proof (bat_wf _ Hb) as Hwf. pose proof (proj1 Hwf) as Hlen.
  eapply wp_mono; [apply bitmap_findnset_wp; split_and!; [lia | lia | by rewrite Hlen | rewrite Hlen; lia] |].
  intros r ws Hpost. cbn [fst snd]. unfold findnset_post in Hpost. destruct (find_idx _ _ _) as [p|] eqn:Hp.
  - destruct Hpost as (-> & Hws & Hq). rewrite Hlen in Hws. destruct (bat_of_words ws Hws) as [Hbat Hm].
    apply find_idx_Some in Hp as (Hpr & Hpf & _). apply Hhit; [lia | by apply negb_true_iff | done |].
    intros q H0. rewrite Hm, Hq by done. by destruct (q =? p).
  - destruct Hpost as [-> ->]. rewrite (of_to_words _ 128) by apply Hb. by destruct t.
Qed.

Lemma on_bat_set_wp p t d (Q : unit → @tstate D → Prop) :
  bat_ok (buffer_bat t) → 0 ≤ p < 4096 →
  (∀ bat, bat_ok bat → (∀ q, 0 ≤ q → marked bat q = negb (q =? p) && marked (buffer_bat t) q) →
     Q tt (set_bat bat t, d)) →
  wp (on_bat (bitmap_set p 0)) Q (t, d).
Proof.
  intros Hb Hp HQ. unfold on_bat. wp_step. cbn [fst].
  destruct (bitmap_set_spec 128 _ p false (bat_wf _ Hb)) as (ws & He & Hws & Hq); [lia |].
  apply wp_iff. exists tt, ws. split; [exact He |]. cbn [fst snd]. destruct (bat_of_words ws Hws) as [Hbat Hm].
  apply HQ; [done |]. intros q H0. rewrite Hm, Hq by done. by destruct (q =? p).
Qed.

Lemma modt_wp f t d (Q : unit → @tstate D → Prop) : Q tt (f t, d) → wp (modt f) Q (t, d).
Proof. done. Qed.

Lemma put_ino_block_wp i v t d (Q : unit → @tstate D → Prop) :
  length (buffer_inode t) = 512%nat → 0 ≤ i < 127 →
  Q tt (set_inode (splice (Z.to_nat (4 + 4 * i)) (bytes32 (u32 v)) (buffer_inode t)) t, d) →
  wp (put_ino_block i v) Q (t, d).
Proof.
  intros Hl Hi HQ. unfold put_ino_block. do 3 wp_step. cbn [fst].
  replace (4 + 4 * i) with (Z.of_nat (Z.to_nat (4 + 4 * i))) at 1 by lia.
  eapply wp_pure; [apply put32_Ok; lia |]. cbv beta. unfold modt. by wp_step.
Qed.

(** *** The loops of [tfs_create] *)

(** [t'] differs from [t] in the bitmap and inode buffers, with the blocks
    [blks] allocated. *)
Record allocated (t : tfs) (n : Z) (blks : list Z) (t' : tfs) : Prop := {
  al_frame : t' = set_bat (buffer_bat t') (set_inode (buffer_inode t') t);
  al_bat : bat_ok (buffer_bat t');
  al_mark q : 0 ≤ q → marked (buffer_bat t') q = bool_decide (q ∈ blks) || marked (buffer_bat t) q;
  al_range b : b ∈ blks → 0 ≤ b < totalblocks t ∧ marked (buffer_bat t) b = false;
  al_nodup : NoDup blks;
  al_ino : inode_ok (buffer_inode t') n blks 0;
}.

Lemma alloc_loop_wp t d n numblocks (Q : option unit → @tstate D → Prop) :
  dev_ok t d → bat_ok (buffer_bat t) → inode_ok (buffer_inode t) n [] 0 → 0 ≤ numblocks ≤ 127 →
  (∀ t', t' = set_bat (buffer_bat t') (set_inode (buffer_inode t') t) → Q (Some tt) (t', d)) →
  (∀ t' blks, Z.of_nat (length blks) = numblocks → allocated t n blks t' → Q None (t', d)) →
  wp (for_ (Z.to_nat numblocks) 0 (λ i,
        t ← gets fst;
        b ← on_bat (bitmap_findnset (totalblocks t));
        put_ino_block i b;;
        mret (if b =? -1 then Some tt else None))) Q (t, d).
Proof.
  intros Hd Hb Hi Hn Hfull Hdone.
  apply (wp_for (λ j s, snd s = d ∧ ∃ blks, Z.of_nat (length blks) = j ∧ allocated t n blks (fst s))).
  - split; [done |]. exists []. split; [done |]. constructor; try done; [by destruct t | set_solver | constructor].
  - intros j [t1 d1] Hj [Hd1 (blks & Hlen & Hal)]. simpl in Hd1, Hal. subst d1. destruct Hal as [Hfr Hbat Hm Hr Hnd Hino].
    assert (Htot : totalblocks t1 = totalblocks t) by (by rewrite Hfr).
    assert (Hd1 : dev_ok t1 d) by (rewrite Hfr; done). pose proof (io_len _ _ _ _ Hino) as Hl.
    do 3 wp_step. cbn [fst]. apply on_bat_findnset_wp; [done | done | |].
    + intros p bat Hp Hun Hbat' Hm'. wp_step. apply put_ino_block_wp; [done | lia |]. wp_step.
      rewrite (proj2 (Z.eqb_neq p (-1))) by lia. cbn [fst snd]. split; [done |]. exists (blks ++ [p]).
      rewrite length_app. split; [simpl; lia |]. rewrite Htot in Hp.
      rewrite Hm in Hun by lia. apply orb_false_iff in Hun as [Hun1 Hun2]. apply bool_decide_eq_false in Hun1.
      pose proof (proj1 (proj2 (proj2 Hd))) as Htot2.
      constructor; cbn [buffer_bat buffer_inode set_bat set_inode].
      * by rewrite Hfr.
      * done.
      * intros q H0. rewrite Hm', Hm by done. destruct (Z.eqb_spec q p) as [->|Hne].
        -- rewrite (bool_decide_true (p ∈ blks ++ [p])) by (apply elem_of_app; right; by apply list_elem_of_singleton). done.
        -- cbn [orb]. f_equal. apply bool_decide_ext. rewrite elem_of_app, list_elem_of_singleton. tauto.
      * intros b [Hb'| ->%list_elem_of_singleton]%elem_of_app; [by apply Hr | done].
      * apply NoDup_app. split_and!; [done | by intros x Hx ->%list_elem_of_singleton | apply NoDup_singleton].
      * rewrite <- Hlen. rewrite u32_small by (unfold is_u32; lia).
        apply inode_ok_put; [done | lia | unfold is_u32; lia].
    + wp_step. apply put_ino_block_wp; [done | lia |]. wp_step. apply Hfull. by rewrite Hfr.
  - intros [t1 d1] [Hd1 (blks & Hlen & Hal)]. simpl in Hd1, Hal. subst d1. apply (Hdone t1 blks); [lia | done].
Qed.

Lemma zero_loop_wp t d n blks (Q : unit → @tstate D → Prop) :
  inode_ok (buffer_inode t) n blks 0 → (length blks ≤ 127)%nat →
  (∀ ino, inode_ok ino n blks 127 → Q tt (set_inode ino t, d)) →
  wp (for_each (Z.to_nat (TFS_BLOCKS_MAX - Z.of_nat (length blks))) (Z.of_nat (length blks))
        (λ i, put_ino_block i 0)) Q (t, d).
Proof.
  intros Hi Hl HQ. unfold TFS_BLOCKS_MAX.
  apply (wp_for_each (λ j s, s = (set_inode (buffer_inode (fst s)) t, d) ∧ inode_ok (buffer_inode (fst s)) n blks j)).
  - split; [by destruct t |]. destruct Hi. constructor; try done. lia.
  - intros j [t1 d1] Hj [[= -> ->] Hio]. cbn [fst] in Hio. cbn [buffer_inode set_inode] in Hio.
    apply put_ino_block_wp; [by apply (io_len _ _ _ _ Hio) | lia |]. split; [done |].
    cbn [fst buffer_inode set_inode]. change (u32 0) with 0. apply inode_ok_zero; [done | lia].
  - intros [t1 d1] [[= -> ->] Hio]. cbn [fst buffer_inode set_inode] in Hio. apply HQ.
    by replace (Z.of_nat (length blks) + Z.of_nat (Z.to_nat (127 - Z.of_nat (length blks)))) with 127 in Hio by lia.
Qed.

(** *** Writing what was allocated *)

(** [d'] holds the bitmap, directory and inode of the buffers of [t], and
    zeros in the blocks of the file. *)
Record stored (t : tfs) (fid : Z) (blks : list Z) (d' : D) : Prop := {
  st_bat : bd_block d' TFS_ALLOCATION_BLOCK = buffer_bat t;
  st_md : bd_block d' TFS_DIRECTORY_BLOCK = buffer_md t;
  st_ino : bd_block d' fid = buffer_inode t;
  st_zero b : b ∈ blks → bd_block d' b = replicate 512 0;
}.

(** One more block of a list may change. *)
Lemma donly_step bs b d1 d2 d3 : donly bs d1 d2 → donly [b] d2 d3 → b ∈ bs → donly bs d1 d3.
Proof.
  intros H1 H2 Hb. eapply donly_trans; [exact H1 |]. eapply donly_sub; [exact H2 |].
  by intros c ->%list_elem_of_singleton.
Qed.

Lemma dev_ok_frame t t' d d' bs :
  dev_ok t d → totalblocks t' = totalblocks t → donly bs d d' → dev_ok t' d'.
Proof. intros Hd Ht Ho. destruct (dev_ok_only _ _ _ _ Hd Ho) as (? & ? & ? & ?). split_and!; rewrite ?Ht; done || lia. Qed.

(** The loop that clears the blocks of the file. *)
Lemma clear_loop_wp t d0 d n fid blks (Q : option unit → @tstate D → Prop) :
  dev_ok t d0 → (∀ b, b ∈ blks → 3 ≤ b < totalblocks t) → NoDup (fid :: blks) → 3 ≤ fid →
  inode_ok (buffer_inode t) n blks 127 →
  let bs := 1 :: 2 :: fid :: blks in
  donly bs d0 d → stored t fid [] d →
  (∀ d', donly bs d0 d' → ¬ bd_reliable d0 → Q (Some tt) (set_bat (replicate 512 0) t, d')) →
  (∀ d', donly bs d0 d' → stored t fid blks d' → Q None (set_bat (replicate 512 0) t, d')) →
  wp (for_ (length blks) 0 (λ i,
        t ← gets fst;
        b ← pure (ino_block (buffer_inode t) i);
        ok ← write_from buffer_bat b;
        mret (if negb ok then Some tt else None))) Q (set_bat (replicate 512 0) t, d).
Proof.
  intros Hd Hr Hnd Hfid Hino bs Ho Hst Hno Hok. set (t1 := set_bat (replicate 512 0) t).
  apply NoDup_cons in Hnd as [Hnf Hnd].
  apply (wp_for (λ j s, fst s = t1 ∧ donly bs d0 (snd s) ∧ stored t fid (take (Z.to_nat j) blks) (snd s))).
  - split_and!; [done | done |]. change (Z.to_nat 0) with 0%nat. by rewrite take_0.
  - intros j [t2 d2] Hj (Ht2 & Ho2 & Hst2). simpl in Ht2, Ho2, Hst2. subst t2.
    destruct (lookup_lt_is_Some_2 blks (Z.to_nat j)) as [b Hb]; [lia |].
    pose proof (list_elem_of_lookup_2 _ _ _ Hb) as Hbin. specialize (Hr b Hbin).
    assert (Hbs : b ∈ bs) by (unfold bs; set_solver).
    do 3 wp_step. cbn [fst]. eapply wp_pure.
    { cbn [t1 set_bat buffer_inode]. rewrite <- (io_block _ _ _ _ Hino _ _ Hb). f_equal. lia. }
    cbv beta. wp_step. apply write_from_wp.
    + by eapply (dev_ok_frame t).
    + simpl. lia.
    + done.
    + apply Forall_replicate. by split.
    + intros d3 Ho3 Hb3. wp_step. split_and!; [done | by eapply donly_step |]. cbn [snd].
      rewrite Z2Nat.inj_add, Nat.add_1_r by lia. rewrite (take_S_r _ _ _ Hb).
      assert (Hkeep : ∀ c, c ≠ b → bd_block d3 c = bd_block d2 c)
        by (intros c Hc; apply (do_block _ _ _ Ho3); by intros ->%list_elem_of_singleton).
      destruct Hst2 as [H1 H2 H3 H4].
      constructor; [rewrite Hkeep; [done | unfold TFS_ALLOCATION_BLOCK; lia]
        | rewrite Hkeep; [done | unfold TFS_DIRECTORY_BLOCK; lia] | rewrite Hkeep; [done | congruence] |].
      intros c [Hc| ->%list_elem_of_singleton]%elem_of_app; [| done].
      destruct (decide (c = b)) as [->|Hne]; [done |]. rewrite Hkeep by done. by apply H4.
    + intros d3 Hs3 Hr3. wp_step. apply Hno.
      * eapply donly_trans; [done |]. by apply dsame_only.
      * intros Hrel. by apply Hr3, (do_reliable _ _ _ Ho2).
  - intros [t2 d2] (Ht2 & Ho2 & Hst2). simpl in Ht2, Ho2, Hst2. subst t2. apply Hok; [done |].
    rewrite Z.add_0_l, Nat2Z.id, firstn_all in Hst2. done.
Qed.

Lemma create_write_wp t d n fid index blks :
  dev_ok t d → lock t = 0 → bat_ok (buffer_bat t) → dir_ok (buffer_md t) →
  md_inode (buffer_md t) index = Ok fid → inode_ok (buffer_inode t) n blks 127 →
  (∀ b, b ∈ fid :: blks → 3 ≤ b < totalblocks t) → NoDup (fid :: blks) →
  wp (create_write index (Z.of_nat (length blks))) (λ r '(t', d'),
    lock t' = 1 ∧ totalblocks t' = totalblocks t ∧ donly (1 :: 2 :: fid :: blks) d d' ∧
    ((r = VFS_ERROR ∧ ¬ bd_reliable d) ∨ r = VFS_OK ∧ stored t fid blks d')) (t, d).
Proof.
  intros Hd Hlock Hbat Hdir Hidx Hino Hr Hnd. set (bs := 1 :: 2 :: fid :: blks).
  pose proof (proj1 (proj2 (proj2 Hd))) as Htot. pose proof (Hr fid ltac:(set_solver)) as Hfid.
  assert (Hfail : ∀ t' d1 d2, totalblocks t' = totalblocks t → lock t' = 0 → donly bs d d1 → dsame d1 d2 → ¬ bd_reliable d1 →
    wp (unlock VFS_ERROR) (λ r '(t', d'), lock t' = 1 ∧ totalblocks t' = totalblocks t ∧ donly bs d d' ∧
      ((r = VFS_ERROR ∧ ¬ bd_reliable d) ∨ r = VFS_OK ∧ stored t fid blks d')) (t', d2)).
  { intros t' d1 d2 Ht Hl Ho Hs Hrel. apply unlock_wp. split_and!; [simpl; lia | done | |].
    - eapply donly_trans; [done |]. by apply dsame_only.
    - left. split; [done |]. intros ?. by apply Hrel, (do_reliable _ _ _ Ho). }
  assert (Ho0 : donly bs d d) by (apply dsame_only, dsame_refl, Hd).
  unfold create_write. wp_step. apply write_from_wp; [done | unfold TFS_ALLOCATION_BLOCK; lia | apply Hbat | apply Hbat | |].
  2: { intros d1 Hs1 Hr1. cbn [negb]. by eapply Hfail. }
  intros d1 Ho1 Hb1. cbn [negb]. wp_step.
  assert (Hd1 : donly bs d d1) by (eapply donly_step; [done | done | unfold bs, TFS_ALLOCATION_BLOCK; set_solver]).
  apply write_from_wp; [by eapply (dev_ok_frame t) | unfold TFS_DIRECTORY_BLOCK; lia | apply Hdir | apply Hdir | |].
  2: { intros d2 Hs2 Hr2. cbn [negb]. by eapply Hfail. }
  intros d2 Ho2 Hb2. cbn [negb]. do 3 wp_step. cbn [fst]. eapply wp_pure; [exact Hidx |]. cbv beta. wp_step.
  assert (Hd2 : donly bs d d2) by (eapply donly_step; [done | done | unfold bs, TFS_DIRECTORY_BLOCK; set_solver]).
  apply write_from_wp; [by eapply (dev_ok_frame t) | lia | apply Hino | apply Hino | |].
  2: { intros d3 Hs3 Hr3. cbn [negb]. by eapply Hfail. }
  intros d3 Ho3 Hb3. cbn [negb]. do 3 wp_step. cbn [fst].
  assert (Hd3 : donly bs d d3) by (eapply donly_step; [done | done | unfold bs; set_solver]).
  eapply wp_pure.
  { unfold memoryset, TFS_BLOCK_SIZE. change 0 with (Z.of_nat 0) at 1. apply memoryset_Ok. rewrite (bat_len _ Hbat). lia. }
  change (Z.to_nat 512) with 512%nat. rewrite splice_full by (rewrite length_replicate; symmetry; apply Hbat).
  unfold modt. do 3 wp_step. cbn [fst snd]. rewrite Nat2Z.id.
  apply (clear_loop_wp t d d3 n fid blks); [done | intros b Hb; apply Hr; set_solver | done | lia | done | done | | |].
  - constructor; [| | done | set_solver].
    + rewrite (do_block _ _ _ Ho3), (do_block _ _ _ Ho2); [done | |]; unfold TFS_ALLOCATION_BLOCK, TFS_DIRECTORY_BLOCK;
        intros ?%list_elem_of_singleton; lia.
    + rewrite (do_block _ _ _ Ho3); [done |]. unfold TFS_DIRECTORY_BLOCK; intros ?%list_elem_of_singleton; lia.
  - intros d4 Ho4 Hrel. apply unlock_wp. split_and!; [simpl; lia | done | done | by left].
  - intros d4 Ho4 Hst. apply unlock_wp. split_and!; [simpl; lia | done | done |]. right. split; [done |].
    by destruct Hst; constructor.
Qed.

(** *** Creating a file *)

(** [d'] is [d] with a new file: entry [k] of the directory, which was free,
    names it; its inode is in block [fid], its bytes are in [blks]. *)
Record created (t : tfs) (d : D) (a : bytes) (size k fid : Z) (blks : list Z) (d' : D) : Prop := {
  cr_file : is_file t d' fid size blks;
  cr_inode : inode_ok (bd_block d' fid) size blks 127;
  cr_zero : contents d' size blks = replicate (Z.to_nat size) 0;
  cr_new b : b ∈ fid :: blks → marked (bd_block d TFS_ALLOCATION_BLOCK) b = false;
  cr_mark q : 0 ≤ q → marked (bd_block d' TFS_ALLOCATION_BLOCK) q =
                bool_decide (q ∈ fid :: blks) || marked (bd_block d TFS_ALLOCATION_BLOCK) q;
  cr_free : 0 ≤ k < TFS_MAX_FILES ∧ md_inode (bd_block d TFS_DIRECTORY_BLOCK) k = Ok 0;
  cr_dir : bd_block d' TFS_DIRECTORY_BLOCK = write_entry k a fid (bd_block d TFS_DIRECTORY_BLOCK);
  cr_fresh i : 0 ≤ i < TFS_MAX_FILES → dname (bd_block d TFS_DIRECTORY_BLOCK) i ≠ Some a;
}.

(** Only the bitmap, the directory and blocks that were free may change. *)
Definition free_or_system (d : D) (b : Z) : Prop :=
  b = TFS_ALLOCATION_BLOCK ∨ b = TFS_DIRECTORY_BLOCK ∨ marked (bd_block d TFS_ALLOCATION_BLOCK) b = false.

Definition create_post (t : tfs) (d : D) (a : bytes) (size r : Z) (s : @tstate D) : Prop :=
  lock (fst s) = 1 ∧ totalblocks (fst s) = totalblocks t ∧
  ∃ bs, (∀ b, b ∈ bs → free_or_system d b) ∧ donly bs d (snd s) ∧
    ((r = VFS_ERROR ∧ (dsame d (snd s) ∨ ¬ bd_reliable d)) ∨
     r = VFS_OK ∧ ∃ k fid blks, created t d a size k fid blks (snd s)).

Lemma create_fail_wp t d a size t' d' :
  totalblocks t' = totalblocks t → lock t' = 0 → dsame d d' →
  wp (unlock VFS_ERROR) (create_post t d a size) (t', d').
Proof.
  intros Ht Hl Hs. apply unlock_wp. split_and!; [simpl; lia | done |]. exists []. split; [set_solver |].
  split; [by apply dsame_only |]. left. split; [done | by left].
Qed.

(** The blocks of a file that was just stored. *)
Lemma stored_created t0 d t d' a size k fid blks :
  dev_ok t d → dir_ok (bd_block d TFS_DIRECTORY_BLOCK) → dev_ok t d' → totalblocks t = totalblocks t0 →
  inode_ok (buffer_inode t) size blks 127 → 0 ≤ size →
  512 * (Z.of_nat (length blks) - 1) < size ≤ 512 * Z.of_nat (length blks) → (length blks ≤ 127)%nat →
  (∀ b, b ∈ fid :: blks → 3 ≤ b < totalblocks t ∧ marked (bd_block d TFS_ALLOCATION_BLOCK) b = false) →
  NoDup (fid :: blks) →
  (∀ q, 0 ≤ q → marked (buffer_bat t) q = bool_decide (q ∈ fid :: blks) || marked (bd_block d TFS_ALLOCATION_BLOCK) q) →
  buffer_md t = write_entry k a fid (bd_block d TFS_DIRECTORY_BLOCK) →
  0 ≤ k < TFS_MAX_FILES → md_inode (bd_block d TFS_DIRECTORY_BLOCK) k = Ok 0 →
  (∀ i, 0 ≤ i < TFS_MAX_FILES → dname (bd_block d TFS_DIRECTORY_BLOCK) i ≠ Some a) →
  stored t fid blks d' → created t0 d a size k fid blks d'.
Proof.
  intros Hd Hdir Hd' Htot Hino Hs0 Hlen Hmax Hblk Hnd Hmk Hmd Hk Hk0 Hfr [Sb Sm Si Sz].
  assert (Hf : is_file t0 d' fid size blks).
  { constructor; rewrite ?Si; try done.
    - rewrite <- Htot. apply Hblk. set_solver.
    - apply Hino.
    - unfold TFS_BLOCKS_MAX. lia.
    - apply Hino.
    - intros b Hb. rewrite <- Htot. apply Hblk. set_solver. }
  constructor; [done | by rewrite Si | | apply Hblk | by rewrite Sb | done | by rewrite Sm | done].
  unfold contents, whole. assert (Hw : concat (bd_block d' <$> blks) = replicate (512 * length blks) 0).
  { clear - Sz. induction blks as [|b blks IH]; [done |]. rewrite fmap_cons. cbn [concat length].
    rewrite Sz by set_solver. rewrite IH by set_solver. rewrite <- replicate_add. f_equal. lia. }
  rewrite Hw, take_replicate. f_equal. lia.
Qed.

Lemma splice_drop {A} k (l t : list A) :
  (k + length l ≤ length t)%nat → take k t ++ splice 0 l (drop k t) = splice k l t.
Proof. intros ?. unfold splice. simpl. by rewrite drop_drop. Qed.

Lemma numblocks_bounds size :
  0 ≤ size < 2 ^ 31 - 511 →
  let n := u32 (Z.quot (size + TFS_BLOCK_SIZE - 1) TFS_BLOCK_SIZE) in
  512 * (n - 1) < size ≤ 512 * n ∧ 0 ≤ n.
Proof.
  intros Hs. unfold TFS_BLOCK_SIZE. rewrite Z.quot_div_nonneg by lia.
  pose proof (Z.div_pos (size + 512 - 1) 512). pose proof (Z.mul_div_le (size + 512 - 1) 512 ltac:(lia)).
  pose proof (Z.mul_succ_div_gt (size + 512 - 1) 512 ltac:(lia)).
  rewrite u32_small by (unfold is_u32; lia). cbv zeta. lia.
Qed.

(** From the allocation of the file's blocks on: the inode's block [fid] has
    been marked and entry [k] names the file. *)
Lemma create_rest_wp t d t1 d1 a size nb k fid :
  dev_ok t d → dsame d d1 → totalblocks t1 = totalblocks t → lock t1 = 0 →
  length (buffer_inode t1) = 512%nat → is_bytes (buffer_inode t1) →
  dir_ok (bd_block d TFS_DIRECTORY_BLOCK) →
  (∀ q, 0 ≤ q < 3 → marked (bd_block d TFS_ALLOCATION_BLOCK) q = true) →
  is_bytes a → 0 ∉ a → (length a < 16)%nat → 0 ≤ size < 2 ^ 31 - 511 → 512 * (nb - 1) < size ≤ 512 * nb → 0 ≤ nb ≤ 127 →
  0 ≤ fid < totalblocks t → marked (bd_block d TFS_ALLOCATION_BLOCK) fid = false → bat_ok (buffer_bat t1) →
  (∀ q, 0 ≤ q → marked (buffer_bat t1) q = (q =? fid) || marked (bd_block d TFS_ALLOCATION_BLOCK) q) →
  buffer_md t1 = write_entry k a fid (bd_block d TFS_DIRECTORY_BLOCK) →
  0 ≤ k < TFS_MAX_FILES → md_inode (bd_block d TFS_DIRECTORY_BLOCK) k = Ok 0 →
  (∀ i, 0 ≤ i < TFS_MAX_FILES → dname (bd_block d TFS_DIRECTORY_BLOCK) i ≠ Some a) →
  wp (t ← gets fst;
      ino ← pure (put32 (buffer_inode t) 0 (u32 size));
      modt (set_inode ino);;
      full ← for_ (Z.to_nat nb) 0 (λ i,
        t ← gets fst;
        b ← on_bat (bitmap_findnset (totalblocks t));
        put_ino_block i b;;
        mret (if b =? -1 then Some tt else None));
      match full with
      | Some _ => unlock VFS_ERROR
      | None => for_each (Z.to_nat (TFS_BLOCKS_MAX - nb)) nb (λ i, put_ino_block i 0);; create_write k nb
      end) (create_post t d a size) (t1, d1).
Proof.
  intros Hd Hs Htot Hlock Hil Hib Hdir Hsys Hab Ha0 Hla Hsize Hnb Hnb0 Hfid Hfm Hbat Hm Hmd Hk Hk0 Hfr.
  pose proof Hd as (_ & _ & Htb & _).
  assert (Hd1 : ∀ t', totalblocks t' = totalblocks t → dev_ok t' d1)
    by (intros t' Ht'; eapply dev_ok_frame; [exact Hd | done | by apply (dsame_only [])]).
  do 3 wp_step. cbn [fst]. change 0 with (Z.of_nat 0) at 1. eapply wp_pure; [apply put32_Ok; lia |].
  rewrite u32_small by (unfold is_u32; lia). wp_step. apply modt_wp. wp_step.
  set (ino1 := splice 0 (bytes32 size) (buffer_inode t1)).
  assert (Hino1 : inode_ok ino1 size [] 0).
  { constructor; [unfold ino1; rewrite splice_length; simpl; lia | by apply is_bytes_splice, Hib; apply bytes32_bytes
      | | done | simpl; lia]. unfold ino_filesize, ino1. change 0 with (Z.of_nat 0).
    apply get32_splice; [lia | unfold is_u32; lia]. }
  apply (alloc_loop_wp _ _ size); [by apply Hd1 | done | done | lia | |].
  { intros t2 Ht2. apply create_fail_wp; [by rewrite Ht2 | by rewrite Ht2 | done]. }
  intros t2 blks Hlen [Hfr2 Hbat2 Hm2 Hr2 Hnd2 Hino2]. wp_step. rewrite <- Hlen.
  apply (zero_loop_wp _ _ size); [done | lia |]. intros ino3 Hino3.
  cbn [set_inode buffer_bat totalblocks] in Hm2, Hr2.
  assert (Hblk : ∀ b, b ∈ fid :: blks → 3 ≤ b < totalblocks t ∧ marked (bd_block d TFS_ALLOCATION_BLOCK) b = false).
  { assert (Hge : ∀ b, 0 ≤ b < totalblocks t → marked (bd_block d TFS_ALLOCATION_BLOCK) b = false →
      3 ≤ b < totalblocks t ∧ marked (bd_block d TFS_ALLOCATION_BLOCK) b = false).
    { intros b Hb Hmb. split; [| done]. destruct (decide (b < 3)); [| lia]. rewrite Hsys in Hmb by lia. done. }
    intros b [->|Hb]%elem_of_cons; [by apply Hge |]. destruct (Hr2 b Hb) as [? Hmb]. rewrite Htot in *.
    apply Hge; [lia |]. rewrite Hm in Hmb by lia. by apply orb_false_iff in Hmb as [_ ?]. }
  assert (Hnd : NoDup (fid :: blks)).
  { apply NoDup_cons. split; [| done]. intros Hin. destruct (Hr2 _ Hin) as [? Hmb].
    rewrite Hm, Z.eqb_refl in Hmb by lia. done. }
  destruct (write_entry_ok (bd_block d TFS_DIRECTORY_BLOCK) k a fid) as (Hdir' & _ & Hki & _);
    [done | done | done | done | done | unfold is_u32; lia |].
  assert (Hmd2 : buffer_md t2 = buffer_md t1) by (by rewrite Hfr2).
  assert (Htot2 : totalblocks t2 = totalblocks t) by (by rewrite Hfr2).
  eapply wp_mono; [apply (create_write_wp _ _ size fid k blks) |].
  - by apply Hd1.
  - by rewrite Hfr2.
  - done.
  - cbn [buffer_md set_inode]. by rewrite Hmd2, Hmd.
  - cbn [buffer_md set_inode]. by rewrite Hmd2, Hmd.
  - done.
  - cbn [totalblocks set_inode]. rewrite Htot2. intros b Hb. by apply Hblk.
  - done.
  - intros r [t4 d4] (Hl4 & Ht4 & Ho4 & Hr4). cbn [totalblocks set_inode] in Ht4.
    split_and!; [done | simpl; congruence |]. exists (1 :: 2 :: fid :: blks). split.
    { intros b [->|[->|Hb]%elem_of_cons]%elem_of_cons; [by left | by right; left |].
      right. right. by apply Hblk. }
    split; [by eapply donly_same |]. destruct Hr4 as [[-> Hno]|[-> Hst]].
    { left. split; [done |]. right. intros Hrel. by apply Hno, (ds_reliable _ _ Hs). }
    right. split; [done |]. exists k, fid, blks.
    eapply (stored_created t d (set_inode ino3 t2) d4); try done; cbn [totalblocks buffer_md buffer_bat set_inode].
    + by eapply dev_ok_frame; [exact Hd | | apply (dsame_only []), dsame_refl, Hd].
    + eapply dev_ok_frame; [exact Hd | done | by eapply donly_same].
    + lia.
    + lia.
    + lia.
    + by rewrite Htot2.
    + intros q H0. rewrite Hm2, Hm by done. rewrite orb_assoc. f_equal.
      destruct (Z.eqb_spec q fid) as [->|Hne].
      * rewrite (bool_decide_true (fid ∈ fid :: blks)) by (apply elem_of_cons; by left). apply orb_true_r.
      * rewrite orb_false_r. apply bool_decide_ext. rewrite elem_of_cons. tauto.
    + by rewrite Hmd2.
Qed.

Lemma tfs_create_wp t d filename a size :
  dev_ok t d → lock t = 1 → length (buffer_inode t) = 512%nat → is_bytes (buffer_inode t) →
  dir_ok (bd_block d TFS_DIRECTORY_BLOCK) →
  (∀ q, 0 ≤ q < 3 → marked (bd_block d TFS_ALLOCATION_BLOCK) q = true) →
  is_bytes filename → cstr filename = Some a → (length a < 16)%nat → 0 ≤ size < 2 ^ 31 - 511 →
  wp (tfs_create filename size) (create_post t d a size) (t, d).
Proof.
  intros Hd Hlock Hil Hib Hdir Hsys Hfb Ha Hla Hsize. pose proof Hd as (_ & _ & Htot & _).
  destruct (numblocks_bounds size Hsize) as [Hnb Hnb0]. unfold tfs_create.
  set (nb := u32 (Z.quot (size + TFS_BLOCK_SIZE - 1) TFS_BLOCK_SIZE)) in *. cbv zeta.
  wp_step. apply P_wp; [done |]. set (t0 := set_lock 0 t).
  destruct (Z.ltb_spec TFS_BLOCKS_MAX nb) as [|Hmax];
    [apply create_fail_wp; [done | done | apply dsame_refl, Hd] |]. unfold TFS_BLOCKS_MAX in Hmax.
  wp_step. apply read_into_wp; [done | simpl; unfold TFS_DIRECTORY_BLOCK; lia | |
    intros d1 Hs1 _; cbn [negb]; by apply create_fail_wp].
  intros d1 Hs1. cbn [negb]. do 3 wp_step. cbn [fst buffer_md set_md].
  set (md := bd_block d TFS_DIRECTORY_BLOCK) in *.
  destruct (scan_create_Ok md filename a Hdir Hfb Ha) as (r & Hscan & Hr). eapply wp_pure; [exact Hscan |].
  destruct r as [index|]; cbv beta iota; [| by apply create_fail_wp].
  destruct Hr as [Hfr Hk]. destruct (Z.eqb_spec index (-1)) as [|Hne]; [by apply create_fail_wp |].
  destruct Hk as [|[Hk Hk0]]; [done |]. pose proof (dir_len _ Hdir) as Hmdl. unfold TFS_MAX_FILES in Hk.
  wp_step. eapply wp_pure.
  { apply (stringcopy_Ok _ _ a); [done |]. unfold md_name, TFS_FILENAME_MAX, SIZEOF_DIRENTRY. rewrite length_drop. lia. }
  change (Z.to_nat (TFS_FILENAME_MAX - 1)) with 15%nat. rewrite (take_ge a) by lia.
  unfold md_name, SIZEOF_DIRENTRY. rewrite splice_drop by (rewrite length_app; simpl; lia).
  wp_step. apply modt_wp. wp_step.
  set (md1 := splice (Z.to_nat (20 * index + 4)) (a ++ [0]) md).
  assert (Hmd1 : length md1 = 512%nat) by (unfold md1; rewrite splice_length; rewrite ?length_app; simpl; lia).
  apply read_into_wp; [by eapply (dev_ok_same _ d) | simpl; unfold TFS_ALLOCATION_BLOCK; lia | |
    intros d2 Hs2 _; cbn [negb]; apply create_fail_wp; [done | done | by eapply dsame_trans]].
  intros d2 Hs2'. assert (Hs2 : dsame d d2) by (by eapply dsame_trans). clear Hs2'. rewrite (ds_block _ _ Hs1).
  set (bat := bd_block d TFS_ALLOCATION_BLOCK) in *.
  assert (Hbat : bat_ok bat) by (destruct (block_ok t d 1 Hd); [lia |]; by constructor).
  cbn [negb]. do 3 wp_step. cbn [fst].
  apply on_bat_findnset_wp; [by eapply (dev_ok_same _ d) | done | |].
  2: { do 3 wp_step. cbn [fst buffer_md set_bat set_md].
       replace (20 * index) with (Z.of_nat (Z.to_nat (20 * index))) by lia.
       eapply wp_pure; [apply put32_Ok; lia |]. wp_step. apply modt_wp.
       apply create_fail_wp; done. }
  intros fid bat1 Hfid Hfm Hbat1 Hm1. cbn [totalblocks set_bat set_md buffer_bat] in Hfid, Hfm, Hm1.
  do 3 wp_step. cbn [fst buffer_md set_bat set_md].
  replace (20 * index) with (Z.of_nat (Z.to_nat (20 * index))) by lia.
  eapply wp_pure; [apply put32_Ok; lia |]. wp_step. apply modt_wp.
  rewrite (proj2 (Z.eqb_neq fid (-1))) by lia. rewrite (u32_small fid) by (unfold is_u32; simpl in Hfid; lia).
  apply (create_rest_wp _ _ _ _ _ _ _ _ fid); try done.
  - eapply cstr_is_bytes; [exact Hfb | done].
  - by apply cstr_Some in Ha as [_ ?].
Qed.

(** *** Opening a file *)

Lemma tfs_open_wp t d filename a :
  dev_ok t d → lock t = 1 → dir_ok (bd_block d TFS_DIRECTORY_BLOCK) → is_bytes filename → cstr filename = Some a →
  wp (tfs_open filename) (λ r '(t', d'), lock t' = 1 ∧ totalblocks t' = totalblocks t ∧ dsame d d' ∧
    let md := bd_block d TFS_DIRECTORY_BLOCK in
    ((r = VFS_ERROR ∧ ¬ bd_reliable d) ∨
     match find_idx (Z.to_nat TFS_MAX_FILES) 0 (λ i, bool_decide (dname md i = Some a)) with
     | Some i => ∃ v, md_inode md i = Ok v ∧ r = s32 v
     | None => r = VFS_NOT_FOUND
     end)) (t, d).
Proof.
  intros Hd Hlock Hdir Hfb Ha. pose proof Hd as (_ & _ & Htot & _).
  unfold tfs_open. wp_step. apply P_wp; [done |]. wp_step.
  apply read_into_wp; [done | simpl; unfold TFS_DIRECTORY_BLOCK; lia | |].
  2: { intros d1 Hs1 Hr. cbn [negb]. apply unlock_wp. split_and!; [done | done | done | by left]. }
  intros d1 Hs1. cbn [negb]. do 3 wp_step. cbn [fst buffer_md set_md].
  eapply wp_pure; [by apply find_name_Ok |]. cbv beta.
  destruct (find_idx _ _ _) as [i|] eqn:Hi; [| apply unlock_wp; split_and!; [done | done | done | by right]].
  unfold V. wp_step. apply modt_wp. wp_step. apply find_idx_Some in Hi as (Hir & _). unfold TFS_MAX_FILES in Hir.
  destruct (md_inode_total _ i Hdir) as [v Hv]; [unfold TFS_MAX_FILES; lia |]. eapply wp_pure; [exact Hv |]. cbv beta. wp_step.
  split_and!; [done | done | done |]. right. by exists v.
Qed.

(** *** Removing a file *)

Lemma free_blocks_wp rest : ∀ i m t d n blks (Q : unit → @tstate D → Prop),
  inode_ok (buffer_inode t) n blks 127 → (length blks < 127)%nat → (∀ b, b ∈ blks → 3 ≤ b < 4096) →
  rest = drop i blks → (length rest ≤ m)%nat → (i ≤ length blks)%nat → bat_ok (buffer_bat t) →
  (∀ bat, bat_ok bat →
     (∀ q, 0 ≤ q → marked bat q = negb (bool_decide (q ∈ rest)) && marked (buffer_bat t) q) →
     Q tt (set_bat bat t, d)) →
  wp (free_blocks m (Z.of_nat i)) Q (t, d).
Proof.
  induction rest as [|b rest IH]; intros i m t d n blks Q Hino Hlen Hr Hrest Hm Hi Hbat HQ.
  - assert (i = length blks) as -> by (apply (f_equal length) in Hrest; rewrite length_drop in Hrest; simpl in Hrest; lia).
    assert (Hz : ino_block (buffer_inode t) (Z.of_nat (length blks)) = Ok 0) by (apply (io_zero _ _ _ _ Hino); lia).
    assert (Hend : Q tt (t, d)).
    { specialize (HQ (buffer_bat t) Hbat). replace t with (set_bat (buffer_bat t) t) by (by destruct t).
      apply HQ. intros q _. rewrite bool_decide_false by set_solver. done. }
    destruct m; cbn [free_blocks]; do 3 wp_step; cbn [fst]; (eapply wp_pure; [exact Hz |]); cbv beta; simpl; wp_step; done.
  - assert (Hb : blks !! i = Some b) by (rewrite <- (Nat.add_0_r i), <- lookup_drop, <- Hrest; done).
    pose proof (Hr b (list_elem_of_lookup_2 _ _ _ Hb)) as Hbr. destruct m as [|m]; [simpl in Hm; lia |].
    cbn [free_blocks]. do 3 wp_step. cbn [fst]. eapply wp_pure; [by apply (io_block _ _ _ _ Hino) |].
    rewrite (proj2 (Z.eqb_neq b 0)) by lia. cbn [negb]. wp_step. apply on_bat_set_wp; [done | lia |].
    intros bat1 Hbat1 Hm1. replace (Z.of_nat i + 1) with (Z.of_nat (S i)) by lia.
    apply (IH (S i) m _ _ n blks); [done | done | done | | simpl in Hm; lia | | done |].
    + rewrite (drop_S _ _ _ Hb) in Hrest. by injection Hrest.
    + apply lookup_lt_Some in Hb. lia.
    + intros bat2 Hbat2 Hm2. apply (HQ bat2); [done |]. intros q H0. rewrite Hm2 by done.
      cbn [buffer_bat set_bat]. rewrite Hm1 by done. rewrite andb_assoc. f_equal.
      rewrite <- negb_orb. f_equal. destruct (Z.eqb_spec q b) as [->|Hne].
      * rewrite orb_true_r. symmetry. apply bool_decide_true, elem_of_cons. by left.
      * rewrite orb_false_r. apply bool_decide_ext. rewrite elem_of_cons. tauto.
Qed.

(** The directory without entry [k]: its inode number is 0, its name empty. *)
Definition clear_entry (k : Z) (md : bytes) : bytes := write_entry k [] 0 md.

Lemma clear_entry_Ok md k :
  length md = 512%nat → 0 ≤ k < TFS_MAX_FILES →
  (md ← put32 md (SIZEOF_DIRENTRY * k) 0; aset md (SIZEOF_DIRENTRY * k + 4) 0) = Ok (clear_entry k md).
Proof.
  unfold TFS_MAX_FILES, SIZEOF_DIRENTRY, clear_entry, write_entry. intros Hl Hk.
  set (p := Z.to_nat (20 * k)). replace (20 * k) with (Z.of_nat p) by lia.
  replace (Z.to_nat (Z.of_nat p + 4)) with (p + 4)%nat by lia.
  rewrite put32_Ok by lia. unfold mbind, res_bind. replace (Z.of_nat p + 4) with (Z.of_nat (p + 4)) by lia.
  rewrite aset_nat by (rewrite splice_length; simpl; lia). f_equal. change ([] ++ [0]) with [0].
  apply list_eq. intros j. rewrite splice_lookup by (rewrite splice_length; simpl; lia). rewrite splice_lookup by (simpl; lia).
  destruct (decide (j = p + 4)%nat) as [->|Hne].
  - rewrite list_lookup_insert_eq by (rewrite splice_length; simpl; lia).
    rewrite decide_False, decide_True by (simpl; lia). by rewrite Nat.sub_diag.
  - rewrite list_lookup_insert_ne by done. rewrite splice_lookup by (simpl; lia). simpl.
    repeat case_decide; done || lia.
Qed.

(** What [tfs_remove] of the file in entry [k] leaves. *)
Record removed (d : D) (k fid : Z) (blks : list Z) (d' : D) : Prop := {
  rm_dir : bd_block d' TFS_DIRECTORY_BLOCK = clear_entry k (bd_block d TFS_DIRECTORY_BLOCK);
  rm_mark q : 0 ≤ q → marked (bd_block d' TFS_ALLOCATION_BLOCK) q =
                negb (bool_decide (q ∈ fid :: blks)) && marked (bd_block d TFS_ALLOCATION_BLOCK) q;
}.

Lemma tfs_remove_wp t d filename a k fid n blks :
  dev_ok t d → lock t = 1 → dir_ok (bd_block d TFS_DIRECTORY_BLOCK) → is_bytes filename → cstr filename = Some a →
  find_idx (Z.to_nat TFS_MAX_FILES) 0 (λ i, bool_decide (dname (bd_block d TFS_DIRECTORY_BLOCK) i = Some a)) = Some k →
  md_inode (bd_block d TFS_DIRECTORY_BLOCK) k = Ok fid → 3 ≤ fid < totalblocks t →
  inode_ok (bd_block d fid) n blks 127 → (length blks < 127)%nat → (∀ b, b ∈ blks → 3 ≤ b < totalblocks t) →
  wp (tfs_remove filename) (λ r '(t', d'), lock t' = 1 ∧ totalblocks t' = totalblocks t ∧ donly [1; 2] d d' ∧
    ((r = VFS_ERROR ∧ ¬ bd_reliable d) ∨ r = VFS_OK ∧ removed d k fid blks d')) (t, d).
Proof.
  intros Hd Hlock Hdir Hfb Ha Hk Hki Hfid Hino Hlen Hr. pose proof Hd as (_ & _ & Htot & _).
  unfold tfs_remove. wp_step. apply P_wp; [done |]. wp_step.
  assert (Hfail : ∀ t' d', totalblocks t' = totalblocks t → lock t' = 0 → donly [1; 2] d d' → ¬ bd_reliable d →
    wp (unlock VFS_ERROR) (λ r '(t', d'), lock t' = 1 ∧ totalblocks t' = totalblocks t ∧ donly [1; 2] d d' ∧
    ((r = VFS_ERROR ∧ ¬ bd_reliable d) ∨ r = VFS_OK ∧ removed d k fid blks d')) (t', d')).
  { intros t' d' Ht Hl Ho Hrel. apply unlock_wp. split_and!; [simpl; lia | done | done | by left]. }
  set (md := bd_block d TFS_DIRECTORY_BLOCK) in *. set (bat := bd_block d TFS_ALLOCATION_BLOCK) in *.
  apply read_into_wp; [done | simpl; unfold TFS_DIRECTORY_BLOCK; lia | |
    intros d1 Hs1 Hr1; cbn [negb]; apply Hfail; [done | done | by apply dsame_only | done]].
  intros d1 Hs1. cbn [negb]. do 3 wp_step. cbn [fst buffer_md set_md].
  eapply wp_pure; [by apply find_name_Ok |]. cbv beta. fold md. rewrite Hk.
  apply find_idx_Some in Hk as (Hkr & _). change (0 + Z.of_nat (Z.to_nat TFS_MAX_FILES)) with TFS_MAX_FILES in Hkr.
  wp_step. apply read_into_wp; [by eapply (dev_ok_same _ d) | simpl; unfold TFS_ALLOCATION_BLOCK; lia | |].
  2: { intros d2 Hs2 Hr2; cbn [negb]; apply Hfail; [done | done | |].
       - apply dsame_only. by eapply dsame_trans.
       - intros Hrel. by apply Hr2, (ds_reliable _ _ Hs1). }
  intros d2 Hs2'. assert (Hs2 : dsame d d2) by (by eapply dsame_trans). clear Hs2'. rewrite (ds_block _ _ Hs1). fold bat.
  cbn [negb]. do 3 wp_step. cbn [fst buffer_md set_md set_bat]. eapply wp_pure; [exact Hki |]. cbv beta. wp_step.
  apply read_into_wp; [by eapply (dev_ok_same _ d) | simpl; lia | |].
  2: { intros d3 Hs3 Hr3; cbn [negb]; apply Hfail; [done | done | |].
       - apply dsame_only. by eapply dsame_trans.
       - intros Hrel. by apply Hr3, (ds_reliable _ _ Hs2). }
  intros d3 Hs3'. assert (Hs3 : dsame d d3) by (by eapply dsame_trans). clear Hs3'. rewrite (ds_block _ _ Hs2).
  assert (Hbat : bat_ok bat) by (destruct (block_ok t d 1 Hd); [lia |]; by constructor).
  cbn [negb]. wp_step. apply on_bat_set_wp; [done | lia |]. intros bat1 Hbat1 Hm1. cbn [buffer_bat set_inode set_bat] in Hm1.
  wp_step. change 0 with (Z.of_nat 0) at 1.
  apply (free_blocks_wp blks 0 _ _ _ n blks);
    [done | done | intros b Hb; specialize (Hr b Hb); lia | by rewrite drop_0 | unfold TFS_BLOCKS_MAX; lia | lia | done |].
  intros bat2 Hbat2 Hm2. cbn [buffer_bat set_bat] in Hm2.
  do 2 wp_step. cbn [fst buffer_md set_md set_bat set_inode].
  assert (Hmdl : length md = 512%nat) by apply Hdir. pose proof (clear_entry_Ok md k Hmdl Hkr) as Hclear.
  destruct (put32 md (SIZEOF_DIRENTRY * k) 0) as [md1| | | |] eqn:Hput; try done. unfold mbind, res_bind in Hclear.
  wp_step. eapply wp_pure; [done |]. cbv beta. wp_step. eapply wp_pure; [exact Hclear |]. wp_step. apply modt_wp. wp_step.
  destruct (write_entry_ok md k [] 0) as (Hdir' & _); [done | done | constructor | set_solver | simpl; lia | done |].
  apply write_from_wp; [by eapply (dev_ok_same _ d) | simpl; unfold TFS_ALLOCATION_BLOCK; lia | apply Hbat2 | apply Hbat2 | |].
  2: { intros d4 Hs4 Hr4. cbn [negb]. apply Hfail; [done | done | |].
       - apply dsame_only. by eapply dsame_trans.
       - intros Hrel. by apply Hr4, (ds_reliable _ _ Hs3). }
  intros d4 Ho4 Hb4. cbn [negb]. wp_step. assert (Ho4' : donly [1] d d4) by (by eapply donly_same).
  apply write_from_wp; [by eapply (dev_ok_frame t) | simpl; unfold TFS_DIRECTORY_BLOCK; lia | apply Hdir' | apply Hdir' | |].
  2: { intros d5 Hs5 Hr5. cbn [negb]. apply Hfail; [done | done | |].
       - eapply donly_trans; [eapply donly_sub; [exact Ho4' | set_solver] | by apply dsame_only].
       - intros Hrel. by apply Hr5, (do_reliable _ _ _ Ho4'). }
  intros d5 Ho5 Hb5. cbn [negb]. apply unlock_wp. split_and!; [done | done | |].
  { eapply donly_trans; [eapply donly_sub; [exact Ho4' | set_solver] | eapply donly_sub; [exact Ho5 |]].
    intros c ->%list_elem_of_singleton. unfold TFS_DIRECTORY_BLOCK. set_solver. }
  right. split; [done |]. constructor; [exact Hb5 |]. intros q H0.
  rewrite (do_block _ _ _ Ho5) by (unfold TFS_ALLOCATION_BLOCK, TFS_DIRECTORY_BLOCK; intros ?%list_elem_of_singleton; lia).
  rewrite Hb4. cbn [buffer_bat set_md set_bat]. fold bat. rewrite Hm2, Hm1 by done. rewrite andb_assoc. f_equal.
  rewrite <- negb_orb. f_equal. destruct (Z.eqb_spec q fid) as [->|Hne].
  - rewrite orb_true_r. symmetry. apply bool_decide_true, elem_of_cons. by left.
  - rewrite orb_false_r. apply bool_decide_ext. rewrite elem_of_cons. tauto.
Qed.

(** *** The properties *)

(** A volume that is mounted and idle: its device, lock and buffers, its
    directory, and the three system blocks marked as used. *)
Record volume_ok (t : tfs) (d : D) : Prop := {
  vo_dev : dev_ok t d;
  vo_lock : lock t = 1;
  vo_ino_len : length (buffer_inode t) = 512%nat;
  vo_ino_bytes : is_bytes (buffer_inode t);
  vo_dir : dir_ok (bd_block d TFS_DIRECTORY_BLOCK);
  vo_system q : 0 ≤ q < 3 → marked (bd_block d TFS_ALLOCATION_BLOCK) q = true;
}.

(** A file whose blocks are all marked as used. *)
Definition marked_file (t : tfs) (d : D) (fid n : Z) (blks : list Z) : Prop :=
  is_file t d fid n blks ∧ ∀ b, b ∈ fid :: blks → marked (bd_block d TFS_ALLOCATION_BLOCK) b = true.

Lemma find_idx_unique n p k :
  0 ≤ k < Z.of_nat n → p k = true → (∀ i, 0 ≤ i < Z.of_nat n → i ≠ k → p i = false) → find_idx n 0 p = Some k.
Proof. intros Hk Hp Ho. apply find_idx_Some. split; [lia |]. split; [done |]. intros i Hi. apply Ho; lia. Qed.

(** C13: [tfs_create] of a name and a size returns and releases the lock, and
    whatever the disk reports it changes no byte of any file whose blocks are
    marked in the allocation bitmap.  On a disk without errors it either fails
    and leaves the disk as it was, or succeeds, and then [tfs_open] of that name
    returns the new file: it has the size asked for, every byte of it is 0, its
    blocks were free before and are marked now, and no other block's mark
    changed. *)
Theorem tfs_create_open t d filename a size :
  volume_ok t d → is_bytes filename → cstr filename = Some a → (length a < 16)%nat → 0 ≤ size < 2 ^ 31 - 511 →
  ∃ r t1 d1, tfs_create filename size (t, d) = Ok (r, (t1, d1)) ∧ lock t1 = 1 ∧
    (∀ fid n blks, marked_file t d fid n blks →
       is_file t1 d1 fid n blks ∧ contents d1 n blks = contents d n blks) ∧
    (bd_reliable d →
       (r = VFS_ERROR ∧ dsame d d1) ∨
       (r = VFS_OK ∧ ∃ fid blks t2 d2, tfs_open filename (t1, d1) = Ok (fid, (t2, d2)) ∧
          marked_file t1 d1 fid size blks ∧ contents d1 size blks = replicate (Z.to_nat size) 0 ∧
          (∀ q, 0 ≤ q → marked (bd_block d1 TFS_ALLOCATION_BLOCK) q = true ↔
             q ∈ fid :: blks ∨ marked (bd_block d TFS_ALLOCATION_BLOCK) q = true) ∧
          (∀ b, b ∈ fid :: blks → marked (bd_block d TFS_ALLOCATION_BLOCK) b = false))).
Proof.
  intros [Hd Hlock Hil Hib Hdir Hsys] Hfb Ha Hla Hsize.
  pose proof (tfs_create_wp t d filename a size Hd Hlock Hil Hib Hdir Hsys Hfb Ha Hla Hsize) as Hwp.
  apply wp_iff in Hwp as (r & [t1 d1] & He & Hl1 & Ht1 & bs & Hbs & Ho & Hr). simpl in Hl1, Ht1, Ho, Hr.
  exists r, t1, d1. split_and!; [done | done | |].
  - intros fid n blks [Hf Hm].
    assert (Hout : ∀ b, b ∈ fid :: blks → b ∉ bs).
    { intros b Hb Hin. assert (3 ≤ b).
      { apply elem_of_cons in Hb as [->|Hb]; [apply (if_id _ _ _ _ _ Hf) | by apply (if_range _ _ _ _ _ Hf)]. }
      destruct (Hbs b Hin) as [->|[->|Hu]]; [done | done |]. by rewrite Hm in Hu. }
    split; [| eapply contents_only; [exact Ho |]; intros b Hb; apply Hout; set_solver].
    eapply is_file_only; [| exact Ho | apply Hout; set_solver]. destruct Hf. by constructor; rewrite ?Ht1.
  - intros Hrel. destruct Hr as [[-> [Hs|?]]|[-> (k & fid & blks & Hc)]]; [by left | done | right].
    destruct Hc as [Cf Ci Cz Cn Cm [Ck Ck0] Cd Cfr]. pose proof (if_id _ _ _ _ _ Cf) as Hfid.
    pose proof Hd as (_ & _ & Htot & _). split; [done |].
    destruct (write_entry_ok _ k a fid Hdir Ck (cstr_is_bytes _ _ Hfb Ha) (proj2 (proj1 (cstr_Some _ _) Ha)) Hla)
      as (Hdir1 & Hnk & Hik & Hno); [unfold is_u32; lia |]. rewrite <- Cd in Hdir1, Hnk, Hik, Hno.
    assert (Hd1 : dev_ok t1 d1) by (by eapply dev_ok_frame).
    pose proof (tfs_open_wp t1 d1 filename a Hd1 Hl1 Hdir1 Hfb Ha) as Hwp.
    apply wp_iff in Hwp as (r2 & [t2 d2] & He2 & _ & _ & _ & Hr2). cbv zeta in Hr2.
    destruct Hr2 as [[_ Hno2]|Hr2]; [by destruct Hno2; apply (do_reliable _ _ _ Ho) |].
    rewrite (find_idx_unique _ _ k) in Hr2.
    2: { unfold TFS_MAX_FILES in *. lia. }
    2: { by apply bool_decide_true. }
    2: { intros i Hi Hne. change (Z.of_nat (Z.to_nat TFS_MAX_FILES)) with TFS_MAX_FILES in Hi.
         apply bool_decide_false. rewrite (proj1 (Hno i Hi Hne)). by apply Cfr. }
    destruct Hr2 as (v & Hv & ->). rewrite Hik in Hv. injection Hv as <-. rewrite s32_small in He2 by (unfold is_s32; lia).
    exists fid, blks, t2, d2. split_and!; [done | | done | | done].
    + split; [destruct Cf; by constructor; rewrite ?Ht1 |]. intros b Hb.
      rewrite Cm by (apply elem_of_cons in Hb as [->|Hb]; [lia | pose proof (if_range _ _ _ _ _ Cf b Hb); lia]).
      by rewrite bool_decide_true.
    + intros q H0. rewrite Cm, orb_true_iff, bool_decide_eq_true by done. tauto.
Qed.

(** C29: [tfs_remove] of a name that exactly one directory entry has, when its
    file has fewer than 127 blocks, returns and releases the lock; it writes no
    block but the bitmap and the directory, so that no byte of any file
    changes.  On a disk without errors it succeeds: the blocks of the removed
    file are free, no other mark changed, and [tfs_open] of the name finds
    nothing. *)
Theorem tfs_remove_frees t d filename a k fid n blks :
  volume_ok t d → is_bytes filename → cstr filename = Some a → a ≠ [] →
  0 ≤ k < TFS_MAX_FILES → dname (bd_block d TFS_DIRECTORY_BLOCK) k = Some a →
  (∀ i, 0 ≤ i < TFS_MAX_FILES → i ≠ k → dname (bd_block d TFS_DIRECTORY_BLOCK) i ≠ Some a) →
  md_inode (bd_block d TFS_DIRECTORY_BLOCK) k = Ok fid →
  is_file t d fid n blks → inode_ok (bd_block d fid) n blks 127 → (length blks < 127)%nat →
  ∃ r t1 d1, tfs_remove filename (t, d) = Ok (r, (t1, d1)) ∧ lock t1 = 1 ∧
    (∀ fid' n' blks', is_file t d fid' n' blks' →
       is_file t1 d1 fid' n' blks' ∧ contents d1 n' blks' = contents d n' blks') ∧
    (bd_reliable d → r = VFS_OK ∧
       (∀ q, 0 ≤ q → marked (bd_block d1 TFS_ALLOCATION_BLOCK) q = true ↔
          (q ∉ fid :: blks) ∧ marked (bd_block d TFS_ALLOCATION_BLOCK) q = true) ∧
       ∃ t2 d2, tfs_open filename (t1, d1) = Ok (VFS_NOT_FOUND, (t2, d2))).
Proof.
  intros [Hd Hlock _ _ Hdir _] Hfb Ha Hne Hk Hnk Hno Hik Hf Hino Hlen.
  assert (Hidx : find_idx (Z.to_nat TFS_MAX_FILES) 0
    (λ i, bool_decide (dname (bd_block d TFS_DIRECTORY_BLOCK) i = Some a)) = Some k).
  { apply find_idx_unique; [done | by apply bool_decide_true |]. intros i Hi Hik'. apply bool_decide_false. by apply Hno. }
  pose proof (tfs_remove_wp t d filename a k fid n blks Hd Hlock Hdir Hfb Ha Hidx Hik
    (if_id _ _ _ _ _ Hf) Hino Hlen (if_range _ _ _ _ _ Hf)) as Hwp.
  apply wp_iff in Hwp as (r & [t1 d1] & He & Hl1 & Ht1 & Ho & Hr).
  exists r, t1, d1. split_and!; [done | done | |].
  - intros fid' n' blks' Hf'. assert (Hout : ∀ b, 3 ≤ b → b ∉ [1; 2]) by (intros b ?; set_solver by lia).
    split.
    + eapply is_file_only; [| exact Ho | apply Hout, (if_id _ _ _ _ _ Hf')]. destruct Hf'. by constructor; rewrite ?Ht1.
    + eapply contents_only; [exact Ho |]. intros b Hb. by apply Hout, (if_range _ _ _ _ _ Hf').
  - intros Hrel. destruct Hr as [[_ ?]|[-> [Rd Rm]]]; [done |]. split; [done |]. split.
    { intros q H0. rewrite Rm, andb_true_iff, negb_true_iff, bool_decide_eq_false by done. tauto. }
    destruct (write_entry_ok _ k [] 0 Hdir Hk) as (Hdir1 & Hnk1 & _ & Hno1);
      [constructor | set_solver | simpl; lia | done |].
    change (write_entry k [] 0) with (clear_entry k) in Hdir1, Hnk1, Hno1. rewrite <- Rd in Hdir1, Hnk1, Hno1.
    assert (Hd1 : dev_ok t1 d1) by (by eapply dev_ok_frame).
    pose proof (tfs_open_wp t1 d1 filename a Hd1 Hl1 Hdir1 Hfb Ha) as Hwp.
    apply wp_iff in Hwp as (r2 & [t2 d2] & He2 & _ & _ & _ & Hr2). cbv zeta in Hr2.
    destruct Hr2 as [[_ Hno2]|Hr2]; [by destruct Hno2; apply (do_reliable _ _ _ Ho) |].
    rewrite (proj2 (find_idx_None _ _ _)) in Hr2; [subst r2; by exists t2, d2 |].
    intros i Hi. change (0 + Z.of_nat (Z.to_nat TFS_MAX_FILES)) with TFS_MAX_FILES in Hi. apply bool_decide_false.
    destruct (decide (i = k)) as [->|Hi']; [rewrite Hnk1; congruence |]. rewrite (proj1 (Hno1 i Hi Hi')). by apply Hno.
Qed.

End tfs_dir.

(** ** An example *)

Lemma example_volume : volume_ok example_tfs example_disk.
Proof.
  constructor; [apply example_dev | done | done | | |].
  - apply Forall_replicate. by split.
  - constructor; [done | apply (bool_decide_unpack _); vm_compute; exact I |]. intros i Hi.
    assert (Hall : bool_decide (is_Some (dname (bd_block example_disk TFS_DIRECTORY_BLOCK) i)) = true); [| by apply bool_decide_eq_true in Hall].
    revert i Hi. apply range_check. vm_compute. done.
  - apply range_check. vm_compute. done.
Qed.

Lemma tfs_create_open_witness :
  ∃ r t1 d1, tfs_create [98; 0] 700 (example_tfs, example_disk) = Ok (r, (t1, d1)) ∧ lock t1 = 1 ∧
    ((r = VFS_ERROR ∧ dsame example_disk d1) ∨
     (r = VFS_OK ∧ ∃ fid blks t2 d2, tfs_open [98; 0] (t1, d1) = Ok (fid, (t2, d2)) ∧ marked_file t1 d1 fid 700 blks)).
Proof.
  destruct (tfs_create_open example_tfs example_disk [98; 0] [98] 700 example_volume) as (r & t1 & d1 & He & Hl & _ & Hr);
    [repeat constructor; lia | reflexivity | simpl; lia | lia |].
  exists r, t1, d1. split; [exact He |]. split; [exact Hl |]. destruct (Hr I) as [Herr|(Hok & fid & blks & t2 & d2 & Ho & Hm & _)].
  - left. exact Herr.
  - right. split; [exact Hok |]. exists fid, blks, t2, d2. split; [exact Ho | exact Hm].
Defined.

Lemma tfs_remove_frees_witness :
  ∃ r t1 d1, tfs_remove [97; 0] (example_tfs, example_disk) = Ok (r, (t1, d1)) ∧ r = VFS_OK ∧
    ∃ t2 d2, tfs_open [97; 0] (t1, d1) = Ok (VFS_NOT_FOUND, (t2, d2)).
Proof.
  destruct (tfs_remove_frees example_tfs example_disk [97; 0] [97] 0 3 600 [4; 5] example_volume)
    as (r & t1 & d1 & He & _ & _ & Hr).
  - repeat constructor; lia.
  - reflexivity.
  - discriminate.
  - unfold TFS_MAX_FILES. lia.
  - vm_compute. reflexivity.
  - intros i Hi Hne. assert (Hall : (i =? 0) || negb (bool_decide (dname (bd_block example_disk TFS_DIRECTORY_BLOCK) i = Some [97])) = true).
    { revert i Hi Hne. assert (Hc : ∀ i, 0 ≤ i < TFS_MAX_FILES →
        (i =? 0) || negb (bool_decide (dname (bd_block example_disk TFS_DIRECTORY_BLOCK) i = Some [97])) = true)
        by (apply range_check; vm_compute; reflexivity). intros i Hi _. apply Hc, Hi. }
    rewrite (proj2 (Z.eqb_neq i 0) Hne) in Hall. cbn [orb] in Hall. apply negb_true_iff in Hall. by apply bool_decide_eq_false in Hall.
  - vm_compute. reflexivity.
  - exact example_file.
  - constructor; [reflexivity | apply (bool_decide_unpack _); vm_compute; exact I | reflexivity | apply example_file |].
    intros i Hi. assert (Hall : match ino_block (bd_block example_disk 3) i with Ok z => (i <? 2) || (z =? 0) | _ => false end = true).
    { assert (Hc : ∀ i, 0 ≤ i < 127 → match ino_block (bd_block example_disk 3) i with Ok z => (i <? 2) || (z =? 0) | _ => false end = true)
        by (apply range_check; vm_compute; reflexivity). apply Hc. simpl in Hi. lia. }
    simpl in Hi. rewrite (proj2 (Z.ltb_ge i 2)) in Hall by lia.
    destruct (ino_block (bd_block example_disk 3) i) as [z| | | |]; try discriminate. apply Z.eqb_eq in Hall. by rewrite Hall.
  - simpl. lia.
  - exists r, t1, d1. split; [exact He |]. destruct (Hr I) as (Hok & _ & Ho). split; [exact Hok | exact Ho].
Defined.
