(* ===== verification/TfsInit.v ===== *)
(** * Mounting a trivial filesystem ([tfs_init] of src/buenos/fs/tfs.c)

    [tfs_init] takes a semaphore and a page of memory, reads the header block
    into the page and lays the structures [fs_t] and [tfs_t] and the three block
    buffers out in it.  The state is the semaphore table, the page pool and the
    disk. *)

From S2P Require Import Prelude Libc FsCodes Bitmap Kmalloc Pagepool Sched Semaphore SchedSpec Vm Tfs TfsSpec TfsDir.
Local Open Scope Z_scope.

Definition TFS_HEADER_BLOCK : Z := 0.
Definition SIZEOF_FS : Z := 52.
Definition SIZEOF_TFS : Z := 24.

(** What [tfs_init] leaves in the page: the address of the [fs_t], the name of
    the volume, the semaphore and the [tfs_t]. *)
Record mounted := mk_mounted { fs_addr : Z; volume_name : bytes; fs_lock : Z; fs_internal : tfs }.

Section init.
Context {Q : Type} `{SleepQueue Q} {P : Type} `{PageAlloc P} {D : Type} `{BlockDevice D}.

Record istate := mk_istate { i_sems : @sems Q; i_pool : P; i_disk : D }.

Definition on_isems {A} (m : K (@sems Q) A) : K istate A := zoom i_sems (λ x s, mk_istate x (i_pool s) (i_disk s)) m.
Definition on_ipool {A} (m : K P A) : K istate A := zoom i_pool (λ x s, mk_istate (i_sems s) x (i_disk s)) m.
Definition on_idisk {A} (m : K D A) : K istate A := zoom i_disk (λ x s, mk_istate (i_sems s) (i_pool s) x) m.

(** [page] is what the page of memory holds before, [name] the uninitialised
    array of the function; [None] is a null pointer. *)
Definition tfs_init (cpu : Z) (page name : bytes) : K istate (option mounted) :=
  size ← gets (λ s, bd_block_size (i_disk s));
  if negb (size =? TFS_BLOCK_SIZE) then mret None
  else
    sem ← on_isems (semaphore_create cpu 1);
    match sem with
    | None => mret None
    | Some sem =>
        addr ← on_ipool get_phys_page;
        if addr =? 0 then on_isems (semaphore_destroy sem);; mret None
        else
          let addr := ADDR_PHYS_TO_KERNEL addr in
          kassert (3 * TFS_BLOCK_SIZE + SIZEOF_TFS + SIZEOF_FS <=? PAGE_SIZE);;
          r ← on_idisk (bd_read TFS_HEADER_BLOCK);
          match r with
          | None =>
              on_isems (semaphore_destroy sem);;
              on_ipool (free_phys_page (ADDR_KERNEL_TO_PHYS addr));; mret None
          | Some header =>
              let page := splice 0 header page in
              magic ← pure (get32 page 0);
              if negb (magic =? TFS_MAGIC) then
                on_isems (semaphore_destroy sem);;
                on_ipool (free_phys_page (ADDR_KERNEL_TO_PHYS addr));; mret None
              else
                name ← pure (stringcopy name (drop 4 page) TFS_VOLUMENAME_MAX);
                let at_ off := take 512 (drop (Z.to_nat off) page) in
                total ← gets (λ s, bd_total_blocks (i_disk s));
                let tfs := mk_tfs (Z.min total (8 * TFS_BLOCK_SIZE)) 1 (at_ (SIZEOF_FS + SIZEOF_TFS))
                  (at_ (SIZEOF_FS + SIZEOF_TFS + TFS_BLOCK_SIZE)) (at_ (SIZEOF_FS + SIZEOF_TFS + 2 * TFS_BLOCK_SIZE)) in
                volume ← pure (stringcopy (take 16 (drop 4 page)) name VFS_NAME_LENGTH);
                mret (Some (mk_mounted addr volume sem tfs))
          end
    end.

(** ** Nothing is leaked *)

(** The address of the table of semaphores. *)
Context (table_addr : Z).

(** The semaphores in use, and their values. *)
Definition in_use (s : @sems Q) (j : Z) : option Z :=
  x ← semaphore_table s !! Z.to_nat j; if creator x =? -1 then None else Some (value x).

Lemma free_again s s' i j :
  in_use s i = None → in_use s' i = None → 0 ≤ i → 0 ≤ j →
  (∀ k, 0 ≤ k → k ≠ i → semaphore_table s' !! Z.to_nat k = semaphore_table s !! Z.to_nat k) →
  in_use s' j = in_use s j.
Proof.
  intros E E' Hi Hj Hoth. destruct (decide (j = i)) as [->|]; [congruence |].
  unfold in_use. by rewrite Hoth.
Qed.

(** All that was taken has been given back. *)
Record released (s s' : istate) : Prop := {
  rl_sems : sem_inv table_addr (i_sems s');
  rl_pool : alloc_inv (i_pool s');
  rl_disk : dsame (i_disk s) (i_disk s');
  rl_use j : 0 ≤ j → in_use (i_sems s') j = in_use (i_sems s) j;
  rl_free : free_pages (i_pool s') = free_pages (i_pool s);
}.

(** The semaphore [i] and the page [p] have been taken. *)
Record taken (s : istate) (i p : Z) (s' : istate) : Prop := {
  tk_sems : sem_inv table_addr (i_sems s');
  tk_new : in_use (i_sems s) i = None;
  tk_sem : ∃ c, sem_is (i_sems s') i (mk_sem 1 c);
  tk_others k : 0 ≤ k → k ≠ i →
    semaphore_table (i_sems s') !! Z.to_nat k = semaphore_table (i_sems s) !! Z.to_nat k;
  tk_pool : alloc_inv (i_pool s');
  tk_managed : managed (i_pool s') p;
  tk_page : p ∈ free_pages (i_pool s);
  tk_free : free_pages (i_pool s') = free_pages (i_pool s) ∖ {[p]};
  tk_disk : dsame (i_disk s) (i_disk s');
}.

(** No semaphore was free. *)
Lemma no_semaphore (s : istate) x :
  sem_inv table_addr (i_sems s) → sem_inv table_addr x → alloc_inv (i_pool s) → bd_inv (i_disk s) →
  semaphore_table x = semaphore_table (i_sems s) →
  (∀ j y, 0 ≤ j → semaphore_table (i_sems s) !! Z.to_nat j = Some y → creator y ≠ -1) →
  released s (mk_istate x (i_pool s) (i_disk s)) ∧ ¬ ∃ j, 0 ≤ j < 128 ∧ in_use (i_sems s) j = None.
Proof.
  intros Hs Hx Hp Hd Et Hall. split.
  - constructor; cbn [i_sems i_pool i_disk]; [done | done | by apply dsame_refl | | done].
    intros j Hj. unfold in_use. by rewrite Et.
  - intros (j & Hj & E). unfold in_use in E.
    destruct (lookup_lt_is_Some_2 (semaphore_table (i_sems s)) (Z.to_nat j)) as [y Hy].
    { destruct Hs as (_ & -> & _). lia. }
    rewrite Hy in E. cbn in E. apply (Hall j) in Hy; [| lia]. by rewrite (proj2 (Z.eqb_neq _ _) Hy) in E.
Qed.

Lemma destroyed_wp (s : istate) i c (Q' : unit → istate → Prop) :
  sem_inv table_addr (i_sems s) → sem_is (i_sems s) i (mk_sem 1 c) →
  (∀ x, sem_inv table_addr x → in_use x i = None →
    (∀ k, 0 ≤ k → k ≠ i → semaphore_table x !! Z.to_nat k = semaphore_table (i_sems s) !! Z.to_nat k) →
    Q' tt (mk_istate x (i_pool s) (i_disk s))) →
  wp (on_isems (semaphore_destroy i)) Q' s.
Proof.
  intros Hi Hs HQ. apply wp_zoom. eapply wp_mono; [by apply (destroy_free_wp table_addr _ i (mk_sem 1 c)) |].
  intros [] x (Hx & _ & Hfree & Hoth). apply HQ; [done | | done]. unfold in_use. by rewrite Hfree.
Qed.

Lemma give_back_wp s i p s' :
  taken s i p s' → 0 < p < 2 ^ 19 →
  wp (on_isems (semaphore_destroy i);;
      on_ipool (free_phys_page (ADDR_KERNEL_TO_PHYS (ADDR_PHYS_TO_KERNEL (p * PAGE_SIZE))));; mret None)
    (λ r s'', r = @None mounted ∧ released s s'') s'.
Proof.
  intros T Hp. destruct (tk_sem _ _ _ _ T) as [c Hc]. destruct (phys_kernel_addr (p * PAGE_SIZE)) as [-> ->].
  { unfold PAGE_SIZE. lia. }
  wp_step. eapply destroyed_wp; [apply T | exact Hc |]. intros x Hx Hnone Hoth.
  wp_step. apply wp_zoom. cbn [i_pool i_sems i_disk]. eapply wp_mono.
  { apply free_phys_page_spec; [apply T | apply T | rewrite (tk_free _ _ _ _ T); set_solver]. }
  intros [] y (Hy & _ & Ey). wp_step. split; [done |]. split; cbn [i_sems i_pool i_disk]; [done | done | apply T | |].
  - intros j Hj. eapply free_again; [apply T | exact Hnone | apply Hc | done |].
    intros k Hk Hne. rewrite Hoth by done. by apply T.
  - cbn in Ey. rewrite Ey, (tk_free _ _ _ _ T). apply set_eq. intros q. pose proof (tk_page _ _ _ _ T).
    destruct (decide (q = p)); set_solver.
Qed.

(** The characters before the first null, at most [n] of them. *)
Fixpoint label (n : nat) (l : bytes) : bytes :=
  match n, l with
  | S n', c :: l' => if c =? 0 then [] else c :: label n' l'
  | _, _ => []
  end.

(** A disk that holds a trivial filesystem: blocks of 512 bytes, the first of
    which starts with the magic number; and the name in that block. *)
Definition tfs_disk (d : D) : Prop :=
  bd_block_size d = 512 ∧ get32 (bd_block d TFS_HEADER_BLOCK) 0 = Ok TFS_MAGIC.
Definition disk_label (d : D) : bytes := label 15 (drop 4 (bd_block d TFS_HEADER_BLOCK)).

(** What a mounted volume is: the disk is one, and the volume has its name and
    its size. *)
Record mounts (s : istate) (f : mounted) : Prop := {
  mt_disk : tfs_disk (i_disk s);
  mt_name : cstr (volume_name f) = Some (disk_label (i_disk s));
  mt_total : totalblocks (fs_internal f) = Z.min (bd_total_blocks (i_disk s)) 4096;
  mt_lock : lock (fs_internal f) = 1;
  mt_inode : length (buffer_inode (fs_internal f)) = 512%nat;
  mt_bat : length (buffer_bat (fs_internal f)) = 512%nat;
  mt_md : length (buffer_md (fs_internal f)) = 512%nat;
}.

Lemma label_cstr n l a : cstr l = Some a → label n l = take n a.
Proof.
  revert l a. induction n as [|n IH]; intros l a Ha; [by destruct l |].
  destruct l as [|c l]; [done |]. cbn in Ha |- *. destruct (c =? 0); [by injection Ha as <- |].
  destruct (cstr l) as [b|] eqn:Eb; [| done]. injection Ha as <-. cbn. f_equal. by apply IH.
Qed.

Lemma label_app n l r : (n ≤ length l)%nat → label n (l ++ r) = label n l.
Proof.
  revert l. induction n as [|n IH]; intros [|c l] Hn; simpl in Hn; try lia; [by destruct r | done |].
  cbn. destruct (c =? 0); [done |]. by rewrite IH by lia.
Qed.

Lemma cstr_terminated l : ∃ a, cstr (l ++ [0]) = Some a.
Proof. induction l as [|c l [a Ha]]; [by eexists |]. cbn. destruct (c =? 0); [by eexists |]. rewrite Ha. by eexists. Qed.

Lemma label_no_null n l : 0 ∉ label n l.
Proof.
  revert l. induction n as [|n IH]; intros [|c l]; cbn; try set_solver.
  destruct (Z.eqb_spec c 0); [set_solver |]. apply not_elem_of_cons. by split; [congruence | apply IH].
Qed.

(** The bytes past those that are copied do not matter. *)
Lemma stringcopy_loop_app n k buflen t s r :
  (k + n ≤ length s)%nat → stringcopy_loop n (Z.of_nat k) buflen t (s ++ r) = stringcopy_loop n (Z.of_nat k) buflen t s.
Proof.
  revert k t. induction n as [|n IH]; intros k t Hk; [done |]. cbn [stringcopy_loop].
  destruct (lookup_lt_is_Some_2 s k) as [c Hc]; [lia |].
  rewrite (aget_nat _ _ _ Hc), (aget_nat _ k c) by (by rewrite lookup_app_l by lia).
  unfold mbind, res_bind. destruct (aset t (Z.of_nat k) c); try done. destruct (c =? 0); [done |].
  replace (Z.of_nat k + 1) with (Z.of_nat (S k)) by lia. apply IH. lia.
Qed.

Lemma get32_header (h m : bytes) : length h = 512%nat → length m = 4096%nat → get32 (splice 0 h m) 0 = get32 h 0.
Proof.
  intros Hh Hm. apply (get32_ext _ _ 0); [lia | rewrite splice_length; lia |].
  change (splice 0 h m) with (h ++ drop (length h) m). rewrite !drop_0. by rewrite take_app_le by lia.
Qed.

(** [stringcopy] into 16 bytes copies the label, whether or not a null follows. *)
Lemma stringcopy_label t s :
  (15 ≤ length s)%nat → (16 ≤ length t)%nat →
  ∃ t', stringcopy t s 16 = Ok t' ∧ cstr t' = Some (label 15 s) ∧ length t' = length t.
Proof.
  intros Hs Ht. destruct (cstr_terminated s) as [a Ha].
  assert (El : label 15 s = take 15 a) by (rewrite <- (label_app 15 s [0]) by done; by apply label_cstr).
  assert (Ec : stringcopy t s 16 = stringcopy t (s ++ [0]) 16) by (symmetry; apply (stringcopy_loop_app _ 0); simpl; lia).
  rewrite Ec, (stringcopy_Ok _ _ a) by (done || lia). eexists. split; [done |]. split.
  - rewrite El. apply cstr_Some. split; [eexists; unfold splice; cbn [take app]; by rewrite <- app_assoc |].
    rewrite <- El. apply label_no_null.
  - change (Z.to_nat (16 - 1)) with 15%nat. rewrite splice_length; rewrite ?length_app, ?length_take; cbn [length]; lia.
Qed.

Lemma label_length n l : (length (label n l) ≤ n)%nat.
Proof. revert l. induction n as [|n IH]; intros [|c l]; cbn; try lia. destruct (c =? 0); cbn; [lia |]. specialize (IH l). lia. Qed.

(** The part of [tfs_init] that fills the page. *)
Lemma layout_wp s i addr (page name header : bytes) :
  length page = 4096%nat → length name = 16%nat → length header = 512%nat →
  let page := splice 0 header page in
  let at_ off := take 512 (drop (Z.to_nat off) page) in
  wp (name ← pure (stringcopy name (drop 4 page) TFS_VOLUMENAME_MAX);
      total ← gets (λ s, bd_total_blocks (i_disk s));
      volume ← pure (stringcopy (take 16 (drop 4 page)) name VFS_NAME_LENGTH);
      mret (Some (mk_mounted addr volume i (mk_tfs (Z.min total (8 * TFS_BLOCK_SIZE)) 1 (at_ (SIZEOF_FS + SIZEOF_TFS))
        (at_ (SIZEOF_FS + SIZEOF_TFS + TFS_BLOCK_SIZE)) (at_ (SIZEOF_FS + SIZEOF_TFS + 2 * TFS_BLOCK_SIZE))))))
    (λ r s', s' = s ∧ ∃ f, r = Some f ∧ cstr (volume_name f) = Some (label 15 (drop 4 header)) ∧
      totalblocks (fs_internal f) = Z.min (bd_total_blocks (i_disk s)) 4096 ∧ lock (fs_internal f) = 1 ∧
      length (buffer_inode (fs_internal f)) = 512%nat ∧ length (buffer_bat (fs_internal f)) = 512%nat ∧
      length (buffer_md (fs_internal f)) = 512%nat ∧ fs_addr f = addr ∧ fs_lock f = i) s.
Proof.
  intros Hp Hn Hh p at_. assert (Hlp : length p = 4096%nat) by (unfold p; rewrite splice_length; simpl; lia).
  assert (El : label 15 (drop 4 p) = label 15 (drop 4 header)).
  { unfold p. change (splice 0 header page) with (header ++ drop (length header) page).
    rewrite drop_app_le by lia. apply label_app. rewrite length_drop. lia. }
  destruct (stringcopy_label name (drop 4 p)) as (n & En & Hcn & Hln); [rewrite length_drop; lia | lia |].
  destruct (stringcopy_label (take 16 (drop 4 p)) n) as (v & Ev & Hcv & _).
  { lia. } { rewrite length_take, length_drop. lia. }
  rewrite (label_cstr _ _ _ Hcn), take_ge, El in Hcv by apply label_length.
  wp_step. eapply wp_pure; [exact En |]. wp_steps. eapply wp_pure; [exact Ev |]. wp_step.
  split; [done |]. eexists. split; [done |]. cbn [volume_name fs_internal totalblocks lock buffer_inode buffer_bat buffer_md fs_addr fs_lock].
  repeat split; try done; unfold at_; rewrite length_take, length_drop, Hlp; done.
Qed.

Lemma tfs_init_wp s cpu page name :
  sem_inv table_addr (i_sems s) → alloc_inv (i_pool s) → bd_inv (i_disk s) → 0 < bd_total_blocks (i_disk s) →
  0 ≤ cpu < CONFIG_MAX_CPUS → length page = 4096%nat → length name = 16%nat →
  wp (tfs_init cpu page name) (λ r s',
    match r with
    | None => released s s' ∧
        (tfs_disk (i_disk s) → bd_reliable (i_disk s) →
         free_pages (i_pool s) ≠ ∅ → (∃ j, 0 ≤ j < 128 ∧ in_use (i_sems s) j = None) → False)
    | Some f => ∃ p, mounts s f ∧ taken s (fs_lock f) p s' ∧
        fs_addr f = ADDR_PHYS_TO_KERNEL (p * PAGE_SIZE)
    end) s.
Proof.
  intros Hs Hp Hd Htot Hcpu Hpage Hname. unfold tfs_init. wp_steps.
  destruct (negb (bd_block_size (i_disk s) =? TFS_BLOCK_SIZE)) eqn:Hbs; bool_prop; unfold TFS_BLOCK_SIZE in Hbs.
  { wp_step. split; [by constructor; try done; apply dsame_refl | by intros [? _]]. }
  wp_step. apply wp_zoom. eapply wp_mono; [by apply (create_wp table_addr) |].
  intros [i|] x (Hx & Eq & Hcr).
  2: { wp_step. destruct Hcr as [Et Hall]. by destruct (no_semaphore s x) as [Hrel Hno]. }
  destruct Hcr as ((y & Hy & Hfree) & [c Hsem] & Hoth).
  assert (Hnew : in_use (i_sems s) i = None) by (unfold in_use; rewrite Hy; cbn; by rewrite Hfree).
  wp_step. apply wp_zoom. cbn [i_sems i_pool i_disk]. eapply wp_mono; [by apply get_phys_page_spec |].
  intros addr P' (HP' & Hman & Haddr).
  destruct Haddr as [(-> & Hempty & ->) | (p & -> & Hpf & Ef)].
  { cbn [Z.eqb]. wp_step. eapply destroyed_wp; [exact Hx | exact Hsem |]. intros x' Hx' Hn' Ho'. wp_step.
    split; [| done]. constructor; cbn [i_sems i_pool i_disk]; [done | done | by apply dsame_refl | | done].
    intros j Hj. eapply free_again; [exact Hnew | exact Hn' | apply Hsem | done |].
    intros k Hk Hne. cbn in Ho'. by rewrite Ho', Hoth. }
  pose proof (managed_range _ _ Hp (free_pages_managed _ _ Hp Hpf)) as Hpr.
  rewrite (proj2 (Z.eqb_neq _ _)) by (unfold PAGE_SIZE; lia).
  wp_step. wp_step; [done |]. wp_step. apply wp_zoom. cbn [i_sems i_pool i_disk].
  eapply wp_mono; [apply bd_read_spec; [done | unfold TFS_HEADER_BLOCK; lia] |].
  intros r d' (Hd' & Et & Esz & Eb & Hr & Hrel).
  assert (Hds : dsame (i_disk s) d') by (constructor; try done; by intros [? _]%Hrel).
  set (s1 := mk_istate x P' d').
  assert (T : taken s i p s1).
  { constructor; try done; [by exists c | apply Hman, free_pages_managed; done]. }
  destruct r as [header|].
  2: { eapply wp_mono; [by apply give_back_wp |]. intros ? s2 [-> R]. split; [done |].
    intros _ Hre. by destruct (Hrel Hre) as [_ []]. }
  destruct Hr as [?|[= ->]]; [done |].
  destruct (bd_block_ok (i_disk s) 0 Hd) as [Hlen _]; [lia |]. rewrite Hbs in Hlen.
  assert (Hl512 : length (bd_block (i_disk s) TFS_HEADER_BLOCK) = 512%nat) by (unfold TFS_HEADER_BLOCK; lia).
  destruct (get32_Ok (bd_block (i_disk s) TFS_HEADER_BLOCK) 0) as (b0 & b1 & b2 & b3 & _ & Em); [lia |].
  set (magic := be32 b0 b1 b2 b3) in Em. change (Z.of_nat 0) with 0 in Em.
  wp_step. eapply wp_pure; [rewrite get32_header; [exact Em | done | done] |].
  destruct (negb (magic =? TFS_MAGIC)) eqn:Hm; bool_prop.
  - eapply wp_mono; [by apply give_back_wp |]. intros ? s2 [-> R]. split; [done |].
    intros [_ Ea]. congruence.
  - rewrite Hm in Em. eapply wp_mono; [by apply (layout_wp s1 i) |].
    intros ? s2 (-> & f & -> & Hv & Htt & Hlk & Hb1 & Hb2 & Hb3 & Eaddr & <-). exists p. split; [| done].
    constructor; try done. rewrite Htt. cbn [s1 i_disk]. by rewrite Et.
Qed.

(** C14: [tfs_init] mounts exactly the disks that hold a trivial filesystem,
    those with blocks of 512 bytes of which the first starts with the magic
    number, and gives back all it has taken when it fails.  It returns a null
    pointer with every semaphore, page and block as before; or the disk is one
    that holds a trivial filesystem, and it returns a volume with the size the
    disk has, at most 4096 blocks, the name in the header (up to its null byte,
    at most 15 characters of it), an open lock on a semaphore that was free, and buffers
    in a page that was free.  When the disk holds a trivial filesystem and is
    reliable, with a semaphore and a page to be had, it does not fail. *)
Theorem tfs_init_mounts s cpu page name :
  sem_inv table_addr (i_sems s) → alloc_inv (i_pool s) → bd_inv (i_disk s) → 0 < bd_total_blocks (i_disk s) →
  0 ≤ cpu < CONFIG_MAX_CPUS → length page = 4096%nat → length name = 16%nat →
  ∃ r s', tfs_init cpu page name s = Ok (r, s') ∧
    match r with
    | None => released s s' ∧
        (tfs_disk (i_disk s) → bd_reliable (i_disk s) →
         free_pages (i_pool s) ≠ ∅ → (∃ j, 0 ≤ j < 128 ∧ in_use (i_sems s) j = None) → False)
    | Some f => ∃ p, mounts s f ∧ taken s (fs_lock f) p s' ∧
        fs_addr f = ADDR_PHYS_TO_KERNEL (p * PAGE_SIZE)
    end.
Proof.
  intros Hs Hp Hd Ht Hc Hpg Hn. apply wp_iff. by apply tfs_init_wp.
Qed.
End init.

(** ** A volume is mounted *)

Definition example_volume_disk : ramdisk := {| rd_blocks :=
  pad [0; 0; 14; 161; 100; 105; 115; 107] :: replicate 7 (pad []) |}.
Definition example_init : @istate sched pagepool ramdisk := mk_istate example_sems example_pool example_volume_disk.

Lemma example_disk : tfs_disk example_volume_disk.
Proof. by split. Qed.

Lemma tfs_init_mounts_witness :
  ∃ f s', tfs_init 0 (replicate 4096 7) (replicate 16 9) example_init = Ok (Some f, s') ∧
    mounts example_init f ∧ cstr (volume_name f) = Some [100; 105; 115; 107] ∧ totalblocks (fs_internal f) = 8.
Proof.
  destruct (tfs_init_mounts 0x80100000 example_init 0 (replicate 4096 7) (replicate 16 9)) as (r & s' & E & Hr).
  - apply example_sems_inv.
  - apply example_pool_inv.
  - refine (bool_decide_unpack (Forall (λ b, length b = 512%nat ∧ is_bytes b) (rd_blocks example_volume_disk)) _).
    by vm_compute.
  - by vm_compute.
  - done.
  - by vm_compute.
  - by vm_compute.
  - destruct r as [f|].
    + destruct Hr as (p & M & _). exists f, s'. split; [exact E |]. split; [exact M |].
      split; [exact (mt_name _ _ M) | exact (mt_total _ _ M)].
    + clear E. destruct Hr as [_ []]; [apply example_disk | done | | by exists 1].
      intros Ef. destruct example_pool_inv as (_ & _ & _ & _ & Hn). unfold free_pages in Ef; cbn in Ef. by rewrite Ef in Hn.
Defined.
