(* ===== verification/Tfstool.v ===== *)
(** * The disk image tool (src/buenos/util/tfstool.c)

    A program for the host that makes images with a trivial filesystem and
    copies files between images and the host.  The state is the host's files
    by name; a file that is open is its name, since every access to the image
    sets the position first.  An operation gives [None] when the program ends
    with [exit(EXIT_FAILURE)], and the files as they are then.  The numbers in
    an image are read with [ntohl] and written with [htonl], so that they are
    the big-endian numbers of [Tfs] on any host.  The host is taken to read
    and write its files without errors.  Messages are left out. *)

From stdpp Require Import gmap.
From S2P Require Import Prelude Bitmap Libc Tfs TfsInit.
Local Open Scope Z_scope.

Definition TFS_MAX_FILESIZE : Z := TFS_BLOCK_SIZE * TFS_BLOCKS_MAX.

(** ** Operations that can end the program *)

Definition T (S A : Type) : Type := K S (option A).
Definition texit {S A} : T S A := mret (M := K S) None.
Definition tret {S A} (a : A) : T S A := mret (M := K S) (Some a).
Definition tlift {S A} (m : K S A) : T S A := λ s,
  match m s with Ok (a, s') => Ok (Some a, s') | Panic e => Panic e | Block => Block | Undef => Undef | NoFuel => NoFuel end.
Definition tbind {S A B} (m : T S A) (f : A → T S B) : T S B := λ s,
  match m s with
  | Ok (Some a, s') => f a s'
  | Ok (None, s') => Ok (None, s')
  | Panic e => Panic e | Block => Block | Undef => Undef | NoFuel => NoFuel
  end.
Declare Scope tool_scope.
Delimit Scope tool_scope with tool.
Notation "x ⇐ m ; k" := (tbind m (λ x, k)) (at level 20, m at level 100, k at level 200, right associativity) : tool_scope.
Notation "m ;;; k" := (tbind m (λ _, k)) (at level 100, k at level 200, right associativity) : tool_scope.
Local Open Scope tool_scope.

(** A computation of [res]. *)
Definition tpure {S A} (r : res A) : T S A := tlift (pure r).

(** ** The host *)

Abbreviation host := (gmap (list Z) (list Z)).
Inductive fmode := mode_r | mode_update | mode_w.

(** The bytes of a file that is open. *)
Definition file_of (name : bytes) : K host bytes := λ h,
  match h !! name with Some f => Ok (f, h) | None => Undef end.
Definition set_file (name f : bytes) : K host unit := modify (insert name f).

(** [strncmp] and [strncpy] of the host: the sign of the result is that of the
    first difference, and the rest of the target is filled with zeros. *)
Fixpoint c_strncmp (s1 s2 : bytes) (n : nat) : res Z :=
  match n with
  | O => Ok 0
  | S n' =>
      match s1, s2 with
      | c1 :: s1', c2 :: s2' =>
          if negb (c1 =? c2) then Ok (c1 - c2) else if c1 =? 0 then Ok 0 else c_strncmp s1' s2' n'
      | _, _ => Undef
      end
  end.
Fixpoint c_strncpy (src : bytes) (n : nat) : res bytes :=
  match n with
  | O => Ok []
  | S n' =>
      match src with
      | c :: src' => if c =? 0 then Ok (replicate n 0) else r ← c_strncpy src' n'; Ok (c :: r)
      | [] => Undef
      end
  end.

(** ** Bitmaps, on words as [ntohl] gives them

    A shift by a negative number is undefined. *)

Definition tool_bitmap_init (size : Z) : K bitmap_t unit :=
  for_each (Z.to_nat (Z.quot (size + 31) 32)) 0 (λ i,
    b ← gets id; b' ← pure (aset b i 0); modify (λ _, b')).

Definition tool_bitmap_get (pos : Z) : K bitmap_t Z :=
  b ← gets id;
  w ← pure (aget b (Z.quot pos 32));
  if Z.rem pos 32 <? 0 then pure Undef else mret (Z.land (Z.shiftr w (Z.rem pos 32)) 1).

Definition tool_bitmap_set (pos value : Z) : T bitmap_t unit :=
  let i := Z.quot pos 32 in
  let j := Z.rem pos 32 in
  if j <? 0 then tpure Undef
  else if value =? 0 then
    tlift (b ← gets id; w ← pure (aget b i); b' ← pure (aset b i (Z.land w (u32 (Z.lnot (Z.shiftl 1 j))))); modify (λ _, b'))
  else if value =? 1 then
    tlift (b ← gets id; w ← pure (aget b i); b' ← pure (aset b i (Z.lor w (u32 (Z.shiftl 1 j)))); modify (λ _, b'))
  else texit.

(** The loop of [bitmap_findnset] from [i] on, [k] turns; -1 when it ends. *)
Fixpoint findnset_loop (k : nat) (i : Z) : T bitmap_t Z :=
  match k with
  | O => tret (-1)
  | S k' =>
      v ⇐ tlift (tool_bitmap_get i);
      if v =? 0 then tool_bitmap_set i 1;;; tret i else findnset_loop k' (i + 1)
  end.
Definition tool_bitmap_findnset (l : Z) : T bitmap_t Z := findnset_loop (Z.to_nat l) 0.

(** A bitmap operation on the bytes of a block. *)
Definition on_block {A} (block : bytes) (m : T bitmap_t A) : T host (A * bytes) := λ h,
  match m (to_words block) with
  | Ok (Some a, ws) => Ok (Some (a, of_words ws), h)
  | Ok (None, _) => Ok (None, h)
  | Panic e => Panic e | Block => Block | Undef => Undef | NoFuel => NoFuel
  end.

(** ** Files *)

Section tool.
(** What the user may open. *)
Context (may_open : bytes → fmode → bool).

Definition fopen (name : bytes) (mode : fmode) : K host bool :=
  h ← gets id;
  if negb (may_open name mode) then mret false
  else
    match mode with
    | mode_w => set_file name [];; mret true
    | _ => mret (bool_decide (is_Some (h !! name)))
    end.

Definition openfile (name : bytes) (mode : fmode) : T host unit :=
  ok ⇐ tlift (fopen name mode);
  if ok : bool then tret tt else texit.

Definition getfilesize (name : bytes) : K host Z := f ← file_of name; mret (Z.of_nat (length f)).
Definition tfstool_numblocks (disk : bytes) : K host Z := n ← getfilesize disk; mret (Z.quot n TFS_BLOCK_SIZE).

(** [fseek]; a position before the start of the file is an error. *)
Definition seek_block (block : Z) : T host nat :=
  off ⇐ tpure (int_op (block * TFS_BLOCK_SIZE));
  if off <? 0 then texit else tret (Z.to_nat off).

(** The result is the new contents of the array [data]. *)
Definition read_block (disk data : bytes) (block : Z) : T host bytes :=
  off ⇐ seek_block block;
  f ⇐ tlift (file_of disk);
  tret (splice 0 (take 512 (drop off f)) data).

(** What a file holds when [data] is written at [off]. *)
Definition file_put (off : nat) (data f : bytes) : bytes :=
  splice off data (f ++ replicate (off + length data - length f) 0).

Definition write_block (disk : bytes) (data : option bytes) (block : Z) : T host unit :=
  off ⇐ seek_block block;
  f ⇐ tlift (file_of disk);
  tlift (set_file disk (file_put off (default (replicate 512 0) data) f)).

(** ** Commands *)

(** The loop that writes empty blocks from block [i] on. *)
Fixpoint zero_blocks (disk : bytes) (k : nat) (i : Z) : T host unit :=
  match k with
  | O => tret tt
  | S k' => write_block disk None i;;; zero_blocks disk k' (i + 1)
  end.

(** [volumename] is the array of 16 characters, [allocation0] what the
    uninitialised array of words holds. *)
Definition tfstool_createvol (diskfilename : bytes) (size : Z) (volumename : bytes) (allocation0 : list Z) : T host unit :=
  allocation ⇐ tpure (r ← tool_bitmap_init (8 * TFS_BLOCK_SIZE) allocation0; Ok (snd r));
  there ⇐ tlift (fopen diskfilename mode_r);
  if there : bool then texit
  else if size <? 3 then texit
  else
    openfile diskfilename mode_w;;;
    let header := splice 0 (bytes32 TFS_MAGIC) (replicate 512 0) in
    let header := splice 4 (take (Z.to_nat TFS_VOLUMENAME_MAX) volumename) header in
    write_block diskfilename (Some header) TFS_HEADER_BLOCK;;;
    allocation ⇐ on_block (of_words allocation) (tool_bitmap_set TFS_HEADER_BLOCK 1);
    allocation ⇐ on_block (snd allocation) (tool_bitmap_set TFS_ALLOCATION_BLOCK 1);
    allocation ⇐ on_block (snd allocation) (tool_bitmap_set TFS_DIRECTORY_BLOCK 1);
    write_block diskfilename (Some (splice 0 (take 512 (snd allocation)) (replicate 512 0))) TFS_ALLOCATION_BLOCK;;;
    write_block diskfilename None TFS_DIRECTORY_BLOCK;;;
    zero_blocks diskfilename (Z.to_nat (size - 3)) 3.

(** The name of a directory entry, 16 characters. *)
Definition entry_name (md : bytes) (i : Z) : bytes := take 16 (md_name md i).

(** The loop of [tfstool_write] over the directory from entry [i] on: [None]
    when the name exists, else the first free entry or -1. *)
Fixpoint scan_write (k : nat) (i index : Z) (md target : bytes) : res (option Z) :=
  match k with
  | O => Ok (Some index)
  | S k' =>
      ino ← md_inode md i;
      let index := if (ino =? 0) && (index =? -1) then i else index in
      c ← c_strncmp (entry_name md i) target (Z.to_nat TFS_FILENAME_MAX);
      if c =? 0 then Ok None else scan_write k' (i + 1) index md target
  end.

(** The loop of [tfstool_write] over the blocks of the file from [i] on; the
    result is [writeok], [filesize], and the blocks of the inode and of the
    bitmap. *)
Fixpoint copy_in (k : nat) (disk source : bytes) (num_blocks i filesize : Z) (data inode bat : bytes) :
    T host (bool * Z * bytes * bytes) :=
  match k with
  | O => tpure NoFuel
  | S k' =>
      if (i <? num_blocks) && (filesize <? TFS_MAX_FILESIZE) then
        r ⇐ on_block bat (tool_bitmap_findnset (s32 num_blocks));
        let bnum := u32 (fst r) in
        let bat := snd r in
        if (2 <? bnum) && (bnum <? num_blocks) then
          src ⇐ tlift (file_of source);
          let chunk := take 512 (drop (Z.to_nat filesize) src) in
          let filesize := u32 (filesize + Z.of_nat (length chunk)) in
          let data := splice 0 chunk data in
          write_block disk (Some data) (s32 bnum);;;
          inode ⇐ tpure (put32 inode (4 + 4 * i) bnum);
          if (length chunk <? 512)%nat then tret (true, filesize, inode, bat)
          else copy_in k' disk source num_blocks (i + 1) filesize data inode bat
        else tret (false, filesize, inode, bat)
      else tret (true, filesize, inode, bat)
  end.

(** [target] is the array of 16 characters; the other arguments are what the
    uninitialised arrays hold. *)
Definition tfstool_write (diskfilename source target : bytes) (master_dir0 allocation0 data0 : bytes) : T host unit :=
  openfile diskfilename mode_update;;;
  openfile source mode_r;;;
  source_filesize ⇐ tlift (getfilesize source);
  let inode_block := replicate 512 0 in
  master_dir ⇐ read_block diskfilename master_dir0 TFS_DIRECTORY_BLOCK;
  scan ⇐ tpure (scan_write (Z.to_nat TFS_MAX_FILES) 0 (-1) master_dir target);
  match scan with
  | None => texit
  | Some index =>
      if index <? 0 then texit
      else
        bat ⇐ read_block diskfilename allocation0 TFS_ALLOCATION_BLOCK;
        num_blocks ⇐ tlift (tfstool_numblocks diskfilename);
        let num_blocks := u32 num_blocks in
        r ⇐ on_block bat (tool_bitmap_findnset (s32 num_blocks));
        let inode_bnum := u32 (fst r) in
        if (2 <? inode_bnum) && (inode_bnum <? num_blocks) then
          w ⇐ copy_in 128 diskfilename source num_blocks 0 0 data0 inode_block (snd r);
          match w with
          | (writeok, filesize, inode_block, bat) =>
              if negb (filesize =? source_filesize) then texit
              else if negb writeok then texit
              else
                inode_block ⇐ tpure (put32 inode_block 0 filesize);
                write_block diskfilename (Some inode_block) (s32 inode_bnum);;;
                md ⇐ tpure (put32 master_dir (SIZEOF_DIRENTRY * index) inode_bnum);
                name ⇐ tpure (c_strncpy target (Z.to_nat TFS_FILENAME_MAX));
                let md := splice (Z.to_nat (SIZEOF_DIRENTRY * index + 4)) name md in
                write_block diskfilename (Some md) TFS_DIRECTORY_BLOCK;;;
                write_block diskfilename (Some bat) TFS_ALLOCATION_BLOCK
          end
        else texit
  end.

(** The first entry with the name, or -1. *)
Fixpoint scan_name (k : nat) (i : Z) (md name : bytes) : res Z :=
  match k with
  | O => Ok (-1)
  | S k' =>
      c ← c_strncmp (entry_name md i) name (Z.to_nat TFS_FILENAME_MAX);
      if c =? 0 then Ok i else scan_name k' (i + 1) md name
  end.

(** The loop of [tfstool_read] from block [i] of the file on. *)
Fixpoint copy_out (k : nat) (disk target inode data : bytes) (i filesize count : Z) : T host Z :=
  match k with
  | O => tret count
  | S k' =>
      bnum ⇐ tpure (ino_block inode i);
      if bnum =? 0 then tret count
      else
        data ⇐ read_block disk data (s32 bnum);
        let size := Z.min (u32 (filesize - count)) TFS_BLOCK_SIZE in
        f ⇐ tlift (file_of target);
        tlift (set_file target (f ++ take (Z.to_nat size) data));;;
        copy_out k' disk target inode data (i + 1) filesize (count + size)
  end.

Definition tfstool_read (diskfilename source target : bytes) (master_dir0 inode0 data0 : bytes) : T host unit :=
  openfile diskfilename mode_update;;;
  openfile target mode_w;;;
  master_dir ⇐ read_block diskfilename master_dir0 TFS_DIRECTORY_BLOCK;
  index ⇐ tpure (scan_name (Z.to_nat TFS_MAX_FILES) 0 master_dir source);
  if index <? 0 then texit
  else
    ino ⇐ tpure (md_inode master_dir index);
    inode ⇐ read_block diskfilename inode0 (s32 ino);
    filesize ⇐ tpure (ino_filesize inode);
    copy_out (Z.to_nat TFS_BLOCKS_MAX) diskfilename target inode data0 0 filesize 0;;;
    tret tt.

(** The blocks of an inode up to the first 0. *)
Fixpoint inode_blocks (k : nat) (i : Z) (inode : bytes) : res (list Z) :=
  match k with
  | O => Ok []
  | S k' => b ← ino_block inode i; if b =? 0 then Ok [] else l ← inode_blocks k' (i + 1) inode; Ok (b :: l)
  end.

(** The rows that [tfstool_list] prints: the inode, the size, the name and the
    blocks of each file. *)
Fixpoint list_rows (k : nat) (i : Z) (disk master_dir data0 : bytes) : T host (list (Z * Z * bytes * list Z)) :=
  match k with
  | O => tret []
  | S k' =>
      ino ⇐ tpure (md_inode master_dir i);
      if 0 <? ino then
        inode ⇐ read_block disk data0 (s32 ino);
        size ⇐ tpure (ino_filesize inode);
        name ⇐ tpure (match cstr (md_name master_dir i) with Some a => Ok a | None => Undef end);
        blocks ⇐ tpure (inode_blocks (Z.to_nat TFS_BLOCKS_MAX) 0 inode);
        rows ⇐ list_rows k' (i + 1) disk master_dir data0;
        tret ((ino, size, name, blocks) :: rows)
      else list_rows k' (i + 1) disk master_dir data0
  end.
Definition tfstool_list (diskfilename : bytes) (header0 master_dir0 data0 : bytes) : T host (list (Z * Z * bytes * list Z)) :=
  openfile diskfilename mode_r;;;
  _ ⇐ read_block diskfilename header0 TFS_HEADER_BLOCK;
  master_dir ⇐ read_block diskfilename master_dir0 TFS_DIRECTORY_BLOCK;
  _ ⇐ tlift (tfstool_numblocks diskfilename);
  list_rows (Z.to_nat TFS_MAX_FILES) 0 diskfilename master_dir data0.

(** The loop of [tfstool_delete] that clears the marks of the blocks. *)
Fixpoint release_blocks (k : nat) (i : Z) (inode bat : bytes) : T host bytes :=
  match k with
  | O => tret bat
  | S k' =>
      b ⇐ tpure (ino_block inode i);
      if b =? 0 then tret bat
      else r ⇐ on_block bat (tool_bitmap_set (s32 b) 0); release_blocks k' (i + 1) inode (snd r)
  end.

Definition tfstool_delete (diskfilename filename : bytes) : T host unit :=
  let zeros := replicate 512 0 in
  openfile diskfilename mode_update;;;
  master_dir ⇐ read_block diskfilename zeros TFS_DIRECTORY_BLOCK;
  index ⇐ tpure (scan_name (Z.to_nat TFS_MAX_FILES) 0 master_dir filename);
  if index <? 0 then texit
  else
    bat ⇐ read_block diskfilename zeros TFS_ALLOCATION_BLOCK;
    inode_bn ⇐ tpure (md_inode master_dir index);
    inode ⇐ read_block diskfilename zeros (s32 inode_bn);
    bat ⇐ release_blocks (Z.to_nat TFS_BLOCKS_MAX) 0 inode bat;
    r ⇐ on_block bat (tool_bitmap_set (s32 inode_bn) 0);
    md ⇐ tpure (put32 master_dir (SIZEOF_DIRENTRY * index) 0);
    md ⇐ tpure (aset md (SIZEOF_DIRENTRY * index + 4) 0);
    write_block diskfilename (Some (snd r)) TFS_ALLOCATION_BLOCK;;;
    write_block diskfilename (Some md) TFS_DIRECTORY_BLOCK.

(** ** The command line *)

(** [strtoul] with base 10, on 64 bits: white space, a sign, and the digits up
    to the first other character. *)
Fixpoint skip_space (s : bytes) : bytes :=
  match s with
  | ch :: s' => if (ch =? 32) || ((9 <=? ch) && (ch <=? 13)) then skip_space s' else s
  | [] => []
  end.
Fixpoint digits_value (n : Z) (s : bytes) : Z :=
  match s with
  | ch :: s' => if (48 <=? ch) && (ch <=? 57) then digits_value (10 * n + (ch - 48)) s' else n
  | [] => n
  end.
Definition ULONG_MAX : Z := 2 ^ 64 - 1.
Definition strtoul (s : bytes) : Z :=
  let value := λ sign s, let n := digits_value 0 s in if ULONG_MAX <? n then ULONG_MAX else (sign * n) `mod` 2 ^ 64 in
  match skip_space s with
  | 43 :: s' => value 1 s'
  | 45 :: s' => value (-1) s'
  | s' => value 1 s'
  end.

Definition FILENAME_MAX : Z := 4096.

(** The string in an array of characters. *)
Definition string_in (a : bytes) : res bytes := match cstr a with Some s => Ok s | None => Undef end.

(** [strncmp(argv[1], command, strlen(command)) == 0] *)
Definition is_command (arg command : bytes) : res bool :=
  c ← c_strncmp arg command (length command); Ok (c =? 0).

(** What the local arrays of the commands hold before they are filled. *)
Record locals := mkLocals { master_dir0 : bytes; allocation_block0 : bytes; inode_block0 : bytes; data_block0 : bytes; header_block0 : bytes; bitmap0 : list Z }.

Definition print_usage {A} : T host A := texit.

(** [argv] is the list of the arguments, each with its terminating 0. *)
Definition main (x : locals) (argv : list bytes) : T host unit :=
  let argc := Z.of_nat (length argv) in
  let arg := λ i, aget argv i in
  if argc <? 3 then print_usage
  else
    command ⇐ tpure (arg 1);
    create ⇐ tpure (is_command command [99; 114; 101; 97; 116; 101]);
    if create : bool then
      if negb (argc =? 5) then print_usage
      else
        diskfilename ⇐ tpure (a ← arg 2; r ← c_strncpy a (Z.to_nat FILENAME_MAX); string_in r);
        size ⇐ tpure (a ← arg 3; Ok (strtoul a));
        volumename ⇐ tpure (a ← arg 4; r ← c_strncpy a (Z.to_nat TFS_VOLUMENAME_MAX); aset r (TFS_FILENAME_MAX - 1) 0);
        tfstool_createvol diskfilename (s32 size) volumename (bitmap0 x)
    else
    list_ ⇐ tpure (is_command command [108; 105; 115; 116]);
    if list_ : bool then
      if negb (argc =? 3) then print_usage
      else
        diskfilename ⇐ tpure (a ← arg 2; r ← c_strncpy a (Z.to_nat FILENAME_MAX); string_in r);
        tfstool_list diskfilename (header_block0 x) (master_dir0 x) (data_block0 x);;; tret tt
    else
    write ⇐ tpure (is_command command [119; 114; 105; 116; 101]);
    if write : bool then
      if (argc <? 4) || (5 <? argc) then print_usage
      else
        diskfilename ⇐ tpure (a ← arg 2; r ← c_strncpy a (Z.to_nat FILENAME_MAX); string_in r);
        localfilename ⇐ tpure (a ← arg 3; c_strncpy a (Z.to_nat FILENAME_MAX));
        tfsfilename ⇐ tpure (a ← (if argc =? 5 then arg 4 else Ok localfilename);
                             r ← c_strncpy a (Z.to_nat TFS_FILENAME_MAX); aset r (TFS_FILENAME_MAX - 1) 0);
        localfilename ⇐ tpure (string_in localfilename);
        tfstool_write diskfilename localfilename tfsfilename (master_dir0 x) (allocation_block0 x) (data_block0 x)
    else
    read ⇐ tpure (is_command command [114; 101; 97; 100]);
    if read : bool then
      if (argc <? 4) || (5 <? argc) then print_usage
      else
        diskfilename ⇐ tpure (a ← arg 2; r ← c_strncpy a (Z.to_nat FILENAME_MAX); string_in r);
        tfsfilename ⇐ tpure (a ← arg 3; c_strncpy a (Z.to_nat TFS_FILENAME_MAX));
        localfilename ⇐ tpure (a ← (if argc =? 5 then arg 4 else Ok tfsfilename); r ← c_strncpy a (Z.to_nat FILENAME_MAX); string_in r);
        tfstool_read diskfilename tfsfilename localfilename (master_dir0 x) (inode_block0 x) (data_block0 x)
    else
    delete ⇐ tpure (is_command command [100; 101; 108; 101; 116; 101]);
    if delete : bool then
      if negb (argc =? 4) then print_usage
      else
        diskfilename ⇐ tpure (a ← arg 2; r ← c_strncpy a (Z.to_nat FILENAME_MAX); string_in r);
        tfsfilename ⇐ tpure (a ← arg 3; c_strncpy a (Z.to_nat TFS_FILENAME_MAX));
        tfstool_delete diskfilename tfsfilename
    else print_usage.

End tool.
