(* ===== verification/TfstoolSpec.v ===== *)
(** * The disk image tool and the kernel agree

    An image that the tool makes is a volume that the kernel mounts; a file
    that the tool writes into an image is found and read by the kernel, and by
    the tool itself, as it was; deleting it frees its blocks.  An image file is
    a disk: the class [BlockDevice] has an instance for it, and what an image
    holds is stated with the predicates of [TfsSpec] and [TfsDir]. *)

From stdpp Require Import gmap.
From S2P Require Import Prelude Bitmap Libc FsCodes Kmalloc Pagepool Sched Semaphore SchedSpec Vm Tfs TfsSpec TfsDir TfsInit Tfstool.
Local Open Scope Z_scope.
Local Open Scope tool_scope.

(** ** Operations that can end the program *)

Lemma tbind_wp {S A B} (m : T S A) (f : A → T S B) Q s :
  wp m (λ r s', match r with Some a => wp (f a) Q s' | None => Q None s' end) s → wp (tbind m f) Q s.
Proof. unfold wp, tbind. by destruct (m s) as [[[a|] s']| | | |]. Qed.

Lemma tlift_wp {S A} (m : K S A) (Q : option A → S → Prop) s : wp m (λ a, Q (Some a)) s → wp (tlift m) Q s.
Proof. unfold wp, tlift. by destruct (m s) as [[a s']| | | |]. Qed.

Lemma tpure_wp {S A B} (r : res A) a (f : A → T S B) Q s : r = Ok a → wp (f a) Q s → wp (tbind (tpure r) f) Q s.
Proof. intros ->. done. Qed.

(** ** Bitmaps: the tool's are the kernel's *)

Lemma tool_get_eq pos ws : 0 ≤ pos → tool_bitmap_get pos ws = bitmap_get pos ws.
Proof.
  intros Hp. unfold bitmap_get, tool_bitmap_get. rewrite bind_kassert by (by apply Z.leb_le).
  by rewrite (proj2 (Z.ltb_ge _ _) (Z.rem_nonneg pos 32 ltac:(done) Hp)).
Qed.

Lemma tool_set_eq pos v ws : 0 ≤ pos → tool_bitmap_set pos (Z.b2z v) ws = tlift (bitmap_set pos (Z.b2z v)) ws.
Proof.
  intros Hp. unfold tlift at 1, bitmap_set, tool_bitmap_set. rewrite bind_kassert by (by apply Z.leb_le).
  rewrite (proj2 (Z.ltb_ge _ _) (Z.rem_nonneg pos 32 ltac:(done) Hp)). by destruct v.
Qed.

Lemma tool_findnset_wp l ws :
  bitmap_holds l ws → wp (tool_bitmap_findnset l) (λ r ws', ∃ z, r = Some z ∧ findnset_post l ws z ws') ws.
Proof.
  intros (Hl & Hwf & Hroom). unfold tool_bitmap_findnset.
  assert (Hgen : ∀ k i, 0 ≤ i → i + Z.of_nat k = l → set_below ws i →
    wp (findnset_loop k i) (λ r ws', ∃ z, r = Some z ∧ findnset_post l ws z ws') ws).
  { induction k as [|k IH]; intros i Hi Hk Hb; cbn [findnset_loop].
    - exists (-1). split; [done |]. apply (findnset_post_miss _ _ i); [lia | done].
    - apply tbind_wp, tlift_wp. unfold wp at 1. rewrite tool_get_eq, bitmap_get_spec by lia.
      destruct (bit ws i) eqn:Hbit; cbn [Z.b2z Z.eqb].
      + apply IH; [lia | lia | by apply set_below_S].
      + apply tbind_wp. unfold wp at 1. rewrite (tool_set_eq i true) by done.
        destruct (bitmap_set_spec (length ws) ws i true) as (b' & Hs & ? & ?); [done | lia |].
        unfold tlift. rewrite Hs. exists i. split; [done |]. apply findnset_post_hit; try done. lia. }
  apply Hgen; [lia | lia |]. intros q ?. lia.
Qed.

Lemma block_findnset_wp (bat : bytes) (l : Z) (h : host) (Q : option (Z * bytes) → host → Prop) :
  bat_ok bat → 0 ≤ l ≤ 4096 →
  (∀ p bat', 0 ≤ p < l → marked bat p = false → bat_ok bat' →
     (∀ q, 0 ≤ q → marked bat' q = (q =? p) || marked bat q) → Q (Some (p, bat')) h) →
  ((∀ q, 0 ≤ q < l → marked bat q = true) → Q (Some (-1, bat)) h) →
  wp (on_block bat (tool_bitmap_findnset l)) Q h.
Proof.
  intros Hb Hl Hhit Hmiss. pose proof (bat_wf _ Hb) as Hwf. pose proof (proj1 Hwf) as Hlen.
  assert (Hh : bitmap_holds l (to_words bat)) by (split_and!; [lia | lia | by rewrite Hlen | rewrite Hlen; lia]).
  destruct (proj1 (wp_iff _ _ _) (tool_findnset_wp l _ Hh)) as (r & ws & E & z & -> & Hpost).
  unfold wp, on_block. rewrite E. unfold findnset_post in Hpost. destruct (find_idx _ _ _) as [p|] eqn:Hp.
  - destruct Hpost as (-> & Hws & Hq). rewrite Hlen in Hws. destruct (bat_of_words ws Hws) as [Hbat Hm].
    apply find_idx_Some in Hp as (Hpr & Hpf & _). apply Hhit; [lia | by apply negb_true_iff | done |].
    intros q H0. rewrite Hm, Hq by done. by destruct (q =? p).
  - destruct Hpost as [-> ->]. rewrite (of_to_words _ 128) by apply Hb. apply Hmiss. intros q Hq.
    apply negb_false_iff, (proj1 (find_idx_None _ _ _) Hp). lia.
Qed.

Lemma block_set_wp (bat : bytes) (p : Z) (v : bool) (h : host) (Q : option (unit * bytes) → host → Prop) :
  bat_ok bat → 0 ≤ p < 4096 →
  (∀ bat', bat_ok bat' → (∀ q, 0 ≤ q → marked bat' q = if q =? p then v else marked bat q) → Q (Some (tt, bat')) h) →
  wp (on_block bat (tool_bitmap_set p (Z.b2z v))) Q h.
Proof.
  intros Hb Hp HQ. pose proof (bat_wf _ Hb) as Hwf.
  destruct (bitmap_set_spec 128 (to_words bat) p v) as (ws & Hs & Hws & Hq); [done | lia |].
  unfold wp, on_block. rewrite tool_set_eq by lia. unfold tlift. rewrite Hs. destruct (bat_of_words ws Hws) as [Hbat Hm].
  apply HQ; [done |]. intros q H0. by rewrite Hm, Hq.
Qed.

(** ** An image as a disk *)

Record image := Im { im_bytes : bytes }.
Definition im_total (d : image) : Z := Z.of_nat (length (im_bytes d)) / 512.
Definition im_block (d : image) (b : Z) : bytes :=
  if b <? 0 then [] else take 512 (drop (Z.to_nat (512 * b)) (im_bytes d)).
Definition put_block (b : Z) (data f : bytes) : bytes := splice (Z.to_nat (512 * b)) data f.

Lemma im_in_range f b : 0 ≤ b < im_total (Im f) → (Z.to_nat (512 * b) + 512 ≤ length f)%nat.
Proof.
  unfold im_total. cbn. intros Hb. pose proof (Z.mul_div_le (Z.of_nat (length f)) 512 ltac:(lia)).
  assert (512 * (b + 1) ≤ Z.of_nat (length f)) by nia. lia.
Qed.

Lemma im_block_put b data f c :
  0 ≤ b < im_total (Im f) → length data = 512%nat →
  im_block (Im (put_block b data f)) c = if c =? b then data else im_block (Im f) c.
Proof.
  intros Hb Hl. pose proof (im_in_range f b Hb). unfold im_block, put_block. cbn [im_bytes].
  destruct (Z.eqb_spec c b) as [->|Hne].
  - rewrite (proj2 (Z.ltb_ge _ _)) by lia. rewrite <- Hl at 1. apply splice_slice. lia.
  - destruct (Z.ltb_spec c 0); [done |]. apply slice_splice_other; lia.
Qed.

Lemma put_block_total b data f :
  0 ≤ b < im_total (Im f) → length data = 512%nat → length (put_block b data f) = length f.
Proof. intros Hb Hl. pose proof (im_in_range f b Hb). apply splice_length. lia. Qed.

#[export] Program Instance image_disk : BlockDevice image := {|
  bd_block_size _ := 512;
  bd_total_blocks := im_total;
  bd_read b := λ d, Ok (if (0 <=? b) && (b <? im_total d) then Some (im_block d b) else None, d);
  bd_write b data := λ d,
    if (0 <=? b) && (b <? im_total d) then Ok (true, Im (put_block b data (im_bytes d))) else Ok (false, d);
  bd_inv d := is_bytes (im_bytes d);
  bd_block := im_block;
  bd_reliable _ := True;
|}.
Next Obligation.
  intros [f] b Hd Hb. pose proof (im_in_range f b Hb). unfold im_block. rewrite (proj2 (Z.ltb_ge b 0)) by lia.
  split; [cbn; rewrite length_take, length_drop; lia |]. by apply Forall_take, Forall_drop.
Qed.
Next Obligation.
  intros d b Hd Hb. unfold wp. rewrite (proj2 (Z.leb_le 0 b)), (proj2 (Z.ltb_lt b _)) by lia.
  split_and!; try done. by right.
Qed.
Next Obligation.
  intros [f] b data Hd Hb Hl Hby. unfold wp.
  rewrite (proj2 (Z.leb_le 0 b)), (proj2 (Z.ltb_lt b _)) by lia. cbn [andb im_bytes].
  split_and!; try done; [by apply is_bytes_splice | unfold im_total; cbn; by rewrite put_block_total by (done || lia) |].
  intros c. apply im_block_put; [done | lia].
Qed.

(** The volume of an image that nobody uses. *)
Definition vol (f : bytes) : tfs :=
  mk_tfs (im_total (Im f)) 1 (replicate 512 0) (replicate 512 0) (replicate 512 0).
Definition image_ok (f : bytes) : Prop := volume_ok (vol f) (Im f).

Lemma image_total f : image_ok f → 3 ≤ im_total (Im f) ≤ 4096.
Proof. intros V. by destruct (vo_dev _ _ V) as (_ & _ & ? & _). Qed.
Lemma image_dir f : image_ok f → dir_ok (im_block (Im f) TFS_DIRECTORY_BLOCK).
Proof. intros V. apply (vo_dir _ _ V). Qed.
Lemma image_block f b : image_ok f → 0 ≤ b < im_total (Im f) → length (im_block (Im f) b) = 512%nat ∧ is_bytes (im_block (Im f) b).
Proof. intros V. apply (block_ok _ _ b (vo_dev _ _ V)). Qed.
Lemma image_bat f : image_ok f → bat_ok (im_block (Im f) TFS_ALLOCATION_BLOCK).
Proof.
  intros V. pose proof (image_total _ V). destruct (image_block f 1 V); [lia |]. by constructor.
Qed.
Lemma image_system f q : image_ok f → 0 ≤ q < 3 → marked (im_block (Im f) TFS_ALLOCATION_BLOCK) q = true.
Proof. intros V. apply (vo_system _ _ V). Qed.

(** ** Reading and writing blocks *)

Section blocks.
Context (disk : bytes).

Lemma seek_block_wp (b : Z) (h : host) (Q : option nat → host → Prop) :
  0 ≤ b ≤ 4096 → Q (Some (Z.to_nat (512 * b))) h → wp (seek_block b) Q h.
Proof.
  intros Hb HQ. unfold seek_block. eapply tpure_wp.
  { unfold int_op, TFS_BLOCK_SIZE. by rewrite (proj2 (Z.leb_le _ _)), (proj2 (Z.ltb_lt _ _)) by lia. }
  rewrite (proj2 (Z.ltb_ge _ _)) by lia. by rewrite Z.mul_comm.
Qed.

Lemma tool_read_block_wp (data : bytes) (b : Z) (h : host) (f : bytes) (Q : option bytes → host → Prop) :
  h !! disk = Some f → im_total (Im f) ≤ 4096 → 0 ≤ b < im_total (Im f) → length data = 512%nat →
  Q (Some (im_block (Im f) b)) h → wp (read_block disk data b) Q h.
Proof.
  intros Hf Ht Hb Hl HQ. unfold read_block. apply tbind_wp, seek_block_wp; [lia |].
  apply tbind_wp, tlift_wp. unfold wp at 1, file_of. rewrite Hf. cbn.
  pose proof (im_in_range f b Hb) as Hr. unfold im_block in HQ. rewrite (proj2 (Z.ltb_ge b 0)) in HQ by lia. cbn [im_bytes] in HQ.
  rewrite splice_full; [done |]. rewrite length_take, length_drop. lia.
Qed.

Lemma tool_write_wp (data : option bytes) (x : bytes) (b : Z) (h : host) (f : bytes) (Q : option unit → host → Prop) :
  h !! disk = Some f → im_total (Im f) ≤ 4096 → 0 ≤ b < im_total (Im f) →
  default (replicate 512 0) data = x → length x = 512%nat →
  Q (Some tt) (<[disk := put_block b x f]> h) → wp (write_block disk data b) Q h.
Proof.
  intros Hf Ht Hb <- Hl HQ. unfold write_block. apply tbind_wp, seek_block_wp; [lia |].
  apply tbind_wp, tlift_wp. unfold wp at 1, file_of. rewrite Hf. apply tlift_wp.
  pose proof (im_in_range f b Hb) as Hr. unfold set_file. wp_step. unfold file_put. rewrite Hl.
  replace (Z.to_nat (512 * b) + 512 - length f)%nat with 0%nat by lia. by rewrite app_nil_r.
Qed.

Lemma open_wp (may_open : bytes → fmode → bool) (name : bytes) (mode : fmode) (h : host) (Q : option unit → host → Prop) :
  mode ≠ mode_w → (may_open name mode = true → h !! name = None → Q None h) → (may_open name mode = false → Q None h) →
  (is_Some (h !! name) → Q (Some tt) h) → wp (openfile may_open name mode) Q h.
Proof.
  intros Hm Hn Hd Hs. unfold openfile, fopen. apply tbind_wp, tlift_wp. wp_steps.
  destruct (may_open name mode); cbn [negb]; [| by apply Hd].
  destruct mode; [| | done]; wp_step; unfold id; (case_bool_decide as Hx; [by apply Hs |]); apply Hn; try done; by apply eq_None_not_Some.
Qed.
End blocks.

(** Only the block has changed. *)
Lemma donly_put f b data :
  is_bytes f → is_bytes data → 0 ≤ b < im_total (Im f) → length data = 512%nat →
  donly [b] (Im f) (Im (put_block b data f)).
Proof.
  intros Hf Hd Hb Hl. constructor; try done.
  - by apply is_bytes_splice.
  - cbn. unfold im_total. cbn [im_bytes]. by rewrite put_block_total.
  - intros c Hc. change (im_block (Im (put_block b data f)) c = im_block (Im f) c). rewrite im_block_put by done.
    by rewrite (proj2 (Z.eqb_neq c b)) by set_solver.
Qed.

(** ** Names *)

(** The array of 16 characters holds a string. *)
Definition name_array (l a : bytes) : Prop := is_bytes l ∧ length l = 16%nat ∧ cstr l = Some a.

Lemma strncmp_eq n : ∀ s1 s2 a1 a2,
  (length s1 = n)%nat → (length s2 = n)%nat → cstr s1 = Some a1 → cstr s2 = Some a2 →
  ∃ z, c_strncmp s1 s2 n = Ok z ∧ (z =? 0) = bool_decide (a1 = a2).
Proof.
  induction n as [|n IH]; intros s1 s2 a1 a2 L1 L2 E1 E2; [by destruct s1 |].
  destruct s1 as [|c1 s1], s2 as [|c2 s2]; try done. cbn [c_strncmp cstr] in *.
  destruct (Z.eqb_spec c1 c2) as [->|Hne]; cbn [negb].
  - destruct (Z.eqb_spec c2 0) as [->|Hc].
    + injection E1 as <-. injection E2 as <-. exists 0. by rewrite bool_decide_true.
    + destruct (cstr s1) as [b1|] eqn:F1; [| done]. destruct (cstr s2) as [b2|] eqn:F2; [| done].
      injection E1 as <-. injection E2 as <-. destruct (IH s1 s2 b1 b2) as (z & -> & Hz); [by injection L1 | by injection L2 | done | done |].
      exists z. split; [done |]. rewrite Hz. apply bool_decide_ext. split; [by intros -> | by intros [= ->]].
  - exists (c1 - c2). split; [done |]. rewrite (proj2 (Z.eqb_neq _ _)) by lia. symmetry. apply bool_decide_false.
    destruct (Z.eqb_spec c1 0) as [->|].
    + injection E1 as <-. destruct (Z.eqb_spec c2 0); [by subst |]. destruct (cstr s2); [| done]. injection E2 as <-. done.
    + destruct (cstr s1); [| done]. injection E1 as <-.
      destruct (Z.eqb_spec c2 0); [by injection E2 as <- |]. destruct (cstr s2); [| done]. injection E2 as <-. congruence.
Qed.

Lemma entry_cmp md i target a :
  dir_ok md → 0 ≤ i < TFS_MAX_FILES → name_array target a →
  ∃ z, c_strncmp (entry_name md i) target (Z.to_nat TFS_FILENAME_MAX) = Ok z ∧ (z =? 0) = bool_decide (dname md i = Some a).
Proof.
  intros Hd Hi (_ & Hl & Ha). destruct (dir_name _ Hd i Hi) as [s Hs]. unfold dname in Hs. unfold TFS_MAX_FILES in Hi.
  destruct (strncmp_eq 16 (entry_name md i) target s a) as (z & Hz & E); [| done | exact Hs | done |].
  { unfold entry_name, md_name, SIZEOF_DIRENTRY. rewrite length_take, length_drop, (dir_len _ Hd). lia. }
  exists z. split; [done |]. rewrite E. unfold dname. rewrite Hs. apply bool_decide_ext. split; [by intros -> | by intros [= ->]].
Qed.

(** The search for a name. *)
Lemma scan_name_Ok md target a :
  dir_ok md → name_array target a →
  scan_name (Z.to_nat TFS_MAX_FILES) 0 md target =
  Ok (default (-1) (find_idx (Z.to_nat TFS_MAX_FILES) 0 (λ i, bool_decide (dname md i = Some a)))).
Proof.
  intros Hd Ha. assert (Hgen : ∀ n i, 0 ≤ i → i + Z.of_nat n ≤ TFS_MAX_FILES →
    scan_name n i md target = Ok (default (-1) (find_idx n i (λ i, bool_decide (dname md i = Some a))))).
  { induction n as [|n IH]; intros i H0 Hn; [done |]. cbn [scan_name find_idx].
    destruct (entry_cmp md i target a) as (z & -> & Hz); [done | lia | done |].
    unfold mbind, res_bind. rewrite Hz. case_bool_decide; [done |]. apply IH; lia. }
  apply Hgen; unfold TFS_MAX_FILES; lia.
Qed.

(** The search for a free entry: the name exists, or the result is the first
    free entry or -1. *)
Lemma scan_write_Ok md target a :
  dir_ok md → name_array target a →
  ∃ r, scan_write (Z.to_nat TFS_MAX_FILES) 0 (-1) md target = Ok r ∧
    match r with
    | None => ∃ i, 0 ≤ i < TFS_MAX_FILES ∧ dname md i = Some a
    | Some k => (∀ i, 0 ≤ i < TFS_MAX_FILES → dname md i ≠ Some a) ∧
        (k = -1 ∧ (∀ i, 0 ≤ i < TFS_MAX_FILES → md_inode md i ≠ Ok 0) ∨
         0 ≤ k < TFS_MAX_FILES ∧ md_inode md k = Ok 0)
    end.
Proof.
  intros Hd Ha. assert (Hgen : ∀ n i index, 0 ≤ i → i + Z.of_nat n = TFS_MAX_FILES →
    (∀ j, 0 ≤ j < i → dname md j ≠ Some a) →
    (index = -1 ∧ (∀ j, 0 ≤ j < i → md_inode md j ≠ Ok 0) ∨ 0 ≤ index < TFS_MAX_FILES ∧ md_inode md index = Ok 0) →
    ∃ r, scan_write n i index md target = Ok r ∧
    match r with
    | None => ∃ i, 0 ≤ i < TFS_MAX_FILES ∧ dname md i = Some a
    | Some k => (∀ i, 0 ≤ i < TFS_MAX_FILES → dname md i ≠ Some a) ∧
        (k = -1 ∧ (∀ i, 0 ≤ i < TFS_MAX_FILES → md_inode md i ≠ Ok 0) ∨
         0 ≤ k < TFS_MAX_FILES ∧ md_inode md k = Ok 0)
    end).
  { induction n as [|n IH]; intros i index Hi Hn Hno Hx; cbn [scan_write].
    - exists (Some index). replace i with TFS_MAX_FILES in * by lia. done.
    - destruct (md_inode_total md i Hd) as [v Hv]; [lia |]. rewrite Hv. unfold mbind, res_bind.
      destruct (entry_cmp md i target a) as (z & -> & Hz); [done | lia | done |]. rewrite Hz.
      case_bool_decide as Hb; [exists None; split; [done | exists i; split; [lia | done]] |].
      apply IH; [lia | lia | |].
      + intros j Hj. destruct (decide (j = i)) as [->|]; [done | apply Hno; lia].
      + destruct (Z.eqb_spec v 0) as [->|Hv0]; cbn [andb].
        * destruct Hx as [[-> _]|Hx]; cbn; [right; split; [lia | done] |].
          destruct (Z.eqb_spec index (-1)); [lia | by right].
        * destruct Hx as [[-> Hx]|Hx]; [left; split; [done |] | by right].
          intros j Hj. destruct (decide (j = i)) as [->|]; [congruence | apply Hx; lia]. }
  apply Hgen; unfold TFS_MAX_FILES; [lia | lia | intros; lia | left; split; [done |]; intros; lia].
Qed.

(** ** Copying a file into an image *)

Lemma inode_put ino n blks b :
  inode_ok ino n blks 127 → (length blks < 127)%nat → is_u32 b →
  inode_ok (splice (Z.to_nat (4 + 4 * Z.of_nat (length blks))) (bytes32 b) ino) n (blks ++ [b]) 127.
Proof.
  intros Hi Hlen Hu. pose proof Hi as [Hl Hb Hs Hk Hz]. constructor.
  - rewrite splice_length; simpl; lia.
  - apply is_bytes_splice; [apply bytes32_bytes | done].
  - by rewrite ino_filesize_splice by lia.
  - apply (io_block _ n _ 0). apply inode_ok_put; [constructor; try done; lia | done | done].
  - intros i. rewrite length_app. cbn [length]. intros Hi'. rewrite ino_block_splice by (done || lia).
    rewrite (proj2 (Z.eqb_neq _ _)) by lia. apply Hz. lia.
Qed.

Lemma whole_only (d d' : image) bs blks : donly bs d d' → (∀ b, b ∈ blks → b ∉ bs) → whole d' blks = whole d blks.
Proof.
  intros Ho Hb. unfold whole. f_equal. apply map_ext_in. intros b Hin. apply (do_block _ _ _ Ho), Hb. by apply list_elem_of_In.
Qed.

(** The blocks of an image that are free. *)
Definition im_free (f : bytes) : list Z :=
  filter (λ q, marked (im_block (Im f) TFS_ALLOCATION_BLOCK) q = false) (seqZ 0 (im_total (Im f))).

(** The state of the copy: the blocks [blks] have been taken for the file with
    inode [fid] and written, the image was [f] and is [g]. *)
Record copying (f : bytes) (fid : Z) (g inode bat : bytes) (blks : list Z) : Prop := {
  cp_len : length g = length f;
  cp_only : donly blks (Im f) (Im g);
  cp_inode : inode_ok inode 0 blks 127;
  cp_max : (length blks ≤ 127)%nat;
  cp_bat : bat_ok bat;
  cp_marks q : 0 ≤ q → marked bat q = bool_decide (q ∈ fid :: blks) || marked (im_block (Im f) TFS_ALLOCATION_BLOCK) q;
  cp_nodup : NoDup (fid :: blks);
  cp_free b : b ∈ fid :: blks → 3 ≤ b < im_total (Im f) ∧ marked (im_block (Im f) TFS_ALLOCATION_BLOCK) b = false;
}.

Lemma copying_total f fid g inode bat blks : copying f fid g inode bat blks → im_total (Im g) = im_total (Im f).
Proof. intros C. unfold im_total. cbn. by rewrite (cp_len _ _ _ _ _ _ C). Qed.

Lemma copying_short f fid g inode bat blks :
  copying f fid g inode bat blks → Z.of_nat (length blks) < im_total (Im f).
Proof.
  intros C. assert (Hsub : fid :: blks ⊆+ seqZ 0 (im_total (Im f))).
  { apply NoDup_submseteq; [apply C |]. intros b Hb. apply elem_of_seqZ. pose proof (cp_free _ _ _ _ _ _ C b Hb). lia. }
  apply submseteq_length in Hsub. rewrite length_seqZ in Hsub. cbn in Hsub. lia.
Qed.

(** When no block is left, the free ones have been taken. *)
Lemma copying_full f fid g inode bat blks :
  copying f fid g inode bat blks → (∀ q, 0 ≤ q < im_total (Im f) → marked bat q = true) →
  (length (im_free f) ≤ S (length blks))%nat.
Proof.
  intros C Hall. change (S (length blks)) with (length (fid :: blks)). apply submseteq_length, NoDup_submseteq.
  - apply NoDup_filter, NoDup_seqZ.
  - intros q [Hq Hr]%list_elem_of_filter. apply elem_of_seqZ in Hr. specialize (Hall q ltac:(lia)).
    rewrite (cp_marks _ _ _ _ _ _ C), Hq, orb_false_r in Hall by lia. by apply bool_decide_eq_true in Hall.
Qed.

(** One more block. *)
Lemma copying_snoc f fid g inode bat blks b bat' data :
  copying f fid g inode bat blks → image_ok f → (length blks < 127)%nat →
  0 ≤ b < im_total (Im f) → marked bat b = false → bat_ok bat' →
  (∀ q, 0 ≤ q → marked bat' q = (q =? b) || marked bat q) → is_bytes data → length data = 512%nat →
  copying f fid (put_block b data g) (splice (Z.to_nat (4 + 4 * Z.of_nat (length blks))) (bytes32 b) inode) bat' (blks ++ [b]).
Proof.
  intros C V Hlen Hb Hm Hbat Hm' Hd Hl. pose proof (copying_total _ _ _ _ _ _ C) as Ht.
  pose proof (vo_dev _ _ V) as (_ & _ & Htot & _). cbn in Htot.
  rewrite (cp_marks _ _ _ _ _ _ C) in Hm by lia. apply orb_false_iff in Hm as [Hnin Hfree].
  apply bool_decide_eq_false in Hnin.
  assert (Hb3 : 3 ≤ b). { destruct (decide (b < 3)); [| lia]. rewrite (image_system f b) in Hfree; [done | done | lia]. }
  assert (Hin : ∀ q, q ∈ fid :: blks ++ [b] ↔ q = b ∨ q ∈ fid :: blks) by (intros q; set_solver).
  constructor.
  - rewrite put_block_total by (done || lia). apply C.
  - eapply donly_trans; [eapply donly_sub; [apply C | set_solver] |].
    eapply donly_sub; [apply (donly_put g b data) | set_solver]; [apply (do_inv _ _ _ (cp_only _ _ _ _ _ _ C)) | done | lia | done].
  - apply inode_put; [apply C | done | unfold is_u32; lia].
  - rewrite length_app. cbn. lia.
  - done.
  - intros q H0. rewrite Hm', (cp_marks _ _ _ _ _ _ C) by done. rewrite orb_assoc. f_equal.
    destruct (Z.eqb_spec q b) as [->|Hne]; cbn [orb]; [symmetry; apply bool_decide_true; set_solver |].
    apply bool_decide_ext. rewrite Hin. split; [by right | intros [->|]; [done | done]].
  - rewrite app_comm_cons. apply NoDup_app. split; [apply C |]. split; [set_solver | apply NoDup_singleton].
  - intros q [->|Hq]%Hin; [split; [lia | done] | by apply C].
Qed.

Lemma copying_whole f fid g inode bat blks b data :
  copying f fid g inode bat blks → 0 ≤ b < im_total (Im f) → b ∉ blks → is_bytes data → length data = 512%nat →
  whole (Im (put_block b data g)) (blks ++ [b]) = whole (Im g) blks ++ data.
Proof.
  intros C Hb Hn Hd Hl. pose proof (copying_total _ _ _ _ _ _ C) as Ht. unfold whole at 1. rewrite fmap_app, concat_app. f_equal.
  - apply (whole_only _ _ [b]); [apply donly_put; [apply (do_inv _ _ _ (cp_only _ _ _ _ _ _ C)) | done | lia | done] | set_solver].
  - cbn. rewrite app_nil_r. change (im_block (Im (put_block b data g)) b = data). rewrite im_block_put by (done || lia).
    by rewrite Z.eqb_refl.
Qed.

(** What the copy of [src] leaves: the first [n] bytes are in the image; it has
    gone through, or [src] is too long, or no block was left. *)
Record copy_result (f : bytes) (fid : Z) (src : bytes) (ok : bool) (n : Z) (g inode bat : bytes) (blks : list Z) : Prop := {
  cr_copying : copying f fid g inode bat blks;
  cr_size : 0 ≤ n ≤ Z.of_nat (length src);
  cr_blocks : 512 * (Z.of_nat (length blks) - 1) ≤ n ≤ 512 * Z.of_nat (length blks);
  cr_data : take (Z.to_nat n) (whole (Im g) blks) = take (Z.to_nat n) src;
  cr_ok : ok = true → n = Z.of_nat (length src) ∨ TFS_MAX_FILESIZE < Z.of_nat (length src);
  cr_full : ok = false → n < TFS_MAX_FILESIZE ∧ (length (im_free f) ≤ S (Z.to_nat (n / 512)))%nat;
}.

Section copy.
Context (disk source src f : bytes) (fid : Z) (h : host).
Hypothesis Hne : source ≠ disk.
Hypothesis Hsrc : h !! source = Some src.
Hypothesis Hsb : is_bytes src.
Hypothesis Hsl : Z.of_nat (length src) < 2 ^ 32.
Hypothesis V : image_ok f.

Lemma copy_in_wp k : ∀ i data g inode bat blks,
  (i + k = 128)%nat → length blks = i → copying f fid g inode bat blks → is_bytes data → length data = 512%nat →
  whole (Im g) blks = take (512 * i) src → (512 * i ≤ length src)%nat →
  wp (copy_in k disk source (im_total (Im f)) (Z.of_nat i) (512 * Z.of_nat i) data inode bat)
    (λ r h', ∃ ok n inode' bat' blks' g', r = Some (ok, n, inode', bat') ∧ h' = <[disk := g']> h ∧
      copy_result f fid src ok n g' inode' bat' blks') (<[disk := g]> h).
Proof using Hne Hsb Hsl Hsrc V.
  pose proof (image_total _ V) as Htot.
  induction k as [|k IH]; intros i data g inode bat blks Hk Hi C Hdb Hdl Hw Hlen.
  { pose proof (cp_max _ _ _ _ _ _ C). lia. }
  pose proof (copying_short _ _ _ _ _ _ C) as Hshort. pose proof (copying_total _ _ _ _ _ _ C) as Htg.
  assert (Hwl : length (whole (Im g) blks) = (512 * i)%nat) by (rewrite Hw, length_take; lia).
  assert (Hdata : take (Z.to_nat (512 * Z.of_nat i)) (whole (Im g) blks) = take (Z.to_nat (512 * Z.of_nat i)) src).
  { rewrite Hw. replace (Z.to_nat (512 * Z.of_nat i)) with (512 * i)%nat by lia. by rewrite take_take, Nat.min_id. }
  cbn [copy_in]. rewrite (proj2 (Z.ltb_lt _ _)) by lia. cbn [andb].
  destruct (Z.ltb_spec (512 * Z.of_nat i) TFS_MAX_FILESIZE) as [Hmax|Hmax].
  2: { exists true, (512 * Z.of_nat i), inode, bat, blks, g. split; [done |]. split; [done |].
    assert (i = 127)%nat as Ei by (pose proof (cp_max _ _ _ _ _ _ C); unfold TFS_MAX_FILESIZE, TFS_BLOCK_SIZE, TFS_BLOCKS_MAX in *; lia).
    constructor; [done | lia | lia | done | | done]. intros _. unfold TFS_MAX_FILESIZE, TFS_BLOCK_SIZE, TFS_BLOCKS_MAX in *. lia. }
  unfold TFS_MAX_FILESIZE, TFS_BLOCK_SIZE, TFS_BLOCKS_MAX in Hmax.
  rewrite (s32_small (im_total (Im f))) by (unfold is_s32; lia). apply tbind_wp.
  apply block_findnset_wp; [apply C | lia | |].
  2: { intros Hall. cbn [fst snd]. change (u32 (-1)) with 0xffffffff. rewrite (proj2 (Z.ltb_ge (0xffffffff) _)) by lia. rewrite andb_false_r.
    exists false, (512 * Z.of_nat i), inode, bat, blks, g. split; [done |]. split; [done |].
    constructor; [done | lia | lia | done | done |]. intros _.
    split; [unfold TFS_MAX_FILESIZE, TFS_BLOCK_SIZE, TFS_BLOCKS_MAX; lia |]. pose proof (copying_full _ _ _ _ _ _ C Hall).
    rewrite Z.mul_comm, Z.div_mul, Nat2Z.id by lia. lia. }
  intros b bat' Hb Hm Hbat' Hm'. cbn [fst snd]. rewrite u32_small by (unfold is_u32; lia).
  assert (Hb3 : 3 ≤ b ∧ b ∉ blks).
  { rewrite (cp_marks _ _ _ _ _ _ C) in Hm by lia. apply orb_false_iff in Hm as [Hn Hm]. apply bool_decide_eq_false in Hn.
    split; [| set_solver]. destruct (decide (b < 3)); [| lia]. rewrite (image_system f b) in Hm; [done | done | lia]. }
  rewrite (proj2 (Z.ltb_lt 2 b)), (proj2 (Z.ltb_lt b _)) by lia. cbn [andb].
  apply tbind_wp, tlift_wp. unfold wp at 1, file_of. rewrite lookup_insert_ne, Hsrc by done.
  replace (Z.to_nat (512 * Z.of_nat i)) with (512 * i)%nat by lia. set (chunk := take 512 (drop (512 * i) src)).
  assert (Hcl : length chunk = Nat.min 512 (length src - 512 * i)) by (unfold chunk; by rewrite length_take, length_drop).
  set (data' := splice 0 chunk data).
  assert (Hdl' : length data' = 512%nat) by (unfold data'; rewrite splice_length; lia).
  assert (Hdb' : is_bytes data') by (apply is_bytes_splice; [by apply Forall_take, Forall_drop | done]).
  apply tbind_wp. rewrite (s32_small b) by (unfold is_s32; lia).
  eapply (tool_write_wp disk _ data'); [apply lookup_insert_eq | lia | lia | done | done |]. rewrite insert_insert_eq.
  eapply tpure_wp.
  { replace (4 + 4 * Z.of_nat i) with (Z.of_nat (4 + 4 * i)) by lia. apply put32_Ok.
    rewrite (io_len _ _ _ _ (cp_inode _ _ _ _ _ _ C)). lia. }
  rewrite (u32_small (512 * Z.of_nat i + _)) by (unfold is_u32; lia).
  pose proof (copying_snoc f fid g inode bat blks b bat' data' C V ltac:(lia) Hb Hm Hbat' Hm' Hdb' Hdl') as C'.
  rewrite Hi in C'. replace (Z.to_nat (4 + 4 * Z.of_nat i)) with (4 + 4 * i)%nat in C' by lia.
  pose proof (copying_whole f fid g inode bat blks b data' C Hb (proj2 Hb3) Hdb' Hdl') as Hw'. rewrite Hw in Hw'.
  assert (Hsplit : take (512 * i) src ++ chunk = take (512 * i + length chunk) src).
  { rewrite <- take_take_drop. f_equal. rewrite Hcl. unfold chunk.
    destruct (decide (512 ≤ length src - 512 * i)%nat); [by rewrite Nat.min_l by lia |].
    by rewrite Nat.min_r, !take_ge by (rewrite ?length_drop; lia). }
  destruct (Nat.ltb_spec (length chunk) 512) as [Hs|Hs].
  - eexists true, _, _, _, (blks ++ [b]), (put_block b data' g). split; [done |]. split; [done |]. constructor; [exact C' | lia | rewrite length_app; cbn [length]; lia | | | done].
    + rewrite Hw'. replace (Z.to_nat _) with (512 * i + length chunk)%nat by lia.
      rewrite take_app_add' by (rewrite length_take; lia). rewrite <- Hsplit. f_equal. unfold data', splice. cbn [take app].
      by rewrite take_0, app_nil_l, take_app_length'.
    + intros _. left. lia.
  - replace (Z.of_nat i + 1) with (Z.of_nat (S i)) by lia.
    replace (512 * Z.of_nat i + Z.of_nat (length chunk)) with (512 * Z.of_nat (S i)) by lia.
    apply (IH (S i) _ _ _ _ (blks ++ [b])); [lia | rewrite length_app; cbn [length]; lia | exact C' | done | done | | lia].
    rewrite Hw'. unfold data'. rewrite splice_full by lia. rewrite Hsplit. f_equal. lia.
Qed.
End copy.

(** ** A file in an image *)

(** Entry [k] of the directory is the file [a] of [n] bytes, with the inode in
    block [fid] and the blocks [blks]; the last block may be behind the end of
    the file. *)
Record tool_file (f a : bytes) (k fid n : Z) (blks : list Z) : Prop := {
  tf_entry : 0 ≤ k < TFS_MAX_FILES;
  tf_name : dname (im_block (Im f) TFS_DIRECTORY_BLOCK) k = Some a;
  tf_only i : 0 ≤ i < TFS_MAX_FILES → i ≠ k → dname (im_block (Im f) TFS_DIRECTORY_BLOCK) i ≠ Some a;
  tf_ino : md_inode (im_block (Im f) TFS_DIRECTORY_BLOCK) k = Ok fid;
  tf_inode : inode_ok (im_block (Im f) fid) n blks 127;
  tf_max : (length blks ≤ 127)%nat;
  tf_blocks : 0 ≤ n ∧ 512 * (Z.of_nat (length blks) - 1) ≤ n ≤ 512 * Z.of_nat (length blks);
  tf_range b : b ∈ fid :: blks → 3 ≤ b < im_total (Im f);
  tf_nodup : NoDup (fid :: blks);
  tf_marked b : b ∈ fid :: blks → marked (im_block (Im f) TFS_ALLOCATION_BLOCK) b = true;
}.

(** The blocks that hold bytes of it. *)
Definition data_blocks (n : Z) (blks : list Z) : list Z := take (Z.to_nat ((n + 511) / 512)) blks.

Lemma data_blocks_length n blks :
  0 ≤ n → 512 * (Z.of_nat (length blks) - 1) ≤ n ≤ 512 * Z.of_nat (length blks) →
  Z.of_nat (length (data_blocks n blks)) = (n + 511) / 512 ∧ (n + 511) / 512 ≤ Z.of_nat (length blks).
Proof.
  intros Hn Hb. assert (H0 : 0 ≤ (n + 511) / 512) by (apply Z.div_pos; lia).
  assert (H1 : (n + 511) / 512 ≤ Z.of_nat (length blks)).
  { assert ((n + 511) / 512 < Z.of_nat (length blks) + 1); [| lia]. apply Z.div_lt_upper_bound; lia. }
  unfold data_blocks. rewrite length_take. lia.
Qed.

(** For the kernel it is a file, with the same bytes. *)
Lemma tool_file_is_file f a k fid n blks :
  tool_file f a k fid n blks → marked_file (vol f) (Im f) fid n (data_blocks n blks).
Proof.
  intros F. destruct (tf_blocks _ _ _ _ _ _ F) as [Hn Hb]. destruct (data_blocks_length n blks Hn Hb) as [Hl Hle].
  pose proof (Z.mul_div_le (n + 511) 512 ltac:(lia)). pose proof (Z.mul_succ_div_gt (n + 511) 512 ltac:(lia)).
  assert (Hsub : ∀ b, b ∈ data_blocks n blks → b ∈ blks).
  { intros b Hin. unfold data_blocks in Hin. rewrite <- (take_drop (Z.to_nat ((n + 511) / 512)) blks). set_solver. }
  pose proof (tf_max _ _ _ _ _ _ F). split.
  - constructor; try lia.
    + apply (tf_range _ _ _ _ _ _ F). set_solver.
    + apply (io_size _ _ _ _ (tf_inode _ _ _ _ _ _ F)).
    + unfold TFS_BLOCKS_MAX. lia.
    + intros i b Hi. apply (io_block _ _ _ _ (tf_inode _ _ _ _ _ _ F)). unfold data_blocks in Hi.
      by apply lookup_take_Some in Hi as [? _].
    + intros b Hb'. apply (tf_range _ _ _ _ _ _ F). set_solver.
    + pose proof (tf_nodup _ _ _ _ _ _ F) as [Hnf Hnd]%NoDup_cons. apply NoDup_cons. split; [set_solver |].
      unfold data_blocks. rewrite <- (take_drop (Z.to_nat ((n + 511) / 512)) blks) in Hnd. by apply NoDup_app in Hnd as [? _].
  - intros b Hb'. apply (tf_marked _ _ _ _ _ _ F). set_solver.
Qed.

Lemma tool_file_contents f a k fid n blks :
  image_ok f → tool_file f a k fid n blks →
  contents (Im f) n (data_blocks n blks) = take (Z.to_nat n) (whole (Im f) blks).
Proof.
  intros V F. destruct (tf_blocks _ _ _ _ _ _ F) as [Hn Hb]. destruct (data_blocks_length n blks Hn Hb) as [Hl Hle].
  pose proof (Z.mul_succ_div_gt (n + 511) 512 ltac:(lia)).
  unfold contents, whole. set (m := Z.to_nat ((n + 511) / 512)). unfold data_blocks in *. fold m in Hl |- *.
  rewrite <- (take_drop m blks) at 2. rewrite fmap_app, concat_app, take_app_le; [done |].
  rewrite concat_length; [rewrite length_fmap; lia |]. apply Forall_forall. intros x Hx.
  apply list_elem_of_fmap in Hx as (b & -> & Hb'). apply (image_block f b V).
  assert (b ∈ blks) by (rewrite <- (take_drop m blks); set_solver).
  pose proof (tf_range _ _ _ _ _ _ F b ltac:(set_solver)). lia.
Qed.

(** ** What stays as it was *)

(** The files of [f] are in [g], with the same bytes. *)
Definition kept (f g : bytes) : Prop := ∀ fid n blks, marked_file (vol f) (Im f) fid n blks →
  marked_file (vol g) (Im g) fid n blks ∧ contents (Im g) n blks = contents (Im f) n blks.

Lemma kept_only bs f g :
  length g = length f → donly bs (Im f) (Im g) →
  (∀ b, b ∈ bs → b < 3 ∨ marked (im_block (Im f) TFS_ALLOCATION_BLOCK) b = false) →
  (∀ q, 3 ≤ q → marked (im_block (Im f) TFS_ALLOCATION_BLOCK) q = true → marked (im_block (Im g) TFS_ALLOCATION_BLOCK) q = true) →
  kept f g.
Proof.
  intros Hl Ho Hbs Hm fid n blks [F Hmark]. assert (Ht : im_total (Im g) = im_total (Im f)) by (unfold im_total; cbn; by rewrite Hl).
  assert (Hge : ∀ b, b ∈ fid :: blks → 3 ≤ b).
  { intros b [->|Hb]%elem_of_cons; [apply (if_id _ _ _ _ _ F) | by apply (if_range _ _ _ _ _ F)]. }
  assert (Hout : ∀ b, b ∈ fid :: blks → b ∉ bs).
  { intros b Hb Hin. specialize (Hge b Hb). destruct (Hbs b Hin) as [?|Hf]; [lia |]. specialize (Hmark b Hb).
    change (marked (im_block (Im f) TFS_ALLOCATION_BLOCK) b = true) in Hmark. congruence. }
  split; [| eapply contents_only; [exact Ho |]; intros b Hb; apply Hout; set_solver]. split.
  - eapply is_file_only; [| exact Ho | apply Hout; set_solver].
    destruct F. constructor; try done; cbn in *; by rewrite Ht.
  - intros b Hb. apply Hm; [by apply Hge | by apply Hmark].
Qed.

Lemma image_ok_only bs f g :
  image_ok f → length g = length f → donly bs (Im f) (Im g) → dir_ok (im_block (Im g) TFS_DIRECTORY_BLOCK) →
  (∀ q, 0 ≤ q < 3 → marked (im_block (Im g) TFS_ALLOCATION_BLOCK) q = true) → image_ok g.
Proof.
  intros V Hl Ho Hd Hs. assert (Ht : im_total (Im g) = im_total (Im f)) by (unfold im_total; cbn; by rewrite Hl).
  pose proof (image_total _ V). constructor; try done.
  - split; [apply (do_inv _ _ _ Ho) |]. split; [done |]. cbn. lia.
  - by apply Forall_replicate.
Qed.

(** ** A new entry of the directory *)

Lemma strncpy_Ok n : ∀ src a, length src = n → cstr src = Some a →
  c_strncpy src n = Ok (a ++ replicate (n - length a) 0) ∧ (length a < n)%nat.
Proof.
  induction n as [|n IH]; intros src a Hl Ha; [by destruct src |]. destruct src as [|c src]; [done |].
  cbn [c_strncpy cstr] in *. destruct (Z.eqb_spec c 0) as [->|Hc].
  - injection Ha as <-. cbn. split; [done | lia].
  - destruct (cstr src) as [b|] eqn:Hb; [| done]. injection Ha as <-. injection Hl as Hl.
    destruct (IH src b Hl Hb) as [-> Hlt]. cbn. split; [done | lia].
Qed.

Definition tool_entry (k : Z) (a : bytes) (fid : Z) (md : bytes) : bytes :=
  splice (Z.to_nat (20 * k + 4)) (a ++ replicate (16 - length a) 0) (splice (Z.to_nat (20 * k)) (bytes32 fid) md).

Lemma tool_entry_ok md k a fid :
  dir_ok md → 0 ≤ k < TFS_MAX_FILES → is_bytes a → 0 ∉ a → (length a < 16)%nat → is_u32 fid →
  dir_ok (tool_entry k a fid md) ∧ dname (tool_entry k a fid md) k = Some a ∧
  md_inode (tool_entry k a fid md) k = Ok fid ∧
  ∀ i, 0 ≤ i < TFS_MAX_FILES → i ≠ k → dname (tool_entry k a fid md) i = dname md i.
Proof.
  intros Hd Hk Hb Ha Hl Hf. pose proof (dir_len _ Hd) as Hlen. unfold TFS_MAX_FILES in Hk.
  set (md0 := splice (Z.to_nat (20 * k + 4)) (replicate 16 0) md).
  assert (Hl0 : length md0 = 512%nat) by (unfold md0; rewrite splice_length; [done | rewrite length_replicate; lia]).
  assert (Hn0 : ∀ i, 0 ≤ i < TFS_MAX_FILES → i ≠ k → dname md0 i = dname md i).
  { intros i Hi Hik. apply (dname_splice md i); [done | done | rewrite length_replicate; lia | rewrite length_replicate; lia | done]. }
  assert (Hd0 : dir_ok md0).
  { constructor; [done | by apply is_bytes_splice; [apply Forall_replicate | apply Hd] |]. intros i Hi.
    destruct (decide (i = k)) as [->|Hik]; [| rewrite Hn0 by done; by apply Hd].
    exists []. unfold dname, md_name, SIZEOF_DIRENTRY, md0. change 16%nat with (length (replicate 16 0)) at 1.
    by rewrite splice_slice by (rewrite length_replicate; lia). }
  assert (E : tool_entry k a fid md = write_entry k a fid md0).
  { unfold tool_entry, write_entry, md0. apply list_eq. intros j.
    assert (length (a ++ replicate (16 - length a) 0) = 16%nat) as Hl16 by (rewrite length_app, length_replicate; lia).
    assert (length (a ++ [0]) = S (length a)) as Hl1 by (rewrite length_app; cbn; lia).
    assert (length (replicate 16 0) = 16%nat) as Hlr by apply length_replicate.
    assert (length (bytes32 fid) = 4%nat) as Hl4 by done.
    assert (length (splice (Z.to_nat (20 * k + 4)) (replicate 16 0) md) = 512%nat) as Hs0 by done.
    rewrite (splice_lookup _ (a ++ replicate _ _)), (splice_lookup _ (bytes32 fid) md) by (rewrite ?splice_length; lia).
    rewrite (splice_lookup _ (bytes32 fid) (splice _ _ _)) by (rewrite splice_length; lia).
    rewrite (splice_lookup _ (a ++ [0])), (splice_lookup _ (replicate 16 0)) by lia.
    rewrite Hl16, Hl1, Hlr, Hl4.
    repeat case_decide; try lia; try done.
    - rewrite !lookup_app. destruct (a !! _) eqn:Ea; [done |]. apply lookup_ge_None in Ea.
      rewrite lookup_replicate_2 by lia. by replace (j - Z.to_nat (20 * k + 4) - length a)%nat with 0%nat by lia.
    - rewrite lookup_app_r by lia. rewrite !lookup_replicate_2 by lia. done. }
  rewrite E. destruct (write_entry_ok md0 k a fid Hd0 Hk Hb Ha Hl Hf) as (H1 & H2 & H3 & H4).
  split; [done |]. split; [done |]. split; [done |]. intros i Hi Hik. rewrite (proj1 (H4 i Hi Hik)). by apply Hn0.
Qed.

(** ** [tfstool_write] *)

Lemma inode_size ino m n blks : inode_ok ino m blks 127 → (length blks ≤ 127)%nat → is_u32 n → inode_ok (splice 0 (bytes32 n) ino) n blks 127.
Proof.
  intros [Hl Hb Hs Hk Hz] Hlen Hn.
  assert (Hother : ∀ i, 0 ≤ i < 127 → ino_block (splice 0 (bytes32 n) ino) i = ino_block ino i).
  { intros i Hi. unfold ino_block. replace (4 + 4 * i) with (Z.of_nat (Z.to_nat (4 + 4 * i))) by lia.
    apply get32_ext; [lia | rewrite splice_length; cbn; lia |]. apply slice_splice_other; cbn; lia. }
  constructor.
  - rewrite splice_length; cbn; lia.
  - apply is_bytes_splice; [apply bytes32_bytes | done].
  - unfold ino_filesize. change 0 with (Z.of_nat 0). apply get32_splice; [lia | done].
  - intros i b Hi. pose proof (lookup_lt_Some _ _ _ Hi). rewrite Hother by lia. by apply Hk.
  - intros i Hi. rewrite Hother by lia. by apply Hz.
Qed.

(** The three blocks that are written last. *)
Definition written (fid : Z) (inode md bat g : bytes) : bytes :=
  put_block TFS_ALLOCATION_BLOCK bat (put_block TFS_DIRECTORY_BLOCK md (put_block fid inode g)).

Lemma written_blocks f fid g ino0 inode bat blks md :
  image_ok f → copying f fid g ino0 bat blks → length inode = 512%nat → is_bytes inode → dir_ok md →
  length (written fid inode md bat g) = length f ∧
  (∀ c, im_block (Im (written fid inode md bat g)) c =
     if c =? 1 then bat else if c =? 2 then md else if c =? fid then inode else im_block (Im g) c) ∧
  donly (1 :: 2 :: fid :: blks) (Im f) (Im (written fid inode md bat g)).
Proof.
  intros V C Hl Hb Hd. pose proof (image_total _ V) as Htot. pose proof (copying_total _ _ _ _ _ _ C) as Htg.
  destruct (cp_free _ _ _ _ _ _ C fid) as [Hfid _]; [set_solver |].
  unfold written, TFS_ALLOCATION_BLOCK, TFS_DIRECTORY_BLOCK. set (g1 := put_block fid inode g).
  set (g2 := put_block 2 md g1). set (g3 := put_block 1 bat g2).
  assert (L1 : length g1 = length f) by (unfold g1; rewrite put_block_total; [apply C | lia | done]).
  assert (T1 : im_total (Im g1) = im_total (Im f)) by (unfold im_total; cbn; by rewrite L1).
  assert (L2 : length g2 = length f) by (unfold g2; rewrite put_block_total; [done | lia | apply Hd]).
  assert (T2 : im_total (Im g2) = im_total (Im f)) by (unfold im_total; cbn; by rewrite L2).
  assert (L3 : length g3 = length f) by (unfold g3; rewrite put_block_total; [done | lia | apply C]).
  assert (Hblk : ∀ c, im_block (Im g3) c = if c =? 1 then bat else if c =? 2 then md else if c =? fid then inode else im_block (Im g) c).
  { intros c. unfold g3. rewrite im_block_put by (lia || apply C). unfold g2. rewrite im_block_put by (lia || apply Hd).
    unfold g1. by rewrite im_block_put by (lia || done). }
  split; [done |]. split; [done |]. constructor; try done.
  - apply is_bytes_splice; [apply C |]. apply is_bytes_splice; [apply Hd |]. apply is_bytes_splice; [done |].
    apply (do_inv _ _ _ (cp_only _ _ _ _ _ _ C)).
  - cbn. unfold im_total. cbn. by rewrite L3.
  - intros c Hc. change (im_block (Im g3) c = im_block (Im f) c). rewrite Hblk.
    rewrite !(proj2 (Z.eqb_neq c _)) by set_solver. apply (do_block _ _ _ (cp_only _ _ _ _ _ _ C)). set_solver.
Qed.

(** What a successful [tfstool_write] does to the image. *)
Record added (f a src : bytes) (k fid : Z) (blks : list Z) (g : bytes) : Prop := {
  ad_ok : image_ok g;
  ad_len : length g = length f;
  ad_file : tool_file g a k fid (Z.of_nat (length src)) blks;
  ad_data : take (length src) (whole (Im g) blks) = src;
  ad_kept : kept f g;
  ad_new b : b ∈ fid :: blks → marked (im_block (Im f) TFS_ALLOCATION_BLOCK) b = false;
  ad_marks q : 0 ≤ q → marked (im_block (Im g) TFS_ALLOCATION_BLOCK) q =
    bool_decide (q ∈ fid :: blks) || marked (im_block (Im f) TFS_ALLOCATION_BLOCK) q;
  ad_names i : 0 ≤ i < TFS_MAX_FILES → i ≠ k →
    dname (im_block (Im g) TFS_DIRECTORY_BLOCK) i = dname (im_block (Im f) TFS_DIRECTORY_BLOCK) i;
}.

Lemma written_added f a src k fid g inode bat blks :
  image_ok f → copy_result f fid src true (Z.of_nat (length src)) g inode bat blks →
  0 ≤ k < TFS_MAX_FILES → is_bytes a → 0 ∉ a → (length a < 16)%nat →
  (∀ i, 0 ≤ i < TFS_MAX_FILES → dname (im_block (Im f) TFS_DIRECTORY_BLOCK) i ≠ Some a) →
  added f a src k fid blks (written fid (splice 0 (bytes32 (Z.of_nat (length src))) inode)
    (tool_entry k a fid (im_block (Im f) TFS_DIRECTORY_BLOCK)) bat g).
Proof.
  intros V R Hk Hab Ha0 Hal Hno. pose proof (cr_copying _ _ _ _ _ _ _ _ _ R) as C. pose proof (image_total _ V) as Htot.
  pose proof (cr_blocks _ _ _ _ _ _ _ _ _ R) as Hbl. pose proof (cp_max _ _ _ _ _ _ C) as Hmax.
  assert (Hsz : is_u32 (Z.of_nat (length src))) by (unfold is_u32; lia).
  assert (Hge : ∀ b, b ∈ fid :: blks → 3 ≤ b < im_total (Im f)) by (intros b Hb; by apply C).
  pose proof (Hge fid ltac:(set_solver)) as Hfid. set (md := im_block (Im f) TFS_DIRECTORY_BLOCK) in *.
  destruct (tool_entry_ok md k a fid) as (Hd' & Hnk & Hik & Hni); [by apply image_dir | done | done | done | done | unfold is_u32; lia |].
  pose proof (inode_size _ _ (Z.of_nat (length src)) _ (cp_inode _ _ _ _ _ _ C) Hmax Hsz) as Hino.
  set (ino := splice 0 (bytes32 (Z.of_nat (length src))) inode) in *. set (md' := tool_entry k a fid md) in *.
  destruct (written_blocks f fid g inode ino bat blks md' V C (io_len _ _ _ _ Hino) (io_bytes _ _ _ _ Hino) Hd') as (L3 & Hblk & Ho).
  set (g3 := written fid ino md' bat g) in *. unfold TFS_DIRECTORY_BLOCK, TFS_ALLOCATION_BLOCK in *.
  assert (Hm : ∀ q, 0 ≤ q → marked (im_block (Im g3) 1) q = bool_decide (q ∈ fid :: blks) || marked (im_block (Im f) 1) q).
  { intros q Hq. rewrite Hblk. cbn [Z.eqb Pos.eqb]. by apply C. }
  assert (Hd3 : im_block (Im g3) 2 = md') by (by rewrite Hblk).
  assert (V3 : image_ok g3).
  { eapply (image_ok_only _ f); [done | done | exact Ho | unfold TFS_DIRECTORY_BLOCK; by rewrite Hd3 |].
    intros q Hq. unfold TFS_ALLOCATION_BLOCK. rewrite Hm by lia. pose proof (image_system f q V Hq) as Hs.
    unfold TFS_ALLOCATION_BLOCK in Hs. by rewrite Hs, orb_true_r. }
  assert (Hin : ∀ b, b ∈ blks → im_block (Im g3) b = im_block (Im g) b).
  { intros b Hb. pose proof (Hge b ltac:(set_solver)). rewrite Hblk, !(proj2 (Z.eqb_neq b _)); [done | | lia | lia].
    intros ->. pose proof (cp_nodup _ _ _ _ _ _ C) as [? _]%NoDup_cons. done. }
  constructor; try done.
  - constructor; try done; unfold TFS_DIRECTORY_BLOCK, TFS_ALLOCATION_BLOCK.
    + by rewrite Hd3.
    + intros i Hi Hne. rewrite Hd3, Hni by done. by apply Hno.
    + by rewrite Hd3.
    + by rewrite Hblk, !(proj2 (Z.eqb_neq fid _)), Z.eqb_refl by lia.
    + lia.
    + intros b Hb. unfold im_total. cbn. rewrite L3. by apply Hge.
    + apply C.
    + intros b Hb. rewrite Hm by (specialize (Hge b Hb); lia). by rewrite bool_decide_true.
  - pose proof (cr_data _ _ _ _ _ _ _ _ _ R) as E. rewrite Nat2Z.id, firstn_all in E.
    transitivity (take (length src) (whole (Im g) blks)); [| done]. f_equal. unfold whole. f_equal. apply map_ext_in.
    intros b Hb. by apply Hin, list_elem_of_In.
  - apply (kept_only _ f g3 L3 Ho).
    + intros b Hb. repeat (apply elem_of_cons in Hb as [->|Hb]; [first [left; lia | right; apply C; set_solver] |]).
      right. apply C. set_solver.
    + intros q Hq Hq'. unfold TFS_ALLOCATION_BLOCK in *. by rewrite Hm, Hq', orb_true_r by lia.
  - intros b Hb. by apply C.
  - intros i Hi Hne. unfold TFS_DIRECTORY_BLOCK. by rewrite Hd3, Hni.
Qed.

(** A copy that is given up has changed free blocks only. *)
Lemma copying_kept f fid g inode bat blks :
  image_ok f → copying f fid g inode bat blks → image_ok g ∧ kept f g ∧
  im_block (Im g) TFS_ALLOCATION_BLOCK = im_block (Im f) TFS_ALLOCATION_BLOCK ∧
  im_block (Im g) TFS_DIRECTORY_BLOCK = im_block (Im f) TFS_DIRECTORY_BLOCK.
Proof.
  intros V C. assert (Hout : ∀ b, b < 3 → b ∉ blks).
  { intros b Hb Hin. pose proof (cp_free _ _ _ _ _ _ C b ltac:(set_solver)). lia. }
  assert (E1 : im_block (Im g) 1 = im_block (Im f) 1) by (apply (do_block _ _ _ (cp_only _ _ _ _ _ _ C)), Hout; lia).
  assert (E2 : im_block (Im g) 2 = im_block (Im f) 2) by (apply (do_block _ _ _ (cp_only _ _ _ _ _ _ C)), Hout; lia).
  split; [| split; [| done]].
  - eapply image_ok_only; [exact V | apply C | apply C | unfold TFS_DIRECTORY_BLOCK; rewrite E2; by apply image_dir |].
    intros q Hq. unfold TFS_ALLOCATION_BLOCK. rewrite E1. by apply image_system.
  - apply (kept_only blks f g); [apply C | apply C | |].
    + intros b Hb. right. apply C. set_solver.
    + intros q _ Hq. unfold TFS_ALLOCATION_BLOCK in *. by rewrite E1.
Qed.

Lemma kept_refl f : kept f f.
Proof. done. Qed.

(** Nothing has been added to the image. *)
Record unchanged (f g : bytes) : Prop := {
  uc_ok : image_ok g;
  uc_len : length g = length f;
  uc_kept : kept f g;
  uc_bat : im_block (Im g) TFS_ALLOCATION_BLOCK = im_block (Im f) TFS_ALLOCATION_BLOCK;
  uc_dir : im_block (Im g) TFS_DIRECTORY_BLOCK = im_block (Im f) TFS_DIRECTORY_BLOCK;
}.

(** There is no room for a file [a] of [n] bytes. *)
Definition no_room (f a : bytes) (n : Z) : Prop :=
  (∃ i, 0 ≤ i < TFS_MAX_FILES ∧ dname (im_block (Im f) TFS_DIRECTORY_BLOCK) i = Some a) ∨
  (∀ i, 0 ≤ i < TFS_MAX_FILES → md_inode (im_block (Im f) TFS_DIRECTORY_BLOCK) i ≠ Ok 0) ∨
  TFS_MAX_FILESIZE < n ∨ Z.of_nat (length (im_free f)) ≤ 1 + Z.min (n / 512) 126.

Lemma copying_start f fid bat :
  image_ok f → 0 ≤ fid < im_total (Im f) → marked (im_block (Im f) TFS_ALLOCATION_BLOCK) fid = false → bat_ok bat →
  (∀ q, 0 ≤ q → marked bat q = (q =? fid) || marked (im_block (Im f) TFS_ALLOCATION_BLOCK) q) →
  3 ≤ fid ∧ copying f fid f (replicate 512 0) bat [].
Proof.
  intros V Hf Hm Hb Hq. assert (Hf3 : 3 ≤ fid).
  { destruct (decide (fid < 3)); [| lia]. rewrite (image_system f fid) in Hm; [done | done | lia]. }
  assert (Hz : ∀ i, 0 ≤ i < 127 → ino_block (replicate 512 0) i = Ok 0).
  { intros i Hi. assert (Hc : match ino_block (replicate 512 0) i with Ok z => z =? 0 | _ => false end = true).
    { revert i Hi. apply range_check. by vm_compute. }
    destruct (ino_block _ i); try done. apply Z.eqb_eq in Hc. by subst. }
  split; [done |]. constructor; try done.
  - constructor; try done. apply (do_inv _ _ _ (dsame_only [] _ _ (dsame_refl _ (proj1 (vo_dev _ _ V))))).
  - constructor; try done; by apply Forall_replicate.
  - cbn. lia.
  - intros q H0. rewrite Hq by done. f_equal. destruct (Z.eqb_spec q fid) as [->|]; symmetry;
      [apply bool_decide_true; set_solver | apply bool_decide_false; set_solver].
  - apply NoDup_singleton.
  - intros b ->%list_elem_of_singleton. split; [lia | done].
Qed.

Section write.
Context (may_open : bytes → fmode → bool) (disk source target a src f : bytes) (h : host).
Hypothesis Hdisk : h !! disk = Some f.
Hypothesis Hsrc : h !! source = Some src.
Hypothesis Hne : source ≠ disk.
Hypothesis V : image_ok f.
Hypothesis Hsb : is_bytes src.
Hypothesis Hsl : Z.of_nat (length src) < 2 ^ 32.
Hypothesis Ha : name_array target a.

(** What [tfstool_write] leaves. *)
Definition write_post (r : option unit) (h' : host) : Prop :=
  ∃ g, h' = <[disk := g]> h ∧
    match r with
    | Some _ => ∃ k fid blks, added f a src k fid blks g
    | None => unchanged f g ∧ (may_open disk mode_update = true → may_open source mode_r = true → no_room f a (Z.of_nat (length src)))
    end.

Lemma write_fails :
  (may_open disk mode_update = true → may_open source mode_r = true → no_room f a (Z.of_nat (length src))) → write_post None h.
Proof using Hdisk V.
  intros Hn. exists f. rewrite insert_id by done. split; [done |]. split; [by constructor; try apply kept_refl | done].
Qed.

Lemma write_gives_up fid ok n g inode bat blks :
  copy_result f fid src ok n g inode bat blks → (ok = true → n ≠ Z.of_nat (length src)) → write_post None (<[disk := g]> h).
Proof using V.
  intros R Hn. pose proof (cr_copying _ _ _ _ _ _ _ _ _ R) as C. destruct (copying_kept _ _ _ _ _ _ V C) as (? & ? & ? & ?).
  exists g. split; [done |]. split; [constructor; try done; apply C |]. intros _ _. right. right.
  destruct ok.
  - destruct (cr_ok _ _ _ _ _ _ _ _ _ R eq_refl); [by destruct Hn | by left].
  - right. destruct (cr_full _ _ _ _ _ _ _ _ _ R eq_refl) as [Hm Hf]. pose proof (cr_size _ _ _ _ _ _ _ _ _ R) as Hs.
    unfold TFS_MAX_FILESIZE, TFS_BLOCK_SIZE, TFS_BLOCKS_MAX in Hm.
    pose proof (Z.div_le_mono n (Z.of_nat (length src)) 512 ltac:(lia) ltac:(lia)).
    assert (n / 512 < 127) by (apply Z.div_lt_upper_bound; lia). pose proof (Z.div_pos n 512). lia.
Qed.

Lemma written_wp index fid g inode bat blks n :
  copy_result f fid src true (Z.of_nat (length src)) g inode bat blks → n = Z.of_nat (length src) →
  0 ≤ index < TFS_MAX_FILES →
  (∀ i, 0 ≤ i < TFS_MAX_FILES → dname (im_block (Im f) TFS_DIRECTORY_BLOCK) i ≠ Some a) →
  wp (inode_block ⇐ tpure (put32 inode 0 n);
      write_block disk (Some inode_block) (s32 fid);;;
      md ⇐ tpure (put32 (im_block (Im f) TFS_DIRECTORY_BLOCK) (SIZEOF_DIRENTRY * index) fid);
      name ⇐ tpure (c_strncpy target (Z.to_nat TFS_FILENAME_MAX));
      let md := splice (Z.to_nat (SIZEOF_DIRENTRY * index + 4)) name md in
      write_block disk (Some md) TFS_DIRECTORY_BLOCK;;;
      write_block disk (Some bat) TFS_ALLOCATION_BLOCK) write_post (<[disk := g]> h).
Proof using Hdisk Hsrc Hne V Hsb Hsl Ha.
  intros R -> Hk Hno. pose proof (cr_copying _ _ _ _ _ _ _ _ _ R) as C. pose proof (image_total _ V) as Htot.
  pose proof (copying_total _ _ _ _ _ _ C) as Htg. destruct (cp_free _ _ _ _ _ _ C fid) as [Hfid _]; [set_solver |].
  destruct Ha as (Htb & Htl & Hcs). destruct (strncpy_Ok 16 target a Htl Hcs) as [Hcpy Hal].
  pose proof (image_dir _ V) as Hdir. unfold TFS_MAX_FILES in Hk.
  pose proof (written_added f a src index fid g inode bat blks V R Hk (cstr_is_bytes _ _ Htb Hcs) (proj2 (proj1 (cstr_Some _ _) Hcs)) Hal Hno) as A.
  pose proof (io_len _ _ _ _ (cp_inode _ _ _ _ _ _ C)) as Hil.
  eapply tpure_wp; [change 0 with (Z.of_nat 0); apply put32_Ok; lia |]. apply tbind_wp.
  set (ino := splice 0 _ inode) in *. assert (Hino : length ino = 512%nat) by (unfold ino; rewrite splice_length; cbn; lia).
  eapply (tool_write_wp disk _ ino); [apply lookup_insert_eq | lia | rewrite s32_small by (unfold is_s32; lia); lia | done | done |].
  rewrite insert_insert_eq, (s32_small fid) by (unfold is_s32; lia).
  assert (T1 : im_total (Im (put_block fid ino g)) = im_total (Im f)).
  { unfold im_total. cbn. by rewrite put_block_total, (cp_len _ _ _ _ _ _ C) by (done || lia). }
  eapply tpure_wp.
  { unfold SIZEOF_DIRENTRY. replace (20 * index) with (Z.of_nat (Z.to_nat (20 * index))) by lia. apply put32_Ok. rewrite (dir_len _ Hdir). lia. }
  eapply tpure_wp; [exact Hcpy |]. cbv zeta. apply tbind_wp. fold (tool_entry index a fid (im_block (Im f) TFS_DIRECTORY_BLOCK)).
  set (md := tool_entry _ _ _ _) in *. assert (Hmd : length md = 512%nat).
  { unfold md, tool_entry. rewrite !splice_length; rewrite ?splice_length; rewrite ?length_app, ?length_replicate, ?(dir_len _ Hdir); cbn [length bytes32]; lia. }
  eapply (tool_write_wp disk _ md); [apply lookup_insert_eq | lia | unfold TFS_DIRECTORY_BLOCK; lia | done | done |]. rewrite insert_insert_eq.
  assert (T2 : im_total (Im (put_block TFS_DIRECTORY_BLOCK md (put_block fid ino g))) = im_total (Im f)).
  { unfold im_total. cbn [im_bytes]. rewrite put_block_total; [done | unfold TFS_DIRECTORY_BLOCK; lia | done]. }
  eapply (tool_write_wp disk _ bat); [apply lookup_insert_eq | lia | unfold TFS_ALLOCATION_BLOCK; lia | done | apply C |]. rewrite insert_insert_eq.
  eexists. split; [done |]. exists index, fid, blks. exact A.
Qed.

Context (md0 al0 data0 : bytes).
Hypothesis Hjunk : length md0 = 512%nat ∧ length al0 = 512%nat ∧ length data0 = 512%nat ∧ is_bytes data0.

Lemma tfstool_write_wp : wp (tfstool_write may_open disk source target md0 al0 data0) write_post h.
Proof using All.
  pose proof (image_total _ V) as Htot. destruct Hjunk as (Hj1 & Hj2 & Hj3 & Hj4). unfold tfstool_write.
  apply tbind_wp, open_wp; [done | by rewrite Hdisk | intros E; apply write_fails; congruence | intros _].
  apply tbind_wp, open_wp; [done | by rewrite Hsrc | intros E; apply write_fails; congruence | intros _].
  apply tbind_wp, tlift_wp. unfold getfilesize. wp_step. unfold wp at 1, file_of. rewrite Hsrc. wp_step.
  apply tbind_wp. eapply tool_read_block_wp; [done | lia | unfold TFS_DIRECTORY_BLOCK; lia | done |].
  destruct (scan_write_Ok _ target a (image_dir _ V) Ha) as (scan & Hscan & Hs). eapply tpure_wp; [exact Hscan |].
  destruct scan as [index|]; [| apply write_fails; intros _ _; by left].
  destruct Hs as [Hno [[-> Hfull]|[Hk Hfree]]]; [apply write_fails; intros _ _; right; by left |].
  rewrite (proj2 (Z.ltb_ge index 0)) by lia. apply tbind_wp.
  eapply tool_read_block_wp; [done | lia | unfold TFS_ALLOCATION_BLOCK; lia | done |].
  apply tbind_wp, tlift_wp. unfold tfstool_numblocks, getfilesize. wp_step. wp_step. unfold wp at 1, file_of. rewrite Hdisk. wp_steps.
  unfold TFS_BLOCK_SIZE. rewrite Z.quot_div_nonneg by lia. change (Z.of_nat (length f) / 512) with (im_total (Im f)).
  rewrite (u32_small (im_total (Im f))) by (unfold is_u32; lia). rewrite (s32_small (im_total (Im f))) by (unfold is_s32; lia).
  apply tbind_wp. apply block_findnset_wp; [by apply image_bat | lia | |].
  2: { intros Hall. cbn [fst]. change (u32 (-1)) with 0xffffffff. rewrite (proj2 (Z.ltb_ge 0xffffffff _)) by lia. rewrite andb_false_r.
    apply write_fails. intros _ _. right. right. right. pose proof (Z.div_pos (Z.of_nat (length src)) 512).
    assert (im_free f = []) as ->; [| cbn; lia]. apply elem_of_nil_inv.
    intros q [Hm Hq]%list_elem_of_filter. apply elem_of_seqZ in Hq. rewrite Hall in Hm; [done | lia]. }
  intros fid bat Hfid Hm Hbat Hm'. cbn [fst snd]. rewrite u32_small by (unfold is_u32; lia).
  destruct (copying_start f fid bat V Hfid Hm Hbat Hm') as [Hf3 C].
  rewrite (proj2 (Z.ltb_lt 2 fid)), (proj2 (Z.ltb_lt fid _)) by lia. cbn [andb]. apply tbind_wp.
  rewrite <- (insert_id h disk f Hdisk) at 1.
  eapply wp_mono; [apply (copy_in_wp disk source src f fid h Hne Hsrc Hsb Hsl V 128 0 data0 f _ bat []); try done; cbn; lia |].
  intros ? ? (ok & n & inode & bat' & blks & g & -> & -> & R).
  destruct (Z.eqb_spec n (Z.of_nat (length src))) as [En|En]; cbn [negb].
  2: { eapply write_gives_up; [exact R | done]. }
  destruct ok; cbn [negb]; [| by eapply write_gives_up].
  eapply written_wp; [| exact En | exact Hk | exact Hno]. by rewrite <- En.
Qed.
End write.

(** ** [tfstool_read] *)

Section read.
Context (disk target f a : bytes) (k fid n : Z) (blks : list Z) (h : host).
Hypothesis Hdisk : h !! disk = Some f.
Hypothesis Hne : target ≠ disk.
Hypothesis V : image_ok f.
Hypothesis F : tool_file f a k fid n blks.

Lemma file_blocks : Forall (λ b, length b = 512%nat) (im_block (Im f) <$> blks).
Proof using V F.
  apply (whole_blocks (vol f) (Im f) blks (vo_dev _ _ V)). intros b Hb. apply (tf_range _ _ _ _ _ _ F), elem_of_cons. by right.
Qed.

Lemma copy_out_wp m : ∀ i data,
  (i + m = 127)%nat → (i ≤ length blks)%nat → length data = 512%nat →
  wp (copy_out m disk target (im_block (Im f) fid) data (Z.of_nat i) n (Z.min n (512 * Z.of_nat i)))
    (λ r h', is_Some r ∧ h' = <[target := take (Z.to_nat n) (whole (Im f) blks)]> h)
    (<[target := take (Z.to_nat (Z.min n (512 * Z.of_nat i))) (whole (Im f) blks)]> h).
Proof using Hdisk Hne V F.
  pose proof (tf_blocks _ _ _ _ _ _ F) as [Hn Hb]. pose proof (tf_max _ _ _ _ _ _ F) as Hmax. pose proof (image_total _ V) as Htot.
  induction m as [|m IH]; intros i data Hm Hi Hl; cbn [copy_out].
  { assert (i = length blks) as -> by lia. rewrite Z.min_l by lia. split; [eauto | done]. }
  destruct (decide (i = length blks)) as [->|Hne'].
  { eapply tpure_wp; [apply (io_zero _ _ _ _ (tf_inode _ _ _ _ _ _ F)); lia |]. cbn. rewrite Z.min_l by lia. split; [eauto | done]. }
  destruct (lookup_lt_is_Some_2 blks i) as [b Hbi]; [lia |].
  assert (Hbr : 3 ≤ b < im_total (Im f)) by (apply (tf_range _ _ _ _ _ _ F), elem_of_cons; right; by eapply list_elem_of_lookup_2).
  eapply tpure_wp; [by apply (io_block _ _ _ _ (tf_inode _ _ _ _ _ _ F)) |].
  rewrite (proj2 (Z.eqb_neq b 0)) by lia. rewrite s32_small by (unfold is_s32; lia). apply tbind_wp.
  eapply tool_read_block_wp; [by rewrite lookup_insert_ne | lia | lia | done |].
  rewrite (Z.min_r n (512 * Z.of_nat i)) by lia. rewrite u32_small by (unfold is_u32; lia).
  apply tbind_wp, tlift_wp. unfold wp at 1, file_of. rewrite lookup_insert_eq. apply tbind_wp, tlift_wp. unfold set_file. wp_step.
  rewrite insert_insert_eq. set (size := Z.min (n - 512 * Z.of_nat i) TFS_BLOCK_SIZE). unfold TFS_BLOCK_SIZE in size.
  replace (512 * Z.of_nat i + size) with (Z.min n (512 * Z.of_nat (S i))) by (unfold size; lia).
  replace (Z.of_nat i + 1) with (Z.of_nat (S i)) by lia.
  assert (Happ : take (Z.to_nat (512 * Z.of_nat i)) (whole (Im f) blks) ++ take (Z.to_nat size) (im_block (Im f) b) =
    take (Z.to_nat (Z.min n (512 * Z.of_nat (S i)))) (whole (Im f) blks)).
  { pose proof (take_block (im_block (Im f) <$> blks) 0 i (im_block (Im f) b) (Z.to_nat size) file_blocks) as Ht.
    rewrite list_lookup_fmap, Hbi in Ht. specialize (Ht eq_refl ltac:(lia) ltac:(unfold size; lia)).
    rewrite !drop_0, Nat.sub_0_r in Ht. unfold whole. replace (Z.to_nat (512 * Z.of_nat i)) with (512 * i)%nat by lia.
    change (bd_block (Im f)) with (im_block (Im f)). rewrite <- Ht. f_equal. unfold size. lia. }
  rewrite Happ. apply IH; [lia | lia |]. apply (image_block f b V). lia.
Qed.

Lemma tfstool_read_wp may_open name md0 ino0 data0 :
  may_open disk mode_update = true → may_open target mode_w = true → name_array name a →
  length md0 = 512%nat → length ino0 = 512%nat → length data0 = 512%nat →
  wp (tfstool_read may_open disk name target md0 ino0 data0)
    (λ r h', r = Some tt ∧ h' = <[target := take (Z.to_nat n) (whole (Im f) blks)]> h) h.
Proof using Hdisk Hne V F.
  intros Hmd Hmt Ha H1 H2 H3. pose proof (image_total _ V) as Htot. unfold tfstool_read.
  apply tbind_wp, open_wp; [done | by rewrite Hdisk | congruence | intros _].
  apply tbind_wp. unfold openfile, fopen. apply tbind_wp, tlift_wp. wp_steps. rewrite Hmt. cbn [negb]. unfold set_file. wp_steps.
  set (h1 := <[target := []]> h). assert (Hd1 : h1 !! disk = Some f) by (unfold h1; by rewrite lookup_insert_ne).
  apply tbind_wp. eapply tool_read_block_wp; [exact Hd1 | lia | unfold TFS_DIRECTORY_BLOCK; lia | done |].
  pose proof (tf_entry _ _ _ _ _ _ F) as Hk. pose proof (tf_range _ _ _ _ _ _ F fid ltac:(set_solver)) as Hf.
  eapply tpure_wp; [by apply scan_name_Ok, Ha; apply image_dir |].
  rewrite (find_idx_unique _ _ k); [| unfold TFS_MAX_FILES in *; lia | apply bool_decide_true, F |].
  2: { intros i Hi Hik. apply bool_decide_false, (tf_only _ _ _ _ _ _ F); [unfold TFS_MAX_FILES in *; lia | done]. }
  change (default (-1) (Some k)) with k. rewrite (proj2 (Z.ltb_ge k 0)) by (unfold TFS_MAX_FILES in *; lia).
  eapply tpure_wp; [apply F |]. rewrite s32_small by (unfold is_s32; lia).
  apply tbind_wp. eapply tool_read_block_wp; [exact Hd1 | lia | lia | done |].
  eapply tpure_wp; [apply (io_size _ _ _ _ (tf_inode _ _ _ _ _ _ F)) |]. apply tbind_wp.
  pose proof (copy_out_wp 127 0 data0 eq_refl ltac:(lia) H3) as Hw. pose proof (tf_blocks _ _ _ _ _ _ F) as [Hn _].
  rewrite Z.min_r in Hw by lia. eapply wp_mono; [exact Hw |]. intros r h' [[x ->] ->]. done.
Qed.
End read.

(** ** [tfstool_delete] *)

Lemma release_wp (ino : bytes) (n : Z) (blks : list Z) (h : host) : ∀ (m i : nat) (bat : bytes) (Q : option bytes → host → Prop),
  inode_ok ino n blks 127 → (length blks ≤ 127)%nat → (∀ b, b ∈ blks → 3 ≤ b < 4096) → bat_ok bat →
  (i + m = 127)%nat → (i ≤ length blks)%nat →
  (∀ bat', bat_ok bat' → (∀ q, 0 ≤ q → marked bat' q = negb (bool_decide (q ∈ drop i blks)) && marked bat q) → Q (Some bat') h) →
  wp (release_blocks m (Z.of_nat i) ino bat) Q h.
Proof.
  induction m as [|m IH]; intros i bat Q Hino Hmax Hr Hbat Hm Hi HQ; cbn [release_blocks].
  - apply HQ; [done |]. intros q _. rewrite drop_ge by lia. rewrite bool_decide_false by set_solver. done.
  - destruct (decide (i = length blks)) as [->|Hne].
    { eapply tpure_wp; [apply (io_zero _ _ _ _ Hino); lia |]. cbn [Z.eqb]. apply HQ; [done |]. intros q _.
      rewrite drop_ge by lia. rewrite bool_decide_false by set_solver. done. }
    destruct (lookup_lt_is_Some_2 blks i) as [b Hb]; [lia |].
    pose proof (Hr b (list_elem_of_lookup_2 _ _ _ Hb)) as Hbr.
    eapply tpure_wp; [by apply (io_block _ _ _ _ Hino) |]. rewrite (proj2 (Z.eqb_neq b 0)) by lia.
    rewrite s32_small by (unfold is_s32; lia). apply tbind_wp. apply (block_set_wp bat b false); [done | lia |].
    intros bat1 Hbat1 Hm1. replace (Z.of_nat i + 1) with (Z.of_nat (S i)) by lia.
    apply IH; [done | done | done | done | lia | lia |]. intros bat2 Hbat2 Hm2. apply HQ; [done |].
    intros q H0. rewrite Hm2, Hm1, (drop_S _ _ _ Hb) by done.
    destruct (Z.eqb_spec q b) as [->|Hqb].
    + rewrite andb_false_r, bool_decide_true by set_solver. done.
    + f_equal. f_equal. apply bool_decide_ext. rewrite elem_of_cons. tauto.
Qed.

(** What [tfstool_delete] of the file does to the image. *)
Record deleted (f : bytes) (k fid : Z) (blks : list Z) (g : bytes) : Prop := {
  dl_ok : image_ok g;
  dl_len : length g = length f;
  dl_only : donly [TFS_ALLOCATION_BLOCK; TFS_DIRECTORY_BLOCK] (Im f) (Im g);
  dl_entry : dname (im_block (Im g) TFS_DIRECTORY_BLOCK) k = Some [] ∧ md_inode (im_block (Im g) TFS_DIRECTORY_BLOCK) k = Ok 0;
  dl_others i : 0 ≤ i < TFS_MAX_FILES → i ≠ k →
    dname (im_block (Im g) TFS_DIRECTORY_BLOCK) i = dname (im_block (Im f) TFS_DIRECTORY_BLOCK) i ∧
    md_inode (im_block (Im g) TFS_DIRECTORY_BLOCK) i = md_inode (im_block (Im f) TFS_DIRECTORY_BLOCK) i;
  dl_marks q : 0 ≤ q → marked (im_block (Im g) TFS_ALLOCATION_BLOCK) q =
    negb (bool_decide (q ∈ fid :: blks)) && marked (im_block (Im f) TFS_ALLOCATION_BLOCK) q;
}.

Lemma cleared_deleted f k fid blks bat :
  image_ok f → 0 ≤ k < TFS_MAX_FILES → (∀ b, b ∈ fid :: blks → 3 ≤ b) → bat_ok bat →
  (∀ q, 0 ≤ q → marked bat q = negb (bool_decide (q ∈ fid :: blks)) && marked (im_block (Im f) TFS_ALLOCATION_BLOCK) q) →
  deleted f k fid blks (put_block TFS_DIRECTORY_BLOCK (clear_entry k (im_block (Im f) TFS_DIRECTORY_BLOCK))
    (put_block TFS_ALLOCATION_BLOCK bat f)).
Proof.
  intros V Hk Hge Hbat Hm. pose proof (image_total _ V) as Htot. pose proof (image_dir _ V) as Hdir.
  destruct (write_entry_ok _ k [] 0 Hdir Hk) as (Hd' & Hn' & Hi' & Ho'); [constructor | set_solver | cbn; lia | done |].
  change (write_entry k [] 0) with (clear_entry k) in *. set (md := clear_entry k _) in *.
  set (g1 := put_block TFS_ALLOCATION_BLOCK bat f). set (g2 := put_block TFS_DIRECTORY_BLOCK md g1).
  unfold TFS_ALLOCATION_BLOCK, TFS_DIRECTORY_BLOCK in *.
  assert (L1 : length g1 = length f) by (unfold g1; apply put_block_total; [lia | apply Hbat]).
  assert (T1 : im_total (Im g1) = im_total (Im f)) by (unfold im_total; cbn; by rewrite L1).
  assert (L2 : length g2 = length f) by (unfold g2; rewrite put_block_total; [done | lia | apply Hd']).
  assert (Hblk : ∀ c, im_block (Im g2) c = if c =? 2 then md else if c =? 1 then bat else im_block (Im f) c).
  { intros c. unfold g2. rewrite im_block_put by (lia || apply Hd'). unfold g1. by rewrite im_block_put by (lia || apply Hbat). }
  assert (Hf : is_bytes f) by apply (proj1 (vo_dev _ _ V)).
  assert (Ho : donly [1; 2] (Im f) (Im g2)).
  { eapply donly_trans; eapply donly_sub; [apply (donly_put f 1 bat Hf); [apply Hbat | lia | apply Hbat] | set_solver |
      apply (donly_put g1 2 md); [apply is_bytes_splice; [apply Hbat | done] | apply Hd' | lia | apply Hd'] | set_solver]. }
  assert (E1 : im_block (Im g2) 1 = bat) by (by rewrite Hblk). assert (E2 : im_block (Im g2) 2 = md) by (by rewrite Hblk).
  constructor; unfold TFS_ALLOCATION_BLOCK, TFS_DIRECTORY_BLOCK; rewrite ?E1, ?E2; try done.
  eapply (image_ok_only _ f); [done | done | exact Ho | unfold TFS_DIRECTORY_BLOCK; by rewrite E2 |].
  intros q Hq. unfold TFS_ALLOCATION_BLOCK. rewrite E1, Hm by lia. rewrite bool_decide_false.
  - apply (image_system f q V Hq).
  - intros Hin. specialize (Hge q Hin). lia.
Qed.

Lemma tfstool_delete_wp (may_open : bytes → fmode → bool) (disk name : bytes) (f a : bytes) (k fid n : Z) (blks : list Z) (h : host) :
  h !! disk = Some f → image_ok f → tool_file f a k fid n blks → name_array name a → may_open disk mode_update = true →
  wp (tfstool_delete may_open disk name) (λ r h', r = Some tt ∧ ∃ g, h' = <[disk := g]> h ∧ deleted f k fid blks g) h.
Proof.
  intros Hdisk V F Ha Hmo. pose proof (image_total _ V) as Htot. unfold tfstool_delete.
  apply tbind_wp, open_wp; [done | by rewrite Hdisk | congruence | intros _].
  apply tbind_wp. eapply tool_read_block_wp; [exact Hdisk | lia | unfold TFS_DIRECTORY_BLOCK; lia | apply length_replicate |].
  pose proof (tf_entry _ _ _ _ _ _ F) as Hk. pose proof (tf_range _ _ _ _ _ _ F) as Hr.
  pose proof (Hr fid ltac:(set_solver)) as Hf.
  eapply tpure_wp; [by apply scan_name_Ok, Ha; apply image_dir |].
  rewrite (find_idx_unique _ _ k); [| unfold TFS_MAX_FILES in *; lia | apply bool_decide_true, F |].
  2: { intros i Hi Hik. apply bool_decide_false, (tf_only _ _ _ _ _ _ F); [unfold TFS_MAX_FILES in *; lia | done]. }
  change (default (-1) (Some k)) with k. rewrite (proj2 (Z.ltb_ge k 0)) by (unfold TFS_MAX_FILES in *; lia).
  apply tbind_wp. eapply tool_read_block_wp; [exact Hdisk | lia | unfold TFS_ALLOCATION_BLOCK; lia | apply length_replicate |].
  eapply tpure_wp; [apply F |]. rewrite s32_small by (unfold is_s32; lia).
  apply tbind_wp. eapply tool_read_block_wp; [exact Hdisk | lia | lia | apply length_replicate |].
  apply tbind_wp. apply (release_wp _ n blks h (Z.to_nat TFS_BLOCKS_MAX) 0); [apply F | apply F | intros b Hb; pose proof (Hr b ltac:(set_solver)); lia | by apply image_bat | done | lia |].
  intros bat1 Hbat1 Hm1. rewrite drop_0 in Hm1. apply tbind_wp. apply (block_set_wp bat1 fid false); [done | lia |].
  intros bat2 Hbat2 Hm2. cbn [snd]. pose proof (image_dir _ V) as Hdir.
  pose proof (clear_entry_Ok _ k (dir_len _ Hdir) Hk) as Hclear.
  destruct (put32 _ (SIZEOF_DIRENTRY * k) 0) as [md1| | | |] eqn:Hput; try done. cbn in Hclear.
  eapply tpure_wp; [done |]. eapply tpure_wp; [exact Hclear |].
  assert (D : deleted f k fid blks (put_block TFS_DIRECTORY_BLOCK (clear_entry k (im_block (Im f) TFS_DIRECTORY_BLOCK))
    (put_block TFS_ALLOCATION_BLOCK bat2 f))).
  { apply cleared_deleted; [done | done | intros b Hb; by apply Hr | done |]. intros q H0. rewrite Hm2, Hm1 by done.
    destruct (Z.eqb_spec q fid) as [->|Hq]; [by rewrite bool_decide_true by set_solver |]. f_equal. f_equal.
    apply bool_decide_ext. rewrite elem_of_cons. tauto. }
  set (md := clear_entry k _) in *. unfold TFS_ALLOCATION_BLOCK, TFS_DIRECTORY_BLOCK in *. apply tbind_wp.
  eapply (tool_write_wp disk _ bat2); [exact Hdisk | lia | lia | done | apply Hbat2 |].
  assert (L1 : length (put_block 1 bat2 f) = length f) by (apply put_block_total; [lia | apply Hbat2]).
  assert (T1 : im_total (Im (put_block 1 bat2 f)) = im_total (Im f)) by (unfold im_total; cbn; by rewrite L1).
  eapply (tool_write_wp disk _ md); [apply lookup_insert_eq | lia | lia | done | |].
  { destruct (write_entry_ok _ k [] 0 Hdir Hk) as (Hd' & _); [constructor | set_solver | cbn; lia | done | apply Hd']. }
  rewrite insert_insert_eq. split; [done |]. eexists. split; [done | exact D].
Qed.

(** ** [tfstool_createvol] *)

Lemma append_wp (disk : bytes) (data : option bytes) (x : bytes) (b : Z) (h : host) (f : bytes) (Q : option unit → host → Prop) :
  h !! disk = Some f → 0 ≤ b ≤ 4096 → length f = Z.to_nat (512 * b) →
  default (replicate 512 0) data = x → length x = 512%nat →
  Q (Some tt) (<[disk := f ++ x]> h) → wp (write_block disk data b) Q h.
Proof.
  intros Hf Hb Hl <- Hx HQ. unfold write_block. apply tbind_wp, seek_block_wp; [lia |].
  apply tbind_wp, tlift_wp. unfold wp at 1, file_of. rewrite Hf. apply tlift_wp. unfold set_file. wp_step. unfold file_put, splice.
  rewrite Hx. replace (Z.to_nat (512 * b) + 512 - length f)%nat with 512%nat by lia.
  rewrite take_app_length', drop_ge by (rewrite ?length_app, ?length_replicate; lia). by rewrite app_nil_r.
Qed.

Lemma zero_blocks_wp (disk : bytes) k : ∀ (i : Z) (h : host) (f : bytes) (Q : option unit → host → Prop),
  h !! disk = Some f → 0 ≤ i → i + Z.of_nat k ≤ 4096 → length f = Z.to_nat (512 * i) →
  Q (Some tt) (<[disk := f ++ replicate (512 * k) 0]> h) → wp (zero_blocks disk k i) Q h.
Proof.
  induction k as [|k IH]; intros i h f Q Hf Hi Hk Hl HQ; cbn [zero_blocks].
  - rewrite Nat.mul_0_r in HQ. cbn [replicate] in HQ. rewrite app_nil_r, insert_id in HQ by done. done.
  - apply tbind_wp. eapply (append_wp disk _ (replicate 512 0)); [exact Hf | lia | done | done | apply length_replicate |].
    eapply IH; [apply lookup_insert_eq | lia | lia | rewrite length_app, length_replicate; lia |].
    rewrite insert_insert_eq, <- app_assoc, <- replicate_add. by replace (512 + 512 * k)%nat with (512 * S k)%nat by lia.
Qed.

(** The image that is made. *)
Definition volume_header (volumename : bytes) : bytes :=
  splice 4 (take 16 volumename) (splice 0 (bytes32 TFS_MAGIC) (replicate 512 0)).
Definition new_image (size : Z) (volumename bat : bytes) : bytes :=
  ((volume_header volumename ++ bat) ++ replicate 512 0) ++ replicate (512 * Z.to_nat (size - 3)) 0.

Lemma header_length vn : length vn = 16%nat → length (volume_header vn) = 512%nat.
Proof.
  intros Hv. assert (length (splice 0 (bytes32 TFS_MAGIC) (replicate 512 0)) = 512%nat) as Hl.
  { rewrite splice_length; rewrite length_replicate; cbn [length bytes32]; lia. }
  unfold volume_header. rewrite splice_length; rewrite Hl; [done |]. rewrite length_take. lia.
Qed.

Lemma vheader_ok vn a : name_array vn a →
  get32 (volume_header vn) 0 = Ok TFS_MAGIC ∧ cstr (drop 4 (volume_header vn)) = Some a.
Proof.
  intros (Hb & Hl & Ha). unfold volume_header. rewrite (take_ge vn) by lia. split.
  - change 0 with (Z.of_nat 0). rewrite (get32_ext (splice 0 (bytes32 TFS_MAGIC) (replicate 512 0))).
    + apply get32_splice; [rewrite length_replicate; lia | done].
    + rewrite splice_length; rewrite length_replicate; cbn; lia.
    + rewrite !splice_length; rewrite ?splice_length; rewrite ?length_replicate; cbn [length bytes32]; lia.
    + apply slice_splice_other; [rewrite splice_length; rewrite ?length_replicate; cbn [length bytes32]; lia | lia].
  - apply (cstr_take 16). rewrite <- Hl at 1. rewrite splice_slice; [done |].
    rewrite splice_length; rewrite length_replicate; cbn [length bytes32]; lia.
Qed.

Lemma new_image_blocks size vn bat :
  3 ≤ size ≤ 4096 → name_array vn (default [] (cstr vn)) → bat_ok bat →
  let g := new_image size vn bat in
  length g = Z.to_nat (512 * size) ∧ is_bytes g ∧ im_block (Im g) 0 = volume_header vn ∧ im_block (Im g) 1 = bat ∧
  im_block (Im g) 2 = replicate 512 0.
Proof.
  intros Hs (Hb & Hl & _) Hbat g. pose proof (header_length vn Hl) as Hh. pose proof (bat_len _ Hbat) as Hbl.
  unfold g, new_image, im_block. cbn [im_bytes]. split; [rewrite !length_app, !length_replicate; lia |]. split.
  { apply Forall_app; split; [| by apply Forall_replicate]. apply Forall_app; split; [| by apply Forall_replicate].
    apply Forall_app; split; [| apply Hbat]. apply is_bytes_splice; [by apply Forall_take |]. apply is_bytes_splice; [apply bytes32_bytes | by apply Forall_replicate]. }
  rewrite <- !app_assoc. split; [cbn [Z.ltb]; by rewrite drop_0, take_app_length' | split].
  - change (Z.to_nat (512 * 1)) with 512%nat. cbn [Z.ltb]. by rewrite drop_app_length', take_app_length'.
  - change (Z.to_nat (512 * 2)) with (512 + 512)%nat. cbn [Z.ltb]. rewrite <- drop_drop, drop_app_length', drop_app_length' by done.
    by rewrite take_app_length' by (by rewrite length_replicate).
Qed.

Lemma zero_dir : dir_ok (replicate 512 0) ∧ ∀ i, 0 ≤ i < TFS_MAX_FILES → dname (replicate 512 0) i = Some [] ∧ md_inode (replicate 512 0) i = Ok 0.
Proof.
  assert (Hz : ∀ i, 0 ≤ i < TFS_MAX_FILES → dname (replicate 512 0) i = Some [] ∧ md_inode (replicate 512 0) i = Ok 0).
  { intros i Hi. assert (Hc : match dname (replicate 512 0) i, md_inode (replicate 512 0) i with Some [], Ok z => z =? 0 | _, _ => false end = true).
    { revert i Hi. apply range_check. by vm_compute. }
    destruct (dname _ i) as [[|]|]; try done. destruct (md_inode _ i); try done. apply Z.eqb_eq in Hc. by subst. }
  split; [| done]. constructor; [done | by apply Forall_replicate |]. intros i Hi. rewrite (proj1 (Hz i Hi)). eauto.
Qed.

(** The header block has the magic number and the name. *)
Definition tfs_header (d : image) (a : bytes) : Prop :=
  get32 (im_block d TFS_HEADER_BLOCK) 0 = Ok TFS_MAGIC ∧ cstr (drop 4 (im_block d TFS_HEADER_BLOCK)) = Some a.

(** The image is a volume without files. *)
Record empty_volume (g : bytes) (size : Z) (a : bytes) : Prop := {
  ev_ok : image_ok g;
  ev_len : Z.of_nat (length g) = 512 * size;
  ev_header : tfs_header (Im g) a;
  ev_dir i : 0 ≤ i < TFS_MAX_FILES →
    dname (im_block (Im g) TFS_DIRECTORY_BLOCK) i = Some [] ∧ md_inode (im_block (Im g) TFS_DIRECTORY_BLOCK) i = Ok 0;
  ev_free q : 3 ≤ q → marked (im_block (Im g) TFS_ALLOCATION_BLOCK) q = false;
}.

Lemma new_image_ok size vn a bat :
  3 ≤ size ≤ 4096 → name_array vn a → bat_ok bat → (∀ q, 0 ≤ q → marked bat q = (q <? 3)) →
  empty_volume (new_image size vn bat) size a.
Proof.
  intros Hs Hv Hbat Hm. pose proof Hv as (Hvb & Hvl & Hva).
  destruct (new_image_blocks size vn bat Hs) as (Hl & Hb & E0 & E1 & E2); [by rewrite Hva | done |].
  destruct zero_dir as [Hzd Hz]. set (g := new_image size vn bat) in *.
  assert (Ht : im_total (Im g) = size) by (unfold im_total; cbn [im_bytes]; rewrite Hl, Z2Nat.id, Z.mul_comm, Z.div_mul by lia; done).
  constructor; unfold TFS_DIRECTORY_BLOCK, TFS_ALLOCATION_BLOCK; rewrite ?E1, ?E2.
  - constructor; try done.
    + split; [done |]. split; [done |]. change (3 ≤ im_total (Im g) ≤ 4096 ∧ im_total (Im g) ≤ im_total (Im g)). lia.
    + by apply Forall_replicate.
    + change (dir_ok (im_block (Im g) 2)). by rewrite E2.
    + intros q Hq. change (marked (im_block (Im g) 1) q = true). rewrite E1, Hm by lia. apply Z.ltb_lt. lia.
  - lia.
  - change (get32 (im_block (Im g) 0) 0 = Ok TFS_MAGIC ∧ cstr (drop 4 (im_block (Im g) 0)) = Some a). rewrite E0. by apply vheader_ok.
  - done.
  - intros q Hq. rewrite Hm by lia. apply Z.ltb_ge. lia.
Qed.

Section createvol.
Context (may_open : bytes → fmode → bool) (disk : bytes) (size : Z) (vn a : bytes) (h : host).
Hypothesis Hs : size ≤ 4096.
Hypothesis Hv : name_array vn a.

(** What [tfstool_createvol] leaves. *)
Definition create_result (r : option unit) (h' : host) : Prop :=
  match r with
  | None => h' = h ∧ (is_Some (h !! disk) ∨ size < 3 ∨ may_open disk mode_w = false)
  | Some _ => 3 ≤ size ∧ ∃ g, h' = <[disk := g]> h ∧ empty_volume g size a
  end.

Lemma create_blocks_wp (al : list Z) :
  bitmap_wf 128 al → (∀ q, bit al q = false) → 3 ≤ size →
  wp (openfile may_open disk mode_w;;;
      write_block disk (Some (volume_header vn)) TFS_HEADER_BLOCK;;;
      allocation ⇐ on_block (of_words al) (tool_bitmap_set TFS_HEADER_BLOCK 1);
      allocation ⇐ on_block (snd allocation) (tool_bitmap_set TFS_ALLOCATION_BLOCK 1);
      allocation ⇐ on_block (snd allocation) (tool_bitmap_set TFS_DIRECTORY_BLOCK 1);
      write_block disk (Some (splice 0 (take 512 (snd allocation)) (replicate 512 0))) TFS_ALLOCATION_BLOCK;;;
      write_block disk None TFS_DIRECTORY_BLOCK;;;
      zero_blocks disk (Z.to_nat (size - 3)) 3) create_result h.
Proof using Hs Hv.
  intros Hwf Hz H3. destruct (bat_of_words al Hwf) as [Hb0 Hm0].
  apply tbind_wp. unfold openfile, fopen. apply tbind_wp, tlift_wp. wp_steps.
  destruct (may_open disk mode_w) eqn:Hmo; cbn [negb]; [| wp_step; split; [done | by right; right]]. unfold set_file. wp_steps.
  apply tbind_wp. pose proof Hv as (_ & Hvl & _). pose proof (header_length vn Hvl) as Hhl.
  eapply (append_wp disk _ (volume_header vn)); [apply lookup_insert_eq | done | done | done | done |]. rewrite insert_insert_eq, app_nil_l.
  apply tbind_wp, (block_set_wp _ _ true); [done | done |]. intros b1 Hb1 Hm1. cbn [snd].
  apply tbind_wp, (block_set_wp _ _ true); [done | done |]. intros b2 Hb2 Hm2. cbn [snd].
  apply tbind_wp, (block_set_wp _ _ true); [done | done |]. intros b3 Hb3 Hm3. cbn [snd].
  pose proof (bat_len _ Hb3) as Hl3. rewrite (take_ge b3) by lia. rewrite splice_full by (by rewrite length_replicate).
  apply tbind_wp. eapply (append_wp disk _ b3); [apply lookup_insert_eq | done | done | done | done |]. rewrite insert_insert_eq.
  apply tbind_wp. eapply (append_wp disk _ (replicate 512 0)); [apply lookup_insert_eq | done | by rewrite length_app, Hhl, Hl3 | done | by rewrite length_replicate |].
  rewrite insert_insert_eq. eapply zero_blocks_wp; [apply lookup_insert_eq | lia | lia | rewrite !length_app, length_replicate; lia |].
  rewrite insert_insert_eq. split; [lia |]. eexists. split; [done |]. apply (new_image_ok size vn a b3); [lia | done | done |].
  intros q Hq. rewrite Hm3, Hm2, Hm1, Hm0, Hz by done. unfold TFS_DIRECTORY_BLOCK, TFS_ALLOCATION_BLOCK, TFS_HEADER_BLOCK.
  destruct (Z.eqb_spec q 2), (Z.eqb_spec q 1), (Z.eqb_spec q 0), (Z.ltb_spec q 3); done || lia.
Qed.

Lemma createvol_wp allocation0 :
  length allocation0 = 128%nat → wp (tfstool_createvol may_open disk size vn allocation0) create_result h.
Proof using Hs Hv.
  intros Hal. unfold tfstool_createvol.
  assert (Hw : wp (tool_bitmap_init (8 * TFS_BLOCK_SIZE)) (λ _ b', bitmap_wf 128 b' ∧ ∀ q, bit b' q = false) allocation0).
  { pose proof (bitmap_init_zero allocation0 4096 Hal ltac:(lia)) as Hb. rewrite Hal in Hb. exact Hb. }
  apply wp_iff in Hw as ([] & al & E & Hwf & Hz). eapply tpure_wp; [rewrite E; done |]. cbn [snd].
  apply tbind_wp, tlift_wp. unfold fopen at 1. wp_steps. unfold id.
  destruct (may_open disk mode_r); cbn [negb]; wp_step.
  - case_bool_decide as Hx; [split; [done | by left] |]. destruct (Z.ltb_spec size 3); [split; [done | by right; left] |].
    refine (create_blocks_wp al Hwf Hz _). lia.
  - destruct (Z.ltb_spec size 3); [split; [done | by right; left] |]. refine (create_blocks_wp al Hwf Hz _). lia.
Qed.
End createvol.

(** ** The properties *)

(** The kernel finds a file and reads it. *)
Lemma kernel_reads bat_addr g a k fid n blks target baddr buf :
  image_ok g → tool_file g a k fid n blks → name_array target a → n ≤ Z.of_nat (length buf) →
  ∃ t2 d2 t3 d3, tfs_open target (vol g, Im g) = Ok (fid, (t2, d2)) ∧
    tfs_read bat_addr fid baddr buf n 0 (t2, d2) =
      Ok ((n, splice 0 (take (Z.to_nat n) (whole (Im g) blks)) buf), (t3, d3)).
Proof.
  intros V F (Htb & Htl & Ha) Hbuf. pose proof (image_total _ V) as Htot. pose proof (tool_file_is_file _ _ _ _ _ _ F) as [Hf _].
  pose proof (tf_range _ _ _ _ _ _ F fid ltac:(set_solver)) as Hfid. pose proof (tf_entry _ _ _ _ _ _ F) as Hk.
  destruct (tf_blocks _ _ _ _ _ _ F) as [Hn _].
  pose proof (tfs_open_wp (vol g) (Im g) target a (vo_dev _ _ V) eq_refl (vo_dir _ _ V) Htb Ha) as Hwp.
  apply wp_iff in Hwp as (r & [t2 d2] & E & Hl2 & Ht2 & Hs2 & Hr). cbv zeta in Hr. destruct Hr as [[_ []]|Hr]; [done |].
  rewrite (find_idx_unique _ _ k) in Hr; [| unfold TFS_MAX_FILES in *; lia | apply bool_decide_true, F |].
  2: { intros i Hi Hik. apply bool_decide_false, (tf_only _ _ _ _ _ _ F); [unfold TFS_MAX_FILES in *; lia | done]. }
  destruct Hr as (v & Hv & ->). change (md_inode (im_block (Im g) TFS_DIRECTORY_BLOCK) k = Ok v) in Hv.
  rewrite (tf_ino _ _ _ _ _ _ F) in Hv. injection Hv as <-. rewrite s32_small in E by (unfold is_s32; lia).
  assert (Hd2 : dev_ok t2 d2).
  { destruct (dev_ok_same _ _ _ (vo_dev _ _ V) Hs2) as (? & ? & ? & ?). split; [done |]. split; [done |]. by rewrite Ht2. }
  assert (Hf2 : is_file t2 d2 fid n (data_blocks n blks)).
  { eapply is_file_same; [| exact Hs2]. destruct Hf. constructor; try done; by rewrite Ht2. }
  pose proof (tfs_read_wp bat_addr t2 d2 fid n _ baddr buf n 0 Hd2 Hl2 Hf2 ltac:(lia)) as Hwp.
  apply wp_iff in Hwp as (r & [t3 d3] & E3 & _ & _ & _ & _ & Hr). rewrite (proj2 (Z.ltb_ge n 0)) in Hr by done. cbn [Z.ltb orb] in Hr.
  destruct Hr as [[_ Hno]|Hr]; [by destruct Hno; apply (ds_reliable _ _ Hs2) |]. cbv zeta in Hr.
  exists t2, d2, t3, d3. split; [done |]. rewrite E3, Hr. rewrite Z.sub_0_r, Z.min_id. rewrite drop_0.
  unfold contents. rewrite take_take, Nat.min_id. rewrite (whole_same _ _ _ Hs2).
  by rewrite <- (tool_file_contents _ _ _ _ _ _ V F).
Qed.

(** C32: a file that the tool writes into an image is the file that the kernel
    and the tool read.  [tfstool_write] of a host file into an image changes no
    file that is in the image.  When it fails, the directory and the bitmap
    are as they were, and, if the user may open the files, the name exists,
    the directory is full, the file is longer than 65024 bytes or there are
    too few free blocks.  When it succeeds, [tfs_open] and [tfs_read] of the
    kernel deliver the bytes of the host file, and [tfstool_read] copies them
    to a file of the host. *)
Theorem tool_write_read (may_open : bytes → fmode → bool) (disk source target a src f : bytes) (h : host) (md0 al0 data0 : bytes) :
  h !! disk = Some f → h !! source = Some src → source ≠ disk → image_ok f → is_bytes src →
  Z.of_nat (length src) < 2 ^ 32 → name_array target a →
  length md0 = 512%nat ∧ length al0 = 512%nat ∧ length data0 = 512%nat ∧ is_bytes data0 →
  ∃ r h' g, tfstool_write may_open disk source target md0 al0 data0 h = Ok (r, h') ∧ h' = <[disk := g]> h ∧ kept f g ∧
    match r with
    | None => unchanged f g ∧
        (may_open disk mode_update = true → may_open source mode_r = true → no_room f a (Z.of_nat (length src)))
    | Some _ =>
        (∀ bat_addr baddr buf, (length src ≤ length buf)%nat → ∃ fid t2 d2 t3 d3,
           tfs_open target (vol g, Im g) = Ok (fid, (t2, d2)) ∧
           tfs_read bat_addr fid baddr buf (Z.of_nat (length src)) 0 (t2, d2) =
             Ok ((Z.of_nat (length src), splice 0 src buf), (t3, d3))) ∧
        (∀ out, out ≠ disk → may_open disk mode_update = true → may_open out mode_w = true →
           tfstool_read may_open disk target out md0 al0 data0 h' = Ok (Some tt, <[out := src]> h'))
    end.
Proof.
  intros Hd Hs Hne V Hsb Hsl Ha Hj.
  pose proof (tfstool_write_wp may_open disk source target a src f h Hd Hs Hne V Hsb Hsl Ha md0 al0 data0 Hj) as Hw.
  apply wp_iff in Hw as (r & h' & E & g & -> & Hr). exists r, (<[disk := g]> h), g. split; [done |]. split; [done |].
  destruct r as [[]|].
  - destruct Hr as (k & fid & blks & [Aok Alen Afile Adata Akept _ _ _]). split; [done |]. split.
    + intros bat_addr baddr buf Hbuf.
      destruct (kernel_reads bat_addr g a k fid _ blks target baddr buf Aok Afile Ha ltac:(lia)) as (t2 & d2 & t3 & d3 & E2 & E3).
      exists fid, t2, d2, t3, d3. rewrite Nat2Z.id, Adata in E3. done.
    + intros out Hout Hm1 Hm2. destruct Hj as (? & ? & ? & _).
      pose proof (tfstool_read_wp disk out g a k fid (Z.of_nat (length src)) blks (<[disk := g]> h) (lookup_insert_eq _ _ _) Hout Aok Afile
        may_open target md0 al0 data0) as Hw.
      apply wp_iff in Hw as (r & h2 & E2 & -> & ->); [| done..]. rewrite E2, Nat2Z.id. by rewrite Adata.
  - destruct Hr as [U Hn]. split; [apply U | done].
Qed.

(** deleting a file frees its blocks and nothing else.  [tfstool_delete] of
    a file of an image succeeds; the kernel does not find the name any more,
    the blocks of the file and of its inode are free, no other mark and no
    other entry of the directory has changed, and every file that shares no
    block with it is there as it was. *)
Theorem tool_delete_frees (may_open : bytes → fmode → bool) (disk name a f : bytes) (k fid n : Z) (blks : list Z) (h : host) :
  h !! disk = Some f → image_ok f → tool_file f a k fid n blks → name_array name a → a ≠ [] → may_open disk mode_update = true →
  ∃ g, tfstool_delete may_open disk name h = Ok (Some tt, <[disk := g]> h) ∧ deleted f k fid blks g ∧
    (∃ t2 d2, tfs_open name (vol g, Im g) = Ok (VFS_NOT_FOUND, (t2, d2))) ∧
    (∀ fid' n' blks', marked_file (vol f) (Im f) fid' n' blks' → (∀ b, b ∈ fid' :: blks' → b ∉ fid :: blks) →
       marked_file (vol g) (Im g) fid' n' blks' ∧ contents (Im g) n' blks' = contents (Im f) n' blks').
Proof.
  intros Hd V F Ha Hne Hm. pose proof (tfstool_delete_wp may_open disk name f a k fid n blks h Hd V F Ha Hm) as Hw.
  apply wp_iff in Hw as (r & h' & E & -> & g & -> & D). exists g. split; [done |]. split; [done |]. split.
  - pose proof (dl_ok _ _ _ _ _ D) as Vg. destruct Ha as (Hb & _ & Hc).
    pose proof (tfs_open_wp (vol g) (Im g) name a (vo_dev _ _ Vg) eq_refl (vo_dir _ _ Vg) Hb Hc) as Hwp.
    apply wp_iff in Hwp as (r & [t2 d2] & E2 & _ & _ & _ & Hr). cbv zeta in Hr. destruct Hr as [[_ []]|Hr]; [done |].
    rewrite (proj2 (find_idx_None _ _ _)) in Hr; [subst r; by exists t2, d2 |].
    intros i Hi. change (0 + Z.of_nat (Z.to_nat TFS_MAX_FILES)) with TFS_MAX_FILES in Hi. apply bool_decide_false.
    change (dname (im_block (Im g) TFS_DIRECTORY_BLOCK) i ≠ Some a).
    destruct (decide (i = k)) as [->|Hik]; [rewrite (proj1 (dl_entry _ _ _ _ _ D)); congruence |].
    rewrite (proj1 (dl_others _ _ _ _ _ D i Hi Hik)). by apply F.
  - intros fid' n' blks' [Hf' Hm'] Hdis. pose proof (dl_only _ _ _ _ _ D) as Ho.
    assert (Hge : ∀ b, b ∈ fid' :: blks' → 3 ≤ b).
    { intros b [->|Hb]%elem_of_cons; [apply (if_id _ _ _ _ _ Hf') | by apply (if_range _ _ _ _ _ Hf')]. }
    assert (Hout : ∀ b, b ∈ fid' :: blks' → b ∉ [TFS_ALLOCATION_BLOCK; TFS_DIRECTORY_BLOCK]).
    { intros b Hb. specialize (Hge b Hb). unfold TFS_ALLOCATION_BLOCK, TFS_DIRECTORY_BLOCK. set_solver by lia. }
    split; [| eapply contents_only; [exact Ho |]; intros b Hb; apply Hout; set_solver]. split.
    + eapply is_file_only; [| exact Ho | apply Hout; set_solver]. destruct Hf'. constructor; try done;
        cbn in *; unfold im_total in *; cbn in *; by rewrite (dl_len _ _ _ _ _ D).
    + intros b Hb. change (marked (im_block (Im g) TFS_ALLOCATION_BLOCK) b = true).
      rewrite (dl_marks _ _ _ _ _ D) by (specialize (Hge b Hb); lia). rewrite bool_decide_false by (by apply Hdis). by apply Hm'.
Qed.

Section mounting.
Context {Q : Type} `{SleepQueue Q} {P : Type} `{PageAlloc P} (table_addr : Z).

(** C33: an image that the tool makes is a volume that the kernel mounts.
    [tfstool_createvol] with a size of at most 4096 blocks fails only when the
    file exists or may not be written or the size is less than 3 blocks, and
    then changes nothing; else the new file is a volume without files, in
    which all blocks but the three system blocks are free, and [tfs_init],
    with a semaphore and a page to be had, mounts it under its name and with
    its size. *)
Theorem tool_create_mounts (may_open : bytes → fmode → bool) (disk : bytes) (size : Z) (vn a : bytes) (allocation0 : list Z) (h : host)
    (ss : @sems Q) (pool : P) (cpu : Z) (page name : bytes) :
  size ≤ 4096 → name_array vn a → length allocation0 = 128%nat →
  sem_inv table_addr ss → alloc_inv pool → 0 ≤ cpu < CONFIG_MAX_CPUS → length page = 4096%nat → length name = 16%nat →
  free_pages pool ≠ ∅ → (∃ j, 0 ≤ j < 128 ∧ in_use ss j = None) →
  ∃ r h', tfstool_createvol may_open disk size vn allocation0 h = Ok (r, h') ∧
    match r with
    | None => h' = h ∧ (is_Some (h !! disk) ∨ size < 3 ∨ may_open disk mode_w = false)
    | Some _ => ∃ g, h' = <[disk := g]> h ∧ empty_volume g size a ∧
        ∃ m s', tfs_init cpu page name (mk_istate ss pool (Im g)) = Ok (Some m, s') ∧
          cstr (volume_name m) = Some a ∧ totalblocks (fs_internal m) = size ∧ dsame (Im g) (i_disk s')
    end.
Proof.
  intros Hs Hv Hal Hss Hp Hcpu Hpg Hnm Hfree Hsem.
  destruct (proj1 (wp_iff _ _ _) (createvol_wp may_open disk size vn a h Hs Hv allocation0 Hal)) as (r & h' & E & Hr).
  exists r, h'. split; [done |]. destruct r as [[]|]; [| done]. destruct Hr as (H3 & g & -> & V). exists g. split; [done |]. split; [done |].
  pose proof (ev_header _ _ _ V) as Hhdr. pose proof (image_total _ (ev_ok _ _ _ V)) as Htot.
  assert (Ht : im_total (Im g) = size).
  { unfold im_total. cbn [im_bytes]. rewrite (ev_len _ _ _ V), Z.mul_comm, Z.div_mul by lia. done. }
  assert (Hw : wp (tfs_init cpu page name) (λ r s', ∃ m, r = Some m ∧ cstr (volume_name m) = Some a ∧
    totalblocks (fs_internal m) = size ∧ dsame (Im g) (i_disk s')) (mk_istate ss pool (Im g))).
  { eapply wp_mono; [apply (tfs_init_wp table_addr) |]; cbn [i_sems i_pool i_disk]; try done.
    - apply (vo_dev _ _ (ev_ok _ _ _ V)).
    - change (0 < im_total (Im g)). lia.
    - intros [m|] s' Hr; [| destruct Hr as [_ []]; try done; split; [done | apply Hhdr]].
      destruct Hr as (p & M & T & _). exists m. split; [done |]. split; [| split; [| apply T]].
      + rewrite (mt_name _ _ M). f_equal. etrans; [apply label_cstr, Hhdr |]. apply take_ge.
        destruct Hv as (_ & Hl & Hc). destruct (strncpy_Ok 16 vn a Hl Hc) as [_ ?]. lia.
      + rewrite (mt_total _ _ M). change (Z.min (im_total (Im g)) 4096 = size). lia. }
  destruct (proj1 (wp_iff _ _ _) Hw) as (r & s' & E2 & m & -> & Hm). by exists m, s'.
Qed.
End mounting.

(** ** An image of eight blocks *)

Definition example_vn : bytes := [118] ++ replicate 15 0.
Definition example_bat : list Z := 7 :: replicate 127 0.
Definition example_image : bytes := new_image 8 example_vn (of_words example_bat).
Definition example_target : bytes := [97] ++ replicate 15 0.
Definition example_host : host := <[[1] := example_image]> (<[[2] := [104; 105]]> ∅).

Lemma example_bat_bits q : 0 ≤ q → bit example_bat q = (q <? 3).
Proof.
  intros Hq. destruct (decide (q < 32)).
  - assert (Hc : eqb (bit example_bat q) (q <? 3) = true); [| by apply eqb_prop].
    assert (Hr : 0 ≤ q < 32) by lia. clear -Hr. revert q Hr. apply range_check. by vm_compute.
  - rewrite (proj2 (Z.ltb_ge q 3)) by lia. unfold bit, example_bat.
    assert (1 ≤ q / 32) by (apply Z.div_le_lower_bound; lia).
    replace (Z.to_nat (q / 32)) with (S (Z.to_nat (q / 32) - 1)) by lia. cbn [lookup list_lookup].
    destruct (replicate 127 0 !! _) as [w|] eqn:E; [| apply Z.bits_0]. apply lookup_replicate in E as [-> _]. apply Z.bits_0.
Qed.

Lemma example_vn_ok : name_array example_vn [118].
Proof. split; [repeat constructor; lia | done]. Qed.
Lemma example_target_ok : name_array example_target [97].
Proof. split; [repeat constructor; lia | done]. Qed.

Lemma example_image_ok : empty_volume example_image 8 [118].
Proof.
  assert (Hw : bitmap_wf 128 example_bat) by (split; [done |]; constructor; [done | by apply Forall_replicate]).
  destruct (bat_of_words _ Hw) as [Hb Hm]. apply new_image_ok; [lia | apply example_vn_ok | done |].
  intros q Hq. rewrite Hm. by apply example_bat_bits.
Qed.

Lemma example_junk :
  length (replicate 512 0) = 512%nat ∧ length (replicate 512 0) = 512%nat ∧ length (replicate 512 0) = 512%nat ∧ is_bytes (replicate 512 0).
Proof. rewrite !length_replicate. split; [done |]. split; [done |]. split; [done |]. by apply Forall_replicate. Qed.

Lemma example_room : ¬ no_room example_image [97] 2.
Proof.
  intros [(i & Hi & Hn)|[Hn|[Hn|Hn]]].
  - rewrite (proj1 (ev_dir _ _ _ example_image_ok i Hi)) in Hn. discriminate.
  - destruct (Hn 0); [done |]. by apply (ev_dir _ _ _ example_image_ok).
  - vm_compute in Hn. discriminate.
  - vm_compute in Hn. by apply Hn.
Qed.

Lemma example_source : example_host !! [2] = Some [104; 105].
Proof. unfold example_host. by rewrite lookup_insert_ne, lookup_insert_eq. Qed.

Lemma tool_write_read_witness :
  ∃ g, tfstool_write (λ _ _, true) [1] [2] example_target (replicate 512 0) (replicate 512 0) (replicate 512 0) example_host =
         Ok (Some tt, <[[1] := g]> example_host) ∧
    tfstool_read (λ _ _, true) [1] example_target [3] (replicate 512 0) (replicate 512 0) (replicate 512 0) (<[[1] := g]> example_host) =
      Ok (Some tt, <[[3] := [104; 105]]> (<[[1] := g]> example_host)).
Proof.
  destruct (tool_write_read (λ _ _, true) [1] [2] example_target [97] [104; 105] example_image example_host
    (replicate 512 0) (replicate 512 0) (replicate 512 0)) as (r & h' & g & E & -> & _ & Hr).
  - apply lookup_insert_eq.
  - apply example_source.
  - done.
  - apply example_image_ok.
  - repeat constructor; lia.
  - cbn. lia.
  - apply example_target_ok.
  - apply example_junk.
  - destruct r as [[]|].
    + exists g. split; [exact E |]. apply Hr; done.
    + exfalso. clear E. destruct Hr as [_ Hr]. apply example_room. exact (Hr eq_refl eq_refl).
Defined.

Lemma tool_create_mounts_witness :
  ∃ g m s', tfstool_createvol (λ _ _, true) [1] 8 example_vn (replicate 128 5) ∅ = Ok (Some tt, <[[1] := g]> ∅) ∧
    empty_volume g 8 [118] ∧
    tfs_init 0 (replicate 4096 7) (replicate 16 9) (mk_istate example_sems example_pool (Im g)) = Ok (Some m, s') ∧
    cstr (volume_name m) = Some [118].
Proof.
  destruct (tool_create_mounts 0x80100000 (λ _ _, true) [1] 8 example_vn [118] (replicate 128 5) ∅
    example_sems example_pool 0 (replicate 4096 7) (replicate 16 9)) as (r & h' & E & Hr).
  - lia.
  - apply example_vn_ok.
  - done.
  - apply example_sems_inv.
  - apply example_pool_inv.
  - done.
  - by vm_compute.
  - by vm_compute.
  - intros Ef. destruct example_pool_inv as (_ & _ & _ & _ & Hn). unfold free_pages in Ef; cbn in Ef. by rewrite Ef in Hn.
  - by exists 1.
  - destruct r as [[]|].
    + destruct Hr as (g & -> & V & m & s' & Em & Hm & _). exists g, m, s'. split; [exact E |]. split; [exact V |]. split; [exact Em | exact Hm].
    + exfalso. clear E. destruct Hr as [_ [Hx|[Hx|Hx]]]; [rewrite lookup_empty in Hx; by destruct Hx | lia | done].
Defined.

(** The image with the file that has been written. *)
Lemma example_added : ∃ g k fid blks, added example_image [97] [104; 105] k fid blks g.
Proof.
  pose proof (tfstool_write_wp (λ _ _, true) [1] [2] example_target [97] [104; 105] example_image example_host
    (lookup_insert_eq _ _ _) example_source ltac:(done) (ev_ok _ _ _ example_image_ok) ltac:(repeat constructor; lia) ltac:(cbn; lia)
    example_target_ok _ _ _ example_junk) as Hw.
  destruct (proj1 (wp_iff _ _ _) Hw) as (r & h' & E & g & _ & Hr). clear Hw E. destruct r as [[]|]; [by exists g |].
  exfalso. destruct Hr as [_ Hr]. apply example_room. exact (Hr eq_refl eq_refl).
Qed.

Lemma tool_delete_frees_witness :
  ∃ f g k fid blks, added example_image [97] [104; 105] k fid blks f ∧
    tfstool_delete (λ _ _, true) [1] example_target (<[[1] := f]> ∅) = Ok (Some tt, <[[1] := g]> (<[[1] := f]> ∅)) ∧
    deleted f k fid blks g.
Proof.
  destruct example_added as (f & k & fid & blks & A).
  destruct (tool_delete_frees (λ _ _, true) [1] example_target [97] f k fid 2 blks (<[[1] := f]> ∅)) as (g & E & D & _).
  - apply lookup_insert_eq.
  - apply A.
  - apply A.
  - apply example_target_ok.
  - done.
  - done.
  - exists f, g, k, fid, blks. split; [exact A |]. split; [exact E | exact D].
Defined.
