(* ===== verification/Net.v ===== *)
(** * The network (src/buenos/net/: socket.c, pop.c, network.c, protocols.c)

    The state has the table of sockets, the queue of incoming packets, the
    table of interfaces, and what they use: the semaphores, the page pool, the
    network devices and memory, the bytes at kernel addresses.  Pointers are
    addresses.  A semaphore that is used as a lock is taken by [lock], which
    blocks when the semaphore has to be waited for; where the code waits for
    an event it is cut: [recvfrom_start], [recvfrom_wait] and [recvfrom_end]
    are [socket_recvfrom], and a turn of the service thread is [service_pick],
    then [service_act], then [service_wait] if there was nothing to do. *)

From stdpp Require Import gmap.
From S2P Require Import Prelude Kmalloc Pagepool Sched SchedSpec Semaphore Libc Devices.
Local Open Scope Z_scope.

Definition CONFIG_MAX_OPEN_SOCKETS : Z := 64.
Definition CONFIG_POP_QUEUE_SIZE : Z := 32.
Definition CONFIG_POP_QUEUE_MIN_AGE : Z := 250.
Definition CONFIG_MAX_GNDS : Z := 4.
Definition PROTOCOL_POP : Z := 1.
Definition PROTOCOL_SOP : Z := 2.
Definition NET_OK : Z := 0.
Definition NET_ERROR : Z := -1.
Definition NET_DOESNT_EXIST : Z := -2.
Definition NETWORK_BROADCAST_ADDRESS : Z := 0xffffffff.
Definition NETWORK_LOOPBACK_ADDRESS : Z := 0x00000000.
Definition NETWORK_MAX_MTU : Z := 4096.
Definition YAMS_TYPECODE_NIC : Z := 0x401.
(** The sizes of [network_frame_header_t] and [pop_header_t]. *)
Definition SIZEOF_FRAME_HEADER : Z := 12.
Definition SIZEOF_POP_HEADER : Z := 8.

Definition MIN (a b : Z) : Z := if b <? a then b else a.

(** ** Memory *)

Fixpoint mread (m : gmap Z Z) (n : nat) (a : Z) : res bytes :=
  match n with
  | O => Ok []
  | S n' => match m !! a with Some b => r ← mread m n' (a + 1); Ok (b :: r) | None => Undef end
  end.
Fixpoint mwrite (m : gmap Z Z) (a : Z) (l : bytes) : res (gmap Z Z) :=
  match l with
  | [] => Ok m
  | b :: l' => match m !! a with Some _ => mwrite (<[a := b]> m) (a + 1) l' | None => Undef end
  end.
Definition bytes16 (v : Z) : bytes := [v / 2 ^ 8 mod 2 ^ 8; v mod 2 ^ 8].

(** ** Data *)

(** [socket_descriptor_t]; a semaphore is its index. *)
Record socket_descriptor := mk_sock {
  port : Z; protocol : Z; receive_complete : option Z; rbuf : Z; bufsize : Z; sender : Z; copied : Z; sport : Z }.

(** [pop_queue_t] *)
Record pop_entry := mk_pop { frame : Z; pq_socket : Z; timestamp : Z; from : Z; busy : Z }.

(** [network_interface_info_t] *)
Record interface_info := mk_if { address : Z; mtu : Z; gnd : Z }.

(** The network devices ([gnd_t]), which have access to memory, and the clock. *)
Class NetDevice (G : Type) := {
  gnd_send : Z → Z → Z → K (G * gmap Z Z) Z;
  gnd_recv : Z → Z → K (G * gmap Z Z) Z;
  gnd_frame_size : Z → K G Z;
  gnd_hwaddr : Z → K G Z;
  rtc_get_msec : K G Z;
}.

(** The starting of threads. *)
Class ThreadStart (Q : Type) := {
  ts_create : Z → Z → K Q Z;
  ts_run : Z → K Q unit;
}.

Section net.
Context {G : Type} `{NetDevice G} {P : Type} `{PageAlloc P} {Q : Type} `{SleepQueue Q} `{ThreadStart Q}.
(** The addresses of the table of semaphores and of the functions of the
    threads. *)
Context (table_addr pop_service_thread network_receive_thread : Z).

Record net := mk_net {
  open_sockets : list socket_descriptor;
  open_sockets_sem : option Z;
  pop_queue : list pop_entry;
  pop_queue_sem : option Z;
  pop_send_buffer : Z;
  pop_send_buffer_sem : option Z;
  pop_service_thread_sem : option Z;
  network_interfaces : list interface_info;
  socket_init_done : bool;
  pop_init_done : bool;
  n_mem : gmap Z Z;
  n_pool : P;
  n_sems : @sems Q;
  n_dev : G;
}.

Definition set_sockets (l : list socket_descriptor) (s : net) : net :=
  mk_net l (open_sockets_sem s) (pop_queue s) (pop_queue_sem s) (pop_send_buffer s) (pop_send_buffer_sem s)
    (pop_service_thread_sem s) (network_interfaces s) (socket_init_done s) (pop_init_done s) (n_mem s) (n_pool s) (n_sems s) (n_dev s).
Definition set_popq (l : list pop_entry) (s : net) : net :=
  mk_net (open_sockets s) (open_sockets_sem s) l (pop_queue_sem s) (pop_send_buffer s) (pop_send_buffer_sem s)
    (pop_service_thread_sem s) (network_interfaces s) (socket_init_done s) (pop_init_done s) (n_mem s) (n_pool s) (n_sems s) (n_dev s).
Definition set_interfaces (l : list interface_info) (s : net) : net :=
  mk_net (open_sockets s) (open_sockets_sem s) (pop_queue s) (pop_queue_sem s) (pop_send_buffer s) (pop_send_buffer_sem s)
    (pop_service_thread_sem s) l (socket_init_done s) (pop_init_done s) (n_mem s) (n_pool s) (n_sems s) (n_dev s).
Definition set_mem (m : gmap Z Z) (s : net) : net :=
  mk_net (open_sockets s) (open_sockets_sem s) (pop_queue s) (pop_queue_sem s) (pop_send_buffer s) (pop_send_buffer_sem s)
    (pop_service_thread_sem s) (network_interfaces s) (socket_init_done s) (pop_init_done s) m (n_pool s) (n_sems s) (n_dev s).
Definition set_npool (p : P) (s : net) : net :=
  mk_net (open_sockets s) (open_sockets_sem s) (pop_queue s) (pop_queue_sem s) (pop_send_buffer s) (pop_send_buffer_sem s)
    (pop_service_thread_sem s) (network_interfaces s) (socket_init_done s) (pop_init_done s) (n_mem s) p (n_sems s) (n_dev s).
Definition set_nsems (x : @sems Q) (s : net) : net :=
  mk_net (open_sockets s) (open_sockets_sem s) (pop_queue s) (pop_queue_sem s) (pop_send_buffer s) (pop_send_buffer_sem s)
    (pop_service_thread_sem s) (network_interfaces s) (socket_init_done s) (pop_init_done s) (n_mem s) (n_pool s) x (n_dev s).
Definition set_dev (g : G) (s : net) : net :=
  mk_net (open_sockets s) (open_sockets_sem s) (pop_queue s) (pop_queue_sem s) (pop_send_buffer s) (pop_send_buffer_sem s)
    (pop_service_thread_sem s) (network_interfaces s) (socket_init_done s) (pop_init_done s) (n_mem s) (n_pool s) (n_sems s) g.

Definition on_nsems {A} (m : K (@sems Q) A) : K net A := zoom n_sems set_nsems m.
Definition on_npool {A} (m : K P A) : K net A := zoom n_pool set_npool m.
Definition on_dev {A} (m : K G A) : K net A := zoom n_dev set_dev m.
Definition on_dma {A} (m : K (G * gmap Z Z) A) : K net A :=
  zoom (λ s, (n_dev s, n_mem s)) (λ x s, set_mem (snd x) (set_dev (fst x) s)) m.

Definition mload (n : nat) (a : Z) : K net bytes := m ← gets n_mem; pure (mread m n a).
Definition mstore (a : Z) (l : bytes) : K net unit := m ← gets n_mem; m' ← pure (mwrite m a l); modify (set_mem m').
Definition load32 (a : Z) : K net Z :=
  l ← mload 4 a; match l with [b0; b1; b2; b3] => mret (be32 b0 b1 b2 b3) | _ => pure Undef end.
Definition load16 (a : Z) : K net Z :=
  l ← mload 2 a; match l with [b0; b1] => mret (b0 * 2 ^ 8 + b1) | _ => pure Undef end.
Definition kmemcopy (n target source : Z) : K net unit :=
  t ← mload (Z.to_nat n) target;
  x ← mload (Z.to_nat n) source;
  r ← pure (memcopy target source n t x);
  mstore target r.

Definition lock (cpu : Z) (sem : option Z) : K net unit :=
  match sem with
  | Some k => sleeps ← on_nsems (semaphore_P_locked table_addr cpu k); if sleeps : bool then pure Block else mret tt
  | None => pure Undef
  end.
Definition signal (sem : option Z) : K net unit :=
  match sem with Some k => on_nsems (semaphore_V table_addr k) | None => pure Undef end.

Definition get_socket (i : Z) : K net socket_descriptor := l ← gets open_sockets; pure (aget l i).
Definition put_socket (i : Z) (x : socket_descriptor) : K net unit :=
  l ← gets open_sockets; l' ← pure (aset l i x); modify (set_sockets l').
Definition get_pop (i : Z) : K net pop_entry := l ← gets pop_queue; pure (aget l i).
Definition put_pop (i : Z) (x : pop_entry) : K net unit :=
  l ← gets pop_queue; l' ← pure (aset l i x); modify (set_popq l').
Definition get_interface (i : Z) : K net interface_info := l ← gets network_interfaces; pure (aget l i).

(** ** socket.c *)

Definition no_socket : socket_descriptor := mk_sock 0 0 None 0 0 0 0 0.

Definition set_open_sockets_sem (k : option Z) (s : net) : net :=
  mk_net (open_sockets s) k (pop_queue s) (pop_queue_sem s) (pop_send_buffer s) (pop_send_buffer_sem s)
    (pop_service_thread_sem s) (network_interfaces s) true (pop_init_done s) (n_mem s) (n_pool s) (n_sems s) (n_dev s).

Definition socket_init (cpu : Z) : K net unit :=
  done ← gets socket_init_done;
  kassert (negb done);;
  k ← on_nsems (semaphore_create cpu 1);
  modify (set_open_sockets_sem k);;
  match k with
  | None => panic "socket_init: semaphore allocation failed"
  | Some _ => for_each (Z.to_nat CONFIG_MAX_OPEN_SOCKETS) 0 (λ i, put_socket i no_socket)
  end.

(** The loop that looks for an open socket with the port. *)
Definition port_taken (p : Z) : K net bool :=
  r ← for_ (Z.to_nat CONFIG_MAX_OPEN_SOCKETS) 0 (λ i,
    x ← get_socket i;
    mret (if negb (protocol x =? 0) && (port x =? p) then Some tt else None));
  mret (match r with Some _ => true | None => false end).

(** The loop that looks for a free port, above [p]. *)
Fixpoint free_port (fuel : nat) (p : Z) : K net Z :=
  match fuel with
  | O => pure NoFuel
  | S fuel' =>
      let p := u16 (p + 1) in
      notfree ← port_taken p;
      if notfree : bool then free_port fuel' p else mret p
  end.

Definition socket_open (cpu proto p : Z) : K net Z :=
  if negb (proto =? PROTOCOL_POP) && negb (proto =? PROTOCOL_SOP) then mret (-1)
  else
    table_sem ← gets open_sockets_sem;
    lock cpu table_sem;;
    slot ← for_ (Z.to_nat CONFIG_MAX_OPEN_SOCKETS) 0 (λ i,
      x ← get_socket i; mret (if protocol x =? 0 then Some i else None));
    match slot with
    | None => signal table_sem;; mret (-1)
    | Some i =>
        p' ← (if p =? 0 then
                q ← free_port (Z.to_nat (CONFIG_MAX_OPEN_SOCKETS + 1)) 0;
                kassert (negb (q =? 0));;
                mret (Some q)
              else
                taken ← port_taken p;
                mret (if taken : bool then None else Some p));
        match p' with
        | None => signal table_sem;; mret (-1)
        | Some p' =>
            k ← on_nsems (semaphore_create cpu 0);
            x ← get_socket i;
            put_socket i (mk_sock (port x) (protocol x) k (rbuf x) (bufsize x) (sender x) (copied x) (sport x));;
            match k with
            | None => signal table_sem;; mret (-1)
            | Some _ =>
                x ← get_socket i;
                put_socket i (mk_sock p' proto (receive_complete x) 0 0 0 0 (sport x));;
                signal table_sem;;
                mret i
            end
        end
    end.

Definition socket_close (cpu socket : Z) : K net unit :=
  kassert ((0 <=? socket) && (socket <? CONFIG_MAX_OPEN_SOCKETS));;
  table_sem ← gets open_sockets_sem;
  lock cpu table_sem;;
  x ← get_socket socket;
  (match receive_complete x with
   | Some k =>
       put_socket socket (mk_sock 0 0 (receive_complete x) 0 0 0 0 (sport x));;
       on_nsems (semaphore_destroy k);;
       x ← get_socket socket;
       put_socket socket (mk_sock (port x) (protocol x) None (rbuf x) (bufsize x) (sender x) (copied x) (sport x))
   | None => mret tt
   end);;
  signal table_sem.

(** ** network.c *)

Definition network_get_source_address (interface : Z) : K net Z :=
  if (interface <? 0) || (CONFIG_MAX_GNDS <=? interface) then mret 0
  else x ← get_interface interface; mret (address x).
Definition network_get_broadcast_address : Z := NETWORK_BROADCAST_ADDRESS.
Definition network_get_loopback_address : Z := NETWORK_LOOPBACK_ADDRESS.

(** The loops of [network_get_mtu] over the rest of the table; they end at an
    entry without a device. *)
Fixpoint min_mtu (l : list interface_info) (min : Z) : res Z :=
  match l with
  | [] => Undef
  | n :: l' => if gnd n =? 0 then Ok min else min_mtu l' (if mtu n <? min then mtu n else min)
  end.
Fixpoint find_mtu (l : list interface_info) (local_address : Z) : res Z :=
  match l with
  | [] => Undef
  | n :: l' =>
      if gnd n =? 0 then Ok 0
      else if address n =? local_address then Ok (s32 (mtu n - SIZEOF_FRAME_HEADER))
      else find_mtu l' local_address
  end.

Definition network_get_mtu (local_address : Z) : K net Z :=
  l ← gets network_interfaces;
  if local_address =? NETWORK_BROADCAST_ADDRESS then
    min ← pure (min_mtu l (NETWORK_MAX_MTU + 1)); mret (s32 (min - SIZEOF_FRAME_HEADER))
  else if local_address =? NETWORK_LOOPBACK_ADDRESS then mret (PAGE_SIZE - SIZEOF_FRAME_HEADER)
  else pure (find_mtu l local_address).

Definition network_get_interface (local_address : Z) : K net Z :=
  r ← for_ (Z.to_nat CONFIG_MAX_GNDS) 0 (λ i,
    x ← get_interface i; mret (if address x =? local_address then Some i else None));
  mret (match r with Some i => i | None => -1 end).

Definition network_send_interface (interface destination fr : Z) : K net Z :=
  x ← get_interface interface;
  if gnd x =? 0 then pure Undef
  else on_dma (gnd_send (gnd x) (ADDR_KERNEL_TO_PHYS fr) destination).

Definition network_free_frame (payload_frame : Z) : K net unit :=
  on_npool (free_phys_page (Z.land (ADDR_KERNEL_TO_PHYS payload_frame) PAGE_SIZE_MASK)).

(** ** pop.c: incoming packets *)

(** The loop of [pop_push_frame] over the queue from entry [i] on: a free slot
    and the oldest slot that is not busy, or -1. *)
Fixpoint scan_slots (k : nat) (queue : list pop_entry) (i free oldest : Z) : res (Z * Z) :=
  match k with
  | O => Ok (free, oldest)
  | S k' =>
      x ← aget queue i;
      let free := if (free =? -1) && (frame x =? 0) then i else free in
      older ← (if oldest =? -1 then Ok true
               else if busy x =? 0 then y ← aget queue oldest; Ok (timestamp x <? timestamp y) else Ok false);
      scan_slots k' queue (i + 1) free (if (busy x =? 0) && older then i else oldest)
  end.

Definition pop_push_frame (cpu fromaddr protocol_id fr : Z) : K net Z :=
  kassert (protocol_id =? PROTOCOL_POP);;
  queue_sem ← gets pop_queue_sem;
  lock cpu queue_sem;;
  queue ← gets pop_queue;
  r ← pure (scan_slots (Z.to_nat CONFIG_POP_QUEUE_SIZE) queue 0 (-1) (-1));
  let free := fst r in
  let oldest := snd r in
  drop ← (if free =? -1 then
            if oldest =? -1 then mret true
            else now ← on_dev rtc_get_msec; x ← get_pop oldest; mret (u32 (now - timestamp x) <? CONFIG_POP_QUEUE_MIN_AGE)
          else mret false);
  if drop : bool then signal queue_sem;; mret 0
  else
    let free := if free =? -1 then oldest else free in
    x ← get_pop free;
    (if negb (frame x =? 0) then network_free_frame (frame x) else mret tt);;
    now ← on_dev rtc_get_msec;
    put_pop free (mk_pop fr (-1) now fromaddr 0);;
    signal queue_sem;;
    service_sem ← gets pop_service_thread_sem;
    signal service_sem;;
    mret 1.

(** ** protocols.c *)

(** The functions of the table of protocols. *)
Inductive frame_handler := handler_pop_push_frame.
Inductive protocol_init := init_pop_init.
Definition network_protocols : list (Z * option frame_handler * option protocol_init) :=
  [(PROTOCOL_POP, Some handler_pop_push_frame, Some init_pop_init); (0, None, None)].

Fixpoint find_handler (l : list (Z * option frame_handler * option protocol_init)) (protocol_id : Z) : res (option frame_handler) :=
  match l with
  | [] => Undef
  | (id, h, _) :: l' =>
      match h with
      | None => Ok None
      | Some _ => if id =? protocol_id then Ok h else find_handler l' protocol_id
      end
  end.
Definition protocols_get_frame_handler (protocol_id : Z) : res (option frame_handler) := find_handler network_protocols protocol_id.

(** ** network.c: frames *)

(** The fields of a frame: destination, source, protocol and payload. *)
Definition network_receive_frame (cpu fr : Z) : K net Z :=
  id ← load32 (fr + 8);
  h ← pure (protocols_get_frame_handler id);
  match h with
  | Some handler_pop_push_frame =>
      source ← load32 (fr + 4);
      pop_push_frame cpu source id (fr + SIZEOF_FRAME_HEADER)
  | None => mret 0
  end.

(** The loop of [network_send] over the interfaces. *)
Fixpoint send_all (k : nat) (interface destination fr send_ret : Z) : K net Z :=
  match k with
  | O => mret send_ret
  | S k' =>
      x ← get_interface interface;
      if gnd x =? 0 then mret send_ret
      else
        r ← network_send_interface interface destination fr;
        send_all k' (interface + 1) destination fr (if r =? 0 then send_ret else NET_ERROR)
  end.

Definition network_send (cpu source destination protocol_id length buffer : Z) : K net Z :=
  kassert ((0 <? length) && (length <=? PAGE_SIZE - SIZEOF_FRAME_HEADER));;
  phys_frame ← on_npool get_phys_page;
  if phys_frame =? 0 then mret NET_ERROR
  else
    let fr := ADDR_PHYS_TO_KERNEL phys_frame in
    mstore (fr + 4) (bytes32 source);;
    mstore fr (bytes32 destination);;
    mstore (fr + 8) (bytes32 protocol_id);;
    kmemcopy length (fr + SIZEOF_FRAME_HEADER) buffer;;
    if destination =? NETWORK_LOOPBACK_ADDRESS then
      src ← load32 (fr + 4);
      (if src =? NETWORK_BROADCAST_ADDRESS then mstore (fr + 4) (bytes32 NETWORK_LOOPBACK_ADDRESS) else mret tt);;
      r ← network_receive_frame cpu fr;
      if r =? 0 then on_npool (free_phys_page phys_frame);; mret NET_ERROR else mret NET_OK
    else if negb (source =? NETWORK_BROADCAST_ADDRESS) then
      interface ← network_get_interface source;
      if interface <? 0 then on_npool (free_phys_page phys_frame);; mret NET_DOESNT_EXIST
      else
        r ← network_send_interface interface destination fr;
        on_npool (free_phys_page phys_frame);;
        mret (if r =? 0 then NET_OK else NET_ERROR)
    else
      send_ret ← send_all (Z.to_nat CONFIG_MAX_GNDS) 0 destination fr NET_OK;
      on_npool (free_phys_page phys_frame);;
      mret send_ret.

(** [network_receive_thread]: each turn gets a page if the last frame was kept
    ([ret] is not 0), waits for a frame from the interface and passes it on.
    Other threads run in between, so the three are steps of their own.  A turn
    takes what [ret] and [frame_phys_addr] were, and gives what they are. *)
Definition receive_page (ret frame_phys_addr : Z) : K net Z :=
  if negb (ret =? 0) then
    a ← on_npool get_phys_page;
    kassert (negb (a =? 0));;
    mret a
  else mret frame_phys_addr.

Definition receive_dma (interface frame_phys_addr : Z) : K net Z :=
  x ← get_interface interface;
  on_dma (gnd_recv (gnd x) frame_phys_addr).

Definition receive_push (cpu ret frame_phys_addr : Z) : K net Z :=
  if ret =? 0 then network_receive_frame cpu (ADDR_PHYS_TO_KERNEL frame_phys_addr) else mret 0.

Definition receive_turn (cpu interface ret frame_phys_addr : Z) : K net (Z * Z) :=
  phys ← receive_page ret frame_phys_addr;
  r ← receive_dma interface phys;
  ret ← receive_push cpu r phys;
  mret (ret, phys).

(** ** pop.c: sockets *)

Definition socket_sendto (cpu socket addr dport buf size : Z) : K net Z :=
  kassert ((0 <=? socket) && (socket <? CONFIG_MAX_OPEN_SOCKETS));;
  if dport =? 0 then mret (-1)
  else
    kassert ((1 <=? size) && negb (buf =? 0));;
    m ← network_get_mtu NETWORK_BROADCAST_ADDRESS;
    let size := s32 (MIN (MIN (u32 size) (u32 (m - SIZEOF_POP_HEADER))) (PAGE_SIZE - SIZEOF_POP_HEADER)) in
    table_sem ← gets open_sockets_sem;
    lock cpu table_sem;;
    x ← get_socket socket;
    if negb (protocol x =? PROTOCOL_POP) then signal table_sem;; mret (-1)
    else
      let my_port := port x in
      signal table_sem;;
      send_sem ← gets pop_send_buffer_sem;
      lock cpu send_sem;;
      hdr ← gets pop_send_buffer;
      mstore hdr (bytes16 my_port);;
      mstore (hdr + 2) (bytes16 dport);;
      mstore (hdr + 4) (bytes32 size);;
      kmemcopy size (hdr + SIZEOF_POP_HEADER) buf;;
      r ← network_send cpu NETWORK_BROADCAST_ADDRESS addr PROTOCOL_POP (s32 (size + SIZEOF_POP_HEADER)) hdr;
      signal send_sem;;
      mret (if negb (r =? NET_OK) then -1 else size).

(** [socket_recvfrom] up to the wait; false when it returns -1. *)
Definition recvfrom_start (cpu s addr sport_ptr buf buflength length : Z) : K net bool :=
  kassert ((0 <=? s) && (s <? CONFIG_MAX_OPEN_SOCKETS));;
  kassert ((1 <=? buflength) && negb (buf =? 0) && negb (addr =? 0) && negb (sport_ptr =? 0) && negb (length =? 0));;
  table_sem ← gets open_sockets_sem;
  lock cpu table_sem;;
  x ← get_socket s;
  if negb (protocol x =? PROTOCOL_POP) || negb (rbuf x =? 0) then signal table_sem;; mret false
  else
    put_socket s (mk_sock (port x) (protocol x) (receive_complete x) buf (u32 buflength) addr length sport_ptr);;
    signal table_sem;;
    service_sem ← gets pop_service_thread_sem;
    signal service_sem;;
    mret true.

(** [semaphore_P(open_sockets[s].receive_complete)]; the result says whether
    the caller sleeps and must switch. *)
Definition recvfrom_wait (cpu s : Z) : K net bool :=
  x ← get_socket s;
  match receive_complete x with
  | Some k => on_nsems (semaphore_P_locked table_addr cpu k)
  | None => pure Undef
  end.

(** What follows the wait. *)
Definition recvfrom_end (length : Z) : K net Z := v ← load32 length; mret (s32 v).

Inductive pop_action := POP_ACTION_NONE | POP_ACTION_DISCARD | POP_ACTION_TRANSFER.

(** The loop of the service thread that looks for the socket with the port of
    the packet. *)
Definition find_recipient (f : Z) : K net (option Z) :=
  for_ (Z.to_nat CONFIG_MAX_OPEN_SOCKETS) 0 (λ j,
    y ← get_socket j;
    if protocol y =? PROTOCOL_POP then
      dest ← load16 (f + 2);
      mret (if port y =? dest then Some j else None)
    else mret None).

(** The body of the loop of the service thread over the queue. *)
Definition service_slot (i : Z) : K net (option (pop_action * Z * Z)) :=
  x ← get_pop i;
  let f := frame x in
  if f =? 0 then mret None
  else
    (if pq_socket x =? -1 then
       j ← find_recipient f;
       match j with
       | Some j => put_pop i (mk_pop f j (timestamp x) (from x) (busy x))
       | None => mret tt
       end
     else mret tt);;
    x ← get_pop i;
    if pq_socket x =? -1 then mret (Some (POP_ACTION_DISCARD, i, f))
    else
      y ← get_socket (pq_socket x);
      if (0 <=? pq_socket x) && negb (protocol y =? PROTOCOL_POP) then mret (Some (POP_ACTION_DISCARD, i, f))
      else if negb (rbuf y =? 0) then
        put_pop i (mk_pop f (pq_socket x) (timestamp x) (from x) 1);;
        mret (Some (POP_ACTION_TRANSFER, i, f))
      else mret None.

(** The service thread with the two locks: the action, the slot and the
    packet. *)
Definition service_pick (cpu : Z) : K net (pop_action * Z * Z) :=
  table_sem ← gets open_sockets_sem;
  lock cpu table_sem;;
  queue_sem ← gets pop_queue_sem;
  lock cpu queue_sem;;
  r ← for_ (Z.to_nat CONFIG_POP_QUEUE_SIZE) 0 service_slot;
  signal queue_sem;;
  signal table_sem;;
  mret (match r with Some a => a | None => (POP_ACTION_NONE, 0, 0) end).

Definition clear_slot (slot : Z) : K net unit :=
  x ← get_pop slot; put_pop slot (mk_pop 0 (pq_socket x) (timestamp x) (from x) (busy x)).

(** What the service thread does without the locks. *)
Definition service_act (a : pop_action * Z * Z) : K net unit :=
  match a with
  | (POP_ACTION_NONE, _, _) => mret tt
  | (POP_ACTION_DISCARD, slot, f) => network_free_frame f;; clear_slot slot
  | (POP_ACTION_TRANSFER, slot, f) =>
      x ← get_pop slot;
      y ← get_socket (pq_socket x);
      size ← load32 (f + 4);
      let n := s32 (MIN size (bufsize y)) in
      kmemcopy n (rbuf y) (f + SIZEOF_POP_HEADER);;
      mstore (sender y) (bytes32 (from x));;
      mstore (copied y) (bytes32 n);;
      p ← load16 f;
      mstore (sport y) (bytes16 p);;
      put_socket (pq_socket x) (mk_sock (port y) (protocol y) (receive_complete y) 0 0 0 0 0);;
      network_free_frame f;;
      y ← get_socket (pq_socket x);
      signal (receive_complete y);;
      clear_slot slot
  end.

(** [semaphore_P(pop_service_thread_sem)], when there was nothing to do. *)
Definition service_wait (cpu : Z) : K net bool :=
  k ← gets pop_service_thread_sem;
  match k with Some k => on_nsems (semaphore_P_locked table_addr cpu k) | None => pure Undef end.

(** ** Start-up *)

Definition no_packet : pop_entry := mk_pop 0 (-1) 0 0 0.

Definition set_pop_setup (buffer : Z) (send_sem queue_sem service_sem : option Z) (s : net) : net :=
  mk_net (open_sockets s) (open_sockets_sem s) (pop_queue s) queue_sem buffer send_sem service_sem (network_interfaces s)
    (socket_init_done s) true (n_mem s) (n_pool s) (n_sems s) (n_dev s).

Definition pop_init (cpu : Z) : K net unit :=
  done ← gets pop_init_done;
  kassert (negb done);;
  addr ← on_npool get_phys_page;
  if addr =? 0 then panic "pop_init: page allocation failed"
  else
    send_sem ← on_nsems (semaphore_create cpu 1);
    queue_sem ← on_nsems (semaphore_create cpu 1);
    service_sem ← on_nsems (semaphore_create cpu 0);
    modify (set_pop_setup (ADDR_PHYS_TO_KERNEL addr) send_sem queue_sem service_sem);;
    match send_sem, queue_sem, service_sem with
    | Some _, Some _, Some _ =>
        for_each (Z.to_nat CONFIG_POP_QUEUE_SIZE) 0 (λ i, put_pop i no_packet);;
        tid ← on_nsems (on_queue (ts_create pop_service_thread 0));
        on_nsems (on_queue (ts_run tid))
    | _, _, _ => panic "pop_init: semaphore allocation failed"
    end.

Fixpoint init_protocols (cpu : Z) (l : list (Z * option frame_handler * option protocol_init)) : K net unit :=
  match l with
  | [] => pure Undef
  | (_, None, _) :: _ => mret tt
  | (_, Some _, i) :: l' =>
      (match i with Some init_pop_init => pop_init cpu | None => pure Undef end);; init_protocols cpu l'
  end.
Definition protocols_init (cpu : Z) : K net unit := init_protocols cpu network_protocols.

(** The devices and, for each, its [generic_device]. *)
Definition find_interfaces (m : machine) (generic_device : Z → Z) : K net unit :=
  for_each (Z.to_nat CONFIG_MAX_GNDS) 0 (λ i,
    dev ← pure (r ← device_get YAMS_TYPECODE_NIC i m; Ok (fst r));
    l ← gets network_interfaces;
    old ← get_interface i;
    match dev with
    | None => l' ← pure (aset l i (mk_if 0 (mtu old) 0)); modify (set_interfaces l')
    | Some d =>
        let g := generic_device (dev_addr d) in
        size ← on_dev (gnd_frame_size g);
        kassert (s32 size <=? PAGE_SIZE);;
        a ← on_dev (gnd_hwaddr g);
        l' ← pure (aset l i (mk_if a (s32 size) g)); modify (set_interfaces l')
    end).

Definition start_receivers : K net unit :=
  _ ← for_ (Z.to_nat CONFIG_MAX_GNDS) 0 (λ i,
    x ← get_interface i;
    if negb (gnd x =? 0) then
      tid ← on_nsems (on_queue (ts_create network_receive_thread i));
      kassert (0 <? tid);;
      on_nsems (on_queue (ts_run tid));;
      mret None
    else mret (Some tt));
  mret tt.

Definition network_init (cpu : Z) (m : machine) (generic_device : Z → Z) : K net unit :=
  find_interfaces m generic_device;;
  socket_init cpu;;
  protocols_init cpu;;
  start_receivers.

End net.
