(* ===== verification/NetSpec.v ===== *)
(** * Lemmas about the network

    Memory, addresses, locks, the table of sockets, and what the operations of
    [Net] do to the pages they use. *)

From stdpp Require Import gmap.
From S2P Require Import Prelude Kmalloc Pagepool Sched SchedSpec Semaphore Libc Devices Vm Net.
Local Open Scope Z_scope.

(** ** Memory *)

(** [n] bytes at [a] are there. *)
Definition region (m : gmap Z Z) (a n : Z) : Prop := ∀ x, a ≤ x < a + n → is_Some (m !! x).
(** The bytes at [a] are [l]. *)
Definition has (m : gmap Z Z) (a : Z) (l : bytes) : Prop := ∀ (i : nat) b, l !! i = Some b → m !! (a + Z.of_nat i) = Some b.
Definition mem_bytes (m : gmap Z Z) : Prop := ∀ x b, m !! x = Some b → is_byte b.

Fixpoint mput (m : gmap Z Z) (a : Z) (l : bytes) : gmap Z Z :=
  match l with [] => m | b :: l' => mput (<[a := b]> m) (a + 1) l' end.

Lemma lookup_mput m a l x :
  mput m a l !! x = if decide (a ≤ x < a + Z.of_nat (length l)) then l !! Z.to_nat (x - a) else m !! x.
Proof.
  revert m a. induction l as [|b l IH]; intros m a; simpl; [by rewrite decide_False by lia |].
  rewrite IH. destruct (decide (x = a)) as [->|Hne].
  - rewrite decide_False, decide_True by lia. rewrite Z.sub_diag. simpl. by rewrite lookup_insert_eq.
  - rewrite lookup_insert_ne by done. repeat case_decide; try lia; try done.
    replace (Z.to_nat (x - a)) with (S (Z.to_nat (x - (a + 1)))) by lia. done.
Qed.

Lemma has_nil m a : has m a [].
Proof. done. Qed.
Lemma has_cons m a b l : has m a (b :: l) ↔ m !! a = Some b ∧ has m (a + 1) l.
Proof.
  split.
  - intros Hh. split; [specialize (Hh 0%nat b eq_refl); by rewrite Z.add_0_r in Hh |].
    intros i c Hi. specialize (Hh (S i) c Hi). by replace (a + 1 + Z.of_nat i) with (a + Z.of_nat (S i)) by lia.
  - intros [Hb Hl] [|i] c Hi; simpl in Hi; [injection Hi as <-; by rewrite Z.add_0_r |].
    specialize (Hl i c Hi). by replace (a + Z.of_nat (S i)) with (a + 1 + Z.of_nat i) by lia.
Qed.

Lemma mread_Ok m a l : has m a l → mread m (length l) a = Ok l.
Proof.
  revert a. induction l as [|b l IH]; intros a; [done |]. intros [Hb Hl]%has_cons. simpl. by rewrite Hb, IH.
Qed.
Lemma mwrite_Ok m a l : region m a (Z.of_nat (length l)) → mwrite m a l = Ok (mput m a l).
Proof.
  revert m a. induction l as [|b l IH]; intros m a Hr; [done |]. simpl.
  destruct (Hr a ltac:(simpl; lia)) as [c ->]. apply IH. intros x Hx. destruct (decide (x = a)) as [->|].
  - by rewrite lookup_insert_eq.
  - rewrite lookup_insert_ne by done. apply Hr. simpl. lia.
Qed.

Lemma has_inj m a l k : length l = length k → has m a l → has m a k → l = k.
Proof.
  intros Hlen Hl Hk. pose proof (mread_Ok _ _ _ Hl) as E1. pose proof (mread_Ok _ _ _ Hk) as E2. rewrite Hlen in E1. congruence.
Qed.

Lemma region_has m a n : 0 ≤ n → region m a n → ∃ l, length l = Z.to_nat n ∧ has m a l.
Proof.
  intros Hn. rewrite <- (Z2Nat.id n) by done. rewrite Nat2Z.id. clear Hn. revert a. induction (Z.to_nat n) as [|k IH]; intros a Hr.
  - by exists [].
  - destruct (Hr a ltac:(lia)) as [b Hb]. destruct (IH (a + 1)) as (l & Hl & Hh).
    { intros x Hx. apply Hr. lia. }
    exists (b :: l). simpl. split; [by rewrite Hl |]. by apply has_cons.
Qed.
Lemma has_region m a l : has m a l → region m a (Z.of_nat (length l)).
Proof.
  intros Hh x Hx. destruct (lookup_lt_is_Some_2 l (Z.to_nat (x - a))) as [b Hb]; [lia |].
  specialize (Hh _ _ Hb). exists b. by replace x with (a + Z.of_nat (Z.to_nat (x - a))) by lia.
Qed.
Lemma has_bytes m a l : mem_bytes m → has m a l → is_bytes l.
Proof. intros Hm Hh. apply Forall_lookup. intros i b Hb. apply (Hm _ _ (Hh _ _ Hb)). Qed.

Lemma region_sub m a n b k : region m a n → a ≤ b → b + k ≤ a + n → region m b k.
Proof. intros Hr ? ? x Hx. apply Hr. lia. Qed.
Lemma region_mput m a l b n : region m a (Z.of_nat (length l)) → region (mput m a l) b n ↔ region m b n.
Proof.
  intros Hr. split; intros H x Hx; specialize (H x Hx).
  - rewrite lookup_mput in H. case_decide; [by apply Hr | done].
  - rewrite lookup_mput. case_decide; [apply lookup_lt_is_Some_2; lia | done].
Qed.
Lemma mem_bytes_mput m a l : mem_bytes m → is_bytes l → mem_bytes (mput m a l).
Proof.
  intros Hm Hl x b. rewrite lookup_mput. case_decide; [| apply Hm]. intros Hb.
  eapply Forall_lookup in Hl; [exact Hl | exact Hb].
Qed.
Lemma has_mput_same m a l : has (mput m a l) a l.
Proof.
  intros i b Hi. pose proof (lookup_lt_Some _ _ _ Hi). rewrite lookup_mput, decide_True by lia.
  by replace (Z.to_nat (a + Z.of_nat i - a)) with i by lia.
Qed.
Lemma has_mput_other m a l b k :
  a + Z.of_nat (length l) ≤ b ∨ b + Z.of_nat (length k) ≤ a → has m b k → has (mput m a l) b k.
Proof.
  intros Hd Hh i c Hi. pose proof (lookup_lt_Some _ _ _ Hi). rewrite lookup_mput, decide_False by lia. by apply Hh.
Qed.
Lemma has_app m a l k : has m a (l ++ k) ↔ has m a l ∧ has m (a + Z.of_nat (length l)) k.
Proof.
  revert a. induction l as [|b l IH]; intros a; simpl.
  - rewrite Z.add_0_r. pose proof (has_nil m a). tauto.
  - rewrite !has_cons, IH. replace (a + 1 + Z.of_nat (length l)) with (a + Z.of_nat (S (length l))) by lia. tauto.
Qed.
Lemma has_mput_drop m a l b k :
  a ≤ b → b + Z.of_nat (length k) ≤ a + Z.of_nat (length l) →
  k = take (length k) (drop (Z.to_nat (b - a)) l) → has (mput m a l) b k.
Proof.
  intros Hab Hlen Hk i c Hi. pose proof (lookup_lt_Some _ _ _ Hi). rewrite lookup_mput, decide_True by lia.
  rewrite Hk, lookup_take_lt, lookup_drop in Hi by done. rewrite <- Hi. f_equal. lia.
Qed.

(** ** Addresses *)

(** The kernel address of a page. *)
Definition kaddr (p : Z) : Z := 2 ^ 31 + PAGE_SIZE * p.
(** The page of a payload, and the payload of a frame in a page. *)
Definition page_of (f : Z) : Z := (f - 2 ^ 31) / PAGE_SIZE.
Definition payload (p : Z) : Z := kaddr p + SIZEOF_FRAME_HEADER.

Lemma phys_to_kernel p : 0 ≤ p < 2 ^ 19 → ADDR_PHYS_TO_KERNEL (p * PAGE_SIZE) = kaddr p.
Proof.
  intros Hp. unfold kaddr, PAGE_SIZE in *. destruct (phys_kernel_addr (p * 4096)) as [-> _]; lia.
Qed.
Lemma kernel_to_phys p off : 0 ≤ p < 2 ^ 19 → 0 ≤ off < PAGE_SIZE → ADDR_KERNEL_TO_PHYS (kaddr p + off) = p * PAGE_SIZE + off.
Proof.
  intros Hp Ho. unfold kaddr, PAGE_SIZE in *. replace (2 ^ 31 + 4096 * p + off) with (0x80000000 + (p * 4096 + off)) by lia.
  apply phys_kernel_addr. lia.
Qed.
Lemma land_shiftl x b k : 0 ≤ k → Z.land x (Z.shiftl b k) = Z.shiftl (Z.land (Z.shiftr x k) b) k.
Proof.
  intros Hk. apply Z.bits_inj'. intros n Hn. rewrite Z.land_spec, !Z.shiftl_spec by done.
  destruct (Z.ltb_spec n k).
  - rewrite !(Z.testbit_neg_r _ (n - k)) by lia. apply andb_false_r.
  - rewrite Z.land_spec, Z.shiftr_spec by lia. by replace (n - k + k) with n by lia.
Qed.
Lemma frame_page p off :
  0 ≤ p < 2 ^ 19 → 0 ≤ off < PAGE_SIZE → Z.land (ADDR_KERNEL_TO_PHYS (kaddr p + off)) PAGE_SIZE_MASK = p * PAGE_SIZE.
Proof.
  intros Hp Ho. rewrite kernel_to_phys by done. unfold PAGE_SIZE, PAGE_SIZE_MASK in *.
  change 0xfffff000 with (Z.shiftl (Z.ones 20) 12). rewrite land_shiftl, Z.shiftr_div_pow2, Z.land_ones, Z.shiftl_mul_pow2 by done.
  change (2 ^ 12) with 4096. rewrite <- (Z.div_unique_pos (p * 4096 + off) 4096 p off) by lia. by rewrite Z.mod_small by lia.
Qed.
Lemma page_of_payload p : page_of (payload p) = p.
Proof.
  unfold page_of, payload, kaddr, PAGE_SIZE, SIZEOF_FRAME_HEADER. symmetry. apply (Z.div_unique_pos _ _ _ 12); lia.
Qed.
Lemma payload_nz p : 0 ≤ p → payload p ≠ 0.
Proof. unfold payload, kaddr, PAGE_SIZE, SIZEOF_FRAME_HEADER. lia. Qed.

(** No byte of a page of [l] is among the [n] bytes at [a]. *)
Definition outside (l : gset Z) (a n : Z) : Prop :=
  ∀ x p, a ≤ x < a + n → p ∈ l → ¬ kaddr p ≤ x < kaddr p + PAGE_SIZE.

Lemma outside_other (l : gset Z) p a n :
  p ∉ l → kaddr p ≤ a → a + n ≤ kaddr p + PAGE_SIZE → outside l a n.
Proof.
  intros Hp Ha Hn x q Hx Hq Hk. assert (q ≠ p) by set_solver. unfold kaddr, PAGE_SIZE in *. lia.
Qed.
Lemma outside_sub (l1 l2 : gset Z) a n b k : l2 ⊆ l1 → a ≤ b → b + k ≤ a + n → outside l1 a n → outside l2 b k.
Proof. intros Hs ? ? Ho x p Hx Hp. apply Ho; [lia | set_solver]. Qed.
Lemma has_outside m a l (L : gset Z) p b k :
  outside L a (Z.of_nat (length l)) → p ∈ L → kaddr p ≤ b → b + Z.of_nat (length k) ≤ kaddr p + PAGE_SIZE →
  has m b k → has (mput m a l) b k.
Proof.
  intros Ho Hp Hb Hk Hh i c Hi. pose proof (lookup_lt_Some _ _ _ Hi). rewrite lookup_mput, decide_False; [by apply Hh |].
  intros Hx. apply (Ho _ _ Hx Hp). lia.
Qed.

(** ** Tables as bags

    The semaphores, pages and ports in use are bags over the entries of a
    table; replacing an entry replaces its part of the bag. *)

Lemma omap_split {A B} (f : A → option B) (l : list A) i x :
  l !! i = Some x → ∃ R, ∀ y, omap f (<[i := y]> l) ≡ₚ option_list (f y) ++ R.
Proof.
  intros Hi. exists (omap f (take i l) ++ omap f (drop (S i) l)). intros y.
  rewrite (insert_take_drop l i y) by (by eapply lookup_lt_Some). rewrite omap_app. simpl.
  destruct (f y) as [b|]; simpl; [| done]. by rewrite Permutation_middle.
Qed.

Lemma omap_insert_perm {A B} (f : A → option B) (l : list A) i x :
  l !! i = Some x → ∃ R, omap f l ≡ₚ option_list (f x) ++ R ∧ ∀ y, omap f (<[i := y]> l) ≡ₚ option_list (f y) ++ R.
Proof.
  intros Hi. destruct (omap_split f l i x Hi) as [R HR]. exists R. split; [| done].
  by rewrite <- (HR x), list_insert_id.
Qed.

Lemma omap_insert_same {A B} (f : A → option B) (l : list A) i x y :
  l !! i = Some x → f y = f x → omap f (<[i := y]> l) = omap f l.
Proof.
  revert i. induction l as [|z l IH]; intros [|i] Hi Hf; simplify_eq/=; [by rewrite Hf |].
  by rewrite (IH i) by done.
Qed.

Lemma list_alter_is {A} (f : A → A) (l : list A) i x : l !! i = Some x → <[i := f x]> l = alter f i l.
Proof.
  intros Hi. apply list_eq. intros j. destruct (decide (j = i)) as [->|].
  - rewrite list_lookup_insert_eq by (by eapply lookup_lt_Some). by rewrite list_lookup_alter_eq, Hi.
  - by rewrite list_lookup_insert_ne, list_lookup_alter_ne.
Qed.

(** *** Semaphores *)

Section sems_are.
Context {Q : Type} `{SleepQueue Q} (table_addr : Z) (table_addr_pos : 0 < table_addr).

Definition sem_at (x : @sems Q) (k v : Z) : Prop := ∃ c, sem_is x k (mk_sem v c).

(** The semaphores of [L] exist, are different ones and have the values. *)
Definition sems_are (x : @sems Q) (L : list (Z * Z)) : Prop :=
  sem_inv table_addr x ∧ NoDup L.*1 ∧ Forall (λ kv, sem_at x kv.1 kv.2) L.

#[export] Instance sems_are_perm x : Proper ((≡ₚ) ==> iff) (sems_are x).
Proof. intros L1 L2 HL. unfold sems_are. by rewrite HL. Qed.

Definition sem_set (k v : Z) (x : @sems Q) : @sems Q :=
  set_sem_table (alter (λ y, mk_sem v (creator y)) (Z.to_nat k) (semaphore_table x)) x.

Lemma sem_set_set k v w x : sem_set k w (sem_set k v x) = sem_set k w x.
Proof. unfold sem_set, set_sem_table. simpl. f_equal. by rewrite list_alter_alter_eq. Qed.
Lemma sem_set_id k v x : sem_at x k v → sem_set k v x = x.
Proof.
  intros (c & Hk & Hx & _). unfold sem_set, set_sem_table. destruct x as [t n q]. simpl in *. f_equal.
  apply list_eq. intros i. destruct (decide (i = Z.to_nat k)) as [->|]; [by rewrite list_lookup_alter_eq, Hx |].
  by rewrite list_lookup_alter_ne.
Qed.
Lemma sem_at_set k v w x : sem_at x k v → sem_at (sem_set k w x) k w.
Proof.
  intros (c & Hk & Hx & Hc). exists c. split_and!; [done | | done]. simpl. by rewrite list_lookup_alter_eq, Hx.
Qed.

Lemma sem_at_other k j v x x' :
  (∀ i, 0 ≤ i → i ≠ k → semaphore_table x' !! Z.to_nat i = semaphore_table x !! Z.to_nat i) →
  j ≠ k → sem_at x j v → sem_at x' j v.
Proof. intros Ht Hj (c & Hk & Hx & Hc). exists c. split_and!; [done | | done]. by rewrite Ht. Qed.

(** The semaphores of [L] stay when others change. *)
Lemma sems_keep k L x x' :
  k ∉ L.*1 → (∀ i, 0 ≤ i → i ≠ k → semaphore_table x' !! Z.to_nat i = semaphore_table x !! Z.to_nat i) →
  Forall (λ kv, sem_at x kv.1 kv.2) L → Forall (λ kv, sem_at x' kv.1 kv.2) L.
Proof.
  intros Hk Ht. rewrite !Forall_forall. intros Hall [j v] Hj. eapply sem_at_other; [done | | by apply (Hall (j, v))].
  simpl. intros <-. apply Hk. by apply (list_elem_of_fmap_2 fst _ (j, v)).
Qed.
Lemma sems_are_change k v w L x x' :
  sems_are x ((k, v) :: L) → sem_inv table_addr x' → sem_at x' k w →
  (∀ i, 0 ≤ i → i ≠ k → semaphore_table x' !! Z.to_nat i = semaphore_table x !! Z.to_nat i) →
  sems_are x' ((k, w) :: L).
Proof using Type.
  intros (_ & Hnd & Hall) Hi Hw Ht. split_and!; [done | done |]. apply Forall_cons in Hall as [_ Hall]. constructor; [done |].
  apply NoDup_cons in Hnd as [Hnd _]. by eapply sems_keep.
Qed.
Lemma sems_are_at k v L x : (k, v) ∈ L → sems_are x L → sem_at x k v.
Proof using Type. intros Hk (_ & _ & Hall). rewrite Forall_forall in Hall. by apply (Hall (k, v)). Qed.
Lemma sem_at_inj k v w x : sem_at x k v → sem_at x k w → v = w.
Proof using Type. intros (c & _ & H1 & _) (d & _ & H2 & _). rewrite H1 in H2. by injection H2. Qed.

Lemma sems_are_set k v w L x :
  sems_are x ((k, v) :: L) → 0 ≤ v → 0 ≤ w < 2 ^ 31 → sems_are (sem_set k w x) ((k, w) :: L).
Proof using Type.
  intros Hs Hv Hw. pose proof (sems_are_at k v _ x ltac:(apply list_elem_of_here) Hs) as Hat. pose proof Hs as (Hi & _ & _).
  pose proof Hat as (c & Hk & Hx & Hc).
  assert (Ht : ∀ i, 0 ≤ i → i ≠ k → semaphore_table (sem_set k w x) !! Z.to_nat i = semaphore_table x !! Z.to_nat i).
  { intros i Hi0 Hne. simpl. by rewrite list_lookup_alter_ne by lia. }
  eapply sems_are_change; [done | | by eapply sem_at_set | done].
  destruct Hi as (Hq & Hl & Hn & Hall). split_and!; simpl; try (done || lia); [by rewrite length_alter |].
  intros i y Hi0 Hy. destruct (decide (i = k)) as [->|Hne].
  - rewrite list_lookup_alter_eq, Hx in Hy. injection Hy as <-. specialize (Hall k _ Hk Hx).
    unfold sem_ok, sem_waiters in *. simpl in *. rewrite (proj2 (Z.eqb_neq _ _) Hc) in *. unfold is_s32. lia.
  - rewrite list_lookup_alter_ne in Hy by lia. by apply (Hall i y).
Qed.

(** [semaphore_P] and [semaphore_V] of a lock do not touch the queue. *)
Lemma P_free_wp cpu k v x (R : bool → sems → Prop) :
  sem_at x k v → 1 ≤ v < 2 ^ 31 → R false (sem_set k (v - 1) x) → wp (semaphore_P_locked table_addr cpu k) R x.
Proof using Type.
  intros (c & Hk & Hx & Hc) Hv HR. pose proof (lookup_lt_Some _ _ _ Hx) as Hlt. unfold semaphore_P_locked.
  wp_step. eapply get_sem_wp; [done | done |]. wp_step. apply put_sem_wp; [lia |]. cbn [value creator].
  rewrite s32_small by (unfold is_s32; lia). wp_step. eapply get_sem_wp; [done | |].
  { cbn. apply list_lookup_insert_eq. lia. }
  cbn [value]. rewrite (proj2 (Z.ltb_ge _ _)) by lia. wp_step. unfold sem_set in HR.
  by rewrite <- (list_alter_is _ _ _ _ Hx) in HR.
Qed.
Lemma V_free_wp k v x (R : unit → sems → Prop) :
  sem_at x k v → 0 ≤ v < 2 ^ 31 - 1 → R tt (sem_set k (v + 1) x) → wp (semaphore_V table_addr k) R x.
Proof using Type.
  intros (c & Hk & Hx & Hc) Hv HR. pose proof (lookup_lt_Some _ _ _ Hx) as Hlt. unfold semaphore_V.
  wp_step. eapply get_sem_wp; [done | done |]. wp_step. apply put_sem_wp; [lia |]. cbn [value creator].
  rewrite s32_small by (unfold is_s32; lia). wp_step. eapply get_sem_wp; [done | |].
  { cbn. apply list_lookup_insert_eq. lia. }
  cbn [value]. rewrite (proj2 (Z.leb_gt _ _)) by lia. wp_step. unfold sem_set in HR.
  by rewrite <- (list_alter_is _ _ _ _ Hx) in HR.
Qed.

(** Events: the caller may have to wait, or may wake a waiter. *)
Lemma P_event_wp cpu t k v L x :
  sems_are x ((k, v) :: L) → sq_caller (sq x) cpu t → - 2 ^ 31 < v →
  wp (semaphore_P_locked table_addr cpu k) (λ b x', b = (v <=? 0) ∧ sems_are x' ((k, v - 1) :: L)) x.
Proof using table_addr_pos.
  intros Hs Hc Hv. pose proof (sems_are_at k v _ x ltac:(apply list_elem_of_here) Hs) as (c & Hat). pose proof Hs as (Hi & _).
  eapply wp_mono; [by apply (P_locked_wp table_addr table_addr_pos x cpu k (mk_sem v c) t) |].
  intros b x' (Hi' & -> & Hat' & _ & Ho). split; [done |]. eapply sems_are_change; [done | done | by exists c |].
  intros i Hi0 Hne. by apply Ho.
Qed.
Lemma P_ready_wp cpu k v L x :
  sems_are x ((k, v) :: L) → (∃ t, sq_caller (sq x) cpu t) ∨ 1 ≤ v < 2 ^ 31 → - 2 ^ 31 < v →
  wp (semaphore_P_locked table_addr cpu k) (λ b x', b = (v <=? 0) ∧ sems_are x' ((k, v - 1) :: L)) x.
Proof using table_addr_pos.
  intros Hs [[t Hc]|Hv] Hr; [by apply (P_event_wp cpu t) |].
  apply (P_free_wp cpu k v); [eapply sems_are_at; [| exact Hs]; apply list_elem_of_here | done |].
  split; [symmetry; apply Z.leb_gt; lia |]. eapply sems_are_set; [exact Hs | lia | lia].
Qed.
Lemma V_event_wp k v L x :
  sems_are x ((k, v) :: L) → v < 2 ^ 31 - 1 →
  wp (semaphore_V table_addr k) (λ _ x', sems_are x' ((k, v + 1) :: L)) x.
Proof using table_addr_pos.
  intros Hs Hv. pose proof (sems_are_at k v _ x ltac:(apply list_elem_of_here) Hs) as (c & Hat). pose proof Hs as (Hi & _).
  eapply wp_mono; [by apply (V_wp table_addr table_addr_pos x k (mk_sem v c)) |].
  intros [] x' (Hi' & Hat' & _ & Ho). eapply sems_are_change; [done | done | by exists c |]. intros i Hi0 Hne. by apply Ho.
Qed.
Lemma create_event_wp cpu v L x :
  sems_are x L → 0 ≤ v < 2 ^ 31 → 0 ≤ cpu < CONFIG_MAX_CPUS →
  wp (semaphore_create cpu v) (λ r x', match r with
    | None => sems_are x' L ∧ ∀ i y, 0 ≤ i → semaphore_table x !! Z.to_nat i = Some y → creator y ≠ -1
    | Some k => sems_are x' ((k, v) :: L) end) x.
Proof using Type.
  intros (Hi & Hnd & Hall) Hv Hc. eapply wp_mono; [by apply (create_wp table_addr x cpu v) |].
  intros [k|] x' (Hi' & _ & Hr).
  - destruct Hr as ((y & Hy & Hfree) & (c & Hat) & Ho).
    assert (Hk : k ∉ L.*1).
    { intros ([k' w] & -> & Hin)%list_elem_of_fmap. rewrite Forall_forall in Hall. destruct (Hall _ Hin) as (d & _ & Hd & Hne).
      simpl in *. rewrite Hy in Hd. injection Hd as ->. done. }
    split_and!; [done | by apply NoDup_cons |]. constructor; [by exists c | by eapply sems_keep].
  - destruct Hr as [Ht Hfull]. split; [| done]. split_and!; [done | done |]. eapply Forall_impl; [exact Hall |].
    intros [k w] (c & Hk & Hx & Hne). exists c. split_and!; [done | by rewrite Ht | done].
Qed.
Lemma destroy_event_wp k v L x :
  sems_are x ((k, v) :: L) → 0 ≤ v → wp (semaphore_destroy k) (λ _ x', sems_are x' L) x.
Proof using Type.
  intros Hs Hv. pose proof (sems_are_at k v _ x ltac:(apply list_elem_of_here) Hs) as (c & Hat).
  destruct Hs as (Hi & [Hk Hnd]%NoDup_cons & [_ Hall]%Forall_cons).
  eapply wp_mono; [by apply (destroy_wp table_addr x k (mk_sem v c)) |].
  intros [] x' (Hi' & _ & Ho). split_and!; [done | done |]. by eapply sems_keep.
Qed.

End sems_are.

(** *** Pages *)

Section pages_ok.
Context {P : Type} `{PageAlloc P}.

(** The pages of [mine] are those of [l], which are different ones, and the free
    ones. *)
Definition pages_ok (mine : gset Z) (p : P) (l : list Z) : Prop :=
  alloc_inv p ∧ NoDup l ∧ (∀ q, q ∈ mine → managed p q) ∧
  free_pages p ∪ list_to_set l = mine ∧ free_pages p ## list_to_set l.

#[export] Instance pages_ok_perm mine p : Proper ((≡ₚ) ==> iff) (pages_ok mine p).
Proof. intros l1 l2 Hl. unfold pages_ok. by rewrite (list_to_set_perm_L (C := gset Z) _ _ Hl), Hl. Qed.

Lemma pages_in mine p l q : pages_ok mine p l → q ∈ l → q ∈ mine ∧ 0 < q < 2 ^ 19 ∧ q ∉ free_pages p.
Proof using Type.
  intros (Ha & _ & Hm & He & Hd) Hq. assert (q ∈ mine) by set_solver. split; [done |]. split; [| set_solver].
  apply (managed_range p); [done | by apply Hm].
Qed.

Lemma pages_get_wp mine p l :
  pages_ok mine p l →
  wp get_phys_page (λ a p', (a = 0 ∧ free_pages p = ∅ ∧ p' = p) ∨
    ∃ q, a = q * PAGE_SIZE ∧ 0 < q < 2 ^ 19 ∧ q ∈ free_pages p ∧ pages_ok mine p' (q :: l)) p.
Proof using Type.
  intros (Ha & Hnd & Hm & He & Hd). eapply wp_mono; [by apply get_phys_page_spec |].
  intros a p' (Ha' & Hm' & [?|(q & -> & Hq & Hf)]); [by left |]. right. exists q.
  assert (Hqm : managed p q) by (by apply free_pages_managed).
  split; [done |]. split; [by apply (managed_range p) |]. split; [done |]. split_and!; [done | | | |].
  - apply NoDup_cons. split; [set_solver | done].
  - intros r Hr. apply Hm'. by apply Hm.
  - simpl. rewrite Hf, <- He. apply set_eq. intros r. destruct (decide (r = q)); set_solver.
  - simpl. rewrite Hf. set_solver.
Qed.

Lemma pages_free_wp mine p l q :
  pages_ok mine p (q :: l) →
  wp (free_phys_page (q * PAGE_SIZE)) (λ _ p', pages_ok mine p' l ∧ free_pages p' = {[q]} ∪ free_pages p) p.
Proof using Type.
  intros (Ha & [Hq Hnd]%NoDup_cons & Hm & He & Hd). simpl in *.
  assert (Hqm : managed p q) by (apply Hm; set_solver).
  eapply wp_mono; [apply (free_phys_page_spec p q); [done | done | set_solver] |].
  intros [] p' (Ha' & Hm' & Hf). split; [| done]. split_and!; [done | done | | |].
  - intros r Hr. apply Hm'. by apply Hm.
  - rewrite Hf, <- He. set_solver.
  - rewrite Hf. intros r. rewrite elem_of_union, elem_of_list_to_set. set_solver.
Qed.

End pages_ok.

(** ** The invariant *)

(** The largest payload that fits into a frame. *)
Definition MAX_PAYLOAD : Z := PAGE_SIZE - SIZEOF_FRAME_HEADER - SIZEOF_POP_HEADER.

(** The size in the header of the packet at [f] is one that fits. *)
Definition packet_ok (m : gmap Z Z) (f : Z) : Prop := ∃ v, has m (f + 4) (bytes32 v) ∧ 0 ≤ v ≤ MAX_PAYLOAD.

(** What the code relies on of the devices: a frame is sent from where it is,
    and received into its page, whole; the clock can be read. *)
Class NetLaws (G : Type) `{NetDevice G} := {
  send_law d a addr g m : ∃ r g', gnd_send d a addr (g, m) = Ok (r, (g', m));
  recv_law d p g m :
    mem_bytes m → region m (kaddr p) PAGE_SIZE →
    gnd_recv d (p * PAGE_SIZE) (g, m) = Block ∨
    ∃ r g' m', gnd_recv d (p * PAGE_SIZE) (g, m) = Ok (r, (g', m')) ∧ mem_bytes m' ∧
      (∀ x, ¬ kaddr p ≤ x < kaddr p + PAGE_SIZE → m' !! x = m !! x) ∧
      region m' (kaddr p) PAGE_SIZE ∧ (r = 0 → packet_ok m' (payload p));
  msec_law g : ∃ t g', rtc_get_msec g = Ok (t, g');
}.

(** A socket is free or has a protocol, a port and a semaphore. *)
Definition sock_ok (x : socket_descriptor) : Prop :=
  (protocol x = 0 ∧ receive_complete x = None ∧ rbuf x = 0) ∨
  ((protocol x = PROTOCOL_POP ∨ (protocol x = PROTOCOL_SOP ∧ rbuf x = 0)) ∧ 0 < port x < 2 ^ 16 ∧ is_Some (receive_complete x)).

Definition used_port (x : socket_descriptor) : option Z := if protocol x =? 0 then None else Some (port x).
Definition used_ports (l : list socket_descriptor) : list Z := omap used_port l.

(** 1 when a call waits for a packet on the socket. *)
Definition asked (x : socket_descriptor) : Z := if rbuf x =? 0 then 0 else 1.

(** The semaphore of a socket: calls that are between asking and waiting have
    not taken it yet. *)
Definition sock_sem (pend : Z → Z) (x : socket_descriptor) : option (Z * Z) :=
  (λ k, (k, pend k - asked x)) <$> receive_complete x.

Definition set_pend (k w : Z) (pend : Z → Z) : Z → Z := λ j, if j =? k then w else pend j.

(** Where a call of [socket_recvfrom] wants its results: memory that is none
    of the network's. *)
Definition buffer_ok (mine : gset Z) (m : gmap Z Z) (x : socket_descriptor) : Prop :=
  1 ≤ bufsize x < 2 ^ 31 ∧
  region m (rbuf x) (bufsize x) ∧ outside mine (rbuf x) (bufsize x) ∧
  region m (sender x) 4 ∧ outside mine (sender x) 4 ∧
  region m (copied x) 4 ∧ outside mine (copied x) 4 ∧
  region m (sport x) 2 ∧ outside mine (sport x) 2.

Definition slot_page (e : pop_entry) : option Z := if frame e =? 0 then None else Some (page_of (frame e)).
Definition pages_of (l : list pop_entry) : list Z := omap slot_page l.
Definition slot_ok (m : gmap Z Z) (e : pop_entry) : Prop :=
  frame e ≠ 0 → frame e = payload (page_of (frame e)) ∧ -1 ≤ pq_socket e < CONFIG_MAX_OPEN_SOCKETS ∧ packet_ok m (frame e).

(** The interfaces fill the table from its start, but not to its end. *)
Definition interfaces_ok (l : list interface_info) : Prop :=
  length l = 4%nat ∧ ∃ l1 e l2, l = l1 ++ e :: l2 ∧ gnd e = 0 ∧ Forall (λ n, gnd n ≠ 0 ∧ 21 ≤ mtu n ≤ PAGE_SIZE) l1.

(** The entries of a table but one. *)
Definition others {A} (i : nat) (l : list A) : list A := take i l ++ drop (S i) l.

Lemma omap_others {A B} (f : A → option B) (l : list A) i x y :
  l !! i = Some x → omap f (<[i := y]> l) ≡ₚ option_list (f y) ++ omap f (others i l).
Proof.
  intros Hi. rewrite (insert_take_drop l i y) by (by eapply lookup_lt_Some). unfold others. rewrite !omap_app. simpl.
  destruct (f y) as [z|]; simpl; [by rewrite Permutation_middle | done].
Qed.

Lemma sock_sem_pend (pend pend' : Z → Z) l :
  (∀ k, k ∈ (omap (sock_sem pend) l).*1 → pend' k = pend k) → omap (sock_sem pend') l = omap (sock_sem pend) l.
Proof.
  induction l as [|x l IH]; intros Hk; [done |]. cbn [omap list_omap] in *.
  destruct (receive_complete x) as [k|] eqn:E.
  - assert (∀ f, sock_sem f x = Some (k, f k - asked x)) as Hx by (intros f; unfold sock_sem; by rewrite E).
    rewrite !Hx in *. rewrite (Hk k) by set_solver. rewrite IH; [done |]. intros j Hj. apply Hk. set_solver.
  - assert (∀ f, sock_sem f x = None) as Hx by (intros f; unfold sock_sem; by rewrite E). rewrite !Hx in *. by apply IH.
Qed.

Section core.
Context {G : Type} `{NetLaws G} {P : Type} `{PageAlloc P} {Q : Type} `{SleepQueue Q}.
Context (table_addr : Z) (table_addr_pos : 0 < table_addr).
Abbreviation net := (@net G P Q).

(** The semaphores, with their values: [vs] is that of the send buffer's lock,
    [v] that of the service thread's. *)
Definition net_sems (s : net) (vs v : Z) (pend : Z → Z) (L : list (Z * Z)) : Prop :=
  ∃ a b c d, open_sockets_sem s = Some a ∧ pop_queue_sem s = Some b ∧ pop_send_buffer_sem s = Some c ∧
    pop_service_thread_sem s = Some d ∧
    L = [(a, 1); (b, 1); (c, vs); (d, v)] ++ omap (sock_sem pend) (open_sockets s).

(** The invariant.  [mine] are the pages of the network and those that are
    free, [held] those the network's threads hold outside the queue. *)
Record core (mine : gset Z) (pend : Z → Z) (vs v : Z) (held : list Z) (s : net) : Prop := {
  c_sems : ∃ L, net_sems s vs v pend L ∧ sems_are table_addr (n_sems s) L;
  c_pend : ∀ k, 0 ≤ pend k;
  c_socks : length (open_sockets s) = 64%nat ∧ Forall sock_ok (open_sockets s);
  c_ports : NoDup (used_ports (open_sockets s));
  c_bufs : Forall (λ x, rbuf x ≠ 0 → buffer_ok mine (n_mem s) x) (open_sockets s);
  c_queue : length (pop_queue s) = 32%nat ∧ Forall (slot_ok (n_mem s)) (pop_queue s);
  c_pages : ∃ b, pop_send_buffer s = kaddr b ∧ pages_ok mine (n_pool s) (b :: pages_of (pop_queue s) ++ held);
  c_mem : mem_bytes (n_mem s) ∧ ∀ p, p ∈ mine → region (n_mem s) (kaddr p) PAGE_SIZE;
  c_ifs : interfaces_ok (network_interfaces s);
}.

(** ** Steps *)

Lemma mstore_wp (s : net) a l (R : unit → net → Prop) :
  region (n_mem s) a (Z.of_nat (length l)) → R tt (set_mem (mput (n_mem s) a l) s) → wp (mstore a l) R s.
Proof using Type.
  intros Hr HR. unfold mstore. wp_step. wp_step. wp_step. eapply wp_pure; [by apply mwrite_Ok |]. by wp_step.
Qed.
Lemma mload_wp (s : net) a l n (R : bytes → net → Prop) : has (n_mem s) a l → n = length l → R l s → wp (mload n a) R s.
Proof using Type. intros Hh -> HR. unfold mload. wp_step. wp_step. eapply wp_pure; [by apply mread_Ok | done]. Qed.
Lemma load32_wp (s : net) a w (R : Z → net → Prop) : has (n_mem s) a (bytes32 w) → is_u32 w → R w s → wp (load32 a) R s.
Proof using Type.
  intros Hh Hw HR. unfold load32. wp_step. apply (mload_wp s a (bytes32 w)); [done | done |]. unfold bytes32 at 1.
  wp_step. change (be32 _ _ _ _) with (be32 (w / 2 ^ 24 mod 2 ^ 8) (w / 2 ^ 16 mod 2 ^ 8) (w / 2 ^ 8 mod 2 ^ 8) (w mod 2 ^ 8)).
  by rewrite be32_bytes32.
Qed.
Lemma load16_wp (s : net) a w (R : Z → net → Prop) : has (n_mem s) a (bytes16 w) → 0 ≤ w < 2 ^ 16 → R w s → wp (load16 a) R s.
Proof using Type.
  intros Hh Hw HR. unfold load16. wp_step. apply (mload_wp s a (bytes16 w)); [done | done |]. unfold bytes16 at 1.
  wp_step. replace (w / 2 ^ 8 mod 2 ^ 8 * 2 ^ 8 + w mod 2 ^ 8) with w; [done |].
  rewrite (Z.mod_small (w / 2 ^ 8)); [pose proof (Z.div_mod w (2 ^ 8) ltac:(done)); lia |].
  split; [apply Z.div_pos; lia | apply Z.div_lt_upper_bound; lia].
Qed.
Lemma word_at (m : gmap Z Z) a : mem_bytes m → region m a 4 → ∃ w, is_u32 w ∧ has m a (bytes32 w).
Proof using Type.
  intros Hm Hr. destruct (region_has m a 4 ltac:(done) Hr) as (l & Hl & Hh). pose proof (has_bytes m a l Hm Hh) as Hb.
  destruct l as [|b0 [|b1 [|b2 [|b3 [|]]]]]; try done. repeat apply Forall_cons in Hb as [? Hb].
  exists (be32 b0 b1 b2 b3). split; [by apply be32_u32 |]. by rewrite bytes32_be32.
Qed.
Lemma word_inj (m : gmap Z Z) a v w : has m a (bytes32 v) → has m a (bytes32 w) → is_u32 v → is_u32 w → v = w.
Proof using Type.
  intros Hv Hw Rv Rw. pose proof (has_inj m a (bytes32 v) (bytes32 w) eq_refl Hv Hw) as E. unfold bytes32 in E. injection E as E0 E1 E2 E3.
  rewrite <- (be32_bytes32 v Rv), <- (be32_bytes32 w Rw). congruence.
Qed.
Lemma half_at (m : gmap Z Z) a : mem_bytes m → region m a 2 → ∃ w, 0 ≤ w < 2 ^ 16 ∧ has m a (bytes16 w).
Proof using Type.
  intros Hm Hr. destruct (region_has m a 2 ltac:(done) Hr) as (l & Hl & Hh). pose proof (has_bytes m a l Hm Hh) as Hb.
  destruct l as [|b0 [|b1 [|]]]; try done. repeat apply Forall_cons in Hb as [? Hb]. unfold is_byte in *.
  exists (b0 * 2 ^ 8 + b1). split; [lia |]. unfold bytes16.
  rewrite Z.add_mod, Z.mod_mul, Z.add_0_l, Z.mod_mod, (Z.mod_small b1), Z.div_add_l, (Z.div_small b1), Z.add_0_r, Z.mod_small by lia. done.
Qed.

Lemma half_inj (m : gmap Z Z) a v w : has m a (bytes16 v) → has m a (bytes16 w) → 0 ≤ v < 2 ^ 16 → 0 ≤ w < 2 ^ 16 → v = w.
Proof using Type.
  intros Hv Hw Rv Rw. pose proof (has_inj m a (bytes16 v) (bytes16 w) eq_refl Hv Hw) as E. unfold bytes16 in E. injection E as E0 E1.
  assert (Hd : ∀ x, 0 ≤ x < 2 ^ 16 → x / 2 ^ 8 mod 2 ^ 8 = x / 2 ^ 8).
  { intros x Hx. apply Z.mod_small. split; [apply Z.div_pos; lia | apply Z.div_lt_upper_bound; lia]. }
  rewrite !Hd in E0 by done. pose proof (Z.div_mod v (2 ^ 8) ltac:(done)). pose proof (Z.div_mod w (2 ^ 8) ltac:(done)). lia.
Qed.

Lemma kmemcopy_wp (s : net) n t x l (R : unit → net → Prop) :
  region (n_mem s) t n → has (n_mem s) x l → n = Z.of_nat (length l) →
  R tt (set_mem (mput (n_mem s) t l) s) → wp (kmemcopy n t x) R s.
Proof using Type.
  intros Ht Hx -> HR. destruct (region_has _ _ _ (Nat2Z.is_nonneg _) Ht) as (old & Hol & Hold). unfold kmemcopy.
  wp_step. apply (mload_wp s t old); [done | lia |]. wp_step. apply (mload_wp s x l); [done | lia |].
  wp_step. eapply wp_pure; [apply memcopy_Ok; lia |]. rewrite firstn_all.
  assert (splice 0 l old = l) as ->.
  { unfold splice. simpl. rewrite drop_ge by lia. by rewrite app_nil_r. }
  by apply mstore_wp.
Qed.

Lemma get_socket_wp (s : net) i x (R : socket_descriptor → net → Prop) :
  0 ≤ i → open_sockets s !! Z.to_nat i = Some x → R x s → wp (get_socket i) R s.
Proof using Type. intros Hi Hx HR. unfold get_socket. wp_step. wp_step. eapply wp_pure; [by apply aget_Ok | done]. Qed.
Lemma put_socket_wp (s : net) i x (R : unit → net → Prop) :
  0 ≤ i < Z.of_nat (length (open_sockets s)) → R tt (set_sockets (<[Z.to_nat i := x]> (open_sockets s)) s) → wp (put_socket i x) R s.
Proof using Type.
  intros Hi HR. unfold put_socket. wp_step. wp_step. wp_step. eapply wp_pure; [by apply aset_Ok |]. by wp_step.
Qed.
Lemma get_pop_wp (s : net) i x (R : pop_entry → net → Prop) :
  0 ≤ i → pop_queue s !! Z.to_nat i = Some x → R x s → wp (get_pop i) R s.
Proof using Type. intros Hi Hx HR. unfold get_pop. wp_step. wp_step. eapply wp_pure; [by apply aget_Ok | done]. Qed.
Lemma put_pop_wp (s : net) i x (R : unit → net → Prop) :
  0 ≤ i < Z.of_nat (length (pop_queue s)) → R tt (set_popq (<[Z.to_nat i := x]> (pop_queue s)) s) → wp (put_pop i x) R s.
Proof using Type.
  intros Hi HR. unfold put_pop. wp_step. wp_step. wp_step. eapply wp_pure; [by apply aset_Ok |]. by wp_step.
Qed.

Lemma lock_wp (s : net) cpu k v (R : unit → net → Prop) :
  sem_at (n_sems s) k v → 1 ≤ v < 2 ^ 31 → R tt (set_nsems (sem_set k (v - 1) (n_sems s)) s) → wp (lock table_addr cpu (Some k)) R s.
Proof using Type.
  intros Hk Hv HR. unfold lock. wp_step. unfold on_nsems. wp_step. apply (P_free_wp table_addr cpu k v); [done | done |]. by wp_step.
Qed.
Lemma lock_release_wp (s : net) k v (R : unit → net → Prop) :
  sem_at (n_sems s) k v → 0 ≤ v < 2 ^ 31 - 1 → R tt (set_nsems (sem_set k (v + 1) (n_sems s)) s) → wp (signal table_addr (Some k)) R s.
Proof using Type.
  intros Hk Hv HR. unfold signal, on_nsems. wp_step. by apply (V_free_wp table_addr k v).
Qed.

(** The state behind a lock that was taken and given back. *)
Lemma sem_relock k (x : @sems Q) : sem_at x k 1 → sem_set k 1 (sem_set k 0 x) = x.
Proof using Type. intros Hk. by rewrite sem_set_set, sem_set_id. Qed.

End core.
