(* ===== verification/NetRun.v ===== *)
(** * The network over all runs

    Every operation of [Net] preserves the invariant [core] of [NetSpec]; the
    theorems follow from that and from what the operations do to a packet. *)

From stdpp Require Import gmap.
From S2P Require Import Prelude Kmalloc Pagepool Sched SchedSpec Semaphore Libc TfsDir Devices Vm Net NetSpec.
Local Open Scope Z_scope.

Section run.
Context {G : Type} `{NetLaws G} {P : Type} `{PageAlloc P} {Q : Type} `{SleepQueue Q}.
Context (table_addr : Z) (table_addr_pos : 0 < table_addr).
Abbreviation net := (@net G P Q).
Abbreviation core := (@core G P _ Q _ table_addr).

(** ** The parts of the invariant *)

Lemma core_held_perm mine pend vs v l1 l2 (s : net) : l1 ≡ₚ l2 → core mine pend vs v l1 s → core mine pend vs v l2 s.
Proof using Type.
  intros Hl [? ? ? ? ? ? (b & Hb & Hp) ? ?]. constructor; [done.. | | done | done]. exists b. split; [done |]. by rewrite <- Hl.
Qed.
#[export] Instance core_perm mine pend vs v : Proper ((≡ₚ) ==> (=) ==> iff) (core mine pend vs v).
Proof using Type. intros l1 l2 Hl s ? <-. split; by apply core_held_perm. Qed.

Lemma core_dev mine pend vs v held g (s : net) : core mine pend vs v held s → core mine pend vs v held (set_dev g s).
Proof using Type. intros []. by constructor. Qed.

Lemma slot_frame (e : pop_entry) m :
  slot_ok m e → frame e ≠ 0 → slot_page e = Some (page_of (frame e)) ∧ frame e = payload (page_of (frame e)).
Proof. intros He Hf. split; [| by apply He]. unfold slot_page. by rewrite (proj2 (Z.eqb_neq _ _) Hf). Qed.

Lemma in_pages_of l i e : l !! i = Some e → frame e ≠ 0 → page_of (frame e) ∈ pages_of l.
Proof using Type*.
  intros Hi Hf. apply list_elem_of_omap. exists e. split; [by eapply list_elem_of_lookup_2 |].
  unfold slot_page. by rewrite (proj2 (Z.eqb_neq _ _) Hf).
Qed.

(** A write that leaves the packets of the queue alone. *)
Lemma core_write mine pend vs v held (s : net) a l :
  core mine pend vs v held s → region (n_mem s) a (Z.of_nat (length l)) → is_bytes l →
  outside (list_to_set (pages_of (pop_queue s))) a (Z.of_nat (length l)) →
  core mine pend vs v held (set_mem (mput (n_mem s) a l) s).
Proof using Type*.
  intros [Csems Cpend Csocks Cports Cbufs [Clen Cq] Cpages [Cb Cr] Cifs] Hr Hl Ho. constructor; try done; simpl.
  - eapply Forall_impl; [exact Cbufs |]. simpl. intros x Hx Hx0. destruct (Hx Hx0) as (? & ? & ? & ? & ? & ? & ? & ? & ?).
    split_and!; first [done | lia | by apply region_mput].
  - split; [done |]. apply Forall_lookup. intros i e Hi. pose proof Cq as Cq'. rewrite Forall_lookup in Cq'. specialize (Cq' i e Hi).
    intros Hf. destruct (Cq' Hf) as (Hfr & Hs & w & Hw & Hwm). split_and!; try done; try lia. exists w. split; [| done].
    eapply has_outside; [exact Ho | apply elem_of_list_to_set; by eapply in_pages_of | | | exact Hw];
      unfold payload, SIZEOF_FRAME_HEADER, PAGE_SIZE in *; simpl; lia.
  - split; [by apply mem_bytes_mput |]. intros p Hp. apply region_mput; [done | by apply Cr].
Qed.

(** A write into a page that the network's code holds. *)
Lemma core_write_page mine pend vs v held (s : net) p off l :
  core mine pend vs v held s → (p ∈ held ∨ pop_send_buffer s = kaddr p) → 0 ≤ off → off + Z.of_nat (length l) ≤ PAGE_SIZE → is_bytes l →
  region (n_mem s) (kaddr p + off) (Z.of_nat (length l)) ∧ core mine pend vs v held (set_mem (mput (n_mem s) (kaddr p + off) l) s).
Proof using Type*.
  intros C Hp Hoff Hlen Hl. pose proof C as [_ _ _ _ _ _ (b & Hb & Hpages) [_ Cr] _].
  assert (Hpb : p ∈ b :: pages_of (pop_queue s) ++ held).
  { destruct Hp as [Hp|Hp]; [set_solver |]. assert (p = b) as -> by (rewrite Hb in Hp; unfold kaddr, PAGE_SIZE in Hp; lia). set_solver. }
  destruct (pages_in _ _ _ _ Hpages Hpb) as (Hm & Hrange & _).
  assert (Hreg : region (n_mem s) (kaddr p + off) (Z.of_nat (length l))) by (eapply region_sub; [by apply Cr | lia | lia]).
  split; [done |]. apply core_write; [done | done | done |]. apply (outside_other _ p); [| lia | lia].
  rewrite elem_of_list_to_set. destruct Hpages as (_ & [Hnb Hnd]%NoDup_cons & _). apply NoDup_app in Hnd as (_ & Hd & _).
  destruct Hp as [Hp|Hp]; [intros Hx; by apply (Hd p) |].
  assert (p = b) as -> by (rewrite Hb in Hp; unfold kaddr, PAGE_SIZE in Hp; lia). set_solver.
Qed.

(** *** Semaphores *)

Lemma core_sem_at mine pend vs v held (s : net) :
  core mine pend vs v held s → ∃ a b c d,
    open_sockets_sem s = Some a ∧ pop_queue_sem s = Some b ∧ pop_send_buffer_sem s = Some c ∧ pop_service_thread_sem s = Some d ∧
    sem_at (n_sems s) a 1 ∧ sem_at (n_sems s) b 1 ∧ sem_at (n_sems s) c vs ∧ sem_at (n_sems s) d v ∧ NoDup [a; b; c; d].
Proof using Type.
  intros [(L & (a & b & c & d & Ea & Eb & Ec & Ed & ->) & _ & Hnd & Hall) _ _ _ _ _ _ _ _]. exists a, b, c, d.
  rewrite !Forall_app, !Forall_cons in Hall. rewrite fmap_app in Hnd. apply NoDup_app in Hnd as [Hnd _]. simpl in *. tauto.
Qed.

(** A step of one semaphore, with the bag of all of them. *)
Lemma core_set_sems mine pend vs v held (s : net) pend' vs' v' x :
  core mine pend vs v held s → (∀ k, 0 ≤ pend' k) →
  (∀ L, net_sems s vs v pend L → sems_are table_addr (n_sems s) L → ∃ L', net_sems s vs' v' pend' L' ∧ sems_are table_addr x L') →
  core mine pend' vs' v' held (set_nsems x s).
Proof using Type.
  intros [(L & HL & Hs) Cpend Csocks Cports Cbufs Cq Cpages Cm Cifs] Hp Hstep. constructor; try done. simpl.
  destruct (Hstep L HL Hs) as (L' & HL' & Hs'). by exists L'.
Qed.

Lemma signal_service_wp mine pend vs v held (s : net) :
  core mine pend vs v held s → v < 2 ^ 31 - 1 →
  wp (signal table_addr (pop_service_thread_sem s)) (λ _ s', core mine pend vs (v + 1) held s' ∧ ∃ x, s' = set_nsems x s) s.
Proof using Type*.
  intros C Hv. pose proof C as [(L & HL & Hs) Cpend _ _ _ _ _ _ _]. pose proof HL as (a & b & c & d & Ea & Eb & Ec & Ed & ->).
  rewrite Ed. unfold signal, on_nsems. wp_step.
  assert (Hperm : ∀ w, [(a, 1); (b, 1); (c, vs); (d, w)] ++ omap (sock_sem pend) (open_sockets s) ≡ₚ
    (d, w) :: [(a, 1); (b, 1); (c, vs)] ++ omap (sock_sem pend) (open_sockets s)) by (intros w; solve_Permutation).
  rewrite Hperm in Hs. eapply wp_mono; [by apply (V_event_wp table_addr table_addr_pos d v _ _ Hs) |].
  intros [] x Hx. split; [| by exists x]. eapply core_set_sems; [done | done |]. intros L' _ _. eexists. split.
  - exists a, b, c, d. split_and!; done.
  - by rewrite Hperm.
Qed.

(** Taking a lock and giving it back. *)
Lemma set_nsems_id (s : net) : set_nsems (n_sems s) s = s.
Proof using Type. by destruct s. Qed.

(** *** The queue *)

(** The pages of the network but those held and that of a slot. *)
Definition slot_rest (s : net) (i : nat) : list Z := page_of (pop_send_buffer s) :: omap slot_page (others i (pop_queue s)).

Lemma page_of_kaddr p : page_of (kaddr p) = p.
Proof using Type. unfold page_of, kaddr. rewrite Z.add_simpl_l. by rewrite Z.mul_comm, Z.div_mul. Qed.

(** A slot with its page, and the other pages. *)
Lemma core_slot_at mine pend vs v held (s : net) i e :
  core mine pend vs v held s → pop_queue s !! i = Some e →
  pages_ok mine (n_pool s) (option_list (slot_page e) ++ held ++ slot_rest s i) ∧
  ∀ e' p' held', slot_ok (n_mem s) e' → pages_ok mine p' (option_list (slot_page e') ++ held' ++ slot_rest s i) →
    core mine pend vs v held' (set_npool p' (set_popq (<[i := e']> (pop_queue s)) s)).
Proof using Type.
  intros [Csems Cpend Csocks Cports Cbufs [Clen Cq] (b & Hb & Hpg) Cm Cifs] Hi. unfold slot_rest. rewrite Hb, page_of_kaddr.
  set (R := omap slot_page (others i (pop_queue s))).
  assert (Hperm : ∀ o hd, b :: (option_list o ++ R) ++ hd ≡ₚ option_list o ++ hd ++ b :: R) by (intros; solve_Permutation). split.
  - unfold pages_of in Hpg. rewrite <- (list_insert_id _ _ _ Hi), (omap_others _ _ _ _ e Hi) in Hpg. fold R in Hpg. by rewrite Hperm in Hpg.
  - intros e' p' held' He' Hpg'. constructor; try done; simpl.
    + rewrite length_insert. split; [done |]. by apply Forall_insert.
    + exists b. split; [done |]. unfold pages_of. rewrite (omap_others _ _ _ _ e' Hi). fold R. by rewrite Hperm.
Qed.
Lemma core_slot mine pend vs v held (s : net) i e :
  core mine pend vs v held s → pop_queue s !! i = Some e →
  ∃ L, pages_ok mine (n_pool s) (option_list (slot_page e) ++ held ++ L) ∧
    ∀ e' p' held', slot_ok (n_mem s) e' → pages_ok mine p' (option_list (slot_page e') ++ held' ++ L) →
      core mine pend vs v held' (set_npool p' (set_popq (<[i := e']> (pop_queue s)) s)).
Proof using Type. intros C Hi. eexists. by apply core_slot_at. Qed.

Lemma free_frame_wp mine (s : net) p L (R : unit → net → Prop) :
  pages_ok mine (n_pool s) (p :: L) →
  (∀ p', pages_ok mine p' L → free_pages p' = {[p]} ∪ free_pages (n_pool s) → R tt (set_npool p' s)) →
  wp (network_free_frame (payload p)) R s.
Proof using Type.
  intros Hp HR. destruct (pages_in _ _ _ p Hp ltac:(apply list_elem_of_here)) as (_ & Hr & _).
  unfold network_free_frame, on_npool. wp_step. unfold payload. rewrite frame_page by (unfold PAGE_SIZE, SIZEOF_FRAME_HEADER; lia).
  eapply wp_mono; [by apply pages_free_wp |]. intros [] p' [Hp' Hf]. by apply HR.
Qed.

(** The loop over the slots finds a free one if there is one. *)
Definition scanned (q : list pop_entry) (i free oldest : Z) : Prop :=
  ((free = -1 ∧ ∀ j e, (j < Z.to_nat i)%nat → q !! j = Some e → frame e ≠ 0) ∨
   (0 ≤ free < i ∧ ∃ e, q !! Z.to_nat free = Some e ∧ frame e = 0)) ∧
  (oldest = -1 ∨ (0 ≤ oldest < i ∧ ∃ e, q !! Z.to_nat oldest = Some e ∧ busy e = 0)).

Lemma scan_slots_Ok q k i free oldest :
  0 ≤ i → i + Z.of_nat k = Z.of_nat (length q) → scanned q i free oldest →
  ∃ free' oldest', scan_slots k q i free oldest = Ok (free', oldest') ∧ scanned q (i + Z.of_nat k) free' oldest'.
Proof using Type.
  revert i free oldest. induction k as [|k IH]; intros i free oldest Hi Hk Hs.
  { exists free, oldest. split; [done |]. by rewrite Z.add_0_r. }
  destruct (lookup_lt_is_Some_2 q (Z.to_nat i)) as [x Hx]; [lia |]. cbn [scan_slots].
  rewrite (proj2 (aget_Ok q i x)) by done. unfold mbind, res_bind. destruct Hs as [Hf Ho].
  assert (Holder : ∃ b, (if oldest =? -1 then Ok true
     else if busy x =? 0 then match aget q oldest with Ok y => Ok (timestamp x <? timestamp y) | Panic e => Panic e | Block => Block | Undef => Undef | NoFuel => NoFuel end
     else Ok false) = Ok b).
  { destruct Ho as [->|(Ho & y & Hy & _)]; [by eexists |]. rewrite (proj2 (Z.eqb_neq _ _)) by lia.
    rewrite (proj2 (aget_Ok q oldest y)) by (split; [lia | done]). destruct (busy x =? 0); by eexists. }
  destruct Holder as [older ->].
  replace (i + Z.of_nat (S k)) with (i + 1 + Z.of_nat k) by lia. apply IH; [lia | lia |]. split.
  - destruct Hf as [[-> Hall]|(Hr & e & He & He0)].
    + simpl. case_test; [right; split; [lia |]; by exists x |]. left. split; [done |].
      intros j e Hj He. destruct (decide (j = Z.to_nat i)) as [->|]; [congruence |]. apply (Hall j e); [lia | done].
    + rewrite (proj2 (Z.eqb_neq free (-1))) by lia. simpl. right. split; [lia |]. by exists e.
  - destruct ((busy x =? 0) && older) eqn:Hb; [| destruct Ho as [?|[? ?]]; [by left | right; split; [lia | done]]].
    right. split; [lia |]. exists x. split; [done |]. by apply andb_true_iff in Hb as [?%Z.eqb_eq _].
Qed.

Lemma scan_wp (s : net) (R : Z * Z → net → Prop) :
  length (pop_queue s) = 32%nat →
  (∀ free oldest, scanned (pop_queue s) 32 free oldest → R (free, oldest) s) →
  wp (pure (scan_slots (Z.to_nat CONFIG_POP_QUEUE_SIZE) (pop_queue s) 0 (-1) (-1))) R s.
Proof using Type.
  intros Hl HR. destruct (scan_slots_Ok (pop_queue s) 32 0 (-1) (-1)) as (free & oldest & E & Hs); [done | by rewrite Hl | |].
  { split; [left; split; [done | simpl; lia] | by left]. }
  eapply wp_pure; [exact E | by apply HR].
Qed.

(** Reading the clock. *)
Lemma msec_wp (s : net) (R : Z → net → Prop) : (∀ t g, R t (set_dev g s)) → wp (on_dev rtc_get_msec) R s.
Proof using Type*.
  intros HR. unfold on_dev. wp_step. destruct (msec_law (n_dev s)) as (t & g & E). unfold wp. rewrite E. apply HR.
Qed.

(** What a packet that is accepted changes. *)
Definition pushed (s s' : net) (src p : Z) : Prop :=
  ∃ i e now g, pop_queue s !! i = Some e ∧
    (frame e = 0 ∧ n_pool s' = n_pool s ∨ busy e = 0 ∧ Forall (λ e, frame e ≠ 0) (pop_queue s)) ∧
    s' = set_nsems (n_sems s') (set_dev g (set_npool (n_pool s') (set_popq (<[i := mk_pop (payload p) (-1) now src 0]> (pop_queue s)) s))).

Lemma all_full (q : list pop_entry) : length q = 32%nat →
  (∀ j e, (j < Z.to_nat 32)%nat → q !! j = Some e → frame e ≠ 0) → Forall (λ e, frame e ≠ 0) q.
Proof using Type. intros Hl Ha. apply Forall_lookup. intros j e Hj. apply (Ha j e); [| done]. apply lookup_lt_Some in Hj. lia. Qed.

(** Putting a packet into a slot: the page of the old one is given back. *)
Lemma fill_slot_wp mine pend vs v held (s : net) (b i : Z) e (p src : Z) :
  core mine pend vs v (p :: held) s → pop_queue_sem s = Some b → sem_at (n_sems s) b 1 → 0 ≤ i → pop_queue s !! Z.to_nat i = Some e →
  packet_ok (n_mem s) (payload p) → v < 2 ^ 31 - 1 →
  wp (x ← get_pop i;
      (if negb (frame x =? 0) then network_free_frame (frame x) else mret tt);;
      now ← on_dev rtc_get_msec;
      put_pop i (mk_pop (payload p) (-1) now src 0);;
      signal table_addr (Some b);;
      service_sem ← gets pop_service_thread_sem;
      signal table_addr service_sem;;
      mret 1)
    (λ r s', r = 1 ∧ core mine pend vs (v + 1) held s' ∧ ∃ now g,
      (frame e = 0 → n_pool s' = n_pool s) ∧
      s' = set_nsems (n_sems s') (set_dev g (set_npool (n_pool s') (set_popq (<[Z.to_nat i := mk_pop (payload p) (-1) now src 0]> (pop_queue s)) s))))
    (set_nsems (sem_set b 0 (n_sems s)) s).
Proof using Type*.
  intros C Eb Hb Hi Hie Hpk Hv. pose proof C as [_ _ _ _ _ [Clen Cq] (sb & Hsb & Hpg) _ _].
  pose proof (proj1 (Forall_lookup _ _) Cq _ _ Hie) as Heok. pose proof (lookup_lt_Some _ _ _ Hie) as Hlt.
  destruct (core_slot _ _ _ _ _ _ _ _ C Hie) as (L & HL & Hput).
  assert (Hp : 0 < p < 2 ^ 19) by (eapply pages_in; [exact Hpg | set_solver]).
  wp_step. eapply get_pop_wp; [done | exact Hie |].
  set (s1 := set_nsems (sem_set b 0 (n_sems s)) s).
  wp_step. eapply (wp_mono _ (λ _ s2, ∃ p', s2 = set_npool p' s1 ∧ (frame e = 0 → p' = n_pool s) ∧ pages_ok mine p' (p :: held ++ L))).
  { destruct (Z.eqb_spec (frame e) 0) as [H0e|Hn0]; simpl.
    - wp_step. exists (n_pool s). split; [done |]. split; [done |]. unfold slot_page in HL. by rewrite H0e in HL.
    - destruct (slot_frame _ _ Heok Hn0) as [Hsp Hfr]. rewrite Hfr. rewrite Hsp in HL. simpl in HL.
      eapply free_frame_wp; [exact HL |]. intros p' Hp' Hf. exists p'. split; [done |]. split; [| done].
      intros Hz. by rewrite <- Hfr in Hz. }
  intros [] s2 (p' & -> & Hsame & Hp'). wp_step. apply msec_wp. intros now g. wp_step.
  apply put_pop_wp; [simpl; lia |]. wp_step. apply (lock_release_wp table_addr _ b 0); [by apply (sem_at_set _ 1) | done |].
  wp_step. wp_step. wp_step. simpl. rewrite sem_relock by done.
  set (e' := mk_pop (payload p) (-1) now src 0).
  assert (Hsp' : slot_page e' = Some p).
  { unfold slot_page. simpl. rewrite (proj2 (Z.eqb_neq _ _)) by (apply payload_nz; lia). by rewrite page_of_payload. }
  assert (C' : core mine pend vs v held (set_npool p' (set_popq (<[Z.to_nat i := e']> (pop_queue s)) s))).
  { apply Hput; [| by rewrite Hsp']. intros _. simpl. rewrite page_of_payload. split_and!; done. }
  apply (core_dev _ _ _ _ _ g) in C'.
  eapply wp_mono; [apply (signal_service_wp _ _ _ _ _ _ C' Hv) |]. intros [] s' [Cs' [x ->]]. wp_step.
  split; [done |]. split; [done |]. exists now, g. split; [done | done].
Qed.

Lemma push_wp mine pend vs v held (s : net) (cpu src p : Z) :
  core mine pend vs v (p :: held) s → packet_ok (n_mem s) (payload p) → v < 2 ^ 31 - 1 →
  wp (pop_push_frame table_addr cpu src PROTOCOL_POP (payload p))
    (λ r s', (r = 0 ∧ core mine pend vs v (p :: held) s' ∧ (∃ g, s' = set_dev g s) ∧ Forall (λ e, frame e ≠ 0) (pop_queue s)) ∨
             (r = 1 ∧ core mine pend vs (v + 1) held s' ∧ pushed s s' src p)) s.
Proof using Type*.
  intros C Hpk Hv. destruct (core_sem_at _ _ _ _ _ _ C) as (a & b & c & d & Ea & Eb & Ec & Ed & Ha & Hb & _).
  pose proof (c_queue _ _ _ _ _ _ _ C) as [Clen Cq]. unfold pop_push_frame. wp_step. wp_step; [done |]. wp_step. wp_step.
  wp_step. rewrite Eb. apply (lock_wp table_addr _ cpu b 1); [done | done |]. set (s1 := set_nsems _ s).
  wp_step. wp_step. wp_step. apply (scan_wp s1 _); [done |]. intros free oldest [Hf Ho]. simpl fst. simpl snd.
  assert (Hundo : ∀ g, set_nsems (sem_set b (0 + 1) (n_sems (set_dev g s1))) (set_dev g s1) = set_dev g s).
  { intros g. simpl. rewrite sem_relock by done. by destruct s. }
  assert (Hs1 : s1 = set_dev (n_dev s) s1) by (by destruct s).
  destruct Hf as [[-> Hall]|(Hr & e & He & He0)].
  - pose proof (all_full _ Clen Hall) as Hfull. cbn [Z.eqb Pos.eqb]. wp_step.
    destruct Ho as [->|(Ho & e & He & Hbusy)].
    { cbn [Z.eqb Pos.eqb]. wp_step. wp_step. apply (lock_release_wp table_addr _ b 0); [by apply (sem_at_set _ 1) | done |].
      wp_step. left. split; [done |]. rewrite Hs1, Hundo. split; [by apply core_dev |]. split; [by eexists | done]. }
    rewrite (proj2 (Z.eqb_neq oldest (-1))) by lia. wp_step. apply msec_wp. intros now g.
    wp_step. eapply get_pop_wp; [lia | exact He |]. wp_step. case_test.
    + wp_step. apply (lock_release_wp table_addr _ b 0); [by apply (sem_at_set _ 1) | done |].
      wp_step. left. split; [done |]. rewrite Hundo. split; [by apply core_dev |]. split; [by eexists | done].
    + eapply wp_mono; [apply (fill_slot_wp mine pend vs v held (set_dev g s) b oldest e p src); try done; [by apply core_dev | lia] |].
      intros r s' (-> & C' & now' & g' & _ & Es'). right. split; [done |]. split; [done |].
      exists (Z.to_nat oldest), e, now', g'. split; [done |]. split; [by right | exact Es'].
  - rewrite (proj2 (Z.eqb_neq free (-1))) by lia. wp_step. wp_step.
    eapply wp_mono; [apply (fill_slot_wp mine pend vs v held s b free e p src); try done; lia |].
    intros r s' (-> & C' & now' & g' & Hpool & Es'). right. split; [done |]. split; [done |].
    exists (Z.to_nat free), e, now', g'. split; [done |]. split; [left; split; [done | by apply Hpool] | exact Es'].
Qed.

(** ** Frames *)

Lemma handler_of id : protocols_get_frame_handler id = Ok (if id =? PROTOCOL_POP then Some handler_pop_push_frame else None).
Proof using Type. unfold protocols_get_frame_handler, network_protocols. cbn [find_handler]. rewrite Z.eqb_sym. by destruct (id =? PROTOCOL_POP). Qed.

Lemma receive_frame_wp mine pend vs v held (s : net) (cpu p : Z) :
  core mine pend vs v (p :: held) s → packet_ok (n_mem s) (payload p) → v < 2 ^ 31 - 1 →
  wp (network_receive_frame table_addr cpu (kaddr p))
    (λ r s', (r = 0 ∧ core mine pend vs v (p :: held) s' ∧ (∃ g, s' = set_dev g s) ∧
               (has (n_mem s) (kaddr p + 8) (bytes32 PROTOCOL_POP) → Forall (λ e, frame e ≠ 0) (pop_queue s))) ∨
             (r = 1 ∧ core mine pend vs (v + 1) held s' ∧ ∃ src, is_u32 src ∧ has (n_mem s) (kaddr p + 4) (bytes32 src) ∧ pushed s s' src p)) s.
Proof using Type*.
  intros C Hpk Hv. pose proof C as [_ _ _ _ _ _ (sb & _ & Hpg) [Cb Cr] _].
  destruct (pages_in _ _ _ p Hpg ltac:(set_solver)) as (Hpm & _ & _). specialize (Cr p Hpm).
  destruct (word_at _ (kaddr p + 8) Cb) as (id & Hid & Hhid); [eapply region_sub; [exact Cr | unfold PAGE_SIZE; lia..] |].
  destruct (word_at _ (kaddr p + 4) Cb) as (src & Hsrc & Hhsrc); [eapply region_sub; [exact Cr | unfold PAGE_SIZE; lia..] |].
  unfold network_receive_frame. wp_step. apply (load32_wp _ _ id); [done | done |]. wp_step. eapply wp_pure; [apply handler_of |].
  destruct (Z.eqb_spec id PROTOCOL_POP) as [->|Hne].
  - wp_step. apply (load32_wp _ _ src); [done | done |]. change (kaddr p + SIZEOF_FRAME_HEADER) with (payload p).
    eapply wp_mono; [by apply (push_wp mine pend vs v held s cpu src p) |].
    intros r s' [(-> & Cs & Hg & Hfull)|(-> & Cs & Hpd)]; [left; split; [done |]; split; [done |]; split; [done | done] | right]. split; [done |]. split; [done |]. by exists src.
  - wp_step. left. split; [done |]. split; [done |]. split; [exists (n_dev s); by destruct s |]. intros Hpop. exfalso. apply Hne.
    by eapply word_inj.
Qed.

(** *** The devices *)

Lemma get_interface_wp (s : net) i (R : interface_info → net → Prop) :
  0 ≤ i < Z.of_nat (length (network_interfaces s)) →
  (∀ x, network_interfaces s !! Z.to_nat i = Some x → R x s) → wp (get_interface i) R s.
Proof using Type.
  intros Hi HR. destruct (lookup_lt_is_Some_2 (network_interfaces s) (Z.to_nat i)) as [x Hx]; [lia |].
  unfold get_interface. wp_step. wp_step. eapply wp_pure; [apply aget_Ok; split; [lia | exact Hx] | by apply HR].
Qed.
Lemma send_interface_wp (s : net) i x d fr (R : Z → net → Prop) :
  0 ≤ i → network_interfaces s !! Z.to_nat i = Some x → gnd x ≠ 0 → (∀ r g, R r (set_dev g s)) →
  wp (network_send_interface i d fr) R s.
Proof using Type*.
  intros Hi Hx Hg HR. unfold network_send_interface. wp_step. apply get_interface_wp; [apply lookup_lt_Some in Hx; lia |].
  intros y Hy. rewrite Hx in Hy. injection Hy as <-. rewrite (proj2 (Z.eqb_neq _ _) Hg). unfold on_dma. wp_step.
  destruct (send_law (gnd x) (ADDR_KERNEL_TO_PHYS fr) d (n_dev s) (n_mem s)) as (r & g & E). unfold wp. rewrite E. apply (HR r g).
Qed.
Lemma send_all_wp (s : net) k i d fr ret (R : Z → net → Prop) :
  0 ≤ i → i + Z.of_nat k = Z.of_nat (length (network_interfaces s)) →
  (∀ r g, r = ret ∨ r = NET_ERROR → R r (set_dev g s)) → wp (send_all k i d fr ret) R s.
Proof using Type*.
  revert i ret s. induction k as [|k IH]; intros i ret s Hi Hk HR; cbn [send_all].
  { wp_step. replace s with (set_dev (n_dev s) s) by (by destruct s). apply HR. by left. }
  wp_step. apply get_interface_wp; [lia |]. intros x Hx. destruct (Z.eqb_spec (gnd x) 0) as [|Hg].
  { wp_step. replace s with (set_dev (n_dev s) s) by (by destruct s). apply HR. by left. }
  wp_step. apply (send_interface_wp s i x); [done | done | done |]. intros r g. apply IH; [lia | simpl; lia |].
  intros r' g' Hr'. apply (HR r' g'). destruct (r =? 0); [done | right; by destruct Hr'].
Qed.
Lemma find_interface_wp (s : net) a (R : Z → net → Prop) :
  length (network_interfaces s) = 4%nat →
  (∀ i, (i = -1 ∨ 0 ≤ i ∧ ∃ x, network_interfaces s !! Z.to_nat i = Some x ∧ address x = a) → R i s) → wp (network_get_interface a) R s.
Proof using Type.
  intros Hl HR. unfold network_get_interface. wp_step. apply (wp_for (λ _ s', s' = s)); [done | |].
  - intros j s' Hj ->. wp_step. apply get_interface_wp; [rewrite Hl; unfold CONFIG_MAX_GNDS in Hj; lia |]. intros x Hx. wp_step.
    case_test; [| done]. wp_step. apply HR. right. split; [lia |]. by exists x.
  - intros s' ->. wp_step. apply HR. by left.
Qed.

(** ** [network_send] *)

(** A frame with the data in a page that was free, put into the queue. *)
Definition sent (s s' : net) (src : Z) (data : bytes) : Prop :=
  ∃ p pool m, p ∈ free_pages (n_pool s) ∧ has m (payload p) data ∧
    (∀ x, ¬ kaddr p ≤ x < kaddr p + PAGE_SIZE → m !! x = n_mem s !! x) ∧ pushed (set_mem m (set_npool pool s)) s' src p.

(** Only the devices, and memory that is free, have changed. *)
Definition unsent (s s' : net) : Prop :=
  ∃ g pool m, s' = set_dev g (set_mem m (set_npool pool s)) ∧ free_pages pool = free_pages (n_pool s) ∧
    ∀ x, outside (free_pages (n_pool s)) x 1 → m !! x = n_mem s !! x.

Definition header (source destination protocol_id : Z) : bytes := bytes32 destination ++ bytes32 source ++ bytes32 protocol_id.

(** The frame as it is built in its page. *)
Lemma build_frame_wp mine pend vs v held (s : net) p source destination protocol_id buffer data (k : K net Z) (R : Z → net → Prop) :
  core mine pend vs v (p :: held) s → has (n_mem s) buffer data → outside {[p]} buffer (Z.of_nat (length data)) →
  Z.of_nat (length data) ≤ PAGE_SIZE - SIZEOF_FRAME_HEADER →
  (∀ m, core mine pend vs v (p :: held) (set_mem m s) → has m (kaddr p) (header source destination protocol_id) → has m (payload p) data →
    (∀ x, ¬ kaddr p ≤ x < kaddr p + PAGE_SIZE → m !! x = n_mem s !! x) → wp k R (set_mem m s)) →
  wp (mstore (kaddr p + 4) (bytes32 source);;
      mstore (kaddr p) (bytes32 destination);;
      mstore (kaddr p + 8) (bytes32 protocol_id);;
      kmemcopy (Z.of_nat (length data)) (kaddr p + SIZEOF_FRAME_HEADER) buffer;;
      k) R s.
Proof using Type*.
  intros C Hdata Hout Hlen HR. unfold PAGE_SIZE, SIZEOF_FRAME_HEADER in Hlen.
  assert (Hp : p ∈ p :: held ∨ pop_send_buffer s = kaddr p) by (left; apply list_elem_of_here).
  pose proof (has_bytes _ _ _ (proj1 (c_mem _ _ _ _ _ _ _ C)) Hdata) as Hdb.
  assert (Hb : ∀ m a w, kaddr p ≤ a → a + 4 ≤ kaddr p + PAGE_SIZE → has m buffer data → has (mput m a (bytes32 w)) buffer data).
  { intros m a w Ha1 Ha2 Hh i b Hi. pose proof (lookup_lt_Some _ _ _ Hi). rewrite lookup_mput, decide_False; [by apply Hh |].
    simpl length. intros Hx. apply (Hout (buffer + Z.of_nat i) p); [lia | set_solver | lia]. }
  destruct (core_write_page _ _ _ _ _ s p 4 (bytes32 source) C Hp ltac:(lia) ltac:(done) (bytes32_bytes _)) as [H1r C1].
  destruct (core_write_page _ _ _ _ _ _ p 0 (bytes32 destination) C1 Hp ltac:(lia) ltac:(done) (bytes32_bytes _)) as [H2r C2].
  destruct (core_write_page _ _ _ _ _ _ p 8 (bytes32 protocol_id) C2 Hp ltac:(lia) ltac:(done) (bytes32_bytes _)) as [H3r C3].
  destruct (core_write_page _ _ _ _ _ _ p 12 data C3 Hp ltac:(lia) ltac:(unfold PAGE_SIZE; lia) Hdb) as [H4r C4].
  rewrite Z.add_0_r in *. cbn [n_mem set_mem] in *.
  wp_step. apply mstore_wp; [done |]. wp_step. apply mstore_wp; [done |]. wp_step. apply mstore_wp; [done |].
  cbn [n_mem set_mem]. wp_step. eapply kmemcopy_wp; [done | | done |].
  { cbn [n_mem set_mem]. apply Hb; [lia | unfold PAGE_SIZE; lia |]. apply Hb; [lia | unfold PAGE_SIZE; lia |]. apply Hb; [lia | unfold PAGE_SIZE; lia | done]. }
  apply HR; [done | | apply has_mput_same |].
  - unfold header. rewrite !has_app. simpl length. simpl Z.of_nat. split_and!.
    + do 2 (apply has_mput_other; [simpl length; unfold SIZEOF_FRAME_HEADER; lia |]). apply has_mput_same.
    + do 3 (apply has_mput_other; [simpl length; unfold SIZEOF_FRAME_HEADER; lia |]). apply has_mput_same.
    + apply has_mput_other; [simpl length; unfold SIZEOF_FRAME_HEADER; lia |]. rewrite <- Z.add_assoc. apply has_mput_same.
  - intros x Hx. cbn [n_mem set_mem]. unfold SIZEOF_FRAME_HEADER, PAGE_SIZE in *. rewrite lookup_mput, decide_False by lia.
    do 3 (rewrite lookup_mput, decide_False by (simpl length; lia)). done.
Qed.

Lemma take_page_wp mine pend vs v held (s : net) :
  core mine pend vs v held s →
  wp (on_npool get_phys_page) (λ a s', (a = 0 ∧ free_pages (n_pool s) = ∅ ∧ s' = s) ∨
    ∃ p pool, a = p * PAGE_SIZE ∧ 0 < p < 2 ^ 19 ∧ p ∈ free_pages (n_pool s) ∧ s' = set_npool pool s ∧ core mine pend vs v (p :: held) s') s.
Proof using Type.
  intros [Csems Cpend Csocks Cports Cbufs Cq (b & Hb & Hpg) Cm Cifs]. unfold on_npool. wp_step.
  eapply wp_mono; [by apply pages_get_wp |]. intros a p' [(-> & He & ->)|(q & -> & Hq & Hqf & Hpg')].
  - left. split; [done |]. split; [done |]. by destruct s.
  - right. exists q, p'. split; [done |]. split; [done |]. split; [done |]. split; [done |]. constructor; try done. exists b. split; [done |].
    eapply pages_ok_perm; [| exact Hpg']. simpl. solve_Permutation.
Qed.
Lemma give_page_wp mine pend vs v held (s : net) p :
  core mine pend vs v (p :: held) s →
  wp (on_npool (free_phys_page (p * PAGE_SIZE))) (λ _ s', core mine pend vs v held s' ∧ ∃ pool, s' = set_npool pool s) s.
Proof using Type.
  intros [Csems Cpend Csocks Cports Cbufs Cq (b & Hb & Hpg) Cm Cifs]. unfold on_npool. wp_step.
  assert (Hpg' : pages_ok mine (n_pool s) (p :: b :: pages_of (pop_queue s) ++ held)).
  { eapply pages_ok_perm; [| exact Hpg]. solve_Permutation. }
  eapply wp_mono; [by apply pages_free_wp |]. intros [] p' [Hp' _]. split; [| by exists p'].
  constructor; try done. by exists b.
Qed.
Lemma core_same_free mine pend vs v held vs' v' (s s' : net) :
  core mine pend vs v held s → core mine pend vs' v' held s' → pages_of (pop_queue s') = pages_of (pop_queue s) → pop_send_buffer s' = pop_send_buffer s →
  free_pages (n_pool s') = free_pages (n_pool s).
Proof using Type.
  intros C C' Eq Eb. destruct (c_pages _ _ _ _ _ _ _ C) as (b & Hb & _ & _ & _ & He & Hd).
  destruct (c_pages _ _ _ _ _ _ _ C') as (b' & Hb' & _ & _ & _ & He' & Hd').
  assert (b' = b) as -> by (rewrite Eb, Hb in Hb'; unfold kaddr, PAGE_SIZE in Hb'; lia). rewrite Eq in *.
  remember (list_to_set (b :: pages_of (pop_queue s) ++ held)) as L. clear -He Hd He' Hd'. set_solver.
Qed.

(** A payload that begins with the header of a packet. *)
Definition data_ok (data : bytes) : Prop := ∃ w a rest, data = a ++ bytes32 w ++ rest ∧ length a = 4%nat ∧ 0 ≤ w ≤ MAX_PAYLOAD.

Lemma data_packet m f data : data_ok data → has m f data → packet_ok m f.
Proof using Type.
  intros (w & a & rest & -> & Ha & Hw) Hh. apply has_app in Hh as [_ Hh]. apply has_app in Hh as [Hh _]. rewrite Ha in Hh.
  by exists w.
Qed.

(** The frame is in its page: the part of [network_send] for the loopback. *)
Lemma loopback_wp mine pend vs v held (s : net) cpu p source protocol_id data :
  core mine pend vs v (p :: held) s → 0 < p < 2 ^ 19 → is_u32 source → is_u32 protocol_id → v < 2 ^ 31 - 1 → data_ok data →
  has (n_mem s) (kaddr p) (header source NETWORK_LOOPBACK_ADDRESS protocol_id) → has (n_mem s) (payload p) data →
  wp (src ← load32 (kaddr p + 4);
      (if src =? NETWORK_BROADCAST_ADDRESS then mstore (kaddr p + 4) (bytes32 NETWORK_LOOPBACK_ADDRESS) else mret tt);;
      r ← network_receive_frame table_addr cpu (kaddr p);
      if r =? 0 then on_npool (free_phys_page (p * PAGE_SIZE));; mret NET_ERROR else mret NET_OK)
    (λ r s',
      (r = NET_OK ∧ core mine pend vs (v + 1) held s' ∧ ∃ m, has m (payload p) data ∧
         (∀ x, ¬ kaddr p ≤ x < kaddr p + PAGE_SIZE → m !! x = n_mem s !! x) ∧
         pushed (set_mem m s) s' (if source =? NETWORK_BROADCAST_ADDRESS then NETWORK_LOOPBACK_ADDRESS else source) p) ∨
      (r = NET_ERROR ∧ core mine pend vs v held s' ∧ (protocol_id = PROTOCOL_POP → Forall (λ e, frame e ≠ 0) (pop_queue s)) ∧
         ∃ g m pool, s' = set_npool pool (set_dev g (set_mem m s)) ∧
           ∀ x, ¬ kaddr p ≤ x < kaddr p + PAGE_SIZE → m !! x = n_mem s !! x)) s.
Proof using Type*.
  intros C Hp Hsrc Hid Hv Hd Hh Hdata. unfold header in Hh. rewrite !has_app in Hh. destruct Hh as (_ & Hs & Hpr). simpl length in *. simpl Z.of_nat in *.
  rewrite <- Z.add_assoc in Hpr. simpl (4 + 4) in Hpr.
  assert (Hin : p ∈ p :: held ∨ pop_send_buffer s = kaddr p) by (left; apply list_elem_of_here).
  set (src' := if source =? NETWORK_BROADCAST_ADDRESS then NETWORK_LOOPBACK_ADDRESS else source).
  wp_step. apply (load32_wp _ _ source); [done | done |]. wp_step.
  eapply (wp_mono _ (λ _ s2, ∃ m, s2 = set_mem m s ∧ core mine pend vs v (p :: held) s2 ∧ has m (kaddr p + 4) (bytes32 src') ∧
    has m (kaddr p + 8) (bytes32 protocol_id) ∧ has m (payload p) data ∧ (∀ x, ¬ kaddr p ≤ x < kaddr p + PAGE_SIZE → m !! x = n_mem s !! x))).
  { unfold src'. destruct (source =? NETWORK_BROADCAST_ADDRESS).
    - destruct (core_write_page _ _ _ _ _ s p 4 (bytes32 NETWORK_LOOPBACK_ADDRESS) C Hin ltac:(lia) ltac:(done) (bytes32_bytes _)) as [Hr C1].
      apply mstore_wp; [done |]. eexists. split; [done |]. split; [done |]. split; [apply has_mput_same |].
      split; [apply has_mput_other; [simpl length; lia | done] |].
      split; [apply has_mput_other; [left; simpl length; unfold payload, SIZEOF_FRAME_HEADER; lia | done] |].
      intros x Hx. unfold PAGE_SIZE in Hx. rewrite lookup_mput, decide_False by (simpl length; lia). done.
    - wp_step. exists (n_mem s). split; [by destruct s |]. done. }
  intros [] s2 (m & -> & C2 & Hs2 & Hpr2 & Hd2 & Hm2). wp_step.
  eapply wp_mono; [apply (receive_frame_wp mine pend vs v held _ cpu p C2); [by eapply data_packet | done] |].
  intros r s3 [(-> & C3 & [g ->] & Hfull)|(-> & C3 & src & Hu & Hsrc3 & Hpush)].
  - cbn [Z.eqb]. wp_step. eapply wp_mono; [by apply give_page_wp |]. intros [] s4 [C4 [pool ->]]. wp_step. right. split; [done |]. split; [done |]. split.
    + intros ->. by apply Hfull.
    + by exists g, m, pool.
  - cbn [Z.eqb]. wp_step. left. split; [done |]. split; [done |]. exists m. split; [done |]. split; [done |].
    assert (src' = src) as ->; [| done]. eapply word_inj; [exact Hs2 | exact Hsrc3 | | done]. unfold src'. by case_match.
Qed.

Definition source_ok (source : Z) (l : list interface_info) : Prop :=
  source = NETWORK_BROADCAST_ADDRESS ∨ Forall (λ e, address e = source → gnd e ≠ 0) l.

(** The part for the devices. *)
Lemma devices_wp mine pend vs v held (s : net) p source destination :
  core mine pend vs v (p :: held) s → source_ok source (network_interfaces s) →
  wp (if negb (source =? NETWORK_BROADCAST_ADDRESS) then
        interface ← network_get_interface source;
        if interface <? 0 then on_npool (free_phys_page (p * PAGE_SIZE));; mret NET_DOESNT_EXIST
        else
          r ← network_send_interface interface destination (kaddr p);
          on_npool (free_phys_page (p * PAGE_SIZE));;
          mret (if r =? 0 then NET_OK else NET_ERROR)
      else
        send_ret ← send_all (Z.to_nat CONFIG_MAX_GNDS) 0 destination (kaddr p) NET_OK;
        on_npool (free_phys_page (p * PAGE_SIZE));;
        mret send_ret)
    (λ r s', (r = NET_OK ∨ r = NET_ERROR ∨ r = NET_DOESNT_EXIST) ∧ core mine pend vs v held s' ∧ ∃ g pool, s' = set_npool pool (set_dev g s)) s.
Proof using Type*.
  intros C Hsrc. pose proof (c_ifs _ _ _ _ _ _ _ C) as [Hl _].
  assert (Hgive : ∀ g (m : K net Z) r, (m = mret r) → (r = NET_OK ∨ r = NET_ERROR ∨ r = NET_DOESNT_EXIST) →
    wp (on_npool (free_phys_page (p * PAGE_SIZE));; m) (λ r s', (r = NET_OK ∨ r = NET_ERROR ∨ r = NET_DOESNT_EXIST) ∧
      core mine pend vs v held s' ∧ ∃ g pool, s' = set_npool pool (set_dev g s)) (set_dev g s)).
  { intros g m r -> Hr. wp_step. eapply wp_mono; [apply give_page_wp; by apply core_dev |]. intros [] s1 [C1 [pool ->]]. wp_step.
    split; [done |]. split; [done |]. by exists g, pool. }
  case_test.
  - destruct Hsrc as [->|Hsrc]; [done |]. wp_step. apply find_interface_wp; [done |]. intros i Hi. case_test.
    + replace s with (set_dev (n_dev s) s) at 2 by (by destruct s). by apply (Hgive _ _ NET_DOESNT_EXIST); [| tauto].
    + destruct Hi as [->|(Hi & x & Hx & Ha)]; [lia |]. wp_step. rewrite Forall_lookup in Hsrc.
      apply (send_interface_wp s i x); [done | done | by eapply Hsrc |]. intros r g. eapply Hgive; [done |]. destruct (r =? 0); tauto.
  - wp_step. apply send_all_wp; [done | by rewrite Hl |]. intros r g Hr. eapply Hgive; [done |]. tauto.
Qed.

Lemma network_send_wp mine pend vs v held (s : net) cpu source destination protocol_id buffer data :
  core mine pend vs v held s → v < 2 ^ 31 - 1 → is_u32 source → is_u32 protocol_id → source_ok source (network_interfaces s) →
  has (n_mem s) buffer data → outside (free_pages (n_pool s)) buffer (Z.of_nat (length data)) →
  0 < Z.of_nat (length data) ≤ PAGE_SIZE - SIZEOF_FRAME_HEADER → data_ok data →
  wp (network_send table_addr cpu source destination protocol_id (Z.of_nat (length data)) buffer)
    (λ r s',
      (destination = NETWORK_LOOPBACK_ADDRESS ∧ r = NET_OK ∧ core mine pend vs (v + 1) held s' ∧
         sent s s' (if source =? NETWORK_BROADCAST_ADDRESS then NETWORK_LOOPBACK_ADDRESS else source) data) ∨
      (core mine pend vs v held s' ∧ unsent s s' ∧ (r = NET_OK ∨ r = NET_ERROR ∨ r = NET_DOESNT_EXIST) ∧
         (destination = NETWORK_LOOPBACK_ADDRESS → r = NET_ERROR ∧
            (free_pages (n_pool s) = ∅ ∨ (protocol_id = PROTOCOL_POP → Forall (λ e, frame e ≠ 0) (pop_queue s)))))) s.
Proof using Type*.
  intros C Hv Hsrc Hid Hso Hdata Hout Hlen Hd. unfold network_send. wp_step.
  wp_step; [apply andb_true_iff; split; [apply Z.ltb_lt | apply Z.leb_le]; lia |]. wp_step.
  eapply wp_mono; [by apply take_page_wp |]. intros a s1 [(-> & He & ->)|(p & pool & -> & Hp & Hpf & -> & C1)].
  { cbn [Z.eqb]. wp_step. right. split; [done |]. split; [| split; [tauto |]; split; [done | by left]].
    exists (n_dev s), (n_pool s), (n_mem s). split; [by destruct s | done]. }
  rewrite (proj2 (Z.eqb_neq (p * PAGE_SIZE) 0)) by (unfold PAGE_SIZE; lia). rewrite phys_to_kernel by lia.
  assert (Houtp : outside {[p]} buffer (Z.of_nat (length data))) by (eapply outside_sub; [| | | exact Hout]; [set_solver | lia | lia]).
  assert (Hun : ∀ m s', (∀ x, ¬ kaddr p ≤ x < kaddr p + PAGE_SIZE → m !! x = n_mem s !! x) → core mine pend vs v held s' →
    (∃ g pool, s' = set_npool pool (set_dev g (set_mem m s))) → unsent s s').
  { intros m s' Hm C' (g & pool' & ->). exists g, pool', m. split; [done |].
    split; [by apply (core_same_free _ _ _ _ _ _ _ _ _ C C') |]. intros x Hx. apply Hm. intros Hk. apply (Hx x p); [lia | done | done]. }
  apply (build_frame_wp mine pend vs v held _ p source destination protocol_id buffer data); [done | done | done | lia |].
  intros m C2 Hh Hpd Hm. destruct (Z.eqb_spec destination NETWORK_LOOPBACK_ADDRESS) as [->|Hne].
  - eapply wp_mono; [by apply (loopback_wp mine pend vs v held _ cpu p source protocol_id data) |].
    intros r s' [(-> & C3 & m' & Hd' & Hm' & Hpush)|(-> & C3 & Hfull & g & m' & pool' & Es & Hm')].
    + left. split; [done |]. split; [done |]. split; [done |]. exists p, pool, m'. split; [done |]. split; [done |]. split; [| exact Hpush].
      intros x Hx. rewrite Hm' by done. by apply Hm.
    + right. split; [done |]. split; [| split; [tauto |]; intros _; split; [done | by right]].
      apply (Hun m'); [| done | by exists g, pool']. intros x Hx. rewrite Hm' by done. by apply Hm.
  - eapply wp_mono; [by apply (devices_wp mine pend vs v held _ p source destination) |].
    intros r s' (Hr & C3 & g & pool' & Es). right. split; [done |]. split; [| split; [done |]; done].
    apply (Hun m); [done | done | by exists g, pool'].
Qed.

(** ** [socket_sendto] *)

Lemma MIN_min a b : MIN a b = Z.min a b.
Proof using Type. unfold MIN. destruct (Z.ltb_spec b a); lia. Qed.

Lemma min_mtu_Ok l1 e l2 min :
  gnd e = 0 → Forall (λ n, gnd n ≠ 0 ∧ 21 ≤ mtu n ≤ PAGE_SIZE) l1 → 21 ≤ min → ∃ m, min_mtu (l1 ++ e :: l2) min = Ok m ∧ 21 ≤ m ≤ min.
Proof using Type.
  revert min. induction l1 as [|n l1 IH]; intros min He Hall Hmin; simpl; [exists min; rewrite He; split; [done | lia] |].
  apply Forall_cons in Hall as [[Hg Hm] Hall]. rewrite (proj2 (Z.eqb_neq _ _) Hg).
  destruct (IH (if mtu n <? min then mtu n else min) He Hall) as (m & -> & Hr); [by case_test; lia |].
  exists m. split; [done |]. destruct (Z.ltb_spec (mtu n) min); lia.
Qed.
(** The payload that the interfaces allow. *)
Definition packet_limit (l : list interface_info) : Z :=
  match min_mtu l (NETWORK_MAX_MTU + 1) with Ok m => m - SIZEOF_FRAME_HEADER - SIZEOF_POP_HEADER | _ => 0 end.

Lemma mtu_wp (s : net) (R : Z → net → Prop) :
  interfaces_ok (network_interfaces s) →
  (1 ≤ packet_limit (network_interfaces s) ≤ MAX_PAYLOAD + 1 → R (packet_limit (network_interfaces s) + SIZEOF_POP_HEADER) s) →
  wp (network_get_mtu NETWORK_BROADCAST_ADDRESS) R s.
Proof using Type.
  intros (Hl & l1 & e & l2 & E & He & Hall) HR. destruct (min_mtu_Ok l1 e l2 (NETWORK_MAX_MTU + 1) He Hall ltac:(unfold NETWORK_MAX_MTU; lia)) as (m & Em & Hm).
  unfold network_get_mtu. wp_step. wp_step. rewrite Z.eqb_refl. wp_step. rewrite E in *. eapply wp_pure; [exact Em |]. wp_step.
  unfold packet_limit, MAX_PAYLOAD, NETWORK_MAX_MTU, PAGE_SIZE, SIZEOF_FRAME_HEADER, SIZEOF_POP_HEADER in *. rewrite Em in HR.
  rewrite s32_small by (unfold is_s32; lia). replace (m - 12) with (m - 12 - 8 + 8) by lia. apply HR. lia.
Qed.

Lemma core_send_lock mine pend vs v held (s : net) vs' c :
  core mine pend vs v held s → pop_send_buffer_sem s = Some c → 0 ≤ vs → 0 ≤ vs' < 2 ^ 31 →
  core mine pend vs' v held (set_nsems (sem_set c vs' (n_sems s)) s).
Proof using Type.
  intros C Ec Hvs Hvs'. eapply core_set_sems; [exact C | apply C |]. intros L (a & b & c' & d & Ea & Eb & Ec' & Ed & ->) Hs.
  assert (c' = c) as -> by congruence. exists ([(a, 1); (b, 1); (c, vs'); (d, v)] ++ omap (sock_sem pend) (open_sockets s)).
  split; [by exists a, b, c, d |].
  assert (Hperm : ∀ w, [(a, 1); (b, 1); (c, w); (d, v)] ++ omap (sock_sem pend) (open_sockets s) ≡ₚ
    (c, w) :: [(a, 1); (b, 1); (d, v)] ++ omap (sock_sem pend) (open_sockets s)) by (intros; solve_Permutation).
  rewrite Hperm in Hs |- *. by eapply sems_are_set.
Qed.

(** A packet as it is in a frame. *)
Definition packet (from_port to_port : Z) (data : bytes) : bytes :=
  bytes16 from_port ++ bytes16 to_port ++ bytes32 (Z.of_nat (length data)) ++ data.

Lemma packet_data_ok sp dp data : Z.of_nat (length data) ≤ MAX_PAYLOAD → data_ok (packet sp dp data).
Proof using Type.
  intros Hl. exists (Z.of_nat (length data)), (bytes16 sp ++ bytes16 dp), data. split; [by rewrite <- app_assoc |]. split; [done | lia].
Qed.
Lemma bytes16_bytes w : is_bytes (bytes16 w).
Proof using Type. unfold bytes16. repeat constructor; apply Z.mod_pos_bound; done. Qed.

Lemma mstore_Ok (s : net) a l : region (n_mem s) a (Z.of_nat (length l)) → mstore a l s = Ok (tt, set_mem (mput (n_mem s) a l) s).
Proof using Type.
  intros Hr. destruct (proj1 (wp_iff _ _ _) (mstore_wp s a l (λ _ s', s' = set_mem (mput (n_mem s) a l) s) Hr eq_refl)) as ([] & s' & E & ->). done.
Qed.
Lemma kmemcopy_Ok (s : net) n t x l :
  region (n_mem s) t n → has (n_mem s) x l → n = Z.of_nat (length l) → kmemcopy n t x s = Ok (tt, set_mem (mput (n_mem s) t l) s).
Proof using Type.
  intros Hr Hh Hn. destruct (proj1 (wp_iff _ _ _) (kmemcopy_wp s n t x l (λ _ s', s' = set_mem (mput (n_mem s) t l) s) Hr Hh Hn eq_refl)) as ([] & s' & E & ->). done.
Qed.

(** The packet as it is built in the send buffer. *)
Lemma build_packet_Ok mine pend vs v held (s : net) b sp dp buf data :
  core mine pend vs v held s → pop_send_buffer s = kaddr b → has (n_mem s) buf data → outside mine buf (Z.of_nat (length data)) →
  Z.of_nat (length data) ≤ MAX_PAYLOAD + 1 →
  ∃ m, core mine pend vs v held (set_mem m s) ∧ has m (kaddr b) (packet sp dp data) ∧
    (∀ x, ¬ kaddr b ≤ x < kaddr b + PAGE_SIZE → m !! x = n_mem s !! x) ∧
    ∀ k : K net Z,
      (mstore (kaddr b) (bytes16 sp);;
       mstore (kaddr b + 2) (bytes16 dp);;
       mstore (kaddr b + 4) (bytes32 (Z.of_nat (length data)));;
       kmemcopy (Z.of_nat (length data)) (kaddr b + SIZEOF_POP_HEADER) buf;;
       k) s = k (set_mem m s).
Proof using Type*.
  intros C Eb Hdata Hout Hlen. unfold MAX_PAYLOAD, PAGE_SIZE, SIZEOF_FRAME_HEADER, SIZEOF_POP_HEADER in Hlen.
  assert (Hp : b ∈ held ∨ pop_send_buffer s = kaddr b) by (by right).
  pose proof (has_bytes _ _ _ (proj1 (c_mem _ _ _ _ _ _ _ C)) Hdata) as Hdb.
  assert (Hbm : b ∈ mine).
  { destruct (c_pages _ _ _ _ _ _ _ C) as (b' & Eb' & Hpg). assert (b' = b) as -> by (rewrite Eb in Eb'; unfold kaddr, PAGE_SIZE in Eb'; lia).
    eapply pages_in; [exact Hpg | set_solver]. }
  assert (Hb : ∀ m a l, kaddr b ≤ a → a + Z.of_nat (length l) ≤ kaddr b + PAGE_SIZE → has m buf data → has (mput m a l) buf data).
  { intros m a l Ha1 Ha2 Hh i x Hi. pose proof (lookup_lt_Some _ _ _ Hi). rewrite lookup_mput, decide_False; [by apply Hh |].
    intros Hx. apply (Hout (buf + Z.of_nat i) b); [lia | done | lia]. }
  destruct (core_write_page _ _ _ _ _ s b 0 (bytes16 sp) C Hp ltac:(lia) ltac:(done) (bytes16_bytes _)) as [H1r C1].
  destruct (core_write_page _ _ _ _ _ _ b 2 (bytes16 dp) C1 Hp ltac:(lia) ltac:(done) (bytes16_bytes _)) as [H2r C2].
  destruct (core_write_page _ _ _ _ _ _ b 4 (bytes32 (Z.of_nat (length data))) C2 Hp ltac:(lia) ltac:(done) (bytes32_bytes _)) as [H3r C3].
  destruct (core_write_page _ _ _ _ _ _ b 8 data C3 Hp ltac:(lia) ltac:(unfold PAGE_SIZE; lia) Hdb) as [H4r C4].
  rewrite Z.add_0_r in *. cbn [n_mem set_mem] in *.
  eexists. split; [exact C4 |]. cbn [n_mem set_mem]. split_and!.
  - unfold packet. rewrite !has_app. simpl length. simpl Z.of_nat. rewrite <- !Z.add_assoc. simpl (2 + 2). split_and!.
    + do 3 (apply has_mput_other; [left + right; simpl length; lia |]). apply has_mput_same.
    + do 2 (apply has_mput_other; [right; simpl length; lia |]). apply has_mput_same.
    + apply has_mput_other; [right; simpl length; lia |]. apply has_mput_same.
    + apply has_mput_same.
  - intros x Hx. unfold PAGE_SIZE in *. rewrite lookup_mput, decide_False by lia.
    do 3 (rewrite lookup_mput, decide_False by (simpl length; lia)). done.
  - intros k. unfold SIZEOF_POP_HEADER.
    do 3 (erewrite bind_Ok; [| by apply mstore_Ok]). erewrite bind_Ok; [| apply (kmemcopy_Ok _ _ _ _ data); [exact H4r | | done]]; [done |].
    cbn [n_mem set_mem]. do 3 (apply Hb; [lia | simpl length; unfold PAGE_SIZE; lia |]). done.
Qed.

(** A packet is in a slot of the queue, in a page that was free. *)
Definition queued (mine : gset Z) (s s' : net) (src : Z) (pkt : bytes) : Prop :=
  ∃ p i e now g m pool x, p ∈ free_pages (n_pool s) ∧ has m (payload p) pkt ∧ (∀ y, outside mine y 1 → m !! y = n_mem s !! y) ∧
    pop_queue s !! i = Some e ∧ (frame e = 0 ∨ busy e = 0 ∧ Forall (λ e, frame e ≠ 0) (pop_queue s)) ∧
    s' = set_nsems x (set_dev g (set_npool pool (set_mem m (set_popq (<[i := mk_pop (payload p) (-1) now src 0]> (pop_queue s)) s)))).
(** Nothing but devices, semaphores and the network's own memory has changed. *)
Definition quiet (mine : gset Z) (s s' : net) : Prop :=
  ∃ g pool m x, s' = set_nsems x (set_dev g (set_npool pool (set_mem m s))) ∧ ∀ y, outside mine y 1 → m !! y = n_mem s !! y.

Lemma free_in_mine mine pend vs v held (s : net) : core mine pend vs v held s → free_pages (n_pool s) ⊆ mine.
Proof using Type*. intros C. destruct (c_pages _ _ _ _ _ _ _ C) as (b & _ & _ & _ & _ & <- & _). set_solver. Qed.

Lemma outside_page (mine : gset Z) p y : p ∈ mine → outside mine y 1 → ¬ kaddr p ≤ y < kaddr p + PAGE_SIZE.
Proof using Type. intros Hp Ho. apply (Ho y p); [lia | done]. Qed.

(** The pages that [socket_sendto] writes to: its buffer, and a free one. *)
Definition send_pages (s : net) : gset Z := {[page_of (pop_send_buffer s)]} ∪ free_pages (n_pool s).

Lemma send_mine mine pend vs v held (s : net) : core mine pend vs v held s → send_pages s ⊆ mine.
Proof using Type*.
  intros C. pose proof (free_in_mine _ _ _ _ _ _ C). destruct (c_pages _ _ _ _ _ _ _ C) as (b & Eb & Hpg).
  destruct (pages_in _ _ _ b Hpg ltac:(apply list_elem_of_here)) as (Hb & _). unfold send_pages. rewrite Eb, page_of_kaddr. set_solver.
Qed.

Lemma unlock_send_wp mine pend w held (s : net) c r (R : Z → net → Prop) :
  core mine pend 0 w held s → pop_send_buffer_sem s = Some c →
  (∀ x, core mine pend 1 w held (set_nsems x s) → R r (set_nsems x s)) → wp (signal table_addr (Some c);; mret r) R s.
Proof using Type*.
  intros C Ec HR. destruct (core_sem_at _ _ _ _ _ _ C) as (_ & _ & c' & _ & _ & _ & Ec' & _ & _ & _ & Hc & _).
  assert (c' = c) as -> by congruence. wp_step. apply (lock_release_wp table_addr _ c 0); [done | done |]. wp_step. apply HR.
  by apply (core_send_lock _ _ 0).
Qed.

(** The part of [socket_sendto] with the lock of the send buffer. *)
Lemma send_packet_wp mine pend v held (s : net) cpu addr sp dp buf data c :
  core mine pend 1 v held s → v < 2 ^ 31 - 1 → pop_send_buffer_sem s = Some c →
  has (n_mem s) buf data → outside mine buf (Z.of_nat (length data)) → 1 ≤ Z.of_nat (length data) ≤ MAX_PAYLOAD →
  wp (lock table_addr cpu (Some c);;
      hdr ← gets pop_send_buffer;
      mstore hdr (bytes16 sp);;
      mstore (hdr + 2) (bytes16 dp);;
      mstore (hdr + 4) (bytes32 (Z.of_nat (length data)));;
      kmemcopy (Z.of_nat (length data)) (hdr + SIZEOF_POP_HEADER) buf;;
      r ← network_send table_addr cpu NETWORK_BROADCAST_ADDRESS addr PROTOCOL_POP (s32 (Z.of_nat (length data) + SIZEOF_POP_HEADER)) hdr;
      signal table_addr (Some c);;
      mret (if negb (r =? NET_OK) then -1 else Z.of_nat (length data)))
    (λ r s',
      (addr = NETWORK_LOOPBACK_ADDRESS ∧ r = Z.of_nat (length data) ∧ core mine pend 1 (v + 1) held s' ∧
         queued (send_pages s) s s' NETWORK_LOOPBACK_ADDRESS (packet sp dp data)) ∨
      (core mine pend 1 v held s' ∧ quiet (send_pages s) s s' ∧ (r = -1 ∨ r = Z.of_nat (length data)) ∧
         (addr = NETWORK_LOOPBACK_ADDRESS → r = -1 ∧ (free_pages (n_pool s) = ∅ ∨ Forall (λ e, frame e ≠ 0) (pop_queue s))))) s.
Proof using Type*.
  intros C Hv Ec Hdata Hout Hlen. destruct (core_sem_at _ _ _ _ _ _ C) as (_ & _ & c' & _ & _ & _ & Ec' & _ & _ & _ & Hc & _).
  assert (c' = c) as -> by congruence. wp_step. apply (lock_wp table_addr _ cpu c 1); [done | done |]. wp_step. wp_step.
  pose proof (core_send_lock _ _ _ _ _ _ 0 c C Ec ltac:(lia) ltac:(lia)) as C1.
  destruct (c_pages _ _ _ _ _ _ _ C) as (b & Eb & Hpg). destruct (pages_in _ _ _ b Hpg ltac:(apply list_elem_of_here)) as (Hbm & _ & Hbf).
  cbn [pop_send_buffer set_nsems Z.sub Z.opp Z.add Z.pos_sub]. change (1 - 1) with 0. rewrite Eb.
  destruct (build_packet_Ok mine pend 0 v held _ b sp dp buf data C1 Eb Hdata Hout ltac:(lia)) as (m & C2 & Hpk & Hm & Hbuild).
  unfold wp at 1. rewrite Hbuild. apply (wp_bind (network_send _ _ _ _ _ _ _)).
  assert (Hplen : Z.of_nat (length (packet sp dp data)) = Z.of_nat (length data) + SIZEOF_POP_HEADER).
  { unfold packet, SIZEOF_POP_HEADER. rewrite !length_app. simpl. lia. }
  unfold MAX_PAYLOAD, PAGE_SIZE, SIZEOF_FRAME_HEADER, SIZEOF_POP_HEADER in Hlen.
  rewrite s32_small by (unfold is_s32, SIZEOF_POP_HEADER; lia). rewrite <- Hplen.
  eapply wp_mono; [apply (network_send_wp mine pend 0 v held _ cpu NETWORK_BROADCAST_ADDRESS addr PROTOCOL_POP (kaddr b) (packet sp dp data) C2 Hv); try done;
    [by left | eapply outside_other; [exact Hbf | lia |] | |] |].
  { rewrite Hplen. unfold PAGE_SIZE, SIZEOF_POP_HEADER. lia. }
  { rewrite Hplen. unfold PAGE_SIZE, SIZEOF_POP_HEADER, SIZEOF_FRAME_HEADER. lia. }
  { apply packet_data_ok. unfold MAX_PAYLOAD, PAGE_SIZE, SIZEOF_FRAME_HEADER, SIZEOF_POP_HEADER. lia. }
  assert (Hbs : b ∈ send_pages s) by (unfold send_pages; rewrite Eb, page_of_kaddr; set_solver).
  assert (Hfs : free_pages (n_pool s) ⊆ send_pages s) by (unfold send_pages; set_solver).
  intros r s3 [(-> & -> & C3 & p & pool & m' & Hpf & Hpd & Hm' & i & e & now & g & Hi & Hfe & Es3)|(C3 & (g & pool & m' & Es3 & _ & Hm') & Hr & Hlb)].
  - eapply unlock_send_wp; [exact C3 | by rewrite Es3 |]. intros x C4. left. split; [done |]. split; [done |]. split; [done |].
    exists p, i, e, now, g, m', (n_pool s3), x. split; [done |]. split; [done |]. split.
    { intros y Hy. rewrite Hm' by (eapply outside_page; [apply Hfs, Hpf | exact Hy]). apply Hm. by eapply outside_page. }
    split; [done |]. split; [destruct Hfe as [[? _]|?]; [by left | by right] |]. by rewrite Es3.
  - eapply unlock_send_wp; [exact C3 | by rewrite Es3 |]. intros x C4. right. split; [done |]. split.
    { exists g, pool, m', x. split; [by rewrite Es3 |]. intros y Hy. rewrite Hm' by (eapply outside_sub; [exact Hfs | | | exact Hy]; lia).
      apply Hm. by eapply outside_page. }
    split; [destruct (negb (r =? NET_OK)); tauto |]. intros ->. destruct (Hlb eq_refl) as [-> Hwhy]. split; [done |].
    destruct Hwhy as [?|Hw]; [by left | right; by apply Hw].
Qed.

(** What the interfaces allow is more than fits into a frame: there are none. *)
Definition too_long (s : net) (size : Z) : Prop := MAX_PAYLOAD < Z.min size (packet_limit (network_interfaces s)).

#[export] Instance too_long_dec s size : Decision (too_long s size).
Proof using Type. unfold too_long. apply _. Defined.

Lemma sendto_wp mine pend v held (s : net) cpu socket addr dport buf size data x :
  core mine pend 1 v held s → v < 2 ^ 31 - 1 → 0 ≤ socket < CONFIG_MAX_OPEN_SOCKETS → open_sockets s !! Z.to_nat socket = Some x →
  1 ≤ size < 2 ^ 31 → ¬ (dport ≠ 0 ∧ protocol x = PROTOCOL_POP ∧ too_long s size) → buf ≠ 0 → has (n_mem s) buf data → Z.of_nat (length data) = size → outside mine buf size →
  wp (socket_sendto table_addr cpu socket addr dport buf size)
    (λ r s',
      (r = -1 ∧ s' = s ∧ (dport = 0 ∨ protocol x ≠ PROTOCOL_POP)) ∨
      let n := Z.min size (packet_limit (network_interfaces s)) in
      (dport ≠ 0 ∧ protocol x = PROTOCOL_POP ∧ addr = NETWORK_LOOPBACK_ADDRESS ∧ r = n ∧ core mine pend 1 (v + 1) held s' ∧
         queued (send_pages s) s s' NETWORK_LOOPBACK_ADDRESS (packet (port x) dport (take (Z.to_nat n) data))) ∨
      (dport ≠ 0 ∧ protocol x = PROTOCOL_POP ∧ core mine pend 1 v held s' ∧ quiet (send_pages s) s s' ∧ (r = -1 ∨ r = n) ∧
         (addr = NETWORK_LOOPBACK_ADDRESS → r = -1 ∧ (free_pages (n_pool s) = ∅ ∨ Forall (λ e, frame e ≠ 0) (pop_queue s))))) s.
Proof using Type*.
  intros C Hv Hs Hx Hsize Hmax Hbuf Hdata Hdl Hout. unfold socket_sendto.
  wp_step. wp_step; [apply andb_true_iff; split; [apply Z.leb_le | apply Z.ltb_lt]; lia |].
  destruct (Z.eqb_spec dport 0) as [->|Hdp]; [wp_step; left; split; [done |]; split; [done | by left] |].
  wp_step. wp_step; [apply andb_true_iff; split; [apply Z.leb_le; lia | by apply negb_true_iff, Z.eqb_neq] |].
  wp_step. apply mtu_wp; [apply C |]. intros Hlim. set (n := Z.min size (packet_limit (network_interfaces s))).
  assert (En : s32 (MIN (MIN (u32 size) (u32 (packet_limit (network_interfaces s) + SIZEOF_POP_HEADER - SIZEOF_POP_HEADER))) (PAGE_SIZE - SIZEOF_POP_HEADER)) = n).
  { unfold MAX_PAYLOAD, PAGE_SIZE, SIZEOF_FRAME_HEADER, SIZEOF_POP_HEADER in *. rewrite !u32_small by (unfold is_u32; lia).
    rewrite !MIN_min, s32_small by (unfold is_s32; lia). unfold n. lia. }
  cbv zeta. rewrite En. destruct (core_sem_at _ _ _ _ _ _ C) as (a & b & c & d & Ea & Eb & Ec & Ed & Ha & _).
  wp_step. wp_step. rewrite Ea. wp_step. apply (lock_wp table_addr _ cpu a 1); [done | done |]. wp_step.
  eapply get_socket_wp; [lia | exact Hx |].
  assert (Hundo : set_nsems (sem_set a (0 + 1) (sem_set a 0 (n_sems s))) s = s) by (rewrite sem_relock by done; apply set_nsems_id).
  case_test.
  { wp_step. apply (lock_release_wp table_addr _ a 0); [by apply (sem_at_set _ 1) | done |]. wp_step. left. split; [done |]. split; [exact Hundo | by right]. }
  wp_step. apply (lock_release_wp table_addr _ a 0); [by apply (sem_at_set _ 1) | done |]. wp_step. wp_step.
  change (set_nsems (sem_set a (0 + 1) (n_sems (set_nsems (sem_set a (1 - 1) (n_sems s)) s))) (set_nsems (sem_set a (1 - 1) (n_sems s)) s))
    with (set_nsems (sem_set a (0 + 1) (sem_set a 0 (n_sems s))) s). rewrite Hundo, Ec.
  assert (Hn : 1 ≤ n ≤ MAX_PAYLOAD ∧ n ≤ size).
  { assert (¬ too_long s size) by tauto. unfold too_long in *. unfold n. lia. }
  assert (Htl : Z.of_nat (length (take (Z.to_nat n) data)) = n) by (rewrite length_take; lia).
  assert (Hd' : has (n_mem s) buf (take (Z.to_nat n) data)).
  { rewrite <- (take_drop (Z.to_nat n) data) in Hdata. by apply has_app in Hdata as [? _]. }
  assert (Ho' : outside mine buf n) by (eapply outside_sub; [| | | exact Hout]; [done | lia | lia]).
  clear En. clearbody n. remember (take (Z.to_nat n) data) as data' eqn:Ed'. clear Ed'. subst n.
  eapply wp_mono; [apply (send_packet_wp mine pend v held s cpu addr (port x) dport buf data' c C Hv Ec Hd' Ho'); lia |].
  intros r s' [(-> & -> & C' & Hq)|(C' & Hq & Hr & Hlb)]; right; [left | right]; split_and!; done.
Qed.

(** When it is too long the assertion of [network_send] fails. *)
Lemma sendto_panics mine pend v held (s : net) cpu socket addr dport buf size data x :
  core mine pend 1 v held s → 0 ≤ socket < CONFIG_MAX_OPEN_SOCKETS → open_sockets s !! Z.to_nat socket = Some x →
  1 ≤ size < 2 ^ 31 → too_long s size → buf ≠ 0 → has (n_mem s) buf data → Z.of_nat (length data) = size → outside mine buf size →
  dport ≠ 0 → protocol x = PROTOCOL_POP → ∃ msg, socket_sendto table_addr cpu socket addr dport buf size s = Panic msg.
Proof using Type*.
  intros C Hs Hx Hsize Hlong Hbuf Hdata Hdl Hout Hdp Hpr. unfold socket_sendto.
  rewrite bind_kassert by (apply andb_true_iff; split; [apply Z.leb_le | apply Z.ltb_lt]; lia). rewrite (proj2 (Z.eqb_neq _ _) Hdp).
  rewrite bind_kassert by (apply andb_true_iff; split; [apply Z.leb_le; lia | by apply negb_true_iff, Z.eqb_neq]).
  eapply bind_wp_Panic; [apply (mtu_wp s (λ r s', s' = s ∧ r = packet_limit (network_interfaces s) + SIZEOF_POP_HEADER ∧
    packet_limit (network_interfaces s) ≤ MAX_PAYLOAD + 1)); [apply C | by intros []] |].
  intros r s1 (-> & -> & Hlim). unfold too_long in Hlong.
  assert (En : s32 (MIN (MIN (u32 size) (u32 (packet_limit (network_interfaces s) + SIZEOF_POP_HEADER - SIZEOF_POP_HEADER))) (PAGE_SIZE - SIZEOF_POP_HEADER)) =
    MAX_PAYLOAD + 1).
  { unfold MAX_PAYLOAD, PAGE_SIZE, SIZEOF_FRAME_HEADER, SIZEOF_POP_HEADER in *. rewrite !u32_small by (unfold is_u32; lia).
    rewrite !MIN_min, s32_small by (unfold is_s32; lia). lia. }
  cbv zeta. rewrite En. clear En. destruct (core_sem_at _ _ _ _ _ _ C) as (a & b & c & d & Ea & Eb & Ec & Ed & Ha & _ & Hc & _).
  rewrite bind_gets, Ea. eapply bind_wp_Panic; [apply (lock_wp table_addr _ cpu a 1 (λ _ s1, s1 = set_nsems (sem_set a 0 (n_sems s)) s)); done |].
  intros [] s1 ->. eapply bind_wp_Panic; [apply (get_socket_wp _ _ x (λ y s1, y = x ∧ s1 = set_nsems (sem_set a 0 (n_sems s)) s)); [lia | done | done] |].
  intros y s1 [-> ->]. rewrite Hpr. rewrite Z.eqb_refl. cbn [negb].
  eapply bind_wp_Panic; [apply (lock_release_wp table_addr _ a 0 (λ _ s1, s1 = s)); [by apply (sem_at_set _ 1) | done |] |].
  { change (set_nsems (sem_set a (0 + 1) (sem_set a 0 (n_sems s))) s = s). rewrite sem_relock by done. apply set_nsems_id. }
  intros [] s1 ->. rewrite bind_gets, Ec.
  eapply bind_wp_Panic; [apply (lock_wp table_addr _ cpu c 1 (λ _ s1, s1 = set_nsems (sem_set c 0 (n_sems s)) s)); done |]. intros [] s1 ->.
  pose proof (core_send_lock _ _ _ _ _ _ 0 c C Ec ltac:(lia) ltac:(lia)) as C1.
  destruct (c_pages _ _ _ _ _ _ _ C) as (pb & Epb & _). rewrite bind_gets. cbn [pop_send_buffer set_nsems]. rewrite Epb.
  set (data' := take (Z.to_nat (MAX_PAYLOAD + 1)) data).
  assert (Hdl' : Z.of_nat (length data') = MAX_PAYLOAD + 1).
  { unfold data'. rewrite length_take. unfold MAX_PAYLOAD, PAGE_SIZE, SIZEOF_FRAME_HEADER, SIZEOF_POP_HEADER in *. lia. }
  rewrite <- Hdl'.
  destruct (build_packet_Ok mine pend 0 v held _ pb (port x) dport buf data' C1 Epb) as (m & _ & _ & _ & Hbuild).
  { unfold data'. simpl n_mem. rewrite <- (take_drop (Z.to_nat (MAX_PAYLOAD + 1)) data) in Hdata. by apply has_app in Hdata as [? _]. }
  { rewrite Hdl'. eapply outside_sub; [| | | exact Hout]; [done | lia | lia]. }
  { lia. }
  rewrite Hbuild, Hdl'. exists "Assertion failed"%string. done.
Qed.

(** ** The table of sockets *)

(** The semaphores of the network besides those of the sockets. *)
Definition fixed_sems (s : net) (vs v : Z) (F : list (Z * Z)) : Prop :=
  ∃ a b c d, open_sockets_sem s = Some a ∧ pop_queue_sem s = Some b ∧ pop_send_buffer_sem s = Some c ∧
    pop_service_thread_sem s = Some d ∧ F = [(a, 1); (b, 1); (c, vs); (d, v)].

(** A socket with its semaphore and port, and the others. *)
Lemma core_socket mine pend vs v held (s : net) i x :
  core mine pend vs v held s → open_sockets s !! i = Some x →
  let S := omap (sock_sem pend) (others i (open_sockets s)) in
  let U := omap used_port (others i (open_sockets s)) in
  (∃ F, fixed_sems s vs v F ∧ sems_are table_addr (n_sems s) (option_list (sock_sem pend x) ++ F ++ S)) ∧
  NoDup (option_list (used_port x) ++ U) ∧
  ∀ x' σ pend' vs' v' F', sock_ok x' → (rbuf x' ≠ 0 → buffer_ok mine (n_mem s) x') → NoDup (option_list (used_port x') ++ U) →
    (∀ k, 0 ≤ pend' k) → omap (sock_sem pend') (others i (open_sockets s)) = S → fixed_sems s vs' v' F' →
    sems_are table_addr σ (option_list (sock_sem pend' x') ++ F' ++ S) →
    core mine pend' vs' v' held (set_nsems σ (set_sockets (<[i := x']> (open_sockets s)) s)).
Proof using Type.
  intros [(L & (a & b & c & d & Ea & Eb & Ec & Ed & ->) & Hs) Cpend [Clen Csocks] Cports Cbufs Cq Cpages Cm Cifs] Hi S U.
  assert (Hperm : ∀ (o : option (Z * Z)) F, F ++ option_list o ++ S ≡ₚ option_list o ++ F ++ S) by (intros; solve_Permutation).
  split; [| split].
  - eexists. split; [by exists a, b, c, d |]. rewrite <- Hperm. by rewrite <- (list_insert_id _ _ _ Hi), (omap_others _ _ _ _ x Hi) in Hs.
  - unfold used_ports in Cports. by rewrite <- (list_insert_id _ _ _ Hi), (omap_others _ _ _ _ x Hi) in Cports.
  - intros x' σ pend' vs' v' F' Hok Hbuf Hnd Hp HS (a' & b' & c' & d' & Ea' & Eb' & Ec' & Ed' & ->) Hs'. constructor; try done; simpl.
    + eexists. split; [by exists a', b', c', d' |]. simpl. rewrite (omap_others _ _ _ _ x' Hi), HS.
      change (?u :: ?w :: ?y :: ?z :: ?l) with ([u; w; y; z] ++ l). by rewrite Hperm.
    + rewrite length_insert. split; [done | by apply Forall_insert].
    + unfold used_ports. by rewrite (omap_others _ _ _ _ x' Hi).
    + by apply Forall_insert.
Qed.

End run.
