(* ===== verification/NetSock.v ===== *)
(** * Opening and closing sockets

    The table of sockets: a port is given out once, and every open socket has
    a semaphore of its own. *)

From stdpp Require Import gmap.
From S2P Require Import Prelude Kmalloc Pagepool Sched SchedSpec Semaphore Libc TfsDir Devices Vm Net NetSpec NetRun.
Local Open Scope Z_scope.

Lemma elem_of_used p l : p ∈ used_ports l ↔ ∃ i x, l !! i = Some x ∧ protocol x ≠ 0 ∧ port x = p.
Proof.
  unfold used_ports. rewrite list_elem_of_omap. unfold used_port. split.
  - intros (x & [i Hi]%list_elem_of_lookup & Hx). destruct (Z.eqb_spec (protocol x) 0); simplify_eq. by exists i, x.
  - intros (i & x & Hi & Hp & <-). exists x. split; [by eapply list_elem_of_lookup_2 |]. by rewrite (proj2 (Z.eqb_neq _ _) Hp).
Qed.

(** Two open sockets with the same port are one. *)
Lemma port_unique l i j x y :
  NoDup (used_ports l) → l !! i = Some x → l !! j = Some y → protocol x ≠ 0 → protocol y ≠ 0 → port x = port y → i = j.
Proof.
  intros Hnd Hi Hj Hx Hy Hp. destruct (decide (i = j)) as [|Hne]; [done |]. exfalso.
  unfold used_ports in Hnd. rewrite <- (list_insert_id _ _ _ Hi), (omap_others _ _ _ _ x Hi) in Hnd.
  unfold used_port at 1 in Hnd. rewrite (proj2 (Z.eqb_neq _ _) Hx) in Hnd. simpl in Hnd. apply NoDup_cons in Hnd as [Hn _]. apply Hn.
  apply list_elem_of_omap. exists y. split; [| unfold used_port; rewrite (proj2 (Z.eqb_neq _ _) Hy), Hp; done].
  unfold others. apply elem_of_app. destruct (decide (j < i)%nat).
  - left. eapply list_elem_of_lookup_2. by rewrite lookup_take_lt.
  - right. apply list_elem_of_lookup_2 with (j - S i)%nat. rewrite lookup_drop. by replace (S i + (j - S i))%nat with j by lia.
Qed.

Section sockets.
Context {G : Type} `{NetLaws G} {P : Type} `{PageAlloc P} {Q : Type} `{SleepQueue Q}.
Context (table_addr : Z) (table_addr_pos : 0 < table_addr).
Abbreviation net := (@net G P Q).
Abbreviation core := (@core G P _ Q _ table_addr).

Lemma port_taken_wp (s : net) p (R : bool → net → Prop) :
  length (open_sockets s) = 64%nat → R (bool_decide (p ∈ used_ports (open_sockets s))) s → wp (port_taken p) R s.
Proof using Type.
  intros Hl HR. unfold port_taken. wp_step.
  apply (wp_for (λ j s', s' = s ∧ ∀ i x, (i < Z.to_nat j)%nat → open_sockets s !! i = Some x → ¬ (protocol x ≠ 0 ∧ port x = p))).
  - split; [done |]. simpl. lia.
  - unfold CONFIG_MAX_OPEN_SOCKETS. intros j s' Hj [-> Hno].
    destruct (lookup_lt_is_Some_2 (open_sockets s) (Z.to_nat j)) as [x Hx]; [lia |]. wp_step. eapply get_socket_wp; [lia | exact Hx |]. wp_step.
    destruct (negb (protocol x =? 0) && (port x =? p)) eqn:Htest; bool_prop.
    + wp_step. rewrite bool_decide_true in HR; [done |]. apply elem_of_used. by exists (Z.to_nat j), x.
    + split; [done |]. intros i y Hi Hy. destruct (decide (i = Z.to_nat j)) as [->|]; [| apply (Hno i y); [lia | done]].
      rewrite Hx in Hy. injection Hy as <-. intros [Hp0 Hp]. apply andb_false_iff in Htest as [Ht|Ht]; bool_prop; done.
  - intros s' [-> Hno]. wp_step. rewrite bool_decide_false in HR; [done |]. intros (i & x & Hi & Hx & Hp)%elem_of_used.
    apply (Hno i x); [| done | done]. apply lookup_lt_Some in Hi. unfold CONFIG_MAX_OPEN_SOCKETS. lia.
Qed.

Lemma used_ports_length l : (length (used_ports l) ≤ length l)%nat.
Proof using Type. induction l as [|x l IH]; simpl; [done |]. destruct (used_port x); simpl in *; lia. Qed.

(** Some port up to 65 is free. *)
Lemma free_port_wp (s : net) fuel p (R : Z → net → Prop) :
  length (open_sockets s) = 64%nat → 0 ≤ p → p + Z.of_nat fuel = 65 → (∀ q, 1 ≤ q ≤ p → q ∈ used_ports (open_sockets s)) →
  (∀ q, p < q ≤ 65 → q ∉ used_ports (open_sockets s) → (∀ r, 1 ≤ r < q → r ∈ used_ports (open_sockets s)) → R q s) →
  wp (free_port fuel p) R s.
Proof using Type.
  intros Hl. revert p. induction fuel as [|fuel IH]; intros p Hp Hf Hused HR.
  { exfalso. assert (Hsub : seqZ 1 65 ⊆+ used_ports (open_sockets s)).
    { apply NoDup_submseteq; [apply NoDup_seqZ |]. intros q [? ?]%elem_of_seqZ. apply Hused. lia. }
    apply submseteq_length in Hsub. rewrite length_seqZ in Hsub. pose proof (used_ports_length (open_sockets s)). lia. }
  cbn [free_port]. unfold u16. rewrite Z.mod_small by lia. wp_step. apply port_taken_wp; [done |]. case_bool_decide as Hd.
  - apply IH; [lia | lia | |].
    + intros q Hq. destruct (decide (q = p + 1)) as [->|]; [done | apply Hused; lia].
    + intros q Hq. apply HR. lia.
  - wp_step. apply HR; [lia | done |]. intros r Hr. apply Hused. lia.
Qed.

Lemma free_socket_wp (s : net) (R : option Z → net → Prop) :
  length (open_sockets s) = 64%nat →
  (Forall (λ x, protocol x ≠ 0) (open_sockets s) → R None s) →
  (∀ i x, 0 ≤ i < 64 → open_sockets s !! Z.to_nat i = Some x → protocol x = 0 → R (Some i) s) →
  wp (for_ (Z.to_nat CONFIG_MAX_OPEN_SOCKETS) 0 (λ i, x ← get_socket i; mret (if protocol x =? 0 then Some i else None))) R s.
Proof using Type.
  intros Hl HN HS. apply (wp_for (λ j s', s' = s ∧ ∀ i x, (i < Z.to_nat j)%nat → open_sockets s !! i = Some x → protocol x ≠ 0)).
  - split; [done |]. simpl. lia.
  - unfold CONFIG_MAX_OPEN_SOCKETS. intros j s' Hj [-> Hno].
    destruct (lookup_lt_is_Some_2 (open_sockets s) (Z.to_nat j)) as [x Hx]; [lia |]. wp_step. eapply get_socket_wp; [lia | exact Hx |]. wp_step.
    destruct (Z.eqb_spec (protocol x) 0); [eapply HS; [lia | done | done] |]. split; [done |]. intros i y Hi Hy.
    destruct (decide (i = Z.to_nat j)) as [->|]; [congruence | apply (Hno i y); [lia | done]].
  - intros s' [-> Hno]. apply HN. apply Forall_lookup. intros i x Hx. apply (Hno i x); [| done].
    apply lookup_lt_Some in Hx. unfold CONFIG_MAX_OPEN_SOCKETS. lia.
Qed.

(** Giving the lock of the table back, with the semaphores as a bag. *)
Lemma unlock_table_wp (s : net) a L (R : unit → net → Prop) :
  sems_are table_addr (n_sems s) ((a, 0) :: L) →
  (∀ σ, sems_are table_addr σ ((a, 1) :: L) → R tt (set_nsems σ s)) → wp (signal table_addr (Some a)) R s.
Proof using Type*.
  intros Hs HR. apply (lock_release_wp table_addr _ a 0); [eapply sems_are_at; [apply list_elem_of_here | exact Hs] | done |].
  apply HR. by eapply sems_are_set.
Qed.

(** The port of a socket that is opened: the one asked for, or the first free
    one. *)
Definition port_chosen (l : list socket_descriptor) (p q : Z) : Prop :=
  (q ∉ used_ports l) ∧ (if decide (p = 0) then 1 ≤ q ≤ 65 ∧ ∀ r, 1 ≤ r < q → r ∈ used_ports l else q = p).

(** Why a call of [socket_open] fails. *)
Definition open_refused (s : net) (proto p : Z) : Prop :=
  (proto ≠ PROTOCOL_POP ∧ proto ≠ PROTOCOL_SOP) ∨ Forall (λ x, protocol x ≠ 0) (open_sockets s) ∨
  (p ≠ 0 ∧ p ∈ used_ports (open_sockets s)) ∨
  ∀ i y, 0 ≤ i → semaphore_table (n_sems s) !! Z.to_nat i = Some y → creator y ≠ -1.

Lemma choose_port_wp (s : net) p (R : option Z → net → Prop) :
  length (open_sockets s) = 64%nat → 0 ≤ p < 2 ^ 16 →
  (∀ q, 0 < q < 2 ^ 16 → port_chosen (open_sockets s) p q → R (Some q) s) →
  (p ≠ 0 → p ∈ used_ports (open_sockets s) → R None s) →
  wp (if p =? 0 then
        q ← free_port (Z.to_nat (CONFIG_MAX_OPEN_SOCKETS + 1)) 0;
        kassert (negb (q =? 0));;
        mret (Some q)
      else
        taken ← port_taken p;
        mret (if taken : bool then None else Some p)) R s.
Proof using Type*.
  intros Hl Hp HS HN. destruct (Z.eqb_spec p 0) as [->|Hne].
  - wp_step. apply free_port_wp; [done | done | done | lia |]. intros q Hq Hfree Hbelow.
    wp_step. wp_step; [apply negb_true_iff, Z.eqb_neq; lia |]. wp_step. apply HS; [lia |]. split; [done |].
    rewrite decide_True by done. split; [lia | done].
  - wp_step. apply port_taken_wp; [done |]. wp_step. case_bool_decide; [by apply HN |]. apply HS; [lia |]. split; [done |].
    by rewrite decide_False.
Qed.

(** A new socket. *)
Definition opened (q proto k : Z) (x : socket_descriptor) : socket_descriptor := mk_sock q proto (Some k) 0 0 0 0 (sport x).

(** The part of [socket_open] that fills the slot. *)
Lemma install_wp mine pend vs v held (s : net) cpu proto q a i x :
  core mine pend vs v held s → 0 ≤ cpu < CONFIG_MAX_CPUS → open_sockets_sem s = Some a → 0 ≤ i → open_sockets s !! Z.to_nat i = Some x →
  protocol x = 0 → (proto = PROTOCOL_POP ∨ proto = PROTOCOL_SOP) → 0 < q < 2 ^ 16 → q ∉ used_ports (open_sockets s) →
  wp (k ← on_nsems (semaphore_create cpu 0);
      x ← get_socket i;
      put_socket i (mk_sock (port x) (protocol x) k (rbuf x) (bufsize x) (sender x) (copied x) (sport x));;
      match k with
      | None => signal table_addr (Some a);; mret (-1)
      | Some _ =>
          x ← get_socket i;
          put_socket i (mk_sock q proto (receive_complete x) 0 0 0 0 (sport x));;
          signal table_addr (Some a);;
          mret i
      end)
    (λ r s',
      (r = -1 ∧ core mine pend vs v held s' ∧ (∃ σ, s' = set_nsems σ s) ∧
         ∀ j y, 0 ≤ j → semaphore_table (n_sems s) !! Z.to_nat j = Some y → creator y ≠ -1) ∨
      (r = i ∧ ∃ k σ, s' = set_nsems σ (set_sockets (<[Z.to_nat i := opened q proto k x]> (open_sockets s)) s) ∧
         core mine (set_pend k 0 pend) vs v held s')) (set_nsems (sem_set a 0 (n_sems s)) s).
Proof using Type*.
  intros C Hcpu Ea Hi Hx Hx0 Hpr Hq Hfree. pose proof (c_socks _ _ _ _ _ _ _ C) as [Hl Hsock]. pose proof (lookup_lt_Some _ _ _ Hx) as Hlt.
  destruct (core_socket table_addr _ _ _ _ _ _ _ _ C Hx) as ((F & HF & Hs) & Hnd & Hput).
  pose proof (proj1 (Forall_lookup _ _) Hsock _ _ Hx) as [(_ & Hrc & Hrb)|([Hbad|[Hbad _]] & _)]; [| by rewrite Hx0 in Hbad..].
  pose proof HF as (a' & b & c & d & Ea' & Eb & Ec & Ed & ->). assert (a' = a) as -> by congruence.
  unfold sock_sem at 1 in Hs. rewrite Hrc in Hs. simpl in Hs. eapply (sems_are_set table_addr a 1 0) in Hs; [| lia | lia].
  wp_step. unfold on_nsems. wp_step. eapply wp_mono; [by apply (create_event_wp table_addr cpu 0 _ _ Hs) |].
  intros k σ Hk. cbv beta. wp_step. eapply get_socket_wp; [lia | exact Hx |]. wp_step. apply put_socket_wp; [simpl; lia |].
  destruct k as [k|].
  - wp_step. eapply get_socket_wp; [lia | simpl; apply list_lookup_insert_eq; lia |]. wp_step. apply put_socket_wp; [simpl; rewrite length_insert; lia |].
    cbn [receive_complete sport]. wp_step. simpl open_sockets. rewrite list_insert_insert_eq.
    eapply unlock_table_wp; [simpl; rewrite Permutation_swap in Hk; exact Hk |]. intros σ' Hσ'. wp_step. right. split; [done |].
    exists k, σ'. split; [done |]. pose proof Hσ' as (_ & Hkey & _). rewrite Permutation_swap in Hkey. simpl in Hkey. apply NoDup_cons in Hkey as [Hkey _].
    apply (Hput (opened q proto k x) σ' (set_pend k 0 pend) vs v [(a, 1); (b, 1); (c, vs); (d, v)]); [| done | | | | done |].
    + right. split; [by destruct Hpr as [->| ->]; [left | right] |]. split; [done | by eexists].
    + unfold used_ports in Hfree. rewrite <- (list_insert_id _ _ _ Hx), (omap_others _ _ _ _ x Hx) in Hfree.
      assert (used_port (opened q proto k x) = Some q) as -> by (unfold used_port; simpl; by destruct Hpr as [->| ->]).
      simpl. apply NoDup_cons. split; [set_solver |]. by apply NoDup_app in Hnd as (_ & _ & ?).
    + intros j. unfold set_pend. case_match; [done | by apply C].
    + apply sock_sem_pend. intros j Hj. unfold set_pend. rewrite (proj2 (Z.eqb_neq j k)); [done |]. intros ->. set_solver.
    + unfold sock_sem at 1. simpl. unfold set_pend at 1. rewrite Z.eqb_refl. unfold asked. simpl. by rewrite Permutation_swap.
  - destruct Hk as [Hk Hnone]. wp_step. eapply unlock_table_wp; [simpl; exact Hk |]. intros σ' Hσ'. wp_step. left. split; [done |].
    assert (mk_sock (port x) (protocol x) None (rbuf x) (bufsize x) (sender x) (copied x) (sport x) = x) as -> by (destruct x; simpl in *; congruence).
    simpl open_sockets. rewrite (list_insert_id _ _ _ Hx). split; [| split].
    + replace (set_nsems σ' _) with (set_nsems σ' (set_sockets (<[Z.to_nat i := x]> (open_sockets s)) s)) by (by rewrite (list_insert_id _ _ _ Hx)).
      eapply Hput; [left; done | by rewrite Hrb | exact Hnd | apply C | done | exact HF |]. unfold sock_sem at 1. by rewrite Hrc.
    + by exists σ'.
    + intros j y Hj Hy. destruct (decide (Z.to_nat j = Z.to_nat a)) as [E|E].
      * apply (Hnone j (mk_sem 0 (creator y)) Hj). simpl. rewrite E in *. by rewrite list_lookup_alter_eq, Hy.
      * apply (Hnone j y Hj). simpl. by rewrite list_lookup_alter_ne.
Qed.

Lemma socket_open_wp mine pend vs v held (s : net) cpu proto p :
  core mine pend vs v held s → 0 ≤ cpu < CONFIG_MAX_CPUS → 0 ≤ p < 2 ^ 16 →
  wp (socket_open table_addr cpu proto p) (λ r s',
    (r = -1 ∧ core mine pend vs v held s' ∧ open_refused s proto p ∧ ∃ σ, s' = set_nsems σ s) ∨
    (0 ≤ r < 64 ∧ (proto = PROTOCOL_POP ∨ proto = PROTOCOL_SOP) ∧ ∃ x q k σ, open_sockets s !! Z.to_nat r = Some x ∧ protocol x = 0 ∧
       port_chosen (open_sockets s) p q ∧ s' = set_nsems σ (set_sockets (<[Z.to_nat r := opened q proto k x]> (open_sockets s)) s) ∧
       core mine (set_pend k 0 pend) vs v held s')) s.
Proof using Type*.
  intros C Hcpu Hp. pose proof (c_socks _ _ _ _ _ _ _ C) as [Hl _]. unfold socket_open.
  destruct (core_sem_at _ _ _ _ _ _ _ C) as (a & b & c & d & Ea & Eb & Ec & Ed & Ha & _).
  assert (Hundo : set_nsems (sem_set a (0 + 1) (sem_set a 0 (n_sems s))) s = s) by (rewrite sem_relock by done; apply set_nsems_id).
  assert (Hsame : ∃ σ, s = set_nsems σ s) by (exists (n_sems s); symmetry; apply set_nsems_id).
  set (Post := λ (r : Z) (s' : net), _). assert (Hfail : open_refused s proto p → Post (-1) s) by (intros; left; done).
  assert (Hrel : open_refused s proto p → wp (signal table_addr (Some a);; mret (-1)) Post (set_nsems (sem_set a (1 - 1) (n_sems s)) s)).
  { intros Hwhy. wp_step. apply (lock_release_wp table_addr _ a 0); [by apply (sem_at_set _ 1) | done |]. wp_step.
    change (Post (-1) (set_nsems (sem_set a (0 + 1) (sem_set a 0 (n_sems s))) s)). rewrite Hundo. by apply Hfail. }
  destruct (negb (proto =? PROTOCOL_POP) && negb (proto =? PROTOCOL_SOP)) eqn:Hproto; bool_prop; [wp_step; apply Hfail; by left |].
  assert (Hpr : proto = PROTOCOL_POP ∨ proto = PROTOCOL_SOP) by (apply andb_false_iff in Hproto as [?|?]; bool_prop; tauto).
  wp_step. wp_step. wp_step. rewrite Ea. apply (lock_wp table_addr _ cpu a 1); [done | done |]. wp_step.
  apply free_socket_wp; [done | intros Hfull; apply Hrel; by right; left |].
  intros i x Hi Hx Hx0. wp_step. apply choose_port_wp; [done | done | | intros; apply Hrel; by right; right; left].
  intros q Hq Hch. eapply wp_mono; [apply (install_wp mine pend vs v held s cpu proto q a i x); try done; [lia | apply Hch] |].
  intros r s' [(-> & C' & Hσ & Hnone)|(-> & k & σ & Es & C')].
  - left. split; [done |]. split; [done |]. split; [by right; right; right | done].
  - right. split; [done |]. split; [done |]. by exists x, q, k, σ.
Qed.

(** ** Closing *)

(** The state behind a section with the lock that does not change semaphores. *)
Lemma undo_lock (s s0 : net) a :
  sem_at (n_sems s) a 1 → n_sems s0 = n_sems s →
  set_nsems (sem_set a (0 + 1) (n_sems (set_nsems (sem_set a (1 - 1) (n_sems s)) s0))) (set_nsems (sem_set a (1 - 1) (n_sems s)) s0) = s0.
Proof using Type. intros Ha E0. change (1 - 1) with 0. simpl. rewrite sem_relock by done. rewrite <- E0. by destruct s0. Qed.

Definition closed (x : socket_descriptor) : socket_descriptor := mk_sock 0 0 None 0 0 0 0 (sport x).

(** A socket that no call waits on can be closed. *)
Lemma socket_close_wp mine pend vs v held (s : net) cpu i x :
  core mine pend vs v held s → 0 ≤ i < 64 → open_sockets s !! Z.to_nat i = Some x → rbuf x = 0 →
  (∀ k, receive_complete x = Some k → pend k = 0) →
  wp (socket_close table_addr cpu i) (λ _ s', core mine pend vs v held s' ∧
    (if decide (protocol x = 0) then s' = s
     else ∃ σ, s' = set_nsems σ (set_sockets (<[Z.to_nat i := closed x]> (open_sockets s)) s))) s.
Proof using Type*.
  intros C Hi Hx Hrb Hpend. pose proof (c_socks _ _ _ _ _ _ _ C) as [Hl Hsock].
  destruct (core_socket table_addr _ _ _ _ _ _ _ _ C Hx) as ((F & HF & Hs) & Hnd & Hput).
  pose proof HF as (a & b & c & d & Ea & Eb & Ec & Ed & ->).
  assert (Ha : sem_at (n_sems s) a 1) by (eapply sems_are_at; [| exact Hs]; set_solver). unfold socket_close.
  wp_step. wp_step; [apply andb_true_iff; split; [apply Z.leb_le | apply Z.ltb_lt]; unfold CONFIG_MAX_OPEN_SOCKETS; lia |]. wp_step. wp_step. rewrite Ea.
  wp_step. apply (lock_wp table_addr _ cpu a 1); [done | done |]. wp_step. eapply get_socket_wp; [lia | exact Hx |]. wp_step.
  pose proof (proj1 (Forall_lookup _ _) Hsock _ _ Hx) as [(Hp0 & Hrc & _)|(Hp & _ & [k Hrc])].
  - rewrite Hrc. wp_step. apply (lock_release_wp table_addr _ a 0); [by apply (sem_at_set _ 1) | done |].
    rewrite undo_lock by done. by rewrite decide_True.
  - rewrite Hrc. specialize (Hpend k Hrc).
    assert (sock_sem pend x = Some (k, 0)) as E by (unfold sock_sem, asked; rewrite Hrc, Hrb; simpl; by rewrite Hpend).
    rewrite E in Hs. simpl in Hs.
    rewrite Permutation_swap in Hs. eapply (sems_are_set table_addr a 1 0) in Hs; [| lia | lia].
    wp_step. apply put_socket_wp; [simpl; lia |]. wp_step. unfold on_nsems. wp_step. simpl n_sems. change (1 - 1) with 0.
    rewrite Permutation_swap in Hs. eapply wp_mono; [by apply (destroy_event_wp table_addr k 0 _ _ Hs) |]. intros [] σ Hσ. cbv beta.
    wp_step. eapply get_socket_wp; [lia | simpl; apply list_lookup_insert_eq; lia |]. apply put_socket_wp; [simpl; rewrite length_insert; lia |].
    simpl open_sockets. rewrite list_insert_insert_eq. eapply unlock_table_wp; [simpl; exact Hσ |]. intros σ' Hσ'. split; [| rewrite decide_False by (by destruct Hp as [->|[-> _]]); by exists σ'].
    apply (Hput (closed x) σ' pend vs v [(a, 1); (b, 1); (c, vs); (d, v)]); [by left | done | | apply C | done | done | done].
    by apply NoDup_app in Hnd as (_ & _ & ?).
Qed.

(** ** Asking for a packet *)

Definition asking (x : socket_descriptor) (addr sport_ptr buf buflength length : Z) : socket_descriptor :=
  mk_sock (port x) (protocol x) (receive_complete x) buf (u32 buflength) addr length sport_ptr.

Lemma recvfrom_start_wp mine pend vs v held (s : net) cpu i x addr sport_ptr buf buflength length :
  core mine pend vs v held s → v < 2 ^ 31 - 1 → 0 ≤ i < 64 → open_sockets s !! Z.to_nat i = Some x →
  1 ≤ buflength < 2 ^ 31 → buf ≠ 0 → addr ≠ 0 → sport_ptr ≠ 0 → length ≠ 0 →
  buffer_ok mine (n_mem s) (asking x addr sport_ptr buf buflength length) →
  wp (recvfrom_start table_addr cpu i addr sport_ptr buf buflength length) (λ r s',
    (r = false ∧ s' = s ∧ (protocol x ≠ PROTOCOL_POP ∨ rbuf x ≠ 0)) ∨
    (r = true ∧ protocol x = PROTOCOL_POP ∧ rbuf x = 0 ∧ ∃ k σ, receive_complete x = Some k ∧
       s' = set_nsems σ (set_sockets (<[Z.to_nat i := asking x addr sport_ptr buf buflength length]> (open_sockets s)) s) ∧
       core mine (set_pend k (pend k + 1) pend) vs (v + 1) held s')) s.
Proof using Type*.
  intros C Hv Hi Hx Hbl Hbuf Haddr Hsp Hlen Hok. pose proof (c_socks _ _ _ _ _ _ _ C) as [Hl Hsock].
  destruct (core_socket table_addr _ _ _ _ _ _ _ _ C Hx) as ((F & HF & Hs) & Hnd & Hput).
  pose proof HF as (a & b & c & d & Ea & Eb & Ec & Ed & ->).
  assert (Ha : sem_at (n_sems s) a 1) by (eapply sems_are_at; [| exact Hs]; set_solver). unfold recvfrom_start.
  wp_step. wp_step; [apply andb_true_iff; split; [apply Z.leb_le | apply Z.ltb_lt]; unfold CONFIG_MAX_OPEN_SOCKETS; lia |].
  wp_step. wp_step. { rewrite !andb_true_iff, !negb_true_iff, !Z.eqb_neq, Z.leb_le. split_and!; done || lia. }
  wp_step. wp_step. rewrite Ea. wp_step. apply (lock_wp table_addr _ cpu a 1); [done | done |]. wp_step. eapply get_socket_wp; [lia | exact Hx |].
  destruct (negb (protocol x =? PROTOCOL_POP) || negb (rbuf x =? 0)) eqn:Htest.
  { wp_step. apply (lock_release_wp table_addr _ a 0); [by apply (sem_at_set _ 1) | done |]. wp_step. left. split; [done |].
    rewrite undo_lock by done. split; [done |]. apply orb_true_iff in Htest as [?|?]; bool_prop; tauto. }
  bool_prop. wp_step. apply put_socket_wp; [simpl; lia |]. wp_step.
  apply (lock_release_wp table_addr _ a 0); [by apply (sem_at_set _ 1) | done |]. wp_step. wp_step.
  change (set_sockets _ (set_nsems _ s)) with (set_nsems (sem_set a (1 - 1) (n_sems s))
    (set_sockets (<[Z.to_nat i := asking x addr sport_ptr buf buflength length]> (open_sockets s)) s)). rewrite undo_lock by done.
  pose proof (proj1 (Forall_lookup _ _) Hsock _ _ Hx) as [(Hp0 & _)|(_ & Hport & [k Hrc])]; [by rewrite Hp0 in * |].
  assert (Hkey : k ∉ (omap (sock_sem pend) (others (Z.to_nat i) (open_sockets s))).*1).
  { destruct Hs as (_ & Hkey & _). unfold sock_sem at 1 in Hkey. rewrite Hrc in Hkey. simpl in Hkey. apply NoDup_cons in Hkey as [Hkey _]. set_solver. }
  assert (C1 : core mine (set_pend k (pend k + 1) pend) vs v held
    (set_sockets (<[Z.to_nat i := asking x addr sport_ptr buf buflength length]> (open_sockets s)) s)).
  { rewrite <- (set_nsems_id (set_sockets _ s)).
    apply (Hput (asking x addr sport_ptr buf buflength length) (n_sems s) _ vs v [(a, 1); (b, 1); (c, vs); (d, v)]).
    - right. split; [by left |]. split; [done | by exists k].
    - done.
    - exact Hnd.
    - intros j. pose proof (c_pend _ _ _ _ _ _ _ C j). unfold set_pend. case_test; [subst; lia | done].
    - apply sock_sem_pend. intros j Hj. unfold set_pend. rewrite (proj2 (Z.eqb_neq j k)); [done | by intros ->].
    - done.
    - assert (sock_sem (set_pend k (pend k + 1) pend) (asking x addr sport_ptr buf buflength length) = sock_sem pend x) as ->; [| exact Hs].
      unfold sock_sem, asked, set_pend. simpl. rewrite Hrc. simpl. rewrite Z.eqb_refl, (proj2 (Z.eqb_neq buf 0) Hbuf).
      rewrite (proj2 (Z.eqb_eq (rbuf x) 0)) by done. f_equal. f_equal. lia. }
  wp_step. eapply wp_mono; [apply (signal_service_wp table_addr table_addr_pos _ _ _ _ _ _ C1 Hv) |]. intros [] s' [C' [σ ->]]. wp_step.
  right. split; [done |]. split; [done |]. split; [done |]. by exists k, σ.
Qed.

Lemma recvfrom_wait_wp mine pend vs v held (s : net) cpu i x k :
  core mine pend vs v held s → 0 ≤ i → open_sockets s !! Z.to_nat i = Some x → receive_complete x = Some k → 1 ≤ pend k →
  (∃ t, sq_caller (sq (n_sems s)) cpu t) ∨ 1 ≤ pend k - asked x < 2 ^ 31 →
  wp (recvfrom_wait table_addr cpu i) (λ b s', b = (pend k - asked x <=? 0) ∧ core mine (set_pend k (pend k - 1) pend) vs v held s' ∧
    ∃ σ, s' = set_nsems σ s) s.
Proof using Type*.
  intros C Hi Hx Hrc Hk Hc. pose proof (c_socks _ _ _ _ _ _ _ C) as [Hl Hsock].
  destruct (core_socket table_addr _ _ _ _ _ _ _ _ C Hx) as ((F & HF & Hs) & Hnd & Hput).
  unfold recvfrom_wait. wp_step. eapply get_socket_wp; [done | exact Hx |]. rewrite Hrc. unfold on_nsems. wp_step.
  unfold sock_sem at 1 in Hs. rewrite Hrc in Hs. cbn [option_map fmap option_fmap option_list app] in Hs.
  assert (Hask : asked x = 0 ∨ asked x = 1) by (unfold asked; case_match; tauto).
  eapply wp_mono; [apply (P_ready_wp table_addr table_addr_pos cpu k _ _ _ Hs Hc); lia |]. intros b σ [-> Hσ]. split; [done |].
  split; [| by exists σ]. replace (set_nsems σ s) with (set_nsems σ (set_sockets (<[Z.to_nat i := x]> (open_sockets s)) s))
    by (rewrite (list_insert_id _ _ _ Hx); by destruct s).
  assert (Hkey : k ∉ (omap (sock_sem pend) (others (Z.to_nat i) (open_sockets s))).*1).
  { destruct Hs as (_ & Hkey & _). simpl in Hkey. apply NoDup_cons in Hkey as [Hkey _]. set_solver. }
  eapply Hput; [by eapply Forall_lookup_1 | | exact Hnd | | | exact HF |].
  - eapply (Forall_lookup_1 _ _ _ _ (c_bufs _ _ _ _ _ _ _ C)). exact Hx.
  - intros j. pose proof (c_pend _ _ _ _ _ _ _ C j). unfold set_pend. case_test; [subst; lia | done].
  - apply sock_sem_pend. intros j Hj. unfold set_pend. rewrite (proj2 (Z.eqb_neq j k)); [done | by intros ->].
  - unfold sock_sem at 1, set_pend at 1. rewrite Hrc. simpl. rewrite Z.eqb_refl. by replace (pend k - 1 - asked x) with (pend k - asked x - 1) by lia.
Qed.

End sockets.
