(* ===== verification/NetServe.v ===== *)
(** * The service thread

    A turn of the service thread takes the first packet of the queue that it
    can deliver or has to discard, and gives its page back. *)

From stdpp Require Import gmap.
From S2P Require Import Prelude Kmalloc Pagepool Sched SchedSpec Semaphore Libc TfsDir Devices Vm Net NetSpec NetRun NetSock.
Local Open Scope Z_scope.

(** The socket that listens to a port. *)
Definition listens (l : list socket_descriptor) (dest j : Z) : bool :=
  match l !! Z.to_nat j with Some y => (protocol y =? PROTOCOL_POP) && (port y =? dest) | None => false end.
Definition recipient (l : list socket_descriptor) (dest : Z) : option Z :=
  find_idx (Z.to_nat CONFIG_MAX_OPEN_SOCKETS) 0 (listens l dest).

Definition set_slot_socket (j : Z) (e : pop_entry) : pop_entry := mk_pop (frame e) j (timestamp e) (from e) (busy e).
Definition set_slot_busy (e : pop_entry) : pop_entry := mk_pop (frame e) (pq_socket e) (timestamp e) (from e) 1.
Definition cleared (e : pop_entry) : pop_entry := mk_pop 0 (pq_socket e) (timestamp e) (from e) (busy e).

(** The entry once its socket has been looked for. *)
Definition resolved (l : list socket_descriptor) (m : gmap Z Z) (e e' : pop_entry) : Prop :=
  if (frame e =? 0) || negb (pq_socket e =? -1) then e' = e
  else ∃ dest, 0 ≤ dest < 2 ^ 16 ∧ has m (frame e + 2) (bytes16 dest) ∧
         e' = match recipient l dest with Some j => set_slot_socket j e | None => e end.

(** What is to be done with it. *)
Definition verdict (l : list socket_descriptor) (e : pop_entry) : option pop_action :=
  if frame e =? 0 then None
  else if pq_socket e =? -1 then Some POP_ACTION_DISCARD
  else
    match l !! Z.to_nat (pq_socket e) with
    | Some y =>
        if negb (protocol y =? PROTOCOL_POP) then Some POP_ACTION_DISCARD
        else if negb (rbuf y =? 0) then Some POP_ACTION_TRANSFER else None
    | None => None
    end.

Lemma resolved_frame l m e e' : resolved l m e e' → frame e' = frame e ∧ timestamp e' = timestamp e ∧ from e' = from e ∧ busy e' = busy e.
Proof. unfold resolved. case_match; [by intros -> |]. intros (d & _ & _ & ->). by case_match. Qed.

Section service.
Context {G : Type} `{NetLaws G} {P : Type} `{PageAlloc P} {Q : Type} `{SleepQueue Q}.
Context (table_addr : Z) (table_addr_pos : 0 < table_addr).
Abbreviation net := (@net G P Q).
Abbreviation core := (@core G P _ Q _ table_addr).

Lemma find_recipient_wp (s : net) f dest (R : option Z → net → Prop) :
  length (open_sockets s) = 64%nat → has (n_mem s) (f + 2) (bytes16 dest) → 0 ≤ dest < 2 ^ 16 →
  R (recipient (open_sockets s) dest) s → wp (find_recipient f) R s.
Proof using Type.
  intros Hl Hd Hr HR. unfold find_recipient.
  apply (wp_for (λ j s', s' = s ∧ ∀ i, 0 ≤ i < j → listens (open_sockets s) dest i = false)).
  - split; [done | lia].
  - unfold CONFIG_MAX_OPEN_SOCKETS. intros j s' Hj [-> Hno].
    destruct (lookup_lt_is_Some_2 (open_sockets s) (Z.to_nat j)) as [y Hy]; [lia |]. wp_step. eapply get_socket_wp; [lia | exact Hy |].
    assert (Hlj : listens (open_sockets s) dest j = (protocol y =? PROTOCOL_POP) && (port y =? dest)) by (unfold listens; by rewrite Hy).
    assert (Hnext : listens (open_sockets s) dest j = false → s = s ∧ ∀ i, 0 ≤ i < j + 1 → listens (open_sockets s) dest i = false).
    { intros Hf. split; [done |]. intros i Hi. destruct (decide (i = j)) as [->|]; [done | apply Hno; lia]. }
    destruct (protocol y =? PROTOCOL_POP); [| wp_step; by apply Hnext]. wp_step. apply (load16_wp _ _ dest); [done | done |]. wp_step.
    destruct (port y =? dest); [| by apply Hnext]. replace (Some j) with (recipient (open_sockets s) dest); [done |].
    apply find_idx_Some. split; [unfold CONFIG_MAX_OPEN_SOCKETS; lia |]. split; [done |]. intros i Hi. apply Hno. lia.
  - intros s' [-> Hno]. replace None with (recipient (open_sockets s) dest); [done |]. apply find_idx_None. intros i Hi. by apply Hno.
Qed.

Lemma recipient_range l dest j : recipient l dest = Some j → 0 ≤ j < CONFIG_MAX_OPEN_SOCKETS.
Proof using Type. intros (? & _)%find_idx_Some. unfold CONFIG_MAX_OPEN_SOCKETS in *. lia. Qed.

(** A change of an entry that keeps its packet. *)
Lemma core_reslot mine pend vs v held (s : net) i e e' :
  core mine pend vs v held s → pop_queue s !! i = Some e → frame e' = frame e → (frame e ≠ 0 → -1 ≤ pq_socket e' < CONFIG_MAX_OPEN_SOCKETS) →
  core mine pend vs v held (set_popq (<[i := e']> (pop_queue s)) s).
Proof using Type.
  intros C Hi Hf Hs. destruct (core_slot table_addr _ _ _ _ _ _ _ _ C Hi) as (L & HL & Hput).
  pose proof (Forall_lookup_1 _ _ _ _ (proj2 (c_queue _ _ _ _ _ _ _ C)) Hi) as Hok.
  change (set_popq _ s) with (set_npool (n_pool s) (set_popq (<[i := e']> (pop_queue s)) s)). apply Hput.
  - intros Hf'. rewrite Hf in *. destruct (Hok Hf') as (Hfr & _ & Hpk). split; [done |]. split; [by apply Hs | done].
  - unfold slot_page in *. by rewrite Hf.
Qed.

(** ** Picking a packet *)

Lemma set_popq_id (s : net) i e : pop_queue s !! i = Some e → set_popq (<[i := e]> (pop_queue s)) s = s.
Proof using Type. intros Hi. rewrite list_insert_id by done. by destruct s. Qed.

Lemma resolve_wp mine pend vs v held (s : net) σ i e (R : unit → net → Prop) :
  core mine pend vs v held s → 0 ≤ i → pop_queue s !! Z.to_nat i = Some e → frame e ≠ 0 →
  (∀ e', resolved (open_sockets s) (n_mem s) e e' → -1 ≤ pq_socket e' < CONFIG_MAX_OPEN_SOCKETS →
     R tt (set_nsems σ (set_popq (<[Z.to_nat i := e']> (pop_queue s)) s))) →
  wp (if pq_socket e =? -1 then
        j ← find_recipient (frame e);
        match j with
        | Some j => put_pop i (mk_pop (frame e) j (timestamp e) (from e) (busy e))
        | None => mret tt
        end
      else mret tt) R (set_nsems σ s).
Proof using Type*.
  intros C Hi He Hf HR. pose proof (lookup_lt_Some _ _ _ He) as Hlt.
  pose proof (Forall_lookup_1 _ _ _ _ (proj2 (c_queue _ _ _ _ _ _ _ C)) He Hf) as (Hfr & Hsock & _).
  pose proof (c_socks _ _ _ _ _ _ _ C) as [Hl _]. pose proof (c_pages _ _ _ _ _ _ _ C) as (b & _ & Hpg). pose proof (c_mem _ _ _ _ _ _ _ C) as [Cb Cr].
  assert (Hres : ∀ e', e' = e → (if (frame e =? 0) || negb (pq_socket e =? -1) then True else False) → R tt (set_nsems σ s)).
  { intros e' -> Ht. rewrite <- (set_popq_id s _ e He). apply HR; [| done]. unfold resolved. by case_match. }
  destruct (Z.eqb_spec (pq_socket e) (-1)) as [Hm1|Hn1].
  2: { wp_step. apply (Hres e eq_refl). by rewrite orb_true_r. }
  assert (Hpm : page_of (frame e) ∈ mine) by (eapply pages_in; [exact Hpg |]; pose proof (in_pages_of _ _ _ He Hf); set_solver).
  destruct (half_at _ (frame e + 2) Cb) as (dest & Hdr & Hdh).
  { eapply region_sub; [by apply (Cr (page_of (frame e))) | |]; unfold payload, SIZEOF_FRAME_HEADER, PAGE_SIZE in *; lia. }
  wp_step. apply (find_recipient_wp _ _ dest); [done | done | done |].
  assert (Hrd : ∀ e', e' = match recipient (open_sockets s) dest with Some j => set_slot_socket j e | None => e end →
    resolved (open_sockets s) (n_mem s) e e').
  { intros e' ->. unfold resolved. rewrite (proj2 (Z.eqb_neq _ _) Hf), Hm1. simpl. by exists dest. }
  cbn [open_sockets set_nsems]. destruct (recipient (open_sockets s) dest) as [j|] eqn:Er.
  - apply put_pop_wp; [simpl; lia |]. apply (HR (set_slot_socket j e)); [by apply Hrd |]. apply recipient_range in Er. simpl. lia.
  - wp_step. rewrite <- (set_popq_id s _ e He). apply HR; [by apply Hrd | lia].
Qed.

Definition picked (a : pop_action) (e : pop_entry) : pop_entry :=
  match a with POP_ACTION_TRANSFER => set_slot_busy e | _ => e end.

Lemma service_slot_wp mine pend vs v held (s : net) σ i e (R : option (pop_action * Z * Z) → net → Prop) :
  core mine pend vs v held s → 0 ≤ i → pop_queue s !! Z.to_nat i = Some e →
  (∀ e', resolved (open_sockets s) (n_mem s) e e' → (frame e ≠ 0 → -1 ≤ pq_socket e' < CONFIG_MAX_OPEN_SOCKETS) →
     match verdict (open_sockets s) e' with
     | None => R None (set_nsems σ (set_popq (<[Z.to_nat i := e']> (pop_queue s)) s))
     | Some a => R (Some (a, i, frame e)) (set_nsems σ (set_popq (<[Z.to_nat i := picked a e']> (pop_queue s)) s))
     end) →
  wp (service_slot i) R (set_nsems σ s).
Proof using Type*.
  intros C Hi He HR. pose proof (lookup_lt_Some _ _ _ He) as Hlt. pose proof (c_socks _ _ _ _ _ _ _ C) as [Hl _].
  unfold service_slot. wp_step. eapply get_pop_wp; [done | exact He |]. cbv zeta. destruct (Z.eqb_spec (frame e) 0) as [Hf0|Hf].
  { wp_step. specialize (HR e). unfold resolved, verdict in HR. rewrite Hf0 in HR. simpl in HR. rewrite set_popq_id in HR by done. by apply HR. }
  wp_step. apply (resolve_wp mine pend vs v held s σ i e); [done | done | done | done |]. intros e' He' Hs'.
  specialize (HR e' He' (λ _, Hs')). destruct (resolved_frame _ _ _ _ He') as (Hfe & _). unfold verdict in HR. rewrite Hfe, (proj2 (Z.eqb_neq _ _) Hf) in HR.
  wp_step. eapply get_pop_wp; [done | simpl; apply list_lookup_insert_eq; lia |].
  destruct (Z.eqb_spec (pq_socket e') (-1)) as [Hm1|Hn1]; [wp_step; exact HR |].
  unfold CONFIG_MAX_OPEN_SOCKETS in Hs'. destruct (lookup_lt_is_Some_2 (open_sockets s) (Z.to_nat (pq_socket e'))) as [y Hy]; [lia |].
  wp_step. eapply get_socket_wp; [lia | exact Hy |]. rewrite Hy in HR. rewrite (proj2 (Z.leb_le 0 (pq_socket e'))) by lia. simpl andb.
  destruct (negb (protocol y =? PROTOCOL_POP)); [wp_step; exact HR |]. destruct (negb (rbuf y =? 0)); [| wp_step; exact HR].
  wp_step. apply put_pop_wp; [simpl; rewrite length_insert; lia |]. wp_step. simpl pop_queue. rewrite list_insert_insert_eq.
  unfold picked, set_slot_busy in HR. rewrite Hfe in HR. exact HR.
Qed.

(** The first [n] slots have been looked at, and passed. *)
Definition passed (l : list socket_descriptor) (m : gmap Z Z) (q q' : list pop_entry) (n : nat) : Prop :=
  length q' = length q ∧
  (∀ j e, (j < n)%nat → q !! j = Some e → ∃ e', q' !! j = Some e' ∧ resolved l m e e' ∧ verdict l e' = None) ∧
  ∀ j, (n ≤ j)%nat → q' !! j = q !! j.

Definition pick_result (l : list socket_descriptor) (m : gmap Z Z) (q q' : list pop_entry) (r : pop_action * Z * Z) : Prop :=
  match r with
  | (POP_ACTION_NONE, _, _) => passed l m q q' 32
  | (a, i, f) => ∃ e e' q1, 0 ≤ i ∧ q !! Z.to_nat i = Some e ∧ resolved l m e e' ∧ verdict l e' = Some a ∧ f = frame e ∧
      passed l m q q1 (Z.to_nat i) ∧ q' = <[Z.to_nat i := picked a e']> q1
  end.

Lemma passed_next l m q q' (j : Z) e e' :
  0 ≤ j → passed l m q q' (Z.to_nat j) → q !! Z.to_nat j = Some e → resolved l m e e' → verdict l e' = None →
  passed l m q (<[Z.to_nat j := e']> q') (Z.to_nat (j + 1)).
Proof using Type.
  intros Hj (Hlen & Hbelow & Habove) He Hr Hv. pose proof (lookup_lt_Some _ _ _ He). split; [by rewrite length_insert |]. split.
  - intros k e0 Hk He0. destruct (decide (k = Z.to_nat j)) as [->|].
    + rewrite list_lookup_insert_eq by lia. exists e'. by simplify_eq.
    + rewrite list_lookup_insert_ne by done. apply Hbelow; [lia | done].
  - intros k Hk. rewrite list_lookup_insert_ne by lia. apply Habove. lia.
Qed.

Lemma verdict_none l e : verdict l e ≠ Some POP_ACTION_NONE.
Proof using Type. unfold verdict. by repeat case_match. Qed.

(** The loop of the service thread. *)
Lemma pick_loop_wp mine pend vs v held (s : net) σ (R : option (pop_action * Z * Z) → net → Prop) :
  core mine pend vs v held s →
  (∀ r q', core mine pend vs v held (set_popq q' s) → pick_result (open_sockets s) (n_mem s) (pop_queue s) q' (default (POP_ACTION_NONE, 0, 0) r) →
     R r (set_nsems σ (set_popq q' s))) →
  wp (for_ (Z.to_nat CONFIG_POP_QUEUE_SIZE) 0 service_slot) R (set_nsems σ s).
Proof using Type*.
  intros C HR. pose proof (c_queue _ _ _ _ _ _ _ C) as [Hql _].
  apply (wp_for (λ j s', ∃ q', s' = set_nsems σ (set_popq q' s) ∧ core mine pend vs v held (set_popq q' s) ∧
    passed (open_sockets s) (n_mem s) (pop_queue s) q' (Z.to_nat j))).
  - exists (pop_queue s). split; [by destruct s |]. split; [by destruct s |]. split; [done |]. split; [intros j e Hj; simpl in Hj; lia | done].
  - unfold CONFIG_POP_QUEUE_SIZE. intros j s' Hj (q' & -> & C' & Hp). pose proof Hp as (Hlen & _ & Hab).
    destruct (lookup_lt_is_Some_2 (pop_queue s) (Z.to_nat j)) as [e He]; [lia |].
    assert (Heq : q' !! Z.to_nat j = Some e) by (rewrite Hab by lia; done).
    apply (service_slot_wp mine pend vs v held (set_popq q' s) σ j e _ C'); [lia | done |]. simpl. intros e' Hr Hs'.
    destruct (resolved_frame _ _ _ _ Hr) as (Hfe & _).
    assert (Hre : ∀ e2, frame e2 = frame e → (frame e ≠ 0 → -1 ≤ pq_socket e2 < CONFIG_MAX_OPEN_SOCKETS) →
      core mine pend vs v held (set_popq (<[Z.to_nat j := e2]> q') s)).
    { intros e2 Hf2 Hs2. apply (core_reslot mine pend vs v held (set_popq q' s) (Z.to_nat j) e e2 C' Heq Hf2 Hs2). }
    destruct (verdict (open_sockets s) e') as [a|] eqn:Hv.
    + apply HR.
      * apply Hre; by destruct a.
      * simpl. destruct a; [by apply verdict_none in Hv | |]; exists e, e', q'; split_and!; done || lia.
    + eexists. split; [done |]. split; [by apply Hre |]. eapply passed_next; [lia | done | exact He | done | done].
  - intros s' (q' & -> & C' & Hp). apply (HR None q' C'). exact Hp.
Qed.

Lemma service_pick_wp mine pend vs v held (s : net) cpu :
  core mine pend vs v held s →
  wp (service_pick table_addr cpu) (λ r s', ∃ q', s' = set_popq q' s ∧ core mine pend vs v held s' ∧
    pick_result (open_sockets s) (n_mem s) (pop_queue s) q' r) s.
Proof using Type*.
  intros C. destruct (core_sem_at _ _ _ _ _ _ _ C) as (a & b & c & d & Ea & Eb & Ec & Ed & Ha & Hb & _ & _ & Hnd).
  assert (Hab : b ≠ a) by (apply NoDup_cons in Hnd as [Hn _]; set_solver).
  assert (Hb' : sem_at (sem_set a (1 - 1) (n_sems s)) b 1).
  { pose proof Ha as (_ & Ha0 & _). eapply sem_at_other; [| exact Hab | exact Hb]. intros i Hi Hne. simpl. by rewrite list_lookup_alter_ne by lia. }
  unfold service_pick. wp_step. wp_step. wp_step. rewrite Ea. apply (lock_wp table_addr _ cpu a 1); [done | done |].
  wp_step. wp_step. simpl pop_queue_sem. rewrite Eb. wp_step. apply (lock_wp table_addr _ cpu b 1); [done | done |]. wp_step.
  change (set_nsems _ (set_nsems _ s)) with (set_nsems (sem_set b (1 - 1) (sem_set a (1 - 1) (n_sems s))) s).
  eapply (pick_loop_wp mine pend vs v held s _ _ C). intros r q' C' Hr.
  wp_step. apply (lock_release_wp table_addr _ b 0); [by apply (sem_at_set _ 1) | done |]. wp_step.
  change (1 - 1) with 0 in *. change (0 + 1) with 1. simpl n_sems. rewrite (sem_relock b) by done.
  apply (lock_release_wp table_addr _ a 0); [by apply (sem_at_set _ 1) | done |]. wp_step. simpl n_sems. rewrite (sem_relock a) by done.
  exists q'. split; [done |]. split; [exact C' |]. exact Hr.
Qed.

(** ** Discarding and delivering *)

Lemma clear_slot_wp (s : net) i e (R : unit → net → Prop) :
  0 ≤ i → pop_queue s !! Z.to_nat i = Some e → R tt (set_popq (<[Z.to_nat i := cleared e]> (pop_queue s)) s) → wp (clear_slot i) R s.
Proof using Type.
  intros Hi He HR. pose proof (lookup_lt_Some _ _ _ He). unfold clear_slot. wp_step. eapply get_pop_wp; [done | exact He |].
  apply put_pop_wp; [lia | done].
Qed.

Lemma cleared_ok m e : slot_ok m (cleared e).
Proof using Type. by intros []. Qed.

Lemma discard_wp mine pend vs v held (s : net) i e :
  core mine pend vs v held s → 0 ≤ i → pop_queue s !! Z.to_nat i = Some e → frame e ≠ 0 →
  wp (service_act table_addr (POP_ACTION_DISCARD, i, frame e)) (λ _ s', core mine pend vs v held s' ∧ ∃ pool,
    s' = set_npool pool (set_popq (<[Z.to_nat i := cleared e]> (pop_queue s)) s) ∧
    free_pages pool = {[page_of (frame e)]} ∪ free_pages (n_pool s)) s.
Proof using Type*.
  intros C Hi He Hf. destruct (core_slot_at table_addr _ _ _ _ _ _ _ _ C He) as [HL Hput].
  pose proof (Forall_lookup_1 _ _ _ _ (proj2 (c_queue _ _ _ _ _ _ _ C)) He) as Hok. destruct (slot_frame _ _ Hok Hf) as [Hsp Hfr].
  rewrite Hsp in HL. simpl in HL. unfold service_act. wp_step. rewrite Hfr at 1. eapply free_frame_wp; [exact HL |].
  intros p' Hp' Hfree. apply clear_slot_wp with e; [done | done |]. split; [| by exists p'].
  apply (Hput (cleared e) p' held); [apply cleared_ok | exact Hp'].
Qed.

(** A write into memory of the callers. *)
Lemma core_write_client mine pend vs v held (s : net) a l :
  core mine pend vs v held s → region (n_mem s) a (Z.of_nat (length l)) → is_bytes l → outside mine a (Z.of_nat (length l)) →
  core mine pend vs v held (set_mem (mput (n_mem s) a l) s).
Proof using Type*.
  intros C Hr Hl Ho. apply core_write; [done.. |]. eapply outside_sub; [| | | exact Ho]; [| lia | lia].
  destruct (c_pages _ _ _ _ _ _ _ C) as (b & _ & Hpg). intros p Hp%elem_of_list_to_set. eapply pages_in; [exact Hpg | set_solver].
Qed.

(** Memory with the results of a call of [socket_recvfrom]. *)
Definition delivered (m : gmap Z Z) (y : socket_descriptor) (data : bytes) (src p : Z) : gmap Z Z :=
  mput (mput (mput (mput m (rbuf y) data) (sender y) (bytes32 src)) (copied y) (bytes32 (Z.of_nat (length data)))) (sport y) (bytes16 p).

(** The part of the delivery that writes memory. *)
Lemma deliver_wp mine pend vs v held (s : net) f src y data p (k : K net unit) (R : unit → net → Prop) :
  core mine pend vs v held s → buffer_ok mine (n_mem s) y → Z.of_nat (length data) ≤ bufsize y →
  has (n_mem s) (f + SIZEOF_POP_HEADER) data → has (n_mem s) f (bytes16 p) → 0 ≤ p < 2 ^ 16 → (∃ q, q ∈ mine ∧ f = payload q) →
  (core mine pend vs v held (set_mem (delivered (n_mem s) y data src p) s) → wp k R (set_mem (delivered (n_mem s) y data src p) s)) →
  wp (kmemcopy (Z.of_nat (length data)) (rbuf y) (f + SIZEOF_POP_HEADER);;
      mstore (sender y) (bytes32 src);;
      mstore (copied y) (bytes32 (Z.of_nat (length data)));;
      p' ← load16 f;
      mstore (sport y) (bytes16 p');;
      k) R s.
Proof using Type*.
  intros C (Hbs & Hr1 & Ho1 & Hr2 & Ho2 & Hr3 & Ho3 & Hr4 & Ho4) Hlen Hdata Hsp Hp (q & Hq & Hfq) HR.
  pose proof (has_bytes _ _ _ (proj1 (c_mem _ _ _ _ _ _ _ C)) Hdata) as Hdb.
  assert (Hr1' : region (n_mem s) (rbuf y) (Z.of_nat (length data))) by (eapply region_sub; [exact Hr1 | lia | lia]).
  assert (Ho1' : outside mine (rbuf y) (Z.of_nat (length data))) by (eapply outside_sub; [| | | exact Ho1]; [done | lia | lia]).
  pose proof (core_write_client _ _ _ _ _ s _ _ C Hr1' Hdb Ho1') as C1.
  rewrite <- (region_mput _ (rbuf y) data _ _ Hr1') in Hr2. rewrite <- (region_mput _ (rbuf y) data _ _ Hr1') in Hr3. rewrite <- (region_mput _ (rbuf y) data _ _ Hr1') in Hr4.
  pose proof (core_write_client _ _ _ _ _ _ _ (bytes32 src) C1 Hr2 (bytes32_bytes _) Ho2) as C2.
  rewrite <- (region_mput _ (sender y) (bytes32 src) _ _ Hr2) in Hr3. rewrite <- (region_mput _ (sender y) (bytes32 src) _ _ Hr2) in Hr4.
  pose proof (core_write_client _ _ _ _ _ _ _ (bytes32 (Z.of_nat (length data))) C2 Hr3 (bytes32_bytes _) Ho3) as C3.
  rewrite <- (region_mput _ (copied y) (bytes32 (Z.of_nat (length data))) _ _ Hr3) in Hr4.
  pose proof (core_write_client _ _ _ _ _ _ _ (bytes16 p) C3 Hr4 (bytes16_bytes _) Ho4) as C4.
  wp_step. eapply kmemcopy_wp; [done | exact Hdata | done |]. wp_step. apply mstore_wp; [done |]. wp_step. apply mstore_wp; [done |].
  wp_step. apply (load16_wp _ _ p); [| done |].
  { cbn [n_mem set_mem]. unfold payload, SIZEOF_FRAME_HEADER in Hfq.
    repeat (eapply has_outside; [eassumption | exact Hq | lia | simpl length; unfold PAGE_SIZE; lia |]). done. }
  wp_step. apply mstore_wp; [done |]. by apply HR.
Qed.

Definition idle (y : socket_descriptor) : socket_descriptor := mk_sock (port y) (protocol y) (receive_complete y) 0 0 0 0 0.

(** What is in the packet of a slot, as far as a caller wants it. *)
Definition contents_of (m : gmap Z Z) (f size : Z) (data : bytes) (p : Z) : Prop :=
  ∃ w, has m (f + 4) (bytes32 w) ∧ 0 ≤ w ≤ MAX_PAYLOAD ∧ Z.of_nat (length data) = Z.min w size ∧
    has m (f + SIZEOF_POP_HEADER) data ∧ has m f (bytes16 p) ∧ 0 ≤ p < 2 ^ 16.

Lemma contents_exist mine pend vs v held (s : net) i e size :
  core mine pend vs v held s → pop_queue s !! i = Some e → frame e ≠ 0 → 1 ≤ size →
  page_of (frame e) ∈ mine ∧ frame e = payload (page_of (frame e)) ∧ ∃ data p, contents_of (n_mem s) (frame e) size data p.
Proof using Type*.
  intros C He Hf Hsz. pose proof (Forall_lookup_1 _ _ _ _ (proj2 (c_queue _ _ _ _ _ _ _ C)) He Hf) as (Hfr & _ & w & Hw & Hwr).
  pose proof (c_pages _ _ _ _ _ _ _ C) as (b & _ & Hpg). pose proof (c_mem _ _ _ _ _ _ _ C) as [Cb Cr].
  assert (Hpm : page_of (frame e) ∈ mine) by (eapply pages_in; [exact Hpg |]; pose proof (in_pages_of _ _ _ He Hf); set_solver).
  split; [done |]. split; [done |]. specialize (Cr _ Hpm). unfold MAX_PAYLOAD, payload, SIZEOF_FRAME_HEADER, SIZEOF_POP_HEADER, PAGE_SIZE in *.
  destruct (half_at _ (frame e) Cb) as (p & Hp & Hhp); [eapply region_sub; [exact Cr | lia | lia] |].
  destruct (region_has (n_mem s) (frame e + 8) (Z.min w size)) as (data & Hdl & Hdh); [lia | eapply region_sub; [exact Cr | lia | lia] |].
  exists data, p, w. unfold MAX_PAYLOAD, SIZEOF_FRAME_HEADER, SIZEOF_POP_HEADER, PAGE_SIZE. split_and!; done || lia.
Qed.

(** The part of the delivery that frees the packet and wakes the caller. *)
Lemma served_wp mine pend vs v held (s : net) i e y k :
  core mine pend vs v held s → 0 ≤ i → pop_queue s !! Z.to_nat i = Some e → frame e ≠ 0 →
  0 ≤ pq_socket e → open_sockets s !! Z.to_nat (pq_socket e) = Some y → rbuf y ≠ 0 → receive_complete y = Some k → pend k < 2 ^ 31 →
  wp (put_socket (pq_socket e) (idle y);;
      network_free_frame (frame e);;
      y ← get_socket (pq_socket e);
      signal table_addr (receive_complete y);;
      clear_slot i)
    (λ _ s', core mine pend vs v held s' ∧ ∃ pool σ, free_pages pool = {[page_of (frame e)]} ∪ free_pages (n_pool s) ∧
      s' = set_npool pool (set_popq (<[Z.to_nat i := cleared e]> (pop_queue s))
             (set_nsems σ (set_sockets (<[Z.to_nat (pq_socket e) := idle y]> (open_sockets s)) s)))) s.
Proof using Type*.
  intros C Hi He Hf Hj Hy Hrb Hk Hpk. pose proof (lookup_lt_Some _ _ _ Hy) as Hlt.
  destruct (core_slot_at table_addr _ _ _ _ _ _ _ _ C He) as [HL _].
  pose proof (Forall_lookup_1 _ _ _ _ (proj2 (c_queue _ _ _ _ _ _ _ C)) He) as Hok. destruct (slot_frame _ _ Hok Hf) as [Hsp Hfr].
  pose proof (Forall_lookup_1 _ _ _ _ (proj2 (c_socks _ _ _ _ _ _ _ C)) Hy) as [(_ & _ & ?)|(Hpr & Hport & _)]; [done |].
  destruct (core_socket table_addr _ _ _ _ _ _ _ _ C Hy) as ((F & HF & Hs) & Hnd & Hput).
  rewrite Hsp in HL. simpl in HL. wp_step. apply put_socket_wp; [lia |]. wp_step. rewrite Hfr at 1.
  eapply free_frame_wp; [exact HL |]. intros p' Hp' Hfree. wp_step. eapply get_socket_wp; [done | simpl; apply list_lookup_insert_eq; lia |].
  cbn [receive_complete idle]. rewrite Hk. wp_step. unfold signal, on_nsems. wp_step. simpl n_sems.
  assert (sock_sem pend y = Some (k, pend k - 1)) as E.
  { unfold sock_sem, asked. by rewrite Hk, (proj2 (Z.eqb_neq _ _) Hrb). }
  rewrite E in Hs. simpl in Hs. eapply wp_mono; [apply (V_event_wp table_addr table_addr_pos k _ _ _ Hs); lia |]. intros [] σ Hσ. cbv beta.
  apply clear_slot_wp with e; [done | done |].
  assert (C1 : core mine pend vs v held (set_nsems σ (set_sockets (<[Z.to_nat (pq_socket e) := idle y]> (open_sockets s)) s))).
  { eapply (Hput (idle y)); [| by intros [] | exact Hnd | apply C | done | exact HF |].
    - right. split; [destruct Hpr as [?|[? _]]; [by left | by right] |]. split; [done | by exists k].
    - unfold sock_sem at 1. simpl. rewrite Hk. unfold asked. simpl. by replace (pend k - 0) with (pend k - 1 + 1) by lia. }
  destruct (core_slot_at table_addr _ _ _ _ _ _ (Z.to_nat i) e C1 He) as [_ Hput1].
  split; [apply (Hput1 (cleared e) p' held); [apply cleared_ok | exact Hp'] |]. by exists p', σ.
Qed.

Lemma transfer_wp mine pend vs v held (s : net) i e y k :
  core mine pend vs v held s → 0 ≤ i → pop_queue s !! Z.to_nat i = Some e → frame e ≠ 0 →
  0 ≤ pq_socket e → open_sockets s !! Z.to_nat (pq_socket e) = Some y → rbuf y ≠ 0 → receive_complete y = Some k → pend k < 2 ^ 31 →
  wp (service_act table_addr (POP_ACTION_TRANSFER, i, frame e)) (λ _ s', core mine pend vs v held s' ∧ ∃ data p pool σ,
    contents_of (n_mem s) (frame e) (bufsize y) data p ∧ free_pages pool = {[page_of (frame e)]} ∪ free_pages (n_pool s) ∧
    s' = set_npool pool (set_popq (<[Z.to_nat i := cleared e]> (pop_queue s)) (set_nsems σ
           (set_sockets (<[Z.to_nat (pq_socket e) := idle y]> (open_sockets s)) (set_mem (delivered (n_mem s) y data (from e) p) s))))) s.
Proof using Type*.
  intros C Hi He Hf Hj Hy Hrb Hk Hpk. pose proof (Forall_lookup_1 _ _ _ _ (c_bufs _ _ _ _ _ _ _ C) Hy Hrb) as Hbuf.
  pose proof Hbuf as (Hbs & _). destruct (contents_exist _ _ _ _ _ _ _ _ (bufsize y) C He Hf ltac:(lia)) as (Hpm & Hfr & data & p & Hcont).
  pose proof Hcont as (w & Hw & Hwr & Hdl & Hdata & Hp & Hpr). unfold service_act. wp_step. eapply get_pop_wp; [done | exact He |].
  wp_step. eapply get_socket_wp; [done | exact Hy |]. wp_step. apply (load32_wp _ _ w); [done | |].
  { unfold MAX_PAYLOAD, PAGE_SIZE, SIZEOF_FRAME_HEADER, SIZEOF_POP_HEADER in Hwr. unfold is_u32. lia. }
  cbv zeta. rewrite MIN_min, s32_small by (unfold is_s32, MAX_PAYLOAD, PAGE_SIZE, SIZEOF_FRAME_HEADER, SIZEOF_POP_HEADER in *; lia). rewrite <- Hdl.
  apply (deliver_wp mine pend vs v held s (frame e) (from e) y data p); [done | done | lia | done | done | done | by exists (page_of (frame e)) |].
  intros C1. eapply wp_mono; [by apply (served_wp mine pend vs v held _ i e y k C1) |].
  intros [] s' (C' & pool & σ & Hfree & Es). split; [done |]. by exists data, p, pool, σ.
Qed.

End service.
