(* ===== verification/NetThm.v ===== *)
(** * The network: theorems

    Over all interleavings of the calls of sockets, the two halves of the turns
    of the service thread, and the three steps of the turns of the receiving
    threads. *)

From stdpp Require Import gmap.
From S2P Require Import Prelude Kmalloc Pagepool Sched SchedSpec Semaphore Libc TfsDir Devices Vm Net NetSpec NetRun NetSock NetServe.
Local Open Scope Z_scope.

Lemma elements_split (p : Z) (X : gset Z) : p ∈ X → elements X ≡ₚ p :: elements (X ∖ {[p]}).
Proof.
  intros Hp. rewrite <- elements_union_singleton by set_solver. f_equiv. intros x. destruct (decide (x = p)); set_solver.
Qed.

Section turns.
Context {G : Type} `{NetLaws G} {P : Type} `{PageAlloc P} {Q : Type} `{SleepQueue Q}.
Context (table_addr : Z) (table_addr_pos : 0 < table_addr).
Abbreviation net := (@net G P Q).
Abbreviation core := (@core G P _ Q _ table_addr).

(** ** The threads *)

Definition service_turn (cpu : Z) : K net pop_action :=
  a ← service_pick table_addr cpu; service_act table_addr a;; mret (fst (fst a)).

Lemma picked_slot q (q1 : list pop_entry) l m i e e' a :
  q !! i = Some e → passed l m q q1 i → <[i := picked a e']> q1 !! i = Some (picked a e').
Proof using Type. intros Hi (Hl & _). apply lookup_lt_Some in Hi. apply list_lookup_insert_eq. lia. Qed.

Lemma verdict_discard l e : verdict l e = Some POP_ACTION_DISCARD → frame e ≠ 0.
Proof using Type. unfold verdict. intros Hv Hf. by rewrite Hf in Hv. Qed.
Lemma verdict_transfer l e :
  verdict l e = Some POP_ACTION_TRANSFER →
  frame e ≠ 0 ∧ ∃ y, l !! Z.to_nat (pq_socket e) = Some y ∧ protocol y = PROTOCOL_POP ∧ rbuf y ≠ 0.
Proof using Type.
  unfold verdict. intros Hv. destruct (Z.eqb_spec (frame e) 0); [done |]. split; [done |].
  destruct (pq_socket e =? -1); [done |]. destruct (l !! Z.to_nat (pq_socket e)) as [y|]; [| done]. exists y. split; [done |].
  destruct (Z.eqb_spec (protocol y) PROTOCOL_POP); [| done]. destruct (Z.eqb_spec (rbuf y) 0); done.
Qed.

(** The pages of the set have what they had. *)
Definition intact (l : gset Z) (s s' : net) : Prop :=
  ∀ x p, p ∈ l → kaddr p ≤ x < kaddr p + PAGE_SIZE → n_mem s' !! x = n_mem s !! x.

Lemma intact_same l (s s' : net) : n_mem s' = n_mem s → intact l s s'.
Proof using Type. intros E x p _ _. by rewrite E. Qed.
Lemma intact_outside (l l' : gset Z) (s s' : net) :
  l ## l' → (∀ y, outside l' y 1 → n_mem s' !! y = n_mem s !! y) → intact l s s'.
Proof using Type.
  intros Hd Hm x p Hp Hx. apply Hm. intros y q Hy Hq Hyq. assert (q = p) as ->; [| exact (Hd p Hp Hq)].
  unfold kaddr, PAGE_SIZE in Hx, Hyq. lia.
Qed.
Lemma intact_packet l (s s' : net) p : intact l s s' → p ∈ l → packet_ok (n_mem s) (payload p) → packet_ok (n_mem s') (payload p).
Proof using Type*.
  intros Hi Hp (w & Hw & Hr). exists w. split; [| done]. intros j x Hj. rewrite (Hi _ p Hp); [by apply Hw |].
  apply lookup_lt_Some in Hj. simpl in Hj. unfold payload, SIZEOF_FRAME_HEADER, PAGE_SIZE. lia.
Qed.

(** What the service thread has found out with the locks still holds. *)
Definition act_ok (a : pop_action * Z * Z) (s : net) : Prop :=
  match a with
  | (POP_ACTION_NONE, _, _) => True
  | (POP_ACTION_DISCARD, i, f) => 0 ≤ i ∧ f ≠ 0 ∧ ∃ e, pop_queue s !! Z.to_nat i = Some e ∧ frame e = f
  | (POP_ACTION_TRANSFER, i, f) => 0 ≤ i ∧ f ≠ 0 ∧ ∃ e y, pop_queue s !! Z.to_nat i = Some e ∧ frame e = f ∧ busy e = 1 ∧ 0 ≤ pq_socket e ∧
      open_sockets s !! Z.to_nat (pq_socket e) = Some y ∧ rbuf y ≠ 0
  end.

Lemma pick_wp mine pend vs v held (s : net) cpu :
  core mine pend vs v held s → wp (service_pick table_addr cpu) (λ a s', core mine pend vs v held s' ∧ n_mem s' = n_mem s ∧ act_ok a s') s.
Proof using Type*.
  intros C. eapply wp_mono; [by apply service_pick_wp |]. intros [[a i] f] s1 (q' & -> & C1 & Hr). split; [done |]. split; [done |]. destruct a; [done | |];
    destruct Hr as (e & e' & q1 & Hi & He & Hres & Hv & -> & Hp & ->); destruct (resolved_frame _ _ _ _ Hres) as (Hfe & _); rewrite <- Hfe.
  - split; [done |]. split; [by eapply verdict_discard |]. exists e'. split; [by eapply picked_slot | done].
  - destruct (verdict_transfer _ _ Hv) as (Hf' & y & Hy & Hpr & Hrb). split; [done |]. split; [done |]. exists (set_slot_busy e'), y.
    assert (Hslot : pop_queue (set_popq (<[Z.to_nat i := picked POP_ACTION_TRANSFER e']> q1) s) !! Z.to_nat i = Some (set_slot_busy e')) by (by eapply picked_slot).
    split; [done |]. split; [done |]. split; [done |]. split; [| done].
    pose proof (Forall_lookup_1 _ _ _ _ (proj2 (c_queue _ _ _ _ _ _ _ C1)) Hslot Hf') as (_ & Hs & _). simpl in Hs |- *.
    unfold verdict in Hv. rewrite (proj2 (Z.eqb_neq _ _) Hf') in Hv. destruct (Z.eqb_spec (pq_socket e') (-1)); [done | lia].
Qed.

Lemma act_wp mine pend vs v held (s : net) a :
  core mine pend vs v held s → act_ok a s → (∀ k, pend k < 2 ^ 31) → wp (service_act table_addr a) (λ _ s', core mine pend vs v held s' ∧ intact mine s s') s.
Proof using Type*.
  intros C Ha Hpend. destruct a as [[a i] f]. destruct a; [unfold service_act; wp_step; split; [done | by apply intact_same] | |].
  - destruct Ha as (Hi & Hf & e & He & <-). eapply wp_mono; [by apply (discard_wp table_addr table_addr_pos mine pend vs v held s i e C) |]. intros [] s' (? & pool & -> & _).
    split; [done | by apply intact_same].
  - destruct Ha as (Hi & Hf & e & y & He & <- & _ & Hj & Hy & Hrb).
    pose proof (Forall_lookup_1 _ _ _ _ (proj2 (c_socks _ _ _ _ _ _ _ C)) Hy) as [(_ & _ & ?)|(_ & _ & [k Hk])]; [done |].
    eapply wp_mono; [by apply (transfer_wp table_addr table_addr_pos mine pend vs v held s i e y k C) |].
    intros [] s' (? & data & sp & pool & σ & Hd & _ & ->). split; [done |].
    pose proof (Forall_lookup_1 _ _ _ _ (c_bufs _ _ _ _ _ _ _ C) Hy Hrb) as (Hb & _ & Ho1 & _ & Ho2 & _ & Ho3 & _ & Ho4).
    destruct Hd as (w & _ & _ & Hl & _). intros x p Hp Hx. cbn [n_mem set_npool set_popq set_nsems set_sockets set_mem]. unfold delivered.
    rewrite !lookup_mput, !decide_False; [done |..]; intros Hin; [eapply (Ho1 x p) | eapply (Ho2 x p) | eapply (Ho3 x p) | eapply (Ho4 x p)]; simpl in Hin; done || lia.
Qed.

(** What others leave alone: a socket on which a call waits, and a packet; but
    one that is not busy may go when another arrives and the queue is full. *)
Definition full (s : net) : Prop := Forall (λ e, frame e ≠ 0) (pop_queue s).
Definition calm (arriving : bool) (s s' : net) : Prop :=
  (∀ j y, open_sockets s !! j = Some y → rbuf y ≠ 0 → open_sockets s' !! j = Some y) ∧
  (∀ i e, pop_queue s !! i = Some e → frame e ≠ 0 → pop_queue s' !! i = Some e ∨ (arriving ∧ busy e = 0 ∧ full s)).

Lemma calm_same b (s s' : net) : open_sockets s' = open_sockets s → pop_queue s' = pop_queue s → calm b s s'.
Proof using Type. intros Eo Eq. split; intros; [by rewrite Eo | left; by rewrite Eq]. Qed.
Lemma calm_socket b (s s' : net) i x y :
  open_sockets s !! i = Some x → rbuf x = 0 → open_sockets s' = <[i := y]> (open_sockets s) → pop_queue s' = pop_queue s → calm b s s'.
Proof using Type.
  intros Hx Hr Eo Eq. split; intros j z Hj Hz; [| left; by rewrite Eq]. rewrite Eo. destruct (decide (j = i)) as [->|]; [congruence |].
  by rewrite list_lookup_insert_ne.
Qed.
Lemma calm_slot (s s' : net) i e e' :
  pop_queue s !! i = Some e → (frame e = 0 ∨ busy e = 0 ∧ full s) → pop_queue s' = <[i := e']> (pop_queue s) → open_sockets s' = open_sockets s → calm true s s'.
Proof using Type.
  intros He Hf Eq Eo. split; intros j z Hj Hz; [by rewrite Eo |]. rewrite Eq. destruct (decide (j = i)) as [->|].
  - assert (z = e) as -> by congruence. destruct Hf; [done | by right].
  - left. by rewrite list_lookup_insert_ne.
Qed.

Definition discarding (a : option (pop_action * Z * Z)) : bool := match a with Some (POP_ACTION_DISCARD, _, _) => true | _ => false end.
Lemma act_kept b a (s s' : net) : calm b s s' → act_ok a s → (b → discarding (Some a) → ¬ full s) → act_ok a s'.
Proof using Type.
  intros [Ho Hq] Ha Hd. destruct a as [[a i] f]. destruct a; [done | |].
  - destruct Ha as (Hi & Hf & e & He & <-). split; [done |]. split; [done |]. exists e. split; [| done].
    destruct (Hq _ _ He Hf) as [?|(Hb & _ & ?)]; [done |]. by destruct (Hd Hb I).
  - destruct Ha as (Hi & Hf & e & y & He & <- & Hb & Hj & Hy & Hrb). split; [done |]. split; [done |]. exists e, y.
    destruct (Hq _ _ He Hf) as [?|(_ & ? & _)]; [| lia]. split_and!; try done. by apply Ho.
Qed.

Lemma service_wait_wp mine pend vs v held (s : net) cpu t :
  core mine pend vs v held s → - 2 ^ 31 < v → sq_caller (sq (n_sems s)) cpu t →
  wp (service_wait table_addr cpu) (λ b s', b = (v <=? 0) ∧ core mine pend vs (v - 1) held s' ∧ n_mem s' = n_mem s) s.
Proof using Type*.
  intros C Hv Hc. pose proof C as [(L & (a & b & c & d & Ea & Eb & Ec & Ed & ->) & Hs) Cpend _ _ _ _ _ _ _].
  unfold service_wait. wp_step. wp_step. rewrite Ed. unfold on_nsems. wp_step.
  assert (Hperm : ∀ w, [(a, 1); (b, 1); (c, vs); (d, w)] ++ omap (sock_sem pend) (open_sockets s) ≡ₚ
    (d, w) :: [(a, 1); (b, 1); (c, vs)] ++ omap (sock_sem pend) (open_sockets s)) by (intros w; solve_Permutation).
  rewrite Hperm in Hs. eapply wp_mono; [apply (P_event_wp table_addr table_addr_pos cpu t d v _ _ Hs Hc Hv) |].
  intros r x [-> Hx]. split; [done |]. split; [| done]. eapply core_set_sems; [done | done |]. intros L' _ _. eexists. split.
  - exists a, b, c, d. split_and!; done.
  - by rewrite Hperm.
Qed.

(** Memory that has changed in a page that is held. *)
Lemma core_new_page mine pend vs v held (s : net) p m :
  core mine pend vs v (p :: held) s → mem_bytes m → (∀ x, ¬ kaddr p ≤ x < kaddr p + PAGE_SIZE → m !! x = n_mem s !! x) →
  region m (kaddr p) PAGE_SIZE → core mine pend vs v (p :: held) (set_mem m s).
Proof using Type*.
  intros [Csems Cpend Csocks Cports Cbufs [Clen Cq] Cpages [Cb Cr] Cifs] Hmb Hm Hr. pose proof Cpages as (b & Hb & Hpg).
  assert (Hpm : p ∈ mine) by (eapply pages_in; [exact Hpg | set_solver]).
  assert (Hreg : ∀ a n, outside mine a n → region (n_mem s) a n → region m a n).
  { intros a n Ho Hra x Hx. rewrite Hm; [by apply Hra | by apply (Ho x p)]. }
  constructor; try done; simpl.
  - eapply Forall_impl; [exact Cbufs |]. simpl. intros x Hx Hx0. destruct (Hx Hx0) as (? & ? & ? & ? & ? & ? & ? & ? & ?).
    split_and!; first [done | lia | by apply Hreg].
  - split; [done |]. apply Forall_lookup. intros i e Hi Hf. destruct (Forall_lookup_1 _ _ _ _ Cq Hi Hf) as (Hfr & Hs & w & Hw & Hwm).
    split; [done |]. split; [done |]. exists w. split; [| done]. intros j x Hj. rewrite Hm; [by apply Hw |].
    assert (Hne : page_of (frame e) ≠ p).
    { intros Ep. pose proof (in_pages_of _ _ _ Hi Hf) as Hin. rewrite Ep in Hin.
      destruct Hpg as (_ & [_ Hnd]%NoDup_cons & _). apply NoDup_app in Hnd as (_ & Hd & _). apply (Hd p); set_solver. }
    apply lookup_lt_Some in Hj. simpl in Hj. unfold payload, kaddr, SIZEOF_FRAME_HEADER, PAGE_SIZE in *. lia.
  - split; [done |]. intros q Hq. destruct (decide (q = p)) as [->|Hne]; [done |]. intros x Hx. rewrite Hm; [by apply (Cr q) |].
    unfold kaddr, PAGE_SIZE in *. lia.
Qed.

(** ** Runs *)

(** What callers of the sockets and the receiving threads do: those get a page,
    wait for a frame in it and, when there is one, pass it on; [N_other] is what
    other code does with the sleep queue, on resources that are not semaphores. *)
Inductive client_op :=
| N_open (cpu proto p : Z)
| N_close (cpu i : Z)
| N_send (cpu i addr dport buf size : Z)
| N_recv (cpu i addr sport_ptr buf buflength length : Z)
| N_wait (cpu i : Z)
| N_page
| N_dma (interface phys : Z)
| N_push (cpu phys : Z)
| N_other (q : Q).

Definition run_client (o : client_op) : K net (Z * Z) :=
  match o with
  | N_open cpu proto p => r ← socket_open table_addr cpu proto p; mret (r, 0)
  | N_close cpu i => socket_close table_addr cpu i;; mret (0, 0)
  | N_send cpu i addr dport buf size => r ← socket_sendto table_addr cpu i addr dport buf size; mret (r, 0)
  | N_recv cpu i addr sp buf n len => b ← recvfrom_start table_addr cpu i addr sp buf n len; mret (Z.b2z b, 0)
  | N_wait cpu i => b ← recvfrom_wait table_addr cpu i; mret (Z.b2z b, 0)
  | N_page => a ← receive_page 1 0; mret (a, 0)
  | N_dma i phys => r ← receive_dma i phys; mret (r, phys)
  | N_push cpu phys => r ← receive_push table_addr cpu 0 phys; mret (r, phys)
  | N_other q => modify (λ s, set_nsems (mk_sems (semaphore_table (n_sems s)) (sem_next (n_sems s)) q) s);; mret (0, 0)
  end.

(** The semaphore of a socket. *)
Definition sem_of (s : net) (i : Z) : option Z := x ← open_sockets s !! Z.to_nat i; receive_complete x.
Definition bump (d : Z) (k : option Z) (pend : Z → Z) : Z → Z :=
  match k with Some k => set_pend k (pend k + d) pend | None => pend end.

(** After an operation: the calls between asking and waiting, by semaphore; the
    pages that the receiving threads hold, and of these the ones with a frame
    that has not been passed on. *)
Definition pend_after (s : net) (o : client_op) (r : Z * Z) (s' : net) (pend : Z → Z) : Z → Z :=
  match o with
  | N_open _ _ _ => if fst r <? 0 then pend else match sem_of s' (fst r) with Some k => set_pend k 0 pend | None => pend end
  | N_recv _ i _ _ _ _ _ => if fst r =? 1 then bump 1 (sem_of s i) pend else pend
  | N_wait _ i => bump (-1) (sem_of s i) pend
  | _ => pend
  end.
Definition held_after (o : client_op) (r : Z * Z) (held : gset Z) : gset Z :=
  match o with
  | N_page => {[fst r / PAGE_SIZE]} ∪ held
  | N_dma _ _ => if fst r =? 0 then held ∖ {[snd r / PAGE_SIZE]} else held
  | N_push _ _ => if fst r =? 0 then {[snd r / PAGE_SIZE]} ∪ held else held
  | _ => held
  end.
Definition filled_after (o : client_op) (r : Z * Z) (filled : gset Z) : gset Z :=
  match o with
  | N_dma _ _ => if fst r =? 0 then {[snd r / PAGE_SIZE]} ∪ filled else filled
  | N_push _ _ => filled ∖ {[snd r / PAGE_SIZE]}
  | _ => filled
  end.

(** The service thread has been signalled fewer than 2^31 times more than it has
    waited. *)
Definition service_room (s : net) : Prop :=
  ∃ d v, pop_service_thread_sem s = Some d ∧ sem_at (n_sems s) d v ∧ - 2 ^ 31 < v < 2 ^ 31 - 1.

(** What the caller of an operation sees to. *)
Definition client_enabled (mine : gset Z) (pend : Z → Z) (held filled : gset Z) (s : net) (o : client_op) : Prop :=
  match o with
  | N_open cpu proto p => 0 ≤ cpu < CONFIG_MAX_CPUS ∧ 0 ≤ p < 2 ^ 16
  | N_close cpu i => 0 ≤ i < 64 ∧ ∀ x, open_sockets s !! Z.to_nat i = Some x → rbuf x = 0 ∧ ∀ k, receive_complete x = Some k → pend k = 0
  | N_send cpu i addr dport buf size =>
      0 ≤ i < 64 ∧ 1 ≤ size < 2 ^ 31 ∧ buf ≠ 0 ∧ region (n_mem s) buf size ∧ outside mine buf size ∧ service_room s
  | N_recv cpu i addr sp buf n len =>
      0 ≤ i < 64 ∧ 1 ≤ n < 2 ^ 31 ∧ buf ≠ 0 ∧ addr ≠ 0 ∧ sp ≠ 0 ∧ len ≠ 0 ∧ service_room s ∧
      buffer_ok mine (n_mem s) (mk_sock 0 0 None buf (u32 n) addr len sp)
  | N_wait cpu i => 0 ≤ i < 64 ∧ (∃ t, sq_caller (sq (n_sems s)) cpu t) ∧ ∃ k, sem_of s i = Some k ∧ 1 ≤ pend k
  | N_page => True
  | N_dma i phys => 0 ≤ i < 4 ∧ ∃ p, p ∈ held ∧ phys = p * PAGE_SIZE
  | N_push cpu phys => service_room s ∧ ∃ p, p ∈ filled ∧ phys = p * PAGE_SIZE
  | N_other q => sq_inv q ∧ ∀ i, 0 ≤ i → sq_waiters q (sem_addr table_addr i) = sem_waiters table_addr (n_sems s) i
  end.

(** The operations that put packets into the queue. *)
Definition arrives (o : client_op) : bool := match o with N_send _ _ _ _ _ _ | N_push _ _ => true | _ => false end.

(** The two places where the kernel panics: a receiving thread gets no page;
    and, without interfaces, a packet is sent that does not fit into a frame. *)
Definition panics (s : net) (o : client_op) : Prop :=
  match o with
  | N_page => free_pages (n_pool s) = ∅
  | N_send cpu i addr dport buf size =>
      dport ≠ 0 ∧ (∃ x, open_sockets s !! Z.to_nat i = Some x ∧ protocol x = PROTOCOL_POP) ∧ too_long s size
  | _ => False
  end.

(** The callers, the pages that are held without and with a frame, and what the
    service thread has found to do, beside the network itself. *)
Record net_run := mk_run { r_pend : Z → Z; r_held : gset Z; r_filled : gset Z; r_act : option (pop_action * Z * Z); r_net : net }.

(** A turn of the service thread is [N_pick], with the locks, and then, without
    them, [N_act] or, if there was nothing to do, [N_sleep]. *)
Inductive net_op := N_client (o : client_op) | N_pick (cpu : Z) | N_act | N_sleep (cpu : Z).

Definition run_net (o : net_op) (c : net_run) : res net_run :=
  match o with
  | N_client o => x ← run_client o (r_net c); Ok (mk_run (pend_after (r_net c) o (fst x) (snd x) (r_pend c)) (held_after o (fst x) (r_held c)) (filled_after o (fst x) (r_filled c)) (r_act c) (snd x))
  | N_pick cpu => x ← service_pick table_addr cpu (r_net c); Ok (mk_run (r_pend c) (r_held c) (r_filled c) (Some (fst x)) (snd x))
  | N_act =>
      match r_act c with
      | Some a => x ← service_act table_addr a (r_net c); Ok (mk_run (r_pend c) (r_held c) (r_filled c) None (snd x))
      | None => Undef
      end
  | N_sleep cpu => x ← service_wait table_addr cpu (r_net c); Ok (mk_run (r_pend c) (r_held c) (r_filled c) None (snd x))
  end.

(** While a packet is being discarded, which is not marked as busy, no packet
    may replace it: then none arrives when the queue is full. *)
Definition may_arrive (c : net_run) (o : client_op) : Prop := arrives o → discarding (r_act c) → ¬ full (r_net c).

Definition net_enabled (mine : gset Z) (c : net_run) (o : net_op) : Prop :=
  match o with
  | N_client o => client_enabled mine (r_pend c) (r_held c) (r_filled c) (r_net c) o ∧ may_arrive c o
  | N_pick cpu => r_act c = None
  | N_act => (∃ a i f, r_act c = Some (a, i, f) ∧ a ≠ POP_ACTION_NONE) ∧ ∀ k, r_pend c k < 2 ^ 31
  | N_sleep cpu => (∃ i f, r_act c = Some (POP_ACTION_NONE, i, f)) ∧ (∃ t, sq_caller (sq (n_sems (r_net c))) cpu t) ∧ service_room (r_net c)
  end.

Definition run_panics (c : net_run) (o : net_op) : Prop := match o with N_client o => panics (r_net c) o | _ => False end.

Definition net_core (mine : gset Z) (pend : Z → Z) (held filled : gset Z) (s : net) : Prop :=
  (∃ v, core mine pend 1 v (elements held ++ elements filled) s) ∧ ∀ p, p ∈ filled → packet_ok (n_mem s) (payload p).
Definition net_inv (mine : gset Z) (c : net_run) : Prop :=
  net_core mine (r_pend c) (r_held c) (r_filled c) (r_net c) ∧ match r_act c with Some a => act_ok a (r_net c) | None => True end.

Inductive net_step (mine : gset Z) (c : net_run) : net_run → Prop :=
| net_do o c' : net_enabled mine c o → run_net o c = Ok c' → net_step mine c c'.

Lemma service_value mine pend vs v held (s : net) : core mine pend vs v held s → service_room s → - 2 ^ 31 < v < 2 ^ 31 - 1.
Proof using Type.
  intros C (d & w & Ed & Hd & Hw). destruct (core_sem_at _ _ _ _ _ _ _ C) as (_ & _ & _ & d' & _ & _ & _ & Ed' & _ & _ & _ & Hd' & _).
  assert (d' = d) as -> by congruence. by rewrite (sem_at_inj _ _ _ _ Hd' Hd).
Qed.

Lemma core_pend mine pend pend' vs v held (s : net) : core mine pend vs v held s → (∀ k, pend' k = pend k) → core mine pend' vs v held s.
Proof using Type.
  intros [(L & (a & b & c & d & Ea & Eb & Ec & Ed & ->) & Hs) Cpend Csocks Cports Cbufs Cq Cpages Cm Cifs] Hp. constructor; try done.
  - eexists. split; [by exists a, b, c, d |]. rewrite (sock_sem_pend pend pend'); [done |]. intros k _. apply Hp.
  - intros k. by rewrite Hp.
Qed.

Lemma socket_at mine pend vs v held (s : net) i : core mine pend vs v held s → 0 ≤ i < 64 → ∃ x, open_sockets s !! Z.to_nat i = Some x.
Proof using Type. intros C Hi. pose proof (c_socks _ _ _ _ _ _ _ C) as [Hl _]. apply lookup_lt_is_Some_2. lia. Qed.

(** The pages with frames keep them. *)
Lemma net_core_next mine pend pend' v' held filled (s s' : net) :
  net_core mine pend held filled s → core mine pend' 1 v' (elements held ++ elements filled) s' → intact filled s s' →
  net_core mine pend' held filled s'.
Proof using Type*. intros [_ Hf] C' Hi. split; [by exists v' |]. intros p Hp. eapply intact_packet; [exact Hi | done | by apply Hf]. Qed.

Lemma filled_mine mine pend vs v held filled (s : net) :
  core mine pend vs v (elements held ++ elements filled) s → filled ⊆ mine ∧ filled ## send_pages s ∧ held ## filled.
Proof using Type*.
  intros C. destruct (c_pages _ _ _ _ _ _ _ C) as (b & Eb & Hpg).
  assert (Hin : ∀ p, p ∈ filled → p ∈ b :: pages_of (pop_queue s) ++ elements held ++ elements filled) by set_solver.
  split; [intros p Hp; by eapply pages_in, Hin |]. pose proof Hpg as (_ & [Hb Hnd]%NoDup_cons & _ & _ & Hd). split.
  - intros p Hp Hin2. unfold send_pages in Hin2. apply elem_of_union in Hin2 as [Ep|Hq].
    + apply elem_of_singleton in Ep. rewrite Eb, page_of_kaddr in Ep. subst p. apply Hb. set_solver.
    + by apply (pages_in _ _ _ _ Hpg (Hin _ Hp)).
  - intros p Hp Hq. apply NoDup_app in Hnd as (_ & _ & Hnd). apply NoDup_app in Hnd as (_ & Hd' & _).
    apply (Hd' p); by apply elem_of_elements.
Qed.

Lemma open_op_wp mine pend held filled (s : net) cpu proto p :
  net_core mine pend held filled s → 0 ≤ cpu < CONFIG_MAX_CPUS → 0 ≤ p < 2 ^ 16 →
  wp (run_client (N_open cpu proto p)) (λ r s', net_core mine (pend_after s (N_open cpu proto p) r s' pend) held filled s' ∧ calm false s s') s.
Proof using Type*.
  intros N Hcpu Hp. pose proof N as [[v C] _]. simpl run_client. wp_step. eapply wp_mono; [by apply (socket_open_wp table_addr table_addr_pos _ _ _ _ _ _ cpu proto p C) |].
  intros r s' [(-> & C' & _ & σ & Es)|(Hr & _ & x & q & k & σ & Hx & Hx0 & _ & Es & C')]; wp_step.
  { split; [by eapply net_core_next; [done | done | rewrite Es; apply intact_same] | by rewrite Es; apply calm_same]. }
  assert (Hrb : rbuf x = 0).
  { pose proof (Forall_lookup_1 _ _ _ _ (proj2 (c_socks _ _ _ _ _ _ _ C)) Hx) as [(_ & _ & ?)|([?|[? _]] & _)]; [done | by rewrite Hx0 in *..]. }
  split; [simpl pend_after | by rewrite Es; eapply calm_socket].
  rewrite (proj2 (Z.ltb_ge r 0)) by lia. unfold sem_of. rewrite Es at 1. simpl open_sockets.
  rewrite list_lookup_insert_eq by (by eapply lookup_lt_Some).
  eapply net_core_next; [done | exact C' | by rewrite Es; apply intact_same].
Qed.

Lemma send_op_wp mine pend held filled (s : net) cpu i addr dport buf size :
  net_core mine pend held filled s → client_enabled mine pend held filled s (N_send cpu i addr dport buf size) →
  ¬ panics s (N_send cpu i addr dport buf size) →
  wp (run_client (N_send cpu i addr dport buf size)) (λ r s', net_core mine pend held filled s' ∧ calm true s s') s.
Proof using Type*.
  intros N (Hi & Hsize & Hbuf & Hreg & Hout & Hroom) Hnp. pose proof N as [[v C] _]. pose proof (service_value _ _ _ _ _ _ C Hroom) as Hv.
  destruct (filled_mine _ _ _ _ _ _ _ C) as (_ & Hdis & _).
  destruct (socket_at _ _ _ _ _ _ i C Hi) as [x Hx]. destruct (region_has _ buf size ltac:(lia) Hreg) as (data & Hdl & Hdata).
  simpl run_client. wp_step. eapply wp_mono; [apply (sendto_wp table_addr table_addr_pos mine pend v _ s cpu i addr dport buf size data x C); try done; try lia |].
  { intros (Hdp & Hpr & Hlong). apply Hnp. split; [done |]. split; [by exists x | done]. }
  intros r s' [(_ & -> & _)|[(_ & _ & _ & _ & C' & p & j & e & now & g & m & pool & σ & _ & _ & Hm & Hj & Hf & ->)|(_ & _ & C' & (g & pool & m & σ & -> & Hm) & _)]]; wp_step.
  - split; [done | by apply calm_same].
  - split; [eapply net_core_next; [done | exact C' | by eapply intact_outside] | by eapply calm_slot].
  - split; [eapply net_core_next; [done | exact C' | by eapply intact_outside] | by apply calm_same].
Qed.

Lemma recv_op_wp mine pend held filled (s : net) cpu i addr sp buf n len :
  net_core mine pend held filled s → client_enabled mine pend held filled s (N_recv cpu i addr sp buf n len) →
  wp (run_client (N_recv cpu i addr sp buf n len)) (λ r s', net_core mine (pend_after s (N_recv cpu i addr sp buf n len) r s' pend) held filled s' ∧ calm false s s') s.
Proof using Type*.
  intros N (Hi & Hn & Hbuf & Haddr & Hsp & Hlen & Hroom & Hok). pose proof N as [[v C] _]. pose proof (service_value _ _ _ _ _ _ C Hroom) as Hv.
  destruct (socket_at _ _ _ _ _ _ i C Hi) as [x Hx]. simpl run_client. wp_step.
  eapply wp_mono; [apply (recvfrom_start_wp table_addr table_addr_pos mine pend 1 v _ s cpu i x addr sp buf n len C); try done; lia |].
  intros r s' [(-> & -> & _)|(-> & _ & Hrb & k & σ & Hk & Es & C')]; wp_step.
  { split; [done | by apply calm_same]. }
  split; [simpl pend_after | by rewrite Es; eapply calm_socket].
  unfold bump, sem_of. rewrite Hx. simpl. rewrite Hk. eapply net_core_next; [done | exact C' | by rewrite Es; apply intact_same].
Qed.

Lemma wait_op_wp mine pend held filled (s : net) cpu i :
  net_core mine pend held filled s → client_enabled mine pend held filled s (N_wait cpu i) →
  wp (run_client (N_wait cpu i)) (λ r s', net_core mine (pend_after s (N_wait cpu i) r s' pend) held filled s' ∧ calm false s s') s.
Proof using Type*.
  intros N (Hi & Hc & k & Hk & Hpk). pose proof N as [[v C] _]. simpl run_client. simpl pend_after. rewrite Hk. simpl bump. unfold sem_of in Hk.
  destruct (open_sockets s !! Z.to_nat i) as [x|] eqn:Hx; [| done]. simpl in Hk. wp_step.
  eapply wp_mono; [apply (recvfrom_wait_wp table_addr table_addr_pos mine pend 1 v _ s cpu i x k C); [lia | done | done | done | by left] |].
  intros b s' (_ & C' & σ & ->). wp_step. split; [eapply net_core_next; [done | exact C' | by apply intact_same] | by apply calm_same].
Qed.

(** *** The receiving threads *)

Lemma elements_add (p : Z) (X : gset Z) : p ∉ X → p :: elements X ≡ₚ elements ({[p]} ∪ X).
Proof using Type. intros Hp. by rewrite elements_union_singleton. Qed.

Lemma page_op_wp mine pend held filled (s : net) :
  net_core mine pend held filled s →
  (free_pages (n_pool s) = ∅ ∧ ∃ msg, run_client N_page s = Panic msg) ∨
  free_pages (n_pool s) ≠ ∅ ∧ wp (run_client N_page) (λ r s', net_core mine pend (held_after N_page r held) filled s' ∧ calm false s s') s.
Proof using Type*.
  intros N. pose proof N as [[v C] _].
  pose proof (take_page_wp table_addr _ _ _ _ _ _ C) as (a & s1 & Ea & [(-> & He & ->)|(p & pool & -> & Hp & Hpf & -> & C1)])%wp_iff.
  - left. split; [done |]. exists "Assertion failed"%string. simpl run_client. unfold receive_page, mbind, K_bind. simpl. by rewrite Ea.
  - right. split; [set_solver |]. simpl run_client. unfold receive_page. simpl negb. cbv iota. unfold wp.
    assert (Et : (a ← on_npool get_phys_page; kassert (negb (a =? 0));; mret a) s = Ok (p * PAGE_SIZE, set_npool pool s)).
    { rewrite (bind_Ok _ _ _ _ _ Ea), bind_kassert; [done |]. apply negb_true_iff, Z.eqb_neq. unfold PAGE_SIZE. lia. }
    rewrite (bind_Ok _ _ _ _ _ Et). split; [| by apply calm_same]. simpl held_after. rewrite Z.div_mul by done.
    destruct N as [_ Hf]. split; [| exact Hf]. exists v. eapply core_held_perm; [| exact C1].
    rewrite <- elements_add; [done |]. destruct (c_pages _ _ _ _ _ _ _ C1) as (b & _ & _ & [_ Hnd]%NoDup_cons & _).
    apply NoDup_app in Hnd as (_ & _ & [Hnp _]%NoDup_cons). set_solver.
Qed.

Lemma dma_op_wp mine pend held filled (s : net) i phys :
  net_core mine pend held filled s → client_enabled mine pend held filled s (N_dma i phys) →
  run_client (N_dma i phys) s = Block ∨
  wp (run_client (N_dma i phys)) (λ r s', net_core mine pend (held_after (N_dma i phys) r held) (filled_after (N_dma i phys) r filled) s' ∧ calm false s s') s.
Proof using Type*.
  intros [[v C] Hf] (Hi & p & Hp & ->). pose proof (c_ifs _ _ _ _ _ _ _ C) as [Hl _]. destruct (filled_mine _ _ _ _ _ _ _ C) as (_ & _ & Hdis).
  destruct (lookup_lt_is_Some_2 (network_interfaces s) (Z.to_nat i)) as [x Hx]; [lia |].
  assert (Ex : get_interface i s = Ok (x, s)).
  { unfold get_interface. rewrite bind_gets. unfold pure. by rewrite (proj2 (aget_Ok _ _ _) (conj (proj1 Hi) Hx)). }
  assert (Hperm : elements held ++ elements filled ≡ₚ p :: (elements (held ∖ {[p]}) ++ elements filled)) by (by rewrite (elements_split p held Hp)).
  pose proof (core_held_perm _ _ _ _ _ _ _ _ Hperm C) as C1. pose proof (c_mem _ _ _ _ _ _ _ C1) as [Cb Cr]. destruct (c_pages _ _ _ _ _ _ _ C1) as (b & _ & Hpg).
  assert (Hpm : p ∈ mine) by (eapply pages_in; [exact Hpg | set_solver]). simpl run_client.
  destruct (recv_law (gnd x) p (n_dev s) (n_mem s) Cb (Cr p Hpm)) as [E|(r & g' & m' & E & Hmb & Hm & Hr & Hpk)].
  { left. unfold receive_dma, mbind, K_bind, on_dma, zoom. by rewrite Ex, E. }
  right. unfold receive_dma, wp, mbind, K_bind, on_dma, zoom, mret, K_ret. rewrite Ex, E. simpl. split; [| by apply calm_same]. rewrite Z.div_mul by done.
  assert (C2 : core mine pend 1 v (p :: elements (held ∖ {[p]}) ++ elements filled) (set_mem m' (set_dev g' s))).
  { apply core_new_page; [by apply core_dev | done | done | done]. }
  assert (Hkeep : intact filled s (set_mem m' (set_dev g' s))).
  { intros y q Hq Hy. apply Hm. intros Hyp. assert (q = p) as -> by (unfold kaddr, PAGE_SIZE in *; lia). by apply (Hdis p). }
  destruct (Z.eqb_spec r 0) as [->|Hr0].
  - split.
    + exists v. eapply core_held_perm; [| exact C2]. rewrite <- elements_add by (intros Hq; by apply (Hdis p)). by rewrite Permutation_middle.
    + intros q [->%elem_of_singleton|Hq]%elem_of_union; [by apply Hpk |]. eapply intact_packet; [exact Hkeep | done | by apply Hf].
  - split; [exists v; eapply core_held_perm; [symmetry; exact Hperm | exact C2] |].
    intros q Hq. eapply intact_packet; [exact Hkeep | done | by apply Hf].
Qed.

Lemma push_op_wp mine pend held filled (s : net) cpu phys :
  net_core mine pend held filled s → client_enabled mine pend held filled s (N_push cpu phys) →
  wp (run_client (N_push cpu phys)) (λ r s', net_core mine pend (held_after (N_push cpu phys) r held) (filled_after (N_push cpu phys) r filled) s' ∧ calm true s s') s.
Proof using Type*.
  intros [[v C] Hf] (Hroom & p & Hp & ->). pose proof (service_value _ _ _ _ _ _ C Hroom) as Hv. destruct (filled_mine _ _ _ _ _ _ _ C) as (Hmine & _ & Hdis).
  assert (Hperm : elements held ++ elements filled ≡ₚ p :: (elements held ++ elements (filled ∖ {[p]}))).
  { rewrite (elements_split p filled Hp). by rewrite Permutation_middle. }
  pose proof (core_held_perm _ _ _ _ _ _ _ _ Hperm C) as C1. destruct (c_pages _ _ _ _ _ _ _ C1) as (b & _ & Hpg).
  destruct (pages_in _ _ _ p Hpg ltac:(set_solver)) as (_ & Hpr & _).
  simpl run_client. unfold receive_push. cbn [Z.eqb]. rewrite phys_to_kernel by lia. wp_step.
  eapply wp_mono; [apply (receive_frame_wp table_addr table_addr_pos mine pend 1 v _ s cpu p C1); [by apply Hf | lia] |].
  intros r s' [(-> & C2 & [g ->] & _)|(-> & C2 & src & _ & _ & i & e & now & g2 & He & Hfe & Es2)]; wp_step; simpl; rewrite Z.div_mul by done.
  - split; [| by apply calm_same]. split.
    + exists v. eapply core_held_perm; [| exact C2]. by rewrite <- elements_add by (intros Hq; by apply (Hdis p)).
    + intros q Hq. apply Hf. set_solver.
  - split; [| eapply (calm_slot _ _ i e); [exact He | | by rewrite Es2 | by rewrite Es2]; destruct Hfe as [[? _]|?]; [by left | by right]]. split; [by exists (v + 1) |].
    rewrite Es2. intros q Hq. apply Hf. set_solver.
Qed.

Lemma client_op_wp mine pend held filled (s : net) o :
  net_core mine pend held filled s → client_enabled mine pend held filled s o → ¬ panics s o →
  ((∃ i phys, o = N_dma i phys) ∧ run_client o s = Block) ∨
  wp (run_client o) (λ r s', net_core mine (pend_after s o r s' pend) (held_after o r held) (filled_after o r filled) s' ∧ calm (arrives o) s s') s.
Proof using Type*.
  intros N Hen Hnp. destruct o as [cpu proto p|cpu i|cpu i addr dport buf size|cpu i addr sp buf n len|cpu i| |i phys|cpu phys|q].
  - right. destruct Hen as [Hcpu Hp]. exact (open_op_wp mine pend held filled s cpu proto p N Hcpu Hp).
  - right. pose proof N as [[v C] _]. destruct Hen as [Hi Hx]. destruct (socket_at _ _ _ _ _ _ i C Hi) as [x Ex]. destruct (Hx x Ex) as [Hrb Hk].
    simpl run_client. wp_step. eapply wp_mono; [by apply (socket_close_wp table_addr table_addr_pos _ _ _ _ _ _ cpu i x C) |].
    intros [] s' [C' Hs']. wp_step. destruct (decide _).
    + subst s'. split; [done | by apply calm_same].
    + destruct Hs' as [σ Es]. split; [eapply net_core_next; [done | exact C' | by rewrite Es; apply intact_same] | by rewrite Es; eapply calm_socket].
  - right. exact (send_op_wp mine pend held filled s _ _ _ _ _ _ N Hen Hnp).
  - right. exact (recv_op_wp mine pend held filled s _ _ _ _ _ _ _ N Hen).
  - right. exact (wait_op_wp mine pend held filled s _ _ N Hen).
  - right. destruct (page_op_wp mine pend held filled s N) as [[? _]|[_ Hw]]; [done | exact Hw].
  - destruct (dma_op_wp mine pend held filled s i phys N Hen) as [Hb|Hw]; [left | by right]. split; [by eexists _, _ | done].
  - right. exact (push_op_wp mine pend held filled s _ _ N Hen).
  - right. pose proof N as [[v C] _]. destruct Hen as [Hq Hw]. simpl run_client. wp_step. wp_step. wp_step. split; [| by apply calm_same].
    eapply net_core_next; [done | | by apply intact_same].
    eapply core_set_sems; [exact C | apply C |]. intros L HL Hs. exists L. split; [done |]. destruct Hs as (Hi & Hnd & Hall).
    split; [by apply sem_inv_queue |]. done.
Qed.

Lemma client_panics mine pend held filled (s : net) o :
  net_core mine pend held filled s → client_enabled mine pend held filled s o → panics s o → ∃ msg, run_client o s = Panic msg.
Proof using Type*.
  intros N Hen Hp. destruct o as [| |cpu i addr dport buf size| | | | | |]; try done.
  - destruct Hen as (Hi & Hsize & Hbuf & Hreg & Hout & _). destruct Hp as (Hdp & (x & Hx & Hpr) & Hlong). pose proof N as [[v C] _].
    destruct (region_has _ buf size ltac:(lia) Hreg) as (data & Hdl & Hdata).
    destruct (sendto_panics table_addr table_addr_pos mine pend v _ s cpu i addr dport buf size data x C) as [msg E]; try done; try lia.
    exists msg. simpl run_client. unfold mbind, K_bind. by rewrite E.
  - by destruct (page_op_wp _ _ _ _ _ N) as [[_ ?]|[? _]].
Qed.

(** Every operation that is enabled returns and keeps the invariant, or panics
    where it must. *)
Lemma net_op_inv mine (c : net_run) o :
  net_inv mine c → net_enabled mine c o → ¬ run_panics c o →
  ((∃ i phys, o = N_client (N_dma i phys)) ∧ run_net o c = Block) ∨ ∃ c', run_net o c = Ok c' ∧ net_inv mine c'.
Proof using Type*.
  intros [N Ha] Hen Hnp. destruct o as [o|cpu| |cpu]; simpl run_net.
  - destruct Hen as [Hen Hmay]. destruct (client_op_wp _ _ _ _ _ _ N Hen Hnp) as [[(i & phys & ->) Hb]|(r & s' & E & N' & Hcalm)%wp_iff].
    + left. split; [by eexists _, _ | by rewrite Hb].
    + right. rewrite E. eexists. split; [done |]. split; [done |]. simpl. destruct (r_act c) as [a|] eqn:Ea; [| done].
      eapply (act_kept (arrives o) _ (r_net c)); [done | done |]. unfold may_arrive in Hmay. by rewrite Ea in Hmay.
  - right. pose proof N as [[v C] _]. destruct (proj1 (wp_iff _ _ _) (pick_wp _ _ _ _ _ _ cpu C)) as (a & s' & E & C' & Em & Ha'). rewrite E.
    eexists. split; [done |]. split; [eapply net_core_next; [exact N | exact C' | by apply intact_same] | done].
  - right. destruct Hen as [(a & i & f & Ea & _) Hp]. rewrite Ea in *. pose proof N as [[v C] _]. destruct (filled_mine _ _ _ _ _ _ _ C) as (Hm & _).
    destruct (proj1 (wp_iff _ _ _) (act_wp _ _ _ _ _ _ _ C Ha Hp)) as (r & s' & E & C' & Hi). rewrite E. eexists. split; [done |].
    split; [eapply net_core_next; [exact N | exact C' |] | done]. intros x p Hpf. apply Hi. set_solver.
  - right. destruct Hen as (_ & [t Ht] & Hroom). pose proof N as [[v C] _]. pose proof (service_value _ _ _ _ _ _ C Hroom) as Hv.
    destruct (proj1 (wp_iff _ _ _) (service_wait_wp _ _ _ _ _ _ cpu t C ltac:(lia) Ht)) as (r & s' & E & _ & C' & Em). rewrite E.
    eexists. split; [done |]. split; [eapply net_core_next; [exact N | exact C' | by apply intact_same] | done].
Qed.

Lemma net_panics mine (c : net_run) o : net_inv mine c → net_enabled mine c o → run_panics c o → ∃ msg, run_net o c = Panic msg.
Proof using Type*.
  intros [N _] Hen Hp. destruct o as [o| | |]; try done. destruct Hen as [Hen _].
  destruct (client_panics _ _ _ _ _ _ N Hen Hp) as [msg E]. exists msg. simpl run_net. by rewrite E.
Qed.

Lemma net_inv_reach mine c0 c : net_inv mine c0 → rtc (net_step mine) c0 c → net_inv mine c.
Proof using Type*.
  intros Hi Hr. induction Hr as [c|c c1 c2 [o c' Hen Hrun] _ IH]; [done |]. apply IH.
  assert (Hnp : ¬ run_panics c o) by (intros Hp; destruct (net_panics _ _ _ Hi Hen Hp); congruence).
  destruct (net_op_inv _ _ _ Hi Hen Hnp) as [[_ Hb]|(c3 & E & ?)]; congruence.
Qed.

Lemma core_sock_sem mine pend vs v held (s : net) i x k :
  core mine pend vs v held s → open_sockets s !! i = Some x → receive_complete x = Some k → sem_at (n_sems s) k (pend k - asked x).
Proof using Type.
  intros C Hx Hk. destruct (core_socket table_addr _ _ _ _ _ _ _ _ C Hx) as ((F & _ & Hs) & _).
  eapply sems_are_at; [| exact Hs]. unfold sock_sem at 1. rewrite Hk. apply list_elem_of_here.
Qed.


End turns.
