(* ===== verification/NetLoop.v ===== *)
(** * The network: a packet on its way

    A packet that is sent on the loopback address is delivered; and a network on
    which the theorems of the network are tried. *)

From stdpp Require Import gmap.
From S2P Require Import Prelude Kmalloc Pagepool Sched SchedSpec Semaphore Libc TfsDir Devices Vm Net NetSpec NetRun NetSock NetServe NetThm.
Local Open Scope Z_scope.

Section loopback.
Context {G : Type} `{NetLaws G} {P : Type} `{PageAlloc P} {Q : Type} `{SleepQueue Q}.
Context (table_addr : Z) (table_addr_pos : 0 < table_addr).
Abbreviation net := (@net G P Q).
Abbreviation core := (@core G P _ Q _ table_addr).

Lemma recipient_is l dest d y :
  length l = 64%nat → NoDup (used_ports l) → 0 ≤ d → l !! Z.to_nat d = Some y → protocol y = PROTOCOL_POP → port y = dest → recipient l dest = Some d.
Proof using Type.
  intros Hl Hnd Hd Hy Hpr Hp. pose proof (lookup_lt_Some _ _ _ Hy) as Hlt. unfold recipient. destruct (find_idx _ _ _) as [j|] eqn:E.
  - f_equal. apply find_idx_Some in E as (Hj & Hlj & _). unfold listens in Hlj. destruct (l !! Z.to_nat j) as [z|] eqn:Hz; [| done]. bool_prop.
    assert (Z.to_nat j = Z.to_nat d); [| lia]. unfold PROTOCOL_POP in *. apply (port_unique l _ _ z y Hnd Hz Hy); lia.
  - exfalso. rewrite find_idx_None in E. specialize (E d). unfold listens, CONFIG_MAX_OPEN_SOCKETS in E. rewrite Hy, Hpr, Hp, !Z.eqb_refl in E.
    by discriminate E; lia.
Qed.

Lemma resolved_empty l m e e' : frame e = 0 → resolved l m e e' → e' = e ∧ verdict l e' = None.
Proof using Type. intros Hf. unfold resolved. rewrite Hf. simpl. intros ->. split; [done |]. unfold verdict. by rewrite Hf. Qed.

(** The service thread takes the only packet there is. *)
Lemma pick_only l m q q' i e d y dest r :
  length l = 64%nat → NoDup (used_ports l) → length q = 32%nat → q !! i = Some e → frame e ≠ 0 → pq_socket e = -1 →
  (∀ j e0, j ≠ i → q !! j = Some e0 → frame e0 = 0) → has m (frame e + 2) (bytes16 dest) → 0 ≤ dest < 2 ^ 16 →
  0 ≤ d → l !! Z.to_nat d = Some y → protocol y = PROTOCOL_POP → port y = dest → rbuf y ≠ 0 →
  pick_result l m q q' r →
  r = (POP_ACTION_TRANSFER, Z.of_nat i, frame e) ∧ q' !! i = Some (set_slot_busy (set_slot_socket d e)) ∧
  ∀ j e0, j ≠ i → q' !! j = Some e0 → frame e0 = 0.
Proof using Type.
  intros Hl Hnd Hql Hi Hf Hs0 Hoth Hdest Hdr Hd Hy Hpr Hport Hrb Hr.
  assert (Hres : ∀ e', resolved l m e e' → e' = set_slot_socket d e ∧ verdict l e' = Some POP_ACTION_TRANSFER).
  { intros e' He'. unfold resolved in He'. rewrite (proj2 (Z.eqb_neq _ _) Hf), Hs0 in He'. destruct He' as (dest' & Hr' & Hh' & ->).
    rewrite (half_inj _ _ _ _ Hh' Hdest Hr' Hdr), (recipient_is l dest d y) by done. split; [done |].
    unfold verdict, set_slot_socket. simpl. rewrite (proj2 (Z.eqb_neq _ _) Hf), (proj2 (Z.eqb_neq d (-1))), Hy, Hpr, (proj2 (Z.eqb_neq _ _) Hrb) by lia. done. }
  assert (Hact : ∀ a j f, a ≠ POP_ACTION_NONE → (∃ e1 e' q1, 0 ≤ j ∧ q !! Z.to_nat j = Some e1 ∧ resolved l m e1 e' ∧ verdict l e' = Some a ∧ f = frame e1 ∧
    passed l m q q1 (Z.to_nat j) ∧ q' = <[Z.to_nat j := picked a e']> q1) → a = POP_ACTION_TRANSFER ∧ j = Z.of_nat i ∧ f = frame e ∧
    q' !! i = Some (set_slot_busy (set_slot_socket d e)) ∧ ∀ j e0, j ≠ i → q' !! j = Some e0 → frame e0 = 0).
  { intros a j f Ha (e1 & e' & q1 & Hj & He1 & Hre & Hv & -> & Hp & ->). destruct (decide (Z.to_nat j = i)) as [<-|Hne].
    2: { destruct (resolved_empty l m e1 e' (Hoth _ _ Hne He1) Hre) as [_ Hv0]. congruence. }
    rewrite Hi in He1. injection He1 as <-. destruct (Hres e' Hre) as [-> Hv1]. assert (a = POP_ACTION_TRANSFER) as -> by congruence.
    split; [done |]. split; [lia |]. split; [done |]. split; [by eapply picked_slot |]. destruct Hp as (Hlen & Hbelow & Habove).
    intros k e0 Hk He0. rewrite list_lookup_insert_ne in He0 by done. destruct (decide (k < Z.to_nat j)%nat) as [Hlt|].
    - destruct (lookup_lt_is_Some_2 q k) as [e2 He2]; [apply lookup_lt_Some in He0; lia |]. destruct (Hbelow k e2 Hlt He2) as (e3 & He3 & Hr3 & _).
      destruct (resolved_frame _ _ _ _ Hr3) as [Hf3 _]. rewrite He0 in He3. injection He3 as <-. rewrite Hf3. by apply (Hoth k).
    - rewrite Habove in He0 by lia. by apply (Hoth k). }
  destruct r as [[a j] f]. destruct a.
  - exfalso. destruct Hr as (_ & Hbelow & _). destruct (Hbelow i e) as (e' & _ & Hre & Hv); [apply lookup_lt_Some in Hi; lia | done |].
    destruct (Hres e' Hre) as [_ Hv1]. congruence.
  - destruct (Hact POP_ACTION_DISCARD j f ltac:(done) Hr) as [? _]. done.
  - destruct (Hact POP_ACTION_TRANSFER j f ltac:(done) Hr) as (_ & -> & -> & ? & ?). done.
Qed.

Lemma packet_parts m f sp dp data :
  has m f (packet sp dp data) → has m f (bytes16 sp) ∧ has m (f + 2) (bytes16 dp) ∧
    has m (f + 4) (bytes32 (Z.of_nat (length data))) ∧ has m (f + SIZEOF_POP_HEADER) data.
Proof using Type.
  unfold packet. rewrite !has_app. simpl length. intros (? & ? & ? & ?). unfold SIZEOF_POP_HEADER.
  split_and!; [done | done | |]; by rewrite <- ?Z.add_assoc in *.
Qed.

Lemma packet_contents m f sp dp data size got p :
  has m f (packet sp dp data) → Z.of_nat (length data) ≤ MAX_PAYLOAD → 0 ≤ sp < 2 ^ 16 → 0 ≤ size → contents_of m f size got p →
  p = sp ∧ got = take (Z.to_nat size) data.
Proof using Type.
  intros (Hsp & _ & Hw & Hd)%packet_parts Hl Hr Hs (w & Hw' & Hwr & Hgl & Hgot & Hp & Hpr). split; [by eapply half_inj |].
  assert (Hm : ∀ x, 0 ≤ x ≤ MAX_PAYLOAD → is_u32 x) by (unfold MAX_PAYLOAD, PAGE_SIZE, SIZEOF_FRAME_HEADER, SIZEOF_POP_HEADER, is_u32; lia).
  pose proof (word_inj _ _ _ _ Hw' Hw (Hm _ Hwr) (Hm (Z.of_nat (length data)) ltac:(lia))) as ->.
  rewrite <- (take_drop (Z.to_nat size) data) in Hd. apply has_app in Hd as [Hd _]. eapply has_inj; [| exact Hgot | exact Hd].
  rewrite length_take. lia.
Qed.

(** The places for the results of a call do not overlap. *)
Definition apart (a n b k : Z) : Prop := a + n ≤ b ∨ b + k ≤ a.
Definition results_apart (y : socket_descriptor) : Prop :=
  apart (rbuf y) (bufsize y) (sender y) 4 ∧ apart (rbuf y) (bufsize y) (copied y) 4 ∧ apart (rbuf y) (bufsize y) (sport y) 2 ∧
  apart (sender y) 4 (copied y) 4 ∧ apart (sender y) 4 (sport y) 2 ∧ apart (copied y) 4 (sport y) 2.

Lemma delivered_results m y data src p :
  Z.of_nat (length data) ≤ bufsize y → results_apart y →
  let m' := delivered m y data src p in
  has m' (rbuf y) data ∧ has m' (sender y) (bytes32 src) ∧ has m' (copied y) (bytes32 (Z.of_nat (length data))) ∧ has m' (sport y) (bytes16 p).
Proof using Type.
  intros Hl Ha. unfold results_apart, apart in Ha. unfold delivered. split_and!;
    repeat first [apply has_mput_same | apply has_mput_other; [simpl length; lia |]].
Qed.

Lemma open_pop mine pend vs v held (s : net) i x :
  core mine pend vs v held s → open_sockets s !! i = Some x → protocol x = PROTOCOL_POP → 0 < port x < 2 ^ 16.
Proof using Type.
  intros C Hx Hp. pose proof (Forall_lookup_1 _ _ _ _ (proj2 (c_socks _ _ _ _ _ _ _ C)) Hx) as [(? & _)|(_ & ? & _)]; [unfold PROTOCOL_POP in *; lia | done].
Qed.

(** The service thread delivers the only packet there is. *)
Lemma serve_one_wp mine pend vs v held (s : net) cpu i e d y k sp data :
  core mine pend vs v held s → pop_queue s !! i = Some e → frame e ≠ 0 → pq_socket e = -1 →
  (∀ j e0, j ≠ i → pop_queue s !! j = Some e0 → frame e0 = 0) → has (n_mem s) (frame e) (packet sp (port y) data) →
  Z.of_nat (length data) ≤ MAX_PAYLOAD → 0 ≤ sp < 2 ^ 16 → 0 ≤ d → open_sockets s !! Z.to_nat d = Some y → protocol y = PROTOCOL_POP →
  rbuf y ≠ 0 → results_apart y → receive_complete y = Some k → pend k < 2 ^ 31 →
  wp (service_turn table_addr cpu) (λ a s', a = POP_ACTION_TRANSFER ∧ core mine pend vs v held s' ∧ Forall (λ e, frame e = 0) (pop_queue s') ∧
    (let got := take (Z.to_nat (bufsize y)) data in
     has (n_mem s') (rbuf y) got ∧ has (n_mem s') (sender y) (bytes32 (from e)) ∧
     has (n_mem s') (copied y) (bytes32 (Z.of_nat (length got))) ∧ has (n_mem s') (sport y) (bytes16 sp)) ∧
    open_sockets s' !! Z.to_nat d = Some (idle y) ∧ pop_send_buffer s' = pop_send_buffer s) s.
Proof using Type*.
  intros C He Hf Hs0 Hoth Hpk Hdl Hspr Hd Hy Hpr Hrb Hap Hk Hpend. pose proof (open_pop _ _ _ _ _ _ _ _ C Hy Hpr) as Hport.
  pose proof (packet_parts _ _ _ _ _ Hpk) as (_ & Hdest & _). unfold service_turn. wp_step. eapply wp_mono; [by apply service_pick_wp |].
  intros r s1 (q' & -> & C1 & Hr).
  pose proof (pick_only _ _ _ _ i e d y (port y) r (proj1 (c_socks _ _ _ _ _ _ _ C)) (c_ports _ _ _ _ _ _ _ C)
    (proj1 (c_queue _ _ _ _ _ _ _ C)) He Hf Hs0 Hoth Hdest ltac:(lia) Hd Hy Hpr eq_refl Hrb Hr) as (-> & He' & Hoth').
  set (e' := set_slot_busy (set_slot_socket d e)) in *. change (frame e) with (frame e') in *. wp_step.
  eapply wp_mono; [apply (transfer_wp table_addr table_addr_pos mine pend vs v held _ (Z.of_nat i) e' y k C1); rewrite ?Nat2Z.id; done || lia |].
  intros [] s2 (C2 & got & p & pool & σ & Hcont & _ & Es2). wp_step. split; [done |]. split; [done |]. rewrite Nat2Z.id in Es2. subst s2.
  cbn [pop_queue set_npool set_popq n_mem set_nsems set_sockets set_mem open_sockets pop_send_buffer].
  pose proof (Forall_lookup_1 _ _ _ _ (c_bufs _ _ _ _ _ _ _ C1) Hy Hrb) as (Hbs & _).
  destruct (packet_contents _ _ _ _ _ (bufsize y) _ _ Hpk Hdl Hspr ltac:(lia) Hcont) as [-> ->]. split; [| split; [| split; [| done]]].
  - apply Forall_lookup. intros j e0 Hj. destruct (decide (j = i)) as [->|Hne].
    + rewrite list_lookup_insert_eq in Hj by (by eapply lookup_lt_Some). by injection Hj as <-.
    + rewrite list_lookup_insert_ne in Hj by done. by apply (Hoth' j).
  - apply delivered_results; [rewrite length_take; lia | done].
  - apply list_lookup_insert_eq. by eapply lookup_lt_Some.
Qed.

(** A packet to the loopback address, when the queue is empty. *)
Lemma send_empty_wp mine pend v held (s : net) cpu i x dport buf size data :
  core mine pend 1 v held s → v < 2 ^ 31 - 1 → Forall (λ e, frame e = 0) (pop_queue s) → free_pages (n_pool s) ≠ ∅ →
  0 ≤ i < 64 → open_sockets s !! Z.to_nat i = Some x → protocol x = PROTOCOL_POP → dport ≠ 0 →
  1 ≤ size < 2 ^ 31 → ¬ too_long s size → buf ≠ 0 → has (n_mem s) buf data → Z.of_nat (length data) = size → outside mine buf size →
  let n := Z.min size (packet_limit (network_interfaces s)) in
  wp (socket_sendto table_addr cpu i NETWORK_LOOPBACK_ADDRESS dport buf size) (λ r s', r = n ∧ core mine pend 1 (v + 1) held s' ∧
    open_sockets s' = open_sockets s ∧ pop_send_buffer s' = pop_send_buffer s ∧ (∀ y, outside mine y 1 → n_mem s' !! y = n_mem s !! y) ∧
    ∃ j e, pop_queue s' !! j = Some e ∧ frame e ≠ 0 ∧ pq_socket e = -1 ∧ from e = NETWORK_LOOPBACK_ADDRESS ∧
      has (n_mem s') (frame e) (packet (port x) dport (take (Z.to_nat n) data)) ∧
      ∀ k e0, k ≠ j → pop_queue s' !! k = Some e0 → frame e0 = 0) s.
Proof using Type*.
  intros C Hv Hempty Hfree Hi Hx Hxp Hdp Hsize Hlong Hbuf Hdata Hdl Hout n. assert (Hsub : send_pages s ⊆ mine) by (by eapply send_mine).
  eapply wp_mono; [apply (sendto_wp table_addr table_addr_pos mine pend v _ s cpu i NETWORK_LOOPBACK_ADDRESS dport buf size data x C); done || lia || tauto |].
  intros r s' [(_ & _ & [?|?])|[(_ & _ & _ & -> & C' & Hq)|(_ & _ & _ & _ & _ & Hlb)]]; [done | done | |].
  - destruct Hq as (p & j & e & now & g & m & pool & σ & Hp & Hm & Hkeep & Hj & _ & ->). split; [done |]. split; [done |].
    split; [done |]. split; [done |]. split; [intros y Hy; apply Hkeep; eapply outside_sub; [exact Hsub | | | exact Hy]; lia |]. exists j, (mk_pop (payload p) (-1) now NETWORK_LOOPBACK_ADDRESS 0).
    destruct (c_pages _ _ _ _ _ _ _ C) as (b & _ & Ha & _). pose proof (managed_range _ _ Ha (free_pages_managed _ _ Ha Hp)). split_and!; try done.
    + apply list_lookup_insert_eq. by eapply lookup_lt_Some.
    + unfold payload, kaddr, SIZEOF_FRAME_HEADER, PAGE_SIZE. simpl. lia.
    + intros k e0 Hk He0. simpl in He0. rewrite list_lookup_insert_ne in He0 by done. by eapply (Forall_lookup_1 (λ e, frame e = 0)).
  - destruct (Hlb eq_refl) as (_ & [?|Hfull]); [done |]. destruct (c_queue _ _ _ _ _ _ _ C) as [Hql _].
    destruct (pop_queue s) as [|e0 q0]; [done |]. apply Forall_cons in Hempty as [? _]. by apply Forall_cons in Hfull as [? _].
Qed.

Lemma pages_of_empty q : Forall (λ e, frame e = 0) q → pages_of q = [].
Proof using Type. intros Hq. induction Hq as [|e q He _ IH]; [done |]. simpl. unfold slot_page. by rewrite He. Qed.

(** Asking on an open socket on which no other call waits. *)
Lemma ask_wp mine pend v held (s : net) cpu d y k addr sp rb n len :
  core mine pend 1 v held s → v < 2 ^ 31 - 1 → 0 ≤ d < 64 → open_sockets s !! Z.to_nat d = Some y → protocol y = PROTOCOL_POP → rbuf y = 0 →
  receive_complete y = Some k → 1 ≤ n < 2 ^ 31 → rb ≠ 0 → addr ≠ 0 → sp ≠ 0 → len ≠ 0 → buffer_ok mine (n_mem s) (asking y addr sp rb n len) →
  wp (recvfrom_start table_addr cpu d addr sp rb n len) (λ a s1, a = true ∧ core mine (set_pend k (pend k + 1) pend) 1 (v + 1) held s1 ∧
    n_mem s1 = n_mem s ∧ pop_queue s1 = pop_queue s ∧ n_pool s1 = n_pool s ∧ network_interfaces s1 = network_interfaces s ∧
    pop_send_buffer s1 = pop_send_buffer s ∧ open_sockets s1 !! Z.to_nat d = Some (asking y addr sp rb n len) ∧
    ∀ i x, open_sockets s !! i = Some x → ∃ x1, open_sockets s1 !! i = Some x1 ∧ protocol x1 = protocol x ∧ port x1 = port x) s.
Proof using Type*.
  intros C Hv Hd Hy Hyp Hyr Hk Hn Hrb Haddr Hsp Hlen Hok.
  eapply wp_mono; [apply (recvfrom_start_wp table_addr table_addr_pos mine pend 1 v _ s cpu d y addr sp rb n len C); done || lia |].
  intros a s1 [(_ & _ & [?|?])|(-> & _ & _ & k' & σ & Hk' & -> & C1)]; [done | done |]. assert (k' = k) as -> by congruence.
  pose proof (lookup_lt_Some _ _ _ Hy). split_and!; try done; [by apply list_lookup_insert_eq |]. intros i x Hx. simpl.
  destruct (decide (i = Z.to_nat d)) as [->|E]; [| exists x; by rewrite list_lookup_insert_ne by done].
  rewrite list_lookup_insert_eq by done. eexists. split; [done |]. simpl. split; congruence.
Qed.

(** The calls of a sender and a receiver, and a turn of the service thread
    between them. *)
Definition send_and_receive (cpu1 cpu2 cpu3 i d dport buf size addr sp rb n len : Z) : K net (bool * Z * bool * Z) :=
  a ← recvfrom_start table_addr cpu1 d addr sp rb n len;
  r ← socket_sendto table_addr cpu2 i NETWORK_LOOPBACK_ADDRESS dport buf size;
  service_turn table_addr cpu3;;
  b ← recvfrom_wait table_addr cpu1 d;
  l ← recvfrom_end len;
  mret (a, r, b, l).

(** C4: a packet that is sent on the loopback address reaches the caller that
    waits on the socket with its port.  The invariant of the network holds, with
    fewer than four interfaces; a call of [socket_recvfrom] has asked for a
    packet, into a buffer and three result variables that do not overlap; all
    buffers are outside the pages of the network; the queue is empty and a page
    is free.  Then, for any size from 1 to 2^31 - 1:
    - if the size or the largest payload the interfaces allow is at most 4076
      bytes, [socket_sendto] returns the length it sends, the smaller of the two;
      the next turn of the service thread delivers; the receiver does not wait,
      and gets the data up to its buffer, their length, the sender's port and the
      loopback address; the queue is empty again, the page is free again, and the
      invariant of the network holds;
    - else, which is a packet of more than 4076 bytes when there is no interface,
      the kernel panics in [network_send]. *)
Theorem loopback_delivery mine pend v held (s : net) cpu1 cpu2 cpu3 i x d y k buf size data addr sp rb n len :
  core mine pend 1 v held s → v < 2 ^ 31 - 2 → Forall (λ e, frame e = 0) (pop_queue s) → free_pages (n_pool s) ≠ ∅ →
  0 ≤ i < 64 → open_sockets s !! Z.to_nat i = Some x → protocol x = PROTOCOL_POP →
  0 ≤ d < 64 → open_sockets s !! Z.to_nat d = Some y → protocol y = PROTOCOL_POP → rbuf y = 0 → receive_complete y = Some k → pend k < 2 ^ 31 - 1 →
  1 ≤ size < 2 ^ 31 → buf ≠ 0 → has (n_mem s) buf data → Z.of_nat (length data) = size → outside mine buf size →
  1 ≤ n < 2 ^ 31 → rb ≠ 0 → addr ≠ 0 → sp ≠ 0 → len ≠ 0 →
  buffer_ok mine (n_mem s) (asking y addr sp rb n len) → results_apart (asking y addr sp rb n len) →
  let sent := Z.min size (packet_limit (network_interfaces s)) in
  let got := take (Z.to_nat (Z.min sent n)) data in
  let calls := send_and_receive cpu1 cpu2 cpu3 i d (port y) buf size addr sp rb n len in
  (sent ≤ MAX_PAYLOAD →
    wp calls (λ r s', r = (true, sent, false, Z.of_nat (length got)) ∧
      has (n_mem s') rb got ∧ has (n_mem s') addr (bytes32 NETWORK_LOOPBACK_ADDRESS) ∧ has (n_mem s') sp (bytes16 (port x)) ∧
      Forall (λ e, frame e = 0) (pop_queue s') ∧ free_pages (n_pool s') = free_pages (n_pool s) ∧
      ∃ v', core mine pend 1 v' held s') s) ∧
  (MAX_PAYLOAD < sent → ∃ msg, calls s = Panic msg).
Proof using Type*.
  intros C Hv Hempty Hfree Hi Hx Hxp Hd Hy Hyp Hyr Hk Hpk Hsize Hbuf Hdata Hdl Hout Hn Hrb Haddr Hsp Hlen Hok Hap sent got calls. assert (Esent : sent = Z.min size (packet_limit (network_interfaces s))) by done.
  pose proof (open_pop _ _ _ _ _ _ _ _ C Hy Hyp) as Hyport. pose proof (open_pop _ _ _ _ _ _ _ _ C Hx Hxp) as Hxport.
  pose proof (c_pend _ _ _ _ _ _ _ C k) as Hk0. pose proof (ask_wp mine pend v _ s cpu1 d y k addr sp rb n len C) as Hask.
  unfold calls, send_and_receive. split.
  2: { intros Hlong. eapply bind_wp_Panic; [apply Hask; done || lia |]. intros a s1 (_ & C1 & Em1 & _ & _ & Ei1 & _ & _ & Hsame).
    destruct (Hsame _ _ Hx) as (x1 & Hx1 & Hx1p & _).
    assert (Hp : ∃ msg, socket_sendto table_addr cpu2 i NETWORK_LOOPBACK_ADDRESS (port y) buf size s1 = Panic msg).
    { apply (sendto_panics table_addr table_addr_pos mine (set_pend k (pend k + 1) pend) (v + 1) held s1 cpu2 i _ (port y) buf size data x1 C1);
        rewrite ?Em1; unfold too_long; rewrite ?Ei1; done || congruence || lia. }
    destruct Hp as [msg E]. exists msg. unfold mbind, K_bind at 1. by rewrite E. }
  intros Hfit. wp_step. eapply wp_mono; [apply Hask; done || lia |].
  intros a s1 (-> & C1 & Em1 & Eq1 & Ep1 & Ei1 & Eb1 & Hy1 & Hsame). destruct (Hsame _ _ Hx) as (x1 & Hx1 & Hx1p & Hx1s).
  set (y1 := asking y addr sp rb n len) in *. set (pend1 := set_pend k (pend k + 1) pend) in *.
  assert (Hpk1 : pend1 k = pend k + 1) by (unfold pend1, set_pend; by rewrite Z.eqb_refl).
  wp_step. eapply wp_mono; [apply (send_empty_wp mine pend1 (v + 1) _ s1 cpu2 i x1 (port y) buf size data C1); unfold too_long; rewrite ?Em1, ?Eq1, ?Ep1, ?Ei1; done || congruence || lia |].
  rewrite Ei1. fold sent. intros r s2 (-> & C2 & Eo2 & Eb2 & _ & j & e & He & Hf & Hs0 & Hfrom & Hpkt & Hoth).
  assert (Hsl : Z.of_nat (length (take (Z.to_nat sent) data)) ≤ MAX_PAYLOAD) by (rewrite length_take; unfold MAX_PAYLOAD, PAGE_SIZE, SIZEOF_FRAME_HEADER, SIZEOF_POP_HEADER in *; lia).
  rewrite Hx1s in Hpkt. change (port y) with (port y1) in Hpkt. wp_step.
  eapply wp_mono; [apply (serve_one_wp mine pend1 1 _ _ s2 cpu3 j e d y1 k (port x) _ C2 He Hf Hs0 Hoth Hpkt Hsl); rewrite ?Eo2; done || lia |].
  intros _ s3 (_ & C3 & Hempty3 & (Hgot & Hsend & Hcop & Hspt) & Hy3 & Eb3). rewrite take_take in *.
  assert (Eg : take (Z.to_nat (bufsize y1) `min` Z.to_nat sent)%nat data = got) by (unfold got; simpl; rewrite u32_small by (unfold is_u32; lia); f_equal; lia).
  rewrite Eg, Hfrom in *. wp_step.
  eapply wp_mono; [apply (recvfrom_wait_wp table_addr table_addr_pos mine pend1 1 _ _ s3 cpu1 d (idle y1) k C3); try done; [lia | lia |] |].
  { right. unfold asked. simpl. lia. }
  intros b s4 (-> & C4 & σ & ->). unfold recvfrom_end. wp_step. wp_step. change len with (copied y1) at 1.
  assert (Hl : Z.of_nat (length got) < 2 ^ 31).
  { unfold got. rewrite length_take. unfold MAX_PAYLOAD, PAGE_SIZE, SIZEOF_FRAME_HEADER, SIZEOF_POP_HEADER in *. lia. }
  apply (load32_wp _ _ (Z.of_nat (length got))); [done | unfold is_u32; lia |].
  wp_step. wp_step. eapply (core_pend table_addr _ _ pend) in C4; [| intros q; unfold pend1, set_pend; destruct (Z.eqb_spec q k) as [->|]; [rewrite Z.eqb_refl; lia | done]].
  split_and!; [| done | done | done | done | | by eexists].
  - rewrite s32_small by (unfold is_s32; lia). repeat f_equal. apply Z.leb_gt. unfold asked. simpl. lia.
  - eapply core_same_free; [exact C | exact C4 | by rewrite !pages_of_empty | simpl; congruence].
Qed.

End loopback.

(** ** Witnesses *)

(** A network without interfaces, whose clock counts. *)
#[local] Instance example_device : NetDevice Z := {|
  gnd_send _ _ _ := mret 0;
  gnd_recv _ _ := pure Block;
  gnd_frame_size _ := mret 1500;
  gnd_hwaddr _ := mret 1;
  rtc_get_msec := t ← gets id; modify (Z.add 1);; mret t;
|}.
#[local] Instance example_laws : NetLaws Z.
Proof.
  split.
  - intros d a addr g m. by exists 0, g.
  - intros d p g m _ _. by left.
  - intros g. by exists g, (1 + g).
Qed.

(** The locks, the semaphore of the service thread and those of two sockets. *)
Definition example_net_sems : @sems sched :=
  mk_sems ([mk_sem 1 1; mk_sem 1 1; mk_sem 1 1; mk_sem 0 1; mk_sem 0 1; mk_sem 0 1] ++ replicate 122 (mk_sem 0 (-1))) 6 example_state.

(** The pages 2 and 3 are the network's, page 4 belongs to a caller. *)
Definition example_mem : gmap Z Z := mput (mput ∅ (kaddr 2) (replicate (Z.to_nat (3 * PAGE_SIZE)) 0)) (kaddr 4) [104; 105; 33].

Definition example_net : @net Z pagepool sched :=
  mk_net (mk_sock 5 PROTOCOL_POP (Some 4) 0 0 0 0 0 :: mk_sock 7 PROTOCOL_POP (Some 5) 0 0 0 0 0 :: replicate 62 no_socket)
    (Some 0) (replicate 32 no_packet) (Some 1) (kaddr 2) (Some 2) (Some 3) (replicate 4 (mk_if 0 0 0)) true true
    example_mem (mk_pool [7] 4 1 2) example_net_sems 0.

Definition example_mine : gset Z := {[2; 3]}.

Lemma example_net_sems_inv : sem_inv 0x80100000 example_net_sems.
Proof.
  assert (Hno : ∀ i, 0 ≤ i < 128 → sem_waiters 0x80100000 example_net_sems i = []).
  { intros i Hi. apply nil_length_inv, Nat.eqb_eq.
    apply (range_check (λ i, length (sem_waiters 0x80100000 example_net_sems i) =? 0)%nat 128); [| done].
    vm_compute. reflexivity. }
  split_and!; [apply example_state_inv | done | done | done |].
  intros i x Hi Hx. unfold sem_ok. rewrite Hno by (apply lookup_lt_Some in Hx; simpl in Hx; lia). case_test; [done |].
  apply list_elem_of_lookup_2 in Hx. repeat (apply elem_of_cons in Hx as [->|Hx]; [by split |]). by apply elem_of_nil in Hx.
Qed.

Lemma example_lookup x : kaddr 2 ≤ x < kaddr 5 → ∃ b, example_mem !! x = Some b ∧ is_byte b.
Proof.
  intros Hx. unfold example_mem. rewrite lookup_mput. destruct (decide _) as [Hd|_].
  - destruct (lookup_lt_is_Some_2 [104; 105; 33] (Z.to_nat (x - kaddr 4))) as [b Hb]; [simpl length in *; lia |]. exists b. split; [done |].
    apply list_elem_of_lookup_2 in Hb. repeat (apply elem_of_cons in Hb as [->|Hb]; [by unfold is_byte |]). by apply elem_of_nil in Hb.
  - rewrite lookup_mput, length_replicate, decide_True by (unfold kaddr, PAGE_SIZE in *; lia). exists 0. split; [| done].
    apply lookup_replicate_2. unfold kaddr, PAGE_SIZE in *. lia.
Qed.
Lemma example_lookup_ne x b : example_mem !! x = Some b → kaddr 2 ≤ x < kaddr 5.
Proof.
  unfold example_mem. rewrite !lookup_mput, length_replicate. simpl length. unfold kaddr, PAGE_SIZE.
  repeat destruct (decide _); [lia | lia |]. by rewrite lookup_empty.
Qed.
Lemma example_region a n : kaddr 2 ≤ a → a + n ≤ kaddr 5 → region example_mem a n.
Proof. intros Ha Hn x Hx. destruct (example_lookup x) as (b & Hb & _); [lia | by exists b]. Qed.
Lemma example_outside a n : kaddr 4 ≤ a → outside example_mine a n.
Proof. intros Ha x p Hx Hp. unfold example_mine in Hp. assert (p = 2 ∨ p = 3) by set_solver. unfold kaddr, PAGE_SIZE in *. lia. Qed.

Lemma example_bytes : mem_bytes example_mem.
Proof. intros x b Hx. destruct (example_lookup x) as (b' & Hb & Hbyte); [by eapply example_lookup_ne | congruence]. Qed.
Lemma example_data : has example_mem (kaddr 4) [104; 105; 33].
Proof. unfold example_mem. apply has_mput_same. Qed.

#[local] Strategy opaque [example_mem].

Lemma example_net_pages : pages_ok example_mine (n_pool example_net) [2].
Proof.
  split_and!; [| apply NoDup_singleton | | |].
  - unfold alloc_inv, pool_alloc, pool_inv. simpl. split_and!; try lia; [| | vm_compute; reflexivity].
    + split_and!; simpl; try lia. split; [done |]. repeat constructor; lia.
    + intros p Hp. assert (p = 0 ∨ p = 1) as [-> | ->] by lia; vm_compute; reflexivity.
  - intros q Hq. unfold example_mine in Hq. assert (q = 2 ∨ q = 3) by set_solver. simpl. unfold pool_managed. simpl. lia.
  - vm_compute. reflexivity.
  - rewrite disjoint_intersection_L. vm_compute. reflexivity.
Qed.

Lemma example_core : core 0x80100000 example_mine (λ _, 0) 1 0 (elements (∅ : gset Z)) example_net.
Proof.
  constructor.
  - exists [(0, 1); (1, 1); (2, 1); (3, 0); (4, 0); (5, 0)]. split; [by exists 0, 1, 2, 3 |]. split; [exact example_net_sems_inv |].
    split; [apply (bool_decide_unpack _); vm_compute; exact I |].
    repeat (apply Forall_cons; split; [exists 1; by split_and! |]). done.
  - done.
  - split; [done |]. do 2 (constructor; [by right; split_and!; [left | | | eexists] |]). apply Forall_replicate. by left.
  - apply (bool_decide_unpack _). vm_compute. exact I.
  - repeat (constructor; [by intros [] |]). done.
  - split; [done |]. apply Forall_replicate. by intros [].
  - exists 2. split; [done |]. exact example_net_pages.
  - split; [exact example_bytes |]. intros p Hp. unfold example_mine in Hp. assert (p = 2 ∨ p = 3) by set_solver. apply example_region; unfold kaddr, PAGE_SIZE; lia.
  - split; [done |]. by exists [], (mk_if 0 0 0), (replicate 3 (mk_if 0 0 0)).
Qed.

(** Three bytes go from port 5 to port 7. *)
Lemma loopback_delivery_witness :
  let calls := send_and_receive 0x80100000 0 0 0 0 1 7 (kaddr 4) 3 (kaddr 4 + 100) (kaddr 4 + 104) (kaddr 4 + 200) 10 (kaddr 4 + 108) in
  wp calls (λ r s', r = (true, 3, false, 3) ∧ has (n_mem s') (kaddr 4 + 200) [104; 105; 33] ∧
      has (n_mem s') (kaddr 4 + 100) (bytes32 NETWORK_LOOPBACK_ADDRESS) ∧ has (n_mem s') (kaddr 4 + 104) (bytes16 5) ∧
      Forall (λ e, frame e = 0) (pop_queue s') ∧ free_pages (n_pool s') = free_pages (n_pool example_net) ∧
      ∃ v', core 0x80100000 example_mine (λ _, 0) 1 v' [] s') example_net.
Proof.
  assert (Hq : Forall (λ e, frame e = 0) (pop_queue example_net)) by (by apply Forall_replicate).
  assert (Hp : free_pages (n_pool example_net) ≠ ∅) by (vm_compute; discriminate).
  refine (proj1 (loopback_delivery 0x80100000 ltac:(lia) example_mine (λ _, 0) 0 [] example_net 0 0 0 0 (mk_sock 5 PROTOCOL_POP (Some 4) 0 0 0 0 0)
    1 (mk_sock 7 PROTOCOL_POP (Some 5) 0 0 0 0 0) 5 (kaddr 4) 3 [104; 105; 33] (kaddr 4 + 100) (kaddr 4 + 104) (kaddr 4 + 200) 10 (kaddr 4 + 108)
    example_core _ Hq Hp _ eq_refl eq_refl _ eq_refl eq_refl eq_refl eq_refl _ _ _ example_data eq_refl _ _ _ _ _ _ _ _) _);
    try (apply example_outside); try (unfold kaddr, PAGE_SIZE; lia); [| | vm_compute; discriminate].
  - change (n_mem example_net) with example_mem. unfold buffer_ok, asking. simpl. rewrite u32_small by (unfold is_u32; lia).
    split_and!; first [lia | apply example_region | apply example_outside]; unfold kaddr, PAGE_SIZE; lia.
  - unfold results_apart, apart, asking, kaddr, PAGE_SIZE. simpl. rewrite u32_small by (unfold is_u32; lia). lia.
Defined.

