(* ===== verification/NetInit.v ===== *)
(** * The network: start-up

    [network_init] makes a network that satisfies the invariant: the interfaces
    are those of the device table, there are no sockets and no packets, and the
    service thread and a thread for each interface are ready to run. *)

From stdpp Require Import gmap.
From S2P Require Import Prelude Kmalloc Pagepool Sched SchedSpec Semaphore Libc TfsDir Devices Vm Net NetSpec NetRun NetSock NetServe NetThm NetLoop.
Local Open Scope Z_scope.

(** What starting a thread promises. *)
Class ThreadLaws (Q : Type) `{SleepQueue Q} `{ThreadStart Q} := {
  (** the number of free threads; a thread that has been made, to run a function
      on an argument, and has not been started; and the functions and arguments
      of the threads that are ready to run, in the order of their turns *)
  ts_free : Q → nat;
  ts_new : Q → Z → Z → Z → Prop;
  ts_started : Q → list (Z * Z);
  ts_create_spec q f a :
    sq_inv q →
    wp (ts_create f a) (λ t q', sq_inv q' ∧ (∀ y, y ≠ 0 → sq_waiters q' y = sq_waiters q y) ∧
      ts_started q' = ts_started q ∧
      ((t = -1 ∧ ts_free q = 0%nat) ∨ (0 < t ∧ ts_new q' t f a ∧ ts_free q = S (ts_free q')))) q;
  ts_run_spec q t f a :
    sq_inv q → ts_new q t f a →
    wp (ts_run t) (λ _ q', sq_inv q' ∧ (∀ y, y ≠ 0 → sq_waiters q' y = sq_waiters q y) ∧ ts_free q' = ts_free q ∧
      ts_started q' = ts_started q ++ [(f, a)]) q;
}.

(** ** The scheduler keeps the promise *)

Section threads.
Context (stacks finish_addr : Z).

#[local] Instance sched_start : ThreadStart sched := {| ts_create := thread_create stacks finish_addr; ts_run := thread_run |}.

Definition free_tids (s : sched) : gset Z := list_to_set (filter (λ t, st_of s t = THREAD_FREE) (seqZ 1 31)).

Lemma elem_of_free_tids s t : t ∈ free_tids s ↔ tid t ∧ st_of s t = THREAD_FREE.
Proof. unfold free_tids. rewrite elem_of_list_to_set, list_elem_of_filter, elem_of_seqZ. unfold tid. intuition lia. Qed.

Lemma free_tids_take (s s' : sched) t :
  tid t → st_of s t = THREAD_FREE → (∀ u, tid u → st_of s' u = fu (st_of s) t THREAD_NONREADY u) →
  size (free_tids s) = S (size (free_tids s')).
Proof.
  intros Ht Hf Hst. assert (Hn : t ∉ free_tids s').
  { rewrite elem_of_free_tids. intros [_ E]. by rewrite Hst, fu_eq in E. }
  replace (free_tids s) with ({[t]} ∪ free_tids s'); [by rewrite size_union, size_singleton by set_solver |].
  apply set_eq. intros u. rewrite elem_of_union, elem_of_singleton, !elem_of_free_tids. unfold fu in Hst.
  destruct (decide (u = t)) as [->|Hne]; [by split; [| left] |]. split.
  - intros [?|[Hu E]]; [done |]. split; [done |]. rewrite Hst in E by done. by rewrite (proj2 (Z.eqb_neq u t) Hne) in E.
  - intros [Hu E]. right. split; [done |]. rewrite Hst by done. by rewrite (proj2 (Z.eqb_neq u t) Hne).
Qed.

(** The function and the argument a thread starts with. *)
Definition starts (s : sched) (t : Z) : Z * Z := (ctx_pc (th_ctx (th s t)), ctx_a0 (th_ctx (th s t))).

Lemma add_ready_ctx s r b t :
  rep s r b → tid t → st_of s t = THREAD_NONREADY →
  wp (scheduler_add_ready t) (λ _ s', ∀ u, slot u → starts s' u = starts s u) s.
Proof.
  intros Hrep Ht Hst. pose proof Hrep as [Hq Hs _]. unfold scheduler_add_ready. wp_step. eapply wp_mono.
  { apply add_to_ready_wp; [done | done | |].
    - eapply not_ready; [done | congruence].
    - eapply not_waiting; [done |]. destruct (decide (so_of s t = 0)) as [|Hx]; [done |].
      destruct (st_waiting _ _ _ _ _ Hs t Ht Hx); congruence. }
  intros _ s1 [Hq1 Hs1]. apply wp_set_thread; [apply Hq1 | by apply tid_slot |]. intros u Hu.
  pose proof (f_equal th_ctx (same_th _ _ Hs1 u Hu)) as Hc. unfold starts.
  rewrite th_upd by (first [apply Hq1 | by apply tid_slot | unfold slot in Hu; lia]).
  simpl in Hc. destruct (Z.eqb_spec u t) as [->|]; simpl; by rewrite Hc.
Qed.

Lemma ready_slot s t : sched_inv s → t ∈ ready_list s → slot t.
Proof. intros Hi Ht. apply tid_slot. by eapply (q_ready_tid _ _ _ (rep_queues _ _ _ Hi)). Qed.

#[local] Program Instance sched_threads : ThreadLaws sched := {|
  ts_free s := size (free_tids s);
  ts_new s t f a := tid t ∧ st_of s t = THREAD_NONREADY ∧ starts s t = (f, a);
  ts_started s := map (starts s) (ready_list s);
|}.
Next Obligation.
  intros s f a Hi. simpl. eapply wp_mono; [by apply (thread_create_wp stacks finish_addr s _ _ f a Hi) |].
  intros t s' [(-> & -> & Hno)|(Ht & Hst & Hbec & Hpc & Ha0 & _ & _ & Hoth)].
  - split; [done |]. split; [done |]. split; [done |]. left. split; [done |]. apply size_empty_iff, elem_of_equiv_empty. intros u [Hu E]%elem_of_free_tids. by apply (Hno u).
  - pose proof Hbec as [Hrep Hlk]. split; [by eapply rep_inv |]. split; [| split; [| right; split; [apply Ht | split; [split; [done |]; split |]]]].
    + intros y Hy. assert (Hz : so_of s t = 0).
      { destruct (decide (so_of s t = 0)) as [|Hne]; [done |]. pose proof Hi as [_ Hs _]. destruct (st_waiting _ _ _ _ _ Hs t Ht Hne); congruence. }
      rewrite (becomes_waiters _ _ _ _ _ _ _ Hbec Hy), (rep_waiters s _ _ y Hi). apply filter_ext_in. intros u _. unfold fu.
      destruct (Z.eqb_spec u t) as [->|]; [by rewrite Hz | done].
    + destruct (rep_lists _ _ _ Hrep) as [-> _]. apply map_ext_in. intros u Hu%list_elem_of_In. unfold starts. rewrite Hoth; [done | by eapply ready_slot |].
      intros ->. eapply not_ready; [exact Hi | | exact Hu]. congruence.
    + by rewrite (lk_st _ _ _ _ Hlk), fu_eq by (by apply tid_slot).
    + unfold starts. by rewrite Hpc, Ha0.
    + apply (free_tids_take s s' t Ht Hst). intros u Hu. apply (lk_st _ _ _ _ Hlk). by apply tid_slot.
Qed.
Next Obligation.
  intros s t f a Hi (Ht & Hst & Hfa). simpl. unfold thread_run.
  pose proof (add_ready_wp s _ _ t Hi Ht Hst) as ([] & s' & Er & Hbec)%wp_iff. pose proof (add_ready_ctx s _ _ t Hi Ht Hst) as Hctx.
  unfold wp in Hctx |- *. rewrite Er in Hctx |- *. pose proof Hbec as [Hrep Hlk]. split; [by eapply rep_inv |]. split; [| split].
  - intros y Hy. by rewrite (becomes_waiters _ _ _ _ _ _ _ Hbec Hy), (rep_waiters s _ _ y Hi).
  - f_equal. apply set_eq. intros u. rewrite !elem_of_free_tids. split; intros [Hu Es]; (split; [done |]);
      rewrite (lk_st _ _ _ _ Hlk) in * by (by apply tid_slot); unfold fu in *; destruct (Z.eqb_spec u t) as [->|]; congruence.
  - destruct (rep_lists _ _ _ Hrep) as [-> _]. rewrite map_app. simpl. rewrite Hctx, Hfa by (by apply tid_slot). f_equal.
    apply map_ext_in. intros u Hu%list_elem_of_In. apply Hctx. by eapply ready_slot.
Qed.

End threads.

Section room.
Context {Q : Type} `{SleepQueue Q} (table_addr : Z) (table_addr_pos : 0 < table_addr).
Abbreviation sems_are := (sems_are table_addr).

(** ** Semaphores and threads *)

Definition free_sems (x : @sems Q) : gset Z :=
  list_to_set (filter (λ k, (creator <$> semaphore_table x !! Z.to_nat k) = Some (-1)) (seqZ 0 128)).

Lemma elem_of_free_sems x k : k ∈ free_sems x ↔ 0 ≤ k < 128 ∧ (creator <$> semaphore_table x !! Z.to_nat k) = Some (-1).
Proof using Type. unfold free_sems. rewrite elem_of_list_to_set, list_elem_of_filter, elem_of_seqZ. intuition lia. Qed.

Lemma create_room_wp cpu v L (x : @sems Q) n :
  sems_are x L → 0 ≤ v < 2 ^ 31 → 0 ≤ cpu < CONFIG_MAX_CPUS → size (free_sems x) = S n →
  wp (semaphore_create cpu v) (λ r x', ∃ k, r = Some k ∧ sems_are x' ((k, v) :: L) ∧ size (free_sems x') = n ∧ sq x' = sq x) x.
Proof using table_addr_pos.
  intros Hs Hv Hc Hn. pose proof (create_event_wp table_addr cpu v L x Hs Hv Hc) as (r & x' & E & Hr)%wp_iff.
  pose proof (proj1 Hs) as Hi. pose proof (create_wp table_addr x cpu v Hi Hv Hc) as (r' & x'' & E' & _ & Hsq & Hr')%wp_iff.
  assert (r' = r ∧ x'' = x') as [-> ->] by (rewrite E in E'; by injection E'). apply wp_iff. exists r, x'. split; [done |]. pose proof Hi as (_ & Hl & _).
  destruct r as [k|].
  - exists k. split; [done |]. split; [done |]. split; [| done]. destruct Hr' as ((y & Hy & Hfree) & (c & Hk & Hy' & Hne) & Ho).
    assert (Hin : k ∉ free_sems x') by (rewrite elem_of_free_sems, Hy'; intros [_ [= Ec]]; by apply Hne).
    cut (free_sems x = {[k]} ∪ free_sems x'); [intros Eq; rewrite Eq, size_union, size_singleton in Hn by set_solver; lia |].
    apply set_eq. intros j. rewrite elem_of_union, elem_of_singleton, !elem_of_free_sems. destruct (decide (j = k)) as [->|Hj].
    + split; [by left |]. intros _. rewrite Hy. apply lookup_lt_Some in Hy. split; [lia | simpl; by rewrite Hfree].
    + split; [intros [? ?]; right | intros [?|[? ?]]; [done |]]; (split; [done |]); [rewrite Ho | rewrite <- Ho]; done || lia.
  - exfalso. destruct Hr' as [_ Hall]. assert (∃ k, k ∈ free_sems x) as [k [Hk Hc']%elem_of_free_sems].
    { apply set_choose_L. intros E0. by rewrite E0, size_empty in Hn. }
    destruct (semaphore_table x !! Z.to_nat k) as [y|] eqn:Hy; [| done]. apply (Hall k y); [lia | done |]. simpl in Hc'. congruence.
Qed.

Lemma sems_queue L (x : @sems Q) q :
  sems_are x L → sq_inv q → (∀ y, y ≠ 0 → sq_waiters q y = sq_waiters (sq x) y) → sems_are (mk_sems (semaphore_table x) (sem_next x) q) L.
Proof using table_addr_pos.
  intros (Hi & Hnd & Hall) Hq Hw. split; [| done]. apply sem_inv_queue; [done | done |].
  intros i Hi0. apply Hw. unfold sem_addr, SIZEOF_SEMAPHORE. lia.
Qed.

Lemma free_sems_queue (x : @sems Q) q : free_sems (mk_sems (semaphore_table x) (sem_next x) q) = free_sems x.
Proof. done. Qed.

End room.

Section init.
Context {G : Type} `{NetLaws G} {P : Type} `{PageAlloc P} {Q : Type} `{ThreadLaws Q}.
Context (table_addr : Z) (table_addr_pos : 0 < table_addr) (pop_service_thread network_receive_thread : Z).
Abbreviation net := (@net G P Q).
Abbreviation sems_are := (sems_are table_addr).

Lemma create_thread_wp L (s : net) f a n (R : Z → net → Prop) :
  sems_are (n_sems s) L → ts_free (sq (n_sems s)) = S n →
  (∀ t σ, 0 < t → ts_new (sq σ) t f a → sems_are σ L → ts_free (sq σ) = n → ts_started (sq σ) = ts_started (sq (n_sems s)) → R t (set_nsems σ s)) →
  wp (on_nsems (on_queue (ts_create f a))) R s.
Proof using Type*.
  intros Hs Hn HR. unfold on_nsems, on_queue. wp_step. wp_step. pose proof Hs as ((Hq & _) & _).
  eapply wp_mono; [by apply ts_create_spec |]. intros t q (Hq' & Hw & Hst & [[_ ?]|(Ht & Hnew & Hfree)]); [lia |].
  apply (HR t (mk_sems (semaphore_table (n_sems s)) (sem_next (n_sems s)) q)); [done | done | by apply (sems_queue table_addr) | simpl; lia | done].
Qed.

Lemma run_thread_wp L (s : net) t f a (R : unit → net → Prop) :
  sems_are (n_sems s) L → ts_new (sq (n_sems s)) t f a →
  (∀ σ, sems_are σ L → ts_free (sq σ) = ts_free (sq (n_sems s)) → ts_started (sq σ) = ts_started (sq (n_sems s)) ++ [(f, a)] → R tt (set_nsems σ s)) →
  wp (on_nsems (on_queue (ts_run t))) R s.
Proof using Type*.
  intros Hs Hn HR. unfold on_nsems, on_queue. wp_step. wp_step. pose proof Hs as ((Hq & _) & _).
  eapply wp_mono; [by apply ts_run_spec |]. intros [] q (Hq' & Hw & Hfree & Hst).
  apply (HR (mk_sems (semaphore_table (n_sems s)) (sem_next (n_sems s)) q)); [by apply (sems_queue table_addr) | done | done].
Qed.

(** ** The tables *)

Lemma clear_list {A} (x : A) (l : list A) n : length l = n → (∀ j, (j < n)%nat → l !! j = Some x) → l = replicate n x.
Proof using Type.
  intros Hl Hx. apply list_eq. intros j. destruct (decide (j < n)%nat) as [Hj|Hj]; [by rewrite Hx, lookup_replicate_2 |].
  rewrite !lookup_ge_None_2; [done | rewrite length_replicate; lia | lia].
Qed.

Lemma clear_sockets_wp (s : net) (R : unit → net → Prop) :
  length (open_sockets s) = 64%nat → R tt (set_sockets (replicate 64 no_socket) s) →
  wp (for_each (Z.to_nat CONFIG_MAX_OPEN_SOCKETS) 0 (λ i, put_socket i no_socket)) R s.
Proof using Type.
  intros Hl HR. apply (wp_for_each (λ i s', ∃ l, s' = set_sockets l s ∧ length l = 64%nat ∧ ∀ j : nat, Z.of_nat j < i → l !! j = Some no_socket)).
  - exists (open_sockets s). split; [by destruct s |]. split; [done | lia].
  - intros j s' Hj (l & -> & Hll & Hx). unfold CONFIG_MAX_OPEN_SOCKETS in Hj. apply put_socket_wp; [simpl; lia |]. eexists. split; [done |]. simpl. rewrite length_insert.
    split; [done |]. intros k Hk. destruct (decide (k = Z.to_nat j)) as [->|]; [apply list_lookup_insert_eq; lia | rewrite list_lookup_insert_ne by done; apply Hx; lia].
  - intros s' (l & -> & Hll & Hx). unfold CONFIG_MAX_OPEN_SOCKETS in Hx. rewrite (clear_list no_socket l 64); [done | done |]. intros j Hj. apply Hx. lia.
Qed.

Lemma clear_queue_wp (s : net) (R : unit → net → Prop) :
  length (pop_queue s) = 32%nat → R tt (set_popq (replicate 32 no_packet) s) →
  wp (for_each (Z.to_nat CONFIG_POP_QUEUE_SIZE) 0 (λ i, put_pop i no_packet)) R s.
Proof using Type.
  intros Hl HR. apply (wp_for_each (λ i s', ∃ l, s' = set_popq l s ∧ length l = 32%nat ∧ ∀ j : nat, Z.of_nat j < i → l !! j = Some no_packet)).
  - exists (pop_queue s). split; [by destruct s |]. split; [done | lia].
  - intros j s' Hj (l & -> & Hll & Hx). unfold CONFIG_POP_QUEUE_SIZE in Hj. apply put_pop_wp; [simpl; lia |]. eexists. split; [done |]. simpl. rewrite length_insert.
    split; [done |]. intros k Hk. destruct (decide (k = Z.to_nat j)) as [->|]; [apply list_lookup_insert_eq; lia | rewrite list_lookup_insert_ne by done; apply Hx; lia].
  - intros s' (l & -> & Hll & Hx). unfold CONFIG_POP_QUEUE_SIZE in Hx. rewrite (clear_list no_packet l 32); [done | done |]. intros j Hj. apply Hx. lia.
Qed.

Lemma socket_init_wp cpu L n (s : net) :
  socket_init_done s = false → length (open_sockets s) = 64%nat → sems_are (n_sems s) L → size (free_sems (n_sems s)) = S n → 0 ≤ cpu < CONFIG_MAX_CPUS →
  wp (socket_init cpu) (λ _ s', ∃ a σ, s' = set_nsems σ (set_sockets (replicate 64 no_socket) (set_open_sockets_sem (Some a) s)) ∧
    sems_are σ ((a, 1) :: L) ∧ size (free_sems σ) = n ∧ sq σ = sq (n_sems s)) s.
Proof using Type*.
  intros Hd Hl Hs Hn Hcpu. unfold socket_init. wp_step. wp_step. rewrite Hd. wp_step. wp_step; [done |]. wp_step. unfold on_nsems. wp_step.
  eapply wp_mono; [by apply (create_room_wp table_addr table_addr_pos cpu 1 L (n_sems s) n) |]. intros k σ (a & -> & Ha & Hf & Hq).
  wp_step. wp_step. apply clear_sockets_wp; [done |]. by exists a, σ.
Qed.

Lemma pop_init_wp cpu L n t mine (s : net) :
  pop_init_done s = false → length (pop_queue s) = 32%nat → sems_are (n_sems s) L → size (free_sems (n_sems s)) = S (S (S n)) →
  0 ≤ cpu < CONFIG_MAX_CPUS → pages_ok mine (n_pool s) [] → free_pages (n_pool s) ≠ ∅ → ts_free (sq (n_sems s)) = S t →
  wp (pop_init pop_service_thread cpu) (λ _ s', ∃ b c d p pool σ,
    s' = set_nsems σ (set_popq (replicate 32 no_packet) (set_pop_setup (kaddr p) (Some c) (Some b) (Some d) (set_npool pool s))) ∧
    pages_ok mine pool [p] ∧ sems_are σ ((d, 0) :: (b, 1) :: (c, 1) :: L) ∧ ts_free (sq σ) = t ∧
    ts_started (sq σ) = ts_started (sq (n_sems s)) ++ [(pop_service_thread, 0)]) s.
Proof using Type*.
  intros Hd Hl Hs Hn Hcpu Hp Hfree Ht. unfold pop_init. wp_step. wp_step. rewrite Hd. wp_step. wp_step; [done |]. wp_step. unfold on_npool. wp_step.
  eapply wp_mono; [by apply (pages_get_wp mine) |]. intros a pool [(_ & ? & _)|(p & -> & Hpr & Hpf & Hpok)]; [done |].
  rewrite (proj2 (Z.eqb_neq (p * PAGE_SIZE) 0)), phys_to_kernel by (unfold PAGE_SIZE; lia). wp_step. unfold on_nsems at 1. wp_step.
  eapply wp_mono; [by apply (create_room_wp table_addr table_addr_pos cpu 1 L (n_sems s) (S (S n))) |]. intros k1 σ1 (c & -> & Hc & Hf1 & Hq1).
  wp_step. unfold on_nsems at 1. wp_step. eapply wp_mono; [by apply (create_room_wp table_addr table_addr_pos cpu 1 _ σ1 (S n) Hc) |]. intros k2 σ2 (b & -> & Hb & Hf2 & Hq2).
  wp_step. unfold on_nsems at 1. wp_step. eapply wp_mono; [by apply (create_room_wp table_addr table_addr_pos cpu 0 _ σ2 n Hb) |]. intros k3 σ3 (d & -> & Hdd & Hf3 & Hq3).
  wp_step. wp_step. wp_step. apply clear_queue_wp; [done |]. wp_step. eapply (create_thread_wp _ _ _ _ t); [exact Hdd | simpl; congruence |].
  intros tid σ4 _ Hnew Hs4 Ht4 Hst4. eapply run_thread_wp; [exact Hs4 | exact Hnew |]. intros σ5 Hs5 Ht5 Hst5. exists b, c, d, p, pool, σ5.
  split; [done |]. split; [done |]. split; [done |]. split; [rewrite Ht5; exact Ht4 |].
  simpl in Hst5. rewrite Hst5, Hst4. simpl. by rewrite Hq3, Hq2, Hq1.
Qed.

(** ** The interfaces *)

Context (m : machine) (generic_device : Z → Z) (nics : Z).
(** What the device table and the devices are taken to be: fewer interfaces than
    the table has room for, whose frames hold a packet and fit into a page. *)
Definition nics_found : Prop :=
  0 ≤ nics < CONFIG_MAX_GNDS ∧
  (∀ i, 0 ≤ i < nics → ∃ d, device_get YAMS_TYPECODE_NIC i m = Ok (Some d, m) ∧ generic_device (dev_addr d) ≠ 0) ∧
  (∀ i, nics ≤ i < CONFIG_MAX_GNDS → device_get YAMS_TYPECODE_NIC i m = Ok (None, m)).
Definition frame_sizes : Prop :=
  ∀ d (g : G), (∃ r g', gnd_frame_size d g = Ok (r, g') ∧ 21 ≤ s32 r ≤ PAGE_SIZE) ∧ ∃ a g', gnd_hwaddr d g = Ok (a, g').

(** Slot [i] of the table: the generic device of the [i]th network device, with
    the frame size and the address the device has reported; or none. *)
Definition interface_ok (i : Z) (x : interface_info) : Prop :=
  if i <? nics then
    gnd x ≠ 0 ∧ 21 ≤ mtu x ≤ PAGE_SIZE ∧
    (∃ d, device_get YAMS_TYPECODE_NIC i m = Ok (Some d, m) ∧ gnd x = generic_device (dev_addr d)) ∧
    (∃ (g g' : G) r, gnd_frame_size (gnd x) g = Ok (r, g') ∧ mtu x = s32 r) ∧
    (∃ g g' : G, gnd_hwaddr (gnd x) g = Ok (address x, g'))
  else gnd x = 0 ∧ address x = 0.

Lemma find_interfaces_wp (s : net) :
  nics_found → frame_sizes → length (network_interfaces s) = 4%nat →
  wp (find_interfaces m generic_device) (λ _ s', ∃ l g, s' = set_interfaces l (set_dev g s) ∧ length l = 4%nat ∧
    ∀ (j : nat) x, l !! j = Some x → interface_ok (Z.of_nat j) x) s.
Proof using Type.
  intros (Hn & Hsome & Hnone) Hfs Hl. unfold find_interfaces.
  apply (wp_for_each (λ i s', ∃ l g, s' = set_interfaces l (set_dev g s) ∧ length l = 4%nat ∧
    ∀ (j : nat) x, Z.of_nat j < i → l !! j = Some x → interface_ok (Z.of_nat j) x)).
  - exists (network_interfaces s), (n_dev s). split; [by destruct s |]. split; [done | lia].
  - intros i s' Hi (l & g & -> & Hll & Hx). unfold CONFIG_MAX_GNDS in Hi.
    assert (Hput : ∀ x g', interface_ok i x → wp (l' ← pure (aset l i x); modify (set_interfaces l')) (λ _ s', ∃ l g, s' = set_interfaces l (set_dev g s) ∧ length l = 4%nat ∧
      ∀ (j : nat) x, Z.of_nat j < i + 1 → l !! j = Some x → interface_ok (Z.of_nat j) x) (set_interfaces l (set_dev g' s))).
    { intros x g' Hok. wp_step. eapply wp_pure; [apply aset_Ok; lia |]. wp_step. exists (<[Z.to_nat i := x]> l), g'. split; [done |]. rewrite length_insert. split; [done |].
      intros j y Hj Hy. destruct (decide (j = Z.to_nat i)) as [->|Hne].
      - rewrite list_lookup_insert_eq in Hy by lia. injection Hy as <-. by rewrite Z2Nat.id by lia.
      - rewrite list_lookup_insert_ne in Hy by done. apply (Hx j); [lia | done]. }
    wp_step. destruct (decide (i < nics)) as [Hlt|Hge].
    + destruct (Hsome i ltac:(lia)) as (d & Ed & Hg). eapply wp_pure; [by rewrite Ed |]. wp_step. wp_step. wp_step. apply get_interface_wp; [simpl; lia |]. intros old _.
      destruct (Hfs (generic_device (dev_addr d)) g) as [(r & g1 & E1 & Hr) _]. destruct (Hfs (generic_device (dev_addr d)) g1) as [_ (a & g2 & E2)].
      cbn [fst]. wp_step. unfold on_dev at 1. wp_step. unfold wp at 1. simpl n_dev. rewrite E1. wp_step. wp_step; [apply Z.leb_le; lia |].
      wp_step. unfold on_dev. wp_step. unfold wp at 1. simpl n_dev. rewrite E2. simpl network_interfaces. apply (Hput _ g2). unfold interface_ok. rewrite (proj2 (Z.ltb_lt _ _) Hlt).
      split; [done |]. split; [done |]. split; [by exists d |]. split; [by exists g, g1, r | by exists g1, g2].
    + eapply wp_pure; [by rewrite (Hnone i) by (unfold CONFIG_MAX_GNDS; lia) |]. wp_step. wp_step. wp_step. apply get_interface_wp; [simpl; lia |]. intros old _. cbn [fst].
      simpl network_interfaces. apply (Hput _ g). unfold interface_ok. by rewrite (proj2 (Z.ltb_ge i nics)) by lia.
  - intros s' (l & g & -> & Hll & Hx). exists l, g. split; [done |]. split; [done |]. intros j x Hj. apply (Hx j x); [| done]. apply lookup_lt_Some in Hj.
    unfold CONFIG_MAX_GNDS. lia.
Qed.

Lemma interfaces_found l :
  0 ≤ nics < 4 → length l = 4%nat → (∀ (j : nat) x, l !! j = Some x → interface_ok (Z.of_nat j) x) → interfaces_ok l.
Proof using Type.
  intros Hn Hl Hok. split; [done |]. destruct (lookup_lt_is_Some_2 l (Z.to_nat nics)) as [e He]; [lia |].
  exists (take (Z.to_nat nics) l), e, (drop (S (Z.to_nat nics)) l). split; [by rewrite take_drop_middle |]. split.
  - specialize (Hok _ _ He). unfold interface_ok in Hok. rewrite (proj2 (Z.ltb_ge _ _)) in Hok by lia. apply Hok.
  - apply Forall_lookup. intros j x [Hx Hj]%lookup_take_Some. specialize (Hok _ _ Hx). unfold interface_ok in Hok.
    rewrite (proj2 (Z.ltb_lt _ _)) in Hok by lia. by destruct Hok as (? & ? & _).
Qed.

Lemma start_receivers_wp L t (s : net) :
  0 ≤ nics < 4 → length (network_interfaces s) = 4%nat → (∀ (j : nat) x, network_interfaces s !! j = Some x → interface_ok (Z.of_nat j) x) →
  sems_are (n_sems s) L → (ts_free (sq (n_sems s)) = Z.to_nat nics + t)%nat →
  wp (start_receivers network_receive_thread) (λ _ s', ∃ σ, s' = set_nsems σ s ∧ sems_are σ L ∧ ts_free (sq σ) = t ∧
    ts_started (sq σ) = ts_started (sq (n_sems s)) ++ map (λ i, (network_receive_thread, i)) (seqZ 0 nics)) s.
Proof using Type*.
  intros Hn Hl Hok Hs Ht. unfold start_receivers. wp_step.
  apply (wp_for (λ i s', i ≤ nics ∧ ∃ σ, s' = set_nsems σ s ∧ sems_are σ L ∧ (ts_free (sq σ) = Z.to_nat (nics - i) + t)%nat ∧
    ts_started (sq σ) = ts_started (sq (n_sems s)) ++ map (λ j, (network_receive_thread, j)) (seqZ 0 i))).
  - split; [lia |]. exists (n_sems s). split; [symmetry; apply set_nsems_id |]. split; [done |]. by rewrite Z.sub_0_r, app_nil_r.
  - intros i s' Hi (Hle & σ & -> & Hσ & Hf & Hst). unfold CONFIG_MAX_GNDS in Hi. wp_step. apply get_interface_wp; [simpl; lia |]. intros x Hx. simpl in Hx.
    pose proof (Hok _ _ Hx) as Hxo. unfold interface_ok in Hxo. rewrite Z2Nat.id in Hxo by lia. destruct (Z.ltb_spec i nics) as [Hlt|Hge].
    + rewrite (proj2 (Z.eqb_neq _ _) (proj1 Hxo)). simpl negb. cbv iota. wp_step. eapply (create_thread_wp L _ _ _ (Z.to_nat (nics - (i + 1)) + t)); [exact Hσ | simpl; lia |].
      intros u σ1 Hu Hnew Hs1 Ht1 Hst1. wp_step. wp_step; [by apply Z.ltb_lt |]. wp_step. eapply run_thread_wp; [exact Hs1 | exact Hnew |].
      intros σ2 Hs2 Ht2 Hst2. wp_step. split; [lia |]. exists σ2. split; [done |]. split; [done |]. split; [rewrite Ht2; exact Ht1 |].
      simpl in Hst1, Hst2. rewrite Hst2, Hst1, Hst, <- app_assoc, (seqZ_app 0 i 1), map_app by lia. do 2 f_equal.
    + rewrite (proj1 Hxo). simpl negb. cbv iota. wp_step. wp_step. exists σ. split; [done |]. split; [done |].
      assert (i = nics) as -> by lia. split; [lia | done].
  - intros s' (Hle & _). exfalso. unfold CONFIG_MAX_GNDS in Hle. lia.
Qed.

(** A network without sockets and packets. *)
Lemma fresh_core mine (s : net) a b c d p :
  open_sockets s = replicate 64 no_socket → pop_queue s = replicate 32 no_packet → interfaces_ok (network_interfaces s) →
  open_sockets_sem s = Some a → pop_queue_sem s = Some b → pop_send_buffer_sem s = Some c → pop_service_thread_sem s = Some d → pop_send_buffer s = kaddr p →
  pages_ok mine (n_pool s) [p] → mem_bytes (n_mem s) → (∀ q, q ∈ mine → region (n_mem s) (kaddr q) PAGE_SIZE) →
  sems_are (n_sems s) [(a, 1); (b, 1); (c, 1); (d, 0)] → core table_addr mine (λ _, 0) 1 0 [] s.
Proof using Type.
  intros Eo Eq Hif Ea Eb Ec Ed Ep Hpg Hmb Hreg Hs. constructor; rewrite ?Eo, ?Eq; try done.
  - exists [(a, 1); (b, 1); (c, 1); (d, 0)]. split; [| done]. exists a, b, c, d. by rewrite Eo.
  - split; [done |]. apply Forall_replicate. by left.
  - constructor.
  - apply Forall_replicate. by intros [].
  - split; [done |]. apply Forall_replicate. by intros [].
  - by exists p.
Qed.

(** C15: [network_init] starts the network. The device table has fewer interfaces
    than the table of interfaces has slots, with frames of at least 21 bytes (the
    two headers and a byte) and at most a page; a page, four semaphores and a
    thread for each interface and for the service thread are free. Then it returns
    without a panic; the invariant of the network holds, no socket is open and the
    queue is empty; slot i of the table has the generic device of the ith network
    device, and the frame size and the hardware address which that device reported,
    and the slots behind are empty; and behind the threads that were ready to run
    before, in this order, the service thread and for each interface a receiving
    thread with the number of the interface are ready to run. *)
Theorem network_starts cpu (s : net) t :
  nics_found → frame_sizes →
  length (open_sockets s) = 64%nat → length (pop_queue s) = 32%nat → length (network_interfaces s) = 4%nat →
  socket_init_done s = false → pop_init_done s = false → 0 ≤ cpu < CONFIG_MAX_CPUS →
  sem_inv table_addr (n_sems s) → (4 ≤ size (free_sems (n_sems s)))%nat → ts_free (sq (n_sems s)) = S (Z.to_nat nics + t) →
  alloc_inv (n_pool s) → free_pages (n_pool s) ≠ ∅ →
  mem_bytes (n_mem s) → (∀ p, p ∈ free_pages (n_pool s) → region (n_mem s) (kaddr p) PAGE_SIZE) →
  wp (network_init pop_service_thread network_receive_thread cpu m generic_device) (λ _ s',
    net_inv table_addr (free_pages (n_pool s)) (mk_run (λ _, 0) ∅ ∅ None s') ∧
    open_sockets s' = replicate 64 no_socket ∧ pop_queue s' = replicate 32 no_packet ∧
    (∀ (j : nat) x, network_interfaces s' !! j = Some x → interface_ok (Z.of_nat j) x) ∧
    ts_free (sq (n_sems s')) = t ∧
    ts_started (sq (n_sems s')) = ts_started (sq (n_sems s)) ++
      (pop_service_thread, 0) :: map (λ i, (network_receive_thread, i)) (seqZ 0 nics)) s.
Proof using Type*.
  intros Hnics Hfs Hlo Hlq Hli Hds Hdp Hcpu Hsem Hroom Ht Halloc Hfree Hmb Hreg. pose proof (proj1 Hnics) as Hn. unfold CONFIG_MAX_GNDS in Hn.
  assert (Hp : pages_ok (free_pages (n_pool s)) (n_pool s) []).
  { split_and!; [done | constructor | intros q; by apply free_pages_managed | set_solver | set_solver]. }
  assert (Hs0 : sems_are (n_sems s) []) by (split; [done | split; [constructor | constructor]]).
  destruct (size (free_sems (n_sems s))) as [|[|[|[|n]]]] eqn:Hsz; try lia. clear Hroom.
  unfold network_init. wp_step. eapply wp_mono; [by apply find_interfaces_wp |]. intros [] s1 (l & g & -> & Hll & Hl).
  wp_step. eapply wp_mono; [by apply (socket_init_wp cpu [] (S (S (S n)))) |]. intros [] s2 (a & σ & -> & Ha & Hf2 & Hq2).
  unfold protocols_init, network_protocols. cbn [init_protocols]. wp_step. wp_step.
  eapply wp_mono; [apply (pop_init_wp cpu [(a, 1)] n (Z.to_nat nics + t) (free_pages (n_pool s))); [done | done | exact Ha | exact Hf2 | done | exact Hp | exact Hfree | simpl; rewrite Hq2; exact Ht] |].
  intros [] s3 (b & c & d & p & pool & σ3 & -> & Hp3 & Hs3 & Ht3 & Hst3). wp_step.
  eapply wp_mono; [apply (start_receivers_wp [(d, 0); (b, 1); (c, 1); (a, 1)] t); [done | done | exact Hl | exact Hs3 | exact Ht3] |].
  intros [] s4 (σ4 & -> & Hs4 & Ht4 & Hst4). split.
  2: { split; [done |]. split; [done |]. split; [done |]. split; [done |]. simpl in Hst3, Hst4 |- *. rewrite Hst4, Hst3, Hq2, <- app_assoc. done. }
  split; [| done]. split; [| set_solver]. exists 0. cbn [r_pend r_held r_filled r_net]. rewrite elements_empty. simpl app.
  eapply fresh_core; try done; [by apply (interfaces_found l) |].
  assert (Hperm : [(d, 0); (b, 1); (c, 1); (a, 1)] ≡ₚ [(a, 1); (b, 1); (c, 1); (d, 0)]) by solve_Permutation. by rewrite <- Hperm.
Qed.

End init.

(** ** Witness *)

(** A machine with a disk and one network device. *)
Definition example_nic_machine : machine :=
  mk_machine [] [] false [Some (mk_device 0x80010000 0xb0000140 YAMS_TYPECODE_DISK); Some (mk_device 0x80010100 0xb0000160 YAMS_TYPECODE_NIC)] 2 0
    true true true (mk_kmalloc 0x80020000 0x80100000).

(** The network before it is started. *)
Definition example_unset : @net Z pagepool sched :=
  mk_net (replicate 64 no_socket) None (replicate 32 (mk_pop 0 0 0 0 0)) None 0 None None (replicate 4 (mk_if 0 0 0)) false false
    example_mem (mk_pool [3] 4 2 2) example_sems 0.

Lemma example_unset_pool : pool_inv (n_pool example_unset) ∧ pool_free (n_pool example_unset) = {[2; 3]}.
Proof.
  assert (Hf : pool_free (n_pool example_unset) = {[2; 3]}) by (vm_compute; reflexivity). split; [| done].
  unfold pool_inv. rewrite Hf. simpl. split_and!; try lia; [| | vm_compute; reflexivity].
  - split_and!; simpl; try lia. split; [done |]. repeat constructor; lia.
  - intros p Hp. assert (p = 0 ∨ p = 1) as [-> | ->] by lia; vm_compute; reflexivity.
Qed.

#[local] Existing Instance example_device.
#[local] Existing Instance example_laws.
#[local] Instance example_start : ThreadStart sched := sched_start 0x80020000 0x80001100.
#[local] Instance example_threads : ThreadLaws sched := sched_threads 0x80020000 0x80001100.

#[local] Strategy opaque [example_mem].

Lemma network_starts_witness :
  wp (network_init 0x80002000 0x80003000 0 example_nic_machine (λ a, a + 20)) (λ _ s',
    net_inv 0x80100000 (free_pages (n_pool example_unset)) (mk_run (λ _, 0) ∅ ∅ None s') ∧
    open_sockets s' = replicate 64 no_socket ∧ pop_queue s' = replicate 32 no_packet ∧
    (∀ (j : nat) x, network_interfaces s' !! j = Some x → interface_ok example_nic_machine (λ a, a + 20) 1 (Z.of_nat j) x) ∧
    ts_free (sq (n_sems s')) = 26%nat ∧
    ts_started (sq (n_sems s')) = ts_started (sq (n_sems example_unset)) ++ [(0x80002000, 0); (0x80003000, 0)]) example_unset.
Proof.
  destruct example_unset_pool as [Hp Hf].
  apply (network_starts 0x80100000 ltac:(lia) 0x80002000 0x80003000 example_nic_machine (λ a, a + 20) 1 0 example_unset 26).
  - split; [done |]. split; intros i Hi; unfold CONFIG_MAX_GNDS in *.
    + assert (i = 0) as -> by lia. eexists. split; [vm_compute; reflexivity | done].
    + assert (i = 1 ∨ i = 2 ∨ i = 3) as [-> | [-> | ->]] by lia; vm_compute; reflexivity.
  - intros d g. split; [by exists 1500, g | by exists 1, g].
  - done.
  - done.
  - done.
  - done.
  - done.
  - done.
  - exact example_sems_inv.
  - apply Nat.leb_le. vm_compute. reflexivity.
  - vm_compute. reflexivity.
  - exact Hp.
  - change (free_pages (n_pool example_unset)) with (pool_free (n_pool example_unset)). rewrite Hf. set_solver.
  - exact example_bytes.
  - intros p Hin. change (free_pages (n_pool example_unset)) with (pool_free (n_pool example_unset)) in Hin. rewrite Hf in Hin.
    assert (p = 2 ∨ p = 3) by set_solver. apply example_region; unfold kaddr, PAGE_SIZE; lia.
Defined.
