(* ===== verification/Vfs.v ===== *)
(** * The virtual filesystem (src/buenos/fs/vfs.c, vfs.h, filesystems.c)

    The mounted filesystems and the open files are two tables, each under a
    binary semaphore; a third semaphore guards the count of operations in
    progress, and a fourth wakes [vfs_deinit] when the last one ends.  Here a
    semaphore is the number it holds, [None] when its creation failed (a null
    pointer); [semaphore_P] of 0 blocks.  The filesystem drivers, reached
    through the function pointers of [fs_t], are the class [Filesystems]: a
    handle stands for an [fs_t *], 0 for the null pointer.  Messages printed
    on the console are left out. *)

From S2P Require Import Prelude Libc FsCodes.
Local Open Scope Z_scope.

Definition CONFIG_MAX_FILESYSTEMS : Z := 8.
Definition CONFIG_MAX_OPEN_FILES : Z := 512.
Definition NULL : Z := 0.

(** The function pointers of [fs_t], the name a volume has on disk, and the
    [init] function of the one driver in [filesystems.c]. *)
Class Filesystems (F : Type) := {
  fs_unmount : Z → K F Z;
  fs_open : Z → bytes → K F Z;
  fs_close : Z → Z → K F Z;
  fs_read : Z → Z → Z → bytes → Z → Z → K F (Z * bytes);
  fs_write : Z → Z → Z → bytes → Z → Z → K F Z;
  fs_create : Z → bytes → Z → K F Z;
  fs_remove : Z → bytes → K F Z;
  fs_getfree : Z → K F Z;
  fs_volume_name : F → Z → bytes;
  fs_init : Z → K F Z;
}.

(** ** State *)

(** [vfs_entry_t] and [openfile_entry_t] *)
Record vfs_entry := mk_entry { filesystem : Z; mountpoint : bytes }.
Record openfile_entry := mk_openfile { of_filesystem : Z; fileid : Z; seek_position : Z }.

(** The static variables of vfs.c. *)
Record vfs := mk_vfs {
  table_sem : option Z;
  filesystems : list vfs_entry;
  openfile_sem : option Z;
  files : list openfile_entry;
  vfs_op_sem : option Z;
  vfs_unmount_sem : option Z;
  vfs_ops : Z;
  vfs_usable : bool;
}.

Definition set_table_sem (v : option Z) (s : vfs) : vfs :=
  mk_vfs v (filesystems s) (openfile_sem s) (files s) (vfs_op_sem s) (vfs_unmount_sem s) (vfs_ops s) (vfs_usable s).
Definition set_filesystems (v : list vfs_entry) (s : vfs) : vfs :=
  mk_vfs (table_sem s) v (openfile_sem s) (files s) (vfs_op_sem s) (vfs_unmount_sem s) (vfs_ops s) (vfs_usable s).
Definition set_openfile_sem (v : option Z) (s : vfs) : vfs :=
  mk_vfs (table_sem s) (filesystems s) v (files s) (vfs_op_sem s) (vfs_unmount_sem s) (vfs_ops s) (vfs_usable s).
Definition set_files (v : list openfile_entry) (s : vfs) : vfs :=
  mk_vfs (table_sem s) (filesystems s) (openfile_sem s) v (vfs_op_sem s) (vfs_unmount_sem s) (vfs_ops s) (vfs_usable s).
Definition set_op_sem (v : option Z) (s : vfs) : vfs :=
  mk_vfs (table_sem s) (filesystems s) (openfile_sem s) (files s) v (vfs_unmount_sem s) (vfs_ops s) (vfs_usable s).
Definition set_unmount_sem (v : option Z) (s : vfs) : vfs :=
  mk_vfs (table_sem s) (filesystems s) (openfile_sem s) (files s) (vfs_op_sem s) v (vfs_ops s) (vfs_usable s).
Definition set_ops (v : Z) (s : vfs) : vfs :=
  mk_vfs (table_sem s) (filesystems s) (openfile_sem s) (files s) (vfs_op_sem s) (vfs_unmount_sem s) v (vfs_usable s).
Definition set_usable (v : bool) (s : vfs) : vfs :=
  mk_vfs (table_sem s) (filesystems s) (openfile_sem s) (files s) (vfs_op_sem s) (vfs_unmount_sem s) (vfs_ops s) v.

(** ** Pathnames *)

(** The loop over the volume name, [n] turns before the limit: the error
    code, or what is left of the path and the number of characters stored. *)
Fixpoint parse_volume (n : nat) (i : Z) (path volumebuf : bytes) : res (Z + bytes * Z * bytes) :=
  match n with
  | O => Ok (inl VFS_INVALID_PARAMS)
  | S n' =>
      c ← aget path 0;
      if c =? 0 then Ok (inl VFS_ERROR)
      else if c =? 93 then Ok (inr (drop 1 path, i, volumebuf))
      else
        volumebuf ← aset volumebuf i c;
        parse_volume n' (i + 1) (drop 1 path) volumebuf
  end.

Fixpoint parse_filename (n : nat) (i : Z) (path filenamebuf : bytes) : res (Z * bytes) :=
  match n with
  | O => Ok (VFS_INVALID_PARAMS, filenamebuf)
  | S n' =>
      c ← aget path 0;
      filenamebuf ← aset filenamebuf i c;
      if c =? 0 then Ok (if i =? 0 then VFS_INVALID_PARAMS else VFS_OK, filenamebuf)
      else parse_filename n' (i + 1) (drop 1 path) filenamebuf
  end.

(** The result and the two buffers. *)
Definition vfs_parse_pathname (pathname volumebuf filenamebuf : bytes) : res (Z * bytes * bytes) :=
  c ← aget pathname 0;
  v ← (if c =? 91
       then parse_volume (Z.to_nat (VFS_NAME_LENGTH - 1)) 0 (drop 1 pathname) volumebuf
       else Ok (inr (pathname, 0, volumebuf)));
  match v with
  | inl err => Ok (err, volumebuf, filenamebuf)
  | inr (path, i, volumebuf) =>
      volumebuf ← aset volumebuf i 0;
      '(ret, filenamebuf) ← parse_filename (Z.to_nat VFS_NAME_LENGTH) 0 path filenamebuf;
      Ok (ret, volumebuf, filenamebuf)
  end.

Section vfs.
Context {F : Type} `{Filesystems F}.
(** What an uninitialised array of [VFS_NAME_LENGTH] characters holds. *)
Context (junk : bytes).

Definition vstate : Type := (vfs * F)%type.

Definition modv (f : vfs → vfs) : K vstate unit := modify (λ s, (f (fst s), snd s)).
(** A call through a function pointer of the driver. *)
Definition driver {A} (m : K F A) : K vstate A := zoom snd (λ f s, (fst s, f)) m.

Definition vfs_P (get : vfs → option Z) (set : option Z → vfs → vfs) : K vstate unit := λ s,
  match get (fst s) with
  | None => Undef
  | Some v => if 0 <? v then Ok (tt, (set (Some (v - 1)) (fst s), snd s)) else Block
  end.
Definition vfs_V (get : vfs → option Z) (set : option Z → vfs → vfs) : K vstate unit := λ s,
  match get (fst s) with
  | None => Undef
  | Some v => Ok (tt, (set (Some (v + 1)) (fst s), snd s))
  end.

Definition P_table : K vstate unit := vfs_P table_sem set_table_sem.
Definition V_table : K vstate unit := vfs_V table_sem set_table_sem.
Definition P_open : K vstate unit := vfs_P openfile_sem set_openfile_sem.
Definition V_open : K vstate unit := vfs_V openfile_sem set_openfile_sem.
Definition P_op : K vstate unit := vfs_P vfs_op_sem set_op_sem.
Definition V_op : K vstate unit := vfs_V vfs_op_sem set_op_sem.

(** ** Initialisation and shutdown *)

(** [create v] is [semaphore_create(v)], false when it returns [NULL]. *)
Definition vfs_init (create : Z → K F bool) : K vstate unit :=
  a ← driver (create 1);
  modv (set_table_sem (if a : bool then Some 1 else None));;
  b ← driver (create 1);
  modv (set_openfile_sem (if b : bool then Some 1 else None));;
  kassert (a && b);;
  modv (λ s, set_filesystems (map (λ e, mk_entry NULL (mountpoint e)) (filesystems s)) s);;
  modv (λ s, set_files (map (λ e, mk_openfile NULL (fileid e) (seek_position e)) (files s)) s);;
  c ← driver (create 1);
  modv (set_op_sem (if c : bool then Some 1 else None));;
  u ← driver (create 0);
  modv (set_unmount_sem (if u : bool then Some 0 else None));;
  modv (set_ops 0);;
  modv (set_usable true).

Definition vfs_start_op : K vstate Z :=
  P_op;;
  s ← gets fst;
  ret ← (if vfs_usable s then modv (set_ops (vfs_ops s + 1));; mret VFS_OK else mret VFS_UNUSABLE);
  V_op;;
  mret ret.

Definition vfs_end_op : K vstate unit :=
  P_op;;
  modv (λ s, set_ops (vfs_ops s - 1) s);;
  s ← gets fst;
  kassert (0 <=? vfs_ops s);;
  (if negb (vfs_usable s) && (vfs_ops s =? 0) then vfs_V vfs_unmount_sem set_unmount_sem else mret tt);;
  V_op.

(** [vfs_deinit] in the three parts between which other threads may run. *)
Definition deinit_begin : K vstate bool :=
  P_op;;
  modv (set_usable false);;
  s ← gets fst;
  if 0 <? vfs_ops s then V_op;; mret true else mret false.

Definition deinit_resume : K vstate unit :=
  vfs_P vfs_unmount_sem set_unmount_sem;;
  P_op;;
  s ← gets fst;
  kassert (vfs_ops s =? 0).

(** [filesystems[row].filesystem = fs] *)
Definition set_filesystem (row fs : Z) : K vstate unit :=
  s ← gets fst;
  e ← pure (aget (filesystems s) row);
  l ← pure (aset (filesystems s) row (mk_entry fs (mountpoint e)));
  modv (set_filesystems l).

Definition deinit_unmount : K vstate unit :=
  P_table;;
  P_open;;
  for_each (Z.to_nat CONFIG_MAX_FILESYSTEMS) 0 (λ row,
    s ← gets fst;
    e ← pure (aget (filesystems s) row);
    if negb (filesystem e =? NULL) then
      driver (fs_unmount (filesystem e));;
      set_filesystem row NULL
    else mret tt);;
  V_open;;
  V_table;;
  V_op.

Definition vfs_deinit : K vstate unit :=
  wait ← deinit_begin;
  (if wait : bool then deinit_resume else mret tt);;
  deinit_unmount.

(** ** Mounting *)

(** The first row whose mountpoint is [name]. *)
Fixpoint find_mountpoint (rows : list vfs_entry) (row : Z) (name : bytes) : res (option Z) :=
  match rows with
  | [] => Ok None
  | e :: rows' =>
      c ← stringcmp (mountpoint e) name;
      if c =? 0 then Ok (Some row) else find_mountpoint rows' (row + 1) name
  end.

Definition vfs_get_filesystem (name : bytes) : K vstate Z :=
  s ← gets fst;
  row ← pure (find_mountpoint (filesystems s) 0 name);
  match row with
  | None => mret NULL
  | Some row => e ← pure (aget (filesystems s) row); mret (filesystem e)
  end.

(** End the operation with a result. *)
Definition finish (ret : Z) : K vstate Z := vfs_end_op;; mret ret.

Definition vfs_mount (fs : Z) (name : bytes) : K vstate Z :=
  c ← pure (aget name 0);
  kassert (negb (c =? 0));;
  r ← vfs_start_op;
  if negb (r =? VFS_OK) then mret VFS_UNUSABLE
  else
    P_table;;
    s ← gets fst;
    match list_find (λ e, filesystem e = NULL) (filesystems s) with
    | None => V_table;; finish VFS_LIMIT
    | Some (row, _) =>
        dup ← pure (find_mountpoint (filesystems s) 0 name);
        match dup with
        | Some _ => V_table;; finish VFS_ERROR
        | None =>
            e ← pure (aget (filesystems s) (Z.of_nat row));
            mp ← pure (stringcopy (mountpoint e) name VFS_NAME_LENGTH);
            l ← pure (aset (filesystems s) (Z.of_nat row) (mk_entry fs mp));
            modv (set_filesystems l);;
            V_table;;
            finish VFS_OK
        end
    end.

Definition filesystems_try_all (disk : Z) : K vstate Z := driver (fs_init disk).

(** [volumename] is [None] for the null pointer. *)
Definition vfs_mount_fs (disk : Z) (volumename : option bytes) : K vstate Z :=
  fs ← filesystems_try_all disk;
  if fs =? NULL then mret VFS_NO_SUCH_FS
  else
    f ← gets snd;
    let volumename := default (fs_volume_name f fs) volumename in
    c ← pure (aget volumename 0);
    if c =? 0 then driver (fs_unmount fs);; mret VFS_INVALID_PARAMS
    else
      ret ← vfs_mount fs volumename;
      if ret =? VFS_OK then mret ret
      else driver (fs_unmount fs);; mret ret.

(** [device_get] gives the n-th disk: [None] when there is none, else its
    generic device, [NULL] when the driver is invalid. *)
Fixpoint mount_all_loop (n : nat) (i : Z) (device_get : Z → option Z) : K vstate unit :=
  match n with
  | O => mret tt
  | S n' =>
      match device_get i with
      | None => mret tt
      | Some gbd =>
          (if gbd =? NULL then mret tt else vfs_mount_fs gbd None;; mret tt);;
          mount_all_loop n' (i + 1) device_get
      end
  end.
Definition vfs_mount_all (device_get : Z → option Z) : K vstate unit :=
  mount_all_loop (Z.to_nat CONFIG_MAX_FILESYSTEMS) 0 device_get.

Definition vfs_unmount (name : bytes) : K vstate Z :=
  r ← vfs_start_op;
  if negb (r =? VFS_OK) then mret VFS_UNUSABLE
  else
    P_table;;
    s ← gets fst;
    row ← pure (find_mountpoint (filesystems s) 0 name);
    fs ← match row with
         | None => mret NULL
         | Some row => e ← pure (aget (filesystems s) row); mret (filesystem e)
         end;
    if fs =? NULL then V_table;; finish VFS_NOT_FOUND
    else
      P_open;;
      s ← gets fst;
      match list_find (λ e, of_filesystem e = fs) (files s) with
      | Some _ => V_open;; V_table;; finish VFS_IN_USE
      | None =>
          driver (fs_unmount fs);;
          set_filesystem (default 0 row) NULL;;
          V_open;;
          V_table;;
          finish VFS_OK
      end.

(** ** Open files *)

(** [openfile_table.files[file] = e] *)
Definition set_file (file : Z) (e : openfile_entry) : K vstate unit :=
  s ← gets fst;
  l ← pure (aset (files s) file e);
  modv (set_files l).

Definition vfs_open (pathname : bytes) : K vstate Z :=
  r ← vfs_start_op;
  if negb (r =? VFS_OK) then mret VFS_UNUSABLE
  else
    '(ret, volumename, filename) ← pure (vfs_parse_pathname pathname junk junk);
    if negb (ret =? VFS_OK) then finish VFS_INVALID_PARAMS
    else
      P_table;;
      P_open;;
      s ← gets fst;
      match list_find (λ e, of_filesystem e = NULL) (files s) with
      | None => V_open;; V_table;; finish VFS_LIMIT
      | Some (n, e) =>
          let file := Z.of_nat n in
          fs ← vfs_get_filesystem volumename;
          if fs =? NULL then V_open;; V_table;; finish VFS_NO_SUCH_FS
          else
            set_file file (mk_openfile fs (fileid e) (seek_position e));;
            V_open;;
            V_table;;
            fid ← driver (fs_open fs filename);
            if fid <? 0 then
              P_open;;
              set_file file (mk_openfile NULL (fileid e) (seek_position e));;
              V_open;;
              finish fid
            else
              set_file file (mk_openfile fs fid 0);;
              finish file
      end.

Definition vfs_verify_open (file : Z) : K vstate (option openfile_entry) :=
  if (file <? 0) || (CONFIG_MAX_OPEN_FILES <=? file) then mret None
  else
    s ← gets fst;
    e ← pure (aget (files s) file);
    mret (if of_filesystem e =? NULL then None else Some e).

Definition vfs_close (file : Z) : K vstate Z :=
  r ← vfs_start_op;
  if negb (r =? VFS_OK) then mret VFS_UNUSABLE
  else
    P_open;;
    o ← vfs_verify_open file;
    match o with
    | None => V_open;; mret VFS_NOT_OPEN
    | Some e =>
        ret ← driver (fs_close (of_filesystem e) (fileid e));
        set_file file (mk_openfile NULL (fileid e) (seek_position e));;
        V_open;;
        finish ret
    end.

Definition vfs_seek (file seek_position : Z) : K vstate Z :=
  r ← vfs_start_op;
  if negb (r =? VFS_OK) then mret VFS_UNUSABLE
  else
    kassert (0 <=? seek_position);;
    P_open;;
    o ← vfs_verify_open file;
    match o with
    | None => V_open;; mret VFS_NOT_OPEN
    | Some e =>
        set_file file (mk_openfile (of_filesystem e) (fileid e) seek_position);;
        V_open;;
        finish VFS_OK
    end.

Definition vfs_tell (file : Z) : K vstate Z :=
  r ← vfs_start_op;
  if negb (r =? VFS_OK) then mret VFS_UNUSABLE
  else
    P_open;;
    o ← vfs_verify_open file;
    match o with
    | None => V_open;; mret VFS_NOT_OPEN
    | Some e => V_open;; finish (seek_position e)
    end.

(** [openfile->seek_position += ret] under the lock, when [ret > 0]; the sum
    of two [int]s has no meaning when it overflows. *)
Definition advance (file ret : Z) : K vstate unit :=
  if 0 <? ret then
    P_open;;
    s ← gets fst;
    e ← pure (aget (files s) file);
    pos ← pure (int_op (seek_position e + ret));
    set_file file (mk_openfile (of_filesystem e) (fileid e) pos);;
    V_open
  else mret tt.

(** The caller's buffer is at address [baddr], 0 for a null pointer. *)
Definition vfs_read (file baddr : Z) (buffer : bytes) (bufsize : Z) : K vstate (Z * bytes) :=
  if (bufsize <? 0) || (baddr =? NULL) then mret (VFS_INVALID_PARAMS, buffer)
  else
    r ← vfs_start_op;
    if negb (r =? VFS_OK) then mret (VFS_UNUSABLE, buffer)
    else
      P_open;;
      o ← vfs_verify_open file;
      match o with
      | None => V_open;; mret (VFS_NOT_OPEN, buffer)
      | Some e =>
          V_open;;
          '(ret, buffer) ← driver (fs_read (of_filesystem e) (fileid e) baddr buffer bufsize (seek_position e));
          advance file ret;;
          ret ← finish ret;
          mret (ret, buffer)
      end.

Definition vfs_write (file baddr : Z) (buffer : bytes) (datasize : Z) : K vstate Z :=
  if (datasize <? 0) || (baddr =? NULL) then mret VFS_INVALID_PARAMS
  else
    r ← vfs_start_op;
    if negb (r =? VFS_OK) then mret VFS_UNUSABLE
    else
      P_open;;
      o ← vfs_verify_open file;
      match o with
      | None => V_open;; mret VFS_NOT_OPEN
      | Some e =>
          V_open;;
          ret ← driver (fs_write (of_filesystem e) (fileid e) baddr buffer datasize (seek_position e));
          advance file ret;;
          finish ret
      end.

(** ** Operations on whole files *)

(** The part [vfs_create] and [vfs_remove] share. *)
Definition on_volume (pathname : bytes) (call : Z → bytes → K F Z) : K vstate Z :=
  '(ret, volumename, filename) ← pure (vfs_parse_pathname pathname junk junk);
  if negb (ret =? VFS_OK) then finish VFS_INVALID_PARAMS
  else
    P_table;;
    fs ← vfs_get_filesystem volumename;
    if fs =? NULL then V_table;; finish VFS_NO_SUCH_FS
    else
      ret ← driver (call fs filename);
      V_table;;
      finish ret.

Definition vfs_create (pathname : bytes) (size : Z) : K vstate Z :=
  kassert (0 <=? size);;
  r ← vfs_start_op;
  if negb (r =? VFS_OK) then mret VFS_UNUSABLE
  else on_volume pathname (λ fs filename, fs_create fs filename size).

Definition vfs_remove (pathname : bytes) : K vstate Z :=
  r ← vfs_start_op;
  if negb (r =? VFS_OK) then mret VFS_UNUSABLE
  else on_volume pathname fs_remove.

Definition vfs_getfree (name : bytes) : K vstate Z :=
  r ← vfs_start_op;
  if negb (r =? VFS_OK) then mret VFS_UNUSABLE
  else
    P_table;;
    fs ← vfs_get_filesystem name;
    if fs =? NULL then V_table;; finish VFS_NO_SUCH_FS
    else
      ret ← driver (fs_getfree fs);
      V_table;;
      finish ret.

End vfs.
