(* ===== verification/VfsSpec.v ===== *)
(** * What the virtual filesystem promises

    Pathnames; the count of operations in progress and the shutdown that
    waits for it; mounting; and reading and writing open files, proved over
    any driver that keeps the promises of [FileStore], which [VfsTfs] shows the
    trivial filesystem to keep. *)

From S2P Require Import Prelude Libc FsCodes Vfs.
Local Open Scope Z_scope.

(** ** Pathnames *)

(** The string [p] is a full name of file [name] on volume [vol]. *)
Definition path_of (p vol name : bytes) : Prop :=
  (p = 91 :: vol ++ 93 :: name ∧ (93 ∉ vol) ∧ (length vol ≤ 14)%nat ∨ p = name ∧ vol = [] ∧ head p ≠ Some 91) ∧
  (1 ≤ length name ≤ 15)%nat.

Lemma cstr_cons c l a : cstr (c :: l) = Some a → c ≠ 0 → ∃ a', a = c :: a' ∧ cstr l = Some a'.
Proof.
  cbn [cstr]. intros Ha Hc. rewrite (proj2 (Z.eqb_neq c 0) Hc) in Ha.
  destruct (cstr l) as [a'|]; [| done]. exists a'. split; [congruence | done].
Qed.

Lemma cstr_nil_cons c l : cstr (c :: l) = Some [] → c = 0.
Proof. cbn [cstr]. destruct (Z.eqb_spec c 0); [done |]. by destruct (cstr l). Qed.

Lemma parse_filename_Ok n : ∀ i path buf p,
  cstr path = Some p → (i + n ≤ length buf)%nat →
  ∃ r buf', parse_filename n (Z.of_nat i) path buf = Ok (r, buf') ∧ length buf' = length buf ∧
    if decide (length p < n)%nat
    then r = (if decide (i + length p = 0)%nat then VFS_INVALID_PARAMS else VFS_OK) ∧ buf' = splice i (p ++ [0]) buf
    else r = VFS_INVALID_PARAMS.
Proof.
  induction n as [|n IH]; intros i path buf p Hp Hl; cbn [parse_filename].
  { exists VFS_INVALID_PARAMS, buf. split_and!; [done | done |]. by rewrite decide_False by lia. }
  destruct path as [|c path]; [done |]. unfold mbind, res_bind. change (aget (c :: path) 0) with (Ok c). cbv beta iota.
  rewrite aset_nat by lia. destruct (Z.eqb_spec c 0) as [->|Hc].
  - cbn [cstr] in Hp. injection Hp as <-. eexists _, _. split; [done |]. rewrite length_insert. split; [done |].
    rewrite decide_True by (simpl; lia). split.
    + destruct (Z.eqb_spec (Z.of_nat i) 0); [rewrite decide_True by (simpl; lia) | rewrite decide_False by (simpl; lia)]; done.
    + simpl. rewrite <- splice_cons, splice_nil by (simpl; lia). done.
  - destruct (cstr_cons _ _ _ Hp Hc) as (p' & -> & Hp'). change (drop 1 (c :: path)) with path.
    replace (Z.of_nat i + 1) with (Z.of_nat (S i)) by lia.
    destruct (IH (S i) path (<[i:=c]> buf) p' Hp') as (r & buf' & -> & Hbl & Hr); [rewrite length_insert; lia |].
    exists r, buf'. rewrite length_insert in Hbl. split_and!; [done | done |].
    case_decide as H1; [rewrite decide_True by (simpl; lia) | rewrite decide_False by (simpl; lia); done].
    destruct Hr as [-> ->]. split.
    + rewrite decide_False by lia. by rewrite decide_False by (simpl; lia).
    + simpl. rewrite splice_cons; [done |]. rewrite length_app. simpl. lia.
Qed.

Lemma parse_volume_Ok n : ∀ i path buf p,
  cstr path = Some p → (i + n ≤ length buf)%nat →
  ∃ v, parse_volume n (Z.of_nat i) path buf = Ok v ∧
    match v with
    | inl err => err ≠ VFS_OK ∧ ∀ vol rest, p = vol ++ 93 :: rest → 93 ∉ vol → (n ≤ length vol)%nat
    | inr (path', j, buf') => ∃ vol rest, p = vol ++ 93 :: rest ∧ (93 ∉ vol) ∧ (length vol < n)%nat ∧
        cstr path' = Some rest ∧ j = Z.of_nat (i + length vol) ∧ buf' = splice i vol buf
    end.
Proof.
  induction n as [|n IH]; intros i path buf p Hp Hl; cbn [parse_volume].
  { exists (inl VFS_INVALID_PARAMS). split; [done |]. split; [done | lia]. }
  destruct path as [|c path]; [done |]. unfold mbind, res_bind. change (aget (c :: path) 0) with (Ok c). cbv beta iota.
  destruct (Z.eqb_spec c 0) as [->|Hc].
  { exists (inl VFS_ERROR). split; [done |]. split; [done |]. cbn [cstr] in Hp. injection Hp as <-. by intros [|]. }
  destruct (cstr_cons _ _ _ Hp Hc) as (p' & -> & Hp'). change (drop 1 (c :: path)) with path.
  destruct (Z.eqb_spec c 93) as [->|H93].
  { eexists (inr _). split; [done |]. exists [], p'. rewrite splice_nil. split_and!; try done; [set_solver | simpl; lia | simpl; lia]. }
  rewrite aset_nat by lia. replace (Z.of_nat i + 1) with (Z.of_nat (S i)) by lia.
  destruct (IH (S i) path (<[i:=c]> buf) p' Hp') as (v & -> & Hv); [rewrite length_insert; lia |].
  exists v. split; [done |]. destruct v as [err|[[path' j] buf']].
  - destruct Hv as [? Hv]. split; [done |]. intros [|x vol] rest; [by intros [= ->] |].
    intros [= -> Hr] Hn. specialize (Hv vol rest Hr ltac:(set_solver)). simpl. lia.
  - destruct Hv as (vol & rest & -> & Hn & Hlt & Hpath & -> & ->). exists (c :: vol), rest.
    split_and!; [done | set_solver | simpl; lia | done | simpl; lia |]. apply splice_cons. lia.
Qed.

Lemma cstr_splice l buf : 0 ∉ l → (length l < length buf)%nat → cstr (splice 0 (l ++ [0]) buf) = Some l.
Proof.
  intros H0 Hl. apply cstr_Some. split; [| done]. unfold splice. simpl. rewrite <- app_assoc. simpl. eauto.
Qed.

Lemma splice_end vol (buf : bytes) :
  (length vol < length buf)%nat → <[length vol := 0]> (splice 0 vol buf) = splice 0 (vol ++ [0]) buf.
Proof.
  intros Hl. rewrite <- (splice_splice 0 vol [0]) by (simpl; lia). simpl.
  rewrite <- splice_cons, splice_nil by (rewrite splice_length; simpl; lia). done.
Qed.

Lemma vol_unique (vol vol' name name' : bytes) :
  vol ++ 93 :: name = vol' ++ 93 :: name' → 93 ∉ vol → 93 ∉ vol' → vol = vol' ∧ name = name'.
Proof.
  revert vol'. induction vol as [|x vol IH]; intros [|y vol']; simpl.
  - by intros [= ->].
  - intros [= -> _] _ []. set_solver.
  - intros [= -> _] []. set_solver.
  - intros [= -> He] H1 H2. destruct (IH vol' He) as [-> ->]; [set_solver | set_solver | done].
Qed.

(** The parser accepts exactly the full names. *)
Lemma parse_pathname_Ok pathname p vbuf fbuf :
  cstr pathname = Some p → length vbuf = 16%nat → length fbuf = 16%nat →
  ∃ ret vb fb, vfs_parse_pathname pathname vbuf fbuf = Ok (ret, vb, fb) ∧
    ((ret = VFS_OK ∧ ∃ vol name, path_of p vol name ∧ cstr vb = Some vol ∧ cstr fb = Some name) ∨
     (ret ≠ VFS_OK ∧ ∀ vol name, ¬ path_of p vol name)).
Proof.
  intros Hp Hvl Hfl. pose proof (proj2 (proj1 (cstr_Some _ _) Hp)) as Hp0.
  destruct pathname as [|c path]; [done |]. unfold vfs_parse_pathname, mbind, res_bind.
  change (aget (c :: path) 0) with (Ok c). cbv beta iota.
  (* what follows the volume name *)
  assert (Hfile : ∀ path' vol name vb', cstr path' = Some name → 0 ∉ name → 0 ∉ vol → (length vol ≤ 14)%nat →
    vb' = splice 0 (vol ++ [0]) vbuf →
    (∀ vol' name', path_of p vol' name' ↔ vol' = vol ∧ name' = name ∧ (1 ≤ length name ≤ 15)%nat) →
    ∃ ret vb fb, match parse_filename (Z.to_nat VFS_NAME_LENGTH) 0 path' fbuf with
      | Ok a => (λ '(ret, fb), Ok (ret, vb', fb)) a | Panic e => Panic e | Block => Block | Undef => Undef | NoFuel => NoFuel
      end = Ok (ret, vb, fb) ∧
      ((ret = VFS_OK ∧ ∃ vol name, path_of p vol name ∧ cstr vb = Some vol ∧ cstr fb = Some name) ∨
       (ret ≠ VFS_OK ∧ ∀ vol name, ¬ path_of p vol name))).
  { intros path' vol name vb' Hname Hn0 Hv0 Hvol -> Hiff.
    destruct (parse_filename_Ok 16 0 path' fbuf name Hname) as (r & fb & He & Hbl & Hr); [lia |].
    change (Z.to_nat VFS_NAME_LENGTH) with 16%nat. change (Z.of_nat 0) with 0 in He. rewrite He. eexists _, _, _. split; [done |].
    case_decide as Hlen; [destruct Hr as [-> ->]; case_decide as Hz |].
    - right. split; [done |]. intros v n (_ & _ & ?)%Hiff. lia.
    - left. split; [done |]. exists vol, name. split; [apply Hiff; split_and!; [done | done | lia | lia] |].
      split; [apply cstr_splice; [done | lia] | apply cstr_splice; [done | lia]].
    - right. subst r. split; [done |]. intros v n (_ & _ & ?)%Hiff. lia. }
  destruct (Z.eqb_spec c 91) as [->|H91].
  - destruct (cstr_cons _ _ _ Hp) as (p' & -> & Hp'); [done |]. change (drop 1 (91 :: path)) with path.
    destruct (parse_volume_Ok 15 0 path vbuf p' Hp') as (v & Hv & Hpost); [lia |].
    change (Z.to_nat (VFS_NAME_LENGTH - 1)) with 15%nat. change (Z.of_nat 0) with 0 in Hv. rewrite Hv.
    destruct v as [err|[[path' j] vb']].
    + destruct Hpost as [Herr Hno]. eexists _, _, _. split; [done |]. right. split; [done |].
      intros vol name [[([= Hpe] & Hn & Hl)|(_ & _ & ?)] _]; [| done]. specialize (Hno vol name Hpe Hn). lia.
    + destruct Hpost as (vol & rest & -> & Hn & Hlt & Hpath & -> & ->). rewrite aset_nat by (rewrite splice_length; lia).
      simpl Nat.add. rewrite splice_end by lia. apply (Hfile path' vol rest); [done | set_solver | set_solver | lia | done |].
      intros vol' name'. split.
      * intros [[([= Hpe] & Hn' & Hl)|(_ & _ & ?)] Hlen]; [| done].
        destruct (vol_unique _ _ _ _ Hpe Hn Hn') as [-> ->]. done.
      * intros (-> & -> & Hlen). split; [left; split_and!; [done | done | lia] | done].
  - rewrite (aset_Ok vbuf 0) by lia. change (Z.to_nat 0) with 0%nat.
    apply (Hfile (c :: path) [] p); [done | done | set_solver | simpl; lia | |].
    + symmetry. simpl. rewrite <- splice_cons, splice_nil by (simpl; lia). done.
    + assert (Hh : head p ≠ Some 91).
      { destruct (decide (c = 0)) as [->|Hc]; [cbn [cstr] in Hp; by injection Hp as <- |].
        destruct (cstr_cons _ _ _ Hp Hc) as (p' & -> & _). simpl. congruence. }
      intros vol' name'. split.
      * intros [[(-> & _)|(-> & -> & _)] Hlen]; [done | done].
      * intros (-> & -> & Hlen). split; [right; done | done].
Qed.

(** The pathname parser accepts exactly the names ["[volume]file"] with a
    volume name of at most 14 characters and a file name of 1 to 15, and the
    names without a volume part; it then returns both parts as strings.  Any
    other name is an error, and no access leaves the two buffers. *)
Theorem vfs_parse_pathname_spec pathname p vbuf fbuf :
  cstr pathname = Some p → length vbuf = 16%nat → length fbuf = 16%nat →
  ∃ ret vb fb, vfs_parse_pathname pathname vbuf fbuf = Ok (ret, vb, fb) ∧
    (ret = VFS_OK ↔ ∃ vol name, path_of p vol name) ∧
    ∀ vol name, path_of p vol name → cstr vb = Some vol ∧ cstr fb = Some name.
Proof.
  intros Hp Hv Hf. destruct (parse_pathname_Ok pathname p vbuf fbuf Hp Hv Hf) as (ret & vb & fb & He & Hr).
  exists ret, vb, fb. split; [done |]. destruct Hr as [[-> (vol & name & Hpo & Hvb & Hfb)]|[Hne Hno]].
  - split; [by split; [exists vol, name |] |]. intros vol' name' Hpo'.
    assert (vol' = vol ∧ name' = name) as [-> ->]; [| done].
    destruct Hpo as [[(-> & Hn & _)|(-> & -> & Hh)] _], Hpo' as [[(He' & Hn' & _)|(He' & -> & Hh')] _].
    + injection He' as He'. by destruct (vol_unique _ _ _ _ He' Hn Hn') as [-> ->].
    + by subst.
    + subst. by destruct Hh.
    + by subst.
  - split; [split; [done |] |].
    + intros (vol & name & Hpo). by destruct (Hno vol name).
    + intros vol name Hpo. by destruct (Hno vol name).
Qed.

Lemma vfs_parse_pathname_spec_witness :
  ∃ ret vb fb, vfs_parse_pathname [91; 100; 93; 104; 105; 0] (replicate 16 7) (replicate 16 7) = Ok (ret, vb, fb) ∧
    ret = VFS_OK ∧ cstr vb = Some [100] ∧ cstr fb = Some [104; 105].
Proof.
  assert (Hpo : path_of [91; 100; 93; 104; 105] [100] [104; 105]).
  { split; [left; split; [reflexivity | split; [set_solver | simpl; lia]] | simpl; lia]. }
  destruct (vfs_parse_pathname_spec [91; 100; 93; 104; 105; 0] [91; 100; 93; 104; 105] (replicate 16 7) (replicate 16 7))
    as (ret & vb & fb & He & Hok & Hparts); [reflexivity | reflexivity | reflexivity |].
  exists ret, vb, fb. split; [exact He |]. split; [apply Hok; exists [100], [104; 105]; exact Hpo | exact (Hparts _ _ Hpo)].
Defined.

(** ** Operations in progress *)

Section ops.
Context {F : Type} `{Filesystems F}.
Context (junk : bytes).

(** No thread holds a lock, the system is up, and [vfs_ops] is not negative. *)
Record idle (s : vfs) : Prop := {
  id_table : table_sem s = Some 1;
  id_open : openfile_sem s = Some 1;
  id_op : vfs_op_sem s = Some 1;
  id_unmount : is_Some (vfs_unmount_sem s);
  id_usable : vfs_usable s = true;
  id_ops : 0 ≤ vfs_ops s;
  id_rows : length (filesystems s) = 8%nat;
  id_files : length (files s) = 512%nat;
}.

Lemma sem_P_wp get (set : option Z → vfs → vfs) s f (Q : unit → @vstate F → Prop) :
  get s = Some 1 → Q tt (set (Some 0) s, f) → wp (vfs_P get set) Q (s, f).
Proof. intros Hg HQ. unfold wp, vfs_P. cbn [fst snd]. by rewrite Hg. Qed.

Lemma sem_V_wp get (set : option Z → vfs → vfs) s f v (Q : unit → @vstate F → Prop) :
  get s = Some v → Q tt (set (Some (v + 1)) s, f) → wp (vfs_V get set) Q (s, f).
Proof. intros Hg HQ. unfold wp, vfs_V. cbn [fst snd]. by rewrite Hg. Qed.

Lemma modv_wp g s f (Q : unit → @vstate F → Prop) : Q tt (g s, f) → wp (modv g) Q (s, f).
Proof. done. Qed.

Lemma start_op_wp s f (Q : Z → @vstate F → Prop) :
  vfs_op_sem s = Some 1 → vfs_usable s = true →
  Q VFS_OK (set_ops (vfs_ops s + 1) s, f) → wp vfs_start_op Q (s, f).
Proof. destruct s. simpl. intros -> -> HQ. done. Qed.

Lemma end_op_wp s f (Q : unit → @vstate F → Prop) :
  vfs_op_sem s = Some 1 → vfs_usable s = true → 1 ≤ vfs_ops s →
  Q tt (set_ops (vfs_ops s - 1) s, f) → wp vfs_end_op Q (s, f).
Proof.
  destruct s as [ts fss os fl op us n u]. simpl. intros -> -> Hn HQ. unfold vfs_end_op, P_op, V_op.
  wp_step. apply sem_P_wp; [done |]. wp_step. apply modv_wp. do 3 wp_step. wp_step; [apply Z.leb_le; simpl; lia |].
  cbn [fst vfs_usable set_ops set_op_sem negb andb]. do 2 wp_step. by apply (sem_V_wp _ _ _ _ 0).
Qed.

Lemma finish_wp r s f (Q : Z → @vstate F → Prop) :
  vfs_op_sem s = Some 1 → vfs_usable s = true → 1 ≤ vfs_ops s →
  Q r (set_ops (vfs_ops s - 1) s, f) → wp (finish r) Q (s, f).
Proof. intros. unfold finish. wp_step. by apply end_op_wp; [.. | by wp_step]. Qed.

(** *** Shutting down

    Threads that start and end operations, and one that shuts the system
    down; [n] is the number of operations that have begun and not ended. *)
Inductive phase := Running | Waiting | Unmounting.

Inductive step : @vstate F * Z * phase → @vstate F * Z * phase → Prop :=
| step_start s s' n ph r :
    vfs_start_op s = Ok (r, s') → step (s, n, ph) (s', if r =? VFS_OK then n + 1 else n, ph)
| step_end s s' n ph :
    0 < n → vfs_end_op s = Ok (tt, s') → step (s, n, ph) (s', n - 1, ph)
| step_deinit s s' n w :
    deinit_begin s = Ok (w, s') → step (s, n, Running) (s', n, if w : bool then Waiting else Unmounting)
| step_resume s s' n :
    deinit_resume s = Ok (tt, s') → step (s, n, Waiting) (s', n, Unmounting).

Record shut_inv (c : @vstate F * Z * phase) : Prop := {
  sh_ops : vfs_ops (c.1.1.1) = c.1.2;
  sh_pos : 0 ≤ c.1.2;
  sh_usable : vfs_usable (c.1.1.1) = if c.2 is Running then true else false;
  sh_op : vfs_op_sem (c.1.1.1) = Some (if c.2 is Unmounting then 0 else 1);
  sh_unmount : vfs_unmount_sem (c.1.1.1) =
    Some (if c.2 is Waiting then if c.1.2 =? 0 then 1 else 0 else 0);
  sh_zero : c.2 = Unmounting → c.1.2 = 0;
}.


Lemma step_inv c c' : step c c' → shut_inv c → shut_inv c'.
Proof.
  intros Hstep [Hops Hpos Hus Hop Hum Hz].
  destruct Hstep as [[v f] s' n ph r He|[v f] s' n ph Hn He|[v f] s' n w He|[v f] s' n He];
    destruct v as [ts fss os fl op us k u]; cbn [fst snd vfs_ops vfs_usable vfs_op_sem vfs_unmount_sem] in *; subst.
  - destruct ph; cbv in He; try done; injection He as <- <-; constructor; simpl; try done; lia.
  - destruct ph; [| | done].
    + unfold vfs_end_op in He.
      assert (Hwp : wp vfs_end_op (λ _ s1, s1 = (mk_vfs ts fss os fl (Some 1) (Some 0) (n - 1) true, f))
        (mk_vfs ts fss os fl (Some 1) (Some 0) n true, f)) by (apply end_op_wp; [done | done | simpl; lia | done]).
      unfold wp, vfs_end_op in Hwp. rewrite He in Hwp. subst s'. constructor; simpl; done || lia.
    + unfold vfs_end_op, P_op, V_op, vfs_P, vfs_V, modv, modify, gets, kassert, mbind, K_bind, mret, K_ret in He.
      cbn in He. destruct (Z.leb_spec 0 (n - 1)); [| done]. cbn in He.
      rewrite (proj2 (Z.eqb_neq n 0)) in He by lia.
      destruct (Z.eqb_spec (n - 1) 0) as [E|E]; cbn in He; injection He as <-; constructor; simpl; try done; try lia.
      * by rewrite E.
      * by rewrite (proj2 (Z.eqb_neq _ _) E).
  - unfold deinit_begin, P_op, V_op, vfs_P, vfs_V, modv, modify, gets, mbind, K_bind, mret, K_ret in He. cbn in He.
    destruct (Z.ltb_spec 0 n); cbn in He; injection He as <- <-; constructor; simpl; try done; try lia.
    by rewrite (proj2 (Z.eqb_neq n 0)) by lia.
  - unfold deinit_resume, P_op, vfs_P, kassert, gets, mbind, K_bind, mret, K_ret in He. cbn in He.
    destruct (Z.eqb_spec n 0) as [E|]; cbn in He; [| done]. rewrite E in *. cbn in He. injection He as <-. constructor; simpl; done.
Qed.

(** A system that has just been initialised. *)
Definition fresh (c : @vstate F * Z * phase) : Prop :=
  idle c.1.1.1 ∧ vfs_ops c.1.1.1 = 0 ∧ vfs_unmount_sem c.1.1.1 = Some 0 ∧ c.1.2 = 0 ∧ c.2 = Running.

(** C12: Shutting down waits for the operations in progress, however starts and
    ends of operations are interleaved with it: [vfs_deinit] goes on to unmount
    the volumes only when no operation is in progress, the assertion after its
    wait never fails, and once the last operation has ended its wake-up is
    there, so that it does not wait for ever. *)
Theorem vfs_deinit_waits c s n ph :
  fresh c → rtc step c (s, n, ph) →
  (ph = Unmounting → n = 0 ∧ vfs_ops (fst s) = 0) ∧
  (ph = Waiting →
     (n = 0 → ∃ s', deinit_resume s = Ok (tt, s')) ∧ (0 < n → deinit_resume s = Block)).
Proof.
  intros (Hid & Ho & Hu & Hn & Hp) Hrtc.
  assert (H0 : shut_inv c).
  { destruct c as [[[v f] m] p]. simpl in *. subst. destruct Hid. constructor; simpl; done. }
  assert (Hinv : shut_inv (s, n, ph)).
  { clear Hid Ho Hu Hn Hp. induction Hrtc as [|x y z Hs _ IH]; [done |]. by apply IH, (step_inv x). }
  destruct s as [v f], v as [ts fss os fl op us k u], Hinv as [Hops Hpos Hus Hop Hum Hz]. simpl in *. subst.
  split; [intros ->; auto |]. intros ->. split.
  - intros ->. by eexists.
  - intros Hn'. unfold deinit_resume, mbind, K_bind, vfs_P. simpl. by rewrite (proj2 (Z.eqb_neq n 0)) by lia.
Qed.

(** *** Operations on a file that is not open *)

(** What [vfs_verify_open] accepts. *)
Definition open_at (s : vfs) (file : Z) (e : openfile_entry) : Prop :=
  0 ≤ file < CONFIG_MAX_OPEN_FILES ∧ files s !! Z.to_nat file = Some e ∧ of_filesystem e ≠ NULL.

Lemma verify_open_None s f file (Q : option openfile_entry → @vstate F → Prop) :
  length (files s) = 512%nat → (∀ e, ¬ open_at s file e) → Q None (s, f) → wp (vfs_verify_open file) Q (s, f).
Proof.
  intros Hl Hno HQ. unfold vfs_verify_open.
  destruct ((file <? 0) || (CONFIG_MAX_OPEN_FILES <=? file)) eqn:Hr; [by wp_step |].
  apply orb_false_iff in Hr as [H1 H2]. bool_prop. unfold CONFIG_MAX_OPEN_FILES in *.
  destruct (aget_total (files s) file) as (e & He & Hlk); [lia |].
  do 3 wp_step. cbn [fst]. eapply wp_pure; [exact He |]. cbv beta. wp_step.
  destruct (Z.eqb_spec (of_filesystem e) NULL) as [|Hne]; [done |]. destruct (Hno e). split; [unfold CONFIG_MAX_OPEN_FILES; lia | done].
Qed.

Lemma verify_open_Some s f file e (Q : option openfile_entry → @vstate F → Prop) :
  open_at s file e → Q (Some e) (s, f) → wp (vfs_verify_open file) Q (s, f).
Proof.
  intros (Hr & He & Hne) HQ. unfold vfs_verify_open.
  rewrite (proj2 (Z.ltb_ge file 0)), (proj2 (Z.leb_gt _ file)) by lia. cbn [orb].
  do 3 wp_step. cbn [fst]. eapply wp_pure; [apply aget_Ok; split; [lia | exact He] |]. cbv beta. wp_step.
  by rewrite (proj2 (Z.eqb_neq _ _) Hne).
Qed.

(** The five operations on an open file. *)
Inductive file_op := Close | Seek (pos : Z) | Tell | Read (baddr : Z) (buf : bytes) (n : Z) | Write (baddr : Z) (buf : bytes) (n : Z).

Definition run_file_op (file : Z) (o : file_op) : K (@vstate F) Z :=
  match o with
  | Close => vfs_close file
  | Seek pos => vfs_seek file pos
  | Tell => vfs_tell file
  | Read baddr buf n => r ← vfs_read file baddr buf n; mret (fst r)
  | Write baddr buf n => vfs_write file baddr buf n
  end.

(** Its parameters pass the checks that come first. *)
Definition file_op_ok (o : file_op) : Prop :=
  match o with
  | Close | Tell => True
  | Seek pos => 0 ≤ pos
  | Read baddr _ n | Write baddr _ n => 0 ≤ n ∧ baddr ≠ NULL
  end.

Lemma not_open_wp {A} s f file (ret : A) (k : openfile_entry → K (@vstate F) A) (Q : A → @vstate F → Prop) :
  idle s → (∀ e, ¬ open_at s file e) → Q ret (s, f) →
  wp (P_open;; o ← vfs_verify_open file; match o with None => V_open;; mret ret | Some e => k e end) Q (s, f).
Proof.
  intros Hid Hno HQ. unfold P_open, V_open. wp_step. apply sem_P_wp; [apply Hid |]. wp_step.
  apply verify_open_None; [by destruct s; apply Hid | by destruct s |]. wp_step.
  apply (sem_V_wp _ _ _ _ 0); [by destruct s | wp_step]. pose proof (id_open _ Hid) as Ho.
  destruct s. simpl in *. by subst.
Qed.

Lemma idle_ops s n : idle s → 0 ≤ n → idle (set_ops n s).
Proof. intros [] ?. by constructor. Qed.

Lemma leak_wp s f file o :
  idle s → (∀ e, ¬ open_at s file e) → file_op_ok o →
  wp (run_file_op file o) (λ r s', r = VFS_NOT_OPEN ∧ s' = (set_ops (vfs_ops s + 1) s, f)) (s, f).
Proof.
  intros Hid Hno Hok. pose proof (id_ops _ Hid) as Hpos.
  assert (Hid' : idle (set_ops (vfs_ops s + 1) s)) by (apply idle_ops; [done | lia]).
  assert (Hno' : ∀ e, ¬ open_at (set_ops (vfs_ops s + 1) s) file e) by (by destruct s).
  destruct o as [|pos| |baddr buf n|baddr buf n]; cbn [run_file_op file_op_ok] in *.
  - unfold vfs_close. wp_step. apply start_op_wp; [apply Hid .. |]. simpl. by apply not_open_wp.
  - unfold vfs_seek. wp_step. apply start_op_wp; [apply Hid .. |]. simpl. do 2 wp_step; [by apply Z.leb_le |]. by apply not_open_wp.
  - unfold vfs_tell. wp_step. apply start_op_wp; [apply Hid .. |]. simpl. by apply not_open_wp.
  - unfold vfs_read. destruct Hok as [Hn Hb]. wp_step.
    rewrite (proj2 (Z.ltb_ge n 0)), (proj2 (Z.eqb_neq _ _) Hb) by lia. cbn [orb].
    wp_step. apply start_op_wp; [apply Hid .. |]. cbn [Z.eqb negb VFS_OK].
    apply (not_open_wp _ _ _ (VFS_NOT_OPEN, buf)); done.
  - unfold vfs_write. destruct Hok as [Hn Hb].
    rewrite (proj2 (Z.ltb_ge n 0)), (proj2 (Z.eqb_neq _ _) Hb) by lia. cbn [orb].
    wp_step. apply start_op_wp; [apply Hid .. |]. cbn [Z.eqb negb VFS_OK]. by apply not_open_wp.
Qed.

(** With one operation counted that nobody will end, shutting down waits for ever. *)
Lemma leaked_deinit s (f : F) : idle s → vfs_unmount_sem s = Some 0 → vfs_deinit (set_ops 1 s, f) = Block.
Proof. intros Hid Hum. pose proof (id_op _ Hid) as Hop. destruct s as [ts fss os fl op us k u]. simpl in *. by subst. Qed.

(** The five operations on open files return [VFS_NOT_OPEN] for a file that
    is not open, but leave the operation counted as in progress: after one
    such call from an idle system, with no other thread in the filesystem,
    [vfs_deinit] waits for ever. *)
Theorem vfs_not_open_leaks s f file o :
  idle s → vfs_ops s = 0 → vfs_unmount_sem s = Some 0 → (∀ e, ¬ open_at s file e) → file_op_ok o →
  ∃ s', run_file_op file o (s, f) = Ok (VFS_NOT_OPEN, (s', f)) ∧ vfs_ops s' = 1 ∧ vfs_deinit (s', f) = Block.
Proof.
  intros Hid Hops Hum Hno Hok. pose proof (leak_wp s f file o Hid Hno Hok) as Hwp.
  apply wp_iff in Hwp as (r & s' & He & -> & ->). rewrite Hops in He.
  eexists. split; [exact He |]. split; [done | by apply leaked_deinit].
Qed.

End ops.

(** ** Mounting *)

(** The name of a row of the mount table. *)
Definition row_name (e : vfs_entry) : option bytes := cstr (mountpoint e).

(** Names are terminated, no two rows have the same one except the empty name
    of a row that was never used, which has no filesystem. *)
Record rows_ok (rows : list vfs_entry) : Prop := {
  ro_buf i e : rows !! i = Some e → length (mountpoint e) = 16%nat ∧ is_bytes (mountpoint e) ∧ is_Some (row_name e);
  ro_unique i j e e' : rows !! i = Some e → rows !! j = Some e' → row_name e = row_name e' → row_name e ≠ Some [] → i = j;
  ro_empty i e : rows !! i = Some e → row_name e = Some [] → filesystem e = NULL;
}.

Lemma find_mountpoint_Ok rows k name a :
  (∀ i e, rows !! i = Some e → is_bytes (mountpoint e) ∧ is_Some (row_name e)) → is_bytes name → cstr name = Some a →
  find_mountpoint rows k name =
  Ok (match list_find (λ e, row_name e = Some a) rows with Some (i, _) => Some (k + Z.of_nat i) | None => None end).
Proof.
  revert k. induction rows as [|e rows IH]; intros k Hok Hn Ha; [done |]. cbn [find_mountpoint list_find].
  destruct (Hok 0%nat e eq_refl) as [Hb [b Hbn]].
  destruct (stringcmp_eq (mountpoint e) name b a Hb Hn Hbn Ha) as (z & -> & Hz). unfold mbind, res_bind.
  assert (Hiff : z = 0 ↔ row_name e = Some a) by (rewrite Hbn, Hz; naive_solver).
  destruct (Z.eqb_spec z 0) as [E|E], (decide (row_name e = Some a)); try tauto; [by rewrite Z.add_0_r |].
  rewrite IH; [| intros i e' Hi; by apply (Hok (S i)) | done | done].
  destruct (list_find _ rows) as [[i e']|]; simpl; [| done]. do 2 f_equal. lia.
Qed.

(** The filesystem [vfs_get_filesystem] gives for a name. *)
Definition volume (rows : list vfs_entry) (a : bytes) : Z :=
  match list_find (λ e, row_name e = Some a) rows with Some (_, e) => filesystem e | None => NULL end.

Lemma volume_at rows i e a :
  rows_ok rows → rows !! i = Some e → row_name e = Some a → a ≠ [] → volume rows a = filesystem e.
Proof.
  intros Hok Hi Ha Hne. unfold volume. destruct (list_find _ rows) as [[j e']|] eqn:Hf.
  - apply list_find_Some in Hf as (Hj & Hn & _). assert (j = i) as ->; [| congruence].
    eapply (ro_unique _ Hok); [done | done | congruence | congruence].
  - rewrite list_find_None in Hf. by destruct (proj1 (Forall_lookup _ _) Hf i e Hi).
Qed.

Lemma volume_none rows a : rows_ok rows → (∀ i e, rows !! i = Some e → row_name e = Some a → filesystem e = NULL) → volume rows a = NULL.
Proof.
  intros Hok Hn. unfold volume. destruct (list_find _ rows) as [[j e']|] eqn:Hf; [| done].
  apply list_find_Some in Hf as (Hj & Ha & _). by eapply Hn.
Qed.

(** Two tables in which a name that is not empty stands for the same. *)
Lemma volume_ext rows rows' b :
  rows_ok rows → rows_ok rows' →
  (∀ i e, rows !! i = Some e → row_name e = Some b → filesystem e ≠ NULL →
     ∃ j e', rows' !! j = Some e' ∧ row_name e' = Some b ∧ filesystem e' = filesystem e) →
  (∀ i e, rows' !! i = Some e → row_name e = Some b → filesystem e ≠ NULL →
     ∃ j e', rows !! j = Some e' ∧ row_name e' = Some b ∧ filesystem e' = filesystem e) →
  volume rows' b = volume rows b.
Proof.
  intros Ho Ho' H1 H2. destruct (decide (b = [])) as [->|Hb].
  { rewrite !volume_none; [done | done | apply (ro_empty _ Ho) | done | apply (ro_empty _ Ho')]. }
  assert (Hnull : (∀ i e, rows !! i = Some e → row_name e = Some b → filesystem e = NULL) → volume rows' b = NULL).
  { intros Hn. apply volume_none; [done |]. intros i e Hi Hne. destruct (decide (filesystem e = NULL)) as [|Hfs]; [done |].
    destruct (H2 i e Hi Hne Hfs) as (j & e' & Hj & Hj' & He'). rewrite <- He'. by eapply Hn. }
  unfold volume at 2. destruct (list_find _ rows) as [[i e]|] eqn:Hf.
  - apply list_find_Some in Hf as (Hi & Hne & _). destruct (decide (filesystem e = NULL)) as [E|Hfs].
    + rewrite E. apply Hnull. intros j e' Hj Hj'. assert (j = i) as ->; [| congruence].
      eapply (ro_unique _ Ho); [done | done | congruence | congruence].
    + destruct (H1 i e Hi Hne Hfs) as (j & e' & Hj & Hj' & <-). by eapply volume_at.
  - apply Hnull. intros i e Hi Hne. rewrite list_find_None in Hf. by destruct (proj1 (Forall_lookup _ _) Hf i e Hi).
Qed.

Lemma insert_cases {A} (l : list A) r x i y :
  (r < length l)%nat → <[r := x]> l !! i = Some y → (i = r ∧ y = x) ∨ (i ≠ r ∧ l !! i = Some y).
Proof.
  intros Hr Hi. destruct (decide (i = r)) as [->|Hne].
  - rewrite list_lookup_insert_eq in Hi by done. left. split; congruence.
  - rewrite list_lookup_insert_ne in Hi by done. by right.
Qed.

(** A row that gets a name no other row has. *)
Lemma rows_ok_name rows r e' a :
  rows_ok rows → (r < length rows)%nat → (∀ i e, rows !! i = Some e → row_name e ≠ Some a) →
  length (mountpoint e') = 16%nat → is_bytes (mountpoint e') → row_name e' = Some a → a ≠ [] →
  rows_ok (<[r := e']> rows).
Proof.
  intros [Hb Hu He] Hr Hno Hl Hby Ha Hne. constructor.
  - intros i e [[-> ->]|[_ Hi]]%insert_cases; [by rewrite Ha | by eapply Hb | done].
  - intros i j e1 e2 [[-> ->]|[Hi1 Hi]]%insert_cases; [| | done];
      (intros [[-> ->]|[Hj1 Hj]]%insert_cases; [| | done]); try done.
    + intros Heq _. destruct (Hno j e2 Hj). congruence.
    + intros Heq _. destruct (Hno i e1 Hi). congruence.
    + by eapply Hu.
  - intros i e [[-> ->]|[_ Hi]]%insert_cases; [congruence | by eapply He | done].
Qed.

(** A row that keeps its name and loses its filesystem. *)
Lemma rows_ok_clear rows r e :
  rows_ok rows → rows !! r = Some e → rows_ok (<[r := mk_entry NULL (mountpoint e)]> rows).
Proof.
  intros [Hb Hu He] Hr. pose proof (lookup_lt_Some _ _ _ Hr) as Hlt. constructor.
  - intros i e1 [[-> ->]|[_ Hi]]%insert_cases; [by apply (Hb r e) | by eapply Hb | done].
  - intros i j e1 e2 [[-> ->]|[Hi1 Hi]]%insert_cases; [| | done];
      (intros [[-> ->]|[Hj1 Hj]]%insert_cases; [| | done]); try done; simpl.
    + intros Hn1 Hn2. by eapply (Hu r j e e2).
    + intros Hn1 Hn2. by eapply (Hu i r e1 e).
    + by eapply Hu.
  - intros i e1 [[-> ->]|[_ Hi]]%insert_cases; [done | by eapply He | done].
Qed.

Section mounting.
Context {F : Type} `{Filesystems F}.

Lemma P_table_wp s f (Q : unit → @vstate F → Prop) :
  table_sem s = Some 1 → Q tt (set_table_sem (Some 0) s, f) → wp P_table Q (s, f).
Proof. apply sem_P_wp. Qed.

(** Release the table and end the operation. *)
Lemma V_table_finish_wp r s f (Q : Z → @vstate F → Prop) :
  idle s → Q r (s, f) →
  wp (V_table;; finish r) Q (set_table_sem (Some 0) (set_ops (vfs_ops s + 1) s), f).
Proof.
  intros Hid HQ. pose proof (id_ops _ Hid) as Hpos. pose proof (id_table _ Hid) as Ht.
  unfold V_table. wp_step. apply (sem_V_wp _ _ _ _ 0); [by destruct s |]. apply finish_wp.
  - by destruct s; apply Hid.
  - by destruct s; apply Hid.
  - destruct s. simpl in *. lia.
  - destruct s as [ts fss os fl op us n u]. simpl in *. subst. by replace (n + 1 - 1) with n by lia.
Qed.

Lemma find_row_wp rows name a σ (Q : option Z → @vstate F → Prop) :
  rows_ok rows → is_bytes name → cstr name = Some a →
  Q (match list_find (λ e, row_name e = Some a) rows with Some (i, _) => Some (Z.of_nat i) | None => None end) σ →
  wp (pure (find_mountpoint rows 0 name)) Q σ.
Proof.
  intros Hok Hn Ha HQ. eapply wp_pure; [apply (find_mountpoint_Ok _ _ _ a); [| done | done] |].
  - intros i e Hi. destruct (ro_buf _ Hok i e Hi) as (_ & ? & ?). done.
  - done.
Qed.

Lemma idle_rows s rows : idle s → length rows = 8%nat → idle (set_filesystems rows s).
Proof. intros [] ?. by constructor. Qed.

Lemma vfs_mount_wp fs name a s (f : F) :
  idle s → rows_ok (filesystems s) → is_bytes name → cstr name = Some a → a ≠ [] → (length a ≤ 15)%nat →
  wp (vfs_mount fs name) (λ r s', 
    let rows := filesystems s in
    match list_find (λ e, filesystem e = NULL) rows, list_find (λ e, row_name e = Some a) rows with
    | None, _ => r = VFS_LIMIT ∧ s' = (s, f)
    | Some _, Some _ => r = VFS_ERROR ∧ s' = (s, f)
    | Some (i, e), None => r = VFS_OK ∧ ∃ mp, length mp = 16%nat ∧ is_bytes mp ∧ cstr mp = Some a ∧
        s' = (set_filesystems (<[i := mk_entry fs mp]> rows) s, f)
    end) (s, f).
Proof.
  intros Hid Hok Hb Ha Hne Hla. unfold vfs_mount.
  assert (Hc : ∃ c, aget name 0 = Ok c ∧ c ≠ 0).
  { destruct name as [|c name]; [done |]. exists c. split; [done |]. intros ->. simpl in Ha. congruence. }
  destruct Hc as (c & Hc & Hc0). wp_step. eapply wp_pure; [exact Hc |]. cbv beta.
  do 2 wp_step. { by rewrite (proj2 (Z.eqb_neq c 0) Hc0). }
  wp_step. apply start_op_wp; [apply Hid .. |]. cbn [Z.eqb negb VFS_OK].
  wp_step. apply P_table_wp; [by destruct s; apply Hid |]. do 2 wp_step. cbn [fst].
  change (filesystems (set_table_sem (Some 0) (set_ops (vfs_ops s + 1) s))) with (filesystems s).
  destruct (list_find (λ e, filesystem e = NULL) (filesystems s)) as [[i e]|] eqn:Hfree;
    [| apply V_table_finish_wp; done].
  wp_step. apply (find_row_wp _ name a); [done | done | done |].
  destruct (list_find (λ e, row_name e = Some a) (filesystems s)) as [[j e']|] eqn:Hdup;
    [apply V_table_finish_wp; done |].
  apply list_find_Some in Hfree as (Hi & Hnull & _). pose proof (lookup_lt_Some _ _ _ Hi) as Hlt.
  destruct (ro_buf _ Hok i e Hi) as (Hml & Hmb & _).
  wp_step. eapply wp_pure; [by apply aget_nat |]. cbv beta. wp_step.
  eapply wp_pure; [apply (stringcopy_Ok _ _ a); [done | unfold VFS_NAME_LENGTH; lia] |]. cbv beta. wp_step.
  change (Z.to_nat (VFS_NAME_LENGTH - 1)) with 15%nat. rewrite (take_ge a) by lia.
  eapply wp_pure; [by apply aset_nat |]. cbv beta. wp_step. apply modv_wp.
  set (mp := splice 0 (a ++ [0]) (mountpoint e)). set (rows := <[i := mk_entry fs mp]> (filesystems s)).
  apply (V_table_finish_wp VFS_OK (set_filesystems rows s)).
  { apply idle_rows; [done |]. unfold rows. rewrite length_insert. apply Hid. }
  split; [done |]. exists mp.
  assert (Ha0 : 0 ∉ a) by (by apply cstr_Some in Ha as [_ ?]).
  split_and!; [| | by apply cstr_splice; [| lia] | done].
  - unfold mp. rewrite splice_length; [done |]. rewrite length_app. simpl. lia.
  - unfold mp, splice. apply Forall_app. split; [apply Forall_take, Hmb |]. apply Forall_app.
    split; [| by apply Forall_drop]. apply Forall_app. split; [exact (cstr_is_bytes _ _ Hb Ha) |]. repeat constructor; lia.
Qed.

(** The volume's row is emptied, its name stays. *)
Lemma vfs_unmount_wp name a s f i e r f' :
  idle s → rows_ok (filesystems s) → is_bytes name → cstr name = Some a → a ≠ [] →
  filesystems s !! i = Some e → row_name e = Some a → filesystem e ≠ NULL →
  (∀ o, o ∈ files s → of_filesystem o ≠ filesystem e) → fs_unmount (filesystem e) f = Ok (r, f') →
  vfs_unmount name (s, f) =
  Ok (VFS_OK, (set_filesystems (<[i := mk_entry NULL (mountpoint e)]> (filesystems s)) s, f')).
Proof.
  intros Hid Hok Hb Ha Hne Hi Hn Hfs Hopen Hum.
  assert (Hwp : wp (vfs_unmount name) (λ r s', r = VFS_OK ∧
    s' = (set_filesystems (<[i := mk_entry NULL (mountpoint e)]> (filesystems s)) s, f')) (s, f)).
  2: { apply wp_iff in Hwp as (r1 & s1 & -> & -> & ->). done. }
  assert (Hfind : list_find (λ e, row_name e = Some a) (filesystems s) = Some (i, e)).
  { apply list_find_Some. split_and!; [done | done |]. intros j e' Hj Hlt Hn'.
    assert (j = i) by (eapply (ro_unique _ Hok); [done | done | congruence | congruence]). lia. }
  unfold vfs_unmount. wp_step. apply start_op_wp; [apply Hid .. |]. cbn [Z.eqb negb VFS_OK].
  wp_step. apply P_table_wp; [by destruct s; apply Hid |]. do 2 wp_step. cbn [fst].
  set (s1 := set_table_sem (Some 0) (set_ops (vfs_ops s + 1) s)). change (filesystems s1) with (filesystems s).
  wp_step. apply (find_row_wp _ name a); [done | done | done |]. rewrite Hfind.
  do 2 wp_step. eapply wp_pure; [by apply aget_nat |]. cbv beta. wp_step.
  rewrite (proj2 (Z.eqb_neq _ _) Hfs). wp_step. unfold P_open. apply sem_P_wp; [apply (id_open _ Hid) |]. do 2 wp_step.
  cbn [fst]. change (files (set_openfile_sem (Some 0) s1)) with (files s).
  assert (Hnone : list_find (λ o, of_filesystem o = filesystem e) (files s) = None).
  { apply list_find_None, Forall_forall. exact Hopen. }
  rewrite Hnone. wp_step. unfold driver. wp_step. cbn [fst snd]. apply wp_iff. exists r, f'. split; [exact Hum |].
  unfold set_filesystem. cbn [default from_option]. do 4 wp_step. cbn [fst].
  change (filesystems (set_openfile_sem (Some 0) s1)) with (filesystems s).
  eapply wp_pure; [by apply aget_nat |]. cbv beta. wp_step.
  eapply wp_pure; [apply aset_nat; by eapply lookup_lt_Some |]. cbv beta. apply modv_wp.
  set (rows := <[i := mk_entry NULL (mountpoint e)]> (filesystems s)).
  wp_step. unfold V_open. apply (sem_V_wp _ _ _ _ 0); [done |].
  replace (set_openfile_sem (Some (0 + 1)) (set_filesystems rows (set_openfile_sem (Some 0) s1)))
    with (set_table_sem (Some 0) (set_ops (vfs_ops (set_filesystems rows s) + 1) (set_filesystems rows s))).
  2: { pose proof (id_open _ Hid) as Ho. unfold s1. destruct s. simpl in *. by subst. }
  apply V_table_finish_wp; [| done]. apply idle_rows; [done |]. unfold rows. rewrite length_insert. apply Hid.
Qed.

(** [vfs_mount] of an idle system returns and leaves it idle.  With every
    row of the table in use it returns [VFS_LIMIT], with the name already in the
    table [VFS_ERROR], and then nothing changes.  Otherwise the name stands for
    the new filesystem, and every other name for the same filesystem as
    before. *)
Theorem vfs_mount_spec fs name a s (f : F) :
  idle s → rows_ok (filesystems s) → is_bytes name → cstr name = Some a → a ≠ [] → (length a ≤ 15)%nat →
  ∃ r s', vfs_mount fs name (s, f) = Ok (r, (s', f)) ∧ idle s' ∧ rows_ok (filesystems s') ∧ files s' = files s ∧
    ((r = VFS_LIMIT ∧ s' = s ∧ ∀ e, e ∈ filesystems s → filesystem e ≠ NULL) ∨
     (r = VFS_ERROR ∧ s' = s ∧ ∃ e, e ∈ filesystems s ∧ row_name e = Some a) ∨
     (r = VFS_OK ∧ volume (filesystems s') a = fs ∧
      ∀ b, b ≠ a → volume (filesystems s') b = volume (filesystems s) b)).
Proof.
  intros Hid Hok Hb Ha Hne Hla. pose proof (vfs_mount_wp fs name a s f Hid Hok Hb Ha Hne Hla) as Hwp.
  apply wp_iff in Hwp as (r & s' & He & Hr). cbv zeta in Hr.
  destruct (list_find (λ e, filesystem e = NULL) (filesystems s)) as [[i e]|] eqn:Hfree.
  2: { destruct Hr as [-> ->]. exists VFS_LIMIT, s. split_and!; try done. left. split_and!; [done | done |].
       apply list_find_None in Hfree. intros e Hin. by apply (proj1 (Forall_forall _ _) Hfree). }
  destruct (list_find (λ e, row_name e = Some a) (filesystems s)) as [[j e']|] eqn:Hdup.
  { destruct Hr as [-> ->]. exists VFS_ERROR, s. split_and!; try done. right. left. split_and!; [done | done |].
    apply list_find_Some in Hdup as (Hj & Hn & _). exists e'. split; [by eapply list_elem_of_lookup_2 | done]. }
  destruct Hr as (-> & mp & Hml & Hmb & Hma & ->). apply list_find_Some in Hfree as (Hi & Hnull & _).
  pose proof (lookup_lt_Some _ _ _ Hi) as Hlt. rewrite list_find_None, Forall_lookup in Hdup.
  assert (Hok' : rows_ok (<[i := mk_entry fs mp]> (filesystems s))) by (by eapply (rows_ok_name _ _ _ a)).
  eexists _, _. split; [exact He |]. split_and!; [| done | done |].
  { apply idle_rows; [done |]. rewrite length_insert. apply Hid. }
  right. right. split_and!; [done | |].
  - eapply (volume_at _ i (mk_entry fs mp)); [done | by apply list_lookup_insert_eq | done | done].
  - intros b Hb'. apply volume_ext; [done | done | |].
    + intros k e1 Hk Hn1 Hf1. exists k, e1. split_and!; [| done | done].
      cbn [filesystems set_filesystems]. rewrite list_lookup_insert_ne; [done |]. intros ->. congruence.
    + intros k e1 [[-> ->]|[Hk1 Hk]]%insert_cases Hn1 Hf1; [| by exists k, e1 | done].
      unfold row_name in Hn1. simpl in Hn1. congruence.
Qed.

(** [vfs_unmount] of a volume without open files succeeds and its name no
    longer stands for a filesystem, but the name stays in the table: mounting
    any filesystem under it again is refused as a double mount. *)
Theorem vfs_remount_refused name a s f h r f' :
  idle s → rows_ok (filesystems s) → is_bytes name → cstr name = Some a → a ≠ [] → (length a ≤ 15)%nat →
  volume (filesystems s) a = h → h ≠ NULL → (∀ o, o ∈ files s → of_filesystem o ≠ h) → fs_unmount h f = Ok (r, f') →
  ∃ s1, vfs_unmount name (s, f) = Ok (VFS_OK, (s1, f')) ∧ idle s1 ∧ volume (filesystems s1) a = NULL ∧
    ∀ fs2, vfs_mount fs2 name (s1, f') = Ok (VFS_ERROR, (s1, f')).
Proof.
  intros Hid Hok Hb Ha Hne Hla Hv Hh Hopen Hum. unfold volume in Hv.
  destruct (list_find (λ e, row_name e = Some a) (filesystems s)) as [[i e]|] eqn:Hfind; [subst h | congruence].
  apply list_find_Some in Hfind as (Hi & Hn & _). pose proof (lookup_lt_Some _ _ _ Hi) as Hlt.
  eexists. split; [by eapply vfs_unmount_wp |]. set (rows := <[i := mk_entry NULL (mountpoint e)]> (filesystems s)).
  assert (Hok' : rows_ok rows) by (by apply rows_ok_clear).
  assert (Hid' : idle (set_filesystems rows s)) by (apply idle_rows; [done | unfold rows; rewrite length_insert; apply Hid]).
  assert (Hi' : rows !! i = Some (mk_entry NULL (mountpoint e))) by (by apply list_lookup_insert_eq).
  split_and!; [done | by apply (volume_at rows i (mk_entry NULL (mountpoint e)) a) |]. intros fs2.
  pose proof (vfs_mount_wp fs2 name a (set_filesystems rows s) f' Hid' Hok' Hb Ha Hne Hla) as Hwp.
  apply wp_iff in Hwp as (r2 & s2 & He2 & Hr2). rewrite He2. cbn [filesystems set_filesystems] in Hr2.
  destruct (list_find (λ e, filesystem e = NULL) rows) as [[k ek]|] eqn:Hfree.
  2: { rewrite list_find_None, Forall_lookup in Hfree. by destruct (Hfree _ _ Hi'). }
  destruct (list_find (λ e, row_name e = Some a) rows) as [[j ej]|] eqn:Hdup.
  2: { rewrite list_find_None, Forall_lookup in Hdup. by destruct (Hdup _ _ Hi'). }
  by destruct Hr2 as [-> ->].
Qed.

End mounting.

(** ** Reading and writing open files *)

(** What a driver promises about the files it stores. *)
Class FileStore (F : Type) `{Filesystems F} := {
  fs_ok : F → Prop;
  (** no operation fails from now on *)
  fs_reliable : F → Prop;
  (** file [id] of filesystem [h] holds these bytes *)
  file_at : F → Z → Z → bytes → Prop;
  file_at_size f h id c : fs_ok f → file_at f h id c → Z.of_nat (length c) < 2 ^ 31;
  fs_read_spec f h id c baddr buf n off :
    fs_ok f → file_at f h id c → 0 ≤ n ≤ Z.of_nat (length buf) → 0 ≤ off ≤ Z.of_nat (length c) →
    wp (fs_read h id baddr buf n off) (λ r f', fs_ok f' ∧ file_at f' h id c ∧ (fs_reliable f → fs_reliable f') ∧
      ((fst r < 0 ∧ ¬ fs_reliable f) ∨
       let m := Z.min n (Z.of_nat (length c) - off) in
       r = (m, take (Z.to_nat m) (drop (Z.to_nat off) c) ++ drop (Z.to_nat m) buf))) f;
  (** behind the end there is nothing to read *)
  fs_read_past f h id c baddr buf n off :
    fs_ok f → file_at f h id c → 0 ≤ n ≤ Z.of_nat (length buf) → Z.of_nat (length c) < off < 2 ^ 31 →
    wp (fs_read h id baddr buf n off) (λ r f', fs_ok f' ∧ file_at f' h id c ∧ (fs_reliable f → fs_reliable f') ∧
      - 2 ^ 31 ≤ fst r < 0 ∧ length (snd r) = length buf) f;
  fs_write_spec f h id c baddr data n off :
    fs_ok f → file_at f h id c → 0 ≤ n ≤ Z.of_nat (length data) → is_bytes data → 0 ≤ off ≤ Z.of_nat (length c) →
    wp (fs_write h id baddr data n off) (λ r f', fs_ok f' ∧ (fs_reliable f → fs_reliable f') ∧
      ((r < 0 ∧ ¬ fs_reliable f) ∨
       let m := Z.min n (Z.of_nat (length c) - off) in
       r = m ∧ file_at f' h id (splice (Z.to_nat off) (take (Z.to_nat m) data) c))) f;
}.

Section files.
Context {F : Type} `{FileStore F}.

(** The system with another position for an open file. *)
Definition at_pos (file : Z) (e : openfile_entry) (pos : Z) (s : vfs) : vfs :=
  set_files (<[Z.to_nat file := mk_openfile (of_filesystem e) (fileid e) pos]> (files s)) s.

Lemma at_pos_idle file e pos s : idle s → idle (at_pos file e pos s).
Proof. intros []. constructor; try done. simpl. by rewrite length_insert. Qed.

Lemma at_pos_open file e pos s :
  length (files s) = 512%nat → open_at s file e →
  open_at (at_pos file e pos s) file (mk_openfile (of_filesystem e) (fileid e) pos).
Proof.
  intros Hl (Hr & He & Hne). split_and!; [lia | lia | | done]. simpl.
  apply list_lookup_insert_eq. unfold CONFIG_MAX_OPEN_FILES in Hr. lia.
Qed.

Lemma at_pos_same file e s : open_at s file e → at_pos file e (seek_position e) s = s.
Proof.
  intros (_ & He & _). unfold at_pos. destruct e as [fs id p]. simpl. rewrite list_insert_id by done. by destruct s.
Qed.

Lemma at_pos_twice file e p q s : at_pos file (mk_openfile (of_filesystem e) (fileid e) p) q (at_pos file e p s) = at_pos file e q s.
Proof. unfold at_pos. simpl. by rewrite list_insert_insert_eq. Qed.

Lemma at_pos_ops file e p s :
  let s1 := at_pos file e p (set_ops (vfs_ops s + 1) s) in set_ops (vfs_ops s1 - 1) s1 = at_pos file e p s.
Proof.
  destruct s as [ts fss os fl op us n u]. unfold at_pos, set_ops, set_files. simpl. by replace (n + 1 - 1) with n by lia.
Qed.

Lemma set_file_wp file x s f (Q : unit → @vstate F → Prop) :
  0 ≤ file < Z.of_nat (length (files s)) → Q tt (set_files (<[Z.to_nat file := x]> (files s)) s, f) →
  wp (set_file file x) Q (s, f).
Proof.
  intros Hr HQ. unfold set_file. do 3 wp_step. cbn [fst]. eapply wp_pure; [by apply aset_Ok |]. cbv beta. by apply modv_wp.
Qed.

(** A step that holds the table of open files, from a system with one
    operation in progress. *)
Lemma locked_file_wp {A} s f (k : K (@vstate F) A) (Q : A → @vstate F → Prop) :
  openfile_sem s = Some 1 → wp k Q (set_openfile_sem (Some 0) s, f) → wp (P_open;; k) Q (s, f).
Proof. intros Ho Hk. wp_step. by apply sem_P_wp. Qed.

Lemma V_open_wp s f (Q : unit → @vstate F → Prop) :
  openfile_sem s = Some 1 → Q tt (s, f) → wp V_open Q (set_openfile_sem (Some 0) s, f).
Proof.
  intros Ho HQ. apply (sem_V_wp _ _ _ _ 0); [done |]. change (0 + 1) with 1.
  assert (Hs : set_openfile_sem (Some 1) (set_openfile_sem (Some 0) s) = s) by (destruct s; simpl in *; by subst).
  by rewrite Hs.
Qed.

Lemma advance_wp file e r s f (Q : unit → @vstate F → Prop) :
  openfile_sem s = Some 1 → length (files s) = 512%nat → open_at s file e → 0 ≤ seek_position e →
  seek_position e + r < 2 ^ 31 →
  Q tt (at_pos file e (seek_position e + Z.max r 0) s, f) → wp (advance file r) Q (s, f).
Proof.
  intros Ho Hl He Hpos Hmax HQ. unfold advance. destruct (Z.ltb_spec 0 r) as [Hr|Hr].
  - apply locked_file_wp; [done |]. do 3 wp_step. cbn [fst]. destruct He as (Hf & He & Hne).
    change (files (set_openfile_sem (Some 0) s)) with (files s).
    eapply wp_pure; [apply aget_Ok; split; [lia | exact He] |]. cbv beta. wp_step.
    eapply (wp_pure _ (seek_position e + r)).
    { unfold int_op. rewrite (proj2 (Z.leb_le _ _)), (proj2 (Z.ltb_lt _ _)) by lia. done. }
    cbv beta. wp_step. unfold CONFIG_MAX_OPEN_FILES in Hf. apply set_file_wp; [simpl; lia |].
    rewrite Z.max_l in HQ by lia. by apply (V_open_wp (at_pos file e (seek_position e + r) s)).
  - wp_step. rewrite Z.max_r, Z.add_0_r, at_pos_same in HQ by (done || lia). done.
Qed.

Lemma vfs_read_wp s f file e c baddr buf n :
  idle s → open_at s file e → fs_ok f → file_at f (of_filesystem e) (fileid e) c →
  0 ≤ seek_position e ≤ Z.of_nat (length c) → 0 ≤ n ≤ Z.of_nat (length buf) → baddr ≠ NULL →
  wp (vfs_read file baddr buf n) (λ r '(s', f'),
    s' = at_pos file e (seek_position e + Z.max (fst r) 0) s ∧ fs_ok f' ∧ file_at f' (of_filesystem e) (fileid e) c ∧
    (fs_reliable f → fs_reliable f') ∧
    ((fst r < 0 ∧ ¬ fs_reliable f) ∨
     let m := Z.min n (Z.of_nat (length c) - seek_position e) in
     r = (m, take (Z.to_nat m) (drop (Z.to_nat (seek_position e)) c) ++ drop (Z.to_nat m) buf))) (s, f).
Proof.
  intros Hid He Hok Hc Hpos Hn Hb. unfold vfs_read. pose proof (file_at_size _ _ _ _ Hok Hc) as Hsz.
  pose proof (id_ops _ Hid) as Hops.
  rewrite (proj2 (Z.ltb_ge n 0)), (proj2 (Z.eqb_neq _ _) Hb) by lia. cbn [orb].
  wp_step. apply start_op_wp; [apply Hid .. |]. cbn [Z.eqb negb VFS_OK].
  set (s1 := set_ops (vfs_ops s + 1) s). apply locked_file_wp; [apply Hid |]. wp_step.
  apply (verify_open_Some _ _ _ e); [by destruct s |]. wp_step. apply V_open_wp; [apply Hid |].
  wp_step. unfold driver. wp_step. cbn [fst snd].
  eapply wp_mono; [by apply (fs_read_spec _ _ _ c) |]. intros [r buf'] f' (Hok' & Hc' & Hrel & Hr). cbn [fst snd].
  wp_step. apply (advance_wp _ e); [apply Hid | apply Hid | by destruct s | lia | |].
  { cbv zeta in Hr. cbn [fst] in Hr. destruct Hr as [[? _]|Hr]; [lia |]. injection Hr as -> _. lia. }
  wp_step. apply finish_wp; [apply Hid | apply Hid | simpl; lia |]. wp_step. split_and!; [| done | done | done | done].
  apply at_pos_ops.
Qed.

(** A read behind the end is an error, and the file stays as it is. *)
Lemma vfs_read_past_wp s f file e c baddr buf n :
  idle s → open_at s file e → fs_ok f → file_at f (of_filesystem e) (fileid e) c →
  Z.of_nat (length c) < seek_position e < 2 ^ 31 → 0 ≤ n ≤ Z.of_nat (length buf) → baddr ≠ NULL →
  wp (vfs_read file baddr buf n) (λ r '(s', f'),
    s' = at_pos file e (seek_position e) s ∧ fs_ok f' ∧ file_at f' (of_filesystem e) (fileid e) c ∧
    (fs_reliable f → fs_reliable f') ∧ - 2 ^ 31 ≤ fst r < 0 ∧ length (snd r) = length buf) (s, f).
Proof.
  intros Hid He Hok Hc Hpos Hn Hb. unfold vfs_read. pose proof (id_ops _ Hid) as Hops.
  rewrite (proj2 (Z.ltb_ge n 0)), (proj2 (Z.eqb_neq _ _) Hb) by lia. cbn [orb].
  wp_step. apply start_op_wp; [apply Hid .. |]. cbn [Z.eqb negb VFS_OK].
  set (s1 := set_ops (vfs_ops s + 1) s). apply locked_file_wp; [apply Hid |]. wp_step.
  apply (verify_open_Some _ _ _ e); [by destruct s |]. wp_step. apply V_open_wp; [apply Hid |].
  wp_step. unfold driver. wp_step. cbn [fst snd].
  eapply wp_mono; [by apply (fs_read_past _ _ _ c) |]. intros [r buf'] f' (Hok' & Hc' & Hrel & Hr & Hl). cbn [fst snd] in *.
  wp_step. apply (advance_wp _ e); [apply Hid | apply Hid | by destruct s | lia | lia |].
  wp_step. apply finish_wp; [apply Hid | apply Hid | simpl; lia |]. wp_step. split_and!; try done; [| apply Hr ..].
  rewrite Z.max_r, Z.add_0_r by lia. apply at_pos_ops.
Qed.

Lemma vfs_write_wp s f file e c baddr data n :
  idle s → open_at s file e → fs_ok f → file_at f (of_filesystem e) (fileid e) c →
  0 ≤ seek_position e ≤ Z.of_nat (length c) → 0 ≤ n ≤ Z.of_nat (length data) → is_bytes data → baddr ≠ NULL →
  wp (vfs_write file baddr data n) (λ r '(s', f'),
    s' = at_pos file e (seek_position e + Z.max r 0) s ∧ fs_ok f' ∧ (fs_reliable f → fs_reliable f') ∧
    ((r < 0 ∧ ¬ fs_reliable f) ∨
     let m := Z.min n (Z.of_nat (length c) - seek_position e) in
     r = m ∧ file_at f' (of_filesystem e) (fileid e) (splice (Z.to_nat (seek_position e)) (take (Z.to_nat m) data) c))) (s, f).
Proof.
  intros Hid He Hok Hc Hpos Hn Hby Hb. unfold vfs_write. pose proof (file_at_size _ _ _ _ Hok Hc) as Hsz.
  pose proof (id_ops _ Hid) as Hops.
  rewrite (proj2 (Z.ltb_ge n 0)), (proj2 (Z.eqb_neq _ _) Hb) by lia. cbn [orb].
  wp_step. apply start_op_wp; [apply Hid .. |]. cbn [Z.eqb negb VFS_OK].
  set (s1 := set_ops (vfs_ops s + 1) s). apply locked_file_wp; [apply Hid |]. wp_step.
  apply (verify_open_Some _ _ _ e); [by destruct s |]. wp_step. apply V_open_wp; [apply Hid |].
  wp_step. unfold driver. wp_step. cbn [fst snd].
  eapply wp_mono; [by apply (fs_write_spec _ _ _ c) |]. intros r f' (Hok' & Hrel & Hr). cbn [fst snd].
  wp_step. apply (advance_wp _ e); [apply Hid | apply Hid | by destruct s | lia | |].
  { cbv zeta in Hr. destruct Hr as [[? _]|[-> _]]; lia. }
  apply finish_wp; [apply Hid | apply Hid | simpl; lia |]. split_and!; [| done | done | done].
  apply at_pos_ops.
Qed.

Lemma vfs_seek_wp s (f : F) file e pos :
  idle s → open_at s file e → 0 ≤ pos →
  wp (vfs_seek file pos) (λ r s', r = VFS_OK ∧ s' = (at_pos file e pos s, f)) (s, f).
Proof.
  intros Hid He Hpos. unfold vfs_seek. pose proof (id_ops _ Hid) as Hops.
  wp_step. apply start_op_wp; [apply Hid .. |]. cbn [Z.eqb negb VFS_OK].
  set (s1 := set_ops (vfs_ops s + 1) s). do 2 wp_step; [by apply Z.leb_le |]. apply locked_file_wp; [apply Hid |]. wp_step.
  apply (verify_open_Some _ _ _ e); [by destruct s |]. wp_step. destruct He as (Hf & _ & _). unfold CONFIG_MAX_OPEN_FILES in Hf.
  apply set_file_wp; [simpl; rewrite (id_files _ Hid); lia |]. wp_step.
  apply (V_open_wp (at_pos file e pos s1)); [apply Hid |].
  apply finish_wp; [apply Hid | apply Hid | simpl; lia |]. split; [done |].
  f_equal. apply at_pos_ops.
Qed.

(** C31: Through any driver that stores files faithfully and reports no error:
    after [vfs_write] to an open file the position has moved by the number of
    bytes written; seeking back and [vfs_read]ing as many bytes returns the bytes
    that were written, leaves the position after them, and no lock is held and
    no operation counted when each call returns. *)
Theorem vfs_write_seek_read s f file e c baddr data n baddr' buf :
  idle s → open_at s file e → fs_ok f → fs_reliable f → file_at f (of_filesystem e) (fileid e) c →
  0 ≤ seek_position e ≤ Z.of_nat (length c) → 0 ≤ n ≤ Z.of_nat (length data) → is_bytes data →
  n = Z.of_nat (length buf) → baddr ≠ NULL → baddr' ≠ NULL →
  ∃ m s1 f1 s2 s3 f3, m = Z.min n (Z.of_nat (length c) - seek_position e) ∧
    vfs_write file baddr data n (s, f) = Ok (m, (s1, f1)) ∧
    open_at s1 file (mk_openfile (of_filesystem e) (fileid e) (seek_position e + m)) ∧
    vfs_seek file (seek_position e) (s1, f1) = Ok (VFS_OK, (s2, f1)) ∧
    vfs_read file baddr' buf n (s2, f1) = Ok ((m, take (Z.to_nat m) data ++ drop (Z.to_nat m) buf), (s3, f3)) ∧
    s3 = s1 ∧ idle s3 ∧ vfs_ops s3 = vfs_ops s.
Proof.
  intros Hid He Hok Hrel Hc Hpos Hn Hby Hbuf Hb Hb'. set (p := seek_position e) in *.
  pose proof (vfs_write_wp s f file e c baddr data n Hid He Hok Hc Hpos Hn Hby Hb) as Hwp.
  apply wp_iff in Hwp as (m & [s1 f1] & Hw & -> & Hok1 & Hrel1 & Hr). fold p in Hw, Hr.
  destruct Hr as [[_ ?]|[Hm Hc1]]; [done |]. cbv zeta in Hm, Hc1. fold p in Hm, Hc1. rewrite <- Hm in Hc1.
  assert (Hm0 : 0 ≤ m) by lia. rewrite Z.max_l in Hw by done.
  set (s1 := at_pos file e (p + m) s) in *. set (e1 := mk_openfile (of_filesystem e) (fileid e) (p + m)).
  assert (Hid1 : idle s1) by (by apply at_pos_idle).
  assert (He1 : open_at s1 file e1) by (apply at_pos_open; [apply Hid | done]).
  pose proof (vfs_seek_wp s1 f1 file e1 p Hid1 He1 ltac:(lia)) as Hwp.
  apply wp_iff in Hwp as (r2 & s2' & Hs & -> & ->). unfold s1, e1 in Hs. rewrite at_pos_twice in Hs. fold s1 in Hs.
  set (s2 := at_pos file e p s) in *. assert (Hs2 : s2 = s) by (by apply at_pos_same). rewrite Hs2 in Hs.
  set (c1 := splice (Z.to_nat p) (take (Z.to_nat m) data) c) in *.
  assert (Hlm : length (take (Z.to_nat m) data) = Z.to_nat m) by (rewrite length_take; lia).
  assert (Hl1 : length c1 = length c) by (unfold c1; apply splice_length; lia).
  pose proof (vfs_read_wp s f1 file e c1 baddr' buf n Hid He Hok1 Hc1 ltac:(lia) ltac:(lia) Hb') as Hwp.
  apply wp_iff in Hwp as ([r3 buf3] & [s3 f3] & Hrd & -> & _ & _ & _ & Hr3).
  destruct Hr3 as [[_ Hno]|Hr3]; [by destruct Hno; apply Hrel1 |]. cbv zeta in Hr3. rewrite Hl1 in Hr3. fold p in Hr3, Hrd.
  rewrite <- Hm in Hr3. injection Hr3 as -> ->. cbn [fst] in Hrd. rewrite Z.max_l in Hrd by done.
  assert (Hslice : take (Z.to_nat m) (drop (Z.to_nat p) c1) = take (Z.to_nat m) data).
  { unfold c1, splice. rewrite drop_app_length' by (rewrite length_take; lia). by rewrite take_app_length'. }
  rewrite Hslice in Hrd. exists m, s1, f1, s, s1, f3. split_and!; try done.
Qed.

End files.
