(* ===== verification/VfsTfs.v ===== *)
(** * The trivial filesystem behind the virtual one

    The function pointers [tfs_init] stores in an [fs_t] make [Tfs] an instance
    of [Filesystems]: a handle selects a mounted volume.  The instance keeps the
    promises of [FileStore], so the theorems of [VfsSpec] hold of it; they are
    run here on a volume in memory. *)

From S2P Require Import Prelude Bitmap Libc FsCodes Tfs TfsSpec TfsDir Vfs VfsSpec.
Local Open Scope Z_scope.

(** The address of a volume's [buffer_bat], the part of the header that names
    it, and [tfs_init] are those of the machine the volumes are on. *)
Class TfsMachine (D : Type) := {
  tm_bat : Z → Z;
  tm_name : gmap Z (tfs * D) → Z → bytes;
  tm_init : Z → K (gmap Z (tfs * D)) Z;
}.

Section driver.
Context {D : Type} `{BlockDevice D} `{TfsMachine D}.

Abbreviation volumes := (gmap Z (tfs * D)).

(** Run a function of tfs.c on the volume a handle stands for. *)
Definition on_vol {A} (h : Z) (m : K (@tstate D) A) : K volumes A := λ v,
  match v !! h with
  | None => Undef
  | Some s =>
      match m s with
      | Ok (a, s') => Ok (a, <[h := s']> v)
      | Panic e => Panic e
      | Block => Block
      | Undef => Undef
      | NoFuel => NoFuel
      end
  end.

#[global] Instance tfs_driver : Filesystems volumes := {|
  fs_unmount h := r ← on_vol h (tfs_unmount (mret tt)); modify (delete h);; mret r;
  fs_open h name := on_vol h (tfs_open name);
  fs_close h id := on_vol h (tfs_close id);
  fs_read h id baddr buf n off := on_vol h (tfs_read (tm_bat h) id baddr buf n off);
  fs_write h id baddr data n off := on_vol h (tfs_write (tm_bat h) id baddr data n off);
  fs_create h name size := on_vol h (tfs_create name size);
  fs_remove h name := on_vol h (tfs_remove name);
  fs_getfree h := on_vol h tfs_getfree;
  fs_volume_name := tm_name;
  fs_init := tm_init;
|}.

Lemma on_vol_wp {A} h (m : K (@tstate D) A) v s (Q : A → volumes → Prop) :
  v !! h = Some s → wp m (λ a s', Q a (<[h := s']> v)) s → wp (on_vol h m) Q v.
Proof. intros Hv Hm. unfold wp, on_vol in *. rewrite Hv. by destruct (m s) as [[]| | | |]. Qed.

(** Every volume is idle. *)
Definition volumes_ok (v : volumes) : Prop :=
  ∀ h t d, v !! h = Some (t, d) → dev_ok t d ∧ lock t = 1 ∧ length (buffer_bat t) = 512%nat.
Definition volumes_reliable (v : volumes) : Prop := ∀ h t d, v !! h = Some (t, d) → bd_reliable d.
Definition volume_file (v : volumes) (h id : Z) (c : bytes) : Prop :=
  ∃ t d n blks, v !! h = Some (t, d) ∧ is_file t d id n blks ∧ c = contents d n blks.

Lemma volumes_ok_insert v h t d :
  volumes_ok v → dev_ok t d → lock t = 1 → length (buffer_bat t) = 512%nat → volumes_ok (<[h := (t, d)]> v).
Proof.
  intros Hv ??? h' t' d'. rewrite lookup_insert. case_decide; [intros [= <- <-]; done | apply Hv].
Qed.

Lemma volumes_reliable_insert v h t d t' d' :
  v !! h = Some (t, d) → (bd_reliable d → bd_reliable d') → volumes_reliable v → volumes_reliable (<[h := (t', d')]> v).
Proof.
  intros Hh Hr Hv h' t1 d1. rewrite lookup_insert. case_decide; [intros [= <- <-]; apply Hr, (Hv h t d Hh) | apply Hv].
Qed.

#[global] Program Instance tfs_store : FileStore volumes := {|
  fs_ok := volumes_ok;
  fs_reliable := volumes_reliable;
  file_at := volume_file;
|}.
Next Obligation.
  intros v h id c Hok (t & d & n & blks & Hh & Hf & ->). destruct (Hok _ _ _ Hh) as (Hd & _).
  rewrite (contents_length t d id) by done. pose proof (if_max _ _ _ _ _ Hf). unfold TFS_BLOCKS_MAX in *. lia.
Qed.
Next Obligation.
  intros v h id c baddr buf n off Hok (t & d & sz & blks & Hh & Hf & ->) Hn Hoff.
  destruct (Hok _ _ _ Hh) as (Hd & Hl & Hbat). pose proof (if_max _ _ _ _ _ Hf) as Hmax.
  pose proof (contents_length t d id sz blks Hd Hf) as Hlen. rewrite Hlen in *. rewrite Z2Nat.id in * by lia.
  eapply on_vol_wp; [exact Hh |]. eapply wp_mono; [by apply (tfs_read_wp _ t d id sz blks) |].
  intros [r buf'] [t' d'] (Hl' & Ht' & Hbat' & Hs & Hr).
  rewrite (proj2 (Z.ltb_ge off 0)), (proj2 (Z.ltb_ge sz off)) in Hr by lia. cbn [orb] in Hr.
  assert (Hd' : dev_ok t' d') by (eapply dev_ok_frame; [exact Hd | done | by apply (dsame_only [])]).
  split_and!.
  - apply volumes_ok_insert; auto.
  - exists t', d', sz, blks. rewrite lookup_insert_eq. split_and!; [done | |].
    + eapply (is_file_same t' d); [| done]. destruct Hf. by constructor; rewrite ?Ht'.
    + unfold contents. by rewrite (whole_same _ _ _ Hs).
  - eapply volumes_reliable_insert; [done | apply (ds_reliable _ _ Hs)].
  - destruct Hr as [[-> Hno]|Hr].
    + left. split; [done |]. intros Hrel. by apply Hno, (Hrel h t d).
    + right. cbv zeta in *. injection Hr as -> ->. f_equal. unfold splice. simpl.
      rewrite length_take, length_drop, Hlen. f_equal. f_equal. lia.
Qed.
Next Obligation.
  intros v h id c baddr buf n off Hok (t & d & sz & blks & Hh & Hf & ->) Hn Hoff.
  destruct (Hok _ _ _ Hh) as (Hd & Hl & Hbat). pose proof (if_max _ _ _ _ _ Hf) as Hmax.
  pose proof (contents_length t d id sz blks Hd Hf) as Hlen. rewrite Hlen in *. rewrite Z2Nat.id in * by lia.
  eapply on_vol_wp; [exact Hh |]. eapply wp_mono; [by apply (tfs_read_wp _ t d id sz blks) |].
  intros [r buf'] [t' d'] (Hl' & Ht' & Hbat' & Hs & Hr).
  rewrite (proj2 (Z.ltb_lt sz off)), orb_true_r in Hr by lia. injection Hr as -> ->.
  assert (Hd' : dev_ok t' d') by (eapply dev_ok_frame; [exact Hd | done | by apply (dsame_only [])]).
  split_and!; [| | | done | done | done].
  - apply volumes_ok_insert; auto.
  - exists t', d', sz, blks. rewrite lookup_insert_eq. split_and!; [done | |].
    + eapply (is_file_same t' d); [| done]. destruct Hf. by constructor; rewrite ?Ht'.
    + unfold contents. by rewrite (whole_same _ _ _ Hs).
  - eapply volumes_reliable_insert; [done | apply (ds_reliable _ _ Hs)].
Qed.
Next Obligation.
  intros v h id c baddr data n off Hok (t & d & sz & blks & Hh & Hf & ->) Hn Hby Hoff.
  destruct (Hok _ _ _ Hh) as (Hd & Hl & Hbat). pose proof (if_max _ _ _ _ _ Hf) as Hmax.
  pose proof (contents_length t d id sz blks Hd Hf) as Hlen. rewrite Hlen in *. rewrite Z2Nat.id in * by lia.
  eapply on_vol_wp; [exact Hh |]. eapply wp_mono; [by apply (tfs_write_wp _ t d id sz blks) |].
  intros r [t' d'] (Hl' & Ht' & Hbat' & Ho & Hr).
  rewrite (proj2 (Z.ltb_ge off 0)), (proj2 (Z.ltb_ge sz off)) in Hr by lia. cbn [orb] in Hr.
  split_and!.
  - apply volumes_ok_insert; [done | by eapply dev_ok_frame | done | done].
  - eapply volumes_reliable_insert; [done | apply (do_reliable _ _ _ Ho)].
  - destruct Hr as [[-> Hno]|[-> Hc]].
    + left. split; [done |]. intros Hrel. by apply Hno, (Hrel h t d).
    + right. split; [done |]. exists t', d', sz, blks. rewrite lookup_insert_eq. split_and!; [done | | done].
      eapply is_file_only; [| exact Ho | apply (NoDup_cons_1_1 id), (if_nodup _ _ _ _ _ Hf)].
      destruct Hf. by constructor; rewrite ?Ht'.
Qed.

End driver.

(** ** An example: the volume of [TfsSpec], mounted as "d" *)

#[local] Instance example_machine : TfsMachine ramdisk := {|
  tm_bat _ := 0x8000;
  tm_name _ _ := [100; 0];
  tm_init _ := mret NULL;
|}.

Definition name16 (l : bytes) : bytes := l ++ replicate (16 - length l) 0.
Definition example_vols : gmap Z (tfs * ramdisk) := {[ 1 := (example_tfs, example_disk) ]}.
Definition example_vfs (open : list openfile_entry) : vfs :=
  mk_vfs (Some 1) (mk_entry 1 (name16 [100]) :: replicate 7 (mk_entry NULL (name16 [])))
    (Some 1) (open ++ replicate (512 - length open) (mk_openfile NULL 0 0)) (Some 1) (Some 0) 0 true.
(** File 3 of the volume is open at position 500 in slot 0. *)
Definition example_open : vfs := example_vfs [mk_openfile 1 3 500].

Lemma example_idle l : (length l ≤ 512)%nat → idle (example_vfs l).
Proof. intros Hl. constructor; try done. simpl. rewrite length_app, length_replicate. lia. Qed.

Lemma example_rows l : rows_ok (filesystems (example_vfs l)).
Proof.
  assert (Hrow : ∀ i e, filesystems (example_vfs l) !! i = Some e →
    i = 0%nat ∧ e = mk_entry 1 (name16 [100]) ∨ e = mk_entry NULL (name16 [])).
  { intros [|i] e; [intros [= <-]; by left |]. intros Hi. right.
    change (replicate 7 (mk_entry NULL (name16 [])) !! i = Some e) in Hi. by apply lookup_replicate in Hi as [-> _]. }
  constructor.
  - intros i e [[_ ->]| ->]%Hrow; (split_and!; [done | repeat constructor; lia | by eexists]).
  - intros i j e e' [[-> ->]| ->]%Hrow [[-> ->]| ->]%Hrow; vm_compute; done.
  - intros i e [[_ ->]| ->]%Hrow; vm_compute; done.
Qed.

Lemma example_files_open l o : o ∈ files (example_vfs l) → o ∈ l ∨ o = mk_openfile NULL 0 0.
Proof. simpl. intros [?|[-> _]%elem_of_replicate]%elem_of_app; auto. Qed.

Lemma example_vols_ok : volumes_ok example_vols.
Proof.
  intros h t d. unfold example_vols. rewrite lookup_singleton. case_decide; [| done]. intros [= <- <-].
  split; [apply example_dev | done].
Qed.

Lemma vfs_deinit_waits_witness :
  ∃ s, rtc step ((example_vfs [], example_vols), 0, Running) (s, 1, Waiting) ∧ deinit_resume s = Block.
Proof.
  assert (Hf : fresh ((example_vfs [], example_vols), 0, Running)).
  { split; [apply example_idle; simpl; lia | repeat (split; [reflexivity |]); reflexivity]. }
  eexists. match goal with |- ?A ∧ _ => assert (Hr : A) end.
  { eapply rtc_l; [eapply (step_start _ _ 0 Running VFS_OK); reflexivity |].
    eapply rtc_l; [eapply (step_deinit _ _ 1 true); reflexivity | apply rtc_refl]. }
  split; [exact Hr |]. apply (vfs_deinit_waits _ _ _ _ Hf Hr); [reflexivity | lia].
Defined.

Lemma vfs_not_open_leaks_witness :
  ∃ s', run_file_op 7 Close (example_open, example_vols) = Ok (VFS_NOT_OPEN, (s', example_vols)) ∧
    vfs_ops s' = 1 ∧ vfs_deinit (s', example_vols) = Block.
Proof.
  apply (vfs_not_open_leaks example_open example_vols 7 Close).
  - apply example_idle. simpl. lia.
  - reflexivity.
  - reflexivity.
  - intros e (_ & He & Hne). apply Hne.
    assert (E : e = mk_openfile NULL 0 0) by (apply (inj Some); rewrite <- He; reflexivity). rewrite E. reflexivity.
  - exact I.
Defined.

Lemma vfs_mount_spec_witness :
  ∃ r s', vfs_mount 2 [101; 0] (example_open, example_vols) = Ok (r, (s', example_vols)) ∧ idle s' ∧ rows_ok (filesystems s').
Proof.
  destruct (vfs_mount_spec 2 [101; 0] [101] example_open example_vols) as (r & s' & He & Hid & Hok & _);
    [apply example_idle; simpl; lia | apply example_rows | repeat constructor; lia | reflexivity | discriminate | simpl; lia |].
  exists r, s'. split; [exact He | split; [exact Hid | exact Hok]].
Defined.

Lemma vfs_remount_refused_witness :
  ∃ s1 v1, vfs_unmount [100; 0] (example_vfs [], example_vols) = Ok (VFS_OK, (s1, v1)) ∧
    vfs_mount 2 [100; 0] (s1, v1) = Ok (VFS_ERROR, (s1, v1)).
Proof.
  destruct (vfs_remount_refused [100; 0] [100] (example_vfs []) example_vols 1 VFS_OK (delete 1 (<[1 := (set_lock 0 example_tfs, example_disk)]> example_vols)))
    as (s1 & Hu & _ & _ & Hm).
  - apply example_idle. simpl. lia.
  - apply example_rows.
  - repeat constructor; lia.
  - reflexivity.
  - discriminate.
  - simpl. lia.
  - reflexivity.
  - discriminate.
  - intros o [Ho|Ho]%example_files_open; [by apply not_elem_of_nil in Ho | by rewrite Ho].
  - reflexivity.
  - eexists s1, _. split; [exact Hu | apply Hm].
Defined.

Lemma vfs_write_seek_read_witness :
  ∃ m s1 v1 s2 s3 v3, vfs_write 0 0x9000 [7; 8; 9] 3 (example_open, example_vols) = Ok (m, (s1, v1)) ∧
    vfs_seek 0 500 (s1, v1) = Ok (VFS_OK, (s2, v1)) ∧
    vfs_read 0 0xa000 [0; 0; 0] 3 (s2, v1) = Ok ((m, [7; 8; 9]), (s3, v3)).
Proof.
  destruct (vfs_write_seek_read example_open example_vols 0 (mk_openfile 1 3 500)
    (contents example_disk 600 [4; 5]) 0x9000 [7; 8; 9] 3 0xa000 [0; 0; 0])
    as (m & s1 & v1 & s2 & s3 & v3 & Hm & Hw & _ & Hs & Hr & _).
  - apply example_idle. simpl. lia.
  - split; [unfold CONFIG_MAX_OPEN_FILES; lia | split; [reflexivity | discriminate]].
  - exact example_vols_ok.
  - intros h t d _. exact I.
  - exists example_tfs, example_disk, 600, [4; 5]. split; [reflexivity | split; [exact example_file | reflexivity]].
  - rewrite (contents_length _ _ _ _ _ example_dev example_file). simpl seek_position. lia.
  - simpl. lia.
  - repeat constructor; lia.
  - reflexivity.
  - discriminate.
  - discriminate.
  - rewrite (contents_length _ _ _ _ _ example_dev example_file) in Hm. rewrite Hm in *.
    exists m, s1, v1, s2, s3, v3. rewrite Hm. split; [exact Hw | split; [exact Hs | exact Hr]].
Defined.
