(* ===== verification/Process.v ===== *)
(** * Processes (src/buenos/proc/process.c, process.h)

    The process table sits beside the threads of [Sched] and the page tables of
    [Vm]; a thread belongs to the process its [process_id] names.  The address
    of a table entry is what the threads that join the process sleep on.  The
    spin lock of the table and the disabling of interrupts make the sections
    between them atomic, as the functions here are.  [process_join] may have to
    wait: a call runs up to the point where another thread takes over, and
    [join_turn] is what the thread does when it runs again. *)

From S2P Require Import Prelude Bitmap Kmalloc Pagepool Vm Sched Libc.
Local Open Scope Z_scope.

Definition PROCESS_PTABLE_FULL : Z := -1.
Definition PROCESS_ILLEGAL_JOIN : Z := -2.
Definition PROCESS_TTABLE_FULL : Z := -3.
Definition PROCESS_MAX_PROCESSES : Z := 32.
Definition PROCESS_MAX_FILELENGTH : Z := 64.
Definition PROCESS_MAX_FILES : Z := 512.
Definition SIZEOF_PCB : Z := 64 + 4 + 4 + 4 + 4 + 4 * 512.

(** [process_state_t] *)
Inductive process_state := PROCESS_FREE | PROCESS_RUNNING | PROCESS_ZOMBIE.
#[global] Instance process_state_eq : EqDecision process_state.
Proof. solve_decision. Defined.

(** [process_control_block_t] *)
Record pcb := mk_pcb {
  executable : bytes;
  pstate : process_state;
  retval : Z;
  parent : Z;
  heap_end : Z;
  pfiles : list Z;
}.

Definition set_executable (x : bytes) (p : pcb) : pcb := mk_pcb x (pstate p) (retval p) (parent p) (heap_end p) (pfiles p).
Definition set_pstate (x : process_state) (p : pcb) : pcb := mk_pcb (executable p) x (retval p) (parent p) (heap_end p) (pfiles p).
Definition set_retval (x : Z) (p : pcb) : pcb := mk_pcb (executable p) (pstate p) x (parent p) (heap_end p) (pfiles p).
Definition set_parent (x : Z) (p : pcb) : pcb := mk_pcb (executable p) (pstate p) (retval p) x (heap_end p) (pfiles p).
Definition set_heap_end (x : Z) (p : pcb) : pcb := mk_pcb (executable p) (pstate p) (retval p) (parent p) x (pfiles p).
Definition set_pfiles (x : list Z) (p : pcb) : pcb := mk_pcb (executable p) (pstate p) (retval p) (parent p) (heap_end p) x.

Section process.
Context {P : Type} `{PageAlloc P}.
(** The addresses of [process_table], of [process_start], of the thread stacks
    and of [thread_finish]. *)
Context (table_addr start_addr stacks finish_addr : Z).

Record kern := mk_kern { process_table : list pcb; k_sched : sched; k_vm : @tables P }.

Definition pcb_addr (pid : Z) : Z := table_addr + SIZEOF_PCB * pid.

Definition set_ptable (l : list pcb) (s : kern) : kern := mk_kern l (k_sched s) (k_vm s).
Definition on_sched {A} (m : K sched A) : K kern A := zoom k_sched (λ x s, mk_kern (process_table s) x (k_vm s)) m.
Definition on_vm {A} (m : K (@tables P) A) : K kern A := zoom k_vm (λ x s, mk_kern (process_table s) (k_sched s) x) m.

Definition get_pcb (pid : Z) : K kern pcb := s ← gets id; pure (aget (process_table s) pid).
Definition put_pcb (pid : Z) (f : pcb → pcb) : K kern unit :=
  s ← gets id;
  p ← pure (aget (process_table s) pid);
  l ← pure (aset (process_table s) pid (f p));
  modify (set_ptable l).

(** The entry of the thread that runs on a processor. *)
Definition current_thread (cpu : Z) : K kern thread := on_sched (t ← get_current cpu; get_thread t).

Definition process_get_current_process (cpu : Z) : K kern Z := th ← current_thread cpu; mret (process_id th).

(** ** The table *)

Definition process_reset (pid : Z) : K kern unit :=
  put_pcb pid (set_pstate PROCESS_FREE);;
  p ← get_pcb pid;
  x ← pure (aset (executable p) 0 0);
  put_pcb pid (set_executable x);;
  put_pcb pid (set_retval 0);;
  put_pcb pid (set_parent (-1));;
  for_each (Z.to_nat PROCESS_MAX_FILES) 0 (λ i,
    p ← get_pcb pid;
    l ← pure (aset (pfiles p) i (-1));
    put_pcb pid (set_pfiles l)).

Definition process_init : K kern unit :=
  for_each (Z.to_nat PROCESS_MAX_PROCESSES) 0 process_reset.

Definition alloc_process_id : K kern Z :=
  r ← for_ (Z.to_nat PROCESS_MAX_PROCESSES) 0 (λ i,
        p ← get_pcb i;
        if bool_decide (pstate p = PROCESS_FREE) then
          put_pcb i (set_pstate PROCESS_RUNNING);; mret (Some i)
        else mret None);
  mret (default PROCESS_MAX_PROCESSES r).

(** ** Life and death *)

Definition process_spawn (cpu : Z) (exe : bytes) : K kern Z :=
  pid ← alloc_process_id;
  if pid =? PROCESS_MAX_PROCESSES then mret PROCESS_PTABLE_FULL
  else
    p ← get_pcb pid;
    x ← pure (stringcopy (executable p) exe PROCESS_MAX_FILELENGTH);
    put_pcb pid (set_executable x);;
    me ← process_get_current_process cpu;
    put_pcb pid (set_parent me);;
    thread ← on_sched (thread_create stacks finish_addr start_addr pid);
    if thread <? 0 then mret PROCESS_TTABLE_FULL
    else
      on_sched (thread_run thread);;
      mret pid.

(** [in_interrupt] is the global [_is_in_interrupt], which a handler on any
    processor sets while it runs. *)
Definition process_finish (cpu : Z) (in_interrupt : bool) (ret : Z) : K kern unit :=
  pid ← process_get_current_process cpu;
  t ← on_sched (get_current cpu);
  put_pcb pid (set_retval ret);;
  put_pcb pid (set_pstate PROCESS_ZOMBIE);;
  th ← on_sched (get_thread t);
  on_vm (vm_destroy_pagetable (th_pagetable th));;
  on_sched (set_thread t (λ th,
    mk_thread (th_context th) (th_ctx th) (user_context th) (state th) (sleeps_on th) 0 (process_id th) (next th)));;
  on_sched (sleepq_wake_all (pcb_addr pid));;
  for_each (Z.to_nat PROCESS_MAX_PROCESSES) 0 (λ i,
    p ← get_pcb i;
    if parent p =? pid then put_pcb i (set_parent (-1)) else mret tt);;
  on_sched (thread_finish cpu in_interrupt).

(** What a call of [process_join] comes to: it returns, or its thread sleeps
    and will take another turn of the loop. *)
Inductive joined := Returned (r : Z) | Asleep.

(** The loop condition, and what follows on either side. *)
Definition join_turn (cpu pid : Z) : K kern joined :=
  p ← get_pcb pid;
  if bool_decide (pstate p = PROCESS_ZOMBIE) then
    process_reset pid;;
    mret (Returned (retval p))
  else
    on_sched (sleepq_add cpu 0 (pcb_addr pid));;
    on_sched (thread_switch cpu);;
    mret Asleep.

Definition process_join (cpu pid : Z) : K kern joined :=
  if (pid <? 0) || (PROCESS_MAX_PROCESSES <=? pid) then mret (Returned PROCESS_ILLEGAL_JOIN)
  else
    p ← get_pcb pid;
    me ← process_get_current_process cpu;
    if negb (parent p =? me) then mret (Returned PROCESS_ILLEGAL_JOIN)
    else join_turn cpu pid.

(** ** Memory *)

(** [vm_map] on the page table of the current thread. *)
Definition map_current (cpu phys vaddr dirty : Z) : K kern unit :=
  th ← current_thread cpu;
  s ← gets id;
  match snd (k_vm s) !! th_pagetable th with
  | None => pure Undef
  | Some pt =>
      '(_, pt) ← pure (vm_map phys vaddr dirty pt);
      on_vm (modify (λ v, (fst v, <[th_pagetable th := pt]> (snd v))))
  end.

Definition process_memlimit (cpu new_end : Z) : K kern Z :=
  pid ← process_get_current_process cpu;
  p ← get_pcb pid;
  if new_end =? 0 then mret (heap_end p)
  else if new_end <? heap_end p then mret 0
  else
    let first := heap_end p / PAGE_SIZE + 1 in
    r ← for_ (Z.to_nat (new_end / PAGE_SIZE - heap_end p / PAGE_SIZE)) first (λ i,
          phys ← on_vm (on_pool get_phys_page);
          if phys =? 0 then mret (Some tt)
          else map_current cpu phys (u32 (i * PAGE_SIZE)) 1;; mret None);
    match r with
    | Some _ => mret 0
    | None => put_pcb pid (set_heap_end new_end);; mret new_end
    end.

(** ** Open files *)

Definition process_add_file (cpu file : Z) : K kern bool :=
  pid ← process_get_current_process cpu;
  r ← for_ (Z.to_nat PROCESS_MAX_FILES) 0 (λ i,
        p ← get_pcb pid;
        f ← pure (aget (pfiles p) i);
        if f =? -1 then
          l ← pure (aset (pfiles p) i file);
          put_pcb pid (set_pfiles l);;
          mret (Some tt)
        else mret None);
  mret (if r is Some _ then true else false).

Definition process_remove_file (cpu file : Z) : K kern bool :=
  pid ← process_get_current_process cpu;
  r ← for_ (Z.to_nat PROCESS_MAX_FILES) 0 (λ i,
        p ← get_pcb pid;
        f ← pure (aget (pfiles p) i);
        if f =? file then
          l ← pure (aset (pfiles p) i (-1));
          put_pcb pid (set_pfiles l);;
          mret (Some tt)
        else mret None);
  mret (if r is Some _ then true else false).

Definition process_has_open_file (cpu file : Z) : K kern bool :=
  pid ← process_get_current_process cpu;
  r ← for_ (Z.to_nat PROCESS_MAX_FILES) 0 (λ i,
        p ← get_pcb pid;
        f ← pure (aget (pfiles p) i);
        if f =? file then mret (Some tt) else mret None);
  mret (if r is Some _ then true else false).

End process.
