(* ===== verification/ProcessSpec.v ===== *)
(** * What processes promise

    A parent that joins a child gets the value the child finished with,
    however the two are interleaved; what a full table or a full thread table
    does to a spawn; how the heap grows; and which file handles a process
    has. *)

From S2P Require Import Prelude Bitmap Kmalloc Pagepool Vm Sched SchedSpec Libc Process.
Local Open Scope Z_scope.

(** ** The scheduler leaves a thread's process, page table and context alone *)

Definition ids_same (s s' : sched) : Prop :=
  ∀ t, process_id (th s' t) = process_id (th s t) ∧ th_pagetable (th s' t) = th_pagetable (th s t) ∧ th_ctx (th s' t) = th_ctx (th s t).

(** A call that returns has changed no thread's process, page table or context. *)
Definition keeps {A} (m : K sched A) : Prop := ∀ s, wlp m (λ _ s', ids_same s s') s.

Lemma ids_same_refl s : ids_same s s.
Proof. done. Qed.

Lemma ids_same_trans s1 s2 s3 : ids_same s1 s2 → ids_same s2 s3 → ids_same s1 s3.
Proof. intros H1 H2 t. destruct (H1 t) as (? & ? & ?), (H2 t) as (? & ? & ?). split_and!; congruence. Qed.

Create HintDb frame.

Lemma keeps_ret {A} (a : A) : keeps (mret a).
Proof. intros s. by apply wlp_iff; intros ? ? [= <- <-]. Qed.

Lemma keeps_bind {A B} (m : K sched A) (f : A → K sched B) : keeps m → (∀ a, keeps (f a)) → keeps (m ≫= f).
Proof.
  intros Hm Hf s. apply wlp_bind. eapply wlp_mono; [apply Hm |]. intros a s1 H1.
  eapply wlp_mono; [apply (Hf a s1) |]. intros b s2 H2. exact (ids_same_trans _ _ _ H1 H2).
Qed.

Lemma keeps_gets {A} (f : sched → A) : keeps (gets f).
Proof. intros s. by apply wlp_iff; intros ? ? [= <- <-]. Qed.

Lemma keeps_kassert b : keeps (kassert b).
Proof. intros s. apply wlp_iff. intros a s'. unfold kassert. destruct b; [by intros [= <- <-] | done]. Qed.

Lemma keeps_panic {A} msg : keeps (panic (A := A) msg).
Proof. done. Qed.

Lemma keeps_pure {A} (r : res A) : keeps (pure r).
Proof. intros s. apply wlp_iff. intros a s'. unfold pure. destruct r; [by intros [= <- <-] | done ..]. Qed.

Lemma keeps_modify f : (∀ s, thread_table (f s) = thread_table s) → keeps (modify f).
Proof. intros Hf s. apply wlp_iff. intros a s' [= <- <-] t. unfold th. by rewrite Hf. Qed.

Lemma keeps_set_thread t f :
  (∀ x, process_id (f x) = process_id x ∧ th_pagetable (f x) = th_pagetable x ∧ th_ctx (f x) = th_ctx x) → keeps (set_thread t f).
Proof.
  intros Hf s. apply wlp_iff. intros a s' He.
  unfold set_thread, get_thread, mbind, K_bind, gets, pure, modify, id in He.
  destruct (aget (thread_table s) t) as [x| | | |] eqn:Hx; try done. apply aget_Ok in Hx as [Ht Hx].
  destruct (aset (thread_table s) t (f x)) as [l| | | |] eqn:Hl; try done. apply aset_inv in Hl as [Hr ->].
  injection He as _ <-. intros u. unfold th. simpl. rewrite !nth_lookup.
  destruct (decide (Z.to_nat u = Z.to_nat t)) as [->|Hne].
  - rewrite list_lookup_insert_eq by lia. rewrite Hx. simpl. apply Hf.
  - by rewrite list_lookup_insert_ne by done.
Qed.

#[export] Hint Resolve keeps_ret keeps_gets keeps_kassert keeps_panic keeps_pure : frame.

(** Walk through the code: what is left are the calls the database knows. *)
Ltac keep := repeat first
  [ by auto 1 with frame
  | match goal with |- keeps (set_thread _ _) => apply keeps_set_thread; intros ?; by split_and! end
  | match goal with |- keeps (mbind _ _) => apply keeps_bind; [| intros] end
  | apply keeps_modify; done
  | progress cbv zeta
  | match goal with |- keeps (match ?x with _ => _ end) => destruct x end ].

Lemma keeps_get_thread t : keeps (get_thread t).
Proof. unfold get_thread. keep. Qed.
Lemma keeps_get_bucket h : keeps (get_bucket h).
Proof. unfold get_bucket. keep. Qed.
Lemma keeps_set_bucket h t : keeps (set_bucket h t).
Proof. unfold set_bucket. keep. Qed.
Lemma keeps_get_current cpu : keeps (get_current cpu).
Proof. unfold get_current. keep. Qed.
Lemma keeps_put_current cpu t : keeps (put_current cpu t).
Proof. unfold put_current. keep. Qed.
#[export] Hint Resolve keeps_get_thread keeps_get_bucket keeps_set_bucket keeps_get_current keeps_put_current : frame.

Lemma keeps_add_to_ready_list t : keeps (scheduler_add_to_ready_list t).
Proof. unfold scheduler_add_to_ready_list. keep. Qed.
#[export] Hint Resolve keeps_add_to_ready_list : frame.

Lemma keeps_schedule cpu : keeps (scheduler_schedule cpu).
Proof. unfold scheduler_schedule, scheduler_remove_first_ready. keep. Qed.

Lemma keeps_add_ready t : keeps (scheduler_add_ready t).
Proof. unfold scheduler_add_ready. keep. Qed.

Lemma keeps_chain_end fuel first : keeps (chain_end fuel first).
Proof. revert first. induction fuel as [|fuel IH]; intros first; cbn [chain_end]; keep. Qed.

Lemma keeps_find_waiter fuel x p f : keeps (find_waiter fuel x p f).
Proof. revert p f. induction fuel as [|fuel IH]; intros p f; cbn [find_waiter]; keep. Qed.
#[export] Hint Resolve keeps_schedule keeps_add_ready keeps_chain_end keeps_find_waiter : frame.

Lemma keeps_sleepq_add cpu intr x : keeps (sleepq_add cpu intr x).
Proof. unfold sleepq_add, thread_get_current_thread. keep. Qed.

Lemma keeps_wake_all_loop fuel x h p f : keeps (wake_all_loop fuel x h p f).
Proof.
  revert p f. induction fuel as [|fuel IH]; intros p f; cbn [wake_all_loop]; unfold unlink, wake_thread; keep.
Qed.
#[export] Hint Resolve keeps_sleepq_add keeps_wake_all_loop : frame.

Lemma keeps_sleepq_wake_all x : keeps (sleepq_wake_all x).
Proof. unfold sleepq_wake_all. keep. Qed.

Lemma keeps_sleepq_wake x : keeps (sleepq_wake x).
Proof. unfold sleepq_wake, unlink, wake_thread. keep. Qed.

Lemma wp_keeps {A} (m : K sched A) (Q : A → sched → Prop) s :
  wp m Q s → keeps m → wp m (λ a s', Q a s' ∧ ids_same s s') s.
Proof.
  intros Hw Hk. specialize (Hk s). unfold wp, wlp in *. by destruct (m s) as [[a s']| | | |].
Qed.

(** ** Processes and threads *)

Section process_spec.
Context {P : Type} `{PageAlloc P}.
Context (table_addr start_addr stacks finish_addr : Z).
Hypothesis table_addr_pos : 0 < table_addr.

Abbreviation addr_of := (pcb_addr table_addr).

(** The sizes of the tables, and the scheduler's invariant. *)
Record kern_ok (s : @kern P) : Prop := {
  ko_len : length (process_table s) = 32%nat;
  ko_exe i p : process_table s !! i = Some p → length (executable p) = 64%nat;
  ko_files i p : process_table s !! i = Some p → length (pfiles p) = 512%nat;
  ko_sched : sched_inv (k_sched s);
}.

(** Thread [t] of process [pid] runs on [cpu], and is not about to sleep. *)
Record runs (s : @kern P) (cpu t pid : Z) : Prop := {
  rn_cpu : 0 ≤ cpu < 4;
  rn_cur : scheduler_current_thread (k_sched s) !! Z.to_nat cpu = Some t;
  rn_tid : tid t;
  rn_so : so_of (k_sched s) t = 0;
  rn_st : st_of (k_sched s) t = THREAD_RUNNING;
  rn_pid : process_id (th (k_sched s) t) = pid;
}.

Lemma get_pcb_wp pid p s (Q : pcb → @kern P → Prop) :
  0 ≤ pid → process_table s !! Z.to_nat pid = Some p → Q p s → wp (get_pcb pid) Q s.
Proof.
  intros H0 Hp HQ. unfold get_pcb. do 2 wp_step. eapply wp_pure; [apply aget_Ok; split; [lia | exact Hp] | done].
Qed.

Lemma put_pcb_wp pid f p s (Q : unit → @kern P → Prop) :
  0 ≤ pid → process_table s !! Z.to_nat pid = Some p →
  Q tt (set_ptable (<[Z.to_nat pid := f p]> (process_table s)) s) → wp (put_pcb pid f) Q s.
Proof.
  intros H0 Hp HQ. unfold put_pcb. do 3 wp_step. eapply wp_pure; [apply aget_Ok; split; [lia | exact Hp] |].
  cbv beta. wp_step. eapply wp_pure.
  { apply aset_Ok. apply lookup_lt_Some in Hp. unfold id. lia. }
  cbv beta. by wp_step.
Qed.

Lemma current_thread_wp cpu t pid s (Q : thread → @kern P → Prop) :
  kern_ok s → runs s cpu t pid → Q (th (k_sched s) t) s → wp (current_thread cpu) Q s.
Proof.
  intros Hok Hr HQ. pose proof (ko_sched _ Hok) as [Hq _ _]. unfold current_thread, on_sched. do 2 wp_step.
  apply wp_get_current; [apply Hq | apply Hr |]. intros t' Ht'.
  assert (t' = t) as -> by (pose proof (rn_cur _ _ _ _ Hr); congruence).
  apply wp_get_thread; [apply Hq | apply tid_slot, Hr |]. by destruct s.
Qed.

Lemma current_process_wp cpu t pid s (Q : Z → @kern P → Prop) :
  kern_ok s → runs s cpu t pid → Q pid s → wp (process_get_current_process cpu) Q s.
Proof.
  intros Hok Hr HQ. unfold process_get_current_process. wp_step.
  apply (current_thread_wp _ t pid); [done | done |]. wp_step. by rewrite (rn_pid _ _ _ _ Hr).
Qed.

(** Two changes of the same entry. *)
Lemma set_ptable_twice i x y (s : @kern P) :
  set_ptable (<[i := y]> (process_table (set_ptable (<[i := x]> (process_table s)) s)))
    (set_ptable (<[i := x]> (process_table s)) s) = set_ptable (<[i := y]> (process_table s)) s.
Proof. unfold set_ptable. simpl. by rewrite list_insert_insert_eq. Qed.

Lemma ptable_here i x (s : @kern P) :
  (i < length (process_table s))%nat → process_table (set_ptable (<[i := x]> (process_table s)) s) !! i = Some x.
Proof. intros Hi. simpl. by apply list_lookup_insert_eq. Qed.

(** *** Resetting a slot *)

Definition free_pcb (p : pcb) : pcb :=
  mk_pcb (<[0%nat := 0]> (executable p)) PROCESS_FREE 0 (-1) (heap_end p) (replicate 512 (-1)).

Lemma process_reset_wp pid p s (Q : unit → @kern P → Prop) :
  0 ≤ pid → process_table s !! Z.to_nat pid = Some p → length (executable p) = 64%nat → length (pfiles p) = 512%nat →
  Q tt (set_ptable (<[Z.to_nat pid := free_pcb p]> (process_table s)) s) → wp (process_reset pid) Q s.
Proof.
  intros H0 Hp He Hf HQ. pose proof (lookup_lt_Some _ _ _ Hp) as Hlt. unfold process_reset.
  wp_step. eapply put_pcb_wp; [done | exact Hp |]. wp_step.
  eapply get_pcb_wp; [done | by apply ptable_here |]. wp_step.
  eapply wp_pure; [apply aset_Ok; simpl; lia |]. wp_step.
  eapply put_pcb_wp; [done | by apply ptable_here |]. rewrite set_ptable_twice. wp_step.
  eapply put_pcb_wp; [done | by apply ptable_here |]. rewrite set_ptable_twice. wp_step.
  eapply put_pcb_wp; [done | by apply ptable_here |]. rewrite set_ptable_twice. cbn.
  set (q := mk_pcb (<[0%nat := 0]> (executable p)) PROCESS_FREE 0 (-1) (heap_end p)).
  change (set_parent _ _) with (q (pfiles p)).
  apply (wp_for_each (λ i s', ∃ l, s' = set_ptable (<[Z.to_nat pid := q l]> (process_table s)) s ∧
    length l = 512%nat ∧ ∀ j, (Z.of_nat j < i) → l !! j = Some (-1))).
  - exists (pfiles p). split_and!; [done | done | lia].
  - intros i s1 Hi (l & -> & Hl & Hj). unfold PROCESS_MAX_FILES in Hi.
    wp_step. eapply get_pcb_wp; [done | by apply ptable_here |]. wp_step.
    eapply wp_pure; [apply aset_Ok; simpl; lia |]. cbv beta.
    eapply put_pcb_wp; [done | by apply ptable_here |]. rewrite set_ptable_twice. cbn.
    exists (<[Z.to_nat i := -1]> l). split_and!; [done | by rewrite length_insert |]. intros j Hlt'.
    destruct (decide (j = Z.to_nat i)) as [->|Hne]; [apply list_lookup_insert_eq; lia |].
    rewrite list_lookup_insert_ne by done. apply Hj. lia.
  - intros s1 (l & -> & Hl & Hj). assert (l = replicate 512 (-1)) as ->; [| exact HQ].
    apply (list_eq_same_length _ _ 512); [apply length_replicate | done |]. intros i x y Hi Hx Hy.
    apply lookup_replicate in Hy as [-> _]. rewrite Hj in Hx by (unfold PROCESS_MAX_FILES; lia). congruence.
Qed.

(** *** Joining and finishing *)

Lemma addr_of_nz pid : 0 ≤ pid → addr_of pid ≠ 0.
Proof using table_addr_pos. unfold pcb_addr, SIZEOF_PCB. lia. Qed.

Lemma addr_of_inj i j : addr_of i = addr_of j → i = j.
Proof. unfold pcb_addr, SIZEOF_PCB. lia. Qed.

Lemma on_sched_wp {A} (m : K sched A) s (Q : A → @kern P → Prop) :
  wp m (λ a x, Q a (mk_kern (process_table s) x (k_vm s))) (k_sched s) → wp (on_sched m) Q s.
Proof. intros Hm. by apply wp_zoom. Qed.

Lemma kern_ok_pcb s i q :
  kern_ok s → length (executable q) = 64%nat → length (pfiles q) = 512%nat →
  kern_ok (set_ptable (<[i := q]> (process_table s)) s).
Proof.
  intros [Hl He Hf Hs] Hq1 Hq2. constructor; [simpl; by rewrite length_insert | | | done].
  - intros j p. simpl. intros [(_ & <- & _)|[_ Hj]]%list_lookup_insert_Some; [done | by eapply He].
  - intros j p. simpl. intros [(_ & <- & _)|[_ Hj]]%list_lookup_insert_Some; [done | by eapply Hf].
Qed.

(** Nobody waits for a process that has finished. *)
Definition exits_seen (s : @kern P) : Prop :=
  ∀ pid p, 0 ≤ pid → process_table s !! Z.to_nat pid = Some p → pstate p = PROCESS_ZOMBIE →
    waiters (k_sched s) (addr_of pid) = [].

Definition join_post (s : @kern P) (t pid : Z) (p : pcb) (r : joined) (s' : @kern P) : Prop :=
  if bool_decide (pstate p = PROCESS_ZOMBIE)
  then r = Returned (retval p) ∧ s' = set_ptable (<[Z.to_nat pid := free_pcb p]> (process_table s)) s
  else r = Asleep ∧ process_table s' = process_table s ∧ k_vm s' = k_vm s ∧
       sched_inv (k_sched s') ∧ ids_same (k_sched s) (k_sched s') ∧
       ∀ y, y ≠ 0 → waiters (k_sched s') y = if y =? addr_of pid then waiters (k_sched s) y ++ [t] else waiters (k_sched s) y.

Lemma join_turn_wp s cpu t me pid p :
  kern_ok s → runs s cpu t me → 0 ≤ pid → process_table s !! Z.to_nat pid = Some p →
  wp (join_turn table_addr cpu pid) (join_post s t pid p) s.
Proof using table_addr_pos.
  intros Hok Hr H0 Hp. unfold join_turn, join_post. wp_step. eapply get_pcb_wp; [done | exact Hp |].
  case_bool_decide as Hz.
  - wp_step. eapply process_reset_wp; [done | exact Hp | by eapply ko_exe | by eapply ko_files |]. by wp_step.
  - wp_step. apply on_sched_wp.
    pose proof (sleepq_add_queue (k_sched s) cpu 0 (addr_of pid) t (ko_sched _ Hok) (rn_cpu _ _ _ _ Hr) eq_refl
      (addr_of_nz pid H0) (rn_cur _ _ _ _ Hr) (rn_tid _ _ _ _ Hr) (rn_so _ _ _ _ Hr) (rn_st _ _ _ _ Hr)) as Hwp.
    pose proof (wp_keeps _ _ _ Hwp (keeps_sleepq_add _ _ _)) as Hwp2. eapply wp_mono; [exact Hwp2 |].
    intros [] s1 ((Hi1 & Hw1 & _ & _) & Hk1). wp_step. apply on_sched_wp. cbn [k_sched process_table k_vm].
    unfold thread_switch. pose proof (schedule_queue s1 cpu Hi1 (rn_cpu _ _ _ _ Hr)) as Hsw.
    pose proof (wp_keeps _ _ _ Hsw (keeps_schedule _)) as Hsw2. eapply wp_mono; [exact Hsw2 |].
    intros [] s2 ((Hi2 & Hw2) & Hk2). wp_step. split_and!; try done.
    + exact (ids_same_trans _ _ _ Hk1 Hk2).
    + intros y Hy. cbn [k_sched]. rewrite Hw2, Hw1 by done. done.
Qed.

Lemma join_post_inv s t pid p r s' :
  kern_ok s → exits_seen s → 0 ≤ pid → process_table s !! Z.to_nat pid = Some p →
  join_post s t pid p r s' → kern_ok s' ∧ exits_seen s'.
Proof using table_addr_pos.
  intros Hok Hex H0 Hp. unfold join_post. case_bool_decide as Hz.
  - intros [_ ->]. split.
    + apply kern_ok_pcb; [done | |]; simpl.
      * rewrite length_insert. by eapply ko_exe.
      * done.
    + intros i q Hi. simpl. intros [(_ & <- & _)|[_ Hq]]%list_lookup_insert_Some; [done | by apply Hex].
  - intros (_ & Ht & _ & Hi & _ & Hw). split.
    + destruct Hok. by constructor; rewrite ?Ht.
    + intros i q Hi0 Hq Hqz. rewrite Ht in Hq. rewrite Hw by (by apply addr_of_nz).
      destruct (Z.eqb_spec (addr_of i) (addr_of pid)) as [E|E]; [| by apply (Hex i q)].
      apply addr_of_inj in E as ->. congruence.
Qed.

(** The children of [pid] lose their parent. *)
Definition orphan (pid : Z) (p : pcb) : pcb := if parent p =? pid then set_parent (-1) p else p.

Lemma orphan_loop_wp pid s (Q : unit → @kern P → Prop) :
  length (process_table s) = 32%nat → Q tt (set_ptable (orphan pid <$> process_table s) s) →
  wp (for_each (Z.to_nat PROCESS_MAX_PROCESSES) 0 (λ i,
        p ← get_pcb i;
        if parent p =? pid then put_pcb i (set_parent (-1)) else mret tt)) Q s.
Proof.
  intros Hl HQ. change (Z.to_nat PROCESS_MAX_PROCESSES) with 32%nat. rewrite <- Hl.
  apply (wp_for_rows process_table set_ptable (orphan pid) (λ _, True)); [by intros [] | done | done | by apply Forall_true | | done].
  intros i p s1 R Hi Hp _ HR. wp_step. eapply get_pcb_wp; [lia | exact Hp |]. unfold orphan in HR.
  destruct (parent p =? pid) eqn:Epar; [by eapply put_pcb_wp; [lia | exact Hp |] |].
  wp_step. rewrite list_insert_id in HR by done. by destruct s1.
Qed.

(** The thread's page table and the page it is in. *)
Definition has_table (s : @kern P) (t : Z) : Prop :=
  tables_inv (k_vm s) ∧ is_Some (snd (k_vm s) !! th_pagetable (th (k_sched s) t)).

Record finish_post (s : @kern P) (intr : bool) (t pid ret : Z) (p : pcb) (s' : @kern P) : Prop := {
  fp_table : process_table s' =
    orphan pid <$> <[Z.to_nat pid := set_pstate PROCESS_ZOMBIE (set_retval ret p)]> (process_table s);
  fp_sched : sched_inv (k_sched s');
  fp_none : waiters (k_sched s') (addr_of pid) = [];
  fp_other y : y ≠ 0 → y ≠ addr_of pid → waiters (k_sched s') y = waiters (k_sched s) y;
  fp_woken u : u ∈ waiters (k_sched s) (addr_of pid) → st_of (k_sched s') u ≠ THREAD_SLEEPING;
  fp_thread : st_of (k_sched s') t = if intr then THREAD_DYING else THREAD_FREE;
  fp_tables : tables_inv (k_vm s') ∧ snd (k_vm s') = delete (th_pagetable (th (k_sched s) t)) (snd (k_vm s));
}.

(** [thread->pagetable = NULL] *)
Definition no_pagetable (x : thread) : thread :=
  mk_thread (th_context x) (th_ctx x) (user_context x) (state x) (sleeps_on x) 0 (process_id x) (next x).

(** Fields the scheduler does not look at. *)
Lemma other_field_inv s t f :
  sched_inv s → slot t → (∀ x, state (f x) = state x ∧ sleeps_on (f x) = sleeps_on x ∧ next (f x) = next x) →
  sched_inv (upd t f s) ∧ (∀ x, waiters (upd t f s) x = waiters s x) ∧
  looks (upd t f s) (st_of s) (so_of s) (scheduler_current_thread s) ∧ th (upd t f s) t = f (th s t).
Proof.
  intros Hi Ht Hf. pose proof Hi as [Hq Hs Hn]. pose proof (q_len _ _ _ Hq) as Hl.
  assert (Hlk : looks (upd t f s) (st_of s) (so_of s) (scheduler_current_thread s)).
  { constructor; [| | done]; intros u Hu; unfold st_of, so_of; rewrite th_upd by (unfold slot in *; done || lia);
      destruct (Z.eqb_spec u t) as [->|]; by try apply Hf. }
  assert (Hrep : rep (upd t f s) (ready_list s) (bucket s)).
  { eapply rep_intro; [apply queues_upd; [done | done | apply Hf] | exact Hlk | exact Hs | exact Hn]. }
  split_and!; [by eapply rep_inv | | done |].
  - intros x. rewrite (rep_waiters _ _ _ x Hrep). unfold waiters. apply filter_ext_in. intros u Hu.
    rewrite (lk_so _ _ _ _ Hlk); [done |]. eapply tid_slot, (q_bucket_tid _ _ _ Hq _ u (hash_in_range x) Hu).
  - rewrite th_upd by (unfold slot in *; done || lia). by rewrite Z.eqb_refl.
Qed.

Lemma no_pagetable_inv s t :
  sched_inv s → slot t →
  sched_inv (upd t no_pagetable s) ∧ (∀ x, waiters (upd t no_pagetable s) x = waiters s x) ∧
  looks (upd t no_pagetable s) (st_of s) (so_of s) (scheduler_current_thread s) ∧
  th_pagetable (th (upd t no_pagetable s) t) = 0.
Proof.
  intros Hi Ht. destruct (other_field_inv s t no_pagetable Hi Ht) as (? & ? & ? & He); [done |]. by rewrite He.
Qed.

Lemma thread_finish_queue s cpu t intr :
  sched_inv s → 0 ≤ cpu < 4 → scheduler_current_thread s !! Z.to_nat cpu = Some t → tid t →
  so_of s t = 0 → th_pagetable (th s t) = 0 →
  wp (thread_finish cpu intr) (λ _ s', sched_inv s' ∧ (∀ y, waiters s' y = waiters s y) ∧
    (∀ u, slot u → so_of s' u = so_of s u) ∧ st_of s' t = if intr then THREAD_DYING else THREAD_FREE) s.
Proof.
  intros Hi Hc Hcur Ht Hso Hpt. eapply wp_mono; [by apply (thread_finish_wp s _ _ cpu t intr Hi) |].
  intros [] s' (r' & Hrep & Hso' & Hst). split_and!; [by eapply rep_inv | | done | by destruct intr; destruct Hst].
  intros y. rewrite (rep_waiters s' _ _ y Hrep). unfold waiters. apply filter_ext_in. intros u Hu.
  rewrite Hso'; [done |]. destruct Hi as [Hq _ _]. eapply tid_slot, (q_bucket_tid _ _ _ Hq _ u (hash_in_range y) Hu).
Qed.

Lemma woken_not_asleep s u : sched_inv s → tid u → so_of s u = 0 → st_of s u ≠ THREAD_SLEEPING.
Proof. intros [_ Hs _] Hu Hso Hst. by apply (st_sleeping _ _ _ _ _ Hs u Hu Hst). Qed.

Lemma waiter_tid s x u : sched_inv s → u ∈ waiters s x → tid u ∧ so_of s u = x.
Proof.
  intros [Hq _ _] [Hso Hu]%list_elem_of_filter. split; [| done].
  by apply (q_bucket_tid _ _ _ Hq _ u (hash_in_range x) Hu).
Qed.

Lemma process_finish_wp s cpu intr t pid ret p :
  kern_ok s → runs s cpu t pid → 0 ≤ pid → process_table s !! Z.to_nat pid = Some p → has_table s t →
  wp (process_finish table_addr cpu intr ret) (λ _ s', finish_post s intr t pid ret p s') s.
Proof using table_addr_pos.
  intros Hok Hr H0 Hp [Htab [pt Hpt]]. pose proof (ko_sched _ Hok) as Hi. pose proof Hi as [Hq Hs _].
  pose proof (rn_tid _ _ _ _ Hr) as Ht. pose proof (tid_slot _ Ht) as Hslot.
  pose proof (lookup_lt_Some _ _ _ Hp) as Hlt. unfold process_finish.
  wp_step. apply (current_process_wp _ t pid); [done | done |]. wp_step. apply on_sched_wp.
  apply wp_get_current; [apply Hq | apply Hr |]. intros t' Ht'.
  assert (t' = t) as -> by (pose proof (rn_cur _ _ _ _ Hr); congruence).
  replace (mk_kern (process_table s) (k_sched s) (k_vm s)) with s by (by destruct s).
  wp_step. eapply put_pcb_wp; [done | exact Hp |]. wp_step.
  eapply put_pcb_wp; [done | by apply ptable_here |]. rewrite set_ptable_twice.
  set (l1 := <[Z.to_nat pid := _]> (process_table s)). wp_step. apply on_sched_wp. cbn [k_sched set_ptable].
  apply wp_get_thread; [apply Hq | done |]. cbn [process_table k_vm set_ptable]. wp_step. unfold on_vm. wp_step. cbn [k_vm].
  eapply wp_mono; [by apply (vm_destroy_wp _ _ pt) |]. intros [] v' (Htab' & Hdel & _). cbn [process_table k_sched].
  wp_step. apply on_sched_wp. cbn [k_sched process_table k_vm].
  apply wp_set_thread; [apply Hq | done |]. change (upd t _ (k_sched s)) with (upd t no_pagetable (k_sched s)).
  destruct (no_pagetable_inv _ t Hi Hslot) as (Hi1 & Hw1 & Hlk1 & Hpt1). set (s1 := upd t no_pagetable (k_sched s)) in *.
  wp_step. apply on_sched_wp. cbn [k_sched process_table k_vm].
  pose proof (sleepq_wake_all_queue s1 (addr_of pid) Hi1 (addr_of_nz pid H0)) as Hwp.
  eapply wp_mono; [exact (wp_keeps _ _ _ Hwp (keeps_sleepq_wake_all _)) |].
  intros [] s2 ((Hi2 & Hnone & Hother & _ & Hlk2) & Hk2). wp_step. apply orphan_loop_wp.
  { cbn. unfold l1. rewrite length_insert. apply Hok. }
  apply on_sched_wp. cbn [k_sched process_table k_vm set_ptable].
  assert (Hsot : so_of s2 t = 0).
  { rewrite (lk_so _ _ _ _ Hlk2) by done. unfold all_so. rewrite (lk_so _ _ _ _ Hlk1) by done.
    rewrite (rn_so _ _ _ _ Hr). by case_test. }
  eapply wp_mono; [apply (thread_finish_queue s2 cpu t intr) |].
  - done.
  - apply Hr.
  - rewrite (lk_cur _ _ _ _ Hlk2), (lk_cur _ _ _ _ Hlk1). apply Hr.
  - done.
  - done.
  - by rewrite (proj1 (proj2 (Hk2 t))).
  - intros [] s3 (Hi3 & Hw3 & Hso3 & Hst3). constructor; cbn [process_table k_sched k_vm]; try done.
    + by rewrite Hw3.
    + intros y Hy Hne. rewrite Hw3, Hother by done. apply Hw1.
    + intros u Hu. destruct (waiter_tid _ _ _ Hi Hu) as [Hut Hus]. pose proof (tid_slot _ Hut) as Hus'.
      apply woken_not_asleep; [done | done |]. rewrite Hso3, (lk_so _ _ _ _ Hlk2) by done. unfold all_so.
      by rewrite (lk_so _ _ _ _ Hlk1), Hus, Z.eqb_refl by done.
Qed.

(** *** Starting *)

(** The first slot that is free. *)
Definition first_free (s : @kern P) : option nat := fst <$> list_find (λ p, pstate p = PROCESS_FREE) (process_table s).

Lemma alloc_wp s (Q : Z → @kern P → Prop) :
  length (process_table s) = 32%nat →
  (match first_free s with
   | None => Q 32 s
   | Some i => ∀ p, process_table s !! i = Some p → pstate p = PROCESS_FREE →
       Q (Z.of_nat i) (set_ptable (<[i := set_pstate PROCESS_RUNNING p]> (process_table s)) s)
   end) → wp alloc_process_id Q s.
Proof.
  intros Hl HQ. unfold alloc_process_id. wp_step.
  apply (wp_for (λ j s', s' = s ∧ ∀ i p, Z.of_nat i < j → process_table s !! i = Some p → pstate p ≠ PROCESS_FREE)).
  - split; [done | lia].
  - intros j s1 Hj [-> Hbelow]. unfold PROCESS_MAX_PROCESSES in Hj.
    destruct (lookup_lt_is_Some_2 (process_table s) (Z.to_nat j)) as [p Hp]; [lia |].
    wp_step. eapply get_pcb_wp; [lia | exact Hp |]. case_bool_decide as Hf.
    + wp_step. eapply put_pcb_wp; [lia | exact Hp |]. do 2 wp_step.
      assert (He : first_free s = Some (Z.to_nat j)).
      { unfold first_free. rewrite (proj2 (list_find_Some _ _ (Z.to_nat j) p)); [done |].
        split_and!; [done | done |]. intros i q Hi Hlt. apply (Hbelow i); [lia | done]. }
      rewrite He in HQ. specialize (HQ p Hp Hf). by rewrite Z2Nat.id in HQ by lia.
    + wp_step. split; [done |]. intros i q Hi Hq. destruct (decide (i = Z.to_nat j)) as [->|]; [congruence |].
      apply (Hbelow i); [lia | done].
  - intros s1 [-> Hall]. wp_step. assert (He : first_free s = None).
    { unfold first_free. rewrite (proj2 (list_find_None _ _)); [done |]. apply Forall_lookup. intros i p Hi.
      apply (Hall i); [| done]. apply lookup_lt_Some in Hi. unfold PROCESS_MAX_PROCESSES. lia. }
    by rewrite He in HQ.
Qed.

(** The slot a spawn fills in. *)
Definition new_pcb (a : bytes) (me : Z) (p : pcb) : pcb :=
  mk_pcb (splice 0 (take 63 a ++ [0]) (executable p)) PROCESS_RUNNING (retval p) me (heap_end p) (pfiles p).

(** The creator runs on. *)
Lemma runs_create s q1 q2 cpu t me u ps v :
  runs s cpu t me → tid u → t ≠ u →
  looks q1 (fu (st_of (k_sched s)) u THREAD_NONREADY) (fu (so_of (k_sched s)) u 0) (scheduler_current_thread (k_sched s)) →
  (∀ w, slot w → w ≠ u → th q1 w = th (k_sched s) w) →
  becomes (ready_list (k_sched s) ++ [u]) (bucket (k_sched s)) (fu (st_of q1) u THREAD_READY) (so_of q1) (scheduler_current_thread q1) q2 →
  ids_same q1 q2 → runs (mk_kern ps q2 v) cpu t me.
Proof.
  intros [H1 H2 H3 H4 H5 H6] Hu Hne Hlk1 Hoth [_ Hlk2] Hk. pose proof (tid_slot _ H3) as Hs. destruct (Hk t) as (Eid & _ & _).
  constructor; cbn [k_sched]; [done | | done | | |].
  - by rewrite (lk_cur _ _ _ _ Hlk2), (lk_cur _ _ _ _ Hlk1).
  - by rewrite (lk_so _ _ _ _ Hlk2), (lk_so _ _ _ _ Hlk1), fu_ne by done.
  - by rewrite (lk_st _ _ _ _ Hlk2), fu_ne, (lk_st _ _ _ _ Hlk1), fu_ne by done.
  - by rewrite Eid, Hoth.
Qed.

Lemma process_spawn_wp s cpu t me exe a :
  kern_ok s → runs s cpu t me → cstr exe = Some a →
  wp (process_spawn start_addr stacks finish_addr cpu exe) (λ r s',
    match first_free s with
    | None => r = PROCESS_PTABLE_FULL ∧ s' = s
    | Some i => ∃ p, process_table s !! i = Some p ∧ pstate p = PROCESS_FREE ∧
        process_table s' = <[i := new_pcb a me p]> (process_table s) ∧ k_vm s' = k_vm s ∧
        ((r = PROCESS_TTABLE_FULL ∧ k_sched s' = k_sched s ∧ ∀ u, tid u → st_of (k_sched s) u ≠ THREAD_FREE) ∨
         (r = Z.of_nat i ∧ sched_inv (k_sched s') ∧ ∃ u, tid u ∧ st_of (k_sched s) u = THREAD_FREE ∧
            ready_list (k_sched s') = ready_list (k_sched s) ++ [u] ∧
            (∀ y, y ≠ 0 → waiters (k_sched s') y = waiters (k_sched s) y) ∧
            ctx_pc (th_ctx (th (k_sched s') u)) = start_addr ∧ ctx_a0 (th_ctx (th (k_sched s') u)) = Z.of_nat i ∧ runs s' cpu t me))
    end) s.
Proof.
  intros Hok Hr Ha. unfold process_spawn. wp_step. apply alloc_wp; [apply Hok |].
  destruct (first_free s) as [i|] eqn:Hff; [| change (32 =? PROCESS_MAX_PROCESSES) with true; cbv iota; by wp_step]. intros p Hp Hfree.
  pose proof (lookup_lt_Some _ _ _ Hp) as Hlt. rewrite (ko_len _ Hok) in Hlt.
  rewrite (proj2 (Z.eqb_neq _ _)) by (unfold PROCESS_MAX_PROCESSES; lia).
  pose proof (ko_exe _ Hok i p Hp) as Hexe.
  assert (Hput : ∀ q, process_table (set_ptable (<[i := q]> (process_table s)) s) !! Z.to_nat (Z.of_nat i) = Some q).
  { intros q. rewrite Nat2Z.id. apply ptable_here. rewrite (ko_len _ Hok). lia. }
  wp_step. eapply get_pcb_wp; [lia | apply Hput |]. wp_step.
  eapply wp_pure; [apply (stringcopy_Ok _ _ a); [done | simpl; rewrite Hexe; unfold PROCESS_MAX_FILELENGTH; lia] |].
  change (Z.to_nat (PROCESS_MAX_FILELENGTH - 1)) with 63%nat. wp_step.
  eapply put_pcb_wp; [lia | apply Hput |]. rewrite Nat2Z.id, set_ptable_twice. wp_step.
  set (q1 := set_executable _ _).
  assert (Hsp : length (splice 0 (take 63 a ++ [0]) (executable p)) = 64%nat).
  { rewrite splice_length; [done |]. rewrite length_app, length_take. change (length [0]) with 1%nat. lia. }
  apply (current_process_wp _ t me).
  { apply kern_ok_pcb; [done | exact Hsp | by apply (ko_files _ Hok i p)]. }
  { by destruct Hr. }
  wp_step. eapply put_pcb_wp; [lia | apply Hput |]. rewrite Nat2Z.id, set_ptable_twice.
  change (set_parent me q1) with (new_pcb a me p). wp_step. apply on_sched_wp. cbn [k_sched set_ptable].
  pose proof (ko_sched _ Hok) as Hi.
  eapply wp_mono; [apply (thread_create_wp stacks finish_addr (k_sched s) _ _ start_addr (Z.of_nat i) Hi) |].
  intros u s1 [(-> & -> & Hno)|(Hu & Hst & Hbec & Hpc & Ha0 & _ & _ & Hoth)].
  - change (-1 <? 0) with true. cbv iota. wp_step. exists p. split_and!; try done. left. by split_and!.
  - rewrite (proj2 (Z.ltb_ge u 0)) by (unfold tid in Hu; lia). wp_step. apply on_sched_wp.
    cbn [k_sched process_table k_vm]. destruct Hbec as [Hrep1 Hlk1]. unfold thread_run.
    assert (Hst1 : st_of s1 u = THREAD_NONREADY) by (rewrite (lk_st _ _ _ _ Hlk1), fu_eq by (by apply tid_slot); done).
    eapply wp_mono; [by apply (wp_keeps _ _ _ (add_ready_wp s1 _ _ u Hrep1 Hu Hst1) (keeps_add_ready u)) |]. intros [] s2 [Hbec2 Hk]. wp_step.
    exists p. split_and!; try done. right. split_and!; [done | eapply rep_inv, Hbec2 |].
    assert (Hut : t ≠ u) by (intros ->; rewrite (rn_st _ _ _ _ Hr) in Hst; discriminate).
    exists u. destruct (Hk u) as (_ & _ & Eu). cbn [k_sched].
    split_and!; [done | done | by eapply rep_lists, Hbec2 | | by rewrite Eu | by rewrite Eu | by eapply runs_create].
    intros y Hy.
    rewrite (becomes_waiters _ _ _ _ _ _ _ Hbec2), (rep_waiters (k_sched s) _ _ y Hi) by done.
    apply filter_ext_in. intros v Hv. destruct Hi as [Hq Hs _].
    pose proof (q_bucket_tid _ _ _ Hq _ v (hash_in_range y) Hv) as Hvt.
    rewrite (lk_so _ _ _ _ Hlk1) by (by apply tid_slot). unfold fu. destruct (Z.eqb_spec v u) as [->|]; [| done].
    assert (Hz : so_of (k_sched s) u = 0); [| rewrite Hz; split; congruence].
    destruct (decide (so_of (k_sched s) u = 0)) as [|Hne]; [done |].
    destruct (st_waiting _ _ _ _ _ Hs u Hu Hne); congruence.
Qed.

(** *** Theorems *)

(** [process_join] of the parent of a finished process returns the value it
    finished with and frees its slot, and of the parent of a process that has
    not finished puts the thread last in the queue of those that wait for it,
    leaving every other queue alone; of anybody else, or for a number that is
    no process, it is an error without effect.  In all cases no thread waits
    for a process that has finished afterwards, if none did before. *)
Theorem process_join_spec s cpu t me pid :
  kern_ok s → exits_seen s → runs s cpu t me →
  ∃ r s', process_join table_addr cpu pid s = Ok (r, s') ∧ kern_ok s' ∧ exits_seen s' ∧
    ((∃ p, 0 ≤ pid ∧ process_table s !! Z.to_nat pid = Some p ∧ parent p = me ∧ join_post s t pid p r s') ∨
     (r = Returned PROCESS_ILLEGAL_JOIN ∧ s' = s ∧
      ∀ p, 0 ≤ pid → process_table s !! Z.to_nat pid = Some p → parent p ≠ me)).
Proof using table_addr_pos.
  intros Hok Hex Hr. assert (Hwp : wp (process_join table_addr cpu pid) (λ r s', kern_ok s' ∧ exits_seen s' ∧
    ((∃ p, 0 ≤ pid ∧ process_table s !! Z.to_nat pid = Some p ∧ parent p = me ∧ join_post s t pid p r s') ∨
     (r = Returned PROCESS_ILLEGAL_JOIN ∧ s' = s ∧
      ∀ p, 0 ≤ pid → process_table s !! Z.to_nat pid = Some p → parent p ≠ me))) s).
  2: { apply wp_iff in Hwp as (r & s' & He & Hpost). by exists r, s'. }
  unfold process_join. destruct (_ || _) eqn:Hrange.
  { wp_step. split_and!; [done | done |]. right. split_and!; [done | done |]. intros p H0 Hp.
    apply lookup_lt_Some in Hp. rewrite (ko_len _ Hok) in Hp. unfold PROCESS_MAX_PROCESSES in Hrange.
    apply orb_true_iff in Hrange as [?|?]; bool_prop; lia. }
  apply orb_false_iff in Hrange as [H0 H32]. bool_prop. unfold PROCESS_MAX_PROCESSES in H32.
  destruct (lookup_lt_is_Some_2 (process_table s) (Z.to_nat pid)) as [p Hp]; [rewrite (ko_len _ Hok); lia |].
  wp_step. eapply get_pcb_wp; [done | exact Hp |]. wp_step. apply (current_process_wp _ t me); [done | done |].
  destruct (Z.eqb_spec (parent p) me) as [Hpar|Hpar]; cbn [negb].
  - eapply wp_mono; [by apply (join_turn_wp s cpu t me pid p) |]. intros r s' Hpost.
    destruct (join_post_inv s t pid p r s') as [? ?]; try done. split_and!; [done | done |]. left. by exists p.
  - wp_step. split_and!; [done | done |]. right. split_and!; [done | done |]. intros p' _ Hp'. congruence.
Qed.

(** C11: What a process finishes with reaches its parent, whichever of the two
    comes first.  [process_finish] leaves the process finished with its value,
    its page table gone and its thread free (or dying, to be freed at its next
    switch, if an interrupt handler is under way); no thread waits for it any more,
    and none of those that did is asleep; the other queues are untouched.  In
    any later state with the same table, [process_join] of the parent returns
    that value and frees the slot. *)
Theorem process_finish_join s cpu intr t pid ret p :
  kern_ok s → exits_seen s → runs s cpu t pid → 0 ≤ pid → process_table s !! Z.to_nat pid = Some p →
  parent p ≠ pid → has_table s t →
  ∃ s1, process_finish table_addr cpu intr ret s = Ok (tt, s1) ∧ finish_post s intr t pid ret p s1 ∧ kern_ok s1 ∧ exits_seen s1 ∧
    ∀ s2 cpu' t', kern_ok s2 → process_table s2 = process_table s1 → runs s2 cpu' t' (parent p) →
      ∃ s3, process_join table_addr cpu' pid s2 = Ok (Returned ret, s3) ∧
        ∃ q, process_table s3 !! Z.to_nat pid = Some q ∧ pstate q = PROCESS_FREE.
Proof using table_addr_pos.
  intros Hok Hex Hr H0 Hp Hpar Htab. pose proof (process_finish_wp s cpu intr t pid ret p Hok Hr H0 Hp Htab) as Hwp.
  apply wp_iff in Hwp as ([] & s1 & He & Hpost). pose proof Hpost as [Ht Hi Hnone Hoth _ _ _].
  pose proof (lookup_lt_Some _ _ _ Hp) as Hlt.
  set (z := set_pstate PROCESS_ZOMBIE (set_retval ret p)) in *.
  assert (Hlook : ∀ i q, process_table s1 !! i = Some q → ∃ q0, <[Z.to_nat pid := z]> (process_table s) !! i = Some q0 ∧
    q = orphan pid q0) by (intros i q Hq; rewrite Ht, list_lookup_fmap in Hq; apply fmap_Some in Hq; done).
  assert (Horph : ∀ q0, executable (orphan pid q0) = executable q0 ∧ pfiles (orphan pid q0) = pfiles q0 ∧
    pstate (orphan pid q0) = pstate q0) by (intros q0; unfold orphan; by case_test).
  exists s1. split_and!; [done | done | | |].
  - constructor; [rewrite Ht, length_fmap, length_insert; apply Hok | | | done].
    + intros i q (q0 & Hq0 & ->)%Hlook. rewrite (proj1 (Horph q0)).
      apply list_lookup_insert_Some in Hq0 as [(_ & <- & _)|[_ Hq0]]; [exact (ko_exe _ Hok _ p Hp) | by eapply (ko_exe _ Hok)].
    + intros i q (q0 & Hq0 & ->)%Hlook. rewrite (proj1 (proj2 (Horph q0))).
      apply list_lookup_insert_Some in Hq0 as [(_ & <- & _)|[_ Hq0]]; [exact (ko_files _ Hok _ p Hp) | by eapply (ko_files _ Hok)].
  - intros i q Hi0 (q0 & Hq0 & ->)%Hlook. rewrite (proj2 (proj2 (Horph q0))). intros Hz.
    destruct (decide (i = pid)) as [->|Hne]; [done |]. rewrite Hoth; [| by apply addr_of_nz | by intros E%addr_of_inj].
    rewrite list_lookup_insert_ne in Hq0 by lia. by apply (Hex i q0).
  - intros s2 cpu' t' Hok2 Ht2 Hr2.
    assert (Hp2 : process_table s2 !! Z.to_nat pid = Some z).
    { rewrite Ht2, Ht, list_lookup_fmap, list_lookup_insert_eq by done. simpl. f_equal. unfold orphan.
      change (parent z) with (parent p). by rewrite (proj2 (Z.eqb_neq _ _) Hpar). }
    assert (Hj : wp (process_join table_addr cpu' pid) (join_post s2 t' pid z) s2).
    { unfold process_join. pose proof (lookup_lt_Some _ _ _ Hp2) as Hlt2. rewrite (ko_len _ Hok2) in Hlt2.
      rewrite (proj2 (Z.ltb_ge pid 0)), (proj2 (Z.leb_gt _ pid)) by (unfold PROCESS_MAX_PROCESSES; lia). cbn [orb].
      wp_step. eapply get_pcb_wp; [done | exact Hp2 |]. wp_step. apply (current_process_wp _ t' (parent p)); [done | done |].
      change (parent z) with (parent p). rewrite Z.eqb_refl. cbn [negb]. by eapply join_turn_wp. }
    apply wp_iff in Hj as (r & s3 & Hj & Hpost3). unfold join_post in Hpost3. rewrite bool_decide_true in Hpost3 by done.
    destruct Hpost3 as [-> ->]. eexists. split; [exact Hj |]. exists (free_pcb z). split; [| done].
    apply ptable_here. by eapply lookup_lt_Some.
Qed.

(** [process_spawn] returns.  With no slot free in the process table it
    changes nothing; with a free slot and a free thread the slot holds the new
    process, a child of the caller, and its thread is last in the ready queue.
    With a free slot but no free thread it reports the error and the slot stays
    marked as running although it has no thread. *)
Theorem process_spawn_spec s cpu t me exe a :
  kern_ok s → runs s cpu t me → cstr exe = Some a →
  ∃ r s', process_spawn start_addr stacks finish_addr cpu exe s = Ok (r, s') ∧
    match first_free s with
    | None => r = PROCESS_PTABLE_FULL ∧ s' = s
    | Some i => ∃ p, process_table s !! i = Some p ∧ pstate p = PROCESS_FREE ∧
        process_table s' = <[i := new_pcb a me p]> (process_table s) ∧ k_vm s' = k_vm s ∧
        ((r = PROCESS_TTABLE_FULL ∧ k_sched s' = k_sched s ∧ ∀ u, tid u → st_of (k_sched s) u ≠ THREAD_FREE) ∨
         (r = Z.of_nat i ∧ sched_inv (k_sched s') ∧ ∃ u, tid u ∧ st_of (k_sched s) u = THREAD_FREE ∧
            ready_list (k_sched s') = ready_list (k_sched s) ++ [u] ∧
            (∀ y, y ≠ 0 → waiters (k_sched s') y = waiters (k_sched s) y) ∧
            ctx_pc (th_ctx (th (k_sched s') u)) = start_addr ∧ ctx_a0 (th_ctx (th (k_sched s') u)) = Z.of_nat i ∧ runs s' cpu t me))
    end.
Proof using Type.
  intros Hok Hr Ha. pose proof (process_spawn_wp s cpu t me exe a Hok Hr Ha) as Hwp.
  apply wp_iff in Hwp as (r & s' & He & Hpost). by exists r, s'.
Qed.

End process_spec.

(** ** The heap *)

Section heap_spec.
Context {P : Type} `{PageAlloc P}.

(** [s] with another pool, and another table at [a]. *)
Definition with_vm (s : @kern P) (a : Z) (pool : P) (pt : pagetable) : @kern P :=
  mk_kern (process_table s) (k_sched s) (pool, <[a := pt]> (snd (k_vm s))).

Lemma runs_vm (s : @kern P) cpu t pid (v : @tables P) : runs s cpu t pid → runs (mk_kern (process_table s) (k_sched s) v) cpu t pid.
Proof. intros []. by constructor. Qed.

Lemma kern_ok_vm (s : @kern P) (v : @tables P) : kern_ok s → kern_ok (mk_kern (process_table s) (k_sched s) v).
Proof. intros []. by constructor. Qed.

Lemma map_current_wp (s : @kern P) cpu t pid pt phys vaddr d (Q : unit → @kern P → Prop) :
  kern_ok s → runs s cpu t pid → snd (k_vm s) !! th_pagetable (th (k_sched s) t) = Some pt →
  wp (vm_map phys vaddr d) (λ _ pt', Q tt (with_vm s (th_pagetable (th (k_sched s) t)) (fst (k_vm s)) pt')) pt →
  wp (map_current cpu phys vaddr d) Q s.
Proof.
  intros Hok Hr Hpt Hm. unfold map_current. wp_step. apply (current_thread_wp _ t pid); [done | done |].
  do 2 wp_step. unfold id. rewrite Hpt. wp_step. apply wp_iff in Hm as ([] & pt' & He & HQ).
  eapply wp_pure; [exact He |]. cbv beta. unfold on_vm. wp_step. by wp_step.
Qed.

(** The state after the pages [pages] have been mapped from page [first] on. *)
Record grown (s : @kern P) (a : Z) (pt : pagetable) (first : Z) (pages : list Z) (s' : @kern P) : Prop := {
  gr_state : ∃ pool' pt', s' = with_vm s a pool' pt' ∧ alloc_inv pool' ∧ pt_wf pt' ∧
    (∀ q, managed pool' q ↔ managed (fst (k_vm s)) q) ∧
    valid_count pt' ≤ valid_count pt + Z.of_nat (length pages) ∧
    free_pages pool' = free_pages (fst (k_vm s)) ∖ list_to_set pages ∧
    ∀ w, pt_lookup pt' w = if (first <=? w) && (w <? first + Z.of_nat (length pages))
                           then (λ q, (q, 1)) <$> pages !! Z.to_nat (w - first) else pt_lookup pt w;
  gr_nodup : NoDup pages;
  gr_free q : q ∈ pages → q ∈ free_pages (fst (k_vm s));
}.

Lemma grown_nil (s : @kern P) a pt first :
  alloc_inv (fst (k_vm s)) → pt_wf pt → snd (k_vm s) !! a = Some pt → grown s a pt first [] s.
Proof.
  intros Hp Hwf Hpt. constructor; [| constructor | set_solver].
  exists (fst (k_vm s)), pt. split_and!; try done.
  - unfold with_vm. rewrite insert_id by done. by destruct s as [? ? []].
  - simpl. lia.
  - set_solver.
  - intros w. simpl. rewrite Z.add_0_r. destruct (Z.leb_spec first w), (Z.ltb_spec w first); done || lia.
Qed.

Lemma grow_step (s : @kern P) cpu t pid pt first pages s1 :
  let a := th_pagetable (th (k_sched s) t) in
  kern_ok s → runs s cpu t pid → grown s a pt first pages s1 →
  let i := first + Z.of_nat (length pages) in
  0 ≤ first → i < 2 ^ 20 → valid_count pt + Z.of_nat (length pages) < PAGETABLE_ENTRIES → pt_lookup pt i = None →
  wp (phys ← on_vm (on_pool get_phys_page);
      if phys =? 0 then mret (Some tt) else map_current cpu phys (u32 (i * PAGE_SIZE)) 1;; mret None)
    (λ r s2, match r with
     | Some _ => s2 = s1 ∧ free_pages (fst (k_vm s)) ⊆ list_to_set pages
     | None => ∃ q, grown s a pt first (pages ++ [q]) s2
     end) s1.
Proof.
  intros a Hok Hr [(pool1 & pt1 & -> & Hp1 & Hwf1 & Hman & Hvc & Hfree1 & Hlk1) Hnd Hin] i H0 Hi Hroom Hnone.
  wp_step. unfold on_vm, on_pool. do 2 wp_step. cbn [k_vm with_vm fst snd].
  eapply wp_mono; [by apply get_phys_page_spec |]. intros phys pool2 (Hp2 & Hman2 & Hres). cbn [process_table k_sched fst snd].
  destruct Hres as [(-> & Hempty & ->)|(q & -> & Hq & Hfree2)].
  - rewrite Z.eqb_refl. wp_step. split; [done |]. rewrite Hfree1 in Hempty. set_solver.
  - pose proof (managed_range pool1 q Hp1 (free_pages_managed _ _ Hp1 Hq)) as Hqr. unfold PAGE_SIZE.
    rewrite (proj2 (Z.eqb_neq _ _)) by lia. wp_step.
    rewrite (u32_small (i * 4096)) by (unfold is_u32; lia).
    set (s2 := mk_kern _ _ _).
    apply (map_current_wp s2 cpu t pid pt1); [exact (kern_ok_vm s _ Hok) | exact (runs_vm s _ _ _ _ Hr) | by apply lookup_insert_eq |].
    assert (Hdiv : i * 4096 / 4096 = i) by (by apply Z.div_mul). assert (Hq4 : q * 4096 / 4096 = q) by (by apply Z.div_mul).
    eapply wp_mono; [apply vm_map_wp; [done | unfold is_u32; lia | unfold is_u32; lia | by right |] |].
    + rewrite Hdiv. split; [| right; lia]. rewrite Hlk1. fold i.
      rewrite (proj2 (Z.ltb_ge i i)), andb_false_r by lia. done.
    + intros [] pt2 (Hwf2 & _ & Hvc2 & Hlk2). rewrite Hdiv, Hq4 in Hlk2. wp_step. exists q.
      assert (Hqn : q ∉ pages) by (rewrite Hfree1 in Hq; set_solver).
      constructor; [| apply NoDup_app; split_and!; [done | set_solver | apply NoDup_singleton] |].
      * exists pool2, pt2. split_and!; try done.
        -- unfold with_vm, s2. cbn [process_table k_sched k_vm fst snd]. by rewrite insert_insert_eq.
        -- intros r. by rewrite Hman2, Hman.
        -- rewrite length_app. simpl. lia.
        -- rewrite Hfree2, Hfree1, list_to_set_app_L. set_solver.
        -- intros w. rewrite Hlk2, Hlk1, length_app. cbn [length]. fold i. destruct (Z.eqb_spec w i) as [->|Hne].
           ++ rewrite (proj2 (Z.leb_le first i)), (proj2 (Z.ltb_lt i _)) by lia. cbn [andb].
              replace (Z.to_nat (i - first)) with (length pages) by lia. by rewrite list_lookup_middle.
           ++ destruct (Z.leb_spec first w); [| done]. cbn [andb].
              destruct (Z.ltb_spec w i), (Z.ltb_spec w (first + Z.of_nat (length pages + 1))); try lia; [| done].
              by rewrite lookup_app_l by lia.
      * intros r [Hr'| ->%list_elem_of_singleton]%elem_of_app; [by apply Hin |]. rewrite Hfree1 in Hq. set_solver.
Qed.

(** What [process_memlimit] does when the heap is to grow. *)
Lemma memlimit_grow_wp (s : @kern P) cpu t pid p pt new_end :
  let a := th_pagetable (th (k_sched s) t) in let first := heap_end p / PAGE_SIZE + 1 in
  kern_ok s → runs s cpu t pid → 0 ≤ pid → process_table s !! Z.to_nat pid = Some p →
  alloc_inv (fst (k_vm s)) → snd (k_vm s) !! a = Some pt → pt_wf pt → 0 ≤ heap_end p → new_end ≠ 0 → heap_end p ≤ new_end < 2 ^ 32 →
  (∀ w, first ≤ w ≤ new_end / PAGE_SIZE → pt_lookup pt w = None) →
  valid_count pt + (new_end / PAGE_SIZE - heap_end p / PAGE_SIZE) ≤ PAGETABLE_ENTRIES →
  wp (process_memlimit cpu new_end) (λ r s', ∃ pages s1, grown s a pt first pages s1 ∧
    ((r = new_end ∧ Z.of_nat (length pages) = new_end / PAGE_SIZE - heap_end p / PAGE_SIZE ∧
      s' = set_ptable (<[Z.to_nat pid := set_heap_end new_end p]> (process_table s)) s1) ∨
     (r = 0 ∧ s' = s1 ∧ free_pages (fst (k_vm s)) ⊆ list_to_set pages))) s.
Proof.
  intros a first Hok Hr H0 Hp Hpool Hpt Hwf Hh Hnz Hnew Hnone Hroom. unfold process_memlimit.
  wp_step. apply (current_process_wp _ t pid); [done | done |]. wp_step. eapply get_pcb_wp; [done | exact Hp |].
  rewrite (proj2 (Z.eqb_neq new_end 0)), (proj2 (Z.ltb_ge new_end _)) by lia. fold first.
  assert (Hdiv : new_end / PAGE_SIZE < 2 ^ 20) by (unfold PAGE_SIZE; apply Z.div_lt_upper_bound; lia).
  assert (Hle : heap_end p / PAGE_SIZE ≤ new_end / PAGE_SIZE) by (apply Z.div_le_mono; unfold PAGE_SIZE; lia).
  assert (Hh0 : 0 ≤ heap_end p / PAGE_SIZE) by (apply Z.div_pos; unfold PAGE_SIZE; lia).
  wp_step. apply (wp_for (λ j s1, ∃ pages, Z.of_nat (length pages) = j - first ∧ grown s a pt first pages s1)).
  - exists []. split; [simpl; lia | by apply grown_nil].
  - intros j s1 Hj (pages & Hlen & Hg). replace j with (first + Z.of_nat (length pages)) by lia.
    eapply wp_mono; [apply (grow_step s cpu t pid pt first pages s1); try done; try lia |].
    + apply Hnone. lia.
    + intros [x|] s2; [| intros (q & Hg2); exists (pages ++ [q]); rewrite length_app; split; [simpl; lia | done]].
      intros [-> Hsub]. wp_step. exists pages, s1. split; [done |]. right. done.
  - intros s1 (pages & Hlen & Hg). assert (Hp1 : process_table s1 !! Z.to_nat pid = Some p).
    { destruct (gr_state _ _ _ _ _ _ Hg) as (? & ? & -> & _). done. }
    wp_step. eapply put_pcb_wp; [done | exact Hp1 |]. wp_step. exists pages, s1. split; [done |]. left.
    split_and!; [done | lia |]. destruct (gr_state _ _ _ _ _ _ Hg) as (? & ? & -> & _). done.
Qed.

(** A page that is mapped cannot be mapped again. *)
Lemma map_current_mapped (s : @kern P) cpu t pid pt phys vaddr x :
  kern_ok s → runs s cpu t pid → snd (k_vm s) !! th_pagetable (th (k_sched s) t) = Some pt → pt_wf pt →
  pt_lookup pt (vaddr / 4096) = Some x →
  map_current cpu phys vaddr 1 s = Panic "Tried to re-map same virtual page".
Proof.
  intros Hok Hr Hpt Hwf Hx. unfold map_current. apply bind_Panic, (current_thread_wp _ t pid); [done | done |].
  rewrite bind_gets. unfold id. rewrite Hpt. unfold pt_lookup in Hx. destruct (lookup_pair _ _) as [e|] eqn:He; [| done].
  destruct (vm_map_pair pt phys vaddr 1 e Hwf (or_intror eq_refl) He) as (k & _ & Hm).
  rewrite Hx in Hm. unfold mbind, K_bind, pure. by rewrite Hm.
Qed.

(** A heap whose next page is already mapped cannot grow: the page it takes
    from the pool cannot be mapped. *)
Lemma memlimit_mapped (s : @kern P) cpu t pid p pt new_end x :
  let first := heap_end p / PAGE_SIZE + 1 in
  kern_ok s → runs s cpu t pid → 0 ≤ pid → process_table s !! Z.to_nat pid = Some p →
  alloc_inv (fst (k_vm s)) → free_pages (fst (k_vm s)) ≠ ∅ →
  snd (k_vm s) !! th_pagetable (th (k_sched s) t) = Some pt → pt_wf pt → 0 ≤ heap_end p → new_end < 2 ^ 32 →
  first ≤ new_end / PAGE_SIZE → pt_lookup pt first = Some x →
  process_memlimit cpu new_end s = Panic "Tried to re-map same virtual page".
Proof.
  intros first Hok Hr H0 Hp Hpool Hfree Hpt Hwf Hh Hmax Hfirst Hx. unfold first in *. clear first.
  assert (Hbig : heap_end p < new_end).
  { apply Z.nle_gt. intros Hle. pose proof (Z.div_le_mono new_end (heap_end p) PAGE_SIZE ltac:(done) Hle). lia. }
  assert (Hdiv : new_end / PAGE_SIZE < 2 ^ 20) by (unfold PAGE_SIZE; apply Z.div_lt_upper_bound; lia).
  assert (Hh0 : 0 ≤ heap_end p / PAGE_SIZE) by (apply Z.div_pos; unfold PAGE_SIZE; lia).
  unfold process_memlimit.
  apply bind_Panic, (current_process_wp _ t pid); [done | done |].
  apply bind_Panic, (get_pcb_wp _ p); [done | done |].
  rewrite (proj2 (Z.eqb_neq new_end 0)), (proj2 (Z.ltb_ge new_end _)) by lia.
  replace (Z.to_nat (new_end / PAGE_SIZE - heap_end p / PAGE_SIZE))
    with (Datatypes.S (Z.to_nat (new_end / PAGE_SIZE - heap_end p / PAGE_SIZE - 1))) by lia.
  set (first := heap_end p / PAGE_SIZE + 1) in *. cbv zeta. cbn [for_].
  match goal with |- mbind _ (mbind _ (mbind _ ?g)) _ = _ => set (get := g) end.
  assert (Hget : wp get (λ phys s1, phys ≠ 0 ∧ ∃ pool, s1 = mk_kern (process_table s) (k_sched s) (pool, snd (k_vm s))) s).
  { unfold get, on_vm, on_pool. do 2 wp_step. eapply wp_mono; [by apply get_phys_page_spec |].
    intros phys pool (_ & _ & [(-> & Hno & _)|(q & -> & Hq & _)]); [done |]. split; [| by exists pool].
    pose proof (managed_range _ q Hpool (free_pages_managed _ _ Hpool Hq)). unfold PAGE_SIZE. lia. }
  assert (Hmap : ∀ phys (pool : P), map_current cpu phys (u32 (first * PAGE_SIZE)) 1
    (mk_kern (process_table s) (k_sched s) (pool, snd (k_vm s))) = Panic "Tried to re-map same virtual page").
  { intros phys pool. apply (map_current_mapped _ _ t pid pt _ _ x); [by apply kern_ok_vm | by apply runs_vm | done | done |].
    rewrite u32_small by (unfold is_u32, PAGE_SIZE in *; lia). by rewrite Z.div_mul. }
  apply wp_iff in Hget as (phys & s1 & Hget & Hnz & pool & ->).
  unfold mbind at 1, K_bind at 1. unfold mbind at 1, K_bind at 1. rewrite (bind_Ok get _ s phys _ Hget).
  rewrite (proj2 (Z.eqb_neq phys 0) Hnz). unfold mbind at 1, K_bind at 1. by rewrite Hmap.
Qed.

(** The mapping of the pages of the heap. *)
Lemma grown_first (s s1 : @kern P) a pt first pages :
  grown s a pt first pages s1 → pages ≠ [] →
  ∃ pt1 x, snd (k_vm s1) !! a = Some pt1 ∧ pt_wf pt1 ∧ pt_lookup pt1 first = Some x.
Proof.
  intros [(pool' & pt' & -> & _ & Hwf & _ & _ & _ & Hlk) _ _] Hne. destruct pages as [|q l]; [done |].
  exists pt', (q, 1). split_and!; [apply lookup_insert_eq | done |]. rewrite Hlk, Z.sub_diag.
  rewrite (proj2 (Z.leb_le first first)), (proj2 (Z.ltb_lt first _)) by (cbn [length]; lia). done.
Qed.

(** [process_memlimit] with room in the page table.  Asked for 0 it returns
    the end of the heap; asked for less than the heap has it returns 0; both
    change nothing.  Otherwise it takes pages that were free, no two the same,
    and maps them writable at the pages after the heap in order, leaving every
    other page as it was; when it gets as many as it needs it returns the new
    end, which the process then has.  When the pool runs out it returns 0 and
    the pages it did get stay mapped: then, as soon as a physical page is
    free again, asking once more for a larger heap is a kernel panic. *)
Theorem process_memlimit_spec (s : @kern P) cpu t pid p pt new_end :
  let a := th_pagetable (th (k_sched s) t) in let first := heap_end p / PAGE_SIZE + 1 in
  kern_ok s → runs s cpu t pid → 0 ≤ pid → process_table s !! Z.to_nat pid = Some p →
  alloc_inv (fst (k_vm s)) → snd (k_vm s) !! a = Some pt → pt_wf pt → 0 ≤ heap_end p → 0 ≤ new_end < 2 ^ 32 →
  (∀ w, first ≤ w ≤ new_end / PAGE_SIZE → pt_lookup pt w = None) →
  valid_count pt + (new_end / PAGE_SIZE - heap_end p / PAGE_SIZE) ≤ PAGETABLE_ENTRIES →
  ∃ r s', process_memlimit cpu new_end s = Ok (r, s') ∧
    if new_end =? 0 then r = heap_end p ∧ s' = s
    else if new_end <? heap_end p then r = 0 ∧ s' = s
    else ∃ pages s1, grown s a pt first pages s1 ∧
      ((r = new_end ∧ Z.of_nat (length pages) = new_end / PAGE_SIZE - heap_end p / PAGE_SIZE ∧
        s' = set_ptable (<[Z.to_nat pid := set_heap_end new_end p]> (process_table s)) s1) ∨
       (r = 0 ∧ s' = s1 ∧ free_pages (fst (k_vm s)) ⊆ list_to_set pages ∧
        (pages ≠ [] → ∀ (pool2 : P) more, alloc_inv pool2 → free_pages pool2 ≠ ∅ → first ≤ more / PAGE_SIZE → more < 2 ^ 32 →
           process_memlimit cpu more (mk_kern (process_table s') (k_sched s') (pool2, snd (k_vm s'))) =
             Panic "Tried to re-map same virtual page"))).
Proof.
  intros a first Hok Hr H0 Hp Hpool Hpt Hwf Hh Hnew Hnone Hroom. apply (wp_iff (process_memlimit cpu new_end)).
  destruct (Z.eqb_spec new_end 0) as [Hz|Hnz]; [| destruct (Z.ltb_spec new_end (heap_end p)) as [Hlt|Hge]].
  - unfold process_memlimit. wp_step. apply (current_process_wp _ t pid); [done | done |].
    wp_step. eapply get_pcb_wp; [done | exact Hp |]. rewrite (proj2 (Z.eqb_eq new_end 0) Hz). by wp_step.
  - unfold process_memlimit. wp_step. apply (current_process_wp _ t pid); [done | done |].
    wp_step. eapply get_pcb_wp; [done | exact Hp |].
    rewrite (proj2 (Z.eqb_neq new_end 0) Hnz), (proj2 (Z.ltb_lt new_end _) Hlt). by wp_step.
  - eapply wp_mono; [apply (memlimit_grow_wp s cpu t pid p pt new_end); done || lia |].
    intros r s' (pages & s1 & Hg & [Hdone|(-> & -> & Hsub)]); exists pages, s1; (split; [done |]); [by left |].
    right. split_and!; [done | done | done |]. intros Hne pool2 more Hpool2 Hfree2 Hmore1 Hmore2.
    destruct (grown_first _ _ _ _ _ _ Hg Hne) as (pt1 & x & Hpt1 & Hwf1 & Hx).
    destruct (gr_state _ _ _ _ _ _ Hg) as (pool' & pt' & -> & _).
    apply (memlimit_mapped _ cpu t pid p pt1 more x); try done; [exact (kern_ok_vm s _ Hok) | exact (runs_vm s _ _ _ _ Hr)].
Qed.

End heap_spec.

(** ** Witnesses *)

(** The kernel with thread 1 running on processor 0 as the thread of process
    [me]: process 0 has started process 1, both have a heap up to 0x3000; the
    page table of the thread takes a page of the example pool. *)
Definition example_pcb (st : process_state) (par : Z) : pcb := mk_pcb (replicate 64 0) st 0 par 0x3000 (replicate 512 (-1)).

Definition example_ptable : list pcb :=
  [example_pcb PROCESS_RUNNING (-1); example_pcb PROCESS_RUNNING 0] ++ replicate 30 (example_pcb PROCESS_FREE (-1)).

Definition example_garbage (_ : Z) : list tlb_entry := replicate 340 some_entry.

Definition example_tables : @tables pagepool :=
  match vm_create_pagetable example_garbage 1 (example_pool, ∅) with Ok (_, s) => s | _ => (example_pool, ∅) end.

Definition belongs (me a : Z) (x : thread) : thread :=
  mk_thread (th_context x) (th_ctx x) (user_context x) (state x) (sleeps_on x) a me (next x).

Definition example_kern (me : Z) : @kern pagepool :=
  mk_kern example_ptable (upd 1 (belongs me 0x80002000) example_state) example_tables.

Lemma example_tables_inv : tables_inv example_tables.
Proof.
  assert (Hwp : wp (vm_create_pagetable example_garbage 1) (λ _ s', tables_inv s') (example_pool, ∅)).
  { eapply wp_mono; [apply vm_create_wp |].
    - done.
    - split; [apply example_pool_inv |]. intros a t Ha. simpl in Ha. by rewrite lookup_empty in Ha.
    - by intros ? ? [? _]. }
  unfold wp in Hwp. unfold example_tables. by destruct (vm_create_pagetable _ _ _) as [[a s]| | | |].
Qed.

Lemma example_kern_sched me :
  sched_inv (k_sched (example_kern me)) ∧
  (∀ x, waiters (k_sched (example_kern me)) x = waiters example_state x) ∧
  th (k_sched (example_kern me)) 1 = belongs me 0x80002000 (th example_state 1).
Proof.
  unfold example_kern. cbn [k_sched].
  destruct (other_field_inv example_state 1 (belongs me 0x80002000) example_state_inv) as (H1 & H2 & _ & H4);
    [unfold slot; lia | by intros x | exact (conj H1 (conj H2 H4))].
Qed.

Lemma example_kern_ok me : kern_ok (example_kern me).
Proof.
  assert (Hall : Forall (λ p, length (executable p) = 64%nat ∧ length (pfiles p) = 512%nat) example_ptable)
    by (repeat constructor).
  constructor; [done | | | apply example_kern_sched]; intros i p Hp; by apply (Forall_lookup_1 _ _ _ _ Hall Hp).
Qed.

Lemma example_kern_runs me : runs (example_kern me) 0 1 me.
Proof.
  destruct (example_kern_sched me) as (_ & _ & He).
  constructor; [lia | vm_compute; reflexivity | unfold tid; lia | | |]; unfold so_of, st_of; rewrite He; vm_compute; reflexivity.
Qed.

Lemma example_exits_seen me : exits_seen 0x80040000 (example_kern me).
Proof.
  assert (Hall : Forall (λ p, pstate p ≠ PROCESS_ZOMBIE) example_ptable) by (repeat constructor; discriminate).
  intros pid p _ Hp Hz. by destruct (Forall_lookup_1 _ _ _ _ Hall Hp).
Qed.

Lemma process_join_spec_witness :
  ∃ r s', process_join 0x80040000 0 1 (example_kern 0) = Ok (r, s') ∧ kern_ok s' ∧ exits_seen 0x80040000 s' ∧
    ((∃ p, 0 ≤ 1 ∧ example_ptable !! 1%nat = Some p ∧ parent p = 0 ∧ join_post 0x80040000 (example_kern 0) 1 1 p r s') ∨
     (r = Returned PROCESS_ILLEGAL_JOIN ∧ s' = example_kern 0 ∧
      ∀ p, 0 ≤ 1 → example_ptable !! 1%nat = Some p → parent p ≠ 0)).
Proof.
  apply (process_join_spec 0x80040000 eq_refl (example_kern 0) 0 1 0 1);
    [apply example_kern_ok | apply example_exits_seen | apply example_kern_runs].
Defined.

Lemma process_finish_join_witness :
  ∃ s1, process_finish 0x80040000 0 false 7 (example_kern 1) = Ok (tt, s1) ∧
    finish_post 0x80040000 (example_kern 1) false 1 1 7 (example_pcb PROCESS_RUNNING 0) s1 ∧ kern_ok s1 ∧ exits_seen 0x80040000 s1 ∧
    ∀ (s2 : @kern pagepool) cpu' t', kern_ok s2 → process_table s2 = process_table s1 → runs s2 cpu' t' 0 →
      ∃ s3, process_join 0x80040000 cpu' 1 s2 = Ok (Returned 7, s3) ∧
        ∃ q, process_table s3 !! 1%nat = Some q ∧ pstate q = PROCESS_FREE.
Proof.
  apply (process_finish_join 0x80040000 eq_refl (example_kern 1) 0 false 1 1 7 (example_pcb PROCESS_RUNNING 0));
    [apply example_kern_ok | apply example_exits_seen | apply example_kern_runs | lia | reflexivity | discriminate |].
  split; [apply example_tables_inv |]. destruct (example_kern_sched 1) as (_ & _ & He). rewrite He.
  vm_compute. by eexists.
Defined.

Lemma process_spawn_spec_witness :
  ∃ r s', process_spawn 0x80003000 0x80020000 0x80001100 0 [98; 97; 114; 0] (example_kern 0) = Ok (r, s') ∧
    ∃ p, example_ptable !! 2%nat = Some p ∧ process_table s' = <[2%nat := new_pcb [98; 97; 114] 0 p]> example_ptable ∧
      (r = PROCESS_TTABLE_FULL ∨ r = 2).
Proof.
  destruct (process_spawn_spec 0x80003000 0x80020000 0x80001100 (example_kern 0) 0 1 0 [98; 97; 114; 0] [98; 97; 114])
    as (r & s' & He & p & Hp & _ & Ht & _ & Hr);
    [apply example_kern_ok | apply example_kern_runs | reflexivity |].
  exists r, s'. split; [exact He |]. exists p. split_and!; [exact Hp | exact Ht |].
  destruct Hr as [[-> _]|[-> _]]; [by left | by right].
Defined.

Lemma process_memlimit_spec_witness :
  ∃ r s', process_memlimit 0 0x5000 (example_kern 1) = Ok (r, s') ∧
    ∃ pages s1, grown (example_kern 1) 0x80002000 (mk_pt 1 0 (replicate 340 some_entry)) 4 pages s1 ∧
      ((r = 0x5000 ∧ length pages = 2%nat) ∨ r = 0).
Proof.
  destruct (process_memlimit_spec (example_kern 1) 0 1 1 (example_pcb PROCESS_RUNNING 0)
    (mk_pt 1 0 (replicate 340 some_entry)) 0x5000) as (r & s' & He & Hres).
  - apply example_kern_ok.
  - apply example_kern_runs.
  - lia.
  - reflexivity.
  - apply example_tables_inv.
  - destruct (example_kern_sched 1) as (_ & _ & He). rewrite He. vm_compute. reflexivity.
  - by split_and!; try constructor.
  - done.
  - done.
  - intros w _. done.
  - vm_compute. discriminate.
  - exists r, s'. split; [exact He |]. cbv beta iota in Hres.
    destruct Hres as (pages & s1 & Hg & Hr). exists pages, s1.
    assert (Ha : th_pagetable (th (k_sched (example_kern 1)) 1) = 0x80002000)
      by (by rewrite (proj2 (proj2 (example_kern_sched 1)))).
    rewrite Ha in Hg. split; [exact Hg |].
    destruct Hr as [(-> & Hlen & _)|(-> & _)]; [left | by right]. split; [done |].
    change (0x5000 / PAGE_SIZE - heap_end (example_pcb PROCESS_RUNNING 0) / PAGE_SIZE) with 2 in Hlen. lia.
Defined.
