(* ===== verification/Io.v ===== *)
(** * Input and output of user processes (src/buenos/proc/io.c)

    The calls of a user process on file handles.  Handles 0 to 2 are the
    console, handle [n + 3] stands for entry [n] of the table of open files of
    [Vfs], and the process control block says which entries the process has
    opened.  The state puts the kernel of [Process], the filesystems of [Vfs]
    and a console side by side; the driver of the console is the interface
    [Console]. *)

From S2P Require Import Prelude Bitmap Kmalloc Pagepool Vm Sched Libc FsCodes Vfs Process.
Local Open Scope Z_scope.

Definition FILEHANDLE_STDIN : Z := 0.
Definition FILEHANDLE_STDOUT : Z := 1.
Definition FILEHANDLE_STDERR : Z := 2.

(** The function pointers of [gcd_t]: reading gives the number of bytes and the
    buffer afterwards, writing the number of bytes. *)
Class Console (T : Type) := {
  gcd_read : Z → bytes → Z → K T (Z * bytes);
  gcd_write : Z → bytes → Z → K T Z;
}.

Section io.
Context {P : Type} `{PageAlloc P}.
Context {F : Type} `{Filesystems F}.
Context {T : Type} `{Console T}.
(** What an uninitialised array holds, and the first terminal that
    [device_get] knows: [None] when there is no device, otherwise its
    [generic_device]. *)
Context (junk : bytes) (tty0 : option Z).

Record ustate := mk_ustate { u_kern : @kern P; u_vfs : @vstate F; u_tty : T }.

Definition in_kern {A} (m : K (@kern P) A) : K ustate A := zoom u_kern (λ x s, mk_ustate x (u_vfs s) (u_tty s)) m.
Definition in_vfs {A} (m : K (@vstate F) A) : K ustate A := zoom u_vfs (λ x s, mk_ustate (u_kern s) x (u_tty s)) m.
Definition in_tty {A} (m : K T A) : K ustate A := zoom u_tty (λ x s, mk_ustate (u_kern s) (u_vfs s) x) m.

(** ** The console *)

Definition get_tty : Z :=
  match tty0 with
  | None => NULL
  | Some gcd => if gcd =? NULL then NULL else gcd
  end.

Definition tty_read (buffer : bytes) (length : Z) : K ustate (Z * bytes) :=
  let gcd := get_tty in
  if gcd =? NULL then mret (VFS_ERROR, buffer)
  else in_tty (gcd_read gcd buffer length).

Definition tty_write_stdout (buffer : bytes) (length : Z) : K ustate Z :=
  let gcd := get_tty in
  if gcd =? NULL then mret VFS_ERROR
  else in_tty (gcd_write gcd buffer length).

(** ["\x1b[31;1m"] and ["\x1b[0m"] *)
Definition red : bytes := [27; 91; 51; 49; 59; 49; 109].
Definition reset : bytes := [27; 91; 48; 109].

Definition tty_set_red (gcd : Z) : K ustate Z :=
  n ← in_tty (gcd_write gcd red 7);
  if negb (n =? 7) then mret VFS_ERROR else mret VFS_OK.

Definition tty_reset_red (gcd : Z) : K ustate Z :=
  n ← in_tty (gcd_write gcd reset 4);
  if negb (n =? 4) then mret VFS_ERROR else mret VFS_OK.

Definition tty_write_stderr (buffer : bytes) (length : Z) : K ustate Z :=
  let gcd := get_tty in
  if gcd =? NULL then mret VFS_ERROR
  else
    r ← tty_set_red gcd;
    if negb (r =? VFS_OK) then mret VFS_ERROR
    else
      res ← in_tty (gcd_write gcd buffer length);
      r ← tty_reset_red gcd;
      if negb (r =? VFS_OK) then mret VFS_ERROR else mret res.

(** ** Files *)

Definition io_read (cpu file baddr : Z) (buffer : bytes) (length : Z) : K ustate (Z * bytes) :=
  if file =? FILEHANDLE_STDIN then tty_read buffer length
  else if (file =? FILEHANDLE_STDOUT) || (file =? FILEHANDLE_STDERR) then mret (VFS_INVALID_PARAMS, buffer)
  else
    file ← pure (int_op (file - 3));
    has ← in_kern (process_has_open_file cpu file);
    if negb has then mret (VFS_NOT_OPEN_IN_PROCESS, buffer)
    else in_vfs (vfs_read file baddr buffer length).

Definition io_write (cpu file baddr : Z) (buffer : bytes) (length : Z) : K ustate Z :=
  if file =? FILEHANDLE_STDIN then mret VFS_INVALID_PARAMS
  else if file =? FILEHANDLE_STDOUT then tty_write_stdout buffer length
  else if file =? FILEHANDLE_STDERR then tty_write_stderr buffer length
  else
    file ← pure (int_op (file - 3));
    has ← in_kern (process_has_open_file cpu file);
    if negb has then mret VFS_NOT_OPEN_IN_PROCESS
    else in_vfs (vfs_write file baddr buffer length).

Definition io_open (cpu : Z) (pathname : bytes) : K ustate Z :=
  file ← in_vfs (vfs_open junk pathname);
  if file <? 0 then mret file
  else
    in_kern (process_add_file cpu file);;
    pure (int_op (file + 3)).

Definition io_close (cpu file : Z) : K ustate Z :=
  file ← pure (int_op (file - 3));
  has ← in_kern (process_has_open_file cpu file);
  if negb has then mret VFS_NOT_OPEN_IN_PROCESS
  else
    in_kern (process_remove_file cpu file);;
    in_vfs (vfs_close file).

Definition io_seek (cpu file offset : Z) : K ustate Z :=
  file ← pure (int_op (file - 3));
  has ← in_kern (process_has_open_file cpu file);
  if negb has then mret VFS_NOT_OPEN_IN_PROCESS
  else in_vfs (vfs_seek file offset).

Definition io_tell (cpu file : Z) : K ustate Z :=
  file ← pure (int_op (file - 3));
  has ← in_kern (process_has_open_file cpu file);
  if negb has then mret VFS_NOT_OPEN_IN_PROCESS
  else in_vfs (vfs_tell file).

Definition io_create (pathname : bytes) (size : Z) : K ustate Z := in_vfs (vfs_create junk pathname size).

Definition io_remove (pathname : bytes) : K ustate Z := in_vfs (vfs_remove junk pathname).

End io.
