(* ===== verification/IoSpec.v ===== *)
(** * What the calls on file handles promise

    A process reaches exactly the files it has opened; opening and closing a
    file leave its list of files as it was; and the handle of the standard
    error output, given to a call that expects a file, damages the
    filesystem layer. *)

From S2P Require Import Prelude Bitmap Kmalloc Pagepool Vm Sched Libc FsCodes Tfs TfsSpec Vfs VfsSpec VfsTfs Process ProcessSpec Io.
Local Open Scope Z_scope.

(** ** The list of files of a process *)

Section files.
Context {P : Type} `{PageAlloc P}.

(** The first slot that holds [x]. *)
Definition slot_of (x : Z) (l : list Z) : option nat := fst <$> list_find (λ y, y = x) l.

Lemma slot_of_Some x l i : slot_of x l = Some i → l !! i = Some x ∧ ∀ j, (j < i)%nat → l !! j ≠ Some x.
Proof.
  unfold slot_of. destruct (list_find _ _) as [[k y]|] eqn:Hf; [| done]. intros [= <-].
  apply list_find_Some in Hf as (Hk & -> & Hlt). split; [done |]. intros j Hj Hx. by eapply Hlt.
Qed.

Lemma slot_of_None x l : slot_of x l = None ↔ x ∉ l.
Proof.
  unfold slot_of. rewrite fmap_None, list_find_None, Forall_forall. split; [intros Hn Hx; by apply (Hn x) |].
  intros Hn y Hy ->. done.
Qed.

Lemma slot_of_first x l i : l !! i = Some x → (∀ j, (j < i)%nat → l !! j ≠ Some x) → slot_of x l = Some i.
Proof.
  intros Hi Hlt. unfold slot_of. rewrite (proj2 (list_find_Some _ _ i x)); [done |]. split_and!; [done | done |].
  intros j y Hy Hj ->. by apply (Hlt j).
Qed.

(** Looking through the slots up to the first that holds [x]. *)
Lemma slot_scan_wp (s : @kern P) pid p x (act : pcb → Z → K (@kern P) (option unit)) (Q : option unit → @kern P → Prop) :
  0 ≤ pid → process_table s !! Z.to_nat pid = Some p → length (pfiles p) = 512%nat →
  match slot_of x (pfiles p) with
  | Some i => wp (act p (Z.of_nat i)) (λ r s', is_Some r ∧ Q r s') s
  | None => Q None s
  end →
  wp (for_ (Z.to_nat PROCESS_MAX_FILES) 0 (λ i,
        p ← get_pcb pid;
        f ← pure (aget (pfiles p) i);
        if f =? x then act p i else mret None)) Q s.
Proof.
  intros H0 Hp Hl HQ.
  apply (wp_for (λ j s', s' = s ∧ ∀ i, Z.of_nat i < j → pfiles p !! i ≠ Some x)).
  - split; [done | lia].
  - intros j s1 Hj [-> Hbelow]. unfold PROCESS_MAX_FILES in Hj. wp_step. eapply get_pcb_wp; [done | exact Hp |].
    destruct (lookup_lt_is_Some_2 (pfiles p) (Z.to_nat j)) as [f Hf]; [lia |].
    wp_step. eapply wp_pure; [apply aget_Ok; split; [lia | exact Hf] |]. cbv beta.
    destruct (Z.eqb_spec f x) as [->|Hne].
    + rewrite (slot_of_first x (pfiles p) (Z.to_nat j)) in HQ; [| done | intros i Hi; apply Hbelow; lia].
      rewrite Z2Nat.id in HQ by lia. eapply wp_mono; [exact HQ |]. by intros ? ? [[? ->] ?].
    + wp_step. split; [done |]. intros i Hi. destruct (decide (i = Z.to_nat j)) as [->|]; [congruence |].
      apply Hbelow. lia.
  - intros s1 [-> Hall]. rewrite (proj2 (slot_of_None x (pfiles p))) in HQ; [done |].
    intros [i Hi]%list_elem_of_lookup. apply (Hall i); [| done]. apply lookup_lt_Some in Hi. unfold PROCESS_MAX_FILES. lia.
Qed.

(** The control block of a process with other files. *)
Definition with_files (pid : Z) (l : list Z) (p : pcb) (s : @kern P) : @kern P :=
  set_ptable (<[Z.to_nat pid := set_pfiles l p]> (process_table s)) s.

Lemma has_open_file_wp (s : @kern P) cpu t pid p file (Q : bool → @kern P → Prop) :
  kern_ok s → runs s cpu t pid → 0 ≤ pid → process_table s !! Z.to_nat pid = Some p →
  Q (bool_decide (file ∈ pfiles p)) s → wp (process_has_open_file cpu file) Q s.
Proof.
  intros Hok Hr H0 Hp HQ. unfold process_has_open_file. wp_step.
  apply (current_process_wp _ t pid); [done | done |]. wp_step.
  apply (slot_scan_wp _ _ p _ (λ _ _, mret (Some tt))); [done | done | by eapply ko_files |].
  destruct (slot_of file (pfiles p)) as [i|] eqn:Hs.
  - wp_step. split; [by eexists |]. wp_step. rewrite bool_decide_true in HQ; [done |].
    apply slot_of_Some in Hs as [Hi _]. by eapply list_elem_of_lookup_2.
  - wp_step. rewrite bool_decide_false in HQ; [done |]. by apply slot_of_None.
Qed.

(** Both [process_add_file] and [process_remove_file] put [new] in the first
    slot that holds [old]. *)
Definition replaced (old new : Z) (l : list Z) : list Z :=
  match slot_of old l with Some i => <[i := new]> l | None => l end.

Lemma replace_wp (s : @kern P) pid p old new (Q : option unit → @kern P → Prop) :
  0 ≤ pid → process_table s !! Z.to_nat pid = Some p → length (pfiles p) = 512%nat →
  (old ∈ pfiles p → Q (Some tt) (with_files pid (replaced old new (pfiles p)) p s)) → (old ∉ pfiles p → Q None s) →
  wp (for_ (Z.to_nat PROCESS_MAX_FILES) 0 (λ i,
        p ← get_pcb pid;
        f ← pure (aget (pfiles p) i);
        if f =? old then
          l ← pure (aset (pfiles p) i new);
          put_pcb pid (set_pfiles l);;
          mret (Some tt)
        else mret None)) Q s.
Proof.
  intros H0 Hp Hl Hin Hout. unfold replaced in Hin.
  apply (slot_scan_wp s pid p old (λ p i, l ← pure (aset (pfiles p) i new); put_pcb pid (set_pfiles l);; mret (Some tt))); try done.
  destruct (slot_of old (pfiles p)) as [i|] eqn:Hs; [| by apply Hout, slot_of_None].
  apply slot_of_Some in Hs as [Hi _]. pose proof (lookup_lt_Some _ _ _ Hi) as Hlt.
  wp_step. eapply wp_pure; [apply aset_Ok; lia |]. cbv beta. wp_step. eapply put_pcb_wp; [done | exact Hp |]. wp_step.
  split; [by eexists |]. rewrite Nat2Z.id. apply Hin. by eapply list_elem_of_lookup_2.
Qed.

Lemma with_files_same (s : @kern P) pid p : process_table s !! Z.to_nat pid = Some p → with_files pid (pfiles p) p s = s.
Proof.
  intros Hp. unfold with_files, set_ptable. replace (set_pfiles (pfiles p) p) with p by (by destruct p).
  rewrite list_insert_id by done. by destruct s.
Qed.

Lemma add_file_wp (s : @kern P) cpu t pid p file (Q : bool → @kern P → Prop) :
  kern_ok s → runs s cpu t pid → 0 ≤ pid → process_table s !! Z.to_nat pid = Some p →
  Q (bool_decide (-1 ∈ pfiles p)) (with_files pid (replaced (-1) file (pfiles p)) p s) → wp (process_add_file cpu file) Q s.
Proof.
  intros Hok Hr H0 Hp HQ. unfold process_add_file. wp_step. apply (current_process_wp _ t pid); [done | done |].
  wp_step. eapply replace_wp; [done | exact Hp | by eapply ko_files | |]; intros Hin; wp_step.
  - by rewrite bool_decide_true in HQ.
  - rewrite bool_decide_false in HQ by done. unfold replaced in HQ.
    by rewrite (proj2 (slot_of_None _ _) Hin), with_files_same in HQ.
Qed.

Lemma remove_file_wp (s : @kern P) cpu t pid p file (Q : bool → @kern P → Prop) :
  kern_ok s → runs s cpu t pid → 0 ≤ pid → process_table s !! Z.to_nat pid = Some p →
  Q (bool_decide (file ∈ pfiles p)) (with_files pid (replaced file (-1) (pfiles p)) p s) → wp (process_remove_file cpu file) Q s.
Proof.
  intros Hok Hr H0 Hp HQ. unfold process_remove_file. wp_step. apply (current_process_wp _ t pid); [done | done |].
  wp_step. eapply replace_wp; [done | exact Hp | by eapply ko_files | |]; intros Hin; wp_step.
  - by rewrite bool_decide_true in HQ.
  - rewrite bool_decide_false in HQ by done. unfold replaced in HQ.
    by rewrite (proj2 (slot_of_None _ _) Hin), with_files_same in HQ.
Qed.

(** Adding a file and removing it again. *)
Lemma replaced_back file l : file ∉ l → -1 ∈ l → replaced file (-1) (replaced (-1) file l) = l.
Proof.
  intros Hf Hm. unfold replaced. destruct (slot_of (-1) l) as [i|] eqn:Hs; [| by apply slot_of_None in Hs].
  apply slot_of_Some in Hs as [Hi _]. pose proof (lookup_lt_Some _ _ _ Hi) as Hlt.
  rewrite (slot_of_first file _ i).
  - rewrite list_insert_insert_eq. by apply list_insert_id.
  - by apply list_lookup_insert_eq.
  - intros j Hj Hx. rewrite list_lookup_insert_ne in Hx by lia. apply Hf. by eapply list_elem_of_lookup_2.
Qed.

Lemma replaced_minus_one l : replaced (-1) (-1) l = l.
Proof.
  unfold replaced. destruct (slot_of (-1) l) as [i|] eqn:Hs; [| done].
  apply slot_of_Some in Hs as [Hi _]. by apply list_insert_id.
Qed.

Lemma replaced_In file l : -1 ∈ l → file ∈ replaced (-1) file l.
Proof.
  intros Hm. unfold replaced. destruct (slot_of (-1) l) as [i|] eqn:Hs; [| by apply slot_of_None in Hs].
  apply slot_of_Some in Hs as [Hi _]. apply (list_elem_of_lookup_2 _ i), list_lookup_insert_eq. by eapply lookup_lt_Some.
Qed.

Lemma replaced_length old new l : length (replaced old new l) = length l.
Proof. unfold replaced. destruct (slot_of _ _); [apply length_insert | done]. Qed.

Lemma with_files_ok (s : @kern P) pid p l :
  kern_ok s → process_table s !! Z.to_nat pid = Some p → length l = 512%nat → kern_ok (with_files pid l p s).
Proof. intros Hok Hp Hl. apply kern_ok_pcb; [done | exact (ko_exe _ Hok _ p Hp) | done]. Qed.

Lemma with_files_runs (s : @kern P) pid p l cpu t me : runs s cpu t me → runs (with_files pid l p s) cpu t me.
Proof. by intros []. Qed.

End files.

(** ** Handles *)

Section io_spec.
Context {P : Type} `{PageAlloc P}.
Context {F : Type} `{Filesystems F}.
Context {T : Type} `{Console T}.
Context (junk : bytes) (tty0 : option Z).

Abbreviation user := (@ustate P F T).

(** The five calls on a handle, with the operations of [VfsSpec]. *)
Definition run_io (cpu h : Z) (o : file_op) : K user Z :=
  match o with
  | Close => io_close cpu h
  | Seek pos => io_seek cpu h pos
  | Tell => io_tell cpu h
  | Read baddr buf n => r ← io_read tty0 cpu h baddr buf n; mret (fst r)
  | Write baddr buf n => io_write tty0 cpu h baddr buf n
  end.

(** Reading and writing handles 0 to 2 is for the console. *)
Definition for_file (h : Z) (o : file_op) : Prop :=
  - 2 ^ 31 + 3 ≤ h < 2 ^ 31 ∧ match o with Read _ _ _ | Write _ _ _ => ¬ 0 ≤ h ≤ 2 | _ => True end.

(** The caller: thread [t] of process [pid] with control block [p]. *)
Record calls (s : user) (cpu t pid : Z) (p : pcb) : Prop := {
  ca_ok : kern_ok (u_kern s);
  ca_runs : runs (u_kern s) cpu t pid;
  ca_pid : 0 ≤ pid;
  ca_pcb : process_table (u_kern s) !! Z.to_nat pid = Some p;
}.

(** The kernel in which the caller no longer has [file] after a close. *)
Definition dropped (o : file_op) (pid file : Z) (p : pcb) (s : user) : user :=
  match o with
  | Close => mk_ustate (with_files pid (replaced file (-1) (pfiles p)) p (u_kern s)) (u_vfs s) (u_tty s)
  | _ => s
  end.

Lemma mk_u (s : user) : mk_ustate (u_kern s) (u_vfs s) (u_tty s) = s.
Proof. by destruct s. Qed.

Lemma bind_eq {A B} (m : K user A) (f : A → K user B) s a s' r : m s = Ok (a, s') → f a s' = r → (m ≫= f) s = r.
Proof. intros Hm Hf. by rewrite (bind_Ok m f s a s' Hm). Qed.

Lemma has_eq s cpu t pid p file :
  calls s cpu t pid p → in_kern (process_has_open_file cpu file) s = Ok (bool_decide (file ∈ pfiles p), s).
Proof.
  intros [Hok Hr Hpid Hp]. unfold in_kern, zoom.
  assert (Hwp : wp (process_has_open_file cpu file) (λ b k, b = bool_decide (file ∈ pfiles p) ∧ k = u_kern s) (u_kern s))
    by (by apply (has_open_file_wp _ _ t pid p)).
  apply wp_iff in Hwp as (b & k & -> & -> & ->). by rewrite mk_u.
Qed.

Lemma remove_eq s cpu t pid p file :
  calls s cpu t pid p →
  in_kern (process_remove_file cpu file) s = Ok (bool_decide (file ∈ pfiles p), dropped Close pid file p s).
Proof.
  intros [Hok Hr Hpid Hp]. unfold in_kern, zoom.
  assert (Hwp : wp (process_remove_file cpu file) (λ b k, b = bool_decide (file ∈ pfiles p) ∧
    k = with_files pid (replaced file (-1) (pfiles p)) p (u_kern s)) (u_kern s)) by (by apply (remove_file_wp _ _ t pid p)).
  by apply wp_iff in Hwp as (b & k & -> & -> & ->).
Qed.

Lemma pure_eq {A} (r : res A) (a : A) (s : user) : r = Ok a → pure r s = Ok (a, s).
Proof. by intros ->. Qed.

Lemma run_io_eq s cpu t pid p h o :
  calls s cpu t pid p → for_file h o →
  run_io cpu h o s = if bool_decide (h - 3 ∈ pfiles p)
                     then in_vfs (run_file_op (h - 3) o) (dropped o pid (h - 3) p s)
                     else Ok (VFS_NOT_OPEN_IN_PROCESS, s).
Proof.
  intros Hc [Hh Ho]. pose proof (has_eq s cpu t pid p (h - 3) Hc) as Hhas.
  assert (Hint : int_op (h - 3) = Ok (h - 3)) by (apply int_op_Ok; unfold is_s32; lia).
  destruct o as [|pos| |baddr buf n|baddr buf n]; cbn [run_io run_file_op dropped];
    [unfold io_close | unfold io_seek | unfold io_tell | |].
  1-3: erewrite bind_eq; [| by apply pure_eq | erewrite bind_eq; [reflexivity | exact Hhas | reflexivity]];
    case_bool_decide; cbn [negb]; [| done].
  - erewrite bind_eq; [reflexivity | by apply (remove_eq s cpu t) | done].
  - done.
  - done.
  - unfold io_read. rewrite (proj2 (Z.eqb_neq h FILEHANDLE_STDIN)), (proj2 (Z.eqb_neq h FILEHANDLE_STDOUT)),
      (proj2 (Z.eqb_neq h FILEHANDLE_STDERR)) by (unfold FILEHANDLE_STDIN, FILEHANDLE_STDOUT, FILEHANDLE_STDERR; lia). cbn [orb].
    unfold mbind at 1, K_bind at 1. erewrite bind_eq; [| by apply pure_eq | erewrite bind_eq; [reflexivity | exact Hhas | reflexivity]].
    case_bool_decide; cbn [negb]; [| done]. unfold in_vfs, zoom, mbind, K_bind.
    by destruct (vfs_read _ _ _ _ _) as [[[r b] v]| | | |].
  - unfold io_write. rewrite (proj2 (Z.eqb_neq h FILEHANDLE_STDIN)), (proj2 (Z.eqb_neq h FILEHANDLE_STDOUT)),
      (proj2 (Z.eqb_neq h FILEHANDLE_STDERR)) by (unfold FILEHANDLE_STDIN, FILEHANDLE_STDOUT, FILEHANDLE_STDERR; lia).
    erewrite bind_eq; [| by apply pure_eq | erewrite bind_eq; [reflexivity | exact Hhas | reflexivity]].
    case_bool_decide; cbn [negb]; done.
Qed.

Lemma add_eq s cpu t pid p file :
  calls s cpu t pid p →
  in_kern (process_add_file cpu file) s = Ok (bool_decide (-1 ∈ pfiles p),
    mk_ustate (with_files pid (replaced (-1) file (pfiles p)) p (u_kern s)) (u_vfs s) (u_tty s)).
Proof.
  intros [Hok Hr Hpid Hp]. unfold in_kern, zoom.
  assert (Hwp : wp (process_add_file cpu file) (λ b k, b = bool_decide (-1 ∈ pfiles p) ∧
    k = with_files pid (replaced (-1) file (pfiles p)) p (u_kern s)) (u_kern s)) by (by apply (add_file_wp _ _ t pid p)).
  by apply wp_iff in Hwp as (b & k & -> & -> & ->).
Qed.

Lemma calls_files s cpu t pid p l v :
  calls s cpu t pid p → length l = 512%nat →
  calls (mk_ustate (with_files pid l p (u_kern s)) v (u_tty s)) cpu t pid (set_pfiles l p).
Proof.
  intros [Hok Hr Hpid Hp] Hl. constructor; cbn [u_kern]; [by apply with_files_ok | by apply with_files_runs | done |].
  apply ptable_here. by eapply lookup_lt_Some.
Qed.

(** C36: A process reaches exactly the files it has opened.  For a handle that is
    not for the console, the five calls on handles are the operation of the
    filesystem layer on entry [h - 3] when that entry is in the list of the
    process, and a close also takes it off the list; otherwise they return
    [VFS_NOT_OPEN_IN_PROCESS] and change nothing, whatever other processes
    have open. *)
Theorem io_handle_spec s cpu t pid p h o :
  calls s cpu t pid p → for_file h o →
  (h - 3 ∉ pfiles p → run_io cpu h o s = Ok (VFS_NOT_OPEN_IN_PROCESS, s)) ∧
  (h - 3 ∈ pfiles p → ∀ r v, run_file_op (h - 3) o (u_vfs s) = Ok (r, v) →
     run_io cpu h o s = Ok (r, mk_ustate (u_kern (dropped o pid (h - 3) p s)) v (u_tty s))).
Proof.
  intros Hc Hh. rewrite (run_io_eq s cpu t pid p h o Hc Hh). split; [by intros ?; rewrite bool_decide_false |].
  intros Hin r v He. rewrite bool_decide_true by done. unfold in_vfs, zoom.
  destruct o; cbn [dropped u_vfs u_kern u_tty]; by rewrite He.
Qed.

(** [io_open] of a file the filesystem layer opens as entry [file] returns
    the handle [file + 3], never one of the console's, and the process has the
    file as long as its list has a free slot; closing the handle then closes
    the entry and leaves the whole kernel as it was before.  When the list is
    full the call returns a handle all the same, which the process cannot use
    or close.  An error of the filesystem layer is passed on. *)
Theorem io_open_close s cpu t pid p path file v1 :
  calls s cpu t pid p → vfs_open junk path (u_vfs s) = Ok (file, v1) → file < 512 → file ∉ pfiles p →
  if file <? 0 then io_open junk cpu path s = Ok (file, mk_ustate (u_kern s) v1 (u_tty s))
  else ∃ s1, io_open junk cpu path s = Ok (file + 3, s1) ∧ 3 ≤ file + 3 ∧ u_vfs s1 = v1 ∧
    if bool_decide (-1 ∈ pfiles p) then
      (∃ p1, calls s1 cpu t pid p1 ∧ file ∈ pfiles p1) ∧
      ∀ v2 r v3, vfs_close file v2 = Ok (r, v3) →
        io_close cpu (file + 3) (mk_ustate (u_kern s1) v2 (u_tty s1)) = Ok (r, mk_ustate (u_kern s) v3 (u_tty s))
    else ∀ o, for_file (file + 3) o → run_io cpu (file + 3) o s1 = Ok (VFS_NOT_OPEN_IN_PROCESS, s1).
Proof.
  intros Hc Hopen Hmax Hnew. pose proof Hc as [Hok Hr Hpid Hp]. unfold io_open.
  assert (He : in_vfs (vfs_open junk path) s = Ok (file, mk_ustate (u_kern s) v1 (u_tty s))).
  { unfold in_vfs, zoom. by rewrite Hopen. }
  rewrite (bind_Ok _ _ _ _ _ He). destruct (Z.ltb_spec file 0) as [Hneg|Hpos]; [done |].
  assert (Hc1 : calls (mk_ustate (u_kern s) v1 (u_tty s)) cpu t pid p) by (by constructor).
  eexists. split; [| split; [lia |]].
  { rewrite (bind_Ok _ _ _ _ _ (add_eq _ cpu t pid p file Hc1)). apply pure_eq, int_op_Ok. unfold is_s32. lia. }
  split; [done |]. set (l1 := replaced (-1) file (pfiles p)).
  assert (Hl1 : length l1 = 512%nat) by (unfold l1; rewrite replaced_length; by eapply (ko_files _ Hok)).
  case_bool_decide as Hm.
  - split; [exists (set_pfiles l1 p); split; [by apply calls_files | by apply replaced_In] |].
    intros v2 r v3 Hcl. cbn [u_kern u_tty].
    pose proof (run_io_eq _ cpu t pid _ (file + 3) Close (calls_files s cpu t pid p l1 v2 Hc Hl1)) as Hio.
    replace (file + 3 - 3) with file in Hio by lia. cbn [run_io] in Hio.
    rewrite Hio by (split; [lia | done]). rewrite bool_decide_true by (by apply replaced_In).
    cbn [run_file_op dropped]. unfold in_vfs, zoom. cbn [u_vfs u_kern u_tty]. rewrite Hcl. do 2 f_equal.
    cbn [pfiles set_pfiles]. unfold l1. rewrite replaced_back by done. f_equal. unfold with_files.
    rewrite set_ptable_twice. change (set_pfiles (pfiles p) _) with (set_pfiles (pfiles p) p). by apply with_files_same.
  - assert (Hl : l1 = pfiles p) by (unfold l1, replaced; by rewrite (proj2 (slot_of_None _ _) Hm)).
    cbn [u_kern u_vfs u_tty]. fold l1. rewrite Hl, with_files_same by done. intros o Ho.
    rewrite (run_io_eq _ cpu t pid p (file + 3) o Hc1 Ho). rewrite bool_decide_false; [done |].
    by replace (file + 3 - 3) with file by lia.
Qed.

(** The handle of the standard error output stands for entry -1, and -1 is
    what the free slots of the list hold: closing it, or asking for or moving
    its position, passes the check that the process has the file.  The call
    returns [VFS_NOT_OPEN], and from an idle system it leaves an operation
    counted that never ends, so that [vfs_deinit] waits for ever. *)
Theorem io_stderr_leaks s v f cpu t pid p o :
  calls s cpu t pid p → -1 ∈ pfiles p → u_vfs s = (v, f) → idle v → vfs_ops v = 0 → vfs_unmount_sem v = Some 0 →
  for_file FILEHANDLE_STDERR o → file_op_ok o →
  ∃ v', run_io cpu FILEHANDLE_STDERR o s = Ok (VFS_NOT_OPEN, mk_ustate (u_kern s) (v', f) (u_tty s)) ∧
    vfs_ops v' = 1 ∧ vfs_deinit (v', f) = Block.
Proof.
  intros Hc Hm Hv Hid Hops Hum Hh Hok. rewrite (run_io_eq s cpu t pid p _ o Hc Hh).
  change (FILEHANDLE_STDERR - 3) with (-1). rewrite bool_decide_true by done.
  assert (Hdrop : dropped o pid (-1) p s = s).
  { destruct o; cbn [dropped]; [| done ..]. rewrite replaced_minus_one, with_files_same by apply Hc. apply mk_u. }
  rewrite Hdrop. unfold in_vfs, zoom. rewrite Hv.
  assert (Hno : ∀ e, ¬ open_at v (-1) e) by (intros e [? _]; lia).
  pose proof (leak_wp v f (-1) o Hid Hno Hok) as (r & v' & -> & -> & ->)%wp_iff. rewrite Hops.
  eexists. split; [done |]. split; [done | by apply leaked_deinit].
Qed.

End io_spec.

(** ** Witnesses *)

(** A console that keeps what is written to it. *)
#[local] Instance example_console : Console bytes := {|
  gcd_read _ buf _ := mret (0, buf);
  gcd_write _ buf n := modify (λ out, out ++ take (Z.to_nat n) buf);; mret n;
|}.
#[local] Existing Instance example_machine.

Abbreviation example_ustate := (@ustate pagepool (gmap Z (tfs * ramdisk)) bytes).

(** Process 1 with no file open, on the volume of [VfsTfs]. *)
Definition example_user : example_ustate := mk_ustate (example_kern 1) (example_vfs [], example_vols) [].

Lemma example_calls : calls example_user 0 1 1 (example_pcb PROCESS_RUNNING 0).
Proof. constructor; [apply example_kern_ok | apply example_kern_runs | lia | done]. Qed.

Lemma example_not_open file : file ≠ -1 → file ∉ pfiles (example_pcb PROCESS_RUNNING 0).
Proof. intros Hne [-> _]%elem_of_replicate. done. Qed.

Lemma example_free_slot : -1 ∈ pfiles (example_pcb PROCESS_RUNNING 0).
Proof. apply (list_elem_of_lookup_2 _ 0). done. Qed.

Lemma io_handle_spec_witness : run_io (Some 1) 0 10 Tell example_user = Ok (VFS_NOT_OPEN_IN_PROCESS, example_user).
Proof.
  assert (Hfile : for_file 10 Tell) by (split; [lia | exact I]).
  apply (proj1 (io_handle_spec (Some 1) example_user 0 1 1 (example_pcb PROCESS_RUNNING 0) 10 Tell example_calls Hfile)).
  apply example_not_open. discriminate.
Defined.

Definition example_opened : @vstate (gmap Z (tfs * ramdisk)) :=
  match vfs_open (replicate 16 9) [91; 100; 93; 97; 0] (u_vfs example_user) with
  | Ok (_, v) => v
  | _ => u_vfs example_user
  end.

Lemma io_open_close_witness :
  ∃ s1, io_open (replicate 16 9) 0 [91; 100; 93; 97; 0] example_user = Ok (3, s1) ∧
    ∀ v2 r v3, vfs_close 0 v2 = Ok (r, v3) →
      io_close 0 3 (mk_ustate (u_kern s1) v2 (u_tty s1)) = Ok (r, mk_ustate (example_kern 1) v3 []).
Proof.
  pose proof (io_open_close (replicate 16 9) (Some 1) example_user 0 1 1 (example_pcb PROCESS_RUNNING 0)
    [91; 100; 93; 97; 0] 0 example_opened) as H.
  destruct H as (s1 & He & _ & _ & Hif).
  - exact example_calls.
  - vm_compute. reflexivity.
  - lia.
  - apply example_not_open. discriminate.
  - exists s1. split; [exact He |]. rewrite (bool_decide_true _ example_free_slot) in Hif. exact (proj2 Hif).
Defined.

Lemma io_stderr_leaks_witness :
  ∃ v', run_io (Some 1) 0 2 Close example_user = Ok (VFS_NOT_OPEN, mk_ustate (example_kern 1) (v', example_vols) []) ∧
    vfs_ops v' = 1 ∧ vfs_deinit (v', example_vols) = Block.
Proof.
  apply (io_stderr_leaks (Some 1) example_user (example_vfs []) example_vols 0 1 1 (example_pcb PROCESS_RUNNING 0) Close).
  - exact example_calls.
  - exact example_free_slot.
  - reflexivity.
  - apply example_idle. simpl. lia.
  - reflexivity.
  - reflexivity.
  - split; [unfold FILEHANDLE_STDERR; lia | exact I].
  - exact I.
Defined.
