(* ===== verification/Elf.v ===== *)
(** * The headers of an executable (src/buenos/proc/elf.c, elf.h)

    [elf_parse_header] reads the ELF header and the program headers of an open
    file through the filesystem layer.  A header in memory is its bytes, read
    as the big-endian fields of the C structs. *)

From S2P Require Import Prelude Kmalloc Libc FsCodes Tfs Vfs.
Local Open Scope Z_scope.

Definition ET_EXEC : Z := 2.
Definition EM_MIPS : Z := 8.
Definition EI_CLASS : Z := 4.
Definition EI_DATA : Z := 5.
Definition EI_VERSION : Z := 6.
Definition ELFCLASS32 : Z := 1.
Definition ELFDATA2MSB : Z := 2.
Definition EV_CURRENT : Z := 1.
Definition ELF_MAGIC : Z := 0x7f454c46.
Definition PT_NULL : Z := 0.
Definition PT_LOAD : Z := 1.
Definition PT_NOTE : Z := 4.
Definition PT_PHDR : Z := 6.
Definition PF_W : Z := 2.
Definition SEG_RO : Z := 1.
Definition SEG_RW : Z := 2.

(** [sizeof(Elf32_Ehdr)] and [sizeof(Elf32_Phdr)] *)
Definition SIZEOF_EHDR : Z := 52.
Definition SIZEOF_PHDR : Z := 32.

(** [elf_info_t] *)
Record elf_info := mk_elf {
  entry_point : Z;
  ro_location : Z; ro_size : Z; ro_pages : Z; ro_vaddr : Z;
  rw_location : Z; rw_size : Z; rw_pages : Z; rw_vaddr : Z;
}.

Definition get16 (l : bytes) (i : Z) : res Z := b0 ← aget l i; b1 ← aget l (i + 1); Ok (b0 * 2 ^ 8 + b1).

(** The fields of [Elf32_Ehdr] and [Elf32_Phdr]. *)
Definition e_type (h : bytes) : res Z := get16 h 16.
Definition e_machine (h : bytes) : res Z := get16 h 18.
Definition e_version (h : bytes) : res Z := get32 h 20.
Definition e_entry (h : bytes) : res Z := get32 h 24.
Definition e_phoff (h : bytes) : res Z := get32 h 28.
Definition e_phnum (h : bytes) : res Z := get16 h 44.
Definition p_type (h : bytes) : res Z := get32 h 0.
Definition p_offset (h : bytes) : res Z := get32 h 4.
Definition p_vaddr (h : bytes) : res Z := get32 h 8.
Definition p_filesz (h : bytes) : res Z := get32 h 16.
Definition p_memsz (h : bytes) : res Z := get32 h 20.
Definition p_flags (h : bytes) : res Z := get32 h 24.

(** The checks on the ELF header; [false] where the function returns 0. *)
Definition check_header (h : bytes) : res bool :=
  magic ← get32 h 0;
  if negb (magic =? ELF_MAGIC) then Ok false
  else
    class ← aget h EI_CLASS; data ← aget h EI_DATA; machine ← e_machine h;
    if negb (class =? ELFCLASS32) || negb (data =? ELFDATA2MSB) || negb (machine =? EM_MIPS) then Ok false
    else
      version ← e_version h; iversion ← aget h EI_VERSION;
      if negb (version =? EV_CURRENT) || negb (iversion =? EV_CURRENT) then Ok false
      else
        type ← e_type h;
        if negb (type =? ET_EXEC) then Ok false
        else
          phnum ← e_phnum h;
          Ok (negb (phnum =? 0)).

(** The [switch] on the type of a program header, with the segments seen so
    far; [None] where the function returns 0. *)
Definition take_phdr (h : bytes) (segs : Z) (elf : elf_info) : res (option (Z * elf_info)) :=
  type ← p_type h;
  if (type =? PT_NULL) || (type =? PT_NOTE) || (type =? PT_PHDR) then Ok (Some (segs, elf))
  else if type =? PT_LOAD then
    flags ← p_flags h;
    offset ← p_offset h; filesz ← p_filesz h; vaddr ← p_vaddr h; memsz ← p_memsz h;
    let pages := u32 (memsz + PAGE_SIZE - 1) / PAGE_SIZE in
    if negb (Z.land flags PF_W =? 0) then
      if negb (Z.land segs SEG_RW =? 0) then Ok None
      else Ok (Some (Z.lor segs SEG_RW,
        mk_elf (entry_point elf) (ro_location elf) (ro_size elf) (ro_pages elf) (ro_vaddr elf) offset filesz pages vaddr))
    else
      if negb (Z.land segs SEG_RO =? 0) then Ok None
      else Ok (Some (Z.lor segs SEG_RO,
        mk_elf (entry_point elf) offset filesz pages vaddr (rw_location elf) (rw_size elf) (rw_pages elf) (rw_vaddr elf)))
  else Ok None.

Section elf.
Context {F : Type} `{Filesystems F}.
(** The addresses of [elf_hdr] and [program_hdr] on the stack. *)
Context (hdr_addr phdr_addr : Z).

(** The loop over the program headers; [h] is what [program_hdr] holds. *)
Fixpoint phdr_loop (n : nat) (file : Z) (h : bytes) (current_position segs : Z) (elf : elf_info) :
    K (@vstate F) (option (Z * elf_info)) :=
  match n with
  | O => mret (Some (segs, elf))
  | S n' =>
      '(r, h) ← vfs_read file phdr_addr h SIZEOF_PHDR;
      if negb (u32 r =? SIZEOF_PHDR) then mret None
      else
        t ← pure (take_phdr h segs elf);
        match t with
        | None => mret None
        | Some (segs, elf) =>
            let current_position := s32 (current_position + SIZEOF_PHDR) in
            vfs_seek file current_position;;
            phdr_loop n' file h current_position segs elf
        end
  end.

(** [None] when the function returns 0, otherwise what it leaves in [elf];
    [h] and [ph] are what the two headers hold before they are read. *)
Definition elf_parse_header (file : Z) (h ph : bytes) : K (@vstate F) (option elf_info) :=
  '(r, h) ← vfs_read file hdr_addr h SIZEOF_EHDR;
  if negb (u32 r =? SIZEOF_EHDR) then mret None
  else
    ok ← pure (check_header h);
    if negb ok then mret None
    else
      entry ← pure (e_entry h);
      phoff ← pure (e_phoff h);
      phnum ← pure (e_phnum h);
      let current_position := s32 phoff in
      vfs_seek file current_position;;
      t ← phdr_loop (Z.to_nat phnum) file ph current_position 0 (mk_elf entry 0 0 0 0 0 0 0 0);
      match t with
      | None => mret None
      | Some (segs, elf) => mret (if 0 <? segs then Some elf else None)
      end.

End elf.
