(* ===== verification/ElfSpec.v ===== *)
(** * What the ELF parser accepts

    A declarative reading of an executable's bytes, and the proof that
    [elf_parse_header] accepts exactly the valid ones and returns their
    segments. *)

From S2P Require Import Prelude Kmalloc Libc FsCodes Tfs Vfs VfsSpec Elf.
Local Open Scope Z_scope.

(** ** Reading a file's bytes *)

Definition byte_at (c : bytes) (i : nat) : Z := default 0 (c !! i).
Definition h16 (c : bytes) (i : nat) : Z := byte_at c i * 2 ^ 8 + byte_at c (i + 1).
Definition h32 (c : bytes) (i : nat) : Z := be32 (byte_at c i) (byte_at c (i + 1)) (byte_at c (i + 2)) (byte_at c (i + 3)).

Record phdr := mk_phdr { ph_type : Z; ph_offset : Z; ph_vaddr : Z; ph_filesz : Z; ph_memsz : Z; ph_flags : Z }.

Definition phdr_at (c : bytes) (p : nat) : phdr :=
  mk_phdr (h32 c p) (h32 c (p + 4)) (h32 c (p + 8)) (h32 c (p + 16)) (h32 c (p + 20)) (h32 c (p + 24)).

Definition phoff (c : bytes) : nat := Z.to_nat (h32 c 28).
Definition phnum (c : bytes) : nat := Z.to_nat (h16 c 44).

(** [n] program headers from byte [p] on, and all of a file. *)
Definition phdrs_from (c : bytes) (p n : nat) : list phdr := (λ i, phdr_at c (p + 32 * i)) <$> seq 0 n.
Definition phdrs (c : bytes) : list phdr := phdrs_from c (phoff c) (phnum c).

Definition known_type (h : phdr) : Prop :=
  ph_type h = PT_NULL ∨ ph_type h = PT_NOTE ∨ ph_type h = PT_PHDR ∨ ph_type h = PT_LOAD.
#[global] Instance known_type_dec h : Decision (known_type h).
Proof. unfold known_type. apply _. Defined.

Definition writable (h : phdr) : bool := negb (Z.land (ph_flags h) PF_W =? 0).

(** The segments to load that are writable, or are not. *)
Definition loads (w : bool) (hs : list phdr) : list phdr := filter (λ h, ph_type h = PT_LOAD ∧ writable h = w) hs.

(** The ELF header of a big-endian 32-bit MIPS executable. *)
Definition header_ok (c : bytes) : Prop :=
  (52 ≤ length c)%nat ∧ h32 c 0 = ELF_MAGIC ∧ byte_at c 4 = ELFCLASS32 ∧ byte_at c 5 = ELFDATA2MSB ∧ byte_at c 6 = EV_CURRENT ∧
  h16 c 16 = ET_EXEC ∧ h16 c 18 = EM_MIPS ∧ h32 c 20 = EV_CURRENT ∧ h16 c 44 ≠ 0.
#[global] Instance header_ok_dec c : Decision (header_ok c).
Proof. unfold header_ok. apply _. Defined.

(** A file the kernel can run: its program headers lie inside it and are of
    known types, with at least one segment to load, and at most one of either
    kind. *)
Definition valid_exec (c : bytes) : Prop :=
  header_ok c ∧ (phoff c + 32 * phnum c ≤ length c)%nat ∧ Forall known_type (phdrs c) ∧
  (length (loads false (phdrs c)) ≤ 1)%nat ∧ (length (loads true (phdrs c)) ≤ 1)%nat ∧
  loads false (phdrs c) ++ loads true (phdrs c) ≠ [].
#[global] Instance valid_exec_dec c : Decision (valid_exec c).
Proof. unfold valid_exec. apply _. Defined.

(** The pages that [n] bytes take up. *)
Definition pages_of (n : Z) : Z := u32 (n + PAGE_SIZE - 1) / PAGE_SIZE.

(** What the kernel has to know to load a read-only and a writable segment. *)
Definition info (entry : Z) (ro rw : option phdr) : elf_info :=
  let get (f : phdr → Z) (o : option phdr) := from_option f 0 o in
  mk_elf entry (get ph_offset ro) (get ph_filesz ro) (get (pages_of ∘ ph_memsz) ro) (get ph_vaddr ro)
    (get ph_offset rw) (get ph_filesz rw) (get (pages_of ∘ ph_memsz) rw) (get ph_vaddr rw).

Definition info_of (c : bytes) : elf_info :=
  info (h32 c 24) (head (loads false (phdrs c))) (head (loads true (phdrs c))).

(** ** Fields *)

Lemma aget_byte l i : 0 ≤ i < Z.of_nat (length l) → aget l i = Ok (byte_at l (Z.to_nat i)).
Proof.
  intros Hi. destruct (aget_total l i Hi) as (x & -> & Hx). unfold byte_at. by rewrite Hx.
Qed.

Lemma be32_Ok l i : 0 ≤ i → i + 4 ≤ Z.of_nat (length l) → get32 l i = Ok (h32 l (Z.to_nat i)).
Proof.
  intros H0 Hl. unfold get32, h32, mbind, res_bind. rewrite !aget_byte by lia.
  by rewrite !Z2Nat.inj_add by lia.
Qed.

Lemma get16_Ok l i : 0 ≤ i → i + 2 ≤ Z.of_nat (length l) → get16 l i = Ok (h16 l (Z.to_nat i)).
Proof.
  intros H0 Hl. unfold get16, h16, mbind, res_bind. rewrite !aget_byte by lia. by rewrite Z2Nat.inj_add by lia.
Qed.

Lemma byte_slice c p n i : (i < n)%nat → byte_at (take n (drop p c)) i = byte_at c (p + i).
Proof. intros Hi. unfold byte_at. by rewrite lookup_take_lt, lookup_drop by done. Qed.

Lemma h32_slice c p n i : (i + 3 < n)%nat → h32 (take n (drop p c)) i = h32 c (p + i).
Proof. intros Hi. unfold h32. rewrite !byte_slice by lia. by rewrite !Nat.add_assoc. Qed.

Lemma h16_slice c p n i : (i + 1 < n)%nat → h16 (take n (drop p c)) i = h16 c (p + i).
Proof. intros Hi. unfold h16. rewrite !byte_slice by lia. by rewrite !Nat.add_assoc. Qed.

Lemma byte_at_range c i : is_bytes c → is_byte (byte_at c i).
Proof.
  intros Hc. unfold byte_at. destruct (c !! i) as [b|] eqn:Hb; [by apply (Forall_lookup_1 _ _ _ _ Hc Hb) | unfold is_byte; simpl; lia].
Qed.

Lemma h32_range c i : is_bytes c → 0 ≤ h32 c i < 2 ^ 32.
Proof.
  intros Hc. unfold h32, be32.
  pose proof (byte_at_range c i Hc). pose proof (byte_at_range c (i + 1) Hc).
  pose proof (byte_at_range c (i + 2) Hc). pose proof (byte_at_range c (i + 3) Hc). unfold is_byte in *. lia.
Qed.

Lemma h16_range c i : is_bytes c → 0 ≤ h16 c i < 2 ^ 16.
Proof.
  intros Hc. unfold h16. pose proof (byte_at_range c i Hc). pose proof (byte_at_range c (i + 1) Hc). unfold is_byte in *. lia.
Qed.

(** Evaluate the indices of a header's fields. *)
Ltac eval_indices :=
  change (Z.to_nat 0) with 0%nat;
  repeat match goal with |- context [Z.to_nat (Zpos ?n)] =>
    let v := eval vm_compute in (Z.to_nat (Zpos n)) in change (Z.to_nat (Zpos n)) with v end.

Lemma check_header_Ok h : length h = 52%nat → check_header h = Ok (bool_decide (header_ok h)).
Proof.
  intros Hl. unfold check_header, e_type, e_machine, e_version, e_phnum, EI_CLASS, EI_DATA, EI_VERSION.
  rewrite !be32_Ok, !get16_Ok, !aget_byte by lia. unfold mbind, res_bind. eval_indices.
  destruct (Z.eqb_spec (h32 h 0) ELF_MAGIC); [| rewrite bool_decide_false by (unfold header_ok; tauto); done].
  destruct (Z.eqb_spec (byte_at h 4) ELFCLASS32); [| rewrite bool_decide_false by (unfold header_ok; tauto); done].
  destruct (Z.eqb_spec (byte_at h 5) ELFDATA2MSB); [| rewrite bool_decide_false by (unfold header_ok; tauto); done].
  destruct (Z.eqb_spec (h16 h 18) EM_MIPS); [| rewrite bool_decide_false by (unfold header_ok; tauto); done].
  destruct (Z.eqb_spec (h32 h 20) EV_CURRENT); [| rewrite bool_decide_false by (unfold header_ok; tauto); done].
  destruct (Z.eqb_spec (byte_at h 6) EV_CURRENT); [| rewrite bool_decide_false by (unfold header_ok; tauto); done].
  destruct (Z.eqb_spec (h16 h 16) ET_EXEC); [| rewrite bool_decide_false by (unfold header_ok; tauto); done].
  destruct (Z.eqb_spec (h16 h 44) 0); [rewrite bool_decide_false by (unfold header_ok; tauto); done |].
  rewrite bool_decide_true; [done |]. unfold header_ok. repeat split; done || lia.
Qed.

Lemma header_slice c : (52 ≤ length c)%nat → header_ok (take 52 (drop 0 c)) ↔ header_ok c.
Proof.
  intros Hl. unfold header_ok. rewrite length_take, length_drop.
  rewrite !h32_slice, !h16_slice, !byte_slice by lia. cbn [Nat.add]. intuition lia.
Qed.

(** ** The program headers *)

(** What the parser has seen of the segments. *)
Definition seg_bits (ro rw : option phdr) : Z := (if ro is Some _ then SEG_RO else 0) + (if rw is Some _ then SEG_RW else 0).

Definition see (h : phdr) (st : option phdr * option phdr) : option (option phdr * option phdr) :=
  let '(ro, rw) := st in
  if decide (ph_type h = PT_LOAD) then
    if writable h then match rw with None => Some (ro, Some h) | Some _ => None end
    else match ro with None => Some (Some h, rw) | Some _ => None end
  else if decide (known_type h) then Some (ro, rw) else None.

Fixpoint scan (hs : list phdr) (st : option phdr * option phdr) : option (option phdr * option phdr) :=
  match hs with
  | [] => Some st
  | h :: hs' => st' ← see h st; scan hs' st'
  end.

Lemma loads_cons w h hs :
  loads w (h :: hs) = if decide (ph_type h = PT_LOAD ∧ writable h = w) then h :: loads w hs else loads w hs.
Proof. unfold loads. rewrite filter_cons. by repeat case_decide. Qed.

Lemma scan_loads hs : ∀ ro rw ro' rw',
  scan hs (ro, rw) = Some (ro', rw') ↔
  Forall known_type hs ∧ option_list ro ++ loads false hs = option_list ro' ∧ option_list rw ++ loads true hs = option_list rw'.
Proof.
  induction hs as [|h hs IH]; intros ro rw ro' rw'.
  { simpl. rewrite !app_nil_r. split; [intros [= -> ->]; by split_and! | intros (_ & H1 & H2)].
    destruct ro, ro', rw, rw'; simplify_eq/=; done. }
  cbn [scan see]. rewrite Forall_cons, !loads_cons.
  destruct (decide (ph_type h = PT_LOAD)) as [Hl|Hl].
  - assert (Hk : known_type h) by (unfold known_type; tauto). destruct (writable h) eqn:Hw.
    + rewrite (decide_False (P := _ ∧ true = false)) by naive_solver. rewrite decide_True by done. destruct rw as [y|]; simpl.
      * split; [done |]. intros (_ & _ & H2). by destruct rw'.
      * rewrite IH. simpl. tauto.
    + rewrite decide_True by done. rewrite (decide_False (P := _ ∧ false = true)) by naive_solver. destruct ro as [y|]; simpl.
      * split; [done |]. intros (_ & H2 & _). by destruct ro'.
      * rewrite IH. simpl. tauto.
  - rewrite (decide_False (P := _ ∧ writable h = false)), (decide_False (P := _ ∧ writable h = true)) by tauto. case_decide as Hk; simpl; [rewrite IH; tauto |]. split; [done | tauto].
Qed.

(** A list of at most one element, as an option. *)
Lemma short_list {A} (l : list A) : (length l ≤ 1)%nat → l = option_list (head l).
Proof. destruct l as [|x [|]]; simpl; done || lia. Qed.

(** Scanning all headers decides the rest of validity. *)
Lemma scan_valid hs :
  match scan hs (None, None) with
  | Some (ro, rw) => Forall known_type hs ∧ (length (loads false hs) ≤ 1)%nat ∧ (length (loads true hs) ≤ 1)%nat ∧
      ro = head (loads false hs) ∧ rw = head (loads true hs)
  | None => ¬ (Forall known_type hs ∧ (length (loads false hs) ≤ 1)%nat ∧ (length (loads true hs) ≤ 1)%nat)
  end.
Proof.
  destruct (scan hs (None, None)) as [[ro rw]|] eqn:Hs.
  - apply scan_loads in Hs as (Hk & H1 & H2). simpl in H1, H2. rewrite H1, H2. split_and!; [done | ..]; by destruct ro, rw; simpl; try lia.
  - intros (Hk & H1 & H2).
    assert (scan hs (None, None) = Some (head (loads false hs), head (loads true hs))); [| congruence].
    apply scan_loads. simpl. split_and!; [done | by apply short_list ..].
Qed.

Lemma take_phdr_Ok h p entry ro rw :
  length h = 32%nat → phdr_at h 0 = p →
  take_phdr h (seg_bits ro rw) (info entry ro rw) =
    Ok ((λ '(ro, rw), (seg_bits ro rw, info entry ro rw)) <$> see p (ro, rw)).
Proof.
  intros Hl <-. unfold take_phdr, p_type, p_flags, p_offset, p_filesz, p_vaddr, p_memsz.
  rewrite !be32_Ok by lia. unfold mbind, res_bind. eval_indices. cbn [see phdr_at ph_type ph_flags Nat.add].
  unfold known_type, writable, phdr_at. cbn [ph_type ph_flags Nat.add].
  set (ty := h32 h 0). destruct (decide (ty = PT_LOAD)) as [->|Hne].
  - change (PT_LOAD =? PT_NULL) with false. change (PT_LOAD =? PT_NOTE) with false. change (PT_LOAD =? PT_PHDR) with false.
    rewrite Z.eqb_refl. cbn [orb]. destruct (negb (Z.land (h32 h 24) PF_W =? 0)); destruct ro, rw; done.
  - rewrite (proj2 (Z.eqb_neq ty PT_LOAD) Hne). case_decide as Hk.
    + assert (Hb : (ty =? PT_NULL) || (ty =? PT_NOTE) || (ty =? PT_PHDR) = true); [| by rewrite Hb].
      rewrite !orb_true_iff, !Z.eqb_eq. tauto.
    + assert (Hb : (ty =? PT_NULL) || (ty =? PT_NOTE) || (ty =? PT_PHDR) = false); [| by rewrite Hb].
      rewrite !orb_false_iff, !Z.eqb_neq. tauto.
Qed.

Lemma phdrs_from_S c p n : phdrs_from c p (S n) = phdr_at c p :: phdrs_from c (p + 32) n.
Proof.
  unfold phdrs_from. cbn [seq fmap list_fmap]. rewrite Nat.mul_0_r, Nat.add_0_r. f_equal.
  rewrite <- fmap_S_seq, <- list_fmap_compose. apply list_fmap_ext. intros i j _. cbn [compose]. f_equal. lia.
Qed.

Lemma phdr_slice c p : phdr_at (take 32 (drop p c)) 0 = phdr_at c p.
Proof. unfold phdr_at. rewrite !h32_slice by lia. cbn [Nat.add]. by rewrite Nat.add_0_r. Qed.

Section elf_spec.
Context {F : Type} `{FileStore F}.
Context (hdr_addr phdr_addr : Z).

(** The file is open in [s] at position [p] and stored intact. *)
Definition reading (s0 : vfs) (file : Z) (e : openfile_entry) (c : bytes) (p : Z) (x : @vstate F) : Prop :=
  fst x = at_pos file e p s0 ∧ fs_ok (snd x) ∧ fs_reliable (snd x) ∧ file_at (snd x) (of_filesystem e) (fileid e) c.

Lemma reading_read s0 file e c p x baddr buf n :
  idle s0 → open_at s0 file e → reading s0 file e c p x → 0 ≤ p ≤ Z.of_nat (length c) →
  n = Z.of_nat (length buf) → baddr ≠ NULL →
  wp (vfs_read file baddr buf n) (λ r x', let m := Z.min n (Z.of_nat (length c) - p) in
    reading s0 file e c (p + m) x' ∧
    r = (m, take (Z.to_nat m) (drop (Z.to_nat p) c) ++ drop (Z.to_nat m) buf)) x.
Proof.
  intros Hid He (Hs & Hok & Hrel & Hc) Hp Hn Hb. destruct x as [s f]. cbn [fst snd] in *. subst s.
  pose proof (at_pos_open file e p s0 (id_files _ Hid) He) as He'. set (e' := mk_openfile _ _ _) in He'.
  eapply wp_mono; [apply (vfs_read_wp _ f file e' c baddr buf n); try done; [by apply at_pos_idle | simpl; lia] |].
  intros [r buf'] [s' f'] (-> & Hok' & Hc' & Hrel' & Hr). cbn [fst snd] in *.
  destruct Hr as [[_ Hno]|Hr]; [done |]. cbv zeta in *. cbn [seek_position e'] in *. injection Hr as -> ->.
  split; [| done]. unfold reading. cbn [fst snd]. rewrite Z.max_l by lia. split_and!; [| done | by apply Hrel' | done].
  exact (at_pos_twice file e p _ s0).
Qed.

Lemma reading_past s0 file e c p x baddr buf n :
  idle s0 → open_at s0 file e → reading s0 file e c p x → Z.of_nat (length c) < p < 2 ^ 31 →
  n = Z.of_nat (length buf) → baddr ≠ NULL →
  wp (vfs_read file baddr buf n) (λ r x', reading s0 file e c p x' ∧ - 2 ^ 31 ≤ fst r < 0) x.
Proof.
  intros Hid He (Hs & Hok & Hrel & Hc) Hp Hn Hb. destruct x as [s f]. cbn [fst snd] in *. subst s.
  pose proof (at_pos_open file e p s0 (id_files _ Hid) He) as He'. set (e' := mk_openfile _ _ _) in He'.
  eapply wp_mono; [apply (vfs_read_past_wp _ f file e' c baddr buf n); try done; [by apply at_pos_idle | lia] |].
  intros [r buf'] [s' f'] (-> & Hok' & Hc' & Hrel' & Hr & _). split; [| done]. split_and!; [| done | by apply Hrel' | done].
  exact (at_pos_twice file e p _ s0).
Qed.

Lemma reading_seek s0 file e c p q x :
  idle s0 → open_at s0 file e → reading s0 file e c p x → 0 ≤ q →
  wp (vfs_seek file q) (λ r x', r = VFS_OK ∧ reading s0 file e c q x') x.
Proof.
  intros Hid He (Hs & Hok & Hrel & Hc) Hq. destruct x as [s f]. cbn [fst snd] in *. subst s.
  pose proof (at_pos_open file e p s0 (id_files _ Hid) He) as He'.
  eapply wp_mono; [apply (vfs_seek_wp _ f file _ q (at_pos_idle _ _ _ _ Hid) He' Hq) |].
  intros r x' [-> ->]. split; [done |]. split_and!; [exact (at_pos_twice file e p q s0) | done ..].
Qed.

Lemma phdr_loop_wp n : ∀ s0 file e c p x h entry ro rw,
  idle s0 → open_at s0 file e → Z.of_nat (length c) < 2 ^ 31 → phdr_addr ≠ NULL →
  Z.of_nat p < 2 ^ 31 → (n = 0%nat → (p ≤ length c)%nat) → length h = 32%nat →
  reading s0 file e c (Z.of_nat p) x →
  wp (phdr_loop phdr_addr n file h (Z.of_nat p) (seg_bits ro rw) (info entry ro rw))
    (λ r x', (∃ q, reading s0 file e c q x') ∧
      r = if decide (p + 32 * n ≤ length c)%nat
          then (λ '(ro, rw), (seg_bits ro rw, info entry ro rw)) <$> scan (phdrs_from c p n) (ro, rw) else None) x.
Proof.
  induction n as [|n IH]; intros s0 file e c p x h entry ro rw Hid He Hsz Ha Hp31 Hp Hh Hx; cbn [phdr_loop].
  { wp_step. rewrite decide_True by lia. split; [by exists (Z.of_nat p) | done]. }
  clear Hp. wp_step. unfold SIZEOF_PHDR. destruct (decide (p ≤ length c)%nat) as [Hp|Hpast].
  2: { eapply wp_mono; [apply (reading_past s0 file e c (Z.of_nat p)); try done; lia |]. intros [r h'] x1 [Hx1 Hr]. cbn [fst] in Hr.
       rewrite decide_False by lia. rewrite (proj2 (Z.eqb_neq _ _)); [cbn [negb]; wp_step; by split; [eexists |] |].
       unfold u32. replace (r mod 2 ^ 32) with (r + 2 ^ 32); [lia |]. apply (Z.mod_unique _ _ (-1)); lia. }
  eapply wp_mono; [apply (reading_read s0 file e c (Z.of_nat p)); try done; lia |].
  intros [r h'] x1 [Hx1 Hr]. cbv zeta in Hx1, Hr. injection Hr as -> ->. rewrite Nat2Z.id.
  destruct (decide (p + 32 ≤ length c)%nat) as [Hfit|Hshort].
  2: { rewrite decide_False by lia. rewrite Z.min_r, u32_small, (proj2 (Z.eqb_neq _ _)) by (unfold is_u32; lia).
       cbn [negb]. wp_step. by split; [eexists |]. }
  rewrite Z.min_l in * by lia. rewrite (u32_small 32), Z.eqb_refl by (unfold is_u32; lia). cbn [negb].
  change (Z.to_nat 32) with 32%nat. rewrite (drop_ge h 32), app_nil_r by lia. set (h1 := take 32 (drop p c)).
  assert (Hl1 : length h1 = 32%nat) by (unfold h1; rewrite length_take, length_drop; lia).
  wp_step. eapply wp_pure; [apply (take_phdr_Ok h1 (phdr_at c p)); [done | apply phdr_slice] |]. cbv beta.
  rewrite phdrs_from_S. cbn [scan]. destruct (see (phdr_at c p) (ro, rw)) as [[ro1 rw1]|]; cbn [fmap option_fmap option_map mbind option_bind].
  - wp_step. rewrite s32_small by (unfold is_s32; lia).
    eapply wp_mono; [by apply (reading_seek s0 file e c (Z.of_nat p + 32)); try done; lia |].
    intros ? x2 [_ Hx2]. replace (Z.of_nat p + 32) with (Z.of_nat (p + 32)) in * by lia.
    eapply wp_mono; [apply (IH s0 file e c (p + 32)%nat x2 h1 entry ro1 rw1); try done; lia |].
    intros r x3 [Hx3 ->]. split; [done |]. repeat case_decide; done || lia.
  - wp_step. split; [by eexists |]. by case_decide.
Qed.

(** What follows the checks of the ELF header. *)
Definition parse_rest (file : Z) (ph c : bytes) : K (@vstate F) (option elf_info) :=
  vfs_seek file (s32 (h32 c 28));;
  t ← phdr_loop phdr_addr (phnum c) file ph (s32 (h32 c 28)) 0 (mk_elf (h32 c 24) 0 0 0 0 0 0 0 0);
  match t with
  | None => mret None
  | Some (segs, elf) => mret (if 0 <? segs then Some elf else None)
  end.

Lemma parse_start s f file e c h ph :
  idle s → open_at s file e → seek_position e = 0 → fs_ok f → fs_reliable f → file_at f (of_filesystem e) (fileid e) c →
  hdr_addr ≠ NULL → length h = 52%nat →
  ∃ q x1, reading s file e c q x1 ∧
    elf_parse_header hdr_addr phdr_addr file h ph (s, f) =
      if decide (header_ok c) then parse_rest file ph c x1 else Ok (None, x1).
Proof.
  intros Hid He Hpos Hok Hrel Hc Ha Hh.
  assert (Hx : reading s file e c 0 (s, f)).
  { split_and!; try done. cbn [fst]. rewrite <- Hpos. by rewrite at_pos_same. }
  assert (Hwp : wp (vfs_read file hdr_addr h SIZEOF_EHDR) (λ r x', let m := Z.min 52 (Z.of_nat (length c) - 0) in
    reading s file e c (0 + m) x' ∧ r = (m, take (Z.to_nat m) (drop (Z.to_nat 0) c) ++ drop (Z.to_nat m) h)) (s, f)).
  { apply (reading_read s file e c 0); try done; unfold SIZEOF_EHDR; lia. }
  apply wp_iff in Hwp as ([r h'] & x1 & Hr & Hx1 & Heq). cbv zeta in *. injection Heq as -> ->.
  eexists _, x1. split; [exact Hx1 |]. unfold elf_parse_header, mbind, K_bind. rewrite Hr. unfold SIZEOF_EHDR.
  destruct (decide (52 ≤ length c)%nat) as [Hl|Hl].
  2: { rewrite Z.min_r, u32_small, (proj2 (Z.eqb_neq _ _)) by (unfold is_u32; lia). cbn [negb].
       rewrite decide_False; [done |]. intros [Hl' _]. done. }
  rewrite Z.min_l by lia. change (u32 52 =? 52) with true. cbn [negb]. change (Z.to_nat 52) with 52%nat. change (Z.to_nat 0) with 0%nat.
  rewrite (drop_ge h), app_nil_r by lia. set (h1 := take 52 (drop 0 c)).
  assert (Hl1 : length h1 = 52%nat) by (unfold h1; rewrite length_take, length_drop; lia).
  rewrite check_header_Ok by done. unfold pure. destruct (decide (header_ok c)) as [Hok'|Hno].
  - rewrite bool_decide_true by (by apply header_slice). cbn [negb]. unfold e_entry, e_phoff, e_phnum.
    rewrite !be32_Ok, !get16_Ok by lia. eval_indices. unfold h1. rewrite !h32_slice, !h16_slice by lia. done.
  - rewrite bool_decide_false; [done |]. intros Hh1. by apply Hno, header_slice.
Qed.

Lemma elf_parse_run s f file e c h ph :
  idle s → open_at s file e → seek_position e = 0 → fs_ok f → fs_reliable f → file_at f (of_filesystem e) (fileid e) c →
  is_bytes c → hdr_addr ≠ NULL → phdr_addr ≠ NULL → length h = 52%nat → length ph = 32%nat →
  (header_ok c → h32 c 28 < 2 ^ 31) →
  ∃ x', elf_parse_header hdr_addr phdr_addr file h ph (s, f) =
      Ok (if decide (valid_exec c) then Some (info_of c) else None, x') ∧ ∃ q, reading s file e c q x'.
Proof.
  intros Hid He Hpos Hok Hrel Hc Hby Ha Hpa Hh Hph Hin.
  destruct (parse_start s f file e c h ph Hid He Hpos Hok Hrel Hc Ha Hh) as (q & x1 & Hx1 & Heq). rewrite Heq.
  pose proof (file_at_size _ _ _ _ Hok Hc) as Hsz. pose proof (h32_range c 28 Hby) as Hr.
  destruct (decide (header_ok c)) as [Hhd|Hno].
  2: { exists x1. rewrite decide_False; [by split; [| exists q] |]. by intros [? _]. }
  specialize (Hin Hhd).
  assert (Hs : s32 (h32 c 28) = Z.of_nat (phoff c)) by (unfold phoff in *; rewrite s32_small by (unfold is_s32; lia); lia).
  assert (Hwp : wp (parse_rest file ph c) (λ r x', r = (if decide (valid_exec c) then Some (info_of c) else None) ∧
    ∃ q, reading s file e c q x') x1); [| apply wp_iff in Hwp as (r & x' & Hrun & -> & Hx'); by exists x'].
  unfold parse_rest. rewrite Hs. wp_step.
  eapply wp_mono; [apply (reading_seek s file e c q); try done; lia |]. intros ? x2 [_ Hx2]. wp_step.
  eapply wp_mono; [apply (phdr_loop_wp (phnum c) s file e c (phoff c) x2 ph (h32 c 24) None None); try done |].
  { unfold phoff. lia. }
  { intros Hz. destruct Hhd as (_ & _ & _ & _ & _ & _ & _ & _ & Hnum). pose proof (h16_range c 44 Hby). unfold phnum in Hz. lia. }
  intros t x3 [Hx3 ->]. cbv beta. fold (phdrs c). case_decide as Hfit.
  2: { wp_step. rewrite decide_False; [by split |]. by intros (_ & ? & _). }
  pose proof (scan_valid (phdrs c)) as Hscan.
  destruct (scan (phdrs c) (None, None)) as [[ro rw]|]; cbn [fmap option_fmap option_map].
  + destruct Hscan as (Hk & H1 & H2 & -> & ->). wp_step. split; [| done]. unfold info_of.
    destruct (decide (valid_exec c)) as [(_ & _ & _ & _ & _ & Hne)|Hno].
    * by destruct (loads false (phdrs c)), (loads true (phdrs c)).
    * assert (Hnil : loads false (phdrs c) ++ loads true (phdrs c) = []).
      { destruct (loads false (phdrs c) ++ loads true (phdrs c)) eqn:E; [done |]. destruct Hno. split_and!; try done. by rewrite E. }
      by apply app_nil in Hnil as [-> ->].
  + wp_step. split; [| done]. rewrite decide_False; [done |]. intros (_ & _ & ? & ? & ? & _). by apply Hscan.
Qed.

(** C35: [elf_parse_header] on a file that is open at its start, when nothing
    fails on the disk.  It accepts the file exactly when it is a valid
    executable, and then returns the entry point and, for its read-only and its
    writable segment, where they are in the file and in memory; the file is
    left intact and open.  So a file whose program headers would lie behind its
    end is refused; unless they are said to lie beyond 2 GB, when the file is
    not refused but stops the kernel. *)
Theorem elf_parse_spec s f file e c h ph :
  idle s → open_at s file e → seek_position e = 0 → fs_ok f → fs_reliable f → file_at f (of_filesystem e) (fileid e) c →
  is_bytes c → hdr_addr ≠ NULL → phdr_addr ≠ NULL → length h = 52%nat → length ph = 32%nat →
  ((header_ok c → h32 c 28 < 2 ^ 31) →
   ∃ x', elf_parse_header hdr_addr phdr_addr file h ph (s, f) =
       Ok (if decide (valid_exec c) then Some (info_of c) else None, x') ∧ ∃ q, reading s file e c q x') ∧
  (header_ok c → 2 ^ 31 ≤ h32 c 28 → elf_parse_header hdr_addr phdr_addr file h ph (s, f) = Panic "Assertion failed").
Proof.
  intros Hid He Hpos Hok Hrel Hc Hby Ha Hpa Hh Hph. split; [by apply elf_parse_run |].
  intros Hhd Hbig. destruct (parse_start s f file e c h ph Hid He Hpos Hok Hrel Hc Ha Hh) as (q & x1 & Hx1 & Heq).
  rewrite Heq, decide_True by done. pose proof (h32_range c 28 Hby) as Hr. unfold parse_rest.
  assert (Hs : s32 (h32 c 28) = h32 c 28 - 2 ^ 32).
  { unfold s32. replace (h32 c 28 + 2 ^ 31) with (h32 c 28 - 2 ^ 31 + 1 * 2 ^ 32) by lia.
    rewrite Z.mod_add, Z.mod_small by lia. lia. }
  unfold mbind at 1, K_bind at 1. enough (vfs_seek file (s32 (h32 c 28)) x1 = Panic "Assertion failed") as -> by done.
  destruct x1 as [s1 f1], Hx1 as (Hs1 & _). cbn [fst] in Hs1. subst s1. unfold vfs_seek.
  apply bind_Panic. apply start_op_wp; [apply (at_pos_idle _ _ _ _ Hid) .. |]. cbn [Z.eqb negb VFS_OK].
  unfold kassert, mbind, K_bind. rewrite (proj2 (Z.leb_gt 0 _)) by lia. done.
Qed.
End elf_spec.

(** ** Witness *)

(** A filesystem that is one file in memory. *)
Record memfs := mk_memfs { mf_file : bytes }.

#[export] Instance memfs_driver : Filesystems memfs := {|
  fs_unmount _ := mret 0;
  fs_open _ _ := mret 0;
  fs_close _ _ := mret 0;
  fs_read _ _ _ buf n off := λ f,
    let m := Z.min n (Z.of_nat (length (mf_file f)) - off) in
    Ok (m, take (Z.to_nat m) (drop (Z.to_nat off) (mf_file f)) ++ drop (Z.to_nat m) buf, f);
  fs_write _ _ _ data n off := λ f,
    let m := Z.min n (Z.of_nat (length (mf_file f)) - off) in
    Ok (m, mk_memfs (splice (Z.to_nat off) (take (Z.to_nat m) data) (mf_file f)));
  fs_create _ _ _ := mret (-1);
  fs_remove _ _ := mret (-1);
  fs_getfree _ := mret 0;
  fs_volume_name _ _ := [];
  fs_init _ := mret NULL;
|}.

#[export] Program Instance memfs_store : FileStore memfs := {|
  fs_ok f := Z.of_nat (length (mf_file f)) < 2 ^ 31;
  fs_reliable _ := True;
  file_at f _ _ c := mf_file f = c;
|}.
Next Obligation. simpl. intros f _ _ c Hok <-. exact Hok. Qed.
Next Obligation. simpl. intros f h id c baddr buf n off Hok <- Hn Hoff. split_and!; try done. by right. Qed.
Next Obligation.
  simpl. intros f h id c baddr buf n off Hok <- Hn Hoff. split_and!; try done; cbn [fst snd]; try lia.
  rewrite length_app, length_take, !length_drop. lia.
Qed.
Next Obligation.
  simpl. intros f h id c baddr data n off Hok <- Hn Hb Hoff. unfold wp, fs_write. cbn [memfs_driver mf_file].
  assert (Hl : length (take (Z.to_nat (Z.min n (Z.of_nat (length (mf_file f)) - off))) data) = Z.to_nat (Z.min n (Z.of_nat (length (mf_file f)) - off)))
    by (rewrite length_take; lia).
  split_and!; [rewrite splice_length; lia | done |]. right. done.
Qed.

(** Code of 4 bytes at page 1 and data of 2 bytes at page 3, with 4 more to be
    zeroed. *)
Definition example_exec_file : bytes :=
  [127; 69; 76; 70; 1; 2; 1] ++ replicate 9 0 ++ [0; 2; 0; 8] ++ bytes32 1 ++ bytes32 0x1000 ++ bytes32 52 ++ bytes32 0 ++ bytes32 0 ++
  [0; 52; 0; 32; 0; 2; 0; 0; 0; 0; 0; 0] ++
  (bytes32 1 ++ bytes32 116 ++ bytes32 0x1000 ++ bytes32 0 ++ bytes32 4 ++ bytes32 4 ++ bytes32 5 ++ bytes32 0) ++
  (bytes32 1 ++ bytes32 120 ++ bytes32 0x3000 ++ bytes32 0 ++ bytes32 2 ++ bytes32 6 ++ bytes32 6 ++ bytes32 0) ++
  [1; 2; 3; 4; 8; 9].

(** A system with one open file, at its start. *)
Definition example_one_open : vfs :=
  mk_vfs (Some 1) (replicate 8 (mk_entry NULL (replicate 16 0)))
    (Some 1) (mk_openfile 1 3 0 :: replicate 511 (mk_openfile NULL 0 0)) (Some 1) (Some 0) 0 true.

Lemma example_one_idle : idle example_one_open.
Proof. by constructor. Qed.

Lemma example_one_at : open_at example_one_open 0 (mk_openfile 1 3 0).
Proof. by split_and!. Qed.

Lemma elf_parse_spec_witness :
  ∃ x', elf_parse_header 0x9000 0x9100 0 (replicate 52 0) (replicate 32 0) (example_one_open, mk_memfs example_exec_file) =
    Ok (Some (mk_elf 0x1000 116 4 1 0x1000 120 2 1 0x3000), x').
Proof.
  destruct (elf_parse_spec 0x9000 0x9100 example_one_open (mk_memfs example_exec_file) 0 (mk_openfile 1 3 0) example_exec_file
    (replicate 52 0) (replicate 32 0) example_one_idle example_one_at) as [Hrun _]; try reflexivity; try exact I; try discriminate.
  - apply (bool_decide_unpack _). vm_compute. exact I.
  - destruct Hrun as (x' & Hx & _); [intros _; apply (bool_decide_unpack _); vm_compute; exact I |].
    exists x'. exact Hx.
Defined.
