(* ===== verification/UserMem.v ===== *)
(** * User memory, as the kernel reaches it

    The kernel reads and writes the memory of a process through its virtual
    addresses.  What the hardware does with an address is written out here: an
    address below 0x80000000 or from 0xc0000000 on goes through the TLB, which
    the handlers of [Vm] fill from the page table of the current thread; a store
    to a page that is not writable ends in [tlb_modified_exception].  The
    addresses between are the unmapped segments of the kernel: they are physical
    memory, whatever the page table says.  Memory is the bytes of the physical
    pages; what pages that are not in it hold is not modelled. *)

From S2P Require Import Prelude Bitmap Kmalloc Pagepool Vm Libc.
Local Open Scope Z_scope.

(** The unmapped segments, and the physical address. *)
Definition unmapped (va : Z) : bool := (0x80000000 <=? u32 va) && (u32 va <? 0xc0000000).
Definition direct (va : Z) : Z := Z.land (u32 va) 0x1fffffff.

(** The physical page of a virtual address, and the offset in it. *)
Definition touch (pt : pagetable) (store : bool) (va : Z) : res (Z * Z) :=
  if unmapped va then Ok (direct va / PAGE_SIZE, direct va mod PAGE_SIZE)
  else
    r ← (if store then tlb_store_exception else tlb_load_exception) false (miss_at va (pt_ASID pt)) (Some pt);
    match r with
    | Resume e =>
        match translate e (pt_ASID pt mod 2 ^ 8) va with
        | Some (pa, w) =>
            if store && negb w then tlb_modified_exception false;; Undef
            else Ok (pa / PAGE_SIZE, pa mod PAGE_SIZE)
        | None => NoFuel
        end
    | Finish _ => Undef
    end.

Definition load_byte (pt : pagetable) (mem : gmap Z bytes) (va : Z) : res Z :=
  '(q, off) ← touch pt false va;
  match mem !! q with Some b => aget b off | None => Undef end.

Definition store_byte (pt : pagetable) (mem : gmap Z bytes) (va x : Z) : res (gmap Z bytes) :=
  '(q, off) ← touch pt true va;
  match mem !! q with
  | Some b => b ← aset b off x; Ok (<[q := b]> mem)
  | None => Undef
  end.

Fixpoint uload (pt : pagetable) (mem : gmap Z bytes) (n : nat) (va : Z) : res bytes :=
  match n with
  | O => Ok []
  | S n' => b ← load_byte pt mem va; l ← uload pt mem n' (va + 1); Ok (b :: l)
  end.

Fixpoint ustore (pt : pagetable) (mem : gmap Z bytes) (l : bytes) (va : Z) : res (gmap Z bytes) :=
  match l with
  | [] => Ok mem
  | x :: l' => mem ← store_byte pt mem va x; ustore pt mem l' (va + 1)
  end.

(** ** The memory of a process as a map *)

Definition ubyte (pt : pagetable) (mem : gmap Z bytes) (va : Z) : option Z :=
  '(q, _) ← pt_lookup pt (va / PAGE_SIZE);
  b ← mem !! q;
  b !! Z.to_nat (va mod PAGE_SIZE).

(** No two pages share a frame, and the frames are there. *)
Record space_ok (pt : pagetable) (mem : gmap Z bytes) : Prop := {
  sp_wf : pt_wf pt;
  sp_inj w w' q d d' : pt_lookup pt w = Some (q, d) → pt_lookup pt w' = Some (q, d') → w = w';
  sp_mem w q d : pt_lookup pt w = Some (q, d) → ∃ b, mem !! q = Some b ∧ length b = 4096%nat;
}.

(** The page of an address is mapped, and writable. *)
Definition can_load (pt : pagetable) (va : Z) : Prop := is_Some (pt_lookup pt (va / PAGE_SIZE)).
Definition can_store (pt : pagetable) (va : Z) : Prop := ∃ q, pt_lookup pt (va / PAGE_SIZE) = Some (q, 1).

Lemma user_mapped va : 0 ≤ va < 2 ^ 31 → unmapped va = false.
Proof. intros Hva. unfold unmapped. rewrite u32_small by (unfold is_u32; lia). apply andb_false_iff. left. apply Z.leb_gt. lia. Qed.

Lemma touch_Ok pt store va q d :
  pt_wf pt → 0 ≤ va < 2 ^ 31 → pt_lookup pt (va / PAGE_SIZE) = Some (q, d) → (store = true → d = 1) →
  touch pt store va = Ok (q, va mod PAGE_SIZE).
Proof.
  intros Hwf Hva Hl Hd. unfold touch. rewrite user_mapped by done.
  destruct (tlb_access_mapped false pt va (pt_ASID pt) q d Hwf Hl) as (e & He & _ & Ht & _).
  assert (Hr : (if store then tlb_store_exception else tlb_load_exception) false (miss_at va (pt_ASID pt)) (Some pt) = Ok (Resume e))
    by (by destruct store). rewrite Hr. unfold mbind, res_bind. rewrite Ht.
  pose proof (Z.mod_pos_bound va PAGE_SIZE ltac:(done)). unfold PAGE_SIZE in *.
  rewrite Z.div_add_l, (Z.div_small (va mod 4096)), Z.add_0_r by lia.
  rewrite Z.add_comm, Z.mod_add, Z.mod_mod by lia.
  destruct store; [rewrite Hd by done |]; done.
Qed.

Lemma load_byte_Ok pt mem va :
  space_ok pt mem → 0 ≤ va < 2 ^ 31 → can_load pt va → ∃ b, load_byte pt mem va = Ok b ∧ ubyte pt mem va = Some b.
Proof.
  intros Hsp Hva [[q d] Hl]. destruct (sp_mem _ _ Hsp _ _ _ Hl) as (bs & Hb & Hlen).
  pose proof (Z.mod_pos_bound va PAGE_SIZE ltac:(done)). unfold PAGE_SIZE in *.
  destruct (aget_total bs (va mod 4096)) as (b & Hg & Hbs); [lia |].
  exists b. unfold load_byte, ubyte. rewrite (touch_Ok pt false va q d (sp_wf _ _ Hsp) Hva Hl) by done.
  unfold mbind, res_bind, option_bind. unfold PAGE_SIZE. rewrite Hl, Hb. done.
Qed.

Lemma uload_Ok pt mem n : ∀ va,
  space_ok pt mem → 0 ≤ va → va + Z.of_nat n ≤ 2 ^ 31 → (∀ v, va ≤ v < va + Z.of_nat n → can_load pt v) →
  ∃ l, uload pt mem n va = Ok l ∧ length l = n ∧ ∀ i, (i < n)%nat → l !! i = ubyte pt mem (va + Z.of_nat i).
Proof.
  induction n as [|n IH]; intros va Hsp Hva Hle Hcan; cbn [uload]; [exists []; split_and!; [done | done | lia] |].
  destruct (load_byte_Ok pt mem va Hsp) as (b & -> & Hb); [lia | apply Hcan; lia |].
  destruct (IH (va + 1) Hsp) as (l & Hl & Hlen & Hi); [lia | lia | intros v Hv; apply Hcan; lia |].
  exists (b :: l). unfold mbind, res_bind. rewrite Hl. split_and!; [done | by simpl; rewrite Hlen |].
  intros [|i] Hi'; [by rewrite Z.add_0_r |]. simpl. rewrite Hi by lia. f_equal. lia.
Qed.

(** Two addresses with the same page and offset are equal. *)
Lemma addr_split va v : va / PAGE_SIZE = v / PAGE_SIZE → Z.to_nat (va mod PAGE_SIZE) = Z.to_nat (v mod PAGE_SIZE) → va = v.
Proof.
  intros Hd Hm. pose proof (Z.mod_pos_bound va PAGE_SIZE ltac:(done)). pose proof (Z.mod_pos_bound v PAGE_SIZE ltac:(done)).
  rewrite (Z.div_mod va PAGE_SIZE), (Z.div_mod v PAGE_SIZE) by done. rewrite Hd. f_equal. lia.
Qed.

(** The frames of the process. *)
Definition owns (pt : pagetable) (q : Z) : Prop := ∃ w d, pt_lookup pt w = Some (q, d).

Lemma store_byte_Ok pt mem va x :
  space_ok pt mem → 0 ≤ va < 2 ^ 31 → can_store pt va →
  ∃ mem', store_byte pt mem va x = Ok mem' ∧ space_ok pt mem' ∧
    (∀ v, ubyte pt mem' v = if decide (v = va) then Some x else ubyte pt mem v) ∧
    (∀ q, ¬ owns pt q → mem' !! q = mem !! q).
Proof.
  intros Hsp Hva [q Hl]. destruct (sp_mem _ _ Hsp _ _ _ Hl) as (bs & Hb & Hlen).
  pose proof (Z.mod_pos_bound va PAGE_SIZE ltac:(done)) as Hm.
  exists (<[q := <[Z.to_nat (va mod PAGE_SIZE) := x]> bs]> mem). unfold store_byte.
  rewrite (touch_Ok pt true va q 1 (sp_wf _ _ Hsp) Hva Hl) by done. unfold mbind, res_bind. rewrite Hb.
  rewrite aset_Ok by (rewrite Hlen; unfold PAGE_SIZE in *; lia). split_and!; [done | | |].
  - constructor; [apply Hsp | apply Hsp |]. intros w q' d Hw. destruct (decide (q' = q)) as [->|Hne].
    + rewrite lookup_insert_eq. eexists. split; [done |]. by rewrite length_insert.
    + rewrite lookup_insert_ne by done. by apply (sp_mem _ _ Hsp w q' d).
  - intros v. unfold ubyte. destruct (pt_lookup pt (v / PAGE_SIZE)) as [[q' d]|] eqn:Hv; cbn [mbind option_bind].
    2: { rewrite decide_False; [done |]. intros ->. congruence. }
    destruct (decide (q' = q)) as [->|Hne].
    + rewrite lookup_insert_eq, Hb. cbn [mbind option_bind].
      pose proof (sp_inj _ _ Hsp _ _ _ _ _ Hl Hv) as Hw. case_decide as Heq.
      * subst v. rewrite list_lookup_insert_eq; [done |]. rewrite Hlen. unfold PAGE_SIZE in *. lia.
      * rewrite list_lookup_insert_ne; [done |]. intros E. apply Heq. symmetry. by apply addr_split.
    + rewrite lookup_insert_ne by done. rewrite decide_False; [done |]. intros ->. congruence.
  - intros r Hr. rewrite lookup_insert_ne; [done |]. intros <-. apply Hr. by exists (va / PAGE_SIZE), 1.
Qed.

Lemma ustore_Ok pt l : ∀ mem va,
  space_ok pt mem → 0 ≤ va → va + Z.of_nat (length l) ≤ 2 ^ 31 → (∀ v, va ≤ v < va + Z.of_nat (length l) → can_store pt v) →
  ∃ mem', ustore pt mem l va = Ok mem' ∧ space_ok pt mem' ∧
    (∀ v, ubyte pt mem' v = if decide (va ≤ v < va + Z.of_nat (length l)) then l !! Z.to_nat (v - va) else ubyte pt mem v) ∧
    (∀ q, ¬ owns pt q → mem' !! q = mem !! q).
Proof.
  induction l as [|x l IH]; intros mem va Hsp Hva Hle Hcan; cbn [ustore].
  { exists mem. split_and!; try done. intros v. rewrite decide_False by (simpl; lia). done. }
  cbn [length] in Hle, Hcan |- *.
  destruct (store_byte_Ok pt mem va x Hsp) as (mem1 & -> & Hsp1 & Hu1 & Hk1); [lia | apply Hcan; lia |].
  destruct (IH mem1 (va + 1) Hsp1) as (mem2 & Hs & Hsp2 & Hu2 & Hk2); [lia | lia | intros v Hv; apply Hcan; lia |].
  exists mem2. unfold mbind, res_bind. rewrite Hs. split_and!; [done | done | |].
  - intros v. rewrite Hu2, Hu1. destruct (decide (v = va)) as [->|Hne].
    + rewrite decide_False by lia. rewrite decide_True by lia. by rewrite Z.sub_diag.
    + destruct (decide (va + 1 ≤ v < va + 1 + Z.of_nat (length l))).
      * rewrite decide_True by lia. replace (Z.to_nat (v - va)) with (S (Z.to_nat (v - (va + 1)))) by lia. done.
      * by rewrite decide_False by lia.
  - intros q Hq. rewrite Hk2, Hk1 by done. done.
Qed.
