(* ===== verification/Fork.v ===== *)
(** * Forking a process (src/buenos/proc/process.c, [process_fork] and
      [process_fork_setup])

    The parent fills in a slot of the process table, starts a thread and waits
    on a semaphore; the new thread copies the parent's page table page by page
    and enters userland with the parent's registers.  Besides the kernel of
    [Process] the state has the semaphores, the physical pages, the contexts
    that [user_context] of a thread points to, and the frames of
    [process_fork] on the kernel stacks, which the new thread reads. *)

From S2P Require Import Prelude Bitmap Kmalloc Pagepool Vm Sched SchedSpec Semaphore Libc Process.
Local Open Scope Z_scope.

Definition MIPS_REGISTER_V0 : Z := 1.

(** [context_t] *)
Record ucontext := mk_uctx { cpu_regs : list Z; uc_hi : Z; uc_lo : Z; uc_pc : Z; uc_status : Z; uc_prev : Z }.

(** [fork_arg_t]; the semaphore is its index, [None] for a null pointer. *)
Record fork_arg := mk_fork_arg { pid_child : Z; sem_wait : option Z }.

Section fork.
Context {P : Type} `{PageAlloc P}.
(** The addresses of [semaphore_table], [process_fork_setup], the thread
    stacks, [thread_finish] and of [fork_arg] in the frame of a thread; and
    what an unwritten page holds. *)
Context (sems_addr setup_addr stacks finish_addr : Z) (frame : Z → Z) (garbage : Z → list tlb_entry).

Record fstate := mk_fstate {
  f_kern : @kern P;
  f_sem_table : list semaphore;
  f_sem_next : Z;
  f_mem : gmap Z bytes;
  f_ctx : gmap Z ucontext;
  f_args : gmap Z fork_arg;
}.

Definition with_kern (k : @kern P) (s : fstate) : fstate :=
  mk_fstate k (f_sem_table s) (f_sem_next s) (f_mem s) (f_ctx s) (f_args s).
Definition with_mem (m : gmap Z bytes) (s : fstate) : fstate :=
  mk_fstate (f_kern s) (f_sem_table s) (f_sem_next s) m (f_ctx s) (f_args s).

Definition in_k {A} (m : K (@kern P) A) : K fstate A := zoom f_kern with_kern m.

(** The semaphores and the scheduler they put threads to sleep with. *)
Definition f_sems (s : fstate) : @sems sched := mk_sems (f_sem_table s) (f_sem_next s) (k_sched (f_kern s)).
Definition with_sems (x : @sems sched) (s : fstate) : fstate :=
  mk_fstate (mk_kern (process_table (f_kern s)) (sq x) (k_vm (f_kern s))) (semaphore_table x) (sem_next x)
    (f_mem s) (f_ctx s) (f_args s).
Definition in_sems {A} (m : K (@sems sched) A) : K fstate A := zoom f_sems with_sems m.

(** [memcopy] of a physical page to another, through their kernel addresses. *)
Definition copy_phys (to from : Z) : K fstate unit :=
  s ← gets id;
  match f_mem s !! (to / PAGE_SIZE), f_mem s !! (from / PAGE_SIZE) with
  | Some t, Some f =>
      b ← pure (memcopy (ADDR_PHYS_TO_KERNEL to) (ADDR_PHYS_TO_KERNEL from) PAGE_SIZE t f);
      modify (with_mem (<[to / PAGE_SIZE := b]> (f_mem s)))
  | _, _ => pure Undef
  end.

(** The body of the [if (tlb_parent.V0)] and of the [if (tlb_parent.V1)]. *)
Definition copy_page (cpu vaddr dirty pfn : Z) : K fstate unit :=
  phys_page ← in_k (on_vm (on_pool get_phys_page));
  kassert (negb (phys_page =? 0));;
  in_k (map_current cpu phys_page vaddr dirty);;
  copy_phys phys_page (u32 (Z.shiftl pfn 12)).

(** One turn of the loop over the entries of the parent's page table, at
    address [parent_table]. *)
Definition copy_entry (cpu parent_table i : Z) : K fstate unit :=
  s ← gets id;
  match snd (k_vm (f_kern s)) !! parent_table with
  | None => pure Undef
  | Some pt =>
      e ← pure (aget (entries pt) i);
      (if V0 e =? 1 then copy_page cpu (u32 (Z.shiftl (VPN2 e) 13)) (D0 e) (PFN0 e) else mret tt);;
      (if V1 e =? 1 then copy_page cpu (Z.lor (u32 (Z.shiftl (VPN2 e) 13)) PAGE_SIZE) (D1 e) (PFN1 e) else mret tt)
  end.

(** What the new thread does up to [thread_goto_userland]; the result is the
    context it enters userland with. *)
Definition process_fork_setup (cpu arg : Z) : K fstate ucontext :=
  s ← gets id;
  match f_args s !! arg with
  | None => pure Undef
  | Some a =>
      let pid := pid_child a in
      t ← in_k (on_sched (get_current cpu));
      in_k (on_sched (set_thread t (λ th,
        mk_thread (th_context th) (th_ctx th) (user_context th) (state th) (sleeps_on th) (th_pagetable th) pid (next th))));;
      th ← in_k (on_sched (get_thread t));
      kassert (th_pagetable th =? 0);;
      pagetable ← in_k (on_vm (vm_create_pagetable garbage t));
      kassert (negb (pagetable =? 0));;
      in_k (on_sched (set_thread t (λ th,
        mk_thread (th_context th) (th_ctx th) (user_context th) (state th) (sleeps_on th) pagetable (process_id th) (next th))));;
      me ← in_k (process_get_current_process cpu);
      p ← in_k (get_pcb me);
      s ← gets id;
      parent_entry ← pure (thread_get_thread_entry_by_pid (parent p) (k_sched (f_kern s)));
      match parent_entry with
      | None => pure Undef
      | Some u =>
          entry_parent ← in_k (on_sched (get_thread u));
          match snd (k_vm (f_kern s)) !! th_pagetable entry_parent with
          | None => pure Undef
          | Some pt =>
              for_each (Z.to_nat (valid_count pt)) 0 (copy_entry cpu (th_pagetable entry_parent));;
              s ← gets id;
              match f_ctx s !! user_context entry_parent with
              | None => pure Undef
              | Some c =>
                  regs ← pure (aset (cpu_regs c) MIPS_REGISTER_V0 0);
                  match sem_wait a with
                  | None => pure Undef
                  | Some k => in_sems (semaphore_V sems_addr k)
                  end;;
                  mret (mk_uctx regs (uc_hi c) (uc_lo c) (u32 (uc_pc c + 4)) (uc_status c) (uc_prev c))
              end
          end
      end
  end.

(** The parent; it returns when the child has woken it up.  The [memcopy] of
    all [CONFIG_MAX_OPEN_FILES] words of one [files] array to another is the
    assignment of the array. *)
Definition process_fork (cpu : Z) : K fstate Z :=
  pid_child ← in_k alloc_process_id;
  if pid_child =? PROCESS_MAX_PROCESSES then mret PROCESS_PTABLE_FULL
  else
    pid_parent ← in_k (process_get_current_process cpu);
    child ← in_k (get_pcb pid_child);
    par ← in_k (get_pcb pid_parent);
    x ← pure (stringcopy (executable child) (executable par) PROCESS_MAX_FILELENGTH);
    in_k (put_pcb pid_child (set_executable x));;
    in_k (put_pcb pid_child (set_parent pid_parent));;
    in_k (put_pcb pid_child (set_heap_end (heap_end par)));;
    in_k (put_pcb pid_child (set_pfiles (pfiles par)));;
    sem ← in_sems (semaphore_create cpu 0);
    t ← in_k (on_sched (get_current cpu));
    modify (λ s, mk_fstate (f_kern s) (f_sem_table s) (f_sem_next s) (f_mem s) (f_ctx s)
                  (<[frame t := mk_fork_arg pid_child sem]> (f_args s)));;
    thread ← in_k (on_sched (thread_create stacks finish_addr setup_addr (frame t)));
    if thread <? 0 then mret PROCESS_TTABLE_FULL
    else
      in_k (on_sched (thread_run thread));;
      match sem with
      | None => pure Undef
      | Some k => in_sems (semaphore_P sems_addr cpu k)
      end;;
      mret pid_child.

End fork.
