(* ===== verification/ForkSpec.v ===== *)
(** * What forking promises

    The child starts with a copy of the parent's address space on pages of its
    own and with the parent's registers. *)

From S2P Require Import Prelude Bitmap Kmalloc Pagepool Vm Sched SchedSpec Semaphore Libc Process ProcessSpec Fork.
Local Open Scope Z_scope.

(** ** The pages of a table *)

(** The pages an entry maps: virtual page, frame and permission. *)
Definition jobs (e : tlb_entry) : list (Z * Z * Z) :=
  (if V0 e =? 1 then [(2 * VPN2 e, PFN0 e, D0 e)] else []) ++
  (if V1 e =? 1 then [(2 * VPN2 e + 1, PFN1 e, D1 e)] else []).

Definition all_jobs (es : list tlb_entry) : list (Z * Z * Z) := concat (jobs <$> es).

Lemma jobs_In e w q d : (w, q, d) ∈ jobs e ↔ w / 2 = VPN2 e ∧ half e (Z.odd w) = Some (q, d).
Proof.
  unfold jobs, half. rewrite elem_of_app. split.
  - intros [Hin|Hin]; [destruct (Z.eqb_spec (V0 e) 1) | destruct (Z.eqb_spec (V1 e) 1)];
      try (by apply not_elem_of_nil in Hin); apply list_elem_of_singleton in Hin; injection Hin as -> -> ->.
    + rewrite Z.mul_comm, Z.div_mul by lia. rewrite Z.odd_mul. by rewrite andb_false_r.
    + replace (2 * VPN2 e + 1) with (1 + VPN2 e * 2) by lia. rewrite Z.div_add by lia.
      rewrite Z.odd_add, Z.odd_mul, andb_false_r. done.
  - intros [Hw Hh]. pose proof (Z.div_mod w 2 ltac:(lia)) as Hdiv. rewrite Zmod_odd, Hw in Hdiv.
    destruct (Z.odd w); [right; destruct (Z.eqb_spec (V1 e) 1) | left; destruct (Z.eqb_spec (V0 e) 1)]; try done;
      injection Hh as <- <-; apply list_elem_of_singleton; repeat f_equal; lia.
Qed.

Lemma all_jobs_In es w q d : (w, q, d) ∈ all_jobs es ↔ ∃ e, e ∈ es ∧ w / 2 = VPN2 e ∧ half e (Z.odd w) = Some (q, d).
Proof.
  unfold all_jobs. rewrite list_elem_of_In, in_concat. setoid_rewrite <- list_elem_of_In. split.
  - intros (l & (e & -> & He)%list_elem_of_fmap & Hl). exists e. split; [done | by apply jobs_In].
  - intros (e & He & Hh). exists (jobs e). split; [by apply list_elem_of_fmap_2 | by apply jobs_In].
Qed.

(** The jobs of a table are the pages it maps. *)
Lemma pt_lookup_jobs pt w q d : pt_wf pt → pt_lookup pt w = Some (q, d) ↔ (w, q, d) ∈ all_jobs (used pt).
Proof.
  intros (_ & _ & _ & Hnd). rewrite all_jobs_In. unfold pt_lookup. split.
  - destruct (lookup_pair _ _) as [e|] eqn:He; [| done]. intros Hh.
    apply lookup_pair_Some in He as (k & Hk & Hv & _). exists e. split; [by eapply list_elem_of_lookup_2 | done].
  - intros (e & He & Hw & Hh). destruct (lookup_pair _ _) as [e'|] eqn:He'; [| by destruct (lookup_pair_None _ _ e He' He)].
    apply lookup_pair_Some in He' as (k & Hk & Hv & _). apply list_elem_of_lookup in He as [j Hj].
    assert (k = j) as ->; [| congruence]. eapply (NoDup_lookup (VPN2 <$> used pt)); [done | |];
      rewrite list_lookup_fmap; [rewrite Hk | rewrite Hj]; simpl; [done | congruence].
Qed.

Lemma half_page v : u32 (Z.shiftl v 13) = u32 (2 * v * 4096) ∧ (0 ≤ v < 2 ^ 19 → Z.lor (u32 (Z.shiftl v 13)) 4096 = (2 * v + 1) * 4096).
Proof.
  assert (Hs : Z.shiftl v 13 = 2 * v * 4096) by (rewrite Z.shiftl_mul_pow2 by lia; lia). split; [by rewrite Hs |].
  intros Hv. rewrite u32_small by (unfold is_u32; rewrite Hs; lia). rewrite <- Z.add_nocarry_lor; [lia |].
  change 4096 with (Z.shiftl 1 12). replace (Z.shiftl v 13) with (Z.shiftl (Z.shiftl v 1) 12) by (rewrite Z.shiftl_shiftl by lia; done).
  rewrite <- Z.shiftl_land. change 1 with (Z.ones 1) at 2. rewrite Z.land_ones by lia.
  rewrite (Z.shiftl_mul_pow2 v 1) by lia. by rewrite Z.mod_mul by lia.
Qed.

(** Taking fewer pages than are free leaves one. *)
Lemma free_left (X : gset Z) (l : list Z) n : length l = n → (n < size X)%nat → X ∖ list_to_set l ≠ ∅.
Proof.
  intros Hl Hn He. assert (Hsub : X ⊆ list_to_set l) by set_solver.
  apply subseteq_size in Hsub. assert (size (list_to_set (C := gset Z) l) ≤ length l)%nat; [| lia].
  clear. induction l as [|x l IH]; [by rewrite list_to_set_nil, size_empty |]. rewrite list_to_set_cons. cbn [length].
  destruct (decide (x ∈ (list_to_set l : gset Z))) as [Hx|Hx]; [rewrite subseteq_union_1_L by set_solver; lia |].
  rewrite size_union by set_solver. rewrite size_singleton. lia.
Qed.

Section fork_spec.
Context {P : Type} `{PageAlloc P}.
Abbreviation fst_t := (@fstate P).

Lemma in_k_wp {A} (m : K (@kern P) A) (s : fst_t) (Q : A → fst_t → Prop) :
  wp m (λ a x, Q a (with_kern x s)) (f_kern s) → wp (in_k m) Q s.
Proof. intros Hm. by apply wp_zoom. Qed.

Lemma copy_phys_wp (s : fst_t) q r t f (Q : unit → fst_t → Prop) :
  f_mem s !! q = Some t → f_mem s !! r = Some f → length t = 4096%nat → length f = 4096%nat →
  Q tt (with_mem (<[q := f]> (f_mem s)) s) → wp (copy_phys (q * PAGE_SIZE) (r * PAGE_SIZE)) Q s.
Proof.
  intros Ht Hf Hlt Hlf HQ. unfold copy_phys. do 2 wp_step. unfold id, PAGE_SIZE. rewrite !Z.div_mul by lia. rewrite Ht, Hf.
  wp_step. eapply wp_pure; [apply (memcopy_Ok _ _ 4096); lia |]. cbv beta.
  assert (Hs : splice 0 (take 4096 f) t = f).
  { unfold splice. rewrite take_0, length_take, (take_ge f), (drop_ge t) by lia. by rewrite app_nil_r. }
  rewrite Hs. by wp_step.
Qed.

(** The state after the pages [done] have been copied, from the state [s0]
    with an empty table at [a]; the new table uses at most [n] entries. *)
Definition copied (s0 : fst_t) (a : Z) (done : list (Z * Z * Z)) (n : Z) (s : fst_t) : Prop :=
  let free0 := free_pages (fst (k_vm (f_kern s0))) in
  ∃ pool ptc mem pages,
    s = with_mem mem (with_kern (with_vm (f_kern s0) a pool ptc) s0) ∧
    alloc_inv pool ∧ pt_wf ptc ∧ valid_count ptc ≤ n ∧
    (length pages = length done ∧ NoDup pages ∧ (∀ q, q ∈ pages → q ∈ free0) ∧ free_pages pool = free0 ∖ list_to_set pages) ∧
    (∀ j w q d p, done !! j = Some (w, q, d) → pages !! j = Some p →
       pt_lookup ptc w = Some (p, d) ∧ mem !! p = f_mem s0 !! q) ∧
    (∀ w, (∀ q d, (w, q, d) ∉ done) → pt_lookup ptc w = None) ∧
    (∀ q, q ∉ free0 → mem !! q = f_mem s0 !! q) ∧
    (∀ q, q ∈ free0 → ∃ b, mem !! q = Some b ∧ length b = 4096%nat).

(** A page of the parent that can be copied: its frame is not free. *)
Record page_ok (s0 : fst_t) (w q d : Z) : Prop := {
  po_vpn : 0 ≤ w < 2 ^ 20;
  po_pfn : 0 ≤ q < 2 ^ 20;
  po_bit : is_bit d;
  po_taken : q ∉ free_pages (fst (k_vm (f_kern s0)));
  po_mem : ∃ b, f_mem s0 !! q = Some b ∧ length b = 4096%nat;
}.

Lemma copy_page_wp s0 s cpu t pid a done n n' w q d :
  kern_ok (f_kern s0) → runs (f_kern s0) cpu t pid → th_pagetable (th (k_sched (f_kern s0)) t) = a →
  copied s0 a done n s → page_ok s0 w q d → (∀ q' d', (w, q', d') ∉ done) →
  (length done < size (free_pages (fst (k_vm (f_kern s0)))))%nat →
  ((∃ w' q' d', (w', q', d') ∈ done ∧ w' / 2 = w / 2) ∧ n' = n) ∨ (n < PAGETABLE_ENTRIES ∧ n' = n + 1) →
  wp (copy_page cpu (w * 4096) d q) (λ _ s', copied s0 a (done ++ [(w, q, d)]) n' s') s.
Proof.
  intros Hok Hr Ha (pool & ptc & mem & pages & -> & Hpool & Hwf & Hvc & (Hlen & Hnd & Hin & Hfree) & Hdone & Hnone & Hkeep & Hfr)
    [Hw Hq Hd Htaken [bq [Hbq Hbl]]] Hnew Hroom Hn.
  unfold copy_page. wp_step. apply in_k_wp. unfold on_vm, on_pool. do 2 wp_step. cbn [f_kern with_mem with_kern k_vm with_vm fst snd].
  eapply wp_mono; [by apply get_phys_page_spec |]. intros phys pool2 (Hp2 & _ & Hres). cbn [process_table k_sched fst snd].
  destruct Hres as [(_ & Hempty & _)|(p & -> & Hp & Hfree2)].
  { rewrite Hfree in Hempty. by destruct (free_left _ pages _ Hlen Hroom). }
  pose proof (managed_range pool p Hpool (free_pages_managed _ _ Hpool Hp)) as Hpr. rewrite Hfree in Hp.
  apply elem_of_difference in Hp as [Hp0 Hpn]. rewrite elem_of_list_to_set in Hpn.
  wp_step. wp_step; [apply negb_true_iff, Z.eqb_neq; unfold PAGE_SIZE; lia |].
  wp_step. apply in_k_wp. cbn [f_kern with_kern with_mem].
  set (k1 := mk_kern _ _ _). assert (Hk1 : k1 = with_vm (f_kern s0) a pool2 ptc) by done.
  apply (map_current_wp k1 cpu t pid ptc); [exact (kern_ok_vm _ _ Hok) | exact (runs_vm _ _ _ _ _ Hr) | by rewrite Hk1; simpl; rewrite Ha, lookup_insert_eq |].
  assert (Hdivw : w * 4096 / 4096 = w) by (by apply Z.div_mul). assert (Hdivp : p * PAGE_SIZE / 4096 = p) by (by apply Z.div_mul).
  assert (Hpair : (∃ w' q' d', (w', q', d') ∈ done ∧ w' / 2 = w / 2) → is_Some (lookup_pair (used ptc) (w / 2))).
  { intros (w' & q' & d' & Hin' & <-). apply list_elem_of_lookup in Hin' as [j Hj].
    destruct (lookup_lt_is_Some_2 pages j) as [p' Hp']; [rewrite Hlen; by eapply lookup_lt_Some |].
    destruct (Hdone j _ _ _ _ Hj Hp') as [Hl _]. unfold pt_lookup in Hl. by destruct (lookup_pair _ _). }
  eapply wp_mono; [apply vm_map_count_wp; [done | unfold is_u32, PAGE_SIZE; lia | unfold is_u32; lia | done |] |].
  { rewrite Hdivw. split; [by apply Hnone |]. destruct Hn as [[Hex _]|[Hlt _]]; [left; by apply Hpair | right; lia]. }
  intros [] pt2 (Hwf2 & _ & Hvc2 & Hlk2). rewrite Hdivw in Hvc2. rewrite Hdivw, Hdivp in Hlk2.
  assert (Hs : u32 (Z.shiftl q 12) = q * PAGE_SIZE).
  { rewrite Z.shiftl_mul_pow2 by lia. apply u32_small. unfold is_u32, PAGE_SIZE. lia. }
  rewrite Hs. destruct (Hfr p Hp0) as [bp [Hbp Hbpl]].
  apply (copy_phys_wp _ p q bp bq); [done | cbn; by rewrite Hkeep | done | done |].
  assert (Hpq : p ≠ q) by (by intros ->). cbn [f_mem with_kern with_mem].
  exists pool2, pt2, (<[p := bq]> mem), (pages ++ [p]). split_and!; try done.
  - unfold with_mem, with_kern, with_vm, k1. cbn. rewrite Ha. by rewrite insert_insert_eq.
  - rewrite Hvc2. destruct Hn as [[Hex ->]|[_ ->]]; [destruct (Hpair Hex) as [e ->]; lia | destruct (lookup_pair _ _); lia].
  - rewrite !length_app. simpl. lia.
  - apply NoDup_app. split; [done |]. split; [| apply NoDup_singleton]. intros r Hr' ->%list_elem_of_singleton. done.
  - intros r [Hr'| ->%list_elem_of_singleton]%elem_of_app; [by apply Hin | done].
  - rewrite Hfree2, Hfree, list_to_set_app_L, (list_to_set_singleton_L p). by rewrite difference_difference_l_L.
  - intros j w1 q1 d1 p1 Hj Hp1. rewrite Hlk2. apply lookup_app_Some in Hj as [Hj|[Hge Hj]].
    + pose proof (lookup_lt_Some _ _ _ Hj) as Hlt. rewrite lookup_app_l in Hp1 by lia.
      destruct (Hdone j _ _ _ _ Hj Hp1) as [Hl Hm]. rewrite (proj2 (Z.eqb_neq w1 w)).
      * split; [done |]. rewrite lookup_insert_ne; [done |]. intros ->. apply Hpn. by eapply list_elem_of_lookup_2.
      * intros ->. apply (Hnew q1 d1). by eapply list_elem_of_lookup_2.
    + apply list_lookup_singleton_Some in Hj as [Hj [= <- <- <-]]. rewrite lookup_app_r in Hp1 by lia.
      rewrite Hlen, Hj in Hp1. injection Hp1 as <-. rewrite Z.eqb_refl, lookup_insert_eq. by rewrite Hbq.
  - intros w1 Hw1. rewrite Hlk2. rewrite (proj2 (Z.eqb_neq w1 w)).
    + apply Hnone. intros q1 d1 Hi. apply (Hw1 q1 d1), elem_of_app. by left.
    + intros ->. apply (Hw1 q d), elem_of_app. right. by apply list_elem_of_singleton.
  - intros r Hr'. rewrite lookup_insert_ne; [by apply Hkeep |]. by intros ->.
  - intros r Hr'. destruct (decide (r = p)) as [->|Hne]; [exists bq; by rewrite lookup_insert_eq |].
    rewrite lookup_insert_ne by done. by apply Hfr.
Qed.

Lemma copied_table s0 a done n s pa pt :
  copied s0 a done n s → pa ≠ a → snd (k_vm (f_kern s0)) !! pa = Some pt → snd (k_vm (f_kern s)) !! pa = Some pt.
Proof. intros (pool & ptc & mem & pages & -> & _) Hne Hpt. simpl. by rewrite lookup_insert_ne. Qed.

(** One entry of the parent's table. *)
Lemma copy_entry_wp s0 s cpu t pid a pa pt es i e :
  kern_ok (f_kern s0) → runs (f_kern s0) cpu t pid → th_pagetable (th (k_sched (f_kern s0)) t) = a →
  snd (k_vm (f_kern s0)) !! pa = Some pt → pa ≠ a → pt_wf pt →
  used pt !! i = Some e → es = take i (used pt) →
  (∀ w q d, pt_lookup pt w = Some (q, d) → page_ok s0 w q d) →
  (length (all_jobs (used pt)) ≤ size (free_pages (fst (k_vm (f_kern s0)))))%nat →
  copied s0 a (all_jobs es) (Z.of_nat i) s →
  wp (copy_entry cpu pa (Z.of_nat i)) (λ _ s', copied s0 a (all_jobs (es ++ [e])) (Z.of_nat i + 1) s') s.
Proof.
  intros Hok Hr Ha Hpt Hne Hwf Hi Hes Hpages Hsize Hc. pose proof Hwf as (_ & Hvc & Hall & Hnd).
  unfold copy_entry. do 2 wp_step. unfold id. rewrite (copied_table _ _ _ _ _ _ _ Hc Hne Hpt).
  pose proof Hi as [Hent Hlt]%used_lookup. wp_step.
  eapply wp_pure; [apply aget_Ok; split; [lia | rewrite Nat2Z.id; exact Hent] |]. cbv beta.
  destruct (Forall_lookup_1 _ _ _ _ Hall Hi) as (Hv & _ & _ & _ & _ & _).
  assert (Hjob : ∀ w q d, (w, q, d) ∈ jobs e → page_ok s0 w q d).
  { intros w q d Hin. apply Hpages, pt_lookup_jobs; [done |]. apply all_jobs_In. exists e.
    split; [by eapply list_elem_of_lookup_2 | by apply jobs_In]. }
  assert (Hfresh : ∀ w q d, w / 2 = VPN2 e → (w, q, d) ∉ all_jobs es).
  { intros w q d Hw (e' & He' & Hw' & _)%all_jobs_In. subst es.
    apply list_elem_of_lookup in He' as [j [Hj Hji]%lookup_take_Some].
    assert (j = i); [| lia]. eapply (NoDup_lookup (VPN2 <$> used pt)); [done | |]; rewrite list_lookup_fmap;
      [rewrite Hj | rewrite Hi]; simpl; [done | congruence]. }
  assert (Hlen : (length (all_jobs es) + length (jobs e) ≤ length (all_jobs (used pt)))%nat).
  { rewrite <- (take_drop_middle (used pt) i e Hi). subst es. unfold all_jobs.
    rewrite fmap_app, fmap_cons, concat_app. simpl. rewrite !length_app. lia. }
  assert (He2 : 2 * VPN2 e / 2 = VPN2 e) by (rewrite Z.mul_comm; by apply Z.div_mul).
  assert (He3 : (2 * VPN2 e + 1) / 2 = VPN2 e) by (replace (2 * VPN2 e + 1) with (1 + VPN2 e * 2) by lia; by rewrite Z.div_add by lia).
  destruct (half_page (VPN2 e)) as [Hh0 Hh1]. change PAGE_SIZE with 4096. rewrite (Hh1 Hv). rewrite Hh0, u32_small by (unfold is_u32; lia).
  assert (Hcat : all_jobs (es ++ [e]) = all_jobs es ++ jobs e).
  { unfold all_jobs. by rewrite fmap_app, concat_app, list_fmap_singleton, concat_cons, app_nil_r. }
  rewrite Hcat. unfold jobs in Hlen, Hjob |- *. unfold PAGETABLE_ENTRIES in Hvc.
  destruct (V0 e =? 1), (V1 e =? 1); cbn [app length] in *.
  - wp_step. eapply wp_mono; [apply (copy_page_wp s0 s cpu t pid a (all_jobs es) (Z.of_nat i) (Z.of_nat i + 1)); try done;
      [apply Hjob; set_solver | intros q d; by apply Hfresh | lia | right; unfold PAGETABLE_ENTRIES; lia] |].
    intros [] s1 Hc1. eapply wp_mono; [eapply (copy_page_wp s0 s1 cpu t pid a (all_jobs es ++ [(2 * VPN2 e, PFN0 e, D0 e)]) (Z.of_nat i + 1) (Z.of_nat i + 1)); try done |].
    + apply Hjob. set_solver.
    + intros q d [Hin|Hin%list_elem_of_singleton]%elem_of_app; [by apply (Hfresh _ _ _ He3 Hin) |]. injection Hin. lia.
    + rewrite length_app. simpl. lia.
    + left. split; [| done]. eexists _, _, _. split; [apply elem_of_app; right; by apply list_elem_of_singleton |]. congruence.
    + intros [] s2 Hc2. by rewrite <- app_assoc in Hc2.
  - wp_step. eapply wp_mono; [apply (copy_page_wp s0 s cpu t pid a (all_jobs es) (Z.of_nat i) (Z.of_nat i + 1)); try done;
      [apply Hjob; set_solver | intros q d; by apply Hfresh | lia | right; unfold PAGETABLE_ENTRIES; lia] |].
    intros [] s1 Hc1. by wp_step.
  - do 2 wp_step. apply (copy_page_wp s0 s cpu t pid a (all_jobs es) (Z.of_nat i) (Z.of_nat i + 1)); try done;
      [apply Hjob; set_solver | intros q d; by apply Hfresh | lia | right; unfold PAGETABLE_ENTRIES; lia].
  - do 3 wp_step. rewrite app_nil_r. destruct Hc as (pool & ptc & mem & pages & Hs & Hp & Hw & Hn & Hrest).
    exists pool, ptc, mem, pages. split_and!; try done; try apply Hrest. lia.
Qed.

End fork_spec.

(** ** The new thread *)

(** The first entry of the thread table with a process number. *)
Lemma by_pid_Ok s pid u :
  length (thread_table s) = 32%nat → slot u → process_id (th s u) = pid →
  (∀ v, 0 ≤ v < u → process_id (th s v) ≠ pid) → thread_get_thread_entry_by_pid pid s = Ok (Some u).
Proof.
  intros Hl Hu Hpid Hbelow. unfold thread_get_thread_entry_by_pid.
  match goal with |- context [for_ _ _ ?b] => set (body := b) end.
  assert (Hwp : wp (for_ (Z.to_nat CONFIG_MAX_THREADS) 0 body) (λ r s', r = Some u ∧ s' = s) s).
  { apply (wp_for (λ i s', s' = s ∧ i ≤ u)).
    - unfold slot in Hu. split; [done | lia].
    - intros i s1 Hi [-> Hle]. unfold CONFIG_MAX_THREADS in Hi. unfold body. wp_step. apply wp_get_thread; [done | unfold slot; lia |].
      wp_step. destruct (decide (i = u)) as [->|Hne]; [by rewrite Hpid, Z.eqb_refl |].
      rewrite (proj2 (Z.eqb_neq _ _)) by (apply Hbelow; lia). split; [done | lia].
    - intros s1 [-> Hle]. unfold slot, CONFIG_MAX_THREADS in *. lia. }
  apply wp_iff in Hwp as (r & s' & He & -> & ->). unfold mbind, res_bind. by rewrite He.
Qed.

(** [semaphore_V] leaves the threads' processes and page tables alone. *)
Lemma V_ids sems_addr i (s : @sems sched) : wlp (semaphore_V sems_addr i) (λ _ s', ids_same (sq s) (sq s')) s.
Proof.
  apply wlp_iff. intros [] s' He. unfold semaphore_V, get_sem, put_sem, mbind, K_bind, gets, pure, modify, id in He.
  destruct (aget (semaphore_table s) i) as [x| | | |]; try done.
  destruct (aset (semaphore_table s) i _) as [l| | | |]; try done. cbn [semaphore_table set_sem_table] in He.
  destruct (aget l i) as [y| | | |]; try done. destruct (value y <=? 0); [| by injection He as <-].
  unfold on_queue, zoom in He. cbn [sq set_sem_table] in He. change (sq_wake ?a) with (sleepq_wake a) in He.
  destruct (sleepq_wake (sem_addr sems_addr i) (sq s)) as [[[] q]| | | |] eqn:Hw; try done. injection He as <-. simpl.
  pose proof (keeps_sleepq_wake (sem_addr sems_addr i) (sq s)) as Hk. unfold wlp in Hk. by rewrite Hw in Hk.
Qed.

Section setup.
Context {P : Type} `{PageAlloc P}.
Context (sems_addr : Z).

(** [my_entry->process_id = pid] and [my_entry->pagetable = a] *)
Definition set_pid (pid : Z) (x : thread) : thread :=
  mk_thread (th_context x) (th_ctx x) (user_context x) (state x) (sleeps_on x) (th_pagetable x) pid (next x).
Definition set_pt (a : Z) (x : thread) : thread :=
  mk_thread (th_context x) (th_ctx x) (user_context x) (state x) (sleeps_on x) a (process_id x) (next x).

(** A running thread takes on a process and a page table. *)
Lemma adopt_sched (k : @kern P) cpu t me pid a (v : @tables P) :
  kern_ok k → runs k cpu t me →
  let k0 := mk_kern (process_table k) (upd t (set_pt a) (upd t (set_pid pid) (k_sched k))) v in
  kern_ok k0 ∧ runs k0 cpu t pid ∧ (∀ y, waiters (k_sched k0) y = waiters (k_sched k) y) ∧
  th (k_sched k0) t = set_pt a (set_pid pid (th (k_sched k) t)) ∧
  (∀ w, slot w → w ≠ t → th (k_sched k0) w = th (k_sched k) w).
Proof.
  intros Hok Hruns k0. pose proof (rn_tid _ _ _ _ Hruns) as Htid. pose proof (tid_slot _ Htid) as Hslot.
  destruct (other_field_inv (k_sched k) t (set_pid pid) (ko_sched _ Hok) Hslot) as (Hi1 & Hw1 & Hlk1 & Ht1); [done |].
  destruct (other_field_inv _ t (set_pt a) Hi1 Hslot) as (Hi2 & Hw2 & Hlk2 & Ht2); [done |].
  pose proof (ko_sched _ Hok) as [Hq _ _]. pose proof (q_len _ _ _ Hq) as Hlen. pose proof Hi1 as [Hq1 _ _].
  unfold k0. cbn [k_sched]. split_and!.
  - destruct Hok. by constructor.
  - destruct Hruns as [Hc Hcur _ Hso Hst _]. constructor; cbn [k_sched]; [done | done | done | | |].
    + rewrite (lk_so _ _ _ _ Hlk2), (lk_so _ _ _ _ Hlk1) by done. done.
    + rewrite (lk_st _ _ _ _ Hlk2), (lk_st _ _ _ _ Hlk1) by done. done.
    + by rewrite Ht2, Ht1.
  - intros y. by rewrite Hw2, Hw1.
  - by rewrite Ht2, Ht1.
  - intros w Hw Hne. unfold slot in Hw. apply q_len in Hq1.
    rewrite th_upd, (proj2 (Z.eqb_neq w t) Hne) by (done || lia).
    by rewrite th_upd, (proj2 (Z.eqb_neq w t) Hne) by (done || lia).
Qed.

(** A new thread [t] of process [pid] is about to copy from the thread [u] of
    its parent, which has page table [pt] and registers [c]: the first entry of
    the thread table with the parent's number is [u], the parent's pages are
    in memory and there are enough free pages. *)
Record child_ready (s : @fstate P) (cpu t arg pid j u : Z) (p : pcb) (pt : pagetable) (c : ucontext) (x : semaphore) : Prop := {
  cr_ok : kern_ok (f_kern s);
  cr_runs : ∃ me, runs (f_kern s) cpu t me;
  cr_new : th_pagetable (th (k_sched (f_kern s)) t) = 0;
  cr_arg : f_args s !! arg = Some (mk_fork_arg pid (Some j));
  cr_pid : 0 ≤ pid;
  cr_pcb : process_table (f_kern s) !! Z.to_nat pid = Some p;
  cr_other : parent p ≠ pid;
  cr_slot : slot u ∧ u ≠ t;
  cr_parent : process_id (th (k_sched (f_kern s)) u) = parent p;
  cr_first v : 0 ≤ v < u → v ≠ t → process_id (th (k_sched (f_kern s)) v) ≠ parent p;
  cr_tables : tables_inv (k_vm (f_kern s));
  cr_pt : snd (k_vm (f_kern s)) !! th_pagetable (th (k_sched (f_kern s)) u) = Some pt;
  cr_pages w q d : pt_lookup pt w = Some (q, d) → page_ok s w q d;
  cr_room : (length (all_jobs (used pt)) < size (free_pages (fst (k_vm (f_kern s)))))%nat;
  cr_mem q : q ∈ free_pages (fst (k_vm (f_kern s))) → ∃ b, f_mem s !! q = Some b ∧ length b = 4096%nat;
  cr_ctx : f_ctx s !! user_context (th (k_sched (f_kern s)) u) = Some c ∧ length (cpu_regs c) = 29%nat;
  cr_sem : sem_inv sems_addr (f_sems s) ∧ sem_is (f_sems s) j x ∧ value x < 2 ^ 31 - 1;
}.

(** The state in which the copying starts. *)
Definition prepared (s : @fstate P) (t pid a : Z) (v : @tables P) : @fstate P :=
  with_kern (mk_kern (process_table (f_kern s)) (upd t (set_pt a) (upd t (set_pid pid) (k_sched (f_kern s)))) v) s.

Lemma prepared_sched s cpu t arg pid j u p pt c x a v :
  child_ready s cpu t arg pid j u p pt c x →
  let s0 := prepared s t pid a v in
  kern_ok (f_kern s0) ∧ runs (f_kern s0) cpu t pid ∧ (∀ y, waiters (k_sched (f_kern s0)) y = waiters (k_sched (f_kern s)) y) ∧
  th (k_sched (f_kern s0)) t = set_pt a (set_pid pid (th (k_sched (f_kern s)) t)) ∧
  (∀ w, slot w → w ≠ t → th (k_sched (f_kern s0)) w = th (k_sched (f_kern s)) w).
Proof.
  intros Hr. destruct (cr_runs _ _ _ _ _ _ _ _ _ _ _ Hr) as [me Hruns].
  exact (adopt_sched (f_kern s) cpu t me pid a v (cr_ok _ _ _ _ _ _ _ _ _ _ _ Hr) Hruns).
Qed.

(** The child's table [ptc] is a copy of [pt] on pages that were free, and no
    other page of the memory has changed. *)
Record same_space (s s' : @fstate P) (pt ptc : pagetable) : Prop := {
  ss_page w : match pt_lookup pt w with
    | Some (q, d) => ∃ q', pt_lookup ptc w = Some (q', d) ∧ q' ∈ free_pages (fst (k_vm (f_kern s))) ∧ f_mem s' !! q' = f_mem s !! q
    | None => pt_lookup ptc w = None
    end;
  ss_own w w' q d d' : pt_lookup ptc w = Some (q, d) → pt_lookup ptc w' = Some (q, d') → w = w';
  ss_keep q : q ∉ free_pages (fst (k_vm (f_kern s))) → f_mem s' !! q = f_mem s !! q;
}.

Lemma copied_space s t pid a v s1 pt n :
  let s0 := prepared s t pid a v in
  pt_wf pt → free_pages (fst v) ⊆ free_pages (fst (k_vm (f_kern s))) →
  (∀ w q d, pt_lookup pt w = Some (q, d) → q ∉ free_pages (fst (k_vm (f_kern s)))) →
  copied s0 a (all_jobs (used pt)) n s1 →
  ∃ ptc, snd (k_vm (f_kern s1)) !! a = Some ptc ∧ pt_wf ptc ∧ same_space s s1 pt ptc.
Proof.
  intros s0 Hwf Hsub Htaken (pool & ptc & mem & pages & -> & _ & Hwfc & _ & (Hlen & Hnd & Hin & _) & Hdone & Hnone & Hkeep & _).
  change (fst (k_vm (f_kern s0))) with (fst v) in *. change (f_mem s0) with (f_mem s) in *.
  exists ptc. split_and!; [simpl; by rewrite lookup_insert_eq | done |].
  assert (Hback : ∀ w q d, pt_lookup ptc w = Some (q, d) →
    ∃ j r, all_jobs (used pt) !! j = Some (w, r, d) ∧ pages !! j = Some q).
  { intros w q d Hc. destruct (pt_lookup pt w) as [[r d']|] eqn:Hp.
    - apply pt_lookup_jobs, list_elem_of_lookup in Hp as [j Hj]; [| done].
      destruct (lookup_lt_is_Some_2 pages j) as [q' Hq']; [rewrite Hlen; by eapply lookup_lt_Some |].
      destruct (Hdone _ _ _ _ _ Hj Hq') as [Hl _]. rewrite Hl in Hc. injection Hc as <- <-. by exists j, r.
    - rewrite Hnone in Hc; [done |]. intros r d' Hin'. apply pt_lookup_jobs in Hin'; [congruence | done]. }
  constructor.
  - intros w. destruct (pt_lookup pt w) as [[q d]|] eqn:Hp.
    + apply pt_lookup_jobs, list_elem_of_lookup in Hp as [j Hj]; [| done].
      destruct (lookup_lt_is_Some_2 pages j) as [q' Hq']; [rewrite Hlen; by eapply lookup_lt_Some |].
      destruct (Hdone _ _ _ _ _ Hj Hq') as [Hl Hm]. exists q'. split_and!; [done | | done].
      apply Hsub, Hin. by eapply list_elem_of_lookup_2.
    + apply Hnone. intros r d' Hin'. apply pt_lookup_jobs in Hin'; [congruence | done].
  - intros w w' q d d' H1 H2. destruct (Hback _ _ _ H1) as (j1 & r1 & Hj1 & Hp1). destruct (Hback _ _ _ H2) as (j2 & r2 & Hj2 & Hp2).
    assert (j1 = j2) as -> by (by eapply NoDup_lookup). rewrite Hj1 in Hj2. by injection Hj2.
  - intros q Hq. simpl. apply Hkeep. intros Hf. by apply Hq, Hsub.
Qed.

(** The copying loop, from the prepared state. *)
Lemma copy_loop_wp s cpu t arg pid j u p pt c x a v pt0 q0 :
  child_ready s cpu t arg pid j u p pt c x →
  tables_inv v → snd (k_vm (f_kern s)) !! a = None → snd v = <[a := pt0]> (snd (k_vm (f_kern s))) → valid_count pt0 = 0 →
  q0 ∈ free_pages (fst (k_vm (f_kern s))) → free_pages (fst v) = free_pages (fst (k_vm (f_kern s))) ∖ {[q0]} →
  let s0 := prepared s t pid a v in
  wp (for_each (Z.to_nat (valid_count pt)) 0 (copy_entry cpu (th_pagetable (th (k_sched (f_kern s)) u))))
    (λ _ s1, copied s0 a (all_jobs (used pt)) (valid_count pt) s1) s0.
Proof.
  intros Hr Hv Hnone Hsnd Hvc0 Hq0 Hfree s0. destruct (prepared_sched s cpu t arg pid j u p pt c x a v Hr) as (Hok0 & Hruns0 & _ & Hth0 & _).
  pose proof (cr_tables _ _ _ _ _ _ _ _ _ _ _ Hr) as [_ Htab]. pose proof (cr_pt _ _ _ _ _ _ _ _ _ _ _ Hr) as Hpt.
  destruct (Htab _ _ Hpt) as [Hwf _]. pose proof Hwf as (Hle & Hvc & _ & _).
  set (pa := th_pagetable _) in *. assert (Hne : pa ≠ a) by (intros E; rewrite E in Hpt; congruence).
  assert (Hpt0 : snd v !! a = Some pt0) by (by rewrite Hsnd, lookup_insert_eq).
  destruct (proj2 Hv _ _ Hpt0) as [Hwf0 _].
  assert (Hempty : ∀ w, pt_lookup pt0 w = None) by (intros w; unfold pt_lookup, used; by rewrite Hvc0).
  assert (Hpages : ∀ w q d, pt_lookup pt w = Some (q, d) → page_ok s0 w q d).
  { intros w q d Hl. destruct (cr_pages _ _ _ _ _ _ _ _ _ _ _ Hr w q d Hl) as [? ? ? Ht ?]. constructor; try done.
    cbn. rewrite Hfree. intros [Hin _]%elem_of_difference. by apply Ht. }
  assert (Hsize : (length (all_jobs (used pt)) ≤ size (free_pages (fst v)))%nat).
  { pose proof (cr_room _ _ _ _ _ _ _ _ _ _ _ Hr) as Hroom. rewrite Hfree.
    rewrite size_difference by (by apply singleton_subseteq_l). rewrite size_singleton. lia. }
  assert (Hulen : length (used pt) = Z.to_nat (valid_count pt)) by (unfold used; rewrite length_take, Hle; lia).
  apply (wp_for_each (λ i s1, copied s0 a (all_jobs (take (Z.to_nat i) (used pt))) i s1)).
  - cbn [take Z.to_nat]. exists (fst v), pt0, (f_mem s), []. split_and!; try done.
    + unfold with_mem, with_kern, with_vm, s0, prepared. cbn. rewrite Hsnd, insert_insert_eq, <- Hsnd. by destruct v.
    + apply Hv.
    + lia.
    + apply NoDup_nil_2.
    + intros q Hq. by apply not_elem_of_nil in Hq.
    + cbn. set_solver.
    + intros q Hq. apply (cr_mem _ _ _ _ _ _ _ _ _ _ _ Hr). cbn in Hq. rewrite Hfree in Hq. by apply elem_of_difference in Hq as [? _].
  - intros i s1 Hi Hc. destruct (lookup_lt_is_Some_2 (used pt) (Z.to_nat i)) as [e He]; [lia |].
    replace i with (Z.of_nat (Z.to_nat i)) in Hc |- * by lia. rewrite !Nat2Z.id in Hc.
    eapply wp_mono; [eapply (copy_entry_wp s0 s1 cpu t pid a pa pt (take (Z.to_nat i) (used pt)) (Z.to_nat i) e); try done |].
    + unfold s0. by rewrite Hth0.
    + cbn. by rewrite Hsnd, lookup_insert_ne.
    + intros [] s2 Hc2. rewrite Z2Nat.id in * by lia. replace (Z.to_nat (i + 1)) with (S (Z.to_nat i)) by lia.
      by rewrite (take_S_r _ _ e).
  - intros s1 Hc. rewrite Z.add_0_l, Z2Nat.id in Hc by lia. rewrite take_ge in Hc by lia. exact Hc.
Qed.

(** What is left when the thread belongs to its process and has an empty table. *)
Definition setup_rest (cpu pa n uc j : Z) : K (@fstate P) ucontext :=
  for_each (Z.to_nat n) 0 (copy_entry cpu pa);;
  s ← gets id;
  match f_ctx s !! uc with
  | None => pure Undef
  | Some c =>
      regs ← pure (aset (cpu_regs c) MIPS_REGISTER_V0 0);
      in_sems (semaphore_V sems_addr j);;
      mret (mk_uctx regs (uc_hi c) (uc_lo c) (u32 (uc_pc c + 4)) (uc_status c) (uc_prev c))
  end.

Lemma setup_start_wp (garbage : Z → list tlb_entry) s cpu t arg pid j u p pt c x (Q : ucontext → @fstate P → Prop) :
  (∀ a, length (garbage a) = Z.to_nat PAGETABLE_ENTRIES) → child_ready s cpu t arg pid j u p pt c x →
  (∀ a v pt0 q0, tables_inv v → snd (k_vm (f_kern s)) !! a = None → snd v = <[a := pt0]> (snd (k_vm (f_kern s))) →
     valid_count pt0 = 0 → q0 ∈ free_pages (fst (k_vm (f_kern s))) →
     free_pages (fst v) = free_pages (fst (k_vm (f_kern s))) ∖ {[q0]} →
     wp (setup_rest cpu (th_pagetable (th (k_sched (f_kern s)) u)) (valid_count pt)
           (user_context (th (k_sched (f_kern s)) u)) j) Q (prepared s t pid a v)) →
  wp (process_fork_setup sems_addr garbage cpu arg) Q s.
Proof.
  intros Hg Hr Hrest. pose proof Hr as [Hok [me Hruns] Hnew Harg Hpid Hpcb Hother [Hslot Hut] Hpar Hfirst Htabs Hpt _ Hroom _ _ _].
  pose proof (ko_sched _ Hok) as Hi. pose proof Hi as [Hq _ _]. pose proof (q_len _ _ _ Hq) as Hlen.
  pose proof (rn_tid _ _ _ _ Hruns) as Htid. pose proof (tid_slot _ Htid) as Hts.
  destruct (other_field_inv (k_sched (f_kern s)) t (set_pid pid) Hi Hts) as (Hi1 & _ & _ & Ht1); [done |].
  pose proof Hi1 as [Hq1 _ _]. pose proof (q_len _ _ _ Hq1) as Hlen1.
  unfold process_fork_setup. do 2 wp_step. unfold id. rewrite Harg. cbv zeta iota. cbn [pid_child].
  wp_step. apply in_k_wp, on_sched_wp. apply wp_get_current; [apply Hq | apply Hruns |]. intros t' Ht'.
  assert (t' = t) as -> by (pose proof (rn_cur _ _ _ _ Hruns); congruence). cbn [f_kern with_kern].
  wp_step. apply in_k_wp, on_sched_wp. cbn [f_kern k_sched with_kern]. apply wp_set_thread; [done | done |].
  change (upd t (λ th, _) (k_sched (f_kern s))) with (upd t (set_pid pid) (k_sched (f_kern s))).
  wp_step. apply in_k_wp, on_sched_wp. cbn [f_kern k_sched with_kern process_table k_vm]. apply wp_get_thread; [done | done |].
  wp_step. wp_step; [by rewrite Ht1; simpl; rewrite Hnew |].
  wp_step. apply in_k_wp. unfold on_vm. wp_step. cbn [f_kern k_sched with_kern process_table k_vm].
  eapply wp_mono; [by apply vm_create_free_wp |]. intros a v (Hv & Hres). cbn [f_kern k_sched with_kern process_table k_vm].
  destruct (Z.eqb_spec a 0) as [->|Ha]; [exfalso; rewrite (proj1 Hres), size_empty in Hroom; lia |].
  destruct Hres as (Hnone & (pt0 & Hsnd & _ & Hvc0) & q0 & Hq0 & Hfree).
  wp_step. wp_step; [done |].
  wp_step. apply in_k_wp, on_sched_wp. cbn [f_kern k_sched with_kern process_table k_vm]. apply wp_set_thread; [done | done |].
  change (upd t (λ th, _) ?y) with (upd t (set_pt a) y).
  destruct (prepared_sched s cpu t arg pid j u p pt c x a v Hr) as (Hok0 & Hruns0 & _ & Hth0 & Hthu).
  match goal with |- wp _ _ ?y => change y with (prepared s t pid a v) end.
  set (s0 := prepared s t pid a v) in *. pose proof (ko_sched _ Hok0) as [Hq0' _ _].
  wp_step. apply in_k_wp, (current_process_wp _ t pid); [done | done |]. change (with_kern (f_kern s0) s0) with s0.
  wp_step. apply in_k_wp. eapply get_pcb_wp; [done | exact Hpcb |]. change (with_kern (f_kern s0) s0) with s0.
  do 3 wp_step. eapply wp_pure.
  { apply (by_pid_Ok _ _ u); [apply Hq0' | done | unfold id; by rewrite Hthu |].
    intros w Hw. unfold id. destruct (decide (w = t)) as [->|Hne]; [rewrite Hth0; simpl; congruence |].
    rewrite Hthu by (unfold slot in *; done || lia). by apply Hfirst. }
  cbv beta iota. wp_step. apply in_k_wp, on_sched_wp. apply wp_get_thread; [apply Hq0' | done |].
  match goal with |- wp _ _ ?y => change y with s0 end. rewrite Hthu by done. unfold id.
  assert (Hl : snd (k_vm (f_kern s0)) !! th_pagetable (th (k_sched (f_kern s)) u) = Some pt).
  { cbn. rewrite Hsnd, lookup_insert_ne; [done |]. intros E. rewrite E in Hnone. congruence. }
  rewrite Hl. cbn [sem_wait]. by eapply Hrest.
Qed.

Lemma in_sems_V_wp s j x (Q : unit → @fstate P → Prop) :
  0 < sems_addr → sem_inv sems_addr (f_sems s) → sem_is (f_sems s) j x → value x < 2 ^ 31 - 1 →
  (∀ y, sem_is y j (mk_sem (value x + 1) (creator x)) → sem_waiters sems_addr y j = tail (sem_waiters sems_addr (f_sems s) j) →
     ids_same (k_sched (f_kern s)) (sq y) → Q tt (with_sems y s)) →
  wp (in_sems (semaphore_V sems_addr j)) Q s.
Proof.
  intros Hpos Hinv Hx Hmax HQ. unfold in_sems. wp_step.
  pose proof (V_wp sems_addr Hpos (f_sems s) j x Hinv Hx Hmax) as Hwp. apply wp_iff in Hwp as ([] & y & He & _ & Hy & Hw & _).
  apply wp_iff. exists tt, y. split; [done |]. apply HQ; [done | done |].
  pose proof (V_ids sems_addr j (f_sems s)) as Hk. unfold wlp in Hk. by rewrite He in Hk.
Qed.


End setup.

(** ** Witness *)

(** The example kernel after [process_fork] has started thread 1 for process 1:
    thread 2 of process 0 has page 5 mapped to frame 3, and its table is on
    page 2. *)
Definition fork_pt : pagetable := mk_pt 2 1 (mk_tlb 2 2 0 0 0 0 3 1 1 0 :: replicate 339 some_entry).

Definition example_pool2 : pagepool := mk_pool [15; 0] 34 30 2.

Definition example_mem : gmap Z bytes :=
  list_to_map ((λ q, (Z.of_nat q, replicate 4096 (Z.of_nat q))) <$> seq 0 34).

Definition example_ctx : ucontext := mk_uctx (replicate 29 6) 0 0 0x1000 0 0.

Definition example_fork : @fstate pagepool :=
  mk_fstate (mk_kern example_ptable (upd 2 (belongs 0 0x80002000) example_state) (example_pool2, {[0x80002000 := fork_pt]}))
    (semaphore_table example_sems) (sem_next example_sems) example_mem {[0 := example_ctx]}
    {[0x80021f00 := mk_fork_arg 1 (Some 0)]}.

Lemma example_pool2_inv : pool_inv example_pool2 ∧ pool_free example_pool2 = pool_free example_pool ∖ {[2]} ∖ {[3]}.
Proof.
  pose proof (pool_get_wp _ example_pool_inv) as H1. apply wp_iff in H1 as (a & s1 & He & Hi & Hres).
  vm_compute in He. injection He as <- <-. destruct Hres as [(E & _)|(p & E & _ & _ & _ & Hf & _)]; [done |].
  assert (p = 2) as -> by (unfold PAGE_SIZE in E; lia).
  pose proof (pool_get_wp _ Hi) as H2. apply wp_iff in H2 as (b & s2 & He & Hi2 & Hres).
  vm_compute in He. injection He as <- <-. destruct Hres as [(E2 & _)|(p & E2 & _ & _ & _ & Hf2 & _)]; [done |].
  assert (p = 3) as -> by (unfold PAGE_SIZE in E2; lia).
  split; [exact Hi2 |]. transitivity (pool_free (mk_pool [7; 0] 34 31 2) ∖ {[3]}); [exact Hf2 |]. by rewrite <- Hf.
Qed.

Lemma fork_pt_wf : pt_wf fork_pt.
Proof.
  split_and!; [done | done | done | | apply NoDup_singleton].
  apply Forall_singleton. unfold entry_wf, is_bit. cbn. intuition (done || lia).
Qed.

Lemma example_pages w q d : pt_lookup fork_pt w = Some (q, d) → w = 5 ∧ q = 3 ∧ d = 1.
Proof.
  intros Hin%pt_lookup_jobs; [| apply fork_pt_wf].
  change (all_jobs (used fork_pt)) with [(5, 3, 1)] in Hin. apply list_elem_of_singleton in Hin. by injection Hin as -> -> ->.
Qed.

Lemma example_mem_page q : 0 ≤ q < 34 → example_mem !! q = Some (replicate 4096 q).
Proof.
  intros Hq. apply elem_of_list_to_map_1.
  - rewrite <- list_fmap_compose. apply NoDup_fmap_2; [intros a b; cbn; lia | apply NoDup_seq].
  - apply list_elem_of_fmap. exists (Z.to_nat q). rewrite Z2Nat.id by lia. split; [done |]. apply elem_of_seq. lia.
Qed.

Lemma example_fork_sched :
  sched_inv (k_sched (f_kern example_fork)) ∧
  (∀ x, waiters (k_sched (f_kern example_fork)) x = waiters example_state x) ∧
  looks (k_sched (f_kern example_fork)) (st_of example_state) (so_of example_state) (scheduler_current_thread example_state) ∧
  th (k_sched (f_kern example_fork)) 2 = belongs 0 0x80002000 (th example_state 2).
Proof. apply other_field_inv; [apply example_state_inv | unfold slot; lia | done]. Qed.

Lemma example_child_ready :
  child_ready 0x80100000 example_fork 0 1 0x80021f00 1 0 2 (example_pcb PROCESS_RUNNING 0) fork_pt example_ctx (mk_sem 0 1).
Proof.
  destruct example_fork_sched as (Hi & Hw & _ & H2). destruct example_pool2_inv as [Hpool Hfree].
  assert (Hmem : ∀ q, 0 ≤ q < 34 → ∃ b, f_mem example_fork !! q = Some b ∧ length b = 4096%nat).
  { intros q Hq. exists (replicate 4096 q). split; [by apply example_mem_page | apply length_replicate]. }
  assert (Hout : ∀ q, q = 2 ∨ q = 3 → q ∉ pool_free example_pool2) by (intros q Hq; rewrite Hfree; rewrite !not_elem_of_difference, !elem_of_singleton; tauto).
  constructor.
  - destruct (example_kern_ok 0) as [Hl He Hf _]. constructor; [exact Hl | exact He | exact Hf | exact Hi].
  - exists (-1). constructor; [lia | vm_compute; reflexivity | unfold tid; lia | | |]; vm_compute; reflexivity.
  - vm_compute. reflexivity.
  - reflexivity.
  - lia.
  - reflexivity.
  - discriminate.
  - split; [unfold slot; lia | discriminate].
  - rewrite H2. reflexivity.
  - intros v Hv Hne. assert (v = 0) as -> by lia. vm_compute. discriminate.
  - split; [exact Hpool |]. intros a t Ha. change (({[0x80002000 := fork_pt]} : gmap Z pagetable) !! a = Some t) in Ha.
    apply lookup_singleton_Some in Ha as [<- <-]. split; [apply fork_pt_wf |].
    exists 2. split; [reflexivity |]. split; [vm_compute; intuition congruence | by apply Hout; left].
  - rewrite H2. vm_compute. reflexivity.
  - intros w q d (-> & -> & ->)%example_pages. constructor; [lia | lia | by right | by apply Hout; right | apply Hmem; lia].
  - destruct Hpool as (_ & _ & _ & _ & Hn). change (pagepool_num_free_pages example_pool2) with 30 in Hn.
    change (length _) with 1%nat. change (free_pages _) with (pool_free example_pool2). lia.
  - intros q [Hq _]%elem_of_pool_free. by apply Hmem.
  - rewrite H2. split; [vm_compute; reflexivity | apply length_replicate].
  - split; [apply (sem_inv_queue 0x80100000 example_sems _ example_sems_inv Hi); intros i _; apply Hw |].
    split; [exact example_sem_0 | done].
Qed.

