(* ===== verification/Loader.v ===== *)
(** * Starting a program (src/buenos/proc/process.c, [process_start])

    The new thread of a process creates a page table, reads the headers of the
    executable, maps pages for the stack, the two segments and the first page
    of the heap, and fills them through their virtual addresses. *)

From S2P Require Import Prelude Bitmap Kmalloc Pagepool Vm UserMem Sched SchedSpec Semaphore Libc FsCodes Tfs Vfs Process Elf Fork.
Local Open Scope Z_scope.

Definition USERLAND_STACK_TOP : Z := 0x7fffeffc.
Definition CONFIG_USERLAND_STACK_SIZE : Z := 1.
Definition MIPS_REGISTER_SP : Z := 26.

Section loader.
Context {P : Type} `{PageAlloc P} {F : Type} `{Filesystems F}.
(** What the uninitialised name buffers of [vfs_open] and page tables hold; the
    addresses of the two ELF headers on the stack, and what they hold. *)
Context (junk : bytes) (garbage : Z → list tlb_entry) (hdr_addr phdr_addr : Z) (hdr_junk phdr_junk : bytes).

Record lstate := mk_lstate { l_kern : @kern P; l_vfs : @vstate F; l_mem : gmap Z bytes }.

Definition in_lk {A} (m : K (@kern P) A) : K lstate A := zoom l_kern (λ x s, mk_lstate x (l_vfs s) (l_mem s)) m.
Definition in_lv {A} (m : K (@vstate F) A) : K lstate A := zoom l_vfs (λ x s, mk_lstate (l_kern s) x (l_mem s)) m.

(** A page for [vaddr], as the three loops and the heap take one. *)
Definition map_page (cpu vaddr : Z) : K lstate unit :=
  phys_page ← in_lk (on_vm (on_pool get_phys_page));
  kassert (negb (phys_page =? 0));;
  in_lk (map_current cpu phys_page vaddr 1).

(** The page table of the current thread. *)
Definition current_table (cpu : Z) : K lstate pagetable :=
  th ← in_lk (current_thread cpu);
  s ← gets id;
  match snd (k_vm (l_kern s)) !! th_pagetable th with
  | None => pure Undef
  | Some pt => mret pt
  end.

Definition set_mem (m : gmap Z bytes) (s : lstate) : lstate := mk_lstate (l_kern s) (l_vfs s) m.

(** [memoryset((void * )vaddr, 0, n)] *)
Definition user_memoryset (cpu vaddr n : Z) : K lstate unit :=
  pt ← current_table cpu;
  s ← gets id;
  old ← pure (uload pt (l_mem s) (Z.to_nat n) vaddr);
  new ← pure (memoryset old 0 n);
  m ← pure (ustore pt (l_mem s) new vaddr);
  modify (set_mem m).

(** [vfs_read(file, (void * )vaddr, n)] *)
Definition user_read (cpu file vaddr n : Z) : K lstate Z :=
  pt ← current_table cpu;
  s ← gets id;
  old ← pure (uload pt (l_mem s) (Z.to_nat n) vaddr);
  '(r, new) ← in_lv (vfs_read file vaddr old (s32 n));
  m ← pure (ustore pt (l_mem s) new vaddr);
  modify (set_mem m);;
  mret r.

(** The two blocks that copy a segment. *)
Definition copy_segment (cpu file location size vaddr : Z) : K lstate unit :=
  if 0 <? size then
    kassert (PAGE_SIZE <=? vaddr);;
    r ← in_lv (vfs_seek file (s32 location));
    kassert (r =? VFS_OK);;
    r ← user_read cpu file vaddr size;
    kassert (r =? s32 size)
  else mret tt.

(** [vm_set_dirty] on the page table of the current thread. *)
Definition set_dirty_current (cpu vaddr dirty : Z) : K (@kern P) unit :=
  th ← current_thread cpu;
  s ← gets id;
  match snd (k_vm s) !! th_pagetable th with
  | None => pure Undef
  | Some pt =>
      '(_, pt) ← pure (vm_set_dirty vaddr dirty pt);
      on_vm (modify (λ v, (fst v, <[th_pagetable th := pt]> (snd v))))
  end.

(** The pages of the process: stack, segments and the start of the heap. *)
Definition map_image (cpu : Z) (elf : elf_info) : K lstate unit :=
  for_each (Z.to_nat CONFIG_USERLAND_STACK_SIZE) 0 (λ i,
    map_page cpu (u32 (Z.land USERLAND_STACK_TOP PAGE_SIZE_MASK - i * PAGE_SIZE)));;
  for_each (Z.to_nat (s32 (ro_pages elf))) 0 (λ i, map_page cpu (u32 (ro_vaddr elf + i * PAGE_SIZE)));;
  for_each (Z.to_nat (s32 (rw_pages elf))) 0 (λ i, map_page cpu (u32 (rw_vaddr elf + i * PAGE_SIZE))).

(** The heap starts behind what the file holds of the writable segment. *)
Definition map_heap (cpu pid : Z) (elf : elf_info) : K lstate unit :=
  let heap_end := u32 (rw_vaddr elf + rw_size elf) in
  in_lk (put_pcb pid (set_heap_end heap_end));;
  (if heap_end mod PAGE_SIZE =? 0 then map_page cpu heap_end else mret tt).

(** What the pages hold, and which of them are read-only. *)
Definition fill_image (cpu file : Z) (elf : elf_info) : K lstate unit :=
  user_memoryset cpu (ro_vaddr elf) (s32 (ro_pages elf * PAGE_SIZE));;
  user_memoryset cpu (rw_vaddr elf) (s32 (rw_pages elf * PAGE_SIZE));;
  user_memoryset cpu (Z.land USERLAND_STACK_TOP PAGE_SIZE_MASK - (CONFIG_USERLAND_STACK_SIZE - 1) * PAGE_SIZE)
    (CONFIG_USERLAND_STACK_SIZE * PAGE_SIZE);;
  copy_segment cpu file (ro_location elf) (ro_size elf) (ro_vaddr elf);;
  copy_segment cpu file (rw_location elf) (rw_size elf) (rw_vaddr elf);;
  for_each (Z.to_nat (s32 (ro_pages elf))) 0 (λ i,
    in_lk (set_dirty_current cpu (u32 (ro_vaddr elf + i * PAGE_SIZE)) 0)).

(** The thread becomes the process and gets a page table; the executable is
    opened and its headers are read. *)
Definition open_image (cpu pid : Z) : K lstate (Z * elf_info) :=
  t ← in_lk (on_sched (get_current cpu));
  in_lk (on_sched (set_thread t (λ th,
    mk_thread (th_context th) (th_ctx th) (user_context th) (state th) (sleeps_on th) (th_pagetable th) pid (next th))));;
  p ← in_lk (get_pcb pid);
  th ← in_lk (on_sched (get_thread t));
  kassert (th_pagetable th =? 0);;
  pagetable ← in_lk (on_vm (vm_create_pagetable garbage t));
  kassert (negb (pagetable =? 0));;
  in_lk (on_sched (set_thread t (λ th,
    mk_thread (th_context th) (th_ctx th) (user_context th) (state th) (sleeps_on th) pagetable (process_id th) (next th))));;
  file ← in_lv (vfs_open junk (executable p));
  kassert (0 <=? file);;
  parsed ← in_lv (elf_parse_header hdr_addr phdr_addr file hdr_junk phdr_junk);
  match parsed with
  | None => panic "Assertion failed"
  | Some elf => kassert (PAGE_SIZE <=? entry_point elf);; mret (file, elf)
  end.

(** Up to [thread_goto_userland]; the result is the context the thread enters
    userland with. *)
Definition process_start (cpu pid : Z) : K lstate ucontext :=
  '(file, elf) ← open_image cpu pid;
  map_image cpu elf;;
  map_heap cpu pid elf;;
  fill_image cpu file elf;;
  regs ← pure (aset (replicate 29 0) MIPS_REGISTER_SP USERLAND_STACK_TOP);
  mret (mk_uctx regs 0 0 (entry_point elf) 0 0).

End loader.
