(* ===== verification/LoaderSpec.v ===== *)
(** * What starting a program promises

    The address space of a new process is the image its executable describes:
    the two segments with the bytes of the file and zeros behind them, a stack
    of zeros, the first page of the heap, and nothing else. *)

From S2P Require Import Prelude Bitmap Kmalloc Pagepool Vm UserMem Sched SchedSpec Semaphore Libc FsCodes Tfs Vfs VfsSpec VfsTfs Process ProcessSpec Elf ElfSpec Fork ForkSpec Loader.
Local Open Scope Z_scope.

(** ** Images *)

(** The page of the stack. *)
Definition STACK_PAGE : Z := 0x7fffe.

(** A segment at a page boundary below the stack, whose bytes lie in a file of
    [len] bytes. *)
Record seg_ok (len location size pages vaddr : Z) : Prop := {
  sg_loc : 0 ≤ location ∧ location + size ≤ len;
  sg_size : 0 ≤ size ≤ pages * PAGE_SIZE;
  sg_align : vaddr = vaddr / PAGE_SIZE * PAGE_SIZE;
  sg_start : 0 ≤ vaddr ∧ (0 < size → PAGE_SIZE ≤ vaddr);
  sg_end : vaddr / PAGE_SIZE + pages ≤ STACK_PAGE;
}.

Definition in_ro (elf : elf_info) (x : Z) : Prop := ro_vaddr elf / PAGE_SIZE ≤ x < ro_vaddr elf / PAGE_SIZE + ro_pages elf.
Definition in_rw (elf : elf_info) (x : Z) : Prop := rw_vaddr elf / PAGE_SIZE ≤ x < rw_vaddr elf / PAGE_SIZE + rw_pages elf.

(** Where the heap starts: behind the bytes of the writable segment that are in
    the file.  The page is mapped for the heap when it starts on a boundary. *)
Definition heap_of (elf : elf_info) : Z := rw_vaddr elf + rw_size elf.
Definition in_heap (elf : elf_info) (x : Z) : Prop := heap_of elf mod PAGE_SIZE = 0 ∧ x = heap_of elf / PAGE_SIZE.

(** The heap starts on a boundary, in a page that the segments or the stack
    already have. *)
Definition heap_taken (elf : elf_info) : Prop :=
  heap_of elf mod PAGE_SIZE = 0 ∧
  (in_ro elf (heap_of elf / PAGE_SIZE) ∨ in_rw elf (heap_of elf / PAGE_SIZE) ∨ heap_of elf / PAGE_SIZE = STACK_PAGE).

(** The segments fit in memory without overlap. *)
Record layout (elf : elf_info) (len : Z) : Prop := {
  ly_entry : PAGE_SIZE ≤ entry_point elf;
  ly_ro : seg_ok len (ro_location elf) (ro_size elf) (ro_pages elf) (ro_vaddr elf);
  ly_rw : seg_ok len (rw_location elf) (rw_size elf) (rw_pages elf) (rw_vaddr elf);
  ly_apart x : ¬ (in_ro elf x ∧ in_rw elf x);
}.

Definition image_pages (elf : elf_info) : nat :=
  S (Z.to_nat (ro_pages elf) + Z.to_nat (rw_pages elf) + if heap_of elf mod PAGE_SIZE =? 0 then 1 else 0).

Definition in_image (elf : elf_info) (x : Z) : Prop := x = STACK_PAGE ∨ in_ro elf x ∨ in_rw elf x ∨ in_heap elf x.

(** ** Mapping pages *)

Section loader_spec.
Context {P : Type} `{PageAlloc P} {F : Type} `{FileStore F}.
Abbreviation lst := (@lstate P F).

(** The kernel [k] is [k0] with the pages of [fr] mapped writable to frames
    that were free, in the table at [a]. *)
Record mapped (k0 : @kern P) (a : Z) (fr : gmap Z Z) (k : @kern P) (pt : pagetable) : Prop := {
  mp_state : ∃ pool, k = with_vm k0 a pool pt ∧ alloc_inv pool ∧
    (∀ q, q ∈ free_pages pool ↔ q ∈ free_pages (fst (k_vm k0)) ∧ ∀ w, fr !! w ≠ Some q);
  mp_wf : pt_wf pt;
  mp_count : valid_count pt ≤ Z.of_nat (size fr);
  mp_lookup w : pt_lookup pt w = (λ q, (q, 1)) <$> fr !! w;
  mp_inj w w' q : fr !! w = Some q → fr !! w' = Some q → w = w';
  mp_free w q : fr !! w = Some q → q ∈ free_pages (fst (k_vm k0));
}.

(** Taking fewer pages than are free leaves one. *)
Lemma frames_left (X : gset Z) (fr : gmap Z Z) : (size fr < size X)%nat → ∃ q, q ∈ X ∧ ∀ w, fr !! w ≠ Some q.
Proof.
  intros Hs. set (l := (map_to_list fr).*2).
  assert (Hl : length l = size fr) by (unfold l; by rewrite length_fmap, length_map_to_list).
  destruct (set_choose_L _ (free_left X l (size fr) Hl Hs)) as [q [Hq Hn]%elem_of_difference]. exists q. split; [done |].
  intros w Hw. apply Hn, elem_of_list_to_set, list_elem_of_fmap. exists (w, q). split; [done | by apply elem_of_map_to_list].
Qed.

Lemma in_lk_wp {A} (m : K (@kern P) A) (s : lst) (Q : A → lst → Prop) :
  wp m (λ a x, Q a (mk_lstate x (l_vfs s) (l_mem s))) (l_kern s) → wp (in_lk m) Q s.
Proof. intros Hm. by apply wp_zoom. Qed.

Lemma in_lv_wp {A} (m : K (@vstate F) A) (s : lst) (Q : A → lst → Prop) :
  wp m (λ a x, Q a (mk_lstate (l_kern s) x (l_mem s))) (l_vfs s) → wp (in_lv m) Q s.
Proof. intros Hm. by apply wp_zoom. Qed.

(** The kernel in which the pages are mapped: thread [t] runs process [pid]
    with its page table at [a]. *)
Record base (k0 : @kern P) (cpu t pid a : Z) : Prop := {
  b_ok : kern_ok k0;
  b_runs : runs k0 cpu t pid;
  b_table : th_pagetable (th (k_sched k0) t) = a;
}.

Lemma map_page_wp (s : lst) k0 cpu t pid a fr pt w :
  base k0 cpu t pid a → mapped k0 a fr (l_kern s) pt → fr !! w = None → 0 ≤ w < 2 ^ 20 →
  Z.of_nat (size fr) < PAGETABLE_ENTRIES → (size fr < size (free_pages (fst (k_vm k0))))%nat →
  wp (map_page cpu (w * PAGE_SIZE)) (λ _ s', l_vfs s' = l_vfs s ∧ l_mem s' = l_mem s ∧
    ∃ q pt', mapped k0 a (<[w := q]> fr) (l_kern s') pt') s.
Proof.
  intros [Hok Hr Ha] [(pool & Hk & Hpool & Hfree) Hwf Hvc Hlk Hinj Hin] Hnew Hw Hent Hroom.
  destruct s as [k v m]. cbn [l_kern l_vfs l_mem] in *. subst k.
  unfold map_page. wp_step. apply in_lk_wp. unfold on_vm, on_pool. do 2 wp_step. cbn [l_kern k_vm with_vm fst snd].
  eapply wp_mono; [by apply get_phys_page_spec |]. intros phys pool2 (Hp2 & _ & Hres). cbn [process_table k_sched fst snd].
  destruct Hres as [(_ & Hempty & _)|(q & -> & Hq & Hfree2)].
  { destruct (frames_left _ fr Hroom) as (q & Hq & Hn). assert (Hq' : q ∈ free_pages pool) by (by apply Hfree).
    rewrite Hempty in Hq'. by apply not_elem_of_empty in Hq'. }
  pose proof (managed_range pool q Hpool (free_pages_managed _ _ Hpool Hq)) as Hqr.
  wp_step. wp_step; [apply negb_true_iff, Z.eqb_neq; unfold PAGE_SIZE; lia |].
  apply in_lk_wp. cbn [l_kern l_vfs l_mem].
  set (k1 := mk_kern _ _ _). assert (Hk1 : k1 = with_vm k0 a pool2 pt) by done.
  apply (map_current_wp k1 cpu t pid pt); [exact (kern_ok_vm _ _ Hok) | exact (runs_vm _ _ _ _ _ Hr) |
    by rewrite Hk1; simpl; rewrite Ha, lookup_insert_eq |].
  assert (Hdivw : w * PAGE_SIZE / 4096 = w) by (by apply Z.div_mul). assert (Hdivq : q * PAGE_SIZE / 4096 = q) by (by apply Z.div_mul).
  eapply wp_mono; [apply vm_map_wp; [done | unfold is_u32, PAGE_SIZE; lia | unfold is_u32, PAGE_SIZE; lia | by right |] |].
  { rewrite Hdivw. split; [by rewrite Hlk, Hnew | right; lia]. }
  intros [] pt2 (Hwf2 & _ & Hvc2 & Hlk2). rewrite Hdivw, Hdivq in Hlk2.
  cbn [l_kern l_vfs l_mem]. split_and!; [done | done |].
  apply Hfree in Hq as [Hq0 Hqn]. exists q, pt2. constructor.
  - exists pool2. split_and!; [| done |].
    + unfold with_vm, k1. cbn [process_table k_sched k_vm fst snd with_vm]. by rewrite Ha, insert_insert_eq.
    + intros r. rewrite Hfree2, elem_of_difference, elem_of_singleton, Hfree. split.
      * intros [[Hr0 Hrn] Hne]. split; [done |]. intros w' [[-> ->]|[_ ?]]%lookup_insert_Some; [done | by apply (Hrn w')].
      * intros [Hr0 Hrn]. split; [split; [done |] |].
        -- intros w' Hw'. apply (Hrn w'). rewrite lookup_insert_ne; [done |]. intros <-. congruence.
        -- intros ->. apply (Hrn w). apply lookup_insert_eq.
  - done.
  - rewrite map_size_insert_None by done. lia.
  - intros w'. rewrite Hlk2, Hlk. destruct (Z.eqb_spec w' w) as [->|Hne]; [by rewrite lookup_insert_eq | by rewrite lookup_insert_ne].
  - intros w1 w2 r [[<- <-]|[Hn1 Hl1]]%lookup_insert_Some [[<- E]|[Hn2 Hl2]]%lookup_insert_Some.
    + done.
    + by destruct (Hqn w2).
    + subst r. by destruct (Hqn w1).
    + by apply (Hinj w1 w2 r).
  - intros w' r [[_ <-]|[_ Hw']]%lookup_insert_Some; [done | by apply (Hin w')].
Qed.

(** A run of pages. *)
Lemma map_range_wp n : ∀ (s : lst) k0 cpu t pid a fr pt w va i0,
  base k0 cpu t pid a → mapped k0 a fr (l_kern s) pt →
  0 ≤ w → w + Z.of_nat n ≤ 2 ^ 20 → va = (w - i0) * PAGE_SIZE → (∀ x, w ≤ x < w + Z.of_nat n → fr !! x = None) →
  Z.of_nat (size fr + n) ≤ PAGETABLE_ENTRIES → (size fr + n ≤ size (free_pages (fst (k_vm k0))))%nat →
  wp (for_each n i0 (λ i, map_page cpu (u32 (va + i * PAGE_SIZE)))) (λ _ s', l_vfs s' = l_vfs s ∧ l_mem s' = l_mem s ∧
    ∃ fr' pt', mapped k0 a fr' (l_kern s') pt' ∧ size fr' = (size fr + n)%nat ∧
      ∀ x, is_Some (fr' !! x) ↔ is_Some (fr !! x) ∨ w ≤ x < w + Z.of_nat n) s.
Proof.
  induction n as [|n IH]; intros s k0 cpu t pid a fr pt w va i0 Hb Hm Hw Hmax Hva Hnew Hent Hroom; cbn [for_each].
  { wp_step. split_and!; [done | done |]. exists fr, pt. split_and!; [done | lia |]. intros x. split; [tauto | intros [?|?]; [done | lia]]. }
  wp_step. replace (va + i0 * PAGE_SIZE) with (w * PAGE_SIZE) by lia.
  rewrite u32_small by (unfold is_u32, PAGE_SIZE; lia).
  eapply wp_mono; [eapply map_page_wp; try done; [apply Hnew; lia | lia | lia | lia] |].
  intros [] s1 (Hv1 & Hm1 & q & pt1 & Hmap1). rewrite <- Hv1, <- Hm1.
  assert (Hsz : size (<[w := q]> fr) = S (size fr)) by (apply map_size_insert_None, Hnew; lia).
  eapply wp_mono; [eapply (IH s1 k0 cpu t pid a (<[w := q]> fr) pt1 (w + 1) va (i0 + 1)); try done; try lia |].
  - intros x Hx. rewrite lookup_insert_ne by lia. apply Hnew. lia.
  - intros [] s2 (Hv2 & Hm2 & fr' & pt' & Hmap' & Hsz' & Hdom). split_and!; [done | done |]. exists fr', pt'. split_and!; [done | lia |].
    intros x. rewrite Hdom, lookup_insert_is_Some. split.
    + intros [[<-|[_ ?]]|?]; [right; lia | by left | right; lia].
    + intros [?|Hx]; [destruct (decide (w = x)); tauto |]. destruct (decide (w = x)); [tauto |]. right. lia.
Qed.

(** ** Filling the pages *)

(** The current thread has the page table [pt]. *)
Record here (k : @kern P) (cpu t pid : Z) (pt : pagetable) : Prop := {
  hr_ok : kern_ok k;
  hr_runs : runs k cpu t pid;
  hr_pt : snd (k_vm k) !! th_pagetable (th (k_sched k) t) = Some pt;
}.

Lemma mapped_here k0 cpu t pid a fr k pt : base k0 cpu t pid a → mapped k0 a fr k pt → here k cpu t pid pt.
Proof.
  intros [Hok Hr Ha] [(pool & -> & _) _ _ _ _ _]. constructor; [by apply kern_ok_vm | by apply runs_vm |].
  simpl. by rewrite Ha, lookup_insert_eq.
Qed.

Lemma current_table_wp (s : lst) cpu t pid pt (Q : pagetable → lst → Prop) :
  here (l_kern s) cpu t pid pt → Q pt s → wp (current_table cpu) Q s.
Proof.
  intros [Hok Hr Hpt] HQ. unfold current_table. wp_step. apply in_lk_wp, (current_thread_wp _ t pid); [done | done |].
  do 2 wp_step. unfold id. cbn [l_kern]. rewrite Hpt. wp_step. by destruct s.
Qed.

Lemma store_load pt v : can_store pt v → can_load pt v.
Proof. intros [q Hq]. by exists (q, 1). Qed.

(** The memory [m'] is [m] with other bytes at [va], written through [pt]. *)
Definition patched (pt : pagetable) (m : gmap Z bytes) (va n : Z) (f : Z → option Z) (m' : gmap Z bytes) : Prop :=
  space_ok pt m' ∧ (∀ v, ubyte pt m' v = if decide (va ≤ v < va + n) then f v else ubyte pt m v) ∧
  (∀ q, ¬ owns pt q → m' !! q = m !! q).

Lemma ustore_patched pt m l va (f : Z → option Z) :
  space_ok pt m → 0 ≤ va → va + Z.of_nat (length l) ≤ 2 ^ 31 → (∀ v, va ≤ v < va + Z.of_nat (length l) → can_store pt v) →
  (∀ v, va ≤ v < va + Z.of_nat (length l) → f v = l !! Z.to_nat (v - va)) →
  ∃ m', ustore pt m l va = Ok m' ∧ patched pt m va (Z.of_nat (length l)) f m'.
Proof.
  intros Hsp Hva Hmax Hcan Hf. destruct (ustore_Ok pt l m va Hsp Hva Hmax Hcan) as (m' & He & Hsp' & Hu & Hk).
  exists m'. split; [done |]. split_and!; [done | | done]. intros v. rewrite Hu. case_decide; [by rewrite Hf | done].
Qed.

Lemma user_memoryset_wp (s : lst) cpu t pid pt va n :
  here (l_kern s) cpu t pid pt → space_ok pt (l_mem s) → 0 ≤ va → 0 ≤ n → va + n ≤ 2 ^ 31 →
  (∀ v, va ≤ v < va + n → can_store pt v) →
  wp (user_memoryset cpu va n) (λ _ s', ∃ m, s' = set_mem m s ∧ patched pt (l_mem s) va n (λ _, Some 0) m) s.
Proof.
  intros Hh Hsp Hva Hn Hmax Hcan. unfold user_memoryset. wp_step. apply (current_table_wp s _ t pid pt); [done |].
  do 2 wp_step. unfold id. wp_step.
  destruct (uload_Ok pt (l_mem s) (Z.to_nat n) va Hsp) as (l & Hl & Hlen & _); [lia | lia | intros v Hv; apply store_load, Hcan; lia |].
  eapply wp_pure; [exact Hl |]. cbv beta. wp_step. eapply wp_pure; [apply (memoryset_Ok _ 0); lia |]. cbv beta. wp_step.
  assert (Hsplice : splice 0 (replicate (Z.to_nat n) 0) l = replicate (Z.to_nat n) 0).
  { unfold splice. rewrite take_0, length_replicate, drop_ge by lia. by rewrite app_nil_r. }
  rewrite Hsplice.
  destruct (ustore_patched pt (l_mem s) (replicate (Z.to_nat n) 0) va (λ _, Some 0) Hsp Hva) as (m & Hm & Hp);
    rewrite ?length_replicate, ?Z2Nat.id by lia; [done | done | |].
  { intros v Hv. symmetry. apply lookup_replicate. split; [done | lia]. }
  eapply wp_pure; [exact Hm |]. cbv beta. wp_step. exists m. split; [done |].
  by rewrite length_replicate, Z2Nat.id in Hp by lia.
Qed.

(** [reading] of the state of the loader. *)
Definition opened (s0 : vfs) (file : Z) (e : openfile_entry) (c : bytes) (s : lst) : Prop :=
  ∃ q, reading s0 file e c q (l_vfs s).

Lemma copy_segment_wp (s : lst) cpu t pid pt s0 file e c location size va :
  here (l_kern s) cpu t pid pt → space_ok pt (l_mem s) → idle s0 → open_at s0 file e → opened s0 file e c s →
  0 ≤ location → 0 ≤ size → location + size ≤ Z.of_nat (length c) → Z.of_nat (length c) < 2 ^ 31 →
  0 ≤ va → (0 < size → PAGE_SIZE ≤ va) → va + size ≤ 2 ^ 31 → (∀ v, va ≤ v < va + size → can_store pt v) →
  wp (copy_segment cpu file location size va) (λ _ s', opened s0 file e c s' ∧ l_kern s' = l_kern s ∧
    patched pt (l_mem s) va size (λ v, c !! Z.to_nat (location + (v - va))) (l_mem s')) s.
Proof.
  intros Hh Hsp Hid He [q Hrd] Hloc Hsz Hin Hlc Hva Hpage Hmax Hcan. unfold copy_segment.
  destruct (Z.ltb_spec 0 size) as [Hpos|Hzero].
  2: { wp_step. split_and!; [by exists q | done |]. split_and!; [done | | done]. intros v. by rewrite decide_False by lia. }
  specialize (Hpage Hpos). wp_step. wp_step; [by apply Z.leb_le |].
  wp_step. apply in_lv_wp. rewrite s32_small by (unfold is_s32; lia).
  eapply wp_mono; [by apply (reading_seek s0 file e c q location) |]. intros r x1 [-> Hrd1]. cbn [l_kern l_mem].
  wp_step. wp_step; [done |]. wp_step. unfold user_read. wp_step. apply (current_table_wp _ cpu t pid pt); [done |].
  do 2 wp_step. unfold id. cbn [l_mem]. wp_step.
  destruct (uload_Ok pt (l_mem s) (Z.to_nat size) va Hsp) as (l & Hl & Hlen & _); [lia | lia | intros v Hv; apply store_load, Hcan; lia |].
  eapply wp_pure; [exact Hl |]. cbv beta. wp_step. rewrite s32_small by (unfold is_s32; lia). apply in_lv_wp. cbn [l_kern l_vfs l_mem].
  eapply wp_mono; [apply (reading_read s0 file e c location x1 va l size); try done; unfold PAGE_SIZE, NULL in *; lia |].
  intros [r new] x2 [Hrd2 Hr]. cbv zeta in Hrd2, Hr. rewrite Z.min_l in Hrd2, Hr by lia. injection Hr as -> ->.
  rewrite (drop_ge l), app_nil_r by lia. set (new := take (Z.to_nat size) (drop (Z.to_nat location) c)).
  assert (Hnl : length new = Z.to_nat size) by (unfold new; rewrite length_take, length_drop; lia).
  destruct (ustore_patched pt (l_mem s) new va (λ v, c !! Z.to_nat (location + (v - va))) Hsp Hva) as (m & Hm & Hp);
    rewrite ?Hnl, ?Z2Nat.id by lia; [done | done | |].
  { intros v Hv. unfold new. rewrite lookup_take_lt, lookup_drop by lia. f_equal. lia. }
  wp_step. eapply wp_pure; [exact Hm |]. cbv beta. do 2 wp_step. wp_step. rewrite Z.eqb_refl. apply wp_kassert; [done |].
  rewrite Hnl, Z2Nat.id in Hp by lia. split_and!; [by eexists | done | done].
Qed.

(** Making pages read-only. *)
Lemma set_dirty_range_wp n : ∀ (s : lst) cpu t pid pt w va i0,
  here (l_kern s) cpu t pid pt → pt_wf pt → 0 ≤ w → w + Z.of_nat n ≤ 2 ^ 20 → va = (w - i0) * PAGE_SIZE →
  (∀ x, w ≤ x < w + Z.of_nat n → is_Some (pt_lookup pt x)) →
  wp (for_each n i0 (λ i, in_lk (set_dirty_current cpu (u32 (va + i * PAGE_SIZE)) 0)))
    (λ _ s', l_vfs s' = l_vfs s ∧ l_mem s' = l_mem s ∧ process_table (l_kern s') = process_table (l_kern s) ∧
      k_sched (l_kern s') = k_sched (l_kern s) ∧ fst (k_vm (l_kern s')) = fst (k_vm (l_kern s)) ∧
      ∃ pt', here (l_kern s') cpu t pid pt' ∧ pt_wf pt' ∧
        ∀ x, pt_lookup pt' x = if decide (w ≤ x < w + Z.of_nat n) then (λ y, (y.1, 0)) <$> pt_lookup pt x else pt_lookup pt x) s.
Proof.
  induction n as [|n IH]; intros s cpu t pid pt w va i0 Hh Hwf Hw Hmax Hva Hmap; cbn [for_each].
  { wp_step. split_and!; try done. exists pt. split_and!; [done | done |]. intros x. by rewrite decide_False by lia. }
  wp_step. replace (va + i0 * PAGE_SIZE) with (w * PAGE_SIZE) by lia. rewrite u32_small by (unfold is_u32, PAGE_SIZE; lia).
  destruct (Hmap w ltac:(lia)) as [[q d] Hq]. pose proof Hh as [Hok Hr Hpt]. apply in_lk_wp. unfold set_dirty_current.
  wp_step. apply (current_thread_wp _ t pid); [done | done |]. do 2 wp_step. unfold id. rewrite Hpt. wp_step.
  assert (Hdiv : w * PAGE_SIZE / 4096 = w) by (by apply Z.div_mul).
  pose proof (vm_set_dirty_wp pt (w * PAGE_SIZE) 0 q d Hwf (or_introl eq_refl)) as Hd. rewrite Hdiv in Hd.
  specialize (Hd Hq). apply wp_iff in Hd as ([] & pt1 & He & Hwf1 & _ & Hlk1).
  eapply wp_pure; [exact He |]. cbv beta. unfold on_vm. wp_step. wp_step.
  set (k1 := mk_kern _ _ _).
  assert (Hh1 : here k1 cpu t pid pt1).
  { constructor; [by apply kern_ok_vm | by apply runs_vm |]. simpl. apply lookup_insert_eq. }
  eapply wp_mono; [apply (IH _ cpu t pid pt1 (w + 1) va (i0 + 1)); cbn [l_kern]; try done; try lia |].
  - intros x Hx. rewrite Hlk1. destruct (x =? w); [done | apply Hmap; lia].
  - cbn [l_kern l_vfs l_mem]. intros [] s2 (Hv & Hm & Hp & Hs & Hf & pt' & Hh' & Hwf' & Hlk').
    split_and!; try done. exists pt'. split_and!; [done | done |]. intros x. rewrite Hlk', Hlk1.
    destruct (Z.eqb_spec x w) as [->|Hne].
    + rewrite decide_False, decide_True, Hq by lia. done.
    + repeat case_decide; done || lia.
Qed.

(** ** The whole image *)

Lemma mapped_rebase k0 a fr k pt l : mapped k0 a fr k pt → mapped (set_ptable l k0) a fr (set_ptable l k) pt.
Proof. intros [(pool & -> & Hp & Hf) ? ? ? ? ?]. constructor; try done. by exists pool. Qed.

Lemma base_rebase k0 cpu t pid a l : kern_ok (set_ptable l k0) → base k0 cpu t pid a → base (set_ptable l k0) cpu t pid a.
Proof. intros Hok [_ [] ?]. constructor; [done | by constructor | done]. Qed.

(** The stack page and two runs of pages below it. *)
Lemma map_segs_wp (s : lst) k0 cpu t pid a pt0 rf rn rv wf wn wv :
  base k0 cpu t pid a → mapped k0 a ∅ (l_kern s) pt0 →
  0 ≤ rf → 0 ≤ rn → rf + rn ≤ STACK_PAGE → rv = rf * PAGE_SIZE → 0 ≤ wf → 0 ≤ wn → wf + wn ≤ STACK_PAGE → wv = wf * PAGE_SIZE →
  (∀ x, ¬ (rf ≤ x < rf + rn ∧ wf ≤ x < wf + wn)) →
  1 + rn + wn ≤ PAGETABLE_ENTRIES → 1 + rn + wn ≤ Z.of_nat (size (free_pages (fst (k_vm k0)))) →
  wp (map_page cpu (STACK_PAGE * PAGE_SIZE);;
      for_each (Z.to_nat rn) 0 (λ i, map_page cpu (u32 (rv + i * PAGE_SIZE)));;
      for_each (Z.to_nat wn) 0 (λ i, map_page cpu (u32 (wv + i * PAGE_SIZE)))) (λ _ s', l_vfs s' = l_vfs s ∧ l_mem s' = l_mem s ∧
    ∃ fr pt, mapped k0 a fr (l_kern s') pt ∧ Z.of_nat (size fr) = 1 + rn + wn ∧
      ∀ x, is_Some (fr !! x) ↔ x = STACK_PAGE ∨ (rf ≤ x < rf + rn) ∨ (wf ≤ x < wf + wn)) s.
Proof.
  intros Hb Hm Hrf Hrn Hre Hrv Hwf Hwn Hwe Hwv Hapart Hent Hroom. unfold STACK_PAGE in *.
  wp_step. eapply wp_mono; [eapply map_page_wp; try done; rewrite map_size_empty; lia |].
  intros [] s1 (Hv1 & Hm1 & q1 & pt1 & Hmp1).
  assert (Hsz1 : size (<[0x7fffe := q1]> (∅ : gmap Z Z)) = 1%nat) by (by rewrite map_size_insert_None, map_size_empty).
  wp_step. eapply wp_mono; [apply (map_range_wp (Z.to_nat rn) s1 k0 cpu t pid a _ _ rf rv 0 Hb Hmp1 Hrf); rewrite ?Hsz1, ?Z.sub_0_r; [lia | exact Hrv | | lia | lia] |].
  { intros x Hx. rewrite lookup_insert_ne by lia. done. }
  intros [] s2 (Hv2 & Hm2 & fr2 & pt2 & Hmp2 & Hsz2 & Hd2). rewrite Hsz1 in Hsz2.
  assert (Hdom : ∀ x, is_Some (fr2 !! x) ↔ x = 0x7fffe ∨ rf ≤ x < rf + rn).
  { intros x. rewrite Hd2, lookup_insert_is_Some', lookup_empty, Z2Nat.id by lia. rewrite is_Some_alt. intuition congruence. }
  eapply wp_mono; [apply (map_range_wp (Z.to_nat wn) s2 k0 cpu t pid a fr2 pt2 wf wv 0 Hb Hmp2 Hwf); rewrite ?Hsz2, ?Z.sub_0_r; [lia | exact Hwv | | lia | lia] |].
  { intros x Hx. apply eq_None_not_Some. rewrite Hdom. intros [?|?]; [lia | apply (Hapart x); lia]. }
  intros [] s3 (Hv3 & Hm3 & fr3 & pt3 & Hmp3 & Hsz3 & Hd3). split_and!; [congruence | congruence |].
  exists fr3, pt3. split_and!; [done | lia |]. intros x. rewrite Hd3, Hdom, Z2Nat.id by lia. tauto.
Qed.

Lemma map_image_wp (s : lst) k0 cpu t pid a pt0 elf len :
  base k0 cpu t pid a → mapped k0 a ∅ (l_kern s) pt0 → layout elf len →
  Z.of_nat (image_pages elf) ≤ PAGETABLE_ENTRIES → (image_pages elf ≤ size (free_pages (fst (k_vm k0))))%nat →
  wp (map_image cpu elf) (λ _ s', l_vfs s' = l_vfs s ∧ l_mem s' = l_mem s ∧
    ∃ fr pt, mapped k0 a fr (l_kern s') pt ∧ size fr = S (Z.to_nat (ro_pages elf) + Z.to_nat (rw_pages elf)) ∧
      ∀ x, is_Some (fr !! x) ↔ x = STACK_PAGE ∨ in_ro elf x ∨ in_rw elf x) s.
Proof.
  intros Hb Hm [_ [_ Hros Hroa [Hrov _] Hroe] [_ Hrws Hrwa [Hrwv _] Hrwe] Hapart] Hent Hroom.
  set (rf := ro_vaddr elf / PAGE_SIZE) in *. set (wf := rw_vaddr elf / PAGE_SIZE) in *.
  assert (Hrf : 0 ≤ rf) by (apply Z.div_pos; [lia | done]). assert (Hwf : 0 ≤ wf) by (apply Z.div_pos; [lia | done]).
  assert (Hn : 0 ≤ ro_pages elf ∧ 0 ≤ rw_pages elf) by (unfold PAGE_SIZE in Hros, Hrws; lia). unfold image_pages in Hent, Hroom.
  unfold map_image. change (Z.to_nat CONFIG_USERLAND_STACK_SIZE) with 1%nat.
  change (for_each 1 0 _) with (map_page (F := F) cpu (STACK_PAGE * PAGE_SIZE);; mret tt).
  unfold STACK_PAGE in *.
  rewrite !s32_small by (unfold is_s32; lia).
  pose proof (map_segs_wp s k0 cpu t pid a pt0 rf (ro_pages elf) (ro_vaddr elf) wf (rw_pages elf) (rw_vaddr elf)
    Hb Hm Hrf (proj1 Hn) Hroe Hroa Hwf (proj2 Hn) Hrwe Hrwa Hapart ltac:(lia) ltac:(lia)) as Hsegs.
  do 2 wp_step. eapply wp_mono; [by apply wp_bind_inv in Hsegs |]. clear Hsegs. intros [] s1 Hsegs. wp_step.
  wp_step. eapply wp_mono; [by apply wp_bind_inv in Hsegs |]. clear Hsegs. intros [] s2 Hsegs.
  eapply wp_mono; [exact Hsegs |]. clear Hsegs. intros [] s3 (Hv3 & Hm3 & fr & pt & Hmp & Hsz & Hdom).
  split_and!; [done | done |]. exists fr, pt. split_and!; [done | lia | exact Hdom].
Qed.

(** The heap pointer does not wrap, and its page is at most the stack's. *)
Lemma heap_range elf len : layout elf len →
  u32 (rw_vaddr elf + rw_size elf) = heap_of elf ∧ 0 ≤ heap_of elf / PAGE_SIZE ≤ STACK_PAGE ∧ is_u32 (heap_of elf).
Proof.
  intros [_ _ [_ Hs Ha [Hva _] He] _]. unfold STACK_PAGE, heap_of, PAGE_SIZE in *.
  assert (is_u32 (rw_vaddr elf + rw_size elf)) by (unfold is_u32; lia). split_and!; [by apply u32_small | | | done].
  - apply Z.div_pos; lia.
  - apply Z.div_le_upper_bound; lia.
Qed.

(** The state when the process has its heap pointer. *)
Lemma heap_pcb (s : lst) k0 cpu t pid a fr pt p elf :
  base k0 cpu t pid a → mapped k0 a fr (l_kern s) pt → process_table k0 !! Z.to_nat pid = Some p →
  let k1 := set_ptable (<[Z.to_nat pid := set_heap_end (heap_of elf) p]> (process_table k0)) k0 in
  0 ≤ pid → base k1 cpu t pid a ∧ ∀ Q, Q tt (mk_lstate (set_ptable (process_table k1) (l_kern s)) (l_vfs s) (l_mem s)) →
    wp (in_lk (put_pcb pid (set_heap_end (heap_of elf)))) Q s.
Proof.
  intros Hb Hmp Hp k1 Hpid. split.
  - apply base_rebase; [| done]. destruct (b_ok _ _ _ _ _ Hb) as [? Hex Hfl ?].
    apply kern_ok_pcb; [apply Hb | exact (Hex _ _ Hp) | exact (Hfl _ _ Hp)].
  - intros Q HQ. assert (Hpt : process_table (l_kern s) = process_table k0) by (by destruct (mp_state _ _ _ _ _ Hmp) as (? & -> & _)).
    apply in_lk_wp. eapply put_pcb_wp; [done | rewrite Hpt; exact Hp |]. by rewrite Hpt.
Qed.

Lemma map_heap_wp (s : lst) k0 cpu t pid a fr pt p elf len :
  base k0 cpu t pid a → mapped k0 a fr (l_kern s) pt → layout elf len → ¬ heap_taken elf →
  size fr = S (Z.to_nat (ro_pages elf) + Z.to_nat (rw_pages elf)) →
  (∀ x, is_Some (fr !! x) ↔ x = STACK_PAGE ∨ in_ro elf x ∨ in_rw elf x) →
  0 ≤ pid → process_table k0 !! Z.to_nat pid = Some p →
  Z.of_nat (image_pages elf) ≤ PAGETABLE_ENTRIES → (image_pages elf ≤ size (free_pages (fst (k_vm k0))))%nat →
  wp (map_heap cpu pid elf) (λ _ s', l_vfs s' = l_vfs s ∧ l_mem s' = l_mem s ∧
    let k1 := set_ptable (<[Z.to_nat pid := set_heap_end (heap_of elf) p]> (process_table k0)) k0 in
    base k1 cpu t pid a ∧ ∃ fr pt, mapped k1 a fr (l_kern s') pt ∧ ∀ x, is_Some (fr !! x) ↔ in_image elf x) s.
Proof.
  intros Hb Hmp Hly Hfree Hsz Hdom Hpid Hp Hent Hroom.
  destruct (heap_range _ _ Hly) as (Hend & Hh0 & Hh32). unfold map_heap. rewrite Hend.
  destruct (heap_pcb s k0 cpu t pid a fr pt p elf Hb Hmp Hp Hpid) as [Hb1 Hput].
  pose proof (mapped_rebase _ _ _ _ _ (<[Z.to_nat pid := set_heap_end (heap_of elf) p]> (process_table k0)) Hmp) as Hmp1.
  wp_step. apply Hput. unfold image_pages in Hent, Hroom.
  destruct (Z.eqb_spec (heap_of elf mod PAGE_SIZE) 0) as [Hal|Hal].
  - assert (Hhe : heap_of elf = heap_of elf / PAGE_SIZE * PAGE_SIZE).
    { rewrite (Z.div_mod (heap_of elf) PAGE_SIZE) at 1 by done. rewrite Hal. lia. }
    rewrite Hhe at 1. eapply wp_mono; [eapply map_page_wp; [exact Hb1 | exact Hmp1 | | | |] |].
    + apply eq_None_not_Some. rewrite Hdom. intros Hx. apply Hfree. split; [done | tauto].
    + unfold STACK_PAGE in Hh0. lia.
    + lia.
    + cbn [set_ptable k_vm]. lia.
    + intros [] s4 (Hv4 & Hm4 & q & pt4 & Hmp4). cbn [l_vfs l_mem] in Hv4, Hm4. split_and!; [congruence | congruence | done |].
      exists (<[heap_of elf / PAGE_SIZE := q]> fr), pt4. split; [done |]. intros x.
      rewrite lookup_insert_is_Some', Hdom. unfold in_image, in_heap. split; [intros [<-|?]; tauto |].
      intros [?|[?|[?|[_ ->]]]]; tauto.
  - wp_step. split_and!; [done | done | done |]. exists fr, pt. split; [done |]. intros x. rewrite Hdom.
    unfold in_image, in_heap. tauto.
Qed.

(** A page that is in the image already. *)
Lemma map_page_mapped (s : lst) k0 cpu t pid a fr pt w :
  base k0 cpu t pid a → mapped k0 a fr (l_kern s) pt → is_Some (fr !! w) →
  (size fr < size (free_pages (fst (k_vm k0))))%nat →
  map_page cpu (w * PAGE_SIZE) s = Panic "Tried to re-map same virtual page".
Proof.
  intros [Hok Hr Ha] [(pool & Hk & Hpool & Hfree) Hwf Hvc Hlk Hinj Hin] [q0 Hw] Hroom.
  destruct s as [k v m]. cbn [l_kern l_vfs l_mem] in *. subst k.
  unfold map_page. apply bind_Panic, in_lk_wp. unfold on_vm, on_pool. do 2 wp_step. cbn [l_kern k_vm with_vm fst snd].
  eapply wp_mono; [by apply get_phys_page_spec |]. intros phys pool2 (Hp2 & _ & Hres). cbn [process_table k_sched fst snd].
  destruct Hres as [(_ & Hempty & _)|(q & -> & Hq & Hfree2)].
  { destruct (frames_left _ fr Hroom) as (q & Hq & Hn). assert (Hq' : q ∈ free_pages pool) by (by apply Hfree).
    rewrite Hempty in Hq'. by apply not_elem_of_empty in Hq'. }
  pose proof (managed_range pool q Hpool (free_pages_managed _ _ Hpool Hq)) as Hqr.
  rewrite bind_kassert by (apply negb_true_iff, Z.eqb_neq; unfold PAGE_SIZE; lia).
  unfold in_lk, zoom. cbn [l_kern l_vfs l_mem].
  rewrite (map_current_mapped _ cpu t pid pt _ _ (q0, 1)); [done | exact (kern_ok_vm _ _ Hok) | exact (runs_vm _ _ _ _ _ Hr) | | done |].
  - cbn. by rewrite Ha, lookup_insert_eq.
  - change 4096 with PAGE_SIZE. by rewrite Z.div_mul, Hlk, Hw.
Qed.

Lemma map_heap_taken (s : lst) k0 cpu t pid a fr pt p elf len :
  base k0 cpu t pid a → mapped k0 a fr (l_kern s) pt → layout elf len → heap_taken elf →
  (∀ x, is_Some (fr !! x) ↔ x = STACK_PAGE ∨ in_ro elf x ∨ in_rw elf x) →
  0 ≤ pid → process_table k0 !! Z.to_nat pid = Some p → (size fr < size (free_pages (fst (k_vm k0))))%nat →
  map_heap cpu pid elf s = Panic "Tried to re-map same virtual page".
Proof.
  intros Hb Hmp Hly [Hal Hin] Hdom Hpid Hp Hroom.
  destruct (heap_range _ _ Hly) as (Hend & Hh0 & Hh32). unfold map_heap. rewrite Hend.
  destruct (heap_pcb s k0 cpu t pid a fr pt p elf Hb Hmp Hp Hpid) as [Hb1 Hput].
  apply bind_Panic, Hput. rewrite Hal. cbn [Z.eqb].
  replace (heap_of elf) with (heap_of elf / PAGE_SIZE * PAGE_SIZE) at 1
    by (rewrite (Z.div_mod (heap_of elf) PAGE_SIZE) at 2 by done; rewrite Hal; lia).
  eapply map_page_mapped; [exact Hb1 | apply mapped_rebase, Hmp | apply Hdom; tauto | done].
Qed.

(** The byte [k] of a segment: from the file, or zero behind it. *)
Definition seg_byte (c : bytes) (location size k : Z) : option Z := if k <? size then c !! Z.to_nat (location + k) else Some 0.

(** The addresses of a run of pages. *)
Lemma in_pages v f n : f ≤ v / PAGE_SIZE < f + n ↔ f * PAGE_SIZE ≤ v < f * PAGE_SIZE + n * PAGE_SIZE.
Proof.
  pose proof (Z.div_mod v PAGE_SIZE ltac:(done)) as Hd. pose proof (Z.mod_pos_bound v PAGE_SIZE ltac:(done)) as Hm.
  unfold PAGE_SIZE in *. lia.
Qed.

(** The memory after all writes: what each page of the image holds. *)
Record image (elf : elf_info) (c : bytes) (pt : pagetable) (m : gmap Z bytes) : Prop := {
  im_ro v : in_ro elf (v / PAGE_SIZE) → ubyte pt m v = seg_byte c (ro_location elf) (ro_size elf) (v - ro_vaddr elf);
  im_rw v : in_rw elf (v / PAGE_SIZE) → ubyte pt m v = seg_byte c (rw_location elf) (rw_size elf) (v - rw_vaddr elf);
  im_stack v : v / PAGE_SIZE = STACK_PAGE → ubyte pt m v = Some 0;
}.

Lemma patches_image elf c pt m0 m1 m2 m3 m4 m5 :
  layout elf (Z.of_nat (length c)) →
  patched pt m0 (ro_vaddr elf) (ro_pages elf * PAGE_SIZE) (λ _, Some 0) m1 →
  patched pt m1 (rw_vaddr elf) (rw_pages elf * PAGE_SIZE) (λ _, Some 0) m2 →
  patched pt m2 (STACK_PAGE * PAGE_SIZE) PAGE_SIZE (λ _, Some 0) m3 →
  patched pt m3 (ro_vaddr elf) (ro_size elf) (λ v, c !! Z.to_nat (ro_location elf + (v - ro_vaddr elf))) m4 →
  patched pt m4 (rw_vaddr elf) (rw_size elf) (λ v, c !! Z.to_nat (rw_location elf + (v - rw_vaddr elf))) m5 →
  image elf c pt m5 ∧ ∀ q, ¬ owns pt q → m5 !! q = m0 !! q.
Proof.
  intros [_ [_ Hros Hroa _ Hroe] [_ Hrws Hrwa _ Hrwe] Hap] (_ & H1' & K1) (_ & H2 & K2) (_ & H3 & K3) (_ & H4 & K4) (_ & H5 & K5).
  split; [| intros q Hq; by rewrite K5, K4, K3, K2, K1].
  assert (Pr : ∀ v, in_ro elf (v / PAGE_SIZE) ↔ ro_vaddr elf ≤ v < ro_vaddr elf + ro_pages elf * PAGE_SIZE)
    by (intros v; rewrite Hroa at 1 2; apply in_pages).
  assert (Pw : ∀ v, in_rw elf (v / PAGE_SIZE) ↔ rw_vaddr elf ≤ v < rw_vaddr elf + rw_pages elf * PAGE_SIZE)
    by (intros v; rewrite Hrwa at 1 2; apply in_pages).
  assert (Ps : ∀ v, v / PAGE_SIZE = STACK_PAGE ↔ STACK_PAGE * PAGE_SIZE ≤ v < STACK_PAGE * PAGE_SIZE + PAGE_SIZE).
  { intros v. pose proof (in_pages v STACK_PAGE 1) as Hp. lia. }
  assert (Hrs : ∀ v, in_ro elf (v / PAGE_SIZE) → v / PAGE_SIZE ≠ STACK_PAGE) by (intros v [? ?]; lia).
  assert (Hws : ∀ v, in_rw elf (v / PAGE_SIZE) → v / PAGE_SIZE ≠ STACK_PAGE) by (intros v [? ?]; lia).
  constructor; intros v Hv; rewrite H5, H4, H3, H2, H1'.
  - pose proof (Hrs v Hv) as Hn. rewrite Ps in Hn. assert (Hnw : ¬ in_rw elf (v / PAGE_SIZE)) by (intros Hw; by apply (Hap (v / PAGE_SIZE))).
    rewrite Pw in Hnw. rewrite Pr in Hv. unfold seg_byte. rewrite (decide_False (P := rw_vaddr elf ≤ v < rw_vaddr elf + rw_size elf)) by lia.
    destruct (Z.ltb_spec (v - ro_vaddr elf) (ro_size elf)); [by rewrite decide_True by lia |].
    rewrite (decide_False (P := ro_vaddr elf ≤ v < ro_vaddr elf + ro_size elf)) by lia. rewrite decide_False by done.
    rewrite decide_False by done. by rewrite decide_True.
  - pose proof (Hws v Hv) as Hn. rewrite Ps in Hn. assert (Hnr : ¬ in_ro elf (v / PAGE_SIZE)) by (intros Hw; by apply (Hap (v / PAGE_SIZE))).
    rewrite Pr in Hnr. rewrite Pw in Hv. unfold seg_byte.
    destruct (Z.ltb_spec (v - rw_vaddr elf) (rw_size elf)); [by rewrite decide_True by lia |].
    rewrite decide_False by lia. rewrite decide_False by lia. rewrite decide_False by done. by rewrite decide_True.
  - assert (Hnr : ¬ in_ro elf (v / PAGE_SIZE)) by (intros Hr; by apply (Hrs v)).
    assert (Hnw : ¬ in_rw elf (v / PAGE_SIZE)) by (intros Hr; by apply (Hws v)).
    rewrite Pr in Hnr. rewrite Pw in Hnw. rewrite Ps in Hv. rewrite decide_False by lia. rewrite decide_False by lia. by rewrite decide_True.
Qed.

Lemma fill_image_wp (s : lst) cpu t pid pt s0 file e c elf :
  here (l_kern s) cpu t pid pt → space_ok pt (l_mem s) → idle s0 → open_at s0 file e → opened s0 file e c s →
  Z.of_nat (length c) < 2 ^ 31 → layout elf (Z.of_nat (length c)) →
  (∀ x, in_image elf x → ∃ q, pt_lookup pt x = Some (q, 1)) →
  wp (fill_image cpu file elf) (λ _ s', process_table (l_kern s') = process_table (l_kern s) ∧
    k_sched (l_kern s') = k_sched (l_kern s) ∧ opened s0 file e c s' ∧
    image elf c pt (l_mem s') ∧ space_ok pt (l_mem s') ∧ (∀ q, ¬ owns pt q → l_mem s' !! q = l_mem s !! q) ∧
    ∃ pt', here (l_kern s') cpu t pid pt' ∧ pt_wf pt' ∧
      ∀ x, pt_lookup pt' x = if decide (in_ro elf x) then (λ y, (y.1, 0)) <$> pt_lookup pt x else pt_lookup pt x) s.
Proof.
  intros Hh Hsp Hid He Ho Hlc Hly Hmap. pose proof Hly as [_ [Hrol Hros Hroa Hrov Hroe] [Hrwl Hrws Hrwa Hrwv Hrwe] _].
  assert (Hn : 0 ≤ ro_pages elf ∧ 0 ≤ rw_pages elf) by (unfold PAGE_SIZE in Hros, Hrws; lia).
  assert (Hst : ∀ v, in_image elf (v / PAGE_SIZE) → can_store pt v) by (intros v Hv; by apply Hmap).
  assert (Pr : ∀ v, ro_vaddr elf ≤ v < ro_vaddr elf + ro_pages elf * PAGE_SIZE → can_store pt v).
  { intros v Hv. apply Hst. right. left. apply in_pages. by rewrite <- Hroa. }
  assert (Pw : ∀ v, rw_vaddr elf ≤ v < rw_vaddr elf + rw_pages elf * PAGE_SIZE → can_store pt v).
  { intros v Hv. apply Hst. right. right. left. apply in_pages. by rewrite <- Hrwa. }
  assert (Ps : ∀ v, STACK_PAGE * PAGE_SIZE ≤ v < STACK_PAGE * PAGE_SIZE + PAGE_SIZE → can_store pt v).
  { intros v Hv. apply Hst. left. pose proof (in_pages v STACK_PAGE 1). lia. }
  set (rf := ro_vaddr elf / PAGE_SIZE) in *. set (wf := rw_vaddr elf / PAGE_SIZE) in *.
  assert (Hre : ro_vaddr elf + ro_pages elf * PAGE_SIZE ≤ 0x7fffe000) by (rewrite Hroa; unfold PAGE_SIZE, STACK_PAGE in *; lia).
  assert (Hwe : rw_vaddr elf + rw_pages elf * PAGE_SIZE ≤ 0x7fffe000) by (rewrite Hrwa; unfold PAGE_SIZE, STACK_PAGE in *; lia).
  assert (Htop : STACK_PAGE * PAGE_SIZE + PAGE_SIZE = 0x7ffff000 ∧ PAGE_SIZE = 4096) by done.
  unfold fill_image. change (Z.land USERLAND_STACK_TOP PAGE_SIZE_MASK - (CONFIG_USERLAND_STACK_SIZE - 1) * PAGE_SIZE) with (STACK_PAGE * PAGE_SIZE).
  change (CONFIG_USERLAND_STACK_SIZE * PAGE_SIZE) with PAGE_SIZE. rewrite !s32_small by (unfold is_s32; lia).
  wp_step. eapply wp_mono; [apply (user_memoryset_wp s cpu t pid pt); try done; lia |]. intros [] s1 (m1 & -> & Hp1).
  wp_step. eapply wp_mono; [apply (user_memoryset_wp _ cpu t pid pt); try done; [apply Hp1 | lia ..] |]. intros [] s2 (m2 & -> & Hp2).
  wp_step. eapply wp_mono; [apply (user_memoryset_wp _ cpu t pid pt); try done; [apply Hp2 | lia ..] |]. intros [] s3 (m3 & -> & Hp3).
  wp_step. eapply wp_mono; [apply (copy_segment_wp _ cpu t pid pt s0 file e c); try done; try lia; [apply Hp3 | intros v Hv; apply Pr; lia] |].
  intros [] s4 (Ho4 & Hk4 & Hp4). cbn [l_kern set_mem] in Hk4.
  wp_step. eapply wp_mono; [apply (copy_segment_wp _ cpu t pid pt s0 file e c); try done; try lia; [by rewrite Hk4 | apply Hp4 | intros v Hv; apply Pw; lia] |].
  intros [] s5 (Ho5 & Hk5 & Hp5). rewrite Hk4 in Hk5.
  destruct (patches_image elf c pt (l_mem s) m1 m2 m3 (l_mem s4) (l_mem s5) Hly Hp1 Hp2 Hp3 Hp4 Hp5) as [Him Hkeep].
  eapply wp_mono; [apply (set_dirty_range_wp _ s5 cpu t pid pt rf (ro_vaddr elf) 0); try done; [by rewrite Hk5 | apply Hp5 | | | |] |].
  - unfold rf. apply Z.div_pos; [lia | done].
  - unfold STACK_PAGE in Hroe. lia.
  - by rewrite Z.sub_0_r.
  - intros x Hx. destruct (Hmap x) as [q Hq]; [right; left; unfold in_ro; fold rf; lia | by exists (q, 1)].
  - intros [] s6 (Hv6 & Hm6 & Hpt6 & Hs6 & _ & pt' & Hh6 & Hwf6 & Hlk6). rewrite Hm6, Hpt6, Hs6, Hk5.
    split_and!; try done; [unfold opened; by rewrite Hv6 | apply Hp5 |].
    exists pt'. split_and!; [done | done |]. intros x. rewrite Hlk6. rewrite Z2Nat.id by lia. done.
Qed.

(** Permissions do not change what memory holds. *)
Lemma ubyte_frames pt pt' m v :
  (fst <$> pt_lookup pt' (v / PAGE_SIZE)) = (fst <$> pt_lookup pt (v / PAGE_SIZE)) → ubyte pt' m v = ubyte pt m v.
Proof. unfold ubyte. by destruct (pt_lookup pt' _) as [[]|], (pt_lookup pt _) as [[]|]; intros [=]; subst. Qed.

Lemma space_frames pt pt' m :
  (∀ x, fst <$> pt_lookup pt' x = fst <$> pt_lookup pt x) → pt_wf pt' → space_ok pt m → space_ok pt' m.
Proof.
  intros Hf Hwf [_ Hinj Hmem].
  assert (Hx : ∀ x q d, pt_lookup pt' x = Some (q, d) → ∃ d', pt_lookup pt x = Some (q, d')).
  { intros x q d Hq. specialize (Hf x). rewrite Hq in Hf. destruct (pt_lookup pt x) as [[q' d']|]; [| done].
    injection Hf as ->. by exists d'. }
  constructor; [done | |].
  - intros w w' q d d' (e & Hq)%Hx (e' & Hq')%Hx. by eapply Hinj.
  - intros w q d (d' & Hq)%Hx. by eapply Hmem.
Qed.

Lemma image_frames elf c pt pt' m :
  (∀ x, fst <$> pt_lookup pt' x = fst <$> pt_lookup pt x) → image elf c pt m → image elf c pt' m.
Proof. intros Hf [H1' H2 H3]. constructor; intros v Hv; rewrite (ubyte_frames pt) by apply Hf; auto. Qed.

(** Process [pid] is about to start in the new thread [t]: its executable can
    be opened, holds [c] and describes an image for which there is room. *)
Record exec_ready (junk : bytes) (s : lst) (cpu t pid : Z) (p : pcb) (file : Z) (v1 : @vstate F) (e : openfile_entry) (c : bytes) : Prop := {
  er_ok : kern_ok (l_kern s);
  er_runs : ∃ me, runs (l_kern s) cpu t me;
  er_new : th_pagetable (th (k_sched (l_kern s)) t) = 0;
  er_pid : 0 ≤ pid;
  er_pcb : process_table (l_kern s) !! Z.to_nat pid = Some p;
  er_tables : tables_inv (k_vm (l_kern s));
  er_open : vfs_open junk (executable p) (l_vfs s) = Ok (file, v1);
  er_idle : idle (fst v1);
  er_at : open_at (fst v1) file e ∧ seek_position e = 0;
  er_store : fs_ok (snd v1) ∧ fs_reliable (snd v1) ∧ file_at (snd v1) (of_filesystem e) (fileid e) c;
  er_valid : is_bytes c ∧ valid_exec c;
  er_layout : layout (info_of c) (Z.of_nat (length c));
  er_room : Z.of_nat (image_pages (info_of c)) ≤ PAGETABLE_ENTRIES ∧
    (image_pages (info_of c) < size (free_pages (fst (k_vm (l_kern s)))))%nat;
  er_mem q : q ∈ free_pages (fst (k_vm (l_kern s))) → ∃ b, l_mem s !! q = Some b ∧ length b = 4096%nat;
}.

(** The state when the executable is open and the thread has an empty table. *)
Definition started (s : lst) (t pid a : Z) (v : @tables P) (v1 : @vstate F) : lst :=
  mk_lstate (mk_kern (process_table (l_kern s)) (upd t (set_pt a) (upd t (set_pid pid) (k_sched (l_kern s)))) v) v1 (l_mem s).

Lemma open_image_wp junk (garbage : Z → list tlb_entry) hdr_addr phdr_addr h ph s cpu t pid p file v1 e c :
  (∀ a, length (garbage a) = Z.to_nat PAGETABLE_ENTRIES) → hdr_addr ≠ NULL → phdr_addr ≠ NULL → length h = 52%nat → length ph = 32%nat →
  exec_ready junk s cpu t pid p file v1 e c →
  wp (open_image junk garbage hdr_addr phdr_addr h ph cpu pid) (λ r s1, r = (file, info_of c) ∧
    ∃ a v pt0 q0 v2, s1 = started s t pid a v v2 ∧ tables_inv v ∧ snd v = <[a := pt0]> (snd (k_vm (l_kern s))) ∧ valid_count pt0 = 0 ∧
      q0 ∈ free_pages (fst (k_vm (l_kern s))) ∧ free_pages (fst v) = free_pages (fst (k_vm (l_kern s))) ∖ {[q0]} ∧
      ∃ q, reading (fst v1) file e c q v2) s.
Proof.
  intros Hg Ha1 Ha2 Hh Hph [Hok [me Hruns] Hnew Hpid Hp Htabs Hopen Hid [He Hpos] (Hfs & Hrel & Hc) [Hby Hval] Hly [_ Hroom] _].
  pose proof (ko_sched _ Hok) as Hi. pose proof Hi as [Hq _ _]. pose proof (q_len _ _ _ Hq) as Hlen.
  pose proof (rn_tid _ _ _ _ Hruns) as Htid. pose proof (tid_slot _ Htid) as Hts.
  destruct (other_field_inv (k_sched (l_kern s)) t (set_pid pid) Hi Hts) as (Hi1 & _ & _ & Ht1); [done |].
  pose proof Hi1 as [Hq1 _ _]. pose proof (q_len _ _ _ Hq1) as Hlen1.
  unfold open_image. wp_step. apply in_lk_wp, on_sched_wp. apply wp_get_current; [apply Hq | apply Hruns |]. intros t' Ht'.
  assert (t' = t) as -> by (pose proof (rn_cur _ _ _ _ Hruns); congruence). cbn [l_kern l_vfs l_mem].
  wp_step. apply in_lk_wp, on_sched_wp. cbn [l_kern k_sched]. apply wp_set_thread; [done | done |].
  change (upd t (λ th, _) (k_sched (l_kern s))) with (upd t (set_pid pid) (k_sched (l_kern s))).
  wp_step. apply in_lk_wp. eapply get_pcb_wp; [done | exact Hp |]. cbn [l_kern l_vfs l_mem].
  wp_step. apply in_lk_wp, on_sched_wp. cbn [l_kern k_sched process_table k_vm]. apply wp_get_thread; [done | done |].
  wp_step. wp_step; [by rewrite Ht1; simpl; rewrite Hnew |].
  wp_step. apply in_lk_wp. unfold on_vm. wp_step. cbn [l_kern k_sched process_table k_vm].
  eapply wp_mono; [by apply vm_create_free_wp |]. intros a v (Hv & Hres). cbn [l_kern k_sched process_table k_vm].
  destruct (Z.eqb_spec a 0) as [->|Ha]; [exfalso; rewrite (proj1 Hres), size_empty in Hroom; lia |].
  destruct Hres as (Hnone & (pt0 & Hsnd & _ & Hvc0) & q0 & Hq0 & Hfree).
  wp_step. wp_step; [done |].
  wp_step. apply in_lk_wp, on_sched_wp. cbn [l_kern k_sched process_table k_vm]. apply wp_set_thread; [done | done |].
  change (upd t (λ th, _) ?y) with (upd t (set_pt a) y).
  wp_step. apply in_lv_wp. apply wp_iff. exists file, v1. split; [exact Hopen |]. wp_step. wp_step; [apply Z.leb_le, He |].
  destruct v1 as [vs1 f1]. cbn [fst snd] in *.
  destruct (elf_parse_run hdr_addr phdr_addr vs1 f1 file e c h ph Hid He Hpos Hfs Hrel Hc Hby Ha1 Ha2 Hh Hph) as (v2 & Hrun & Hv2).
  { intros _. destruct Hval as (_ & Hin & _). pose proof (file_at_size _ _ _ _ Hfs Hc). pose proof (h32_range c 28 Hby). unfold phoff in Hin. lia. }
  rewrite decide_True in Hrun by done. wp_step. apply in_lv_wp. apply wp_iff. exists (Some (info_of c)), v2. split; [exact Hrun |].
  wp_step. wp_step; [apply Z.leb_le, Hly |]. wp_step.
  split; [done |]. by exists a, v, pt0, q0, v2.
Qed.

Lemma mapped_empty (k0 : @kern P) a pt0 tabs :
  k_vm k0 = tabs → tables_inv tabs → snd tabs !! a = Some pt0 → valid_count pt0 = 0 → mapped k0 a ∅ k0 pt0.
Proof.
  intros <- [Hp Ht] Hpt Hvc. destruct (Ht _ _ Hpt) as [Hwf _]. constructor; try done.
  - exists (fst (k_vm k0)). split_and!; [| done | intros q; split; [done | by intros [? _]]].
    unfold with_vm. rewrite insert_id by done. by destruct k0 as [? ? []].
  - rewrite map_size_empty. lia.
  - intros w. unfold pt_lookup, used. rewrite Hvc. done.
Qed.

(** The pages of a mapped image are memory of the process alone. *)
Lemma mapped_space k0 a fr k pt (m : gmap Z bytes) :
  mapped k0 a fr k pt → (∀ q, q ∈ free_pages (fst (k_vm k0)) → ∃ b, m !! q = Some b ∧ length b = 4096%nat) → space_ok pt m.
Proof.
  intros [_ Hwf _ Hlk Hinj Hfree] Hm.
  assert (Hx : ∀ w q d, pt_lookup pt w = Some (q, d) → fr !! w = Some q).
  { intros w q d. rewrite Hlk. destruct (fr !! w); [| done]. by intros [= ->]. }
  constructor; [done | |].
  - intros w w' q d d' ?%Hx ?%Hx. by eapply Hinj.
  - intros w q d Hq%Hx. by eapply Hm, Hfree.
Qed.

(** The executable is open and its segments are mapped. *)
Lemma start_image_wp junk (garbage : Z → list tlb_entry) hdr_addr phdr_addr h ph s cpu t pid p file v1 e c :
  (∀ a, length (garbage a) = Z.to_nat PAGETABLE_ENTRIES) → hdr_addr ≠ NULL → phdr_addr ≠ NULL → length h = 52%nat → length ph = 32%nat →
  exec_ready junk s cpu t pid p file v1 e c → let elf := info_of c in
  wp ('(file, elf) ← open_image junk garbage hdr_addr phdr_addr h ph cpu pid; map_image cpu elf;; mret (file, elf)) (λ r s1,
    r = (file, elf) ∧ l_mem s1 = l_mem s ∧ (∃ q, reading (fst v1) file e c q (l_vfs s1)) ∧
    ∃ k0 a fr pt, base k0 cpu t pid a ∧ process_id (th (k_sched k0) t) = pid ∧ process_table k0 = process_table (l_kern s) ∧
      mapped k0 a fr (l_kern s1) pt ∧
      (∀ q, q ∈ free_pages (fst (k_vm k0)) → q ∈ free_pages (fst (k_vm (l_kern s)))) ∧
      (image_pages elf ≤ size (free_pages (fst (k_vm k0))))%nat ∧
      size fr = S (Z.to_nat (ro_pages elf) + Z.to_nat (rw_pages elf)) ∧
      ∀ x, is_Some (fr !! x) ↔ x = STACK_PAGE ∨ in_ro elf x ∨ in_rw elf x) s.
Proof.
  intros Hg Ha1 Ha2 Hh Hph Hr elf. pose proof Hr as [Hok [me Hruns] _ Hpid Hp _ _ Hid [He _] (Hfs & _ & Hc) _ Hly [Hent Hroom] Hmem].
  wp_step. eapply wp_mono; [by apply (open_image_wp _ _ _ _ _ _ s cpu t pid p file v1 e c) |].
  intros [fl el] s1 ([= -> ->] & a & v & pt0 & q0 & v2 & -> & Hv & Hsnd & Hvc0 & Hq0 & Hfree & Hrd). fold elf in Hly, Hent, Hroom |- *.
  destruct (adopt_sched (l_kern s) cpu t me pid a v Hok Hruns) as (Hok0 & Hruns0 & _ & Hth0 & _).
  set (k0 := mk_kern _ _ _) in Hok0, Hruns0, Hth0.
  assert (Hb : base k0 cpu t pid a) by (constructor; [done | done | by rewrite Hth0]).
  assert (Hm0 : mapped k0 a ∅ k0 pt0) by (apply (mapped_empty k0 a pt0 v); [done | exact Hv | by rewrite Hsnd, lookup_insert_eq | done]).
  assert (Hsize : (image_pages elf ≤ size (free_pages (fst (k_vm k0))))%nat).
  { cbn. rewrite Hfree, size_difference, size_singleton by (by apply singleton_subseteq_l). lia. }
  wp_step. eapply wp_mono; [by eapply (map_image_wp (started s t pid a v v2) k0 cpu t pid a pt0 elf); [exact Hb | exact Hm0 | exact Hly | |] |].
  intros [] s1 (Hv1 & Hm1 & fr & pt & Hmp & Hsz & Hdom). wp_step. split_and!; [done | done | |].
  - destruct Hrd as [q Hrd]. exists q. by rewrite Hv1.
  - exists k0, a, fr, pt. split_and!; try done; [by rewrite Hth0 |]. intros q Hq. cbn in Hq. rewrite Hfree in Hq.
    by apply elem_of_difference in Hq as [? _].
Qed.

(** [process_start] from there on. *)
Lemma start_split junk (garbage : Z → list tlb_entry) hdr_addr phdr_addr h ph cpu pid (s : lst) :
  process_start junk garbage hdr_addr phdr_addr h ph cpu pid s =
  ('(file, elf) ← ('(file, elf) ← open_image junk garbage hdr_addr phdr_addr h ph cpu pid; map_image cpu elf;; mret (file, elf));
   map_heap cpu pid elf;; fill_image cpu file elf;;
   regs ← pure (aset (replicate 29 0) MIPS_REGISTER_SP USERLAND_STACK_TOP);
   mret (mk_uctx regs 0 0 (entry_point elf) 0 0)) s.
Proof.
  unfold process_start. unfold mbind, K_bind, mret, K_ret.
  destruct (open_image _ _ _ _ _ _ _ _ s) as [[[fl el] s1]| | | |]; [| done..].
  by destruct (map_image cpu el s1) as [[[] s2]| | | |].
Qed.

(** The pages are filled, and the read-only ones protected. *)
Lemma fill_start_wp (s : lst) k1 cpu t pid a fr pt s0 file e c elf :
  base k1 cpu t pid a → mapped k1 a fr (l_kern s) pt → (∀ x, is_Some (fr !! x) ↔ in_image elf x) →
  layout elf (Z.of_nat (length c)) → idle s0 → open_at s0 file e → Z.of_nat (length c) < 2 ^ 31 →
  (∃ q, reading s0 file e c q (l_vfs s)) →
  (∀ q, q ∈ free_pages (fst (k_vm k1)) → ∃ b, l_mem s !! q = Some b ∧ length b = 4096%nat) →
  wp (fill_image cpu file elf) (λ _ s', process_table (l_kern s') = process_table k1 ∧ k_sched (l_kern s') = k_sched k1 ∧
    ∃ pt', snd (k_vm (l_kern s')) !! a = Some pt' ∧ space_ok pt' (l_mem s') ∧ image elf c pt' (l_mem s') ∧
      (∀ x, match pt_lookup pt' x with
            | Some (q, d) => in_image elf x ∧ d = (if decide (in_ro elf x) then 0 else 1) ∧ q ∈ free_pages (fst (k_vm k1))
            | None => ¬ in_image elf x
            end) ∧
      (∀ q, q ∉ free_pages (fst (k_vm k1)) → l_mem s' !! q = l_mem s !! q)) s.
Proof.
  intros Hb Hmp Hdom Hly Hid He Hlen Hrd Hmem.
  assert (Hsp : space_ok pt (l_mem s)) by (by eapply mapped_space).
  assert (Hk : process_table (l_kern s) = process_table k1 ∧ k_sched (l_kern s) = k_sched k1)
    by (by destruct (mp_state _ _ _ _ _ Hmp) as (? & -> & _)).
  eapply wp_mono; [apply (fill_image_wp s cpu t pid pt s0 file e c elf); try done |].
  - by eapply mapped_here.
  - intros x Hx. apply Hdom in Hx as [q Hq]. exists q. by rewrite (mp_lookup _ _ _ _ _ Hmp), Hq.
  - intros [] s2 (Hpt2 & Hs2 & _ & Him & Hsp2 & Hkeep & pt' & Hh2 & Hwf' & Hlk').
    assert (Hfr : ∀ x, fst <$> pt_lookup pt' x = fst <$> pt_lookup pt x).
    { intros x. rewrite Hlk'. case_decide; [| done]. by destruct (pt_lookup pt x) as [[]|]. }
    rewrite Hpt2, Hs2, (proj1 Hk), (proj2 Hk). split_and!; [done | done |].
    exists pt'. destruct Hh2 as [_ _ Hpt']. rewrite Hs2, (proj2 Hk), (b_table _ _ _ _ _ Hb) in Hpt'.
    split_and!; [exact Hpt' | by eapply space_frames | by eapply image_frames | |].
    + intros x. rewrite Hlk', (mp_lookup _ _ _ _ _ Hmp). specialize (Hdom x). destruct (fr !! x) as [q|] eqn:Hq; cbn.
      * assert (q ∈ free_pages (fst (k_vm k1))) by (eapply (mp_free _ _ _ _ _ Hmp); exact Hq).
        assert (in_image elf x) by (by apply Hdom). by case_decide.
      * assert (¬ in_image elf x) by (intros Hx; by apply Hdom, is_Some_None in Hx). by case_decide.
    + intros q Hq. apply Hkeep. intros (w & d & Hw). apply Hq.
      rewrite (mp_lookup _ _ _ _ _ Hmp) in Hw. destruct (fr !! w) as [q'|] eqn:Hw'; [| done].
      injection Hw as -> _. exact (mp_free _ _ _ _ _ Hmp w q Hw').
Qed.

(** C10: [process_start] builds the image of its executable.  When the file is a
    valid executable whose segments start at page boundaries, do not overlap
    and fit below the stack, the page table and the free pages, the thread
    enters userland at the entry point with the stack pointer at the top of the
    stack and all other registers 0.  The read-only and the writable segment
    hold the bytes of the file, followed by zeros to the end of their last
    page; the stack page is zero, and nothing else is mapped but the first page
    of the heap.  Only the read-only segment is write protected.  All pages are
    on frames of their own that were free, and no frame that was in use has
    changed.  The heap starts behind the bytes of the writable segment that are
    in the file, [rw_vaddr + rw_size], so inside its zeros when the segment has
    any; a page is mapped for it when that is the start of a page.  If this
    page already belongs to a segment or to the stack (as with a writable
    segment that has no bytes in the file, but zeros) the kernel stops. *)
Theorem process_start_loads junk (garbage : Z → list tlb_entry) hdr_addr phdr_addr h ph s cpu t pid p file v1 e c :
  (∀ a, length (garbage a) = Z.to_nat PAGETABLE_ENTRIES) → hdr_addr ≠ NULL → phdr_addr ≠ NULL → length h = 52%nat → length ph = 32%nat →
  exec_ready junk s cpu t pid p file v1 e c → let elf := info_of c in
  (heap_taken elf →
    process_start junk garbage hdr_addr phdr_addr h ph cpu pid s = Panic "Tried to re-map same virtual page") ∧
  (¬ heap_taken elf → ∃ s', process_start junk garbage hdr_addr phdr_addr h ph cpu pid s =
      Ok (mk_uctx (<[26%nat := USERLAND_STACK_TOP]> (replicate 29 0)) 0 0 (entry_point elf) 0 0, s') ∧
    process_id (th (k_sched (l_kern s')) t) = pid ∧
    process_table (l_kern s') = <[Z.to_nat pid := set_heap_end (heap_of elf) p]> (process_table (l_kern s)) ∧
    ∃ pt, snd (k_vm (l_kern s')) !! th_pagetable (th (k_sched (l_kern s')) t) = Some pt ∧
      space_ok pt (l_mem s') ∧ image elf c pt (l_mem s') ∧
      (∀ x, match pt_lookup pt x with
            | Some (q, d) => in_image elf x ∧ d = (if decide (in_ro elf x) then 0 else 1) ∧ q ∈ free_pages (fst (k_vm (l_kern s)))
            | None => ¬ in_image elf x
            end) ∧
      (∀ q, q ∉ free_pages (fst (k_vm (l_kern s))) → l_mem s' !! q = l_mem s !! q)).
Proof.
  intros Hg Ha1 Ha2 Hh Hph Hr elf. pose proof Hr as [_ _ _ Hpid Hp _ _ Hid [He _] (Hfs & _ & Hc) _ Hly [Hent _] Hmem]. fold elf in Hly, Hent.
  pose proof (start_image_wp junk garbage hdr_addr phdr_addr h ph s cpu t pid p file v1 e c Hg Ha1 Ha2 Hh Hph Hr) as Himg.
  fold elf in Himg. rewrite start_split. split; intros Hheap.
  { apply bind_Panic. eapply wp_mono; [exact Himg |]. clear Himg.
    intros [fl el] s1 ([= -> ->] & _ & _ & k0 & a & fr & pt & Hb & _ & Hpt0 & Hmp & _ & Hroom & Hsz & Hdom).
    unfold mbind at 1, K_bind at 1. erewrite map_heap_taken; [done | exact Hb | exact Hmp | exact Hly | done | done | done | by rewrite Hpt0 |].
    unfold image_pages in Hroom. rewrite (proj1 Hheap) in Hroom. cbn [Z.eqb] in Hroom. lia. }
  match goal with |- ∃ s', ?m s = Ok (?ctx, _) ∧ @?Post s' => assert (Hwp : wp m (λ r s', r = ctx ∧ Post s') s) end.
  2: { apply wp_iff in Hwp as (r & s' & Hrun & -> & HP). by exists s'. }
  wp_step. eapply wp_mono; [exact Himg |]. clear Himg.
  intros [fl el] s1 ([= -> ->] & Hm1 & Hrd & k0 & a & fr0 & pt0 & Hb & Hpid0 & Hpt0 & Hmp0 & Hsub & Hroom & Hsz & Hdom0).
  wp_step. eapply wp_mono; [eapply map_heap_wp; [exact Hb | exact Hmp0 | exact Hly | done | done | done | done | by rewrite Hpt0 | done | done] |].
  rewrite Hpt0. intros [] s2 (Hv2 & Hm2 & Hb2 & fr & pt & Hmp & Hdom). clear fr0 pt0 Hmp0 Hsz Hdom0. rewrite <- Hv2 in Hrd. rewrite <- Hm2 in Hm1.
  set (k1 := set_ptable _ k0) in *.
  wp_step. eapply wp_mono; [apply (fill_start_wp s2 k1 cpu t pid a fr pt (fst v1) file e c elf); try done |].
  - by eapply file_at_size.
  - intros q Hq. rewrite Hm1. by apply Hmem, Hsub.
  - intros [] s3 (Hpt3 & Hs3 & pt' & Htab & Hsp & Him & Hlk & Hkeep).
    wp_step. eapply wp_pure; [by apply aset_Ok |]. cbv beta. wp_step. split; [done |].
    rewrite Hs3, Hpt3, (b_table _ _ _ _ _ Hb2). split_and!; [done | done |]. exists pt'. split_and!; [done | done | done | |].
    + intros x. specialize (Hlk x). destruct (pt_lookup pt' x) as [[q d]|]; [| done]. destruct Hlk as (? & ? & ?). by split_and!; [| | apply Hsub].
    + intros q Hq. rewrite Hkeep, Hm1; [done |]. intros Hq'. by apply Hq, Hsub.
Qed.
End loader_spec.

(** ** Witness *)

(** Process 1 is to run the example executable, as file "[d]a", in thread 1. *)
Definition example_start_pcb : pcb :=
  mk_pcb ([91; 100; 93; 97] ++ replicate 60 0) PROCESS_RUNNING 0 0 0 (replicate 512 (-1)).

Definition example_start_kern : @kern pagepool :=
  set_ptable (<[1%nat := example_start_pcb]> example_ptable) (mk_kern example_ptable example_state (example_pool, ∅)).

Definition example_start : @lstate pagepool memfs :=
  mk_lstate example_start_kern
    (example_vfs [], mk_memfs example_exec_file) example_mem.

Lemma example_start_ok : kern_ok example_start_kern.
Proof.
  destruct (example_kern_ok 0) as [Hl He Hf _].
  apply (kern_ok_pcb (mk_kern example_ptable example_state (example_pool, ∅)) 1 example_start_pcb); [| reflexivity | reflexivity].
  constructor; [exact Hl | exact He | exact Hf | exact example_state_inv].
Qed.

Lemma example_info : info_of example_exec_file = mk_elf 0x1000 116 4 1 0x1000 120 2 1 0x3000.
Proof. vm_compute. reflexivity. Qed.

Lemma example_layout : layout (info_of example_exec_file) (Z.of_nat (length example_exec_file)).
Proof.
  rewrite example_info. change (Z.of_nat (length example_exec_file)) with 122.
  constructor; unfold in_ro, in_rw, in_heap, heap_of, STACK_PAGE; cbn.
  - unfold PAGE_SIZE. lia.
  - constructor; vm_compute; intuition discriminate.
  - constructor; vm_compute; intuition discriminate.
  - intros x. change (0x1000 / PAGE_SIZE) with 1. change (0x3000 / PAGE_SIZE) with 3. lia.
Qed.

Lemma example_exec_ready :
  exec_ready (replicate 16 0) example_start 0 1 1 example_start_pcb 0 (example_vfs [mk_openfile 1 0 0], mk_memfs example_exec_file)
    (mk_openfile 1 0 0) example_exec_file.
Proof.
  assert (Hin : ∀ q, q ∈ pool_free example_pool → 0 ≤ q < 34) by (by intros q [Hq _]%elem_of_pool_free).
  assert (Hn : Z.of_nat (size (pool_free example_pool)) = 32) by (destruct example_pool_inv as (_ & _ & _ & _ & E); symmetry; exact E).
  assert (Hpg : image_pages (info_of example_exec_file) = 3%nat) by (vm_compute; reflexivity).
  constructor.
  - exact example_start_ok.
  - exists (-1). constructor; [lia | vm_compute; reflexivity | unfold tid; lia | | |]; vm_compute; reflexivity.
  - vm_compute. reflexivity.
  - lia.
  - reflexivity.
  - split; [apply example_pool_inv |]. intros a t Ha.
    change ((∅ : gmap Z pagetable) !! a = Some t) in Ha. by rewrite lookup_empty in Ha.
  - vm_compute. reflexivity.
  - apply example_idle. simpl. lia.
  - split; [split_and!; done | done].
  - split; [done | split; done].
  - split; apply (bool_decide_unpack _); vm_compute; exact I.
  - apply example_layout.
  - rewrite Hpg. split; [unfold PAGETABLE_ENTRIES; lia |]. change (free_pages _) with (pool_free example_pool). lia.
  - intros q Hq. exists (replicate 4096 q). split; [apply example_mem_page, Hin, Hq | apply length_replicate].
Qed.

Lemma process_start_loads_witness :
  ∃ s' pt, process_start (replicate 16 0) example_garbage 0x9000 0x9100 (replicate 52 0) (replicate 32 0) 0 1 example_start =
      Ok (mk_uctx (<[26%nat := USERLAND_STACK_TOP]> (replicate 29 0)) 0 0 0x1000 0 0, s') ∧
    ubyte pt (l_mem s') 0x1001 = Some 2 ∧ ubyte pt (l_mem s') 0x1004 = Some 0 ∧ ubyte pt (l_mem s') 0x3001 = Some 9.
Proof.
  destruct (process_start_loads (replicate 16 0) example_garbage 0x9000 0x9100 (replicate 52 0) (replicate 32 0)
    example_start 0 1 1 example_start_pcb 0 (example_vfs [mk_openfile 1 0 0], mk_memfs example_exec_file) (mk_openfile 1 0 0) example_exec_file
    (λ _, eq_refl) ltac:(discriminate) ltac:(discriminate) eq_refl eq_refl example_exec_ready) as [_ Hloads].
  destruct Hloads as (s' & Hrun & _ & _ & pt & _ & _ & Him & _).
  { rewrite example_info. intros [Hx _]. by vm_compute in Hx. }
  rewrite example_info in Hrun, Him. exists s', pt. split; [exact Hrun |].
  split; [| split].
  - rewrite (im_ro _ _ _ _ Him) by (split; done). reflexivity.
  - rewrite (im_ro _ _ _ _ Him) by (split; done). reflexivity.
  - rewrite (im_rw _ _ _ _ Him) by (split; done). reflexivity.
Defined.
