(* ===== verification/UsrSem.v ===== *)
(** * Semaphores for user processes (src/buenos/proc/usr_sem.c, usr_sem.h)

    A table of named blocks, each with a semaphore of the kernel behind it; the
    handle of a user process is the address of a block.  The sections under the
    spin lock are atomic; a P that has to wait ends, as in [Semaphore], with
    another thread on the processor. *)

From S2P Require Import Prelude Libc Sched SchedSpec Semaphore.
Local Open Scope Z_scope.

Definition MAX_USR_SEM : Z := 32.
Definition MAX_USR_SEM_NAME : Z := 32.
Definition USR_SEM_ERROR_NOT_IN_USE : Z := -1.
Definition SIZEOF_USR_SEM_BLOCK : Z := 4 + 32 + 4.

(** [usr_sem_state_t] *)
Inductive usr_sem_state := USR_SEM_FREE | USR_SEM_USED.
#[global] Instance usr_sem_state_eq : EqDecision usr_sem_state.
Proof. solve_decision. Defined.

(** [usr_sem_block_t]; the semaphore is its index, [None] for a null pointer. *)
Record usr_sem_block := mk_block { b_state : usr_sem_state; b_name : bytes; kernel_sem : option Z }.

Section usr_sem.
Context {Q : Type} `{SleepQueue Q}.
(** The addresses of [semaphore_table] and [usr_sem_table]. *)
Context (sems_addr table_addr : Z).

Record usems := mk_usems { usr_sem_table : list usr_sem_block; k_sems : @sems Q }.

Definition on_sems {A} (m : K (@sems Q) A) : K usems A := zoom k_sems (λ x s, mk_usems (usr_sem_table s) x) m.
Definition get_block (i : Z) : K usems usr_sem_block := s ← gets id; pure (aget (usr_sem_table s) i).
Definition put_block (i : Z) (b : usr_sem_block) : K usems unit :=
  s ← gets id;
  l ← pure (aset (usr_sem_table s) i b);
  modify (λ s, mk_usems l (k_sems s)).

(** The address of a block. *)
Definition block_addr (i : Z) : Z := table_addr + SIZEOF_USR_SEM_BLOCK * i.

Definition usr_sem_reset (i : Z) : K usems unit :=
  b ← get_block i;
  put_block i (mk_block USR_SEM_FREE (b_name b) (kernel_sem b)).

(** The block a pointer points to; a pointer into the middle of a block passes
    the comparison, and what it then reads is no block. *)
Definition find_sem (p : Z) : res (option Z) :=
  if (table_addr <=? p) && (p <? table_addr + SIZEOF_USR_SEM_BLOCK * MAX_USR_SEM) then
    if (p - table_addr) mod SIZEOF_USR_SEM_BLOCK =? 0 then Ok (Some ((p - table_addr) / SIZEOF_USR_SEM_BLOCK))
    else Undef
  else Ok None.

Definition usr_sem_init : K usems unit := for_each (Z.to_nat MAX_USR_SEM) 0 usr_sem_reset.

(** The loop over the table for a block with the name. *)
Definition find_named (name : bytes) : K usems (option Z) :=
  for_ (Z.to_nat MAX_USR_SEM) 0 (λ i,
    b ← get_block i;
    if bool_decide (b_state b = USR_SEM_USED) then
      c ← pure (stringcmp (b_name b) name);
      if c =? 0 then mret (Some i) else mret None
    else mret None).

(** The address of the block, 0 for [NULL]. *)
Definition usr_sem_open (cpu : Z) (name : bytes) (value : Z) : K usems Z :=
  if value <? 0 then
    found ← find_named name;
    mret (if found is Some i then block_addr i else 0)
  else
    found ← find_named name;
    match found with
    | Some _ => mret 0
    | None =>
        new ← for_ (Z.to_nat MAX_USR_SEM) 0 (λ i,
          b ← get_block i;
          if bool_decide (b_state b = USR_SEM_FREE) then
            put_block i (mk_block USR_SEM_USED (b_name b) (kernel_sem b));;
            n ← pure (stringcopy (b_name b) name MAX_USR_SEM_NAME);
            put_block i (mk_block USR_SEM_USED n (kernel_sem b));;
            k ← on_sems (semaphore_create cpu value);
            put_block i (mk_block USR_SEM_USED n k);;
            mret (Some (block_addr i))
          else mret None);
        mret (default 0 new)
    end.

(** The guard of the three operations on a handle. *)
Definition checked (p : Z) : K usems (option (Z * usr_sem_block)) :=
  o ← pure (find_sem p);
  match o with
  | None => mret None
  | Some i => b ← get_block i; mret (if bool_decide (b_state b = USR_SEM_USED) then Some (i, b) else None)
  end.

(** What a kernel semaphore pointer points to; nothing when it is null. *)
Definition pointee (b : usr_sem_block) : res Z := match kernel_sem b with Some k => Ok k | None => Undef end.

Definition usr_sem_p (cpu p : Z) : K usems Z :=
  o ← checked p;
  match o with
  | None => mret USR_SEM_ERROR_NOT_IN_USE
  | Some (_, b) => k ← pure (pointee b); on_sems (semaphore_P sems_addr cpu k);; mret 0
  end.

Definition usr_sem_v (p : Z) : K usems Z :=
  o ← checked p;
  match o with
  | None => mret USR_SEM_ERROR_NOT_IN_USE
  | Some (_, b) => k ← pure (pointee b); on_sems (semaphore_V sems_addr k);; mret 0
  end.

Definition usr_sem_destroy (p : Z) : K usems Z :=
  o ← checked p;
  match o with
  | None => mret 0
  | Some (i, b) =>
      k ← pure (pointee b);
      x ← on_sems (get_sem k);
      if value x <? 0 then mret 0
      else
        on_sems (semaphore_destroy k);;
        put_block i (mk_block USR_SEM_FREE (b_name b) (kernel_sem b));;
        mret 1
  end.

(** ** The table *)

Definition bname (b : usr_sem_block) : option bytes := cstr (b_name b).

(** A block with name [a] that is in use. *)
Definition named (a : bytes) (b : usr_sem_block) : Prop := b_state b = USR_SEM_USED ∧ bname b = Some a.
#[local] Instance named_dec a b : Decision (named a b).
Proof. unfold named. apply _. Defined.

(** The table of 32 blocks; the name of a block in use is a string. *)
Record table_ok (s : usems) : Prop := {
  to_len : length (usr_sem_table s) = 32%nat;
  to_name i b : usr_sem_table s !! i = Some b → length (b_name b) = 32%nat ∧ is_bytes (b_name b) ∧
    (b_state b = USR_SEM_USED → is_Some (bname b));
}.

(** The first block with a name, and the first free one. *)
Definition find_name_idx (a : bytes) (s : usems) : option nat := fst <$> list_find (named a) (usr_sem_table s).
Definition find_free (s : usems) : option nat := fst <$> list_find (λ b, b_state b = USR_SEM_FREE) (usr_sem_table s).

Lemma get_block_wp s i b (R : usr_sem_block → usems → Prop) :
  0 ≤ i → usr_sem_table s !! Z.to_nat i = Some b → R b s → wp (get_block i) R s.
Proof. intros Hi Hb HR. unfold get_block. do 2 wp_step. eapply wp_pure; [apply aget_Ok; split; [lia | exact Hb] | done]. Qed.

Lemma put_block_wp s i b (R : unit → usems → Prop) :
  0 ≤ i < Z.of_nat (length (usr_sem_table s)) →
  R tt (mk_usems (<[Z.to_nat i := b]> (usr_sem_table s)) (k_sems s)) → wp (put_block i b) R s.
Proof. intros Hi HR. unfold put_block. do 3 wp_step. eapply wp_pure; [by apply aset_Ok |]. cbv beta. by wp_step. Qed.

Lemma on_sems_wp {A} (m : K (@sems Q) A) s (R : A → usems → Prop) :
  wp m (λ a x, R a (mk_usems (usr_sem_table s) x)) (k_sems s) → wp (on_sems m) R s.
Proof. intros Hm. by apply wp_zoom. Qed.

Lemma find_named_wp s name a (R : option Z → usems → Prop) :
  table_ok s → is_bytes name → cstr name = Some a → R (Z.of_nat <$> find_name_idx a s) s → wp (find_named name) R s.
Proof.
  intros [Hl Hn] Hb Ha HR. unfold find_named.
  apply (wp_for (λ j s', s' = s ∧ ∀ i b, Z.of_nat i < j → usr_sem_table s !! i = Some b → ¬ named a b)).
  - split; [done | lia].
  - intros j s1 Hj [-> Hbelow]. unfold MAX_USR_SEM in Hj.
    destruct (lookup_lt_is_Some_2 (usr_sem_table s) (Z.to_nat j)) as [b Hbl]; [lia |].
    destruct (Hn _ _ Hbl) as (_ & Hbb & Hnm). wp_step. eapply get_block_wp; [lia | exact Hbl |].
    assert (Hnext : ¬ named a b → ∀ i b', Z.of_nat i < j + 1 → usr_sem_table s !! i = Some b' → ¬ named a b').
    { intros Hno i b' Hi Hb'. destruct (decide (i = Z.to_nat j)) as [->|]; [congruence |]. apply (Hbelow i); [lia | done]. }
    case_bool_decide as Hu.
    + destruct (Hnm Hu) as [c Hc]. destruct (stringcmp_eq (b_name b) name c a Hbb Hb Hc Ha) as (z & Hz & Hiff).
      wp_step. eapply wp_pure; [exact Hz |]. cbv beta. destruct (Z.eqb_spec z 0) as [E|E]; wp_step.
      * assert (He : find_name_idx a s = Some (Z.to_nat j)).
        { unfold find_name_idx. rewrite (proj2 (list_find_Some _ _ (Z.to_nat j) b)); [done |]. split; [done |]. split.
          - split; [done |]. rewrite Hc. f_equal. by apply Hiff.
          - intros i b' Hi Hlt. apply (Hbelow i); [lia | done]. }
        rewrite He in HR. simpl in HR. by rewrite Z2Nat.id in HR by lia.
      * split; [done |]. apply Hnext. intros [_ Hbn]. apply E, Hiff. congruence.
    + wp_step. split; [done |]. apply Hnext. by intros [? _].
  - intros s1 [-> Hall]. assert (He : find_name_idx a s = None); [| by rewrite He in HR].
    unfold find_name_idx. rewrite (proj2 (list_find_None _ _)); [done |]. apply Forall_lookup. intros i b Hi.
    apply (Hall i); [| done]. apply lookup_lt_Some in Hi. unfold MAX_USR_SEM. lia.
Qed.

Lemma find_free_Some s i : find_free s = Some i → ∃ b, usr_sem_table s !! i = Some b ∧ b_state b = USR_SEM_FREE.
Proof.
  unfold find_free. destruct (list_find _ _) as [[k b]|] eqn:Hf; [| done]. intros [= <-].
  apply list_find_Some in Hf as (Hk & Hb & _). by exists b.
Qed.

(** The block [usr_sem_open] fills in. *)
Definition new_block (a : bytes) (k : option Z) (b : usr_sem_block) : usr_sem_block :=
  mk_block USR_SEM_USED (splice 0 (take 31 a ++ [0]) (b_name b)) k.

(** What happens to the kernel's semaphores. *)
Definition backing (s s' : usems) (value : Z) (k : option Z) : Prop :=
  sem_inv sems_addr (k_sems s') ∧
  match k with
  | None => semaphore_table (k_sems s') = semaphore_table (k_sems s) ∧
      ∀ i x, 0 ≤ i → semaphore_table (k_sems s) !! Z.to_nat i = Some x → creator x ≠ -1
  | Some j => (∃ c, sem_is (k_sems s') j (mk_sem value c)) ∧
      ∃ x, semaphore_table (k_sems s) !! Z.to_nat j = Some x ∧ creator x = -1
  end.

Lemma create_block_wp s cpu name a v :
  table_ok s → sem_inv sems_addr (k_sems s) → is_bytes name → cstr name = Some a → 0 ≤ v < 2 ^ 31 → 0 ≤ cpu < CONFIG_MAX_CPUS →
  find_name_idx a s = None →
  wp (usr_sem_open cpu name v) (λ h s', match find_free s with
    | None => h = 0 ∧ s' = s
    | Some i => ∃ b k, usr_sem_table s !! i = Some b ∧ h = block_addr (Z.of_nat i) ∧
        usr_sem_table s' = <[i := new_block a k b]> (usr_sem_table s) ∧ backing s s' v k
    end) s.
Proof.
  intros Hok Hinv Hb Ha Hv Hcpu Hnew. pose proof Hok as [Hl Hn]. unfold usr_sem_open.
  rewrite (proj2 (Z.ltb_ge v 0)) by lia. wp_step. apply (find_named_wp _ _ a); [done .. |]. rewrite Hnew. change (Z.of_nat <$> None) with (@None Z). cbv iota. wp_step.
  apply (wp_for (λ j s', s' = s ∧ ∀ i b, Z.of_nat i < j → usr_sem_table s !! i = Some b → b_state b ≠ USR_SEM_FREE)).
  - split; [done | lia].
  - intros j s1 Hj [-> Hbelow]. unfold MAX_USR_SEM in Hj.
    destruct (lookup_lt_is_Some_2 (usr_sem_table s) (Z.to_nat j)) as [b Hbl]; [lia |].
    destruct (Hn _ _ Hbl) as (Hbn & _). wp_step. eapply get_block_wp; [lia | exact Hbl |]. case_bool_decide as Hf.
    + assert (He : find_free s = Some (Z.to_nat j)).
      { unfold find_free. rewrite (proj2 (list_find_Some _ _ (Z.to_nat j) b)); [done |]. split_and!; [done | done |].
        intros i b' Hi Hlt. apply (Hbelow i); [lia | done]. }
      wp_step. apply put_block_wp; [lia |]. wp_step.
      eapply wp_pure; [apply (stringcopy_Ok _ _ a); [done | rewrite Hbn; unfold MAX_USR_SEM_NAME; lia] |].
      change (Z.to_nat (MAX_USR_SEM_NAME - 1)) with 31%nat. wp_step.
      apply put_block_wp; [simpl; rewrite length_insert; lia |]. cbn [usr_sem_table k_sems]. rewrite list_insert_insert_eq.
      wp_step. apply on_sems_wp. cbn [usr_sem_table k_sems].
      eapply wp_mono; [by apply (create_wp sems_addr (k_sems s) cpu v) |]. intros k x (Hx & _ & Hres). wp_step.
      apply put_block_wp; [simpl; rewrite length_insert; lia |]. cbn [usr_sem_table k_sems]. rewrite list_insert_insert_eq.
      do 2 wp_step. rewrite He. exists b, k. split_and!; [done | by rewrite Z2Nat.id by lia | done |].
      split; [done |]. destruct k as [k|]; [| by destruct Hres]. by destruct Hres as (? & ? & _).
    + wp_step. split; [done |]. intros i b' Hi Hb'. destruct (decide (i = Z.to_nat j)) as [->|]; [congruence |].
      apply (Hbelow i); [lia | done].
  - intros s1 [-> Hall]. wp_step. assert (He : find_free s = None); [| by rewrite He].
    unfold find_free. rewrite (proj2 (list_find_None _ _)); [done |]. apply Forall_lookup. intros i b Hi.
    apply (Hall i); [| done]. apply lookup_lt_Some in Hi. unfold MAX_USR_SEM. lia.
Qed.

Lemma new_block_name a k b : 0 ∉ a → length (b_name b) = 32%nat → bname (new_block a k b) = Some (take 31 a).
Proof.
  intros Ha Hl. apply cstr_Some. simpl. unfold splice. split; [| intros [j [Hj _]%lookup_take_Some]%list_elem_of_lookup; by apply Ha, (list_elem_of_lookup_2 _ j)].
  cbn [take app]. rewrite <- app_assoc. by eexists.
Qed.

Lemma new_block_bytes a k b : is_bytes a → is_bytes (b_name b) → length (b_name b) = 32%nat →
  length (b_name (new_block a k b)) = 32%nat ∧ is_bytes (b_name (new_block a k b)).
Proof.
  intros Ha Hb Hl. split.
  - simpl. rewrite splice_length; [done |]. rewrite length_app, length_take. change (length [0]) with 1%nat. lia.
  - simpl. unfold splice. repeat apply Forall_app_2; [apply Forall_take, Hb | by apply Forall_take | | by apply Forall_drop].
    by constructor; [unfold is_byte; lia |].
Qed.

Lemma table_ok_new s s' i b a k :
  table_ok s → is_bytes a → 0 ∉ a → usr_sem_table s !! i = Some b →
  usr_sem_table s' = <[i := new_block a k b]> (usr_sem_table s) → table_ok s'.
Proof.
  intros [Hl Hn] Hb Ha Hi Ht. destruct (Hn _ _ Hi) as (Hbl & Hbb & _). constructor; rewrite Ht; [by rewrite length_insert |].
  intros j c [(_ & <- & _)|[_ Hj]]%list_lookup_insert_Some; [| by eapply Hn].
  destruct (new_block_bytes a k b) as [? ?]; [done .. |]. split_and!; [done | done |]. intros _. eexists. by apply new_block_name.
Qed.

(** Looking the name up after the block has been made: found there when it was
    not cut, not found when it was. *)
Lemma find_new s s' i b a k :
  table_ok s → 0 ∉ a → usr_sem_table s !! i = Some b → find_name_idx a s = None →
  usr_sem_table s' = <[i := new_block a k b]> (usr_sem_table s) →
  find_name_idx a s' = if (length a <=? 31)%nat then Some i else None.
Proof.
  intros Hok Ha Hi Hno Ht. pose proof Hok as [Hl Hn]. destruct (Hn _ _ Hi) as (Hbl & _ & _).
  unfold find_name_idx in *. apply fmap_None in Hno. rewrite list_find_None, Forall_lookup in Hno.
  pose proof (new_block_name a k b Ha Hbl) as Hname. pose proof (lookup_lt_Some _ _ _ Hi) as Hlt. rewrite Ht.
  destruct (Nat.leb_spec (length a) 31) as [Hle|Hgt].
  - rewrite (proj2 (list_find_Some _ _ i (new_block a k b))); [done |]. split; [by apply list_lookup_insert_eq |]. split.
    + split; [done |]. by rewrite Hname, take_ge by lia.
    + intros j c Hj Hlt' Hc. rewrite list_lookup_insert_ne in Hj by lia. by apply (Hno j c).
  - apply fmap_None. rewrite list_find_None, Forall_lookup. intros j c Hj Hc.
    apply list_lookup_insert_Some in Hj as [(-> & <- & _)|[_ Hj]]; [| by apply (Hno j c)].
    destruct Hc as [_ Hc]. rewrite Hname in Hc. injection Hc as Hc. apply (f_equal length) in Hc.
    rewrite length_take in Hc. lia.
Qed.

(** Opening never changes anything when a block has the name, or without one
    when the value is negative. *)
Lemma open_existing s cpu name a v i :
  table_ok s → is_bytes name → cstr name = Some a → find_name_idx a s = Some i →
  usr_sem_open cpu name v s = Ok (if v <? 0 then block_addr (Z.of_nat i) else 0, s).
Proof.
  intros Hok Hb Ha Hi. assert (Hwp : wp (usr_sem_open cpu name v)
    (λ h s', h = (if v <? 0 then block_addr (Z.of_nat i) else 0) ∧ s' = s) s).
  { unfold usr_sem_open. destruct (v <? 0); wp_step; (apply (find_named_wp _ _ a); [done .. |]); rewrite Hi; simpl; by wp_step. }
  by apply wp_iff in Hwp as (h & s' & -> & -> & ->).
Qed.

Lemma open_missing s cpu name a v :
  table_ok s → is_bytes name → cstr name = Some a → find_name_idx a s = None → v < 0 →
  usr_sem_open cpu name v s = Ok (0, s).
Proof.
  intros Hok Hb Ha Hi Hv. assert (Hwp : wp (usr_sem_open cpu name v) (λ h s', h = 0 ∧ s' = s) s).
  { unfold usr_sem_open. rewrite (proj2 (Z.ltb_lt v 0) Hv). wp_step. apply (find_named_wp _ _ a); [done .. |]. rewrite Hi. simpl. by wp_step. }
  by apply wp_iff in Hwp as (h & s' & -> & -> & ->).
Qed.

Lemma find_sem_block i : 0 ≤ i < 32 → find_sem (block_addr i) = Ok (Some i).
Proof.
  intros Hi. unfold find_sem, block_addr, MAX_USR_SEM. change SIZEOF_USR_SEM_BLOCK with 40.
  rewrite (proj2 (Z.leb_le _ _)), (proj2 (Z.ltb_lt _ _)) by lia. cbn [andb].
  replace (table_addr + 40 * i - table_addr) with (i * 40) by lia. by rewrite Z.mod_mul, Z.div_mul by lia.
Qed.

Lemma checked_block s i b : table_ok s → usr_sem_table s !! i = Some b →
  checked (block_addr (Z.of_nat i)) s = Ok (if bool_decide (b_state b = USR_SEM_USED) then Some (Z.of_nat i, b) else None, s).
Proof.
  intros [Hl _] Hi. pose proof (lookup_lt_Some _ _ _ Hi) as Hlt. unfold checked, mbind, K_bind, pure.
  rewrite find_sem_block by lia. unfold get_block, mbind, K_bind, gets, pure, id.
  assert (Hg : aget (usr_sem_table s) (Z.of_nat i) = Ok b) by (apply aget_Ok; split; [lia | by rewrite Nat2Z.id]). by rewrite Hg.
Qed.

Lemma checked_outside s p : p < table_addr ∨ table_addr + SIZEOF_USR_SEM_BLOCK * MAX_USR_SEM ≤ p → checked p s = Ok (None, s).
Proof.
  intros Hp. unfold checked, mbind, K_bind, pure, find_sem. destruct Hp as [Hp|Hp].
  - by rewrite (proj2 (Z.leb_gt _ _)) by lia.
  - by rewrite (proj2 (Z.ltb_ge _ _) Hp), andb_false_r.
Qed.

(** A semaphore that has been created under a name is found under it.  With a
    free block and no block of that name, [usr_sem_open] with a value returns a
    handle; when the name has at most 31 characters, opening it again without
    a value returns the same handle and creating it again is refused.  A longer
    name is cut off when it is stored and never found again: opening it
    returns [NULL].  When the kernel has no semaphore left the call returns a
    handle all the same, and the first P on it follows a null pointer. *)
Theorem usr_sem_open_again s cpu name a v i :
  table_ok s → sem_inv sems_addr (k_sems s) → is_bytes name → cstr name = Some a → 0 ≤ v < 2 ^ 31 → 0 ≤ cpu < CONFIG_MAX_CPUS →
  find_name_idx a s = None → find_free s = Some i →
  ∃ s1, usr_sem_open cpu name v s = Ok (block_addr (Z.of_nat i), s1) ∧ table_ok s1 ∧ sem_inv sems_addr (k_sems s1) ∧
    ((length a ≤ 31)%nat → ∀ v', usr_sem_open cpu name v' s1 = Ok (if v' <? 0 then block_addr (Z.of_nat i) else 0, s1)) ∧
    ((31 < length a)%nat → ∀ v', v' < 0 → usr_sem_open cpu name v' s1 = Ok (0, s1)) ∧
    ((∀ j x, 0 ≤ j → semaphore_table (k_sems s) !! Z.to_nat j = Some x → creator x ≠ -1) →
       usr_sem_p cpu (block_addr (Z.of_nat i)) s1 = Undef).
Proof.
  intros Hok Hinv Hb Ha Hv Hcpu Hnew Hfree.
  pose proof (create_block_wp s cpu name a v Hok Hinv Hb Ha Hv Hcpu Hnew) as Hwp. rewrite Hfree in Hwp.
  apply wp_iff in Hwp as (h & s1 & He & b & k & Hbl & -> & Ht & Hinv1 & Hk).
  assert (Ha0 : 0 ∉ a) by (by apply cstr_Some in Ha as [_ ?]). pose proof (cstr_is_bytes _ _ Hb Ha) as Hab.
  assert (Hok1 : table_ok s1) by (by apply (table_ok_new s s1 i b a k)).
  pose proof (find_new s s1 i b a k Hok Ha0 Hbl Hnew Ht) as Hfind. pose proof (lookup_lt_Some _ _ _ Hbl) as Hlt.
  exists s1. split_and!; [done | done | done | | |].
  - intros Hle v'. apply (open_existing _ _ _ a); [done .. |]. by rewrite Hfind, (proj2 (Nat.leb_le _ _)).
  - intros Hgt v' Hv'. apply (open_missing _ _ _ a); try done. by rewrite Hfind, (proj2 (Nat.leb_gt _ _)).
  - intros Hused. assert (k = None) as ->.
    { destruct k as [k|]; [| done]. destruct Hk as ([c (Hk0 & _)] & x & Hx & Hcx). by destruct (Hused k x). }
    assert (Hb1 : usr_sem_table s1 !! i = Some (new_block a None b)) by (by rewrite Ht, list_lookup_insert_eq).
    unfold usr_sem_p. by rewrite (bind_Ok _ _ _ _ _ (checked_block s1 i _ Hok1 Hb1)).
Qed.

(** A pointer that is no handle: it points outside the table or to a free block. *)
Definition dead (s : usems) (p : Z) : Prop :=
  p < table_addr ∨ table_addr + SIZEOF_USR_SEM_BLOCK * MAX_USR_SEM ≤ p ∨
  ∃ i b, p = block_addr (Z.of_nat i) ∧ usr_sem_table s !! i = Some b ∧ b_state b = USR_SEM_FREE.

Lemma dead_checked s p : table_ok s → dead s p → checked p s = Ok (None, s).
Proof.
  intros Hok [Hp|[Hp|(i & b & -> & Hi & Hf)]]; [apply checked_outside; by left | apply checked_outside; by right |].
  rewrite (checked_block s i b Hok Hi), bool_decide_false by congruence. done.
Qed.

Lemma dead_ops s p cpu : table_ok s → dead s p →
  usr_sem_p cpu p s = Ok (USR_SEM_ERROR_NOT_IN_USE, s) ∧ usr_sem_v p s = Ok (USR_SEM_ERROR_NOT_IN_USE, s) ∧
  usr_sem_destroy p s = Ok (0, s).
Proof.
  intros Hok Hd. pose proof (dead_checked s p Hok Hd) as He. unfold usr_sem_p, usr_sem_v, usr_sem_destroy.
  by rewrite !(bind_Ok _ _ _ _ _ He).
Qed.

(** A live handle: block [i] in use, with semaphore [k] of the kernel behind it. *)
Record live (s : usems) (i : nat) (b : usr_sem_block) (k : Z) (x : semaphore) : Prop := {
  lv_block : usr_sem_table s !! i = Some b;
  lv_used : b_state b = USR_SEM_USED;
  lv_sem : kernel_sem b = Some k;
  lv_is : sem_is (k_sems s) k x;
}.

Lemma live_checked s i b k x {A} (f : option (Z * usr_sem_block) → K usems A) :
  table_ok s → live s i b k x → (checked (block_addr (Z.of_nat i)) ≫= f) s = f (Some (Z.of_nat i, b)) s.
Proof.
  intros Hok [Hb Hu _ _]. rewrite (bind_Ok _ _ _ _ _ (checked_block s i b Hok Hb)). by rewrite bool_decide_true.
Qed.

(** A semaphore is never destroyed under a waiting thread.  On a live handle
    [usr_sem_destroy] refuses with 0 and changes nothing exactly when threads
    wait; otherwise it returns 1, its block and its kernel semaphore are free
    again, every other semaphore and its waiters are as before, and from then
    on the handle is dead.  On a dead handle, or any pointer outside the table,
    P and V report an error, destroy returns 0, and nothing changes. *)
Theorem usr_sem_destroy_spec s i b k x cpu :
  table_ok s → sem_inv sems_addr (k_sems s) → live s i b k x →
  (∀ p, dead s p → usr_sem_p cpu p s = Ok (USR_SEM_ERROR_NOT_IN_USE, s) ∧
     usr_sem_v p s = Ok (USR_SEM_ERROR_NOT_IN_USE, s) ∧ usr_sem_destroy p s = Ok (0, s)) ∧
  (sem_waiters sems_addr (k_sems s) k ≠ [] → usr_sem_destroy (block_addr (Z.of_nat i)) s = Ok (0, s)) ∧
  (sem_waiters sems_addr (k_sems s) k = [] → ∃ s1, usr_sem_destroy (block_addr (Z.of_nat i)) s = Ok (1, s1) ∧
     table_ok s1 ∧ sem_inv sems_addr (k_sems s1) ∧ sq (k_sems s1) = sq (k_sems s) ∧
     (∀ j, 0 ≤ j → j ≠ k → semaphore_table (k_sems s1) !! Z.to_nat j = semaphore_table (k_sems s) !! Z.to_nat j) ∧
     find_free s1 ≠ None ∧ usr_sem_p cpu (block_addr (Z.of_nat i)) s1 = Ok (USR_SEM_ERROR_NOT_IN_USE, s1)).
Proof.
  intros Hok Hinv Hl. pose proof Hl as [Hb Hu Hk (Hk0 & Hx & Hc)]. pose proof Hinv as (_ & Hlen & _ & Hall).
  pose proof (Hall k x Hk0 Hx) as Hsem. unfold sem_ok in Hsem. rewrite (proj2 (Z.eqb_neq _ _) Hc) in Hsem.
  destruct Hsem as [_ Hw]. pose proof (lookup_lt_Some _ _ _ Hb) as Hlt. pose proof Hok as [Htl Htn].
  assert (Hget : on_sems (get_sem k) s = Ok (x, s)).
  { unfold on_sems, zoom, get_sem, mbind, K_bind, gets, pure, id.
    rewrite (proj2 (aget_Ok _ _ _) (conj Hk0 Hx)). by destruct s. }
  split; [intros p Hp; by apply dead_ops |].
  unfold usr_sem_destroy. rewrite (live_checked s i b k x) by done. cbv iota.
  rewrite (bind_Ok (pure (pointee b)) _ s k s) by (unfold pointee; by rewrite Hk). rewrite (bind_Ok _ _ _ _ _ Hget). split.
  - intros Hne. rewrite (proj2 (Z.ltb_lt (value x) 0)); [done |].
    destruct (sem_waiters sems_addr (k_sems s) k); [done |]. simpl in Hw. lia.
  - intros Hnil. rewrite Hnil in Hw. simpl in Hw. rewrite (proj2 (Z.ltb_ge (value x) 0)) by lia.
    set (free := mk_block USR_SEM_FREE (b_name b) (kernel_sem b)).
    assert (Hwp : wp (on_sems (semaphore_destroy k);; put_block (Z.of_nat i) free;; mret 1)
      (λ r s1, r = 1 ∧ usr_sem_table s1 = <[i := free]> (usr_sem_table s) ∧ sem_inv sems_addr (k_sems s1) ∧
         sq (k_sems s1) = sq (k_sems s) ∧
         ∀ j, 0 ≤ j → j ≠ k → semaphore_table (k_sems s1) !! Z.to_nat j = semaphore_table (k_sems s) !! Z.to_nat j) s).
    { wp_step. apply on_sems_wp. eapply wp_mono; [apply (destroy_wp sems_addr (k_sems s) k x); [done | done | lia] |].
      intros [] y (Hy & Hsq & Hoth). wp_step. apply put_block_wp; [simpl; lia |]. wp_step. by rewrite Nat2Z.id. }
    apply wp_iff in Hwp as (r & s1 & -> & -> & Ht & Hinv1 & Hsq & Hoth). exists s1.
    assert (Hb1 : usr_sem_table s1 !! i = Some free) by (by rewrite Ht, list_lookup_insert_eq).
    assert (Hok1 : table_ok s1).
    { constructor; rewrite Ht; [by rewrite length_insert |].
      intros j c [(_ & <- & _)|[_ Hj]]%list_lookup_insert_Some; [| by eapply Htn].
      destruct (Htn _ _ Hb) as (? & ? & _). by split_and!. }
    split_and!; try done.
    + unfold find_free. rewrite fmap_None, list_find_None. intros Hno.
      by apply (Forall_lookup_1 _ _ _ _ Hno Hb1).
    + apply dead_ops; [done |]. right. right. by exists i, free.
Qed.

End usr_sem.

(** ** Witnesses *)

(** The kernel semaphores of [Semaphore]'s example; block 0 uses number 0. *)
Definition example_usems : @usems sched :=
  mk_usems (mk_block USR_SEM_USED (97 :: replicate 31 0) (Some 0) :: replicate 31 (mk_block USR_SEM_FREE (replicate 32 7) None))
    example_sems.

Lemma example_table_ok : table_ok example_usems.
Proof.
  constructor; [done |]. intros [|i] b Hb.
  - injection Hb as <-. split_and!; [done | repeat constructor; lia | by eexists].
  - change (replicate 31 (mk_block USR_SEM_FREE (replicate 32 7) None) !! i = Some b) in Hb.
    apply lookup_replicate in Hb as [-> _]. split_and!; [done | repeat constructor; lia | done].
Qed.

Lemma usr_sem_open_again_witness :
  ∃ s1, usr_sem_open 0x80200000 0 [98; 0] 2 example_usems = Ok (0x80200028, s1) ∧
    usr_sem_open 0x80200000 0 [98; 0] (-1) s1 = Ok (0x80200028, s1).
Proof.
  destruct (usr_sem_open_again 0x80100000 0x80200000 example_usems 0 [98; 0] [98] 2 1) as (s1 & He & _ & _ & Hagain & _).
  - exact example_table_ok.
  - exact example_sems_inv.
  - repeat constructor; lia.
  - reflexivity.
  - lia.
  - unfold CONFIG_MAX_CPUS. lia.
  - vm_compute. reflexivity.
  - vm_compute. reflexivity.
  - exists s1. split; [exact He |]. refine (Hagain _ (-1)). simpl. lia.
Defined.

Lemma usr_sem_destroy_spec_witness :
  ∃ s1, usr_sem_destroy 0x80200000 0x80200000 example_usems = Ok (1, s1) ∧
    usr_sem_p 0x80100000 0x80200000 0 0x80200000 s1 = Ok (USR_SEM_ERROR_NOT_IN_USE, s1).
Proof.
  destruct (usr_sem_destroy_spec 0x80100000 0x80200000 example_usems 0 (mk_block USR_SEM_USED (97 :: replicate 31 0) (Some 0)) 0
    (mk_sem 0 1) 0) as (_ & _ & Hd).
  - exact example_table_ok.
  - exact example_sems_inv.
  - constructor; [reflexivity | reflexivity | reflexivity | exact example_sem_0].
  - destruct Hd as (s1 & He & _ & _ & _ & _ & _ & Hp); [vm_compute; reflexivity |].
    exists s1. split; [exact He | exact Hp].
Defined.
