(* ===== verification/Syscall.v ===== *)
(** * System calls and user exceptions (src/buenos/proc/syscall.c,
      proc/exception.c, kernel/exception.c, kernel/halt.c)

    The state puts all components side by side that a user process can reach.
    A call may have to wait: then the thread sleeps in the kernel, its saved
    registers are not yet touched, and [syscall_resume] is what it does when it
    runs again.  Pointers of a user program are virtual addresses, which the
    kernel follows through the page table of the process; it makes no other
    check on them. *)

From S2P Require Import Prelude Bitmap Kmalloc Pagepool Vm UserMem Sched SchedSpec Semaphore Libc FsCodes Vfs Process Io Fork UsrSem.
Local Open Scope Z_scope.

Definition SYSCALL_HALT : Z := 0x001.
Definition SYSCALL_EXEC : Z := 0x101.
Definition SYSCALL_EXIT : Z := 0x102.
Definition SYSCALL_JOIN : Z := 0x103.
Definition SYSCALL_FORK : Z := 0x104.
Definition SYSCALL_MEMLIMIT : Z := 0x105.
Definition SYSCALL_GETPID : Z := 0x106.
Definition SYSCALL_OPEN : Z := 0x201.
Definition SYSCALL_CLOSE : Z := 0x202.
Definition SYSCALL_SEEK : Z := 0x203.
Definition SYSCALL_READ : Z := 0x204.
Definition SYSCALL_WRITE : Z := 0x205.
Definition SYSCALL_CREATE : Z := 0x206.
Definition SYSCALL_REMOVE : Z := 0x207.
Definition SYSCALL_TELL : Z := 0x208.
Definition SYSCALL_SEM_OPEN : Z := 0x300.
Definition SYSCALL_SEM_PROCURE : Z := 0x301.
Definition SYSCALL_SEM_VACATE : Z := 0x302.
Definition SYSCALL_SEM_DESTROY : Z := 0x303.

Definition MIPS_REGISTER_A0 : Z := 3.
Definition MIPS_REGISTER_A1 : Z := 4.
Definition MIPS_REGISTER_A2 : Z := 5.
Definition MIPS_REGISTER_A3 : Z := 6.

Definition EXCEPTION_TLBM : Z := 1.
Definition EXCEPTION_TLBL : Z := 2.
Definition EXCEPTION_TLBS : Z := 3.
Definition EXCEPTION_ADDRL : Z := 4.
Definition EXCEPTION_ADDRS : Z := 5.
Definition EXCEPTION_BUSI : Z := 6.
Definition EXCEPTION_BUSD : Z := 7.
Definition EXCEPTION_SYSCALL : Z := 8.
Definition EXCEPTION_BREAK : Z := 9.
Definition EXCEPTION_RESVI : Z := 10.
Definition EXCEPTION_COPROC : Z := 11.
Definition EXCEPTION_AOFLOW : Z := 12.
Definition EXCEPTION_TRAP : Z := 13.

(** The bytes from [va] on that can be read, at most [n]. *)
Fixpoint readable (pt : pagetable) (mem : gmap Z bytes) (n : nat) (va : Z) : bytes :=
  match n with
  | O => []
  | S n' => match load_byte pt mem va with Ok b => b :: readable pt mem n' (va + 1) | _ => [] end
  end.

(** [new] up to the last byte in which it differs from [old]. *)
Fixpoint changed (new old : bytes) : bytes :=
  match new, old with
  | x :: new', y :: old' => let l := changed new' old' in if (x =? y) && bool_decide (l = []) then [] else x :: l
  | _, _ => new
  end.

(** What the body of a system call comes to: a value for V0; no value; a thread
    that waits for a process; a process that has ended; a machine that is off. *)
Inductive call_result := Returns (v : Z) | Continues | Joins (pid : Z) | Ends | Halts.

(** How a call ends for the thread: it goes back to userland, or sleeps with
    something left to do, or is gone. *)
Inductive pending := PValue (v : Z) | PJoin (pid : Z).
Inductive outcome := Back | Sleeping (p : pending) | Exited | Halted.

Section syscall.
Context {P : Type} `{PageAlloc P} {F : Type} `{Filesystems F} {T : Type} `{Console T}.
(** Addresses of tables, code and stacks, what unwritten memory holds, the
    first terminal, the frame of [process_fork] on a thread's stack, and the
    global [_is_in_interrupt]: when a handler runs on another processor,
    [process_finish] returns. *)
Context (ptable_addr start_addr setup_addr stacks finish_addr sems_addr usr_addr : Z)
        (junk : bytes) (tty0 : option Z) (frame : Z → Z) (in_interrupt : bool).

Record machine := mk_machine {
  m_kern : @kern P;
  m_sem_table : list semaphore;
  m_sem_next : Z;
  m_usr : list usr_sem_block;
  m_vfs : @vstate F;
  m_tty : T;
  m_mem : gmap Z bytes;
  m_ctx : gmap Z ucontext;
  m_args : gmap Z fork_arg;
}.

Definition set_kern (k : @kern P) (s : machine) : machine :=
  mk_machine k (m_sem_table s) (m_sem_next s) (m_usr s) (m_vfs s) (m_tty s) (m_mem s) (m_ctx s) (m_args s).
Definition set_user_mem (m : gmap Z bytes) (s : machine) : machine :=
  mk_machine (m_kern s) (m_sem_table s) (m_sem_next s) (m_usr s) (m_vfs s) (m_tty s) m (m_ctx s) (m_args s).
Definition set_ctx (c : gmap Z ucontext) (s : machine) : machine :=
  mk_machine (m_kern s) (m_sem_table s) (m_sem_next s) (m_usr s) (m_vfs s) (m_tty s) (m_mem s) c (m_args s).

(** The parts of the state that the components work on. *)
Definition in_mk {A} (m : K (@kern P) A) : K machine A := zoom m_kern set_kern m.
Definition in_io {A} (m : K (@ustate P F T) A) : K machine A :=
  zoom (λ s, mk_ustate (m_kern s) (m_vfs s) (m_tty s))
    (λ x s, mk_machine (u_kern x) (m_sem_table s) (m_sem_next s) (m_usr s) (u_vfs x) (u_tty x) (m_mem s) (m_ctx s) (m_args s)) m.
Definition in_fork {A} (m : K (@fstate P) A) : K machine A :=
  zoom (λ s, mk_fstate (m_kern s) (m_sem_table s) (m_sem_next s) (m_mem s) (m_ctx s) (m_args s))
    (λ x s, mk_machine (f_kern x) (f_sem_table x) (f_sem_next x) (m_usr s) (m_vfs s) (m_tty s) (f_mem x) (f_ctx x) (f_args x)) m.
Definition in_usr {A} (m : K (@usems sched) A) : K machine A :=
  zoom (λ s, mk_usems (m_usr s) (mk_sems (m_sem_table s) (m_sem_next s) (k_sched (m_kern s))))
    (λ x s, mk_machine (mk_kern (process_table (m_kern s)) (sq (k_sems x)) (k_vm (m_kern s)))
              (semaphore_table (k_sems x)) (sem_next (k_sems x)) (usr_sem_table x)
              (m_vfs s) (m_tty s) (m_mem s) (m_ctx s) (m_args s)) m.
Definition in_mv {A} (m : K (@vstate F) A) : K machine A :=
  zoom m_vfs (λ v s, mk_machine (m_kern s) (m_sem_table s) (m_sem_next s) (m_usr s) v (m_tty s) (m_mem s) (m_ctx s) (m_args s)) m.

(** The page table of the current thread. *)
Definition user_table (cpu : Z) : K machine pagetable :=
  th ← in_mk (current_thread cpu);
  s ← gets id;
  match snd (k_vm (m_kern s)) !! th_pagetable th with
  | None => pure Undef
  | Some pt => mret pt
  end.

(** A string argument; no callee reads more than 64 bytes of one. *)
Definition user_string (cpu va : Z) : K machine bytes :=
  pt ← user_table cpu;
  s ← gets id;
  mret (readable pt (m_mem s) 64 va).

Definition user_buffer (cpu va n : Z) : K machine bytes :=
  pt ← user_table cpu;
  s ← gets id;
  mret (readable pt (m_mem s) (Z.to_nat n) va).

(** What the callee has written to a buffer that held [old] and now holds [new]:
    the [r] bytes it reports, and all that differ. *)
Definition written (r : Z) (new old : bytes) : bytes :=
  take (Nat.min (length old) (Nat.max (Z.to_nat r) (length (changed new old)))) new.

Definition put_buffer (cpu va r : Z) (new old : bytes) : K machine unit :=
  pt ← user_table cpu;
  s ← gets id;
  m ← pure (ustore pt (m_mem s) (written r new old) va);
  modify (set_user_mem m).

Definition halt_kernel : K machine unit := in_mv vfs_deinit.

(** The [switch] of [syscall_handle], on the registers of the caller. *)
Definition syscall (cpu : Z) (c : ucontext) : K machine call_result :=
  A0 ← pure (aget (cpu_regs c) MIPS_REGISTER_A0);
  A1 ← pure (aget (cpu_regs c) MIPS_REGISTER_A1);
  A2 ← pure (aget (cpu_regs c) MIPS_REGISTER_A2);
  A3 ← pure (aget (cpu_regs c) MIPS_REGISTER_A3);
  let V0 (m : K machine Z) : K machine call_result := v ← m; mret (Returns v) in
  if A0 =? SYSCALL_HALT then halt_kernel;; mret Halts
  else if A0 =? SYSCALL_EXEC then
    name ← user_string cpu A1;
    V0 (in_mk (process_spawn start_addr stacks finish_addr cpu name))
  else if A0 =? SYSCALL_EXIT then 
    in_mk (process_finish ptable_addr cpu in_interrupt (s32 A1));; mret (if in_interrupt then Continues else Ends)
  else if A0 =? SYSCALL_JOIN then
    r ← in_mk (process_join ptable_addr cpu (s32 A1));
    mret (match r with Returned v => Returns v | Asleep => Joins (s32 A1) end)
  else if A0 =? SYSCALL_FORK then V0 (in_fork (process_fork sems_addr setup_addr stacks finish_addr frame cpu))
  else if A0 =? SYSCALL_GETPID then V0 (in_mk (process_get_current_process cpu))
  else if A0 =? SYSCALL_MEMLIMIT then V0 (in_mk (process_memlimit cpu A1))
  else if A0 =? SYSCALL_OPEN then
    path ← user_string cpu A1;
    V0 (in_io (io_open junk cpu path))
  else if A0 =? SYSCALL_CLOSE then V0 (in_io (io_close cpu (s32 A1)))
  else if A0 =? SYSCALL_CREATE then
    path ← user_string cpu A1;
    V0 (in_io (io_create junk path (s32 A2)))
  else if A0 =? SYSCALL_REMOVE then
    path ← user_string cpu A1;
    V0 (in_io (io_remove junk path))
  else if A0 =? SYSCALL_SEEK then V0 (in_io (io_seek cpu (s32 A1) (s32 A2)))
  else if A0 =? SYSCALL_TELL then V0 (in_io (io_tell cpu (s32 A1)))
  else if A0 =? SYSCALL_READ then
    old ← user_buffer cpu A2 (s32 A3);
    '(r, new) ← in_io (io_read tty0 cpu (s32 A1) A2 old (s32 A3));
    put_buffer cpu A2 r new old;;
    mret (Returns r)
  else if A0 =? SYSCALL_WRITE then
    data ← user_buffer cpu A2 (s32 A3);
    V0 (in_io (io_write tty0 cpu (s32 A1) A2 data (s32 A3)))
  else if A0 =? SYSCALL_SEM_OPEN then
    name ← user_string cpu A1;
    V0 (in_usr (usr_sem_open usr_addr cpu name (s32 A2)))
  else if A0 =? SYSCALL_SEM_PROCURE then V0 (in_usr (usr_sem_p usr_addr sems_addr cpu A1))
  else if A0 =? SYSCALL_SEM_VACATE then V0 (in_usr (usr_sem_v usr_addr sems_addr A1))
  else if A0 =? SYSCALL_SEM_DESTROY then V0 (in_usr (usr_sem_destroy usr_addr A1))
  else panic "Unhandled system call".

(** [V0 = v] and [user_context->pc += 4] *)
Definition syscall_return (uc v : Z) : K machine unit :=
  s ← gets id;
  match m_ctx s !! uc with
  | None => pure Undef
  | Some c =>
      regs ← pure (aset (cpu_regs c) MIPS_REGISTER_V0 (u32 v));
      modify (set_ctx (<[uc := mk_uctx regs (uc_hi c) (uc_lo c) (u32 (uc_pc c + 4)) (uc_status c) (uc_prev c)]> (m_ctx s)))
  end.

(** [user_context->pc += 4] alone *)
Definition syscall_continue (uc : Z) : K machine unit :=
  s ← gets id;
  match m_ctx s !! uc with
  | None => pure Undef
  | Some c =>
      modify (set_ctx (<[uc := mk_uctx (cpu_regs c) (uc_hi c) (uc_lo c) (u32 (uc_pc c + 4)) (uc_status c) (uc_prev c)]> (m_ctx s)))
  end.

(** [uc] is the pointer to the registers of the caller. *)
Definition syscall_handle (cpu uc : Z) : K machine outcome :=
  s ← gets id;
  match m_ctx s !! uc with
  | None => pure Undef
  | Some c =>
      t ← in_mk (on_sched (get_current cpu));
      r ← syscall cpu c;
      match r with
      | Returns v =>
          t' ← in_mk (on_sched (get_current cpu));
          if t' =? t then syscall_return uc v;; mret Back else mret (Sleeping (PValue v))
      | Continues => syscall_continue uc;; mret Back
      | Joins pid => mret (Sleeping (PJoin pid))
      | Ends => mret Exited
      | Halts => mret Halted
      end
  end.

(** A sleeping call, when its thread runs again. *)
Definition syscall_resume (cpu uc : Z) (p : pending) : K machine outcome :=
  match p with
  | PValue v => syscall_return uc v;; mret Back
  | PJoin pid =>
      r ← in_mk (join_turn ptable_addr cpu pid);
      match r with
      | Returned v => syscall_return uc v;; mret Back
      | Asleep => mret (Sleeping (PJoin pid))
      end
  end.

(** [tes] is what the TLB reports about the access that failed. *)
Definition tlb_exception (cpu : Z) (r : res tlb_outcome) : K machine outcome :=
  o ← pure r;
  match o with
  | Resume _ => mret Back
  | Finish v =>
      in_mk (process_finish ptable_addr cpu in_interrupt v);; mret (if in_interrupt then Back else Exited)
  end.

(** The page table of a thread, if it has one. *)
Definition table_of (th : thread) (s : machine) : res (option pagetable) :=
  if th_pagetable th =? 0 then Ok None
  else match snd (k_vm (m_kern s)) !! th_pagetable th with Some pt => Ok (Some pt) | None => Undef end.

Definition user_exception_handle (cpu exception : Z) (tes : tlb_exception_state) : K machine outcome :=
  t ← in_mk (on_sched (get_current cpu));
  in_mk (on_sched (set_thread t (λ th,
    mk_thread (th_context th) (th_ctx th) (th_context th) (state th) (sleeps_on th) (th_pagetable th) (process_id th) (next th))));;
  th ← in_mk (on_sched (get_thread t));
  s ← gets id;
  let ptable := table_of th s in
  if exception =? EXCEPTION_TLBM then tlb_exception cpu (tlb_modified_exception true)
  else if exception =? EXCEPTION_TLBL then pt ← pure ptable; tlb_exception cpu (tlb_load_exception true tes pt)
  else if exception =? EXCEPTION_TLBS then pt ← pure ptable; tlb_exception cpu (tlb_store_exception true tes pt)
  else if exception =? EXCEPTION_ADDRL then panic "Address Error Load: not handled yet"
  else if exception =? EXCEPTION_ADDRS then panic "Address Error Store: not handled yet"
  else if exception =? EXCEPTION_BUSI then panic "Bus Error Instruction: not handled yet"
  else if exception =? EXCEPTION_BUSD then panic "Bus Error Data: not handled yet"
  else if exception =? EXCEPTION_SYSCALL then syscall_handle cpu (user_context th)
  else if exception =? EXCEPTION_BREAK then panic "Breakpoint: not handled yet"
  else if exception =? EXCEPTION_RESVI then panic "Reserved instruction: not handled yet"
  else if exception =? EXCEPTION_COPROC then panic "Coprocessor unusable: buggy assembler code?"
  else if exception =? EXCEPTION_AOFLOW then panic "Arithmetic overflow: buggy assembler code?"
  else if exception =? EXCEPTION_TRAP then panic "Trap: this just should not happen"
  else panic "Unknown exception".

(** An exception in kernel mode; the result is the entry that is written to the
    TLB.  In this mode no handler ends a process. *)
Definition kernel_exception_handle (cpu exception : Z) (tes : tlb_exception_state) : K machine tlb_outcome :=
  th ← in_mk (current_thread cpu);
  s ← gets id;
  if exception =? EXCEPTION_TLBM then pure (tlb_modified_exception false)
  else if exception =? EXCEPTION_TLBL then pt ← pure (table_of th s); pure (tlb_load_exception false tes pt)
  else if exception =? EXCEPTION_TLBS then pt ← pure (table_of th s); pure (tlb_store_exception false tes pt)
  else if exception =? EXCEPTION_ADDRL then panic "Address Error Load: not handled yet"
  else if exception =? EXCEPTION_ADDRS then panic "Address Error Store: not handled yet"
  else if exception =? EXCEPTION_BUSI then panic "Bus Error Instruction: not handled yet"
  else if exception =? EXCEPTION_BUSD then panic "Bus Error Data: not handled yet"
  else if exception =? EXCEPTION_SYSCALL then panic "Syscall: From _kernel_ mode?"
  else if exception =? EXCEPTION_BREAK then panic "Breakpoint: not handled yet"
  else if exception =? EXCEPTION_RESVI then panic "Reserved instruction: not handled yet"
  else if exception =? EXCEPTION_COPROC then panic "Coprocessor unusable: buggy assembler code?"
  else if exception =? EXCEPTION_AOFLOW then panic "Arithmetic overflow: buggy assembler code?"
  else if exception =? EXCEPTION_TRAP then panic "Trap: this just should not happen"
  else panic "Unknown exception".

End syscall.
