(* ===== verification/SyscallSpec.v ===== *)
(** * What a system call promises the other processes and its caller *)

From S2P Require Import Prelude Bitmap Kmalloc Pagepool Vm UserMem Sched SchedSpec Semaphore Libc FsCodes Vfs VfsSpec VfsTfs Process ProcessSpec Io IoSpec Fork ForkSpec ElfSpec UsrSem Syscall.
Local Open Scope Z_scope.

(** ** Isolation *)

(** Lemmas that code leaves user memory and registers alone. *)
Create HintDb ku.

Section isolation.
Context {P : Type} `{PageAlloc P} {F : Type} `{Filesystems F} {T : Type} `{Console T}.
Abbreviation mach := (@machine P F T).

(** Code that leaves user memory and the saved registers alone. *)
Definition keeps_user {A} (m : K mach A) : Prop :=
  ∀ s, wlp m (λ _ s', m_mem s' = m_mem s ∧ m_ctx s' = m_ctx s) s.

Lemma ku_ret {A} (a : A) : keeps_user (mret a).
Proof. done. Qed.

Lemma ku_bind {A B} (m : K mach A) (f : A → K mach B) : keeps_user m → (∀ a, keeps_user (f a)) → keeps_user (m ≫= f).
Proof.
  intros Hm Hf s. apply wlp_bind. eapply wlp_mono; [apply Hm |]. intros a s1 [<- <-]. apply Hf.
Qed.

Lemma ku_gets {A} (f : mach → A) : keeps_user (gets f).
Proof. done. Qed.

Lemma ku_pure {A} (r : res A) : keeps_user (pure r).
Proof. intros s. unfold wlp, pure. by destruct r. Qed.

Lemma ku_panic {A} msg : keeps_user (A := A) (panic msg).
Proof. done. Qed.

Lemma ku_mk {A} (m : K (@kern P) A) : keeps_user (in_mk m).
Proof. intros s. apply wlp_zoom, wlp_iff. done. Qed.
Lemma ku_io {A} (m : K (@ustate P F T) A) : keeps_user (in_io m).
Proof. intros s. apply wlp_zoom, wlp_iff. done. Qed.
Lemma ku_usr {A} (m : K (@usems sched) A) : keeps_user (in_usr m).
Proof. intros s. apply wlp_zoom, wlp_iff. done. Qed.
Lemma ku_mv {A} (m : K (@vstate F) A) : keeps_user (in_mv m).
Proof. intros s. apply wlp_zoom, wlp_iff. done. Qed.

(** The same of the part of the state [process_fork] works on. *)
Definition keeps_f {A} (m : K (@fstate P) A) : Prop :=
  ∀ s, wlp m (λ _ s', f_mem s' = f_mem s ∧ f_ctx s' = f_ctx s) s.

Lemma kf_ret {A} (a : A) : keeps_f (mret a).
Proof. done. Qed.
Lemma kf_bind {A B} (m : K (@fstate P) A) (f : A → K (@fstate P) B) : keeps_f m → (∀ a, keeps_f (f a)) → keeps_f (m ≫= f).
Proof. intros Hm Hf s. apply wlp_bind. eapply wlp_mono; [apply Hm |]. intros a s1 [<- <-]. apply Hf. Qed.
Lemma kf_k {A} (m : K (@kern P) A) : keeps_f (in_k m).
Proof. intros s. apply wlp_zoom, wlp_iff. done. Qed.
Lemma kf_sems {A} (m : K (@sems sched) A) : keeps_f (in_sems m).
Proof. intros s. apply wlp_zoom, wlp_iff. done. Qed.
Lemma kf_pure {A} (r : res A) : keeps_f (pure r).
Proof. intros s. unfold wlp, pure. by destruct r. Qed.
Lemma kf_args f : keeps_f (modify (λ s : @fstate P, mk_fstate (f_kern s) (f_sem_table s) (f_sem_next s) (f_mem s) (f_ctx s) (f s))).
Proof. done. Qed.

Lemma kf_fork sems_addr setup_addr stacks finish_addr frame cpu :
  keeps_f (process_fork sems_addr setup_addr stacks finish_addr frame cpu).
Proof.
  unfold process_fork. apply kf_bind; [apply kf_k | intros pid]. destruct (pid =? _); [apply kf_ret |].
  repeat (apply kf_bind; [first [apply kf_k | apply kf_sems | apply kf_pure | apply kf_args] | intros ?]).
  destruct (_ <? 0); [apply kf_ret |]. apply kf_bind; [apply kf_k | intros _].
  apply kf_bind; [| intros _; apply kf_ret]. case_match; [apply kf_sems | apply kf_pure].
Qed.

Lemma ku_fork {A} (m : K (@fstate P) A) : keeps_f m → keeps_user (in_fork m).
Proof. intros Hm s. apply wlp_zoom. eapply wlp_mono; [apply Hm |]. done. Qed.

Lemma ku_user_table cpu : keeps_user (user_table cpu).
Proof.
  unfold user_table. apply ku_bind; [apply ku_mk | intros th]. apply ku_bind; [apply ku_gets | intros s].
  case_match; [apply ku_ret | apply ku_pure].
Qed.

Lemma ku_user_string cpu va : keeps_user (user_string cpu va).
Proof. unfold user_string. apply ku_bind; [apply ku_user_table | intros pt]. apply ku_bind; [apply ku_gets | intros s; apply ku_ret]. Qed.

Lemma ku_user_buffer cpu va n : keeps_user (user_buffer cpu va n).
Proof. unfold user_buffer. apply ku_bind; [apply ku_user_table | intros pt]. apply ku_bind; [apply ku_gets | intros s; apply ku_ret]. Qed.

#[local] Hint Resolve ku_ret ku_gets ku_pure ku_panic ku_mk ku_io ku_usr ku_mv ku_user_table ku_user_string ku_user_buffer : ku.

(** The page table of the thread that runs on processor [cpu]. *)
Definition caller_table (cpu : Z) (s : mach) (pt : pagetable) : Prop :=
  ∃ t, scheduler_current_thread (k_sched (m_kern s)) !! Z.to_nat cpu = Some t ∧
    snd (k_vm (m_kern s)) !! th_pagetable (th (k_sched (m_kern s)) t) = Some pt.

(** The frames that the caller has mapped writable, and those that the [n]
    addresses from [va] on reach in the kernel's unmapped segments. *)
Definition own_frame (cpu va n : Z) (s : mach) (q : Z) : Prop :=
  ∃ pt v off, caller_table cpu s pt ∧ va ≤ v < va + n ∧ unmapped v = false ∧ touch pt true v = Ok (q, off).
Definition direct_frame (va n q : Z) : Prop := ∃ v, va ≤ v < va + n ∧ unmapped v = true ∧ q = direct v / PAGE_SIZE.

(** Code that changes only those frames. *)
Definition writes_own (cpu va n : Z) (s s' : mach) : Prop :=
  m_ctx s' = m_ctx s ∧ ∀ q, m_mem s' !! q ≠ m_mem s !! q → own_frame cpu va n s' q ∨ direct_frame va n q.

Lemma wo_keeps cpu va n s s' : m_mem s' = m_mem s → m_ctx s' = m_ctx s → writes_own cpu va n s s'.
Proof. intros Hm Hc. split; [done |]. intros q Hq. by rewrite Hm in Hq. Qed.

Lemma get_current_inv cpu (k k' : @kern P) t :
  on_sched (get_current cpu) k = Ok (t, k') → k' = k ∧ scheduler_current_thread (k_sched k) !! Z.to_nat cpu = Some t.
Proof.
  unfold on_sched, zoom, get_current, mbind, K_bind, gets, pure. destruct (aget _ _) as [t'| | | |] eqn:Ht; try done.
  intros [= <- <-]. apply aget_Ok in Ht as [_ Ht]. split; [by destruct k | done].
Qed.

Lemma current_thread_inv cpu (k k' : @kern P) x :
  current_thread cpu k = Ok (x, k') →
  k' = k ∧ ∃ t, scheduler_current_thread (k_sched k) !! Z.to_nat cpu = Some t ∧ x = th (k_sched k) t.
Proof.
  unfold current_thread, on_sched, zoom, get_current, get_thread, mbind, K_bind, gets, pure, id.
  destruct (aget (scheduler_current_thread _) _) as [t| | | |] eqn:Ht; try done.
  destruct (aget (thread_table _) _) as [y| | | |] eqn:Hy; try done. intros [= <- <-].
  apply aget_Ok in Ht as [_ Ht]. apply aget_Ok in Hy as [_ Hy]. split; [by destruct k |].
  exists t. split; [done |]. unfold th. symmetry. by apply nth_lookup_Some.
Qed.

Lemma user_table_inv cpu (s s' : mach) pt : user_table cpu s = Ok (pt, s') → s' = s ∧ caller_table cpu s pt.
Proof.
  unfold user_table, in_mk, zoom, mbind, K_bind.
  destruct (current_thread cpu (m_kern s)) as [[x k]| | | |] eqn:Hc; try done. unfold gets, id.
  apply current_thread_inv in Hc as (-> & t & Ht & ->). cbn [m_kern set_kern]. destruct (snd (k_vm (m_kern s)) !! _) as [pt'|] eqn:Hpt; [| done].
  unfold mret, K_ret. intros [= <- <-]. split; [by destruct s | by exists t].
Qed.

(** The frames [ustore] changes are those of the addresses it stores to. *)
Lemma ustore_frames pt l : ∀ mem va mem' q,
  ustore pt mem l va = Ok mem' → mem' !! q ≠ mem !! q →
  ∃ v off, va ≤ v < va + Z.of_nat (length l) ∧ touch pt true v = Ok (q, off).
Proof.
  induction l as [|x l IH]; intros mem va mem' q; cbn [ustore]; [intros [= ->]; done |].
  unfold mbind, res_bind, store_byte. destruct (touch pt true va) as [[r off]| | | |] eqn:Ht; try done. cbv beta iota.
  unfold mbind, res_bind. destruct (mem !! r) as [b|]; [| done]. destruct (aset b off x) as [b'| | | |]; try done.
  intros Hs Hq. destruct (decide (r = q)) as [->|Hne]; [exists va, off; split; [simpl; lia | done] |].
  destruct (IH _ (va + 1) _ q Hs) as (v & o & Hv & Ho); [by rewrite lookup_insert_ne |]. exists v, o. split; [simpl; lia | done].
Qed.

Lemma put_buffer_wo cpu va n r new old s :
  Z.of_nat (length old) ≤ n → wlp (put_buffer cpu va r new old) (λ _ s', writes_own cpu va n s s') s.
Proof.
  intros Hn. apply wlp_iff. intros [] s'. unfold put_buffer, mbind, K_bind.
  destruct (user_table cpu s) as [[pt s1]| | | |] eqn:Hu; try done. apply user_table_inv in Hu as [-> Hpt].
  unfold gets, pure, modify, id. destruct (ustore _ _ _ _) as [m| | | |] eqn:Hs; try done. intros [= <-].
  split; [done |]. intros q Hq. destruct (ustore_frames _ _ _ _ _ _ Hs Hq) as (v & off & Hv & Ht).
  unfold written in Hv. rewrite length_take in Hv. destruct (unmapped v) eqn:Eu; [right | left; exists pt, v, off; split_and!; (done || lia)].
  exists v. split; [lia |]. split; [done |]. unfold touch in Ht. rewrite Eu in Ht. by injection Ht as <- _.
Qed.

Section calls.
Context (ptable_addr start_addr setup_addr stacks finish_addr sems_addr usr_addr : Z)
        (junk : bytes) (tty0 : option Z) (frame : Z → Z) (in_interrupt : bool).
Abbreviation sys := (syscall ptable_addr start_addr setup_addr stacks finish_addr sems_addr usr_addr junk tty0 frame in_interrupt).
Abbreviation handle := (syscall_handle ptable_addr start_addr setup_addr stacks finish_addr sems_addr usr_addr junk tty0 frame in_interrupt).

(** A buffer is at [va], [n] bytes long. *)
Definition own {A} (cpu va n : Z) (m : K mach A) : Prop := ∀ s, wlp m (λ _ s', writes_own cpu va n s s') s.

Lemma own_keeps {A} cpu va n (m : K mach A) : keeps_user m → own cpu va n m.
Proof. intros Hm s. eapply wlp_mono; [apply Hm |]. intros a s' [? ?]. by apply wo_keeps. Qed.

Lemma own_bind {A B} cpu va n (m : K mach A) (f : A → K mach B) : keeps_user m → (∀ a, own cpu va n (f a)) → own cpu va n (m ≫= f).
Proof.
  intros Hm Hf s. apply wlp_bind. eapply wlp_mono; [apply Hm |]. intros a s1 [Hm1 Hc1].
  eapply wlp_mono; [apply Hf |]. intros b s2 [Hc2 Hw]. split; [congruence |]. by rewrite <- Hm1.
Qed.

Lemma own_value cpu va n (m : K mach Z) : keeps_user m → own cpu va n (v ← m; mret (Returns v)).
Proof. intros Hm. apply own_keeps, ku_bind; [done | intros v; apply ku_ret]. Qed.

Lemma readable_length pt mem n : ∀ va, (length (readable pt mem n va) ≤ n)%nat.
Proof. induction n as [|n IH]; intros va; cbn [readable]; [simpl; lia |]. case_match; simpl; try lia. specialize (IH (va + 1)). lia. Qed.

Lemma user_buffer_wlp cpu va n (s : mach) :
  wlp (user_buffer cpu va n) (λ old s', m_mem s' = m_mem s ∧ m_ctx s' = m_ctx s ∧ Z.of_nat (length old) ≤ Z.max 0 n) s.
Proof.
  unfold user_buffer. apply wlp_bind. eapply wlp_mono; [apply ku_user_table |]. intros pt s1 [Hm Hc].
  apply wlp_bind, wlp_iff. intros a s2 [= <- <-]. apply wlp_iff. intros old s3 [= <- <-].
  split; [done |]. split; [done |]. pose proof (readable_length pt (m_mem s1) (Z.to_nat n) va). unfold id. lia.
Qed.

(** A call to read, with its registers. *)
Definition reads (c : ucontext) (va n : Z) : Prop :=
  cpu_regs c !! Z.to_nat MIPS_REGISTER_A0 = Some SYSCALL_READ ∧ cpu_regs c !! Z.to_nat MIPS_REGISTER_A2 = Some va ∧
  ∃ A3, cpu_regs c !! Z.to_nat MIPS_REGISTER_A3 = Some A3 ∧ n = Z.max 0 (s32 A3).

Lemma pure_inv {A} (r : res A) (s s' : mach) a : pure r s = Ok (a, s') → r = Ok a ∧ s' = s.
Proof. unfold pure. destruct r; try done. by intros [= <- <-]. Qed.

(** Only a call to read changes user memory, from where its buffer is on. *)
Lemma syscall_own cpu c s :
  wlp (sys cpu c) (λ _ s', m_ctx s' = m_ctx s ∧ (m_mem s' = m_mem s ∨ ∃ va n, reads c va n ∧ writes_own cpu va n s s')) s.
Proof.
  unfold syscall. apply wlp_bind, wlp_iff. intros A0 ? [HA0 ->]%pure_inv. apply wlp_bind, wlp_iff. intros A1 ? [HA1 ->]%pure_inv.
  apply wlp_bind, wlp_iff. intros A2 ? [HA2 ->]%pure_inv. apply wlp_bind, wlp_iff. intros A3 ? [HA3 ->]%pure_inv.
  apply aget_Ok in HA0 as [_ HA0], HA2 as [_ HA2], HA3 as [_ HA3].
  assert (Hku : ∀ m : K mach call_result, keeps_user m →
    wlp m (λ _ s', m_ctx s' = m_ctx s ∧ (m_mem s' = m_mem s ∨ ∃ va n, reads c va n ∧ writes_own cpu va n s s')) s).
  { intros m Hm. eapply wlp_mono; [apply Hm |]. intros a s' [? ?]. split; [done | by left]. }
  assert (Hval : ∀ m : K mach Z, keeps_user m → keeps_user (v ← m; mret (Returns v))) by (intros m Hm; apply ku_bind; [done | intros v; apply ku_ret]).
  assert (Hread : A0 = SYSCALL_READ → reads c A2 (Z.max 0 (s32 A3))).
  { intros ->. split; [done |]. split; [done |]. by exists A3. }
  clear HA0 HA1 HA2 HA3.
  repeat match goal with |- wlp (if ?a =? ?b then _ else _) _ _ => destruct (Z.eqb_spec a b) as [?E|_] end.
  all: try solve [apply Hku, Hval; auto with ku].
  all: try solve [apply Hku, ku_bind; [auto with ku | intros ?; apply Hval; auto with ku]].
  all: try solve [apply Hku; auto with ku].
  all: try solve [apply Hku, ku_bind; [unfold halt_kernel; auto with ku | intros ?; apply ku_ret]].
  - apply Hku, Hval, ku_fork, kf_fork.
  - apply wlp_bind. eapply wlp_mono; [apply user_buffer_wlp |]. intros old s1 (Hm1 & Hc1 & Hl).
    apply wlp_bind. eapply wlp_mono; [apply ku_io |]. intros [r new] s2 [Hm2 Hc2].
    apply wlp_bind. eapply wlp_mono; [by apply (put_buffer_wo cpu A2 (Z.max 0 (s32 A3))) |]. intros [] s3 [Hc3 Hw].
    apply wlp_iff. intros ? ? [= <- <-]. split; [congruence |]. right.
    exists A2, (Z.max 0 (s32 A3)). split; [by apply Hread |]. split; [congruence |]. by rewrite <- Hm1, <- Hm2.
Qed.

(** The registers of a caller that has got a result: all but V0 and the program
    counter are as before. *)
Definition returned (c c' : ucontext) : Prop :=
  ∃ v, cpu_regs c' = <[1%nat := v]> (cpu_regs c) ∧ uc_hi c' = uc_hi c ∧ uc_lo c' = uc_lo c ∧
    uc_pc c' = u32 (uc_pc c + 4) ∧ uc_status c' = uc_status c ∧ uc_prev c' = uc_prev c.

End calls.
(** ** Exceptions in kernel mode *)

Lemma scan_resumes tes es n i o : tlb_scan false tes es n i = Ok o → ∃ e, o = Resume e.
Proof.
  revert i. induction n as [|n IH]; intros i; cbn; [done |]. destruct (aget es i) as [e| | | |]; [| done..]. cbn.
  repeat case_match; try done; [intros [= <-]; by eexists | apply IH].
Qed.

Lemma current_same cpu (s : mach) : wlp (in_mk (current_thread cpu)) (λ _ s', s' = s) s.
Proof.
  destruct s as [[pt q v] ? ? ? ? ? ? ? ?]. apply wlp_zoom, wlp_zoom, wlp_iff. cbn. intros th q' He.
  unfold get_current, get_thread, mbind, K_bind, gets, pure, id in He.
  destruct (aget (scheduler_current_thread q) cpu); [| done..]. destruct (aget (thread_table q) _); [| done..]. by injection He as _ <-.
Qed.

(** The kernel goes on after an exception of its own only when the exception is
    a TLB miss and the page table of the thread has an entry for it; and then
    nothing but the TLB changes. *)
Lemma kernel_exception_resumes cpu exception tes (s s' : mach) o :
  kernel_exception_handle cpu exception tes s = Ok (o, s') →
  s' = s ∧ (exception = EXCEPTION_TLBL ∨ exception = EXCEPTION_TLBS) ∧ ∃ e, o = Resume e.
Proof.
  unfold kernel_exception_handle, mbind at 1, K_bind at 1. pose proof (current_same cpu s) as Hs. unfold wlp in Hs.
  destruct (in_mk (current_thread cpu) s) as [[th s1]| | | |]; [| done..]. subst s1. unfold gets, id, mbind, K_bind.
  assert (Hmiss : (match pure (table_of th s) s with Ok (pt, s1) => pure (tlb_access_exception false tes pt) s1
    | Panic e => Panic e | Block => Block | Undef => Undef | NoFuel => NoFuel end) = Ok (o, s') → s' = s ∧ ∃ e, o = Resume e).
  { unfold pure. destruct (table_of th s) as [[pt|]| | | |]; [| done..]. cbn [tlb_access_exception].
    destruct (tlb_scan _ _ _ _ _) as [o'| | | |] eqn:E; [| done..]. intros [= <- <-]. split; [done | by eapply scan_resumes]. }
  unfold tlb_load_exception, tlb_store_exception. repeat (case_test; [first [done | intros He%Hmiss; tauto] |]). done.
Qed.
End isolation.

(** ** File calls, from the registers to the disk *)

Lemma uload_readable pt mem n : ∀ va l, uload pt mem n va = Ok l → readable pt mem n va = l.
Proof.
  induction n as [|n IH]; intros va l; cbn [uload readable]; [by intros [= <-] |].
  unfold mbind, res_bind. destruct (load_byte pt mem va) as [b| | | |]; try done.
  destruct (uload pt mem n (va + 1)) as [l'| | | |] eqn:Hl; try done. intros [= <-]. f_equal. by apply IH.
Qed.

(** [changed] drops only bytes that are as before. *)
Lemma changed_prefix new : ∀ old, length new = length old →
  ∃ k, (k ≤ length new)%nat ∧ changed new old = take k new ∧ drop k new = drop k old.
Proof.
  induction new as [|x new IH]; intros [|y old]; try done; intros Hl; [by exists 0%nat |].
  injection Hl as Hl. destruct (IH old Hl) as (k & Hk & Hc & Hd). cbn [changed]. rewrite Hc.
  destruct (Z.eqb_spec x y) as [->|Hne]; cbn [andb].
  - case_bool_decide as Hn.
    + exists 0%nat. split; [simpl; lia |]. split; [done |]. simpl. f_equal.
      rewrite <- (take_drop k new), Hn, Hd. simpl. rewrite <- (take_drop k old) at 2. rewrite <- Hd.
      assert (Hk0 : k = 0%nat ∨ new = []) by (destruct k, new; auto; done). destruct Hk0 as [->| ->]; [done |].
      destruct old; [by destruct k | done].
    + exists (S k). simpl. split; [lia | done].
  - exists (S k). simpl. split; [lia | done].
Qed.

Lemma written_store pt mem va r new old :
  space_ok pt mem → 0 ≤ va → va + Z.of_nat (length new) ≤ 2 ^ 31 → length new = length old →
  (∀ v, va ≤ v < va + Z.of_nat (length new) → can_store pt v) →
  (∀ i, (i < length old)%nat → old !! i = ubyte pt mem (va + Z.of_nat i)) →
  ∃ mem', ustore pt mem (written r new old) va = Ok mem' ∧ space_ok pt mem' ∧
    (∀ v, ubyte pt mem' v = if decide (va ≤ v < va + Z.of_nat (length new)) then new !! Z.to_nat (v - va) else ubyte pt mem v) ∧
    (∀ q, ¬ owns pt q → mem' !! q = mem !! q).
Proof.
  intros Hsp Hva Hmax Hl Hcan Hold. destruct (changed_prefix new old Hl) as (k0 & Hk0 & Hch & Hd0).
  unfold written. rewrite Hch, length_take. set (k := Nat.min (length old) (Nat.max (Z.to_nat r) (Nat.min k0 (length new)))).
  assert (Hk : (k0 ≤ k ≤ length new)%nat) by lia.
  assert (Hd : drop k new = drop k old).
  { replace k with (k0 + (k - k0))%nat by lia. by rewrite <- !drop_drop, Hd0. }
  clearbody k. assert (Hlt : length (take k new) = k) by (rewrite length_take; lia).
  destruct (ustore_Ok pt (take k new) mem va Hsp Hva) as (mem' & Hs & Hsp' & Hu & Hkeep); [lia | intros v Hv; apply Hcan; lia |].
  exists mem'. split_and!; [done | done | | done]. intros v. rewrite Hu, Hlt.
  destruct (decide (va ≤ v < va + Z.of_nat k)); [rewrite decide_True, lookup_take_lt by lia; done |].
  case_decide; [| done]. set (i := Z.to_nat (v - va)).
  replace (new !! i) with (old !! i); [rewrite Hold by lia; f_equal; lia |].
  replace i with (k + (i - k))%nat by lia. by rewrite <- !lookup_drop, Hd.
Qed.

Section files.
Context {P : Type} `{PageAlloc P} {F : Type} `{FileStore F} {T : Type} `{Console T}.
Abbreviation mach := (@machine P F T).
Context (ptable_addr start_addr setup_addr stacks finish_addr sems_addr usr_addr : Z)
        (junk : bytes) (tty0 : option Z) (frame : Z → Z) (in_interrupt : bool).
Abbreviation handle := (syscall_handle ptable_addr start_addr setup_addr stacks finish_addr sems_addr usr_addr junk tty0 frame in_interrupt).

(** Thread [t] of process [pid] asks with number [call] for [n] bytes at [va] of
    the file it has as handle [file + 3], which holds [content]. *)
Record file_call (call : Z) (s : mach) (cpu t pid : Z) (p : pcb) (uc : Z) (c : ucontext) (pt : pagetable)
    (file : Z) (e : openfile_entry) (content : bytes) (va n : Z) : Prop := {
  fc_ok : kern_ok (m_kern s);
  fc_runs : runs (m_kern s) cpu t pid;
  fc_pid : 0 ≤ pid;
  fc_pcb : process_table (m_kern s) !! Z.to_nat pid = Some p;
  fc_pt : snd (k_vm (m_kern s)) !! th_pagetable (th (k_sched (m_kern s)) t) = Some pt;
  fc_space : space_ok pt (m_mem s);
  fc_ctx : m_ctx s !! uc = Some c ∧ length (cpu_regs c) = 29%nat;
  fc_args : cpu_regs c !! 3%nat = Some call ∧ cpu_regs c !! 4%nat = Some (file + 3) ∧
    cpu_regs c !! 5%nat = Some va ∧ cpu_regs c !! 6%nat = Some n;
  fc_range : 0 < va ∧ 0 ≤ n ∧ va + n ≤ 2 ^ 31;
  fc_bytes v : va ≤ v < va + n → ∃ b, ubyte pt (m_mem s) v = Some b ∧ is_byte b;
  fc_has : file ∈ pfiles p;
  fc_idle : idle (fst (m_vfs s));
  fc_open : open_at (fst (m_vfs s)) file e;
  fc_store : fs_ok (snd (m_vfs s)) ∧ fs_reliable (snd (m_vfs s)) ∧ file_at (snd (m_vfs s)) (of_filesystem e) (fileid e) content;
  fc_pos : 0 ≤ seek_position e ≤ Z.of_nat (length content);
}.

Lemma in_mk_wp {A} (m : K (@kern P) A) (s : mach) (Q : A → mach → Prop) :
  wp m (λ a k, Q a (set_kern k s)) (m_kern s) → wp (in_mk m) Q s.
Proof. intros Hm. by apply wp_zoom. Qed.

Lemma set_kern_same (s : mach) : set_kern (m_kern s) s = s.
Proof. by destruct s. Qed.

Lemma user_table_wp (s : mach) cpu t pid pt (Q : pagetable → mach → Prop) :
  kern_ok (m_kern s) → runs (m_kern s) cpu t pid → snd (k_vm (m_kern s)) !! th_pagetable (th (k_sched (m_kern s)) t) = Some pt →
  Q pt s → wp (user_table cpu) Q s.
Proof.
  intros Hok Hr Hpt HQ. unfold user_table. wp_step. apply in_mk_wp, (current_thread_wp _ t pid); [done | done |].
  rewrite set_kern_same. do 2 wp_step. unfold id. rewrite Hpt. by wp_step.
Qed.

Lemma user_buffer_wp (s : mach) cpu t pid pt va n (Q : bytes → mach → Prop) :
  kern_ok (m_kern s) → runs (m_kern s) cpu t pid → snd (k_vm (m_kern s)) !! th_pagetable (th (k_sched (m_kern s)) t) = Some pt →
  space_ok pt (m_mem s) → 0 ≤ va → 0 ≤ n → va + n ≤ 2 ^ 31 → (∀ v, va ≤ v < va + n → can_load pt v) →
  (∀ l, length l = Z.to_nat n → (∀ i, (i < length l)%nat → l !! i = ubyte pt (m_mem s) (va + Z.of_nat i)) → Q l s) →
  wp (user_buffer cpu va n) Q s.
Proof.
  intros Hok Hr Hpt Hsp Hva Hn Hmax Hcan HQ. unfold user_buffer. wp_step. eapply user_table_wp; [done | done | done |].
  do 2 wp_step. unfold id. wp_step.
  destruct (uload_Ok pt (m_mem s) (Z.to_nat n) va Hsp) as (l & Hl & Hlen & Hi); [lia | lia | intros v Hv; apply Hcan; lia |].
  rewrite (uload_readable _ _ _ _ _ Hl). apply HQ; [done | by rewrite Hlen].
Qed.

Lemma in_io_wp {A} (m : K (@ustate P F T) A) (s : mach) (Q : A → mach → Prop) :
  wp m (λ a x, Q a (mk_machine (u_kern x) (m_sem_table s) (m_sem_next s) (m_usr s) (u_vfs x) (u_tty x) (m_mem s) (m_ctx s) (m_args s)))
    (mk_ustate (m_kern s) (m_vfs s) (m_tty s)) → wp (in_io m) Q s.
Proof. intros Hm. by apply wp_zoom. Qed.

Lemma in_vfs_wp {A} (m : K (@vstate F) A) (u : @ustate P F T) (Q : A → @ustate P F T → Prop) :
  wp m (λ a v, Q a (mk_ustate (u_kern u) v (u_tty u))) (u_vfs u) → wp (in_vfs m) Q u.
Proof. intros Hm. by apply wp_zoom. Qed.

(** The way of a file handle through [io_read] and [io_write]. *)
Lemma io_read_wp (u : @ustate P F T) cpu t pid p file va buf n (Q : Z * bytes → @ustate P F T → Prop) :
  calls u cpu t pid p → file ∈ pfiles p → 0 ≤ file < 512 →
  wp (vfs_read file va buf n) (λ r v, Q r (mk_ustate (u_kern u) v (u_tty u))) (u_vfs u) → wp (io_read tty0 cpu (file + 3) va buf n) Q u.
Proof.
  intros Hc Hin Hf Hr. unfold io_read, FILEHANDLE_STDIN, FILEHANDLE_STDOUT, FILEHANDLE_STDERR.
  rewrite (proj2 (Z.eqb_neq (file + 3) 0)), (proj2 (Z.eqb_neq (file + 3) 1)), (proj2 (Z.eqb_neq (file + 3) 2)) by lia. cbn [orb].
  wp_step. eapply wp_pure; [apply int_op_Ok; unfold is_s32; lia |]. cbv beta. replace (file + 3 - 3) with file by lia.
  wp_step. apply wp_iff. eexists _, _. split; [by eapply has_eq |]. rewrite bool_decide_true by done. cbn [negb]. by apply in_vfs_wp.
Qed.

Lemma io_write_wp (u : @ustate P F T) cpu t pid p file va buf n (Q : Z → @ustate P F T → Prop) :
  calls u cpu t pid p → file ∈ pfiles p → 0 ≤ file < 512 →
  wp (vfs_write file va buf n) (λ r v, Q r (mk_ustate (u_kern u) v (u_tty u))) (u_vfs u) → wp (io_write tty0 cpu (file + 3) va buf n) Q u.
Proof.
  intros Hc Hin Hf Hr. unfold io_write, FILEHANDLE_STDIN, FILEHANDLE_STDOUT, FILEHANDLE_STDERR.
  rewrite (proj2 (Z.eqb_neq (file + 3) 0)), (proj2 (Z.eqb_neq (file + 3) 1)), (proj2 (Z.eqb_neq (file + 3) 2)) by lia.
  wp_step. eapply wp_pure; [apply int_op_Ok; unfold is_s32; lia |]. cbv beta. replace (file + 3 - 3) with file by lia.
  wp_step. apply wp_iff. eexists _, _. split; [by eapply has_eq |]. rewrite bool_decide_true by done. cbn [negb]. by apply in_vfs_wp.
Qed.

(** The registers after a call with result [v]. *)
Definition after_call (c : ucontext) (v : Z) : ucontext :=
  mk_uctx (<[1%nat := v]> (cpu_regs c)) (uc_hi c) (uc_lo c) (u32 (uc_pc c + 4)) (uc_status c) (uc_prev c).

Lemma handle_wp call (s : mach) cpu t pid p uc c pt file e content va n (Q : outcome → mach → Prop) :
  file_call call s cpu t pid p uc c pt file e content va n →
  wp (syscall ptable_addr start_addr setup_addr stacks finish_addr sems_addr usr_addr junk tty0 frame in_interrupt cpu c)
    (λ r s1, ∃ v, r = Returns v ∧ is_u32 v ∧ m_kern s1 = m_kern s ∧ m_ctx s1 = m_ctx s ∧
      Q Back (set_ctx (<[uc := after_call c v]> (m_ctx s)) s1)) s →
  wp (handle cpu uc) Q s.
Proof.
  intros Hc Hs. pose proof (fc_ctx _ _ _ _ _ _ _ _ _ _ _ _ _ _ Hc) as [Hctx Hlen].
  pose proof (fc_runs _ _ _ _ _ _ _ _ _ _ _ _ _ _ Hc) as Hr. pose proof (ko_sched _ (fc_ok _ _ _ _ _ _ _ _ _ _ _ _ _ _ Hc)) as [Hq _ _].
  unfold syscall_handle. do 2 wp_step. unfold id. rewrite Hctx. wp_step. apply in_mk_wp, on_sched_wp.
  apply wp_get_current; [apply Hq | apply Hr |]. intros t' Ht'.
  assert (t' = t) as -> by (pose proof (rn_cur _ _ _ _ Hr); congruence).
  replace (set_kern _ s) with s by (by destruct s as [[] ? ? ? ? ? ? ? ?]).
  wp_step. eapply wp_mono; [exact Hs |]. intros r s1 (v & -> & Hv & Hk1 & Hc1 & HQ).
  wp_step. apply in_mk_wp, on_sched_wp. rewrite Hk1. apply wp_get_current; [apply Hq | apply Hr |]. intros t' Ht2.
  assert (t' = t) as -> by congruence. rewrite Z.eqb_refl.
  replace (set_kern _ s1) with s1 by (destruct s1 as [[] ? ? ? ? ? ? ? ?]; simpl in Hk1; by rewrite <- Hk1).
  wp_step. unfold syscall_return. do 2 wp_step. unfold id. rewrite Hc1, Hctx. wp_step.
  eapply wp_pure; [apply aset_Ok; unfold MIPS_REGISTER_V0; lia |]. cbv beta. wp_step. wp_step. by rewrite u32_small.
Qed.

Section call.
Context (call : Z) (s : mach) (cpu t pid : Z) (p : pcb) (uc : Z) (c : ucontext) (pt : pagetable)
        (file : Z) (e : openfile_entry) (content : bytes) (va n : Z).
Context (Hc : file_call call s cpu t pid p uc c pt file e content va n).
Let m := Z.min n (Z.of_nat (length content) - seek_position e).

(** What both calls come to: [m] bytes are moved, the position is advanced. *)
Definition moved (r : outcome) (s' : mach) : Prop :=
  r = Back ∧ m_kern s' = m_kern s ∧ m_ctx s' = <[uc := after_call c m]> (m_ctx s) ∧
  fst (m_vfs s') = at_pos file e (seek_position e + m) (fst (m_vfs s)).

(** The [Returns] branch of the call, on arguments that fit an [int]. *)
Lemma file_args : s32 (file + 3) = file + 3 ∧ s32 n = n ∧ 0 ≤ file < 512 ∧ 0 ≤ m ≤ n ∧ m < 2 ^ 31.
Proof using Hc.
  destruct Hc as [_ _ _ _ _ _ _ _ (? & ? & ?) _ _ _ (Hr & _ & _) _ ?]. unfold CONFIG_MAX_OPEN_FILES in Hr.
  unfold m. split_and!; [apply s32_small; unfold is_s32; lia | apply s32_small; unfold is_s32; lia | lia ..].
Qed.

Lemma syscall_args_wp (Q : call_result → mach → Prop) (body : Z → Z → Z → Z → K mach call_result) :
  wp (body call (file + 3) va n) Q s →
  wp (A0 ← pure (aget (cpu_regs c) 3); A1 ← pure (aget (cpu_regs c) 4); A2 ← pure (aget (cpu_regs c) 5);
      A3 ← pure (aget (cpu_regs c) 6); body A0 A1 A2 A3) Q s.
Proof using Hc.
  destruct (fc_args _ _ _ _ _ _ _ _ _ _ _ _ _ _ Hc) as (H3 & H4 & H5 & H6). intros Hb.
  do 4 (wp_step; eapply wp_pure; [apply aget_Ok; split; [lia | eassumption] |]; cbv beta). exact Hb.
Qed.

Lemma file_calls : calls (mk_ustate (m_kern s) (m_vfs s) (m_tty s)) cpu t pid p.
Proof using Hc. by destruct Hc. Qed.

Lemma file_loads v : va ≤ v < va + n → can_load pt v.
Proof using Hc.
  intros Hv. destruct (fc_bytes _ _ _ _ _ _ _ _ _ _ _ _ _ _ Hc v Hv) as (b & Hb & _). unfold ubyte in Hb.
  destruct (pt_lookup pt (v / PAGE_SIZE)) as [[q d]|] eqn:Hl; [by exists (q, d) | done].
Qed.

Lemma syscall_write_wp :
  call = SYSCALL_WRITE →
  wp (handle cpu uc) (λ r s', moved r s' ∧ m_mem s' = m_mem s ∧
    ∃ data, length data = Z.to_nat m ∧ (∀ i, (i < length data)%nat → data !! i = ubyte pt (m_mem s) (va + Z.of_nat i)) ∧
      file_at (snd (m_vfs s')) (of_filesystem e) (fileid e) (splice (Z.to_nat (seek_position e)) data content)) s.
Proof using Hc.
  intros Hw. destruct file_args as (Hs1 & Hs2 & Hf & Hm & Hm31). eapply handle_wp; [exact Hc |].
  unfold syscall. apply syscall_args_wp. rewrite Hw, Hs1, Hs2. cbn -[splice].
  destruct Hc as [Hok Hr Hpid Hpcb Hpt Hsp _ _ (Hva & Hn & Hmax) Hby Hin Hid Hop (Hfs & Hrel & Hat) Hpos].
  wp_step. eapply user_buffer_wp; [done | done | done | done | lia | lia | lia | exact file_loads |]. intros data Hlen Hi.
  wp_step. apply in_io_wp. eapply io_write_wp; [exact file_calls | done | done |]. cbn [u_vfs u_kern u_tty].
  destruct (m_vfs s) as [v f] eqn:Hv. eapply wp_mono; [apply (vfs_write_wp v f file e content); try done; try lia |].
  - apply Forall_lookup_2. intros i b Hb. pose proof (lookup_lt_Some _ _ _ Hb).
    rewrite Hi in Hb by lia. destruct (Hby (va + Z.of_nat i)) as (b' & Hb' & Hbb); [lia |]. congruence.
  - unfold NULL. lia.
  - intros r [v' f'] (Hv' & _ & _ & [[_ []]|[Hres Hfile]]); [done |]. fold m in Hres, Hfile. wp_step.
    assert (r = m) as -> by exact Hres. exists m. split; [done |]. split; [unfold is_u32; lia |]. do 2 (split; [done |]).
    split; [split_and!; [done | done | done |]; simpl; rewrite Hv, Z.max_l in * by lia; done |].
    split; [done |]. exists (take (Z.to_nat m) data). split; [rewrite length_take; lia |]. split; [| exact Hfile].
    intros i Hlt. rewrite length_take in Hlt. rewrite lookup_take_lt by lia. apply Hi. lia.
Qed.

Lemma syscall_read_wp :
  call = SYSCALL_READ → (∀ v, va ≤ v < va + n → can_store pt v) →
  wp (handle cpu uc) (λ r s', moved r s' ∧ file_at (snd (m_vfs s')) (of_filesystem e) (fileid e) content ∧
    (∀ v, ubyte pt (m_mem s') v =
      if decide (va ≤ v < va + m) then content !! Z.to_nat (seek_position e + (v - va)) else ubyte pt (m_mem s) v) ∧
    (∀ q, ¬ owns pt q → m_mem s' !! q = m_mem s !! q)) s.
Proof using Hc.
  intros Hw Hst. destruct file_args as (Hs1 & Hs2 & Hf & Hm & Hm31). eapply handle_wp; [exact Hc |].
  unfold syscall. apply syscall_args_wp. rewrite Hw, Hs1, Hs2. cbn -[put_buffer].
  destruct Hc as [Hok Hr Hpid Hpcb Hpt Hsp _ _ (Hva & Hn & Hmax) Hby Hin Hid Hop (Hfs & Hrel & Hat) Hpos].
  wp_step. eapply user_buffer_wp; [done | done | done | done | lia | lia | lia | exact file_loads |]. intros old Hlen Hi.
  wp_step. apply in_io_wp. eapply io_read_wp; [exact file_calls | done | done |]. cbn [u_vfs u_kern u_tty].
  destruct (m_vfs s) as [v f] eqn:Hv. eapply wp_mono; [apply (vfs_read_wp v f file e content); try done; try lia; unfold NULL; lia |].
  intros [r new] [v' f'] (Hv' & _ & Hfile & _ & [[_ []]|Hres]); [done |]. fold m in Hres. cbv zeta in Hres.
  injection Hres as -> Hnew. cbn [fst snd] in Hv'. cbv beta iota.
  assert (Hln : length new = length old) by (rewrite Hnew, length_app, length_take, !length_drop; lia).
  wp_step. unfold put_buffer. wp_step. eapply user_table_wp; [done | done | done |]. do 2 wp_step. unfold id. cbn [m_mem].
  destruct (written_store pt (m_mem s) va m new old) as (mem' & Hs & _ & Hu & Hkeep); [done | lia | lia | done | intros; apply Hst; lia | done |].
  wp_step. eapply wp_pure; [exact Hs |]. cbv beta. do 2 wp_step.
  exists m. split; [done |]. split; [unfold is_u32; lia |]. do 2 (split; [done |]).
  split; [split_and!; [done | done | done |]; simpl; rewrite Hv, Z.max_l in * by lia; done |].
  split; [exact Hfile |]. split; [| exact Hkeep]. intros w. simpl. rewrite Hu, Hln, Hlen.
  destruct (decide (va ≤ w < va + m)) as [Hin'|Hout]; [rewrite decide_True by lia |].
  - rewrite Hnew, lookup_app_l by (rewrite length_take, length_drop; lia).
    rewrite lookup_take_lt, lookup_drop by lia. f_equal. lia.
  - case_decide; [| done]. rewrite Hnew, lookup_app_r by (rewrite length_take, length_drop; lia).
    rewrite length_take, length_drop, lookup_drop.
    replace (_ + _)%nat with (Z.to_nat (w - va)) by lia. rewrite Hi by lia. f_equal. lia.
Qed.
End call.

End files.

(** ** Witnesses *)

#[local] Instance example_quiet_tty : Console unit := {|
  gcd_read _ buf _ := mret (0, buf);
  gcd_write _ _ n := mret n;
|}.

(** Process 1 has the one open file; its page 5 is frame 3, writable. *)
Definition example_files : list Z := 0 :: replicate 511 (-1).
Definition example_file_pcb : pcb := mk_pcb (replicate 64 0) PROCESS_RUNNING 0 0 0x3000 example_files.
Definition example_regs (call : Z) : ucontext :=
  mk_uctx ([0; 0; 0; call; 3; 0x5008; 4] ++ replicate 22 0) 0 0 0x1000 0 0.

Definition example_caller (call : Z) : @machine pagepool memfs unit :=
  mk_machine (mk_kern (<[1%nat := example_file_pcb]> example_ptable) (k_sched (example_kern 1)) (example_pool2, {[0x80002000 := fork_pt]}))
    (semaphore_table example_sems) (sem_next example_sems) [] (example_one_open, mk_memfs [10; 11; 12; 13; 14; 15]) tt
    example_mem {[0x9000 := example_regs call]} ∅.

Lemma example_space : space_ok fork_pt example_mem.
Proof.
  constructor; [apply fork_pt_wf | |].
  - intros w w' q d d' (-> & _)%example_pages (-> & _)%example_pages. done.
  - intros w q d (_ & -> & _)%example_pages. exists (replicate 4096 3). split; [apply example_mem_page; lia | apply length_replicate].
Qed.

Lemma example_page5 v : 0x5008 ≤ v < 0x500c → pt_lookup fork_pt (v / PAGE_SIZE) = Some (3, 1).
Proof.
  intros Hv. replace (v / PAGE_SIZE) with 5; [vm_compute; reflexivity |].
  apply (Z.div_unique v PAGE_SIZE 5 (v - 0x5000)); unfold PAGE_SIZE; lia.
Qed.

Lemma example_file_call call :
  file_call call (example_caller call) 0 1 1 example_file_pcb 0x9000 (example_regs call) fork_pt 0 (mk_openfile 1 3 0)
    [10; 11; 12; 13; 14; 15] 0x5008 4.
Proof.
  destruct (example_kern_ok 1) as [Hl He Hf Hi]. constructor.
  - constructor; [reflexivity | | | exact Hi]; intros i p.
    + cbn [process_table example_caller m_kern]. rewrite list_lookup_insert_Some. intros [(<- & <- & _)|[_ Hp]]; [reflexivity | exact (He i p Hp)].
    + cbn [process_table example_caller m_kern]. rewrite list_lookup_insert_Some. intros [(<- & <- & _)|[_ Hp]]; [reflexivity | exact (Hf i p Hp)].
  - destruct (example_kern_runs 1) as [? ? ? ? ? ?]. constructor; assumption.
  - lia.
  - reflexivity.
  - cbn [example_caller m_kern k_sched]. rewrite (proj2 (proj2 (example_kern_sched 1))). vm_compute. reflexivity.
  - exact example_space.
  - split; reflexivity.
  - repeat split.
  - lia.
  - intros v Hv. exists 3. cbn [example_caller m_mem]. unfold ubyte. rewrite example_page5 by lia. cbn [mbind option_bind].
    rewrite example_mem_page by lia. cbn [mbind option_bind]. split; [| unfold is_byte; lia].
    apply lookup_replicate_2. pose proof (Z.mod_pos_bound v PAGE_SIZE eq_refl). unfold PAGE_SIZE in *. lia.
  - apply (list_elem_of_lookup_2 _ 0). reflexivity.
  - exact example_one_idle.
  - exact example_one_at.
  - split; [reflexivity |]. split; [exact I | reflexivity].
  - simpl. lia.
Qed.

(** A read of four bytes into a buffer at [va]; there is little memory. *)
Definition example_reader (va : Z) : @machine pagepool memfs unit :=
  set_ctx {[0x9000 := mk_uctx ([0; 0; 0; SYSCALL_READ; 3; va; 4] ++ replicate 22 0) 0 0 0x1000 0 0]}
    (set_user_mem {[3 := replicate 16 0; 9 := replicate 16 0]} (example_caller SYSCALL_READ)).


