(* ===== verification/Xprintf.v ===== *)
(** * Formatted output (src/buenos/lib/xprintf.c)

    [vxnprintf] is the one function behind kprintf, kvprintf, snprintf and
    vsnprintf; src/buenos/tests/lib.c has the same text for user programs.  A
    format is the list of bytes from [fmt] on; the arguments are a list, from
    which [va_arg] takes the next one. *)

From S2P Require Import Prelude Libc.
Local Open Scope Z_scope.

Definition FLAG_TTY : Z := 0x8000.
Definition FLAG_SMALLS : Z := 0x01.
Definition FLAG_ALT : Z := 0x02.
Definition FLAG_ZEROPAD : Z := 0x04.
Definition FLAG_LEFT : Z := 0x08.
Definition FLAG_SPACE : Z := 0x10.
Definition FLAG_SIGN : Z := 0x20.

Definition has_flag (flags f : Z) : bool := negb (Z.land flags f =? 0).

(** The buffer of a call of snprintf, and what has gone to the console. *)
Record out := mk_out { o_buf : bytes; o_tty : bytes }.

Inductive argument := AInt (v : Z) | AStr (s : bytes).

(** [va_arg], for a word of 32 bits and for a string. *)
Definition va_int (ap : list argument) : res (Z * list argument) :=
  match ap with AInt v :: ap' => Ok (v, ap') | _ => Undef end.
Definition va_str (ap : list argument) : res (bytes * list argument) :=
  match ap with AStr s :: ap' => Ok (s, ap') | _ => Undef end.

Definition putchar (c : Z) : K out unit := modify (λ o, mk_out (o_buf o) (o_tty o ++ [c])).

(** [buf] is an index of the buffer. *)
Definition printc (buf c flags : Z) : K out unit :=
  if has_flag flags FLAG_TTY then (if c =? 0 then mret tt else putchar c)
  else
    o ← gets id;
    b ← pure (aset (o_buf o) buf c);
    modify (λ o, mk_out b (o_tty o)).

(** "0123456789ABCDEF0123456789abcdef" *)
Definition digits : bytes :=
  [48; 49; 50; 51; 52; 53; 54; 55; 56; 57; 65; 66; 67; 68; 69; 70;
   48; 49; 50; 51; 52; 53; 54; 55; 56; 57; 97; 98; 99; 100; 101; 102].

(** The [do] loop that produces the digits; [fuel] is the room left in
    [rev]. *)
Fixpoint digit_loop (fuel : nat) (rev : bytes) (i n base flags : Z) : res (bytes * Z) :=
  match fuel with
  | O => Undef
  | S fuel' =>
      d ← aget digits (if has_flag flags FLAG_SMALLS then 16 + n mod base else n mod base);
      rev ← aset rev i d;
      let n := n / base in
      if n =? 0 then Ok (rev, i + 1) else digit_loop fuel' rev (i + 1) n base flags
  end.

(** [while (i < upto) rev[i++] = c] *)
Fixpoint fill_loop (fuel : nat) (rev : bytes) (i upto c : Z) : res (bytes * Z) :=
  match fuel with
  | O => NoFuel
  | S fuel' =>
      if i <? upto then rev ← aset rev i c; fill_loop fuel' rev (i + 1) upto c
      else Ok (rev, i)
  end.

(** The loop that outputs [rev] from [i] downwards; the result is the number
    of characters written. *)
Fixpoint rev_loop (fuel : nat) (rev : bytes) (i buf written size flags : Z) : K out Z :=
  match fuel with
  | O => pure NoFuel
  | S fuel' =>
      if (0 <=? i) && (written <? size) then
        c ← pure (aget rev i);
        printc buf c flags;;
        rev_loop fuel' rev (i - 1) (buf + 1) (written + 1) size flags
      else mret written
  end.

(** [rev0] is what the stack holds where [rev] lies. *)
Definition print_uint (rev0 : bytes) (buf size n base flags prec width : Z) : K out Z :=
  if size <=? 0 then mret 0
  else
    '(rev, i) ← pure (digit_loop 11 rev0 0 n base flags);
    let prec := Z.min prec 11 in
    let width := Z.min width 11 in
    '(rev, i) ← pure (fill_loop 12 rev i prec 48);
    '(rev, i) ← pure (fill_loop 12 rev i width 32);
    rev_loop 12 rev (i - 1) buf 0 size flags.

(** The value scanned and the rest of the string. *)
Fixpoint scan_int (s : bytes) (value : Z) : res (Z * bytes) :=
  match s with
  | [] => Undef
  | c :: s' =>
      if (48 <? schar c) && (schar c <? 57) then
        v ← int_op (10 * value + (schar c - 48));
        scan_int s' v
      else Ok (value, s)
  end.

(** Flags, width, precision and the position in the format. *)
Record mods := mk_mods { md_flags : Z; md_width : Z; md_prec : Z }.

(** The loop over flags and modifiers, from the character [ch] on; [None] when
    the format ends in it. *)
Fixpoint mods_loop (fuel : nat) (ch : Z) (fmt : bytes) (m : mods) : res (option (Z * bytes * mods)) :=
  match fuel with
  | O => NoFuel
  | S fuel' =>
      let again (fmt : bytes) (m : mods) :=
        match fmt with
        | [] => Undef
        | ch :: fmt => if ch =? 0 then Ok None else mods_loop fuel' ch fmt m
        end in
      let flag f := again fmt (mk_mods (Z.lor (md_flags m) f) (md_width m) (md_prec m)) in
      if ch =? 35 then flag FLAG_ALT
      else if ch =? 48 then flag FLAG_ZEROPAD
      else if ch =? 32 then flag FLAG_SPACE
      else if ch =? 43 then flag FLAG_SIGN
      else if ch =? 45 then flag FLAG_LEFT
      else if ch =? 46 then
        '(v, fmt) ← scan_int fmt 0;
        again fmt (mk_mods (md_flags m) (md_width m) v)
      else if (49 <=? ch) && (ch <=? 57) then
        '(v, fmt) ← scan_int (ch :: fmt) 0;
        again fmt (mk_mods (md_flags m) v (md_prec m))
      else Ok (Some (ch, fmt, m))
  end.

(** The loop of [%s]; the result is the new value of [written]. *)
Fixpoint str_loop (s : bytes) (buf written w flags : Z) : K out Z :=
  match s with
  | [] => if written <? w then pure Undef else mret written
  | c :: s' =>
      if (written <? w) && negb (c =? 0) then
        printc buf c flags;;
        str_loop s' (buf + 1) (written + 1) w flags
      else mret written
  end.

Section vxnprintf.
Context (rev0 : bytes).

(** A number: [buf] and [written] move by what is output. *)
Definition number (buf written size v base : Z) (flags prec width : Z) : K out (Z * Z) :=
  w ← print_uint rev0 buf (size - written) v base flags prec width;
  mret (buf + w, written + w).

(** The second [switch]: one conversion [ch]. *)
Definition convert (ch : Z) (m : mods) (ap : list argument) (buf written size : Z) : K out (list argument * Z * Z) :=
  let flags := md_flags m in
  let width := md_width m in
  let prec := md_prec m in
  let padded (width prec : Z) := if (prec <? width) && has_flag flags FLAG_ZEROPAD then width else prec in
  if (ch =? 105) || (ch =? 100) then
    '(arg, ap) ← pure (va_int ap);
    let arg := s32 arg in
    '(buf, written, arg) ←
      (if arg <? 0 then
         printc buf 45 flags;;
         arg ← pure (int_op (- arg));
         mret (buf + 1, written + 1, arg)
       else mret (buf, written, arg));
    '(buf, written) ←
      (if has_flag flags FLAG_SIGN then printc buf 43 flags;; mret (buf + 1, written + 1)
       else if has_flag flags FLAG_SPACE then printc buf 32 flags;; mret (buf + 1, written + 1)
       else mret (buf, written));
    '(buf, written) ← number buf written size arg 10 flags 0 0;
    mret (ap, buf, written)
  else if (ch =? 111) || (ch =? 117) then
    '(arg, ap) ← pure (va_int ap);
    '(buf, written) ← number buf written size (u32 arg) (if ch =? 111 then 8 else 10) flags (padded width prec) width;
    mret (ap, buf, written)
  else if (ch =? 112) || (ch =? 120) || (ch =? 88) then
    let flags := if ch =? 112 then Z.lor flags FLAG_ALT else flags in
    let flags := if ch =? 88 then flags else Z.lor flags FLAG_SMALLS in
    '(buf, written, width) ←
      (if has_flag flags FLAG_ALT then
         printc buf 48 flags;;
         let buf := buf + 1 in
         let written := written + 1 in
         '(buf, written) ←
           (if written <? size then printc buf 120 flags;; mret (buf + 1, written + 1) else mret (buf, written));
         mret (buf, written, width - 2)
       else mret (buf, written, width));
    let prec := if (prec <? width) && has_flag flags FLAG_ZEROPAD then width else prec in
    '(arg, ap) ← pure (va_int ap);
    '(buf, written) ← number buf written size (u32 arg) 16 flags prec width;
    mret (ap, buf, written)
  else if ch =? 99 then
    '(arg, ap) ← pure (va_int ap);
    printc buf (arg mod 256) flags;;
    mret (ap, buf + 1, written + 1)
  else if ch =? 115 then
    '(s, ap) ← pure (va_str ap);
    limit ← (if prec =? -1 then mret size else pure (int_op (written + prec)));
    let w := if limit <? size then limit else size in
    written' ← str_loop s buf written w flags;
    mret (ap, buf + (written' - written), written')
  else
    printc buf ch flags;;
    mret (ap, buf + 1, written + 1).

(** The loop over the format; [tty] is the flag FLAG_TTY of the call. *)
Fixpoint fmt_loop (fuel : nat) (fmt : bytes) (ap : list argument) (buf written size flags : Z) : K out (Z * Z * Z) :=
  match fuel with
  | O => pure NoFuel
  | S fuel' =>
      if negb (written <? size) then mret (buf, written, flags)
      else
        match fmt with
        | [] => pure Undef
        | ch :: fmt =>
            if ch =? 0 then mret (buf, written, flags)
            else if negb (ch =? 37) then
              printc buf ch flags;;
              fmt_loop fuel' fmt ap (buf + 1) (written + 1) size flags
            else
              match fmt with
              | [] => pure Undef
              | ch :: fmt =>
                  if ch =? 0 then mret (buf, written, flags)
                  else
                    let flags := Z.land flags FLAG_TTY in
                    r ← pure (mods_loop fuel' ch fmt (mk_mods flags (-1) (-1)));
                    match r with
                    | None => mret (buf, written, flags)
                    | Some (ch, fmt, m) =>
                        '(ap, buf, written) ← convert ch m ap buf written size;
                        fmt_loop fuel' fmt ap buf written size (md_flags m)
                    end
              end
        end
  end.

Definition vxnprintf (fuel : nat) (size : Z) (fmt : bytes) (ap : list argument) (flags : Z) : K out Z :=
  if size <=? 0 then mret 0
  else
    '(buf, written, flags) ← fmt_loop fuel fmt ap 0 0 size flags;
    let '(buf, written) := if written =? size then (buf - 1, -1) else (buf, written) in
    printc buf 0 flags;;
    mret written.

Definition kvprintf (fuel : nat) (fmt : bytes) (ap : list argument) : K out Z := vxnprintf fuel 0x7fffffff fmt ap FLAG_TTY.
Definition kprintf (fuel : nat) (fmt : bytes) (args : list argument) : K out Z := vxnprintf fuel 0x7fffffff fmt args FLAG_TTY.
Definition vsnprintf (fuel : nat) (size : Z) (fmt : bytes) (ap : list argument) : K out Z := vxnprintf fuel size fmt ap 0.
Definition snprintf (fuel : nat) (size : Z) (fmt : bytes) (args : list argument) : K out Z := vxnprintf fuel size fmt args 0.

End vxnprintf.
