(* ===== verification/XprintfSpec.v ===== *)
(** * Formatted output prints what the format says *)

From S2P Require Import Prelude Libc Xprintf.
Local Open Scope Z_scope.

(** ** What has been output *)

(** The output [l] has gone to the console, or to the buffer from its start;
    [b0] and [t0] are the buffer and the console before. *)
Definition holds (tty : bool) (b0 t0 l : bytes) (o : out) : Prop :=
  if tty then o_buf o = b0 ∧ o_tty o = t0 ++ filter (λ c, c ≠ 0) l
  else o_tty o = t0 ∧ (length l ≤ length b0)%nat ∧ o_buf o = l ++ drop (length l) b0.

(** There is room for one more character, and for [size] in all. *)
Definition room (tty : bool) (b0 : bytes) (size : Z) : Prop := tty = false → size ≤ Z.of_nat (length b0).

Lemma printc_wp tty b0 t0 l o c flags size (Q : unit → out → Prop) :
  holds tty b0 t0 l o → has_flag flags FLAG_TTY = tty → room tty b0 size → Z.of_nat (length l) < size →
  (∀ o', holds tty b0 t0 (l ++ [c]) o' → Q tt o') → wp (printc (Z.of_nat (length l)) c flags) Q o.
Proof.
  intros Ho Hf Hr Hlt HQ. unfold printc. rewrite Hf. destruct tty; cbn [holds] in *.
  - destruct Ho as [Hb Ht]. destruct (Z.eqb_spec c 0) as [->|Hc].
    + wp_step. apply HQ. split; [done |]. rewrite filter_app, filter_cons_False, filter_nil, app_nil_r by (by intros []). done.
    + unfold putchar. wp_step. apply HQ. split; [done |]. simpl. rewrite Ht, filter_app, filter_cons_True, filter_nil, app_assoc by done. done.
  - destruct Ho as (Ht & Hle & Hb). specialize (Hr eq_refl). do 2 wp_step. unfold id. wp_step.
    eapply wp_pure; [apply aset_Ok; rewrite Hb, length_app, length_drop; lia |]. wp_step. apply HQ. split; [done |].
    rewrite length_app. simpl. split; [lia |]. rewrite Nat2Z.id, Hb. rewrite insert_app_r_alt by lia. rewrite Nat.sub_diag.
    rewrite <- app_assoc. f_equal.
    destruct (drop (length l) b0) as [|x r] eqn:Hd.
    { pose proof (length_drop b0 (length l)) as Hl. rewrite Hd in Hl. simpl in Hl. lia. }
    simpl. f_equal. rewrite <- drop_drop, Hd. done.
Qed.

(** ** Numbers *)

(** The digits of [n], the lowest first; [k] bounds their number. *)
Fixpoint rdigits (k : nat) (base n : Z) : list Z :=
  match k with
  | O => []
  | S k' => n mod base :: (if n / base =? 0 then [] else rdigits k' base (n / base))
  end.

Definition digit_char (small : bool) (d : Z) : Z := nth (Z.to_nat (if small then 16 + d else d)) digits 0.

Definition pad (c : Z) (upto : Z) (l : bytes) : bytes := replicate (Z.to_nat (Z.min upto 11) - length l) c ++ l.

(** The text of a number: its digits, zeros up to the precision, blanks up to
    the width, both at most 11. *)
Definition number_text (base : Z) (small : bool) (prec width n : Z) : bytes :=
  pad 32 width (pad 48 prec (reverse (digit_char small <$> rdigits 11 base n))).

Lemma rdigits_bound k base n : 1 < base → 0 ≤ n → Forall (λ d, 0 ≤ d < base) (rdigits k base n).
Proof.
  intros Hb. revert n. induction k as [|k IH]; intros n Hn; simpl; [constructor |]. constructor; [apply Z.mod_pos_bound; lia |].
  case_match; [constructor |]. apply IH. apply Z.div_pos; lia.
Qed.

Lemma rdigits_length k base n : (length (rdigits k base n) ≤ k)%nat.
Proof. revert n. induction k as [|k IH]; intros n; simpl; [lia |]. case_match; simpl; [lia |]. specialize (IH (n / base)). lia. Qed.

Lemma rdigits_pos k base n : (0 < k)%nat → (0 < length (rdigits k base n))%nat.
Proof. destruct k; [lia | simpl; lia]. Qed.

Lemma digit_char_at (small : bool) d : 0 ≤ d < 16 → aget digits (if small then 16 + d else d) = Ok (digit_char small d).
Proof.
  intros Hd. unfold digit_char. apply aget_Ok. split; [destruct small; lia |].
  destruct (lookup_lt_is_Some_2 digits (Z.to_nat (if small then 16 + d else d))) as [x Hx]; [change (length digits) with 32%nat; destruct small; lia |].
  rewrite Hx. f_equal. symmetry. by apply nth_lookup_Some.
Qed.

(** The loop writes the digits into [rev], lowest first. *)
Lemma digit_loop_Ok base flags k : ∀ rev i n,
  1 < base ≤ 16 → 0 ≤ n < base ^ Z.of_nat k → (0 < k)%nat → 0 ≤ i → i + Z.of_nat k ≤ Z.of_nat (length rev) →
  ∃ rev', digit_loop k rev i n base flags = Ok (rev', i + Z.of_nat (length (rdigits k base n))) ∧ length rev' = length rev ∧
    take (Z.to_nat i + length (rdigits k base n)) rev' = take (Z.to_nat i) rev ++ (digit_char (has_flag flags FLAG_SMALLS) <$> rdigits k base n).
Proof.
  induction k as [|k IH]; intros rev i n Hb Hn Hk Hi Hle; [lia |]. cbn [digit_loop rdigits]. unfold mbind, res_bind.
  pose proof (Z.mod_pos_bound n base ltac:(lia)). rewrite digit_char_at by lia. rewrite aset_Ok by lia.
  set (c := digit_char _ _). set (rev1 := <[Z.to_nat i := c]> rev).
  assert (Hl1 : length rev1 = length rev) by apply length_insert.
  assert (Ht1 : take (S (Z.to_nat i)) rev1 = take (Z.to_nat i) rev ++ [c]).
  { unfold rev1. rewrite (take_S_r _ _ c) by (apply list_lookup_insert_eq; lia). f_equal. apply take_insert_ge. lia. }
  destruct (Z.eqb_spec (n / base) 0) as [He|He].
  - exists rev1. split; [done |]. split; [done |]. simpl. replace (Z.to_nat i + 1)%nat with (S (Z.to_nat i)) by lia. done.
  - assert (Hn2 : 0 ≤ n / base < base ^ Z.of_nat k).
    { split; [apply Z.div_pos; lia |]. apply Z.div_lt_upper_bound; [lia |]. rewrite <- Z.pow_succ_r by lia. replace (Z.succ (Z.of_nat k)) with (Z.of_nat (S k)) by lia. lia. }
    destruct (decide (k = 0%nat)) as [->|Hk0]; [change (base ^ Z.of_nat 0) with 1 in Hn2; lia |].
    destruct (IH rev1 (i + 1) (n / base) Hb Hn2) as (rev' & -> & Hl & Ht); [lia | lia | lia |].
    exists rev'. split; [simpl; f_equal; f_equal; lia |]. split; [lia |]. simpl.
    replace (Z.to_nat i + S (length (rdigits k base (n / base))))%nat with (Z.to_nat (i + 1) + length (rdigits k base (n / base)))%nat by lia.
    rewrite Ht. replace (Z.to_nat (i + 1)) with (S (Z.to_nat i)) by lia. rewrite Ht1, <- app_assoc. done.
Qed.

Lemma fill_loop_Ok c upto fuel : ∀ rev i,
  0 ≤ i → Z.max i upto ≤ Z.of_nat (length rev) → (Z.to_nat (upto - i) < fuel)%nat →
  ∃ rev', fill_loop fuel rev i upto c = Ok (rev', Z.max i upto) ∧ length rev' = length rev ∧
    take (Z.to_nat (Z.max i upto)) rev' = take (Z.to_nat i) rev ++ replicate (Z.to_nat (upto - i)) c.
Proof.
  induction fuel as [|fuel IH]; intros rev i Hi Hle Hf; [lia |]. cbn [fill_loop]. destruct (Z.ltb_spec i upto) as [Hlt|Hge].
  - unfold mbind, res_bind. rewrite aset_Ok by lia. set (rev1 := <[Z.to_nat i := c]> rev).
    assert (Hl1 : length rev1 = length rev) by apply length_insert.
    destruct (IH rev1 (i + 1)) as (rev' & -> & Hl & Ht); [lia | lia | lia |]. exists rev'.
    replace (Z.max i upto) with (Z.max (i + 1) upto) by lia. split; [done |]. split; [lia |]. rewrite Ht.
    replace (Z.to_nat (i + 1)) with (S (Z.to_nat i)) by lia. replace (Z.to_nat (upto - i)) with (S (Z.to_nat (upto - (i + 1)))) by lia.
    unfold rev1. rewrite (take_S_r _ _ c) by (apply list_lookup_insert_eq; lia). rewrite take_insert_ge, <- app_assoc by lia. done.
  - exists rev. rewrite Z.max_l by lia. split; [done |]. split; [done |]. replace (Z.to_nat (upto - i)) with 0%nat by lia. by rewrite app_nil_r.
Qed.

Lemma rev_loop_wp tty b0 t0 size flags rev fuel : ∀ m l k o,
  holds tty b0 t0 l o → has_flag flags FLAG_TTY = tty → room tty b0 size → (m ≤ length rev)%nat → (m < fuel)%nat →
  0 ≤ k → Z.of_nat (length l) ≤ size →
  wp (rev_loop fuel rev (Z.of_nat m - 1) (Z.of_nat (length l)) k (size - Z.of_nat (length l) + k) flags)
    (λ r o', let e := take (Z.to_nat size - length l) (reverse (take m rev)) in r = k + Z.of_nat (length e) ∧ holds tty b0 t0 (l ++ e) o') o.
Proof.
  induction fuel as [|fuel IH]; intros m l k o Ho Hf Hr Hm Hfu Hk Hsz; [lia |]. cbn [rev_loop].
  destruct m as [|m].
  { change (0 <=? Z.of_nat 0 - 1) with false. cbn [andb]. wp_step. rewrite take_0, reverse_nil, take_nil, app_nil_r. split; [simpl; lia | done]. }
  replace (Z.of_nat (S m) - 1) with (Z.of_nat m) by lia. rewrite (proj2 (Z.leb_le 0 (Z.of_nat m))) by lia. cbn [andb].
  destruct (lookup_lt_is_Some_2 rev m) as [c Hc]; [lia |].
  rewrite (take_S_r _ _ c Hc), reverse_app. change (reverse [c]) with [c]. cbn [app].
  destruct (Z.ltb_spec k (size - Z.of_nat (length l) + k)) as [Hlt|Hge].
  - wp_step. eapply wp_pure; [apply aget_Ok; split; [lia | by rewrite Nat2Z.id] |]. wp_step.
    eapply printc_wp; [done | done | done | lia |]. intros o1 Ho1.
    replace (Z.of_nat (length l) + 1) with (Z.of_nat (length (l ++ [c]))) by (rewrite length_app; simpl; lia).
    replace (size - Z.of_nat (length l) + k) with (size - Z.of_nat (length (l ++ [c])) + (k + 1)) by (rewrite length_app; simpl; lia).
    eapply wp_mono; [apply IH; try done; try lia; rewrite length_app; simpl; lia |]. cbv zeta. intros r o2 [-> Ho2].
    rewrite length_app in *. simpl in Ho2 |- *.
    replace (Z.to_nat size - length l)%nat with (S (Z.to_nat size - (length l + 1))) by lia. simpl.
    rewrite <- app_assoc in Ho2. split; [lia | done].
  - wp_step. replace (Z.to_nat size - length l)%nat with 0%nat by lia. simpl. split; [lia |]. by rewrite app_nil_r.
Qed.

Lemma pad_fill rev rev' i upto c :
  0 ≤ i ≤ Z.of_nat (length rev) → length rev = 11%nat →
  take (Z.to_nat (Z.max i (Z.min upto 11))) rev' = take (Z.to_nat i) rev ++ replicate (Z.to_nat (Z.min upto 11 - i)) c →
  reverse (take (Z.to_nat (Z.max i (Z.min upto 11))) rev') = pad c upto (reverse (take (Z.to_nat i) rev)).
Proof.
  intros Hi Hl ->. unfold pad. rewrite reverse_app, reverse_replicate, length_reverse, length_take. f_equal. f_equal. lia.
Qed.

(** [print_uint] outputs the text of the number, as far as there is room. *)
Lemma print_uint_wp rev0 tty b0 t0 l o size n base flags prec width :
  holds tty b0 t0 l o → has_flag flags FLAG_TTY = tty → room tty b0 size → length rev0 = 11%nat →
  8 ≤ base ≤ 16 → is_u32 n → Z.of_nat (length l) ≤ size →
  wp (print_uint rev0 (Z.of_nat (length l)) (size - Z.of_nat (length l)) n base flags prec width)
    (λ r o', let e := take (Z.to_nat size - length l) (number_text base (has_flag flags FLAG_SMALLS) prec width n) in
      r = Z.of_nat (length e) ∧ holds tty b0 t0 (l ++ e) o') o.
Proof.
  intros Ho Hf Hr H0 Hb Hn Hsz. unfold print_uint. destruct (Z.leb_spec (size - Z.of_nat (length l)) 0) as [Hle|Hlt].
  { wp_step. replace (Z.to_nat size - length l)%nat with 0%nat by lia. simpl. split; [done |]. by rewrite app_nil_r. }
  pose proof (rdigits_length 11 base n) as Hd1. pose proof (rdigits_pos 11 base n ltac:(lia)) as Hd0.
  destruct (digit_loop_Ok base flags 11 rev0 0 n) as (rev1 & He1 & Hl1 & Ht1); [lia | | lia | lia | lia |].
  { unfold is_u32 in Hn. split; [lia |]. apply (Z.lt_le_trans _ (2 ^ 32)); [lia |]. transitivity (8 ^ 11); [done |]. apply Z.pow_le_mono_l. lia. }
  wp_step. eapply wp_pure; [exact He1 |]. cbv beta iota. set (i1 := 0 + Z.of_nat (length (rdigits 11 base n))) in *.
  destruct (fill_loop_Ok 48 (Z.min prec 11) 12 rev1 i1) as (rev2 & He2 & Hl2 & Ht2); [lia | lia | lia |].
  wp_step. eapply wp_pure; [exact He2 |]. cbv beta iota. set (i2 := Z.max i1 (Z.min prec 11)) in *.
  destruct (fill_loop_Ok 32 (Z.min width 11) 12 rev2 i2) as (rev3 & He3 & Hl3 & Ht3); [lia | lia | lia |].
  wp_step. eapply wp_pure; [exact He3 |]. cbv beta iota. set (i3 := Z.max i2 (Z.min width 11)) in *.
  replace (i3 - 1) with (Z.of_nat (Z.to_nat i3) - 1) by lia.
  replace (size - Z.of_nat (length l)) with (size - Z.of_nat (length l) + 0) by lia.
  eapply wp_mono; [apply (rev_loop_wp tty b0 t0 size flags rev3 12 (Z.to_nat i3) l 0); try done; lia |].
  cbv zeta. intros r o' [-> Ho'].
  assert (Htext : reverse (take (Z.to_nat i3) rev3) = number_text base (has_flag flags FLAG_SMALLS) prec width n).
  { unfold i3. rewrite (pad_fill rev2 rev3 i2 width 32) by (done || lia). unfold i2. rewrite (pad_fill rev1 rev2 i1 prec 48) by (done || lia).
    unfold number_text. do 3 f_equal.
    replace (Z.to_nat i1) with (length (rdigits 11 base n)) by lia. exact Ht1. }
  rewrite Htext in Ho' |- *. split; [lia | done].
Qed.

(** ** Conversions *)

(** What the flags and modifiers of a conversion ask for; -1 is no width and no
    precision. *)
Record opts := mk_opts { op_alt : bool; op_zero : bool; op_space : bool; op_sign : bool; op_width : Z; op_prec : Z }.

(** The text a conversion stands for, and the arguments that are left. *)
Definition conv_text (op : opts) (ch : Z) (ap : list argument) : option (bytes * list argument) :=
  let padded (width : Z) := if (op_prec op <? width) && op_zero op then width else op_prec op in
  if (ch =? 105) || (ch =? 100) then
    match ap with
    | AInt v :: ap => Some ((if s32 v <? 0 then [45] else if op_sign op then [43] else if op_space op then [32] else []) ++
                            number_text 10 false 0 0 (Z.abs (s32 v)), ap)
    | _ => None
    end
  else if (ch =? 111) || (ch =? 117) then
    match ap with
    | AInt v :: ap => Some (number_text (if ch =? 111 then 8 else 10) false (padded (op_width op)) (op_width op) (u32 v), ap)
    | _ => None
    end
  else if (ch =? 112) || (ch =? 120) || (ch =? 88) then
    let alt := op_alt op || (ch =? 112) in
    let width := if alt then op_width op - 2 else op_width op in
    match ap with
    | AInt v :: ap => Some ((if alt then [48; 120] else []) ++ number_text 16 (negb (ch =? 88)) (padded width) width (u32 v), ap)
    | _ => None
    end
  else if ch =? 99 then
    match ap with AInt v :: ap => Some ([v mod 256], ap) | _ => None end
  else if ch =? 115 then
    match ap with
    | AStr s :: ap => match cstr s with
                      | Some t => Some (if op_prec op =? -1 then t else take (Z.to_nat (op_prec op)) t, ap)
                      | None => None
                      end
    | _ => None
    end
  else Some ([ch], ap).

(** The code prints a '+' or a blank behind the '-' of a negative number, and
    negates the number in 32 bits. *)
Definition conv_safe (op : opts) (ch : Z) (ap : list argument) : Prop :=
  (ch = 105 ∨ ch = 100) → ∀ v ap', ap = AInt v :: ap' → - 2 ^ 31 < s32 v ∧ (s32 v < 0 → op_sign op = false ∧ op_space op = false).

Definition mods_are (m : mods) (op : opts) (tty : bool) : Prop :=
  has_flag (md_flags m) FLAG_TTY = tty ∧ has_flag (md_flags m) FLAG_SMALLS = false ∧
  has_flag (md_flags m) FLAG_ALT = op_alt op ∧ has_flag (md_flags m) FLAG_ZEROPAD = op_zero op ∧
  has_flag (md_flags m) FLAG_SPACE = op_space op ∧ has_flag (md_flags m) FLAG_SIGN = op_sign op ∧
  md_width m = op_width op ∧ md_prec m = op_prec op.

Lemma has_flag_lor a b f : has_flag (Z.lor a b) f = has_flag a f || has_flag b f.
Proof.
  unfold has_flag. rewrite Z.land_lor_distr_l.
  destruct (Z.eqb_spec (Z.land a f) 0) as [Ha|Ha], (Z.eqb_spec (Z.land b f) 0) as [Hb|Hb], (Z.eqb_spec (Z.lor (Z.land a f) (Z.land b f)) 0) as [Hc|Hc];
    try done; rewrite ?Z.lor_eq_0_iff in *; tauto.
Qed.

Lemma length_snoc (l : bytes) c : Z.of_nat (length (l ++ [c])) = Z.of_nat (length l) + 1.
Proof. rewrite length_app. simpl. lia. Qed.

Section emits.
Context (rev0 : bytes) (tty : bool) (b0 t0 : bytes) (size : Z).

(** The output after [l] and then as much of [t] as there is room for. *)
Definition emitted (l t : bytes) : bytes := l ++ take (Z.to_nat size - length l) t.

Lemma emitted_app l a b : Z.of_nat (length (l ++ a)) ≤ size → emitted (l ++ a) b = emitted l (a ++ b).
Proof.
  intros Hle. unfold emitted. rewrite length_app in *. rewrite <- app_assoc. f_equal. rewrite take_app_ge by lia. f_equal. f_equal. lia.
Qed.

Lemma emitted_nil l : emitted l [] = l.
Proof. unfold emitted. by rewrite take_nil, app_nil_r. Qed.

Lemma emitted_full l t : Z.of_nat (length l) = size → emitted l t = l.
Proof. intros Hl. unfold emitted. replace (Z.to_nat size - length l)%nat with 0%nat by lia. by rewrite take_0, app_nil_r. Qed.

Context (Hrev : length rev0 = 11%nat) (Hroom : room tty b0 size).

Lemma number_wp l o v base flags prec width (Q : Z * Z → out → Prop) :
  holds tty b0 t0 l o → has_flag flags FLAG_TTY = tty → 8 ≤ base ≤ 16 → is_u32 v → Z.of_nat (length l) ≤ size →
  (∀ o', let l' := emitted l (number_text base (has_flag flags FLAG_SMALLS) prec width v) in
    holds tty b0 t0 l' o' → Q (Z.of_nat (length l'), Z.of_nat (length l')) o') →
  wp (number rev0 (Z.of_nat (length l)) (Z.of_nat (length l)) size v base flags prec width) Q o.
Proof using Hrev Hroom.
  intros Ho Hf Hb Hv Hl HQ. unfold number. wp_step. eapply wp_mono; [by apply print_uint_wp |]. cbv zeta. intros r o' [-> Ho']. wp_step.
  rewrite <- Nat2Z.inj_add, <- length_app. by apply HQ.
Qed.

Lemma put_wp l o c flags (Q : unit → out → Prop) :
  holds tty b0 t0 l o → has_flag flags FLAG_TTY = tty → Z.of_nat (length l) < size →
  (∀ o', holds tty b0 t0 (l ++ [c]) o' → Q tt o') → wp (printc (Z.of_nat (length l)) c flags) Q o.
Proof using Hroom. intros. by eapply printc_wp. Qed.

(** A string, up to its end or to [w]. *)
Lemma str_loop_wp flags w s : ∀ t l o (Q : Z → out → Prop),
  cstr s = Some t → holds tty b0 t0 l o → has_flag flags FLAG_TTY = tty → w ≤ size →
  (∀ o', let l' := l ++ take (Z.to_nat w - length l) t in holds tty b0 t0 l' o' → Q (Z.of_nat (length l')) o') →
  wp (str_loop s (Z.of_nat (length l)) (Z.of_nat (length l)) w flags) Q o.
Proof using Hrev Hroom.
  induction s as [|c s IH]; intros t l o Q Hs Ho Hf Hw HQ; [done |]. cbn [str_loop cstr] in *.
  destruct (Z.eqb_spec c 0) as [->|Hc].
  { injection Hs as <-. rewrite andb_false_r. wp_step. specialize (HQ o). cbv zeta in HQ. rewrite take_nil, app_nil_r in HQ. by apply HQ. }
  destruct (cstr s) as [t'|] eqn:Ht'; [| done]. injection Hs as <-. rewrite andb_true_r.
  destruct (Z.ltb_spec (Z.of_nat (length l)) w) as [Hlt|Hge].
  - wp_step. eapply put_wp; [done | done | lia |]. intros o1 Ho1. rewrite <- (length_snoc l c).
    eapply IH; [done | done | done | done |]. cbv zeta. intros o2 Ho2. specialize (HQ o2). cbv zeta in HQ.
    replace (Z.to_nat w - length l)%nat with (S (Z.to_nat w - length (l ++ [c]))) in HQ by (rewrite length_app; simpl; lia).
    simpl in HQ. rewrite <- app_assoc in Ho2 |- *. by apply HQ.
  - wp_step. specialize (HQ o). cbv zeta in HQ. replace (Z.to_nat w - length l)%nat with 0%nat in HQ by lia.
    rewrite take_0, app_nil_r in HQ. by apply HQ.
Qed.

(** What a conversion has done. *)
Definition converted (l t : bytes) (ap : list argument) (r : list argument * Z * Z) (o' : out) : Prop :=
  let l' := emitted l t in r = (ap, Z.of_nat (length l'), Z.of_nat (length l')) ∧ holds tty b0 t0 l' o'.

(** A number behind the characters [a]. *)
Lemma number_last_wp l a o v base flags prec width (ap : list argument) :
  holds tty b0 t0 (l ++ a) o → has_flag flags FLAG_TTY = tty → 8 ≤ base ≤ 16 → is_u32 v → Z.of_nat (length (l ++ a)) ≤ size →
  wp ('(buf, written) ← number rev0 (Z.of_nat (length (l ++ a))) (Z.of_nat (length (l ++ a))) size v base flags prec width;
      mret (ap, buf, written))
    (λ r o', converted l (a ++ number_text base (has_flag flags FLAG_SMALLS) prec width v) ap r o') o.
Proof using Hrev Hroom.
  intros Ho Hf Hb Hv Hl. wp_step. apply number_wp; try done. cbv zeta. rewrite emitted_app by done. intros o' Ho'. wp_step. by split.
Qed.

Lemma convert_int_wp l o m op ch v ap :
  (ch =? 105) || (ch =? 100) = true → mods_are m op tty → conv_safe op ch (AInt v :: ap) → holds tty b0 t0 l o → Z.of_nat (length l) < size →
  wp (convert rev0 ch m (AInt v :: ap) (Z.of_nat (length l)) (Z.of_nat (length l)) size)
    (λ r o', ∃ t, conv_text op ch (AInt v :: ap) = Some (t, ap) ∧ converted l t ap r o') o.
Proof using Hrev Hroom.
  intros Hch (Hf & Hsm & _ & _ & Hsp & Hsi & _ & _) Hsafe Ho Hl. unfold convert, conv_text. rewrite Hch. cbn [va_int].
  destruct (Hsafe) with (v := v) (ap' := ap) as [Hmin Hsg]; [rewrite orb_true_iff, !Z.eqb_eq in Hch; tauto | done |].
  pose proof (s32_range v) as Hv. unfold is_s32 in Hv. wp_step. eapply wp_pure; [done |]. cbv beta iota. rewrite Hsi, Hsp.
  assert (Hend : ∀ a o1, holds tty b0 t0 (l ++ a) o1 → Z.of_nat (length (l ++ a)) ≤ size →
    wp ('(buf, written) ← number rev0 (Z.of_nat (length (l ++ a))) (Z.of_nat (length (l ++ a))) size (Z.abs (s32 v)) 10 (md_flags m) 0 0;
        mret (ap, buf, written))
      (λ r o', ∃ t, Some (a ++ number_text 10 false 0 0 (Z.abs (s32 v)), ap) = Some (t, ap) ∧ converted l t ap r o') o1).
  { intros a o1 Ho1 Hle. eapply wp_mono; [apply number_last_wp; try done; unfold is_u32; lia |]. rewrite Hsm. intros r o' Hr. by eexists. }
  destruct (Z.ltb_spec (s32 v) 0) as [Hneg|Hpos].
  - destruct (Hsg Hneg) as [-> ->]. do 2 wp_step. eapply put_wp; [done | done | done |]. intros o1 Ho1.
    wp_step. eapply wp_pure; [apply int_op_Ok; unfold is_s32; lia |]. wp_step. cbv beta iota. do 2 wp_step. rewrite <- (length_snoc l 45).
    replace (- s32 v) with (Z.abs (s32 v)) by lia. apply Hend; [done | rewrite length_snoc; lia].
  - do 2 wp_step. rewrite (Z.abs_eq (s32 v)) in * by lia. destruct (op_sign op); [| destruct (op_space op)].
    + do 2 wp_step. eapply put_wp; [done | done | done |]. intros o1 Ho1. wp_step. rewrite <- (length_snoc l 43). apply Hend; [done | rewrite length_snoc; lia].
    + do 2 wp_step. eapply put_wp; [done | done | done |]. intros o1 Ho1. wp_step. rewrite <- (length_snoc l 32). apply Hend; [done | rewrite length_snoc; lia].
    + do 2 wp_step. specialize (Hend []). rewrite app_nil_r in Hend. apply Hend; [done | lia].
Qed.

Lemma convert_hex_wp l o m op ch v ap :
  (ch =? 112) || (ch =? 120) || (ch =? 88) = true → mods_are m op tty → holds tty b0 t0 l o → Z.of_nat (length l) < size →
  wp (convert rev0 ch m (AInt v :: ap) (Z.of_nat (length l)) (Z.of_nat (length l)) size)
    (λ r o', ∃ t, conv_text op ch (AInt v :: ap) = Some (t, ap) ∧ converted l t ap r o') o.
Proof using Hrev Hroom.
  intros Hch (Hf & Hsm & Ha & Hz & _ & _ & Hw & Hp) Ho Hl. unfold convert, conv_text. rewrite Hch. cbn [va_int].
  assert (Hnot : (ch =? 105) || (ch =? 100) = false ∧ (ch =? 111) || (ch =? 117) = false).
  { rewrite !orb_true_iff, !Z.eqb_eq in Hch. rewrite !orb_false_iff, !Z.eqb_neq. lia. }
  destruct Hnot as [-> ->]. pose proof (u32_range v) as Hv. rewrite Hp, Hw.
  set (f1 := if ch =? 112 then Z.lor (md_flags m) FLAG_ALT else md_flags m). set (f2 := if ch =? 88 then f1 else Z.lor f1 FLAG_SMALLS).
  assert (H2 : has_flag f2 FLAG_TTY = tty ∧ has_flag f2 FLAG_ALT = op_alt op || (ch =? 112) ∧ has_flag f2 FLAG_ZEROPAD = op_zero op ∧
    has_flag f2 FLAG_SMALLS = negb (ch =? 88)).
  { unfold f2, f1. destruct (Z.eqb_spec ch 112) as [E1|E1], (Z.eqb_spec ch 88) as [E2|E2]; try lia; cbn [negb];
      rewrite ?has_flag_lor, ?Hf, ?Hsm, ?Ha, ?Hz; change (has_flag FLAG_ALT FLAG_TTY) with false; change (has_flag FLAG_SMALLS FLAG_TTY) with false;
      change (has_flag FLAG_ALT FLAG_ALT) with true; change (has_flag FLAG_SMALLS FLAG_ALT) with false; change (has_flag FLAG_ALT FLAG_ZEROPAD) with false;
      change (has_flag FLAG_SMALLS FLAG_ZEROPAD) with false; change (has_flag FLAG_SMALLS FLAG_SMALLS) with true; rewrite ?orb_false_r, ?orb_true_r; done. }
  destruct H2 as (Hf2 & Ha2 & Hz2 & Hs2). rewrite Ha2, Hz2. destruct (op_alt op || (ch =? 112)).
  - do 2 wp_step. eapply put_wp; [done | done | done |]. intros o1 Ho1. rewrite <- (length_snoc l 48).
    destruct (Z.ltb_spec (Z.of_nat (length (l ++ [48]))) size) as [Hlt|Hge].
    + do 2 wp_step. eapply put_wp; [done | done | done |]. intros o2 Ho2. do 2 wp_step. cbv beta iota.
      rewrite <- (length_snoc (l ++ [48]) 120). rewrite <- app_assoc in Ho2 |- *. cbn [app] in *. wp_step. eapply wp_pure; [done |]. cbv beta iota.
      eapply wp_mono; [apply (number_last_wp l [48; 120]); try done; rewrite !length_app in *; simpl in *; lia |].
      rewrite Hs2. intros r o' Hr. by eexists.
    + do 3 wp_step. cbv beta iota. wp_step. eapply wp_pure; [done |]. cbv beta iota.
      eapply wp_mono; [apply (number_last_wp l [48]); try done; rewrite length_snoc; lia |].
      intros r o' Hr. eexists. split; [done |]. unfold converted in *. rewrite length_snoc in Hge.
      rewrite <- !emitted_app, !emitted_full in Hr by (rewrite length_snoc; lia).
      change ([48; 120] ++ ?x) with ([48] ++ (120 :: x)). rewrite <- emitted_app, emitted_full by (rewrite length_snoc; lia). done.
  - do 2 wp_step. cbv beta iota. wp_step. eapply wp_pure; [done |]. cbv beta iota. pose proof (number_last_wp l []) as Hn. rewrite app_nil_r in Hn.
    eapply wp_mono; [apply Hn; try done; lia |]. rewrite Hs2. intros r o' Hr. by eexists.
Qed.

(** A precision that the code can add to what it has written. *)
Definition prec_ok (op : opts) (l : bytes) : Prop := op_prec op = -1 ∨ 0 ≤ op_prec op ∧ Z.of_nat (length l) + op_prec op < 2 ^ 31.

Lemma convert_str_wp l o m op s t ap :
  mods_are m op tty → prec_ok op l → cstr s = Some t → holds tty b0 t0 l o → Z.of_nat (length l) < size →
  wp (convert rev0 115 m (AStr s :: ap) (Z.of_nat (length l)) (Z.of_nat (length l)) size)
    (λ r o', converted l (if op_prec op =? -1 then t else take (Z.to_nat (op_prec op)) t) ap r o') o.
Proof using Hrev Hroom.
  intros (Hf & _ & _ & _ & _ & _ & _ & Hp) Hpr Hs Ho Hl. unfold convert. cbn [Z.eqb Pos.eqb orb va_str]. rewrite Hp.
  wp_step. eapply wp_pure; [done |]. cbv beta iota.
  assert (Hend : ∀ w o1, w ≤ size → Z.of_nat (length l) ≤ w → o1 = o →
    wp (written' ← str_loop s (Z.of_nat (length l)) (Z.of_nat (length l)) w (md_flags m);
        mret (ap, Z.of_nat (length l) + (written' - Z.of_nat (length l)), written'))
      (λ r o', converted l (take (Z.to_nat w - length l) t) ap r o') o1).
  { intros w o1 Hw Hlw ->. wp_step. eapply str_loop_wp; [done | done | done | done |]. cbv zeta. intros o' Ho'. wp_step. unfold converted, emitted.
    rewrite (take_take t), Nat.min_r by lia. split; [| done]. f_equal. f_equal. lia. }
  assert (Hbig : converted l t = converted l (take (Z.to_nat size - length l) t)).
  { unfold converted, emitted. by rewrite (take_take t), Nat.min_id. }
  wp_step. destruct (Z.eqb_spec (op_prec op) (-1)) as [Hm1|Hm1].
  - wp_step. rewrite Z.ltb_irrefl, Hbig. apply Hend; [lia | lia | done].
  - destruct Hpr as [?|[Hp0 Hp1]]; [done |]. eapply wp_pure; [apply int_op_Ok; unfold is_s32; lia |]. cbv beta.
    destruct (Z.ltb_spec (Z.of_nat (length l) + op_prec op) size) as [Hlt|Hge].
    + eapply wp_mono; [apply Hend; [lia | lia | done] |].
      replace (Z.to_nat (Z.of_nat (length l) + op_prec op) - length l)%nat with (Z.to_nat (op_prec op)) by lia. done.
    + eapply wp_mono; [apply Hend; [lia | lia | done] |]. intros r o' Hr. unfold converted, emitted in *.
      rewrite (take_take t) in *. rewrite Nat.min_id in Hr. rewrite Nat.min_l by lia. done.
Qed.

Lemma convert_wp l o m op ch ap t ap' :
  conv_text op ch ap = Some (t, ap') → mods_are m op tty → conv_safe op ch ap → prec_ok op l → holds tty b0 t0 l o → Z.of_nat (length l) < size →
  wp (convert rev0 ch m ap (Z.of_nat (length l)) (Z.of_nat (length l)) size) (λ r o', converted l t ap' r o') o.
Proof using Hrev Hroom.
  intros Ht Hm Hsafe Hp Ho Hl. pose proof Ht as Ht'. unfold conv_text in Ht'.
  destruct ((ch =? 105) || (ch =? 100)) eqn:Hd.
  { destruct ap as [|[v|s] ap]; try done. injection Ht' as _ <-. eapply wp_mono; [by eapply convert_int_wp |]. intros r o' (t' & Ht2 & Hr). congruence. }
  destruct ((ch =? 111) || (ch =? 117)) eqn:Hu.
  { destruct ap as [|[v|s] ap]; try done. injection Ht' as <- <-. unfold convert. rewrite Hd, Hu. cbn [va_int]. wp_step. eapply wp_pure; [done |]. cbv beta iota.
    destruct Hm as (Hf & Hsm & _ & Hz & _ & _ & Hw & Hpr). rewrite Hw, Hpr, Hz. pose proof (u32_range v).
    pose proof (number_last_wp l []) as Hn. rewrite app_nil_r in Hn. eapply wp_mono; [apply Hn; try done; [destruct (ch =? 111); lia | lia] |]. by rewrite Hsm. }
  destruct ((ch =? 112) || (ch =? 120) || (ch =? 88)) eqn:Hx.
  { destruct ap as [|[v|s] ap]; try done. injection Ht' as _ <-. eapply wp_mono; [by eapply convert_hex_wp |]. intros r o' (t' & Ht2 & Hr). congruence. }
  assert (Hone : ∀ c o1, o1 = o → wp (printc (Z.of_nat (length l)) c (md_flags m)) (λ _ o', Z.of_nat (length l) + 1 = Z.of_nat (length (emitted l [c])) ∧ holds tty b0 t0 (emitted l [c]) o') o1).
  { intros c o1 ->. eapply put_wp; [done | apply Hm | done |]. intros o' Ho'. replace (emitted l [c]) with (l ++ [c]); [by rewrite length_snoc |].
    unfold emitted. rewrite take_ge by (simpl; lia). done. }
  unfold convert. rewrite Hd, Hu, Hx. destruct (Z.eqb_spec ch 99) as [->|Hc].
  { destruct ap as [|[v|s] ap]; try done. injection Ht' as <- <-. wp_step. eapply wp_pure; [done |]. cbv beta iota. wp_step.
    eapply wp_mono; [by apply Hone |]. intros [] o' [He Ho']. wp_step. rewrite He. by split. }
  destruct (Z.eqb_spec ch 115) as [->|Hs].
  { destruct ap as [|[v|s] ap]; try done. destruct (cstr s) as [u|] eqn:Hcs; [| done]. injection Ht' as <- <-. by apply convert_str_wp. }
  injection Ht' as <- <-. wp_step. eapply wp_mono; [by apply Hone |]. intros [] o' [He Ho']. wp_step. rewrite He. by split.
Qed.
End emits.

(** ** Formats *)

(** A conversion as it is written: flags, the digits of a width and of a
    precision, and the letter. *)
Record directive := mk_dir { dv_flags : bytes; dv_width : bytes; dv_prec : option bytes; dv_conv : Z }.
Inductive piece := Lit (c : Z) | Dir (d : directive).

Definition directive_text (d : directive) : bytes :=
  dv_flags d ++ dv_width d ++ match dv_prec d with None => [] | Some p => 46 :: p end ++ [dv_conv d].
Definition piece_text (p : piece) : bytes := match p with Lit c => [c] | Dir d => 37 :: directive_text d end.

Definition dec_val (ds : bytes) : Z := foldl (λ v c, 10 * v + (c - 48)) 0 ds.

Definition opts_of (d : directive) : opts :=
  mk_opts (bool_decide (35 ∈ dv_flags d)) (bool_decide (48 ∈ dv_flags d)) (bool_decide (32 ∈ dv_flags d)) (bool_decide (43 ∈ dv_flags d))
    (match dv_width d with [] => -1 | w => dec_val w end) (match dv_prec d with None => -1 | Some p => dec_val p end).

(** The digits 0 and 9 do not count as digits of a width or a precision. *)
Definition is_digit18 (c : Z) : Prop := 49 ≤ c ≤ 56.
Definition is_flag (c : Z) : Prop := c = 35 ∨ c = 48 ∨ c = 32 ∨ c = 43 ∨ c = 45.
Definition number_ok (ds : bytes) : Prop := Forall is_digit18 ds ∧ dec_val ds ≤ 2 ^ 30.

Record directive_ok (d : directive) : Prop := {
  do_flags : Forall is_flag (dv_flags d);
  do_width : number_ok (dv_width d);
  do_prec p : dv_prec d = Some p → number_ok p;
  do_conv : is_byte (dv_conv d) ∧ dv_conv d ≠ 0 ∧ ¬ is_flag (dv_conv d) ∧ dv_conv d ≠ 46 ∧ ¬ (49 ≤ dv_conv d ≤ 57);
}.

Definition piece_ok (p : piece) : Prop := match p with Lit c => c ≠ 0 ∧ c ≠ 37 | Dir d => directive_ok d end.

(** The text of a format with its arguments. *)
Fixpoint render (ps : list piece) (ap : list argument) : option bytes :=
  match ps with
  | [] => Some []
  | Lit c :: ps' => t ← render ps' ap; Some (c :: t)
  | Dir d :: ps' => '(t, ap') ← conv_text (opts_of d) (dv_conv d) ap; u ← render ps' ap'; Some (t ++ u)
  end.

Fixpoint args_safe (ps : list piece) (ap : list argument) : Prop :=
  match ps with
  | [] => True
  | Lit _ :: ps' => args_safe ps' ap
  | Dir d :: ps' => conv_safe (opts_of d) (dv_conv d) ap ∧ ∀ t ap', conv_text (opts_of d) (dv_conv d) ap = Some (t, ap') → args_safe ps' ap'
  end.

(** *** Flags and modifiers *)

Lemma dec_val_app ds : ∀ v, foldl (λ v c, 10 * v + (c - 48)) v ds = v * 10 ^ Z.of_nat (length ds) + dec_val ds.
Proof.
  unfold dec_val. induction ds as [|c ds IH]; intros v; [simpl; lia |]. cbn [foldl length]. rewrite IH, (IH (10 * 0 + (c - 48))).
  replace (Z.of_nat (S (length ds))) with (Z.of_nat (length ds) + 1) by lia. rewrite Z.pow_add_r by lia. lia.
Qed.

Lemma dec_val_nonneg ds : Forall is_digit18 ds → 0 ≤ dec_val ds.
Proof.
  unfold dec_val. assert (H : ∀ v, 0 ≤ v → Forall is_digit18 ds → 0 ≤ foldl (λ v c, 10 * v + (c - 48)) v ds).
  { induction ds as [|c ds IH]; intros v Hv Hds; [done |]. apply Forall_cons in Hds as [Hc Hds]. unfold is_digit18 in Hc. apply IH; [lia | done]. }
  by apply H.
Qed.

Lemma scan_int_Ok ds x r : ∀ v,
  Forall is_digit18 ds → is_byte x → ¬ is_digit18 x → 0 ≤ v → foldl (λ v c, 10 * v + (c - 48)) v ds < 2 ^ 31 →
  scan_int (ds ++ x :: r) v = Ok (foldl (λ v c, 10 * v + (c - 48)) v ds, x :: r).
Proof.
  induction ds as [|c ds IH]; intros v Hds Hx Hnx Hv Hmax; cbn [app scan_int foldl].
  - destruct ((48 <? schar x) && (schar x <? 57)) eqn:E; [| done]. unfold schar, is_byte, is_digit18 in *.
    apply andb_true_iff in E as [E1%Z.ltb_lt E2%Z.ltb_lt]. destruct (Z.ltb_spec x 128); lia.
  - apply Forall_cons in Hds as [Hc Hds]. unfold is_digit18 in Hc. assert (schar c = c) as -> by (unfold schar; destruct (Z.ltb_spec c 128); lia).
    rewrite (proj2 (Z.ltb_lt 48 c)), (proj2 (Z.ltb_lt c 57)) by lia. cbn [andb]. cbn [foldl] in Hmax. unfold mbind, res_bind.
    rewrite dec_val_app in Hmax. pose proof (dec_val_nonneg ds Hds). assert (0 < 10 ^ Z.of_nat (length ds)) by (apply Z.pow_pos_nonneg; lia).
    rewrite int_op_Ok by (unfold is_s32; nia). apply IH; [done | done | done | lia | rewrite dec_val_app; lia].
Qed.

(** The loop over flags and modifiers from the text [t] on. *)
Definition mods_at (fuel : nat) (t : bytes) (m : mods) : res (option (Z * bytes * mods)) :=
  match t with [] => Undef | ch :: fmt => if ch =? 0 then Ok None else mods_loop fuel ch fmt m end.

Definition flag_bit (c : Z) : Z :=
  if c =? 35 then FLAG_ALT else if c =? 48 then FLAG_ZEROPAD else if c =? 32 then FLAG_SPACE else if c =? 43 then FLAG_SIGN else FLAG_LEFT.
Definition add_flag (c : Z) (m : mods) : mods := mk_mods (Z.lor (md_flags m) (flag_bit c)) (md_width m) (md_prec m).

Lemma mods_flag fuel c t m : is_flag c → mods_at (S fuel) (c :: t) m = mods_at fuel t (add_flag c m).
Proof. intros [->|[->|[->|[->| ->]]]]; reflexivity. Qed.

Lemma mods_flags fs : ∀ fuel t m, Forall is_flag fs → mods_at (length fs + fuel) (fs ++ t) m = mods_at fuel t (foldl (λ m c, add_flag c m) m fs).
Proof.
  induction fs as [|c fs IH]; intros fuel t m Hfs; [done |]. apply Forall_cons in Hfs as [Hc Hfs]. cbn [length app foldl Nat.add].
  rewrite mods_flag by done. by apply IH.
Qed.

Lemma mods_digits fuel ds x r m :
  number_ok ds → ds ≠ [] → is_byte x → ¬ is_digit18 x → mods_at (S fuel) (ds ++ x :: r) m = mods_at fuel (x :: r) (mk_mods (md_flags m) (dec_val ds) (md_prec m)).
Proof.
  intros [Hds Hmax] Hne Hx Hnx. destruct ds as [|c ds]; [done |]. pose proof (scan_int_Ok (c :: ds) x r 0 Hds Hx Hnx) as Hs.
  fold (dec_val (c :: ds)) in Hs. apply Forall_cons in Hds as [Hc _]. unfold is_digit18 in Hc. cbn [app mods_at] in Hs |- *. cbn [mods_loop].
  rewrite (proj2 (Z.eqb_neq c 0)), (proj2 (Z.eqb_neq c 35)), (proj2 (Z.eqb_neq c 48)), (proj2 (Z.eqb_neq c 32)), (proj2 (Z.eqb_neq c 43)),
    (proj2 (Z.eqb_neq c 45)), (proj2 (Z.eqb_neq c 46)), (proj2 (Z.leb_le 49 c)), (proj2 (Z.leb_le c 57)) by lia. cbn [andb].
  rewrite Hs by lia. reflexivity.
Qed.

Lemma mods_prec fuel ds x r m :
  number_ok ds → is_byte x → ¬ is_digit18 x → mods_at (S fuel) (46 :: ds ++ x :: r) m = mods_at fuel (x :: r) (mk_mods (md_flags m) (md_width m) (dec_val ds)).
Proof.
  intros [Hds Hmax] Hx Hnx. pose proof (scan_int_Ok ds x r 0 Hds Hx Hnx) as Hs. fold (dec_val ds) in Hs. cbn [mods_at Z.eqb mods_loop Pos.eqb].
  rewrite Hs by lia. reflexivity.
Qed.

Lemma mods_conv fuel x r m :
  x ≠ 0 → ¬ is_flag x → x ≠ 46 → ¬ (49 ≤ x ≤ 57) → mods_at (S fuel) (x :: r) m = Ok (Some (x, r, m)).
Proof.
  unfold is_flag. intros H0 Hf H46 Hd. cbn [mods_at mods_loop].
  rewrite (proj2 (Z.eqb_neq x 0)), (proj2 (Z.eqb_neq x 35)), (proj2 (Z.eqb_neq x 48)), (proj2 (Z.eqb_neq x 32)), (proj2 (Z.eqb_neq x 43)),
    (proj2 (Z.eqb_neq x 45)), (proj2 (Z.eqb_neq x 46)) by lia.
  destruct ((49 <=? x) && (x <=? 57)) eqn:E; [apply andb_true_iff in E as [E1%Z.leb_le E2%Z.leb_le]; lia | done].
Qed.

(** The modifiers of a directive, read from flags [f0]. *)
Definition dir_mods (f0 : Z) (d : directive) : mods :=
  mk_mods (foldl (λ f c, Z.lor f (flag_bit c)) f0 (dv_flags d)) (op_width (opts_of d)) (op_prec (opts_of d)).

Lemma mods_directive d f0 r fuel :
  directive_ok d → (length (directive_text d) ≤ fuel)%nat →
  mods_at fuel (directive_text d ++ r) (mk_mods f0 (-1) (-1)) = Ok (Some (dv_conv d, r, dir_mods f0 d)).
Proof.
  intros [Hfl Hw Hp (Hb & H0 & Hnf & H46 & Hnd)] Hfuel. unfold directive_text in *. rewrite !length_app in Hfuel. cbn [length] in Hfuel.
  rewrite <- !app_assoc. set (pt := match dv_prec d with None => [] | Some p => 46 :: p end) in *.
  replace fuel with (length (dv_flags d) + (fuel - length (dv_flags d)))%nat by lia. rewrite mods_flags by done.
  assert (Hm : foldl (λ m c, add_flag c m) (mk_mods f0 (-1) (-1)) (dv_flags d) = mk_mods (foldl (λ f c, Z.lor f (flag_bit c)) f0 (dv_flags d)) (-1) (-1)).
  { clear. generalize (dv_flags d). intros fs. revert f0. induction fs as [|c fs IH]; intros f0; [done |]. cbn [foldl]. by rewrite <- IH. }
  rewrite Hm. set (fl := foldl _ f0 _). set (fu := (fuel - length (dv_flags d))%nat).
  assert (Htail : ∀ fu w, (length pt + 1 ≤ fu)%nat →
    mods_at fu (pt ++ [dv_conv d] ++ r) (mk_mods fl w (-1)) = Ok (Some (dv_conv d, r, mk_mods fl w (op_prec (opts_of d))))).
  { intros fu' w Hfu'. subst pt. unfold opts_of, op_prec. destruct (dv_prec d) as [p|] eqn:Hpe; cbn [app length] in *.
    - destruct fu' as [|fu']; [lia |]. rewrite mods_prec; [| by apply Hp | done | unfold is_digit18; lia].
      destruct fu' as [|fu']; [lia |]. by apply mods_conv.
    - destruct fu' as [|fu']; [lia |]. by apply mods_conv. }
  unfold dir_mods. fold fl. destruct (dv_width d) as [|c w] eqn:Hwe.
  - cbn [app]. rewrite Htail by (simpl in Hfuel; lia). unfold opts_of. by rewrite Hwe.
  - destruct fu as [|fu'] eqn:Hfu; [simpl in Hfuel; lia |].
    assert (Hx : ∃ x y, pt ++ [dv_conv d] ++ r = x :: y ∧ is_byte x ∧ ¬ is_digit18 x).
    { subst pt. destruct (dv_prec d); cbn [app]; eexists _, _; (split; [done |]); unfold is_byte, is_digit18 in *; lia. }
    destruct Hx as (x & y & Hxy & Hxb & Hxd). rewrite Hxy. rewrite mods_digits by done. rewrite <- Hxy.
    cbn [md_flags md_prec]. rewrite Htail by (simpl in Hfuel; lia). unfold opts_of. by rewrite Hwe.
Qed.

Lemma fold_has_flag b k fs : ∀ f0,
  (∀ c, is_flag c → has_flag (flag_bit c) b = (c =? k)) → Forall is_flag fs →
  has_flag (foldl (λ f c, Z.lor f (flag_bit c)) f0 fs) b = has_flag f0 b || bool_decide (k ∈ fs).
Proof.
  induction fs as [|c fs IH]; intros f0 Hb Hfs; cbn [foldl]; [by rewrite orb_false_r |]. apply Forall_cons in Hfs as [Hc Hfs].
  rewrite IH, has_flag_lor, Hb, <- orb_assoc by done. f_equal.
  destruct (Z.eqb_spec c k) as [->|Hne]; simpl; [symmetry; apply bool_decide_true; left |].
  apply bool_decide_ext. rewrite elem_of_cons. intuition congruence.
Qed.

Lemma land_tty_flag flags b : Z.land FLAG_TTY b = 0 → has_flag (Z.land flags FLAG_TTY) b = false.
Proof. intros Hb. unfold has_flag. by rewrite <- Z.land_assoc, Hb, Z.land_0_r. Qed.

Lemma dir_mods_are flags d tty :
  has_flag flags FLAG_TTY = tty → directive_ok d → mods_are (dir_mods (Z.land flags FLAG_TTY) d) (opts_of d) tty.
Proof.
  intros Hf [Hfl _ _ _]. unfold mods_are, dir_mods, opts_of. cbn [md_flags md_width md_prec op_alt op_zero op_space op_sign].
  assert (H0 : 0 ∉ dv_flags d) by (intros H0; rewrite Forall_forall in Hfl; destruct (Hfl 0 H0) as [?|[?|[?|[?|?]]]]; lia).
  rewrite (fold_has_flag FLAG_TTY 0), (fold_has_flag FLAG_SMALLS 0), (fold_has_flag FLAG_ALT 35), (fold_has_flag FLAG_ZEROPAD 48),
    (fold_has_flag FLAG_SPACE 32), (fold_has_flag FLAG_SIGN 43) by (done || by intros c [->|[->|[->|[->| ->]]]]).
  rewrite (bool_decide_false _ H0), !orb_false_r, (land_tty_flag _ FLAG_SMALLS), (land_tty_flag _ FLAG_ALT),
    (land_tty_flag _ FLAG_ZEROPAD), (land_tty_flag _ FLAG_SPACE), (land_tty_flag _ FLAG_SIGN) by done. split_and!; try done.
  unfold has_flag in *. by rewrite <- Z.land_assoc, Z.land_diag.
Qed.

(** *** The loop over the format *)

Lemma emitted_twice size l t u : Z.of_nat (length l) ≤ size → emitted size (emitted size l t) u = emitted size l (t ++ u).
Proof.
  intros Hl. unfold emitted. rewrite <- app_assoc. f_equal. rewrite take_app. f_equal. f_equal. rewrite length_app, length_take. lia.
Qed.

Lemma emitted_length size l t : Z.of_nat (length l) ≤ size → Z.of_nat (length (emitted size l t)) ≤ size ∧ (length (emitted size l t) ≤ length l + length t)%nat.
Proof. intros Hl. unfold emitted. rewrite length_app, length_take. lia. Qed.

Definition text_of (ps : list piece) : bytes := concat (piece_text <$> ps).

Lemma directive_head d : directive_ok d → ∃ c r, directive_text d = c :: r ∧ c ≠ 0.
Proof.
  intros [Hfl [Hw _] _ (_ & H0 & _)]. unfold directive_text. destruct (dv_flags d) as [|c fs].
  - destruct (dv_width d) as [|c w]; [destruct (dv_prec d); by eexists _, _ |]. eexists _, _. split; [done |].
    apply Forall_cons in Hw as [Hc _]. unfold is_digit18 in Hc. lia.
  - eexists _, _. split; [done |]. apply Forall_cons in Hfl as [Hc _]. unfold is_flag in Hc. lia.
Qed.

Lemma fmt_loop_wp rev0 tty b0 t0 size fuel : ∀ ps ap T l o flags rest,
  length rev0 = 11%nat → room tty b0 size → Forall piece_ok ps → args_safe ps ap → render ps ap = Some T →
  holds tty b0 t0 l o → has_flag flags FLAG_TTY = tty → Z.of_nat (length l) ≤ size →
  Z.of_nat (length l + length T) < 2 ^ 30 → (length (text_of ps) < fuel)%nat →
  wp (fmt_loop rev0 fuel (text_of ps ++ 0 :: rest) ap (Z.of_nat (length l)) (Z.of_nat (length l)) size flags)
    (λ '(buf, written, flags') o', let l' := emitted size l T in
      buf = Z.of_nat (length l') ∧ written = Z.of_nat (length l') ∧ has_flag flags' FLAG_TTY = tty ∧ holds tty b0 t0 l' o') o.
Proof.
  induction fuel as [|fuel IH]; intros ps ap T l o flags rest Hrev Hroom Hps Hsafe HT Ho Hf Hl Hmax Hfuel; [lia |]. cbn [fmt_loop].
  destruct (Z.ltb_spec (Z.of_nat (length l)) size) as [Hlt|Hge]; cbn [negb]; [| wp_step; rewrite emitted_full by lia; done].
  destruct ps as [|[c|d] ps]; [injection HT as <-; cbn [text_of fmap list_fmap concat app Z.eqb]; wp_step; by rewrite emitted_nil | |];
    apply Forall_cons in Hps as [Hp Hps]; unfold text_of in *; cbn [fmap list_fmap concat piece_text] in *.
  - destruct Hp as [H0 H37]. cbn [app length] in *. rewrite (proj2 (Z.eqb_neq c 0)), (proj2 (Z.eqb_neq c 37)) by done. cbn [negb].
    cbn [render] in HT. destruct (render ps ap) as [T'|] eqn:HT'; [| done]. injection HT as <-.
    wp_step. eapply printc_wp; [done | done | done | done |]. intros o1 Ho1. rewrite <- (length_snoc l c).
    eapply wp_mono; [apply (IH ps ap T'); try done; rewrite ?length_snoc, ?length_app in *; simpl in *; lia |].
    intros [[buf w] f']. cbv zeta. rewrite emitted_app by (rewrite length_snoc; lia). done.
  - destruct (directive_head d Hp) as (c & r & Hdt & Hc0). cbn [render args_safe] in HT, Hsafe. destruct Hsafe as [Hsd Hsafe].
    destruct (conv_text (opts_of d) (dv_conv d) ap) as [[t ap']|] eqn:Ht; [| done]. cbn in HT.
    destruct (render ps ap') as [T'|] eqn:HT'; [| done]. injection HT as <-. specialize (Hsafe _ _ eq_refl).
    cbn [app length] in *. rewrite Hdt in Hfuel |- *. cbn [app length Z.eqb Pos.eqb negb] in *. rewrite (proj2 (Z.eqb_neq c 0)) by done.
    pose proof (mods_directive d (Z.land flags FLAG_TTY) (concat (piece_text <$> ps) ++ 0 :: rest) fuel Hp) as Hm.
    rewrite Hdt in Hm. cbn [mods_at app] in Hm. rewrite (proj2 (Z.eqb_neq c 0)) in Hm by done. rewrite length_app in Hfuel.
    rewrite <- app_assoc. wp_step. eapply wp_pure; [apply Hm; simpl; lia |]. cbv beta iota. wp_step. rewrite length_app in Hmax.
    pose proof (dir_mods_are flags d tty Hf Hp) as Hmd.
    assert (Hpr : prec_ok (opts_of d) l).
    { unfold prec_ok, opts_of. cbn [op_prec]. destruct (dv_prec d) as [pd|] eqn:Hpd; [| by left]. right.
      destruct (do_prec _ Hp pd Hpd) as [Hd Hle]. pose proof (dec_val_nonneg pd Hd). lia. }
    eapply wp_mono; [by apply (convert_wp rev0 tty b0 t0 size Hrev Hroom l o _ (opts_of d) _ ap t ap') |].
    intros [[ap1 buf] w] o1 [[= -> -> ->] Ho1]. destruct (emitted_length size l t Hl) as [Hl1 Hl2].
    eapply wp_mono; [apply (IH ps ap' T'); try done; [apply Hmd | lia | simpl in Hfuel; lia] |].
    intros [[buf w] f']. cbv zeta. rewrite emitted_twice by done. done.
Qed.

Lemma vxnprintf_wp rev0 fuel ps ap T rest tty b0 t0 size flags o (Q : Z → out → Prop) :
  length rev0 = 11%nat → Forall piece_ok ps → args_safe ps ap → render ps ap = Some T → Z.of_nat (length T) < 2 ^ 30 →
  (length (text_of ps) < fuel)%nat → 0 < size → room tty b0 size → has_flag flags FLAG_TTY = tty → holds tty b0 t0 [] o →
  (∀ flags' o1, has_flag flags' FLAG_TTY = tty → holds tty b0 t0 (take (Z.to_nat size) T) o1 →
    wp (printc (if Z.of_nat (length T) <? size then Z.of_nat (length T) else size - 1) 0 flags')
      (λ _ o2, Q (if Z.of_nat (length T) <? size then Z.of_nat (length T) else -1) o2) o1) →
  wp (vxnprintf rev0 fuel size (text_of ps ++ 0 :: rest) ap flags) Q o.
Proof.
  intros Hrev Hps Hsafe HT Hmax Hfuel Hsize Hroom Hf Ho HQ. unfold vxnprintf. rewrite (proj2 (Z.leb_gt size 0)) by lia. wp_step.
  eapply wp_mono; [by apply (fmt_loop_wp rev0 tty b0 t0 size fuel ps ap T [] o flags rest); try done; simpl; lia |].
  intros [[buf w] f'] o1. cbv zeta. unfold emitted. cbn [app length]. rewrite Nat.sub_0_r, length_take. intros (-> & -> & Hf' & Ho').
  specialize (HQ f' o1 Hf' Ho'). destruct (Z.ltb_spec (Z.of_nat (length T)) size) as [Hlt|Hge].
  - rewrite (proj2 (Z.eqb_neq _ _)) by lia. cbv beta iota. wp_step. replace (Z.to_nat size `min` length T)%nat with (length T) by lia.
    eapply wp_mono; [exact HQ |]. intros [] o2 HQ2. by wp_step.
  - rewrite (proj2 (Z.eqb_eq _ _)) by lia. cbv beta iota. wp_step. replace (Z.of_nat (Z.to_nat size `min` length T) - 1) with (size - 1) by lia.
    eapply wp_mono; [exact HQ |]. intros [] o2 HQ2. by wp_step.
Qed.

Lemma snprintf_wp rev0 fuel ps ap T rest size o :
  length rev0 = 11%nat → Forall piece_ok ps → args_safe ps ap → render ps ap = Some T → Z.of_nat (length T) < 2 ^ 30 →
  (length (text_of ps) < fuel)%nat → 0 < size ≤ Z.of_nat (length (o_buf o)) →
  let n := Nat.min (length T) (Z.to_nat (size - 1)) in
  wp (snprintf rev0 fuel size (text_of ps ++ 0 :: rest) ap)
    (λ r o', r = (if Z.of_nat (length T) <? size then Z.of_nat (length T) else -1) ∧
      o' = mk_out (take n T ++ 0 :: drop (S n) (o_buf o)) (o_tty o)) o.
Proof.
  intros Hrev Hps Hsafe HT Hmax Hfuel Hsize n. unfold snprintf.
  eapply (vxnprintf_wp _ _ _ _ T _ false (o_buf o) (o_tty o)); try done; [lia | intros _; lia | |].
  { split_and!; [done | simpl; lia | done]. }
  intros f' o1 Hf' (Ht & Hle & Hb). unfold printc. rewrite Hf'. rewrite length_take in Hle, Hb. do 2 wp_step. unfold id. wp_step.
  eapply wp_pure; [apply aset_Ok; rewrite Hb, length_app, length_take, length_drop; destruct (Z.ltb_spec (Z.of_nat (length T)) size); lia |].
  wp_step. split; [done |]. f_equal; [| done]. rewrite Hb.
  destruct (Z.ltb_spec (Z.of_nat (length T)) size) as [Hlt|Hge].
  - replace n with (length T) by (unfold n; lia). rewrite !take_ge by lia. rewrite Nat2Z.id. replace (Z.to_nat size `min` length T)%nat with (length T) by lia.
    rewrite insert_app_r_alt, Nat.sub_diag by lia. f_equal. destruct (drop (length T) (o_buf o)) as [|x r] eqn:Hd.
    { apply (f_equal length) in Hd. rewrite length_drop in Hd. simpl in Hd. lia. }
    simpl. f_equal. replace (S (length T)) with (length T + 1)%nat by lia. rewrite <- drop_drop, Hd. done.
  - replace n with (Z.to_nat (size - 1)) by (unfold n; lia). replace (Z.to_nat size `min` length T)%nat with (Z.to_nat size) by lia.
    replace (Z.to_nat size) with (S (Z.to_nat (size - 1))) by lia. set (k := Z.to_nat (size - 1)).
    destruct (lookup_lt_is_Some_2 T k) as [c Hc]; [lia |]. rewrite (take_S_r _ _ c Hc), <- app_assoc.
    rewrite insert_app_r_alt by (rewrite length_take; lia). rewrite length_take. f_equal. replace (k - (k `min` length T))%nat with 0%nat by lia. done.
Qed.

Lemma kprintf_wp rev0 fuel ps ap T rest o :
  length rev0 = 11%nat → Forall piece_ok ps → args_safe ps ap → render ps ap = Some T → Z.of_nat (length T) < 2 ^ 30 →
  (length (text_of ps) < fuel)%nat →
  wp (kprintf rev0 fuel (text_of ps ++ 0 :: rest) ap)
    (λ r o', r = Z.of_nat (length T) ∧ o' = mk_out (o_buf o) (o_tty o ++ filter (λ c, c ≠ 0) T)) o.
Proof.
  intros Hrev Hps Hsafe HT Hmax Hfuel. unfold kprintf.
  eapply (vxnprintf_wp _ _ _ _ T _ true (o_buf o) (o_tty o)); try done; [split; [done | by rewrite app_nil_r] |].
  intros f' o1 Hf' [Hb Ht]. unfold printc. rewrite Hf'. cbn [Z.eqb]. wp_step. rewrite (proj2 (Z.ltb_lt _ _)) by lia.
  split; [done |]. destruct o1 as [b t]. cbn [o_buf o_tty] in *. rewrite take_ge in Ht by lia. by subst.
Qed.

(** C27: The output functions print what the format means, for the formats the
    code can handle: the characters of the format in their order, with each
    conversion replaced by the text of its argument.  snprintf puts it into the
    buffer with a null behind it and returns its length; when it does not fit
    into [size] bytes with the null, the buffer gets the first [size] - 1 of its
    characters and the result is -1; no byte behind the null changes.  kprintf
    puts it on the console, except null characters.  The formats are those whose
    conversions have flags, a width and a precision of the digits 1 to 8 only,
    at most 2^30 (the code scans no digit 0 or 9 there, and can hang), with
    arguments of the right types, no %d or %i of -2^31, and no negative number
    for a %d or %i with the flag + or space (of which the code prints both
    signs); the text has less than 2^30 characters.  In the text of a number a
    width or precision counts up to 11, and %d and %i have neither, as the
    table in xprintf.c says. *)
Theorem xprintf_prints rev0 fuel ps ap T rest :
  length rev0 = 11%nat → Forall piece_ok ps → args_safe ps ap → render ps ap = Some T →
  Z.of_nat (length T) < 2 ^ 30 → (length (text_of ps) < fuel)%nat →
  (∀ size o, 0 < size ≤ Z.of_nat (length (o_buf o)) →
    let n := Nat.min (length T) (Z.to_nat (size - 1)) in
    snprintf rev0 fuel size (text_of ps ++ 0 :: rest) ap o =
      Ok (if Z.of_nat (length T) <? size then Z.of_nat (length T) else -1, mk_out (take n T ++ 0 :: drop (S n) (o_buf o)) (o_tty o))) ∧
  (∀ o, kprintf rev0 fuel (text_of ps ++ 0 :: rest) ap o =
      Ok (Z.of_nat (length T), mk_out (o_buf o) (o_tty o ++ filter (λ c, c ≠ 0) T))).
Proof.
  intros Hrev Hps Hsafe HT Hmax Hfuel. split.
  - intros size o Hsize n. destruct (proj1 (wp_iff _ _ _) (snprintf_wp _ _ _ _ _ rest size o Hrev Hps Hsafe HT Hmax Hfuel Hsize)) as (r & o' & He & -> & ->).
    exact He.
  - intros o. destruct (proj1 (wp_iff _ _ _) (kprintf_wp _ _ _ _ _ rest o Hrev Hps Hsafe HT Hmax Hfuel)) as (r & o' & He & -> & ->). exact He.
Qed.

(** *** Reading back what was printed *)

Lemma rdigits_few base j : ∀ k n, 1 < base → 0 ≤ n < base ^ Z.of_nat j → (0 < j)%nat → (length (rdigits k base n) ≤ j)%nat.
Proof.
  induction j as [|j IH]; intros k n Hb Hn Hj; [lia |]. destruct k as [|k]; simpl; [lia |].
  destruct (Z.eqb_spec (n / base) 0) as [He|He]; simpl; [lia |].
  assert (Hn2 : 0 ≤ n / base < base ^ Z.of_nat j).
  { split; [apply Z.div_pos; lia |]. apply Z.div_lt_upper_bound; [lia |]. rewrite <- Z.pow_succ_r by lia. replace (Z.succ (Z.of_nat j)) with (Z.of_nat (S j)) by lia. lia. }
  destruct (decide (j = 0%nat)) as [->|Hj0]; [change (base ^ Z.of_nat 0) with 1 in Hn2; lia |].
  specialize (IH k (n / base) Hb Hn2 ltac:(lia)). lia.
Qed.

Lemma foldl_snoc_decimal ds d : decimal (ds ++ [d]) = 10 * decimal ds + d.
Proof. unfold decimal. by rewrite foldl_app. Qed.

Lemma decimal_rdigits k : ∀ n, 0 ≤ n < 10 ^ Z.of_nat k → (0 < k)%nat → decimal (reverse (rdigits k 10 n)) = n.
Proof.
  induction k as [|k IH]; intros n Hn Hk; [lia |]. cbn [rdigits]. rewrite reverse_cons, foldl_snoc_decimal.
  pose proof (Z.div_mod n 10 ltac:(lia)). destruct (Z.eqb_spec (n / 10) 0) as [He|He].
  - change (decimal (reverse [])) with 0. lia.
  - assert (Hn2 : 0 ≤ n / 10 < 10 ^ Z.of_nat k).
    { split; [apply Z.div_pos; lia |]. apply Z.div_lt_upper_bound; [lia |]. rewrite <- Z.pow_succ_r by lia. replace (Z.succ (Z.of_nat k)) with (Z.of_nat (S k)) by lia. lia. }
    destruct (decide (k = 0%nat)) as [->|Hk0]; [change (10 ^ Z.of_nat 0) with 1 in Hn2; lia |]. rewrite IH by (done || lia). lia.
Qed.

Lemma decimal_text n : number_text 10 false 0 0 n = Z.add 48 <$> reverse (rdigits 11 10 n) ∨ ¬ 0 ≤ n.
Proof.
  destruct (decide (0 ≤ n)) as [Hn|Hn]; [left | by right]. unfold number_text, pad. change (Z.to_nat (0 `min` 11)) with 0%nat. rewrite !Nat.sub_0_l. cbn [replicate app].
  rewrite fmap_reverse. f_equal. apply list_fmap_ext. intros i d Hd. pose proof (rdigits_bound 11 10 n ltac:(lia) Hn) as Hall.
  rewrite Forall_lookup in Hall. specialize (Hall i d Hd). assert (Hc : d ∈ seqZ 0 10) by (apply elem_of_seqZ; lia).
  clear -Hc. repeat (apply elem_of_cons in Hc as [->|Hc]; [done |]). by apply not_elem_of_nil in Hc.
Qed.

(** The format "%d". *)
Definition percent_d : piece := Dir (mk_dir [] [] None 100).

Lemma percent_d_ok : piece_ok percent_d.
Proof. constructor; [constructor | split; [constructor | done] | done |]. unfold is_byte, is_flag. simpl. lia. Qed.

Lemma percent_d_safe v : - 2 ^ 31 < s32 v → args_safe [percent_d] [AInt v].
Proof. intros Hv. split; [| done]. intros _ w ap' [= <- _]. done. Qed.

(** C28: Printing a number with snprintf and reading it with atoi gives the
    number back, for every [int] but the least one. *)
Theorem print_atoi_roundtrip rev0 v size o :
  length rev0 = 11%nat → - 2 ^ 31 < v < 2 ^ 31 → 12 ≤ size ≤ Z.of_nat (length (o_buf o)) →
  ∃ r o', snprintf rev0 3 size [37; 100; 0] [AInt (u32 v)] o = Ok (r, o') ∧ atoi (o_buf o') = Ok v.
Proof.
  intros Hrev Hv Hsize. set (ds := reverse (rdigits 11 10 (Z.abs v))).
  assert (Hs : s32 (u32 v) = v) by (apply s32_u32; unfold is_s32; lia).
  assert (Hlen : (length (rdigits 11 10 (Z.abs v)) ≤ 10)%nat) by (apply rdigits_few; lia).
  assert (Hds : Forall (λ d, 0 ≤ d ≤ 9) ds).
  { apply Forall_reverse. eapply Forall_impl; [apply (rdigits_bound 11 10 (Z.abs v)); lia |]. simpl. lia. }
  assert (Hne : ds ≠ []).
  { intros He. apply (f_equal length) in He. unfold ds in He. rewrite length_reverse in He. pose proof (rdigits_pos 11 10 (Z.abs v)). simpl in *. lia. }
  destruct (decimal_text (Z.abs v)) as [Htext|?]; [| lia]. fold ds in Htext.
  set (sgn := if v <? 0 then [45] else [] : bytes).
  assert (HT : render [percent_d] [AInt (u32 v)] = Some (sgn ++ (Z.add 48 <$> ds))).
  { cbn. rewrite Hs, Htext. unfold sgn. destruct (v <? 0); simpl; by rewrite app_nil_r. }
  assert (Hlt : (length (sgn ++ (Z.add 48 <$> ds)) ≤ 11)%nat).
  { rewrite length_app, length_fmap. unfold ds, sgn. rewrite length_reverse. destruct (v <? 0); cbn [length]; lia. }
  destruct (proj1 (wp_iff _ _ _) (snprintf_wp rev0 3 [percent_d] [AInt (u32 v)] _ [] size o Hrev
    (Forall_cons_2 _ _ _ percent_d_ok (Forall_nil_2 _)) (percent_d_safe _ ltac:(rewrite Hs; lia)) HT ltac:(lia) ltac:(unfold text_of; simpl; lia) ltac:(lia)))
    as (r & o' & He & -> & ->).
  eexists _, _. split; [exact He |]. cbn [o_buf]. rewrite Nat.min_l by lia. rewrite take_ge by lia. rewrite <- app_assoc.
  assert (Hval : (if decide (sgn = [45]) then - decimal ds else decimal ds) = v).
  { unfold ds. rewrite decimal_rdigits by (simpl; lia). unfold sgn. destruct (Z.ltb_spec v 0); case_decide; try done; lia. }
  pose proof (atoi_decimal [] sgn ds 0) as Ha. cbv zeta in Ha. rewrite Hval in Ha. apply Ha; try done; [unfold sgn; destruct (v <? 0); tauto | lia | unfold is_s32; lia].
Qed.

(** *** A format that never ends *)

Lemma mods_loop_nine fuel : ∀ fmt m, mods_loop fuel 57 fmt m = NoFuel.
Proof. induction fuel as [|fuel IH]; intros fmt m; [done |]. cbn. apply IH. Qed.

(** C39: A width that starts with the digit 9 is not read as a digit: the loop
    over the modifiers finds the same character again and again, and kprintf
    does not return, whatever follows in the format and whatever the
    arguments. *)
Theorem kprintf_nine_hangs rev0 fuel fmt args o : kprintf rev0 fuel (37 :: 57 :: fmt) args o = NoFuel.
Proof.
  unfold kprintf, vxnprintf. cbn [Z.leb Z.compare]. destruct fuel as [|fuel]; [done |].
  unfold mbind, K_bind. cbn [fmt_loop Z.ltb Z.compare negb Z.eqb Pos.eqb]. unfold mbind, K_bind, pure. by rewrite mods_loop_nine.
Qed.

(** ** Witnesses *)

(** "n=%+d %#8x|%s" *)
Definition example_format : list piece :=
  [Lit 110; Lit 61; Dir (mk_dir [43] [] None 100); Lit 32; Dir (mk_dir [35] [56] None 120); Lit 124; Dir (mk_dir [] [] None 115)].
Definition example_args : list argument := [AInt 42; AInt 0xbeef; AStr [104; 105; 0]].

Lemma example_format_ok : Forall piece_ok example_format.
Proof.
  repeat (apply Forall_cons_2; [try (cbn; lia) |]); try apply Forall_nil_2.
  all: constructor; [| split; [| cbn; lia] | done | unfold is_byte, is_flag; cbn; lia].
  all: repeat (apply Forall_cons_2; [unfold is_flag, is_digit18; lia |]); apply Forall_nil_2.
Qed.

Lemma xprintf_prints_witness :
  snprintf (replicate 11 0) 40 20 (text_of example_format ++ [0]) example_args (mk_out (replicate 22 7) []) =
    Ok (17, mk_out [110; 61; 43; 52; 50; 32; 48; 120; 32; 32; 98; 101; 101; 102; 124; 104; 105; 0; 7; 7; 7; 7] []).
Proof.
  assert (Hsafe : args_safe example_format example_args).
  { cbn. split; [intros _ v ap' [= <- _]; split; [done | by intros ?] |]. intros t ap' [= _ <-].
    split; [intros [?|?]; done |]. intros t' ap'' [= _ <-]. split; [intros [?|?]; done | done]. }
  destruct (xprintf_prints (replicate 11 0) 40 example_format example_args
    [110; 61; 43; 52; 50; 32; 48; 120; 32; 32; 98; 101; 101; 102; 124; 104; 105] []) as [Hs _];
    [reflexivity | exact example_format_ok | exact Hsafe | vm_compute; reflexivity | reflexivity | vm_compute; lia |].
  rewrite Hs by (simpl; lia). reflexivity.
Defined.

Lemma print_atoi_roundtrip_witness :
  ∃ r o', snprintf (replicate 11 0) 3 16 [37; 100; 0] [AInt (u32 (-1234))] (mk_out (replicate 16 0) []) = Ok (r, o') ∧ atoi (o_buf o') = Ok (-1234).
Proof. apply (print_atoi_roundtrip (replicate 11 0) (-1234) 16); [reflexivity | lia | simpl; lia]. Defined.
