(* ===== verification/UserLib.v ===== *)
(** * The library of user programs (src/buenos/tests/lib.c): strings, input and
      output

    A pointer into a string is the list of bytes from there on; a buffer that
    is written is a list with an index.  The console is what has not been read
    yet and what has been shown: reading waits for a character, writing shows
    all characters, as [io_read] and [io_write] of the kernel do.  [malloc] and
    friends are in [UserHeap], [vxnprintf] is the text of lib/xprintf.c. *)

From S2P Require Import Prelude Libc Xprintf.
Local Open Scope Z_scope.

(** ** Strings *)

(** [strlen] of the kernel's library, on [size_t]. *)
Fixpoint strcpy_loop (dest : bytes) (i : Z) (src : bytes) : res bytes :=
  match src with
  | [] => Undef
  | c :: src' => dest ← aset dest i c; if c =? 0 then Ok dest else strcpy_loop dest (i + 1) src'
  end.
Definition strcpy (dest src : bytes) : res bytes := strcpy_loop dest 0 src.

(** [n] characters may still be copied. *)
Fixpoint strncpy_loop (n : nat) (dest : bytes) (i : Z) (src : bytes) : res bytes :=
  match n with
  | O => Ok dest
  | S n' =>
      match src with
      | [] => Undef
      | c :: src' => dest ← aset dest i c; if c =? 0 then Ok dest else strncpy_loop n' dest (i + 1) src'
      end
  end.
Definition strncpy (dest src : bytes) (n : Z) : res bytes := strncpy_loop (Z.to_nat n) dest 0 src.

Definition strcat (dest src : bytes) : res bytes :=
  l ← strlen dest;
  strcpy_loop dest l src.

Fixpoint strncat_loop (n : nat) (dest : bytes) (i : Z) (src : bytes) : res bytes :=
  match n with
  | O => aset dest i 0
  | S n' =>
      match src with
      | [] => Undef
      | c :: src' => if c =? 0 then aset dest i 0 else dest ← aset dest i c; strncat_loop n' dest (i + 1) src'
      end
  end.
Definition strncat (dest src : bytes) (n : Z) : res bytes :=
  dest_len ← strlen dest;
  strncat_loop (Z.to_nat n) dest dest_len src.

(** Stops where both strings end; characters are compared as [char]. *)
Fixpoint strncmp (s1 s2 : bytes) (n : Z) : res Z :=
  match s1, s2 with
  | c1 :: s1', c2 :: s2' =>
      if (negb (c1 =? 0) || negb (c2 =? 0)) && (0 <? n) then
        if schar c1 <? schar c2 then Ok (-1)
        else if schar c2 <? schar c1 then Ok 1
        else strncmp s1' s2' (n - 1)
      else Ok 0
  | _, _ => Undef
  end.
Definition strcmp (s1 s2 : bytes) : res Z := strncmp s1 s2 0x7fffffff.

Fixpoint memcmp (s1 s2 : bytes) (n : nat) {struct n} : res Z :=
  match n with
  | O => Ok 0
  | S n' =>
      match s1, s2 with
      | c1 :: s1', c2 :: s2' => if negb (c1 =? c2) then Ok (c1 - c2) else memcmp s1' s2' n'
      | _, _ => Undef
      end
  end.

(** The result is the rest of [s1] that the pointer points to. *)
Fixpoint strstr_loop (s1 s2 : bytes) (n : nat) : res (option bytes) :=
  match s1 with
  | [] => Undef
  | c :: s1' =>
      if c =? 0 then Ok None
      else
        d ← memcmp s1 s2 n;
        if d =? 0 then Ok (Some s1) else strstr_loop s1' s2 n
  end.
Definition strstr (s1 s2 : bytes) : res (option bytes) :=
  n ← strlen s2;
  strstr_loop s1 s2 (Z.to_nat n).

Fixpoint memset_loop (n : nat) (s : bytes) (i c : Z) : res bytes :=
  match n with
  | O => Ok s
  | S n' => s ← aset s i (c mod 256); memset_loop n' s (i + 1) c
  end.
Definition memset (s : bytes) (c n : Z) : res bytes := memset_loop (Z.to_nat n) s 0 c.

Fixpoint memcpy_loop (n : nat) (dest : bytes) (i : Z) (src : bytes) : res bytes :=
  match n with
  | O => Ok dest
  | S n' => c ← aget src i; dest ← aset dest i c; memcpy_loop n' dest (i + 1) src
  end.
Definition memcpy (dest src : bytes) (n : Z) : res bytes := memcpy_loop (Z.to_nat n) dest 0 src.

(** Like [atoi_digits] of the kernel, without blanks and signs. *)
Fixpoint uatoi_loop (s : bytes) (retval : Z) : res Z :=
  match s with
  | [] => Undef
  | c :: s' =>
      if (c =? 0) || (schar c <? 48) || (57 <? schar c) then Ok retval
      else
        v ← int_op (retval * 10);
        v ← int_op (v + (schar c - 48));
        uatoi_loop s' v
  end.
Definition uatoi (nptr : bytes) : res Z :=
  _ ← strlen nptr;
  uatoi_loop nptr 0.

(** ** Input and output *)

Record stdio := mk_stdio { unread : bytes; shown : bytes }.

(** [syscall_write(stdout, buf, n)] *)
Definition write_out (buf : bytes) (n : Z) : K stdio Z :=
  modify (λ s, mk_stdio (unread s) (shown s ++ take (Z.to_nat n) buf));;
  mret n.

Definition putc (c : Z) : K stdio Z := write_out [c] 1.

(** [syscall_read(stdin, &c, 1)], and [c] as an [int]. *)
Definition getc_raw : K stdio Z := λ s,
  match unread s with
  | [] => Block
  | c :: l => Ok (schar c, mk_stdio l (shown s))
  end.

Definition getc : K stdio Z :=
  c ← getc_raw;
  putc (c mod 256);;
  mret c.

(** The [do] loop; [n] bounds its turns. *)
Fixpoint puts_loop (n : nat) (s : bytes) (len written : Z) : K stdio Z :=
  match n with
  | O => pure NoFuel
  | S n' =>
      ret ← write_out s len;
      let written := written + ret in
      if (written <? len) && (0 <? ret) then puts_loop n' (drop (Z.to_nat ret) s) len written
      else mret written
  end.
Definition puts (s : bytes) : K stdio Z :=
  len ← pure (strlen s);
  puts_loop 2 s len 0.

(** [gets]; the buffer is [s]. *)
Fixpoint gets_loop (n : nat) (s : bytes) (count size : Z) : K stdio (bytes * Z) :=
  match n with
  | O => pure NoFuel
  | S n' =>
      if u32 (count + 1) <? size then
        c ← getc;
        s ← pure (aset s count (c mod 256));
        gets_loop n' s (count + 1) size
      else
        s ← pure (aset s (count + 1) 0);
        mret (s, count)
  end.
Definition gets_line (s : bytes) (size : Z) : K stdio (bytes * Z) := gets_loop (S (Z.to_nat size)) s 0 size.

(** The loop of [readline], which ends at a newline; it reads one character a
    turn. *)
Fixpoint readline_loop (n : nat) (s : bytes) (count size : Z) : K stdio (bytes * Z) :=
  match n with
  | O => pure Block
  | S n' =>
      c ← getc_raw;
      if (c =? 13) || (c =? 10) then
        putc 10;;
        s ← pure (aset s count 0);
        mret (s, count)
      else if c =? 127 then
        if 0 <? count then
          putc 8;; putc 32;; putc 8;;
          readline_loop n' s (count - 1) size
        else readline_loop n' s count size
      else if count <? u32 (size - 1) then
        s ← pure (aset s count (c mod 256));
        putc (c mod 256);;
        readline_loop n' s (count + 1) size
      else readline_loop n' s count size
  end.
Definition readline (s : bytes) (size : Z) : K stdio (bytes * Z) := λ st,
  readline_loop (S (length (unread st))) s 0 size st.

(** Formatted output.  Lines 446 to 695 of lib.c repeat those of
    lib/xprintf.c, with [putc] in place of the polling terminal. *)
Definition user_scan_int : bytes → Z → res (Z * bytes) := scan_int.
Definition user_print_uint : bytes → Z → Z → Z → Z → Z → Z → Z → K out Z := print_uint.
Definition user_vxnprintf : bytes → nat → Z → bytes → list argument → Z → K out Z := vxnprintf.
Definition printf (rev0 : bytes) (fuel : nat) (fmt : bytes) (args : list argument) : K out Z :=
  user_vxnprintf rev0 fuel 0x7fffffff fmt args FLAG_TTY.
Definition user_snprintf (rev0 : bytes) (fuel : nat) (size : Z) (fmt : bytes) (args : list argument) : K out Z :=
  user_vxnprintf rev0 fuel size fmt args 0.

(** ** Searching *)

Lemma memcmp_eq n : ∀ s1 s2,
  (n ≤ length s2)%nat → (∀ k, (k < n)%nat → (k < length s1)%nat ∨ ∃ j, (j < k)%nat ∧ s1 !! j ≠ s2 !! j) →
  ∃ d, memcmp s1 s2 n = Ok d ∧ (d = 0 ↔ take n s1 = take n s2 ∧ (n ≤ length s1)%nat).
Proof.
  induction n as [|n IH]; intros s1 s2 Hl Hd; cbn [memcmp]; [exists 0; split; [done |]; split; [intros _; split; [done | lia] | done] |].
  destruct s2 as [|c2 s2]; [simpl in Hl; lia |]. destruct s1 as [|c1 s1].
  { destruct (Hd 0%nat) as [?|(j & ? & _)]; [lia | simpl in *; lia | lia]. }
  destruct (Z.eqb_spec c1 c2) as [->|Hne]; cbn [negb].
  - destruct (IH s1 s2) as (d & -> & Hd'); [simpl in Hl; lia | |].
    + intros k Hk. destruct (Hd (S k)) as [?|(j & Hj & Hne)]; [lia | left; simpl in *; lia |]. right.
      destruct j as [|j]; [done |]. exists j. split; [lia | done].
    + exists d. split; [done |]. rewrite Hd'. simpl. split; [intros [-> ?]; split; [done | lia] | intros [[= ->] ?]; split; [done | lia]].
  - exists (c1 - c2). split; [done |]. simpl. split; [lia | intros [[= ?] _]; done].
Qed.

(** In a string [a] with its null, the comparison with [b] stops in time. *)
Lemma memcmp_str a b r1 r2 :
  0 ∉ b → ∃ d, memcmp (a ++ 0 :: r1) (b ++ 0 :: r2) (length b) = Ok d ∧ (d = 0 ↔ b `prefix_of` a).
Proof.
  intros Hb. destruct (memcmp_eq (length b) (a ++ 0 :: r1) (b ++ 0 :: r2)) as (d & He & Hd).
  - rewrite length_app. lia.
  - intros k Hk. destruct (decide (k < length (a ++ 0%Z :: r1))%nat) as [?|Hge]; [by left |]. right. exists (length a).
    rewrite length_app in Hge. simpl in Hge. split; [lia |]. rewrite list_lookup_middle by done. rewrite lookup_app_l by lia.
    intros He. symmetry in He. apply list_elem_of_lookup_2 in He. done.
  - exists d. split; [done |]. rewrite Hd, take_app_length. split.
    + intros [Ht Hl]. assert (Hle : (length b ≤ length a)%nat).
      { destruct (decide (length b ≤ length a)%nat) as [?|Hgt]; [done |]. exfalso. apply Hb. rewrite <- Ht.
        apply (list_elem_of_lookup_2 _ (length a)). rewrite lookup_take_lt by lia. by apply list_lookup_middle. }
      rewrite take_app_le in Ht by done. exists (drop (length b) a). by rewrite <- Ht at 1; rewrite take_drop.
    + intros [c ->]. rewrite <- app_assoc, take_app_length, length_app. split; [done | lia].
Qed.

(** [strstr] finds the first occurrence of [b] in [a]; it does not find an
    empty string in an empty one. *)
Theorem strstr_first a b r1 r2 :
  0 ∉ a → 0 ∉ b →
  ∃ r, strstr (a ++ 0 :: r1) (b ++ 0 :: r2) = Ok r ∧
    match r with
    | Some p => ∃ k, (k < length a)%nat ∧ p = drop k a ++ 0 :: r1 ∧ b `prefix_of` drop k a ∧ ∀ j, (j < k)%nat → ¬ b `prefix_of` drop j a
    | None => ∀ j, (j < length a)%nat → ¬ b `prefix_of` drop j a
    end.
Proof.
  intros Ha Hb. unfold strstr, mbind, res_bind. rewrite (strlen_Ok _ b) by (apply cstr_Some; split; [by eexists | done]). rewrite Nat2Z.id.
  induction a as [|c a IH]; cbn [app strstr_loop Z.eqb]; [exists None; split; [done |]; simpl; lia |].
  apply not_elem_of_cons in Ha as [Hc Ha]. rewrite (proj2 (Z.eqb_neq c 0)) by done. unfold mbind, res_bind.
  destruct (memcmp_str (c :: a) b r1 r2 Hb) as (d & He & Hd). cbn [app] in He. rewrite He.
  destruct (Z.eqb_spec d 0) as [->|Hne].
  - eexists. split; [done |]. exists 0%nat. split; [simpl; lia |]. split; [done |]. split; [by apply Hd | lia].
  - destruct (IH Ha) as (r & -> & Hr). exists r. split; [done |]. destruct r as [p|].
    + destruct Hr as (k & Hk & -> & Hp & Hfirst). exists (S k). split; [simpl; lia |]. split; [done |]. split; [done |].
      intros [|j] Hj; [intros ?; by apply Hne, Hd | apply Hfirst; lia].
    + intros [|j] Hj; [intros ?; by apply Hne, Hd | apply Hr; simpl in Hj; lia].
Qed.

Lemma strstr_first_witness : strstr [97; 98; 97; 99; 0] [97; 99; 0] = Ok (Some [97; 99; 0]).
Proof.
  destruct (strstr_first [97; 98; 97; 99] [97; 99] [] []) as (r & He & _); [by vm_compute; intros ?; set_solver .. |].
  vm_compute in He. injection He as <-. reflexivity.
Defined.

(** ** Lines *)

(** What is left of [l] after the characters [cs] have been typed: 127 removes
    the last character, others are added while there is room. *)
Definition type_char (size : Z) (l : bytes) (c : Z) : bytes :=
  if c =? 127 then take (length l - 1) l
  else if Z.of_nat (length l) <? size - 1 then l ++ [c] else l.

(** What typing [c] shows. *)
Definition echo (size : Z) (l : bytes) (c : Z) : bytes :=
  if c =? 127 then (if (0 <? length l)%nat then [8; 32; 8] else [])
  else if Z.of_nat (length l) <? size - 1 then [c] else [].

Fixpoint echoes (size : Z) (l : bytes) (cs : bytes) : bytes :=
  match cs with [] => [] | c :: cs' => echo size l c ++ echoes size (type_char size l c) cs' end.

Lemma schar_mod c : is_byte c → schar c mod 256 = c.
Proof. unfold is_byte, schar. intros Hc. destruct (Z.ltb_spec c 128); [by apply Z.mod_small |]. symmetry. apply (Z.mod_unique_pos _ _ (-1)); lia. Qed.

Lemma schar_small c k : is_byte c → 0 ≤ k < 128 → schar c = k ↔ c = k.
Proof. unfold is_byte, schar. intros Hc Hk. destruct (Z.ltb_spec c 128); lia. Qed.

(** The buffer starts with the line so far. *)
Definition line_in (s l : bytes) (size : Z) : Prop := Z.of_nat (length l) < size ≤ Z.of_nat (length s) ∧ take (length l) s = l.

Lemma line_in_snoc s l size c : line_in s l size → Z.of_nat (length l) < size - 1 → line_in (<[length l := c]> s) (l ++ [c]) size.
Proof.
  intros [Hl Ht] Hlt. split; [rewrite length_app, length_insert; simpl; lia |]. rewrite length_app. simpl.
  rewrite Nat.add_1_r, (take_S_r _ _ c) by (apply list_lookup_insert_eq; lia). rewrite take_insert_ge by lia. by rewrite Ht.
Qed.

Lemma line_in_cut s l size : line_in s l size → line_in s (take (length l - 1) l) size.
Proof.
  intros [Hl Ht]. split; [rewrite length_take; lia |]. rewrite length_take, Nat.min_l by lia.
  transitivity (take (length l - 1) (take (length l) s)); [by rewrite take_take, Nat.min_l by lia | by rewrite Ht].
Qed.

Lemma putc_wp st c (Q : Z → stdio → Prop) : Q 1 (mk_stdio (unread st) (shown st ++ [c])) → wp (putc c) Q st.
Proof. intros HQ. unfold putc, write_out. do 2 wp_step. by wp_step. Qed.

Lemma readline_loop_wp size rest nl cs : ∀ n s l out,
  is_bytes cs → Forall (λ c, c ≠ 10 ∧ c ≠ 13) cs → nl = 10 ∨ nl = 13 → (length cs < n)%nat → line_in s l size → size < 2 ^ 32 →
  wp (readline_loop n s (Z.of_nat (length l)) size)
    (λ '(s', r) st, let l' := foldl (type_char size) l cs in
      r = Z.of_nat (length l') ∧ length s' = length s ∧ take (S (length l')) s' = l' ++ [0] ∧
      st = mk_stdio rest (out ++ echoes size l cs ++ [10])) (mk_stdio (cs ++ nl :: rest) out).
Proof.
  induction cs as [|c cs IH]; intros n s l out Hby Hnl Hn Hfuel Hin Hsz; (destruct n as [|n]; [simpl in Hfuel; lia |]); cbn [readline_loop app]; wp_step; unfold wp at 1, getc_raw; cbn [unread shown].
  - assert (schar nl = nl) as -> by (destruct Hn as [->| ->]; done). rewrite (proj2 (orb_true_iff _ _)) by (rewrite !Z.eqb_eq; tauto).
    destruct Hin as [Hl Ht]. wp_step. apply putc_wp. cbn [unread shown]. wp_step. eapply wp_pure; [apply aset_Ok; lia |]. wp_step.
    cbn [foldl echoes]. split; [done |]. split; [apply length_insert |]. rewrite Nat2Z.id.
    rewrite (take_S_r _ _ 0) by (apply list_lookup_insert_eq; lia). rewrite take_insert_ge, Ht by lia. done.
  - apply Forall_cons in Hby as [Hc Hby], Hnl as [[Hc10 Hc13] Hnl]. simpl in Hfuel.
    rewrite (proj2 (Z.eqb_neq (schar c) 13)), (proj2 (Z.eqb_neq (schar c) 10)) by (rewrite schar_small by (done || lia); done). cbn [orb foldl echoes].
    rewrite <- !app_assoc. pose proof (eq_refl (type_char size l c)) as Htc. unfold type_char at 2 in Htc.
    pose proof (eq_refl (echo size l c)) as Hec. unfold echo at 2 in Hec. destruct (Z.eqb_spec c 127) as [->|Hdel].
    + cbn [schar Z.ltb Z.compare Pos.compare Pos.compare_cont Z.eqb Pos.eqb]. destruct (Z.ltb_spec 0 (Z.of_nat (length l))) as [Hpos|Hzero].
      * rewrite (proj2 (Nat.ltb_lt _ _)) in Hec by lia. rewrite Htc, Hec. do 3 (wp_step; apply putc_wp; cbn [unread shown]).
        replace (Z.of_nat (length l) - 1) with (Z.of_nat (length (take (length l - 1) l))) by (rewrite length_take; lia).
        eapply wp_mono; [apply (IH n s (take (length l - 1) l) (((out ++ [8]) ++ [32]) ++ [8])); try done; [lia | by apply line_in_cut] |].
        intros [s' r] st. cbv zeta. rewrite <- !app_assoc. done.
      * rewrite (proj2 (Nat.ltb_ge _ _)) in Hec by lia. rewrite Htc, Hec. destruct l; [| simpl in Hzero; lia].
        eapply wp_mono; [apply (IH n s [] out); try done; lia |]. intros [s' r] st. cbv zeta. done.
    + rewrite (proj2 (Z.eqb_neq (schar c) 127)) by (rewrite schar_small by (done || lia); done).
      destruct Hin as [Hl Ht]. rewrite u32_small by (unfold is_u32; lia). rewrite schar_mod by done.
      destruct (Z.ltb_spec (Z.of_nat (length l)) (size - 1)) as [Hlt|Hge]; rewrite Htc, Hec.
      * wp_step. eapply wp_pure; [apply aset_Ok; lia |]. cbv beta. wp_step. apply putc_wp. cbn [unread shown]. rewrite Nat2Z.id.
        replace (Z.of_nat (length l) + 1) with (Z.of_nat (length (l ++ [c]))) by (rewrite length_app; simpl; lia).
        eapply wp_mono; [apply (IH n (<[length l := c]> s) (l ++ [c]) (out ++ [c])); try done; [lia | by apply line_in_snoc] |].
        intros [s' r] st. cbv zeta. rewrite length_insert, <- !app_assoc. done.
      * eapply wp_mono; [apply (IH n s l out); try done; lia |]. intros [s' r] st. cbv zeta. done.
Qed.

(** [readline] edits a line.  For characters [cs] typed before a newline or
    a return, the buffer holds what editing makes of them (127 takes back the
    last character, characters beyond [size] - 1 are dropped), with a null
    behind it, and its length is returned; each change is shown as it happens,
    and what was typed behind the newline stays unread. *)
Theorem readline_edits s size cs nl rest out :
  is_bytes cs → Forall (λ c, c ≠ 10 ∧ c ≠ 13) cs → nl = 10 ∨ nl = 13 → 0 < size ≤ Z.of_nat (length s) → size < 2 ^ 32 →
  let l := foldl (type_char size) [] cs in
  ∃ s', readline s size (mk_stdio (cs ++ nl :: rest) out) =
      Ok (s', Z.of_nat (length l), mk_stdio rest (out ++ echoes size [] cs ++ [10])) ∧
    length s' = length s ∧ take (S (length l)) s' = l ++ [0].
Proof.
  intros Hby Hcs Hnl Hs Hsz l. unfold readline. cbn [unread].
  destruct (proj1 (wp_iff _ _ _) (readline_loop_wp size rest nl cs (S (length (cs ++ nl :: rest))) s [] out Hby Hcs Hnl ltac:(rewrite length_app; lia)
    ltac:(split; [simpl; lia | done]) Hsz)) as ([s' r] & st & He & -> & Hl & Ht & ->).
  exists s'. split; [exact He | done].
Qed.

Lemma readline_edits_witness :
  readline (replicate 8 9) 8 (mk_stdio [97; 98; 127; 99; 10; 120] []) =
    Ok ([97; 99; 0; 9; 9; 9; 9; 9], 2, mk_stdio [120] [97; 98; 8; 32; 8; 99; 10]).
Proof.
  destruct (readline_edits (replicate 8 9) 8 [97; 98; 127; 99] 10 [120] []) as (s' & He & _);
    [repeat constructor; done | repeat constructor; done | by left | simpl; lia | lia |].
  pose proof He as He'. vm_compute in He'. injection He' as <-. exact He.
Defined.
