(* ===== verification/UserHeap.v ===== *)
(** * The heap of a user program (src/buenos/tests/lib.c, [malloc] and friends)

    Every program of tests/ is linked with this library.  The allocator keeps
    a list of free blocks, sorted by address, whose links lie in the blocks
    themselves; a block starts with a word that holds its size.  The memory of
    the program is a map from addresses to bytes; an access to an address that
    is not in it, or to a word at an address that is not a multiple of 4, is an
    exception of the machine.  The heap grows by the system call
    [syscall_memlimit], which is the class [Memlimit]. *)

From stdpp Require Import gmap sorting.
From S2P Require Import Prelude.
Local Open Scope Z_scope.

Abbreviation memory := (gmap Z Z).

Definition load8 (m : memory) (a : Z) : res Z :=
  match m !! a with Some b => Ok b | None => Undef end.
Definition store8 (m : memory) (a b : Z) : res memory :=
  match m !! a with Some _ => Ok (<[a := b]> m) | None => Undef end.

Definition load32 (m : memory) (a : Z) : res Z :=
  if negb (a mod 4 =? 0) then Undef
  else b0 ← load8 m a; b1 ← load8 m (a + 1); b2 ← load8 m (a + 2); b3 ← load8 m (a + 3);
       Ok (be32 b0 b1 b2 b3).
Definition store32 (m : memory) (a v : Z) : res memory :=
  if negb (a mod 4 =? 0) then Undef
  else match bytes32 v with
       | [b0; b1; b2; b3] =>
           m ← store8 m a b0; m ← store8 m (a + 1) b1; m ← store8 m (a + 2) b2; store8 m (a + 3) b3
       | _ => Undef
       end.

(** The system call: the new end of the heap, or the present one when the
    argument is NULL; 0 when there is not enough memory. *)
Class Memlimit (E : Type) := {
  syscall_memlimit : Z → E * memory → res (Z * (E * memory));
}.

Definition MIN_ALLOC_SIZE : Z := 8.

Section allocator.
Context {E : Type} `{Memlimit E}.

Record uheap := mk_uheap { u_env : E; u_mem : memory; free_list : Z }.

Definition rd (a : Z) : K uheap Z := s ← gets id; pure (load32 (u_mem s) a).
Definition wr (a v : Z) : K uheap unit :=
  s ← gets id;
  m ← pure (store32 (u_mem s) a v);
  modify (λ s, mk_uheap (u_env s) m (free_list s)).
Definition rd8 (a : Z) : K uheap Z := s ← gets id; pure (load8 (u_mem s) a).
Definition wr8 (a v : Z) : K uheap unit :=
  s ← gets id;
  m ← pure (store8 (u_mem s) a v);
  modify (λ s, mk_uheap (u_env s) m (free_list s)).
Definition memlimit (a : Z) : K uheap Z := λ s,
  match syscall_memlimit a (u_env s, u_mem s) with
  | Ok (r, (e, m)) => Ok (r, mk_uheap e m (free_list s))
  | Panic msg => Panic msg | Block => Block | Undef => Undef | NoFuel => NoFuel
  end.

(** [block->size] and [block->next] *)
Definition blk_size (block : Z) : K uheap Z := rd block.
Definition set_size (block v : Z) : K uheap unit := wr block v.
Definition blk_next (block : Z) : K uheap Z := rd (block + 4).
Definition set_next (block v : Z) : K uheap unit := wr (block + 4) v.

(** The variable [prev_p] points to: [free_list] when [prev] is 0, else the
    link of block [prev]. *)
Definition set_link (prev v : Z) : K uheap unit :=
  if prev =? 0 then modify (λ s, mk_uheap (u_env s) (u_mem s) v) else set_next prev v.

Definition get_heap_end : K uheap Z := memlimit 0.

(** The size of a block for a request: at least that of the bookkeeping, in
    whole words. *)
Definition round_size (size : Z) : Z :=
  let size := Z.max MIN_ALLOC_SIZE size in
  if negb (size mod 4 =? 0) then u32 (Z.land size (0xffffffff - 3) + 4) else size.

(** The loop over the free list. *)
Fixpoint first_fit (fuel : nat) (prev block size : Z) : K uheap (option Z) :=
  match fuel with
  | O => pure NoFuel
  | S fuel' =>
      if block =? 0 then mret None
      else
        n ← blk_size block;
        if s32 (MIN_ALLOC_SIZE + 4) <=? s32 (n - size - 4) then
          set_size block (u32 (n - u32 (size + 4)));;
          n ← blk_size block;
          let new_block := u32 (block + n) in
          set_size new_block (u32 (size + 4));;
          mret (Some (u32 (new_block + 4)))
        else if u32 (size + 4) <=? n then
          q ← blk_next block;
          set_link prev q;;
          mret (Some (u32 (block + 4)))
        else
          q ← blk_next block;
          first_fit fuel' block q size
  end.

(** No chain of blocks is longer than memory. *)
Definition chain_steps (s : uheap) : nat := S (size (u_mem s)).

Definition malloc (size : Z) : K uheap Z :=
  if size =? 0 then mret 0
  else
    let size := round_size size in
    s ← gets id;
    found ← first_fit (chain_steps s) 0 (free_list s) size;
    match found with
    | Some p => mret p
    | None =>
        heap_end ← get_heap_end;
        let full_size := u32 (4 + size) in
        heap_end_new ← memlimit (u32 (heap_end + full_size));
        if heap_end_new =? 0 then mret 0
        else
          set_size heap_end full_size;;
          mret (u32 (heap_end + 4))
    end.

(** [free] behind the place it has found: insert, then merge with the block
    before and with the block behind. *)
Definition insert_block (prev block cur : Z) : K uheap unit :=
  set_link prev block;;
  set_next block cur;;
  block ← (if prev =? 0 then mret block
           else
             n ← blk_size prev;
             if u32 (block - prev) =? n then
               k ← blk_size block;
               set_size prev (u32 (n + k));;
               set_next prev cur;;
               mret prev
             else mret block);
  if cur =? 0 then mret tt
  else
    n ← blk_size block;
    if u32 (cur - block) =? n then
      k ← blk_size cur;
      set_size block (u32 (n + k));;
      q ← blk_next cur;
      set_next block q
    else mret tt.

(** The loop of [free]. *)
Fixpoint free_loop (fuel : nat) (prev cur block : Z) : K uheap unit :=
  match fuel with
  | O => pure NoFuel
  | S fuel' =>
      if (block <? cur) || (cur =? 0) then insert_block prev block cur
      else
        q ← blk_next cur;
        free_loop fuel' cur q block
  end.

Definition free (ptr : Z) : K uheap unit :=
  if ptr =? 0 then mret tt
  else
    s ← gets id;
    free_loop (chain_steps s) 0 (free_list s) (u32 (ptr - 4)).

Definition calloc (nmemb size : Z) : K uheap Z :=
  let n := u32 (nmemb * size) in
  ptr ← malloc n;
  (if ptr =? 0 then mret tt else for_each (Z.to_nat n) 0 (λ i, wr8 (ptr + i) 0));;
  mret ptr.

Definition realloc (ptr size : Z) : K uheap Z :=
  if ptr =? 0 then malloc size
  else if size =? 0 then free ptr;; mret 0
  else
    new_ptr ← malloc size;
    (if new_ptr =? 0 then mret tt
     else for_each (Z.to_nat size) 0 (λ i, b ← rd8 (ptr + i); wr8 (new_ptr + i) b);; free ptr);;
    mret new_ptr.

End allocator.
