(* ===== verification/UserHeapSpec.v ===== *)
(** * The allocator of user programs keeps blocks apart and their contents *)

From stdpp Require Import gmap sorting.
From S2P Require Import Prelude UserHeap.
Local Open Scope Z_scope.

(** ** Words in memory *)

Definition aligned (a : Z) : Prop := a mod 4 = 0.
Definition owned (m : memory) (a n : Z) : Prop := ∀ x, a ≤ x < a + n → is_Some (m !! x).

Definition upd32 (m : memory) (a v : Z) : memory :=
  <[a + 3 := v mod 2 ^ 8]> (<[a + 2 := v / 2 ^ 8 mod 2 ^ 8]> (<[a + 1 := v / 2 ^ 16 mod 2 ^ 8]> (<[a := v / 2 ^ 24 mod 2 ^ 8]> m))).

Lemma aligned_add a n : aligned a → aligned n → aligned (a + n).
Proof. unfold aligned. intros Ha Hn. rewrite Z.add_mod, Ha, Hn by lia. done. Qed.

Lemma aligned_gap a b : aligned a → aligned b → a < b → a + 4 ≤ b.
Proof.
  unfold aligned. intros Ha Hb Hlt. pose proof (Z.div_mod a 4 ltac:(lia)). pose proof (Z.div_mod b 4 ltac:(lia)). lia.
Qed.

Lemma upd32_lookup m a v x : ¬ (a ≤ x < a + 4) → upd32 m a v !! x = m !! x.
Proof. intros Hx. unfold upd32. rewrite !lookup_insert_ne by lia. done. Qed.

Lemma upd32_owned m a v b n : owned m b n → owned (upd32 m a v) b n.
Proof.
  intros Ho x Hx. unfold upd32. destruct (Ho x Hx) as [y Hy].
  repeat (rewrite lookup_insert; case_decide; [by eexists |]). by eexists.
Qed.

(** No byte is lost. *)
Definition grows (m m' : memory) : Prop := ∀ x, is_Some (m !! x) → is_Some (m' !! x).

Lemma upd32_grows m m' a v : grows m m' → grows m (upd32 m' a v).
Proof.
  intros Hg x Hx. apply (upd32_owned m' a v x 1); [| lia]. intros y Hy. replace y with x by lia. by apply Hg.
Qed.

Lemma store32_Ok m a v : aligned a → owned m a 4 → store32 m a v = Ok (upd32 m a v).
Proof.
  unfold aligned. intros Ha Ho. unfold store32. rewrite Ha. cbn [Z.eqb negb]. unfold bytes32, mbind, res_bind, store8.
  destruct (Ho a) as [b0 ->]; [lia |]. rewrite lookup_insert_ne by lia. destruct (Ho (a + 1)) as [b1 ->]; [lia |].
  rewrite !lookup_insert_ne by lia. destruct (Ho (a + 2)) as [b2 ->]; [lia |].
  rewrite !lookup_insert_ne by lia. destruct (Ho (a + 3)) as [b3 ->]; [lia |]. done.
Qed.

Lemma load32_ext m m' a : (∀ x, a ≤ x < a + 4 → m' !! x = m !! x) → load32 m' a = load32 m a.
Proof. intros He. unfold load32, load8. by rewrite !He by lia. Qed.

Lemma load32_upd m a v b :
  aligned a → aligned b → is_u32 v → load32 (upd32 m a v) b = if decide (a = b) then Ok v else load32 m b.
Proof.
  intros Ha Hb Hv. case_decide as He.
  - subst b. unfold load32, load8. unfold aligned in Ha. rewrite Ha. cbn [Z.eqb negb]. unfold upd32, mbind, res_bind.
    repeat (rewrite ?lookup_insert_eq, ?(lookup_insert_ne _ (a + 3)), ?(lookup_insert_ne _ (a + 2)), ?(lookup_insert_ne _ (a + 1)) by lia).
    by rewrite be32_bytes32.
  - apply load32_ext. intros x Hx. apply upd32_lookup. pose proof (aligned_gap a b Ha Hb). pose proof (aligned_gap b a Hb Ha). lia.
Qed.

(** ** The free list in memory *)

Abbreviation block := (Z * Z)%type.

(** The blocks [l] are linked from [p] on, and the last link is [q]. *)
Fixpoint lseg (m : memory) (p : Z) (l : list block) (q : Z) : Prop :=
  match l with
  | [] => p = q
  | (a, n) :: l' => p = a ∧ load32 m a = Ok n ∧ ∃ r, load32 m (a + 4) = Ok r ∧ lseg m r l' q
  end.

Lemma lseg_app m l1 : ∀ p l2 q, lseg m p (l1 ++ l2) q ↔ ∃ r, lseg m p l1 r ∧ lseg m r l2 q.
Proof.
  induction l1 as [|[a n] l1 IH]; intros p l2 q; simpl; [naive_solver |].
  setoid_rewrite IH. naive_solver.
Qed.

Lemma lseg_ext m m' l : ∀ p q,
  (∀ a n, (a, n) ∈ l → load32 m' a = load32 m a ∧ load32 m' (a + 4) = load32 m (a + 4)) → lseg m p l q → lseg m' p l q.
Proof.
  induction l as [|[a n] l IH]; intros p q He; [done |]. intros (-> & Hn & r & Hr & Hl).
  destruct (He a n) as [E1 E2]; [left |]. split; [done |]. split; [by rewrite E1 |]. exists r. split; [by rewrite E2 |].
  apply IH; [| done]. intros b k Hb. apply (He b k). by right.
Qed.

(** Blocks in the order of their addresses, without overlap. *)
Definition before (b c : block) : Prop := b.1 + b.2 ≤ c.1.
(** Not even adjacent. *)
Definition gap (b c : block) : Prop := b.1 + b.2 < c.1.

Definition apart (a n b k : Z) : Prop := a + n ≤ b ∨ b + k ≤ a.

Record block_ok (top : Z) (m : memory) (a n : Z) : Prop := {
  bo_addr : aligned a ∧ 0 < a;
  bo_size : aligned n ∧ 12 ≤ n;
  bo_top : a + n ≤ top;
  bo_mem : owned m a n;
}.

(** What the allocator maintains below [top]: [fl] is the free list, which
    starts at [p], and [live] the blocks the program holds. *)
Record heap_inv (top : Z) (m : memory) (p : Z) (fl : list block) (live : gmap Z Z) : Prop := {
  hi_list : lseg m p fl 0;
  hi_sorted : StronglySorted before fl;
  hi_free a n : (a, n) ∈ fl → block_ok top m a n;
  hi_live a n : live !! a = Some n → block_ok top m a n ∧ load32 m a = Ok n;
  hi_apart a n b k : live !! a = Some n → live !! b = Some k → a ≠ b → apart a n b k;
  hi_other a n b k : live !! a = Some n → (b, k) ∈ fl → apart a n b k;
  hi_top : top ≤ 2 ^ 31 ∧ aligned top;
}.

(** The blocks of [live] have the same contents. *)
Definition keeps (live : gmap Z Z) (m m' : memory) : Prop :=
  ∀ a n x, live !! a = Some n → a ≤ x < a + n → m' !! x = m !! x.

Lemma keeps_refl live m : keeps live m m.
Proof. done. Qed.

Lemma keeps_trans live m1 m2 m3 : keeps live m1 m2 → keeps live m2 m3 → keeps live m1 m3.
Proof. intros H12 H23 a n x Ha Hx. by rewrite (H23 a n), (H12 a n). Qed.

Lemma keeps_upd live m a v b k :
  (∀ c n, live !! c = Some n → apart c n b k) → b ≤ a → a + 4 ≤ b + k → keeps live m (upd32 m a v).
Proof. intros Hap Hb Hk c n x Hc Hx. apply upd32_lookup. destruct (Hap c n Hc); lia. Qed.

Lemma keeps_live live m m' a n : keeps live m m' → live !! a = Some n → 12 ≤ n → load32 m' a = load32 m a.
Proof. intros Hk Ha Hn. apply load32_ext. intros x Hx. apply (Hk a n); [done | lia]. Qed.

Lemma block_ok_owned top m m' a n : (∀ b k, owned m b k → owned m' b k) → block_ok top m a n → block_ok top m' a n.
Proof. intros Ho []. constructor; auto. Qed.

(** Two blocks of a sorted list are equal or apart. *)
Lemma sorted_apart l a n b k :
  StronglySorted before l → (a, n) ∈ l → (b, k) ∈ l → (a, n) = (b, k) ∨ apart a n b k.
Proof.
  induction 1 as [|[c j] l Hs IH Hf]; [by intros ?%not_elem_of_nil |]. rewrite Forall_forall in Hf.
  intros [[= -> ->]|H1]%elem_of_cons [[= -> ->]|H2]%elem_of_cons; [by left | | | by apply IH].
  - right. left. apply (Hf _ H2).
  - right. right. apply (Hf _ H1).
Qed.

Lemma sorted_split (R : block → block → Prop) l1 b l2 :
  StronglySorted R (l1 ++ b :: l2) ↔
    StronglySorted R l1 ∧ StronglySorted R l2 ∧ (∀ x, x ∈ l1 → R x b) ∧ (∀ y, y ∈ l2 → R b y) ∧ (∀ x y, x ∈ l1 → y ∈ l2 → R x y).
Proof.
  induction l1 as [|x l1 IH]; simpl.
  - split.
    + intros [Hs Hf]%StronglySorted_inv. rewrite Forall_forall in Hf. repeat split; try done; [apply SSorted_nil | by intros ? ?%not_elem_of_nil | by intros ? ? ?%not_elem_of_nil].
    + intros (_ & Hs & _ & Hb & _). constructor; [done | by apply Forall_forall].
  - split.
    + intros [Hs Hf]%StronglySorted_inv. rewrite Forall_forall in Hf. apply IH in Hs as (H1 & H2 & H3 & H4 & H5).
      split_and!; [| done | | done |].
      * constructor; [done |]. apply Forall_forall. intros y Hy. apply Hf. apply elem_of_app. by left.
      * intros y [->|Hy]%elem_of_cons; [| by apply H3]. apply Hf. apply elem_of_app. right. left.
      * intros y z [->|Hy]%elem_of_cons Hz; [| by apply H5]. apply Hf. apply elem_of_app. right. by right.
    + intros ([H1 Hf]%StronglySorted_inv & H2 & H3 & H4 & H5). rewrite Forall_forall in Hf. constructor.
      * apply IH. split_and!; [done | done | | done |]; intros; [apply H3; by right | apply H5; [by right | done]].
      * apply Forall_forall. intros y [Hy|[->|Hy]%elem_of_cons]%elem_of_app; [by apply Hf | apply H3; left | apply H5; [left | done]].
Qed.

(** A write into a word that is not a header word of [l]. *)
Lemma lseg_upd m l p q a v :
  aligned a → is_u32 v → (∀ b k, (b, k) ∈ l → aligned b ∧ a ≠ b ∧ a ≠ b + 4) → lseg m p l q → lseg (upd32 m a v) p l q.
Proof.
  intros Ha Hv Hne. apply lseg_ext. intros b k Hb. destruct (Hne b k Hb) as (Hal & H1 & H2).
  rewrite !load32_upd by (try done; by apply aligned_add). by rewrite !decide_False by done.
Qed.

(** The free blocks around one of the list, and the live blocks. *)
Lemma inv_parts top m p l1 b n l2 live :
  heap_inv top m p (l1 ++ (b, n) :: l2) live →
  block_ok top m b n ∧
  (∃ q, lseg m p l1 b ∧ load32 m b = Ok n ∧ load32 m (b + 4) = Ok q ∧ lseg m q l2 0) ∧
  (∀ a k, (a, k) ∈ l1 → block_ok top m a k ∧ a + k ≤ b) ∧
  (∀ a k, (a, k) ∈ l2 → block_ok top m a k ∧ b + n ≤ a) ∧
  (∀ a k, live !! a = Some k → block_ok top m a k ∧ apart a k b n).
Proof.
  intros [Hl Hs Hf Hlv _ Ho _]. apply sorted_split in Hs as (_ & _ & H1 & H2 & _).
  apply lseg_app in Hl as (r & Hl1 & -> & Hn & q & Hq & Hl2). split_and!.
  - apply Hf. apply elem_of_app. right. left.
  - by exists q.
  - intros a k Ha. split; [| apply (H1 _ Ha)]. apply Hf, elem_of_app. by left.
  - intros a k Ha. split; [| apply (H2 _ Ha)]. apply Hf, elem_of_app. right. by right.
  - intros a k Ha. split; [by apply Hlv |]. apply (Ho _ _ _ _ Ha). apply elem_of_app. right. left.
Qed.

Lemma not_live top m p l1 b n l2 live a :
  heap_inv top m p (l1 ++ (b, n) :: l2) live → b ≤ a < b + n → live !! a = None.
Proof.
  intros Hi Ha. destruct (live !! a) as [k|] eqn:Hk; [| done].
  destruct (inv_parts _ _ _ _ _ _ _ _ Hi) as (_ & _ & _ & _ & Hlv). destruct (Hlv _ _ Hk) as [[_ [_ ?] _ _] Hap].
  unfold apart in Hap. lia.
Qed.

(** A new live block of size [k] where no other block is. *)
Lemma live_insert top m p fl live a k :
  heap_inv top m p fl live → block_ok top m a k → load32 m a = Ok k →
  (∀ b n, live !! b = Some n → apart b n a k) → (∀ b n, (b, n) ∈ fl → apart a k b n) →
  heap_inv top m p fl (<[a := k]> live).
Proof.
  intros [Hl Hs Hf Hlv Hap Ho Ht] Hok Hk Hnl Hnf. constructor; try done.
  - intros b n. rewrite lookup_insert_Some. intros [[<- <-]|[_ Hb]]; [done | by apply Hlv].
  - intros b n c j. rewrite !lookup_insert_Some. intros [[<- <-]|[_ Hb]] [[<- <-]|[_ Hc]] Hne; try done; [| by apply Hnl | by apply Hap].
    destruct (Hnl _ _ Hc); [by right | by left].
  - intros b n c j. rewrite lookup_insert_Some. intros [[<- <-]|[_ Hb]] Hc; [by apply Hnf | by apply (Ho b)].
Qed.

(** Another memory and list for the same blocks. *)
Lemma heap_frame top m p fl live m' p' :
  heap_inv top m p fl live → (∀ b k, owned m b k → owned m' b k) → keeps live m m' → lseg m' p' fl 0 → heap_inv top m' p' fl live.
Proof.
  intros [Hl Hs Hf Hlv Hap Ho Ht] How Hk Hl'. constructor; try done.
  - intros a n Ha. by eapply block_ok_owned, Hf.
  - intros a n Ha. destruct (Hlv _ _ Ha) as [Hok Hn]. split; [by eapply block_ok_owned |].
    by rewrite (keeps_live live m m' a n) by (done || apply Hok).
Qed.

Lemma elem_of_mid (x y : block) l1 l2 : x ∈ l1 ++ y :: l2 ↔ x ∈ l1 ∨ x = y ∨ x ∈ l2.
Proof. rewrite elem_of_app, elem_of_cons. tauto. Qed.

(** A free block gives up its end. *)
Lemma free_shrink top m p l1 b n n' l2 live :
  heap_inv top m p (l1 ++ (b, n) :: l2) live → aligned n' → 12 ≤ n' ≤ n →
  heap_inv top (upd32 m b n') p (l1 ++ (b, n') :: l2) live ∧ keeps live m (upd32 m b n').
Proof.
  intros Hi Hal Hn'. pose proof (inv_parts _ _ _ _ _ _ _ _ Hi) as (Hb & (q & Hl1 & Hn & Hq & Hl2) & H1 & H2 & Hlv).
  destruct Hb as [[Hba Hb0] [Hna _] Hbt Hbm]. pose proof (hi_top _ _ _ _ _ Hi) as [Ht _].
  assert (Hu : is_u32 n') by (unfold is_u32; lia).
  assert (Hk : keeps live m (upd32 m b n')).
  { apply (keeps_upd _ _ _ _ b n); [intros c j Hc; by apply Hlv | lia | lia]. }
  split; [| exact Hk]. destruct Hi as [_ Hs Hf Hlv' Hap Ho Htop]. constructor; try done.
  - apply lseg_app. exists b. split.
    + apply lseg_upd; [done | done | | done]. intros a k Ha. destruct (H1 _ _ Ha) as [[[? ?] [? ?] ? ?] ?]. split; [done | lia].
    + split; [done |]. split; [rewrite load32_upd, decide_True by done; done |]. exists q.
      rewrite load32_upd by (try done; by apply aligned_add). rewrite decide_False by lia. split; [done |].
      apply lseg_upd; [done | done | | done]. intros a k Ha. destruct (H2 _ _ Ha) as [[[? ?] [? ?] ? ?] ?]. split; [done | lia].
  - apply sorted_split in Hs as (S1 & S2 & S3 & S4 & S5). apply sorted_split. split_and!; try done.
    intros y Hy. specialize (S4 y Hy). unfold before in *. simpl in *. lia.
  - intros a k. rewrite elem_of_mid. intros Ha. eapply block_ok_owned; [intros ? ?; apply upd32_owned |].
    destruct Ha as [Ha|[[= -> ->]|Ha]]; [by apply H1 | | by apply H2]. constructor; [done | split; [done | lia] | lia |].
    intros x Hx. apply Hbm. lia.
  - intros a k Ha. destruct (Hlv' _ _ Ha) as [Hok Hk']. split; [eapply block_ok_owned; [intros ? ?; apply upd32_owned | done] |].
    by rewrite (keeps_live live m _ a k) by (done || apply Hok).
  - intros a k c j Ha. rewrite elem_of_mid. intros [Hc|[[= -> ->]|Hc]]; [apply (Ho a k c j Ha), elem_of_mid; tauto | | apply (Ho a k c j Ha), elem_of_mid; tauto].
    destruct (Hlv _ _ Ha) as [_ Hx]. unfold apart in *. lia.
Qed.

(** A block of size [k] is cut off the end of a free block. *)
Lemma split_inv top m p l1 b n k l2 live :
  heap_inv top m p (l1 ++ (b, n) :: l2) live → aligned k → 12 ≤ k → 12 ≤ n - k →
  let m' := upd32 (upd32 m b (n - k)) (b + (n - k)) k in
  heap_inv top m' p (l1 ++ (b, n - k) :: l2) (<[b + (n - k) := k]> live) ∧ keeps live m m' ∧ live !! (b + (n - k)) = None.
Proof.
  intros Hi Hal Hk Hnk m'. pose proof (inv_parts _ _ _ _ _ _ _ _ Hi) as (Hb & _ & H1 & H2 & Hlv).
  destruct Hb as [[Hba Hb0] [Hna _] Hbt Hbm]. pose proof (hi_top _ _ _ _ _ Hi) as [Ht _].
  assert (Hnka : aligned (n - k)).
  { unfold aligned in *. rewrite Zminus_mod, Hna, Hal. done. }
  assert (Hna' : aligned (b + (n - k))) by (by apply aligned_add).
  assert (Hnone : live !! (b + (n - k)) = None) by (eapply not_live; [exact Hi | lia]).
  destruct (free_shrink _ _ _ _ _ _ (n - k) _ _ Hi Hnka) as [Hi1 Hk1]; [lia |]. set (m1 := upd32 m b (n - k)) in *.
  assert (Hk2 : keeps live m1 m').
  { apply (keeps_upd _ _ _ _ b n); [intros c j Hc; by apply Hlv | lia | lia]. }
  split; [| split; [by eapply keeps_trans | done]].
  assert (Hi2 : heap_inv top m' p (l1 ++ (b, n - k) :: l2) live).
  { eapply heap_frame; [exact Hi1 | intros ? ?; apply upd32_owned | exact Hk2 |].
    apply lseg_upd; [done | unfold is_u32; lia | | apply Hi1]. intros a j.
    rewrite elem_of_mid. intros [Ha|[[= -> ->]|Ha]]; [| split; [done | lia] |].
    - destruct (H1 _ _ Ha) as [[[? ?] [? ?] ? ?] ?]. split; [done | lia].
    - destruct (H2 _ _ Ha) as [[[? ?] [? ?] ? ?] ?]. split; [done | lia]. }
  apply live_insert; [done | | | |].
  - constructor; [split; [done | lia] | done | lia |]. do 2 apply upd32_owned. intros x Hx. apply Hbm. lia.
  - unfold m'. rewrite load32_upd, decide_True by (try done; unfold is_u32; lia). done.
  - intros c j Hc. destruct (Hlv _ _ Hc) as [_ Hx]. unfold apart in *. lia.
  - intros c j. rewrite elem_of_mid. intros [Hc|[[= -> ->]|Hc]]; [destruct (H1 _ _ Hc) | | destruct (H2 _ _ Hc)]; unfold apart; lia.
Qed.

(** The address of the last block of a list, 0 for none, and the memory and
    the start of a list whose last link is set to [v]. *)
Definition prev_of (l : list block) : Z := from_option fst 0 (last l).
Definition relinked (l : list block) (v : Z) (m : memory) (p : Z) : memory * Z :=
  match last l with None => (m, v) | Some b => (upd32 m (b.1 + 4) v, p) end.

Lemma lseg_relink l v m p r :
  StronglySorted before l → (∀ a n, (a, n) ∈ l → aligned a ∧ 12 ≤ n) → is_u32 v → lseg m p l r →
  lseg (relinked l v m p).1 (relinked l v m p).2 l v.
Proof.
  intros Hs Hok Hv Hl. unfold relinked. destruct l as [|[a n] l _] using rev_ind; [done |]. rewrite last_snoc. cbn [fst snd].
  apply lseg_app in Hl as (x & Hl & -> & Hn & y & Hy & _). apply sorted_split in Hs as (_ & _ & Hb & _).
  destruct (Hok a n) as [Ha ?]; [apply elem_of_app; right; by left |].
  assert (Ha4 : aligned (a + 4)) by (by apply aligned_add).
  apply lseg_app. exists a. split.
  - apply lseg_upd; [done | done | | done]. intros c k Hc. destruct (Hok c k) as [Hca ?]; [apply elem_of_app; by left |].
    pose proof (Hb _ Hc) as Hlt. unfold before in Hlt. simpl in Hlt. split; [done | lia].
  - split; [done |]. split; [rewrite load32_upd, decide_False by (done || lia); done |]. exists v.
    rewrite load32_upd, decide_True by done. done.
Qed.

Lemma relinked_lookup l v m p x :
  (∀ a n, (a, n) ∈ l → ¬ (a + 4 ≤ x < a + 8)) → (relinked l v m p).1 !! x = m !! x.
Proof.
  intros Hne. unfold relinked. destruct l as [|[a n] l _] using rev_ind; [done |]. rewrite last_snoc. cbn [fst snd].
  apply upd32_lookup. intros Hx. apply (Hne a n); [apply elem_of_app; right; by left | lia].
Qed.

Lemma relinked_owned l v m p b k : owned m b k → owned (relinked l v m p).1 b k.
Proof. intros Ho. unfold relinked. destruct (last l); [by apply upd32_owned | done]. Qed.

(** The words of other blocks stay. *)
Lemma relinked_load l v m p a :
  aligned a → (∀ b n, (b, n) ∈ l → aligned b ∧ a ≠ b + 4) → load32 (relinked l v m p).1 a = load32 m a.
Proof.
  intros Ha Hne. apply load32_ext. intros x Hx. apply relinked_lookup. intros b n Hb Hx'. destruct (Hne b n Hb) as [Hba Hn].
  assert (Hb4 : aligned (b + 4)) by (by apply aligned_add).
  pose proof (aligned_gap a (b + 4) Ha Hb4). pose proof (aligned_gap (b + 4) a Hb4 Ha). lia.
Qed.

Lemma sorted_drop (R : block → block → Prop) l1 b l2 : StronglySorted R (l1 ++ b :: l2) → StronglySorted R (l1 ++ l2).
Proof.
  induction l1 as [|x l1 IH]; simpl; [by intros [? _]%StronglySorted_inv |]. intros [Hs Hf]%StronglySorted_inv.
  constructor; [by apply IH |]. rewrite Forall_forall in *. intros y Hy. apply Hf. apply elem_of_mid. apply elem_of_app in Hy. tauto.
Qed.

(** A free block is taken from the list as it is. *)
Lemma take_inv top m p l1 b n q l2 live :
  heap_inv top m p (l1 ++ (b, n) :: l2) live → load32 m (b + 4) = Ok q → is_u32 q →
  let x := relinked l1 q m p in
  heap_inv top x.1 x.2 (l1 ++ l2) (<[b := n]> live) ∧ keeps live m x.1 ∧ live !! b = None.
Proof.
  intros Hi Hq Hqu x. pose proof (inv_parts _ _ _ _ _ _ _ _ Hi) as (Hb & (q' & Hl1 & Hn & Hq' & Hl2) & H1 & H2 & Hlv).
  assert (q' = q) as -> by congruence. pose proof (hi_top _ _ _ _ _ Hi) as [Ht _]. destruct Hb as [[Hba Hb0] [Hna ?] Hbt Hbm].
  assert (Hnone : live !! b = None) by (eapply not_live; [exact Hi | lia]).
  assert (Hk : keeps live m x.1).
  { intros c j y Hc Hy. apply relinked_lookup. intros a k Ha Hy'. destruct (H1 _ _ Ha) as [[_ [_ ?] _ _] _].
    destruct (hi_other _ _ _ _ _ Hi c j a k Hc); [apply elem_of_mid; by left | lia ..]. }
  split; [| split; [exact Hk | done]].
  assert (Hi1 : heap_inv top x.1 x.2 (l1 ++ l2) live).
  { pose proof Hi as [_ Hs Hf Hlv' Hap Ho Htop]. constructor; try done.
    - apply lseg_app. exists q. split.
      + apply (lseg_relink _ _ _ _ b); [by apply sorted_split in Hs as (? & _) | | done | done].
        intros a k Ha. destruct (H1 _ _ Ha) as [[[? _] [_ ?] _ _] _]. done.
      + eapply lseg_ext; [| exact Hl2]. intros a k Ha. destruct (H2 _ _ Ha) as [[[? _] [_ ?] _ _] ?].
        split; apply relinked_load; try done; try (by apply aligned_add); intros c j Hc; destruct (H1 _ _ Hc) as [[[? _] [_ ?] _ _] ?]; (split; [done | lia]).
    - by eapply sorted_drop.
    - intros a k Ha. eapply block_ok_owned; [intros ? ?; apply relinked_owned |]. apply Hf, elem_of_mid. apply elem_of_app in Ha. tauto.
    - intros a k Ha. destruct (Hlv' _ _ Ha) as [Hok Hk']. split; [eapply block_ok_owned; [intros ? ?; apply relinked_owned | done] |].
      by rewrite (keeps_live live m _ a k) by (done || apply Hok).
    - intros a k c j Ha Hc. apply (Ho a k c j Ha), elem_of_mid. apply elem_of_app in Hc. tauto. }
  apply live_insert; [done | | | |].
  - constructor; [done | done | done |]. by apply relinked_owned.
  - unfold x. rewrite relinked_load; [done | done |]. intros c j Hc. destruct (H1 _ _ Hc) as [[[? _] [_ ?] _ _] ?]. split; [done | lia].
  - intros c j Hc. apply Hlv, Hc.
  - intros c j. rewrite elem_of_app. intros [Hc|Hc]; [destruct (H1 _ _ Hc) | destruct (H2 _ _ Hc)]; unfold apart; lia.
Qed.

(** The start of the rest of a list. *)
Definition next_of (l : list block) : Z := from_option fst 0 (head l).

Lemma lseg_next m p l : lseg m p l 0 → p = next_of l.
Proof. destruct l as [|[a n] l]; [done |]. by intros [-> _]. Qed.

(** The list with a block put in, for blocks in their order. *)
Lemma put_lseg m p l1 b k l2 :
  lseg m p (l1 ++ l2) 0 → StronglySorted before l1 → load32 m b = Ok k → aligned b → is_u32 b → is_u32 (next_of l2) → 12 ≤ k →
  (∀ a n, (a, n) ∈ l1 → aligned a ∧ 12 ≤ n ∧ a + n ≤ b) → (∀ a n, (a, n) ∈ l2 → aligned a ∧ b + k ≤ a) →
  let x := relinked l1 b m p in lseg (upd32 x.1 (b + 4) (next_of l2)) x.2 (l1 ++ (b, k) :: l2) 0.
Proof.
  intros (r & Hl1 & Hl2)%lseg_app Hs Hbk Hba Hbu Hnu Hk H1 H2 x. pose proof (lseg_next _ _ _ Hl2) as ->.
  assert (Hb4 : aligned (b + 4)) by (by apply aligned_add).
  assert (Hx : ∀ c, aligned c → b ≤ c → load32 x.1 c = load32 m c).
  { intros c Hc Hbc. apply relinked_load; [done |]. intros a n Ha. destruct (H1 _ _ Ha) as (? & ? & ?). split; [done | lia]. }
  apply lseg_app. exists b. split.
  - apply lseg_upd; [done | done | |].
    + intros a n Ha. destruct (H1 _ _ Ha) as (? & ? & ?). split; [done | lia].
    + apply (lseg_relink _ _ _ _ (next_of l2)); [done | | done | done]. intros a n Ha. destruct (H1 _ _ Ha) as (? & ? & ?). done.
  - split; [done |]. split; [rewrite load32_upd, decide_False by (done || lia); rewrite Hx by (done || lia); done |].
    exists (next_of l2). split; [rewrite load32_upd, decide_True by done; done |].
    eapply lseg_ext; [| exact Hl2]. intros a n Ha. destruct (H2 _ _ Ha) as [? ?].
    assert (aligned (a + 4)) by (by apply aligned_add). rewrite !load32_upd, !decide_False by (done || lia).
    rewrite !Hx by (done || lia). done.
Qed.

(** A live block is put between two parts of the free list. *)
Lemma put_inv top m p l1 b k l2 live :
  heap_inv top m p (l1 ++ l2) live → live !! b = Some k →
  (∀ a n, (a, n) ∈ l1 → a < b) → (∀ a n, (a, n) ∈ l2 → b < a) →
  let x := relinked l1 b m p in
  let m' := upd32 x.1 (b + 4) (next_of l2) in
  heap_inv top m' x.2 (l1 ++ (b, k) :: l2) (delete b live) ∧ keeps (delete b live) m m'.
Proof.
  intros Hi Hb Hlt1 Hlt2 x m'. pose proof Hi as [Hl Hs Hf Hlv Hap Ho [Ht Hta]].
  destruct (Hlv _ _ Hb) as [[[Hba Hb0] [Hka Hk] Hbt Hbm] Hbk].
  assert (H1 : ∀ a n, (a, n) ∈ l1 → block_ok top m a n ∧ a + n ≤ b).
  { intros a n Ha. assert (Hin : (a, n) ∈ l1 ++ l2) by (apply elem_of_app; by left). split; [by apply Hf |].
    pose proof (Hlt1 _ _ Ha). destruct (Ho _ _ _ _ Hb Hin); lia. }
  assert (H2 : ∀ a n, (a, n) ∈ l2 → block_ok top m a n ∧ b + k ≤ a).
  { intros a n Ha. assert (Hin : (a, n) ∈ l1 ++ l2) by (apply elem_of_app; by right). split; [by apply Hf |].
    pose proof (Hlt2 _ _ Ha). destruct (Hf _ _ Hin) as [_ [_ ?] _ _]. destruct (Ho _ _ _ _ Hb Hin); lia. }
  assert (Hk' : keeps (delete b live) m m').
  { intros c j y Hc Hy. apply lookup_delete_Some in Hc as [Hne Hc]. unfold m'. rewrite upd32_lookup.
    - apply relinked_lookup. intros a n Ha Hy'. destruct (H1 _ _ Ha) as [[_ [_ ?] _ _] _].
      destruct (Ho c j a n Hc); [apply elem_of_app; by left | lia ..].
    - destruct (Hap c j b k Hc Hb); [done | lia ..]. }
  assert (How : ∀ c j, owned m c j → owned m' c j) by (intros; by apply upd32_owned, relinked_owned).
  pose proof (StronglySorted_app_1_l _ _ _ Hs) as Hs1. pose proof (StronglySorted_app_1_r _ _ _ Hs) as Hs2.
  split; [| exact Hk']. constructor; try done.
  - apply put_lseg; try done; [unfold is_u32; lia | | |].
    + unfold is_u32, next_of. destruct l2 as [|[a n] l2]; [simpl; lia |]. destruct (H2 a n) as [[[_ ?] [_ ?] ? _] _]; [left |]. simpl. lia.
    + intros a n Ha. destruct (H1 _ _ Ha) as [[[? _] [_ ?] _ _] ?]. done.
    + intros a n Ha. destruct (H2 _ _ Ha) as [[[? _] [_ ?] _ _] ?]. done.
  - apply sorted_split. split_and!; [done | done | intros [a n] Ha; apply (H1 _ _ Ha) | intros [a n] Ha; apply (H2 _ _ Ha) |].
    intros [a n] [c j] Ha Hc. destruct (H1 _ _ Ha), (H2 _ _ Hc). unfold before. simpl. lia.
  - intros a n. rewrite elem_of_mid. intros Ha. apply (block_ok_owned top m); [done |].
    destruct Ha as [Ha|[[= -> ->]|Ha]]; [by apply H1 | | by apply H2]. by constructor.
  - intros a n Ha. pose proof Ha as Ha'. apply lookup_delete_Some in Ha' as [_ Ha']. destruct (Hlv _ _ Ha') as [Hok Hn].
    split; [by apply (block_ok_owned top m) |]. by rewrite (keeps_live (delete b live) m _ a n) by (done || apply Hok).
  - intros a n c j [_ Ha]%lookup_delete_Some [_ Hc]%lookup_delete_Some. by apply Hap.
  - intros a n c j [Hne Ha]%lookup_delete_Some. rewrite elem_of_mid. intros [Hc|[[= -> ->]|Hc]]; [| by apply Hap |]; apply (Ho a n c j Ha), elem_of_app; tauto.
Qed.

(** Two adjacent free blocks become one. *)
Lemma merge_inv top m p l1 a n c k q l2 live :
  heap_inv top m p (l1 ++ (a, n) :: (c, k) :: l2) live → a + n = c → load32 m (c + 4) = Ok q → is_u32 q →
  let m' := upd32 (upd32 m a (n + k)) (a + 4) q in
  heap_inv top m' p (l1 ++ (a, n + k) :: l2) live ∧ keeps live m m'.
Proof.
  intros Hi Hac Hq Hqu m'. pose proof (inv_parts _ _ _ _ _ _ _ _ Hi) as (Ha & (r & Hl1 & Hn & Hr & Hl2) & H1 & H2 & Hlv).
  destruct Ha as [[Haa Ha0] [Hna Hn12] Hat Ham]. pose proof (hi_top _ _ _ _ _ Hi) as [Ht _].
  destruct (H2 c k) as [[[Hca _] [Hka Hk12] Hct Hcm] _]; [left |].
  destruct Hl2 as (-> & Hck & q' & Hq' & Hl2). assert (q' = q) as -> by congruence.
  assert (Ha4 : aligned (a + 4)) by (by apply aligned_add). assert (Hu : is_u32 (n + k)) by (unfold is_u32; lia).
  pose proof Hi as [_ Hs Hf Hlv' Hap Ho Htop]. apply sorted_split in Hs as (S1 & S2 & S3 & S4 & S5).
  apply StronglySorted_inv in S2 as [S2 Sf]. rewrite Forall_forall in Sf.
  assert (Hc : ∀ b j, (b, j) ∈ l2 → aligned b ∧ c + k ≤ b).
  { intros b j Hb. split; [by apply (H2 b j); right |]. apply (Sf _ Hb). }
  assert (Hk' : keeps live m m').
  { apply (keeps_trans _ _ (upd32 m a (n + k))); apply (keeps_upd _ _ _ _ a n); try lia; intros b j Hb; by apply Hlv. }
  split; [| exact Hk']. constructor; try done.
  - apply lseg_app. exists a. split; [| split; [done |]; split; [| exists q; split]].
    + do 2 (apply lseg_upd; [done | done | intros b j Hb; destruct (H1 _ _ Hb) as [[[? _] [_ ?] _ _] ?]; split; [done | lia] |]). done.
    + unfold m'. rewrite load32_upd, decide_False by (done || lia). rewrite load32_upd, decide_True by done. done.
    + unfold m'. rewrite load32_upd, decide_True by done. done.
    + do 2 (apply lseg_upd; [done | done | intros b j Hb; destruct (Hc _ _ Hb); split; [done | lia] |]). done.
  - apply sorted_split. split_and!; [done | done | done | | intros x y Hx Hy; apply S5; [done | by right]].
    intros [b j] Hb. unfold before. simpl. destruct (Hc _ _ Hb). lia.
  - intros b j. rewrite elem_of_mid. intros Hb. apply (block_ok_owned top m); [intros; by do 2 apply upd32_owned |].
    destruct Hb as [Hb|[[= -> ->]|Hb]]; [by apply H1 | | by apply (H2 b j); right].
    constructor; [done | split; [by apply aligned_add | lia] | lia |]. intros x Hx.
    destruct (decide (x < c)); [apply Ham; lia | apply Hcm; lia].
  - intros b j Hb. destruct (Hlv' _ _ Hb) as [Hok Hj]. split; [apply (block_ok_owned top m); [intros; by do 2 apply upd32_owned | done] |].
    by rewrite (keeps_live live m _ b j) by (done || apply Hok).
  - intros b j d i Hb. rewrite elem_of_mid. intros [Hd|[[= -> ->]|Hd]]; [apply (Ho b j d i Hb), elem_of_mid; tauto | |].
    + destruct (Hlv _ _ Hb) as [[_ [_ ?] _ _] Hx]. assert (Hy : apart b j c k) by (apply (Ho b j c k Hb), elem_of_mid; right; right; left).
      unfold apart in *. lia.
    + apply (Ho b j d i Hb), elem_of_mid. right. right. by right.
Qed.

(** The heap grows by a block. *)
Lemma grow_inv top m p fl live m' k :
  heap_inv top m p fl live → m ⊆ m' → aligned k → 12 ≤ k → top + k ≤ 2 ^ 31 → 0 < top → owned m' top k →
  let m'' := upd32 m' top k in
  heap_inv (top + k) m'' p fl (<[top := k]> live) ∧ keeps live m m'' ∧ live !! top = None.
Proof.
  intros [Hl Hs Hf Hlv Hap Ho [Ht Hta]] Hsub Hka Hk Hmax Htop How m''.
  assert (Hin : ∀ x, x < top → is_Some (m !! x) → m'' !! x = m !! x).
  { intros x Hx [y Hy]. unfold m''. rewrite upd32_lookup by lia. rewrite Hy. by apply (lookup_weaken m). }
  assert (Hblk : ∀ a n, block_ok top m a n → block_ok (top + k) m'' a n).
  { intros a n [Haa Hna Hat Ham]. constructor; [done | done | lia |]. intros x Hx. rewrite Hin by (lia || by apply Ham). by apply Ham. }
  assert (Hld : ∀ a n b, block_ok top m a n → a ≤ b → b + 4 ≤ a + n → load32 m'' b = load32 m b).
  { intros a n b [_ _ Hat Ham] Hab Hbn. apply load32_ext. intros x Hx. apply Hin; [lia | apply Ham; lia]. }
  assert (Hk' : keeps live m m'').
  { intros a n x Ha Hx. destruct (Hlv _ _ Ha) as [[_ _ Hat Ham] _]. apply Hin; [lia | by apply Ham]. }
  assert (Hnone : live !! top = None).
  { destruct (live !! top) as [n|] eqn:E; [| done]. destruct (Hlv _ _ E) as [[_ [_ ?] ? _] _]. lia. }
  split; [| split; [exact Hk' | done]]. apply live_insert.
  - constructor; try done.
    + eapply lseg_ext; [| exact Hl]. intros a n Ha. pose proof (Hf _ _ Ha) as Hok. destruct (bo_size _ _ _ _ Hok).
      split; apply (Hld a n); (done || lia).
    + intros a n Ha. by apply Hblk, Hf.
    + intros a n Ha. destruct (Hlv _ _ Ha) as [Hok Hn]. split; [by apply Hblk |]. rewrite (Hld a n) by (done || destruct Hok as [_ [_ ?] _ _]; lia). done.
    + split; [lia | by apply aligned_add].
  - constructor; [done | done | lia | by apply upd32_owned].
  - unfold m''. rewrite load32_upd, decide_True by (done || unfold is_u32; lia). done.
  - intros a n Ha. left. apply Hlv, Ha.
  - intros a n Ha. right. apply Hf, Ha.
Qed.

(** ** The operations *)

(** What [syscall_memlimit] promises.  When it fails, nothing more is promised
    about later calls. *)
Class MemlimitLaws (E : Type) `{Memlimit E} := {
  heap_top : E → Z;
  limit_ok : E → Prop;
  limit_pos e : limit_ok e → 0 < heap_top e;
  memlimit_null e m : limit_ok e → syscall_memlimit 0 (e, m) = Ok (heap_top e, (e, m));
  memlimit_grow e m a :
    limit_ok e → heap_top e < a < 2 ^ 32 →
    ∃ r e' m', syscall_memlimit a (e, m) = Ok (r, (e', m')) ∧ m ⊆ m' ∧
      (r = 0 ∨ r = a ∧ a ≤ 2 ^ 31 ∧ limit_ok e' ∧ heap_top e' = a ∧ owned m' (heap_top e) (a - heap_top e));
}.

Section operations.
Context {E : Type} `{MemlimitLaws E}.
Abbreviation heap := (@uheap E).

Lemma rd_wp (s : heap) a v (Q : Z → heap → Prop) : load32 (u_mem s) a = Ok v → Q v s → wp (rd a) Q s.
Proof. intros Hv HQ. unfold rd. do 2 wp_step. unfold id. by eapply wp_pure. Qed.

Lemma wr_wp (s : heap) a v (Q : unit → heap → Prop) :
  aligned a → owned (u_mem s) a 4 → Q tt (mk_uheap (u_env s) (upd32 (u_mem s) a v) (free_list s)) → wp (wr a v) Q s.
Proof. intros Ha Ho HQ. unfold wr. do 2 wp_step. unfold id. wp_step. eapply wp_pure; [by apply store32_Ok |]. by wp_step. Qed.

Lemma rd8_wp (s : heap) a v (Q : Z → heap → Prop) : u_mem s !! a = Some v → Q v s → wp (rd8 a) Q s.
Proof. intros Hv HQ. unfold rd8. do 2 wp_step. unfold id. eapply wp_pure; [unfold load8; by rewrite Hv | done]. Qed.

Lemma wr8_wp (s : heap) a v (Q : unit → heap → Prop) :
  is_Some (u_mem s !! a) → Q tt (mk_uheap (u_env s) (<[a := v]> (u_mem s)) (free_list s)) → wp (wr8 a v) Q s.
Proof.
  intros [x Hx] HQ. unfold wr8. do 2 wp_step. unfold id. wp_step. eapply wp_pure; [unfold store8; by rewrite Hx |]. by wp_step.
Qed.

Lemma set_link_wp (s : heap) l v (Q : unit → heap → Prop) :
  (∀ a n, (a, n) ∈ l → aligned a ∧ 0 < a ∧ owned (u_mem s) a 8) →
  (let x := relinked l v (u_mem s) (free_list s) in Q tt (mk_uheap (u_env s) x.1 x.2)) → wp (set_link (prev_of l) v) Q s.
Proof.
  intros Hok. unfold set_link, prev_of, relinked. destruct l as [|[a n] l _] using rev_ind; [intros HQ; simpl; by wp_step |].
  rewrite last_snoc. cbn [from_option fst snd]. intros HQ. destruct (Hok a n) as (Ha & Ha0 & How); [apply elem_of_app; right; by left |].
  rewrite (proj2 (Z.eqb_neq a 0)) by lia. apply wr_wp; [by apply aligned_add | intros x Hx; apply How; lia | done].
Qed.

(** The first block of the free list that is large enough, split if possible. *)
Definition got (live : gmap Z Z) (size : Z) (s : heap) (p : Z) (s' : heap) : Prop :=
  ∃ n fl', aligned p ∧ 0 < p ∧ size + 4 ≤ n ∧ live !! (p - 4) = None ∧
    heap_inv (heap_top (u_env s')) (u_mem s') (free_list s') fl' (<[p - 4 := n]> live) ∧ StronglySorted gap fl' ∧
    keeps live (u_mem s) (u_mem s') ∧ grows (u_mem s) (u_mem s').

Lemma first_fit_wp size live top fl (s : heap) fuel : ∀ l1 l2,
  fl = l1 ++ l2 → heap_inv top (u_mem s) (free_list s) fl live → StronglySorted gap fl → top = heap_top (u_env s) →
  (length l2 < fuel)%nat → aligned size → 8 ≤ size ≤ 2 ^ 31 - 12 →
  wp (first_fit fuel (prev_of l1) (next_of l2) size) (λ r s', u_env s' = u_env s ∧
    match r with None => s' = s | Some p => got live size s p s' end) s.
Proof.
  induction fuel as [|fuel IH]; intros l1 l2 -> Hi Hg -> Hlen Hal Hsz; [lia |]. cbn [first_fit].
  destruct l2 as [|[b n] l2]; [simpl; by wp_step |]. cbn [next_of head from_option fst].
  pose proof (inv_parts _ _ _ _ _ _ _ _ Hi) as (Hb & (q & Hl1 & Hn & Hq & Hl2) & H1 & H2 & Hlv).
  pose proof (hi_top _ _ _ _ _ Hi) as [Htop _]. pose proof Hb as [[Hba Hb0] [Hna Hn12] Hbt Hbm].
  assert (Hqu : is_u32 q).
  { pose proof (lseg_next _ _ _ Hl2) as ->. unfold is_u32, next_of. destruct l2 as [|[a k] l2]; [simpl; lia |].
    destruct (H2 a k) as [[[_ ?] [_ ?] ? _] _]; [left |]. simpl. lia. }
  assert (Hk4 : aligned (size + 4)) by (by apply aligned_add).
  rewrite (proj2 (Z.eqb_neq b 0)) by lia. wp_step. eapply rd_wp; [exact Hn |].
  change (s32 (MIN_ALLOC_SIZE + 4)) with 12. rewrite (s32_small (n - size - 4)) by (unfold is_s32; lia).
  rewrite (u32_small (size + 4)) by (unfold is_u32; lia). destruct (Z.leb_spec 12 (n - size - 4)) as [Hc|Hc].
  - destruct (split_inv _ _ _ _ _ _ (size + 4) _ _ Hi Hk4) as (Hi' & Hk' & Hnone); [lia | lia |].
    rewrite (u32_small (n - (size + 4))) by (unfold is_u32; lia).
    wp_step. apply wr_wp; [done | intros x Hx; apply Hbm; lia |]. wp_step.
    eapply rd_wp; [cbn [u_mem]; rewrite load32_upd, decide_True by (done || unfold is_u32; lia); done |]. cbv beta.
    rewrite (u32_small (b + (n - (size + 4)))) by (unfold is_u32; lia). wp_step.
    assert (Hal2 : aligned (b + (n - (size + 4)))).
    { apply aligned_add; [done |]. unfold aligned in *. rewrite Zminus_mod, Hna, Hk4. done. }
    apply wr_wp; [done | apply upd32_owned; intros x Hx; apply Hbm; lia |]. wp_step. cbn [u_mem u_env free_list].
    rewrite (u32_small (b + (n - (size + 4)) + 4)) by (unfold is_u32; lia). split; [done |].
    exists (size + 4), (l1 ++ (b, n - (size + 4)) :: l2). replace (b + (n - (size + 4)) + 4 - 4) with (b + (n - (size + 4))) by lia.
    split_and!; [by apply aligned_add | lia | lia | done | done | | done | do 2 apply upd32_grows; by intros x].
    apply sorted_split in Hg as (? & ? & ? & Hy & ?). apply sorted_split. split_and!; try done.
    intros y Hin. specialize (Hy y Hin). unfold gap in *. simpl in *. lia.
  - destruct (Z.leb_spec (size + 4) n) as [Hc2|Hc2].
    + destruct (take_inv _ _ _ _ _ _ _ _ _ Hi Hq Hqu) as (Hi' & Hk' & Hnone). wp_step. eapply rd_wp; [exact Hq |].
      wp_step. apply set_link_wp.
      { intros a k Ha. destruct (H1 _ _ Ha) as [[[? ?] [_ ?] _ Hm] _]. split_and!; [done | done |]. intros x Hx. apply Hm. lia. }
      cbv zeta. wp_step. rewrite (u32_small (b + 4)) by (unfold is_u32; lia). split; [done |].
      exists n, (l1 ++ l2). replace (b + 4 - 4) with b by lia.
      split_and!; [by apply aligned_add | lia | lia | done | done | by eapply sorted_drop | done |].
      cbn [u_mem]. unfold relinked. destruct (last l1); [apply upd32_grows |]; by intros x.
    + wp_step. eapply rd_wp; [exact Hq |]. pose proof (lseg_next _ _ _ Hl2) as ->.
      replace b with (prev_of (l1 ++ [(b, n)])) by (unfold prev_of; by rewrite last_snoc).
      apply IH; [by rewrite <- app_assoc | done | done | done | simpl in Hlen; lia | done | done].
Qed.

(** *** Requests *)

Lemma land_mask size : is_u32 size → Z.land size (0xffffffff - 3) = size - size mod 4.
Proof.
  intros Hu. transitivity (Z.ldiff (Z.land size (Z.ones 32)) (Z.ones 2)).
  - change (0xffffffff - 3) with (Z.ldiff (Z.ones 32) (Z.ones 2)). apply Z.bits_inj'. intros n Hn.
    rewrite Z.land_spec, !Z.ldiff_spec, Z.land_spec. by rewrite andb_assoc.
  - rewrite Z.land_ones, Z.mod_small by (done || lia). rewrite Z.ldiff_ones_r, Z.shiftl_mul_pow2, Z.shiftr_div_pow2 by lia.
    change (2 ^ 2) with 4. pose proof (Z.div_mod size 4 ltac:(lia)). lia.
Qed.

Lemma round_size_ok size :
  0 < size ≤ 2 ^ 31 - 16 → aligned (round_size size) ∧ size ≤ round_size size ∧ 8 ≤ round_size size ≤ 2 ^ 31 - 12.
Proof.
  intros Hs. unfold round_size, MIN_ALLOC_SIZE, aligned. set (z := Z.max 8 size). assert (Hz : 8 ≤ z ≤ 2 ^ 31 - 16) by lia.
  pose proof (Z.mod_pos_bound z 4 ltac:(lia)). destruct (Z.eqb_spec (z mod 4) 0) as [He|He]; cbn [negb]; [lia |].
  rewrite land_mask by (unfold is_u32; lia). rewrite u32_small by (unfold is_u32; lia).
  split; [| lia]. replace (z - z mod 4 + 4) with ((z / 4 + 1) * 4) by (pose proof (Z.div_mod z 4 ltac:(lia)); lia). apply Z.mod_mul. lia.
Qed.

Lemma free_list_fits top m p fl live : heap_inv top m p fl live → (length fl ≤ size m)%nat.
Proof.
  intros Hi. rewrite <- size_dom, <- (length_fmap fst fl).
  assert (Hnd : NoDup (fst <$> fl)).
  { pose proof (hi_sorted _ _ _ _ _ Hi) as Hs. assert (Hf : ∀ a n, (a, n) ∈ fl → 12 ≤ n) by (intros a n Ha; apply (bo_size _ _ _ _ (hi_free _ _ _ _ _ Hi a n Ha))).
    clear Hi. induction Hs as [|[a n] l Hs IH Hall]; [constructor |]. rewrite Forall_forall in Hall. simpl. constructor.
    - intros ([b k] & Eb & Hin)%list_elem_of_fmap. simpl in Eb. subst b. pose proof (Hall _ Hin) as Hb. unfold before in Hb. simpl in Hb.
      pose proof (Hf a n ltac:(left)). lia.
    - apply IH. intros b k Hin. apply (Hf b k). by right. }
  rewrite <- (size_list_to_set (C := gset Z) _ Hnd). apply subseteq_size. intros x ([a n] & -> & Hin)%elem_of_list_to_set%list_elem_of_fmap.
  destruct (hi_free _ _ _ _ _ Hi a n Hin) as [_ [_ ?] _ Hm]. apply elem_of_dom, Hm. simpl. lia.
Qed.

(** A heap as the program sees it: between calls no two free blocks touch. *)
Definition heap_is (s : heap) (live : gmap Z Z) : Prop :=
  limit_ok (u_env s) ∧ ∃ fl, heap_inv (heap_top (u_env s)) (u_mem s) (free_list s) fl live ∧ StronglySorted gap fl.

Lemma malloc_wp (s : heap) live size :
  heap_is s live → 0 < size ≤ 2 ^ 31 - 16 →
  wp (malloc size) (λ p s',
    (p = 0 ∧ u_mem s ⊆ u_mem s') ∨
    (∃ n, aligned p ∧ 0 < p ∧ size + 4 ≤ n ∧ live !! (p - 4) = None ∧ heap_is s' (<[p - 4 := n]> live) ∧
      keeps live (u_mem s) (u_mem s') ∧ grows (u_mem s) (u_mem s'))) s.
Proof.
  intros (Hlim & fl & Hi & Hg) Hs. destruct (round_size_ok size Hs) as (Hal & Hle & Hrs). unfold malloc.
  rewrite (proj2 (Z.eqb_neq size 0)) by lia. set (z := round_size size) in *. do 2 wp_step. unfold id. wp_step.
  pose proof (lseg_next _ _ _ (hi_list _ _ _ _ _ Hi)) as Hfl. rewrite Hfl.
  eapply wp_mono; [apply (first_fit_wp z live (heap_top (u_env s)) fl s _ [] fl); try done; unfold chain_steps; pose proof (free_list_fits _ _ _ _ _ Hi); lia |].
  intros [p|] s1 [He Hs1].
  - wp_step. right. destruct Hs1 as (n & fl' & Hp & Hp0 & Hn & Hnone & Hi' & Hg' & Hk & Hgr). exists n.
    do 2 (split; [done |]). split; [lia |]. split; [done |]. split; [| done]. split; [by rewrite He | by exists fl'].
  - subst s1. pose proof (hi_top _ _ _ _ _ Hi) as [Htop Hta]. pose proof (limit_pos _ Hlim) as Hpos. set (top := heap_top (u_env s)) in *.
    wp_step. unfold get_heap_end, memlimit, wp at 1. rewrite memlimit_null by done. fold top. cbn [u_env u_mem free_list].
    rewrite (u32_small (4 + z)), (u32_small (top + (4 + z))) by (unfold is_u32; lia). wp_step. unfold wp at 1. cbn [u_env u_mem].
    destruct (memlimit_grow (u_env s) (u_mem s) (top + (4 + z))) as (r & e' & m' & -> & Hsub & Hr); [done | fold top; lia |].
    cbn [free_list]. destruct Hr as [->|(-> & Hmax & Hlim' & Htop' & How)]; [cbn [Z.eqb]; wp_step; by left |].
    rewrite (proj2 (Z.eqb_neq _ _)) by lia. fold top in How. replace (top + (4 + z) - top) with (4 + z) in How by lia.
    assert (Hza : aligned (4 + z)) by (by apply aligned_add).
    destruct (grow_inv _ _ _ _ _ m' (4 + z) Hi Hsub Hza) as (Hi' & Hk & Hnone); [lia | lia | lia | done |].
    wp_step. apply wr_wp; [done | intros x Hx; apply How; lia |]. wp_step. cbn [u_env u_mem free_list].
    rewrite (u32_small (top + 4)) by (unfold is_u32; lia). right. exists (4 + z). replace (top + 4 - 4) with top by lia.
    split; [by apply aligned_add |]. split; [lia |]. split; [lia |]. split; [done |].
    split; [split; [done |]; exists fl; split; [| done]; cbn [u_env u_mem free_list]; by rewrite Htop' |]. split; [done |].
    apply upd32_grows. intros x [y Hy]. exists y. by apply (lookup_weaken (u_mem s)).
Qed.

(** *** Freeing *)

(** The result of a free in a heap with the blocks [live]. *)
Definition freed (live : gmap Z Z) (m : memory) (s s' : heap) : Prop :=
  u_env s' = u_env s ∧ keeps live m (u_mem s') ∧
  ∃ fl, heap_inv (heap_top (u_env s)) (u_mem s') (free_list s') fl live ∧ StronglySorted gap fl.

Lemma inv_next top m p l1 b n l2 live : heap_inv top m p (l1 ++ (b, n) :: l2) live → load32 m (b + 4) = Ok (next_of l2) ∧ is_u32 (next_of l2).
Proof.
  intros Hi. pose proof (hi_top _ _ _ _ _ Hi) as [Htop _]. destruct (inv_parts _ _ _ _ _ _ _ _ Hi) as (_ & (q & _ & _ & Hq & Hl2) & _ & H2 & _).
  rewrite <- (lseg_next _ _ _ Hl2). split; [done |]. rewrite (lseg_next _ _ _ Hl2). unfold is_u32, next_of.
  destruct l2 as [|[a k] l2]; [simpl; lia |]. destruct (H2 a k) as [[[_ ?] [_ ?] ? _] _]; [left |]. simpl. lia.
Qed.

(** Two adjacent blocks, as [free] merges them. *)
Lemma merge_block_wp {A} (s : heap) l1 a n c k l2 live (f : K heap A) (Q : A → heap → Prop) :
  heap_inv (heap_top (u_env s)) (u_mem s) (free_list s) (l1 ++ (a, n) :: (c, k) :: l2) live → a + n = c →
  (∀ s', u_env s' = u_env s → keeps live (u_mem s) (u_mem s') →
    heap_inv (heap_top (u_env s)) (u_mem s') (free_list s') (l1 ++ (a, n + k) :: l2) live → wp f Q s') →
  wp (set_size a (u32 (n + k));; set_next a (next_of l2);; f) Q s.
Proof.
  intros Hi Hac HQ. assert (Hi2 : heap_inv (heap_top (u_env s)) (u_mem s) (free_list s) ((l1 ++ [(a, n)]) ++ (c, k) :: l2) live) by (by rewrite <- app_assoc).
  destruct (inv_next _ _ _ _ _ _ _ _ Hi2) as [Hq Hqu]. destruct (inv_parts _ _ _ _ _ _ _ _ Hi) as ([[Ha Ha0] [_ Hn] Hat Ham] & _ & _ & H2 & _).
  destruct (H2 c k) as [[_ [_ Hk] Hct _] _]; [left |]. pose proof (hi_top _ _ _ _ _ Hi) as [Htop _].
  destruct (merge_inv _ _ _ _ _ _ _ _ _ _ _ Hi Hac Hq Hqu) as [Hi' Hk'].
  rewrite u32_small by (unfold is_u32; lia). wp_step. apply wr_wp; [done | intros x Hx; apply Ham; lia |].
  wp_step. apply wr_wp; [by apply aligned_add | apply upd32_owned; intros x Hx; apply Ham; lia |]. by apply HQ.
Qed.

Lemma merge_next_wp (s : heap) l1 b k l2 live m0 :
  heap_inv (heap_top (u_env s)) (u_mem s) (free_list s) (l1 ++ (b, k) :: l2) live →
  StronglySorted gap (l1 ++ l2) → (∀ x, x ∈ l1 → gap x (b, k)) → keeps live m0 (u_mem s) →
  wp (if next_of l2 =? 0 then mret tt
      else n ← blk_size b;
        if u32 (next_of l2 - b) =? n then
          k ← blk_size (next_of l2); set_size b (u32 (n + k));; q ← blk_next (next_of l2); set_next b q
        else mret tt) (λ _ s', freed live m0 s s') s.
Proof.
  intros Hi (S12 & S1 & S2)%StronglySorted_app Hg1 Hk.
  destruct (inv_parts _ _ _ _ _ _ _ _ Hi) as ([[Hb Hb0] [_ Hbk] Hbt Hbm] & (q & _ & Hn & _ & Hl2) & H1 & H2 & _).
  destruct l2 as [|[c j] l2]; [simpl; wp_step; split_and!; [done | done |] |].
  { exists (l1 ++ [(b, k)]). split; [done |]. apply sorted_split. split_and!; [done | constructor | done | by intros ? ?%not_elem_of_nil | by intros ? ? _ ?%not_elem_of_nil]. }
  destruct (H2 c j) as [[[Hc Hc0] [_ Hj] Hct Hcm] Hbc]; [left |]. pose proof (hi_top _ _ _ _ _ Hi) as [Htop _].
  cbn [next_of head from_option fst]. rewrite (proj2 (Z.eqb_neq c 0)) by lia. wp_step. eapply rd_wp; [exact Hn |].
  rewrite u32_small by (unfold is_u32; lia). apply StronglySorted_inv in S2 as [S2 Sf]. rewrite Forall_forall in Sf.
  destruct (Z.eqb_spec (c - b) k) as [He|He].
  - destruct Hl2 as (-> & Hcj & q' & Hq' & Hl2). wp_step. eapply rd_wp; [exact Hcj |].
    assert (Hi2 : heap_inv (heap_top (u_env s)) (u_mem s) (free_list s) ((l1 ++ [(b, k)]) ++ (c, j) :: l2) live) by (by rewrite <- app_assoc).
    destruct (inv_next _ _ _ _ _ _ _ _ Hi2) as [Hq Hqu]. assert (q' = next_of l2) as -> by congruence.
    assert (Hac : b + k = c) by lia. destruct (merge_inv _ _ _ _ _ _ _ _ _ _ _ Hi Hac Hq Hqu) as [Hi' Hk'].
    rewrite u32_small by (unfold is_u32; lia). wp_step. apply wr_wp; [done | intros x Hx; apply Hbm; lia |]. cbn [u_env u_mem free_list].
    wp_step. eapply rd_wp.
    { cbn [u_mem]. rewrite load32_upd by (done || (by apply aligned_add) || unfold is_u32; lia). rewrite decide_False by lia. exact Hq. }
    apply wr_wp; [by apply aligned_add | apply upd32_owned; intros x Hx; apply Hbm; lia |]. cbn [u_env u_mem free_list].
    split; [done |]. split; [by eapply keeps_trans |]. exists (l1 ++ (b, k + j) :: l2). split; [exact Hi' |].
    apply sorted_split. split_and!; [done | done | | | intros x y Hx Hy; apply S12; [done | by right]].
    + intros x Hx. specialize (Hg1 x Hx). unfold gap in *. simpl in *. lia.
    + intros y Hy. specialize (Sf y Hy). unfold gap in *. simpl in *. lia.
  - wp_step. split_and!; [done | done |]. exists (l1 ++ (b, k) :: (c, j) :: l2). split; [done |].
    apply sorted_split. split_and!; [done | constructor; [done | by apply Forall_forall] | done | | done].
    assert (Hgc : gap (b, k) (c, j)) by (unfold gap; simpl; lia).
    intros y [->|Hy]%elem_of_cons; [done |]. specialize (Sf y Hy). unfold gap in *. simpl in *. lia.
Qed.

Lemma insert_block_wp (s : heap) l1 b k l2 live :
  heap_inv (heap_top (u_env s)) (u_mem s) (free_list s) (l1 ++ l2) live → StronglySorted gap (l1 ++ l2) → live !! b = Some k →
  (∀ a n, (a, n) ∈ l1 → a < b) → (∀ a n, (a, n) ∈ l2 → b < a) →
  wp (insert_block (prev_of l1) b (next_of l2)) (λ _ s', freed (delete b live) (u_mem s) s s') s.
Proof.
  intros Hi Hg Hb Hlt1 Hlt2. destruct (put_inv _ _ _ _ _ _ _ _ Hi Hb Hlt1 Hlt2) as [Hi' Hk]. set (x := relinked l1 b (u_mem s) (free_list s)) in *.
  destruct (hi_live _ _ _ _ _ Hi _ _ Hb) as [[[Hba Hb0] [_ Hk12] Hbt Hbm] _]. unfold insert_block.
  wp_step. apply set_link_wp.
  { intros a n Ha. destruct (hi_free _ _ _ _ _ Hi a n) as [[? ?] [_ ?] _ Hm]; [apply elem_of_app; by left |].
    split_and!; [done | done |]. intros y Hy. apply Hm. lia. }
  cbv zeta. fold x. wp_step. apply wr_wp; [by apply aligned_add | apply relinked_owned; intros y Hy; apply Hbm; lia |]. cbn [u_env u_mem free_list].
  set (s1 := mk_uheap (u_env s) (upd32 x.1 (b + 4) (next_of l2)) x.2). change (u_env s) with (u_env s1) in Hi'.
  change (upd32 x.1 (b + 4) (next_of l2)) with (u_mem s1) in Hi', Hk. change x.2 with (free_list s1) in Hi'.
  assert (Hes : u_env s1 = u_env s) by done. clearbody s1. clear x Hi Hbm.
  assert (Hfreed : ∀ s2 s3, u_env s2 = u_env s → freed (delete b live) (u_mem s) s2 s3 → freed (delete b live) (u_mem s) s s3)
    by (unfold freed; intros s2 s3 ->; done).
  destruct (inv_parts _ _ _ _ _ _ _ _ Hi') as (_ & (q & _ & Hn & _ & _) & H1 & _ & _). wp_step.
  destruct l1 as [|[a n] l1 _] using rev_ind.
  { cbn [prev_of last from_option Z.eqb]. wp_step. eapply wp_mono; [apply (merge_next_wp s1 [] b k l2 (delete b live) (u_mem s)); try done; by intros ? ?%not_elem_of_nil |].
    intros [] s2. by apply Hfreed. }
  unfold prev_of. rewrite last_snoc. cbn [from_option fst]. destruct (H1 a n) as [[[_ Ha0] [_ Hn12] _ _] Hab]; [apply elem_of_app; right; by left |].
  rewrite <- !app_assoc in *. cbn [app] in *. destruct (inv_parts _ _ _ _ _ _ _ _ Hi') as (_ & (_ & _ & Hna & _) & _).
  pose proof (hi_top _ _ _ _ _ Hi') as [Htop _]. rewrite Hes in Htop. apply sorted_split in Hg as (S1 & S2 & S3 & S4 & S5).
  rewrite (proj2 (Z.eqb_neq a 0)) by lia. wp_step. eapply rd_wp; [exact Hna |]. rewrite u32_small by (unfold is_u32; lia).
  destruct (Z.eqb_spec (b - a) n) as [He|He].
  - wp_step. eapply rd_wp; [exact Hn |]. eapply merge_block_wp; [exact Hi' | lia |]. intros s2 He2 Hk2 Hi2. wp_step. rewrite <- He2 in Hi2.
    eapply wp_mono; [apply (merge_next_wp s2 l1 a (n + k) l2 (delete b live) (u_mem s)) |].
    + done.
    + by apply StronglySorted_app.
    + done.
    + by eapply keeps_trans.
    + intros [] s3. apply Hfreed. by rewrite He2.
  - wp_step. replace (l1 ++ (a, n) :: (b, k) :: l2) with ((l1 ++ [(a, n)]) ++ (b, k) :: l2) in Hi' by (by rewrite <- app_assoc).
    assert (Hgb : gap (a, n) (b, k)) by (unfold gap; simpl; lia).
    eapply wp_mono; [apply (merge_next_wp s1 (l1 ++ [(a, n)]) b k l2 (delete b live) (u_mem s)) |].
    + done.
    + rewrite <- app_assoc. apply sorted_split. done.
    + intros y [Hy|Hy]%elem_of_app; [| by apply list_elem_of_singleton in Hy as ->].
      specialize (S3 y Hy). unfold gap in *. simpl in *. destruct (H1 a n); [apply elem_of_app; right; by left |]. lia.
    + done.
    + intros [] s3. by apply Hfreed.
Qed.

Lemma free_loop_wp (s : heap) b k live fl fuel : ∀ l1 l2,
  fl = l1 ++ l2 → heap_inv (heap_top (u_env s)) (u_mem s) (free_list s) fl live → StronglySorted gap fl → live !! b = Some k →
  (∀ a n, (a, n) ∈ l1 → a < b) → (length l2 < fuel)%nat →
  wp (free_loop fuel (prev_of l1) (next_of l2) b) (λ _ s', freed (delete b live) (u_mem s) s s') s.
Proof.
  induction fuel as [|fuel IH]; intros l1 l2 -> Hi Hg Hb Hlt Hlen; [lia |]. cbn [free_loop].
  destruct l2 as [|[c n] l2].
  { rewrite orb_true_r. apply (insert_block_wp s l1 b k [] live); [done | done | done | done | by intros ? ? ?%not_elem_of_nil]. }
  destruct (inv_parts _ _ _ _ _ _ _ _ Hi) as ([[_ Hc0] [_ Hn] _ _] & (q & _ & _ & Hq & Hl2) & _ & H2 & Hlv).
  destruct (Hlv _ _ Hb) as [[_ [_ Hk] _ _] Hap]. cbn [next_of head from_option fst]. rewrite (proj2 (Z.eqb_neq c 0)), orb_false_r by lia.
  destruct (Z.ltb_spec b c) as [Hbc|Hbc].
  - apply (insert_block_wp s l1 b k ((c, n) :: l2) live); try done. intros a j [[= -> ->]|Ha]%elem_of_cons; [lia |]. destruct (H2 _ _ Ha). lia.
  - wp_step. eapply rd_wp; [exact Hq |]. rewrite (lseg_next _ _ _ Hl2).
    replace c with (prev_of (l1 ++ [(c, n)])) by (unfold prev_of; by rewrite last_snoc).
    apply IH; [by rewrite <- app_assoc | done | done | done | | simpl in Hlen; lia].
    intros a j [Ha|Ha]%elem_of_app; [by apply (Hlt a j) |]. apply list_elem_of_singleton in Ha as [= -> ->]. unfold apart in Hap. lia.
Qed.

Lemma free_wp (s : heap) live p k :
  heap_is s live → live !! (p - 4) = Some k →
  wp (free p) (λ _ s', heap_is s' (delete (p - 4) live) ∧ keeps (delete (p - 4) live) (u_mem s) (u_mem s')) s.
Proof.
  intros (Hlim & fl & Hi & Hg) Hp. destruct (hi_live _ _ _ _ _ Hi _ _ Hp) as [[[_ Hp0] [_ Hk] Hpt _] _].
  pose proof (hi_top _ _ _ _ _ Hi) as [Htop _]. unfold free. rewrite (proj2 (Z.eqb_neq p 0)) by lia. do 2 wp_step. unfold id.
  rewrite u32_small by (unfold is_u32; lia). rewrite (lseg_next _ _ _ (hi_list _ _ _ _ _ Hi)).
  eapply wp_mono; [apply (free_loop_wp s (p - 4) k live fl _ [] fl); try done; [by intros ? ? ?%not_elem_of_nil |] |].
  - unfold chain_steps. pose proof (free_list_fits _ _ _ _ _ Hi). lia.
  - intros [] s' (He & Hks & fl' & Hi' & Hg'). split; [| done]. split; [by rewrite He |]. exists fl'. by rewrite He.
Qed.

(** *** Bytes of a block *)

(** The program writes a byte of a block it holds. *)
Lemma poke_wp (s : heap) live p n x v :
  heap_is s live → live !! (p - 4) = Some n → p ≤ x < p - 4 + n →
  wp (wr8 x v) (λ _ s', heap_is s' live ∧ u_mem s' = <[x := v]> (u_mem s)) s.
Proof.
  intros (Hlim & fl & Hi & Hg) Hp Hx. pose proof Hi as [Hl Hs Hf Hlv Hap Ho Ht].
  destruct (Hlv _ _ Hp) as [[[Hpa Hp0] [_ Hn] Hpt Hpm] _]. apply wr8_wp; [apply Hpm; lia |]. split; [| done]. split; [done |].
  exists fl. split; [| done]. cbn [u_env u_mem free_list].
  assert (Hld : ∀ a, (∀ y, a ≤ y < a + 4 → y ≠ x) → load32 (<[x := v]> (u_mem s)) a = load32 (u_mem s) a).
  { intros a Hne. apply load32_ext. intros y Hy. rewrite lookup_insert_ne; [done |]. specialize (Hne y Hy). done. }
  assert (How : ∀ a k, owned (u_mem s) a k → owned (<[x := v]> (u_mem s)) a k).
  { intros a k Hok y Hy. rewrite lookup_insert. case_decide; [by eexists | by apply Hok]. }
  constructor; try done.
  - eapply lseg_ext; [| exact Hl]. intros a k Ha. destruct (Hf _ _ Ha) as [_ [_ ?] _ _].
    destruct (Ho _ _ _ _ Hp Ha); split; apply Hld; lia.
  - intros a k Ha. by apply (block_ok_owned _ (u_mem s)), Hf.
  - intros a k Ha. destruct (Hlv _ _ Ha) as [Hok Hk]. split; [by apply (block_ok_owned _ (u_mem s)) |]. rewrite Hld; [done |].
    destruct Hok as [_ [_ ?] _ _]. destruct (decide (a = p - 4)) as [->|Hne]; [lia |]. destruct (Hap _ _ _ _ Ha Hp Hne); lia.
Qed.

Lemma live_apart (s : heap) live a n b k x :
  heap_is s (<[a := n]> live) → live !! a = None → live !! b = Some k → b ≤ x < b + k → ¬ (a ≤ x < a + n).
Proof.
  intros (_ & fl & Hi & _) Hnone Hb Hx.
  destruct (hi_apart _ _ _ _ _ Hi b k a n); [by rewrite lookup_insert_ne by congruence | by rewrite lookup_insert_eq | congruence | lia | lia].
Qed.

Lemma calloc_wp (s : heap) live nmemb k :
  heap_is s live → 0 < nmemb * k ≤ 2 ^ 31 - 16 →
  wp (calloc nmemb k) (λ p s',
    p = 0 ∨
    (∃ n, aligned p ∧ 0 < p ∧ nmemb * k + 4 ≤ n ∧ live !! (p - 4) = None ∧ heap_is s' (<[p - 4 := n]> live) ∧
      keeps live (u_mem s) (u_mem s') ∧ ∀ x, p ≤ x < p + nmemb * k → u_mem s' !! x = Some 0)) s.
Proof.
  intros Hi Hsz. unfold calloc. rewrite u32_small by (unfold is_u32; lia). wp_step. eapply wp_mono; [by apply malloc_wp |].
  intros p s1 [[-> _]|(n & Hp & Hp0 & Hn & Hnone & Hi1 & Hk & _)]; [cbn [Z.eqb]; do 2 wp_step; by left |].
  rewrite (proj2 (Z.eqb_neq p 0)) by lia. wp_step.
  apply (wp_for_each (λ i s', heap_is s' (<[p - 4 := n]> live) ∧
    ∀ x, u_mem s' !! x = if decide (p ≤ x < p + i) then Some 0 else u_mem s1 !! x)).
  - split; [done |]. intros x. by rewrite decide_False by lia.
  - intros i s2 Hi0 [Hi2 Hm]. eapply wp_mono; [apply (poke_wp s2 (<[p - 4 := n]> live) p n); [done | by rewrite lookup_insert_eq | lia] |].
    intros [] s3 [Hi3 Hm3]. split; [done |]. intros x. rewrite Hm3, lookup_insert. case_decide as Hx; [by rewrite decide_True by lia |].
    rewrite Hm. do 2 case_decide; done || lia.
  - intros s2 [Hi2 Hm]. wp_step. right. exists n. do 5 (split; [done |]). rewrite Z2Nat.id in Hm by lia. split.
    + intros a j x Ha Hx. rewrite Hm, decide_False by (pose proof (live_apart _ _ _ _ _ _ _ Hi1 Hnone Ha Hx); lia). by apply (Hk a j).
    + intros x Hx. rewrite Hm, decide_True by lia. done.
Qed.

(** What [realloc] does with a block of [n] bytes when it returns. *)
Definition moved (live : gmap Z Z) (s : heap) (p n size p' : Z) (s' : heap) : Prop :=
  p' = 0 ∨
  (∃ n', aligned p' ∧ 0 < p' ∧ size + 4 ≤ n' ∧ live !! (p' - 4) = None ∧ heap_is s' (<[p' - 4 := n']> (delete (p - 4) live)) ∧
    keeps (delete (p - 4) live) (u_mem s) (u_mem s') ∧
    ∀ j, 0 ≤ j < size → j < n - 4 → u_mem s' !! (p' + j) = u_mem s !! (p + j)).

Section copying.
(** A block has been allocated at [p'], in the state [s1]. *)
Context (s s1 : heap) (live : gmap Z Z) (p n size p' n' : Z).
Context (Hp : live !! (p - 4) = Some n) (Hn' : size + 4 ≤ n') (Hnone : live !! (p' - 4) = None).
Context (Hi1 : heap_is s1 (<[p' - 4 := n']> live)) (Hk : keeps live (u_mem s) (u_mem s1)).

Definition copied (i : Z) (s2 : heap) : Prop :=
  heap_is s2 (<[p' - 4 := n']> live) ∧ grows (u_mem s1) (u_mem s2) ∧
  (∀ x, ¬ (p' ≤ x < p' + size) → u_mem s2 !! x = u_mem s1 !! x) ∧
  ∀ j, 0 ≤ j < i → j < n - 4 → u_mem s2 !! (p' + j) = u_mem s1 !! (p + j).

Lemma copied_step i s2 :
  0 ≤ i < size → copied i s2 → is_Some (u_mem s1 !! (p + i)) →
  wp (b ← rd8 (p + i); wr8 (p' + i) b) (λ _ s3, copied (i + 1) s3) s2.
Proof using All.
  intros Hin (Hi2 & Hg2 & Hout & Hcp) Hs. destruct (Hg2 (p + i) Hs) as [b Hb].
  wp_step. eapply rd8_wp; [exact Hb |]. eapply wp_mono; [apply (poke_wp s2 (<[p' - 4 := n']> live) p' n'); [done | apply lookup_insert_eq | lia] |].
  intros [] s3 [Hi3 Hm3]. split; [done |]. rewrite Hm3. split_and!.
  - intros x Hx. rewrite lookup_insert. case_decide; [by eexists | by apply Hg2].
  - intros x Hx. rewrite lookup_insert_ne by lia. by apply Hout.
  - intros j Hj Hjn. rewrite lookup_insert. case_decide as E1; [| apply Hcp; lia]. replace j with i by lia. rewrite <- Hout; [done |].
    replace j with i in Hjn by lia. pose proof (live_apart _ _ _ _ _ _ (p + i) Hi1 Hnone Hp). lia.
Qed.

Lemma copied_free s2 : 0 < p - 4 → 4 ≤ n → 0 < p' → aligned p' → copied size s2 → wp (free p) (λ _ s3, moved live s p n size p' s3) s2.
Proof using All.
  intros Hp0 Hn Hp'0 Hp' (Hi2 & _ & Hout & Hcp). assert (Hne : p' - 4 ≠ p - 4) by congruence.
  assert (Hpl : (<[p' - 4 := n']> live) !! (p - 4) = Some n) by (by rewrite lookup_insert_ne).
  eapply wp_mono; [by apply (free_wp s2 (<[p' - 4 := n']> live) p n) |]. intros [] s3 [Hi3 Hk3]. right. exists n'.
  rewrite delete_insert_ne in Hi3, Hk3 by done. do 5 (split; [done |]). split.
  - intros a k x Ha Hx. pose proof Ha as [_ Ha']%lookup_delete_Some. assert (a ≠ p' - 4) by congruence.
    rewrite (Hk3 a k) by (done || by rewrite lookup_insert_ne). clear Ha. rename Ha' into Ha. rewrite Hout; [by apply (Hk a k) |].
    pose proof (live_apart _ _ _ _ _ _ x Hi1 Hnone Ha). lia.
  - intros j Hj Hjn. rewrite (Hk3 (p' - 4) n') by (apply lookup_insert_eq || lia). rewrite Hcp by lia. apply (Hk (p - 4) n); [done | lia].
Qed.
End copying.

(** [realloc] moves the block, or reads a byte that is not in memory. *)
Lemma realloc_outcome (s : heap) live p n size :
  heap_is s live → live !! (p - 4) = Some n → 0 < size ≤ 2 ^ 31 - 16 →
  wp (realloc p size) (moved live s p n size) s ∨
  realloc p size s = Undef ∧ ∃ j, n - 4 ≤ j < size ∧ u_mem s !! (p + j) = None.
Proof.
  intros Hi Hp Hsz. pose proof Hi as (_ & fl & Hinv & _). destruct (hi_live _ _ _ _ _ Hinv _ _ Hp) as [[[_ Hp0] [_ Hn] _ Hown] _]. clear fl Hinv.
  unfold realloc. rewrite (proj2 (Z.eqb_neq p 0)), (proj2 (Z.eqb_neq size 0)) by lia. pose proof (malloc_wp s live size Hi Hsz) as Hm.
  destruct (proj1 (wp_iff _ _ _) Hm) as (p' & s1 & Em & [[-> _]|(n' & Hp' & Hp'0 & Hn' & Hnone & Hi1 & Hk & Hgr)]).
  { left. apply wp_bind. unfold wp at 1. rewrite Em. cbn [Z.eqb]. do 2 wp_step. by left. }
  pose proof (copied_step s s1 live p n size p' n' Hp Hn' Hnone Hi1 Hk) as Hstep.
  assert (Hc0 : copied s1 live p n size p' n' 0 s1) by (split; [done |]; split; [by intros x |]; split; [done | lia]).
  rewrite (bind_Ok _ _ _ _ _ Em). unfold wp. rewrite (bind_Ok _ _ _ _ _ Em). cbv beta. rewrite (proj2 (Z.eqb_neq p' 0)) by lia.
  destruct (list_find (λ j, u_mem s1 !! (p + j) = None) (seqZ 0 size)) as [[q j]|] eqn:Ef.
  - right. apply list_find_Some in Ef as ([-> Hq]%lookup_seqZ & Hjn & Hbefore). rewrite Z.add_0_l in *.
    assert (Hj : n - 4 ≤ Z.of_nat q).
    { destruct (decide (n - 4 ≤ Z.of_nat q)) as [|Hlt]; [done |]. destruct (Hgr (p + Z.of_nat q)) as [y Hy]; [apply Hown; lia | congruence]. }
    split.
    2: { exists (Z.of_nat q). split; [lia |]. destruct (u_mem s !! (p + Z.of_nat q)) eqn:Ex; [| done].
      destruct (Hgr (p + Z.of_nat q)) as [y Hy]; [by eexists | congruence]. }
    unfold mbind, K_bind at 1 2. rewrite (for_each_Undef (copied s1 live p n size p' n') _ 0 (Z.of_nat q)); [done | done | lia | |].
    + intros i s2 Hij Hc. apply Hstep; [lia | done |]. destruct (u_mem s1 !! (p + i)) eqn:Ex; [by eexists |]. exfalso.
      apply (Hbefore (Z.to_nat i) i); [apply lookup_seqZ; lia | lia | done].
    + intros s2 (_ & _ & Hout & _). unfold rd8, mbind, K_bind, gets, pure, load8, id. rewrite Hout, Hjn; [done |].
      intros Hin. pose proof Hi1 as (_ & fl & Hinv & _). destruct (hi_live _ _ _ _ _ Hinv (p' - 4) n' (lookup_insert_eq _ _ _)) as [[_ _ _ Hown'] _].
      destruct (Hown' (p + Z.of_nat q)) as [y Hy]; [lia | congruence].
  - left. apply list_find_None in Ef. rewrite Forall_forall in Ef.
    change (wp ((for_each (Z.to_nat size) 0 (λ i, b ← rd8 (p + i); wr8 (p' + i) b);; free p);; mret p') (moved live s p n size) s1).
    do 2 wp_step. apply (wp_for_each (copied s1 live p n size p' n')); [done | |].
    + intros j s2 Hj Hc. apply Hstep; [lia | done |]. destruct (u_mem s1 !! (p + j)) eqn:Ex; [by eexists |]. exfalso. eapply (Ef j); [| done].
      apply elem_of_seqZ. lia.
    + intros s2 Hc. rewrite Z2Nat.id, Z.add_0_l in Hc by lia. eapply wp_mono; [apply (copied_free s s1 live p n size p' n'); try done; lia |].
      intros [] s3 Hmv. by wp_step.
Qed.

(** ** Programs *)

(** What a program knows about its memory: the pointers it holds and for each
    byte it asked for what it has written there, if anything. *)
Abbreviation holding := (list (Z * list (option Z))).

(** [i] is the number of a held pointer, [j] the offset of a byte. *)
Inductive hop := OMalloc (size : Z) | OCalloc (nmemb size : Z) | OFree (i : nat) | ORealloc (i : nat) (size : Z) | OSet (i j : nat) (b : Z).

(** One operation; [None] when there is no memory left.  A program writes only
    to the bytes it asked for. *)
Definition run_op (o : hop) (held : holding) : K heap (option holding) :=
  match o with
  | OMalloc size =>
      p ← malloc size;
      mret (if p =? 0 then None else Some (held ++ [(p, replicate (Z.to_nat size) None)]))
  | OCalloc nmemb size =>
      p ← calloc nmemb size;
      mret (if p =? 0 then None else Some (held ++ [(p, replicate (Z.to_nat (nmemb * size)) (Some 0))]))
  | OFree i =>
      match held !! i with
      | None => mret (Some held)
      | Some (p, _) => free p;; mret (Some (delete i held))
      end
  | ORealloc i size =>
      match held !! i with
      | None => mret (Some held)
      | Some (p, l) =>
          p' ← realloc p size;
          mret (if p' =? 0 then None
                else Some (delete i held ++ [(p', resize (Z.to_nat size) None l)]))
      end
  | OSet i j b =>
      match held !! i with
      | None => mret (Some held)
      | Some (p, l) =>
          if (j <? length l)%nat then
            wr8 (p + Z.of_nat j) b;;
            mret (Some (<[i := (p, <[j := Some b]> l)]> held))
          else mret (Some held)
      end
  end.

Fixpoint run_ops (os : list hop) (held : holding) : K heap (option holding) :=
  match os with
  | [] => mret (Some held)
  | o :: os' => r ← run_op o held; match r with None => mret None | Some held' => run_ops os' held' end
  end.

Definition op_ok (o : hop) : Prop :=
  match o with
  | OMalloc size | ORealloc _ size => 0 < size ≤ 2 ^ 31 - 16
  | OCalloc nmemb size => 0 < nmemb * size ≤ 2 ^ 31 - 16
  | _ => True
  end.

Record held_ok (live : gmap Z Z) (m : memory) (held : holding) : Prop := {
  ho_nodup : NoDup held.*1;
  ho_block p l : (p, l) ∈ held → ∃ n, live !! (p - 4) = Some n ∧ Z.of_nat (length l) + 4 ≤ n;
  ho_bytes p l j b : (p, l) ∈ held → l !! j = Some (Some b) → m !! (p + Z.of_nat j) = Some b;
}.

Lemma held_add live m held m' p l n :
  held_ok live m held → keeps live m m' → live !! (p - 4) = None → Z.of_nat (length l) + 4 ≤ n →
  (∀ j b, l !! j = Some (Some b) → m' !! (p + Z.of_nat j) = Some b) →
  held_ok (<[p - 4 := n]> live) m' (held ++ [(p, l)]).
Proof.
  intros [Hnd Hb Hby] Hk Hnone Hn Hl. constructor.
  - rewrite fmap_app. apply NoDup_app. split_and!; [done | | apply NoDup_singleton].
    intros x ([y k] & -> & Hin)%list_elem_of_fmap Hx%list_elem_of_singleton. simpl in Hx. subst y. destruct (Hb _ _ Hin) as (? & ? & _). congruence.
  - intros q k [Hin|Hin]%elem_of_app.
    + destruct (Hb _ _ Hin) as (n' & Hn' & Hle). exists n'. split; [| done]. rewrite lookup_insert_ne by congruence. done.
    + apply list_elem_of_singleton in Hin as [= -> ->]. exists n. by rewrite lookup_insert_eq.
  - intros q k j b [Hin|Hin]%elem_of_app Hj; [| apply list_elem_of_singleton in Hin as [= -> ->]; by apply Hl].
    destruct (Hb _ _ Hin) as (n' & Hn' & Hle). pose proof (lookup_lt_Some _ _ _ Hj). rewrite (Hk (q - 4) n') by (done || lia). by apply (Hby _ k).
Qed.

Lemma held_drop live m held m' i p l :
  held_ok live m held → held !! i = Some (p, l) → keeps (delete (p - 4) live) m m' → held_ok (delete (p - 4) live) m' (delete i held).
Proof.
  intros [Hnd Hb Hby] Hi Hk.
  assert (Hne : ∀ q k, (q, k) ∈ delete i held → (q, k) ∈ held ∧ q ≠ p).
  { intros q k Hin. rewrite <- (take_drop_middle _ _ _ Hi) in Hnd |- *. rewrite delete_take_drop in Hin. rewrite fmap_app, fmap_cons in Hnd.
    apply NoDup_app in Hnd as (_ & H12 & [H3 _]%NoDup_cons). split; [apply elem_of_app; apply elem_of_app in Hin; rewrite elem_of_cons; tauto |].
    intros ->. apply elem_of_app in Hin as [Hin|Hin].
    - apply (H12 p); [by apply (list_elem_of_fmap_2 fst _ (p, k)) | by left].
    - apply H3. by apply (list_elem_of_fmap_2 fst _ (p, k)). }
  constructor.
  - eapply sublist_NoDup; [exact Hnd |]. apply fmap_sublist, sublist_delete.
  - intros q k Hin. destruct (Hne _ _ Hin) as [Hin' Hq]. destruct (Hb _ _ Hin') as (n & Hn & Hle). exists n. split; [| done].
    rewrite lookup_delete_ne by lia. done.
  - intros q k j b Hin Hj. destruct (Hne _ _ Hin) as [Hin' Hq]. destruct (Hb _ _ Hin') as (n & Hn & Hle). pose proof (lookup_lt_Some _ _ _ Hj).
    rewrite (Hk (q - 4) n); [by apply (Hby _ k) | rewrite lookup_delete_ne by lia; done | lia].
Qed.

Lemma held_set live m held i p l j b :
  held_ok live m held → (∀ a k a' k', live !! a = Some k → live !! a' = Some k' → a ≠ a' → apart a k a' k') →
  held !! i = Some (p, l) → (j < length l)%nat →
  held_ok live (<[p + Z.of_nat j := b]> m) (<[i := (p, <[j := Some b]> l)]> held).
Proof.
  intros [Hnd Hb Hby] Hap Hi Hj. pose proof (list_elem_of_lookup_2 _ _ _ Hi) as Hin. destruct (Hb _ _ Hin) as (n & Hn & Hle).
  assert (Hfst : (<[i := (p, <[j := Some b]> l)]> held).*1 = held.*1).
  { rewrite list_fmap_insert. apply list_insert_id. by rewrite list_lookup_fmap, Hi. }
  constructor; [by rewrite Hfst | |].
  - intros q k [x Hx]%list_elem_of_lookup. apply list_lookup_insert_Some in Hx as [(<- & [= <- <-] & _)|[_ Hx]].
    + exists n. by rewrite length_insert.
    + by apply Hb, (list_elem_of_lookup_2 _ x).
  - intros q k j' b' [x Hx]%list_elem_of_lookup. apply list_lookup_insert_Some in Hx as [(<- & [= <- <-] & _)|[Hne Hx]]; intros Hj'.
    + apply list_lookup_insert_Some in Hj' as [(<- & [= <-] & _)|[Hne Hj']]; [apply lookup_insert_eq |].
      rewrite lookup_insert_ne by lia. by apply (Hby _ l).
    + pose proof (list_elem_of_lookup_2 _ _ _ Hx) as Hq. destruct (Hb _ _ Hq) as (n' & Hn' & Hle'). pose proof (lookup_lt_Some _ _ _ Hj').
      assert (q ≠ p).
      { intros ->. apply Hne. apply (NoDup_lookup held.*1 i x p Hnd); by rewrite list_lookup_fmap, ?Hi, ?Hx. }
      rewrite lookup_insert_ne; [by apply (Hby _ k) |]. destruct (Hap (q - 4) n' (p - 4) n Hn' Hn); lia.
Qed.

(** The state of a program that holds [held]. *)
Definition program_ok (held : holding) (s : heap) : Prop := ∃ live, heap_is s live ∧ held_ok live (u_mem s) held.

(** A call of [realloc] that asks for more bytes than the program had asked for
    in the block, and copies one that is not in memory. *)
Definition overread (o : hop) (held : holding) (s : heap) : Prop :=
  ∃ i size p l j, o = ORealloc i size ∧ held !! i = Some (p, l) ∧ Z.of_nat (length l) ≤ j < size ∧ u_mem s !! (p + j) = None.

Lemma run_call_wp o held (s : heap) :
  op_ok o → program_ok held s →
  wp (run_op o held) (λ r s', match r with None => True | Some held' => program_ok held' s' end) s ∨
  run_op o held s = Undef ∧ overread o held s.
Proof.
  intros Ho (live & Hi & Hh). destruct o as [size|nmemb size|i|i size|i j b]; cbn [run_op op_ok] in *.
  - left. wp_step. eapply wp_mono; [by apply malloc_wp |]. intros p s1 Hr. wp_step.
    destruct Hr as [[-> _]|(n & Hp & Hp0 & Hn & Hnone & Hi1 & Hk & _)]; [done |]. rewrite (proj2 (Z.eqb_neq p 0)) by lia.
    exists (<[p - 4 := n]> live). split; [done |]. apply (held_add live (u_mem s)); try done; [rewrite length_replicate; lia |].
    by intros j b [? _]%lookup_replicate.
  - left. wp_step. eapply wp_mono; [by apply calloc_wp |]. intros p s1 Hr. wp_step.
    destruct Hr as [->|(n & Hp & Hp0 & Hn & Hnone & Hi1 & Hk & Hz)]; [done |]. rewrite (proj2 (Z.eqb_neq p 0)) by lia.
    exists (<[p - 4 := n]> live). split; [done |]. apply (held_add live (u_mem s)); try done; [rewrite length_replicate; lia |].
    intros j b [[= ->] ?]%lookup_replicate. apply Hz. lia.
  - left. destruct (held !! i) as [[p l]|] eqn:Hp; [| wp_step; by exists live].
    destruct (ho_block _ _ _ Hh p l) as (n & Hn & _); [by eapply list_elem_of_lookup_2 |].
    wp_step. eapply wp_mono; [by eapply free_wp |]. intros [] s1 [Hi1 Hk]. wp_step. exists (delete (p - 4) live). split; [done |]. by eapply held_drop.
  - destruct (held !! i) as [[p l]|] eqn:Hp; [| left; wp_step; by exists live].
    pose proof (list_elem_of_lookup_2 _ _ _ Hp) as Hin. destruct (ho_block _ _ _ Hh p l Hin) as (n & Hn & Hle).
    destruct (realloc_outcome s live p n size Hi Hn Ho) as [Hw|(Eu & q & Hq & Hmiss)].
    2: { right. split; [unfold mbind, K_bind; by rewrite Eu |]. exists i, size, p, l, q. split_and!; done || lia. }
    left. wp_step. eapply wp_mono; [exact Hw |].
    intros p' s1 Hr. wp_step. destruct Hr as [->|(n' & Hp' & Hp'0 & Hn' & Hnone & Hi1 & Hk & Hcp)]; [done |].
    rewrite (proj2 (Z.eqb_neq p' 0)) by lia. exists (<[p' - 4 := n']> (delete (p - 4) live)). split; [done |].
    apply (held_add _ (u_mem s1)); [by eapply held_drop | done | | rewrite length_resize; lia |].
    + rewrite lookup_delete_None. by right.
    + intros j b Hj. pose proof (lookup_lt_Some _ _ _ Hj) as Hlt. rewrite length_resize in Hlt.
      destruct (decide (j < length l)%nat) as [Hjl|Hjl].
      * rewrite lookup_resize in Hj by lia. rewrite Hcp by lia. by apply (ho_bytes _ _ _ Hh p l).
      * rewrite lookup_resize_new in Hj by lia. done.
  - left. destruct (held !! i) as [[p l]|] eqn:Hp; [| wp_step; by exists live].
    destruct (Nat.ltb_spec j (length l)) as [Hj|Hj]; [| wp_step; by exists live].
    pose proof (list_elem_of_lookup_2 _ _ _ Hp) as Hin. destruct (ho_block _ _ _ Hh p l Hin) as (n & Hn & Hle).
    wp_step. eapply wp_mono; [apply (poke_wp s live p n); try done; lia |]. intros [] s1 [Hi1 Hm]. wp_step. exists live. split; [done |].
    rewrite Hm. apply held_set; try done. destruct Hi as (_ & fl & Hi & _). intros. by eapply hi_apart.
Qed.

Lemma run_ops_wp os held (s : heap) :
  Forall op_ok os → program_ok held s →
  wp (run_ops os held) (λ r s', match r with None => True | Some held' => program_ok held' s' end) s ∨
  run_ops os held s = Undef ∧
    ∃ os1 o os2 held1 s1, os = os1 ++ o :: os2 ∧ run_ops os1 held s = Ok (Some held1, s1) ∧ overread o held1 s1.
Proof.
  intros Hos. revert held s. induction Hos as [|o os Ho _ IH]; intros held s Hp; cbn [run_ops]; [left; by wp_step |].
  destruct (run_call_wp o held s Ho Hp) as [([held'|] & s' & Er & Hr)%wp_iff|[Eu Hov]].
  - rewrite (bind_Ok _ _ _ _ _ Er). unfold wp. rewrite (bind_Ok _ _ _ _ _ Er).
    destruct (IH held' s' Hr) as [Hw|(Eu & os1 & o1 & os2 & held1 & s1 & -> & E1 & Hov)]; [by left | right]. split; [done |].
    exists (o :: os1), o1, os2, held1, s1. split; [done |]. split; [| done]. cbn [run_ops]. by rewrite (bind_Ok _ _ _ _ _ Er).
  - left. unfold wp. by rewrite (bind_Ok _ _ _ _ _ Er).
  - right. split; [unfold mbind, K_bind; by rewrite Eu |]. by exists [], o, os, held, s.
Qed.

Lemma program_start (s : heap) :
  limit_ok (u_env s) → heap_top (u_env s) ≤ 2 ^ 31 → aligned (heap_top (u_env s)) → free_list s = 0 → program_ok [] s.
Proof.
  intros Hlim Htop Hal Hfl. exists ∅. split; [split; [done |]; exists []; split; [| constructor] |].
  - constructor; [done | constructor | by intros ? ? ?%not_elem_of_nil | intros ? ?; by rewrite lookup_empty ..| done].
  - constructor; [constructor | by intros ? ? ?%not_elem_of_nil | by intros ? ? ? ? ?%not_elem_of_nil].
Qed.

(** C24: The allocator of user programs.  A program starts with an empty heap
    whose end is a multiple of 4 (which the kernel does not see to when it
    starts a program) and is not behind 2^31; [syscall_memlimit] does what it
    promises.  In any order the program allocates, clears, reallocates (sizes
    from 1 to 2^31 - 16) and frees blocks and writes to bytes it has asked for.
    Then every call returns; at every point the blocks it holds are aligned and
    disjoint, and every byte that it has written to one of them still has its
    value; it stops when there is no memory left.  The one exception is a
    [realloc] to more bytes than were asked for: it copies the new size, and if
    such a byte behind the old ones is not in memory it accesses it all the
    same, which ends the program.  Nothing else leaves the memory. *)
Theorem user_heap_safe os (s : heap) :
  limit_ok (u_env s) → heap_top (u_env s) ≤ 2 ^ 31 → aligned (heap_top (u_env s)) → free_list s = 0 → Forall op_ok os →
  (∃ r s', run_ops os [] s = Ok (r, s') ∧ ∀ held, r = Some held →
    (∀ i p l, held !! i = Some (p, l) → aligned p ∧ 0 < p ∧ ∀ j b, l !! j = Some (Some b) → u_mem s' !! (p + Z.of_nat j) = Some b) ∧
    (∀ i i' p l p' l', i ≠ i' → held !! i = Some (p, l) → held !! i' = Some (p', l') →
      p + Z.of_nat (length l) ≤ p' ∨ p' + Z.of_nat (length l') ≤ p)) ∨
  run_ops os [] s = Undef ∧
    ∃ os1 o os2 held s1, os = os1 ++ o :: os2 ∧ run_ops os1 [] s = Ok (Some held, s1) ∧ overread o held s1.
Proof.
  intros Hlim Htop Hal Hfl Hos.
  destruct (run_ops_wp os [] s Hos (program_start s Hlim Htop Hal Hfl)) as [(r & s' & He & Hr)%wp_iff|?]; [left | by right].
  exists r, s'. split; [done |]. intros held ->. destruct Hr as (live & (_ & fl & Hi & _) & [Hnd Hb Hby]). split.
  - intros i p l Hp%list_elem_of_lookup_2. destruct (Hb _ _ Hp) as (n & Hn & _). destruct (hi_live _ _ _ _ _ Hi _ _ Hn) as [[[Ha H0'] _ _ _] _].
    split; [replace p with (p - 4 + 4) by lia; by apply aligned_add |]. split; [lia |]. intros j b. by apply Hby.
  - intros i i' p l p' l' Hne Hp Hp'. destruct (Hb p l) as (n & Hn & Hl); [by eapply list_elem_of_lookup_2 |].
    destruct (Hb p' l') as (n' & Hn' & Hl'); [by eapply list_elem_of_lookup_2 |].
    assert (p ≠ p') by (intros ->; apply Hne, (NoDup_lookup held.*1 i i' p' Hnd); by rewrite list_lookup_fmap, ?Hp, ?Hp').
    destruct (hi_apart _ _ _ _ _ Hi (p - 4) n (p' - 4) n' Hn Hn'); lia.
Qed.
End operations.

(** ** Witnesses *)

(** A machine whose heap may end at 0x5000 at most. *)
Definition example_zeros (a n : Z) : memory := list_to_map ((λ x, (x, 0)) <$> seqZ a n).

#[local] Instance example_limit : Memlimit Z := {|
  syscall_memlimit a '(e, m) :=
    if a =? 0 then Ok (e, (e, m))
    else if a <=? 0x5000 then Ok (a, (a, m ∪ example_zeros e (a - e)))
    else Ok (0, (e, m));
|}.

Lemma example_zeros_at a n x : a ≤ x < a + n → example_zeros a n !! x = Some 0.
Proof.
  intros Hx. apply elem_of_list_to_map_1.
  - rewrite <- list_fmap_compose. apply NoDup_fmap_2; [intros y z; cbn; lia | apply NoDup_seqZ].
  - apply list_elem_of_fmap. exists x. split; [done |]. apply elem_of_seqZ. lia.
Qed.

#[local] Program Instance example_limit_laws : MemlimitLaws Z := {| heap_top e := e; limit_ok e := 0 < e |}.
Next Obligation. done. Qed.
Next Obligation. done. Qed.
Next Obligation.
  intros e m a He Ha. simpl in *. rewrite (proj2 (Z.eqb_neq a 0)) by lia. destruct (Z.leb_spec a 0x5000) as [Hle|Hgt].
  - eexists _, _, _. split; [done |]. split; [apply map_union_subseteq_l |]. right. split_and!; [done | lia | lia | done |].
    intros x Hx. rewrite lookup_union, (example_zeros_at e (a - e) x Hx). by destruct (m !! x); eexists.
  - eexists _, _, _. split; [done |]. split; [done |]. by left.
Qed.

Lemma user_heap_safe_witness :
  ∃ held s', run_ops [OMalloc 10; OCalloc 4 3; OSet 0 2 7; OFree 1; OMalloc 5; ORealloc 0 20] [] (mk_uheap 0x3000 ∅ 0) = Ok (Some held, s') ∧
    length held = 2%nat ∧
    ∀ i i' p l p' l', i ≠ i' → held !! i = Some (p, l) → held !! i' = Some (p', l') →
      p + Z.of_nat (length l) ≤ p' ∨ p' + Z.of_nat (length l') ≤ p.
Proof.
  destruct (user_heap_safe [OMalloc 10; OCalloc 4 3; OSet 0 2 7; OFree 1; OMalloc 5; ORealloc 0 20] (mk_uheap 0x3000 ∅ 0))
    as [(r & s' & He & Hr)|[He _]]; [reflexivity | vm_compute; discriminate | reflexivity | reflexivity | repeat constructor; vm_compute; discriminate | |].
  2: { vm_compute in He. discriminate. }
  destruct r as [held|]; [| vm_compute in He; discriminate].
  exists held, s'. split; [exact He |]. split; [| apply Hr; reflexivity].
  vm_compute in He. injection He as <- _. reflexivity.
Defined.
