(* ===== verification/Metadev.v ===== *)
(** * Clock, processors and shutdown (src/buenos/drivers/metadev.c,
      src/buenos/kernel/panic.c)

    The functions that use the devices of which the init functions are in
    [Devices].  A register is an address; loads and stores of registers are the
    class [IoPorts].  A store to the shutdown device that turns the machine off
    does not come back, which is the outcome [Block]. *)

From S2P Require Import Prelude Kmalloc Sched Devices DevicesSpec.
Local Open Scope Z_scope.

Definition DEFAULT_SHUTDOWN_MAGIC : Z := 0xdeadc0de.
Definition POWEROFF_SHUTDOWN_MAGIC : Z := 0x0badf00d.
Definition CPU_COMMAND_RAISE_IRQ : Z := 0x00.
Definition CPU_COMMAND_CLEAR_IRQ : Z := 0x01.
Definition CPU_STATUS_IRQ (status : Z) : Z := Z.land status 0x00000002.

Class IoPorts (H : Type) := { io_load : Z → K H Z; io_store : Z → Z → K H unit }.

Section metadev.
Context {H : Type} `{IoPorts H}.

(** [status] and [command] of [cpu_io_area_t] *)
Definition cpu_status (iobase : Z) : Z := iobase.
Definition cpu_command (iobase : Z) : Z := iobase + 4.

(** The device of the clock is the static variable [system_rtc]. *)
Definition rtc_get_msec (system_rtc : device) : K H Z := io_load (dev_io_address system_rtc).
Definition rtc_get_clockspeed (system_rtc : device) : K H Z := io_load (dev_io_address system_rtc + 4).
Definition meminfo_get_pages (system_meminfo : device) : K H Z := io_load (dev_io_address system_meminfo).

(** [cpu] is the pointer [dev->real_device]; [dev] is followed before it is
    compared with [NULL]. *)
Definition cpustatus_generate_irq (dev : option device) (cpu : Z) : K H unit :=
  match dev with
  | None => pure Undef
  | Some d =>
      kassert (true && negb (cpu =? 0));;
      io_store (cpu_command (dev_io_address d)) CPU_COMMAND_RAISE_IRQ
  end.

Definition cpustatus_interrupt_handle (this_cpu : Z) (dev : option device) (cpu : Z) : K H unit :=
  match dev with
  | None => pure Undef
  | Some d =>
      kassert (true || negb (cpu =? 0));;
      if negb (this_cpu =? Z.land (dev_type d) 0xFF) then mret tt
      else
        st ← io_load (cpu_status (dev_io_address d));
        if CPU_STATUS_IRQ st =? 0 then mret tt
        else io_store (cpu_command (dev_io_address d)) CPU_COMMAND_CLEAR_IRQ
  end.

(** The loop of [shutdown] over the descriptors. *)
Fixpoint shutdown_loop (descs : list io_descriptor) (magic : Z) : K H unit :=
  match descs with
  | [] => mret tt
  | d :: descs' =>
      (if io_type d =? YAMS_TYPECODE_SHUTDOWN then io_store (io_area_base d) magic else mret tt);;
      shutdown_loop descs' magic
  end.

(** [shutdown_init_done], and the device if it is set. *)
Definition shutdown (init_done : bool) (system_shutdown : device) (descs : list io_descriptor) (magic : Z) : K H unit :=
  (if init_done then io_store (dev_io_address system_shutdown) magic else mret tt);;
  shutdown_loop (take YAMS_MAX_DEVICES descs) magic.

(** [_kernel_panic], less the message. *)
Definition kernel_panic (init_done : bool) (system_shutdown : device) (descs : list io_descriptor) : K H unit :=
  shutdown init_done system_shutdown descs DEFAULT_SHUTDOWN_MAGIC.

(** ** What they do *)

(** A processor clears the interrupt of its own status device and of no other:
    [cpustatus_interrupt_handle] is called for all of them on every interrupt of
    the line. *)
Lemma cpustatus_own this_cpu d cpu st p :
  io_load (cpu_status (dev_io_address d)) p = Ok (st, p) →
  cpustatus_interrupt_handle this_cpu (Some d) cpu p =
  if bool_decide (this_cpu = dev_type d mod 256 ∧ Z.testbit st 1 = true)
  then io_store (cpu_command (dev_io_address d)) CPU_COMMAND_CLEAR_IRQ p else Ok (tt, p).
Proof.
  intros Hld. unfold cpustatus_interrupt_handle. rewrite bind_kassert by done.
  assert (E : Z.land (dev_type d) 0xFF = dev_type d mod 256) by exact (Z.land_ones (dev_type d) 8 ltac:(lia)). rewrite E.
  destruct (Z.eqb_spec this_cpu (dev_type d mod 256)) as [E1|E1]; cbn [negb].
  2: { by rewrite bool_decide_false by tauto. }
  rewrite (bind_Ok _ _ _ _ _ Hld). unfold CPU_STATUS_IRQ.
  assert (Hbit : Z.land st 2 = 0 ↔ Z.testbit st 1 = false).
  { split; [intros E2; pose proof (Z.land_spec st 2 1) as Hb; rewrite E2, andb_true_r in Hb; by rewrite <- Hb |].
    intros Hf. apply Z.bits_inj'. intros i Hi. rewrite Z.land_spec, Z.bits_0. change 2 with (2 ^ 1). rewrite Z.pow2_bits_eqb by lia.
    destruct (Z.eqb_spec 1 i) as [<-|]; [by rewrite Hf | by rewrite andb_false_r]. }
  destruct (Z.eqb_spec (Z.land st 2) 0) as [E2|E2].
  - rewrite bool_decide_false; [done |]. intros [_ Ht]. apply Hbit in E2. congruence.
  - rewrite bool_decide_true; [done |]. split; [done |]. destruct (Z.testbit st 1); [done |]. by destruct E2; apply Hbit.
Qed.

(** A panic ends the run.  If the machine has a shutdown device, whether its
    init function has run or not, and a store to it turns the machine off, then
    [_kernel_panic] does not return; without one it returns and the code goes on
    behind the panic. *)
Lemma shutdown_loop_stops descs magic d :
  (∀ a v p, io_store a v p = Block ∨ ∃ p', io_store a v p = Ok (tt, p')) →
  d ∈ descs → io_type d = YAMS_TYPECODE_SHUTDOWN → (∀ p, io_store (io_area_base d) magic p = Block) →
  ∀ p : H, shutdown_loop descs magic p = Block.
Proof.
  intros Hst Hd Ht Hoff. induction Hd as [|d e l Hd IH]; intros p; cbn [shutdown_loop]; unfold mbind, K_bind.
  - rewrite Ht, Z.eqb_refl. by rewrite Hoff.
  - destruct (io_type e =? YAMS_TYPECODE_SHUTDOWN); [| by apply IH]. destruct (Hst (io_area_base e) magic p) as [->|[p' ->]]; [done | by apply IH].
Qed.

Theorem panic_stops init_done dev descs d :
  (∀ a v p, io_store a v p = Block ∨ ∃ p', io_store a v p = Ok (tt, p')) →
  d ∈ take YAMS_MAX_DEVICES descs → io_type d = YAMS_TYPECODE_SHUTDOWN → (∀ p, io_store (io_area_base d) DEFAULT_SHUTDOWN_MAGIC p = Block) →
  ∀ p : H, kernel_panic init_done dev descs p = Block.
Proof.
  intros Hst Hd Ht Hoff p. unfold kernel_panic, shutdown, mbind, K_bind. destruct init_done; [| by apply (shutdown_loop_stops _ _ d)].
  destruct (Hst (dev_io_address dev) DEFAULT_SHUTDOWN_MAGIC p) as [->|[p' ->]]; [done | by apply (shutdown_loop_stops _ _ d)].
Qed.

Lemma panic_returns dev descs (p : H) :
  Forall (λ d, io_type d ≠ YAMS_TYPECODE_SHUTDOWN) (take YAMS_MAX_DEVICES descs) → kernel_panic false dev descs p = Ok (tt, p).
Proof.
  unfold kernel_panic, shutdown. generalize (take YAMS_MAX_DEVICES descs). intros l Hl. unfold mbind, K_bind, mret, K_ret.
  induction Hl as [|d l Hd Hl IH]; [done |]. cbn [shutdown_loop]. unfold mbind, K_bind. by rewrite (proj2 (Z.eqb_neq _ _) Hd).
Qed.
End metadev.

(** ** A machine that can be turned off *)

#[local] Instance example_ports : IoPorts (list (Z * Z)) := {|
  io_load := λ _ l, Ok (2, l);
  io_store := λ a v l, if (a =? 0xb0000150) && (v =? DEFAULT_SHUTDOWN_MAGIC) then Block else Ok (tt, l ++ [(a, v)]);
|}.

Example panic_off : kernel_panic false (mk_device 0 0 0) (example_descs ++ [mk_io_descriptor 0x103 0xb0000150 4 0]) [] = Block.
Proof.
  apply (panic_stops _ _ _ (mk_io_descriptor 0x103 0xb0000150 4 0)); [| set_solver | done | done].
  intros a v l. cbn. case_match; [by left | right; by eexists].
Qed.
