(* ===== verification/Debug.v ===== *)
(** * Debug messages (src/buenos/lib/debug.c)

    A message is printed when its level is a boot argument. *)

From S2P Require Import Prelude Kmalloc Libc Xprintf XprintfSpec Bootargs.
Local Open Scope Z_scope.

Section debug.
Context (rev0 : bytes).

(** The boot arguments and the polling terminal; [kvprintf] has as many turns as
    its fuel. *)
Definition DEBUG (fuel : nat) (debuglevelname format : bytes) (args : list argument) : K (bootargs * out) unit :=
  p ← zoom fst (λ a s, (a, snd s)) (bootargs_get debuglevelname);
  match p with
  | None => mret tt
  | Some _ => zoom snd (λ o s, (fst s, o)) (kvprintf rev0 fuel format args);; mret tt
  end.

(** A level that was not given prints nothing, whatever its format and
    arguments; one that was given, with or without a value, prints as [kvprintf]
    does. *)
Theorem debug_prints args level b fuel format ap a o :
  Forall arg_ok args → args_read args a → cstr level = Some b →
  DEBUG fuel level format ap (a, o) =
  match arg_value args b with
  | None => Ok (tt, (a, o))
  | Some _ => match kvprintf rev0 fuel format ap o with
              | Ok (_, o') => Ok (tt, (a, o'))
              | Panic e => Panic e | Block => Block | Undef => Undef | NoFuel => NoFuel
              end
  end.
Proof.
  intros Hok Hread Hlevel. pose proof (bootargs_get_wp a args level b Hok Hlevel Hread) as (p & a' & E & -> & Hp)%wp_iff.
  unfold DEBUG, mbind, K_bind, zoom. cbn [fst snd]. rewrite E. destruct p as [p|].
  - destruct Hp as [[v ->] _]. cbn [fst snd]. by destruct (kvprintf rev0 fuel format ap o) as [[]| | | |].
  - by rewrite Hp.
Qed.
End debug.
