(* ===== verification/Polltty.v ===== *)
(** * The polling terminal (src/buenos/drivers/polltty.c, and kwrite and kread of
      src/buenos/lib/libc.c)

    The kernel's own messages go to the first terminal without interrupts: the
    driver reads the status until the device is ready.  The device is the class
    [TtyPort] of the terminal driver; here time passes while it is polled, which
    the class [PollLaws] says. *)

From S2P Require Import Prelude Kmalloc Sched Libc Tty TtySpec.
Local Open Scope Z_scope.

(** [polltty_init]: the base of the first terminal, 0 if there is none; the
    loop ends at a descriptor of type 0. *)
Fixpoint polltty_init (l : list io_descriptor) : res Z :=
  match l with
  | [] => Undef
  | d :: l' => if io_type d =? 0 then Ok 0 else if io_type d =? 0x201 then Ok (io_area_base d) else polltty_init l'
  end.

Section polltty.
Context {H : Type} `{TtyPort H}.
(** The static variable of the driver, 0 when there is no terminal; the number
    of times the status is read at most. *)
Context (polltty_iobase : Z) (fuel : nat).

(** [while (TTY_STATUS_RAVAIL(polltty_iobase->status) == 0);] *)
Fixpoint wait_avail (fuel : nat) : K H unit :=
  match fuel with
  | O => pure NoFuel
  | S fuel' => st ← port_status; if TTY_STATUS_RAVAIL st =? 0 then wait_avail fuel' else mret tt
  end.

(** [while (TTY_STATUS_WBUSY(polltty_iobase->status) != 0);] *)
Fixpoint wait_idle (fuel : nat) : K H unit :=
  match fuel with
  | O => pure NoFuel
  | S fuel' => st ← port_status; if negb (TTY_STATUS_WBUSY st =? 0) then wait_idle fuel' else mret tt
  end.

Definition polltty_getchar : K H Z :=
  if polltty_iobase =? 0 then mret 0
  else
    wait_avail fuel;;
    port_command TTY_COMMAND_RIRQ;;
    d ← get_data;
    mret (s32 d).

Definition polltty_putchar (c : Z) : K H unit :=
  if negb (polltty_iobase =? 0) then
    wait_idle fuel;;
    put_data (u32 (schar c));;
    wait_idle fuel
  else mret tt.

Fixpoint kwrite (s : bytes) : K H unit :=
  match s with
  | [] => pure Undef
  | c :: s' => if c =? 0 then mret tt else polltty_putchar c;; kwrite s'
  end.

(** The loop of [kread], which stores a character in each turn but the last. *)
Fixpoint kread_loop (turns : nat) (s : bytes) (len count : Z) : K H (bytes * Z) :=
  match turns with
  | O => pure NoFuel
  | S turns' =>
      ch ← polltty_getchar;
      if negb (ch =? 10) && (count <? len - 1) then
        s ← pure (aset s count (Z.land ch 0xff));
        kread_loop turns' s len (count + 1)
      else mret (s, count)
  end.
Definition kread (s : bytes) (len : Z) : K H bytes :=
  '(s, count) ← kread_loop (S (Z.to_nat (len - 1))) s len 0;
  pure (aset s count 0).
End polltty.

(** ** What the driver relies on *)

Class PollLaws (H : Type) `{TtyPort H} := {
  (** the characters shown, and those that will be typed and were not read yet *)
  shown : H → list Z;
  keys : H → list Z;
  (** how often the status is still read until the device is ready to show a
      character, and until the next key is there *)
  idle_in : H → nat;
  key_in : H → nat;
  polls : nat;
  poll_bound p : (idle_in p ≤ polls)%nat ∧ (key_in p ≤ polls)%nat;
  poll_status p :
    wp port_status (λ st p', shown p' = shown p ∧ keys p' = keys p ∧ idle_in p' = pred (idle_in p) ∧ key_in p' = pred (key_in p) ∧
      (TTY_STATUS_WBUSY st = 0 ↔ idle_in p = 0%nat) ∧ (keys p ≠ [] → TTY_STATUS_RAVAIL st ≠ 0 ↔ key_in p = 0%nat)) p;
  poll_clear p :
    wp (port_command TTY_COMMAND_RIRQ) (λ _ p', shown p' = shown p ∧ keys p' = keys p ∧ key_in p' = key_in p) p;
  poll_put p v : idle_in p = 0%nat → wp (put_data v) (λ _ p', shown p' = shown p ++ [v mod 256] ∧ keys p' = keys p) p;
  poll_get p c r : keys p = c :: r → key_in p = 0%nat → wp get_data (λ v p', v = c ∧ keys p' = r ∧ shown p' = shown p) p;
}.

Section poll_spec.
Context {H : Type} `{PollLaws H} (iobase : Z) (fuel : nat).
Context (has_tty : iobase ≠ 0) (enough : (polls < fuel)%nat).

Lemma wait_idle_wp n : ∀ p, (idle_in p < n)%nat →
  wp (wait_idle n) (λ _ p', shown p' = shown p ∧ keys p' = keys p ∧ idle_in p' = 0%nat) p.
Proof using Type*.
  induction n as [|n IH]; intros p Hn; [lia |]. cbn [wait_idle]. wp_step. eapply wp_mono; [apply poll_status |].
  intros st p' (Hs & Hk & Hi & _ & Hst & _). case_test.
  - assert (idle_in p ≠ 0%nat) by tauto. eapply wp_mono; [apply IH; lia |]. cbn. intros [] p'' (-> & -> & ->). done.
  - wp_step. split_and!; [done | done |]. rewrite Hi, (proj1 Hst) by done. done.
Qed.

Lemma wait_avail_wp n : ∀ p, keys p ≠ [] → (key_in p < n)%nat →
  wp (wait_avail n) (λ _ p', shown p' = shown p ∧ keys p' = keys p ∧ key_in p' = 0%nat) p.
Proof using Type*.
  induction n as [|n IH]; intros p Hk0 Hn; [lia |]. cbn [wait_avail]. wp_step. eapply wp_mono; [apply poll_status |].
  intros st p' (Hs & Hk & _ & Hi & _ & Hst). specialize (Hst Hk0). case_test.
  - assert (key_in p ≠ 0%nat) by tauto. eapply wp_mono; [apply IH; [by rewrite Hk | lia] |]. cbn. intros [] p'' (-> & -> & ->). done.
  - wp_step. split_and!; [done | done |]. rewrite Hi, (proj1 Hst) by done. done.
Qed.

Lemma putchar_wp c p : is_byte c → wp (polltty_putchar iobase fuel c) (λ _ p', shown p' = shown p ++ [c] ∧ keys p' = keys p) p.
Proof using Type*.
  intros Hc. unfold polltty_putchar. rewrite (proj2 (Z.eqb_neq _ _) has_tty). cbn [negb]. wp_step.
  eapply wp_mono; [apply wait_idle_wp; pose proof (poll_bound p); lia |]. intros [] p1 (Hs1 & Hk1 & Hi1). wp_step.
  eapply wp_mono; [by apply poll_put |]. intros [] p2 [Hs2 Hk2]. rewrite char_port in Hs2 by done.
  eapply wp_mono; [apply wait_idle_wp; pose proof (poll_bound p2); lia |]. intros [] p3 (Hs3 & Hk3 & _). split; congruence.
Qed.

Lemma getchar_wp c r p :
  keys p = c :: r → is_byte c → wp (polltty_getchar iobase fuel) (λ v p', v = c ∧ keys p' = r ∧ shown p' = shown p) p.
Proof using Type*.
  intros Hk Hc. unfold polltty_getchar. rewrite (proj2 (Z.eqb_neq _ _) has_tty). wp_step.
  eapply wp_mono; [apply wait_avail_wp; [by rewrite Hk | pose proof (poll_bound p); lia] |]. intros [] p1 (Hs1 & Hk1 & Hi1). wp_step.
  eapply wp_mono; [apply poll_clear |]. intros [] p2 (Hs2 & Hk2 & Hi2). wp_step. rewrite Hk in Hk1. rewrite Hk1 in Hk2. rewrite Hi1 in Hi2.
  eapply wp_mono; [by apply (poll_get p2 c r) |]. intros v p3 (-> & Hk3 & Hs3). wp_step. unfold is_byte in Hc.
  rewrite s32_small by (unfold is_s32; lia). split_and!; congruence.
Qed.

(** A message is shown, all of it and once, and nothing that is typed meanwhile
    is lost. *)
Theorem kwrite_shows s a p :
  cstr s = Some a → is_bytes s → wp (kwrite iobase fuel s) (λ _ p', shown p' = shown p ++ a ∧ keys p' = keys p) p.
Proof using Type*.
  revert a p. induction s as [|c s IH]; intros a p; cbn [cstr kwrite]; [done |]. intros Ha [Hc Hs]%Forall_cons.
  case_test; [injection Ha as <-; wp_step; by rewrite app_nil_r |]. destruct (cstr s) as [b|]; [| done]. injection Ha as <-. wp_step.
  eapply wp_mono; [by apply putchar_wp |]. intros [] p1 [Hs1 Hk1]. eapply wp_mono; [by apply IH |]. intros [] p2 [Hs2 Hk2].
  rewrite Hs2, Hs1, <- app_assoc. split; [done | congruence].
Qed.

Lemma kread_loop_wp turns : ∀ line s done c rest len p,
  keys p = line ++ c :: rest → 10 ∉ line → Forall is_byte (line ++ [c]) →
  (c = 10 ∨ Z.of_nat (length done + length line) = len - 1) → Z.of_nat (length done + length line) ≤ len - 1 →
  len ≤ Z.of_nat (length s) → take (length done) s = done → (length line < turns)%nat →
  wp (kread_loop iobase fuel turns s len (Z.of_nat (length done)))
    (λ '(s', count) p', count = Z.of_nat (length done + length line) ∧ take (length done + length line) s' = done ++ line ∧
      length s' = length s ∧ keys p' = rest ∧ shown p' = shown p) p.
Proof using Type*.
  induction turns as [|turns IH]; intros line s dn c rest len p Hk Hnl Hb Hend Hle Hlen Hpre Hturns; [lia |]. cbn [kread_loop]. wp_step.
  destruct line as [|k line].
  - cbn in Hk, Hb. apply Forall_cons in Hb as [Hc _]. eapply wp_mono; [by apply (getchar_wp c rest) |]. intros ? p1 (-> & Hk1 & Hs1).
    rewrite Nat.add_0_r, app_nil_r in *. replace (negb (c =? 10) && _) with false; [by wp_step |].
    symmetry. apply andb_false_iff. destruct Hend as [->|Hend]; [by left | right; apply Z.ltb_ge; lia].
  - cbn in Hk, Hb, Hle, Hend, Hturns. apply Forall_cons in Hb as [Hc Hb]. apply not_elem_of_cons in Hnl as [Hne Hnl].
    eapply wp_mono; [by apply (getchar_wp k (line ++ c :: rest)) |]. intros ? p1 (-> & Hk1 & Hs1).
    rewrite (proj2 (Z.eqb_neq k 10)), (proj2 (Z.ltb_lt _ _)) by (done || lia). cbn [negb andb]. wp_step.
    eapply wp_pure; [apply aset_Ok; lia |]. rewrite Nat2Z.id.
    assert (Hkb : Z.land k 0xff = k) by (rewrite land_mod; by apply Z.mod_small). rewrite Hkb.
    specialize (IH line (<[length dn := k]> s) (dn ++ [k]) c rest len p1). rewrite length_app, length_insert in IH. cbn in IH.
    replace (Z.of_nat (length dn) + 1) with (Z.of_nat (length dn + 1)) by lia. eapply wp_mono.
    { apply IH; try done; [destruct Hend; [by left | right; lia] | lia | | lia].
      rewrite Nat.add_1_r, (take_S_r _ _ k) by (apply list_lookup_insert_eq; lia). by rewrite take_insert_ge, Hpre by lia. }
    intros [s' count] p2 (-> & Ht & Hl & Hk2 & Hs2). cbn. rewrite <- app_assoc in Ht. rewrite <- Nat.add_assoc in *.
    split_and!; [done | done | done | done | congruence].
Qed.

(** A line is read up to its end, which is not stored.  A line that does not fit
    is cut, and the character after the cut is lost. *)
Theorem kread_line line s c rest len p :
  keys p = line ++ c :: rest → 10 ∉ line → Forall is_byte (line ++ [c]) →
  (c = 10 ∨ Z.of_nat (length line) = len - 1) → Z.of_nat (length line) ≤ len - 1 → len ≤ Z.of_nat (length s) →
  wp (kread iobase fuel s len) (λ s' p', take (S (length line)) s' = line ++ [0] ∧ length s' = length s ∧ keys p' = rest ∧ shown p' = shown p) p.
Proof using Type*.
  intros Hk Hnl Hb Hend Hle Hlen. unfold kread. wp_step.
  eapply wp_mono; [apply (kread_loop_wp _ line s [] c rest len p); try done; [cbn; lia] |].
  intros [s' count] p1 (-> & Ht & Hl & Hk1 & Hs1). cbn in Ht |- *. eapply wp_pure; [apply aset_Ok; lia |]. rewrite Nat2Z.id, length_insert.
  split_and!; [| done | done | done]. rewrite (take_S_r _ _ 0) by (apply list_lookup_insert_eq; lia). by rewrite take_insert_ge, Ht by lia.
Qed.
End poll_spec.

(** ** A device that keeps the laws *)

Record poll_device := mk_pdev { pd_shown : list Z; pd_keys : list Z; pd_busy : bool; pd_late : bool }.

(** Showing a character takes one poll, and so does the next key. *)
#[local] Instance poll_port : TtyPort poll_device := {|
  port_status := λ d, Ok ((if pd_busy d then 2 else 0) + (if pd_late d then 0 else 1), mk_pdev (pd_shown d) (pd_keys d) false false);
  port_command := λ _ d, Ok (tt, d);
  put_data := λ v d, Ok (tt, mk_pdev (pd_shown d ++ [v mod 256]) (pd_keys d) true (pd_late d));
  get_data := λ d, match pd_keys d with [] => Undef | c :: r => Ok (c, mk_pdev (pd_shown d) r (pd_busy d) true) end;
|}.

#[local] Program Instance poll_laws : PollLaws poll_device := {|
  shown := pd_shown; keys := pd_keys; idle_in d := if pd_busy d then 1%nat else 0%nat; key_in d := if pd_late d then 1%nat else 0%nat; polls := 1;
|}.
Next Obligation. intros [? ? [] []]; cbn; lia. Qed.
Next Obligation. intros [? ? [] []]; cbn; split_and!; done. Qed.
Next Obligation. intros [? ? [] []]; by cbn. Qed.
Next Obligation. intros [? ? [] []] v; by cbn. Qed.
Next Obligation. intros [? ? [] []] c r; cbn; intros ->; by cbn. Qed.

(** "ok" is shown; of the line "abc" a buffer of three bytes takes two
    characters, and the third is gone. *)
Example kwrite_ok : kwrite 0xb0000130 2 [111; 107; 0; 7] (mk_pdev [62] [] true true) = Ok (tt, mk_pdev [62; 111; 107] [] false false).
Proof. reflexivity. Qed.
Example kread_cut : kread 0xb0000130 2 [9; 9; 9] 3 (mk_pdev [] [97; 98; 99; 10] true true) = Ok ([97; 98; 0], mk_pdev [] [10] false true).
Proof. reflexivity. Qed.
