(* ===== verification/UserCalls.v ===== *)
(** * The system calls of the library of user programs (src/buenos/tests/lib.c
      and _syscall.S)

    A call puts its number and arguments into the registers A0 to A3 and traps.
    The library and the [switch] of the kernel have to agree on the numbers, on
    the order of the arguments and on their types; [library_calls] says that
    they do. *)

From S2P Require Import Prelude Bitmap Kmalloc Pagepool Vm UserMem Sched SchedSpec Semaphore Libc FsCodes Vfs Process ProcessSpec Io Fork ForkSpec UsrSem VfsSpec VfsTfs IoSpec ElfSpec Syscall SyscallSpec.
Local Open Scope Z_scope.

Section user_calls.
Context {P : Type} `{PageAlloc P} {F : Type} `{Filesystems F} {T : Type} `{Console T}.
Context (ptable_addr start_addr setup_addr stacks finish_addr sems_addr usr_addr : Z)
        (junk : bytes) (tty0 : option Z) (frame : Z → Z) (in_interrupt : bool).
(** What the TLB registers hold, which a system call does not look at. *)
Context (tes : tlb_exception_state).
Abbreviation mach := (@machine P F T).
Abbreviation syscall := (syscall ptable_addr start_addr setup_addr stacks finish_addr sems_addr usr_addr junk tty0 frame in_interrupt).
Abbreviation user_exception_handle :=
  (user_exception_handle ptable_addr start_addr setup_addr stacks finish_addr sems_addr usr_addr junk tty0 frame in_interrupt).

(** The registers with the arguments of [_syscall] in place. *)
Definition with_args (n a1 a2 a3 : Z) (c : ucontext) : ucontext :=
  mk_uctx (<[Z.to_nat MIPS_REGISTER_A3 := a3]> (<[Z.to_nat MIPS_REGISTER_A2 := a2]> (<[Z.to_nat MIPS_REGISTER_A1 := a1]>
    (<[Z.to_nat MIPS_REGISTER_A0 := n]> (cpu_regs c))))) (uc_hi c) (uc_lo c) (uc_pc c) (uc_status c) (uc_prev c).

(** The instruction saves the registers in the context of the thread, and the
    handler runs.  The result is what V0 holds when the program goes on, [None]
    when it does not go on: it sleeps, has ended, or the machine is off. *)
Definition _syscall (cpu n a1 a2 a3 : Z) : K mach (option Z) :=
  th ← in_mk (current_thread cpu);
  s ← gets id;
  match m_ctx s !! th_context th with
  | None => pure Undef
  | Some c =>
      modify (set_ctx (<[th_context th := with_args n a1 a2 a3 c]> (m_ctx s)));;
      o ← user_exception_handle cpu EXCEPTION_SYSCALL tes;
      match o with
      | Back =>
          s ← gets id;
          match m_ctx s !! th_context th with
          | None => pure Undef
          | Some c => v ← pure (aget (cpu_regs c) MIPS_REGISTER_V0); mret (Some v)
          end
      | _ => mret None
      end
  end.

(** A pointer is its address; [(int)] of the result. *)
Definition int_of (m : K mach (option Z)) : K mach (option Z) := r ← m; mret (s32 <$> r).

Definition syscall_sem_open (cpu handle value : Z) : K mach (option Z) := _syscall cpu SYSCALL_SEM_OPEN handle (u32 value) 0.
Definition syscall_sem_p (cpu handle : Z) : K mach (option Z) := int_of (_syscall cpu SYSCALL_SEM_PROCURE handle 0 0).
Definition syscall_sem_v (cpu handle : Z) : K mach (option Z) := int_of (_syscall cpu SYSCALL_SEM_VACATE handle 0 0).
Definition syscall_sem_destroy (cpu handle : Z) : K mach (option Z) := int_of (_syscall cpu SYSCALL_SEM_DESTROY handle 0 0).
Definition syscall_halt (cpu : Z) : K mach (option Z) := _syscall cpu SYSCALL_HALT 0 0 0.
Definition syscall_exec (cpu filename : Z) : K mach (option Z) := int_of (_syscall cpu SYSCALL_EXEC filename 0 0).
Definition syscall_execp (cpu filename argc argv : Z) : K mach (option Z) := int_of (_syscall cpu SYSCALL_EXEC filename (u32 argc) argv).
Definition syscall_exit (cpu retval : Z) : K mach (option Z) := _syscall cpu SYSCALL_EXIT (u32 retval) 0 0.
Definition syscall_join (cpu pid : Z) : K mach (option Z) := int_of (_syscall cpu SYSCALL_JOIN (u32 pid) 0 0).
Definition syscall_fork (cpu : Z) : K mach (option Z) := int_of (_syscall cpu SYSCALL_FORK 0 0 0).
Definition syscall_getpid (cpu : Z) : K mach (option Z) := int_of (_syscall cpu SYSCALL_GETPID 0 0 0).
Definition syscall_memlimit (cpu heap_end : Z) : K mach (option Z) := _syscall cpu SYSCALL_MEMLIMIT heap_end 0 0.
Definition syscall_open (cpu filename : Z) : K mach (option Z) := int_of (_syscall cpu SYSCALL_OPEN filename 0 0).
Definition syscall_close (cpu filehandle : Z) : K mach (option Z) := int_of (_syscall cpu SYSCALL_CLOSE (u32 filehandle) 0 0).
Definition syscall_read (cpu filehandle buffer length : Z) : K mach (option Z) :=
  int_of (_syscall cpu SYSCALL_READ (u32 filehandle) buffer (u32 length)).
Definition syscall_seek (cpu filehandle offset : Z) : K mach (option Z) :=
  int_of (_syscall cpu SYSCALL_SEEK (u32 filehandle) (u32 offset) 0).
Definition syscall_write (cpu filehandle buffer length : Z) : K mach (option Z) :=
  int_of (_syscall cpu SYSCALL_WRITE (u32 filehandle) buffer (u32 length)).
Definition syscall_create (cpu filename size : Z) : K mach (option Z) := int_of (_syscall cpu SYSCALL_CREATE filename (u32 size) 0).
Definition syscall_remove (cpu filename : Z) : K mach (option Z) := int_of (_syscall cpu SYSCALL_REMOVE filename 0 0).

(** ** The kernel functions behind the calls *)

(** The calls of the library, on the values the program gives. *)
Inductive call :=
| CSemOpen (name value : Z) | CSemP (handle : Z) | CSemV (handle : Z) | CSemDestroy (handle : Z)
| CHalt | CExec (filename : Z) | CExecp (filename argc argv : Z) | CExit (retval : Z) | CJoin (pid : Z) | CFork | CGetpid
| CMemlimit (heap_end : Z) | COpen (filename : Z) | CClose (filehandle : Z) | CRead (filehandle buffer length : Z)
| CSeek (filehandle offset : Z) | CWrite (filehandle buffer length : Z) | CCreate (filename size : Z) | CRemove (filename : Z).

Definition library (cpu : Z) (q : call) : K mach (option Z) :=
  match q with
  | CSemOpen name value => syscall_sem_open cpu name value
  | CSemP handle => syscall_sem_p cpu handle
  | CSemV handle => syscall_sem_v cpu handle
  | CSemDestroy handle => syscall_sem_destroy cpu handle
  | CHalt => syscall_halt cpu
  | CExec filename => syscall_exec cpu filename
  | CExecp filename argc argv => syscall_execp cpu filename argc argv
  | CExit retval => syscall_exit cpu retval
  | CJoin pid => syscall_join cpu pid
  | CFork => syscall_fork cpu
  | CGetpid => syscall_getpid cpu
  | CMemlimit heap_end => syscall_memlimit cpu heap_end
  | COpen filename => syscall_open cpu filename
  | CClose filehandle => syscall_close cpu filehandle
  | CRead filehandle buffer length => syscall_read cpu filehandle buffer length
  | CSeek filehandle offset => syscall_seek cpu filehandle offset
  | CWrite filehandle buffer length => syscall_write cpu filehandle buffer length
  | CCreate filename size => syscall_create cpu filename size
  | CRemove filename => syscall_remove cpu filename
  end.

(** Integers are integers of their type. *)
Definition call_ok (q : call) : Prop :=
  match q with
  | CSemOpen _ v | CExit v | CJoin v | CClose v | CCreate _ v => is_s32 v
  | CExecp _ v _ => is_s32 v
  | CRead v _ w | CWrite v _ w | CSeek v w => is_s32 v ∧ is_s32 w
  | _ => True
  end.

(** What the kernel does for it: the function, on the caller's values. *)
Definition service (cpu : Z) (q : call) : K mach call_result :=
  let V0 (m : K mach Z) : K mach call_result := v ← m; mret (Returns v) in
  match q with
  | CSemOpen name value => a ← user_string cpu name; V0 (in_usr (usr_sem_open usr_addr cpu a value))
  | CSemP handle => V0 (in_usr (usr_sem_p usr_addr sems_addr cpu handle))
  | CSemV handle => V0 (in_usr (usr_sem_v usr_addr sems_addr handle))
  | CSemDestroy handle => V0 (in_usr (usr_sem_destroy usr_addr handle))
  | CHalt => halt_kernel;; mret Halts
  | CExec filename | CExecp filename _ _ => a ← user_string cpu filename; V0 (in_mk (process_spawn start_addr stacks finish_addr cpu a))
  | CExit retval => in_mk (process_finish ptable_addr cpu in_interrupt retval);; mret (if in_interrupt then Continues else Ends)
  | CJoin pid =>
      r ← in_mk (process_join ptable_addr cpu pid);
      mret (match r with Returned v => Returns v | Asleep => Joins pid end)
  | CFork => V0 (in_fork (process_fork sems_addr setup_addr stacks finish_addr frame cpu))
  | CGetpid => V0 (in_mk (process_get_current_process cpu))
  | CMemlimit heap_end => V0 (in_mk (process_memlimit cpu heap_end))
  | COpen filename => a ← user_string cpu filename; V0 (in_io (io_open junk cpu a))
  | CClose filehandle => V0 (in_io (io_close cpu filehandle))
  | CRead filehandle buffer length =>
      old ← user_buffer cpu buffer length;
      '(r, new) ← in_io (io_read tty0 cpu filehandle buffer old length);
      put_buffer cpu buffer r new old;;
      mret (Returns r)
  | CSeek filehandle offset => V0 (in_io (io_seek cpu filehandle offset))
  | CWrite filehandle buffer length => data ← user_buffer cpu buffer length; V0 (in_io (io_write tty0 cpu filehandle buffer data length))
  | CCreate filename size => a ← user_string cpu filename; V0 (in_io (io_create junk a size))
  | CRemove filename => a ← user_string cpu filename; V0 (in_io (io_remove junk a))
  end.

(** A program in thread [t] on processor [cpu] is about to make a call. *)
Record calling (s : mach) (cpu t : Z) (th : thread) (c : ucontext) : Prop := {
  cl_current : aget (scheduler_current_thread (k_sched (m_kern s))) cpu = Ok t;
  cl_thread : aget (thread_table (k_sched (m_kern s))) t = Ok th;
  cl_ctx : m_ctx s !! th_context th = Some c;
  cl_regs : length (cpu_regs c) = 29%nat;
}.

(** The state in the handler: the registers are saved and the thread knows where. *)
Definition user_here (th : thread) : thread :=
  mk_thread (th_context th) (th_ctx th) (th_context th) (state th) (sleeps_on th) (th_pagetable th) (process_id th) (next th).
Definition entered (t : Z) (th : thread) (c : ucontext) (s : mach) : mach :=
  set_kern (mk_kern (process_table (m_kern s)) (set_table (<[Z.to_nat t := user_here th]> (thread_table (k_sched (m_kern s)))) (k_sched (m_kern s)))
    (k_vm (m_kern s))) (set_ctx (<[th_context th := c]> (m_ctx s)) s).

(** What comes of a service: its value is put into V0 and behind the call, if
    the thread has not been put to sleep. *)
Definition served (cpu uc : Z) (m : K mach call_result) : K mach (option Z) :=
  t ← in_mk (on_sched (get_current cpu));
  r ← m;
  match r with
  | Returns v =>
      t' ← in_mk (on_sched (get_current cpu));
      if t' =? t then syscall_return uc v;; mret (Some (u32 v)) else mret None
  | Continues =>
      syscall_continue uc;;
      s ← gets id;
      match m_ctx s !! uc with
      | None => pure Undef
      | Some c => v ← pure (aget (cpu_regs c) MIPS_REGISTER_V0); mret (Some v)
      end
  | _ => mret None
  end.

Lemma return_V0 uc v (s s' : mach) :
  syscall_return uc v s = Ok (tt, s') → ∃ c, m_ctx s' !! uc = Some c ∧ aget (cpu_regs c) MIPS_REGISTER_V0 = Ok (u32 v).
Proof.
  unfold syscall_return, mbind, K_bind, gets, pure, modify, id. destruct (m_ctx s !! uc) as [c|]; [| done].
  destruct (aset (cpu_regs c) MIPS_REGISTER_V0 (u32 v)) as [l| | | |] eqn:E; [| done..]. apply aset_inv in E as [Hr ->].
  intros [= <-]. eexists. split; [apply lookup_insert_eq |]. apply aget_Ok. split; [done |].
  apply list_lookup_insert_eq. apply Nat2Z.inj_lt. rewrite Z2Nat.id; [apply Hr | done].
Qed.

Ltac parts := cbn [m_kern k_sched process_table k_vm set_kern set_ctx m_ctx m_sem_table m_sem_next m_usr m_vfs m_tty m_mem m_args set_table thread_table
  scheduler_current_thread user_context th_context].

Lemma _syscall_served cpu n a1 a2 a3 t th c (m : K mach call_result) (s : mach) :
  calling s cpu t th c → (∀ s', syscall cpu (with_args n a1 a2 a3 c) s' = m s') →
  _syscall cpu n a1 a2 a3 s = served cpu (th_context th) m (entered t th (with_args n a1 a2 a3 c) s).
Proof.
  intros [Hcur Hth Hctx Hl] Hm. pose proof Hth as [Ht0 Ht]%aget_Ok. apply lookup_lt_Some in Ht as Htl.
  assert (Hset : aset (thread_table (k_sched (m_kern s))) t (user_here th) = Ok (<[Z.to_nat t := user_here th]> (thread_table (k_sched (m_kern s))))) by (apply aset_Ok; lia).
  assert (Hget : aget (<[Z.to_nat t := user_here th]> (thread_table (k_sched (m_kern s)))) t = Ok (user_here th)).
  { apply aget_Ok. split; [done |]. by apply list_lookup_insert_eq. }
  unfold _syscall, Syscall.user_exception_handle, syscall_handle, served, entered, in_mk, current_thread, on_sched, set_thread, get_thread, get_current, zoom,
    mbind, K_bind, gets, pure, modify, id, mret, K_ret. unfold user_here in *.
  destruct s as [[pt q vm] st sn us vf ty me cx ar]. parts. cbn in Hcur, Hth, Hctx, Hset, Hget.
  rewrite Hcur, Hth. parts. rewrite Hctx. parts. rewrite Hcur. parts. rewrite Hth. parts. rewrite Hset. parts. rewrite Hget.
  cbn [EXCEPTION_SYSCALL EXCEPTION_TLBM EXCEPTION_TLBL EXCEPTION_TLBS EXCEPTION_ADDRL EXCEPTION_ADDRS EXCEPTION_BUSI EXCEPTION_BUSD Z.eqb Pos.eqb]. parts.
  rewrite (lookup_insert_eq cx (th_context th)). cbv beta iota. parts. rewrite Hcur. parts. rewrite Hm. unfold set_kern, set_ctx. parts.
  destruct (m _) as [[[v| |pid| |] s2]| | | |]; [| | done..].
  2: { by destruct (syscall_continue (th_context th) s2) as [[[] s3]| | | |]. }
  destruct (aget (scheduler_current_thread (k_sched (m_kern s2))) cpu) as [t'| | | |]; [| done..]. parts. destruct (t' =? t); [| done].
  destruct (syscall_return (th_context th) v _) as [[[] s3]| | | |] eqn:E; [| done..]. apply return_V0 in E as (c' & -> & ->). done.
Qed.
(** The value the library's function gives back. *)
Definition cast (q : call) (r : option Z) : option Z :=
  match q with CSemOpen _ _ | CHalt | CExit _ | CMemlimit _ => r | _ => s32 <$> r end.

Lemma arg_regs n a1 a2 a3 c :
  length (cpu_regs c) = 29%nat →
  aget (cpu_regs (with_args n a1 a2 a3 c)) MIPS_REGISTER_A0 = Ok n ∧ aget (cpu_regs (with_args n a1 a2 a3 c)) MIPS_REGISTER_A1 = Ok a1 ∧
  aget (cpu_regs (with_args n a1 a2 a3 c)) MIPS_REGISTER_A2 = Ok a2 ∧ aget (cpu_regs (with_args n a1 a2 a3 c)) MIPS_REGISTER_A3 = Ok a3.
Proof.
  intros Hl. split_and!; apply aget_Ok; (split; [done |]); cbn [with_args cpu_regs];
    repeat (rewrite list_lookup_insert_ne by done); apply list_lookup_insert_eq; rewrite ?length_insert, Hl; vm_compute; lia.
Qed.

(** The registers of a call. *)
Definition request (q : call) : Z * Z * Z * Z :=
  match q with
  | CSemOpen name value => (SYSCALL_SEM_OPEN, name, u32 value, 0)
  | CSemP handle => (SYSCALL_SEM_PROCURE, handle, 0, 0)
  | CSemV handle => (SYSCALL_SEM_VACATE, handle, 0, 0)
  | CSemDestroy handle => (SYSCALL_SEM_DESTROY, handle, 0, 0)
  | CHalt => (SYSCALL_HALT, 0, 0, 0)
  | CExec filename => (SYSCALL_EXEC, filename, 0, 0)
  | CExecp filename argc argv => (SYSCALL_EXEC, filename, u32 argc, argv)
  | CExit retval => (SYSCALL_EXIT, u32 retval, 0, 0)
  | CJoin pid => (SYSCALL_JOIN, u32 pid, 0, 0)
  | CFork => (SYSCALL_FORK, 0, 0, 0)
  | CGetpid => (SYSCALL_GETPID, 0, 0, 0)
  | CMemlimit heap_end => (SYSCALL_MEMLIMIT, heap_end, 0, 0)
  | COpen filename => (SYSCALL_OPEN, filename, 0, 0)
  | CClose filehandle => (SYSCALL_CLOSE, u32 filehandle, 0, 0)
  | CRead filehandle buffer length => (SYSCALL_READ, u32 filehandle, buffer, u32 length)
  | CSeek filehandle offset => (SYSCALL_SEEK, u32 filehandle, u32 offset, 0)
  | CWrite filehandle buffer length => (SYSCALL_WRITE, u32 filehandle, buffer, u32 length)
  | CCreate filename size => (SYSCALL_CREATE, filename, u32 size, 0)
  | CRemove filename => (SYSCALL_REMOVE, filename, 0, 0)
  end.

Definition registers (q : call) (c : ucontext) : ucontext := let '(n, a1, a2, a3) := request q in with_args n a1 a2 a3 c.

Lemma service_of cpu c q (s : mach) n a1 a2 a3 :
  length (cpu_regs c) = 29%nat → call_ok q → request q = (n, a1, a2, a3) → syscall cpu (with_args n a1 a2 a3 c) s = service cpu q s.
Proof.
  intros Hl Hq. destruct q; cbn in Hq; intros [= <- <- <- <-]; unfold Syscall.syscall, pure, mbind, K_bind;
    match goal with |- context [with_args ?n ?a ?b ?d ?c] => destruct (arg_regs n a b d c Hl) as (-> & -> & -> & ->) end;
    rewrite ?s32_u32 by (apply Hq); reflexivity.
Qed.

Lemma library_request cpu q (s : mach) n a1 a2 a3 :
  request q = (n, a1, a2, a3) → library cpu q s = (r ← _syscall cpu n a1 a2 a3; mret (cast q r)) s.
Proof.
  destruct q; intros [= <- <- <- <-]; unfold library, syscall_sem_open, syscall_halt, syscall_exit, syscall_memlimit, mbind, K_bind, mret, K_ret; cbn [cast];
    first [reflexivity | by destruct (_syscall _ _ _ _ _ s) as [[]| | | |]].
Qed.

(** C9: The calls of the library reach the kernel functions they are meant for.
    For each function of the library that makes a system call, whatever its
    arguments, the run from the trap to the return in the program is that of the
    kernel function of that name on the caller's own values, and what the
    function gives back is its result, as an int or as a pointer; so library and
    kernel agree on numbers, order and types of the arguments. *)
Theorem library_calls cpu t th c q (s : mach) :
  calling s cpu t th c → call_ok q →
  library cpu q s = (r ← served cpu (th_context th) (service cpu q); mret (cast q r)) (entered t th (registers q c) s).
Proof.
  intros Hc Hq. unfold registers. destruct (request q) as [[[n a1] a2] a3] eqn:E.
  rewrite (library_request cpu q s n a1 a2 a3 E). unfold mbind, K_bind. rewrite (_syscall_served cpu n a1 a2 a3 t th c (service cpu q) s Hc); [done |].
  intros s'. apply service_of; [apply Hc | done | done].
Qed.
End user_calls.

#[local] Existing Instance example_quiet_tty.

(** The process of the example asks for its number. *)
Definition example_trap : @machine pagepool memfs unit :=
  set_ctx {[ th_context (th (k_sched (m_kern (example_caller 0))) 1) := example_regs 0 ]} (example_caller 0).

Lemma library_calls_witness :
  match library 0x80040000 0x80003000 0x80004000 0x80020000 0x80001100 0x80100000 0x80200000 [] None (λ a, a) false (mk_tes 0 0 0) 0 CGetpid example_trap with
  | Ok (r, _) => r = Some 1
  | _ => False
  end.
Proof.
  rewrite (library_calls 0x80040000 0x80003000 0x80004000 0x80020000 0x80001100 0x80100000 0x80200000 [] None (λ a, a) false (mk_tes 0 0 0) 0 1
    (th (k_sched (m_kern (example_caller 0))) 1) (example_regs 0) CGetpid example_trap).
  - vm_compute. reflexivity.
  - constructor; reflexivity.
  - done.
Defined.
