(* ===== verification/Boot.v ===== *)
(** * Starting the kernel (src/buenos/init/main.c)

    [init] is what the first processor does between entering the kernel and
    its first thread: it calls the initialisers of all the components, in an
    order they rely on, creates the start-up thread and gives it the processor.
    The state has the static variables of all of them; the memory of kmalloc is
    shared by the boot arguments, the devices and the page pool.  Printing is
    left out. *)

From stdpp Require Import gmap.
From S2P Require Import Prelude Bitmap Kmalloc Pagepool Vm Sched SchedSpec Semaphore Libc FsCodes Vfs Process UsrSem Bootargs Devices Polltty.
Local Open Scope Z_scope.

Section boot.
(** The descriptors and registers of the machine, the end of the kernel's own
    memory, the line of boot arguments, and what fresh memory holds. *)
Context (io_desc : list io_descriptor) (io_read : Z → Z) (kernel_ends_here : Z) (bootarg_area : bytes) (junk : Z → bytes)
  (garbage : nat → bitmap_t).
(** The addresses of the threads' stacks, of functions and of static devices. *)
Context (thread_stack_areas idle_loop thread_finish_addr init_startup_thread system_rtc system_meminfo system_shutdown : Z).

Record boot := mk_boot {
  polltty_iobase : Z;
  bt_kmalloc : kmalloc_state;
  bt_values : list bootarg;
  bt_area : bytes;
  bt_seed : Z;
  bt_machine : machine;
  bt_sched : sched;
  bt_procs : list pcb;
  bt_sem_table : list semaphore;
  bt_sem_next : Z;
  bt_usr : list usr_sem_block;
  bt_vfs : vfs;
  bt_pool : pagepool;
  kernel_bootstrap_finished : bool;
}.

Definition with_kmalloc (k : kmalloc_state) (m : machine) : machine :=
  mk_machine (interrupt_stacks m) (interrupt_handlers m) (is_in_interrupt m) (device_table m) (number_of_devices m) (tty_inits m)
    (rtc_done m) (meminfo_done m) (shutdown_done m) k.

Definition on_kmalloc {A} (m : K kmalloc_state A) : K boot A :=
  zoom bt_kmalloc (λ k s, mk_boot (polltty_iobase s) k (bt_values s) (bt_area s) (bt_seed s) (bt_machine s) (bt_sched s) (bt_procs s)
    (bt_sem_table s) (bt_sem_next s) (bt_usr s) (bt_vfs s) (bt_pool s) (kernel_bootstrap_finished s)) m.
Definition on_args {A} (m : K bootargs A) : K boot A :=
  zoom (λ s, mk_bootargs (bt_values s) (bt_area s) (bt_kmalloc s))
    (λ a s, mk_boot (polltty_iobase s) (ba_kmalloc a) (bootargs_values a) (value_area a) (bt_seed s) (bt_machine s) (bt_sched s) (bt_procs s)
      (bt_sem_table s) (bt_sem_next s) (bt_usr s) (bt_vfs s) (bt_pool s) (kernel_bootstrap_finished s)) m.
Definition on_machine {A} (m : K machine A) : K boot A :=
  zoom (λ s, with_kmalloc (bt_kmalloc s) (bt_machine s))
    (λ x s, mk_boot (polltty_iobase s) (m_kmalloc x) (bt_values s) (bt_area s) (bt_seed s) x (bt_sched s) (bt_procs s)
      (bt_sem_table s) (bt_sem_next s) (bt_usr s) (bt_vfs s) (bt_pool s) (kernel_bootstrap_finished s)) m.
Definition on_bsched {A} (m : K sched A) : K boot A :=
  zoom bt_sched (λ q s, mk_boot (polltty_iobase s) (bt_kmalloc s) (bt_values s) (bt_area s) (bt_seed s) (bt_machine s) q (bt_procs s)
    (bt_sem_table s) (bt_sem_next s) (bt_usr s) (bt_vfs s) (bt_pool s) (kernel_bootstrap_finished s)) m.
Definition on_kern {A} (m : K (@kern pagepool) A) : K boot A :=
  zoom (λ s, mk_kern (bt_procs s) (bt_sched s) (bt_pool s, ∅))
    (λ k s, mk_boot (polltty_iobase s) (bt_kmalloc s) (bt_values s) (bt_area s) (bt_seed s) (bt_machine s) (k_sched k) (process_table k)
      (bt_sem_table s) (bt_sem_next s) (bt_usr s) (bt_vfs s) (fst (k_vm k)) (kernel_bootstrap_finished s)) m.
Definition on_bsems {A} (m : K (@sems sched) A) : K boot A :=
  zoom (λ s, mk_sems (bt_sem_table s) (bt_sem_next s) (bt_sched s))
    (λ x s, mk_boot (polltty_iobase s) (bt_kmalloc s) (bt_values s) (bt_area s) (bt_seed s) (bt_machine s) (sq x) (bt_procs s)
      (semaphore_table x) (sem_next x) (bt_usr s) (bt_vfs s) (bt_pool s) (kernel_bootstrap_finished s)) m.
Definition on_usr {A} (m : K (@usems sched) A) : K boot A :=
  zoom (λ s, mk_usems (bt_usr s) (mk_sems (bt_sem_table s) (bt_sem_next s) (bt_sched s)))
    (λ u s, mk_boot (polltty_iobase s) (bt_kmalloc s) (bt_values s) (bt_area s) (bt_seed s) (bt_machine s) (sq (k_sems u)) (bt_procs s)
      (semaphore_table (k_sems u)) (sem_next (k_sems u)) (usr_sem_table u) (bt_vfs s) (bt_pool s) (kernel_bootstrap_finished s)) m.
Definition on_bvfs {A} (m : K (@vstate (@sems sched)) A) : K boot A :=
  zoom (λ s, (bt_vfs s, mk_sems (bt_sem_table s) (bt_sem_next s) (bt_sched s)))
    (λ v s, mk_boot (polltty_iobase s) (bt_kmalloc s) (bt_values s) (bt_area s) (bt_seed s) (bt_machine s) (sq (snd v)) (bt_procs s)
      (semaphore_table (snd v)) (sem_next (snd v)) (bt_usr s) (fst v) (bt_pool s) (kernel_bootstrap_finished s)) m.
Definition on_bpool {A} (m : K (kmalloc_state * pagepool) A) : K boot A :=
  zoom (λ s, (bt_kmalloc s, bt_pool s))
    (λ x s, mk_boot (polltty_iobase s) (fst x) (bt_values s) (bt_area s) (bt_seed s) (bt_machine s) (bt_sched s) (bt_procs s)
      (bt_sem_table s) (bt_sem_next s) (bt_usr s) (bt_vfs s) (snd x) (kernel_bootstrap_finished s)) m.
Definition set_iobase (v : Z) (s : boot) : boot :=
  mk_boot v (bt_kmalloc s) (bt_values s) (bt_area s) (bt_seed s) (bt_machine s) (bt_sched s) (bt_procs s)
    (bt_sem_table s) (bt_sem_next s) (bt_usr s) (bt_vfs s) (bt_pool s) (kernel_bootstrap_finished s).
Definition set_seed (v : Z) (s : boot) : boot :=
  mk_boot (polltty_iobase s) (bt_kmalloc s) (bt_values s) (bt_area s) v (bt_machine s) (bt_sched s) (bt_procs s)
    (bt_sem_table s) (bt_sem_next s) (bt_usr s) (bt_vfs s) (bt_pool s) (kernel_bootstrap_finished s).
Definition set_finished (s : boot) : boot :=
  mk_boot (polltty_iobase s) (bt_kmalloc s) (bt_values s) (bt_area s) (bt_seed s) (bt_machine s) (bt_sched s) (bt_procs s)
    (bt_sem_table s) (bt_sem_next s) (bt_usr s) (bt_vfs s) (bt_pool s) true.

(** "randomseed" *)
Definition randomseed : bytes := [114; 97; 110; 100; 111; 109; 115; 101; 101; 100; 0].

(** The characters from a pointer into the boot arguments on. *)
Definition string_at (p : string_ptr) (area : bytes) : bytes :=
  match p with VEmpty => [0] | VAt o => drop (Z.to_nat o) area end.

(** [semaphore_create], as [vfs_init] calls it on the first processor. *)
Definition create_sem (v : Z) : K (@sems sched) bool := r ← semaphore_create 0 v; mret (match r with Some _ => true | None => false end).

Definition init : K boot unit :=
  iobase ← pure (polltty_init io_desc);
  modify (set_iobase iobase);;
  on_kmalloc (kmalloc_init io_desc io_read kernel_ends_here);;
  on_args (bootargs_init bootarg_area junk);;
  arg ← on_args (bootargs_get randomseed);
  (match arg with
   | None => modify (set_seed 0)
   | Some p => area ← gets bt_area; seed ← pure (atoi (string_at p area)); modify (set_seed seed)
   end);;
  let numcpus := cpustatus_count io_desc in
  kassert (numcpus <=? CONFIG_MAX_CPUS);;
  on_machine (interrupt_init numcpus);;
  on_bsched (thread_table_init thread_stack_areas idle_loop);;
  on_kern process_init;;
  on_bsched sleepq_init;;
  on_bsems semaphore_init;;
  on_usr usr_sem_init;;
  on_machine (device_init system_rtc system_meminfo system_shutdown io_desc);;
  on_bvfs (vfs_init create_sem);;
  on_bsched scheduler_init;;
  on_bpool (vm_init io_desc io_read garbage);;
  startup_thread ← on_bsched (thread_create thread_stack_areas thread_finish_addr init_startup_thread 0);
  on_bsched (thread_run startup_thread);;
  modify set_finished;;
  on_bsched (thread_switch 0).

End boot.
