(* ===== verification/BootSpec.v ===== *)
(** * Starting the kernel: the system is ready when the first thread runs

    The initialisers, called in the order [init] calls them, leave every
    component in the state its own theorems start from. *)

From stdpp Require Import gmap.
From S2P Require Import Prelude Bitmap Kmalloc Pagepool Vm Sched SchedSpec Semaphore Libc FsCodes Vfs VfsSpec Process ProcessSpec UsrSem Bootargs Devices DevicesSpec NetSpec NetInit Polltty Boot.
Local Open Scope Z_scope.

(** ** Memory *)

Lemma kmalloc_init_wp io_desc io_read kernel_ends_here n k (Q : unit → kmalloc_state → Prop) :
  (∀ k, kmalloc_get_numpages io_desc io_read k = Ok (n, k)) → 0 < n < 2 ^ 19 - 1 →
  Q tt (mk_kmalloc (word_align kernel_ends_here) (0x80000000 + n * PAGE_SIZE)) →
  wp (kmalloc_init io_desc io_read kernel_ends_here) Q k.
Proof.
  intros Hnum Hn HQ. unfold kmalloc_init. wp_step. wp_step. wp_step. unfold wp at 1. rewrite Hnum. wp_step.
  rewrite s32_small by (unfold is_s32, PAGE_SIZE; lia). rewrite (u32_small (n * _)), u32_small by (unfold is_u32, PAGE_SIZE; lia). done.
Qed.

Lemma kmalloc_init_ready kernel_ends_here n room :
  0x80000000 < kernel_ends_here → 0 < n < 2 ^ 19 - 1 → 0 ≤ room → kernel_ends_here + 3 + room ≤ 0x80000000 + n * PAGE_SIZE →
  kmalloc_wf (mk_kmalloc (word_align kernel_ends_here) (0x80000000 + n * PAGE_SIZE)) ∧
  0x80000000 < word_align kernel_ends_here ∧ word_align kernel_ends_here + room ≤ 0x80000000 + n * PAGE_SIZE.
Proof.
  intros Hk Hn Hroom Hend. unfold PAGE_SIZE in *. destruct (word_align_spec kernel_ends_here) as (_ & Hr & Hm); [lia |].
  unfold kmalloc_wf. simpl. lia.
Qed.

(** ** The tables of processes and semaphores *)

Section tables.
Context {P : Type} `{PageAlloc P}.

Lemma process_init_wp (s : @kern P) (Q : unit → @kern P → Prop) :
  length (process_table s) = 32%nat → Forall (λ p, length (executable p) = 64%nat ∧ length (pfiles p) = 512%nat) (process_table s) →
  Q tt (set_ptable (free_pcb <$> process_table s) s) → wp process_init Q s.
Proof.
  intros Hl Hp HQ. unfold process_init. change (Z.to_nat PROCESS_MAX_PROCESSES) with 32%nat. rewrite <- Hl.
  apply (wp_for_rows process_table set_ptable free_pcb _ _ _ _ ltac:(by intros []) ltac:(done) ltac:(done) Hp); [| done].
  intros i p s1 R Hi Hlk [H1 H2] HR. by apply (process_reset_wp i p).
Qed.
End tables.

Section semaphores.
Context {Q : Type} `{SleepQueue Q}.

Definition free_sem (x : semaphore) : semaphore := mk_sem (value x) (-1).

Lemma semaphore_init_wp (s : @sems Q) (R : unit → @sems Q → Prop) :
  length (semaphore_table s) = 128%nat →
  R tt (set_sem_table (free_sem <$> semaphore_table s) s) → wp semaphore_init R s.
Proof.
  intros Hl HR. unfold semaphore_init. change (Z.to_nat CONFIG_MAX_SEMAPHORES) with 128%nat. rewrite <- Hl.
  apply (wp_for_rows semaphore_table set_sem_table free_sem (λ _, True)); [by intros [] | done | done | by apply Forall_true | | done].
  intros i x s1 T Hi Hx _ HT. wp_step. eapply get_sem_wp; [lia | exact Hx |]. eapply put_sem_wp; [| done].
  apply lookup_lt_Some in Hx. lia.
Qed.

Definition free_block (b : usr_sem_block) : usr_sem_block := mk_block USR_SEM_FREE (b_name b) (kernel_sem b).

Lemma usr_sem_init_wp (s : @usems Q) (R : unit → @usems Q → Prop) :
  length (usr_sem_table s) = 32%nat →
  R tt (mk_usems (free_block <$> usr_sem_table s) (k_sems s)) → wp usr_sem_init R s.
Proof.
  intros Hl HR. unfold usr_sem_init. change (Z.to_nat MAX_USR_SEM) with 32%nat. rewrite <- Hl.
  apply (wp_for_rows usr_sem_table (λ l s, mk_usems l (k_sems s)) free_block (λ _, True)); [by intros [] | done | done | by apply Forall_true | | done].
  intros i b s1 T Hi Hb _ HT. unfold usr_sem_reset. wp_step. eapply get_block_wp; [lia | exact Hb |]. apply put_block_wp; [| done].
  apply lookup_lt_Some in Hb. lia.
Qed.
End semaphores.

(** All semaphores are free after [semaphore_init]. *)
Lemma free_sems_all (x : @sems sched) :
  length (semaphore_table x) = 128%nat → free_sems (set_sem_table (free_sem <$> semaphore_table x) x) = list_to_set (seqZ 0 128).
Proof.
  intros Hl. apply set_eq. intros k. rewrite elem_of_free_sems, elem_of_list_to_set, elem_of_seqZ. cbn. split; [intros [? _]; lia |].
  intros Hk. split; [lia |]. rewrite list_lookup_fmap. destruct (lookup_lt_is_Some_2 (semaphore_table x) (Z.to_nat k)) as [y ->]; [lia | done].
Qed.

Lemma sems_start table_addr (x : @sems sched) :
  sched_inv (sq x) → length (semaphore_table x) = 128%nat → 0 ≤ sem_next x < 128 → (∀ y, y ≠ 0 → waiters (sq x) y = []) → 0 < table_addr →
  sems_are table_addr (set_sem_table (free_sem <$> semaphore_table x) x) [].
Proof.
  intros Hq Hl Hn Hw Ha. split_and!; [| constructor | constructor]. split_and!; simpl; try done; [by rewrite length_fmap | lia | lia |].
  intros i y Hi. rewrite list_lookup_fmap. destruct (semaphore_table x !! Z.to_nat i); [| done]. intros [= <-].
  unfold sem_ok, sem_waiters, sem_addr. simpl. apply Hw. unfold SIZEOF_SEMAPHORE. lia.
Qed.

(** ** The virtual filesystem *)

(** Nothing is mounted and nothing is open. *)
Definition vfs_ready (v : vfs) : Prop :=
  idle v ∧ vfs_ops v = 0 ∧ vfs_unmount_sem v = Some 0 ∧
  Forall (λ e, filesystem e = NULL) (filesystems v) ∧ Forall (λ e, of_filesystem e = NULL) (files v).

Lemma vfs_init_wp table_addr (v : vfs) (x : @sems sched) n (R : unit → @vstate (@sems sched) → Prop) :
  0 < table_addr → sems_are table_addr x [] → size (free_sems x) = (4 + n)%nat → length (filesystems v) = 8%nat → length (files v) = 512%nat →
  (∀ v' x', vfs_ready v' → (∃ a b c d, sems_are table_addr x' [(d, 0); (c, 1); (b, 1); (a, 1)]) → size (free_sems x') = n → sq x' = sq x → R tt (v', x')) →
  wp (vfs_init create_sem) R (v, x).
Proof.
  intros Ha Hs Hn Hl1 Hl2 HR. unfold vfs_init, driver, create_sem, modv.
  wp_step. wp_step. wp_step. eapply wp_mono; [by apply (create_room_wp table_addr Ha 0 1 [] x (3 + n)) |]. intros _ x1 (a & -> & Hs1 & Hn1 & Hq1). wp_steps.
  eapply wp_mono; [by apply (create_room_wp table_addr Ha 0 1 _ _ (2 + n) Hs1) |]. intros _ x2 (b & -> & Hs2 & Hn2 & Hq2). wp_steps; [done |]. wp_steps.
  eapply wp_mono; [by apply (create_room_wp table_addr Ha 0 1 _ _ (1 + n) Hs2) |]. intros _ x3 (c & -> & Hs3 & Hn3 & Hq3). wp_steps.
  eapply wp_mono; [by apply (create_room_wp table_addr Ha 0 0 _ _ n Hs3) |]. intros _ x4 (d & -> & Hs4 & Hn4 & Hq4). wp_steps.
  apply HR; [| by exists a, b, c, d | done | cbn [snd]; congruence]. split_and!; simpl; try done.
  - constructor; simpl; try done; by rewrite length_map.
  - apply Forall_fmap, Forall_true. done.
  - apply Forall_fmap, Forall_true. done.
Qed.

(** ** The first thread *)

(** Only the thread [t] runs, on processor 0; it begins at [func]. *)
Record starts (s : sched) (t func fin : Z) : Prop := {
  sr_inv : sched_inv s;
  sr_tid : tid t;
  sr_cur : scheduler_current_thread s = [t; 0; 0; 0];
  sr_run : st_of s t = THREAD_RUNNING;
  sr_others u : tid u → u ≠ t → st_of s u = THREAD_FREE;
  sr_quiet y : y ≠ 0 → waiters s y = [];
  sr_pc : ctx_pc (th_ctx (th s t)) = func;
  sr_a0 : ctx_a0 (th_ctx (th s t)) = 0;
  sr_ra : ctx_ra (th_ctx (th s t)) = fin;
}.

(** No thread yet: the tables after [thread_table_init] and [sleepq_init]. *)
Definition no_threads (s : sched) : Prop :=
  rep s [] (λ _, []) ∧ scheduler_current_thread s = [0; 0; 0; 0] ∧
  ∀ u, slot u → st_of s u = (if u =? 0 then THREAD_READY else THREAD_FREE) ∧ so_of s u = 0.

Lemma no_threads_quiet s y : no_threads s → waiters s y = [].
Proof. intros (Hr & _). by rewrite (rep_waiters _ _ _ _ Hr). Qed.

Lemma no_threads_start s l :
  bss s → length l = 127%nat → (∀ h, hash_index h → nth (Z.to_nat h) l (-1) = -1) → scheduler_current_thread s = [0; 0; 0; 0] →
  (∀ u, slot u → st_of s u = (if u =? 0 then THREAD_READY else THREAD_FREE) ∧ so_of s u = 0) →
  no_threads (set_hashtable l s).
Proof.
  intros Hb Hl Hh Hc Hth. split; [| by split]. apply init_rep; try done. destruct Hb as (? & ? & ? & ? & ? & ?). by split_and!.
Qed.

Lemma startup_wp s stacks fin func :
  no_threads s →
  wp (thread_create stacks fin func 0) (λ t, wp (thread_run t) (λ _, wp (thread_switch 0) (λ _ s', starts s' t func fin))) s.
Proof.
  intros (Hrep & Hcur & Hth). eapply wp_mono; [by apply thread_create_wp |]. intros t s1 [(-> & -> & Hno)|(Ht & _ & [Hrep1 Hlk1] & Hpc & Ha0 & Hra & _)].
  { exfalso. apply (Hno 1); [unfold tid; lia |]. by destruct (Hth 1) as [-> _]; [unfold slot; lia |]. }
  pose proof (tid_slot _ Ht) as Hts.
  assert (Hst1 : st_of s1 t = THREAD_NONREADY) by (by rewrite (lk_st _ _ _ _ Hlk1), fu_eq).
  eapply wp_mono; [apply (wp_keeps _ _ _ (add_ready_wp _ _ _ t Hrep1 Ht Hst1) (keeps_add_ready t)) |].
  intros [] s2 [[Hrep2 Hlk2] Hk2]. eapply wp_mono; [apply (wp_keeps _ _ _ (schedule_wp _ _ _ 0 Hrep2 ltac:(lia)) (keeps_schedule 0)) |].
  intros [] s3 [(c & t' & Hc & Et & [Hrep3 Hlk3]) Hk3]. rewrite (lk_cur _ _ _ _ Hlk2), (lk_cur _ _ _ _ Hlk1), Hcur in Hc. injection Hc as <-.
  assert (El : leave_ready (st_of s2) (so_of s2) ([] ++ [t]) 0 = [t]) by (unfold leave_ready; by rewrite orb_true_r).
  rewrite El in *. cbn [head tail default] in *. subst t'. destruct (Hk3 t) as (_ & _ & Ec3), (Hk2 t) as (_ & _ & Ec2).
  constructor; try done; rewrite ?Ec3, ?Ec2; try done.
  - by eapply rep_inv.
  - rewrite (lk_cur _ _ _ _ Hlk3), (lk_cur _ _ _ _ Hlk2), (lk_cur _ _ _ _ Hlk1), Hcur. done.
  - by rewrite (lk_st _ _ _ _ Hlk3), fu_eq.
  - intros u Hu Hne. pose proof (tid_slot _ Hu) as Hus. unfold tid in Hu.
    rewrite (lk_st _ _ _ _ Hlk3), fu_ne by done. unfold leave. rewrite fu_ne by lia.
    rewrite (lk_st _ _ _ _ Hlk2), fu_ne, (lk_st _ _ _ _ Hlk1), fu_ne by done. destruct (Hth u Hus) as [-> _]. case_test; [lia | done].
  - intros y _. by rewrite (rep_waiters _ _ _ _ Hrep3).
Qed.

(** ** The seed and the polling terminal *)

(** [atoi] reads no further than the end of the string. *)
Lemma atoi_digits_cstr l v sign value : cstr l = Some v → atoi_digits l sign value = atoi_digits (v ++ [0]) sign value.
Proof.
  revert v value. induction l as [|c l IH]; intros v value; cbn; [done |]. destruct (Z.eqb_spec c 0) as [->|Hc].
  - by intros [= <-].
  - destruct (cstr l) as [w|]; [| done]. intros [= <-]. cbn. case_match; [| done].
    destruct (int_op (10 * value)) as [x| | | |]; [| done..]. cbn. destruct (int_op _) as [y| | | |]; [| done..]. cbn. by apply IH.
Qed.

Lemma skip_spaces_cstr l v : cstr l = Some v → ∃ l' v', skip_spaces l = Ok l' ∧ skip_spaces (v ++ [0]) = Ok (v' ++ [0]) ∧ cstr l' = Some v'.
Proof.
  revert v. induction l as [|c l IH]; intros v; cbn; [done |]. destruct (Z.eqb_spec c 0) as [->|Hc].
  - intros [= <-]. by exists (0 :: l), [].
  - destruct (cstr l) as [w|] eqn:E; [| done]. intros [= <-]. cbn. rewrite (proj2 (Z.eqb_neq c 0) Hc). cbn [negb andb].
    destruct (is_space c); [by apply IH |]. exists (c :: l), (c :: w). cbn. by rewrite (proj2 (Z.eqb_neq c 0) Hc), E.
Qed.

Lemma atoi_cstr l v : cstr l = Some v → atoi l = atoi (v ++ [0]).
Proof.
  intros (l' & v' & E1 & E2 & E)%skip_spaces_cstr. unfold atoi. rewrite E1, E2. cbn [mbind res_bind]. destruct l' as [|c l']; [done |].
  cbn in E. destruct (Z.eqb_spec c 0) as [->|Hc]; [by injection E as <- |]. destruct (cstr l') as [w|] eqn:Ew; [| done]. injection E as <-.
  cbn [app]. rewrite (proj2 (Z.eqb_neq c 0) Hc). repeat (case_match; [by apply atoi_digits_cstr |]).
  apply (atoi_digits_cstr (c :: l') (c :: w)). cbn. by rewrite (proj2 (Z.eqb_neq c 0) Hc), Ew.
Qed.

Lemma polltty_init_spec l :
  (∃ d, d ∈ l ∧ io_type d = 0) →
  polltty_init l = Ok (match list_find (λ d, io_type d = 0 ∨ io_type d = 0x201) l with
                       | Some (_, d) => if io_type d =? 0 then 0 else io_area_base d
                       | None => 0 end).
Proof.
  induction l as [|d l IH]; intros (e & He & He0); [by apply elem_of_nil in He |]. cbn.
  destruct (Z.eqb_spec (io_type d) 0) as [E|E]; [rewrite decide_True by (by left); by rewrite E |].
  destruct (Z.eqb_spec (io_type d) 0x201) as [E'|E'].
  { rewrite decide_True by (by right). by rewrite (proj2 (Z.eqb_neq _ _) E). }
  rewrite decide_False by tauto. rewrite IH; [by destruct (list_find _ l) as [[]|] |]. exists e.
  apply elem_of_cons in He as [->|]; done.
Qed.

(** ** The whole of [init] *)

Section boot.
Context (io_desc : list io_descriptor) (io_read : Z → Z) (kernel_ends_here : Z) (bootarg_area : bytes) (junk : Z → bytes)
  (garbage : nat → bitmap_t).
Context (thread_stack_areas idle_loop thread_finish_addr init_startup_thread system_rtc system_meminfo system_shutdown : Z).
(** The addresses of the tables of semaphores and of processes. *)
Context (sems_addr procs_addr : Z).

(** "randomseed", as the key of a boot argument *)
Definition seed_key : bytes := [114; 97; 110; 100; 111; 109; 115; 101; 101; 100].

(** A machine the kernel can start on: its descriptors end, it has the devices
    of a machine, [n] pages of memory, up to four processors and room for
    what the kernel allocates; the boot arguments are [args]. *)
Record machine_boots (args : list arg) (n : Z) : Prop := {
  mb_end : ∃ d, d ∈ io_desc ∧ io_type d = 0;
  mb_descs : machine_ok io_desc ∧ (length io_desc ≤ 128)%nat;
  mb_cpus : 1 ≤ cpustatus_count io_desc ≤ CONFIG_MAX_CPUS;
  mb_pages k : kmalloc_get_numpages io_desc io_read k = Ok (n, k);
  mb_few : 0 < n < 2 ^ 19 - 1;
  mb_kernel : 0x80000000 < kernel_ends_here;
  mb_room : kernel_ends_here + 10 + Z.of_nat (length (line_text args)) + 4100 * cpustatus_count io_desc +
    4200 * Z.of_nat (length io_desc) + bitmap_sizeof n ≤ 0x80000000 + n * PAGE_SIZE;
  mb_args : Forall arg_ok args ∧ args ≠ [] ∧ (length args ≤ 32)%nat ∧ cstr bootarg_area = Some (line_text args);
  mb_seed v : arg_value args seed_key = Some v → ∃ z, atoi (v ++ [0]) = Ok z;
  mb_junk m : 0 ≤ m → Z.of_nat (length (junk m)) = m;
  mb_garbage m : bitmap_wf m (garbage m);
}.

(** The static variables have their sizes and the values they are given at
    compile time. *)
Record statics (s : boot) : Prop := {
  sta_args : length (bt_values s) = 32%nat;
  sta_machine k : kmalloc_wf k → tables_unset (with_kmalloc k (bt_machine s));
  sta_sched : bss (bt_sched s) ∧ scheduler_current_thread (bt_sched s) = [0; 0; 0; 0];
  sta_procs : length (bt_procs s) = 32%nat ∧ Forall (λ p, length (executable p) = 64%nat ∧ length (pfiles p) = 512%nat) (bt_procs s);
  sta_sems : length (bt_sem_table s) = 128%nat ∧ 0 ≤ bt_sem_next s < 128;
  sta_usr : length (bt_usr s) = 32%nat ∧ Forall (λ b, length (b_name b) = 32%nat ∧ is_bytes (b_name b)) (bt_usr s);
  sta_vfs : length (filesystems (bt_vfs s)) = 8%nat ∧ length (files (bt_vfs s)) = 512%nat;
}.

(** What [init] has made when the start-up thread [t] begins. *)
Record ready (args : list arg) (n t : Z) (s : boot) : Prop := {
  rd_thread : starts (bt_sched s) t init_startup_thread thread_finish_addr;
  rd_args : args_read args (mk_bootargs (bt_values s) (bt_area s) (bt_kmalloc s));
  rd_seed : match arg_value args seed_key with None => bt_seed s = 0 | Some v => atoi (v ++ [0]) = Ok (bt_seed s) end;
  rd_tty : Ok (polltty_iobase s) = polltty_init io_desc;
  rd_procs : kern_ok (mk_kern (bt_procs s) (bt_sched s) (bt_pool s, ∅)) ∧
    exits_seen procs_addr (mk_kern (bt_procs s) (bt_sched s) (bt_pool s, ∅)) ∧ Forall (λ p, pstate p = PROCESS_FREE) (bt_procs s);
  rd_sems : ∃ a b c d, sems_are sems_addr (mk_sems (bt_sem_table s) (bt_sem_next s) (bt_sched s)) [(d, 0); (c, 1); (b, 1); (a, 1)];
  rd_usr : table_ok (mk_usems (bt_usr s) (mk_sems (bt_sem_table s) (bt_sem_next s) (bt_sched s))) ∧
    Forall (λ b, b_state b = USR_SEM_FREE) (bt_usr s);
  rd_vfs : vfs_ready (bt_vfs s);
  rd_devices : ∃ l, tables l (bt_machine s) ∧ map fst l = filter known io_desc;
  rd_pool : pool_inv (bt_pool s) ∧ pagepool_num_pages (bt_pool s) = n;
  (** no page of the pool is in the memory of the stacks or of the devices, *)
  rd_apart p : 0 ≤ p → p ∈ pool_free (bt_pool s) → free_area_start (m_kmalloc (bt_machine s)) ≤ 0x80000000 + p * PAGE_SIZE;
  rd_stacks : stacks_ok kernel_ends_here (free_area_start (m_kmalloc (bt_machine s)))
    (take (Z.to_nat (cpustatus_count io_desc)) (interrupt_stacks (bt_machine s)));
  (** and nothing more is allocated. *)
  rd_kmalloc bytes : kmalloc bytes (bt_kmalloc s) = Panic "Attempting to use kmalloc after vm init";
  rd_others : kernel_bootstrap_finished s = true;
}.

Lemma with_kmalloc_self m : with_kmalloc (m_kmalloc m) m = m.
Proof. by destruct m. Qed.

Lemma stacks_weaken lo hi lo' hi' l : stacks_ok lo hi l → lo' ≤ lo → hi ≤ hi' → stacks_ok lo' hi' l.
Proof. intros [H1 H2] Hlo Hhi. split; [| done]. eapply Forall_impl; [exact H1 |]. cbn. lia. Qed.

Lemma sizeof_nonneg n : 0 < n < 2 ^ 19 - 1 → 0 ≤ bitmap_sizeof n.
Proof. intros Hn. rewrite bitmap_sizeof_spec by lia. pose proof (Z.div_pos (n + 31) 32). lia. Qed.

(** Up to the devices: memory, boot arguments, seed and interrupts. *)
Record part1 (args : list arg) (n : Z) (s0 s : boot) : Prop := {
  p1_args : args_read args (mk_bootargs (bt_values s) (bt_area s) (bt_kmalloc s));
  p1_seed : match arg_value args seed_key with None => bt_seed s = 0 | Some v => atoi (v ++ [0]) = Ok (bt_seed s) end;
  p1_tty : Ok (polltty_iobase s) = polltty_init io_desc;
  p1_tables : tables [] (bt_machine s) ∧ m_kmalloc (bt_machine s) = bt_kmalloc s;
  p1_stacks : stacks_ok kernel_ends_here (free_area_start (bt_kmalloc s)) (take (Z.to_nat (cpustatus_count io_desc)) (interrupt_stacks (bt_machine s)));
  p1_memory : memory_end (bt_kmalloc s) = 0x80000000 + n * PAGE_SIZE ∧ 0x80000000 < free_area_start (bt_kmalloc s) ∧
    free_area_start (bt_kmalloc s) + 3 + 4200 * Z.of_nat (length io_desc) + bitmap_sizeof n ≤ memory_end (bt_kmalloc s);
  p1_others : bt_sched s = bt_sched s0 ∧ bt_procs s = bt_procs s0 ∧ bt_sem_table s = bt_sem_table s0 ∧ bt_sem_next s = bt_sem_next s0 ∧
    bt_usr s = bt_usr s0 ∧ bt_vfs s = bt_vfs s0 ∧ bt_pool s = bt_pool s0;
}.

(** The part of [init] that makes it, followed by the rest. *)
Definition init1 (rest : K boot unit) : K boot unit :=
  iobase ← pure (polltty_init io_desc);
  modify (set_iobase iobase);;
  on_kmalloc (kmalloc_init io_desc io_read kernel_ends_here);;
  on_args (bootargs_init bootarg_area junk);;
  arg ← on_args (bootargs_get randomseed);
  (match arg with
   | None => modify (set_seed 0)
   | Some p => area ← gets bt_area; seed ← pure (atoi (string_at p area)); modify (set_seed seed)
   end);;
  let numcpus := cpustatus_count io_desc in
  kassert (numcpus <=? CONFIG_MAX_CPUS);;
  on_machine (interrupt_init numcpus);;
  rest.

Lemma init1_wp args n s0 rest (R : unit → boot → Prop) :
  machine_boots args n → statics s0 → (∀ s, part1 args n s0 s → wp rest R s) → wp (init1 rest) R s0.
Proof.
  intros M Hs HR. pose proof (mb_cpus _ _ M) as Hcpu. pose proof (mb_few _ _ M) as Hn.
  pose proof (sizeof_nonneg n Hn). pose proof (mb_room _ _ M) as Hroom. destruct (mb_args _ _ M) as (Ha1 & Ha2 & Ha3 & Ha4).
  destruct (kmalloc_init_ready kernel_ends_here n (Z.of_nat (length (line_text args)) + 7 + 4100 * cpustatus_count io_desc +
    4200 * Z.of_nat (length io_desc) + bitmap_sizeof n) (mb_kernel _ _ M) Hn ltac:(lia) ltac:(lia)) as (Hwf & Hpos & Hfit).
  unfold init1. wp_step. eapply wp_pure; [by apply polltty_init_spec, (mb_end _ _ M) |]. wp_step. wp_step. wp_step.
  unfold on_kmalloc. wp_step. apply (kmalloc_init_wp _ _ _ n); [apply (mb_pages _ _ M) | done |]. wp_step. unfold on_args. wp_step.
  eapply wp_mono; [apply (bootargs_init_wp _ _ args); try done; [apply Hs | cbn; lia | apply (mb_junk _ _ M)] |].
  cbn. intros [] a (Hread & Hwa & Hend & Hfree). wp_step. unfold on_args. wp_step. cbn.
  eapply wp_mono; [apply (bootargs_get_wp _ args randomseed seed_key Ha1 eq_refl); by destruct a |]. cbn. intros p b [-> Hp]. wp_step. cbn.
  set (s1 := mk_boot _ _ _ _ _ _ _ _ _ _ _ _ _ _). set (seed_ok := λ z, match arg_value args seed_key with None => z = 0 | Some v => atoi (v ++ [0]) = Ok z end).
  assert (Hseed : wp (match p with
    | None => modify (set_seed 0)
    | Some p => area ← gets bt_area; seed ← pure (atoi (string_at p area)); modify (set_seed seed) end) (λ _ s, ∃ z, s = set_seed z s1 ∧ seed_ok z) s1).
  { destruct p as [p|]; [destruct Hp as [[v Hv] Hp] | wp_step; exists 0; split; [done | unfold seed_ok; by rewrite Hp]].
    destruct (mb_seed _ _ M v Hv) as [z Hz]. wp_step. wp_step. wp_step. eapply wp_pure; [| wp_step; exists z; split; [done | unfold seed_ok; by rewrite Hv]].
    rewrite Hv in Hp. destruct p as [|o]; cbn in Hp; unfold string_at; [by injection Hp as <- | by rewrite (atoi_cstr _ v)]. }
  eapply wp_mono; [exact Hseed |]. intros [] s2 (z & -> & Hz). wp_step. wp_step; [apply Z.leb_le, Hcpu |]. wp_step. unfold on_machine. wp_step. cbn.
  eapply wp_mono; [apply interrupt_init_wp; [by apply (sta_machine _ Hs) | done | cbn; lia] |]. cbn. intros [] m (T & Em & Hfm & Hst).
  apply HR. constructor; cbn; try done.
  - symmetry. apply polltty_init_spec, (mb_end _ _ M).
  - pose proof (mb_kernel _ _ M). eapply stacks_weaken; [exact Hst | | done]. destruct (word_align_spec kernel_ends_here) as (_ & Hw & _); unfold PAGE_SIZE in *; lia.
  - lia.
Qed.

(** The processes and the semaphores have no users yet. *)
Lemma no_users (ps : list pcb) (q : sched) (v : @Vm.tables pagepool) :
  sched_inv q → length ps = 32%nat → Forall (λ p, length (executable p) = 64%nat ∧ length (pfiles p) = 512%nat) ps →
  kern_ok (mk_kern (free_pcb <$> ps) q v) ∧ exits_seen procs_addr (mk_kern (free_pcb <$> ps) q v) ∧
  Forall (λ p, pstate p = PROCESS_FREE) (free_pcb <$> ps).
Proof.
  intros Hq Hl Hp. assert (Hf : Forall (λ p, pstate p = PROCESS_FREE) (free_pcb <$> ps)) by (by apply Forall_fmap, Forall_true).
  split_and!; [| | done].
  - constructor; cbn; [by rewrite length_fmap | | | done]; intros i p (p0 & -> & Hi)%list_lookup_fmap_Some; [| done].
    cbn. rewrite length_insert. by apply (proj1 (Forall_lookup _ _) Hp i).
  - intros pid p _ Hlk Hz. cbn in Hlk. pose proof (proj1 (Forall_lookup _ _) Hf _ _ Hlk) as E. cbn in E. congruence.
Qed.

Lemma free_blocks_ok (us : list usr_sem_block) (x : @sems sched) :
  length us = 32%nat → Forall (λ b, length (b_name b) = 32%nat ∧ is_bytes (b_name b)) us →
  table_ok (mk_usems (free_block <$> us) x) ∧ Forall (λ b, b_state b = USR_SEM_FREE) (free_block <$> us).
Proof.
  intros Hl Hu. split; [| by apply Forall_fmap, Forall_true]. constructor; cbn; [by rewrite length_fmap |].
  intros i b (b0 & -> & Hi)%list_lookup_fmap_Some. cbn. destruct (proj1 (Forall_lookup _ _) Hu i b0 Hi). by split_and!.
Qed.

(** Look into the state, and into the part of it the next call works on. *)
Ltac fields := cbn [fst snd polltty_iobase bt_kmalloc bt_values bt_area bt_seed bt_machine bt_sched bt_procs bt_sem_table bt_sem_next bt_usr bt_vfs bt_pool
  kernel_bootstrap_finished process_table k_sched k_vm set_ptable semaphore_table sem_next sq set_sem_table usr_sem_table k_sems].
Ltac into := wp_step; apply wp_zoom; fields.

(** C7: The kernel starts.  On a machine with memory information, up to four
    processors, a list of descriptors that ends, interrupt lines 0 to 5 and
    room for what is allocated, [init] fails no assertion and comes to the
    point where the start-up thread runs on processor 0 and is the only thread;
    and then every component is in the state its own theorems begin with: no
    process, no semaphore but the four of the filesystem layer, nothing mounted
    or open, the seed that of the boot arguments, a [device_t] for each device,
    a page pool whose pages overlap neither the kernel nor the interrupt stacks
    nor the devices, and a [kmalloc] that allocates no more. *)
Theorem boot_ready args n s0 :
  machine_boots args n → statics s0 → 0 < sems_addr →
  wp (init io_desc io_read kernel_ends_here bootarg_area junk garbage thread_stack_areas idle_loop thread_finish_addr init_startup_thread
        system_rtc system_meminfo system_shutdown) (λ _ s, ∃ t, ready args n t s) s0.
Proof.
  intros M Hs Haddr. unfold init. eapply (init1_wp args n s0 _ _ M Hs). intros s1 P1.
  destruct (p1_others _ _ _ _ P1) as (Eq & Ep & Et & En & Eu & Ev & _). destruct (sta_sched _ Hs) as [Hb Hcur].
  into. rewrite Eq. eapply wp_mono; [by apply table_init_wp |]. intros [] q1 (Hb1 & Hth & Hc1 & _).
  into. apply process_init_wp; [fields; rewrite Ep; apply Hs | fields; rewrite Ep; apply Hs |]. fields. rewrite Ep.
  into. eapply wp_mono; [apply sleepq_init_wp, Hb1 |]. intros [] _ (l & -> & Hll & Hl).
  pose proof (no_threads_start q1 l Hb1 Hll Hl ltac:(congruence) Hth) as Hq. set (q2 := set_hashtable l q1) in *.
  into. rewrite Et, En. apply semaphore_init_wp; [apply Hs |]. fields. into. rewrite Eu. apply usr_sem_init_wp; [apply Hs |]. fields.
  into. destruct (p1_tables _ _ _ _ P1) as [T1 Ek]. rewrite <- Ek, with_kmalloc_self. destruct (p1_memory _ _ _ _ P1) as (Hend & Hpos & Hfit).
  destruct (mb_descs _ _ M) as [Hmok Hml]. pose proof (mb_few _ _ M) as Hn. pose proof (sizeof_nonneg n Hn) as Hsz. unfold device_init. rewrite take_ge by (unfold YAMS_MAX_DEVICES; lia).
  eapply wp_mono; [apply (init_loop_wp _ _ _ io_desc [] _ T1); [done | done | rewrite Ek; lia] |]. intros [] m (dl & T & Est & Edl & Hme & Hmf). cbn [app] in T. rewrite Ek in Hme, Hmf.
  into. rewrite Ev.
  eapply (vfs_init_wp sems_addr _ _ 124 _ Haddr); [| | apply Hs | apply Hs |].
  { apply (sems_start sems_addr (mk_sems (bt_sem_table s0) (bt_sem_next s0) q2)); try apply Hs; [by eapply rep_inv, Hq | | done].
    intros y _. by apply no_threads_quiet. }
  { by apply (eq_trans (f_equal size (free_sems_all (mk_sems (bt_sem_table s0) (bt_sem_next s0) q2) (proj1 (sta_sems _ Hs))))). }
  intros v x Hv Hx _ Eqx. cbn [sq] in Eqx. into. rewrite Eqx. eapply wp_mono; [apply scheduler_init_wp; apply Hb1 |]. intros [] q3 Eq3.
  assert (q3 = q2) as ->. { destruct q2 as [a1 a2 a3 a4 a5 a6] eqn:E2. rewrite Eq3. unfold set_current. cbn. f_equal. symmetry. apply (proj1 (proj2 Hq)). }
  into. unfold vm_init. wp_step.
  eapply wp_mono; [apply (pagepool_init_ok _ _ _ (m_kmalloc m) _ n (mb_pages _ _ M _) (mb_garbage _ _ M)); [apply T | lia | lia | lia | lia] |].
  intros [] [k p] (Hpool & Hpn & Hpk & Hpf). apply wp_zoom, wp_modify. fields.
  into. eapply wp_mono; [by apply (startup_wp q2) |]. intros t q4 H4. into. eapply wp_mono; [exact H4 |]. intros [] q5 H5. wp_step. wp_step.
  apply wp_zoom. unfold set_finished. fields. eapply wp_mono; [exact H5 |]. intros [] q6 H6. exists t.
  constructor; fields; try done.
  - exact (p1_args _ _ _ _ P1).
  - exact (p1_seed _ _ _ _ P1).
  - exact (p1_tty _ _ _ _ P1).
  - apply no_users; [apply H6 | apply Hs | apply Hs].
  - destruct Hx as (a & b & c & d & Hx). exists a, b, c, d. apply (sems_queue sems_addr Haddr _ x q6 Hx); [apply H6 |].
    intros y Hy. rewrite Eqx. apply (eq_trans (sr_quiet _ _ _ _ H6 y Hy)). symmetry. by apply no_threads_quiet.
  - apply free_blocks_ok; apply Hs.
  - by exists dl.
  - intros p0 Hp0 [_ Hin]%(Hpf _ Hp0). lia.
  - rewrite Est. eapply stacks_weaken; [exact (p1_stacks _ _ _ _ P1) | done | lia].
Qed.
End boot.

(** ** A machine to start on *)

(** "randomseed=42" *)
Definition example_line : list arg := [(seed_key, Some [52; 50])].
Definition example_off : boot :=
  mk_boot 0 (mk_kmalloc 0 0) (replicate 32 (mk_bootarg None VEmpty)) [] 0 example_machine
    (mk_sched (replicate 32 thread0) 0 (-1) (-1) [0; 0; 0; 0] (replicate 127 0))
    (replicate 32 (mk_pcb (replicate 64 0) PROCESS_FREE 0 0 0 (replicate 512 0))) (replicate 128 (mk_sem 0 0)) 0
    (replicate 32 (mk_block USR_SEM_USED (replicate 32 0) None))
    (mk_vfs None (replicate 8 (mk_entry 0 (replicate 16 0))) None (replicate 512 (mk_openfile 0 0 0)) None None 0 false)
    (mk_pool [] 0 0 0) false.

Lemma example_boots :
  machine_boots example_descs (λ _, 4096) 0x80020001 (seed_key ++ [61; 52; 50; 0; 7; 7]) (λ n, replicate (Z.to_nat n) 5) (λ m, replicate m 0xdeadbeef) example_line 4096.
Proof.
  constructor.
  - exists (mk_io_descriptor 0 0 0 0). split; [set_solver | done].
  - split; [apply example_descs_ok | cbn; lia].
  - vm_compute. split; discriminate.
  - reflexivity.
  - lia.
  - lia.
  - vm_compute. discriminate.
  - split_and!; [repeat constructor; cbn; try lia; done | done | cbn; lia | done].
  - intros v [= <-]. by exists 42.
  - intros m Hm. rewrite length_replicate. lia.
  - intros m. split; [apply length_replicate | apply Forall_replicate; unfold is_u32; lia].
Qed.

Lemma example_statics : statics example_off.
Proof.
  constructor; try done.
  - split; [done |]. by apply Forall_replicate.
  - split; [done |]. apply Forall_replicate. split; [done |]. by apply Forall_replicate.
Qed.

Lemma boot_ready_witness :
  wp (init example_descs (λ _, 4096) 0x80020001 (seed_key ++ [61; 52; 50; 0; 7; 7]) (λ n, replicate (Z.to_nat n) 5) (λ m, replicate m 0xdeadbeef)
        0x80020000 0x80001000 0x80001100 0x80001200 0x80000100 0x80000120 0x80000140)
    (λ _ s, bt_seed s = 42 ∧ ∃ t, scheduler_current_thread (bt_sched s) = [t; 0; 0; 0] ∧ ctx_pc (th_ctx (th (bt_sched s) t)) = 0x80001200) example_off.
Proof.
  eapply wp_mono; [apply (boot_ready _ _ _ _ _ _ 0x80020000 0x80001000 0x80001100 0x80001200 0x80000100 0x80000120 0x80000140 0x80030000 0x80040000
    example_line 4096 example_off example_boots example_statics); lia |].
  intros [] s (t & [H1 _ H2]). split; [change (Ok 42 = Ok (bt_seed s)) in H2; congruence |]. exists t. split; apply H1.
Defined.
