(* ===== verification/Startup.v ===== *)
(** * The start-up thread (src/buenos/init/main.c)

    The first thread of the kernel mounts the volumes, starts the network and
    runs the program that the boot argument initprog names.  The state has the
    parts of the kernel it uses; the scheduler and the page pool are those of
    the network's part. *)

From stdpp Require Import gmap.
From S2P Require Import Prelude Bitmap Kmalloc Pagepool Vm Sched SchedSpec Semaphore Libc Xprintf FsCodes Vfs VfsSpec Process ProcessSpec Io Bootargs Devices Net NetInit Boot.
Local Open Scope Z_scope.

(** The strings of the code. *)
Definition str_testconsole : bytes := [116; 101; 115; 116; 99; 111; 110; 115; 111; 108; 101; 0].
Definition str_initprog : bytes := [105; 110; 105; 116; 112; 114; 111; 103; 0].
(** "Hello user! Press any key.\n" *)
Definition str_hello : bytes :=
  [72; 101; 108; 108; 111; 32; 117; 115; 101; 114; 33; 32; 80; 114; 101; 115; 115; 32; 97; 110; 121; 32; 107; 101; 121; 46; 10; 0].
(** "You said: '%s'\n" *)
Definition str_said : bytes := [89; 111; 117; 32; 115; 97; 105; 100; 58; 32; 39; 37; 115; 39; 10; 0].

(** How the thread goes on: it waits for the first program, or the machine is
    off. *)
Inductive startup_result := Waits (pid : Z) | Off.

Section startup.
Context {F : Type} `{Filesystems F} {T : Type} `{Console T} {G : Type} `{NetDevice G} {P : Type} `{PageAlloc P} `{ThreadStart sched}.
(** The addresses of tables, of code and of the stacks; the devices: the table
    of the kernel, the disks, the first terminal and what the generic devices
    of network interfaces are; and what fresh memory holds. *)
Context (ptable_addr start_addr stacks finish_addr table_addr pop_service_thread network_receive_thread : Z).
Context (devices : Devices.machine) (disks : Z → option Z) (tty0 : option Z) (nic : Z → Z) (junk rev0 : bytes).

Record startup := mk_startup {
  su_args : bootargs;
  su_procs : list pcb;
  su_tables : gmap Z pagetable;
  su_vfs : @vstate F;
  su_tty : T;
  su_net : @net G P sched;
}.

Definition su_kern (s : startup) : @kern P := mk_kern (su_procs s) (sq (n_sems (su_net s))) (n_pool (su_net s), su_tables s).
Definition put_kern (k : @kern P) (s : startup) : startup :=
  mk_startup (su_args s) (process_table k) (snd (k_vm k)) (su_vfs s) (su_tty s)
    (set_npool (fst (k_vm k)) (set_nsems (mk_sems (semaphore_table (n_sems (su_net s))) (sem_next (n_sems (su_net s))) (k_sched k)) (su_net s))).

Definition on_sargs {A} (m : K bootargs A) : K startup A :=
  zoom su_args (λ a s, mk_startup a (su_procs s) (su_tables s) (su_vfs s) (su_tty s) (su_net s)) m.
Definition on_skern {A} (m : K (@kern P) A) : K startup A := zoom su_kern put_kern m.
Definition on_svfs {A} (m : K (@vstate F) A) : K startup A :=
  zoom su_vfs (λ v s, mk_startup (su_args s) (su_procs s) (su_tables s) v (su_tty s) (su_net s)) m.
Definition on_stty {A} (m : K T A) : K startup A :=
  zoom su_tty (λ t s, mk_startup (su_args s) (su_procs s) (su_tables s) (su_vfs s) t (su_net s)) m.
Definition on_snet {A} (m : K (@net G P sched) A) : K startup A :=
  zoom su_net (λ n s, mk_startup (su_args s) (su_procs s) (su_tables s) (su_vfs s) (su_tty s) n) m.

(** [halt_kernel]; the machine is off behind it. *)
Definition halt : K startup startup_result := on_svfs vfs_deinit;; mret Off.

Definition init_startup_fallback : K startup startup_result :=
  p ← on_sargs (bootargs_get str_testconsole);
  (match p with
   | None => mret tt
   | Some _ =>
       kassert (bool_decide (is_Some tty0));;
       let gcd := default 0 tty0 in
       kassert (negb (gcd =? 0));;
       '(len, o) ← pure (snprintf rev0 64 63 str_hello [] (mk_out junk []));
       on_stty (gcd_write gcd (o_buf o) len);;
       '(len, buffer2) ← on_stty (gcd_read gcd junk 63);
       kassert (0 <=? len);;
       buffer2 ← pure (aset buffer2 len 0);
       '(len, o) ← pure (snprintf rev0 64 63 str_said [AStr buffer2] (mk_out (o_buf o) []));
       on_stty (gcd_write gcd (o_buf o) len);;
       mret tt
   end);;
  halt.

(** Behind [process_join]. *)
Definition joined_result (pid : Z) (r : joined) : K startup startup_result :=
  match r with Asleep => mret (Waits pid) | Returned _ => halt end.

(** From the look at initprog on. *)
Definition run_initprog (cpu : Z) : K startup startup_result :=
  p ← on_sargs (bootargs_get str_initprog);
  match p with
  | None => init_startup_fallback
  | Some p =>
      area ← gets (λ s, value_area (su_args s));
      pid ← on_skern (process_spawn start_addr stacks finish_addr cpu (string_at p area));
      if pid <? 0 then panic "Couldn't fit initial program in process table."
      else r ← on_skern (process_join ptable_addr cpu pid); joined_result pid r
  end.

Definition init_startup_thread (cpu : Z) : K startup startup_result :=
  on_svfs (vfs_mount_all disks);;
  on_snet (network_init pop_service_thread network_receive_thread cpu devices nic);;
  run_initprog cpu.

(** The thread when it runs again after it has waited for the program. *)
Definition startup_resume (cpu pid : Z) : K startup startup_result :=
  r ← on_skern (join_turn ptable_addr cpu pid); joined_result pid r.

(** ** What it comes to *)

Context (ptable_addr_pos : 0 < ptable_addr).

(** "initprog" and "testconsole", as the keys of boot arguments *)
Definition key_initprog : bytes := [105; 110; 105; 116; 112; 114; 111; 103].
Definition key_testconsole : bytes := [116; 101; 115; 116; 99; 111; 110; 115; 111; 108; 101].

Lemma put_same_kern (s : startup) : put_kern (su_kern s) s = s.
Proof using Type. by destruct s as [? ? ? ? ? [? ? ? ? ? ? ? ? ? ? ? ? [] ?]]. Qed.

Lemma get_put_kern k (s : startup) : su_kern (put_kern k s) = k.
Proof using Type. by destruct k as [? ? []]. Qed.

Lemma string_at_cstr p area : cstr (string_at p area) = ptr_string area p.
Proof using Type. by destruct p. Qed.

Lemma spawned_ok (k k' : @kern P) i v me p :
  kern_ok k → exits_seen ptable_addr k → process_table k !! i = Some p → process_table k' = <[i := new_pcb v me p]> (process_table k) →
  sched_inv (k_sched k') → (∀ y, y ≠ 0 → waiters (k_sched k') y = waiters (k_sched k) y) → kern_ok k' ∧ exits_seen ptable_addr k'.
Proof using ptable_addr_pos.
  intros Hok Hex Hp Hpt Hq Hw. split.
  - destruct Hok as [Hl He Hf _]. constructor; [by rewrite Hpt, length_insert | | | done]; intros j q Hj; rewrite Hpt in Hj;
      apply list_lookup_insert_Some in Hj as [(_ & <- & _)|[_ Hj]]; eauto; cbn; [| by eapply Hf].
    rewrite splice_length; [by eapply He |]. rewrite (He _ _ Hp), length_app, length_take. change (length [0]) with 1%nat. lia.
  - intros pid q Hpid Hj Hz. rewrite Hpt in Hj. apply list_lookup_insert_Some in Hj as [(_ & <- & _)|[_ Hj]]; [done |].
    rewrite Hw by (unfold pcb_addr, SIZEOF_PCB; lia). by apply (Hex pid q).
Qed.

(** The first program is started: the start-up thread makes it a process of its
    own, with a thread that begins in process_start, and sleeps until the
    process ends. *)
Theorem initprog_starts cpu t args v i (s : startup) :
  Forall arg_ok args → args_read args (su_args s) → arg_value args key_initprog = Some v →
  kern_ok (su_kern s) → exits_seen ptable_addr (su_kern s) → runs (su_kern s) cpu t (-1) →
  first_free (su_kern s) = Some i → (∃ u, tid u ∧ st_of (k_sched (su_kern s)) u = THREAD_FREE) →
  wp (run_initprog cpu) (λ r s', r = Waits (Z.of_nat i) ∧ kern_ok (su_kern s') ∧ exits_seen ptable_addr (su_kern s') ∧
    (∃ p, su_procs s !! i = Some p ∧ su_procs s' = <[i := new_pcb v (-1) p]> (su_procs s)) ∧
    (∃ u, tid u ∧ u ≠ t ∧ st_of (k_sched (su_kern s)) u = THREAD_FREE ∧
       ctx_pc (th_ctx (th (k_sched (su_kern s')) u)) = start_addr ∧ ctx_a0 (th_ctx (th (k_sched (su_kern s')) u)) = Z.of_nat i) ∧
    waiters (k_sched (su_kern s')) (pcb_addr ptable_addr (Z.of_nat i)) = waiters (k_sched (su_kern s)) (pcb_addr ptable_addr (Z.of_nat i)) ++ [t]) s.
Proof using ptable_addr_pos.
  intros Hargs Hread Hv Hok Hex Hr Hff (u0 & Hu0 & Hfree0). unfold run_initprog. wp_step. unfold on_sargs. wp_step.
  eapply wp_mono; [by apply (bootargs_get_wp _ args str_initprog key_initprog) |]. intros r a [-> Hp]. rewrite Hv in Hp.
  destruct r as [p|]; [destruct Hp as [_ Hp] | done]. wp_step. wp_step. wp_step. unfold on_skern at 1. wp_step.
  change (value_area _) with (value_area (su_args s)). rewrite <- string_at_cstr in Hp.
  eapply wp_mono; [by apply (process_spawn_wp start_addr stacks finish_addr (su_kern s) cpu t (-1) _ v) |]. rewrite Hff.
  intros r k (p0 & Hp0 & Hpf & Hpt & Hvm & [(_ & _ & Hno)|(-> & Hq & u & Hu & Hfree & _ & Hw & Hpc & Ha0 & Hr1)]); [by destruct (Hno u0) |].
  rewrite (proj2 (Z.ltb_ge _ _)) by lia. wp_step. unfold on_skern. wp_step. rewrite get_put_kern.
  destruct (spawned_ok (su_kern s) k i v (-1) p0) as [Hok1 Hex1]; try done.
  pose proof (process_join_spec ptable_addr ptable_addr_pos k cpu t (-1) (Z.of_nat i) Hok1 Hex1 Hr1) as (r & k2 & E & Hok2 & Hex2 & Hpost).
  assert (Hi : process_table k !! Z.to_nat (Z.of_nat i) = Some (new_pcb v (-1) p0)).
  { rewrite Nat2Z.id, Hpt. apply list_lookup_insert_eq. by eapply lookup_lt_Some. }
  apply wp_iff. exists r, k2. split; [done |]. destruct Hpost as [(p1 & _ & Hp1 & _ & Hj)|(_ & _ & Hne)]; [| by destruct (Hne _ ltac:(lia) Hi)].
  rewrite Hi in Hp1. injection Hp1 as <-. cbn [join_post new_pcb pstate] in Hj. destruct Hj as (-> & Hpt2 & _ & _ & Hids & Hw2).
  unfold joined_result. wp_step. rewrite get_put_kern. split_and!; try done.
  - exists p0. split; [done |]. exact (eq_trans Hpt2 Hpt).
  - exists u. destruct (Hids u) as (_ & _ & ->). split_and!; try done. intros ->. rewrite (rn_st _ _ _ _ Hr) in Hfree. discriminate.
  - rewrite Hw2, Z.eqb_refl, Hw; [done | by apply addr_of_nz; lia ..].
Qed.

(** Without initprog, and without testconsole, the machine is turned off. *)
Lemma no_initprog_halts cpu args (s : startup) :
  Forall arg_ok args → args_read args (su_args s) → arg_value args key_initprog = None → arg_value args key_testconsole = None →
  run_initprog cpu s = halt s.
Proof using Type.
  intros Hargs Hread Hi Ht. unfold run_initprog, init_startup_fallback, on_sargs, zoom, mbind, K_bind.
  pose proof (bootargs_get_wp (su_args s) args str_initprog key_initprog Hargs eq_refl Hread) as ([p|] & a & -> & -> & Hp)%wp_iff;
    [rewrite Hi in Hp; by destruct Hp as [[? ?] _] |].
  cbn [su_args].
  pose proof (bootargs_get_wp (su_args s) args str_testconsole key_testconsole Hargs eq_refl Hread) as ([p|] & a & -> & -> & Hp2)%wp_iff;
    [rewrite Ht in Hp2; by destruct Hp2 as [[? ?] _] |].
  by destruct s.
Qed.

(** When the program has ended, so has the system. *)
Lemma resume_halts cpu t me pid p (s : startup) :
  kern_ok (su_kern s) → runs (su_kern s) cpu t me → 0 ≤ pid → su_procs s !! Z.to_nat pid = Some p → pstate p = PROCESS_ZOMBIE →
  ∃ s', startup_resume cpu pid s = halt s' ∧ su_vfs s' = su_vfs s ∧ su_procs s' = <[Z.to_nat pid := free_pcb p]> (su_procs s).
Proof using ptable_addr_pos.
  intros Hok Hr Hpid Hp Hz. pose proof (join_turn_wp ptable_addr ptable_addr_pos (su_kern s) cpu t me pid p Hok Hr Hpid Hp) as (r & k & E & Hj)%wp_iff.
  unfold join_post in Hj. rewrite bool_decide_true in Hj by done. destruct Hj as [-> ->].
  eexists. unfold startup_resume, on_skern, zoom, mbind, K_bind. rewrite E. cbn [joined_result]. done.
Qed.
End startup.
